(* ===== verification/_CoqProject ===== *)
-Q . S2P
Prelude.v
NanoTime.v
TimeQueue.v
GraphState.v
Scripted.v
Graph.v
WiringFacts.v
GraphWf.v
InitFacts.v
CycleProps.v
Scheduling.v
DynamicFacts.v
RunLoop.v
Lifecycle.v
RunProps.v
DynamicProps.v
NodeCalls.v
Transforms.v
Timing.v
OperatorProps.v
TimingProps.v
Iterators.v
Objects.v
Builders.v
Pipelines.v
Demux.v
DemuxProps.v
DynamicGroup.v
TimeSlices.v
Utf8.v
Fix.v
FixCodec.v
FixProps.v
FixNodes.v
Latency.v
Channel.v
ChannelNodes.v
Solo.v
ChannelProps.v
ChannelPipe.v
GraphNodes.v
GraphNodeProps.v
AsyncNodes.v
AsyncProps.v
Float.v
Statistics.v
StatFacts.v
MomentProps.v
ExtremeProps.v
SumProps.v
MedianProps.v
AeronUri.v
Aeron.v
AeronProps.v
Cache.v
CacheProps.v
Kdb.v
KdbProps.v
NodeWorld.v
Zmq.v
ZmqProps.v
Postgres.v
PostgresProps.v
Iceoryx.v
IceoryxProps.v
FixThread.v
FixThreadProps.v
Etcd.v
EtcdProps.v
Brokers.v
BrokerProps.v
Csv.v
Web.v
WebProps.v
Augurs.v
Telemetry.v
Macros.v
Python.v
PyLatency.v
PyAdapters.v
