(* ===== verification/Prelude.v ===== *)
(** * A verification development for the wingfoil stream-processing engine

    wingfoil runs a directed graph of nodes. A program builds node objects with
    the builder functions, hands the roots to a [Graph], and runs it, in
    historical mode (time jumps from one scheduled callback to the next) or in
    real time (the engine also waits for a clock and for other threads). In each
    cycle the engine runs the dirty nodes in the order of their layers; a node
    that ticks makes its active downstreams dirty. Nodes read their upstreams
    with [peek_value], ask for callbacks, and may add and remove nodes while the
    graph runs. Adapters connect graphs with other threads, tasks and protocols.
    Source files are named relative to [src/wingfoil/src/].

    ** Foundations

    - [Prelude]: results ([Res]: [Ok], [Err], a panic, or fuel that ran out), the
      state monad the Rust methods are written in, its rules ([respects],
      [inv_bind], the hint database [wingfoil]), lemmas on lists.
    - [NanoTime] (time.rs): [u64] nanoseconds with their wrap-around, saturation
      and panics.
    - [TimeQueue] (queue/): the deduplicating priority queue, refining an ordered
      list ([queue_refines_spec]).
    - [Utf8]: the validity of UTF-8, and its lossy decoding.

    ** The engine (graph.rs, types.rs)

    - [GraphState]: the tables of the engine, the methods a node may call on
      them, and the two classes through which the engine knows nodes: [NodeOps],
      what the engine calls ([impl Node]), and [NodeLaws], that a node changes the
      engine only by those methods. Every theorem about the engine is proved for
      all [NodeOps] with [NodeLaws].
    - [Graph]: wiring, the cycle, the loop, the lifecycle, and wiring changes.
    - [GraphWf]: the invariants. [WiringFacts], [InitFacts]: [Graph::new].
      [CycleProps]: one cycle is glitch free and exact.
      [Scheduling]: which nodes a cycle starts from. [DynamicFacts],
      [DynamicProps]: nodes added and removed while running.
      [RunLoop], [RunProps], [Lifecycle]: whole runs, their end, their clean-up.
    - [Scripted]: an instance of the interface to evaluate witnesses on.

    ** Nodes (nodes/)

    - [NodeCalls]: a node is a record of its fields, a method a computation on
      the pair of it and the engine's state; [drive] lists what a node emits.
    - [Transforms], [Timing], [Iterators]: the operators and sources, a module
      per node type. [OperatorProps], [TimingProps]: what they compute.
    - [Objects]: a heap of these nodes (39 types), an instance of [NodeOps] proved to
      satisfy [NodeLaws] ([combinator_nodes_lawful]), which closes the gap between the
      engine's theorems and graphs of these types; no node of the files below is in
      the heap. [Builders] (nodes/mod.rs): what
      the operators of the public interface allocate. [Pipelines]: the three
      together on a whole program.
    - [Demux], [DemuxProps] (demux.rs) and [DynamicGroup] (dynamic_group.rs):
      nodes that steer the engine themselves.
    - [Channel] (channel/), [ChannelNodes] (nodes/channel.rs, receiver.rs),
      [GraphNodes] (graph_node.rs), [AsyncNodes] (async_io.rs): graphs that talk
      to threads and tasks. [Solo] runs the real engine on one source node; on it
      [ChannelProps], [ChannelPipe] (receiver.rs too), [GraphNodeProps] and
      [AsyncProps] (producers and consumers) state what arrives, when, and what
      the speed of the other side can and cannot change.

    ** Adapters and measurement (adapters/, latency.rs)

    - [TimeSlices] (adapters/common.rs): how a historical window is cut.
    - [Fix], [FixCodec], [FixNodes] (adapters/fix/): codec, session, nodes.
      [FixProps], [FixNodes]: framing, delivery, subscription. [FixThread],
      [FixThreadProps]: the thread that connects, accepts, runs one session after
      another and reports them; every session is bracketed by its status
      ([fix_sessions_bracketed]).
    - [Latency] (latency.rs): stage statistics refine a list; the report.
    - [Float], [Statistics] (adapters/statistics.rs) and [StatFacts],
      [MomentProps], [ExtremeProps], [SumProps], [MedianProps]: the operators are
      written once against the class [Num], run on IEEE binary64, and are proved
      either for binary64 (minimum, maximum, NaN poisoning) or for the reals,
      where "the algorithm is exact" is a statement that can be true.
    - [AeronUri], [Aeron], [AeronProps] (adapters/aeron/): URIs, publisher and
      subscribers over the two transport traits; what the two ways to poll deliver
      ([aeron_modes_agree]).
    - [Cache], [CacheProps] (adapters/cache/): the file cache, its keys, what a
      lookup can return and what eviction leaves, whatever calls of the file
      system fail; with a file system in memory, to evaluate witnesses on.
    - [Kdb], [KdbProps] (adapters/kdb/): the time-sliced reader reads
      the run's window exactly; the cached reader gives the same stream where the
      answers are sorted as a whole ([kdb_read_cached_equiv]); columns are
      transposed, symbols quoted.
    - [NodeWorld]: nodes and threads that call a library, items stamped with the
      clock, the loop of a writer. On it:
    - [Zmq], [ZmqProps] (adapters/zmq/): publisher, subscriber, the registries; what
      is discarded while there is no subscriber ([zmq_pub_suffix]), and at the end.
    - [Postgres], [PostgresProps] (adapters/postgres/): the windowed reader, the live
      tail, the writer, quoting of names.
    - [Iceoryx], [IceoryxProps] (adapters/iceoryx2/): services, the subscriber in its
      three modes, the publishers.
    - [Etcd], [EtcdProps] (adapters/etcd/): a subscription is the snapshot followed by
      every later change ([etcd_sub_replays]); puts, leases and their renewal.
    - [Brokers], [BrokerProps] (adapters/redis/, kafka/, fluvio/): what is read
      between a snapshot and a tail ([redis_stream_exact]), and what the writers send.
    - [Csv] (adapters/csv/): reader and writer.
    - [Web], [WebProps] (adapters/web/, wingfoil-wire-types/, wingfoil-wasm/): the
      server's connections leave nothing behind ([handle_socket_cleans_up]); a client
      sees a subsequence of what is published ([web_client_sees]).
    - [Augurs] (adapters/augurs/): sliding windows, warm-up, transposition; every node
      is a function of the last values ([windowed_run]).
    - [Telemetry] (adapters/prometheus/, otlp/): what a scrape shows, how a connection
      is answered, the spans of a traced value ([emit_spans_exact]).

    ** The macros (wingfoil-derive/src/lib.rs)

    - [Macros]: the parsers of [#[node(...)]] and [latency_stages!], what they
      generate, and that the attributes of the library's nodes expand to the
      upstreams their models have ([node_attributes_agree]).

    ** The Python bindings (wingfoil-python/src/)

    - [Python]: exceptions through the engine ([user_exception_survives]), the
      arguments of [run], the operators over [Builders] with the program's tests
      evaluated on the engine, the proxy of a Python stream, the CSV writer
      ([csv_rows_read_back]).
    - [PyLatency] (py_latency.rs): records as shared Python objects, the nodes that
      stamp them, at the index each has kept, and report them ([stamps_accumulate],
      [py_report_is_latency_report]).
    - [PyAdapters]: the conversions of the adapters' bindings: JSON for the web
      ([json_roundtrip]), messages with stages ([wire_roundtrip]), the dicts of Redis,
      Kafka, etcd and Fluvio, rows and queries of PostgreSQL ([write_row_typed],
      [read_row_typed]) and kdb+ ([kdb_write_sends]), the configurations of augurs.

    ** What the environment is

    What is not source of the repository is an argument or a class, and what is
    relied on is named: [PartialEq], [EqLaws] and [Hash] of a program's values;
    the order an unordered container iterates in ([PickLaws], [order]); the
    clock, whose readings are arguments; the channel library ([KanalSender],
    [KanalReceiver], with the laws [Outbound], [Inbound]: first in, first out,
    nothing lost); threads and tasks ([Threads], [GraphThreads], [Tasks],
    [ReadyChannel], [NotifierChannel]); sockets ([Wire], with [Reliable]);
    queues between session and graph ([InjectQueue], [EventChannel],
    [Listener]); Aeron clients ([AeronSubscriber], [AeronPublisher],
    [BufferClaim]); the exponential function ([Exp]); the file system
    ([FileSystem], with [FileSystemLaws] and [Healthy]), the encoding of its
    files ([Codec]), the digest ([Hasher]); the client of each system: kdb+
    ([KValue], [Client]), ZeroMQ ([Zmq], [Bincode], [ZmqRegistry]), etcd
    ([EtcdClient], with [EtcdServer]), PostgreSQL ([PgClient], [PgRow], [PgTail],
    [PgWriter]), iceoryx2 ([IoxService], [IoxSubscriber], [IoxPublisher],
    [IoxEvents], [Running]), FIX sockets ([FixNet], [Tls], [InjectReceiver],
    [LiveSocket]), Redis, Kafka and Fluvio ([RedisClient] with [RedisServer],
    [KafkaClient] with [KafkaFeed], [FluvioClient]), CSV ([CsvLib]), the web
    ([WebLib], [WebHost], [WireFormat], [JsLib], with [TaskLaws], [BroadcastLaws],
    [RoundTrip]), augurs ([ForecastLib] and its like), telemetry ([HttpHost],
    [MeterLib], [TracerLib]); the parsers of syn ([Syn], with [SynLaws]);
    the Python interpreter ([PyHost], [PyProxyHost], [TracedHost], [Downcast] with
    [DowncastLaws]), how it reads base types ([Extract], with [ExtractLaws]) and the
    numbers and maps of JSON ([SerdeJson], with [SerdeJsonLaws]); the clock a call reads ([Clock]). Each law a property
    relies on has an instance its witness runs on. User closures are functions, with
    an outside world where they act on one.

    ** Fuel

    A loop whose rounds the program's text does not bound takes [fuel] and ends
    in [OutOfFuel]: the walk of [initialise_node], the work queue of
    [fix_layers], the upward walk of a recycled addition, the run loop, the
    rounds that empty a channel or a socket. No theorem hides behind it:
    [initialise_node_correct] and [new_correct] bound the walk by the size of the
    reachable graph, [fix_layers_correct] the work queue by the layering,
    [cycles_run_terminates] the loop by the number of cycles asked for, and the whole
    run where the nodes' calls come back and add no nodes, and [closing_cycle_diverges] shows the one case where the code itself does not
    end. The theorems on channels and sessions state how much fuel is enough.

    ** Not modelled

    The client libraries themselves, and the two Aeron backends, which only
    translate calls; serialization ([serde]); of the Python wrappers of the adapters what
    passes arguments on unchanged; logging and the DOT export; the tokio runtime behind [Tasks]; TLS and sockets behind the
    classes. In [Objects] the heap holds the nodes of Transforms, Timing and
    Iterators that need no call for another node: [NodeLaws] is unconditional, and
    a demultiplexer or a feedback sink marks other nodes correctly only after its
    setup. The nodes of the later files are verified against the engine's interface
    one at a time ([Solo]) or by their calls.

    ** Plan

    A [NodeLaws] relative to an invariant of the heap, so that [combinator_nodes_lawful]
    covers the nodes of demux.rs, feedback.rs and channel.rs; the wrappers of
    nodes/mod.rs for them; the queue behind [EventChannel] as shared state of two
    graphs. *)
From stdpp Require Export base decidable option list gmap sets relations.
From stdpp Require Export strings.
From Stdlib Require Export ZArith Lia Sorting.Sorted Sorting.Permutation.

(** ** Results and errors *)

(** [anyhow::Error]: a message, or an error wrapped by [Error::context]: with any
    text, with the engine's text for a node's hook, or with the errors that
    followed the first of a shutdown. *)
Inductive Error :=
| Msg (s : string)
| Context (what : string) (e : Error)
| NodeContext (phase : string) (index : nat) (e : Error)
| ShutdownContext (e : Error) (extra : list Error).

(** The outcome of a Rust call: [Ok], [Err], an unwinding panic, or -- an
    artefact of writing a Rust loop as a structural recursion -- a loop whose
    fuel ran out before it ended. *)
Inductive Res (A : Type) :=
| Ok (a : A)
| Err (e : Error)
| Panic (why : string)
| OutOfFuel.
Arguments Ok {A} a.
Arguments Err {A} e.
Arguments Panic {A} why.
Arguments OutOfFuel {A}.

Definition is_ok {A} (r : Res A) : bool :=
  match r with Ok _ => true | _ => false end.

Definition res_err {A} (r : Res A) : option Error :=
  match r with Err e => Some e | _ => None end.

(** [Result::map_err]. *)
Definition res_map_err {A} (f : Error -> Error) (r : Res A) : Res A :=
  match r with Err e => Err (f e) | _ => r end.

(** ** A state monad with failure

    State changes made before a failure stay: this is the Rust behaviour of a
    method taking [&mut self] that returns early through [?]. *)

Definition M (S A : Type) : Type := S -> Res A * S.

Definition mreturn {S A} (a : A) : M S A := fun s => (Ok a, s).
Definition mfail {S A} (e : Error) : M S A := fun s => (Err e, s).
Definition mpanic {S A} (w : string) : M S A := fun s => (Panic w, s).
Definition mstuck {S A} : M S A := fun s => (OutOfFuel, s).
Definition mget {S} : M S S := fun s => (Ok s, s).
Definition mmodify {S} (f : S -> S) : M S unit := fun s => (Ok tt, f s).
Definition mlift {S A} (r : Res A) : M S A := fun s => (r, s).

Definition mbind {S A B} (m : M S A) (k : A -> M S B) : M S B := fun s =>
  match m s with
  | (Ok a, s1) => k a s1
  | (Err e, s1) => (Err e, s1)
  | (Panic w, s1) => (Panic w, s1)
  | (OutOfFuel, s1) => (OutOfFuel, s1)
  end.

(** [expr.map_err(f)?]. *)
Definition mmap_err {S A} (f : Error -> Error) (m : M S A) : M S A := fun s =>
  let '(r, s1) := m s in (res_map_err f r, s1).

(** Run a call and keep its [Result] as a value, as
    [let r = self.start_nodes();] does (no [?]). A panic still unwinds. *)
Definition mcatch {S A} (m : M S A) : M S (Res A) := fun s =>
  match m s with
  | (Ok a, s1) => (Ok (Ok a), s1)
  | (Err e, s1) => (Ok (Err e), s1)
  | (Panic w, s1) => (Panic w, s1)
  | (OutOfFuel, s1) => (OutOfFuel, s1)
  end.

(** [for x in l { body(x)?; }]. *)
Fixpoint mfor {S A} (l : list A) (body : A -> M S unit) : M S unit :=
  match l with
  | [] => mreturn tt
  | x :: l' => mbind (body x) (fun _ => mfor l' body)
  end.

Declare Scope wingfoil_scope.
Delimit Scope wingfoil_scope with wf.
Notation "'let!' x := m 'in' k" := (mbind m (fun x => k))
  (at level 10, x name, m at level 100, k at level 200)
  : wingfoil_scope.
Notation "'do!' m 'in' k" := (mbind m (fun _ => k))
  (at level 10, m at level 100, k at level 200)
  : wingfoil_scope.
Open Scope wingfoil_scope.

(** ** Reasoning about monadic code *)

(** [respects R m]: every run of [m], successful or not, moves the state
    along [R]. With [R] a preorder the rules below are compositional. *)
Definition respects {S A} (R : relation S) (m : M S A) : Prop :=
  forall s r s', m s = (r, s') -> R s s'.

Create HintDb wingfoil discriminated.

Section monad_facts.
Context {S : Type}.
Implicit Types s : S.

Lemma mbind_ok {A B} (m : M S A) (k : A -> M S B) s a s1 :
  m s = (Ok a, s1) -> mbind m k s = k a s1.
Proof. intros H. unfold mbind. by rewrite H. Qed.

Lemma mbind_ok_inv {A B} (m : M S A) (k : A -> M S B) s b s' :
  mbind m k s = (Ok b, s') -> exists a s1, m s = (Ok a, s1) /\ k a s1 = (Ok b, s').
Proof. unfold mbind. destruct (m s) as [[] ?]; naive_solver. Qed.

Lemma mbind_err_inv {A B} (m : M S A) (k : A -> M S B) s e s' :
  mbind m k s = (Err e, s') ->
  m s = (Err e, s') \/ exists a s1, m s = (Ok a, s1) /\ k a s1 = (Err e, s').
Proof. unfold mbind. destruct (m s) as [[] ?]; naive_solver. Qed.

Lemma mbind_assoc {A B C} (m : M S A) (f : A -> M S B) (g : B -> M S C) s :
  mbind (mbind m f) g s = mbind m (fun a => mbind (f a) g) s.
Proof. unfold mbind. by destruct (m s) as [[] ?]. Qed.

Lemma mbind_ext {A B} (m : M S A) (k1 k2 : A -> M S B) s :
  (forall a s1, k1 a s1 = k2 a s1) -> mbind m k1 s = mbind m k2 s.
Proof. intros Hk. unfold mbind. by destruct (m s) as [[] ?]. Qed.

Lemma mfor_app {A} (l1 l2 : list A) (body : A -> M S unit) s :
  mfor (l1 ++ l2) body s = mbind (mfor l1 body) (fun _ => mfor l2 body) s.
Proof.
  revert s. induction l1 as [|x l1 IH]; intros s; [done|].
  simpl. unfold mbind at 1 2 3. destruct (body x s) as [[] s1]; [|done..].
  apply IH.
Qed.

Section preorder.
Context (R : relation S) `{!PreOrder R}.

Lemma respects_return {A} (a : A) : respects R (mreturn a).
Proof. intros s r s' [= <- <-]. reflexivity. Qed.

Lemma respects_fail {A} e : respects R (mfail (A:=A) e).
Proof. intros s r s' [= <- <-]. reflexivity. Qed.

Lemma respects_panic {A} w : respects R (mpanic (A:=A) w).
Proof. intros s r s' [= <- <-]. reflexivity. Qed.

Lemma respects_stuck {A} : respects R (mstuck (A:=A)).
Proof. intros s r s' [= <- <-]. reflexivity. Qed.

Lemma respects_get : respects R mget.
Proof. intros s r s' [= <- <-]. reflexivity. Qed.

Lemma respects_lift {A} (x : Res A) : respects R (mlift x).
Proof. intros s r s' [= <- <-]. reflexivity. Qed.

Lemma respects_modify f : (forall s, R s (f s)) -> respects R (mmodify f).
Proof. intros H s r s' [= <- <-]. apply H. Qed.

Lemma respects_bind {A B} (m : M S A) (k : A -> M S B) :
  respects R m -> (forall a, respects R (k a)) -> respects R (mbind m k).
Proof.
  intros Hm Hk s r s'. unfold mbind. destruct (m s) as [[] s1] eqn:E; intros H;
    simplify_eq; try by eapply Hm.
  transitivity s1; [by eapply Hm|by eapply Hk].
Qed.

Lemma respects_catch {A} (m : M S A) : respects R m -> respects R (mcatch m).
Proof.
  intros Hm s r s'. unfold mcatch.
  destruct (m s) as [[] s1] eqn:E; intros; simplify_eq; by eapply Hm.
Qed.

Lemma respects_map_err {A} f (m : M S A) : respects R m -> respects R (mmap_err f m).
Proof.
  intros Hm s r s'. unfold mmap_err.
  destruct (m s) as [? s1] eqn:E; intros; simplify_eq; by eapply Hm.
Qed.

Lemma respects_for {A} (l : list A) body :
  (forall x, x ∈ l -> respects R (body x)) -> respects R (mfor l body).
Proof.
  induction l as [|x l IH]; intros H; simpl; [apply respects_return|].
  apply respects_bind; [apply H; set_solver|intros; apply IH; set_solver].
Qed.
End preorder.
End monad_facts.

#[export] Hint Resolve respects_return respects_fail respects_panic respects_stuck
  respects_get respects_lift respects_catch respects_map_err : wingfoil.

(** Peel the successful binds off a hypothesis [mbind m k s = (Ok b, s')]. *)
Ltac inv_bind H :=
  let a := fresh "a" in let s := fresh "s" in let E := fresh "E" in
  apply mbind_ok_inv in H as (a & s & E & H).

(** ** Searching a list *)

(** [iter().position(|x| x == c)], or [str::find] for a character: what precedes
    the first [c] and what follows it. *)
Fixpoint split_at `{EqDecision A} (c : A) (s : list A) : option (list A * list A) :=
  match s with
  | [] => None
  | x :: s' =>
    if bool_decide (x = c) then Some ([], s')
    else match split_at c s' with Some (a, b) => Some (x :: a, b) | None => None end
  end.

Section split_at.
Context `{EqDecision A}.
Implicit Types (c : A) (s a b t : list A).

Lemma split_at_app c a b : c ∉ a -> split_at c (a ++ c :: b) = Some (a, b).
Proof.
  induction a as [|x a IH]; intros Hc; simpl.
  - by rewrite bool_decide_eq_true_2.
  - apply not_elem_of_cons in Hc as [Hne Hc]. rewrite bool_decide_eq_false_2 by done. by rewrite IH.
Qed.

Lemma split_at_none c s : c ∉ s -> split_at c s = None.
Proof.
  induction s as [|x s IH]; [done|]. intros [Hne Hs]%not_elem_of_cons. simpl.
  rewrite bool_decide_eq_false_2 by done. by rewrite IH.
Qed.

Lemma split_at_inv c s :
  match split_at c s with Some (a, b) => s = a ++ c :: b /\ c ∉ a | None => c ∉ s end.
Proof.
  induction s as [|x s IH]; simpl; [apply not_elem_of_nil|]. case_bool_decide as Hx.
  - subst x. split; [done|apply not_elem_of_nil].
  - destruct (split_at c s) as [[a b]|]; [|set_solver]. destruct IH as [-> Ha]. split; [done|set_solver].
Qed.

Lemma split_at_app_r c s a b t : split_at c s = Some (a, b) -> split_at c (s ++ t) = Some (a, b ++ t).
Proof.
  intros Hs. pose proof (split_at_inv c s) as Hi. rewrite Hs in Hi. destruct Hi as [-> Ha].
  rewrite <-app_assoc. by apply split_at_app.
Qed.

Lemma split_at_length c s a b :
  split_at c s = Some (a, b) -> (length s = length a + 1 + length b)%nat.
Proof.
  intros Hs. pose proof (split_at_inv c s) as Hi. rewrite Hs in Hi. destruct Hi as [-> _].
  rewrite length_app. simpl. lia.
Qed.

Lemma split_at_shorter c s a b : split_at c s = Some (a, b) -> (length b < length s)%nat.
Proof. intros Hs%split_at_length. lia. Qed.
End split_at.

(** ** Lists *)

Section list_facts.
Context {A : Type}.
Implicit Types l : list A.

Lemma elem_of_concat (ls : list (list A)) x :
  x ∈ concat ls <-> exists l, l ∈ ls /\ x ∈ l.
Proof.
  rewrite list_elem_of_In, in_concat. by setoid_rewrite <-list_elem_of_In.
Qed.

Lemma StronglySorted_append (R : relation A) l1 l2 :
  StronglySorted R l1 -> StronglySorted R l2 ->
  (forall x y, x ∈ l1 -> y ∈ l2 -> R x y) -> StronglySorted R (l1 ++ l2).
Proof.
  intros H1 H2 H12. induction H1 as [|x l1 H1 IH Hx]; simpl; [done|].
  constructor.
  - apply IH. intros y z Hy Hz. apply H12; [by right|done].
  - apply Forall_app. split; [done|]. apply Forall_forall. intros y Hy. apply H12; [by left|done].
Qed.

(** In a list sorted by [R], an element strictly before another in the order
    also comes earlier in the list. *)
Lemma StronglySorted_position (R : relation A) l p q x y :
  StronglySorted R l -> l !! p = Some x -> l !! q = Some y -> ~ R y x -> x <> y -> p < q.
Proof.
  intros Hs. revert p q. induction Hs as [|z l Hs IH Hz]; intros p q Hp Hq Hn Hne; [done|].
  destruct p as [|p], q as [|q]; simpl in *; simplify_eq; [lia| |].
  - exfalso. apply Hn. rewrite Forall_lookup in Hz. by eapply Hz.
  - specialize (IH p q Hp Hq Hn Hne). lia.
Qed.

Lemma filter_all (f : A -> bool) l : Forall (fun x => f x = true) l -> List.filter f l = l.
Proof. induction 1 as [|x l Hx _ IH]; simpl; [done|]. by rewrite Hx, IH. Qed.

Lemma existsb_none (f : A -> bool) l : Forall (fun x => f x = false) l -> existsb f l = false.
Proof. induction 1 as [|x l Hx _ IH]; simpl; [done|]. by rewrite Hx. Qed.

Lemma filter_perm (f : A -> bool) l1 l2 :
  Permutation l1 l2 -> Permutation (List.filter f l1) (List.filter f l2).
Proof.
  induction 1 as [|x l1 l2 _ IH|x y l|l1 l2 l3 _ IH1 _ IH2]; simpl; [done| | |by etransitivity].
  - destruct (f x); [by constructor|done].
  - destruct (f x), (f y); try done. apply perm_swap.
Qed.

Lemma existsb_perm (f : A -> bool) l1 l2 : Permutation l1 l2 -> existsb f l1 = existsb f l2.
Proof. intros Hp. rewrite eq_iff_eq_true, !existsb_exists. by setoid_rewrite Hp. Qed.
End list_facts.
