(* ===== verification/NanoTime.v ===== *)
(** * Engine time: [wingfoil/src/time.rs]

    [NanoTime] is a newtype over [u64] nanoseconds. It is modelled by [Z] with
    the wrap-around of the release profile written out in every operation (the
    debug profile panics where the release profile wraps: the theorems below
    that speak of exact results carry the range hypothesis under which the two
    agree). [std::time::Duration] is a pair of whole seconds and nanoseconds. *)
From S2P Require Import Prelude.
Local Open Scope Z_scope.

(** ** Machine integers *)

Definition u64_max : Z := 2 ^ 64 - 1.
Definition u32_max : Z := 2 ^ 32 - 1.
Definition i64_max : Z := 2 ^ 63 - 1.

(** [x as u64], and the result of a wrapping [u64] operation. *)
Definition wrap_u64 (x : Z) : Z := x mod 2 ^ 64.
Definition wrap_u32 (x : Z) : Z := x mod 2 ^ 32.
(** [x as i64], and the result of a wrapping [i64] operation. *)
Definition wrap_i64 (x : Z) : Z := (x + 2 ^ 63) mod 2 ^ 64 - 2 ^ 63.

Definition is_u64 (x : Z) : Prop := 0 <= x <= u64_max.
Definition is_i64 (x : Z) : Prop := - 2 ^ 63 <= x <= i64_max.
Definition u64_saturating_sub (x y : Z) : Z := Z.max 0 (x - y).
Definition u64_saturating_add (x y : Z) : Z := Z.min u64_max (x + y).

(** ** [std::time::Duration] *)

Record Duration := mkDuration { dur_secs : Z; dur_subsec_nanos : Z }.

(** The invariant [Duration] keeps. *)
Definition duration_valid (d : Duration) : Prop :=
  is_u64 (dur_secs d) /\ 0 <= dur_subsec_nanos d < 1000000000.

(** [Duration::as_nanos], a [u128]. *)
Definition as_nanos (d : Duration) : Z := dur_secs d * 1000000000 + dur_subsec_nanos d.
(** [Duration::from_nanos]. *)
Definition from_nanos (n : Z) : Duration := mkDuration (n / 1000000000) (n mod 1000000000).

(** ** [NanoTime] *)

Module NanoTime.

Definition ZERO : Z := 0.
Definition MAX : Z := u64_max.
Definition NANOS_PER_SECOND : Z := 1000000000.
Definition KDB_EPOCH_OFFSET_NANOS : Z := 946684800000000000.

(** [EPOCH_OFFSET_NANOS]: the wall clock's lead over the monotonic clock, both
    read once at first use. *)
Definition epoch_offset_nanos (mono wall : Z) : Z := u64_saturating_sub wall mono.

(** [NanoTime::now], from a reading of the monotonic clock. *)
Definition now (offset mono : Z) : Z := wrap_u64 (mono + offset).

Definition from_kdb_timestamp (kdb_nanos : Z) : Z :=
  wrap_u64 (wrap_i64 (kdb_nanos + KDB_EPOCH_OFFSET_NANOS)).

Definition to_kdb_timestamp (self : Z) : Z :=
  if self =? u64_max then i64_max
  else wrap_i64 (wrap_i64 self - KDB_EPOCH_OFFSET_NANOS).

Definition from_u128 (t : Z) : Z := wrap_u64 t.
Definition from_u64 (t : Z) : Z := t.
Definition from_i64 (t : Z) : Z := wrap_u64 t.

(** [impl From<Duration> for NanoTime]. *)
Definition from_duration (dur : Duration) : Z :=
  wrap_u64 (wrap_u64 (dur_secs dur * 1000000000) + dur_subsec_nanos dur).

(** [impl From<NanoTime> for Duration]. *)
Definition to_duration (t : Z) : Duration := from_nanos t.

Definition add (self other : Z) : Z := wrap_u64 (self + other).
Definition add_duration (self : Z) (other : Duration) : Z :=
  wrap_u64 (self + wrap_u64 (as_nanos other)).
Definition sub (self other : Z) : Z := wrap_u64 (self - other).
Definition mul_u32 (self other : Z) : Z := wrap_u64 (self * other).
(** [other as RawTime] sign-extends a negative [i32] or [i64]. *)
Definition mul_i32 (self other : Z) : Z := wrap_u64 (self * wrap_u64 other).
Definition mul_u64 (self other : Z) : Z := wrap_u64 (self * other).
Definition mul_i64 (self other : Z) : Z := wrap_u64 (self * wrap_u64 other).

End NanoTime.

(** ** Facts about the wrap-around *)

Lemma wrap_u64_small x : is_u64 x -> wrap_u64 x = x.
Proof. unfold is_u64, u64_max, wrap_u64. intros. apply Z.mod_small. lia. Qed.

Lemma wrap_u32_small x : 0 <= x <= u32_max -> wrap_u32 x = x.
Proof. unfold u32_max, wrap_u32. intros. apply Z.mod_small. lia. Qed.

Lemma wrap_u64_range x : is_u64 (wrap_u64 x).
Proof.
  unfold is_u64, u64_max, wrap_u64.
  pose proof (Z.mod_pos_bound x (2 ^ 64) ltac:(lia)). lia.
Qed.

Lemma wrap_i64_small x : is_i64 x -> wrap_i64 x = x.
Proof.
  unfold is_i64, i64_max, wrap_i64. intros. rewrite Z.mod_small; lia.
Qed.

(** Two's complement: reinterpreting as [i64] and back loses nothing. *)
Lemma wrap_u64_wrap_i64 x : wrap_u64 (wrap_i64 x) = wrap_u64 x.
Proof.
  unfold wrap_u64, wrap_i64. rewrite Zminus_mod_idemp_l.
  f_equal. lia.
Qed.

Lemma wrap_u64_add_l x y : wrap_u64 (wrap_u64 x + y) = wrap_u64 (x + y).
Proof. unfold wrap_u64. by rewrite Zplus_mod_idemp_l. Qed.

Lemma wrap_u64_add_r x y : wrap_u64 (x + wrap_u64 y) = wrap_u64 (x + y).
Proof. unfold wrap_u64. by rewrite Zplus_mod_idemp_r. Qed.

Lemma wrap_i64_congr x y : wrap_u64 x = wrap_u64 y -> wrap_i64 x = wrap_i64 y.
Proof.
  unfold wrap_u64, wrap_i64. intros H.
  rewrite <-(Zplus_mod_idemp_l x), H, Zplus_mod_idemp_l. done.
Qed.

#[export] Hint Resolve wrap_u64_range : wingfoil.

(** [add] is exact below the top of the range: the only place where the debug
    and release profiles differ is a sum past [u64::MAX]. *)
Lemma add_exact t d : is_u64 (t + d) -> NanoTime.add t d = t + d.
Proof. apply wrap_u64_small. Qed.

(** ** Conversions *)

(** The kdb conversion round-trips on every [u64] except [NanoTime::MAX],
    which [to_kdb_timestamp] maps to kdb's infinity and which therefore does
    not come back. *)
Theorem kdb_roundtrip t :
  is_u64 t ->
  NanoTime.from_kdb_timestamp (NanoTime.to_kdb_timestamp t) = t <-> t <> NanoTime.MAX.
Proof.
  intros Ht. unfold NanoTime.from_kdb_timestamp, NanoTime.to_kdb_timestamp, NanoTime.MAX.
  rewrite wrap_u64_wrap_i64. destruct (Z.eqb_spec t u64_max) as [->|Hne].
  - split; [|done]. vm_compute. discriminate.
  - split; [done|intros _].
    rewrite <-wrap_u64_add_l, wrap_u64_wrap_i64, wrap_u64_add_l.
    replace (wrap_i64 t - _ + _) with (wrap_i64 t) by lia.
    by rewrite wrap_u64_wrap_i64, wrap_u64_small.
Qed.

Lemma kdb_roundtrip_witness :
  is_u64 1700000000000000000 /\
  (NanoTime.from_kdb_timestamp (NanoTime.to_kdb_timestamp 1700000000000000000)
     = 1700000000000000000 <-> 1700000000000000000 <> NanoTime.MAX).
Proof.
  assert (H : is_u64 1700000000000000000) by (unfold is_u64, u64_max; lia).
  split; [exact H|exact (kdb_roundtrip _ H)].
Defined.

(** In the range of real timestamps the conversion is the plain shift of epoch. *)
Lemma to_kdb_exact t :
  0 <= t <= i64_max -> NanoTime.to_kdb_timestamp t = t - NanoTime.KDB_EPOCH_OFFSET_NANOS.
Proof.
  intros Ht. unfold NanoTime.to_kdb_timestamp, NanoTime.KDB_EPOCH_OFFSET_NANOS.
  destruct (Z.eqb_spec t u64_max) as [->|_]; [unfold u64_max, i64_max in *; lia|].
  rewrite (wrap_i64_small t) by (unfold is_i64; lia).
  apply wrap_i64_small. unfold is_i64, i64_max in *. lia.
Qed.

(** [NanoTime] and [Duration] convert into each other without loss, and
    adding a [Duration] is the same as converting it first and adding, whatever
    the overflow. *)
Theorem duration_conversions t :
  is_u64 t ->
  duration_valid (NanoTime.to_duration t) /\
  NanoTime.from_duration (NanoTime.to_duration t) = t /\
  forall d, NanoTime.add_duration t d = NanoTime.add t (NanoTime.from_duration d).
Proof.
  intros Ht. unfold NanoTime.to_duration, from_nanos, NanoTime.from_duration.
  pose proof (Z.div_mod t 1000000000 ltac:(lia)) as Hdm.
  pose proof (Z.mod_pos_bound t 1000000000 ltac:(lia)) as Hm.
  split; [|split].
  - split; simpl; [|done]. unfold is_u64, u64_max in *. split.
    + apply Z.div_pos; lia.
    + apply Z.div_le_upper_bound; lia.
  - simpl. rewrite wrap_u64_add_l.
    replace (_ * _ + _) with t by lia. by apply wrap_u64_small.
  - intros d. unfold NanoTime.add_duration, NanoTime.add, as_nanos.
    by rewrite (wrap_u64_add_l (dur_secs d * _)).
Qed.

Lemma duration_conversions_witness :
  is_u64 1500000000 /\
  NanoTime.from_duration (NanoTime.to_duration 1500000000) = 1500000000.
Proof.
  assert (H : is_u64 1500000000) by (unfold is_u64, u64_max; lia).
  split; [exact H|exact (proj1 (proj2 (duration_conversions _ H)))].
Defined.
