(* ===== verification/TimeQueue.v ===== *)
(** * The time-ordered queue: [wingfoil/src/queue/time_queue.rs]

    The scheduler and the delaying nodes keep their pending work in a
    [TimeQueue]: a binary heap on [(time, seq)] that suppresses a pair
    [(value, time)] already queued. [std::collections::BinaryHeap] is modelled
    by the list of its elements with [peek]/[pop] taking the greatest under the
    element's [Ord] -- which, through [Reverse], is the least [(time, seq)].

    The specification is a plain list kept in order of time and, at one time,
    of insertion ([Spec]); [represents] relates the two. *)
From S2P Require Import Prelude NanoTime.
Local Open Scope Z_scope.

(** [PartialEq]: equality need not be reflexive (floats). *)
Class PartialEq (T : Type) := peq : T -> T -> bool.
(** The types whose [PartialEq] is an equality ([Eq]). *)
Class EqLaws (T : Type) `{PartialEq T} := peq_spec : forall x y : T, peq x y = true <-> x = y.

#[export] Instance nat_PartialEq : PartialEq nat := Nat.eqb.
#[export] Instance nat_EqLaws : EqLaws nat.
Proof. intros x y. apply Nat.eqb_eq. Qed.
#[export] Instance Z_PartialEq : PartialEq Z := Z.eqb.
#[export] Instance Z_EqLaws : EqLaws Z.
Proof. intros x y. apply Z.eqb_eq. Qed.
#[export] Instance unit_PartialEq : PartialEq unit := fun _ _ => true.
#[export] Instance unit_EqLaws : EqLaws unit.
Proof. by intros [] []. Qed.

(** [ValueAt<T>] ([queue/value_at.rs]): a value and the time it belongs to. *)
Record ValueAt (T : Type) := mkValueAt { va_value : T; va_time : Z }.
Arguments mkValueAt {T} va_value va_time.
Arguments va_value {T} v.
Arguments va_time {T} v.

Definition value_at_eq {T} `{PartialEq T} (a b : ValueAt T) : bool :=
  peq (va_value a) (va_value b) && (va_time a =? va_time b).

Record Entry (T : Type) := mkEntry { e_time : Z; e_seq : Z; e_value : T }.
Arguments mkEntry {T} e_time e_seq e_value.
Arguments e_time {T} e.
Arguments e_seq {T} e.
Arguments e_value {T} e.

(** [Ord for Entry]: the lexicographic order of [key()]. *)
Definition entry_cmp {T} (a b : Entry T) : comparison :=
  match e_time a ?= e_time b with
  | Eq => e_seq a ?= e_seq b
  | c => c
  end.
Definition entry_ltb {T} (a b : Entry T) : bool :=
  match entry_cmp a b with Lt => true | _ => false end.

Record TimeQueue (T : Type) := mkTimeQueue { heap : list (Entry T); next_seq : Z }.
Arguments mkTimeQueue {T} heap next_seq.
Arguments heap {T} t.
Arguments next_seq {T} t.

(** [BinaryHeap::pop] on [Reverse] entries: the least entry and the rest. *)
Fixpoint heap_extract {T} (h : list (Entry T)) : option (Entry T * list (Entry T)) :=
  match h with
  | [] => None
  | e :: h' =>
    match heap_extract h' with
    | None => Some (e, [])
    | Some (m, rest) => if entry_ltb m e then Some (m, e :: rest) else Some (e, m :: rest)
    end
  end.

Module TimeQueue.
Section operations.
Context {T : Type} `{PartialEq T}.

Definition new : TimeQueue T := mkTimeQueue [] 0.

Definition next_time (q : TimeQueue T) : option Z :=
  (fun p => e_time (fst p)) <$> heap_extract (heap q).

Definition is_empty (q : TimeQueue T) : bool :=
  match heap q with [] => true | _ => false end.

Definition pop (q : TimeQueue T) : option T * TimeQueue T :=
  match heap_extract (heap q) with
  | None => (None, q)
  | Some (e, rest) => (Some (e_value e), mkTimeQueue rest (next_seq q))
  end.

Definition pop_if_pending (q : TimeQueue T) (current_time : Z) : option T * TimeQueue T :=
  match next_time q with
  | Some t => if t <=? current_time then pop q else (None, q)
  | None => (None, q)
  end.

Definition clear (q : TimeQueue T) : TimeQueue T := mkTimeQueue [] (next_seq q).

Definition push (q : TimeQueue T) (value : T) (time : Z) : TimeQueue T :=
  if existsb (fun e => (e_time e =? time) && peq (e_value e) value) (heap q) then q
  else mkTimeQueue (mkEntry time (next_seq q) value :: heap q)
         (wrap_u64 (next_seq q + 1)).

(** The idiom [while let Some(v) = q.pop_if_pending(now) { .. }]: the values
    popped, in order, and the queue left. The fuel is the number of entries,
    which the loop cannot exceed ([drain_pending_spec]). *)
Fixpoint drain_loop (fuel : nat) (q : TimeQueue T) (now : Z) : list T * TimeQueue T :=
  match fuel with
  | O => ([], q)
  | S fuel' =>
    match pop_if_pending q now with
    | (None, q') => ([], q')
    | (Some v, q') => let '(vs, q'') := drain_loop fuel' q' now in (v :: vs, q'')
    end
  end.
Definition drain_pending (q : TimeQueue T) (now : Z) : list T * TimeQueue T :=
  drain_loop (length (heap q)) q now.
End operations.
End TimeQueue.

(** ** Specification: a list in order of time, first in first out at a time *)

Module Spec.
Section spec.
Context {T : Type} `{PartialEq T}.

Fixpoint insert (t : Z) (v : T) (l : list (Z * T)) : list (Z * T) :=
  match l with
  | [] => [(t, v)]
  | (t', v') :: l' => if t <? t' then (t, v) :: l else (t', v') :: insert t v l'
  end.

Definition push (v : T) (t : Z) (l : list (Z * T)) : list (Z * T) :=
  if existsb (fun p => (fst p =? t) && peq (snd p) v) l then l else insert t v l.

(** What is due at [now], and what stays. *)
Fixpoint due (now : Z) (l : list (Z * T)) : list T :=
  match l with
  | (t, v) :: l' => if t <=? now then v :: due now l' else []
  | [] => []
  end.
Fixpoint later (now : Z) (l : list (Z * T)) : list (Z * T) :=
  match l with
  | (t, v) :: l' => if t <=? now then later now l' else l
  | [] => []
  end.

(** Taking the head when it is due. *)
Definition pop_due (now : Z) (l : list (Z * T)) : option T * list (Z * T) :=
  match l with
  | (t, v) :: l' => if t <=? now then (Some v, l') else (None, l)
  | [] => (None, [])
  end.
End spec.
End Spec.

(** ** The representation relation *)

Definition entry_lt {T} (a b : Entry T) : Prop :=
  e_time a < e_time b \/ (e_time a = e_time b /\ e_seq a < e_seq b).

Definition entry_pair {T} (e : Entry T) : Z * T := (e_time e, e_value e).

(** [q] holds exactly the pairs of [l], and pops them in the order of [l]. *)
Definition represents {T} (q : TimeQueue T) (l : list (Z * T)) : Prop :=
  exists es, Permutation (heap q) es /\ StronglySorted entry_lt es /\
    map entry_pair es = l /\ Forall (fun e => e_seq e < next_seq q) es.

(** The sequence counter has not wrapped around. *)
Definition seq_room {T} (q : TimeQueue T) : Prop := 0 <= next_seq q < u64_max.

Section facts.
Context {T : Type} `{PartialEq T}.
Implicit Types q : TimeQueue T.
Implicit Types e : Entry T.
Implicit Types h es : list (Entry T).

Lemma entry_ltb_spec e1 e2 : entry_ltb e1 e2 = true <-> entry_lt e1 e2.
Proof.
  unfold entry_ltb, entry_cmp, entry_lt.
  destruct (Z.compare_spec (e_time e1) (e_time e2));
    [destruct (Z.compare_spec (e_seq e1) (e_seq e2))| |]; (split; [|intros ?]);
    try done; lia.
Qed.

Lemma entry_lt_trans e1 e2 e3 : entry_lt e1 e2 -> entry_lt e2 e3 -> entry_lt e1 e3.
Proof. unfold entry_lt. lia. Qed.

Lemma entry_lt_irrefl e : ~ entry_lt e e.
Proof. unfold entry_lt. lia. Qed.

Lemma heap_extract_perm h e rest :
  heap_extract h = Some (e, rest) -> Permutation h (e :: rest).
Proof.
  revert e rest. induction h as [|a h IH]; intros e rest; simpl; [done|].
  destruct (heap_extract h) as [[m r]|] eqn:E.
  - specialize (IH m r eq_refl).
    destruct (entry_ltb m a); intros [= <- <-]; rewrite IH; [apply perm_swap|done].
  - intros [= <- <-]. by destruct h; [|simpl in E; repeat case_match].
Qed.

Lemma heap_extract_none h : heap_extract h = None <-> h = [].
Proof. destruct h; simpl; [done|]. repeat case_match; done. Qed.

(** The extracted entry is below every other one, when keys are distinct. *)
Lemma heap_extract_min h e rest :
  heap_extract h = Some (e, rest) -> Forall (fun x => ~ entry_lt x e) rest.
Proof.
  revert e rest. induction h as [|a h IH]; intros e rest; simpl; [done|].
  destruct (heap_extract h) as [[m r]|] eqn:E; [|by intros [= <- <-]].
  specialize (IH m r eq_refl).
  destruct (entry_ltb m a) eqn:Hc; intros [= <- <-].
  - apply entry_ltb_spec in Hc. constructor; [|done].
    unfold entry_lt in *. lia.
  - assert (Hn : ~ entry_lt m a) by (by rewrite <-entry_ltb_spec, Hc).
    constructor; [done|]. eapply Forall_impl; [exact IH|].
    simpl. unfold entry_lt in *. intros x. lia.
Qed.

Lemma heap_extract_sorted h e es :
  Permutation h (e :: es) -> StronglySorted entry_lt (e :: es) ->
  exists rest, heap_extract h = Some (e, rest) /\ Permutation rest es.
Proof.
  intros Hp Hs. destruct (heap_extract h) as [[m rest]|] eqn:E.
  - pose proof (heap_extract_perm _ _ _ E) as Hp'.
    pose proof (heap_extract_min _ _ _ E) as Hmin.
    assert (Hperm : Permutation (m :: rest) (e :: es)) by (by rewrite <-Hp').
    apply StronglySorted_inv in Hs as [_ Hall].
    assert (m = e) as ->.
    { assert (Hin : In m (e :: es)) by (rewrite <-Hperm; by left).
      destruct Hin as [->|Hin]; [done|].
      assert (Hin' : In e (m :: rest)) by (rewrite Hperm; by left).
      destruct Hin' as [->|Hin']; [done|].
      rewrite List.Forall_forall in Hmin, Hall.
      exfalso. eapply Hmin; [done|]. by apply Hall. }
    exists rest. split; [done|]. by eapply Permutation_cons_inv.
  - apply heap_extract_none in E as ->. by apply Permutation_nil in Hp.
Qed.

Lemma represents_nil q : represents q [] <-> heap q = [].
Proof.
  split.
  - intros (es & Hp & _ & Hm & _). apply map_eq_nil in Hm as ->.
    by apply Permutation_sym, Permutation_nil in Hp.
  - intros Hq. exists []. rewrite Hq. repeat split; constructor.
Qed.

Lemma represents_new : represents (TimeQueue.new (T:=T)) [].
Proof. by apply represents_nil. Qed.

Lemma represents_clear q : represents (TimeQueue.clear q) [].
Proof. by apply represents_nil. Qed.

Lemma represents_is_empty q l :
  represents q l -> TimeQueue.is_empty q = match l with [] => true | _ => false end.
Proof.
  intros Hr. destruct l as [|p l].
  - apply represents_nil in Hr. unfold TimeQueue.is_empty. by rewrite Hr.
  - destruct Hr as (es & Hp & _ & Hm & _). destruct es as [|e es]; [done|].
    unfold TimeQueue.is_empty. destruct (heap q); [|done].
    by apply Permutation_nil in Hp.
Qed.

(** [pop] on a represented queue. *)
Lemma represents_pop q l :
  represents q l ->
  match l with
  | [] => TimeQueue.next_time q = None /\ TimeQueue.pop q = (None, q)
  | (t, v) :: l' => TimeQueue.next_time q = Some t /\
      exists q', TimeQueue.pop q = (Some v, q') /\ represents q' l' /\
        length (heap q) = S (length (heap q')) /\ next_seq q' = next_seq q
  end.
Proof.
  intros Hr. destruct l as [|[t v] l].
  - apply represents_nil in Hr.
    unfold TimeQueue.next_time, TimeQueue.pop. by rewrite Hr.
  - destruct Hr as (es & Hp & Hs & Hm & Hb). destruct es as [|e es]; [done|].
    injection Hm as Ht Hv Hm. destruct (heap_extract_sorted _ _ _ Hp Hs) as (rest & Hx & Hpr).
    unfold TimeQueue.next_time, TimeQueue.pop. rewrite Hx. simpl. subst t v.
    split; [done|]. eexists. split; [done|]. split; [|split; [|done]].
    + exists es. simpl. apply StronglySorted_inv in Hs as [? _].
      apply Forall_cons in Hb as [_ Hb]. done.
    + simpl. rewrite Hp. simpl. by rewrite Hpr.
Qed.

(** Inserting an entry whose [seq] is above all others'. *)
Fixpoint entry_insert (n : Entry T) (es : list (Entry T)) : list (Entry T) :=
  match es with
  | [] => [n]
  | e :: es' => if e_time n <? e_time e then n :: es else e :: entry_insert n es'
  end.

Lemma entry_insert_perm n es : Permutation (entry_insert n es) (n :: es).
Proof.
  induction es as [|e es IH]; simpl; [done|].
  case_match; [done|]. rewrite IH. apply perm_swap.
Qed.

Lemma entry_insert_map n es :
  map entry_pair (entry_insert n es) = Spec.insert (e_time n) (e_value n) (map entry_pair es).
Proof. induction es as [|e es IH]; simpl; [done|]. case_match; simpl; by f_equal. Qed.

Lemma entry_insert_sorted n es :
  StronglySorted entry_lt es -> Forall (fun e => e_seq e < e_seq n) es ->
  StronglySorted entry_lt (entry_insert n es).
Proof.
  induction es as [|e es IH]; simpl; intros Hs Hb; [by repeat constructor|].
  apply Forall_cons in Hb as [He Hb]. apply StronglySorted_inv in Hs as [Hs Hall].
  destruct (Z.ltb_spec (e_time n) (e_time e)) as [Hlt|Hge].
  - constructor; [by constructor|]. constructor; [left; lia|].
    eapply Forall_impl; [exact Hall|]. intros x. unfold entry_lt. lia.
  - constructor; [by apply IH|].
    apply List.Forall_forall. intros x Hx.
    rewrite entry_insert_perm in Hx. destruct Hx as [<-|Hx].
    + unfold entry_lt. lia.
    + rewrite List.Forall_forall in Hall. by apply Hall.
Qed.

Lemma represents_existsb q l (f : Z * T -> bool) :
  represents q l -> existsb (fun e => f (entry_pair e)) (heap q) = existsb f l.
Proof.
  intros (es & Hp & _ & <- & _). rewrite eq_iff_eq_true, !existsb_exists.
  setoid_rewrite Hp. split.
  - intros (e & He & Hf). exists (entry_pair e). split; [by apply in_map|done].
  - intros (p & (e & <- & He)%in_map_iff & Hf). eauto.
Qed.

Lemma represents_push q l v t :
  represents q l -> seq_room q -> represents (TimeQueue.push q v t) (Spec.push v t l).
Proof.
  intros Hr Hroom. unfold TimeQueue.push, Spec.push.
  rewrite <-(represents_existsb _ _ (fun p => (fst p =? t) && peq (snd p) v) Hr). simpl.
  case_match; [done|]. destruct Hr as (es & Hp & Hs & <- & Hb).
  set (n := mkEntry t (next_seq q) v). exists (entry_insert n es). simpl. split; [|split; [|split]].
  - rewrite entry_insert_perm. by constructor.
  - by apply entry_insert_sorted.
  - by rewrite entry_insert_map.
  - rewrite wrap_u64_small by (unfold seq_room, is_u64 in *; lia).
    rewrite (entry_insert_perm n es).
    constructor; simpl; [lia|]. eapply Forall_impl; [exact Hb|]. simpl; lia.
Qed.

Lemma represents_pop_if_pending q l now :
  represents q l ->
  match l with
  | (t, v) :: l' =>
      if t <=? now then
        exists q', TimeQueue.pop_if_pending q now = (Some v, q') /\ represents q' l' /\
          length (heap q) = S (length (heap q')) /\ next_seq q' = next_seq q
      else TimeQueue.pop_if_pending q now = (None, q)
  | [] => TimeQueue.pop_if_pending q now = (None, q)
  end.
Proof.
  intros Hr. pose proof (represents_pop q l Hr) as Hp. unfold TimeQueue.pop_if_pending.
  destruct l as [|[t v] l].
  - by destruct Hp as [-> _].
  - destruct Hp as [-> ?]. by case_match.
Qed.

Lemma represents_length q l : represents q l -> length (heap q) = length l.
Proof. intros (es & -> & _ & <- & _). by rewrite length_map. Qed.

Lemma drain_loop_spec fuel q l now :
  represents q l -> (length l <= fuel)%nat ->
  exists q', TimeQueue.drain_loop fuel q now = (Spec.due now l, q') /\
    represents q' (Spec.later now l) /\ next_seq q' = next_seq q.
Proof.
  revert q l. induction fuel as [|fuel IH]; intros q l Hr Hlen.
  - destruct l; [|simpl in Hlen; lia]. simpl. eauto.
  - pose proof (represents_pop_if_pending q l now Hr) as Hp. simpl.
    destruct l as [|[t v] l]; simpl in *.
    + rewrite Hp. eauto.
    + destruct (t <=? now); [|rewrite Hp; eauto].
      destruct Hp as (q' & -> & Hr' & _ & <-).
      destruct (IH q' l Hr' ltac:(lia)) as (q'' & -> & ? & <-). eauto.
Qed.

Lemma spec_insert_perm t v (l : list (Z * T)) :
  Permutation (Spec.insert t v l) ((t, v) :: l).
Proof.
  induction l as [|[t' v'] l IH]; simpl; [done|].
  case_match; [done|]. rewrite IH. apply perm_swap.
Qed.

Lemma spec_insert_sorted t v (l : list (Z * T)) :
  StronglySorted (fun a b => a.1 <= b.1) l ->
  StronglySorted (fun a b => a.1 <= b.1) (Spec.insert t v l).
Proof.
  induction l as [|[t' v'] l IH]; simpl; intros Hs; [by repeat constructor|].
  apply StronglySorted_inv in Hs as [Hs Hall].
  destruct (Z.ltb_spec t t').
  - constructor; [by constructor|]. constructor; simpl; [lia|].
    eapply Forall_impl; [exact Hall|]. simpl. intros; lia.
  - constructor; [by apply IH|]. apply List.Forall_forall. intros x Hx.
    rewrite spec_insert_perm in Hx. destruct Hx as [<-|Hx]; [simpl; lia|].
    rewrite List.Forall_forall in Hall. by apply Hall.
Qed.

Lemma represents_sorted q l :
  represents q l -> StronglySorted (fun a b => a.1 <= b.1) l.
Proof.
  intros (es & _ & Hs & <- & _). induction Hs as [|e es Hs IH Hall]; simpl; constructor; [done|].
  apply List.Forall_forall. intros p (e' & <- & He')%in_map_iff. simpl.
  rewrite List.Forall_forall in Hall. specialize (Hall _ He'). unfold entry_lt in Hall. lia.
Qed.

(** Everything left after draining is later than [now]. *)
Lemma later_after now (l : list (Z * T)) :
  StronglySorted (fun a b => a.1 <= b.1) l -> Forall (fun p => now < p.1) (Spec.later now l).
Proof.
  induction 1 as [|[t v] l Hs IH Hall]; simpl; [constructor|].
  destruct (Z.leb_spec t now); [done|]. constructor; [done|].
  eapply Forall_impl; [exact Hall|]. simpl. intros; lia.
Qed.
End facts.

(** ** Properties *)

(** C11: the heap implements the specification. Every operation of a queue that
    represents a time-ordered first-in-first-out list acts on that list as the
    specification says: [next_time] is the time of its head; [pop] returns and
    removes the head; [pop_if_pending] returns and removes it when it is due, and
    otherwise returns nothing and leaves the queue as it was; [push] inserts
    behind everything at the same or an earlier time unless the pair is already
    there; [clear] empties it. *)
Theorem queue_refines_spec {T} `{PartialEq T} (q : TimeQueue T) l v t now :
  represents q l -> seq_room q ->
  TimeQueue.next_time q = fst <$> head l /\
  (TimeQueue.is_empty q = true <-> l = []) /\
  fst (TimeQueue.pop q) = snd <$> head l /\
  represents (snd (TimeQueue.pop q)) (tail l) /\
  fst (TimeQueue.pop_if_pending q now) = fst (Spec.pop_due now l) /\
  represents (snd (TimeQueue.pop_if_pending q now)) (snd (Spec.pop_due now l)) /\
  (fst (Spec.pop_due now l) = None -> snd (TimeQueue.pop_if_pending q now) = q) /\
  represents (TimeQueue.push q v t) (Spec.push v t l) /\
  represents (TimeQueue.clear q) [].
Proof.
  intros Hr Hroom. pose proof (represents_pop q l Hr) as Hp.
  pose proof (represents_pop_if_pending q l now Hr) as Hpp.
  split_and!; [| | | | | | |by apply represents_push|apply represents_clear].
  - destruct l as [|[]]; by destruct Hp as [-> _].
  - rewrite (represents_is_empty q l Hr). by destruct l.
  - destruct l as [|[]]; [by destruct Hp as [_ ->]|].
    by destruct Hp as (_ & q' & -> & _).
  - destruct l as [|[]]; [by destruct Hp as [_ ->]|].
    by destruct Hp as (_ & q' & -> & ? & _).
  - destruct l as [|[t' v'] l]; simpl in *; [by rewrite Hpp|].
    destruct (t' <=? now); [by destruct Hpp as (q' & -> & _)|by rewrite Hpp].
  - destruct l as [|[t' v'] l]; simpl in *; [by rewrite Hpp|].
    destruct (t' <=? now); [by destruct Hpp as (q' & -> & ? & _)|by rewrite Hpp].
  - destruct l as [|[t' v'] l]; simpl in *; [by rewrite Hpp|].
    by destruct (t' <=? now); [|rewrite Hpp].
Qed.

Definition queue_321 : TimeQueue Z :=
  fold_left (fun q p => TimeQueue.push q (snd p) (fst p)) [(30, 3); (10, 1); (20, 2); (10, 9); (10, 1)]
    TimeQueue.new.

Lemma queue_321_represents : represents queue_321 [(10, 1); (10, 9); (20, 2); (30, 3)].
Proof.
  exists [mkEntry 10 1 1; mkEntry 10 3 9; mkEntry 20 2 2; mkEntry 30 0 3].
  split_and!; [|repeat constructor; unfold entry_lt; simpl; lia|done|repeat constructor].
  exact (Permutation_app_swap_app [mkEntry 10 3 9; mkEntry 20 2 2] [mkEntry 10 1 1] [mkEntry 30 0 3]).
Qed.

Lemma queue_refines_spec_witness :
  represents queue_321 [(10, 1); (10, 9); (20, 2); (30, 3)] /\ seq_room queue_321 /\
  TimeQueue.next_time queue_321 = Some 10 /\
  fst (TimeQueue.pop_if_pending queue_321 15) = Some 1 /\
  represents (snd (TimeQueue.pop_if_pending queue_321 15)) [(10, 9); (20, 2); (30, 3)] /\
  represents (TimeQueue.push queue_321 7 10) [(10, 1); (10, 9); (10, 7); (20, 2); (30, 3)].
Proof.
  assert (Hroom : seq_room queue_321) by (vm_compute; split; congruence).
  pose proof (queue_refines_spec queue_321 _ 7 10 15 queue_321_represents Hroom)
    as (Hn & _ & _ & _ & Ha & Hq & _ & Hp & _).
  split_and!; [exact queue_321_represents|exact Hroom|exact Hn|exact Ha|exact Hq|exact Hp].
Defined.

(** The loop [while let Some(v) = q.pop_if_pending(now)] ends, yields
    exactly the values due at [now] in order of time and, at one time, of
    insertion, and leaves a queue in which nothing is due. *)
Theorem drain_pending_spec {T} `{PartialEq T} (q : TimeQueue T) l now :
  represents q l ->
  exists q', TimeQueue.drain_pending q now = (Spec.due now l, q') /\
    represents q' (Spec.later now l) /\
    Forall (fun p => now < p.1) (Spec.later now l) /\
    TimeQueue.pop_if_pending q' now = (None, q').
Proof.
  intros Hr. unfold TimeQueue.drain_pending.
  destruct (drain_loop_spec (length (heap q)) q l now Hr) as (q' & -> & Hr' & _).
  { by rewrite (represents_length q l Hr). }
  pose proof (later_after now l (represents_sorted q l Hr)) as Hl.
  exists q'. split_and!; [done..|].
  pose proof (represents_pop_if_pending q' _ now Hr') as Hp.
  destruct (Spec.later now l) as [|[t v] l']; [done|].
  apply Forall_cons in Hl as [Hl _]. simpl in Hl.
  by rewrite (proj2 (Z.leb_gt _ _) Hl) in Hp.
Qed.

Lemma drain_pending_spec_witness :
  represents queue_321 [(10, 1); (10, 9); (20, 2); (30, 3)] /\
  fst (TimeQueue.drain_pending queue_321 20) = [1; 9; 2].
Proof.
  split; [exact queue_321_represents|].
  destruct (drain_pending_spec queue_321 _ 20 queue_321_represents) as (q' & Hd & _).
  rewrite Hd. reflexivity.
Defined.

(** Pushing never queues a [(value, time)] pair twice, and suppresses
    nothing else: a pair that is not queued yet is queued. *)
Theorem push_deduplicates {T} `{EqLaws T} (q : TimeQueue T) l v t :
  represents q l -> seq_room q -> NoDup l ->
  exists l', represents (TimeQueue.push q v t) l' /\ NoDup l' /\ (t, v) ∈ l' /\
    (forall p, p ∈ l' <-> p = (t, v) \/ p ∈ l).
Proof.
  intros Hr Hroom Hnd. exists (Spec.push v t l).
  split; [by apply represents_push|]. unfold Spec.push.
  destruct (existsb _ l) eqn:E.
  - apply existsb_exists in E as ([t' v'] & Hin & Heq).
    apply andb_true_iff in Heq as [Ht%Z.eqb_eq Hv%peq_spec]. simpl in Ht, Hv. subst t' v'.
    apply list_elem_of_In in Hin. split_and!; [done|done|].
    intros p. split; [by right|by intros [->|]].
  - assert (Hni : (t, v) ∉ l).
    { intros Hin%list_elem_of_In. apply not_true_iff_false in E. apply E, existsb_exists.
      exists (t, v). split; [done|]. simpl. rewrite Z.eqb_refl. apply andb_true_iff.
      split; [done|by apply peq_spec]. }
    assert (Hp := spec_insert_perm t v l).
    assert (Hin : forall x, x ∈ Spec.insert t v l <-> x = (t, v) \/ x ∈ l).
    { intros x. rewrite (elem_of_Permutation_proper x _ _ Hp). apply elem_of_cons. }
    split_and!; [|apply Hin; by left|done]. rewrite (NoDup_Permutation_proper _ _ Hp). by constructor.
Qed.

Lemma push_deduplicates_witness :
  exists l', represents (TimeQueue.push queue_321 9 10) l' /\ NoDup l' /\
    ((10, 9) ∈ l') /\
    (forall p, p ∈ l' <-> p = (10, 9) \/ p ∈ [(10, 1); (10, 9); (20, 2); (30, 3)]).
Proof.
  apply (push_deduplicates queue_321); [exact queue_321_represents|vm_compute; split; congruence|].
  apply (bool_decide_unpack _). vm_compute. exact I.
Defined.
