(* ===== verification/GraphState.v ===== *)
(** * The engine's state and the calls nodes make on it:
      [wingfoil/src/graph.rs], [GraphState]; [wingfoil/src/types.rs], [Node]

    A node object is known to the engine only by its address ([ByThinAddress]),
    and to the engine's loops by its index in [nodes]. What a node does when the
    engine calls it is the interface [NodeOps]: the engine is written, and
    verified, for every implementation of it. The objects themselves live in a
    world [W] that node calls may change. *)
From S2P Require Import Prelude NanoTime TimeQueue.

(** The identity of an [Rc<dyn Node>]. *)
Abbreviation addr := positive (only parsing).

(** ** Data *)

Record Edge := mkEdge { node_index : nat; edge_active : bool }.

Record PendingAddition := mkPendingAddition {
  pa_node : addr; pa_caller_index : nat; pa_is_active : bool; pa_recycle : bool }.

Record NodeData := mkNodeData {
  node : addr;
  upstreams : list Edge;
  downstreams : list Edge;
  layer : nat;
  active : bool }.

#[export] Instance Edge_eq_dec : EqDecision Edge.
Proof. solve_decision. Defined.
#[export] Instance NodeData_eq_dec : EqDecision NodeData.
Proof. solve_decision. Defined.

Definition set_upstreams (u : list Edge) (nd : NodeData) : NodeData :=
  mkNodeData (node nd) u (downstreams nd) (layer nd) (active nd).
Definition set_downstreams (d : list Edge) (nd : NodeData) : NodeData :=
  mkNodeData (node nd) (upstreams nd) d (layer nd) (active nd).
Definition set_layer (l : nat) (nd : NodeData) : NodeData :=
  mkNodeData (node nd) (upstreams nd) (downstreams nd) l (active nd).
Definition set_active (a : bool) (nd : NodeData) : NodeData :=
  mkNodeData (node nd) (upstreams nd) (downstreams nd) (layer nd) a.

Inductive RunMode := RealTime | HistoricalFrom (t : Z).

Inductive RunFor := ForDuration (d : Duration) | Cycles (n : Z) | Forever.

(** [RunFor::done]. *)
Definition RunFor_done (self : RunFor) (cycle elapsed : Z) : bool :=
  match self with
  | Cycles cycles => (cycles <? cycle)%Z
  | ForDuration duration => (NanoTime.from_duration duration <? elapsed)%Z
  | Forever => false
  end.

(** [UpStreams]. *)
Record UpStreams := mkUpStreams { us_active : list addr; us_passive : list addr }.
Definition UpStreams_none : UpStreams := mkUpStreams [] [].

(** [GraphState]. The tokio runtime and the graph's numeric id (both used only
    for logging and spawning) have no counterpart. *)
Record GraphState := mkGraphState {
  time : Z;
  wall_time : Z;
  first_cycle : bool;
  is_last_cycle : bool;
  current_node_index : option nat;
  scheduled_callbacks : TimeQueue nat;
  always_callbacks : list nat;
  node_to_index : gmap addr nat;
  node_ticked : list bool;
  run_mode : RunMode;
  run_for : RunFor;
  ready_callbacks : list nat;
  start_time : Z;
  nodes : list NodeData;
  dirty_nodes_by_layer : list (list nat);
  node_dirty : list bool;
  wiring_error : option Error;
  pending_additions : list PendingAddition;
  pending_removals : list addr }.

Section setters.
Context (g : GraphState).
Local Abbreviation mk t w fc lc cn sc ac ni nt rc st ns dl nd we pa pr :=
  (mkGraphState t w fc lc cn sc ac ni nt (run_mode g) (run_for g) rc st ns dl nd we pa pr).
Local Abbreviation t := (time g). Local Abbreviation w := (wall_time g).
Local Abbreviation fc := (first_cycle g). Local Abbreviation lc := (is_last_cycle g).
Local Abbreviation cn := (current_node_index g). Local Abbreviation sc := (scheduled_callbacks g).
Local Abbreviation ac := (always_callbacks g). Local Abbreviation ni := (node_to_index g).
Local Abbreviation nt := (node_ticked g). Local Abbreviation rc := (ready_callbacks g).
Local Abbreviation st := (start_time g). Local Abbreviation ns := (nodes g).
Local Abbreviation dl := (dirty_nodes_by_layer g). Local Abbreviation nd := (node_dirty g).
Local Abbreviation we := (wiring_error g). Local Abbreviation pa := (pending_additions g).
Local Abbreviation pr := (pending_removals g).

Definition set_time x := mk x w fc lc cn sc ac ni nt rc st ns dl nd we pa pr.
Definition set_wall_time x := mk t x fc lc cn sc ac ni nt rc st ns dl nd we pa pr.
Definition set_first_cycle x := mk t w x lc cn sc ac ni nt rc st ns dl nd we pa pr.
Definition set_is_last_cycle x := mk t w fc x cn sc ac ni nt rc st ns dl nd we pa pr.
Definition set_current x := mk t w fc lc x sc ac ni nt rc st ns dl nd we pa pr.
Definition set_scheduled x := mk t w fc lc cn x ac ni nt rc st ns dl nd we pa pr.
Definition set_always x := mk t w fc lc cn sc x ni nt rc st ns dl nd we pa pr.
Definition set_node_to_index x := mk t w fc lc cn sc ac x nt rc st ns dl nd we pa pr.
Definition set_node_ticked x := mk t w fc lc cn sc ac ni x rc st ns dl nd we pa pr.
Definition set_ready x := mk t w fc lc cn sc ac ni nt x st ns dl nd we pa pr.
Definition set_start_time x := mk t w fc lc cn sc ac ni nt rc x ns dl nd we pa pr.
Definition set_nodes x := mk t w fc lc cn sc ac ni nt rc st x dl nd we pa pr.
Definition set_dirty_rows x := mk t w fc lc cn sc ac ni nt rc st ns x nd we pa pr.
Definition set_node_dirty x := mk t w fc lc cn sc ac ni nt rc st ns dl x we pa pr.
Definition set_wiring_error x := mk t w fc lc cn sc ac ni nt rc st ns dl nd x pa pr.
Definition set_pending_additions x := mk t w fc lc cn sc ac ni nt rc st ns dl nd we x pr.
Definition set_pending_removals x := mk t w fc lc cn sc ac ni nt rc st ns dl nd we pa x.
End setters.

(** ** Operations *)

Module GraphState.

Definition new (run_mode : RunMode) (run_for : RunFor) (start_time : Z) : GraphState :=
  {| time := NanoTime.ZERO; wall_time := NanoTime.ZERO;
     first_cycle := true; is_last_cycle := false;
     current_node_index := None; scheduled_callbacks := TimeQueue.new;
     always_callbacks := []; node_to_index := ∅; node_ticked := [];
     run_mode := run_mode; run_for := run_for; ready_callbacks := [];
     start_time := start_time; nodes := []; dirty_nodes_by_layer := [];
     node_dirty := []; wiring_error := None; pending_additions := [];
     pending_removals := [] |}.

Definition elapsed (g : GraphState) : Z := u64_saturating_sub (time g) (start_time g).

(** [self.current_node_index.expect(..)]. *)
Definition current (what : string) : M GraphState nat := fun g =>
  match current_node_index g with
  | Some ix => (Ok ix, g)
  | None => (Panic (what +:+ " called outside of a node cycle"), g)
  end.

Definition add_callback_for_node (ix : nat) (t : Z) : M GraphState unit :=
  mmodify (fun g => set_scheduled g (TimeQueue.push (scheduled_callbacks g) ix t)).

Definition add_callback (t : Z) : M GraphState unit :=
  let! ix := current "add_callback" in add_callback_for_node ix t.

Definition current_node_id : M GraphState nat := current "current_node_id".

Definition always_callback : M GraphState unit :=
  let! ix := current "always_callback" in
  mmodify (fun g =>
    if bool_decide (ix ∈ always_callbacks g) then g
    else set_always g (always_callbacks g ++ [ix])).

Definition get_node_index (g : GraphState) (n : addr) : option nat := node_to_index g !! n.

(** [ticked]: [false] for a node that is not wired; an index out of range
    panics (the [None] of the inner lookup). *)
Definition ticked (g : GraphState) (n : addr) : Res bool :=
  match get_node_index g n with
  | None => Ok false
  | Some i => match node_ticked g !! i with Some b => Ok b | None => Panic "index out of bounds" end
  end.

Definition node_index_ticked (g : GraphState) (i : nat) : Res bool :=
  match node_ticked g !! i with Some b => Ok b | None => Panic "index out of bounds" end.

Definition add_upstream (upstream : addr) (is_active recycle : bool) : M GraphState unit :=
  let! caller_index := current "add_upstream" in
  mmodify (fun g => set_pending_additions g
    (pending_additions g ++ [mkPendingAddition upstream caller_index is_active recycle])).

Definition remove_node (n : addr) : M GraphState unit :=
  mmodify (fun g => set_pending_removals g (pending_removals g ++ [n])).

Definition has_scheduled_callbacks (g : GraphState) : bool :=
  negb (TimeQueue.is_empty (scheduled_callbacks g)).

Definition next_scheduled_time (g : GraphState) : Z :=
  default NanoTime.MAX (TimeQueue.next_time (scheduled_callbacks g)).

(** [GraphState::reset]: clear the ticked flags. *)
Definition reset : M GraphState unit :=
  mmodify (fun g => set_node_ticked g ((fun _ => false) <$> node_ticked g)).

Definition push_node (n : addr) : M GraphState unit :=
  mmodify (fun g =>
    let index := length (node_ticked g) in
    let g := set_node_ticked g (node_ticked g ++ [false]) in
    set_node_to_index g (<[n := index]> (node_to_index g))).

Definition seen (g : GraphState) (n : addr) : bool :=
  match node_to_index g !! n with Some _ => true | None => false end.

Definition set_ticked (index : nat) : M GraphState unit := fun g =>
  match node_ticked g !! index with
  | Some _ => (Ok tt, set_node_ticked g (<[index := true]> (node_ticked g)))
  | None => (Panic "index out of bounds", g)
  end.

Definition mark_dirty (index : nat) : M GraphState unit := fun g =>
  match node_dirty g !! index with
  | None => (Panic "index out of bounds", g)
  | Some true => (Ok tt, g)
  | Some false =>
    match nodes g !! index with
    | None => (Panic "index out of bounds", g)
    | Some nd =>
      match dirty_nodes_by_layer g !! layer nd with
      | None => (Panic "index out of bounds", g)
      | Some row =>
        let g := set_dirty_rows g (<[layer nd := row ++ [index]]> (dirty_nodes_by_layer g)) in
        (Ok tt, set_node_dirty g (<[index := true]> (node_dirty g)))
      end
    end
  end.

End GraphState.

(** ** The environment: clocks and other threads

    The monotonic clock ([quanta]) and the ready channel ([crossbeam]) are not
    part of the program. The [n]-th reading of the clock is [env_mono n]; the
    indices other threads have sent on the ready channel by the [n]-th time the
    engine looks at it are [env_arrivals n]; the index, if any, that arrives
    within the timeout of the [n]-th blocking wait is [env_wait n]. *)
Record Env := mkEnv {
  env_offset : Z;
  env_mono : nat -> Z; env_reads : nat;
  env_arrivals : nat -> list nat; env_polls : nat;
  env_wait : nat -> option nat; env_waits : nat }.

(** A clock that stands still and a channel nobody sends on: enough for a
    historical run. *)
Definition env_quiet : Env :=
  mkEnv 0 (fun _ => 0%Z) 0 (fun _ => []) 0 (fun _ => None) 0.

(** ** The whole system a call acts on *)

Record Sys (W : Type) := mkSys { world : W; state : GraphState; env : Env }.
Arguments mkSys {W} world state env.
Arguments world {W} s.
Arguments state {W} s.
Arguments env {W} s.

Section lifting.
Context {W : Type}.

Definition set_state (g : GraphState) (s : Sys W) : Sys W := mkSys (world s) g (env s).
Definition set_world (w : W) (s : Sys W) : Sys W := mkSys w (state s) (env s).
Definition set_env (e : Env) (s : Sys W) : Sys W := mkSys (world s) (state s) e.

(** A call on the graph state, made from code that sees the whole system. *)
Definition on_state {A} (m : M GraphState A) : M (Sys W) A := fun s =>
  let '(r, g) := m (state s) in (r, set_state g s).

Definition get_state : M (Sys W) GraphState := fun s => (Ok (state s), s).
Definition modify_state (f : GraphState -> GraphState) : M (Sys W) unit :=
  on_state (mmodify f).

(** [NanoTime::now()]. *)
Definition now : M (Sys W) Z := fun s =>
  let e := env s in
  (Ok (NanoTime.now (env_offset e) (env_mono e (env_reads e))),
   set_env (mkEnv (env_offset e) (env_mono e) (S (env_reads e))
     (env_arrivals e) (env_polls e) (env_wait e) (env_waits e)) s).

(** What other threads have sent by now joins the ready channel. *)
Definition poll_ready : M (Sys W) unit := fun s =>
  let e := env s in let g := state s in
  (Ok tt, mkSys (world s) (set_ready g (ready_callbacks g ++ env_arrivals e (env_polls e)))
    (mkEnv (env_offset e) (env_mono e) (env_reads e)
      (env_arrivals e) (S (env_polls e)) (env_wait e) (env_waits e))).

(** Block on the ready channel: a queued index at once, otherwise whatever the
    environment delivers before the timeout. *)
Definition recv_ready_timeout : M (Sys W) (option nat) := fun s =>
  let e := env s in let g := state s in
  match ready_callbacks g with
  | ix :: rest => (Ok (Some ix), set_state (set_ready g rest) s)
  | [] =>
    (Ok (env_wait e (env_waits e)),
     set_env (mkEnv (env_offset e) (env_mono e) (env_reads e)
       (env_arrivals e) (env_polls e) (env_wait e) (S (env_waits e))) s)
  end.
End lifting.

(** ** The interface between the engine and the nodes ([trait Node]) *)

Class NodeOps (W : Type) := {
  op_upstreams : W -> addr -> UpStreams;
  op_cycle : addr -> M (Sys W) bool;
  op_setup : addr -> M (Sys W) unit;
  op_start : addr -> M (Sys W) unit;
  op_stop : addr -> M (Sys W) unit;
  op_teardown : addr -> M (Sys W) unit }.

(** The effects a node's call can have on the engine's state: Rust's privacy
    leaves it the public methods of [GraphState], and nothing else. [ix] is the
    index of the node being called. A node may schedule callbacks (its own, or
    another node's through a feedback sink), ask to tick on every cycle, queue
    wiring changes, and -- only while it cycles, for a demultiplexer -- mark
    dirty a node of a higher layer. *)
Inductive api_step (cycling : bool) (ix : nat) : relation GraphState :=
| api_callback g j t :
    j < length (nodes g) ->
    api_step cycling ix g (set_scheduled g (TimeQueue.push (scheduled_callbacks g) j t))
| api_always g :
    ix ∉ always_callbacks g ->
    api_step cycling ix g (set_always g (always_callbacks g ++ [ix]))
| api_add_upstream g n act rec :
    api_step cycling ix g (set_pending_additions g
      (pending_additions g ++ [mkPendingAddition n ix act rec]))
| api_remove g n :
    api_step cycling ix g (set_pending_removals g (pending_removals g ++ [n]))
| api_mark g g' j nd nj :
    cycling = true ->
    nodes g !! ix = Some nd -> nodes g !! j = Some nj -> layer nd < layer nj ->
    GraphState.mark_dirty j g = (Ok tt, g') ->
    api_step cycling ix g g'.

(** What the engine relies on: a call made for the node at index [ix] acts on
    the engine's state by such steps only. *)
Class NodeLaws (W : Type) `{NodeOps W} := {
  law_cycle s a ix nd r s' :
    current_node_index (state s) = Some ix -> nodes (state s) !! ix = Some nd -> node nd = a ->
    op_cycle a s = (r, s') -> rtc (api_step true ix) (state s) (state s');
  law_setup s a ix nd r s' :
    current_node_index (state s) = Some ix -> nodes (state s) !! ix = Some nd -> node nd = a ->
    op_setup a s = (r, s') -> rtc (api_step false ix) (state s) (state s');
  law_start s a ix nd r s' :
    current_node_index (state s) = Some ix -> nodes (state s) !! ix = Some nd -> node nd = a ->
    op_start a s = (r, s') -> rtc (api_step false ix) (state s) (state s');
  law_stop s a ix nd r s' :
    current_node_index (state s) = Some ix -> nodes (state s) !! ix = Some nd -> node nd = a ->
    op_stop a s = (r, s') -> rtc (api_step false ix) (state s) (state s');
  law_teardown s a ix nd r s' :
    current_node_index (state s) = Some ix -> nodes (state s) !! ix = Some nd -> node nd = a ->
    op_teardown a s = (r, s') -> rtc (api_step false ix) (state s) (state s') }.
