(* ===== verification/Scripted.v ===== *)
(** * A small implementation of the node interface

    Scripted nodes: what they declare upstream, whether they tick, whether they
    drive themselves with a period, and which call of theirs fails are data.
    They record the calls they receive. They instantiate [NodeOps] and
    [NodeLaws] so that the theorems about the engine can be evaluated on
    concrete graphs; they model no code of their own. *)
From S2P Require Import Prelude NanoTime TimeQueue GraphState.

Inductive Call := CCycle | CSetup | CStart | CStop | CTeardown.
#[export] Instance Call_eq_dec : EqDecision Call.
Proof. solve_decision. Defined.

Record Script := mkScript {
  sc_ups : UpStreams;
  sc_ticks : bool;
  sc_period : option Z;
  sc_always : bool;
  sc_fails : option Call;
  sc_adds : option addr }.

Record Scripts := mkScripts { scripts : gmap addr Script; calls : list (Call * addr) }.

Definition sc_default : Script := mkScript UpStreams_none true None false None None.

Definition script_of (w : Scripts) (a : addr) : Script := default sc_default (scripts w !! a).

Definition sc_log (c : Call) (a : addr) : M (Sys Scripts) unit := fun s =>
  (Ok tt, set_world (mkScripts (scripts (world s)) (calls (world s) ++ [(c, a)])) s).

Definition sc_call (c : Call) (a : addr) (body : Script -> M (Sys Scripts) unit) : M (Sys Scripts) unit :=
  do! sc_log c a in
  let! s := mget in
  let sc := script_of (world s) a in
  do! body sc in
  if bool_decide (sc_fails sc = Some c) then mfail (Msg "scripted failure") else mreturn tt.

#[export] Instance scripted_ops : NodeOps Scripts := {
  op_upstreams w a := sc_ups (script_of w a);
  op_cycle a :=
    do! sc_call CCycle a (fun sc =>
      let! g := get_state in
      do! match sc_period sc with
          | Some p => on_state (GraphState.add_callback (NanoTime.add (time g) p))
          | None => mreturn tt
          end in
      match sc_adds sc with
      | Some b => on_state (GraphState.add_upstream b true false)
      | None => mreturn tt
      end) in
    let! s := mget in
    mreturn (sc_ticks (script_of (world s) a));
  op_setup a := sc_call CSetup a (fun _ => mreturn tt);
  op_start a := sc_call CStart a (fun sc =>
    let! g := get_state in
    do! match sc_period sc with
        | Some p => on_state (GraphState.add_callback (start_time g))
        | None => mreturn tt
        end in
    if sc_always sc then on_state GraphState.always_callback else mreturn tt);
  op_stop a := sc_call CStop a (fun _ => mreturn tt);
  op_teardown a := sc_call CTeardown a (fun _ => mreturn tt) }.

(** ** The laws *)

(** Being called, for the node at [ix]: the index is current and in range. *)
Definition api_reach (cycling : bool) (ix : nat) (s s' : Sys Scripts) : Prop :=
  current_node_index (state s) = Some ix -> ix < length (nodes (state s)) ->
  rtc (api_step cycling ix) (state s) (state s') /\
  current_node_index (state s') = Some ix /\ nodes (state s') = nodes (state s).

Section laws.
Context (cycling : bool) (ix : nat).

Instance api_reach_preorder : PreOrder (api_reach cycling ix).
Proof.
  split.
  - intros s ? ?. by split_and!.
  - intros s1 s2 s3 H1 H2 Hc Hl. destruct (H1 Hc Hl) as (Hr & Hc' & Hn).
    destruct (H2 Hc' ltac:(by rewrite Hn)) as (Hr' & Hc'' & Hn').
    split_and!; [by etransitivity|done|congruence].
Qed.

Lemma add_callback_reach t :
  respects (api_reach cycling ix) (on_state (GraphState.add_callback t)).
Proof.
  intros s r s' Hrun Hc Hl. unfold on_state, GraphState.add_callback, GraphState.current, mbind in Hrun.
  rewrite Hc in Hrun. simplify_eq/=. split_and!; [|done|done].
  apply rtc_once. by apply api_callback.
Qed.

Lemma always_callback_reach :
  respects (api_reach cycling ix) (on_state GraphState.always_callback).
Proof.
  intros s r s' Hrun Hc Hl. unfold on_state, GraphState.always_callback, GraphState.current, mbind in Hrun.
  rewrite Hc in Hrun. simplify_eq/=. case_bool_decide; split_and!; try done.
  apply rtc_once. by apply api_always.
Qed.

Lemma add_upstream_reach b act rec :
  respects (api_reach cycling ix) (on_state (GraphState.add_upstream b act rec)).
Proof.
  intros s r s' Hrun Hc Hl. unfold on_state, GraphState.add_upstream, GraphState.current, mbind in Hrun.
  rewrite Hc in Hrun. simplify_eq/=. split_and!; [|done|done].
  apply rtc_once. apply api_add_upstream.
Qed.

Lemma get_state_reach : respects (api_reach cycling ix) get_state.
Proof. intros s r s' [= <- <-]. reflexivity. Qed.

Lemma sc_call_reach c a body :
  (forall sc, respects (api_reach cycling ix) (body sc)) ->
  respects (api_reach cycling ix) (sc_call c a body).
Proof.
  intros Hb. apply respects_bind; [apply _| |intros _].
  { intros s r s' [= <- <-] Hc Hl. by split_and!. }
  apply respects_bind; [apply _|apply respects_get; apply _|intros s].
  apply respects_bind; [apply _|apply Hb|intros _].
  case_bool_decide; [apply respects_fail|apply respects_return]; apply _.
Qed.

Lemma reach_law {A} (m : M (Sys Scripts) A) s nd r s' :
  respects (api_reach cycling ix) m -> current_node_index (state s) = Some ix ->
  nodes (state s) !! ix = Some nd -> m s = (r, s') ->
  rtc (api_step cycling ix) (state s) (state s').
Proof.
  intros Hm Hc Hn Hrun. by apply (Hm _ _ _ Hrun Hc (lookup_lt_Some _ _ _ Hn)).
Qed.
End laws.

Ltac scripted_law :=
  intros s a ix nd r s' Hc Hn _ Hrun; eapply (reach_law _ ix _ s nd r s'); eauto; simpl;
  repeat first
    [ apply sc_call_reach; intros ?
    | apply respects_bind; [apply api_reach_preorder| |intros ?]
    | apply get_state_reach | apply add_callback_reach | apply always_callback_reach
    | apply add_upstream_reach
    | apply respects_return; apply api_reach_preorder
    | apply respects_get; apply api_reach_preorder
    | case_match ].

#[export] Instance scripted_laws : NodeLaws Scripts.
Proof. split; scripted_law. Qed.
