(* ===== verification/Graph.v ===== *)
(** * The graph engine: [wingfoil/src/graph.rs], [Graph]

    Wiring ([initialise]), the engine cycle, the changes of wiring at run time,
    the run loop and the lifecycle, each a definition on the whole system
    [Sys W] for an arbitrary implementation [NodeOps W] of the nodes.

    [fuel] bounds the loops whose number of rounds the text of the program does
    not bound: the work stack of [initialise_node], the work queue of
    [fix_layers], the upward walk of a recycled addition, and the run loop. *)
From S2P Require Import Prelude NanoTime TimeQueue GraphState.

Definition index_panic {A} : Res A := Panic "index out of bounds".

(** [v[i]]. *)
Definition at_index {S A} (l : list A) (i : nat) : M S A :=
  mlift (match l !! i with Some x => Ok x | None => index_panic end).

(** [v[i] = f(v[i])], panicking out of range. *)
Definition update_node {W} (i : nat) (f : NodeData -> NodeData) : M (Sys W) unit :=
  let! g := get_state in
  let! nd := at_index (nodes g) i in
  modify_state (fun g => set_nodes g (<[i := f nd]> (nodes g))).

Definition node_at {W} (i : nat) : M (Sys W) NodeData :=
  let! g := get_state in at_index (nodes g) i.

Definition push_downstream (e : Edge) (nd : NodeData) : NodeData :=
  set_downstreams (downstreams nd ++ [e]) nd.
Definition push_upstream (e : Edge) (nd : NodeData) : NodeData :=
  set_upstreams (upstreams nd ++ [e]) nd.

(** [for i in 0..n { body(i)?; }]. *)
Definition for_range {S} (n : nat) (body : nat -> M S unit) : M S unit :=
  mfor (seq 0 n) body.

(** ** Wiring *)

Record WiringFrame := mkFrame {
  fr_node : addr;
  fr_upstreams : list (addr * bool);
  fr_next : nat;
  fr_layer : nat;
  fr_edges : list Edge }.

(** [WiringFrame::new]: active upstreams first, then passive. *)
Definition WiringFrame_new (ups : UpStreams) (n : addr) : WiringFrame :=
  mkFrame n (((fun u => (u, true)) <$> us_active ups) ++ ((fun u => (u, false)) <$> us_passive ups))
    0 0 [].

Definition cycle_error : Error :=
  Msg "cycle detected in graph wiring: node is (transitively) its own upstream".

Module Graph.
Section graph.
Context {W : Type} `{NodeOps W}.
Context (fuel : nat).

(** The loop of [initialise_node]. The stack is a list with its top first; an
    in-progress node is one on the stack. *)
Fixpoint wiring_loop (fuel : nat) (in_progress : gset addr) (stack : list WiringFrame)
  : M (Sys W) unit :=
  match fuel with
  | O => mstuck
  | S fuel' =>
    match stack with
    | [] => mreturn tt
    | frame :: below =>
      match fr_upstreams frame !! fr_next frame with
      | Some (up, is_active) =>
        let! g := get_state in
        match node_to_index g !! up with
        | Some idx =>
          let! nd := at_index (nodes g) idx in
          let frame' := mkFrame (fr_node frame) (fr_upstreams frame) (S (fr_next frame))
            (Nat.max (fr_layer frame) (layer nd + 1)) (fr_edges frame ++ [mkEdge idx is_active]) in
          wiring_loop fuel' in_progress (frame' :: below)
        | None =>
          if bool_decide (up ∈ in_progress) then mfail cycle_error
          else
            let! s := mget in
            wiring_loop fuel' ({[up]} ∪ in_progress)
              (WiringFrame_new (op_upstreams (world s) up) up :: stack)
        end
      | None =>
        let node_data := mkNodeData (fr_node frame) (fr_edges frame) [] (fr_layer frame) true in
        do! on_state (GraphState.push_node (fr_node frame)) in
        do! modify_state (fun g => set_nodes g (nodes g ++ [node_data])) in
        wiring_loop fuel' (in_progress ∖ {[fr_node frame]}) below
      end
    end
  end.

Definition registered_index (n : addr) : M (Sys W) nat :=
  let! g := get_state in
  mlift (match node_to_index g !! n with
         | Some i => Ok i
         | None => Panic "root registered after wiring"
         end).

Definition initialise_node (root : addr) : M (Sys W) nat :=
  let! g := get_state in
  if GraphState.seen g root then registered_index root
  else
    let! s := mget in
    do! wiring_loop fuel {[root]} [WiringFrame_new (op_upstreams (world s) root) root] in
    registered_index root.

(** The second half of [initialise]: downstream edges, dirty flags and rows. *)
Definition wire_downstreams (i : nat) : M (Sys W) unit :=
  let! nd := node_at i in
  for_range (length (upstreams nd)) (fun j =>
    let! nd := node_at i in
    let! edge := at_index (upstreams nd) j in
    update_node (node_index edge) (push_downstream (mkEdge i (edge_active edge)))).

Definition push_dirty_flag : M (Sys W) unit :=
  modify_state (fun g => set_node_dirty g (node_dirty g ++ [false])).
Definition push_dirty_row : M (Sys W) unit :=
  modify_state (fun g => set_dirty_rows g (dirty_nodes_by_layer g ++ [[]])).

(** [max_layer] is an [i32] that starts at -1. *)
Fixpoint finish_wiring (indices : list nat) (max_layer : Z) : M (Sys W) Z :=
  match indices with
  | [] => mreturn max_layer
  | i :: rest =>
    let! nd := node_at i in
    if (Z.of_nat (layer nd) <=? 2147483647)%Z then
      do! push_dirty_flag in
      do! wire_downstreams i in
      finish_wiring rest (Z.max max_layer (Z.of_nat (layer nd)))
    else mpanic "graph layer count fits in i32"
  end.

Definition stash_wiring_error (e : Error) : M (Sys W) unit :=
  modify_state (fun g =>
    match wiring_error g with Some _ => g | None => set_wiring_error g (Some e) end).

Fixpoint initialise (root_nodes : list addr) : M (Sys W) unit :=
  match root_nodes with
  | [] =>
    let! g := get_state in
    let! max_layer := finish_wiring (seq 0 (length (nodes g))) (-1) in
    for_range (Z.to_nat (max_layer + 1)) (fun _ => push_dirty_row)
  | node :: rest =>
    let! r := mcatch (initialise_node node) in
    match r with
    | Err e => stash_wiring_error e
    | _ => initialise rest
    end
  end.

(** ** Scheduling *)

Definition mark_dirty (index : nat) : M (Sys W) unit := on_state (GraphState.mark_dirty index).

(** [while let Some(ix) = scheduled_callbacks.pop_if_pending(now)]. Each round
    takes one entry, so the queue's length is fuel enough. *)
Fixpoint drain_scheduled (rounds : nat) (now : Z) (progressed : bool) : M (Sys W) bool :=
  let! g := get_state in
  match TimeQueue.pop_if_pending (scheduled_callbacks g) now with
  | (None, _) => mreturn progressed
  | (Some ix, q) =>
    match rounds with
    | O => mstuck
    | S rounds' =>
      do! modify_state (fun g => set_scheduled g q) in
      do! mark_dirty ix in
      drain_scheduled rounds' now true
    end
  end.

Definition process_scheduled_callbacks : M (Sys W) bool :=
  let! g := get_state in
  do! for_range (length (always_callbacks g)) (fun i =>
    let! g := get_state in
    let! ix := at_index (always_callbacks g) i in
    mark_dirty ix) in
  let progressed := negb (Nat.eqb (length (always_callbacks g)) 0) in
  drain_scheduled (length (heap (scheduled_callbacks g))) (time g) progressed.

Definition historical_error : Error :=
  Msg "ready callbacks are not supported in historical mode".

Definition process_callbacks_historical : M (Sys W) bool :=
  do! poll_ready in
  let! g := get_state in
  match ready_callbacks g with
  | _ :: _ => mfail historical_error
  | [] =>
    let has_scheduled := GraphState.has_scheduled_callbacks g in
    let has_always := match always_callbacks g with [] => false | _ => true end in
    do! (if has_scheduled || has_always then
      let next :=
        if has_scheduled then GraphState.next_scheduled_time g else NanoTime.add (time g) 1 in
      if first_cycle g then
        modify_state (fun g =>
          let g := set_first_cycle g false in
          set_time g (if has_scheduled then next else time g))
      else modify_state (fun g => set_time g (Z.max next (NanoTime.add (time g) 1)))
    else mreturn tt) in
    process_scheduled_callbacks
  end.

(** [while let Ok(ix) = ready_callbacks.try_recv()]. *)
Fixpoint drain_ready (rounds : nat) (progressed : bool) : M (Sys W) bool :=
  let! g := get_state in
  match ready_callbacks g with
  | [] => mreturn progressed
  | ix :: rest =>
    match rounds with
    | O => mstuck
    | S rounds' =>
      do! modify_state (fun g => set_ready g rest) in
      do! mark_dirty ix in
      drain_ready rounds' true
    end
  end.

Definition process_ready_callbacks : M (Sys W) bool :=
  do! poll_ready in
  let! g := get_state in
  drain_ready (length (ready_callbacks g)) false.

Definition wait_ready_callback (end_time : Z) : M (Sys W) (option nat) :=
  let! t := now in
  if (end_time <? t)%Z then mreturn None else recv_ready_timeout.

Definition process_callbacks_realtime (end_time : Z) : M (Sys W) bool :=
  let! progressed := process_ready_callbacks in
  let! scheduled := process_scheduled_callbacks in
  let progressed := progressed || scheduled in
  let! progressed :=
    (if progressed then mreturn true
     else
       let! g := get_state in
       let wait_until := Z.min end_time (GraphState.next_scheduled_time g) in
       let! r := wait_ready_callback wait_until in
       match r with
       | Some ix => do! mark_dirty ix in mreturn true
       | None => mreturn false
       end) in
  let! t := now in
  do! modify_state (fun g => set_time g (Z.max t (NanoTime.add (time g) 1))) in
  mreturn progressed.

(** ** The engine cycle *)

Definition set_current_node (ix : option nat) : M (Sys W) unit :=
  modify_state (fun g => set_current g ix).

Definition mark_downstream (index i : nat) : M (Sys W) unit :=
  let! nd := node_at index in
  let! edge := at_index (downstreams nd) i in
  if edge_active edge then mark_dirty (node_index edge) else mreturn tt.

Definition cycle_node (index : nat) : M (Sys W) unit :=
  let! nd := node_at index in
  if negb (active nd) then mreturn tt
  else
    do! set_current_node (Some index) in
    let! result := mcatch (op_cycle (node nd)) in
    do! set_current_node None in
    let! ticked := mlift (res_map_err (NodeContext "cycle" index) result) in
    if ticked : bool then
      do! on_state (GraphState.set_ticked index) in
      let! nd := node_at index in
      for_range (length (downstreams nd)) (mark_downstream index)
    else mreturn tt.

Definition reset : M (Sys W) unit :=
  do! on_state GraphState.reset in
  modify_state (fun g =>
    let g := set_dirty_rows g ((fun _ => []) <$> dirty_nodes_by_layer g) in
    set_node_dirty g ((fun _ => false) <$> node_dirty g)).

Definition cycle_layer (lyr : nat) : M (Sys W) unit :=
  let! g := get_state in
  let! row := at_index (dirty_nodes_by_layer g) lyr in
  for_range (length row) (fun i =>
    let! g := get_state in
    let! row := at_index (dirty_nodes_by_layer g) lyr in
    let! ix := at_index row i in
    cycle_node ix).

Definition cycle_layers : M (Sys W) unit :=
  let! g := get_state in
  for_range (length (dirty_nodes_by_layer g)) cycle_layer.

(** ** Wiring changes at run time (feature [dynamic-graph]) *)

Definition not_index (index : nat) (e : Edge) : bool := negb (Nat.eqb (node_index e) index).
Definition retain_not (index : nat) (l : list Edge) : list Edge := List.filter (not_index index) l.

Definition remove_one (n : addr) : M (Sys W) unit :=
  let! g := get_state in
  match GraphState.get_node_index g n with
  | None => mreturn tt
  | Some index =>
    let! nd := node_at index in
    if negb (active nd) then mreturn tt
    else
      do! mfor (upstreams nd) (fun edge => update_node (node_index edge)
            (fun x => set_downstreams (retain_not index (downstreams x)) x)) in
      let! nd := node_at index in
      do! mfor (downstreams nd) (fun edge => update_node (node_index edge)
            (fun x => set_upstreams (retain_not index (upstreams x)) x)) in
      do! set_current_node (Some index) in
      do! mmap_err (NodeContext "stop" index) (op_stop n) in
      do! mmap_err (NodeContext "teardown" index) (op_teardown n) in
      do! set_current_node None in
      update_node index (set_active false)
  end.

Definition process_pending_removals : M (Sys W) unit :=
  let! g := get_state in
  do! modify_state (fun g => set_pending_removals g []) in
  mfor (pending_removals g) remove_one.

(** [iter().map(layer).max().map_or(0, |m| m + 1)]. *)
Definition required_layer (layers : list nat) : nat :=
  match layers with [] => 0 | _ => foldr Nat.max 0 layers + 1 end.

Fixpoint layers_of (es : list Edge) : M (Sys W) (list nat) :=
  match es with
  | [] => mreturn []
  | e :: es' =>
    let! nd := node_at (node_index e) in
    let! ls := layers_of es' in
    mreturn (layer nd :: ls)
  end.

(** [while dirty_nodes_by_layer.len() <= layer { push(vec![]) }]. *)
Definition extend_rows (lyr : nat) : M (Sys W) unit :=
  modify_state (fun g => set_dirty_rows g
    (dirty_nodes_by_layer g ++ repeat [] (S lyr - length (dirty_nodes_by_layer g)))).

Fixpoint fix_layers_loop (fuel : nat) (queue : list nat) : M (Sys W) unit :=
  match queue with
  | [] => mreturn tt
  | ix :: rest =>
    match fuel with
    | O => mstuck
    | S fuel' =>
      let! nd := node_at ix in
      let! ls := layers_of (upstreams nd) in
      let required := required_layer ls in
      if layer nd <? required then
        do! update_node ix (set_layer required) in
        do! extend_rows required in
        fix_layers_loop fuel' (rest ++ map node_index (downstreams nd))
      else
        do! extend_rows (layer nd) in
        fix_layers_loop fuel' rest
    end
  end.

Definition fix_layers (start : nat) : M (Sys W) unit := fix_layers_loop fuel [start].

(** The upward walk of a recycled addition. The stack has its top first. *)
Fixpoint recycle_walk (fuel : nat) (new_set : gset nat) (t : Z)
    (stack : list nat) (visited : gset nat) : M (Sys W) unit :=
  match stack with
  | [] => mreturn tt
  | ix :: stack' =>
    match fuel with
    | O => mstuck
    | S fuel' =>
      if bool_decide (ix ∈ visited) then recycle_walk fuel' new_set t stack' visited
      else
        let visited := {[ix]} ∪ visited in
        let! nd := node_at ix in
        let ups := upstreams nd in
        let has_preexisting := existsb (fun e => bool_decide (node_index e ∉ new_set)) ups in
        let is_source := match ups with [] => true | _ => false end in
        do! (if has_preexisting || is_source
             then on_state (GraphState.add_callback_for_node ix t) else mreturn tt) in
        let pushed := List.filter (fun i => bool_decide (i ∈ new_set)) (map node_index ups) in
        recycle_walk fuel' new_set t (rev pushed ++ stack') visited
    end
  end.

Definition wire_addition (new_indices : list nat) (a : PendingAddition) (index : nat)
    (wired : gset (nat * nat)) : M (Sys W) (gset (nat * nat)) :=
  let caller := pa_caller_index a in
  do! (if bool_decide ((caller, index) ∈ wired) then mreturn tt
       else
         do! update_node caller (push_upstream (mkEdge index (pa_is_active a))) in
         update_node index (push_downstream (mkEdge caller (pa_is_active a)))) in
  do! fix_layers caller in
  do! (if pa_recycle a then
         let! g := get_state in
         recycle_walk fuel (list_to_set new_indices) (NanoTime.add (time g) 1) [index] ∅
       else mreturn tt) in
  mreturn ({[(caller, index)]} ∪ wired).

Fixpoint wire_additions (new_indices : list nat) (additions : list PendingAddition)
    (wired : gset (nat * nat)) : M (Sys W) unit :=
  match additions with
  | [] => mreturn tt
  | a :: rest =>
    let! index := registered_index (pa_node a) in
    let! wired := wire_addition new_indices a index wired in
    wire_additions new_indices rest wired
  end.

Definition call_new (phase : string) (op : addr -> M (Sys W) unit) (ix : nat) : M (Sys W) unit :=
  let! nd := node_at ix in
  do! set_current_node (Some ix) in
  do! mmap_err (NodeContext phase ix) (op (node nd)) in
  set_current_node None.

Definition process_pending_additions : M (Sys W) unit :=
  let! g := get_state in
  let additions := pending_additions g in
  do! modify_state (fun g => set_pending_additions g []) in
  match additions with
  | [] => mreturn tt
  | _ =>
    let start_index := length (nodes g) in
    do! mfor additions (fun a => do! initialise_node (pa_node a) in mreturn tt) in
    let! g := get_state in
    let new_indices := seq start_index (length (nodes g) - start_index) in
    do! mfor new_indices (fun _ => push_dirty_flag) in
    do! mfor new_indices (fun ix =>
      let! nd := node_at ix in
      mfor (upstreams nd) (fun edge =>
        update_node (node_index edge) (push_downstream (mkEdge ix (edge_active edge))))) in
    do! wire_additions new_indices additions ∅ in
    do! mfor new_indices (call_new "setup" op_setup) in
    mfor new_indices (call_new "start" op_start)
  end.

Definition cycle : M (Sys W) unit :=
  let! t := now in
  do! modify_state (fun g => set_wall_time g t) in
  do! cycle_layers in
  do! reset in
  do! process_pending_removals in
  process_pending_additions.

(** ** Lifecycle and run loop *)

Definition apply_nodes (desc : string) (func : addr -> M (Sys W) unit) : M (Sys W) unit :=
  let! g := get_state in
  for_range (length (nodes g)) (fun ix =>
    let! nd := node_at ix in
    if negb (active nd) then mreturn tt
    else
      do! set_current_node (Some ix) in
      do! mmap_err (NodeContext desc ix) (func (node nd)) in
      set_current_node None).

Definition setup_nodes : M (Sys W) unit := apply_nodes "setup" op_setup.
Definition start_nodes : M (Sys W) unit := apply_nodes "start" op_start.
Definition stop_nodes : M (Sys W) unit := apply_nodes "stop" op_stop.
Definition teardown_nodes : M (Sys W) unit := apply_nodes "teardown" op_teardown.

Record RunBounds := mkBounds { rb_start_time : Z; rb_end_time : Z; rb_end_cycle : Z }.

Definition resolve_start_end : M (Sys W) RunBounds :=
  let! g := get_state in
  let! start := match run_mode g with RealTime => now | HistoricalFrom t => mreturn t end in
  mreturn match run_for g with
          | ForDuration duration => mkBounds start (NanoTime.add_duration start duration) u32_max
          | Cycles cycle => mkBounds start NanoTime.MAX cycle
          | Forever => mkBounds start NanoTime.MAX u32_max
          end.

Definition is_realtime (m : RunMode) : bool :=
  match m with RealTime => true | HistoricalFrom _ => false end.

(** The loop of [run_nodes]; it yields the two counters it reports. *)
Fixpoint run_loop (rounds : nat) (b : RunBounds) (realtime : bool) (cycles empty_cycles : Z)
  : M (Sys W) (Z * Z) :=
  match rounds with
  | O => mstuck
  | S rounds' =>
    let! g := get_state in
    let cycles_done := (rb_end_cycle b <=? cycles)%Z in
    let time_done := (rb_end_time b <=? time g)%Z in
    if cycles_done || (is_last_cycle g && time_done) then mreturn (cycles, empty_cycles)
    else
      do! (if negb (is_last_cycle g) && ((rb_end_cycle b <=? cycles + 1)%Z || time_done)
           then modify_state (fun g => set_is_last_cycle g true) else mreturn tt) in
      let! progressed :=
        (if realtime then process_callbacks_realtime (rb_end_time b)
         else process_callbacks_historical) in
      if progressed then
        do! cycle in
        run_loop rounds' b realtime (wrap_u32 (cycles + 1)) empty_cycles
      else if realtime then
        run_loop rounds' b realtime cycles (wrap_u32 (empty_cycles + 1))
      else mreturn (cycles, empty_cycles)
  end.

Definition run_nodes : M (Sys W) (Z * Z) :=
  let! b := resolve_start_end in
  let! g := get_state in
  do! modify_state (fun g => set_start_time g (rb_start_time b)) in
  run_loop fuel b (is_realtime (run_mode g)) 0 0.

(** [first_error]. *)
Definition first_error (results : list (Res unit)) : Res unit :=
  match omap res_err results with
  | [] => Ok tt
  | [primary] => Err primary
  | primary :: extra => Err (ShutdownContext primary extra)
  end.

Definition run : M (Sys W) unit :=
  let! g := get_state in
  do! modify_state (fun g => set_wiring_error g None) in
  match wiring_error g with
  | Some e => mfail e
  | None =>
    do! setup_nodes in
    let! start_result := mcatch start_nodes in
    let! run_result :=
      (if is_ok start_result
       then mcatch (do! run_nodes in mreturn tt)
       else mreturn (Ok tt)) in
    let! stop_result := mcatch stop_nodes in
    let! teardown_result := mcatch teardown_nodes in
    mlift (first_error [start_result; run_result; stop_result; teardown_result])
  end.

(** [Graph::new] on a fresh state. *)
Definition new (root_nodes : list addr) (mode : RunMode) (rf : RunFor) (w : W) (e : Env)
  : Res unit * Sys W :=
  (let! start := match mode with RealTime => now | HistoricalFrom t => mreturn t end in
   do! modify_state (fun _ => GraphState.new mode rf start) in
   initialise root_nodes) (mkSys w (GraphState.new mode rf 0) e).

End graph.
End Graph.
