(* ===== verification/WiringFacts.v ===== *)
(** * Correctness of wiring ([Graph::initialise_node], [Graph::initialise])

    The iterative depth-first walk is related to the graph of declared
    upstreams: it ends, it registers exactly the nodes reachable from the root,
    each after its upstreams and one layer above the highest of them, or it
    reports a cycle, and it reports one exactly when there is one. *)
From S2P Require Import Prelude NanoTime TimeQueue GraphState Scripted Graph.

Local Abbreviation required_layer := Graph.required_layer.

(** ** Definitions *)

Section definitions.
Context {W : Type} `{NodeOps W}.
Context (w : W).

(** The [(upstream, is_active)] pairs a node declares, in wiring order. *)
Definition ups (a : addr) : list (addr * bool) :=
  fr_upstreams (WiringFrame_new (op_upstreams w a) a).

Definition child (a b : addr) : Prop := b ∈ map fst (ups a).
Definition reaches : addr -> addr -> Prop := rtc child.
Definition cycle_from (root : addr) : Prop := exists a, reaches root a /\ tc child a a.

(** [U] contains everything wired from its elements. *)
Definition closed (U : list addr) : Prop := forall a b, a ∈ U -> child a b -> b ∈ U.

Definition weight (a : addr) : nat := 2 + length (ups a).
(** Rounds enough for [initialise_node] when all of it lies in [U]. *)
Definition wiring_fuel (U : list addr) : nat := S (sum_list_with weight U).

(** [node_to_index] is the inverse of [nodes]. *)
Definition index_ok (g : GraphState) : Prop :=
  length (node_ticked g) = length (nodes g) /\
  forall a i, node_to_index g !! a = Some i <-> exists nd, nodes g !! i = Some nd /\ node nd = a.

Definition layer_at (g : GraphState) (i : nat) : nat := from_option layer 0 (nodes g !! i).
Definition edges_layer (g : GraphState) (es : list Edge) : nat :=
  required_layer (map (fun e => layer_at g (node_index e)) es).

Definition resolves (g : GraphState) (p : addr * bool) (e : Edge) : Prop :=
  node_to_index g !! p.1 = Some (node_index e) /\ edge_active e = p.2.
Definition resolve (g : GraphState) (l : list (addr * bool)) (es : list Edge) : Prop :=
  Forall2 (resolves g) l es.

(** A registered node: its edges are those it declares, resolved to smaller
    indices, and its layer is one above the highest of them. *)
Definition node_ok (g : GraphState) (i : nat) (nd : NodeData) : Prop :=
  resolve g (ups (node nd)) (upstreams nd) /\
  Forall (fun e => node_index e < i) (upstreams nd) /\
  layer nd = edges_layer g (upstreams nd) /\
  active nd = true.

(** The state after wiring: every registered node is as it should be. *)
Definition wired (g : GraphState) : Prop :=
  index_ok g /\ forall i nd, nodes g !! i = Some nd -> node_ok g i nd.

Definition registered (g : GraphState) (a : addr) : Prop := is_Some (node_to_index g !! a).

Definition frame_ok (g : GraphState) (f : WiringFrame) : Prop :=
  fr_upstreams f = ups (fr_node f) /\
  node_to_index g !! fr_node f = None /\
  fr_next f <= length (fr_upstreams f) /\
  resolve g (take (fr_next f) (fr_upstreams f)) (fr_edges f) /\
  fr_layer f = edges_layer g (fr_edges f).

(** Each frame below the top is waiting for the node of the frame above it. *)
Fixpoint chained (stack : list WiringFrame) : Prop :=
  match stack with
  | f :: ((f' :: _) as below) =>
      (exists act, fr_upstreams f' !! fr_next f' = Some (fr_node f, act)) /\ chained below
  | _ => True
  end.

(** Only the node tables differ. *)
Definition only_nodes (g0 g : GraphState) : Prop :=
  g = set_nodes (set_node_to_index (set_node_ticked g0 (node_ticked g)) (node_to_index g)) (nodes g).

(** Every node registered in the walk is, in layer, below a frame of the stack,
    or not above the node the top frame is about to read, or -- at the end -- not
    above the root. *)
Definition hooked (root : addr) (g0 g : GraphState) (stack : list WiringFrame) : Prop :=
  forall i nd, length (nodes g0) <= i -> nodes g !! i = Some nd ->
    match stack with
    | [] => exists r, node_to_index g !! root = Some r /\ layer nd <= layer_at g r
    | top :: _ =>
        (exists f, f ∈ stack /\ layer nd < fr_layer f) \/
        (exists u act j, fr_upstreams top !! fr_next top = Some (u, act) /\
           node_to_index g !! u = Some j /\ layer nd <= layer_at g j)
    end.

Record winv (root : addr) (g0 g : GraphState) (inp : gset addr) (stack : list WiringFrame) : Prop := {
  wi_only : only_nodes g0 g;
  wi_prefix : exists new, nodes g = nodes g0 ++ new /\
    Forall (fun nd => reaches root (node nd) /\ downstreams nd = []) new;
  wi_map : node_to_index g0 ⊆ node_to_index g;
  wi_index : index_ok g;
  wi_new : forall i nd, length (nodes g0) <= i -> nodes g !! i = Some nd -> node_ok g i nd;
  wi_frames : Forall (frame_ok g) stack;
  wi_nodup : NoDup (map fr_node stack);
  wi_inp : forall a, a ∈ inp <-> a ∈ map fr_node stack;
  wi_chain : chained stack;
  wi_reach : Forall (fun f => reaches root (fr_node f)) stack;
  wi_root : last (map fr_node stack) = Some root \/ (stack = [] /\ registered g root);
  wi_hook : hooked root g0 g stack }.

Definition unseen (g : GraphState) (stack : list WiringFrame) (a : addr) : bool :=
  bool_decide (node_to_index g !! a = None) && bool_decide (a ∉ map fr_node stack).

Definition frame_rounds (f : WiringFrame) : nat :=
  length (fr_upstreams f) - fr_next f + 1.

Definition rounds_left (U : list addr) (g : GraphState) (stack : list WiringFrame) : nat :=
  sum_list_with weight (List.filter (unseen g stack) U) +
  sum_list_with frame_rounds stack + 1.
End definitions.

(** ** Generic facts *)

Lemma required_layer_snoc ls x :
  required_layer (ls ++ [x]) = Nat.max (required_layer ls) (x + 1).
Proof.
  destruct ls as [|y ls]; simpl; [lia|].
  assert (Hf : foldr Nat.max 0 (ls ++ [x]) = Nat.max (foldr Nat.max 0 ls) x).
  { induction ls as [|z ls IH]; simpl; lia. }
  rewrite Hf. lia.
Qed.

Lemma required_layer_gt ls x : x ∈ ls -> x < required_layer ls.
Proof.
  intros Hx. destruct ls as [|y ls]; [by apply not_elem_of_nil in Hx|].
  unfold required_layer. assert (x <= foldr Nat.max 0 (y :: ls)); [|lia].
  revert Hx. generalize (y :: ls). intros l Hx.
  induction l as [|z l IH]; [by apply not_elem_of_nil in Hx|].
  simpl. apply elem_of_cons in Hx as [->|Hx]; [lia|]. specialize (IH Hx). lia.
Qed.


Lemma sum_filter_drop {A} (f : A -> nat) (P Q : A -> bool) (U : list A) a :
  NoDup U -> a ∈ U -> P a = true -> Q a = false -> (forall b, b <> a -> P b = Q b) ->
  sum_list_with f (List.filter P U) = sum_list_with f (List.filter Q U) + f a.
Proof.
  intros Hnd Hin HP HQ Heq. induction Hnd as [|b U Hb Hnd IH]; [by apply not_elem_of_nil in Hin|].
  apply elem_of_cons in Hin as [<-|Hin]; simpl.
  - rewrite HP, HQ. simpl. rewrite (List.filter_ext_in P Q U); [lia|].
    intros c Hc. apply Heq. intros ->. by apply Hb, list_elem_of_In.
  - rewrite (Heq b) by set_solver. destruct (Q b); simpl; rewrite (IH Hin); lia.
Qed.

Lemma sum_filter_lt {A} (f : A -> nat) (Q : A -> bool) (U : list A) a :
  a ∈ U -> Q a = false -> sum_list_with f (List.filter Q U) + f a <= sum_list_with f U.
Proof.
  intros Hin HQ.
  assert (Hle : forall V, sum_list_with f (List.filter Q V) <= sum_list_with f V).
  { intros V. induction V as [|b V IH]; simpl; [lia|]. destruct (Q b); simpl; lia. }
  induction U as [|b U IH]; [by apply not_elem_of_nil in Hin|].
  apply elem_of_cons in Hin as [<-|Hin]; simpl.
  - rewrite HQ. specialize (Hle U). lia.
  - specialize (IH Hin). destruct (Q b); simpl; lia.
Qed.

Section facts.
Context {W : Type} `{NodeOps W}.
Implicit Types g : GraphState.

(** Registration only ever grows the tables. *)
Definition extends (g g' : GraphState) : Prop :=
  (exists new, nodes g' = nodes g ++ new) /\ node_to_index g ⊆ node_to_index g'.

Lemma extends_layer g g' i : extends g g' -> i < length (nodes g) -> layer_at g' i = layer_at g i.
Proof. intros [[new Hn] _] Hi. unfold layer_at. by rewrite Hn, lookup_app_l. Qed.

Lemma resolve_extends g g' l es : extends g g' -> resolve g l es -> resolve g' l es.
Proof.
  intros [_ Hm] Hr. eapply Forall2_impl; [exact Hr|]. intros [a b] e [H1 H2]. split; [|done].
  by eapply lookup_weaken.
Qed.

Lemma resolve_bound g l es :
  index_ok g -> resolve g l es -> Forall (fun e => node_index e < length (nodes g)) es.
Proof.
  intros [_ Hix] Hr. induction Hr as [|p e l es [Hp _] _ IH]; constructor; [|done].
  apply Hix in Hp as (nd & Hnd & _). by eapply lookup_lt_Some.
Qed.

Lemma edges_layer_extends g g' es :
  extends g g' -> Forall (fun e => node_index e < length (nodes g)) es ->
  edges_layer g' es = edges_layer g es.
Proof.
  intros He Hb. unfold edges_layer. f_equal. induction Hb as [|e es Hi _ IH]; simpl; [done|].
  f_equal; [by apply extends_layer|done].
Qed.

Lemma node_ok_extends w g g' i nd :
  index_ok g -> extends g g' -> node_ok w g i nd -> node_ok w g' i nd.
Proof.
  intros Hix He (Hr & Hb & Hl & Ha). split_and!; [by eapply resolve_extends|done| |done].
  rewrite Hl. symmetry. apply edges_layer_extends; [done|]. by eapply resolve_bound.
Qed.

Lemma frame_ok_extends w g g' f :
  index_ok g -> extends g g' -> node_to_index g' !! fr_node f = None ->
  frame_ok w g f -> frame_ok w g' f.
Proof.
  intros Hix He Hn (H1 & H2 & H3 & H4 & H5). split_and!; [done..|by eapply resolve_extends|].
  rewrite H5. symmetry. apply edges_layer_extends; [done|]. by eapply resolve_bound.
Qed.

Lemma index_ok_unregistered g a :
  index_ok g -> node_to_index g !! a = None -> Forall (fun nd => node nd <> a) (nodes g).
Proof.
  intros [_ Hix] Hn. apply Forall_lookup. intros i nd Hnd Heq.
  assert (node_to_index g !! a = Some i) by (apply Hix; eauto). congruence.
Qed.

(** Registering a finished node. *)
Definition register_node (nd : NodeData) (g : GraphState) : GraphState :=
  let g := set_node_to_index (set_node_ticked g (node_ticked g ++ [false]))
    (<[node nd := length (node_ticked g)]> (node_to_index g)) in
  set_nodes g (nodes g ++ [nd]).

Lemma register_extends g nd :
  node_to_index g !! node nd = None -> extends g (register_node nd g).
Proof. intros Hn. split; simpl; [by eexists|by apply insert_subseteq]. Qed.

Lemma register_lookup g nd :
  index_ok g -> node_to_index (register_node nd g) !! node nd = Some (length (nodes g)).
Proof. intros [Hlen _]. simpl. by rewrite lookup_insert_eq, Hlen. Qed.

Lemma register_index_ok g nd :
  index_ok g -> node_to_index g !! node nd = None -> index_ok (register_node nd g).
Proof.
  intros Hix Hn. pose proof (index_ok_unregistered _ _ Hix Hn) as Hfresh.
  destruct Hix as [Hlen Hix]. split.
  { simpl. rewrite !length_app. simpl. lia. }
  intros a i. simpl. rewrite Hlen. destruct (decide (a = node nd)) as [->|Hne].
  - rewrite lookup_insert_eq. split.
    + intros [= <-]. exists nd. by rewrite list_lookup_middle.
    + intros (x & Hx & Heq). f_equal. apply lookup_app_Some in Hx as [Hx|[Hge Hx]].
      * rewrite Forall_lookup in Hfresh. by destruct (Hfresh _ _ Hx).
      * apply list_lookup_singleton_Some in Hx as [? _]. lia.
  - rewrite lookup_insert_ne by done. rewrite Hix. split.
    + intros (x & Hx & <-). exists x. split; [|done]. by apply lookup_app_l_Some.
    + intros (x & Hx & <-). exists x. split; [|done].
      apply lookup_app_Some in Hx as [Hx|[Hge Hx]]; [done|].
      apply list_lookup_singleton_Some in Hx as [_ ->]. done.
Qed.
End facts.

(** ** One round of the walk keeps the invariant *)

Section steps.
Context {W : Type} `{NodeOps W}.
Context (w : W) (root : addr) (g0 : GraphState).
Implicit Types (g : GraphState) (f : WiringFrame) (stack below : list WiringFrame).

Definition advance f (nd : NodeData) (idx : nat) (act : bool) : WiringFrame :=
  mkFrame (fr_node f) (fr_upstreams f) (S (fr_next f))
    (Nat.max (fr_layer f) (layer nd + 1)) (fr_edges f ++ [mkEdge idx act]).

Lemma edges_layer_snoc g es e :
  edges_layer g (es ++ [e]) = Nat.max (edges_layer g es) (layer_at g (node_index e) + 1).
Proof. unfold edges_layer. rewrite map_app. apply required_layer_snoc. Qed.

Lemma advance_ok g f up act idx nd :
  frame_ok w g f -> fr_upstreams f !! fr_next f = Some (up, act) ->
  node_to_index g !! up = Some idx -> nodes g !! idx = Some nd ->
  frame_ok w g (advance f nd idx act).
Proof.
  intros (H1 & H2 & H3 & H4 & H5) Hup Hidx Hnd. split_and!; simpl; [done..| | |].
  - by apply lookup_lt_Some in Hup.
  - rewrite (take_S_r _ _ _ Hup). apply Forall2_app; [done|]. by repeat constructor.
  - rewrite edges_layer_snoc, <-H5. unfold layer_at at 1. simpl. by rewrite Hnd.
Qed.

Lemma winv_advance g inp f below up act idx nd :
  winv w root g0 g inp (f :: below) -> fr_upstreams f !! fr_next f = Some (up, act) ->
  node_to_index g !! up = Some idx -> nodes g !! idx = Some nd ->
  winv w root g0 g inp (advance f nd idx act :: below).
Proof.
  intros [Ho Hp Hm Hix Hn Hf Hnd Hi Hc Hr Hroot Hh] Hup Hidx Hx.
  apply Forall_cons in Hf as [Hf Hfs].
  split; try done.
  - constructor; [by eapply advance_ok|done].
  - by apply Forall_cons in Hr as [? ?]; constructor.
  - left. destruct Hroot as [?|[? _]]; done.
  - intros i ndi Hge Hi'. left. destruct (Hh i ndi Hge Hi') as [(f' & Hin & Hl)|(u & a & j & Hu & Hj & Hl)].
    + apply elem_of_cons in Hin as [->|Hin]; [|exists f'; split; [by right|done]].
      eexists. split; [by left|]. simpl. lia.
    + rewrite Hup in Hu. injection Hu as <- <-. rewrite Hidx in Hj. injection Hj as <-.
      unfold layer_at in Hl. rewrite Hx in Hl. eexists. split; [by left|]. simpl in *. lia.
Qed.

Lemma new_frame_ok g up :
  node_to_index g !! up = None -> frame_ok w g (WiringFrame_new (op_upstreams w up) up).
Proof. intros Hn. split_and!; simpl; [done..|lia|constructor|done]. Qed.

Lemma winv_descend g inp f below up act :
  winv w root g0 g inp (f :: below) -> fr_upstreams f !! fr_next f = Some (up, act) ->
  node_to_index g !! up = None -> up ∉ inp ->
  winv w root g0 g ({[up]} ∪ inp) (WiringFrame_new (op_upstreams w up) up :: f :: below).
Proof.
  intros [Ho Hp Hm Hix Hn Hf Hnd Hi Hc Hr Hroot Hh] Hup Hidx Hni.
  pose proof (Forall_inv Hf) as [Hfu _]. pose proof (Forall_inv Hr) as Hrf.
  split; try done.
  - constructor; [by apply new_frame_ok|done].
  - simpl. constructor; [|done]. by rewrite <-Hi.
  - intros a. simpl. rewrite elem_of_union, elem_of_singleton, elem_of_cons. by rewrite Hi.
  - simpl. split; [by exists act|done].
  - constructor; [|done]. simpl. eapply rtc_r; [exact Hrf|]. unfold child.
    rewrite <-Hfu. apply list_elem_of_fmap. exists (up, act). split; [done|].
    by eapply list_elem_of_lookup_2.
  - left. destruct Hroot as [Hroot|[? _]]; [|done]. simpl in *. done.
  - intros i nd Hge Hi'. left. destruct (Hh i nd Hge Hi') as [(f' & Hin & Hl)|(u & a & j & Hu & Hj & Hl)].
    + exists f'. split; [by right|done].
    + congruence.
Qed.

Definition finished f : NodeData := mkNodeData (fr_node f) (fr_edges f) [] (fr_layer f) true.

Lemma finished_ok g f :
  index_ok g -> frame_ok w g f -> fr_upstreams f !! fr_next f = None ->
  node_ok w (register_node (finished f) g) (length (nodes g)) (finished f).
Proof.
  intros Hix (H1 & H2 & H3 & H4 & H5) Hend. apply lookup_ge_None in Hend.
  rewrite take_ge in H4 by done. rewrite H1 in H4.
  assert (He : extends g (register_node (finished f) g)) by by apply register_extends.
  split_and!; simpl; [by eapply resolve_extends|by eapply resolve_bound| |done].
  rewrite H5. symmetry. apply edges_layer_extends; [done|]. by eapply resolve_bound.
Qed.

Lemma winv_finish g inp f below :
  winv w root g0 g inp (f :: below) -> fr_upstreams f !! fr_next f = None ->
  winv w root g0 (register_node (finished f) g) (inp ∖ {[fr_node f]}) below.
Proof.
  intros [Ho Hp Hm Hix Hn Hf Hnd Hi Hc Hr Hroot Hh] Hend.
  apply Forall_cons in Hf as [Hf Hfs]. apply Forall_cons in Hr as [Hrf Hr].
  pose proof Hf as (_ & Hunreg & _). simpl in Hnd. apply NoDup_cons in Hnd as [Hfresh Hnd].
  assert (He : extends g (register_node (finished f) g)) by by apply register_extends.
  split.
  - rewrite Ho. done.
  - destruct Hp as (new & Hnew & Hall). exists (new ++ [finished f]). split.
    + simpl. by rewrite Hnew, <-app_assoc.
    + apply Forall_app. split; [done|]. by repeat constructor.
  - etransitivity; [done|apply He].
  - by apply register_index_ok.
  - intros i nd Hge Hi'. simpl in Hi'. apply lookup_app_Some in Hi' as [Hi'|[Hge' Hi']].
    + eapply node_ok_extends; eauto.
    + apply list_lookup_singleton_Some in Hi' as [Hz <-].
      replace i with (length (nodes g)) by lia. by apply finished_ok.
  - rewrite Forall_forall in *. intros f' Hf'. eapply frame_ok_extends; eauto.
    simpl. rewrite lookup_insert_ne; [by apply Hfs|].
    intros Heq. apply Hfresh. rewrite Heq. by apply list_elem_of_fmap_2.
  - done.
  - intros a. rewrite elem_of_difference, Hi. simpl. rewrite elem_of_cons, elem_of_singleton.
    split; [naive_solver|]. intros Ha. split; [by right|]. by intros ->.
  - destruct below; [done|]. by destruct Hc.
  - done.
  - destruct below as [|f' below].
    + right. split; [done|]. destruct Hroot as [Hroot|[? _]]; [|done]. simpl in Hroot.
      injection Hroot as <-. eexists. by apply (register_lookup g (finished f)).
    + left. destruct Hroot as [Hroot|[? _]]; [|done]. done.
  - intros i nd Hge Hi'.
    assert (Hl : layer nd <= fr_layer f \/ exists f', f' ∈ below /\ layer nd < fr_layer f').
    { simpl in Hi'. apply lookup_app_Some in Hi' as [Hi'|[_ Hi']].
      - destruct (Hh i nd Hge Hi') as [(f' & Hin & Hl)|(u & a & j & Hu & _)]; [|congruence].
        apply elem_of_cons in Hin as [->|Hin]; [left; lia|by right; exists f'].
      - apply list_lookup_singleton_Some in Hi' as [_ <-]. by left. }
    assert (Hreg : node_to_index (register_node (finished f) g) !! fr_node f = Some (length (nodes g)))
      by by apply (register_lookup g (finished f)).
    assert (Hlay : layer_at (register_node (finished f) g) (length (nodes g)) = fr_layer f).
    { unfold layer_at. simpl. by rewrite lookup_app_r, Nat.sub_diag by lia. }
    destruct below as [|f' below].
    + destruct Hroot as [Hroot|[? _]]; [|done]. simpl in Hroot. injection Hroot as <-.
      eexists. split; [exact Hreg|]. rewrite Hlay. destruct Hl as [?|(f' & ?%not_elem_of_nil & _)]; done.
    + destruct Hl as [Hl|Hl]; [right|by left]. destruct Hc as [[act Hact] _].
      eexists _, _, _. split; [exact Hact|]. split; [exact Hreg|]. by rewrite Hlay.
Qed.

(** A node in progress is (transitively) waiting for the node on top. *)
Lemma chained_reaches g f below f' :
  chained (f :: below) -> Forall (frame_ok w g) (f :: below) -> f' ∈ f :: below ->
  rtc (child w) (fr_node f') (fr_node f).
Proof.
  revert f. induction below as [|b below IH]; intros f Hc Hf Hin.
  - apply list_elem_of_singleton in Hin as ->. done.
  - apply elem_of_cons in Hin as [->|Hin]; [done|].
    destruct Hc as [[act Hup] Hc]. apply Forall_cons in Hf as [_ Hf].
    eapply rtc_r; [by apply IH|]. apply Forall_cons in Hf as [(Hu & _) _].
    unfold child. rewrite <-Hu. apply list_elem_of_fmap. exists (fr_node f, act).
    split; [done|]. by eapply list_elem_of_lookup_2.
Qed.

Lemma winv_cycle g inp f below up act :
  winv w root g0 g inp (f :: below) -> fr_upstreams f !! fr_next f = Some (up, act) ->
  up ∈ inp -> cycle_from w root.
Proof.
  intros Hinv Hup Hin. destruct Hinv as [_ _ _ _ _ Hf _ Hi Hc Hr _ _].
  apply Hi, list_elem_of_fmap in Hin as (f' & -> & Hin).
  exists (fr_node f'). split.
  - rewrite Forall_forall in Hr. by apply Hr.
  - eapply tc_rtc_l; [by eapply chained_reaches|]. apply tc_once.
    apply Forall_cons in Hf as [(Hu & _) _]. unfold child. rewrite <-Hu.
    apply list_elem_of_fmap. exists (fr_node f', act). split; [done|].
    by eapply list_elem_of_lookup_2.
Qed.

(** ** The measure *)

Lemma rounds_advance U g f below up act idx nd :
  fr_upstreams f !! fr_next f = Some (up, act) ->
  rounds_left w U g (f :: below) = S (rounds_left w U g (advance f nd idx act :: below)).
Proof.
  intros Hup%lookup_lt_Some. unfold rounds_left, unseen, frame_rounds. simpl. lia.
Qed.

Lemma unseen_true g stack a :
  unseen g stack a = true <-> node_to_index g !! a = None /\ a ∉ map fr_node stack.
Proof. unfold unseen. by rewrite andb_true_iff, !bool_decide_eq_true. Qed.

Lemma rounds_descend U g f below up :
  NoDup U -> up ∈ U -> node_to_index g !! up = None -> up ∉ map fr_node (f :: below) ->
  rounds_left w U g (f :: below) =
    S (rounds_left w U g (WiringFrame_new (op_upstreams w up) up :: f :: below)).
Proof.
  intros HU Hin Hn Hni. unfold rounds_left.
  rewrite (sum_filter_drop (weight w) (unseen g (f :: below))
    (unseen g (WiringFrame_new (op_upstreams w up) up :: f :: below)) U up HU Hin).
  - unfold weight, ups, frame_rounds. simpl. lia.
  - by apply unseen_true.
  - apply not_true_iff_false. rewrite unseen_true. simpl. set_solver.
  - intros b Hb. apply eq_iff_eq_true. rewrite !unseen_true. simpl.
    rewrite !elem_of_cons. naive_solver.
Qed.

Lemma rounds_finish U g f below :
  fr_upstreams f !! fr_next f = None -> fr_next f <= length (fr_upstreams f) ->
  rounds_left w U g (f :: below) = S (rounds_left w U (register_node (finished f) g) below).
Proof.
  intros Hend%lookup_ge_None Hle. unfold rounds_left.
  rewrite (List.filter_ext (unseen g (f :: below)) (unseen (register_node (finished f) g) below)).
  - simpl. unfold frame_rounds at 1. lia.
  - intros a. apply eq_iff_eq_true. rewrite !unseen_true. simpl.
    rewrite lookup_insert_None, elem_of_cons. naive_solver.
Qed.
End steps.

(** ** The walk as a whole *)

Section loop.
Context {W : Type} `{NodeOps W}.
Implicit Types (s : Sys W) (g : GraphState).

Lemma reaches_closed w U root a : closed w U -> root ∈ U -> reaches w root a -> a ∈ U.
Proof. intros HU Hin Hr. induction Hr as [|x y z Hxy _ IH]; [done|]. apply IH. by eapply HU. Qed.

Lemma winv_mark w root g0 g stack : winv w root g0 g ∅ stack -> stack = [].
Proof.
  intros [_ _ _ _ _ _ _ Hi _ _ _ _]. destruct stack as [|f stack]; [done|].
  specialize (Hi (fr_node f)). set_solver.
Qed.

(** The equations of one round. *)
Lemma loop_advance fuel inp f below s up act idx nd :
  fr_upstreams f !! fr_next f = Some (up, act) -> node_to_index (state s) !! up = Some idx ->
  nodes (state s) !! idx = Some nd ->
  Graph.wiring_loop (S fuel) inp (f :: below) s =
  Graph.wiring_loop fuel inp (advance f nd idx act :: below) s.
Proof.
  intros Hup Hidx Hnd. simpl. rewrite Hup. unfold mbind, get_state, at_index.
  rewrite Hidx, Hnd. done.
Qed.

Lemma loop_cycle fuel inp f below s up act :
  fr_upstreams f !! fr_next f = Some (up, act) -> node_to_index (state s) !! up = None ->
  up ∈ inp -> Graph.wiring_loop (S fuel) inp (f :: below) s = (Err cycle_error, s).
Proof.
  intros Hup Hidx Hin. simpl. rewrite Hup. unfold mbind, get_state.
  by rewrite Hidx, bool_decide_true.
Qed.

Lemma loop_descend fuel inp f below s up act :
  fr_upstreams f !! fr_next f = Some (up, act) -> node_to_index (state s) !! up = None ->
  up ∉ inp -> Graph.wiring_loop (S fuel) inp (f :: below) s =
  Graph.wiring_loop fuel ({[up]} ∪ inp)
    (WiringFrame_new (op_upstreams (world s) up) up :: f :: below) s.
Proof.
  intros Hup Hidx Hin. simpl. rewrite Hup. unfold mbind, get_state, mget.
  by rewrite Hidx, bool_decide_false.
Qed.

Lemma loop_finish fuel inp f below s :
  fr_upstreams f !! fr_next f = None ->
  Graph.wiring_loop (S fuel) inp (f :: below) s =
  Graph.wiring_loop fuel (inp ∖ {[fr_node f]}) below
    (set_state (register_node (finished f) (state s)) s).
Proof. intros Hup. simpl. by rewrite Hup. Qed.

Lemma wiring_loop_spec U root g0 fuel inp stack s :
  NoDup U -> closed (world s) U -> root ∈ U ->
  winv (world s) root g0 (state s) inp stack ->
  rounds_left (world s) U (state s) stack <= fuel ->
  (exists g, Graph.wiring_loop fuel inp stack s = (Ok tt, set_state g s) /\
     winv (world s) root g0 g ∅ []) \/
  (exists g, Graph.wiring_loop fuel inp stack s = (Err cycle_error, set_state g s) /\
     only_nodes g0 g /\ cycle_from (world s) root).
Proof.
  intros HU Hcl Hroot. revert inp stack s Hcl.
  induction fuel as [|fuel IH]; intros inp stack s Hcl Hinv Hfuel.
  { unfold rounds_left in Hfuel. lia. }
  destruct stack as [|f below].
  { left. exists (state s). destruct s. simpl in *. split; [done|].
    destruct Hinv. split; try done. intros a. split; [set_solver|]. by intros ?%not_elem_of_nil. }
  pose proof Hinv as [_ _ _ Hix _ Hf _ Hi _ Hr _ _].
  apply Forall_cons in Hf as [Hf _]. apply Forall_cons in Hr as [Hr _].
  destruct (fr_upstreams f !! fr_next f) as [[up act]|] eqn:Hup.
  - destruct (node_to_index (state s) !! up) as [idx|] eqn:Hidx.
    + pose proof (proj1 (proj2 Hix _ _) Hidx) as (nd & Hnd & _).
      rewrite (loop_advance _ _ _ _ _ _ _ _ _ Hup Hidx Hnd).
      apply IH; [done|by eapply winv_advance|].
      rewrite (rounds_advance _ U _ f below up act idx nd Hup) in Hfuel. lia.
    + destruct (decide (up ∈ inp)) as [Hin|Hni].
      * right. exists (state s). rewrite (loop_cycle _ _ _ _ _ _ _ Hup Hidx Hin).
        split; [by destruct s|]. split; [by destruct Hinv|by eapply winv_cycle].
      * rewrite (loop_descend _ _ _ _ _ _ _ Hup Hidx Hni).
        apply IH; [done|by eapply winv_descend|].
        rewrite (rounds_descend _ U _ f below up) in Hfuel; [lia|done| |done|by rewrite <-Hi].
        eapply reaches_closed; [done..|]. eapply rtc_r; [exact Hr|].
        destruct Hf as (Hfu & _). unfold child. rewrite <-Hfu.
        apply list_elem_of_fmap. exists (up, act). split; [done|]. by eapply list_elem_of_lookup_2.
  - pose proof (winv_finish _ _ _ _ _ _ _ Hinv Hup) as Hinv'. destruct Hf as (_ & _ & Hle & _).
    rewrite (loop_finish _ _ _ _ _ Hup). rewrite (rounds_finish _ U _ f below Hup Hle) in Hfuel.
    apply (IH _ _ (set_state _ s) Hcl Hinv'). simpl. lia.
Qed.

Lemma winv_start w root g :
  index_ok g -> node_to_index g !! root = None ->
  winv w root g g {[root]} [WiringFrame_new (op_upstreams w root) root].
Proof.
  intros Hix Hn. split.
  - by destruct g.
  - exists []. by rewrite app_nil_r.
  - done.
  - done.
  - intros i nd Hge Hi. apply lookup_lt_Some in Hi. lia.
  - constructor; [by apply new_frame_ok|done].
  - simpl. apply NoDup_singleton.
  - simpl. intros a. by rewrite elem_of_singleton, list_elem_of_singleton.
  - done.
  - constructor; [done|constructor].
  - by left.
  - intros i nd Hge Hi%lookup_lt_Some. lia.
Qed.

Lemma rounds_start w U g root :
  root ∈ U ->
  rounds_left w U g [WiringFrame_new (op_upstreams w root) root] <= wiring_fuel w U.
Proof.
  intros Hin. unfold rounds_left, wiring_fuel.
  pose proof (sum_filter_lt (weight w)
    (unseen g [WiringFrame_new (op_upstreams w root) root]) U root Hin) as Hlt.
  assert (unseen g [WiringFrame_new (op_upstreams w root) root] root = false).
  { apply not_true_iff_false. rewrite unseen_true. simpl. set_solver. }
  specialize (Hlt ltac:(done)). unfold weight, ups, frame_rounds in *. simpl in *. lia.
Qed.

Lemma initialise_node_unseen fuel root s :
  node_to_index (state s) !! root = None ->
  Graph.initialise_node fuel root s =
  mbind (Graph.wiring_loop fuel {[root]} [WiringFrame_new (op_upstreams (world s) root) root])
    (fun _ => Graph.registered_index root) s.
Proof.
  intros Hr. unfold Graph.initialise_node, GraphState.seen. unfold mbind at 1, get_state.
  by rewrite Hr.
Qed.

(** [initialise_node] on a node that is not wired yet, in any state with
    consistent tables: it registers it and what is not wired yet above it, or
    reports a cycle. *)
Lemma initialise_node_spec U root fuel s :
  NoDup U -> closed (world s) U -> root ∈ U -> index_ok (state s) ->
  wiring_fuel (world s) U <= fuel ->
  (exists g i, Graph.initialise_node fuel root s = (Ok i, set_state g s) /\
     node_to_index g !! root = Some i /\
     (winv (world s) root (state s) g ∅ [] \/ g = state s)) \/
  (exists g, Graph.initialise_node fuel root s = (Err cycle_error, set_state g s) /\
     node_to_index (state s) !! root = None /\
     only_nodes (state s) g /\ cycle_from (world s) root).
Proof.
  intros HU Hcl Hin Hix Hfuel.
  destruct (node_to_index (state s) !! root) as [i|] eqn:Hr.
  - left. exists (state s), i. split; [|by auto].
    unfold Graph.initialise_node, GraphState.seen, Graph.registered_index, mbind, get_state.
    rewrite Hr. unfold mlift. rewrite Hr. by destruct s.
  - rewrite (initialise_node_unseen _ _ _ Hr). destruct (wiring_loop_spec U root (state s) fuel {[root]}
      [WiringFrame_new (op_upstreams (world s) root) root] s HU Hcl Hin)
      as [(g & He & Hinv)|(g & He & Hx)].
    + by apply winv_start.
    + etransitivity; [by apply rounds_start|done].
    + left. pose proof Hinv as [_ _ _ _ _ _ _ _ _ _ [?|[_ [i Hi]]] _]; [done|].
      exists g, i. unfold mbind. rewrite He. unfold Graph.registered_index, mbind, get_state.
      simpl. rewrite Hi. auto.
    + right. exists g. unfold mbind. rewrite He. auto.
Qed.

(** ** Consequences in a state where everything is wired statically *)

Lemma wired_index w g : wired w g -> index_ok g.
Proof. by intros [? _]. Qed.

Lemma wired_lookup w g a i :
  wired w g -> node_to_index g !! a = Some i ->
  exists nd, nodes g !! i = Some nd /\ node nd = a /\ node_ok w g i nd.
Proof.
  intros [[_ Hix] Hok] Ha. apply Hix in Ha as (nd & Hnd & <-). eauto.
Qed.

(** Upstreams of a registered node are registered, below it. *)
Lemma wired_child w g a b i :
  wired w g -> node_to_index g !! a = Some i -> child w a b ->
  exists j, node_to_index g !! b = Some j /\ j < i.
Proof.
  intros Hw Ha Hc. destruct (wired_lookup _ _ _ _ Hw Ha) as (nd & Hnd & <- & Hr & Hb & _).
  unfold child in Hc. apply list_elem_of_fmap in Hc as (p & -> & Hp).
  apply list_elem_of_lookup in Hp as [k Hk].
  destruct (Forall2_lookup_l _ _ _ _ _ Hr Hk) as (e & He & Hj & _).
  exists (node_index e). split; [done|]. rewrite Forall_lookup in Hb. eauto.
Qed.

Lemma wired_tc w g a b i :
  wired w g -> node_to_index g !! a = Some i -> tc (child w) a b ->
  exists j, node_to_index g !! b = Some j /\ j < i.
Proof.
  intros Hw Ha Ht. revert i Ha. induction Ht as [a b Hc|a b c Hc _ IH]; intros i Ha.
  - by eapply wired_child.
  - destruct (wired_child _ _ _ _ _ Hw Ha Hc) as (j & Hj & Hlt).
    destruct (IH j Hj) as (k & Hk & Hlt'). exists k. split; [done|lia].
Qed.

Lemma wired_reaches w g a b : wired w g -> registered g a -> reaches w a b -> registered g b.
Proof.
  intros Hw [i Ha] [->|Ht]%rtc_tc; [by exists i|].
  destruct (wired_tc _ _ _ _ _ Hw Ha Ht) as (j & ? & _). by exists j.
Qed.

Lemma wired_acyclic w g a : wired w g -> registered g a -> ~ cycle_from w a.
Proof.
  intros Hw Ha (b & Hr & Ht). destruct (wired_reaches _ _ _ _ Hw Ha Hr) as [i Hi].
  destruct (wired_tc _ _ _ _ _ Hw Hi Ht) as (j & Hj & Hlt). simplify_eq. lia.
Qed.

Lemma winv_wired w root g0 g : wired w g0 -> winv w root g0 g ∅ [] -> wired w g.
Proof.
  intros [Hix0 Hok] [_ (new & Hnew & _) Hm Hix Hn _ _ _ _ _ _ _]. split; [done|].
  intros i nd Hnd. destruct (decide (length (nodes g0) <= i)) as [Hge|Hlt]; [by apply Hn|].
  rewrite Hnew, lookup_app_l in Hnd by lia.
  eapply node_ok_extends; [exact Hix0| |by apply Hok]. split; [by exists new|done].
Qed.

Lemma winv_registered w root g0 g a :
  index_ok g0 -> winv w root g0 g ∅ [] -> registered g a -> registered g0 a \/ reaches w root a.
Proof.
  intros Hix0 [_ (new & Hnew & Hall) Hm [_ Hix] _ _ _ _ _ _ _ _] [i Ha].
  apply Hix in Ha as (nd & Hnd & <-). rewrite Hnew in Hnd.
  apply lookup_app_Some in Hnd as [Hnd|[_ Hnd]].
  - left. exists i. apply Hix0. eauto.
  - right. rewrite Forall_lookup in Hall. by apply Hall in Hnd as [? _].
Qed.
End loop.

(** ** Properties *)

(** [initialise_node] always ends. From a root above which there is no
    cycle of upstreams it returns the root's index and registers exactly the
    nodes reachable from the root (besides those already there), each after all
    its upstreams and one layer above the highest of them; if there is a cycle
    it returns the cycle error instead, whatever the shape of the rest. *)
Theorem initialise_node_correct {W} `{NodeOps W} (U : list addr) root fuel (s : Sys W) :
  NoDup U -> closed (world s) U -> root ∈ U -> wired (world s) (state s) ->
  wiring_fuel (world s) U <= fuel ->
  (~ cycle_from (world s) root /\
   exists g i, Graph.initialise_node fuel root s = (Ok i, set_state g s) /\
     node_to_index g !! root = Some i /\ wired (world s) g /\
     (forall a, registered g a <-> registered (state s) a \/ reaches (world s) root a)) \/
  (cycle_from (world s) root /\
   exists g, Graph.initialise_node fuel root s = (Err cycle_error, set_state g s)).
Proof.
  intros HU Hcl Hin Hw Hfuel. pose proof (wired_index _ _ Hw) as Hix.
  destruct (initialise_node_spec U root fuel s HU Hcl Hin Hix Hfuel)
    as [(g & i & He & Hi & Hg)|(g & He & _ & _ & Hcyc)]; [left|right; by eauto].
  assert (Hwg : wired (world s) g) by (destruct Hg as [Hg| ->]; [by eapply winv_wired|done]).
  assert (Hreg : registered g root) by by exists i.
  split; [by eapply wired_acyclic|]. exists g, i. split_and!; [done..|].
  intros a. split.
  - destruct Hg as [Hg| ->]; [|by left]. by apply winv_registered.
  - intros [[j Ha]|Hr]; [|by eapply wired_reaches]. destruct Hg as [[]| ->]; [|by exists j].
    exists j. by eapply lookup_weaken.
Qed.

(** A diamond: 4 above 2 (active) and 3 (passive), both above 1. *)
Definition diamond : Scripts :=
  mkScripts {[ 1%positive := mkScript UpStreams_none true (Some 10%Z) false None None;
               2%positive := mkScript (mkUpStreams [1%positive] []) true None false None None;
               3%positive := mkScript (mkUpStreams [1%positive] []) true None false None None;
               4%positive := mkScript (mkUpStreams [2%positive] [3%positive]) true None false None None ]} [].

Definition diamond_sys : Sys Scripts :=
  mkSys diamond (GraphState.new (HistoricalFrom 0) Forever 0) env_quiet.

Lemma closed_by_computation {W} `{NodeOps W} (w : W) U :
  forallb (fun a => forallb (fun p => bool_decide (p.1 ∈ U)) (ups w a)) U = true -> closed w U.
Proof.
  intros Hall a b Ha (p & -> & Hp)%list_elem_of_fmap.
  rewrite forallb_forall in Hall. apply list_elem_of_In, Hall in Ha.
  rewrite forallb_forall in Ha. by apply list_elem_of_In, Ha, bool_decide_eq_true in Hp.
Qed.

Lemma wired_new {W} `{NodeOps W} (w : W) mode rf t : wired w (GraphState.new mode rf t).
Proof.
  split; [|by intros i nd]. split; [done|]. intros a i. split; [by intros ?|].
  intros (nd & Hnd & _). done.
Qed.

Lemma initialise_node_correct_witness :
  exists g i, Graph.initialise_node 40 4%positive diamond_sys = (Ok i, set_state g diamond_sys) /\
    node_to_index g !! 4%positive = Some i /\ wired diamond g /\
    (forall a, registered g a <-> registered (state diamond_sys) a \/ reaches diamond 4%positive a).
Proof.
  destruct (initialise_node_correct [1; 2; 3; 4]%positive 4%positive 40 diamond_sys)
    as [[_ Hok]|[_ (g & He)]].
  - apply (bool_decide_unpack _). vm_compute. exact I.
  - by apply closed_by_computation.
  - set_solver.
  - apply wired_new.
  - vm_compute. lia.
  - exact Hok.
  - vm_compute in He. discriminate.
Defined.
