(* ===== verification/GraphWf.v ===== *)
(** * Invariants of the engine's state

    [graph_wf]: the tables are consistent, every edge of an active node leads
    from a lower layer to a higher one and is listed at both its ends, and every queued index is in range. [dirty_ok]: the rows of
    [dirty_nodes_by_layer] and the flags of [node_dirty] agree. The methods a
    node can call ([api_step]) keep both. *)
From S2P Require Import Prelude NanoTime TimeQueue GraphState Graph WiringFacts.

(** ** Definitions *)

Definition downstreams_at (g : GraphState) (i : nat) : list Edge :=
  from_option downstreams [] (nodes g !! i).

Definition upstreams_at (g : GraphState) (i : nat) : list Edge :=
  from_option upstreams [] (nodes g !! i).

Record graph_wf (g : GraphState) : Prop := {
  gw_index : index_ok g;
  gw_dirty_len : length (node_dirty g) = length (nodes g);
  gw_up i nd e : nodes g !! i = Some nd -> e ∈ upstreams nd -> node_index e < length (nodes g);
  gw_down i nd e : nodes g !! i = Some nd -> e ∈ downstreams nd -> node_index e < length (nodes g);
  gw_down_layer i nd e : nodes g !! i = Some nd -> active nd = true -> e ∈ downstreams nd ->
    layer nd < layer_at g (node_index e);
  gw_back i nd e : nodes g !! i = Some nd -> active nd = true -> e ∈ downstreams nd ->
    mkEdge i (edge_active e) ∈ upstreams_at g (node_index e);
  gw_layer i nd e : nodes g !! i = Some nd -> active nd = true -> e ∈ upstreams nd ->
    layer_at g (node_index e) < layer nd;
  gw_sym i nd e : nodes g !! i = Some nd -> active nd = true -> e ∈ upstreams nd ->
    mkEdge i (edge_active e) ∈ downstreams_at g (node_index e);
  gw_rows i nd : nodes g !! i = Some nd -> layer nd < length (dirty_nodes_by_layer g);
  gw_always : Forall (fun i => i < length (nodes g)) (always_callbacks g);
  gw_sched : Forall (fun e => e_value e < length (nodes g)) (heap (scheduled_callbacks g));
  gw_pending : Forall (fun a => pa_caller_index a < length (nodes g)) (pending_additions g) }.

Definition dirty (g : GraphState) (i : nat) : Prop := node_dirty g !! i = Some true.
Definition row_at (g : GraphState) (l : nat) : list nat := default [] (dirty_nodes_by_layer g !! l).

Record dirty_ok (g : GraphState) : Prop := {
  do_row i : dirty g i <-> i ∈ row_at g (layer_at g i);
  do_layer l i : i ∈ row_at g l -> layer_at g i = l /\ i < length (nodes g);
  do_nodup l : NoDup (row_at g l) }.

(** The state between two cycles. *)
Definition clean (g : GraphState) : Prop :=
  Forall (fun row => row = []) (dirty_nodes_by_layer g) /\
  Forall (fun b => b = false) (node_dirty g) /\
  Forall (fun b => b = false) (node_ticked g).

(** What the calls of a node, and the dispatch of a cycle, leave alone. *)
Record frame (g g' : GraphState) : Prop := {
  fm_time : time g' = time g;
  fm_wall : wall_time g' = wall_time g;
  fm_first : first_cycle g' = first_cycle g;
  fm_last : is_last_cycle g' = is_last_cycle g;
  fm_index : node_to_index g' = node_to_index g;
  fm_mode : run_mode g' = run_mode g;
  fm_for : run_for g' = run_for g;
  fm_ready : ready_callbacks g' = ready_callbacks g;
  fm_start : start_time g' = start_time g;
  fm_nodes : nodes g' = nodes g;
  fm_error : wiring_error g' = wiring_error g;
  fm_ticked_len : length (node_ticked g') = length (node_ticked g);
  fm_dirty_len : length (node_dirty g') = length (node_dirty g);
  fm_rows_len : length (dirty_nodes_by_layer g') = length (dirty_nodes_by_layer g) }.

(** Dirty marks are only added, and rows only above layer [l] change. *)
Record grows (l : nat) (g g' : GraphState) : Prop := {
  gr_flags i : dirty g i -> dirty g' i;
  gr_rows k : k <= l -> row_at g' k = row_at g k }.

#[export] Instance frame_preorder : PreOrder frame.
Proof.
  split.
  - intros g. by split.
  - intros g1 g2 g3 [] []. split; congruence.
Qed.

#[export] Instance grows_preorder l : PreOrder (grows l).
Proof.
  split.
  - intros g. by split.
  - intros g1 g2 g3 [F1 R1] [F2 R2]. split; [by auto|].
    intros k Hk. by rewrite R2, R1.
Qed.

(** ** Transport of [graph_wf] *)

(** [graph_wf] depends only on the node tables, the row count and the queues. *)
Lemma graph_wf_frame g g' :
  frame g g' -> graph_wf g ->
  Forall (fun i => i < length (nodes g)) (always_callbacks g') ->
  Forall (fun e => e_value e < length (nodes g)) (heap (scheduled_callbacks g')) ->
  Forall (fun a => pa_caller_index a < length (nodes g)) (pending_additions g') ->
  graph_wf g'.
Proof.
  intros Hf [Hix Hdl Hu Hd Hdy Hbk Hl Hs Hr _ _ _] Ha Hq Hp. destruct Hf as [? ? ? ? Hi ? ? ? ? Hn ? Htl Hfl Hrl].
  assert (Hlay : forall i, layer_at g' i = layer_at g i) by (intros i; unfold layer_at; by rewrite Hn).
  assert (Hdn : forall i, downstreams_at g' i = downstreams_at g i)
    by (intros i; unfold downstreams_at; by rewrite Hn).
  split; rewrite ?Hn, ?Hrl; try done.
  - destruct Hix as [Hlen Hx]. split; [congruence|]. intros a i. by rewrite Hi, Hn.
  - congruence.
  - intros i nd e Hnd Hac He. rewrite Hlay. by eapply Hdy.
  - intros i nd e Hnd Hac He. unfold upstreams_at. rewrite Hn. by eapply Hbk.
  - intros i nd e Hnd Hac He. rewrite Hlay. by eapply Hl.
  - intros i nd e Hnd Hac He. rewrite Hdn. by eapply Hs.
Qed.

Lemma graph_wf_same g g' :
  frame g g' -> graph_wf g -> always_callbacks g' = always_callbacks g ->
  scheduled_callbacks g' = scheduled_callbacks g ->
  pending_additions g' = pending_additions g -> graph_wf g'.
Proof.
  intros Hf Hw Ha Hs Hp. apply (graph_wf_frame g); [done|done|..].
  - rewrite Ha. apply Hw.
  - rewrite Hs. apply Hw.
  - rewrite Hp. apply Hw.
Qed.

(** ** Marking a node dirty *)

Lemma layer_at_lt g i : graph_wf g -> i < length (nodes g) ->
  layer_at g i < length (dirty_nodes_by_layer g).
Proof.
  intros Hw Hi. destruct (lookup_lt_is_Some_2 _ _ Hi) as [nd Hnd].
  unfold layer_at. rewrite Hnd. simpl. by eapply gw_rows.
Qed.

Lemma row_at_insert rows l l' (row : list nat) :
  l < length rows ->
  default [] (<[l := row]> rows !! l') = if decide (l = l') then row else default [] (rows !! l').
Proof.
  intros Hl. case_decide as Hd; [subst l'; by rewrite list_lookup_insert_eq|].
  by rewrite list_lookup_insert_ne.
Qed.

(** The state [mark_dirty] leaves when the node was not dirty. *)
Definition marked (j : nat) (g : GraphState) : GraphState :=
  set_node_dirty
    (set_dirty_rows g (<[layer_at g j := row_at g (layer_at g j) ++ [j]]> (dirty_nodes_by_layer g)))
    (<[j := true]> (node_dirty g)).

Lemma mark_dirty_run g j :
  graph_wf g -> j < length (nodes g) ->
  GraphState.mark_dirty j g = (Ok tt, g) /\ dirty g j \/
  GraphState.mark_dirty j g = (Ok tt, marked j g) /\ node_dirty g !! j = Some false.
Proof.
  intros Hw Hj. unfold GraphState.mark_dirty, dirty.
  destruct (lookup_lt_is_Some_2 (node_dirty g) j) as [b Hb]; [by rewrite (gw_dirty_len g Hw)|].
  rewrite Hb. destruct b; [by left|right]. split; [|done].
  destruct (lookup_lt_is_Some_2 _ _ Hj) as [nd Hnd]. rewrite Hnd.
  pose proof (gw_rows _ Hw _ _ Hnd) as Hr.
  destruct (lookup_lt_is_Some_2 _ _ Hr) as [row Hrow]. rewrite Hrow.
  unfold marked, row_at, layer_at. rewrite Hnd. simpl. by rewrite Hrow.
Qed.

Lemma mark_dirty_ok_inv g g' j :
  GraphState.mark_dirty j g = (Ok tt, g') -> g' = g \/ (g' = marked j g /\ ~ dirty g j).
Proof.
  unfold GraphState.mark_dirty, marked, row_at, layer_at, dirty.
  destruct (node_dirty g !! j) as [[]|]; [intros [= <-]; by left| |done].
  destruct (nodes g !! j) as [nd|]; [|done]. simpl.
  destruct (dirty_nodes_by_layer g !! layer nd); [|done].
  intros [= <-]. by right.
Qed.

Lemma marked_frame j g : frame g (marked j g).
Proof. split; try done; simpl; by rewrite length_insert. Qed.

Lemma marked_dirty g j i :
  j < length (node_dirty g) -> dirty (marked j g) i <-> i = j \/ dirty g i.
Proof.
  intros Hj. unfold dirty, marked. simpl. destruct (decide (i = j)) as [->|Hne].
  - rewrite list_lookup_insert_eq by done. naive_solver.
  - rewrite list_lookup_insert_ne by done. naive_solver.
Qed.

Lemma marked_row g j l :
  graph_wf g -> j < length (nodes g) ->
  row_at (marked j g) l = if decide (layer_at g j = l) then row_at g l ++ [j] else row_at g l.
Proof.
  intros Hw Hj. unfold row_at at 1, marked. simpl. rewrite row_at_insert by by apply layer_at_lt.
  case_decide; [by subst l|done].
Qed.

Lemma marked_ok g j :
  graph_wf g -> dirty_ok g -> j < length (nodes g) -> ~ dirty g j -> dirty_ok (marked j g).
Proof.
  intros Hw [Hr Hl Hn] Hj Hnd.
  assert (Hlay : forall i, layer_at (marked j g) i = layer_at g i) by done.
  assert (Hlen : j < length (node_dirty g)) by by rewrite (gw_dirty_len g Hw).
  split.
  - intros i. rewrite marked_dirty, Hlay, marked_row by done.
    case_decide as Hd; rewrite Hr; [rewrite elem_of_app, list_elem_of_singleton; naive_solver|].
    split; [intros [->|?]; done|by right].
  - intros l i. rewrite Hlay, marked_row by done. case_decide; [|apply Hl].
    rewrite elem_of_app, list_elem_of_singleton. intros [?| ->]; [by apply Hl|done].
  - intros l. rewrite marked_row by done. case_decide as Hd; [|done]. subst l.
    apply NoDup_app. split_and!; [done| |apply NoDup_singleton].
    intros i Hi. rewrite list_elem_of_singleton. intros ->. by apply Hnd, Hr.
Qed.

Lemma marked_grows g j l :
  graph_wf g -> j < length (nodes g) -> l < layer_at g j -> grows l g (marked j g).
Proof.
  intros Hw Hj Hl. split.
  - intros i Hi. apply marked_dirty; [by rewrite (gw_dirty_len g Hw)|by right].
  - intros k Hk. rewrite marked_row by done. rewrite decide_False by lia. done.
Qed.

Lemma marked_wf g j : graph_wf g -> graph_wf (marked j g).
Proof. intros Hw. by apply (graph_wf_same g); [apply marked_frame|..]. Qed.

(** [mark_dirty] on a node of the graph: it cannot fail, and adds that node. *)
Lemma mark_dirty_spec g j :
  graph_wf g -> dirty_ok g -> j < length (nodes g) ->
  exists g', GraphState.mark_dirty j g = (Ok tt, g') /\ graph_wf g' /\ dirty_ok g' /\
    frame g g' /\ (forall i, dirty g' i <-> i = j \/ dirty g i) /\
    (forall l, l < layer_at g j -> grows l g g') /\
    node_ticked g' = node_ticked g /\ always_callbacks g' = always_callbacks g /\
    scheduled_callbacks g' = scheduled_callbacks g /\
    pending_additions g' = pending_additions g /\ current_node_index g' = current_node_index g.
Proof.
  intros Hw Hd Hj. destruct (mark_dirty_run g j Hw Hj) as [[-> Hdj]|[-> Hdj]].
  - exists g. split_and!; try done. intros i. naive_solver.
  - exists (marked j g). split_and!; try done.
    + by apply marked_wf.
    + apply marked_ok; try done. unfold dirty. congruence.
    + apply marked_frame.
    + intros i. apply marked_dirty. by rewrite (gw_dirty_len g Hw).
    + intros l Hl. by apply marked_grows.
Qed.

(** ** The methods nodes can call keep the invariants *)

Lemma push_heap (q : TimeQueue nat) j t (P : nat -> Prop) :
  P j -> Forall (fun e => P (e_value e)) (heap q) ->
  Forall (fun e => P (e_value e)) (heap (TimeQueue.push q j t)).
Proof. intros Hj Hq. unfold TimeQueue.push. case_match; [done|]. by constructor. Qed.

Lemma dirty_ok_same g g' :
  nodes g' = nodes g -> dirty_nodes_by_layer g' = dirty_nodes_by_layer g ->
  node_dirty g' = node_dirty g -> dirty_ok g -> dirty_ok g'.
Proof.
  intros Hn Hr Hd [H1 H2 H3].
  assert (Hlay : forall i, layer_at g' i = layer_at g i) by (intros i; unfold layer_at; by rewrite Hn).
  assert (Hrow : forall l, row_at g' l = row_at g l) by (intros l; unfold row_at; by rewrite Hr).
  split.
  - intros i. rewrite Hlay, Hrow. unfold dirty. rewrite Hd. apply H1.
  - intros l i. rewrite Hlay, Hrow, Hn. apply H2.
  - intros l. by rewrite Hrow.
Qed.

(** The invariant of a call made for the node at [ix]. *)
Record call_inv (ix : nat) (g g' : GraphState) : Prop := {
  ci_wf : graph_wf g -> ix < length (nodes g) -> graph_wf g';
  ci_dirty : graph_wf g -> ix < length (nodes g) -> dirty_ok g -> dirty_ok g';
  ci_frame : frame g g';
  ci_grows : graph_wf g -> ix < length (nodes g) -> dirty_ok g -> grows (layer_at g ix) g g';
  ci_ticked : node_ticked g' = node_ticked g;
  ci_current : current_node_index g' = current_node_index g }.

Lemma call_inv_refl ix g : call_inv ix g g.
Proof. by split. Qed.

Lemma call_inv_trans ix g1 g2 g3 : call_inv ix g1 g2 -> call_inv ix g2 g3 -> call_inv ix g1 g3.
Proof.
  intros [W1 D1 F1 G1 T1 C1] [W2 D2 F2 G2 T2 C2].
  assert (Hn : nodes g2 = nodes g1) by apply F1.
  split; [..|congruence|congruence].
  - intros Hw Hi. apply W2; [by apply W1|by rewrite Hn].
  - intros Hw Hi Hd. apply D2; [by apply W1|by rewrite Hn|by apply D1].
  - by etransitivity.
  - intros Hw Hi Hd. transitivity g2; [by apply G1|].
    assert (Hl : layer_at g1 ix = layer_at g2 ix) by (unfold layer_at; by rewrite Hn).
    rewrite Hl. apply G2; [by apply W1|by rewrite Hn|by apply D1].
Qed.

Lemma call_inv_queues ix g g' :
  frame g g' -> dirty_nodes_by_layer g' = dirty_nodes_by_layer g ->
  node_dirty g' = node_dirty g -> node_ticked g' = node_ticked g ->
  current_node_index g' = current_node_index g ->
  (graph_wf g -> ix < length (nodes g) -> graph_wf g') -> call_inv ix g g'.
Proof.
  intros Hf Hr Hd Ht Hc Hw. split; [done| |done| |done|done].
  - intros _ _. apply dirty_ok_same; [apply Hf|done..].
  - intros _ _ _. split; [intros i; unfold dirty; by rewrite Hd|intros k _; unfold row_at; by rewrite Hr].
Qed.

Lemma api_step_inv cycling ix g g' : api_step cycling ix g g' -> call_inv ix g g'.
Proof.
  intros [g1 j t Hj|g1 Hni|g1 n act rec|g1 n|g1 g2 j nd nj _ Hnd Hnj Hlt Hm].
  - apply call_inv_queues; try done. intros Hw Hi. apply (graph_wf_frame g1); [done|done|apply Hw| |apply Hw].
    apply (push_heap _ _ _ (fun i => i < length (nodes g1))); [done|apply Hw].
  - apply call_inv_queues; try done. intros Hw Hi. apply (graph_wf_frame g1); [done|done| |apply Hw..].
    simpl. apply Forall_app. split; [apply Hw|by constructor].
  - apply call_inv_queues; try done. intros Hw Hi. apply (graph_wf_frame g1); [done|done|apply Hw|apply Hw|].
    simpl. apply Forall_app. split; [apply Hw|by constructor].
  - apply call_inv_queues; try done. intros Hw Hi. by apply (graph_wf_same g1).
  - assert (Hj : j < length (nodes g1)) by by eapply lookup_lt_Some.
    assert (Hll : layer_at g1 ix < layer_at g1 j) by (unfold layer_at; by rewrite Hnd, Hnj).
    destruct (mark_dirty_ok_inv _ _ _ Hm) as [->|[-> Hd]]; [apply call_inv_refl|].
    split; try done.
    + intros Hw _. by apply marked_wf.
    + intros Hw _ Hdk. by apply marked_ok.
    + apply marked_frame.
    + intros Hw _ _. by apply marked_grows.
Qed.

Lemma api_steps_inv cycling ix g g' : rtc (api_step cycling ix) g g' -> call_inv ix g g'.
Proof.
  induction 1 as [g|g1 g2 g3 H12 _ IH]; [apply call_inv_refl|].
  eapply call_inv_trans; [by eapply api_step_inv|done].
Qed.
