(* ===== verification/InitFacts.v ===== *)
(** * What [Graph::new] establishes ([Graph::initialise])

    After the depth-first walk the second half of [initialise] adds the
    downstream edges, the dirty flags and one row per layer. The state it
    leaves satisfies the invariants every cycle relies on ([graph_wf],
    [dirty_ok]) and is [clean]; a cycle of upstreams leaves the wiring error
    for [run] to return instead. *)
From S2P Require Import Prelude NanoTime TimeQueue GraphState Scripted Graph WiringFacts GraphWf.

(** ** Definitions *)

Definition downs (ns : list NodeData) (i : nat) : list Edge :=
  from_option downstreams [] (ns !! i).

(** Two node tables that differ in the downstream lists only. *)
Definition same_but_downs (ns ns' : list NodeData) : Prop :=
  set_downstreams [] <$> ns' = set_downstreams [] <$> ns.

(** Node [j] lists [i] among its upstreams. *)
Definition up_edge (ns : list NodeData) (i j : nat) (act : bool) : Prop :=
  exists nd, ns !! j = Some nd /\ mkEdge i act ∈ upstreams nd.

(** The downstream lists are the upstream lists read backwards. *)
Definition mirrored (g : GraphState) : Prop :=
  forall i j act, mkEdge j act ∈ downstreams_at g i <-> up_edge (nodes g) i j act.

(** ** Node tables that differ downstream only *)

Lemma same_but_downs_lookup ns ns' i nd :
  same_but_downs ns ns' -> ns !! i = Some nd ->
  exists nd', ns' !! i = Some nd' /\ node nd' = node nd /\ upstreams nd' = upstreams nd /\
    layer nd' = layer nd /\ active nd' = active nd.
Proof.
  intros Hs Hi. assert (Hx : (set_downstreams [] <$> ns') !! i = Some (set_downstreams [] nd)).
  { by rewrite Hs, list_lookup_fmap, Hi. }
  rewrite list_lookup_fmap in Hx. destruct (ns' !! i) as [nd'|] eqn:E; [|done].
  simpl in Hx. injection Hx as ? ? ? ?. by exists nd'.
Qed.

Lemma same_but_downs_refl ns : same_but_downs ns ns.
Proof. done. Qed.

Lemma same_but_downs_sym ns ns' : same_but_downs ns ns' -> same_but_downs ns' ns.
Proof. by unfold same_but_downs. Qed.

Lemma same_but_downs_trans ns1 ns2 ns3 :
  same_but_downs ns1 ns2 -> same_but_downs ns2 ns3 -> same_but_downs ns1 ns3.
Proof. unfold same_but_downs. congruence. Qed.

Lemma same_but_downs_length ns ns' : same_but_downs ns ns' -> length ns' = length ns.
Proof. intros Hs. apply (f_equal length) in Hs. by rewrite !length_fmap in Hs. Qed.

Lemma same_but_downs_up ns ns' i j act :
  same_but_downs ns ns' -> up_edge ns' i j act <-> up_edge ns i j act.
Proof.
  intros Hs. split; intros (nd & Hj & Hin).
  - destruct (same_but_downs_lookup _ _ _ _ (same_but_downs_sym _ _ Hs) Hj)
      as (nd' & Hj' & _ & Hu & _). exists nd'. by rewrite Hu.
  - destruct (same_but_downs_lookup _ _ _ _ Hs Hj) as (nd' & Hj' & _ & Hu & _).
    exists nd'. by rewrite Hu.
Qed.

Lemma push_down_same ns k nd e :
  ns !! k = Some nd -> same_but_downs ns (<[k := push_downstream e nd]> ns).
Proof.
  intros Hk. unfold same_but_downs. rewrite list_fmap_insert.
  apply list_insert_id. by rewrite list_lookup_fmap, Hk.
Qed.

Lemma push_down_downs ns k nd e p x :
  ns !! k = Some nd ->
  x ∈ downs (<[k := push_downstream e nd]> ns) p <-> x ∈ downs ns p \/ (p = k /\ x = e).
Proof.
  intros Hk. unfold downs. destruct (decide (p = k)) as [->|Hne].
  - rewrite list_lookup_insert_eq by (by eapply lookup_lt_Some). rewrite Hk. simpl.
    rewrite elem_of_app, list_elem_of_singleton. naive_solver.
  - rewrite list_lookup_insert_ne by done. naive_solver.
Qed.

(** ** The downstream edges *)

Section wire.
Context {W : Type} `{NodeOps W}.
Implicit Types (s : Sys W) (g : GraphState).

Definition wire_edge (i j : nat) : M (Sys W) unit :=
  let! nd := node_at i in
  let! edge := at_index (upstreams nd) j in
  update_node (node_index edge) (push_downstream (mkEdge i (edge_active edge))).

Definition with_nodes (ns : list NodeData) (s : Sys W) : Sys W :=
  set_state (set_nodes (state s) ns) s.

Lemma with_nodes_nodes s ns : nodes (state (with_nodes ns s)) = ns.
Proof. done. Qed.

Lemma wire_edge_run i j s nd e nd' :
  nodes (state s) !! i = Some nd -> upstreams nd !! j = Some e ->
  nodes (state s) !! node_index e = Some nd' ->
  wire_edge i j s = (Ok tt, with_nodes (<[node_index e :=
    push_downstream (mkEdge i (edge_active e)) nd']> (nodes (state s))) s).
Proof.
  intros Hi Hj He. unfold wire_edge, node_at, update_node, mbind, get_state, at_index, mlift.
  by rewrite Hi, Hj, He.
Qed.

Lemma wire_edges_run i es m n s nd :
  nodes (state s) !! i = Some nd -> upstreams nd = es ->
  Forall (fun e => node_index e < length (nodes (state s))) es -> m + n = length es ->
  exists ns', mfor (seq m n) (wire_edge i) s = (Ok tt, with_nodes ns' s) /\
    same_but_downs (nodes (state s)) ns' /\
    forall p x, x ∈ downs ns' p <-> x ∈ downs (nodes (state s)) p \/
      (node_index x = i /\ mkEdge p (edge_active x) ∈ drop m es).
Proof.
  revert m s nd. induction n as [|n IH]; intros m s nd Hi Hes Hb Hm.
  - exists (nodes (state s)). split_and!; [destruct s as [? [] ?]; done|done|].
    intros p x. rewrite drop_ge by lia. split; [by left|]. by intros [?|[_ ?%not_elem_of_nil]].
  - destruct (lookup_lt_is_Some_2 es m) as [e He]; [lia|].
    destruct (lookup_lt_is_Some_2 (nodes (state s)) (node_index e)) as [nd' Hnd'].
    { rewrite Forall_lookup in Hb. by eapply Hb. }
    pose proof (push_down_same _ _ _ (mkEdge i (edge_active e)) Hnd') as Hsame.
    set (ns1 := <[node_index e := push_downstream (mkEdge i (edge_active e)) nd']> (nodes (state s)))
      in *.
    destruct (same_but_downs_lookup _ _ _ _ Hsame Hi) as (nd1 & Hi1 & _ & Hu1 & _).
    destruct (IH (S m) (with_nodes ns1 s) nd1 Hi1) as (ns' & Hrun & Hs' & Hd');
      [congruence| |lia|].
    { rewrite with_nodes_nodes, (same_but_downs_length _ _ Hsame). done. }
    exists ns'. simpl. unfold mbind. erewrite wire_edge_run by (try done; by rewrite Hes).
    fold ns1. rewrite Hrun. split_and!; [done|by eapply same_but_downs_trans|].
    intros p x. rewrite Hd', with_nodes_nodes. unfold ns1. rewrite (push_down_downs _ _ _ _ _ _ Hnd').
    rewrite (drop_S _ _ _ He), elem_of_cons.
    destruct x as [xi xa], e as [ei ea]; simpl. naive_solver.
Qed.

Lemma wire_downstreams_run i s nd :
  nodes (state s) !! i = Some nd ->
  Forall (fun e => node_index e < length (nodes (state s))) (upstreams nd) ->
  exists ns', Graph.wire_downstreams i s = (Ok tt, with_nodes ns' s) /\
    same_but_downs (nodes (state s)) ns' /\
    forall p x, x ∈ downs ns' p <-> x ∈ downs (nodes (state s)) p \/
      (node_index x = i /\ mkEdge p (edge_active x) ∈ upstreams nd).
Proof.
  intros Hi Hb.
  destruct (wire_edges_run i (upstreams nd) 0 (length (upstreams nd)) s nd Hi eq_refl Hb eq_refl)
    as (ns' & Hrun & Hrest). exists ns'. split; [|exact Hrest].
  unfold Graph.wire_downstreams, node_at. unfold mbind at 1 2, get_state, at_index, mlift.
  rewrite Hi. exact Hrun.
Qed.

(** ** The second half of [initialise] *)

Definition with_flags (n : nat) (ns : list NodeData) (s : Sys W) : Sys W :=
  set_state (set_nodes (set_node_dirty (state s) (node_dirty (state s) ++ repeat false n)) ns) s.

Lemma finish_wiring_run n k acc s :
  k + n = length (nodes (state s)) ->
  Forall (fun nd => Forall (fun e => node_index e < length (nodes (state s))) (upstreams nd) /\
            (Z.of_nat (layer nd) <= 2147483647)%Z) (nodes (state s)) ->
  exists ns' m, Graph.finish_wiring (seq k n) acc s = (Ok m, with_flags n ns' s) /\
    same_but_downs (nodes (state s)) ns' /\ (acc <= m)%Z /\
    (forall j nd, k <= j -> nodes (state s) !! j = Some nd -> (Z.of_nat (layer nd) <= m)%Z) /\
    forall p x, x ∈ downs ns' p <-> x ∈ downs (nodes (state s)) p \/
      (k <= node_index x /\ up_edge (nodes (state s)) p (node_index x) (edge_active x)).
Proof.
  revert k acc s. induction n as [|n IH]; intros k acc s Hk Hall.
  - exists (nodes (state s)), acc. split_and!; [|done|done| |].
    + simpl. unfold with_flags. rewrite app_nil_r. by destruct s as [? [] ?].
    + intros j nd Hj Hl%lookup_lt_Some. lia.
    + intros p x. split; [by left|]. intros [?|[Hx (nd & Hl%lookup_lt_Some & _)]]; [done|lia].
  - destruct (lookup_lt_is_Some_2 (nodes (state s)) k) as [nd Hnd]; [lia|].
    destruct (proj1 (Forall_lookup _ _) Hall _ _ Hnd) as [Hb Hl].
    set (s0 := set_state (set_node_dirty (state s) (node_dirty (state s) ++ [false])) s).
    destruct (wire_downstreams_run k s0 nd Hnd Hb) as (ns1 & Hrun1 & Hs1 & Hd1).
    pose proof (same_but_downs_length _ _ Hs1) as Hlen.
    destruct (IH (S k) (Z.max acc (Z.of_nat (layer nd))) (with_nodes ns1 s0))
      as (ns' & m & Hrun & Hs' & Hm & Hmax & Hd').
    { rewrite with_nodes_nodes, Hlen. simpl. lia. }
    { rewrite with_nodes_nodes. apply Forall_lookup. intros j nd1 Hj.
      destruct (same_but_downs_lookup _ _ _ _ (same_but_downs_sym _ _ Hs1) Hj)
        as (nd0 & Hj0 & _ & Hu & Hly & _). rewrite Hlen.
      rewrite <-Hu, <-Hly. exact (proj1 (Forall_lookup _ _) Hall _ _ Hj0). }
    rewrite with_nodes_nodes in *. exists ns', m. split_and!.
    + simpl. unfold mbind at 1. unfold node_at, get_state, at_index, mlift, mbind at 1.
      rewrite Hnd. destruct (Z.leb_spec (Z.of_nat (layer nd)) 2147483647); [|lia].
      unfold mbind at 1. unfold Graph.push_dirty_flag, modify_state, on_state, mmodify.
      fold s0. unfold mbind. rewrite Hrun1. rewrite Hrun. f_equal. unfold with_flags, s0. simpl.
      by rewrite <-app_assoc.
    + by eapply same_but_downs_trans.
    + lia.
    + intros j nd1 Hj Hj1. destruct (decide (j = k)) as [->|].
      { rewrite Hnd in Hj1. injection Hj1 as <-. lia. }
      destruct (same_but_downs_lookup _ _ _ _ Hs1 Hj1) as (nd2 & Hj2 & _ & _ & Hly & _).
      rewrite <-Hly. eapply Hmax; [|done]. lia.
    + intros p x. rewrite Hd', Hd1, (same_but_downs_up _ _ _ _ _ Hs1). simpl. split.
      * intros [[?|[Hx Hu]]|[Hx Hu]]; [by left|right|right].
        -- split; [lia|]. exists nd. by rewrite Hx.
        -- split; [lia|done].
      * intros [?|[Hx Hu]]; [by auto|]. destruct (decide (node_index x = k)) as [Hxk|].
        -- destruct Hu as (nd' & Hj & Hu). left. right. split; [done|]. congruence.
        -- right. split; [lia|done].
Qed.

Lemma push_rows_run n s k :
  mfor (seq k n) (fun _ => Graph.push_dirty_row) s =
  (Ok tt, set_state (set_dirty_rows (state s) (dirty_nodes_by_layer (state s) ++ repeat [] n)) s).
Proof.
  revert k s. induction n as [|n IH]; intros k s.
  - simpl. rewrite app_nil_r. by destruct s as [? [] ?].
  - simpl. erewrite mbind_ok by reflexivity. rewrite IH. simpl. by rewrite <-app_assoc.
Qed.
End wire.

(** ** [initialise] as a whole *)

Section whole.
Context {W : Type} `{NodeOps W}.
Implicit Types (s : Sys W) (g : GraphState).

Lemma node_ok_layer w g i nd :
  wired w g -> nodes g !! i = Some nd -> layer nd <= i.
Proof.
  intros [Hix Hok]. revert i nd. refine (well_founded_ind lt_wf _ _). intros i IH nd Hnd.
  destruct (Hok _ _ Hnd) as (_ & Hb & Hl & _). rewrite Hl. unfold edges_layer.
  assert (Hall : Forall (fun l => l < i) (map (fun e => layer_at g (node_index e)) (upstreams nd))).
  { apply Forall_fmap. eapply Forall_impl; [exact Hb|]. intros e He. simpl in *.
    unfold layer_at. destruct (nodes g !! node_index e) as [nd'|] eqn:E; simpl; [|lia].
    specialize (IH _ He _ E). lia. }
  clear -Hall. destruct Hall as [|l ls Hl Hls]; simpl; [lia|].
  assert (foldr Nat.max 0 ls < i); [|lia]. induction Hls; simpl; lia.
Qed.

(** Addresses of registered nodes are distinct. *)
Lemma index_ok_nodup g : index_ok g -> NoDup (map node (nodes g)).
Proof.
  intros [_ Hix]. apply NoDup_alt. intros i j a Hi Hj.
  apply list_lookup_fmap_Some in Hi as (nd1 & -> & Hi).
  apply list_lookup_fmap_Some in Hj as (nd2 & Heq & Hj).
  assert (H1 : node_to_index g !! node nd1 = Some i) by (apply Hix; eauto).
  assert (H2 : node_to_index g !! node nd1 = Some j) by (apply Hix; eauto). congruence.
Qed.

Lemma nodes_in_closed U g :
  index_ok g -> (forall a, registered g a -> a ∈ U) -> length (nodes g) <= length U.
Proof.
  intros Hix HU. rewrite <-(length_map node). apply List.NoDup_incl_length.
  - apply NoDup_ListNoDup. by apply index_ok_nodup.
  - intros a Ha. apply list_elem_of_In, list_elem_of_fmap in Ha as (nd & -> & Hnd).
    apply list_elem_of_lookup in Hnd as [i Hi]. apply list_elem_of_In, HU. exists i.
    apply Hix. eauto.
Qed.

(** Fresh apart from the tables of nodes. *)
Definition unfinished (g : GraphState) : Prop :=
  node_dirty g = [] /\ dirty_nodes_by_layer g = [] /\ always_callbacks g = [] /\
  heap (scheduled_callbacks g) = [] /\ pending_additions g = [] /\ wiring_error g = None /\
  Forall (fun nd => downstreams nd = []) (nodes g) /\ Forall (fun b => b = false) (node_ticked g).

Lemma wired_nodes_bounds w g :
  wired w g -> (Z.of_nat (length (nodes g)) <= 2147483648)%Z ->
  Forall (fun nd => Forall (fun e => node_index e < length (nodes g)) (upstreams nd) /\
            (Z.of_nat (layer nd) <= 2147483647)%Z) (nodes g).
Proof.
  intros Hw Hlen. apply Forall_lookup. intros i nd Hnd.
  pose proof (lookup_lt_Some _ _ _ Hnd) as Hi. split.
  - destruct Hw as [_ Hok]. destruct (Hok _ _ Hnd) as (_ & Hb & _).
    eapply Forall_impl; [exact Hb|]. simpl. intros e He. lia.
  - pose proof (node_ok_layer _ _ _ _ Hw Hnd). lia.
Qed.

Lemma edges_layer_gt g es e : e ∈ es -> layer_at g (node_index e) < edges_layer g es.
Proof.
  intros He. unfold edges_layer. apply required_layer_gt. apply list_elem_of_fmap. by exists e.
Qed.

(** What the walk leaves, finished, satisfies the invariants. *)
Lemma finished_wf w g ns' m :
  wired w g -> unfinished g -> same_but_downs (nodes g) ns' ->
  (forall j nd, nodes g !! j = Some nd -> (Z.of_nat (layer nd) <= m)%Z) -> (-1 <= m)%Z ->
  (forall p x, x ∈ downs ns' p <-> up_edge (nodes g) p (node_index x) (edge_active x)) ->
  let g' := set_dirty_rows (set_nodes (set_node_dirty g (repeat false (length (nodes g)))) ns')
              (repeat [] (Z.to_nat (m + 1))) in
  graph_wf g' /\ dirty_ok g' /\ clean g' /\ mirrored g' /\
  (forall a, registered g' a <-> registered g a) /\ (forall i nd, nodes g' !! i = Some nd -> node_ok w g' i nd).
Proof.
  intros Hw (Hnd & Hrows & Ha & Hq & Hp & _ & _ & Htk) Hs Hmax Hm Hd g'.
  pose proof (same_but_downs_length _ _ Hs) as Hlen. pose proof Hw as [[Htl Hix] Hok].
  assert (Hback : forall i nd, ns' !! i = Some nd -> exists nd0, nodes g !! i = Some nd0 /\
            node nd0 = node nd /\ upstreams nd0 = upstreams nd /\ layer nd0 = layer nd /\
            active nd0 = active nd).
  { intros i nd Hi. exact (same_but_downs_lookup _ _ _ _ (same_but_downs_sym _ _ Hs) Hi). }
  assert (Hlay : forall i, layer_at g' i = layer_at g i).
  { intros i. unfold layer_at, g'. simpl. destruct (nodes g !! i) as [nd|] eqn:E.
    - destruct (same_but_downs_lookup _ _ _ _ Hs E) as (nd' & -> & _ & _ & Hl & _). done.
    - apply lookup_ge_None in E. by rewrite (proj2 (lookup_ge_None ns' i)) by lia. }
  assert (Hup : forall i nd e, ns' !! i = Some nd -> e ∈ upstreams nd ->
            node_index e < length (nodes g) /\ layer_at g (node_index e) < layer nd).
  { intros i nd e Hi He. destruct (Hback _ _ Hi) as (nd0 & Hi0 & _ & Hu & Hl & _).
    destruct (Hok _ _ Hi0) as (_ & Hb & Hl0 & _). rewrite <-Hu in He. rewrite <-Hl, Hl0.
    split; [|by apply edges_layer_gt]. rewrite Forall_forall in Hb. apply Hb in He.
    apply lookup_lt_Some in Hi0. lia. }
  assert (Hmir : mirrored g').
  { intros i j act. change (downstreams_at g' i) with (downs ns' i). rewrite Hd. simpl.
    by rewrite (same_but_downs_up _ _ _ _ _ Hs). }
  assert (Hrow : forall l, row_at g' l = []).
  { intros l. unfold row_at, g'. simpl. destruct (repeat [] (Z.to_nat (m + 1)) !! l) eqn:E; [|done].
    apply list_elem_of_lookup_2, list_elem_of_In, repeat_spec in E. by subst. }
  assert (Hflag : forall i, ~ dirty g' i).
  { intros i Hi. unfold dirty, g' in Hi. simpl in Hi.
    by apply list_elem_of_lookup_2, list_elem_of_In, repeat_spec in Hi. }
  assert (Hdown : forall i nd e, ns' !! i = Some nd -> e ∈ downstreams nd ->
            up_edge ns' i (node_index e) (edge_active e)).
  { intros i nd e Hi He. apply Hmir. unfold downstreams_at, g'. simpl. rewrite Hi. simpl.
    by destruct e. }
  split_and!.
  - split; simpl; rewrite ?Ha, ?Hq, ?Hp; try by constructor.
    + split; simpl; [congruence|]. intros a i. simpl. rewrite Hix. split; intros (nd & Hi & Hnode).
      * destruct (same_but_downs_lookup _ _ _ _ Hs Hi) as (nd' & Hi' & Hn & _).
        exists nd'. split; [done|congruence].
      * destruct (Hback _ _ Hi) as (nd0 & Hi0 & Hn & _). exists nd0. split; [done|congruence].
    + rewrite repeat_length. congruence.
    + intros i nd e Hi He. rewrite Hlen. by apply (Hup i nd).
    + intros i nd e Hi He.
      destruct (Hdown i nd e Hi He) as (nd' & Hj & _). by apply lookup_lt_Some in Hj.
    + intros i nd e Hi _ He. destruct (Hdown i nd e Hi He) as (nd' & Hj & Hin).
      unfold layer_at, g'. simpl. rewrite Hj. simpl.
      destruct (Hup _ _ _ Hj Hin) as [_ Hl]. simpl in Hl. rewrite <-Hlay in Hl.
      unfold layer_at, g' in Hl. simpl in Hl. by rewrite Hi in Hl.
    + intros i nd e Hi _ He. destruct (Hdown i nd e Hi He) as (nd' & Hj & Hin).
      unfold upstreams_at, g'. simpl. by rewrite Hj.
    + intros i nd e Hi _ He. rewrite Hlay. by apply (Hup i nd).
    + intros i nd e Hi _ He. apply Hmir. exists nd. split; [done|]. by destruct e.
    + intros i nd Hi. destruct (Hback _ _ Hi) as (nd0 & Hi0 & _ & _ & Hl & _).
      specialize (Hmax _ _ Hi0). rewrite repeat_length. lia.
  - split.
    + intros i. rewrite Hrow. split; [by intros ?%Hflag|by intros ?%not_elem_of_nil].
    + intros l i. rewrite Hrow. by intros ?%not_elem_of_nil.
    + intros l. rewrite Hrow. constructor.
  - split_and!; simpl; [..|done]; apply Forall_forall; intros x Hx%list_elem_of_In%repeat_spec; done.
  - done.
  - done.
  - intros i nd Hi. destruct (Hback _ _ Hi) as (nd0 & Hi0 & Hn & Hu & Hl & Hac).
    destruct (Hok _ _ Hi0) as (Hr & Hb & Hl0 & Hac0). unfold node_ok. rewrite <-Hn, <-Hu, <-Hl, <-Hac.
    split_and!; [done|done| |done]. rewrite Hl0. unfold edges_layer. f_equal.
    apply list_fmap_ext. intros _ e _. by rewrite Hlay.
Qed.

(** The walk appends cleared ticked flags only. *)
Definition ticked_grows (s s' : Sys W) : Prop :=
  exists k, node_ticked (state s') = node_ticked (state s) ++ repeat false k.

#[local] Instance ticked_grows_preorder : PreOrder ticked_grows.
Proof.
  split.
  - intros s. exists 0. by rewrite app_nil_r.
  - intros s1 s2 s3 [k1 H1] [k2 H2]. exists (k1 + k2). by rewrite H2, H1, repeat_app, app_assoc.
Qed.

Lemma get_state_ticked : respects ticked_grows get_state.
Proof. intros s r s' [= <- <-]. reflexivity. Qed.

Lemma wiring_loop_ticked fuel inp stack :
  respects ticked_grows (Graph.wiring_loop fuel inp stack).
Proof.
  revert inp stack. induction fuel as [|fuel IH]; intros inp stack; [by apply respects_stuck, _|].
  destruct stack as [|f below]; simpl; [by apply respects_return, _|].
  destruct (fr_upstreams f !! fr_next f) as [[up act]|].
  - apply respects_bind; [apply _|apply get_state_ticked|intros g].
    destruct (node_to_index g !! up).
    + apply respects_bind; [apply _|by apply respects_lift, _|intros nd; apply IH].
    + case_bool_decide; [by apply respects_fail, _|].
      apply respects_bind; [apply _|by apply respects_get, _|intros s; apply IH].
  - apply respects_bind; [apply _| |intros _].
    { intros s r s' [= <- <-]. exists 1. done. }
    apply respects_bind; [apply _| |intros _; apply IH].
    intros s r s' [= <- <-]. exists 0. simpl. by rewrite app_nil_r.
Qed.

Lemma initialise_node_ticked fuel root : respects ticked_grows (Graph.initialise_node fuel root).
Proof.
  assert (Hreg : respects ticked_grows (Graph.registered_index root)).
  { apply respects_bind; [apply _|apply get_state_ticked|intros g; by apply respects_lift, _]. }
  apply respects_bind; [apply _|apply get_state_ticked|intros g].
  destruct (GraphState.seen g root); [done|].
  apply respects_bind; [apply _|by apply respects_get, _|intros s].
  apply respects_bind; [apply _|apply wiring_loop_ticked|done].
Qed.

(** What one walk keeps of an unfinished state. *)
Lemma walk_unfinished w root g0 g :
  winv w root g0 g ∅ [] -> Forall (fun b => b = false) (node_ticked g) ->
  unfinished g0 -> unfinished g.
Proof.
  intros [Hon (new & Hnew & Hall) _ _ _ _ _ _ _ _ _ _] Ht (H1 & H2 & H3 & H4 & H5 & H6 & H7 & _).
  unfold only_nodes in Hon. rewrite Hon. split_and!; try done. simpl. rewrite Hnew.
  apply Forall_app. split; [done|]. eapply Forall_impl; [exact Hall|]. by intros nd [].
Qed.

Lemma false_flags_grow s s' :
  ticked_grows s s' -> Forall (fun b => b = false) (node_ticked (state s)) ->
  Forall (fun b => b = false) (node_ticked (state s')).
Proof.
  intros [k ->] H0. apply Forall_app. split; [done|].
  apply Forall_forall. by intros b Hb%list_elem_of_In%repeat_spec.
Qed.

Definition acyclic_from (w : W) (roots : list addr) : Prop :=
  forall r, r ∈ roots -> ~ cycle_from w r.
Definition reached (w : W) (roots : list addr) (a : addr) : Prop :=
  exists r, r ∈ roots /\ reaches w r a.

(** Everything but the node tables and what [initialise] adds to them. *)
Definition core (g : GraphState) : GraphState :=
  set_dirty_rows (set_node_dirty (set_nodes (set_node_ticked (set_node_to_index g ∅) []) []) []) [].

(** The state a successful [initialise] leaves. *)
Record initialised (w : W) (g0 : GraphState) (roots : list addr) (g : GraphState) : Prop := {
  in_wf : graph_wf g;
  in_dirty : dirty_ok g;
  in_clean : clean g;
  in_mirror : mirrored g;
  in_core : core g = core g0;
  in_registered a : registered g a <-> registered g0 a \/ reached w roots a;
  in_nodes i nd : nodes g !! i = Some nd -> node_ok w g i nd }.

Lemma initialise_finish w s U fuel :
  wired w (state s) -> unfinished (state s) -> (forall a, registered (state s) a -> a ∈ U) ->
  (Z.of_nat (length U) <= 2147483648)%Z ->
  exists g, Graph.initialise fuel [] s = (Ok tt, set_state g s) /\
    initialised w (state s) [] g.
Proof.
  intros Hw Hun HU Hlen. pose proof Hun as (Hnd & Hrows & Ha & Hq & Hp & He & Hdn & Ht).
  pose proof (nodes_in_closed U _ (wired_index _ _ Hw) HU) as Hle.
  assert (Hb := wired_nodes_bounds _ _ Hw ltac:(lia)).
  destruct (finish_wiring_run (length (nodes (state s))) 0 (-1) s eq_refl Hb)
    as (ns' & m & Hrun & Hs & Hm & Hmax & Hd).
  destruct (finished_wf w (state s) ns' m Hw Hun Hs) as (H1 & H2 & H3 & H4 & H5 & H6); [|done| |].
  { intros j nd Hj. eapply Hmax; [|done]. lia. }
  { intros p x. rewrite Hd. unfold downs at 1. destruct (nodes (state s) !! p) as [nd|] eqn:E; simpl.
    - rewrite Forall_lookup in Hdn. rewrite (Hdn _ _ E). split; [|intros Hx; right; split; [lia|done]].
      by intros [?%not_elem_of_nil|[_ ?]].
    - split; [|intros Hx; right; split; [lia|done]]. by intros [?%not_elem_of_nil|[_ ?]]. }
  eexists. split.
  - simpl. unfold mbind, get_state. rewrite Hrun. unfold for_range. rewrite push_rows_run.
    unfold with_flags. simpl. rewrite Hrows, Hnd. reflexivity.
  - split; try done. intros a. rewrite H5. split; [by left|]. intros [?|(r & Hr & _)]; [done|].
    by apply not_elem_of_nil in Hr.
Qed.

Lemma core_only_nodes g0 g : only_nodes g0 g -> core g = core g0.
Proof. intros Ho. unfold only_nodes in Ho. by rewrite Ho. Qed.

Lemma initialise_step_ok fuel r roots s g i :
  Graph.initialise_node fuel r s = (Ok i, set_state g s) ->
  Graph.initialise fuel (r :: roots) s = Graph.initialise fuel roots (set_state g s).
Proof. intros Hr. simpl. unfold mcatch, mbind. by rewrite Hr. Qed.

Lemma initialise_step_err fuel r roots s g e :
  Graph.initialise_node fuel r s = (Err e, set_state g s) -> wiring_error g = None ->
  Graph.initialise fuel (r :: roots) s = (Ok tt, set_state (set_wiring_error g (Some e)) s).
Proof.
  intros Hr Hg. simpl. unfold mcatch, mbind. rewrite Hr. simpl.
  unfold Graph.stash_wiring_error, modify_state, on_state, mmodify. simpl. by rewrite Hg.
Qed.

Lemma initialise_spec U roots fuel s :
  NoDup U -> closed (world s) U -> (forall r, r ∈ roots -> r ∈ U) ->
  wired (world s) (state s) -> unfinished (state s) ->
  (forall a, registered (state s) a -> a ∈ U) -> (Z.of_nat (length U) <= 2147483648)%Z ->
  wiring_fuel (world s) U <= fuel ->
  (acyclic_from (world s) roots /\
   exists g, Graph.initialise fuel roots s = (Ok tt, set_state g s) /\
     initialised (world s) (state s) roots g) \/
  (~ acyclic_from (world s) roots /\
   exists g, Graph.initialise fuel roots s = (Ok tt, set_state g s) /\
     wiring_error g = Some cycle_error).
Proof.
  intros HU Hcl Hin Hw Hun Hreg Hlen Hfuel. revert s Hcl Hin Hw Hun Hreg Hfuel.
  induction roots as [|r roots IH]; intros s Hcl Hin Hw Hun Hreg Hfuel.
  { left. split; [by intros r ?%not_elem_of_nil|]. by eapply initialise_finish. }
  pose proof (wired_index _ _ Hw) as Hix.
  destruct (initialise_node_spec U r fuel s HU Hcl) as [(g & i & He & Hi & Hg)|(g & He & _ & Ho & Hcyc)];
    [apply Hin; by left|done|done| |].
  - assert (Hwg : wired (world s) g) by (destruct Hg as [Hg| ->]; [by eapply winv_wired|done]).
    assert (Hc : core g = core (state s)).
    { destruct Hg as [[Ho _ _ _ _ _ _ _ _ _ _ _]| ->]; [by apply core_only_nodes|done]. }
    assert (Hun' : unfinished g).
    { destruct Hg as [Hg| ->]; [|done]. eapply walk_unfinished; [exact Hg| |done].
      apply (false_flags_grow _ _ (initialise_node_ticked _ _ _ _ _ He)). apply Hun. }
    assert (Hrg : registered g r) by by exists i.
    assert (Hra : forall a, registered g a <-> registered (state s) a \/ reaches (world s) r a).
    { intros a. split.
      - destruct Hg as [Hg| ->]; [|by left]. by apply winv_registered.
      - intros [[j Ha]|Hr]; [|by eapply wired_reaches]. destruct Hg as [[]| ->]; [|by exists j].
        exists j. by eapply lookup_weaken. }
    rewrite (initialise_step_ok _ _ _ _ _ _ He).
    assert (Hreg' : forall a, registered g a -> a ∈ U).
    { intros a [?|?]%Hra; [by apply Hreg|]. eapply reaches_closed; [done| |done]. apply Hin. by left. }
    destruct (IH (set_state g s)) as [(Hac & g' & Hrun & Hini)|(Hac & g' & Hrun & Hx)];
      [done|intros r' Hr'; apply Hin; by right|done..| |].
    + left. split; [intros r' [->|?]%elem_of_cons; [by eapply wired_acyclic|by apply Hac]|].
      exists g'. split; [done|]. destruct Hini as [? ? ? ? Hco Hre ?]. split; try done; [by rewrite Hco|].
      intros a. rewrite Hre. simpl. rewrite Hra. unfold reached. split.
      * intros [[?|?]|(r' & ? & ?)]; [by left|right; exists r; set_solver|right; exists r'; set_solver].
      * intros [?|(r' & [->|?]%elem_of_cons & ?)]; [by auto|by auto|right; by exists r'].
    + right. split; [|by exists g']. intros Hac'. apply Hac. intros r' Hr'. apply Hac'. by right.
  - right. split; [intros Hac; apply (Hac r); [by left|done]|]. eexists.
    split; [eapply initialise_step_err; [exact He|]|done].
    unfold only_nodes in Ho. rewrite Ho. apply Hun.
Qed.

(** [Graph::new] starts [initialise] on a fresh state. *)
Lemma new_eq fuel roots mode rf w e : exists t e',
  Graph.new fuel roots mode rf w e =
  Graph.initialise fuel roots (mkSys w (GraphState.new mode rf t) e').
Proof. destruct mode; simpl; eauto. Qed.

Lemma new_unfinished mode rf t : unfinished (GraphState.new mode rf t).
Proof. split_and!; try done; constructor. Qed.

Lemma new_spec U roots fuel mode rf (w : W) e :
  NoDup U -> closed w U -> (forall r, r ∈ roots -> r ∈ U) ->
  (Z.of_nat (length U) <= 2147483648)%Z -> wiring_fuel w U <= fuel ->
  exists s, Graph.new fuel roots mode rf w e = (Ok tt, s) /\ world s = w /\
    ((acyclic_from w roots /\ exists t, initialised w (GraphState.new mode rf t) roots (state s)) \/
     (~ acyclic_from w roots /\ wiring_error (state s) = Some cycle_error)).
Proof.
  intros HU Hcl Hin Hlen Hfuel. destruct (new_eq fuel roots mode rf w e) as (t & e' & ->).
  destruct (initialise_spec U roots fuel (mkSys w (GraphState.new mode rf t) e'))
    as [(Hac & g & Hrun & Hini)|(Hac & g & Hrun & Hx)]; try done.
  - apply wired_new.
  - intros a [i Hi]. done.
  - eexists. split; [exact Hrun|]. split; [done|]. left. eauto.
  - eexists. split; [exact Hrun|]. split; [done|]. right. eauto.
Qed.
End whole.

(** ** Properties *)

(** C5: [Graph::new] always returns a graph. When no root has a cycle of
    upstreams above it, the graph contains exactly the nodes reachable from the
    roots, every edge leads from a lower layer to a higher one and is listed at
    both ends, an index of every layer has a row, nothing is dirty or ticked,
    and no error is recorded; otherwise the cycle error is recorded, for [run]
    to return before any node is called. *)
Theorem new_correct {W} `{NodeOps W} U roots fuel mode rf (w : W) e :
  NoDup U -> closed w U -> (forall r, r ∈ roots -> r ∈ U) ->
  (Z.of_nat (length U) <= 2147483648)%Z -> wiring_fuel w U <= fuel ->
  exists s, Graph.new fuel roots mode rf w e = (Ok tt, s) /\ world s = w /\
    ((acyclic_from w roots /\ graph_wf (state s) /\ dirty_ok (state s) /\ clean (state s) /\
      mirrored (state s) /\ wiring_error (state s) = None /\
      forall a, registered (state s) a <-> reached w roots a) \/
     (~ acyclic_from w roots /\ wiring_error (state s) = Some cycle_error)).
Proof.
  intros HU Hcl Hin Hlen Hfuel.
  destruct (new_spec U roots fuel mode rf w e HU Hcl Hin Hlen Hfuel)
    as (s & Hrun & Hws & [(Hac & t & [? ? ? ? Hco Hre ?])|Hx]); exists s; (split_and!; [done..|]);
    [left|by right].
  split_and!; try done.
  - change (wiring_error (core (state s)) = None). by rewrite Hco.
  - intros a. rewrite Hre. split; [|by right]. by intros [[i Hi]|?].
Qed.

(** Two nodes, each the other's upstream. *)
Definition two_cycle : Scripts :=
  mkScripts {[ 1%positive := mkScript (mkUpStreams [2%positive] []) true None false None None;
               2%positive := mkScript (mkUpStreams [] [1%positive]) true None false None None ]} [].

Definition diamond_graph : Sys Scripts :=
  (Graph.new 40 [4%positive] (HistoricalFrom 0) Forever diamond env_quiet).2.

Lemma new_correct_witness :
  (graph_wf (state diamond_graph) /\ length (nodes (state diamond_graph)) = 4) /\
  exists s, Graph.new 40 [2%positive] RealTime Forever two_cycle env_quiet = (Ok tt, s) /\
    wiring_error (state s) = Some cycle_error.
Proof.
  split; [split; [|done]|].
  - destruct (new_correct [1; 2; 3; 4]%positive [4%positive] 40 (HistoricalFrom 0) Forever diamond
      env_quiet) as (s & Hrun & _ & [(_ & Hwf & _)|[_ Herr]]).
    + apply (bool_decide_unpack _). vm_compute. exact I.
    + by apply closed_by_computation.
    + set_solver.
    + vm_compute. done.
    + vm_compute. lia.
    + unfold diamond_graph. by rewrite Hrun.
    + assert (Hx : wiring_error (Graph.new 40 [4%positive] (HistoricalFrom 0) Forever diamond
        env_quiet).2.(state) = Some cycle_error) by by rewrite Hrun. vm_compute in Hx. discriminate.
  - destruct (new_correct [1; 2]%positive [2%positive] 40 RealTime Forever two_cycle env_quiet)
      as (s & Hrun & _ & [(_ & _ & _ & _ & _ & Herr & _)|[_ Herr]]).
    + apply (bool_decide_unpack _). vm_compute. exact I.
    + by apply closed_by_computation.
    + set_solver.
    + vm_compute. done.
    + vm_compute. lia.
    + assert (Hx : wiring_error (Graph.new 40 [2%positive] RealTime Forever two_cycle
        env_quiet).2.(state) = None) by by rewrite Hrun. vm_compute in Hx. discriminate.
    + exists s. split; [exact Hrun|exact Herr].
Defined.
