(* ===== verification/CycleProps.v ===== *)
(** * The engine cycle ([Graph::cycle_node], the layer loop of [Graph::cycle])

    A cycle is described by its trace: the node runs in order, each with what
    the node did ([observe]). The layer loop runs each dirty node exactly once,
    after every node it can depend on, and runs nothing else: the theorems at the
    end, read off the trace. *)
From S2P Require Import Prelude NanoTime TimeQueue GraphState Scripted Graph WiringFacts GraphWf InitFacts.

(** ** Definitions *)

Section definitions.
Context {W : Type} `{NodeOps W}.
Implicit Types s : Sys W.

Definition with_current (ix : option nat) (s : Sys W) : Sys W :=
  set_state (set_current (state s) ix) s.

Definition active_at (g : GraphState) (i : nat) : bool := from_option active false (nodes g !! i).

Definition flag (g : GraphState) (i : nat) : bool := default false (node_dirty g !! i).

(** What running the node at [ix] from [s] amounts to: whether it ticks, and
    the nodes its own call marks dirty. *)
Definition observe (ix : nat) (s : Sys W) : bool * list nat :=
  match nodes (state s) !! ix with
  | Some nd =>
    if active nd then
      let '(r, s1) := op_cycle (node nd) (with_current (Some ix) s) in
      (match r with Ok b => b | _ => false end,
       List.filter (fun i => flag (state s1) i && negb (flag (state s) i))
         (seq 0 (length (nodes (state s)))))
    else (false, [])
  | None => (false, [])
  end.

(** A sequence of successful node runs. *)
Inductive cycles : Sys W -> list (nat * (bool * list nat)) -> Sys W -> Prop :=
| cycles_nil s : cycles s [] s
| cycles_cons s ix s1 tr s2 :
    Graph.cycle_node ix s = (Ok tt, s1) -> cycles s1 tr s2 ->
    cycles s ((ix, observe ix s) :: tr) s2.

(** [ix], having behaved as [o], makes [i] dirty: [i] is an active downstream
    and [ix] ticked, or the node marked it itself. *)
Definition causes (g : GraphState) (ix : nat) (o : bool * list nat) (i : nat) : Prop :=
  i ∈ o.2 \/ (o.1 = true /\ mkEdge i true ∈ downstreams_at g ix).

(** The result of a run that did not succeed comes from a node's call. *)
Definition node_failure (r : Res unit) : Prop :=
  exists ix nd s r0 s1, nodes (state s) !! ix = Some nd /\
    op_cycle (node nd) (with_current (Some ix) s) = (r0, s1) /\ is_ok r0 = false /\
    match r0 with
    | Ok _ => False
    | Err e => r = Err (NodeContext "cycle" ix e)
    | Panic w => r = Panic w
    | OutOfFuel => r = OutOfFuel
    end.

(** The invariant of running the node at [ix]. *)
Record node_inv (ix : nat) (g g' : GraphState) : Prop := {
  ni_wf : graph_wf g';
  ni_dirty : dirty_ok g';
  ni_frame : frame g g';
  ni_grows : grows (layer_at g ix) g g';
  ni_ticked i : i <> ix -> node_ticked g' !! i = node_ticked g !! i }.
End definitions.

(** ** Running one node *)

Section node_run.
Context {W : Type} `{NodeLaws W}.
Implicit Types (s : Sys W) (g : GraphState).

Lemma call_inv_node ix g g' :
  graph_wf g -> dirty_ok g -> ix < length (nodes g) -> call_inv ix g g' -> node_inv ix g g'.
Proof.
  intros Hw Hd Hi [W1 D1 F1 G1 T1 _]. split; [by auto|by auto|done|by auto|]. intros. by rewrite T1.
Qed.

Lemma layer_at_frame g g' i : frame g g' -> layer_at g' i = layer_at g i.
Proof. intros Hf. unfold layer_at. by rewrite (fm_nodes _ _ Hf). Qed.

Lemma downstreams_at_frame g g' i : frame g g' -> downstreams_at g' i = downstreams_at g i.
Proof. intros Hf. unfold downstreams_at. by rewrite (fm_nodes _ _ Hf). Qed.

Lemma node_inv_trans ix g1 g2 g3 : node_inv ix g1 g2 -> node_inv ix g2 g3 -> node_inv ix g1 g3.
Proof.
  intros [W1 D1 F1 G1 T1] [W2 D2 F2 G2 T2]. split; [done..|by etransitivity| |].
  - etransitivity; [exact G1|]. by rewrite <-(layer_at_frame _ _ ix F1).
  - intros i Hi. by rewrite T2, T1.
Qed.

(** Changing only the current index or the ticked flag of [ix]. *)
Lemma node_inv_current ix g c : graph_wf g -> dirty_ok g -> node_inv ix g (set_current g c).
Proof.
  intros Hw Hd. split; [by apply (graph_wf_same g)|by apply (dirty_ok_same g)|done|done|done].
Qed.

Lemma node_inv_ticked ix g :
  graph_wf g -> dirty_ok g -> node_inv ix g (set_node_ticked g (<[ix := true]> (node_ticked g))).
Proof.
  intros Hw Hd.
  assert (Hf : frame g (set_node_ticked g (<[ix := true]> (node_ticked g))))
    by (split; try done; simpl; by rewrite length_insert).
  split; [by apply (graph_wf_same g)|by apply (dirty_ok_same g)|done|done|].
  intros i Hi. simpl. by rewrite list_lookup_insert_ne.
Qed.

(** Marking the active downstreams. *)
Lemma mark_downstream_spec ix g k e s :
  state s = g -> graph_wf g -> dirty_ok g -> active_at g ix = true ->
  downstreams_at g ix !! k = Some e ->
  exists g', Graph.mark_downstream ix k s = (Ok tt, set_state g' s) /\
    node_inv ix g g' /\ node_ticked g' = node_ticked g /\
    forall i, dirty g' i <-> dirty g i \/ e = mkEdge i true.
Proof.
  intros <- Hw Hd Hac He. unfold downstreams_at in He. unfold active_at in Hac.
  destruct (nodes (state s) !! ix) as [nd|] eqn:Hnd; [|done]. simpl in He, Hac.
  assert (Hin : e ∈ downstreams nd) by by eapply list_elem_of_lookup_2.
  pose proof (gw_down _ Hw _ _ _ Hnd Hin) as Hlt.
  pose proof (gw_down_layer _ Hw _ _ _ Hnd Hac Hin) as Hlay.
  unfold Graph.mark_downstream, node_at, at_index, mbind, get_state, mlift. rewrite Hnd, He.
  destruct e as [j []]; simpl in *.
  - destruct (mark_dirty_spec _ j Hw Hd Hlt) as (g' & He' & Hw' & Hd' & Hf & Hdi & Hg & Ht & _).
    exists g'. unfold Graph.mark_dirty, on_state. rewrite He'. split_and!; [done| |done|].
    + split; [done..| |by intros; rewrite Ht]. apply Hg. unfold layer_at at 1. by rewrite Hnd.
    + intros i. rewrite Hdi. split; [intros [->|?]; auto|intros [?|[= ->]]; auto].
  - exists (state s). destruct s. split_and!; [done| |done|].
    + split; try done.
    + simpl. intros i. split; [by left|by intros [?|[=]]].
Qed.

Lemma mark_downstreams_spec ix g s ks :
  state s = g -> graph_wf g -> dirty_ok g -> active_at g ix = true -> Forall (fun k => k < length (downstreams_at g ix)) ks ->
  exists g', mfor ks (Graph.mark_downstream ix) s = (Ok tt, set_state g' s) /\
    node_inv ix g g' /\ node_ticked g' = node_ticked g /\
    forall i, dirty g' i <->
      dirty g i \/ exists k, k ∈ ks /\ downstreams_at g ix !! k = Some (mkEdge i true).
Proof.
  revert g s. induction ks as [|k ks IH]; intros g s Hs Hw Hd Hac Hks.
  - exists g. subst g. destruct s. split_and!; [done|by split|done|].
    simpl. intros i. split; [by left|]. intros [?|(k & Hk & _)]; [done|].
    by apply not_elem_of_nil in Hk.
  - apply Forall_cons in Hks as [[e He]%lookup_lt_is_Some_2 Hks].
    destruct (mark_downstream_spec ix g k e s Hs Hw Hd Hac He) as (g1 & Hr1 & Hi1 & Ht1 & Hd1).
    pose proof Hi1 as [Hw1 Hdk1 Hf1 _ _].
    destruct (IH g1 (set_state g1 s) eq_refl Hw1 Hdk1) as (g2 & Hr2 & Hi2 & Ht2 & Hd2).
    { unfold active_at in *. by rewrite (fm_nodes _ _ Hf1). }
    { by rewrite (downstreams_at_frame _ _ _ Hf1). }
    exists g2. simpl. unfold mbind. rewrite Hr1. split_and!; [done|by eapply node_inv_trans|congruence|].
    intros i. rewrite Hd2, Hd1, (downstreams_at_frame _ _ _ Hf1). split.
    + intros [[?| ->]|(k' & ? & ?)]; [by left|right; exists k; set_solver|right; exists k'; set_solver].
    + intros [?|(k' & Hk & He')]; [by auto|]. apply elem_of_cons in Hk as [->|Hk]; [|by eauto].
      left. right. congruence.
Qed.

Lemma all_downstreams_dirty g g' ix (P : nat -> Prop) :
  (forall i, dirty g' i <-> P i \/ exists k, k ∈ seq 0 (length (downstreams_at g ix)) /\
     downstreams_at g ix !! k = Some (mkEdge i true)) ->
  forall i, dirty g' i <-> P i \/ mkEdge i true ∈ downstreams_at g ix.
Proof.
  intros Hd i. rewrite Hd, list_elem_of_lookup. apply or_iff_compat_l. split.
  - intros (k & _ & Hk). by exists k.
  - intros (k & Hk). exists k. split; [|done]. apply elem_of_seq. apply lookup_lt_Some in Hk. lia.
Qed.

Lemma flag_dirty g i : flag g i = true <-> dirty g i.
Proof. unfold flag, dirty. destruct (node_dirty g !! i) as [[]|]; naive_solver. Qed.

Lemma dirty_lt g i : graph_wf g -> dirty g i -> i < length (nodes g).
Proof. intros Hw Hd. rewrite <-(gw_dirty_len _ Hw). by eapply lookup_lt_Some. Qed.

Lemma observed_marks s g1 i :
  graph_wf (state s) -> graph_wf g1 -> frame (state s) g1 ->
  (dirty (state s) i -> dirty g1 i) ->
  dirty g1 i <-> dirty (state s) i \/
    i ∈ List.filter (fun i => flag g1 i && negb (flag (state s) i)) (seq 0 (length (nodes (state s)))).
Proof.
  intros Hw Hw1 Hf Hmono. rewrite list_elem_of_In, filter_In, <-list_elem_of_In, elem_of_seq.
  rewrite andb_true_iff, negb_true_iff, <-not_true_iff_false, !flag_dirty.
  split; [|naive_solver]. intros Hd.
  destruct (flag (state s) i) eqn:E; [left; by apply flag_dirty|right].
  apply not_true_iff_false in E. rewrite flag_dirty in E. split_and!; [lia| |done|done].
  apply dirty_lt in Hd; [|done]. by rewrite (fm_nodes _ _ Hf) in Hd.
Qed.

(** [cycle_node] as one expression. *)
Lemma cycle_node_eq ix s nd :
  nodes (state s) !! ix = Some nd ->
  Graph.cycle_node ix s =
  if active nd then
    let '(r, s1) := op_cycle (node nd) (with_current (Some ix) s) in
    match r with
    | Ok true =>
      mbind (on_state (GraphState.set_ticked ix)) (fun _ =>
        mbind (node_at ix) (fun nd =>
          for_range (length (downstreams nd)) (Graph.mark_downstream ix)))
        (with_current None s1)
    | Ok false => (Ok tt, with_current None s1)
    | Err e => (Err (NodeContext "cycle" ix e), with_current None s1)
    | Panic w => (Panic w, s1)
    | OutOfFuel => (OutOfFuel, s1)
    end
  else (Ok tt, s).
Proof.
  intros Hnd. unfold Graph.cycle_node, node_at, at_index, get_state, mlift. unfold mbind at 1 2.
  rewrite Hnd. destruct (active nd); [|done]. simpl.
  unfold mbind at 1, Graph.set_current_node at 1, modify_state, on_state at 1, mmodify. simpl.
  unfold mbind at 1, mcatch, with_current.
  destruct (op_cycle (node nd) _) as [[b|e|w|] s1]; [destruct b|..]; done.
Qed.

(** After the call of the node at [ix], before the engine acts on its result. *)
Lemma after_call ix s nd r s1 :
  graph_wf (state s) -> dirty_ok (state s) -> nodes (state s) !! ix = Some nd ->
  op_cycle (node nd) (with_current (Some ix) s) = (r, s1) ->
  node_inv ix (state s) (state s1) /\ node_ticked (state s1) = node_ticked (state s) /\
  forall i, dirty (state s1) i <-> dirty (state s) i \/
    i ∈ List.filter (fun i => flag (state s1) i && negb (flag (state s) i))
          (seq 0 (length (nodes (state s)))).
Proof.
  intros Hw Hd Hnd Hop.
  pose proof (law_cycle (with_current (Some ix) s) _ ix nd r s1 eq_refl Hnd eq_refl Hop) as Hsteps.
  apply api_steps_inv in Hsteps.
  pose proof (node_inv_current ix (state s) (Some ix) Hw Hd) as Hi0.
  pose proof (lookup_lt_Some _ _ _ Hnd) as Hlt.
  assert (Hi : node_inv ix (state s) (state s1)).
  { eapply node_inv_trans; [exact Hi0|]. destruct Hi0. by apply call_inv_node. }
  split_and!; [done|apply Hsteps|]. intros i.
  apply observed_marks; [done|apply Hi..|]. intros Hdi. apply (ni_grows _ _ _ Hi). done.
Qed.

Lemma cycle_node_spec ix s r s' :
  graph_wf (state s) -> dirty_ok (state s) -> ix < length (nodes (state s)) ->
  Graph.cycle_node ix s = (r, s') ->
  node_inv ix (state s) (state s') /\
  (r = Ok tt ->
    (forall i, dirty (state s') i <-> dirty (state s) i \/ causes (state s) ix (observe ix s) i) /\
    node_ticked (state s') !! ix =
      if (observe ix s).1 then Some true else node_ticked (state s) !! ix) /\
  (r <> Ok tt -> node_failure (W:=W) r).
Proof.
  intros Hw Hd Hlt Hrun. destruct (lookup_lt_is_Some_2 _ _ Hlt) as [nd Hnd].
  rewrite (cycle_node_eq _ _ _ Hnd) in Hrun. unfold observe, causes. rewrite Hnd.
  destruct (active nd) eqn:Ha.
  2: { injection Hrun as <- <-. split_and!; [by split|intros _; split; [|done]|done].
       simpl. intros i. split; [by left|]. by intros [?|[?%not_elem_of_nil|[? _]]]. }
  destruct (op_cycle (node nd) (with_current (Some ix) s)) as [r0 s1] eqn:Hop.
  destruct (after_call _ _ _ _ _ Hw Hd Hnd Hop) as (Hi & Ht & Hdi).
  pose proof Hi as [Hw1 Hd1 Hf1 _ _].
  assert (Hin : node_inv ix (state s) (set_current (state s1) None)).
  { eapply node_inv_trans; [exact Hi|by apply node_inv_current]. }
  destruct r0 as [b|e|w|]; [destruct b|..].
  - (* ticked *)
    assert (Hlt1 : ix < length (node_ticked (state s1))).
    { destruct (gw_index _ Hw1) as [-> _]. by rewrite (fm_nodes _ _ Hf1). }
    destruct (lookup_lt_is_Some_2 _ _ Hlt1) as [b Hb].
    set (g2 := set_node_ticked (set_current (state s1) None)
                 (<[ix := true]> (node_ticked (state s1)))).
    assert (Hi2 : node_inv ix (state s) g2).
    { eapply node_inv_trans; [exact Hin|]. destruct Hin. by apply node_inv_ticked. }
    pose proof Hi2 as [Hw2 Hd2 Hf2 _ _].
    unfold mbind, on_state, GraphState.set_ticked, with_current in Hrun. simpl in Hrun.
    rewrite Hb in Hrun. unfold node_at, mbind, get_state, at_index, mlift in Hrun. simpl in Hrun.
    assert (Hnd1 : nodes (state s1) !! ix = Some nd) by by rewrite (fm_nodes _ _ Hf1).
    rewrite Hnd1 in Hrun.
    destruct (mark_downstreams_spec ix g2 (set_state g2 s1) (seq 0 (length (downstreams nd))) eq_refl
      Hw2 Hd2) as (g3 & Hr3 & Hi3 & Ht3 & Hd3).
    { unfold active_at, g2. simpl. by rewrite Hnd1. }
    { unfold downstreams_at, g2. simpl. rewrite Hnd1. simpl.
      apply Forall_forall. intros k Hk. apply elem_of_seq in Hk. lia. }
    assert (Heq : (r, s') = (Ok tt, set_state g3 s1)) by (rewrite <-Hrun; exact Hr3).
    injection Heq as -> ->. simpl. split_and!; [by eapply node_inv_trans| |done].
    intros _. split.
    + intros i. rewrite (downstreams_at_frame _ _ _ Hf2) in Hd3.
      assert (Hd3' : forall i, dirty g3 i <-> dirty (state s1) i \/
                mkEdge i true ∈ downstreams_at (state s) ix).
      { apply all_downstreams_dirty. unfold downstreams_at in *. rewrite Hnd in *. exact Hd3. }
      rewrite Hd3', Hdi. naive_solver.
    + rewrite Ht3. simpl. by rewrite list_lookup_insert_eq.
  - injection Hrun as <- <-. simpl. split_and!; [done| |done]. intros _. rewrite Ht. split; [|done].
    intros i. split; [intros Hx; apply Hdi in Hx; naive_solver|].
    intros Hx. apply Hdi. naive_solver.
  - injection Hrun as <- <-. split_and!; [done|done|]. intros _. exists ix, nd, s, (Err e), s1. done.
  - injection Hrun as <- <-. split_and!; [done|done|]. intros _. exists ix, nd, s, (Panic w), s1. done.
  - injection Hrun as <- <-. split_and!; [done|done|]. intros _. exists ix, nd, s, OutOfFuel, s1. done.
Qed.
End node_run.

(** ** The layer loop *)

Section layers.
Context {W : Type} `{NodeLaws W}.
Implicit Types (s : Sys W) (g : GraphState).

Lemma cycles_app s1 tr1 s2 tr2 s3 :
  cycles s1 tr1 s2 -> cycles s2 tr2 s3 -> cycles s1 (tr1 ++ tr2) s3.
Proof. induction 1; simpl; [done|]. intros. econstructor; eauto. Qed.

(** What a stretch of runs at layers not below [l] preserves. *)
Record stretch (l : nat) (g g' : GraphState) : Prop := {
  st_wf : graph_wf g';
  st_dirty : dirty_ok g';
  st_frame : frame g g';
  st_grows : grows l g g' }.

Lemma stretch_refl l g : graph_wf g -> dirty_ok g -> stretch l g g.
Proof. intros. by split. Qed.

Lemma stretch_trans l g1 g2 g3 : stretch l g1 g2 -> stretch l g2 g3 -> stretch l g1 g3.
Proof. intros [] []. split; [done..|by etransitivity|by etransitivity]. Qed.

Lemma stretch_node l ix g g' : l <= layer_at g ix -> node_inv ix g g' -> stretch l g g'.
Proof.
  intros Hl [W1 D1 F1 [G1 R1] _]. split; [done..|]. split; [done|].
  intros k Hk. apply R1. lia.
Qed.

Lemma stretch_weaken l l' g g' : l' <= l -> stretch l g g' -> stretch l' g g'.
Proof. intros Hl [? ? ? [? R]]. split; try done. split; [done|]. intros. apply R. lia. Qed.

(** Running the entries of row [l] from the [k]-th on. *)
Lemma layer_run l n k s r s' :
  graph_wf (state s) -> dirty_ok (state s) ->
  k + n = length (row_at (state s) l) ->
  mfor (seq k n) (fun i =>
    let! g := get_state in
    let! row := at_index (dirty_nodes_by_layer g) l in
    let! ix := at_index row i in
    Graph.cycle_node ix) s = (r, s') ->
  stretch l (state s) (state s') /\
  ((r = Ok tt /\ exists tr, cycles s tr s' /\ map fst tr = drop k (row_at (state s) l)) \/
   node_failure (W:=W) r).
Proof.
  revert k s. induction n as [|n IH]; intros k s Hw Hd Hk Hrun.
  { injection Hrun as <- <-. split; [by apply stretch_refl|]. left. split; [done|].
    exists []. split; [constructor|]. by rewrite drop_ge by lia. }
  destruct (lookup_lt_is_Some_2 (row_at (state s) l) k) as [ix Hix]; [lia|].
  destruct (do_layer _ Hd l ix) as [Hlay Hlt]; [by eapply list_elem_of_lookup_2|].
  assert (Hrow : dirty_nodes_by_layer (state s) !! l = Some (row_at (state s) l)).
  { unfold row_at in *. by destruct (dirty_nodes_by_layer (state s) !! l). }
  simpl in Hrun. unfold mbind at 1 2 3 4, get_state, at_index, mlift in Hrun.
  rewrite Hrow, Hix in Hrun.
  destruct (Graph.cycle_node ix s) as [r1 s1] eqn:Hc.
  destruct (cycle_node_spec ix s r1 s1 Hw Hd Hlt Hc) as (Hi & _ & Hbad).
  assert (Hst : stretch l (state s) (state s1)) by (eapply stretch_node; [|exact Hi]; lia).
  destruct r1 as [[]|e|w|]; [|injection Hrun as <- <-; split; [done|right; by apply Hbad]..].
  pose proof (gr_rows _ _ _ (st_grows _ _ _ Hst) l ltac:(lia)) as Hsame.
  destruct (IH (S k) s1) as (Hst' & Hres).
  - apply Hst.
  - apply Hst.
  - rewrite Hsame. lia.
  - exact Hrun.
  - split; [by eapply stretch_trans|]. destruct Hres as [(-> & tr & Htr & Hm)|Hf]; [left|by right].
    split; [done|]. exists ((ix, observe ix s) :: tr). split; [by econstructor|].
    simpl. rewrite Hm, Hsame. by rewrite (drop_S _ _ _ Hix).
Qed.

Lemma cycle_layer_run l s r s' :
  graph_wf (state s) -> dirty_ok (state s) -> l < length (dirty_nodes_by_layer (state s)) ->
  Graph.cycle_layer l s = (r, s') ->
  stretch l (state s) (state s') /\
  ((r = Ok tt /\ exists tr, cycles s tr s' /\ map fst tr = row_at (state s') l) \/
   node_failure (W:=W) r).
Proof.
  intros Hw Hd [row Hrow]%lookup_lt_is_Some_2 Hrun.
  assert (Hr : row_at (state s) l = row) by (unfold row_at; by rewrite Hrow).
  unfold Graph.cycle_layer in Hrun. unfold mbind at 1 2, get_state at 1, at_index at 1, mlift in Hrun.
  rewrite Hrow in Hrun.
  destruct (layer_run l (length row) 0 s r s' Hw Hd) as (Hst & Hres); [by rewrite Hr|exact Hrun|].
  split; [done|]. destruct Hres as [(-> & tr & Htr & Hm)|Hf]; [left|by right].
  split; [done|]. exists tr. split; [done|]. rewrite Hm. simpl.
  symmetry. by apply Hst.
Qed.

Lemma layers_run n k s r s' :
  graph_wf (state s) -> dirty_ok (state s) ->
  k + n = length (dirty_nodes_by_layer (state s)) ->
  mfor (seq k n) Graph.cycle_layer s = (r, s') ->
  stretch (k - 1) (state s) (state s') /\
  (forall l, l < k -> row_at (state s') l = row_at (state s) l) /\
  ((r = Ok tt /\ exists tr, cycles s tr s' /\
      map fst tr = concat (map (row_at (state s')) (seq k n))) \/
   node_failure (W:=W) r).
Proof.
  revert k s. induction n as [|n IH]; intros k s Hw Hd Hk Hrun.
  { injection Hrun as <- <-. split; [by apply stretch_refl|]. split; [done|]. left.
    split; [done|]. exists []. split; [constructor|done]. }
  simpl in Hrun. unfold mbind in Hrun at 1.
  destruct (Graph.cycle_layer k s) as [r1 s1] eqn:Hc.
  destruct (cycle_layer_run k s r1 s1 Hw Hd ltac:(lia) Hc) as (Hst & Hres).
  pose proof (st_grows _ _ _ Hst) as [_ Hrows].
  assert (Hst1 : stretch (k - 1) (state s) (state s1)) by (eapply stretch_weaken; [|done]; lia).
  destruct r1 as [[]|e|w|].
  2,3,4: injection Hrun as <- <-; split_and!;
      [done|intros l Hl; apply Hrows; lia|right; destruct Hres as [[? _]|?]; [done|done]].
  destruct Hres as [(_ & tr1 & Htr1 & Hm1)|(? & ? & ? & r0 & ? & _ & _ & _ & Hx)];
    [|by destruct r0].
  destruct (IH (S k) s1) as (Hst' & Hrows' & Hres'); [apply Hst|apply Hst| |exact Hrun|].
  { rewrite (fm_rows_len _ _ (st_frame _ _ _ Hst)). lia. }
  split_and!.
  - eapply stretch_trans; [exact Hst1|]. eapply stretch_weaken; [|exact Hst']. lia.
  - intros l Hl. rewrite Hrows' by lia. apply Hrows. lia.
  - destruct Hres' as [(-> & tr2 & Htr2 & Hm2)|Hf]; [left|by right]. split; [done|].
    exists (tr1 ++ tr2). split; [by eapply cycles_app|].
    rewrite map_app, Hm1, Hm2. simpl. rewrite Hrows' by lia. done.
Qed.

(** ** Reading the trace off the final state *)

Lemma concat_rows_elem g i :
  graph_wf g -> dirty_ok g ->
  i ∈ concat (map (row_at g) (seq 0 (length (dirty_nodes_by_layer g)))) <-> dirty g i.
Proof.
  intros Hw Hd. rewrite elem_of_concat, (do_row _ Hd). split.
  - intros (row & Hrow & Hi). apply list_elem_of_fmap in Hrow as (l & -> & _).
    by destruct (do_layer _ Hd _ _ Hi) as [-> _].
  - intros Hi. destruct (do_layer _ Hd _ _ Hi) as [_ Hlt].
    exists (row_at g (layer_at g i)). split; [|done]. apply list_elem_of_fmap.
    exists (layer_at g i). split; [done|]. apply elem_of_seq. pose proof (layer_at_lt _ _ Hw Hlt). lia.
Qed.

Lemma concat_rows_layer g k n i :
  dirty_ok g -> i ∈ concat (map (row_at g) (seq k n)) -> k <= layer_at g i.
Proof.
  intros Hd (row & Hrow & Hi)%elem_of_concat.
  apply list_elem_of_fmap in Hrow as (l & -> & Hl%elem_of_seq).
  destruct (do_layer _ Hd _ _ Hi) as [-> _]. lia.
Qed.

Lemma concat_rows_nodup g k n :
  dirty_ok g -> NoDup (concat (map (row_at g) (seq k n))).
Proof.
  intros Hd. revert k. induction n as [|n IH]; intros k; simpl; [constructor|].
  apply NoDup_app. split_and!; [apply Hd| |apply IH].
  intros i Hi Hi'. destruct (do_layer _ Hd _ _ Hi) as [Hl _].
  apply concat_rows_layer in Hi'; [lia|done].
Qed.

Lemma concat_rows_sorted g k n :
  dirty_ok g ->
  StronglySorted (fun i j => layer_at g i <= layer_at g j) (concat (map (row_at g) (seq k n))).
Proof.
  intros Hd. revert k. induction n as [|n IH]; intros k; simpl; [constructor|].
  assert (Hk : forall i, i ∈ row_at g k -> layer_at g i = k) by (intros i; apply Hd).
  apply StronglySorted_append; [|apply IH|].
  - revert Hk. generalize (row_at g k). intros row Hk. induction row as [|i row IHr]; constructor.
    + apply IHr. intros j Hj. apply Hk. by right.
    + apply Forall_forall. intros j Hj. rewrite (Hk i), (Hk j); [lia|by right|by left].
  - intros i j Hi Hj. apply concat_rows_layer in Hj; [|done]. rewrite (Hk _ Hi). lia.
Qed.

(** Which nodes a run of the trace makes dirty. *)
Lemma cycles_dirty s tr s' :
  graph_wf (state s) -> dirty_ok (state s) ->
  Forall (fun p => p.1 < length (nodes (state s))) tr -> cycles s tr s' ->
  forall i, dirty (state s') i <->
    dirty (state s) i \/ exists p, p ∈ tr /\ causes (state s) p.1 p.2 i.
Proof.
  intros Hw Hd Hlt Htr. induction Htr as [s|s ix s1 tr s2 Hrun Htr IH]; intros i.
  { split; [by left|]. intros [?|(p & Hp & _)]; [done|by apply not_elem_of_nil in Hp]. }
  apply Forall_cons in Hlt as [Hix Hlt]. simpl in Hix.
  destruct (cycle_node_spec ix s _ s1 Hw Hd Hix Hrun) as (Hi & Hok & _).
  destruct (Hok eq_refl) as [Hd1 _]. pose proof Hi as [Hw1 Hdk1 Hf1 _ _].
  rewrite IH, Hd1; [|done..|by rewrite (fm_nodes _ _ Hf1)].
  assert (Hc : forall p i, causes (state s1) p.1 p.2 i <-> causes (state s) p.1 p.2 i).
  { intros p j. unfold causes. by rewrite (downstreams_at_frame _ _ _ Hf1). }
  split.
  - intros [[?|?]|(p & Hp & Hpc)]; [by left|right; eexists; split; [by left|done]|].
    right. exists p. split; [by right|by apply Hc].
  - intros [?|(p & Hp & Hpc)]; [by auto|]. apply elem_of_cons in Hp as [->|Hp]; [by auto|].
    right. exists p. split; [done|by apply Hc].
Qed.

(** Which ticked flags a run of the trace sets. *)
Lemma cycles_ticked s tr s' ix :
  graph_wf (state s) -> dirty_ok (state s) ->
  Forall (fun p => p.1 < length (nodes (state s))) tr -> cycles s tr s' ->
  node_ticked (state s') !! ix = Some true <->
    node_ticked (state s) !! ix = Some true \/ exists m, (ix, (true, m)) ∈ tr.
Proof.
  intros Hw Hd Hlt Htr. induction Htr as [s|s jx s1 tr s2 Hrun Htr IH].
  { split; [by left|]. intros [?|(m & Hm)]; [done|by apply not_elem_of_nil in Hm]. }
  apply Forall_cons in Hlt as [Hjx Hlt]. simpl in Hjx.
  destruct (cycle_node_spec jx s _ s1 Hw Hd Hjx Hrun) as (Hi & Hok & _).
  destruct (Hok eq_refl) as [_ Ht]. pose proof Hi as [Hw1 Hdk1 Hf1 _ Hti].
  rewrite IH; [|done..|by rewrite (fm_nodes _ _ Hf1)].
  setoid_rewrite elem_of_cons. destruct (decide (ix = jx)) as [->|Hne].
  - rewrite Ht. destruct (observe jx s) as [[] m]; simpl; [|naive_solver].
    split; [intros _; right; exists m; by left|by left].
  - rewrite Hti by done. naive_solver.
Qed.
End layers.

(** ** What a cycle guarantees *)

Section layer_loop.
Context {W : Type} `{NodeLaws W}.
Implicit Types (s : Sys W) (g : GraphState).

(** The trace of a layer loop that ended well. *)
Lemma cycle_layers_trace s r s' :
  graph_wf (state s) -> dirty_ok (state s) -> Graph.cycle_layers s = (r, s') ->
  stretch 0 (state s) (state s') /\
  ((r = Ok tt /\ exists tr, cycles s tr s' /\ map fst tr =
      concat (map (row_at (state s')) (seq 0 (length (dirty_nodes_by_layer (state s')))))) \/
   node_failure (W:=W) r).
Proof.
  intros Hw Hd Hrun.
  destruct (layers_run (length (dirty_nodes_by_layer (state s))) 0 s r s' Hw Hd eq_refl Hrun)
    as (Hst & _ & Hres). split; [exact Hst|].
  destruct Hres as [(-> & tr & Htr & Hm)|?]; [left|by right]. split; [done|].
  exists tr. split; [done|]. rewrite Hm. by rewrite (fm_rows_len _ _ (st_frame _ _ _ Hst)).
Qed.

Lemma trace_in_range s (tr : list (nat * (bool * list nat))) s' :
  graph_wf (state s') -> dirty_ok (state s') -> frame (state s) (state s') ->
  map fst tr = concat (map (row_at (state s')) (seq 0 (length (dirty_nodes_by_layer (state s'))))) ->
  Forall (fun p => p.1 < length (nodes (state s))) tr.
Proof.
  intros Hw Hd Hf Hm. apply Forall_forall. intros p Hp.
  assert (Hin : p.1 ∈ map fst tr) by (apply list_elem_of_fmap; eauto).
  rewrite Hm, concat_rows_elem in Hin by done.
  rewrite <-(fm_nodes _ _ Hf). by apply dirty_lt.
Qed.

Lemma trace_positions g (tr : list (nat * (bool * list nat))) i j p q :
  graph_wf g -> dirty_ok g ->
  map fst tr = concat (map (row_at g) (seq 0 (length (dirty_nodes_by_layer g)))) ->
  (map fst tr : list nat) !! p = Some i -> (map fst tr : list nat) !! q = Some j ->
  layer_at g i < layer_at g j -> p < q.
Proof.
  intros Hw Hd Hm Hp Hq Hlt. rewrite Hm in Hp, Hq.
  eapply (StronglySorted_position (fun a b => layer_at g a <= layer_at g b));
    [by apply concat_rows_sorted|exact Hp|exact Hq|simpl; lia|intros ->; lia].
Qed.
End layer_loop.

(** ** Properties *)

(** C1: glitch freedom. In a cycle each node runs at most once, and when
    several run, a node runs after every one of its upstreams, active or
    passive, that runs in the cycle: it never sees a stale or half-updated
    upstream value. The loop keeps the engine's invariants, whether or not a
    node's call fails. *)
Theorem layer_loop_glitch_free {W} `{NodeLaws W} (s : Sys W) r s' :
  graph_wf (state s) -> dirty_ok (state s) -> Graph.cycle_layers s = (r, s') ->
  graph_wf (state s') /\ dirty_ok (state s') /\
  (r = Ok tt -> exists tr, cycles s tr s' /\ NoDup (map fst tr) /\
     forall p q i j nd e, (map fst tr : list nat) !! p = Some i -> (map fst tr : list nat) !! q = Some j ->
       nodes (state s) !! j = Some nd -> active nd = true -> e ∈ upstreams nd ->
       node_index e = i -> p < q).
Proof.
  intros Hw Hd Hrun. destruct (cycle_layers_trace s r s' Hw Hd Hrun) as ([Hw' Hd' Hf _] & Hres).
  split_and!; [done..|]. intros ->. destruct Hres as [(_ & tr & Htr & Hm)|(? & ? & ? & r0 & ? & _ & _ & _ & Hx)];
    [|by destruct r0].
  exists tr. split_and!; [done|rewrite Hm; by apply concat_rows_nodup|].
  intros p q i j nd e Hp Hq Hj Ha He <-. rewrite <-(fm_nodes _ _ Hf) in Hj.
  eapply (trace_positions (state s')); [done..|].
  unfold layer_at at 2. rewrite Hj. by eapply gw_layer.
Qed.

(** C2: the dispatch is exact. The nodes that run in a cycle are those dirty
    when it begins and those a run of the cycle makes dirty -- the active
    downstreams of a node that ticked, and what a node marked itself -- and no
    other; the ticked flags the loop sets are those of the nodes that ticked.
    If the loop does not end well, it is because a node's call did not. *)
Theorem layer_loop_exact {W} `{NodeLaws W} (s : Sys W) r s' :
  graph_wf (state s) -> dirty_ok (state s) -> Graph.cycle_layers s = (r, s') ->
  (r = Ok tt /\ exists tr, cycles s tr s' /\
     (forall i, i ∈ map fst tr <->
        dirty (state s) i \/ exists ix o, (ix, o) ∈ tr /\ causes (state s) ix o i) /\
     (forall i, node_ticked (state s') !! i = Some true <->
        node_ticked (state s) !! i = Some true \/ exists m, (i, (true, m)) ∈ tr)) \/
  node_failure (W:=W) r.
Proof.
  intros Hw Hd Hrun. destruct (cycle_layers_trace s r s' Hw Hd Hrun) as ([Hw' Hd' Hf _] & Hres).
  destruct Hres as [(-> & tr & Htr & Hm)|Hx]; [left|by right]. split; [done|].
  pose proof (trace_in_range s tr s' Hw' Hd' Hf Hm) as Hlt.
  exists tr. split_and!; [done| |intros i; by apply cycles_ticked].
  intros i. rewrite Hm, concat_rows_elem, (cycles_dirty s tr s' Hw Hd Hlt Htr i) by done.
  split; (intros [?|Hx]; [by left|right]).
  - destruct Hx as ([ix o] & ? & ?). by exists ix, o.
  - destruct Hx as (ix & o & ? & ?). by exists (ix, o).
Qed.

(** ** Witnesses: the source of the diamond is dirty *)

Definition diamond_dirty : Sys Scripts :=
  (on_state (GraphState.mark_dirty 0) diamond_graph).2.

Lemma diamond_graph_ok :
  graph_wf (state diamond_graph) /\ dirty_ok (state diamond_graph) /\
  forall a, registered (state diamond_graph) a <-> reached diamond [4%positive] a.
Proof.
  destruct (new_spec [1; 2; 3; 4]%positive [4%positive] 40 (HistoricalFrom 0) Forever diamond
    env_quiet) as (s & Hrun & _ & [(_ & t & Hini)|[_ Herr]]).
  - apply (bool_decide_unpack _). vm_compute. exact I.
  - by apply closed_by_computation.
  - set_solver.
  - vm_compute. done.
  - vm_compute. lia.
  - unfold diamond_graph. rewrite Hrun. destruct Hini as [? ? ? ? ? Hre ?]. split_and!; [done..|].
    intros a. simpl. rewrite Hre. split; [by intros [[i Hi]|?]|by right].
  - assert (Hx : wiring_error (Graph.new 40 [4%positive] (HistoricalFrom 0) Forever diamond
      env_quiet).2.(state) = Some cycle_error) by by rewrite Hrun. vm_compute in Hx. discriminate.
Qed.

Lemma diamond_dirty_ok : graph_wf (state diamond_dirty) /\ dirty_ok (state diamond_dirty).
Proof.
  destruct diamond_graph_ok as (Hw & Hd & _).
  destruct (mark_dirty_spec (state diamond_graph) 0 Hw Hd) as (g' & Hm & Hw' & Hd' & _).
  { vm_compute. lia. }
  assert (Heq : state diamond_dirty = g') by (unfold diamond_dirty, on_state; rewrite Hm; reflexivity).
  rewrite Heq. split; assumption.
Qed.

Lemma layer_loop_glitch_free_witness :
  exists r s' tr, Graph.cycle_layers diamond_dirty = (r, s') /\ cycles diamond_dirty tr s' /\
    NoDup (map fst tr) /\ is_ok r = true /\ graph_wf (state s').
Proof.
  destruct (Graph.cycle_layers diamond_dirty) as [r s'] eqn:E.
  destruct diamond_dirty_ok as [Hw Hd].
  destruct (layer_loop_glitch_free diamond_dirty r s' Hw Hd E) as (Hw' & _ & Htr).
  assert (Hr : r = Ok tt).
  { change r with (r, s').1. rewrite <-E. vm_compute. reflexivity. }
  destruct (Htr Hr) as (tr & Hc & Hn & _).
  exists r, s', tr. split_and!; [done|exact Hc|exact Hn|by rewrite Hr|exact Hw'].
Defined.

Lemma layer_loop_exact_witness :
  exists s' tr, Graph.cycle_layers diamond_dirty = (Ok tt, s') /\ cycles diamond_dirty tr s' /\
    (forall i, i ∈ map fst tr <-> dirty (state diamond_dirty) i \/
       exists ix o, (ix, o) ∈ tr /\ causes (state diamond_dirty) ix o i) /\
    node_ticked (state s') = [true; true; true; true].
Proof.
  destruct (Graph.cycle_layers diamond_dirty) as [r s'] eqn:E.
  destruct diamond_dirty_ok as [Hw Hd].
  assert (Hr : r = Ok tt).
  { change r with (r, s').1. rewrite <-E. vm_compute. reflexivity. }
  assert (Ht : node_ticked (state s') = [true; true; true; true]).
  { change s' with (r, s').2. rewrite <-E. vm_compute. reflexivity. }
  destruct (layer_loop_exact diamond_dirty r s' Hw Hd E) as [(_ & tr & Hc & Hi & _)|Hx].
  - exists s', tr. rewrite Hr. split_and!; [done|exact Hc|exact Hi|exact Ht].
  - exfalso. subst r. destruct Hx as (? & ? & ? & r0 & ? & _ & _ & _ & Hx). by destruct r0.
Defined.
