(* ===== verification/Scheduling.v ===== *)
(** * Scheduling: what makes a node run in the next cycle
      ([Graph::process_scheduled_callbacks], [Graph::process_callbacks_historical])

    The statements are about the entries of the callback queue as a multiset, so
    they hold for every queue, whatever the sequence numbers in it. *)
From S2P Require Import Prelude NanoTime TimeQueue GraphState Scripted Graph WiringFacts GraphWf InitFacts CycleProps.

(** ** Definitions *)

Definition due_at (t : Z) (e : Entry nat) : bool := (e_time e <=? t)%Z.
Definition late_at (t : Z) (e : Entry nat) : bool := negb (due_at t e).

(** What marking dirty and draining the callback queue leave alone. *)
Record same_but_marks (g g' : GraphState) : Prop := {
  sm_frame : frame g g';
  sm_ticked : node_ticked g' = node_ticked g;
  sm_always : always_callbacks g' = always_callbacks g;
  sm_additions : pending_additions g' = pending_additions g;
  sm_removals : pending_removals g' = pending_removals g;
  sm_current : current_node_index g' = current_node_index g }.

(** The engine time [process_callbacks_historical] sets. *)
Definition historical_time (g : GraphState) : Z :=
  match heap (scheduled_callbacks g), always_callbacks g with
  | [], [] => time g
  | [], _ :: _ => if first_cycle g then time g else NanoTime.add (time g) 1
  | _ :: _, _ =>
    let next := GraphState.next_scheduled_time g in
    if first_cycle g then next else Z.max next (NanoTime.add (time g) 1)
  end.

Definition has_work (g : GraphState) : bool :=
  match heap (scheduled_callbacks g), always_callbacks g with [], [] => false | _, _ => true end.

(** ** Facts about the queue *)

Lemma next_time_min (q : TimeQueue nat) t :
  TimeQueue.next_time q = Some t ->
  (exists e, e ∈ heap q /\ e_time e = t) /\ Forall (fun e => (t <= e_time e)%Z) (heap q).
Proof.
  unfold TimeQueue.next_time. destruct (heap_extract (heap q)) as [[e rest]|] eqn:E; [|done].
  intros [= <-]. pose proof (heap_extract_perm _ _ _ E) as Hp. pose proof (heap_extract_min _ _ _ E) as Hm.
  split; [exists e; split; [|done]; rewrite Hp; by left|].
  rewrite Hp. constructor; [lia|]. eapply Forall_impl; [exact Hm|]. unfold entry_lt. simpl. intros; lia.
Qed.

Lemma pop_if_pending_cases (q : TimeQueue nat) now :
  (TimeQueue.pop_if_pending q now = (None, q) /\ Forall (fun e => (now < e_time e)%Z) (heap q)) \/
  (exists e q', TimeQueue.pop_if_pending q now = (Some (e_value e), q') /\ (e_time e <= now)%Z /\
     Permutation (heap q) (e :: heap q')).
Proof.
  unfold TimeQueue.pop_if_pending, TimeQueue.pop.
  destruct (TimeQueue.next_time q) as [t|] eqn:Et.
  - pose proof (next_time_min _ _ Et) as [_ Hall]. unfold TimeQueue.next_time in Et.
    destruct (heap_extract (heap q)) as [[e rest]|] eqn:E; [|done]. injection Et as <-.
    destruct (Z.leb_spec (e_time e) now).
    + right. eexists e, _. split; [reflexivity|]. split; [done|]. by apply heap_extract_perm.
    + left. split; [done|]. eapply Forall_impl; [exact Hall|]. simpl. intros; lia.
  - left. split; [done|]. unfold TimeQueue.next_time in Et.
    destruct (heap_extract (heap q)) as [[? ?]|] eqn:E; [done|].
    apply heap_extract_none in E as ->. constructor.
Qed.

(** ** Draining the queue *)

Section drain.
Context {W : Type} `{NodeOps W}.
Implicit Types (s : Sys W) (g : GraphState).

#[local] Instance same_but_marks_preorder : PreOrder same_but_marks.
Proof.
  split; [intros g; by split|]. intros g1 g2 g3 [F1 ? ? ? ? ?] [F2 ? ? ? ? ?].
  split; [by etransitivity|congruence..].
Qed.

Lemma marked_same g j : same_but_marks g (marked j g).
Proof. split; [apply marked_frame|done..]. Qed.

(** [mark_dirty] on an index of the graph, seen from the engine's loops. *)
Lemma mark_spec s j :
  graph_wf (state s) -> dirty_ok (state s) -> j < length (nodes (state s)) ->
  exists g', Graph.mark_dirty j s = (Ok tt, set_state g' s) /\ graph_wf g' /\ dirty_ok g' /\
    same_but_marks (state s) g' /\ scheduled_callbacks g' = scheduled_callbacks (state s) /\
    forall i, dirty g' i <-> i = j \/ dirty (state s) i.
Proof.
  intros Hw Hd Hj. unfold Graph.mark_dirty, on_state.
  destruct (mark_dirty_run (state s) j Hw Hj) as [[-> Hdj]|[-> Hdj]].
  - exists (state s). split_and!; try done. intros i. naive_solver.
  - exists (marked j (state s)). split_and!; try done.
    + by apply marked_wf.
    + apply marked_ok; try done. unfold dirty. congruence.
    + apply marked_same.
    + intros i. apply marked_dirty. by rewrite (gw_dirty_len _ Hw).
Qed.

Lemma set_scheduled_wf g q :
  graph_wf g -> Forall (fun e => e_value e < length (nodes g)) (heap q) ->
  graph_wf (set_scheduled g q).
Proof. intros Hw Hq. apply (graph_wf_frame g); [done|done|apply Hw|done|apply Hw]. Qed.

Lemma drain_nothing rounds now p s :
  Forall (fun e => (now < e_time e)%Z) (heap (scheduled_callbacks (state s))) ->
  TimeQueue.pop_if_pending (scheduled_callbacks (state s)) now = (None, scheduled_callbacks (state s)) ->
  Graph.drain_scheduled rounds now p s =
    (Ok (p || existsb (due_at now) (heap (scheduled_callbacks (state s)))), s) /\
  List.filter (late_at now) (heap (scheduled_callbacks (state s))) =
    heap (scheduled_callbacks (state s)) /\
  forall e, e ∈ heap (scheduled_callbacks (state s)) -> due_at now e = false.
Proof.
  intros Hall Hpop.
  assert (Hdue : Forall (fun e => due_at now e = false) (heap (scheduled_callbacks (state s)))).
  { eapply Forall_impl; [exact Hall|]. intros e He. unfold due_at. simpl in He. lia. }
  split_and!.
  - rewrite existsb_none, orb_false_r by done.
    destruct rounds; simpl; unfold mbind, get_state; by rewrite Hpop.
  - apply filter_all. eapply Forall_impl; [exact Hdue|]. intros e He. unfold late_at. by rewrite He.
  - by apply Forall_forall.
Qed.

Lemma drain_scheduled_spec rounds now p s :
  graph_wf (state s) -> dirty_ok (state s) ->
  length (heap (scheduled_callbacks (state s))) <= rounds ->
  exists g', Graph.drain_scheduled rounds now p s =
      (Ok (p || existsb (due_at now) (heap (scheduled_callbacks (state s)))), set_state g' s) /\
    graph_wf g' /\ dirty_ok g' /\ same_but_marks (state s) g' /\
    Permutation (heap (scheduled_callbacks g'))
      (List.filter (late_at now) (heap (scheduled_callbacks (state s)))) /\
    forall i, dirty g' i <-> dirty (state s) i \/
      exists e, e ∈ heap (scheduled_callbacks (state s)) /\ due_at now e = true /\ e_value e = i.
Proof.
  revert p s. induction rounds as [|rounds IH]; intros p s Hw Hd Hlen.
  all: destruct (pop_if_pending_cases (scheduled_callbacks (state s)) now)
    as [[Hpop Hall]|(e & q' & Hpop & He & Hp)].
  1,3: match goal with |- context [Graph.drain_scheduled ?r _ _ _] =>
      destruct (drain_nothing r now p s Hall Hpop) as (Hrun & Hf & Hn) end;
    exists (state s); split_and!; [rewrite Hrun; by destruct s|done|done|reflexivity|by rewrite Hf|];
    intros i; split; [by left|]; intros [?|(e & Hin & He & _)]; [done|]; by rewrite (Hn e Hin) in He.
  { apply Permutation_length in Hp. simpl in Hp. lia. }
  assert (Hdue : due_at now e = true) by (unfold due_at; lia).
  assert (Hrange : Forall (fun e => e_value e < length (nodes (state s))) (e :: heap q')).
  { rewrite <-Hp. apply Hw. }
  apply Forall_cons in Hrange as [Hev Hq'].
  set (s1 := set_state (set_scheduled (state s) q') s).
  destruct (mark_spec s1 (e_value e)) as (g2 & Hm & Hw2 & Hd2 & Hs2 & Hq2 & Hdi2).
  { by apply set_scheduled_wf. }
  { by apply (dirty_ok_same (state s)). }
  { done. }
  destruct (IH true (set_state g2 s1)) as (g' & Hrun & Hw' & Hd' & Hs' & Hq & Hdi); [done|done| |].
  { simpl. rewrite Hq2. simpl. apply Permutation_length in Hp. simpl in Hp. lia. }
  exists g'. simpl in Hq. rewrite Hq2 in Hq. split_and!; [| done|done| | |].
  - simpl. unfold mbind at 1, get_state. rewrite Hpop.
    erewrite mbind_ok by reflexivity. fold s1. erewrite mbind_ok by exact Hm. rewrite Hrun.
    rewrite (existsb_perm _ _ _ Hp). simpl. rewrite Hdue. by rewrite orb_true_r.
  - etransitivity; [|exact Hs']. etransitivity; [|exact Hs2]. by split.
  - rewrite Hq. simpl. rewrite (filter_perm _ _ _ Hp). simpl. unfold late_at at 2. by rewrite Hdue.
  - intros i. rewrite Hdi. simpl. rewrite Hdi2, Hq2. simpl. setoid_rewrite Hp.
    setoid_rewrite elem_of_cons. split.
    + intros [[->|?]|(e' & ? & ? & ?)]; [right; exists e; auto|by left|right; exists e'; auto].
    + intros [?|(e' & [->|?] & ? & ?)]; [by auto|by auto|right; exists e'; auto].
Qed.

(** The loop over [always_callbacks]. *)
Lemma mark_always_spec n k s :
  graph_wf (state s) -> dirty_ok (state s) -> k + n = length (always_callbacks (state s)) ->
  exists g', mfor (seq k n) (fun i =>
      let! g := get_state in
      let! ix := at_index (always_callbacks g) i in
      Graph.mark_dirty ix) s = (Ok tt, set_state g' s) /\
    graph_wf g' /\ dirty_ok g' /\ same_but_marks (state s) g' /\
    scheduled_callbacks g' = scheduled_callbacks (state s) /\
    forall i, dirty g' i <-> dirty (state s) i \/ i ∈ drop k (always_callbacks (state s)).
Proof.
  revert k s. induction n as [|n IH]; intros k s Hw Hd Hk.
  - exists (state s). split_and!; try done; [by destruct s|].
    intros i. rewrite drop_ge by lia. split; [by left|]. by intros [?|?%not_elem_of_nil].
  - destruct (lookup_lt_is_Some_2 (always_callbacks (state s)) k) as [ix Hix]; [lia|].
    assert (Hlt : ix < length (nodes (state s))).
    { pose proof (gw_always _ Hw) as Ha. rewrite Forall_lookup in Ha. by eapply Ha. }
    destruct (mark_spec s ix Hw Hd Hlt) as (g1 & Hm & Hw1 & Hd1 & Hs1 & Hq1 & Hdi1).
    pose proof (sm_always _ _ Hs1) as Ha1.
    destruct (IH (S k) (set_state g1 s)) as (g' & Hrun & Hw' & Hd' & Hs' & Hq' & Hdi');
      [done|done|simpl; rewrite Ha1; lia|].
    exists g'. split_and!; [|done|done|by etransitivity|simpl in *; congruence|].
    + simpl. unfold mbind at 1. unfold mbind at 1, get_state at 1, mbind at 1, at_index at 1, mlift.
      rewrite Hix, Hm. exact Hrun.
    + intros i. rewrite Hdi'. simpl. rewrite Hdi1, Ha1, (drop_S _ _ _ Hix), elem_of_cons. naive_solver.
Qed.

Lemma scheduled_callbacks_spec s :
  graph_wf (state s) -> dirty_ok (state s) ->
  exists g', Graph.process_scheduled_callbacks s =
      (Ok (negb (Nat.eqb (length (always_callbacks (state s))) 0) ||
           existsb (due_at (time (state s))) (heap (scheduled_callbacks (state s)))), set_state g' s) /\
    graph_wf g' /\ dirty_ok g' /\ same_but_marks (state s) g' /\
    Permutation (heap (scheduled_callbacks g'))
      (List.filter (late_at (time (state s))) (heap (scheduled_callbacks (state s)))) /\
    forall i, dirty g' i <-> dirty (state s) i \/ i ∈ always_callbacks (state s) \/
      exists e, e ∈ heap (scheduled_callbacks (state s)) /\ due_at (time (state s)) e = true /\
        e_value e = i.
Proof.
  intros Hw Hd.
  destruct (mark_always_spec (length (always_callbacks (state s))) 0 s Hw Hd eq_refl)
    as (g1 & Hrun1 & Hw1 & Hd1 & Hs1 & Hq1 & Hdi1).
  destruct (drain_scheduled_spec (length (heap (scheduled_callbacks (state s)))) (time (state s))
    (negb (Nat.eqb (length (always_callbacks (state s))) 0)) (set_state g1 s))
    as (g' & Hrun & Hw' & Hd' & Hs' & Hq' & Hdi'); [done|done|simpl; by rewrite Hq1|].
  exists g'. simpl in *. rewrite Hq1 in *. split_and!; [|done|done|by etransitivity|done|].
  - unfold Graph.process_scheduled_callbacks. unfold mbind at 1, get_state at 1, for_range.
    erewrite mbind_ok by exact Hrun1. exact Hrun.
  - intros i. rewrite Hdi', Hdi1. simpl. naive_solver.
Qed.
End drain.

(** ** One step of historical scheduling *)

(** What a scheduling step leaves alone. *)
Record same_but_time (g g' : GraphState) : Prop := {
  sb_wall : wall_time g' = wall_time g;
  sb_last : is_last_cycle g' = is_last_cycle g;
  sb_index : node_to_index g' = node_to_index g;
  sb_mode : run_mode g' = run_mode g;
  sb_for : run_for g' = run_for g;
  sb_start : start_time g' = start_time g;
  sb_nodes : nodes g' = nodes g;
  sb_error : wiring_error g' = wiring_error g;
  sb_ready : ready_callbacks g' = ready_callbacks g;
  sb_ticked : node_ticked g' = node_ticked g;
  sb_always : always_callbacks g' = always_callbacks g;
  sb_additions : pending_additions g' = pending_additions g;
  sb_removals : pending_removals g' = pending_removals g;
  sb_current : current_node_index g' = current_node_index g }.

(** No other thread has sent, or now sends, on the ready channel. *)
Definition quiet {W} (s : Sys W) : Prop :=
  ready_callbacks (state s) = [] /\ env_arrivals (env s) (env_polls (env s)) = [].

Definition polled (e : Env) : Env :=
  mkEnv (env_offset e) (env_mono e) (env_reads e)
    (env_arrivals e) (S (env_polls e)) (env_wait e) (env_waits e).

Section historical.
Context {W : Type} `{NodeOps W}.
Implicit Types (s : Sys W) (g : GraphState).

(** The state [process_scheduled_callbacks] is called in. *)
Definition advance_clock (g : GraphState) : GraphState :=
  if has_work g then set_time (set_first_cycle g false) (historical_time g) else g.

Lemma historical_eq s :
  quiet s ->
  Graph.process_callbacks_historical s =
  Graph.process_scheduled_callbacks (mkSys (world s) (advance_clock (state s)) (polled (env s))).
Proof.
  intros [Hr Ha]. unfold Graph.process_callbacks_historical.
  assert (Hp : poll_ready s = (Ok tt, mkSys (world s) (state s) (polled (env s)))).
  { unfold poll_ready, polled. rewrite Ha, Hr. destruct s as [? [] ?]. simpl in *. by subst. }
  erewrite mbind_ok by exact Hp. unfold mbind at 1, get_state at 1. simpl. rewrite Hr.
  unfold advance_clock, has_work, historical_time, GraphState.has_scheduled_callbacks,
    TimeQueue.is_empty, modify_state, on_state, mmodify.
  destruct (heap (scheduled_callbacks (state s))); destruct (always_callbacks (state s));
    simpl; try done; destruct (first_cycle (state s)) eqn:Ef; simpl; try done;
    unfold mbind at 1; simpl; try rewrite Ef; try done.
  all: destruct s as [? [] ?]; simpl in *; subst; rewrite ?Z.max_id; done.
Qed.

Lemma advance_clock_facts g :
  same_but_time g (advance_clock g) /\ node_dirty (advance_clock g) = node_dirty g /\
  dirty_nodes_by_layer (advance_clock g) = dirty_nodes_by_layer g /\
  scheduled_callbacks (advance_clock g) = scheduled_callbacks g /\
  time (advance_clock g) = historical_time g /\
  first_cycle (advance_clock g) = first_cycle g && negb (has_work g).
Proof.
  unfold advance_clock. destruct (has_work g) eqn:E; split_and!; try by split.
  - simpl. by rewrite andb_false_r.
  - unfold historical_time, has_work in *.
    destruct (heap (scheduled_callbacks g)), (always_callbacks g); done.
  - simpl. by rewrite andb_true_r.
Qed.

Lemma graph_wf_clock g t b : graph_wf g -> graph_wf (set_time (set_first_cycle g b) t).
Proof. by intros []. Qed.

Lemma same_marks_time g g1 g2 :
  same_but_time g g1 -> same_but_marks g1 g2 -> same_but_time g g2.
Proof. intros [] [[] ? ? ? ? ?]. split; congruence. Qed.

Lemma due_exists g :
  has_work g = true ->
  negb (Nat.eqb (length (always_callbacks g)) 0) ||
    existsb (due_at (historical_time g)) (heap (scheduled_callbacks g)) = true.
Proof.
  unfold has_work, historical_time. destruct (always_callbacks g) as [|a al] eqn:Ea; simpl; [|done].
  intros Hw. destruct (heap (scheduled_callbacks g)) as [|e h] eqn:Eh; [done|]. rewrite <-Eh.
  destruct (TimeQueue.next_time (scheduled_callbacks g)) as [t|] eqn:Et.
  - destruct (next_time_min _ _ Et) as [(e' & Hin & He') _]. apply existsb_exists. exists e'.
    split; [by apply list_elem_of_In|]. unfold due_at, GraphState.next_scheduled_time. rewrite Et.
    simpl. destruct (first_cycle g); lia.
  - unfold TimeQueue.next_time in Et. destruct (heap_extract _) as [[? ?]|] eqn:E; [done|].
    apply heap_extract_none in E. congruence.
Qed.

Lemma historical_spec s :
  graph_wf (state s) -> dirty_ok (state s) -> quiet s ->
  exists g', Graph.process_callbacks_historical s =
      (Ok (has_work (state s)), mkSys (world s) g' (polled (env s))) /\
    graph_wf g' /\ dirty_ok g' /\ same_but_time (state s) g' /\
    time g' = historical_time (state s) /\
    first_cycle g' = first_cycle (state s) && negb (has_work (state s)) /\
    Permutation (heap (scheduled_callbacks g'))
      (List.filter (late_at (time g')) (heap (scheduled_callbacks (state s)))) /\
    forall i, dirty g' i <-> dirty (state s) i \/ i ∈ always_callbacks (state s) \/
      exists e, e ∈ heap (scheduled_callbacks (state s)) /\ due_at (time g') e = true /\ e_value e = i.
Proof.
  intros Hw Hd Hq. rewrite (historical_eq _ Hq).
  destruct (advance_clock_facts (state s)) as (Hst & Hnd & Hrw & Hsc & Ht & Hfc).
  destruct (scheduled_callbacks_spec (mkSys (world s) (advance_clock (state s)) (polled (env s))))
    as (g' & Hrun & Hw' & Hd' & Hs' & Hq' & Hdi').
  { simpl. unfold advance_clock. destruct (has_work (state s)); [by apply graph_wf_clock|done]. }
  { by apply (dirty_ok_same (state s)); [apply Hst|..]. }
  simpl in *. rewrite (sb_always _ _ Hst), Hsc, Ht in *.
  pose proof (fm_time _ _ (sm_frame _ _ Hs')) as Htg. rewrite Ht in Htg.
  exists g'. rewrite Htg. split_and!; try done.
  - rewrite Hrun. unfold set_state. simpl. f_equal. f_equal.
    destruct (has_work (state s)) eqn:E; [by apply due_exists|].
    unfold has_work in E. destruct (heap _), (always_callbacks _); done.
  - by eapply same_marks_time.
  - rewrite (fm_first _ _ (sm_frame _ _ Hs')). done.
  - intros i. rewrite Hdi'. unfold dirty. by rewrite Hnd.
Qed.

(** The clock advances by at least a nanosecond after the first cycle. *)
Lemma historical_time_advances g :
  is_u64 (time g) -> (time g < u64_max)%Z -> first_cycle g = false -> has_work g = true ->
  (time g < historical_time g)%Z.
Proof.
  intros Hu Hlt Hf Hwk. unfold historical_time, has_work in *. rewrite Hf in *.
  assert (Ha : NanoTime.add (time g) 1 = (time g + 1)%Z).
  { apply add_exact. unfold is_u64 in *. lia. }
  destruct (heap (scheduled_callbacks g)), (always_callbacks g); rewrite ?Ha; try done; lia.
Qed.
End historical.

(** ** Properties *)

(** One step of historical scheduling. With nothing on the ready channel it
    never fails, and reports progress exactly when a callback is pending or a
    node ticks always. The clock moves to the earliest pending time, but by at
    least one nanosecond after the first cycle -- time is strictly monotonic.
    Exactly the nodes with a callback due by then, and the always-nodes, join
    the dirty ones; exactly the due callbacks leave the queue. *)
Theorem historical_step_correct {W} `{NodeOps W} (s : Sys W) :
  graph_wf (state s) -> dirty_ok (state s) -> quiet s ->
  exists g', Graph.process_callbacks_historical s =
      (Ok (has_work (state s)), mkSys (world s) g' (polled (env s))) /\
    graph_wf g' /\ dirty_ok g' /\
    (forall e, e ∈ heap (scheduled_callbacks g') <->
       e ∈ heap (scheduled_callbacks (state s)) /\ (time g' < e_time e)%Z) /\
    (forall i, dirty g' i <-> dirty (state s) i \/ i ∈ always_callbacks (state s) \/
       exists e, e ∈ heap (scheduled_callbacks (state s)) /\ (e_time e <= time g')%Z /\ e_value e = i) /\
    (first_cycle (state s) = true -> heap (scheduled_callbacks (state s)) <> [] ->
       time g' = GraphState.next_scheduled_time (state s)) /\
    (first_cycle (state s) = false -> has_work (state s) = true -> is_u64 (time (state s)) ->
       (time (state s) < u64_max)%Z -> (time (state s) < time g')%Z /\
       (heap (scheduled_callbacks (state s)) <> [] ->
        time g' = Z.max (GraphState.next_scheduled_time (state s)) (time (state s) + 1))).
Proof.
  intros Hw Hd Hq. destruct (historical_spec s Hw Hd Hq)
    as (g' & Hrun & Hw' & Hd' & _ & Ht & _ & Hqp & Hdi).
  exists g'. split_and!; [done..| | | |].
  - intros e. rewrite Hqp, list_elem_of_In, filter_In, <-list_elem_of_In. unfold late_at, due_at.
    rewrite negb_true_iff, Z.leb_gt. done.
  - intros i. rewrite Hdi. unfold due_at. by setoid_rewrite Z.leb_le.
  - intros Hf Hne. rewrite Ht. unfold historical_time. rewrite Hf.
    destruct (heap (scheduled_callbacks (state s))), (always_callbacks (state s)); done.
  - intros Hf Hwk Hu Hlt. split; [rewrite Ht; by apply historical_time_advances|].
    intros Hne. rewrite Ht. unfold historical_time. rewrite Hf.
    replace (NanoTime.add (time (state s)) 1) with (time (state s) + 1)%Z;
      [destruct (heap (scheduled_callbacks (state s))), (always_callbacks (state s)); done|].
    symmetry. apply add_exact. unfold is_u64 in *. lia.
Qed.

(** The diamond after its source has asked for a callback at 30. *)
Definition diamond_waiting : Sys Scripts :=
  (on_state (GraphState.add_callback_for_node 0 30) diamond_graph).2.

Lemma historical_step_correct_witness :
  exists g', Graph.process_callbacks_historical diamond_waiting =
      (Ok true, mkSys (world diamond_waiting) g' (polled (env diamond_waiting))) /\
    graph_wf g' /\ time g' = 30%Z /\ dirty g' 0.
Proof.
  destruct diamond_graph_ok as (Hw & Hd & _).
  destruct (historical_step_correct diamond_waiting) as (g' & Hrun & Hw' & _ & _ & Hdi & Hfirst & _).
  - change (state diamond_waiting) with (set_scheduled (state diamond_graph)
      (TimeQueue.push (scheduled_callbacks (state diamond_graph)) 0 30)).
    apply set_scheduled_wf; [exact Hw|]. vm_compute. repeat constructor.
  - apply (dirty_ok_same (state diamond_graph)); [vm_compute; reflexivity..|exact Hd].
  - split; vm_compute; reflexivity.
  - assert (Ht : time g' = 30%Z).
    { rewrite Hfirst; [vm_compute; reflexivity|vm_compute; reflexivity|]. vm_compute. discriminate. }
    exists g'. split; [exact Hrun|]. split; [exact Hw'|]. split; [exact Ht|].
    apply Hdi. right. right. exists (mkEntry 30 0 0). rewrite Ht.
    split; [|split; [simpl; lia|reflexivity]]. vm_compute. left.
Defined.
