(* ===== verification/DynamicFacts.v ===== *)
(** * Changes of wiring keep the invariants
      ([Graph::process_pending_removals], [Graph::process_pending_additions],
      [Graph::fix_layers])

    [settled] is the invariant of the state between two cycles. A cycle that
    returns [Ok], wiring changes included, leaves a settled state again. While an
    addition is being wired the invariant holds except for layers that [fix_layers]
    still has to raise and rows it still has to add: [wf_part]. *)
From S2P Require Import Prelude NanoTime TimeQueue GraphState Scripted Graph WiringFacts GraphWf InitFacts CycleProps Scheduling.

(** ** Definitions *)

Definition settled (g : GraphState) : Prop := graph_wf g /\ clean g.

(** The clocks and bounds of a run, which wiring changes leave alone. *)
Record same_run (g g' : GraphState) : Prop := {
  sr_time : time g' = time g;
  sr_wall : wall_time g' = wall_time g;
  sr_first : first_cycle g' = first_cycle g;
  sr_last : is_last_cycle g' = is_last_cycle g;
  sr_mode : run_mode g' = run_mode g;
  sr_for : run_for g' = run_for g;
  sr_ready : ready_callbacks g' = ready_callbacks g;
  sr_start : start_time g' = start_time g;
  sr_error : wiring_error g' = wiring_error g }.

#[export] Instance same_run_preorder : PreOrder same_run.
Proof. split; [intros g; by split|]. intros g1 g2 g3 [] []. split; congruence. Qed.

Lemma frame_same_run g g' : frame g g' -> same_run g g'.
Proof. intros []. by split. Qed.

(** What a call outside of a cycle can change: the queues. *)
Record quiet_change (ix : nat) (g g' : GraphState) : Prop := {
  qc_frame : frame g g';
  qc_rows : dirty_nodes_by_layer g' = dirty_nodes_by_layer g;
  qc_flags : node_dirty g' = node_dirty g;
  qc_ticked : node_ticked g' = node_ticked g;
  qc_current : current_node_index g' = current_node_index g;
  qc_always : forall j, j ∈ always_callbacks g' -> j = ix \/ j ∈ always_callbacks g;
  qc_sched : forall e, e ∈ heap (scheduled_callbacks g') ->
    e_value e < length (nodes g) \/ e ∈ heap (scheduled_callbacks g);
  qc_pending : forall a, a ∈ pending_additions g' ->
    pa_caller_index a = ix \/ a ∈ pending_additions g }.

(** [graph_wf], but the layers of the nodes of [Q] may have to be raised, and
    only the first [n] nodes are known to have a row. *)
Record wf_part (Q : list nat) (n : nat) (g : GraphState) : Prop := {
  wp_index : index_ok g;
  wp_dirty_len : length (node_dirty g) = length (nodes g);
  wp_up i nd e : nodes g !! i = Some nd -> e ∈ upstreams nd -> node_index e < length (nodes g);
  wp_down i nd e : nodes g !! i = Some nd -> e ∈ downstreams nd -> node_index e < length (nodes g);
  wp_down_layer i nd e : nodes g !! i = Some nd -> active nd = true -> e ∈ downstreams nd ->
    layer nd < layer_at g (node_index e) \/ node_index e ∈ Q;
  wp_back i nd e : nodes g !! i = Some nd -> active nd = true -> e ∈ downstreams nd ->
    mkEdge i (edge_active e) ∈ upstreams_at g (node_index e);
  wp_layer i nd e : nodes g !! i = Some nd -> active nd = true -> e ∈ upstreams nd ->
    layer_at g (node_index e) < layer nd \/ i ∈ Q;
  wp_sym i nd e : nodes g !! i = Some nd -> active nd = true -> e ∈ upstreams nd ->
    mkEdge i (edge_active e) ∈ downstreams_at g (node_index e);
  wp_rows i nd : i < n -> nodes g !! i = Some nd -> layer nd < length (dirty_nodes_by_layer g);
  wp_always : Forall (fun i => i < length (nodes g)) (always_callbacks g);
  wp_sched : Forall (fun e => e_value e < length (nodes g)) (heap (scheduled_callbacks g));
  wp_pending : Forall (fun a => pa_caller_index a < length (nodes g)) (pending_additions g) }.

(** ** Transport *)

(** [graph_wf] from the tables it is about. *)
Lemma graph_wf_tables g g' :
  graph_wf g -> nodes g' = nodes g -> node_to_index g' = node_to_index g ->
  length (node_ticked g') = length (node_ticked g) -> length (node_dirty g') = length (node_dirty g) ->
  length (dirty_nodes_by_layer g') = length (dirty_nodes_by_layer g) ->
  Forall (fun i => i < length (nodes g)) (always_callbacks g') ->
  Forall (fun e => e_value e < length (nodes g)) (heap (scheduled_callbacks g')) ->
  Forall (fun a => pa_caller_index a < length (nodes g)) (pending_additions g') ->
  graph_wf g'.
Proof.
  intros [Hix Hdl Hu Hd Hdy Hbk Hl Hs Hr _ _ _] Hn Hi Ht Hf Hrw Ha Hq Hp.
  assert (Hlay : forall i, layer_at g' i = layer_at g i) by (intros i; unfold layer_at; by rewrite Hn).
  assert (Hdn : forall i, downstreams_at g' i = downstreams_at g i)
    by (intros i; unfold downstreams_at; by rewrite Hn).
  assert (Hun : forall i, upstreams_at g' i = upstreams_at g i)
    by (intros i; unfold upstreams_at; by rewrite Hn).
  split; rewrite ?Hn, ?Hrw; try done.
  - destruct Hix as [Hlen Hx]. split; [congruence|]. intros a i. by rewrite Hi, Hn.
  - congruence.
  - intros i nd e Hnd Hac He. rewrite Hlay. by eapply Hdy.
  - intros i nd e Hnd Hac He. rewrite Hun. by eapply Hbk.
  - intros i nd e Hnd Hac He. rewrite Hlay. by eapply Hl.
  - intros i nd e Hnd Hac He. rewrite Hdn. by eapply Hs.
Qed.

Lemma clean_same g g' :
  dirty_nodes_by_layer g' = dirty_nodes_by_layer g -> node_dirty g' = node_dirty g ->
  node_ticked g' = node_ticked g -> clean g -> clean g'.
Proof. unfold clean. by intros -> -> ->. Qed.

Lemma clean_dirty_ok g : clean g -> dirty_ok g.
Proof.
  intros (Hr & Hf & _).
  assert (Hrow : forall l, row_at g l = []).
  { intros l. unfold row_at. destruct (dirty_nodes_by_layer g !! l) as [row|] eqn:E; [|done].
    rewrite Forall_lookup in Hr. by apply Hr in E. }
  assert (Hd : forall i, ~ dirty g i).
  { intros i Hi. unfold dirty in Hi. rewrite Forall_lookup in Hf. by apply Hf in Hi. }
  split.
  - intros i. rewrite Hrow. split; [by intros ?%Hd|by intros ?%not_elem_of_nil].
  - intros l i. rewrite Hrow. by intros ?%not_elem_of_nil.
  - intros l. rewrite Hrow. constructor.
Qed.

Lemma set_current_settled g c : settled g -> settled (set_current g c).
Proof. intros [Hw Hc]. split; [|done]. by apply (graph_wf_tables g); try done; apply Hw. Qed.

(** ** Calls outside of a cycle *)

Lemma quiet_refl ix g : quiet_change ix g g.
Proof. split; try done; auto. Qed.

Lemma quiet_trans ix g1 g2 g3 : quiet_change ix g1 g2 -> quiet_change ix g2 g3 -> quiet_change ix g1 g3.
Proof.
  intros [F1 R1 D1 T1 C1 A1 S1 P1] [F2 R2 D2 T2 C2 A2 S2 P2].
  split; try congruence; [by etransitivity|..].
  - intros j Hj. destruct (A2 j Hj); auto.
  - intros e He. destruct (S2 e He) as [Hx|]; [|auto]. left. by rewrite <-(fm_nodes _ _ F1).
  - intros a Ha. destruct (P2 a Ha); auto.
Qed.

Lemma push_heap_elem (q : TimeQueue nat) j t e :
  e ∈ heap (TimeQueue.push q j t) -> e_value e = j \/ e ∈ heap q.
Proof. unfold TimeQueue.push. case_match; simpl; [by right|]. intros [->|?]%elem_of_cons; auto. Qed.

Lemma api_step_quiet ix g g' : api_step false ix g g' -> quiet_change ix g g'.
Proof.
  intros [g1 j t Hj|g1 Hni|g1 n act rec|g1 n|g1 g2 j nd nj Hc _ _ _ _]; [..|done].
  - split; try done; auto. simpl. intros e [->|?]%push_heap_elem; auto.
  - split; try done; auto. simpl. intros i. rewrite elem_of_app, list_elem_of_singleton. naive_solver.
  - split; try done; auto. simpl. intros a. rewrite elem_of_app, list_elem_of_singleton.
    intros [?| ->]; [by right|by left].
  - split; try done; auto.
Qed.

Lemma api_steps_quiet ix g g' : rtc (api_step false ix) g g' -> quiet_change ix g g'.
Proof.
  induction 1 as [g|g1 g2 g3 H12 _ IH]; [apply quiet_refl|].
  eapply quiet_trans; [by apply api_step_quiet|done].
Qed.

Lemma quiet_wf ix g g' : ix < length (nodes g) -> graph_wf g -> quiet_change ix g g' -> graph_wf g'.
Proof.
  intros Hix Hw [F R D T C A S P]. apply (graph_wf_tables g); try apply F; [done|..].
  - apply Forall_forall. intros j Hj. pose proof (gw_always _ Hw) as Ha. rewrite Forall_forall in Ha.
    destruct (A j Hj) as [->|?]; auto.
  - apply Forall_forall. intros e He. pose proof (gw_sched _ Hw) as Ha. rewrite Forall_forall in Ha.
    destruct (S e He) as [?|?]; auto.
  - apply Forall_forall. intros a Hin. pose proof (gw_pending _ Hw) as Ha. rewrite Forall_forall in Ha.
    destruct (P a Hin) as [->|?]; auto.
Qed.

Lemma quiet_clean ix g g' : quiet_change ix g g' -> clean g -> clean g'.
Proof. intros [F R D T C A S P]. by apply clean_same. Qed.

(** The node tables may be replaced before or after such a call. *)
Lemma quiet_set_nodes ix g g' ns :
  length ns = length (nodes g) -> quiet_change ix g g' ->
  quiet_change ix (set_nodes g ns) (set_nodes g' ns).
Proof.
  intros Hlen [F R D T C A S P]. split; try done; [|simpl; by rewrite Hlen].
  destruct F. by split.
Qed.

(** ** Removals *)

Definition retained (i : nat) (l l' : list Edge) : Prop := l' = l \/ l' = Graph.retain_not i l.

(** [ns'] is [ns] with node [i] inactive and some lists rid of [i]. *)
Record pruned (i : nat) (ns ns' : list NodeData) : Prop := {
  pr_len : length ns' = length ns;
  pr_node k x' : ns' !! k = Some x' -> exists x, ns !! k = Some x /\ node x' = node x /\
    layer x' = layer x /\ retained i (upstreams x) (upstreams x') /\
    retained i (downstreams x) (downstreams x') /\ (active x' = true -> k <> i /\ active x = true) }.

Lemma retain_elem i l e : e ∈ Graph.retain_not i l <-> e ∈ l /\ node_index e <> i.
Proof.
  unfold Graph.retain_not, Graph.not_index. rewrite !list_elem_of_In, filter_In.
  by rewrite negb_true_iff, Nat.eqb_neq.
Qed.

Lemma retained_sub i l l' e : retained i l l' -> e ∈ l' -> e ∈ l.
Proof. intros [->| ->]; [done|]. by intros [? _]%retain_elem. Qed.

Lemma retained_keep i l l' e : retained i l l' -> e ∈ l -> node_index e <> i -> e ∈ l'.
Proof. intros [->| ->]; [done|]. intros ? ?. by apply retain_elem. Qed.

Lemma pruned_wf i g ns' : graph_wf g -> pruned i (nodes g) ns' -> graph_wf (set_nodes g ns').
Proof.
  intros Hw [Hlen Hp]. pose proof Hw as [Hix Hdl Hu Hd Hdy Hbk Hl Hs Hr Ha Hq Hpe].
  assert (Hfw : forall k x, nodes g !! k = Some x -> exists x', ns' !! k = Some x' /\
            node x' = node x /\ layer x' = layer x /\ retained i (upstreams x) (upstreams x') /\
            retained i (downstreams x) (downstreams x')).
  { intros k x Hk. destruct (lookup_lt_is_Some_2 ns' k) as [x' Hk'].
    { rewrite Hlen. by eapply lookup_lt_Some. }
    destruct (Hp _ _ Hk') as (y & Hy & ? & ? & ? & ? & _). exists x'. by simplify_eq. }
  assert (Hlay : forall k, layer_at (set_nodes g ns') k = layer_at g k).
  { intros k. unfold layer_at. simpl. destruct (nodes g !! k) as [x|] eqn:E.
    - destruct (Hfw _ _ E) as (x' & -> & _ & Hlx & _). done.
    - apply lookup_ge_None in E. by rewrite (proj2 (lookup_ge_None ns' k)) by lia. }
  split; simpl; rewrite ?Hlen; try done.
  - destruct Hix as [Htl Hx]. split; simpl; [congruence|]. intros a k. rewrite Hx. split; intros (x & Hk & Hn).
    + destruct (Hfw _ _ Hk) as (x' & ? & ? & _). exists x'. split; [done|congruence].
    + destruct (Hp _ _ Hk) as (y & ? & ? & _). exists y. split; [done|congruence].
  - intros k x' e Hk He. destruct (Hp _ _ Hk) as (y & Hy & _ & _ & Hru & _).
    eapply Hu; [exact Hy|by eapply retained_sub].
  - intros k x' e Hk He. destruct (Hp _ _ Hk) as (y & Hy & _ & _ & _ & Hrd & _).
    eapply Hd; [exact Hy|by eapply retained_sub].
  - intros k x' e Hk Hac He. destruct (Hp _ _ Hk) as (y & Hy & _ & Hly & _ & Hrd & Hax).
    destruct (Hax Hac) as [_ Hay]. rewrite Hlay, Hly. eapply Hdy; [exact Hy|done|by eapply retained_sub].
  - intros k x' e Hk Hac He. destruct (Hp _ _ Hk) as (y & Hy & _ & Hly & _ & Hrd & Hax).
    destruct (Hax Hac) as [Hki Hay]. pose proof (retained_sub _ _ _ _ Hrd He) as He'.
    pose proof (Hbk _ _ _ Hy Hay He') as Hb. unfold upstreams_at in *. simpl.
    destruct (nodes g !! node_index e) as [z|] eqn:Ez; [|by apply not_elem_of_nil in Hb].
    destruct (Hfw _ _ Ez) as (z' & -> & _ & _ & Hru & _). simpl in *. by eapply retained_keep.
  - intros k x' e Hk Hac He. destruct (Hp _ _ Hk) as (y & Hy & _ & Hly & Hru & _ & Hax).
    destruct (Hax Hac) as [_ Hay]. rewrite Hlay, Hly. eapply Hl; [exact Hy|done|by eapply retained_sub].
  - intros k x' e Hk Hac He. destruct (Hp _ _ Hk) as (y & Hy & _ & Hly & Hru & _ & Hax).
    destruct (Hax Hac) as [Hki Hay]. pose proof (retained_sub _ _ _ _ Hru He) as He'.
    pose proof (Hs _ _ _ Hy Hay He') as Hb. unfold downstreams_at in *. simpl.
    destruct (nodes g !! node_index e) as [z|] eqn:Ez; [|by apply not_elem_of_nil in Hb].
    destruct (Hfw _ _ Ez) as (z' & -> & _ & _ & _ & Hrd). simpl in *. by eapply retained_keep.
  - intros k x' Hk. destruct (Hp _ _ Hk) as (y & Hy & _ & -> & _). by eapply Hr.
Qed.

(** No active node mentions [i], and [i] is inactive. *)
Record unlinked (i : nat) (g : GraphState) : Prop := {
  ul_inactive : active_at g i = false;
  ul_edges k x e : nodes g !! k = Some x -> active x = true ->
    e ∈ upstreams x \/ e ∈ downstreams x -> node_index e <> i }.

Section removal.
Context {W : Type} `{NodeLaws W}.
Implicit Types (s : Sys W) (g : GraphState).

Definition mem (es : list Edge) (k : nat) : bool := bool_decide (k ∈ map node_index es).

Lemma update_all_run (f : NodeData -> NodeData) es s :
  (forall x, f (f x) = f x) ->
  Forall (fun e => node_index e < length (nodes (state s))) es ->
  exists ns', mfor es (fun e => update_node (node_index e) f) s = (Ok tt, with_nodes ns' s) /\
    length ns' = length (nodes (state s)) /\
    forall k x, nodes (state s) !! k = Some x -> ns' !! k = Some (if mem es k then f x else x).
Proof.
  intros Hf. revert s. induction es as [|e es IH]; intros s Hes.
  - exists (nodes (state s)). split_and!; [by destruct s as [? [] ?]|done|]. done.
  - apply Forall_cons in Hes as [[y Hy]%lookup_lt_is_Some_2 Hes].
    set (ns1 := <[node_index e := f y]> (nodes (state s))).
    destruct (IH (with_nodes ns1 s)) as (ns' & Hrun & Hlen & Hns').
    { rewrite with_nodes_nodes. unfold ns1. by rewrite length_insert. }
    exists ns'. split_and!.
    + simpl. rewrite (mbind_ok _ _ _ tt (with_nodes ns1 s)); [exact Hrun|].
      unfold update_node, mbind, get_state, at_index, mlift. by rewrite Hy.
    + rewrite Hlen, with_nodes_nodes. unfold ns1. by rewrite length_insert.
    + intros k x Hk. rewrite with_nodes_nodes in Hns'. unfold ns1 in Hns'.
      unfold mem. simpl. destruct (decide (k = node_index e)) as [->|Hne].
      * rewrite (Hns' _ (f y)) by (rewrite list_lookup_insert_eq; [done|by eapply lookup_lt_Some]).
        simplify_eq. rewrite (bool_decide_true (node_index e ∈ node_index e :: _)) by by left.
        rewrite Hf. by destruct (mem _ _).
      * rewrite (Hns' _ x) by by rewrite list_lookup_insert_ne. unfold mem.
        erewrite (bool_decide_ext (k ∈ node_index e :: _)); [done|]. rewrite elem_of_cons. naive_solver.
Qed.

Lemma retain_idem i l : Graph.retain_not i (Graph.retain_not i l) = Graph.retain_not i l.
Proof.
  apply filter_all, Forall_forall. intros e [_ He]%retain_elem.
  unfold Graph.not_index. by apply negb_true_iff, Nat.eqb_neq.
Qed.

(** The node table after unlinking [i], whose data is [nd]. *)
Definition unlink_nodes (i : nat) (nd : NodeData) (ns : list NodeData) (ns' : list NodeData) : Prop :=
  length ns' = length ns /\
  forall k x, ns !! k = Some x -> exists x', ns' !! k = Some x' /\ node x' = node x /\ layer x' = layer x /\
    active x' = active x /\
    upstreams x' = (if mem (downstreams nd) k then Graph.retain_not i (upstreams x) else upstreams x) /\
    downstreams x' = (if mem (upstreams nd) k then Graph.retain_not i (downstreams x) else downstreams x).

Lemma unlink_run i nd s :
  graph_wf (state s) -> nodes (state s) !! i = Some nd -> active nd = true ->
  exists ns', mbind (mfor (upstreams nd) (fun edge => update_node (node_index edge)
            (fun x => set_downstreams (Graph.retain_not i (downstreams x)) x)))
    (fun _ => mbind (node_at i) (fun nd => mfor (downstreams nd) (fun edge => update_node (node_index edge)
            (fun x => set_upstreams (Graph.retain_not i (upstreams x)) x)))) s =
    (Ok tt, with_nodes ns' s) /\ unlink_nodes i nd (nodes (state s)) ns'.
Proof.
  intros Hw Hi Hac.
  destruct (update_all_run (fun x => set_downstreams (Graph.retain_not i (downstreams x)) x)
    (upstreams nd) s) as (ns1 & Hrun1 & Hlen1 & Hns1).
  { intros x. unfold set_downstreams. simpl. by rewrite retain_idem. }
  { apply Forall_forall. intros e He. by eapply gw_up. }
  assert (Hself : mem (upstreams nd) i = false).
  { apply bool_decide_false. intros (e & -> & He)%list_elem_of_fmap.
    pose proof (gw_layer _ Hw _ _ _ Hi Hac He) as Hl. unfold layer_at in Hl. rewrite Hi in Hl. simpl in Hl. lia. }
  pose proof (Hns1 _ _ Hi) as Hi1. rewrite Hself in Hi1.
  destruct (update_all_run (fun x => set_upstreams (Graph.retain_not i (upstreams x)) x)
    (downstreams nd) (with_nodes ns1 s)) as (ns2 & Hrun2 & Hlen2 & Hns2).
  { intros x. unfold set_upstreams. simpl. by rewrite retain_idem. }
  { apply Forall_forall. intros e He. rewrite with_nodes_nodes, Hlen1. by eapply gw_down. }
  rewrite with_nodes_nodes in *. exists ns2. split.
  - erewrite mbind_ok by exact Hrun1. unfold node_at. unfold mbind, get_state, at_index, mlift.
    rewrite with_nodes_nodes, Hi1. exact Hrun2.
  - split; [congruence|]. intros k x Hk. pose proof (Hns2 _ _ (Hns1 _ _ Hk)) as Hk2.
    eexists. split; [exact Hk2|]. by destruct (mem (upstreams nd) k), (mem (downstreams nd) k).
Qed.

Lemma unlink_lookup i nd ns ns' k x' :
  unlink_nodes i nd ns ns' -> ns' !! k = Some x' -> exists x, ns !! k = Some x /\
    node x' = node x /\ layer x' = layer x /\ active x' = active x /\
    upstreams x' = (if mem (downstreams nd) k then Graph.retain_not i (upstreams x) else upstreams x) /\
    downstreams x' = (if mem (upstreams nd) k then Graph.retain_not i (downstreams x) else downstreams x).
Proof.
  intros [Hlen Hns] Hk. destruct (lookup_lt_is_Some_2 ns k) as [x Hx].
  { rewrite <-Hlen. by eapply lookup_lt_Some. }
  destruct (Hns _ _ Hx) as (y & Hy & Hrest). simplify_eq. eauto.
Qed.

Lemma unlink_pruned i nd g ns' nd' :
  nodes g !! i = Some nd -> unlink_nodes i nd (nodes g) ns' -> ns' !! i = Some nd' ->
  pruned i (nodes g) (<[i := set_active false nd']> ns').
Proof.
  intros Hi Hun Hi'. split; [rewrite length_insert; apply Hun|]. intros k x' Hk.
  destruct (decide (k = i)) as [->|Hne].
  - rewrite list_lookup_insert_eq in Hk by by eapply lookup_lt_Some. injection Hk as <-.
    destruct (unlink_lookup _ _ _ _ _ _ Hun Hi') as (x & Hx & Hn & Hl & Ha & Hu & Hd).
    exists x. simpl. split_and!; try done; unfold retained; rewrite ?Hu, ?Hd;
      destruct (mem (downstreams nd) i), (mem (upstreams nd) i); auto.
  - rewrite list_lookup_insert_ne in Hk by done.
    destruct (unlink_lookup _ _ _ _ _ _ Hun Hk) as (x & Hx & Hn & Hl & Ha & Hu & Hd).
    exists x. rewrite <-Ha. split_and!; try done; unfold retained; rewrite ?Hu, ?Hd;
      destruct (mem (downstreams nd) k), (mem (upstreams nd) k); auto.
Qed.

Lemma mem_true es e : e ∈ es -> mem es (node_index e) = true.
Proof. intros He. apply bool_decide_true, list_elem_of_fmap. by exists e. Qed.

(** Nothing active mentions [i] once it is unlinked. *)
Lemma unlink_unlinked i nd g ns' nd' :
  graph_wf g -> nodes g !! i = Some nd -> unlink_nodes i nd (nodes g) ns' -> ns' !! i = Some nd' ->
  unlinked i (set_nodes g (<[i := set_active false nd']> ns')).
Proof.
  intros Hw Hi Hun Hi'. pose proof (lookup_lt_Some _ _ _ Hi') as Hlt. split.
  { unfold active_at. simpl. by rewrite list_lookup_insert_eq. }
  simpl. intros k x' e Hk Hac He Heq. destruct (decide (k = i)) as [->|Hne].
  { rewrite list_lookup_insert_eq in Hk by done. by injection Hk as <-. }
  rewrite list_lookup_insert_ne in Hk by done.
  destruct (unlink_lookup _ _ _ _ _ _ Hun Hk) as (x & Hx & _ & _ & Ha & Hu & Hd).
  rewrite Ha in Hac. subst i. destruct He as [He|He].
  - assert (Hin : e ∈ upstreams x)
      by (rewrite Hu in He; destruct (mem (downstreams nd) k); [by apply retain_elem in He as []|done]).
    pose proof (gw_sym _ Hw _ _ _ Hx Hac Hin) as Hs. unfold downstreams_at in Hs. rewrite Hi in Hs.
    apply mem_true in Hs. simpl in Hs. rewrite Hu, Hs in He. by apply retain_elem in He as [_ ?].
  - assert (Hin : e ∈ downstreams x)
      by (rewrite Hd in He; destruct (mem (upstreams nd) k); [by apply retain_elem in He as []|done]).
    pose proof (gw_back _ Hw _ _ _ Hx Hac Hin) as Hs. unfold upstreams_at in Hs. rewrite Hi in Hs.
    apply mem_true in Hs. simpl in Hs. rewrite Hd, Hs in He. by apply retain_elem in He as [_ ?].
Qed.

(** ** [remove_one] *)

(** What follows the unlinking. *)
Definition dispose (n : addr) (i : nat) : M (Sys W) unit :=
  do! Graph.set_current_node (Some i) in
  do! mmap_err (NodeContext "stop" i) (op_stop n) in
  do! mmap_err (NodeContext "teardown" i) (op_teardown n) in
  do! Graph.set_current_node None in
  update_node i (set_active false).

Lemma remove_one_eq n s :
  Graph.remove_one n s =
  match node_to_index (state s) !! n with
  | None => (Ok tt, s)
  | Some i =>
    match nodes (state s) !! i with
    | None => (index_panic, s)
    | Some nd =>
      if active nd then
        mbind (mbind (mfor (upstreams nd) (fun edge => update_node (node_index edge)
              (fun x => set_downstreams (Graph.retain_not i (downstreams x)) x)))
          (fun _ => mbind (node_at i) (fun nd => mfor (downstreams nd) (fun edge =>
            update_node (node_index edge)
              (fun x => set_upstreams (Graph.retain_not i (upstreams x)) x)))))
          (fun _ => dispose n i) s
      else (Ok tt, s)
    end
  end.
Proof.
  unfold Graph.remove_one, GraphState.get_node_index. unfold mbind at 1, get_state.
  destruct (node_to_index (state s) !! n) as [i|]; [|done].
  unfold node_at at 1. unfold mbind at 1 2, get_state, at_index, mlift.
  destruct (nodes (state s) !! i) as [nd|]; [|done]. destruct (active nd); [|done]. simpl.
  rewrite mbind_assoc. unfold mbind. destruct (mfor _ _ s) as [[] s1]; try done.
  destruct (node_at i s1) as [[] s2]; done.
Qed.

(** The calls of [stop] and [teardown] were made, each once, for the node. *)
Definition disposed (n : addr) (s s' : Sys W) : Prop :=
  exists s1 s2 s3, op_stop n s1 = (Ok tt, s2) /\ op_teardown n s2 = (Ok tt, s3) /\
    world s1 = world s /\ world s' = world s3 /\ env s1 = env s /\ env s' = env s3.

Lemma dispose_run n i nd s s' :
  nodes (state s) !! i = Some nd -> node nd = n -> dispose n i s = (Ok tt, s') ->
  exists g1, quiet_change i (state s) g1 /\ disposed n s s' /\
    state s' = set_current (set_nodes g1 (<[i := set_active false nd]> (nodes g1))) None.
Proof.
  intros Hi Hn Hrun. unfold dispose in Hrun.
  erewrite mbind_ok in Hrun by reflexivity. set (s1 := set_state (set_current (state s) (Some i)) s) in *.
  inv_bind Hrun. unfold mmap_err in E. destruct (op_stop n s1) as [r1 s2] eqn:Es.
  destruct r1 as [[]|?|?|]; try done. injection E as <- <-.
  inv_bind Hrun. unfold mmap_err in E. destruct (op_teardown n s2) as [r2 s3] eqn:Et.
  destruct r2 as [[]|?|?|]; try done. injection E as <- <-.
  pose proof (api_steps_quiet _ _ _ (law_stop s1 n i nd _ _ eq_refl Hi Hn Es)) as Q1.
  assert (Hi2 : nodes (state s2) !! i = Some nd) by by rewrite (fm_nodes _ _ (qc_frame _ _ _ Q1)).
  pose proof (qc_current _ _ _ Q1) as Hc2.
  pose proof (api_steps_quiet _ _ _ (law_teardown s2 n i nd _ _ Hc2 Hi2 Hn Et)) as Q2.
  assert (Hi3 : nodes (state s3) !! i = Some nd) by by rewrite (fm_nodes _ _ (qc_frame _ _ _ Q2)).
  erewrite mbind_ok in Hrun by reflexivity.
  unfold update_node, mbind, get_state, at_index, mlift in Hrun. simpl in Hrun.
  rewrite Hi3 in Hrun. injection Hrun as <-. simpl.
  exists (set_current (state s3) (current_node_index (state s))). split_and!.
  - pose proof (quiet_trans _ _ _ _ Q1 Q2) as [F R D T C A S P]. simpl in *.
    split; try done. destruct F. by split.
  - by exists s1, s2, s3.
  - done.
Qed.

Lemma remove_one_spec n s s' :
  settled (state s) -> Graph.remove_one n s = (Ok tt, s') ->
  settled (state s') /\ same_run (state s) (state s') /\
  ((node_to_index (state s) !! n = None \/ exists i, node_to_index (state s) !! n = Some i /\
      active_at (state s) i = false) /\ s' = s \/
   exists i, node_to_index (state s) !! n = Some i /\ active_at (state s) i = true /\
     unlinked i (state s') /\ disposed n s s').
Proof.
  intros [Hw Hc] Hrun. rewrite remove_one_eq in Hrun.
  destruct (node_to_index (state s) !! n) as [i|] eqn:Hn; [|injection Hrun as <-; split_and!; auto; done].
  destruct (proj1 (proj2 (gw_index _ Hw) _ _) Hn) as (nd & Hi & Hnode).
  rewrite Hi in Hrun. destruct (active nd) eqn:Hac.
  2: { injection Hrun as <-. split_and!; [done|done|]. left. split; [|done]. right. exists i.
       split; [done|]. unfold active_at. by rewrite Hi. }
  destruct (unlink_run i nd s Hw Hi Hac) as (ns' & Hu & Hun).
  erewrite mbind_ok in Hrun by exact Hu.
  destruct (proj2 Hun _ _ Hi) as (nd' & Hi' & Hnn & _).
  destruct (dispose_run n i nd' (with_nodes ns' s) s' Hi' ltac:(congruence) Hrun) as (g1 & Q & Hdis & Hs').
  pose proof (fm_nodes _ _ (qc_frame _ _ _ Q)) as Hns. simpl in Hns.
  set (ns2 := <[i := set_active false nd']> ns') in *.
  assert (Hlen : length ns2 = length (nodes (state (with_nodes ns' s)))).
  { unfold ns2. by rewrite length_insert. }
  pose proof (quiet_set_nodes i _ _ ns2 Hlen Q) as Q2. rewrite Hns in Hs'. fold ns2 in Hs'.
  pose proof (unlink_pruned _ _ _ _ _ Hi Hun Hi') as Hpr.
  assert (Hw2 : graph_wf (set_nodes g1 ns2)).
  { eapply quiet_wf; [|by eapply pruned_wf|exact Q2].
    simpl. rewrite (pr_len _ _ _ Hpr). by eapply lookup_lt_Some. }
  split_and!.
  - rewrite Hs'. apply set_current_settled. split; [done|].
    eapply (quiet_clean i (set_nodes (state s) ns2)); [exact Q2|done].
  - rewrite Hs'. destruct (qc_frame _ _ _ Q). by split.
  - right. exists i. split_and!; [done|unfold active_at; by rewrite Hi| |].
    + destruct (unlink_unlinked _ _ _ _ _ Hw Hi Hun Hi') as [U1 U2]. rewrite Hs'.
      split; [exact U1|exact U2].
    + destruct Hdis as (s1 & s2 & s3 & Hd). by exists s1, s2, s3.
Qed.

Lemma removals_spec ns s s' :
  settled (state s) -> mfor ns Graph.remove_one s = (Ok tt, s') ->
  settled (state s') /\ same_run (state s) (state s').
Proof.
  revert s. induction ns as [|n ns IH]; intros s Hs Hrun; [injection Hrun as <-; done|].
  simpl in Hrun. inv_bind Hrun. destruct a.
  destruct (remove_one_spec n s s0 Hs E) as (Hs1 & Hr1 & _).
  destruct (IH _ Hs1 Hrun) as [Hs2 Hr2]. split; [done|by etransitivity].
Qed.

Lemma pending_removals_spec s s' :
  settled (state s) -> Graph.process_pending_removals s = (Ok tt, s') ->
  settled (state s') /\ same_run (state s) (state s').
Proof.
  intros [Hw Hc] Hrun. unfold Graph.process_pending_removals in Hrun.
  unfold mbind at 1, get_state in Hrun. erewrite mbind_ok in Hrun by reflexivity.
  destruct (removals_spec (pending_removals (state s)) (set_state (set_pending_removals (state s) []) s) s') as [Hs Hr];
    [|exact Hrun|].
  - split; [|done]. by apply (graph_wf_tables (state s)); try done; apply Hw.
  - split; [done|]. by destruct Hr; split.
Qed.
End removal.

(** ** A graph that an addition is being wired into *)

Lemma wf_part_full g : wf_part [] (length (nodes g)) g <-> graph_wf g.
Proof.
  split.
  - intros []. split; try done.
    + intros i nd e Hi Hac He. destruct (wp_down_layer0 _ _ _ Hi Hac He) as [?|?%not_elem_of_nil]; done.
    + intros i nd e Hi Hac He. destruct (wp_layer0 _ _ _ Hi Hac He) as [?|?%not_elem_of_nil]; done.
    + intros i nd Hi. eapply wp_rows0; [by eapply lookup_lt_Some|done].
  - intros []. split; try done.
    + intros i nd e Hi Hac He. left. by eapply gw_down_layer.
    + intros i nd e Hi Hac He. left. by eapply gw_layer.
    + intros i nd _ Hi. by eapply gw_rows.
Qed.

(** ** Registering the new nodes *)

Section walks.
Context {W : Type} `{NodeOps W}.
Implicit Types (s : Sys W) (g : GraphState).

Lemma wiring_loop_ok root g0 fuel inp stack s s' :
  winv (world s) root g0 (state s) inp stack ->
  Graph.wiring_loop fuel inp stack s = (Ok tt, s') ->
  exists g, s' = set_state g s /\ winv (world s) root g0 g ∅ [].
Proof.
  revert inp stack s. induction fuel as [|fuel IH]; intros inp stack s Hinv Hrun; [done|].
  destruct stack as [|f below].
  { injection Hrun as <-. exists (state s). split; [by destruct s|].
    destruct Hinv. split; try done. intros a. split; [set_solver|]. by intros ?%not_elem_of_nil. }
  pose proof Hinv as [_ _ _ Hix _ _ _ Hi _ _ _ _].
  destruct (fr_upstreams f !! fr_next f) as [[up act]|] eqn:Hup.
  - destruct (node_to_index (state s) !! up) as [idx|] eqn:Hidx.
    + pose proof (proj1 (proj2 Hix _ _) Hidx) as (nd & Hnd & _).
      rewrite (loop_advance _ _ _ _ _ _ _ _ _ Hup Hidx Hnd) in Hrun.
      eapply IH; [|exact Hrun]. by eapply winv_advance.
    + destruct (decide (up ∈ inp)) as [Hin|Hni].
      * by rewrite (loop_cycle _ _ _ _ _ _ _ Hup Hidx Hin) in Hrun.
      * rewrite (loop_descend _ _ _ _ _ _ _ Hup Hidx Hni) in Hrun.
        eapply IH; [|exact Hrun]. by eapply winv_descend.
  - rewrite (loop_finish _ _ _ _ _ Hup) in Hrun. pose proof (winv_finish _ _ _ _ _ _ _ Hinv Hup) as Hinv'.
    destruct (IH _ _ (set_state _ s) Hinv' Hrun) as (g & -> & Hg). by exists g.
Qed.

Lemma initialise_node_ok fuel root s i s' :
  index_ok (state s) -> Graph.initialise_node fuel root s = (Ok i, s') ->
  exists g, s' = set_state g s /\ node_to_index g !! root = Some i /\
    (g = state s \/ node_to_index (state s) !! root = None /\ winv (world s) root (state s) g ∅ []).
Proof.
  intros Hix Hrun. destruct (node_to_index (state s) !! root) as [j|] eqn:Hr.
  - unfold Graph.initialise_node, GraphState.seen, Graph.registered_index, mbind, get_state in Hrun.
    rewrite Hr in Hrun. unfold mlift in Hrun. rewrite Hr in Hrun. injection Hrun as <- <-.
    exists (state s). split; [by destruct s|auto].
  - rewrite (initialise_node_unseen _ _ _ Hr) in Hrun. inv_bind Hrun. destruct a.
    destruct (wiring_loop_ok root (state s) _ _ _ _ _ (winv_start _ _ _ Hix Hr) E) as (g & -> & Hg).
    unfold Graph.registered_index, mbind, get_state, mlift in Hrun. simpl in Hrun.
    destruct (node_to_index g !! root) as [j|] eqn:Hj; [|done]. injection Hrun as <- <-.
    exists g. auto.
Qed.

(** The tables after wiring the new nodes above [roots], before anything else. *)
Record grown (w : W) (roots : list addr) (g0 g : GraphState) : Prop := {
  gn_only : only_nodes g0 g;
  gn_prefix : exists new, nodes g = nodes g0 ++ new /\ Forall (fun nd => downstreams nd = []) new;
  gn_map : node_to_index g0 ⊆ node_to_index g;
  gn_index : index_ok g;
  gn_new i nd : length (nodes g0) <= i -> nodes g !! i = Some nd -> node_ok w g i nd;
  gn_ticked : exists k, node_ticked g = node_ticked g0 ++ repeat false k;
  gn_roots a : a ∈ roots -> registered g a;
  gn_hook i nd : length (nodes g0) <= i -> nodes g !! i = Some nd ->
    exists a r, a ∈ roots /\ node_to_index g !! a = Some r /\ length (nodes g0) <= r /\
      layer nd <= layer_at g r }.

Lemma grown_refl w g : index_ok g -> grown w [] g g.
Proof.
  intros Hix. split; try done.
  - by destruct g.
  - exists []. by rewrite app_nil_r.
  - intros i nd Hge Hi%lookup_lt_Some. lia.
  - exists 0. by rewrite app_nil_r.
  - by intros a ?%not_elem_of_nil.
  - intros i nd Hge Hi%lookup_lt_Some. lia.
Qed.

Lemma grown_seen w roots g0 g root :
  grown w roots g0 g -> registered g root -> grown w (roots ++ [root]) g0 g.
Proof.
  intros [] Hr. split; try done.
  - intros a. rewrite elem_of_app, list_elem_of_singleton. intros [?| ->]; auto.
  - intros i nd Hge Hi. destruct (gn_hook0 i nd Hge Hi) as (a & r & Ha & Hrest).
    exists a, r. split; [|done]. apply elem_of_app. by left.
Qed.

Lemma grown_walk w roots g0 g1 g2 root i :
  grown w roots g0 g1 -> node_to_index g1 !! root = None -> winv w root g1 g2 ∅ [] ->
  node_to_index g2 !! root = Some i ->
  (exists k, node_ticked g2 = node_ticked g1 ++ repeat false k) ->
  grown w (roots ++ [root]) g0 g2.
Proof.
  intros [Ho (new & Hn & Hd) Hm Hix Hnew [k Hk] Hrt Hhk] Hunseen
    [Ho2 (new2 & Hn2 & Hd2) Hm2 Hix2 Hnew2 _ _ _ _ _ _ Hh2] Hroot [k2 Hk2].
  assert (He : extends g1 g2) by (split; [by exists new2|done]).
  assert (Hlen : length (nodes g0) <= length (nodes g1)) by (rewrite Hn, length_app; lia).
  split; try done.
  - unfold only_nodes in *. rewrite Ho2, Ho. done.
  - exists (new ++ new2). rewrite Hn2, Hn, <-app_assoc. split; [done|]. apply Forall_app.
    split; [done|]. eapply Forall_impl; [exact Hd2|]. by intros nd [].
  - by etransitivity.
  - intros j nd Hge Hj. destruct (decide (length (nodes g1) <= j)) as [|Hlt]; [by apply Hnew2|].
    eapply node_ok_extends; [exact Hix|exact He|]. apply Hnew; [done|].
    by rewrite Hn2, lookup_app_l in Hj by lia.
  - exists (k + k2). by rewrite Hk2, Hk, repeat_app, app_assoc.
  - intros a. rewrite elem_of_app, list_elem_of_singleton. intros [Ha| ->]; [|by exists i].
    destruct (Hrt a Ha) as [j Hj]. exists j. by eapply lookup_weaken.
  - intros j nd Hge Hj. destruct (decide (length (nodes g1) <= j)) as [Hge1|Hlt].
    + destruct (Hh2 j nd Hge1 Hj) as (r & Hr & Hl). exists root, r.
      split_and!; [apply elem_of_app; right; by apply list_elem_of_singleton|done| |done].
      destruct (decide (length (nodes g1) <= r)) as [|Hlt]; [lia|].
      apply Hix2 in Hr as (ndr & Hndr & Hnode). rewrite Hn2, lookup_app_l in Hndr by lia.
      assert (node_to_index g1 !! root = Some r) by (apply Hix; eauto). congruence.
    + rewrite Hn2, lookup_app_l in Hj by lia. destruct (Hhk j nd Hge Hj) as (a & r & Ha & Hr & Hge' & Hl).
      exists a, r. split_and!; [apply elem_of_app; by left|by eapply lookup_weaken|done|].
      rewrite (extends_layer g1 g2); [done|done|]. apply Hix in Hr as (ndr & Hndr & _).
      by eapply lookup_lt_Some.
Qed.

Lemma walks_run fuel roots adds g0 s s' :
  grown (world s) roots g0 (state s) ->
  mfor adds (fun a => do! Graph.initialise_node fuel (pa_node a) in mreturn tt) s = (Ok tt, s') ->
  exists g, s' = set_state g s /\ grown (world s) (roots ++ map pa_node adds) g0 g.
Proof.
  revert roots s. induction adds as [|a adds IH]; intros roots s Hg Hrun.
  { injection Hrun as <-. exists (state s). rewrite app_nil_r. by destruct s. }
  simpl in Hrun. inv_bind Hrun. destruct a0. inv_bind E. injection E as ->.
  pose proof (initialise_node_ticked _ _ _ _ _ E0) as Ht.
  destruct (initialise_node_ok _ _ _ _ _ (gn_index _ _ _ _ Hg) E0) as (g1 & -> & Hi & Hcase).
  assert (Hg1 : grown (world s) (roots ++ [pa_node a]) g0 g1).
  { destruct Hcase as [->|[Hun Hwi]]; [apply grown_seen; [done|by exists a0]|by eapply grown_walk]. }
  destruct (IH _ (set_state g1 s) Hg1 Hrun) as (g & -> & Hg'). exists g.
  by rewrite <-app_assoc in Hg'.
Qed.

(** ** Wiring the downstream edges of the new nodes *)

Lemma wire_new_edges ix es s :
  Forall (fun e => node_index e < length (nodes (state s))) es ->
  exists ns', mfor es (fun edge =>
      update_node (node_index edge) (push_downstream (mkEdge ix (edge_active edge)))) s =
      (Ok tt, with_nodes ns' s) /\
    same_but_downs (nodes (state s)) ns' /\
    forall p x, x ∈ downs ns' p <-> x ∈ downs (nodes (state s)) p \/
      (node_index x = ix /\ mkEdge p (edge_active x) ∈ es).
Proof.
  revert s. induction es as [|e es IH]; intros s Hes.
  - exists (nodes (state s)). split_and!; [by destruct s as [? [] ?]|done|].
    intros p x. split; [by left|]. by intros [?|[_ ?%not_elem_of_nil]].
  - apply Forall_cons in Hes as [[y Hy]%lookup_lt_is_Some_2 Hes].
    pose proof (push_down_same _ _ _ (mkEdge ix (edge_active e)) Hy) as Hsame.
    set (ns1 := <[node_index e := push_downstream (mkEdge ix (edge_active e)) y]> (nodes (state s))) in *.
    destruct (IH (with_nodes ns1 s)) as (ns' & Hrun & Hs' & Hd').
    { by rewrite with_nodes_nodes, (same_but_downs_length _ _ Hsame). }
    exists ns'. split_and!.
    + simpl. rewrite (mbind_ok _ _ _ tt (with_nodes ns1 s)); [exact Hrun|].
      unfold update_node, mbind, get_state, at_index, mlift. by rewrite Hy.
    + by eapply same_but_downs_trans.
    + intros p x. rewrite Hd', with_nodes_nodes. unfold ns1. rewrite (push_down_downs _ _ _ _ _ _ Hy).
      rewrite elem_of_cons. destruct x as [xi xa], e as [ei ea]; simpl. naive_solver.
Qed.

Lemma wire_new_run n k s :
  k + n = length (nodes (state s)) ->
  (forall i nd e, nodes (state s) !! i = Some nd -> e ∈ upstreams nd -> node_index e < length (nodes (state s))) ->
  exists ns', mfor (seq k n) (fun ix =>
      let! nd := node_at ix in
      mfor (upstreams nd) (fun edge =>
        update_node (node_index edge) (push_downstream (mkEdge ix (edge_active edge))))) s =
      (Ok tt, with_nodes ns' s) /\
    same_but_downs (nodes (state s)) ns' /\
    forall p x, x ∈ downs ns' p <-> x ∈ downs (nodes (state s)) p \/
      (k <= node_index x /\ up_edge (nodes (state s)) p (node_index x) (edge_active x)).
Proof.
  revert k s. induction n as [|n IH]; intros k s Hk Hup.
  - exists (nodes (state s)). split_and!; [by destruct s as [? [] ?]|done|].
    intros p x. split; [by left|]. intros [?|[Hx (nd & Hl%lookup_lt_Some & _)]]; [done|lia].
  - destruct (lookup_lt_is_Some_2 (nodes (state s)) k) as [nd Hnd]; [lia|].
    destruct (wire_new_edges k (upstreams nd) s) as (ns1 & Hrun1 & Hs1 & Hd1).
    { apply Forall_forall. intros e He. by eapply Hup. }
    pose proof (same_but_downs_length _ _ Hs1) as Hlen.
    destruct (IH (S k) (with_nodes ns1 s)) as (ns' & Hrun & Hs' & Hd').
    { rewrite with_nodes_nodes, Hlen. lia. }
    { rewrite with_nodes_nodes, Hlen. intros i x e Hi He.
      destruct (same_but_downs_lookup _ _ _ _ (same_but_downs_sym _ _ Hs1) Hi) as (y & Hy & _ & Hu & _).
      rewrite <-Hu in He. by eapply Hup. }
    rewrite with_nodes_nodes in *. exists ns'. split_and!.
    + simpl. rewrite (mbind_ok _ _ _ tt (with_nodes ns1 s)); [exact Hrun|].
      unfold node_at. unfold mbind at 1 2, get_state, at_index, mlift. by rewrite Hnd.
    + by eapply same_but_downs_trans.
    + intros p x. rewrite Hd', Hd1, (same_but_downs_up _ _ _ _ _ Hs1). split.
      * intros [[?|[Hx Hu]]|[Hx Hu]]; [by left|right|right; split; [lia|done]].
        split; [lia|]. exists nd. by rewrite Hx.
      * intros [?|[Hx Hu]]; [by auto|]. destruct (decide (node_index x = k)) as [Hxk|].
        -- destruct Hu as (nd' & Hj & Hu). left. right. split; [done|]. congruence.
        -- right. split; [lia|done].
Qed.
End walks.

(** ** After the new nodes are wired *)

Section wired_new.
Context {W : Type} `{NodeOps W}.
Implicit Types (g : GraphState).

Definition with_new (ns : list NodeData) (k : nat) (g : GraphState) : GraphState :=
  set_nodes (set_node_dirty g (node_dirty g ++ repeat false k)) ns.

Lemma index_ok_same_downs g ns' :
  index_ok g -> same_but_downs (nodes g) ns' -> index_ok (set_nodes g ns').
Proof.
  intros [Htl Hix] Hs. split; simpl; [by rewrite (same_but_downs_length _ _ Hs)|].
  intros a i. rewrite Hix. split; intros (nd & Hi & Hn).
  - destruct (same_but_downs_lookup _ _ _ _ Hs Hi) as (nd' & ? & ? & _). exists nd'. split; congruence.
  - destruct (same_but_downs_lookup _ _ _ _ (same_but_downs_sym _ _ Hs) Hi) as (nd' & ? & ? & _).
    exists nd'. split; congruence.
Qed.

Lemma layer_at_same_downs g g' :
  same_but_downs (nodes g) (nodes g') -> forall i, layer_at g' i = layer_at g i.
Proof.
  intros Hs i. unfold layer_at. destruct (nodes g !! i) as [nd|] eqn:E.
  - destruct (same_but_downs_lookup _ _ _ _ Hs E) as (nd' & -> & _ & _ & Hl & _). done.
  - apply lookup_ge_None in E. rewrite (proj2 (lookup_ge_None (nodes g') i)); [done|].
    by rewrite (same_but_downs_length _ _ Hs).
Qed.

Section state.
Context (w : W) (roots : list addr) (g0 g : GraphState) (ns' : list NodeData).
Context (Hw0 : graph_wf g0) (Hg : grown w roots g0 g).
Context (Hs : same_but_downs (nodes g) ns').
Context (Hd : forall p x, x ∈ downs ns' p <-> x ∈ downs (nodes g) p \/
  (length (nodes g0) <= node_index x /\ up_edge (nodes g) p (node_index x) (edge_active x))).

Lemma grown_len : length (nodes g0) <= length (nodes g).
Proof. destruct (gn_prefix _ _ _ _ Hg) as (new & -> & _). rewrite length_app. lia. Qed.

Lemma grown_old i nd : i < length (nodes g0) -> nodes g !! i = Some nd -> nodes g0 !! i = Some nd.
Proof. destruct (gn_prefix _ _ _ _ Hg) as (new & -> & _). intros Hi. by rewrite lookup_app_l. Qed.

Lemma grown_old' i nd : nodes g0 !! i = Some nd -> nodes g !! i = Some nd.
Proof.
  destruct (gn_prefix _ _ _ _ Hg) as (new & -> & _). intros Hi. rewrite lookup_app_l; [done|].
  by eapply lookup_lt_Some.
Qed.

Lemma grown_downs p x : x ∈ downs (nodes g) p -> exists nd, nodes g0 !! p = Some nd /\ x ∈ downstreams nd.
Proof.
  unfold downs. destruct (gn_prefix _ _ _ _ Hg) as (new & -> & Hnew).
  destruct ((nodes g0 ++ new) !! p) as [nd|] eqn:E; [|by intros ?%not_elem_of_nil]. simpl. intros Hx.
  apply lookup_app_Some in E as [E|[_ E]]; [by exists nd|].
  rewrite Forall_lookup in Hnew. rewrite (Hnew _ _ E) in Hx. by apply not_elem_of_nil in Hx.
Qed.

Lemma grown_layer i : i < length (nodes g0) -> layer_at g i = layer_at g0 i.
Proof.
  intros Hi. apply extends_layer; [|done]. destruct (gn_prefix _ _ _ _ Hg) as (new & Hn & _).
  split; [by exists new|apply Hg].
Qed.

Lemma back_node i nd' : ns' !! i = Some nd' -> exists nd, nodes g !! i = Some nd /\
  upstreams nd = upstreams nd' /\ layer nd = layer nd' /\ active nd = active nd'.
Proof.
  intros Hi. destruct (same_but_downs_lookup _ _ _ _ (same_but_downs_sym _ _ Hs) Hi)
    as (nd & ? & _ & ? & ? & ?). by exists nd.
Qed.

Lemma new_edge_layer j nd e :
  length (nodes g0) <= j -> nodes g !! j = Some nd -> e ∈ upstreams nd ->
  node_index e < j /\ layer_at g (node_index e) < layer nd.
Proof.
  intros Hge Hj He. destruct (gn_new _ _ _ _ Hg _ _ Hge Hj) as (_ & Hb & Hl & _).
  rewrite Forall_forall in Hb. split; [by apply Hb|]. rewrite Hl. by apply edges_layer_gt.
Qed.

(** The edges of the table, upstream and downstream, with their layers. *)
Lemma up_facts i nd e : nodes g !! i = Some nd -> e ∈ upstreams nd ->
  node_index e < length (nodes g) /\
  (active nd = true -> layer_at g (node_index e) < layer nd /\
     mkEdge i (edge_active e) ∈ downs ns' (node_index e)).
Proof.
  intros Hi He. pose proof (lookup_lt_Some _ _ _ Hi) as Hlt.
  destruct (decide (length (nodes g0) <= i)) as [Hge|Hold].
  - destruct (new_edge_layer _ _ _ Hge Hi He) as [Hb Hl]. split; [lia|]. intros _. split; [done|].
    apply Hd. right. simpl. split; [done|]. exists nd. split; [done|]. by destruct e.
  - apply grown_old in Hi; [|lia]. pose proof (gw_up _ Hw0 _ _ _ Hi He) as Hb.
    pose proof grown_len. split; [lia|]. intros Hac. rewrite grown_layer by done. split; [by eapply gw_layer|].
    apply Hd. left. pose proof (gw_sym _ Hw0 _ _ _ Hi Hac He) as Hsy.
    unfold downs, downstreams_at in *. destruct (nodes g0 !! node_index e) as [y|] eqn:Ey;
      [|by apply not_elem_of_nil in Hsy]. by rewrite (grown_old' _ _ Ey).
Qed.

Lemma down_facts i nd e : nodes g !! i = Some nd -> e ∈ downs ns' i ->
  node_index e < length (nodes g) /\
  (active nd = true -> layer nd < layer_at g (node_index e) /\
     up_edge (nodes g) i (node_index e) (edge_active e)).
Proof.
  intros Hi He. assert (Hlay : layer_at g i = layer nd) by (unfold layer_at; by rewrite Hi).
  apply Hd in He as [He|[Hge Hu]].
  - apply grown_downs in He as (nd0 & Hi0 & He). pose proof (grown_old' _ _ Hi0) as Hi'. simplify_eq.
    pose proof (gw_down _ Hw0 _ _ _ Hi0 He) as Hb. pose proof grown_len. split; [lia|]. intros Hac.
    rewrite grown_layer by done. split; [by eapply gw_down_layer|].
    pose proof (gw_back _ Hw0 _ _ _ Hi0 Hac He) as Hbk. unfold upstreams_at in Hbk.
    destruct (nodes g0 !! node_index e) as [y|] eqn:Ey; [|by apply not_elem_of_nil in Hbk].
    exists y. by rewrite (grown_old' _ _ Ey).
  - pose proof Hu as (y & Hy & Hin). split; [by eapply lookup_lt_Some|]. intros _. split; [|done].
    destruct (new_edge_layer _ _ _ Hge Hy Hin) as [_ Hl]. simpl in Hl. rewrite Hlay in Hl.
    unfold layer_at. by rewrite Hy.
Qed.

Lemma grown_wf_part :
  wf_part [] (length (nodes g0)) (with_new ns' (length (nodes g) - length (nodes g0)) g).
Proof.
  pose proof grown_len as Hlen. pose proof (same_but_downs_length _ _ Hs) as Hl'.
  set (g3 := with_new ns' _ g). pose proof (gn_only _ _ _ _ Hg) as Ho. unfold only_nodes in Ho.
  assert (Hlay : forall i, layer_at g3 i = layer_at g i) by by apply layer_at_same_downs.
  assert (Hrest : node_dirty g = node_dirty g0 /\ dirty_nodes_by_layer g = dirty_nodes_by_layer g0 /\
    always_callbacks g = always_callbacks g0 /\ scheduled_callbacks g = scheduled_callbacks g0 /\
    pending_additions g = pending_additions g0) by by rewrite Ho.
  destruct Hrest as (Hnd & Hrw & Hal & Hsc & Hpe).
  assert (Hmono : forall (A : Type) (f : A -> nat) (l : list A),
    Forall (fun x => f x < length (nodes g0)) l -> Forall (fun x => f x < length (nodes g)) l).
  { intros A f l Hl. eapply Forall_impl; [exact Hl|]. simpl. intros; lia. }
  split; simpl; rewrite ?Hl', ?Hnd, ?Hrw, ?Hal, ?Hsc, ?Hpe.
  - apply (index_ok_same_downs (set_node_dirty g _)); [apply Hg|done].
  - rewrite length_app, repeat_length, (gw_dirty_len _ Hw0). lia.
  - intros i nd e Hi He. destruct (back_node _ _ Hi) as (y & Hy & Hu & _). rewrite <-Hu in He.
    by apply (up_facts _ _ _ Hy He).
  - intros i nd e Hi He. destruct (back_node _ _ Hi) as (y & Hy & _).
    apply (down_facts _ _ _ Hy). unfold downs. by rewrite Hi.
  - intros i nd e Hi Hac He. destruct (back_node _ _ Hi) as (y & Hy & _ & Hly & Hay). left.
    rewrite Hlay, <-Hly. apply (down_facts _ _ _ Hy); [|congruence]. unfold downs. by rewrite Hi.
  - intros i nd e Hi Hac He. destruct (back_node _ _ Hi) as (y & Hy & _ & Hly & Hay).
    assert (Hu : up_edge ns' i (node_index e) (edge_active e)).
    { apply (same_but_downs_up _ _ _ _ _ Hs). apply (down_facts _ _ _ Hy); [|congruence].
      unfold downs. by rewrite Hi. }
    destruct Hu as (z & Hz & Hin). unfold upstreams_at. simpl. by rewrite Hz.
  - intros i nd e Hi Hac He. destruct (back_node _ _ Hi) as (y & Hy & Hu & Hly & Hay). left.
    rewrite Hlay, <-Hly. rewrite <-Hu in He. apply (up_facts _ _ _ Hy He). congruence.
  - intros i nd e Hi Hac He. destruct (back_node _ _ Hi) as (y & Hy & Hu & Hly & Hay).
    rewrite <-Hu in He. apply (up_facts _ _ _ Hy He). congruence.
  - intros i nd Hlt Hi. destruct (back_node _ _ Hi) as (y & Hy & _ & <- & _).
    apply grown_old in Hy; [|done]. by eapply gw_rows.
  - apply (Hmono _ (fun i => i)). apply Hw0.
  - apply (Hmono _ e_value). apply Hw0.
  - apply (Hmono _ pa_caller_index). apply Hw0.
Qed.
End state.
End wired_new.

(** ** [fix_layers] *)

(** What [fix_layers] changes: layers grow, rows are added; a node that has a
    row keeps one, and a node whose layer grew has one. *)
Record raised (g g' : GraphState) : Prop := {
  ra_len : length (nodes g') = length (nodes g);
  ra_node i nd : nodes g !! i = Some nd ->
    exists nd', nodes g' !! i = Some nd' /\ set_layer (layer nd) nd' = nd /\ layer nd <= layer nd';
  ra_rows : exists k, dirty_nodes_by_layer g' = dirty_nodes_by_layer g ++ repeat [] k;
  ra_cover i : layer_at g i < length (dirty_nodes_by_layer g) ->
    layer_at g' i < length (dirty_nodes_by_layer g');
  ra_changed i : layer_at g' i = layer_at g i \/ layer_at g' i < length (dirty_nodes_by_layer g');
  ra_rest : set_nodes (set_dirty_rows g' []) [] = set_nodes (set_dirty_rows g []) [] }.

Lemma set_layer_id nd : set_layer (layer nd) nd = nd.
Proof. by destruct nd. Qed.

Lemma raised_refl g : raised g g.
Proof.
  split; auto.
  - intros i nd Hi. exists nd. by rewrite set_layer_id.
  - exists 0. by rewrite app_nil_r.
Qed.

Lemma raised_trans g1 g2 g3 : raised g1 g2 -> raised g2 g3 -> raised g1 g3.
Proof.
  intros [L1 N1 [k1 R1] C1 H1 E1] [L2 N2 [k2 R2] C2 H2 E2]. split; [congruence| | | | |congruence].
  - intros i nd Hi. destruct (N1 _ _ Hi) as (x & Hx & Ex & Lx). destruct (N2 _ _ Hx) as (y & Hy & Ey & Ly).
    exists y. split; [done|]. split; [|lia]. rewrite <-Ex, <-Ey. by destruct y.
  - exists (k1 + k2). by rewrite R2, R1, repeat_app, app_assoc.
  - intros i Hi. by apply C2, C1.
  - intros i. destruct (H1 i) as [?|?]; [|right; by apply C2].
    destruct (H2 i); [left; congruence|by right].
Qed.

Definition extended (l : nat) (g : GraphState) : GraphState :=
  set_dirty_rows g (dirty_nodes_by_layer g ++ repeat [] (S l - length (dirty_nodes_by_layer g))).

Lemma extended_len l g :
  length (dirty_nodes_by_layer (extended l g)) = Nat.max (S l) (length (dirty_nodes_by_layer g)).
Proof. simpl. rewrite length_app, repeat_length. lia. Qed.

Definition raise_node (ix l : nat) (nd : NodeData) (g : GraphState) : GraphState :=
  set_nodes g (<[ix := set_layer l nd]> (nodes g)).

Lemma raise_layer_at ix l nd g i :
  nodes g !! ix = Some nd ->
  layer_at (raise_node ix l nd g) i = if decide (i = ix) then l else layer_at g i.
Proof.
  intros Hi. unfold layer_at, raise_node. simpl. case_decide as Hd.
  - subst i. rewrite list_lookup_insert_eq by by eapply lookup_lt_Some. done.
  - by rewrite list_lookup_insert_ne.
Qed.

Lemma raise_lookup ix l nd g i x :
  nodes g !! ix = Some nd -> nodes (raise_node ix l nd g) !! i = Some x ->
  exists y, nodes g !! i = Some y /\ x = set_layer (if decide (i = ix) then l else layer y) y.
Proof.
  intros Hi Hx. unfold raise_node in Hx. simpl in Hx. case_decide as Hd.
  - subst i. rewrite list_lookup_insert_eq in Hx by by eapply lookup_lt_Some. injection Hx as <-. by exists nd.
  - rewrite list_lookup_insert_ne in Hx by done. exists x. by rewrite set_layer_id.
Qed.

Lemma raise_edges_at (f : NodeData -> list Edge) ix l nd g k :
  (forall l x, f (set_layer l x) = f x) -> nodes g !! ix = Some nd ->
  from_option f [] (nodes (raise_node ix l nd g) !! k) = from_option f [] (nodes g !! k).
Proof.
  intros Hf Hi. unfold raise_node. simpl. destruct (decide (k = ix)) as [->|].
  - rewrite list_lookup_insert_eq by by eapply lookup_lt_Some. rewrite Hi. simpl. apply Hf.
  - by rewrite list_lookup_insert_ne.
Qed.

Lemma raise_raised ix l nd g :
  nodes g !! ix = Some nd -> layer nd < l -> raised g (extended l (raise_node ix l nd g)).
Proof.
  intros Hi Hl. assert (Hlt : ix < length (nodes g)) by by eapply lookup_lt_Some.
  assert (Hlay : forall i, layer_at (extended l (raise_node ix l nd g)) i =
    if decide (i = ix) then l else layer_at g i) by (intros i; by apply raise_layer_at).
  split.
  - simpl. by rewrite length_insert.
  - intros i x Hx. simpl. destruct (decide (i = ix)) as [->|].
    + rewrite list_lookup_insert_eq by done. simplify_eq. eexists. split; [done|].
      split; [by destruct nd|simpl; lia].
    + rewrite list_lookup_insert_ne by done. exists x. by rewrite set_layer_id.
  - by eexists.
  - intros i Hi'. rewrite Hlay, extended_len. simpl. case_decide; lia.
  - intros i. rewrite Hlay, extended_len. case_decide; [right; lia|by left].
  - done.
Qed.

Lemma extended_raised l g : raised g (extended l g).
Proof.
  split; try done; auto.
  - intros i nd Hi. exists nd. by rewrite set_layer_id.
  - by eexists.
  - intros i Hi. rewrite extended_len. unfold layer_at in *. simpl. lia.
Qed.

Lemma raise_step ix rest n nd g :
  wf_part (ix :: rest) n g -> nodes g !! ix = Some nd ->
  layer nd < edges_layer g (upstreams nd) ->
  let l := edges_layer g (upstreams nd) in
  wf_part (rest ++ map node_index (downstreams nd)) n (extended l (raise_node ix l nd g)).
Proof.
  intros [Hix Hdl Hu Hd Hdy Hbk Hl Hs Hr Ha Hq Hp] Hi Hlt l.
  assert (Hlay : forall i, layer_at (extended l (raise_node ix l nd g)) i =
    if decide (i = ix) then l else layer_at g i) by (intros i; by apply raise_layer_at).
  assert (Hun : forall k, upstreams_at (extended l (raise_node ix l nd g)) k = upstreams_at g k)
    by (intros k; by apply (raise_edges_at upstreams)).
  assert (Hdn : forall k, downstreams_at (extended l (raise_node ix l nd g)) k = downstreams_at g k)
    by (intros k; by apply (raise_edges_at downstreams)).
  assert (Hlen : length (nodes (extended l (raise_node ix l nd g))) = length (nodes g))
    by (simpl; by rewrite length_insert).
  assert (Hget : forall i x, nodes (extended l (raise_node ix l nd g)) !! i = Some x ->
    exists y, nodes g !! i = Some y /\ x = set_layer (if decide (i = ix) then l else layer y) y)
    by (intros i x; by apply raise_lookup).
  split; rewrite ?Hlen; try done.
  - destruct Hix as [Htl Hx]. split; [rewrite Hlen; exact Htl|]. intros a i.
    change (node_to_index (extended l (raise_node ix l nd g))) with (node_to_index g).
    rewrite Hx. split; intros (x & Hxi & Hn).
    + destruct (decide (i = ix)) as [->|].
      * exists (set_layer l nd). simpl. rewrite list_lookup_insert_eq by by eapply lookup_lt_Some.
        by simplify_eq.
      * exists x. simpl. by rewrite list_lookup_insert_ne.
    + destruct (Hget _ _ Hxi) as (y & Hy & ->). by exists y.
  - intros i x e Hx He. destruct (Hget _ _ Hx) as (y & Hy & ->). by eapply Hu.
  - intros i x e Hx He. destruct (Hget _ _ Hx) as (y & Hy & ->). by eapply Hd.
  - intros i x e Hx Hac He. destruct (Hget _ _ Hx) as (y & Hy & ->). simpl in Hac, He. rewrite Hlay. simpl.
    destruct (decide (i = ix)) as [->|Hne].
    { simplify_eq. right. apply elem_of_app. right. apply list_elem_of_fmap. by exists e. }
    destruct (decide (node_index e = ix)) as [Hde|Hde].
    + left. pose proof (Hbk _ _ _ Hy Hac He) as Hb. rewrite Hde in Hb. unfold upstreams_at in Hb.
      rewrite Hi in Hb. apply (edges_layer_gt g) in Hb. simpl in Hb. unfold layer_at in Hb at 1.
      by rewrite Hy in Hb.
    + destruct (Hdy _ _ _ Hy Hac He) as [?|[?|?]%elem_of_cons]; [by left|done|].
      right. apply elem_of_app. by left.
  - intros i x e Hx Hac He. destruct (Hget _ _ Hx) as (y & Hy & ->). rewrite Hun. by eapply Hbk.
  - intros i x e Hx Hac He. destruct (Hget _ _ Hx) as (y & Hy & ->). simpl in Hac, He. rewrite Hlay. simpl.
    destruct (decide (node_index e = ix)) as [Hde|Hde].
    { right. apply elem_of_app. right. pose proof (Hs _ _ _ Hy Hac He) as Hsy. rewrite Hde in Hsy.
      unfold downstreams_at in Hsy. rewrite Hi in Hsy. apply list_elem_of_fmap.
      eexists. split; [|exact Hsy]. done. }
    destruct (decide (i = ix)) as [->|Hne].
    + simplify_eq. left. by apply edges_layer_gt.
    + destruct (Hl _ _ _ Hy Hac He) as [?|[?|?]%elem_of_cons]; [by left|done|].
      right. apply elem_of_app. by left.
  - intros i x e Hx Hac He. destruct (Hget _ _ Hx) as (y & Hy & ->). rewrite Hdn. by eapply Hs.
  - intros i x Hin Hx. destruct (Hget _ _ Hx) as (y & Hy & ->). rewrite extended_len. simpl.
    destruct (decide (i = ix)); [lia|]. specialize (Hr _ _ Hin Hy). lia.
Qed.

Lemma keep_step ix rest n nd g :
  wf_part (ix :: rest) n g -> nodes g !! ix = Some nd ->
  edges_layer g (upstreams nd) <= layer nd -> wf_part rest n (extended (layer nd) g).
Proof.
  intros [Hix Hdl Hu Hd Hdy Hbk Hl Hs Hr Ha Hq Hp] Hi Hle.
  assert (Hlix : layer_at g ix = layer nd) by (unfold layer_at; by rewrite Hi).
  split; try done.
  - intros i x e Hx Hac He. change (nodes g !! i = Some x) in Hx. destruct (Hdy _ _ _ Hx Hac He) as [?|[He'|?]%elem_of_cons]; [by left| |by right].
    left. pose proof (Hbk _ _ _ Hx Hac He) as Hb. rewrite He' in Hb. unfold upstreams_at in Hb.
    rewrite Hi in Hb. apply (edges_layer_gt g) in Hb. simpl in Hb. unfold layer_at in Hb at 1.
    rewrite Hx in Hb. simpl in Hb. change (layer x < layer_at g (node_index e)). rewrite He', Hlix. lia.
  - intros i x e Hx Hac He. change (nodes g !! i = Some x) in Hx. destruct (Hl _ _ _ Hx Hac He) as [?|[Hii|?]%elem_of_cons]; [by left| |by right].
    left. subst i. simplify_eq. apply (edges_layer_gt g) in He.
    change (layer_at g (node_index e) < layer nd). lia.
  - intros i x Hin Hx. change (nodes g !! i = Some x) in Hx. rewrite extended_len. specialize (Hr _ _ Hin Hx). lia.
Qed.

Section fix_loop.
Context {W : Type} `{NodeOps W}.
Implicit Types (s : Sys W) (g : GraphState).

Lemma layers_of_run es s :
  Forall (fun e => node_index e < length (nodes (state s))) es ->
  Graph.layers_of es s = (Ok (map (fun e => layer_at (state s) (node_index e)) es), s).
Proof.
  induction es as [|e es IH]; intros Hes; [done|].
  apply Forall_cons in Hes as [[nd Hnd]%lookup_lt_is_Some_2 Hes]. simpl.
  unfold node_at. unfold mbind at 1 2, get_state, at_index, mlift. rewrite Hnd.
  rewrite (mbind_ok _ _ _ _ _ (IH Hes)). unfold layer_at at 2. by rewrite Hnd.
Qed.

(** One round of the loop. *)
Lemma fix_round fuel ix rest s nd :
  nodes (state s) !! ix = Some nd ->
  Forall (fun e => node_index e < length (nodes (state s))) (upstreams nd) ->
  let l := edges_layer (state s) (upstreams nd) in
  Graph.fix_layers_loop (S fuel) (ix :: rest) s =
  if layer nd <? l
  then Graph.fix_layers_loop fuel (rest ++ map node_index (downstreams nd))
         (set_state (extended l (raise_node ix l nd (state s))) s)
  else Graph.fix_layers_loop fuel rest (set_state (extended (layer nd) (state s)) s).
Proof.
  intros Hi Hes l. simpl. unfold node_at at 1. unfold mbind at 1 2, get_state at 1, at_index at 1, mlift.
  rewrite Hi. erewrite mbind_ok by by apply layers_of_run. fold (edges_layer (state s) (upstreams nd)).
  fold l. destruct (layer nd <? l); [|done].
  unfold update_node. unfold mbind at 1 2 3, get_state, at_index, mlift. by rewrite Hi.
Qed.

Lemma fix_layers_ok fuel Q n s s' :
  wf_part Q n (state s) -> Forall (fun i => i < length (nodes (state s))) Q ->
  Graph.fix_layers_loop fuel Q s = (Ok tt, s') ->
  exists g, s' = set_state g s /\ wf_part [] n g /\ raised (state s) g /\
    forall i, i ∈ Q -> layer_at g i < length (dirty_nodes_by_layer g).
Proof.
  revert Q s. induction fuel as [|fuel IH]; intros Q s Hw HQ Hrun; destruct Q as [|ix rest]; try done.
  1,2: injection Hrun as <-; exists (state s); split_and!;
    [by destruct s|done|apply raised_refl|by intros i ?%not_elem_of_nil].
  apply Forall_cons in HQ as [[nd Hi]%lookup_lt_is_Some_2 HQ].
  assert (Hes : Forall (fun e => node_index e < length (nodes (state s))) (upstreams nd)).
  { apply Forall_forall. intros e He. by eapply (wp_up _ _ _ Hw). }
  rewrite (fix_round _ _ _ _ _ Hi Hes) in Hrun.
  destruct (Nat.ltb_spec (layer nd) (edges_layer (state s) (upstreams nd))) as [Hlt|Hle].
  - pose proof (raise_step _ _ _ _ _ Hw Hi Hlt) as Hw'. cbv zeta in Hw'.
    pose proof (raise_raised _ _ _ _ Hi Hlt) as Hra.
    apply (IH _ (set_state _ s)) in Hrun as (g & -> & Hwg & Hrg & Hc); [|done|].
    + exists g. split_and!; [done|done|eapply raised_trans; [exact Hra|exact Hrg]|].
      intros i [->|Hin]%elem_of_cons.
      * apply (ra_cover _ _ Hrg).
        change (state (set_state ?h _)) with h. rewrite extended_len.
        change (layer_at (extended _ ?h) ?i) with (layer_at h i).
        rewrite raise_layer_at by done. rewrite decide_True by done. lia.
      * apply Hc. apply elem_of_app. by left.
    + simpl. rewrite length_insert. apply Forall_app. split; [done|].
      apply Forall_forall. intros i (e & -> & He)%list_elem_of_fmap. by eapply (wp_down _ _ _ Hw).
  - pose proof (keep_step _ _ _ _ _ Hw Hi Hle) as Hw'.
    apply (IH _ (set_state _ s)) in Hrun as (g & -> & Hwg & Hrg & Hc); [|exact Hw'|exact HQ].
    exists g. split_and!; [done|done|eapply raised_trans; [apply extended_raised|exact Hrg]|].
    intros i [->|Hin]%elem_of_cons; [|by apply Hc]. apply (ra_cover _ _ Hrg).
    change (state (set_state ?h _)) with h. rewrite extended_len. change (layer_at (extended _ ?h) ?i) with (layer_at h i).
    unfold layer_at. rewrite Hi. simpl. lia.
Qed.
End fix_loop.

(** ** The edge from the caller to the added node *)

(** [g'] is [g] with an edge from [i] to [c] at both its ends. *)
Record linked (c i : nat) (act : bool) (g g' : GraphState) : Prop := {
  lk_len : length (nodes g') = length (nodes g);
  lk_node k x' : nodes g' !! k = Some x' -> exists x, nodes g !! k = Some x /\
    node x' = node x /\ layer x' = layer x /\ active x' = active x /\
    (forall e, e ∈ upstreams x' <-> e ∈ upstreams x \/ (k = c /\ e = mkEdge i act)) /\
    (forall e, e ∈ downstreams x' <-> e ∈ downstreams x \/ (k = i /\ e = mkEdge c act));
  lk_rest : set_nodes g' [] = set_nodes g [] }.

Lemma linked_fwd c i act g g' k x :
  linked c i act g g' -> nodes g !! k = Some x -> exists x', nodes g' !! k = Some x' /\
    node x' = node x /\ layer x' = layer x /\ active x' = active x /\
    (forall e, e ∈ upstreams x' <-> e ∈ upstreams x \/ (k = c /\ e = mkEdge i act)) /\
    (forall e, e ∈ downstreams x' <-> e ∈ downstreams x \/ (k = i /\ e = mkEdge c act)).
Proof.
  intros [Hlen Hn _] Hk. destruct (lookup_lt_is_Some_2 (nodes g') k) as [x' Hk'].
  { rewrite Hlen. by eapply lookup_lt_Some. }
  destruct (Hn _ _ Hk') as (y & Hy & Hrest). simplify_eq. eauto.
Qed.

Lemma linked_layer c i act g g' k : linked c i act g g' -> layer_at g' k = layer_at g k.
Proof.
  intros Hl. unfold layer_at. destruct (nodes g !! k) as [x|] eqn:E.
  - destruct (linked_fwd _ _ _ _ _ _ _ Hl E) as (x' & -> & _ & Hx & _). done.
  - apply lookup_ge_None in E. rewrite (proj2 (lookup_ge_None (nodes g') k)); [done|].
    by rewrite (lk_len _ _ _ _ _ Hl).
Qed.

Lemma linked_wf c i act n g g' :
  c < length (nodes g) -> i < length (nodes g) -> wf_part [] n g -> linked c i act g g' ->
  wf_part [c] n g'.
Proof.
  intros Hc Hi [Hix Hdl Hu Hd Hdy Hbk Hl Hs Hr Ha Hq Hp] Hlk. pose proof Hlk as [Hlen Hn Hrest].
  assert (Hsame : node_to_index g' = node_to_index g /\ node_ticked g' = node_ticked g /\
    node_dirty g' = node_dirty g /\ dirty_nodes_by_layer g' = dirty_nodes_by_layer g /\
    always_callbacks g' = always_callbacks g /\ scheduled_callbacks g' = scheduled_callbacks g /\
    pending_additions g' = pending_additions g).
  { split_and!; [by apply (f_equal node_to_index) in Hrest|by apply (f_equal node_ticked) in Hrest
      |by apply (f_equal node_dirty) in Hrest|by apply (f_equal dirty_nodes_by_layer) in Hrest
      |by apply (f_equal always_callbacks) in Hrest|by apply (f_equal scheduled_callbacks) in Hrest
      |by apply (f_equal pending_additions) in Hrest]. }
  destruct Hsame as (Hni & Hnt & Hnd & Hrw & Hal & Hsc & Hpe).
  assert (Hups : forall k e, e ∈ upstreams_at g k -> e ∈ upstreams_at g' k).
  { intros k e. unfold upstreams_at. destruct (nodes g !! k) as [x|] eqn:E; [|by intros ?%not_elem_of_nil].
    destruct (linked_fwd _ _ _ _ _ _ _ Hlk E) as (x' & -> & _ & _ & _ & Hux & _). simpl. rewrite Hux. auto. }
  assert (Hdns : forall k e, e ∈ downstreams_at g k -> e ∈ downstreams_at g' k).
  { intros k e. unfold downstreams_at. destruct (nodes g !! k) as [x|] eqn:E; [|by intros ?%not_elem_of_nil].
    destruct (linked_fwd _ _ _ _ _ _ _ Hlk E) as (x' & -> & _ & _ & _ & _ & Hdx). simpl. rewrite Hdx. auto. }
  split; rewrite ?Hlen, ?Hnd, ?Hrw, ?Hal, ?Hsc, ?Hpe; try done.
  - destruct Hix as [Htl Hx]. split; [by rewrite Hnt, Hlen|]. intros a k. rewrite Hni, Hx.
    split; intros (x & Hk & Hnx).
    + destruct (linked_fwd _ _ _ _ _ _ _ Hlk Hk) as (x' & ? & ? & _). exists x'. split; [done|congruence].
    + destruct (Hn _ _ Hk) as (y & ? & ? & _). exists y. split; [done|congruence].
  - intros k x' e Hk He. destruct (Hn _ _ Hk) as (x & Hx & _ & _ & _ & Hux & _).
    destruct (proj1 (Hux _) He) as [He'|[_ ->]]; [by eapply Hu|done].
  - intros k x' e Hk He. destruct (Hn _ _ Hk) as (x & Hx & _ & _ & _ & _ & Hdx).
    destruct (proj1 (Hdx _) He) as [He'|[_ ->]]; [by eapply Hd|done].
  - intros k x' e Hk Hac He. destruct (Hn _ _ Hk) as (x & Hx & _ & Hlx & Hax & _ & Hdx).
    rewrite (linked_layer _ _ _ _ _ _ Hlk), Hlx. destruct (proj1 (Hdx _) He) as [He'|[_ ->]]; [|right; by left].
    left. rewrite Hax in Hac. destruct (Hdy _ _ _ Hx Hac He') as [?|?%not_elem_of_nil]; done.
  - intros k x' e Hk Hac He. destruct (Hn _ _ Hk) as (x & Hx & _ & Hlx & Hax & _ & Hdx).
    destruct (proj1 (Hdx _) He) as [He'|[-> ->]]; [apply Hups; rewrite Hax in Hac; by eapply Hbk|]. simpl.
    destruct (lookup_lt_is_Some_2 _ _ Hc) as [y Hy].
    destruct (linked_fwd _ _ _ _ _ _ _ Hlk Hy) as (y' & Hy' & _ & _ & _ & Huy & _).
    unfold upstreams_at. rewrite Hy'. simpl. apply Huy. by right.
  - intros k x' e Hk Hac He. destruct (Hn _ _ Hk) as (x & Hx & _ & Hlx & Hax & Hux & _).
    rewrite (linked_layer _ _ _ _ _ _ Hlk), Hlx. destruct (proj1 (Hux _) He) as [He'|[-> _]]; [|right; by left].
    left. rewrite Hax in Hac. destruct (Hl _ _ _ Hx Hac He') as [?|?%not_elem_of_nil]; done.
  - intros k x' e Hk Hac He. destruct (Hn _ _ Hk) as (x & Hx & _ & Hlx & Hax & Hux & _).
    destruct (proj1 (Hux _) He) as [He'|[-> ->]]; [apply Hdns; rewrite Hax in Hac; by eapply Hs|]. simpl.
    destruct (lookup_lt_is_Some_2 _ _ Hi) as [y Hy].
    destruct (linked_fwd _ _ _ _ _ _ _ Hlk Hy) as (y' & Hy' & _ & _ & _ & _ & Hdy').
    unfold downstreams_at. rewrite Hy'. simpl. apply Hdy'. by right.
  - intros k x' Hlt Hk. destruct (Hn _ _ Hk) as (x & Hx & _ & -> & _). by eapply Hr.
Qed.

Lemma wf_part_weaken Q n g : wf_part [] n g -> wf_part Q n g.
Proof.
  intros []. split; try done.
  - intros i nd e Hi Hac He. destruct (wp_down_layer0 _ _ _ Hi Hac He) as [?|?%not_elem_of_nil]; [by left|done].
  - intros i nd e Hi Hac He. destruct (wp_layer0 _ _ _ Hi Hac He) as [?|?%not_elem_of_nil]; [by left|done].
Qed.

Section link.
Context {W : Type} `{NodeOps W}.
Implicit Types (s : Sys W) (g : GraphState).

Lemma link_run c i act s :
  c < length (nodes (state s)) -> i < length (nodes (state s)) ->
  exists g, mbind (update_node c (push_upstream (mkEdge i act)))
      (fun _ => update_node i (push_downstream (mkEdge c act))) s = (Ok tt, set_state g s) /\
    linked c i act (state s) g.
Proof.
  intros [x Hx]%lookup_lt_is_Some_2 Hi.
  set (ns1 := <[c := push_upstream (mkEdge i act) x]> (nodes (state s))).
  destruct (lookup_lt_is_Some_2 ns1 i) as [y Hy]; [unfold ns1; by rewrite length_insert|].
  eexists. split.
  - rewrite (mbind_ok _ _ _ tt (with_nodes ns1 s)).
    + unfold update_node, mbind, get_state, at_index, mlift. rewrite with_nodes_nodes, Hy. reflexivity.
    + unfold update_node, mbind, get_state, at_index, mlift. by rewrite Hx.
  - assert (Hltc : c < length (nodes (state s))) by by eapply lookup_lt_Some.
    split; simpl; [unfold ns1; by rewrite !length_insert| |done].
    assert (H1 : forall k z, ns1 !! k = Some z -> exists z0, nodes (state s) !! k = Some z0 /\
      node z = node z0 /\ layer z = layer z0 /\ active z = active z0 /\ downstreams z = downstreams z0 /\
      forall e, e ∈ upstreams z <-> e ∈ upstreams z0 \/ (k = c /\ e = mkEdge i act)).
    { unfold ns1. intros k z Hz. destruct (decide (k = c)) as [->|Hne].
      - rewrite list_lookup_insert_eq in Hz by done. injection Hz as <-. exists x. split_and!; try done.
        intros e. simpl. rewrite elem_of_app, list_elem_of_singleton. naive_solver.
      - rewrite list_lookup_insert_ne in Hz by done. exists z. split_and!; try done. naive_solver. }
    intros k z Hz. destruct (decide (k = i)) as [->|Hne].
    + rewrite list_lookup_insert_eq in Hz by by eapply lookup_lt_Some. injection Hz as <-.
      destruct (H1 _ _ Hy) as (z0 & Hz0 & ? & ? & ? & Hdz & Huz). exists z0. simpl. split_and!; try done.
      intros e. rewrite elem_of_app, list_elem_of_singleton, Hdz. naive_solver.
    + rewrite list_lookup_insert_ne in Hz by done.
      destruct (H1 _ _ Hz) as (z0 & Hz0 & ? & ? & ? & Hdz & Huz). exists z0. split_and!; try done.
      intros e. rewrite Hdz. naive_solver.
Qed.
End link.

(** ** One addition *)

(** What wiring the pending additions changes, the new nodes being there. *)
Record adds_rel (g g' : GraphState) : Prop := {
  ad_len : length (nodes g') = length (nodes g);
  ad_node i nd : nodes g !! i = Some nd -> exists nd', nodes g' !! i = Some nd' /\
    node nd' = node nd /\ active nd' = active nd /\ layer nd <= layer nd' /\
    forall e, e ∈ downstreams nd -> e ∈ downstreams nd';
  ad_rows : exists k, dirty_nodes_by_layer g' = dirty_nodes_by_layer g ++ repeat [] k;
  ad_cover i : layer_at g i < length (dirty_nodes_by_layer g) ->
    layer_at g' i < length (dirty_nodes_by_layer g');
  ad_changed i : layer_at g' i = layer_at g i \/ layer_at g' i < length (dirty_nodes_by_layer g');
  ad_index : node_to_index g' = node_to_index g;
  ad_ticked : node_ticked g' = node_ticked g;
  ad_dirty : node_dirty g' = node_dirty g;
  ad_current : current_node_index g' = current_node_index g;
  ad_run : same_run g g' }.

Lemma adds_refl g : adds_rel g g.
Proof.
  split; auto; [|exists 0; by rewrite app_nil_r|done]. intros i nd Hi. by exists nd.
Qed.

Lemma adds_trans g1 g2 g3 : adds_rel g1 g2 -> adds_rel g2 g3 -> adds_rel g1 g3.
Proof.
  intros [L1 N1 [k1 R1] C1 H1 I1 T1 D1 U1 S1] [L2 N2 [k2 R2] C2 H2 I2 T2 D2 U2 S2].
  split; try congruence; [| | | |by etransitivity].
  - intros i nd Hi. destruct (N1 _ _ Hi) as (x & Hx & ? & ? & ? & ?).
    destruct (N2 _ _ Hx) as (y & Hy & ? & ? & ? & ?). exists y. split_and!; try congruence; [lia|auto].
  - exists (k1 + k2). by rewrite R2, R1, repeat_app, app_assoc.
  - intros i Hi. by apply C2, C1.
  - intros i. destruct (H1 i) as [?|?]; [|right; by apply C2].
    destruct (H2 i); [left; congruence|by right].
Qed.

Lemma linked_adds c i act g g' : linked c i act g g' -> adds_rel g g'.
Proof.
  intros Hl. pose proof Hl as [Hlen _ Hr].
  split; try done.
  - intros k x Hk. destruct (linked_fwd _ _ _ _ _ _ _ Hl Hk) as (x' & ? & ? & ? & ? & _ & Hd).
    exists x'. split_and!; [done|done|done|lia|]. intros e He. apply Hd. by left.
  - exists 0. rewrite app_nil_r. by apply (f_equal dirty_nodes_by_layer) in Hr.
  - intros k. rewrite (linked_layer _ _ _ _ _ _ Hl).
    replace (dirty_nodes_by_layer g') with (dirty_nodes_by_layer g); [done|].
    by apply (f_equal dirty_nodes_by_layer) in Hr.
  - intros k. left. by eapply linked_layer.
  - by apply (f_equal node_to_index) in Hr.
  - by apply (f_equal node_ticked) in Hr.
  - by apply (f_equal node_dirty) in Hr.
  - by apply (f_equal current_node_index) in Hr.
  - split; [by apply (f_equal time) in Hr|by apply (f_equal wall_time) in Hr
      |by apply (f_equal first_cycle) in Hr|by apply (f_equal is_last_cycle) in Hr
      |by apply (f_equal run_mode) in Hr|by apply (f_equal run_for) in Hr
      |by apply (f_equal ready_callbacks) in Hr|by apply (f_equal start_time) in Hr
      |by apply (f_equal wiring_error) in Hr].
Qed.

Lemma raised_adds g g' : raised g g' -> adds_rel g g'.
Proof.
  intros [Hlen Hn Hrw Hc Hch Hr]. split; try done.
  - intros k x Hk. destruct (Hn _ _ Hk) as (x' & Hx' & He & Hl). exists x'.
    rewrite <-He. by split_and!.
  - by apply (f_equal node_to_index) in Hr.
  - by apply (f_equal node_ticked) in Hr.
  - by apply (f_equal node_dirty) in Hr.
  - by apply (f_equal current_node_index) in Hr.
  - split; [by apply (f_equal time) in Hr|by apply (f_equal wall_time) in Hr
      |by apply (f_equal first_cycle) in Hr|by apply (f_equal is_last_cycle) in Hr
      |by apply (f_equal run_mode) in Hr|by apply (f_equal run_for) in Hr
      |by apply (f_equal ready_callbacks) in Hr|by apply (f_equal start_time) in Hr
      |by apply (f_equal wiring_error) in Hr].
Qed.

Section addition.
Context {W : Type} `{NodeOps W}.
Implicit Types (s : Sys W) (g : GraphState).

Lemma set_scheduled_part Q n g q :
  wf_part Q n g -> Forall (fun e => e_value e < length (nodes g)) (heap q) ->
  wf_part Q n (set_scheduled g q).
Proof. by intros [] Hq; split. Qed.

(** The upward walk only asks for callbacks, for nodes of the graph. *)
Lemma recycle_ok fuel new t stack visited n s s' :
  wf_part [] n (state s) -> Forall (fun i => i < length (nodes (state s))) stack ->
  Graph.recycle_walk fuel new t stack visited s = (Ok tt, s') ->
  exists q, s' = set_state (set_scheduled (state s) q) s /\
    Forall (fun e => e_value e < length (nodes (state s))) (heap q).
Proof.
  revert stack visited s. induction fuel as [|fuel IH]; intros stack visited s Hw Hst Hrun;
    destruct stack as [|ix stack]; try done.
  1,2: injection Hrun as <-; exists (scheduled_callbacks (state s)); split;
    [by destruct s as [? [] ?]|apply Hw].
  apply Forall_cons in Hst as [[nd Hi]%lookup_lt_is_Some_2 Hst]. simpl in Hrun.
  destruct (bool_decide (ix ∈ visited)); [by eapply IH|].
  unfold node_at at 1 in Hrun. unfold mbind at 1 2, get_state at 1, at_index at 1, mlift in Hrun.
  rewrite Hi in Hrun. inv_bind Hrun.
  assert (Hs0 : exists q, s0 = set_state (set_scheduled (state s) q) s /\
    Forall (fun e => e_value e < length (nodes (state s))) (heap q)).
  { destruct (_ || _) in E; injection E as _ <-.
    - eexists. split; [reflexivity|]. apply (push_heap _ _ _ (fun i => i < length (nodes (state s)))).
      + by eapply lookup_lt_Some.
      + apply Hw.
    - exists (scheduled_callbacks (state s)). split; [by destruct s as [? [] ?]|apply Hw]. }
  destruct Hs0 as (q & -> & Hq).
  apply IH in Hrun as (q' & -> & Hq'); [by exists q'|by apply set_scheduled_part|].
  simpl. apply Forall_app. split; [|done]. apply Forall_rev, Forall_forall.
  intros j Hj. apply list_elem_of_In, filter_In in Hj as [Hj _].
  apply list_elem_of_In, list_elem_of_fmap in Hj as (e & -> & He). by eapply (wp_up _ _ _ Hw).
Qed.

Lemma scheduled_adds g q : adds_rel g (set_scheduled g q).
Proof.
  split; auto; [|exists 0; by rewrite app_nil_r|done]. intros i nd Hi. by exists nd.
Qed.

(** The pairs in [wired] have their edge. *)
Definition wired_ok (wired : gset (nat * nat)) (g : GraphState) : Prop :=
  forall c i, (c, i) ∈ wired -> exists e, e ∈ downstreams_at g i /\ node_index e = c.

Lemma wired_ok_adds wired g g' : adds_rel g g' -> wired_ok wired g -> wired_ok wired g'.
Proof.
  intros Ha Hw c i Hci. destruct (Hw c i Hci) as (e & He & Hc). exists e. split; [|done].
  unfold downstreams_at in *. destruct (nodes g !! i) as [x|] eqn:E; [|by apply not_elem_of_nil in He].
  destruct (ad_node _ _ Ha _ _ E) as (x' & -> & _ & _ & _ & Hd). simpl. auto.
Qed.

Lemma wire_addition_ok fuel new a i wired wired' n s s' :
  wf_part [] n (state s) -> pa_caller_index a < length (nodes (state s)) ->
  i < length (nodes (state s)) -> wired_ok wired (state s) ->
  Graph.wire_addition fuel new a i wired s = (Ok wired', s') ->
  exists g, s' = set_state g s /\ wf_part [] n g /\ adds_rel (state s) g /\ wired_ok wired' g /\
    layer_at g (pa_caller_index a) < length (dirty_nodes_by_layer g) /\
    (pa_caller_index a, i) ∈ wired'.
Proof.
  intros Hw Hc Hi Hwi Hrun. unfold Graph.wire_addition in Hrun. inv_bind Hrun. destruct a0.
  assert (H1 : exists g1, s0 = set_state g1 s /\ wf_part [pa_caller_index a] n g1 /\
    adds_rel (state s) g1 /\ wired_ok ({[(pa_caller_index a, i)]} ∪ wired) g1).
  { case_bool_decide as Hin.
    - injection E as <-. exists (state s). split_and!; [by destruct s|by apply wf_part_weaken|apply adds_refl|].
      intros c j [[= -> ->]%elem_of_singleton|Hcj]%elem_of_union; by apply Hwi.
    - destruct (link_run (pa_caller_index a) i (pa_is_active a) s Hc Hi) as (g1 & Hg1 & Hl).
      rewrite Hg1 in E. injection E as <-. exists g1. split_and!; [done|by eapply linked_wf|by eapply linked_adds|].
      intros c j [[= -> ->]%elem_of_singleton|Hcj]%elem_of_union.
      + destruct (lookup_lt_is_Some_2 _ _ Hi) as [y Hy].
        destruct (linked_fwd _ _ _ _ _ _ _ Hl Hy) as (y' & Hy' & _ & _ & _ & _ & Hdy).
        exists (mkEdge (pa_caller_index a) (pa_is_active a)). split; [|done]. unfold downstreams_at.
        rewrite Hy'. apply Hdy. by right.
      + eapply (wired_ok_adds wired); [by eapply linked_adds|exact Hwi|done]. }
  destruct H1 as (g1 & -> & Hw1 & Ha1 & Hwi1). inv_bind Hrun. destruct a0.
  unfold Graph.fix_layers in E0.
  apply (fix_layers_ok fuel [pa_caller_index a] n (set_state g1 s) _ Hw1) in E0 as (g2 & -> & Hw2 & Hr2 & Hcov).
  2: { constructor; [|constructor]. simpl. by rewrite (ad_len _ _ Ha1). }
  assert (Ha2 : adds_rel g1 g2) by exact (raised_adds _ _ Hr2). inv_bind Hrun. injection Hrun as <- <-. destruct a0.
  assert (H3 : exists q, s0 = set_state (set_scheduled g2 q) s /\
    Forall (fun e => e_value e < length (nodes g2)) (heap q)).
  { destruct (pa_recycle a).
    - unfold mbind, get_state in E0. eapply recycle_ok in E0; [exact E0|done|].
      constructor; [|constructor]. simpl. by rewrite (ad_len _ _ Ha2), (ad_len _ _ Ha1).
    - injection E0 as <-. exists (scheduled_callbacks g2). split; [by destruct g2|apply Hw2]. }
  destruct H3 as (q & -> & Hq). exists (set_scheduled g2 q).
  assert (Ha : adds_rel (state s) (set_scheduled g2 q)).
  { eapply adds_trans; [exact Ha1|]. eapply adds_trans; [exact Ha2|apply scheduled_adds]. }
  split_and!; [done|by apply set_scheduled_part|done| | |].
  - eapply wired_ok_adds; [|exact Hwi1]. eapply adds_trans; [exact Ha2|apply scheduled_adds].
  - apply Hcov. by left.
  - apply elem_of_union. left. by apply elem_of_singleton.
Qed.

Lemma wire_additions_ok fuel new adds wired n s s' :
  wf_part [] n (state s) ->
  Forall (fun a => pa_caller_index a < length (nodes (state s))) adds -> wired_ok wired (state s) ->
  Graph.wire_additions fuel new adds wired s = (Ok tt, s') ->
  exists g, s' = set_state g s /\ wf_part [] n g /\ adds_rel (state s) g /\
    forall a, a ∈ adds -> exists r e, node_to_index g !! pa_node a = Some r /\
      layer_at g (node_index e) < length (dirty_nodes_by_layer g) /\ e ∈ downstreams_at g r /\
      node_index e = pa_caller_index a.
Proof.
  revert wired s. induction adds as [|a adds IH]; intros wired s Hw Hc Hwi Hrun.
  { injection Hrun as <-. exists (state s). split_and!; [by destruct s|done|apply adds_refl|].
    by intros a ?%not_elem_of_nil. }
  apply Forall_cons in Hc as [Hca Hc]. simpl in Hrun. inv_bind Hrun. inv_bind Hrun.
  unfold Graph.registered_index, mbind, get_state, mlift in E.
  destruct (node_to_index (state s) !! pa_node a) as [i|] eqn:Hi; [|done]. injection E as <- <-.
  assert (Hlt : i < length (nodes (state s))).
  { destruct (wp_index _ _ _ Hw) as [_ Hix]. apply Hix in Hi as (nd & Hnd & _). by eapply lookup_lt_Some. }
  destruct (wire_addition_ok _ _ _ _ _ _ _ _ _ Hw Hca Hlt Hwi E0)
    as (g1 & -> & Hw1 & Ha1 & Hwi1 & Hcov & Hin).
  apply (IH _ (set_state g1 s) Hw1) in Hrun as (g & -> & Hwg & Hag & Hall); [| |done].
  2: { eapply Forall_impl; [exact Hc|]. intros b Hb. simpl in *. by rewrite (ad_len _ _ Ha1). }
  simpl in *. exists g. split_and!; [done|done|by eapply adds_trans|].
  intros b [->|Hb]%elem_of_cons; [|by apply Hall].
  destruct (wired_ok_adds _ _ _ Hag Hwi1 _ _ Hin) as (e & He & Hec).
  exists i, e. rewrite (ad_index _ _ Hag), (ad_index _ _ Ha1), Hec. split_and!; [done| |done|done].
  by apply (ad_cover _ _ Hag).
Qed.
End addition.

(** ** All of [process_pending_additions] *)

Section additions.
Context {W : Type} `{NodeLaws W}.
Implicit Types (s : Sys W) (g : GraphState).

Lemma push_flags_run l s :
  mfor l (fun _ : nat => Graph.push_dirty_flag) s =
  (Ok tt, set_state (set_node_dirty (state s) (node_dirty (state s) ++ repeat false (length l))) s).
Proof.
  revert s. induction l as [|x l IH]; intros s.
  - simpl. rewrite app_nil_r. by destruct s as [? [] ?].
  - simpl. erewrite mbind_ok by reflexivity. rewrite IH. simpl. by rewrite <-app_assoc.
Qed.

Lemma call_new_ok phase op ix s s' :
  (forall s a nd r s', current_node_index (state s) = Some ix -> nodes (state s) !! ix = Some nd ->
     node nd = a -> op a s = (r, s') -> rtc (api_step false ix) (state s) (state s')) ->
  settled (state s) -> ix < length (nodes (state s)) ->
  Graph.call_new phase op ix s = (Ok tt, s') ->
  settled (state s') /\ same_run (state s) (state s') /\ nodes (state s') = nodes (state s).
Proof.
  intros Hlaw Hs Hix Hrun. destruct (lookup_lt_is_Some_2 _ _ Hix) as [nd Hi].
  unfold Graph.call_new in Hrun. unfold node_at in Hrun at 1.
  unfold mbind in Hrun at 1 2. unfold get_state, at_index, mlift in Hrun. rewrite Hi in Hrun.
  erewrite mbind_ok in Hrun by reflexivity. set (s1 := set_state (set_current (state s) (Some ix)) s) in *.
  inv_bind Hrun. injection Hrun as <-. unfold mmap_err in E.
  destruct (op (node nd) s1) as [r s2] eqn:Eo. destruct r as [[]|?|?|]; try done. injection E as <- <-.
  pose proof (api_steps_quiet _ _ _ (Hlaw s1 (node nd) nd _ _ eq_refl Hi eq_refl Eo)) as Q.
  pose proof (fm_nodes _ _ (qc_frame _ _ _ Q)) as Hn.
  assert (Hs1 : settled (state s1)) by by apply set_current_settled.
  split_and!.
  - apply set_current_settled. split; [eapply quiet_wf; [|apply Hs1|exact Q]; done|].
    eapply quiet_clean; [exact Q|apply Hs1].
  - destruct (qc_frame _ _ _ Q). by split.
  - exact Hn.
Qed.

Lemma calls_new_ok phase op ixs s s' :
  (forall s a ix nd r s', current_node_index (state s) = Some ix -> nodes (state s) !! ix = Some nd ->
     node nd = a -> op a s = (r, s') -> rtc (api_step false ix) (state s) (state s')) ->
  settled (state s) -> Forall (fun ix => ix < length (nodes (state s))) ixs ->
  mfor ixs (Graph.call_new phase op) s = (Ok tt, s') ->
  settled (state s') /\ same_run (state s) (state s') /\ nodes (state s') = nodes (state s).
Proof.
  intros Hlaw. revert s. induction ixs as [|ix ixs IH]; intros s Hs Hix Hrun; [by injection Hrun as <-|].
  apply Forall_cons in Hix as [Hi Hix]. simpl in Hrun. inv_bind Hrun. destruct a.
  destruct (call_new_ok phase op ix s _ (fun s a => Hlaw s a ix) Hs Hi E) as (Hs1 & Hr1 & Hn1).
  destruct (IH _ Hs1) as (Hs2 & Hr2 & Hn2); [by rewrite Hn1|done|].
  split_and!; [done|by etransitivity|congruence].
Qed.

Lemma clean_grow g g' k1 k2 k3 :
  dirty_nodes_by_layer g' = dirty_nodes_by_layer g ++ repeat [] k1 ->
  node_dirty g' = node_dirty g ++ repeat false k2 ->
  node_ticked g' = node_ticked g ++ repeat false k3 -> clean g -> clean g'.
Proof.
  intros H1 H2 H3 (C1 & C2 & C3). unfold clean. rewrite H1, H2, H3.
  split_and!; apply Forall_app; (split; [done|]); apply Forall_forall;
    by intros x Hx%list_elem_of_In%repeat_spec.
Qed.

(** The wiring of the additions, up to the calls of [setup] and [start]. *)
Definition wire_pending (fuel : nat) (adds : list PendingAddition) (start : nat) : M (Sys W) (list nat) :=
  do! mfor adds (fun a => do! Graph.initialise_node fuel (pa_node a) in mreturn tt) in
  let! g := get_state in
  let new_indices := seq start (length (nodes g) - start) in
  do! mfor new_indices (fun _ => Graph.push_dirty_flag) in
  do! mfor new_indices (fun ix =>
    let! nd := node_at ix in
    mfor (upstreams nd) (fun edge =>
      update_node (node_index edge) (push_downstream (mkEdge ix (edge_active edge))))) in
  do! Graph.wire_additions fuel new_indices adds ∅ in
  mreturn new_indices.

Lemma covered_layers g roots g3 g4 w ns' k :
  grown w roots g g3 -> same_but_downs (nodes g3) ns' ->
  wf_part [] (length (nodes g)) g4 -> adds_rel (with_new ns' k g3) g4 ->
  (forall a, a ∈ roots -> exists r e, node_to_index g4 !! a = Some r /\
     layer_at g4 (node_index e) < length (dirty_nodes_by_layer g4) /\ e ∈ downstreams_at g4 r) ->
  graph_wf g4.
Proof.
  intros Hg Hs Hw4 Ha Hcov. apply wf_part_full. destruct Hw4. split; try done.
  intros i nd4 _ Hi4. destruct (decide (i < length (nodes g))) as [Hlt|Hge]; [by apply (wp_rows0 i)|].
  assert (Hl4 : layer_at g4 i = layer nd4) by (unfold layer_at; by rewrite Hi4).
  destruct (ad_changed _ _ Ha i) as [Hsame|?]; [|lia].
  assert (Hlay3 : forall j, layer_at (with_new ns' k g3) j = layer_at g3 j) by by apply layer_at_same_downs.
  assert (Hlt3 : i < length (nodes g3)).
  { rewrite <-(same_but_downs_length _ _ Hs). pose proof (ad_len _ _ Ha) as Hl. simpl in Hl.
    rewrite <-Hl. by eapply lookup_lt_Some. }
  destruct (lookup_lt_is_Some_2 _ _ Hlt3) as [nd3 Hi3].
  destruct (gn_hook _ _ _ _ Hg i nd3 ltac:(lia) Hi3) as (a & r & Har & Hr & Hger & Hle).
  destruct (Hcov a Har) as (r' & e & Hr' & Hrow & He).
  rewrite (ad_index _ _ Ha) in Hr'. simpl in Hr'. rewrite Hr in Hr'. injection Hr' as <-.
  pose proof (gn_index _ _ _ _ Hg) as [_ Hix]. apply Hix in Hr as (ndr & Hndr & _).
  destruct (gn_new _ _ _ _ Hg r ndr Hger Hndr) as (_ & _ & _ & Hact).
  destruct (same_but_downs_lookup _ _ _ _ Hs Hndr) as (ndr' & Hndr' & _ & _ & Hlr & Har').
  destruct (ad_node _ _ Ha r ndr' Hndr') as (nd4r & Hnd4r & _ & Hact4 & Hle4 & _).
  unfold downstreams_at in He. rewrite Hnd4r in He. simpl in He.
  destruct (wp_down_layer0 r nd4r e Hnd4r) as [Hl|Hq]; [congruence|done| |by apply not_elem_of_nil in Hq].
  rewrite Hlay3 in Hsame. unfold layer_at in Hsame at 2. rewrite Hi3 in Hsame. simpl in Hsame.
  unfold layer_at in Hle. rewrite Hndr in Hle. simpl in Hle. lia.
Qed.

Lemma wire_pending_ok fuel adds s s' ixs :
  settled (state s) -> Forall (fun a => pa_caller_index a < length (nodes (state s))) adds ->
  wire_pending fuel adds (length (nodes (state s))) s = (Ok ixs, s') ->
  settled (state s') /\ same_run (state s) (state s') /\
  Forall (fun ix => ix < length (nodes (state s'))) ixs /\
  ixs = seq (length (nodes (state s))) (length (nodes (state s')) - length (nodes (state s))) /\
  forall a, a ∈ adds -> exists r e, node_to_index (state s') !! pa_node a = Some r /\
    e ∈ downstreams_at (state s') r /\ node_index e = pa_caller_index a.
Proof.
  intros [Hw Hc] Hadds Hrun. unfold wire_pending in Hrun. inv_bind Hrun. destruct a.
  apply (walks_run fuel [] adds (state s)) in E as (g1 & -> & Hg); [|by apply grown_refl, Hw].
  simpl in Hg. erewrite mbind_ok in Hrun by reflexivity. simpl in Hrun.
  set (n0 := length (nodes (state s))) in *. pose proof (grown_len _ _ _ _ Hg) as Hlen.
  erewrite mbind_ok in Hrun by apply push_flags_run. rewrite length_seq in Hrun. simpl in Hrun.
  set (s2 := set_state _ _) in Hrun.
  destruct (wire_new_run (length (nodes g1) - n0) n0 s2) as (ns' & Hrun3 & Hs3 & Hd3).
  { simpl. lia. }
  { simpl. intros i nd e Hi He. destruct (decide (n0 <= i)) as [Hge|Hlt].
    - pose proof (new_edge_layer _ _ _ _ Hg i nd e Hge Hi He) as [? _]. apply lookup_lt_Some in Hi. lia.
    - eapply grown_old in Hi; [|exact Hg|lia]. pose proof (gw_up _ Hw _ _ _ Hi He) as Hb. fold n0 in Hb. lia. }
  erewrite mbind_ok in Hrun by exact Hrun3. simpl in Hs3, Hd3.
  pose proof (grown_wf_part _ _ _ _ _ Hw Hg Hs3 Hd3) as Hw3. fold n0 in Hw3.
  set (g3 := with_new ns' (length (nodes g1) - n0) g1) in *.
  inv_bind Hrun. injection Hrun as <- <-. destruct a.
  assert (Hlen3 : length (nodes g3) = length (nodes g1)) by by apply same_but_downs_length.
  change (with_nodes ns' s2) with (set_state g3 s) in E.
  apply (wire_additions_ok fuel _ _ _ n0) in E as (g4 & -> & Hw4 & Ha4 & Hcov); simpl; [|done| |].
  - assert (Hwf : graph_wf g4).
    { eapply covered_layers; [exact Hg|exact Hs3|exact Hw4|exact Ha4|].
      intros a (x & -> & Hx)%list_elem_of_fmap.
      destruct (Hcov _ Hx) as (r & e & ? & ? & ? & _). by exists r, e. }
    pose proof (gn_only _ _ _ _ Hg) as Ho. unfold only_nodes in Ho.
    destruct (gn_ticked _ _ _ _ Hg) as [kt Hkt]. destruct (ad_rows _ _ Ha4) as [kr Hkr].
    assert (Hlen4 : length (nodes g4) = length (nodes g1)).
    { rewrite (ad_len _ _ Ha4). exact (same_but_downs_length _ _ Hs3). }
    split_and!; [split; [done|]| | | |].
    + apply (clean_grow (state s) _ kr (length (nodes g1) - n0) kt); [| | |done].
      * rewrite Hkr. f_equal. change (dirty_nodes_by_layer g1 = dirty_nodes_by_layer (state s)).
        by rewrite Ho.
      * rewrite (ad_dirty _ _ Ha4). change (node_dirty g1 ++ repeat false (length (nodes g1) - n0) =
          node_dirty (state s) ++ repeat false (length (nodes g1) - n0)). f_equal. by rewrite Ho.
      * by rewrite (ad_ticked _ _ Ha4).
    + etransitivity; [|apply (ad_run _ _ Ha4)].
      assert (Hr1 : same_run (state s) g1) by (rewrite Ho; by split). destruct Hr1. by split.
    + apply Forall_forall. intros i [? ?]%elem_of_seq. simpl. lia.
    + simpl. by rewrite Hlen4.
    + intros a Ha. destruct (Hcov a Ha) as (r & e & ? & _ & ? & ?). by exists r, e.
  - eapply Forall_impl; [exact Hadds|]. simpl. intros a Ha. rewrite (same_but_downs_length _ _ Hs3). lia.
  - intros c i Hx. by apply not_elem_of_empty in Hx.
Qed.

Lemma additions_eq fuel s :
  Graph.process_pending_additions fuel s =
  match pending_additions (state s) with
  | [] => (Ok tt, set_state (set_pending_additions (state s) []) s)
  | adds =>
    mbind (wire_pending fuel adds (length (nodes (state s)))) (fun ixs =>
      do! mfor ixs (Graph.call_new "setup" op_setup) in
      mfor ixs (Graph.call_new "start" op_start))
      (set_state (set_pending_additions (state s) []) s)
  end.
Proof.
  unfold Graph.process_pending_additions. unfold mbind at 1, get_state at 1.
  erewrite mbind_ok by reflexivity. destruct (pending_additions (state s)) as [|a adds]; [done|].
  unfold wire_pending. do 5 (rewrite mbind_assoc; apply mbind_ext; intros ? ?). done.
Qed.

Lemma pending_additions_spec fuel s s' :
  settled (state s) -> Graph.process_pending_additions fuel s = (Ok tt, s') ->
  settled (state s') /\ same_run (state s) (state s').
Proof.
  intros [Hw Hc] Hrun. rewrite additions_eq in Hrun.
  set (s1 := set_state (set_pending_additions (state s) []) s) in *.
  assert (Hs1 : settled (state s1)).
  { split; [|done]. by apply (graph_wf_tables (state s)); try done; apply Hw. }
  assert (Hr1 : same_run (state s) (state s1)) by by split.
  pose proof (gw_pending _ Hw) as Hpend. destruct (pending_additions (state s)) as [|a adds] eqn:Ep.
  { by injection Hrun as <-. }
  change (length (nodes (state s))) with (length (nodes (state s1))) in Hrun, Hpend.
  inv_bind Hrun. inv_bind Hrun. destruct a1.
  destruct (wire_pending_ok fuel _ _ _ _ Hs1 Hpend E) as (Hs2 & Hr2 & Hix & _).
  destruct (calls_new_ok _ _ _ _ _ law_setup Hs2 Hix E0) as (Hs3 & Hr3 & Hn3).
  rewrite <-Hn3 in Hix. destruct (calls_new_ok _ _ _ _ _ law_start Hs3 Hix Hrun) as (Hs4 & Hr4 & _).
  split; [done|]. by do 3 (etransitivity; [|eassumption]).
Qed.
End additions.
