(* ===== verification/RunLoop.v ===== *)
(** * The engine cycle as a whole and the historical run loop
      ([Graph::cycle], [Graph::run_nodes])

    A historical run is described by its trace: for each cycle the engine time
    and whether [is_last_cycle] was set. *)
From S2P Require Import Prelude NanoTime TimeQueue GraphState Scripted Graph WiringFacts GraphWf InitFacts CycleProps Scheduling DynamicFacts.

(** ** The cycle *)

Section cycle.
Context {W : Type} `{NodeLaws W}.
Implicit Types (s : Sys W) (g : GraphState).

Lemma reset_run s :
  graph_wf (state s) -> exists g, Graph.reset s = (Ok tt, set_state g s) /\
    settled g /\ same_run (state s) g.
Proof.
  intros Hw. eexists. split; [reflexivity|]. split; [|done]. split.
  - apply (graph_wf_tables (state s)); try done; simpl; rewrite ?length_fmap; try done; apply Hw.
  - split_and!; simpl; apply Forall_fmap, Forall_true; done.
Qed.

Lemma cycle_ok fuel s s' :
  graph_wf (state s) -> dirty_ok (state s) -> Graph.cycle fuel s = (Ok tt, s') ->
  settled (state s') /\ time (state s') = time (state s) /\
  first_cycle (state s') = first_cycle (state s) /\
  is_last_cycle (state s') = is_last_cycle (state s).
Proof.
  intros Hw Hd Hrun. unfold Graph.cycle in Hrun. inv_bind Hrun. injection E as <- <-.
  erewrite mbind_ok in Hrun by reflexivity. set (s1 := set_state _ _) in Hrun.
  inv_bind Hrun. destruct a.
  assert (Hw1 : graph_wf (state s1)) by (apply (graph_wf_tables (state s)); try done; apply Hw).
  assert (Hd1 : dirty_ok (state s1)) by by apply (dirty_ok_same (state s)).
  destruct (cycle_layers_trace s1 _ _ Hw1 Hd1 E) as ([Hw2 _ Hf2 _] & _).
  destruct (reset_run s0 Hw2) as (g3 & Hr3 & Hs3 & Hsr3). erewrite mbind_ok in Hrun by exact Hr3.
  inv_bind Hrun. destruct a.
  destruct (pending_removals_spec (set_state g3 s0) _ Hs3 E0) as [Hs4 Hsr4].
  destruct (pending_additions_spec _ _ _ Hs4 Hrun) as [Hs5 Hsr5].
  assert (Hsr : same_run (state s1) (state s')).
  { etransitivity; [apply frame_same_run, Hf2|]. etransitivity; [exact Hsr3|].
    etransitivity; [exact Hsr4|exact Hsr5]. }
  split; [done|]. by destruct Hsr.
Qed.
End cycle.

(** ** Traces of historical runs *)

Definition stops (b : Graph.RunBounds) (c : Z) (g : GraphState) : bool :=
  (Graph.rb_end_cycle b <=? c)%Z || (is_last_cycle g && (Graph.rb_end_time b <=? time g)%Z).

(** The next cycle is the last one allowed. *)
Definition lookahead (b : Graph.RunBounds) (c : Z) (g : GraphState) : bool :=
  (Graph.rb_end_cycle b <=? c + 1)%Z || (Graph.rb_end_time b <=? time g)%Z.

Definition flag_last (b : Graph.RunBounds) (c : Z) (g : GraphState) : GraphState :=
  if negb (is_last_cycle g) && lookahead b c g then set_is_last_cycle g true else g.

Section traces.
Context {W : Type} `{NodeOps W}.
Context (fuel : nat) (b : Graph.RunBounds).
Implicit Types (s : Sys W) (g : GraphState).

Inductive hist : Z -> Sys W -> list (Z * bool) -> Sys W -> Prop :=
| hist_nil c s : hist c s [] s
| hist_cons c s s1 s2 tr s3 :
    stops b c (state s) = false ->
    Graph.process_callbacks_historical (set_state (flag_last b c (state s)) s) = (Ok true, s1) ->
    Graph.cycle fuel s1 = (Ok tt, s2) ->
    hist (c + 1) s2 tr s3 ->
    hist c s ((time (state s1), is_last_cycle (state s1)) :: tr) s3.

(** One round of the loop. *)
Lemma hist_round rounds c s :
  Graph.run_loop fuel (S rounds) b false c 0 s =
  if stops b c (state s) then (Ok (c, 0%Z), s)
  else
    match Graph.process_callbacks_historical (set_state (flag_last b c (state s)) s) with
    | (Ok true, s1) =>
      match Graph.cycle fuel s1 with
      | (Ok _, s2) => Graph.run_loop fuel rounds b false (wrap_u32 (c + 1)) 0 s2
      | (Err e, s2) => (Err e, s2)
      | (Panic w, s2) => (Panic w, s2)
      | (OutOfFuel, s2) => (OutOfFuel, s2)
      end
    | (Ok false, s1) => (Ok (c, 0%Z), s1)
    | (Err e, s1) => (Err e, s1)
    | (Panic w, s1) => (Panic w, s1)
    | (OutOfFuel, s1) => (OutOfFuel, s1)
    end.
Proof.
  change (Graph.run_loop fuel (S rounds) b false c 0) with
    (let! g := get_state in
     let cycles_done := (Graph.rb_end_cycle b <=? c)%Z in
     let time_done := (Graph.rb_end_time b <=? time g)%Z in
     if cycles_done || (is_last_cycle g && time_done) then mreturn (c, 0%Z)
     else
       do! (if negb (is_last_cycle g) && ((Graph.rb_end_cycle b <=? c + 1)%Z || time_done)
            then modify_state (fun g => set_is_last_cycle g true) else mreturn tt) in
       let! progressed := Graph.process_callbacks_historical in
       if progressed : bool then
         do! Graph.cycle fuel in
         Graph.run_loop fuel rounds b false (wrap_u32 (c + 1)) 0
       else mreturn (c, 0%Z) : M (Sys W) (Z * Z)).
  unfold mbind at 1, get_state. cbv zeta. unfold stops. destruct (_ || _); [done|].
  rewrite (mbind_ok _ _ _ tt (set_state (flag_last b c (state s)) s)).
  - unfold mbind at 1. destruct (Graph.process_callbacks_historical _) as [[[]| | |] s1]; done.
  - unfold flag_last, lookahead. destruct (_ && _); [done|by destruct s].
Qed.

Lemma hist_snoc_app c s tr s1 tr' s2 :
  hist c s tr s1 -> hist (c + Z.of_nat (length tr)) s1 tr' s2 -> hist c s (tr ++ tr') s2.
Proof.
  intros Ht. revert tr' s2. induction Ht as [c s|c s s1 s2 tr s3 Hst Hp Hcy _ IH]; intros tr' s4 H4; simpl in *.
  - by rewrite Z.add_0_r in H4.
  - econstructor; [done..|]. apply IH. by replace (c + 1 + Z.of_nat (length tr))%Z with
      (c + Z.of_nat (S (length tr)))%Z by lia.
Qed.

(** What a loop that ended well did. *)
Lemma run_loop_trace rounds c s c' e' s' :
  (0 <= c)%Z -> (Graph.rb_end_cycle b <= u32_max)%Z ->
  Graph.run_loop fuel rounds b false c 0 s = (Ok (c', e'), s') ->
  exists tr s1, hist c s tr s1 /\ e' = 0%Z /\ c' = (c + Z.of_nat (length tr))%Z /\
    (stops b c' (state s1) = true /\ s' = s1 \/
     stops b c' (state s1) = false /\
     Graph.process_callbacks_historical (set_state (flag_last b c' (state s1)) s1) = (Ok false, s')).
Proof.
  revert c s. induction rounds as [|rounds IH]; intros c s Hc Hb Hrun; [done|].
  rewrite hist_round in Hrun. destruct (stops b c (state s)) eqn:Est.
  { injection Hrun as <- <- <-. exists [], s. rewrite Z.add_0_r. split_and!; [constructor|done|done|by left]. }
  destruct (Graph.process_callbacks_historical _) as [[[]| | |] s1] eqn:Ep; [| |done..].
  - destruct (Graph.cycle fuel s1) as [[[]| | |] s2] eqn:Ec; try done.
    assert (Hcl : (c < Graph.rb_end_cycle b)%Z).
    { unfold stops in Est. apply orb_false_iff in Est as [Hx _]. lia. }
    assert (Hwr : wrap_u32 (c + 1) = (c + 1)%Z).
    { apply wrap_u32_small. lia. }
    rewrite Hwr in Hrun. apply IH in Hrun as (tr & s3 & Ht & -> & -> & Hend); [|lia|done].
    eexists (_ :: tr), s3. split; [by econstructor|]. split; [done|].
    assert (Heq : (c + 1 + Z.of_nat (length tr) =
      c + Z.of_nat (length ((time (state s1), is_last_cycle (state s1)) :: tr)))%Z) by (simpl; lia).
    rewrite <-Heq. done.
  - injection Hrun as <- <- <-. exists [], s. rewrite Z.add_0_r. split_and!; [constructor|done|done|by right].
Qed.

Lemma hist_bound c s tr s' :
  hist c s tr s' -> (c <= Graph.rb_end_cycle b)%Z ->
  (c + Z.of_nat (length tr) <= Graph.rb_end_cycle b)%Z.
Proof.
  induction 1 as [c s|c s s1 s2 tr s3 Hst _ _ _ IH]; intros Hc; simpl; [lia|].
  apply orb_false_iff in Hst as [Hst _]. apply Z.leb_gt in Hst. specialize (IH ltac:(lia)). lia.
Qed.
End traces.

(** ** Invariants along a trace *)

Section invariants.
Context {W : Type} `{NodeLaws W}.
Context (fuel : nat) (b : Graph.RunBounds).
Implicit Types (s : Sys W) (g : GraphState).

(** A scheduling step that returned found the ready channel empty. *)
Lemma historical_ok_quiet s p s' :
  Graph.process_callbacks_historical s = (Ok p, s') -> quiet s.
Proof.
  intros Hrun. unfold Graph.process_callbacks_historical in Hrun.
  erewrite mbind_ok in Hrun by reflexivity. unfold mbind at 1, get_state in Hrun. simpl in Hrun.
  destruct (ready_callbacks (state s) ++ _) as [|x l] eqn:E; [|done].
  by apply app_eq_nil in E.
Qed.

Lemma flag_last_facts c g :
  same_but_marks g (flag_last b c g) \/ flag_last b c g = set_is_last_cycle g true.
Proof. unfold flag_last. destruct (_ && _); [by right|left]. by split. Qed.

Lemma flag_last_settled c g : settled g -> settled (flag_last b c g).
Proof.
  intros [Hw Hc]. unfold flag_last. destruct (_ && _); [|done]. split; [|done].
  apply (graph_wf_tables g); try done; apply Hw.
Qed.

Lemma flag_last_same c g :
  time (flag_last b c g) = time g /\ first_cycle (flag_last b c g) = first_cycle g /\
  is_last_cycle (flag_last b c g) = is_last_cycle g || lookahead b c g.
Proof. unfold flag_last. destruct (is_last_cycle g) eqn:E, (lookahead b c g); simpl; by rewrite ?E. Qed.

(** One cycle of a trace. *)
Lemma hist_step_facts c s s1 s2 :
  settled (state s) ->
  Graph.process_callbacks_historical (set_state (flag_last b c (state s)) s) = (Ok true, s1) ->
  Graph.cycle fuel s1 = (Ok tt, s2) ->
  settled (state s2) /\ time (state s2) = time (state s1) /\ first_cycle (state s2) = false /\
  is_last_cycle (state s2) = is_last_cycle (state s1) /\
  is_last_cycle (state s1) = is_last_cycle (state s) || lookahead b c (state s) /\
  (first_cycle (state s) = false -> is_u64 (time (state s)) -> (time (state s) < u64_max)%Z ->
     (time (state s) < time (state s1))%Z).
Proof.
  intros Hs Hp Hc. pose proof (flag_last_settled c _ Hs) as Hs0.
  destruct (flag_last_same c (state s)) as (Ht0 & Hf0 & Hl0).
  pose proof (historical_ok_quiet _ _ _ Hp) as Hq.
  destruct (historical_spec (set_state (flag_last b c (state s)) s) (proj1 Hs0)
    (clean_dirty_ok _ (proj2 Hs0)) Hq)
    as (g' & Hrun & Hw' & Hd' & Hsb & Ht & Hfc & _ & _).
  rewrite Hrun in Hp. injection Hp as Hwk <-.
  destruct (cycle_ok fuel (mkSys (world s) g' (polled (env s))) _ Hw' Hd' Hc) as (Hs2 & Ht2 & Hf2 & Hl2). simpl in *.
  split_and!; [done|done| |done| |].
  - rewrite Hf2, Hfc, Hwk. by rewrite andb_false_r.
  - by rewrite (sb_last _ _ Hsb), Hl0.
  - intros Hf Hu Hlt. rewrite Ht. rewrite <-Ht0 in *. apply historical_time_advances; [done|done|congruence|done].
Qed.

Lemma hist_settled c s tr s' : hist fuel b c s tr s' -> settled (state s) -> settled (state s').
Proof.
  induction 1 as [c s|c s s1 s2 tr s3 Hst Hp Hc _ IH]; intros Hs; [done|].
  apply IH. by apply (hist_step_facts c s s1 s2).
Qed.

Definition in_range (p : Z * bool) : Prop := is_u64 p.1 /\ (p.1 < u64_max)%Z.

Lemma hist_after c s tr s' :
  hist fuel b c s tr s' -> settled (state s) -> first_cycle (state s) = false ->
  is_u64 (time (state s)) -> (time (state s) < u64_max)%Z -> Forall in_range tr ->
  StronglySorted Z.lt (time (state s) :: map fst tr).
Proof.
  induction 1 as [c s|c s s1 s2 tr s3 Hst Hp Hc _ IH]; intros Hs Hf Hu Hlt Hr; simpl.
  { repeat constructor. }
  apply Forall_cons in Hr as [[Hu1 Hlt1] Hr]. simpl in Hu1, Hlt1.
  destruct (hist_step_facts c s s1 s2 Hs Hp Hc) as (Hs2 & Ht2 & Hf2 & _ & _ & Hadv).
  specialize (Hadv Hf Hu Hlt). rewrite <-Ht2 in *. specialize (IH Hs2 Hf2 Hu1 Hlt1 Hr).
  constructor; [exact IH|]. apply StronglySorted_inv in IH as [_ Hall].
  constructor; [done|]. eapply Forall_impl; [exact Hall|]. simpl. intros; lia.
Qed.

(** The times of the cycles strictly increase. *)
Lemma hist_sorted c s tr s' :
  hist fuel b c s tr s' -> settled (state s) -> Forall in_range tr ->
  StronglySorted Z.lt (map fst tr).
Proof.
  destruct 1 as [c s|c s s1 s2 tr s3 Hst Hp Hc Ht]; intros Hs Hr; simpl; [constructor|].
  apply Forall_cons in Hr as [[Hu1 Hlt1] Hr]. simpl in Hu1, Hlt1.
  destruct (hist_step_facts c s s1 s2 Hs Hp Hc) as (Hs2 & Ht2 & Hf2 & _).
  rewrite <-Ht2 in *. by eapply hist_after.
Qed.

(** The clock before the run is at zero. *)
Definition fresh_clock (g : GraphState) : Prop :=
  is_u64 (time g) /\ (time g < u64_max)%Z /\ (first_cycle g = true -> time g = 0%Z).

Lemma hist_step_le c s s1 s2 :
  settled (state s) -> fresh_clock (state s) -> is_u64 (time (state s1)) ->
  Graph.process_callbacks_historical (set_state (flag_last b c (state s)) s) = (Ok true, s1) ->
  Graph.cycle fuel s1 = (Ok tt, s2) -> (time (state s) <= time (state s1))%Z.
Proof.
  intros Hs (Hu & Hlt & Hz) Hu1 Hp Hc. destruct (hist_step_facts c s s1 s2 Hs Hp Hc) as (_ & _ & _ & _ & _ & Hadv).
  destruct (first_cycle (state s)) eqn:Ef; [|specialize (Hadv eq_refl Hu Hlt); lia].
  rewrite (Hz eq_refl). unfold is_u64 in Hu1. lia.
Qed.

(** A cycle flagged as the last one is followed by no other. *)
Lemma hist_last_is_last c s tr s' p k :
  hist fuel b c s tr s' -> settled (state s) -> is_last_cycle (state s) = false ->
  fresh_clock (state s) -> Forall in_range tr ->
  tr !! k = Some p -> p.2 = true -> S k = length tr.
Proof.
  intros Ht. revert k p. induction Ht as [c s|c s s1 s2 tr s3 Hst Hp Hc Ht IH];
    intros k p Hs Hl Hfr Hr Hk Hp2; [done|].
  apply Forall_cons in Hr as [[Hu1 Hlt1] Hr]. simpl in Hu1, Hlt1.
  pose proof (hist_step_le c s s1 s2 Hs Hfr Hu1 Hp Hc) as Hle.
  destruct (hist_step_facts c s s1 s2 Hs Hp Hc) as (Hs2 & Ht2 & Hf2 & Hl2 & Hl1 & Hadv).
  destruct (is_last_cycle (state s1)) eqn:El1.
  - rewrite Hl in Hl1. simpl in Hl1. inversion Ht as [|c' x s4 s5 tr' s6 Hst' Hp' Hc' _]; subst.
    { apply lookup_lt_Some in Hk. simpl in *. lia. }
    unfold stops in Hst'. rewrite Hl2 in Hst'. unfold lookahead in Hl1.
    apply orb_false_iff in Hst' as [Hx Hy]. rewrite Hx in Hl1. simpl in Hl1, Hy.
    symmetry in Hl1. apply Z.leb_le in Hl1. apply Z.leb_gt in Hy. lia.
  - destruct k as [|k]; simpl in Hk; [simplify_eq; by simpl in Hp2|].
    simpl. f_equal. eapply IH; [done|done| |done|done|done].
    unfold fresh_clock. rewrite Ht2, Hf2. done.
Qed.

(** While cycles remain unflagged, no bound was reached when they began. *)
Lemma hist_unflagged c s tr s' p k :
  hist fuel b c s tr s' -> settled (state s) -> is_last_cycle (state s) = false ->
  fresh_clock (state s) -> Forall in_range tr ->
  tr !! k = Some p -> p.2 = false -> (c + Z.of_nat k + 1 < Graph.rb_end_cycle b)%Z /\
  (forall j q, j < k -> tr !! j = Some q -> (q.1 < Graph.rb_end_time b)%Z).
Proof.
  intros Ht. revert k p. induction Ht as [c s|c s s1 s2 tr s3 Hst Hp Hc Ht IH];
    intros k p Hs Hl Hfr Hr Hk Hp2; [done|].
  apply Forall_cons in Hr as [[Hu1 Hlt1] Hr]. simpl in Hu1, Hlt1.
  destruct (hist_step_facts c s s1 s2 Hs Hp Hc) as (Hs2 & Ht2 & Hf2 & Hl2 & Hl1 & Hadv).
  destruct k as [|k]; simpl in Hk.
  - simplify_eq. simpl in Hp2. rewrite Hp2, Hl in Hl1. symmetry in Hl1. simpl in Hl1.
    apply orb_false_iff in Hl1 as [Hx _]. split; [lia|]. intros j q Hj. lia.
  - destruct (is_last_cycle (state s1)) eqn:El1.
    { assert (Hend : S 0 = length ((time (state s1), true) :: tr)).
      { eapply (hist_last_is_last c s _ s3 (time (state s1), true)); [|done|done|done| |done|done].
        - rewrite <-El1. by econstructor.
        - by constructor. }
      simpl in Hend. apply lookup_lt_Some in Hk. lia. }
    destruct (IH k p Hs2 Hl2) as [Hb Hj]; [|done|done|done|].
    { unfold fresh_clock. rewrite Ht2, Hf2. done. }
    split; [lia|]. intros [|j] q Hjk Hq; simpl in Hq; [|eapply (Hj j); [lia|done]].
    simplify_eq. simpl. inversion Ht as [|c' x s4 s5 tr' s6 Hst' Hp' Hc' Htl]; subst; [done|].
    destruct (hist_step_facts _ s2 s4 s5 Hs2 Hp' Hc') as (_ & _ & _ & _ & Hl4 & _).
    destruct (is_last_cycle (state s4)) eqn:El4.
    + destruct k as [|k]; simpl in Hk; [by simplify_eq|].
      assert (Hend : S 0 = length ((time (state s4), true) :: tr')).
      { eapply (hist_last_is_last _ s2 _ s3 (time (state s4), true)); [|done|done| |done|done|done].
        - exact Ht.
        - unfold fresh_clock. rewrite Ht2, Hf2. done. }
      simpl in Hend. apply lookup_lt_Some in Hk. lia.
    + rewrite Hl2 in Hl4. symmetry in Hl4. simpl in Hl4. apply orb_false_iff in Hl4 as [_ Hx]. lia.
Qed.
End invariants.
