(* ===== verification/Lifecycle.v ===== *)
(** * The lifecycle of a run ([Graph::apply_nodes], [Graph::run])

    [setup], [start], [stop] and [teardown] are each applied to the active nodes
    in the order of their indices, up to the first failure. *)
From S2P Require Import Prelude NanoTime TimeQueue GraphState Scripted Graph WiringFacts GraphWf InitFacts CycleProps Scheduling DynamicFacts RunLoop.

(** ** Definitions *)

(** The indices of the active nodes among those from [k] on. *)
Definition active_from (k : nat) (g : GraphState) : list nat :=
  List.filter (active_at g) (seq k (length (nodes g) - k)).
Definition active_nodes (g : GraphState) : list nat := active_from 0 g.

Section called.
Context {W : Type} `{NodeOps W}.
Context (op : addr -> M (Sys W) unit).

(** Successful calls of [op] for the nodes at the given indices, in order. *)
Inductive called : list nat -> Sys W -> Sys W -> Prop :=
| called_nil s : called [] s s
| called_cons ix ixs nd s s1 s2 :
    nodes (state s) !! ix = Some nd ->
    op (node nd) (with_current (Some ix) s) = (Ok tt, s1) ->
    called ixs (with_current None s1) s2 -> called (ix :: ixs) s s2.
End called.

(** An operation that respects the interface outside of a cycle. *)
Definition lawful {W} (op : addr -> M (Sys W) unit) : Prop :=
  forall s a ix nd r s', current_node_index (state s) = Some ix -> nodes (state s) !! ix = Some nd ->
    node nd = a -> op a s = (r, s') -> rtc (api_step false ix) (state s) (state s').

(** ** Facts *)

Section facts.
Context {W : Type} `{NodeLaws W}.
Context (desc : string) (op : addr -> M (Sys W) unit) (Hlaw : lawful op).
Implicit Types (s : Sys W) (g : GraphState).

Definition apply_one (ix : nat) : M (Sys W) unit :=
  let! nd := node_at ix in
  if negb (active nd) then mreturn tt
  else
    do! Graph.set_current_node (Some ix) in
    do! mmap_err (NodeContext desc ix) (op (node nd)) in
    Graph.set_current_node None.

Lemma apply_one_eq ix nd s :
  nodes (state s) !! ix = Some nd ->
  apply_one ix s =
  if active nd then
    match op (node nd) (with_current (Some ix) s) with
    | (Ok _, s1) => (Ok tt, with_current None s1)
    | (Err e, s1) => (Err (NodeContext desc ix e), s1)
    | (Panic w, s1) => (Panic w, s1)
    | (OutOfFuel, s1) => (OutOfFuel, s1)
    end
  else (Ok tt, s).
Proof.
  intros Hi. unfold apply_one, node_at. unfold mbind at 1 2, get_state, at_index, mlift. rewrite Hi.
  destruct (active nd); [|done]. simpl. erewrite mbind_ok by reflexivity.
  unfold mbind at 1, mmap_err. fold (with_current (Some ix) s).
  destruct (op (node nd) (with_current (Some ix) s)) as [[[]| | |] s1]; done.
Qed.

Lemma lawful_call ix nd s r s1 :
  settled (state s) -> nodes (state s) !! ix = Some nd ->
  op (node nd) (with_current (Some ix) s) = (r, s1) ->
  settled (state s1) /\ nodes (state s1) = nodes (state s) /\ same_run (state s) (state s1).
Proof.
  intros Hs Hi Ho. pose proof (lookup_lt_Some _ _ _ Hi) as Hlt.
  pose proof (api_steps_quiet _ _ _ (Hlaw (with_current (Some ix) s) _ ix nd r s1 eq_refl Hi eq_refl Ho)) as Q.
  assert (Hs0 : settled (state (with_current (Some ix) s))) by by apply set_current_settled.
  split_and!.
  - split; [by apply (quiet_wf ix (state (with_current (Some ix) s)) _ Hlt (proj1 Hs0) Q)|exact (quiet_clean _ _ _ Q (proj2 Hs0))].
  - by rewrite (fm_nodes _ _ (qc_frame _ _ _ Q)).
  - destruct (qc_frame _ _ _ Q). by split.
Qed.

Lemma apply_from n k s r s' :
  settled (state s) -> k + n = length (nodes (state s)) ->
  mfor (seq k n) apply_one s = (r, s') ->
  settled (state s') /\ same_run (state s) (state s') /\ nodes (state s') = nodes (state s) /\
  match r with
  | Ok _ => called op (active_from k (state s)) s s'
  | Err e => exists ixs ix rest nd s1 e0, active_from k (state s) = ixs ++ ix :: rest /\
      called op ixs s s1 /\ nodes (state s1) !! ix = Some nd /\
      op (node nd) (with_current (Some ix) s1) = (Err e0, s') /\ e = NodeContext desc ix e0
  | _ => exists nd ix s1, op (node nd) (with_current (Some ix) s1) = (match r with Ok x => Ok x
      | Err e => Err e | Panic w => Panic w | OutOfFuel => OutOfFuel end, s')
  end.
Proof.
  revert k s. induction n as [|n IH]; intros k s Hs Hk Hrun.
  { injection Hrun as <- <-. split_and!; try done.
    unfold active_from. replace (length (nodes (state s)) - k) with 0 by lia. constructor. }
  destruct (lookup_lt_is_Some_2 (nodes (state s)) k) as [nd Hi]; [lia|].
  assert (Hact : active_from k (state s) =
    if active nd then k :: active_from (S k) (state s) else active_from (S k) (state s)).
  { unfold active_from. replace (length (nodes (state s)) - k) with (S n) by lia.
    replace (length (nodes (state s)) - S k) with n by lia. simpl. unfold active_at at 1. by rewrite Hi. }
  simpl in Hrun. unfold mbind in Hrun. rewrite (apply_one_eq _ _ _ Hi) in Hrun. rewrite Hact.
  destruct (active nd).
  2: { apply IH in Hrun; [exact Hrun|done|lia]. }
  destruct (op (node nd) (with_current (Some k) s)) as [r1 s1] eqn:Ho.
  destruct (lawful_call _ _ _ _ _ Hs Hi Ho) as (Hs1 & Hn1 & Hr1).
  destruct r1 as [[]|e|w|].
  - assert (Hs1' : settled (state (with_current None s1))) by by apply set_current_settled.
    assert (Hn1' : nodes (state (with_current None s1)) = nodes (state s)) by exact Hn1.
    apply IH in Hrun as (Hs' & Hr' & Hn' & Hres); [|done|rewrite Hn1'; lia].
    assert (Hact1 : active_from (S k) (state (with_current None s1)) = active_from (S k) (state s)).
    { unfold active_from, active_at. by rewrite Hn1'. }
    rewrite Hact1 in Hres. split_and!; [done| |congruence|].
    { destruct Hr', Hr1. split; simpl in *; congruence. }
    destruct r as [u|e|w|].
    + by econstructor.
    + destruct Hres as (ixs & ix & rest & nd' & s2 & e0 & -> & Hc & Hrest).
      exists (k :: ixs), ix, rest, nd', s2, e0. split; [done|]. split; [by econstructor|done].
    + exact Hres.
    + exact Hres.
  - injection Hrun as <- <-. split_and!; [done|done|done|].
    eexists [], k, _, nd, s, e. split_and!; [reflexivity|constructor|done|done|done].
  - injection Hrun as <- <-. split_and!; [done|done|done|]. by exists nd, k, s.
  - injection Hrun as <- <-. split_and!; [done|done|done|]. by exists nd, k, s.
Qed.

Lemma apply_nodes_eq s : Graph.apply_nodes desc op s = mfor (seq 0 (length (nodes (state s)))) apply_one s.
Proof. done. Qed.

Lemma apply_nodes_spec s r s' :
  settled (state s) -> Graph.apply_nodes desc op s = (r, s') ->
  settled (state s') /\ same_run (state s) (state s') /\ nodes (state s') = nodes (state s) /\
  (r = Ok tt -> called op (active_nodes (state s)) s s') /\
  (forall e, r = Err e -> exists ixs ix rest nd s1 e0,
     active_nodes (state s) = ixs ++ ix :: rest /\ called op ixs s s1 /\
     nodes (state s1) !! ix = Some nd /\ op (node nd) (with_current (Some ix) s1) = (Err e0, s') /\
     e = NodeContext desc ix e0).
Proof.
  intros Hs Hrun. rewrite apply_nodes_eq in Hrun.
  destruct (apply_from _ 0 s r s' Hs eq_refl Hrun) as (H1 & H2 & H3 & Hres).
  split_and!; [done..| |].
  - by intros ->.
  - by intros e ->.
Qed.
End facts.

(** ** Properties *)

(** [apply_nodes] calls the operation once for each active node, in the
    order of their indices, with that node as the current one; at the first
    failure it stops, and the error names the phase and the node. It keeps the
    wiring and the invariants of the state between cycles. *)
Theorem apply_nodes_correct {W} `{NodeLaws W} desc (op : addr -> M (Sys W) unit) (s : Sys W) r s' :
  lawful op -> settled (state s) -> Graph.apply_nodes desc op s = (r, s') ->
  settled (state s') /\ nodes (state s') = nodes (state s) /\
  (r = Ok tt -> called op (active_nodes (state s)) s s') /\
  (forall e, r = Err e -> exists ixs ix rest nd s1 e0,
     active_nodes (state s) = ixs ++ ix :: rest /\ called op ixs s s1 /\
     nodes (state s1) !! ix = Some nd /\ op (node nd) (with_current (Some ix) s1) = (Err e0, s') /\
     e = NodeContext desc ix e0).
Proof.
  intros Hl Hs Hrun. destruct (apply_nodes_spec desc op Hl s r s' Hs Hrun) as (? & _ & ? & ? & ?).
  done.
Qed.

(** Neither a panic nor a run out of fuel. *)
Definition returned {A} (r : Res A) : Prop := match r with Ok _ | Err _ => True | _ => False end.

Lemma mcatch_inv {S A B} (m : M S A) (k : Res A -> M S B) s r s' :
  mbind (mcatch m) k s = (r, s') -> returned r ->
  exists r1 s1, m s = (r1, s1) /\ returned r1 /\ k r1 s1 = (r, s').
Proof.
  unfold mbind, mcatch. destruct (m s) as [[] s1]; intros Hrun Hr;
    [by eexists _, _|by eexists _, _|..]; injection Hrun as <- _; done.
Qed.

(** The first failure of the four phases. *)
Definition first_failure (results : list (Res unit)) : option Error := head (omap res_err results).

Lemma first_error_spec results :
  Forall returned results ->
  (Graph.first_error results = Ok tt <-> Forall (fun r => r = Ok tt) results) /\
  (forall e, Graph.first_error results = Err e -> exists e0, first_failure results = Some e0 /\
     (e = e0 \/ exists extra, extra <> [] /\ e = ShutdownContext e0 extra)) /\
  returned (Graph.first_error results).
Proof.
  intros Hr. unfold Graph.first_error, first_failure.
  assert (Hall : omap res_err results = [] <-> Forall (fun r => r = Ok tt) results).
  { induction Hr as [|r results Hr _ IH]; [by split|]. rewrite Forall_cons, <-IH.
    destruct r as [[]| | |]; try done; csimpl; naive_solver. }
  rewrite <-Hall. destruct (omap res_err results) as [|e0 [|e1 es]]; split_and!; try done.
  - intros e [= <-]. exists e0. auto.
  - intros e [= <-]. exists e0. split; [done|]. right. by exists (e1 :: es).
Qed.

(** C7: [run] cleans up. A wiring error is returned before any node is called.
    Otherwise, once [setup] has succeeded, [stop] and then [teardown] are applied
    to the nodes whatever happened in between, short of a panic; the run loop is
    entered only if every node started. The result is [Ok] exactly when all four
    phases are, and otherwise is the first failure, with later ones attached. *)
Theorem run_cleans_up {W} `{NodeOps W} fuel (s : Sys W) :
  (forall e, wiring_error (state s) = Some e ->
     Graph.run fuel s = (Err e, set_state (set_wiring_error (state s) None) s)) /\
  (forall r s1 s', wiring_error (state s) = None ->
     Graph.setup_nodes (set_state (set_wiring_error (state s) None) s) = (Ok tt, s1) ->
     Graph.run fuel s = (r, s') -> returned r ->
     exists r1 r2 r3 r4 s2 s3 s4,
       Graph.start_nodes s1 = (r1, s2) /\
       (if is_ok r1 then (do! Graph.run_nodes fuel in mreturn tt) s2 = (r2, s3)
        else r2 = Ok tt /\ s3 = s2) /\
       Graph.stop_nodes s3 = (r3, s4) /\ Graph.teardown_nodes s4 = (r4, s') /\
       (r = Ok tt <-> r1 = Ok tt /\ r2 = Ok tt /\ r3 = Ok tt /\ r4 = Ok tt) /\
       (forall e, r = Err e -> exists e0, first_failure [r1; r2; r3; r4] = Some e0 /\
          (e = e0 \/ exists extra, extra <> [] /\ e = ShutdownContext e0 extra))).
Proof.
  split.
  - intros e He. unfold Graph.run. unfold mbind at 1, get_state. erewrite mbind_ok by reflexivity.
    by rewrite He.
  - intros r s1 s' He Hsetup Hrun Hr. unfold Graph.run in Hrun. unfold mbind at 1, get_state in Hrun.
    erewrite mbind_ok in Hrun by reflexivity. rewrite He in Hrun. erewrite mbind_ok in Hrun by exact Hsetup.
    apply mcatch_inv in Hrun as (r1 & s2 & Hstart & Hr1 & Hrun); [|done].
    assert (Hloop : exists r2 s3, returned r2 /\
      (if is_ok r1 then (do! Graph.run_nodes fuel in mreturn tt) s2 = (r2, s3) else r2 = Ok tt /\ s3 = s2) /\
      (let! stop_result := mcatch Graph.stop_nodes in
       let! teardown_result := mcatch Graph.teardown_nodes in
       mlift (Graph.first_error [r1; r2; stop_result; teardown_result])) s3 = (r, s')).
    { destruct (is_ok r1).
      - apply mcatch_inv in Hrun as (r2 & s3 & Hl & Hr2 & Hrun); [|done]. by exists r2, s3.
      - by exists (Ok tt), s2. }
    destruct Hloop as (r2 & s3 & Hr2 & Hl & Hrest).
    apply mcatch_inv in Hrest as (r3 & s4 & Hstop & Hr3 & Hrest); [|done].
    apply mcatch_inv in Hrest as (r4 & s5 & Htd & Hr4 & Hrest); [|done].
    injection Hrest as Hfe <-. exists r1, r2, r3, r4, s2, s3, s4.
    destruct (first_error_spec [r1; r2; r3; r4]) as (Hok & Herr & _); [by repeat constructor|].
    rewrite Hfe in *. split_and!; try done.
    rewrite Hok, !Forall_cons, Forall_nil. naive_solver.
Qed.

(** ** Witnesses *)

Lemma diamond_settled : settled (state diamond_graph).
Proof.
  destruct (new_spec [1; 2; 3; 4]%positive [4%positive] 40 (HistoricalFrom 0) Forever diamond
    env_quiet) as (s & Hrun & _ & [(_ & t & Hini)|[_ Herr]]).
  - apply (bool_decide_unpack _). vm_compute. exact I.
  - by apply closed_by_computation.
  - set_solver.
  - vm_compute. done.
  - vm_compute. lia.
  - unfold diamond_graph. rewrite Hrun. split; [exact (in_wf _ _ _ _ Hini)|exact (in_clean _ _ _ _ Hini)].
  - assert (Hx : wiring_error (Graph.new 40 [4%positive] (HistoricalFrom 0) Forever diamond
      env_quiet).2.(state) = Some cycle_error) by by rewrite Hrun. vm_compute in Hx. discriminate.
Qed.

Lemma apply_nodes_correct_witness :
  active_nodes (state diamond_graph) = [0; 1; 2; 3] /\
  called op_start [0; 1; 2; 3] diamond_graph (Graph.start_nodes diamond_graph).2.
Proof.
  assert (Ha : active_nodes (state diamond_graph) = [0; 1; 2; 3]) by (vm_compute; reflexivity).
  split; [exact Ha|]. rewrite <-Ha.
  destruct (Graph.start_nodes diamond_graph) as [r s'] eqn:E.
  destruct (apply_nodes_correct "start" op_start diamond_graph r s' law_start diamond_settled E)
    as (_ & _ & Hok & _).
  apply Hok. change r with (r, s').1. rewrite <-E. vm_compute. reflexivity.
Defined.

(** A source and a node above it that fails to start. *)
Definition start_fails : Sys Scripts :=
  (Graph.new 40 [2%positive] (HistoricalFrom 0) Forever
    (mkScripts {[ 1%positive := mkScript UpStreams_none true (Some 10%Z) false None None;
                  2%positive := mkScript (mkUpStreams [1%positive] []) true None false (Some CStart) None ]} [])
    env_quiet).2.

Definition start_failure : Error := NodeContext "start" 1 (Msg "scripted failure").

Lemma run_cleans_up_witness :
  exists r1 r2 r3 r4 : Res unit,
    (Graph.run 40 start_fails).1 = Err start_failure /\
    first_failure [r1; r2; r3; r4] = Some start_failure /\
    calls (world (Graph.run 40 start_fails).2) =
      [(CSetup, 1%positive); (CSetup, 2%positive); (CStart, 1%positive); (CStart, 2%positive);
       (CStop, 1%positive); (CStop, 2%positive); (CTeardown, 1%positive); (CTeardown, 2%positive)].
Proof.
  assert (Hr : (Graph.run 40 start_fails).1 = Err start_failure) by (vm_compute; reflexivity).
  destruct (Graph.run 40 start_fails) as [r s'] eqn:E. simpl in Hr.
  destruct (proj2 (run_cleans_up 40 start_fails) r
    (Graph.setup_nodes (set_state (set_wiring_error (state start_fails) None) start_fails)).2 s')
    as (r1 & r2 & r3 & r4 & s2 & s3 & s4 & _ & _ & _ & _ & _ & Herr).
  - vm_compute. reflexivity.
  - vm_compute. reflexivity.
  - exact E.
  - rewrite Hr. exact I.
  - destruct (Herr start_failure Hr) as (e0 & He0 & [He|(extra & _ & He)]); [|discriminate He].
    exists r1, r2, r3, r4. split; [exact Hr|]. split; [rewrite He0, He; reflexivity|].
    change (world s') with (world (r, s').2). rewrite <-E. vm_compute. reflexivity.
Defined.
