(* ===== verification/RunProps.v ===== *)
(** * Properties of whole cycles and of historical runs *)
From S2P Require Import Prelude NanoTime TimeQueue GraphState Scripted Graph WiringFacts GraphWf InitFacts CycleProps Scheduling DynamicFacts RunLoop Lifecycle.

(** ** Definitions *)

(** The bounds of a historical run from [t0]. *)
Definition historical_bounds (rf : RunFor) (t0 : Z) : Graph.RunBounds :=
  match rf with
  | ForDuration d => Graph.mkBounds t0 (NanoTime.add_duration t0 d) u32_max
  | Cycles n => Graph.mkBounds t0 NanoTime.MAX n
  | Forever => Graph.mkBounds t0 NanoTime.MAX u32_max
  end.

(** [RunFor::Cycles] holds a [u32]. *)
Definition run_for_valid (rf : RunFor) : Prop :=
  match rf with Cycles n => (0 <= n <= u32_max)%Z | _ => True end.

(** The state in which a historical run begins. *)
Record ready_to_run (t0 : Z) (g : GraphState) : Prop := {
  rr_mode : run_mode g = HistoricalFrom t0;
  rr_settled : settled g;
  rr_last : is_last_cycle g = false;
  rr_clock : fresh_clock g;
  rr_for : run_for_valid (run_for g) }.

(** The run from [s], at the [c]-th cycle, hangs: after finitely many whole
    cycles short of the bound, the next cycle, begun where they ended, does not
    come back -- and it is the run's own last state that it stops in. *)
Definition stuck_in_cycle {W} `{NodeOps W} (fuel : nat) (b : Graph.RunBounds) (c : Z)
    (s s' : Sys W) : Prop :=
  exists tr s1 s2, hist fuel b c s tr s1 /\
    (c + Z.of_nat (length tr) < Graph.rb_end_cycle b)%Z /\
    Graph.process_callbacks_historical
      (set_state (flag_last b (c + Z.of_nat (length tr)) (state s1)) s1) = (Ok true, s2) /\
    Graph.cycle fuel s2 = (OutOfFuel, s').

Section facts.
Context {W : Type} `{NodeLaws W}.
Implicit Types (s : Sys W) (g : GraphState).

Lemma run_nodes_eq fuel t0 s :
  run_mode (state s) = HistoricalFrom t0 ->
  Graph.run_nodes fuel s =
  Graph.run_loop fuel fuel (historical_bounds (run_for (state s)) t0) false 0 0
    (set_state (set_start_time (state s) t0) s).
Proof.
  intros Hm. unfold Graph.run_nodes, Graph.resolve_start_end.
  unfold mbind at 1 2 3, get_state at 1, mreturn at 1. rewrite Hm. unfold mreturn.
  unfold mbind at 1, get_state. erewrite mbind_ok by reflexivity. rewrite Hm.
  unfold historical_bounds. by destruct (run_for (state s)).
Qed.

Lemma historical_bounds_valid rf t0 :
  run_for_valid rf -> (0 <= Graph.rb_end_cycle (historical_bounds rf t0) <= u32_max)%Z.
Proof. destruct rf; simpl; unfold u32_max; lia. Qed.

Lemma start_time_settled g t : settled g -> settled (set_start_time g t).
Proof. intros [Hw Hc]. split; [|done]. by apply (graph_wf_tables g); try done; apply Hw. Qed.

(** With a settled state a round of the loop fails only in the channel check
    or in the cycle. *)
Lemma historical_result s r s1 :
  settled (state s) -> Graph.process_callbacks_historical s = (r, s1) ->
  r = Err Graph.historical_error \/ exists p, r = Ok p.
Proof.
  intros [Hw Hc] Hrun. destruct (decide (ready_callbacks (state s) = [] /\
    env_arrivals (env s) (env_polls (env s)) = [])) as [Hq|Hq].
  - destruct (historical_spec s Hw (clean_dirty_ok _ Hc) Hq) as (g' & Heq & _).
    right. exists (has_work (state s)). congruence.
  - left. unfold Graph.process_callbacks_historical in Hrun. erewrite mbind_ok in Hrun by reflexivity.
    unfold mbind at 1, get_state in Hrun. simpl in Hrun.
    destruct (ready_callbacks (state s) ++ _) as [|x l] eqn:E; [|by injection Hrun].
    exfalso. apply Hq. by apply app_eq_nil in E.
Qed.

Lemma loop_terminates fuel b rounds c s s' :
  settled (state s) -> (0 <= c <= Graph.rb_end_cycle b)%Z -> (Graph.rb_end_cycle b <= u32_max)%Z ->
  (Graph.rb_end_cycle b - c < Z.of_nat rounds)%Z ->
  Graph.run_loop fuel rounds b false c 0 s = (OutOfFuel, s') ->
  stuck_in_cycle fuel b c s s'.
Proof.
  revert c s. induction rounds as [|rounds IH]; intros c s Hs Hc Hb Hlt Hrun; [lia|].
  rewrite hist_round in Hrun. destruct (stops b c (state s)) eqn:Est; [done|].
  assert (Hcl : (c < Graph.rb_end_cycle b)%Z).
  { unfold stops in Est. apply orb_false_iff in Est as [Hx _]. lia. }
  assert (Hwr : wrap_u32 (c + 1) = (c + 1)%Z) by (apply wrap_u32_small; lia).
  destruct (Graph.process_callbacks_historical _) as [r1 s1] eqn:Ep.
  destruct (historical_result (set_state (flag_last b c (state s)) s) _ _ (flag_last_settled b c _ Hs) Ep)
    as [->|[[] ->]]; [done| |done].
  destruct (Graph.cycle fuel s1) as [[[]|e|w|] s2] eqn:Ec; [|done|done|].
  - rewrite Hwr in Hrun. apply IH in Hrun as (tr & s3 & s4 & Ht & Hlen & Hp & Hy); [| |lia|done|lia].
    + eexists (_ :: tr), s3, s4. split; [by econstructor|]. simpl length.
      replace (c + Z.of_nat (S (length tr)))%Z with (c + 1 + Z.of_nat (length tr))%Z by lia. done.
    + by destruct (hist_step_facts fuel b c s s1 s2 Hs Ep Ec).
  - injection Hrun as <-. exists [], s, s1. rewrite Z.add_0_r. split_and!; [constructor|lia|done|done].
Qed.
End facts.

(** ** Runs in which the nodes return

    With nothing to add to the graph, a cycle calls nodes and loops over lists,
    so it ends when the nodes' own calls do. *)
Section coming_back.
Context {W : Type} `{NodeOps W}.
Context (P : W -> Prop).

(** [P] holds of the nodes and no addition is queued. *)
Definition no_additions (s : Sys W) : Prop := P (world s) /\ pending_additions (state s) = [].

Definition comes_back {A} (m : M (Sys W) A) : Prop :=
  forall s, no_additions s -> (m s).1 <> OutOfFuel /\ no_additions (m s).2.

(** The calls a running node gets come back, and queue no addition. *)
Definition node_calls_return : Prop :=
  forall a, comes_back (op_cycle a) /\ comes_back (op_stop a) /\ comes_back (op_teardown a).

Lemma back_bind {A B} (m : M (Sys W) A) (k : A -> M (Sys W) B) :
  comes_back m -> (forall a, comes_back (k a)) -> comes_back (mbind m k).
Proof.
  intros Hm Hk s Hs. destruct (Hm s Hs) as [Hr Hs']. unfold mbind.
  destruct (m s) as [[a|e|w|] s1]; simpl in *; try done. by apply Hk.
Qed.

Lemma back_map_err {A} f (m : M (Sys W) A) : comes_back m -> comes_back (mmap_err f m).
Proof.
  intros Hm s Hs. destruct (Hm s Hs) as [Hr Hs']. unfold mmap_err. by destruct (m s) as [[a|e|w|] s1].
Qed.

Lemma back_for {A} (l : list A) body : (forall a, comes_back (body a)) -> comes_back (mfor l body).
Proof. intros Hb. induction l; simpl; [by intros s Hs|]. by apply back_bind. Qed.

Lemma back_modify f :
  (forall g, pending_additions (f g) = pending_additions g) -> comes_back (modify_state f).
Proof. intros Hf s [HP Hs]. split; [done|]. split; [done|]. simpl. by rewrite Hf. Qed.

Lemma back_lift {A} (r : Res A) : r <> OutOfFuel -> comes_back (mlift r).
Proof. by intros Hr s Hs. Qed.

Lemma back_index {A} (l : list A) i : comes_back (at_index l i).
Proof. apply back_lift. by case_match. Qed.

Lemma back_mark index : comes_back (Graph.mark_dirty index).
Proof.
  intros s [HP Hs]. unfold Graph.mark_dirty, on_state, GraphState.mark_dirty, no_additions.
  repeat case_match; simplify_eq/=; done.
Qed.

Lemma back_ticked index : comes_back (on_state (GraphState.set_ticked index)).
Proof.
  intros s [HP Hs]. unfold on_state, GraphState.set_ticked, no_additions.
  repeat case_match; simplify_eq/=; done.
Qed.

Lemma back_node_at i : comes_back (node_at i).
Proof. apply back_bind; [by intros s Hs|]. intros g. apply back_index. Qed.

Lemma back_update i f : comes_back (update_node i f).
Proof.
  apply back_bind; [by intros s Hs|]. intros g.
  apply back_bind; [apply back_index|]. intros nd. by apply back_modify.
Qed.

(** The result a caught call returned is handed on to [k]. *)
Lemma back_catch_bind {A B} (m : M (Sys W) A) (k : Res A -> M (Sys W) B) :
  comes_back m -> (forall r, r <> OutOfFuel -> comes_back (k r)) -> comes_back (mbind (mcatch m) k).
Proof.
  intros Hm Hk s Hs. destruct (Hm s Hs) as [Hr Hs']. unfold mbind, mcatch.
  destruct (m s) as [[a|e|w|] s1]; simpl in *; try done; by apply Hk.
Qed.

Ltac back_step :=
  match goal with
  | |- comes_back (if ?b then _ else _) => destruct b
  | |- comes_back (match ?x with _ => _ end) => destruct x
  | |- _ =>
    first
      [ by intros s Hs
      | apply back_node_at | apply back_update | apply back_index
      | apply back_mark | apply back_ticked
      | apply back_bind; [|intros ?] | apply back_for; intros ?
      | apply back_map_err | apply back_modify; done ]
  end.

Lemma back_cycle_node index : node_calls_return -> comes_back (Graph.cycle_node index).
Proof.
  intros Hn. unfold Graph.cycle_node, Graph.set_current_node, Graph.mark_downstream.
  apply back_bind; [apply back_node_at|]. intros nd. destruct (negb _); [by intros s Hs|].
  apply back_bind; [by apply back_modify|]. intros _.
  apply back_catch_bind; [apply Hn|]. intros r Hr.
  apply back_bind; [by apply back_modify|]. intros _.
  apply back_bind; [apply back_lift; by destruct r|]. intros ticked. repeat back_step.
Qed.

Lemma back_cycle_layers : node_calls_return -> comes_back Graph.cycle_layers.
Proof.
  intros Hn. unfold Graph.cycle_layers, for_range. apply back_bind; [by intros s Hs|]. intros g.
  apply back_for. intros lyr. unfold Graph.cycle_layer, for_range.
  repeat first [apply back_cycle_node; done|back_step].
Qed.

Lemma back_remove_one n : node_calls_return -> comes_back (Graph.remove_one n).
Proof.
  intros Hn. unfold Graph.remove_one, Graph.set_current_node.
  repeat first [apply Hn|back_step].
Qed.

Lemma back_removals : node_calls_return -> comes_back Graph.process_pending_removals.
Proof.
  intros Hn. unfold Graph.process_pending_removals. apply back_bind; [by intros s Hs|]. intros g.
  apply back_bind; [by apply back_modify|]. intros _. apply back_for. intros n.
  by apply back_remove_one.
Qed.

Lemma back_additions fuel : comes_back (Graph.process_pending_additions fuel).
Proof.
  intros s [HP Hs]. unfold Graph.process_pending_additions, mbind, get_state, no_additions.
  rewrite Hs. simpl. by split_and!.
Qed.

Lemma back_cycle fuel : node_calls_return -> comes_back (Graph.cycle fuel).
Proof.
  intros Hn. unfold Graph.cycle, Graph.reset. apply back_bind; [by intros s Hs|]. intros t.
  apply back_bind; [by apply back_modify|]. intros _.
  apply back_bind; [by apply back_cycle_layers|]. intros _.
  apply back_bind; [by repeat back_step|]. intros _.
  apply back_bind; [by apply back_removals|]. intros _. apply back_additions.
Qed.
End coming_back.

Section returning_runs.
Context {W : Type} `{NodeLaws W}.
Context (P : W -> Prop) (Hn : node_calls_return P).

Lemma historical_no_additions s s1 :
  settled (state s) -> Graph.process_callbacks_historical s = (Ok true, s1) ->
  no_additions P s -> no_additions P s1.
Proof.
  intros [Hw Hc] Hrun [HP Hs].
  destruct (historical_spec s Hw (clean_dirty_ok _ Hc) (historical_ok_quiet _ _ _ Hrun))
    as (g' & Heq & _ & _ & Hsb & _).
  rewrite Heq in Hrun. injection Hrun as _ <-. split; [done|]. simpl. by rewrite (sb_additions _ _ Hsb).
Qed.

Lemma flag_last_no_additions b c s :
  no_additions P s -> no_additions P (set_state (flag_last b c (state s)) s).
Proof. intros [HP Hs]. split; [done|]. simpl. unfold flag_last. by destruct (_ && _). Qed.

Lemma hist_no_additions fuel b c s tr s' :
  hist fuel b c s tr s' -> settled (state s) -> no_additions P s -> no_additions P s'.
Proof.
  induction 1 as [|c s s1 s2 tr s3 Est Ep Ec Ht IH]; intros Hs Hna; [done|].
  apply IH; [by destruct (hist_step_facts fuel b c s s1 s2 Hs Ep Ec)|].
  pose proof (historical_no_additions (set_state (flag_last b c (state s)) s) _ (flag_last_settled b c _ Hs) Ep
    (flag_last_no_additions b c s Hna)) as H1.
  destruct (back_cycle P fuel Hn s1 H1) as [_ H2]. by rewrite Ec in H2.
Qed.

(** No cycle of such a run is the one that does not end. *)
Lemma stuck_impossible fuel b c s s' :
  settled (state s) -> no_additions P s -> stuck_in_cycle fuel b c s s' -> False.
Proof.
  intros Hs Hna (tr & s1 & s2 & Ht & _ & Hp & Hy).
  pose proof (hist_no_additions _ _ _ _ _ _ Ht Hs Hna) as H1.
  pose proof (historical_no_additions
    (set_state (flag_last b (c + Z.of_nat (length tr)) (state s1)) s1) _
    (flag_last_settled b (c + Z.of_nat (length tr)) _ (hist_settled fuel b c s tr s1 Ht Hs)) Hp
    (flag_last_no_additions b _ s1 H1)) as H2.
  destruct (back_cycle P fuel Hn s2 H2) as [Hr _]. by rewrite Hy in Hr.
Qed.
End returning_runs.

(** ** Properties *)

(** C4: a cycle that returns keeps the engine consistent. Whatever the nodes
    did -- including additions and removals of nodes, applied at its end -- the
    wiring tables, layers and queues are consistent again, nothing is left dirty
    or ticked, and the clock is where the scheduler had put it. *)
Theorem cycle_restores_invariants {W} `{NodeLaws W} fuel (s s' : Sys W) :
  graph_wf (state s) -> dirty_ok (state s) -> Graph.cycle fuel s = (Ok tt, s') ->
  graph_wf (state s') /\ clean (state s') /\ time (state s') = time (state s).
Proof.
  intros Hw Hd Hrun. destruct (cycle_ok fuel s s' Hw Hd Hrun) as ([? ?] & ? & _). done.
Qed.

(** C3: a historical run that returns [Ok] is a sequence of cycles at strictly
    increasing times (short of [NanoTime::MAX]); at most [n] cycles for
    [RunFor::Cycles(n)]. [is_last_cycle] is set in the last cycle at most; for
    [RunFor::Duration] every cycle but the last two is before the end time. The
    run ends because a bound is reached, or because no callback is pending and
    no node ticks always. *)
Theorem historical_run_correct {W} `{NodeLaws W} fuel t0 (s : Sys W) c e s' :
  ready_to_run t0 (state s) -> Graph.run_nodes fuel s = (Ok (c, e), s') ->
  let b := historical_bounds (run_for (state s)) t0 in
  exists tr s1, hist fuel b 0 (set_state (set_start_time (state s) t0) s) tr s1 /\
    c = Z.of_nat (length tr) /\ e = 0%Z /\ (c <= Graph.rb_end_cycle b)%Z /\
    (stops b c (state s1) = true \/ has_work (state s1) = false) /\
    (Forall in_range tr ->
       StronglySorted Z.lt (map fst tr) /\
       (forall k p, tr !! k = Some p -> p.2 = true -> S k = length tr) /\
       (forall k p, S (S k) < length tr -> tr !! k = Some p -> (p.1 < Graph.rb_end_time b)%Z)).
Proof.
  intros [Hm Hs Hl Hc Hv] Hrun b. rewrite (run_nodes_eq _ _ _ Hm) in Hrun. fold b in Hrun.
  set (s0 := set_state (set_start_time (state s) t0) s) in *.
  assert (Hs0 : settled (state s0)) by by apply start_time_settled.
  pose proof (historical_bounds_valid _ t0 Hv) as Hb. fold b in Hb.
  destruct (run_loop_trace fuel b fuel 0 s0 c e s') as (tr & s1 & Ht & -> & -> & Hend); [lia|lia|done|].
  exists tr, s1. pose proof (hist_bound fuel b 0 s0 tr s1 Ht ltac:(lia)) as Hbd.
  split_and!; [done|lia|done|lia| |].
  - destruct Hend as [[? _]|[_ Hp]]; [by left|right].
    pose proof (hist_settled fuel b 0 s0 tr s1 Ht Hs0) as Hs1.
    pose proof (historical_ok_quiet _ _ _ Hp) as Hq.
    pose proof (flag_last_settled b (0 + Z.of_nat (length tr)) _ Hs1) as Hs2.
    destruct (historical_spec (set_state (flag_last b (0 + Z.of_nat (length tr)) (state s1)) s1)
      (proj1 Hs2) (clean_dirty_ok _ (proj2 Hs2)) Hq) as (g' & Heq & _).
    rewrite Heq in Hp. injection Hp as Hp _. simpl in Hp. unfold flag_last in Hp. by destruct (_ && _).
  - intros Hr. split_and!; [by eapply hist_sorted|intros k p; by eapply hist_last_is_last|].
    intros k p Hlt Hk. destruct (lookup_lt_is_Some_2 tr (S k) ltac:(lia)) as [q Hq].
    destruct q.2 eqn:Eq.
    + pose proof (hist_last_is_last fuel b 0 s0 tr s1 q (S k) Ht Hs0 Hl Hc Hr Hq Eq). lia.
    + destruct (hist_unflagged fuel b 0 s0 tr s1 q (S k) Ht Hs0 Hl Hc Hr Hq Eq) as [_ Hj].
      eapply (Hj k); [lia|done].
Qed.

(** C6: A historical run bounded by [RunFor::Cycles(n)] terminates. If every
    call of a node's [cycle], [stop] and [teardown] comes back and queues no
    addition to the graph (starting from nodes of which [P] holds, a property
    those calls keep), and none is queued at the start, then [n + 1] rounds of
    the loop are enough whatever the nodes do: the run returns [Ok], an error or
    a panic. For any nodes at all, the only way the run can fail to come back is
    that, after fewer than [n] whole cycles, one of its own cycles does not: the
    loop itself never goes on beyond its bound. *)
Theorem cycles_run_terminates {W} `{NodeLaws W} fuel t0 n (s : Sys W) r s' (P : W -> Prop) :
  ready_to_run t0 (state s) -> run_for (state s) = Cycles n -> (n < Z.of_nat fuel)%Z ->
  Graph.run_nodes fuel s = (r, s') ->
  (node_calls_return P -> no_additions P s -> r <> OutOfFuel) /\
  (r = OutOfFuel ->
     stuck_in_cycle fuel (historical_bounds (Cycles n) t0) 0
       (set_state (set_start_time (state s) t0) s) s').
Proof.
  intros [Hm Hs Hl Hc Hv] Hn Hlt Hrun. rewrite (run_nodes_eq _ _ _ Hm), Hn in Hrun.
  rewrite Hn in Hv. simpl in Hv.
  assert (Hs0 : settled (state (set_state (set_start_time (state s) t0) s)))
    by by apply start_time_settled.
  assert (Hstuck : r = OutOfFuel -> stuck_in_cycle fuel (historical_bounds (Cycles n) t0) 0
    (set_state (set_start_time (state s) t0) s) s').
  { intros ->. eapply (loop_terminates fuel _ fuel 0); [done|simpl; lia|simpl; lia|simpl; lia|exact Hrun]. }
  split; [|exact Hstuck]. intros Hret Hna Hr.
  by eapply (stuck_impossible P Hret _ _ _ _ _ Hs0); [|apply Hstuck].
Qed.

(** [RunFor::Forever] and [RunFor::Duration] are bounded too: their
    [end_cycle] is [u32::MAX], and a run in either mode whose counter has reached
    it stops, however many callbacks are pending. *)
Theorem unbounded_run_stops {W} `{NodeOps W} fuel rounds t0 rf realtime e (s : Sys W) :
  (forall n, rf <> Cycles n) ->
  Graph.rb_end_cycle (historical_bounds rf t0) = 4294967295%Z /\
  Graph.run_loop fuel (S rounds) (historical_bounds rf t0) realtime 4294967295 e s =
    (Ok (4294967295%Z, e), s).
Proof.
  intros Hrf. assert (Hb : Graph.rb_end_cycle (historical_bounds rf t0) = 4294967295%Z).
  { destruct rf; [done|by destruct (Hrf n)|done]. }
  split; [done|]. simpl. unfold mbind, get_state. by rewrite Hb.
Qed.

(** ** Witnesses *)

(** The diamond, its nodes started; the source asks for a callback every 10 ns. *)
Definition diamond_for (rf : RunFor) : Sys Scripts :=
  let s := (Graph.start_nodes diamond_graph).2 in
  set_state (mkGraphState (time (state s)) (wall_time (state s)) (first_cycle (state s))
    (is_last_cycle (state s)) (current_node_index (state s)) (scheduled_callbacks (state s))
    (always_callbacks (state s)) (node_to_index (state s)) (node_ticked (state s))
    (run_mode (state s)) rf (ready_callbacks (state s)) (start_time (state s)) (nodes (state s))
    (dirty_nodes_by_layer (state s)) (node_dirty (state s)) (wiring_error (state s))
    (pending_additions (state s)) (pending_removals (state s))) s.

Lemma diamond_ready rf : run_for_valid rf -> ready_to_run 0 (state (diamond_for rf)).
Proof.
  intros Hv. destruct (Graph.start_nodes diamond_graph) as [r s1] eqn:E.
  destruct (apply_nodes_spec "start" op_start law_start diamond_graph r s1 diamond_settled E)
    as ([Hw Hc] & Hsr & _). unfold diamond_for. rewrite E. simpl.
  split; simpl.
  - rewrite (sr_mode _ _ Hsr). vm_compute. reflexivity.
  - split; [|exact Hc]. apply (graph_wf_tables (state s1)); try reflexivity; apply Hw || exact Hw.
  - rewrite (sr_last _ _ Hsr). vm_compute. reflexivity.
  - unfold fresh_clock. simpl. rewrite (sr_time _ _ Hsr).
    assert (Ht : time (state diamond_graph) = 0%Z) by (vm_compute; reflexivity).
    rewrite Ht. split_and!; [split; [lia|vm_compute; discriminate]|reflexivity|reflexivity].
  - exact Hv.
Qed.

Lemma cycle_restores_invariants_witness :
  exists s', Graph.cycle 40 diamond_dirty = (Ok tt, s') /\ graph_wf (state s') /\ clean (state s').
Proof.
  destruct (Graph.cycle 40 diamond_dirty) as [r s'] eqn:E.
  assert (Hr : r = Ok tt).
  { change r with (r, s').1. rewrite <-E. vm_compute. reflexivity. }
  rewrite Hr in E. destruct diamond_dirty_ok as [Hw Hd].
  destruct (cycle_restores_invariants 40 diamond_dirty s' Hw Hd E) as (Hw' & Hc' & _).
  exists s'. rewrite Hr. split; [reflexivity|]. split; [exact Hw'|exact Hc'].
Defined.

Lemma historical_run_correct_witness :
  exists tr, (Graph.run_nodes 40 (diamond_for (Cycles 3))).1 = Ok (3%Z, 0%Z) /\ length tr = 3 /\
    (Forall in_range tr -> StronglySorted Z.lt (map fst tr)).
Proof.
  destruct (Graph.run_nodes 40 (diamond_for (Cycles 3))) as [r s'] eqn:E.
  assert (Hr : r = Ok (3%Z, 0%Z)).
  { change r with (r, s').1. rewrite <-E. vm_compute. reflexivity. }
  rewrite Hr in E.
  destruct (historical_run_correct 40 0 (diamond_for (Cycles 3)) 3 0 s'
    (diamond_ready (Cycles 3) ltac:(vm_compute; split; discriminate)) E)
    as (tr & s1 & _ & Hlen & _ & _ & _ & Hso).
  exists tr. rewrite Hr. split; [reflexivity|]. split; [lia|]. intros Hin. apply (Hso Hin).
Defined.

(** None of the scripts adds a node. *)
Definition no_script_adds (w : Scripts) : Prop := forall a, sc_adds (script_of w a) = None.

Lemma scripts_return : node_calls_return no_script_adds.
Proof.
  assert (Hcall : forall c a body, (forall sc, sc_adds sc = None -> comes_back no_script_adds (body sc)) ->
    comes_back no_script_adds (sc_call c a body)).
  { intros c a body Hb s [HP Hs]. unfold sc_call, mbind at 1, sc_log, mbind at 1, mget.
    set (sc := script_of _ a). set (s1 := set_world _ s).
    assert (Hsc : comes_back no_script_adds (body sc)) by apply Hb, HP.
    apply (back_bind _ _ (fun _ => if bool_decide (sc_fails sc = Some c) then _ else _) Hsc);
      [intros _; by case_bool_decide; intros s2 Hs2|by split]. }
  intros a. split_and!; [|apply Hcall; by intros sc _ s Hs..]. simpl.
  apply back_bind; [|intros _; by intros s Hs]. apply Hcall. intros sc Hsc.
  apply back_bind; [by intros s Hs|]. intros g. rewrite Hsc.
  apply back_bind; [|intros _; by intros s Hs]. case_match; [|by intros s Hs].
  intros s [HP Hs]. unfold on_state, GraphState.add_callback, GraphState.current, mbind, no_additions.
  by destruct (current_node_index (state s)).
Qed.

Lemma diamond_no_additions rf : no_additions no_script_adds (diamond_for rf).
Proof.
  assert (Hscripts : scripts (world (diamond_for rf)) = scripts (world diamond_graph))
    by (vm_compute; reflexivity).
  split; [|vm_compute; reflexivity].
  intros a. unfold script_of. rewrite Hscripts.
  destruct (scripts (world diamond_graph) !! a) as [sc|] eqn:E; [|reflexivity].
  refine (map_Forall_lookup_1 (fun (_ : addr) sc => sc_adds sc = None) (scripts (world diamond_graph)) a sc _ E).
  apply (bool_decide_unpack _). vm_compute. exact I.
Qed.

(** Three cycles of the diamond within four rounds, from the theorem alone. *)
Lemma cycles_run_terminates_witness :
  (Graph.run_nodes 4 (diamond_for (Cycles 3))).1 <> OutOfFuel.
Proof.
  destruct (Graph.run_nodes 4 (diamond_for (Cycles 3))) as [r s'] eqn:E.
  apply (cycles_run_terminates 4 0 3 (diamond_for (Cycles 3)) r s' no_script_adds).
  - apply diamond_ready. vm_compute. split; discriminate.
  - reflexivity.
  - reflexivity.
  - exact E.
  - exact scripts_return.
  - apply diamond_no_additions.
Defined.

Lemma unbounded_run_stops_witness :
  Graph.run_loop 40 1 (historical_bounds Forever 0) false 4294967295 0 (diamond_for Forever) =
    (Ok (4294967295%Z, 0%Z), diamond_for Forever) /\
  has_work (state (diamond_for Forever)) = true.
Proof.
  split; [|vm_compute; reflexivity].
  apply (unbounded_run_stops 40 0 0 Forever false 0 (diamond_for Forever)). discriminate.
Defined.

(** ** A second run after a wiring error *)

(** A source, and two nodes that are each other's upstream. *)
Definition source_and_cycle : Sys Scripts :=
  (Graph.new 40 [1%positive; 2%positive] (HistoricalFrom 0) Forever
    (mkScripts {[ 1%positive := mkScript UpStreams_none true (Some 10%Z) false None None;
                  2%positive := mkScript (mkUpStreams [3%positive] []) true None false None None;
                  3%positive := mkScript (mkUpStreams [2%positive] []) true None false None None ]} [])
    env_quiet).2.

(** The wiring error is returned once. [run] takes it, so a second [run] of
    the same graph goes past the check and starts the nodes that happened to be
    wired before the error, although the dirty flags and rows were never
    allocated; the first callback then panics. *)
Theorem second_run_after_wiring_error_panics :
  (Graph.run 40 source_and_cycle).1 = Err cycle_error /\
  (Graph.run 40 (Graph.run 40 source_and_cycle).2).1 = Panic "index out of bounds" /\
  calls (world (Graph.run 40 (Graph.run 40 source_and_cycle).2).2) =
    [(CSetup, 1%positive); (CStart, 1%positive)].
Proof. vm_compute. split_and!; reflexivity. Qed.
