(* ===== verification/DynamicProps.v ===== *)
(** * Properties of wiring changes at run time *)
From S2P Require Import Prelude NanoTime TimeQueue GraphState Scripted Graph WiringFacts GraphWf InitFacts CycleProps Scheduling DynamicFacts RunLoop Lifecycle RunProps.

(** ** Termination of [fix_layers] *)

Section termination.
Context {W : Type} `{NodeOps W}.
Implicit Types (s : Sys W) (g : GraphState).

(** [L] is a layering of the edges of [g] that lies above its layers. *)
Record layering (L : nat -> nat) (g : GraphState) : Prop := {
  ly_above i nd : nodes g !! i = Some nd -> layer nd <= L i;
  ly_edge i nd e : nodes g !! i = Some nd -> e ∈ upstreams nd -> L (node_index e) < L i }.

(** The ranges the loop relies on. *)
Definition edges_in_range (g : GraphState) : Prop :=
  forall i nd e, nodes g !! i = Some nd -> e ∈ upstreams nd ++ downstreams nd ->
    node_index e < length (nodes g).

(** What is left to do: each unit a layer may still grow pays for queueing the
    downstream nodes. *)
Definition node_potential (L : nat -> nat) (i : nat) (nd : NodeData) : nat :=
  (L i - layer nd) * S (length (downstreams nd)).
Definition potential (L : nat -> nat) (g : GraphState) (Q : list nat) : nat :=
  sum_list (imap (node_potential L) (nodes g)) + length Q.

Lemma imap_insert_sum (f : nat -> NodeData -> nat) (ns : list NodeData) i x y :
  ns !! i = Some x ->
  sum_list (imap f (<[i := y]> ns)) + f i x = sum_list (imap f ns) + f i y.
Proof.
  revert f i. induction ns as [|z ns IH]; intros f [|i] Hi; try done.
  - simplify_eq/=. lia.
  - simpl in *. specialize (IH (fun k => f (S k)) i Hi).
    change (imap (f ∘ S) ?l) with (imap (fun k => f (S k)) l). lia.
Qed.

Lemma edges_layer_le g L i nd :
  layering L g -> edges_in_range g -> nodes g !! i = Some nd -> edges_layer g (upstreams nd) <= L i.
Proof.
  intros [Ha He] Hr Hi. unfold edges_layer.
  assert (Hall : Forall (fun l => l < L i) (map (fun e => layer_at g (node_index e)) (upstreams nd))).
  { apply Forall_fmap, Forall_forall. intros e Hin. simpl.
    destruct (lookup_lt_is_Some_2 (nodes g) (node_index e)) as [x Hx].
    { eapply Hr; [exact Hi|]. apply elem_of_app. by left. }
    pose proof (He _ _ _ Hi Hin). pose proof (Ha _ _ Hx). unfold layer_at. rewrite Hx. simpl. lia. }
  destruct Hall as [|l ls Hl Hls]; simpl; [lia|].
  assert (foldr Nat.max 0 ls < L i); [|lia]. induction Hls; simpl; lia.
Qed.

Lemma raise_layering L g ix nd l :
  layering L g -> nodes g !! ix = Some nd -> l <= L ix ->
  layering L (extended l (raise_node ix l nd g)).
Proof.
  intros [Ha He] Hi Hl. split.
  - intros i x Hx. destruct (raise_lookup _ _ _ _ _ _ Hi Hx) as (y & Hy & ->). simpl.
    destruct (decide (i = ix)) as [->|]; [done|by apply Ha].
  - intros i x e Hx Hin. destruct (raise_lookup _ _ _ _ _ _ Hi Hx) as (y & Hy & ->). by eapply He.
Qed.

Lemma raise_range g ix nd l :
  edges_in_range g -> nodes g !! ix = Some nd -> edges_in_range (extended l (raise_node ix l nd g)).
Proof.
  intros Hr Hi i x e Hx Hin. destruct (raise_lookup _ _ _ _ _ _ Hi Hx) as (y & Hy & ->).
  simpl. rewrite length_insert. by eapply Hr.
Qed.

Lemma fix_layers_fuel L fuel Q s :
  layering L (state s) -> edges_in_range (state s) ->
  Forall (fun i => i < length (nodes (state s))) Q -> potential L (state s) Q <= fuel ->
  exists g, Graph.fix_layers_loop fuel Q s = (Ok tt, set_state g s) /\ layering L g.
Proof.
  revert Q s. induction fuel as [|fuel IH]; intros Q s Hl Hr HQ Hf; destruct Q as [|ix rest].
  1,3: exists (state s); by destruct s.
  { unfold potential in Hf. simpl in Hf. lia. }
  apply Forall_cons in HQ as [[nd Hi]%lookup_lt_is_Some_2 HQ].
  assert (Hes : Forall (fun e => node_index e < length (nodes (state s))) (upstreams nd)).
  { apply Forall_forall. intros e He. eapply Hr; [exact Hi|]. apply elem_of_app. by left. }
  rewrite (fix_round _ _ _ _ _ Hi Hes).
  pose proof (edges_layer_le _ _ _ _ Hl Hr Hi) as Hle.
  destruct (Nat.ltb_spec (layer nd) (edges_layer (state s) (upstreams nd))) as [Hlt|Hge].
  - destruct (IH (rest ++ map node_index (downstreams nd)) (set_state (extended
      (edges_layer (state s) (upstreams nd)) (raise_node ix (edges_layer (state s) (upstreams nd)) nd
      (state s))) s)) as (g & Hrun & Hg).
    + by apply raise_layering.
    + by apply raise_range.
    + simpl. rewrite length_insert. apply Forall_app. split; [done|]. apply Forall_fmap, Forall_forall.
      intros e He. eapply Hr; [exact Hi|]. apply elem_of_app. by right.
    + unfold potential in *. simpl.
      pose proof (imap_insert_sum (node_potential L) (nodes (state s)) ix nd
        (set_layer (edges_layer (state s) (upstreams nd)) nd) Hi) as Hsum.
      unfold node_potential in Hsum at 2 4. simpl in Hsum.
      rewrite length_app, length_map. simpl in Hf. nia.
    + exists g. split; [exact Hrun|done].
  - destruct (IH rest (set_state (extended (layer nd) (state s)) s)) as (g & Hrun & Hg);
      [by destruct Hl|done|done| |].
    + unfold potential in *. simpl in *. lia.
    + exists g. split; [exact Hrun|done].
Qed.

(** The loop neither fails nor panics. *)
Lemma fix_layers_total fuel Q s r s' :
  edges_in_range (state s) -> Forall (fun i => i < length (nodes (state s))) Q ->
  Graph.fix_layers_loop fuel Q s = (r, s') -> r = Ok tt \/ r = OutOfFuel.
Proof.
  revert Q s. induction fuel as [|fuel IH]; intros Q s Hr HQ Hrun; destruct Q as [|ix rest].
  1,3: injection Hrun as <- _; by left.
  { injection Hrun as <- _. by right. }
  apply Forall_cons in HQ as [[nd Hi]%lookup_lt_is_Some_2 HQ].
  assert (Hes : Forall (fun e => node_index e < length (nodes (state s))) (upstreams nd)).
  { apply Forall_forall. intros e He. eapply Hr; [exact Hi|]. apply elem_of_app. by left. }
  rewrite (fix_round _ _ _ _ _ Hi Hes) in Hrun. destruct (_ <? _).
  - eapply IH; [| |exact Hrun]; simpl; [by apply raise_range|].
    rewrite length_insert. apply Forall_app. split; [done|]. apply Forall_fmap, Forall_forall.
    intros e He. eapply Hr; [exact Hi|]. apply elem_of_app. by right.
  - eapply IH; [| |exact Hrun]; done.
Qed.
End termination.

(** ** A cycle among wired nodes *)

(** [i] is active and reads [j]. *)
Definition depends (g : GraphState) (i j : nat) : Prop :=
  exists nd e, nodes g !! i = Some nd /\ active nd = true /\ e ∈ upstreams nd /\ node_index e = j.

Section cycles.
Context {W : Type} `{NodeOps W}.
Implicit Types (s : Sys W) (g : GraphState).

Lemma wf_part_range Q n g : wf_part Q n g -> edges_in_range g.
Proof.
  intros Hw i nd e Hi [He|He]%elem_of_app; [by eapply (wp_up _ _ _ Hw)|by eapply (wp_down _ _ _ Hw)].
Qed.

Lemma depends_layer n g i j : wf_part [] n g -> depends g i j -> layer_at g j < layer_at g i.
Proof.
  intros Hw (nd & e & Hi & Ha & He & <-).
  destruct (wp_layer _ _ _ Hw _ _ _ Hi Ha He) as [Hl|Hq]; [|by apply not_elem_of_nil in Hq].
  unfold layer_at at 2. by rewrite Hi.
Qed.

Lemma depends_acyclic n g i : wf_part [] n g -> ~ tc (depends g) i i.
Proof.
  intros Hw Ht. assert (Hlt : forall a b, tc (depends g) a b -> layer_at g b < layer_at g a).
  { induction 1 as [a b Hab|a b c Hab _ IH]; [by eapply depends_layer|].
    pose proof (depends_layer _ _ _ _ Hw Hab). lia. }
  specialize (Hlt _ _ Ht). lia.
Qed.

Lemma linked_depends c i act g g' a b : linked c i act g g' -> depends g a b -> depends g' a b.
Proof.
  intros Hl (nd & e & Ha & Hac & He & Hb).
  destruct (linked_fwd _ _ _ _ _ _ _ Hl Ha) as (nd' & Hnd' & _ & _ & Hac' & Hu & _).
  exists nd', e. split_and!; [done|congruence|apply Hu; by left|done].
Qed.

Lemma linked_new c i act g g' :
  linked c i act g g' -> active_at g c = true -> depends g' c i.
Proof.
  intros Hl Ha. unfold active_at in Ha. destruct (nodes g !! c) as [nd|] eqn:E; [|done].
  destruct (linked_fwd _ _ _ _ _ _ _ Hl E) as (nd' & Hnd' & _ & _ & Hac' & Hu & _).
  exists nd', (mkEdge i act). split_and!; [done|by rewrite Hac'|apply Hu; by right|done].
Qed.

Lemma raised_depends g g' a b : raised g g' -> depends g a b -> depends g' a b.
Proof.
  intros Hr (nd & e & Ha & Hac & He & Hb). destruct (ra_node _ _ Hr _ _ Ha) as (nd' & Hnd' & Heq & _).
  exists nd', e. rewrite <-Heq in Hac, He. by split_and!.
Qed.
End cycles.

Lemma calls_new_called {W} phase (op : addr -> M (Sys W) unit) ixs s s' :
  mfor ixs (Graph.call_new phase op) s = (Ok tt, s') -> called op ixs s s'.
Proof.
  revert s. induction ixs as [|ix ixs IH]; intros s Hrun; [injection Hrun as <-; constructor|].
  simpl in Hrun. inv_bind Hrun. destruct a. unfold Graph.call_new, node_at in E.
  unfold mbind at 1 2 in E. unfold get_state, at_index, mlift in E.
  destruct (nodes (state s) !! ix) as [nd|] eqn:Hi; [|done]. erewrite mbind_ok in E by reflexivity.
  inv_bind E. injection E as <-. unfold mmap_err in E0.
  destruct (op (node nd) _) as [[[]|?|?|] s2] eqn:Ho; try done. injection E0 as _ <-.
  econstructor; [exact Hi|exact Ho|]. by apply IH.
Qed.

(** ** Properties *)

(** A removal takes the node out of the running graph. If the node is not
    wired, or was removed before, nothing happens. Otherwise, when the removal
    returns, the node is inactive and no active node names it as an upstream or
    a downstream, [stop] and then [teardown] were called on it, each once, and
    the wiring is consistent. *)
Theorem removal_unlinks {W} `{NodeLaws W} (n : addr) (s s' : Sys W) :
  settled (state s) -> Graph.remove_one n s = (Ok tt, s') ->
  graph_wf (state s') /\ clean (state s') /\
  ((s' = s /\ forall i, node_to_index (state s) !! n = Some i -> active_at (state s) i = false) \/
   exists i, node_to_index (state s) !! n = Some i /\ active_at (state s) i = true /\
     unlinked i (state s') /\ disposed n s s').
Proof.
  intros Hs Hrun. destruct (remove_one_spec n s s' Hs Hrun) as ([Hw Hc] & _ & Hcase).
  split_and!; [done..|]. destruct Hcase as [[Hn ->]|Hx]; [left|by right]. split; [done|].
  intros i Hi. destruct Hn as [Hn|(j & Hj & Ha)]; congruence.
Qed.

(** C8: [fix_layers] is correct, and ends. When the edges admit a layering [L]
    above the current layers -- they are acyclic -- the work queue runs empty
    within [potential L] rounds, and then every edge of an active node leads to
    a higher layer again and the start node's layer has a row. *)
Theorem fix_layers_correct {W} `{NodeOps W} L fuel c n (s : Sys W) :
  wf_part [c] n (state s) -> c < length (nodes (state s)) ->
  layering L (state s) -> potential L (state s) [c] <= fuel ->
  exists g, Graph.fix_layers fuel c s = (Ok tt, set_state g s) /\ wf_part [] n g /\
    layering L g /\ layer_at g c < length (dirty_nodes_by_layer g).
Proof.
  intros Hw Hc Hl Hf.
  destruct (fix_layers_fuel L fuel [c] s Hl (wf_part_range _ _ _ Hw)) as (g & Hrun & Hg);
    [by repeat constructor|done|].
  assert (HQ : Forall (fun i => i < length (nodes (state s))) [c]) by by repeat constructor.
  destruct (fix_layers_ok fuel [c] n s _ Hw HQ Hrun) as (g' & Heq & Hw' & _ & Hcov).
  assert (g' = g) as ->.
  { change (state (set_state g' s) = state (set_state g s)). by rewrite Heq. }
  exists g. split_and!; [exact Hrun|done|done|]. apply Hcov. by left.
Qed.

(** C10: an addition that closes a cycle of active nodes is not reported: if the
    added node already depends on its caller, wiring it never returns, however
    many rounds [fix_layers] is given. *)
Theorem closing_cycle_diverges {W} `{NodeOps W} fuel new a i wired (s : Sys W) r s' :
  settled (state s) -> i < length (nodes (state s)) ->
  active_at (state s) (pa_caller_index a) = true ->
  rtc (depends (state s)) i (pa_caller_index a) -> (pa_caller_index a, i) ∉ wired ->
  Graph.wire_addition fuel new a i wired s = (r, s') -> r = OutOfFuel.
Proof.
  intros [Hw _] Hi Hac Hpath Hni Hrun. set (c := pa_caller_index a) in *.
  assert (Hc : c < length (nodes (state s))).
  { unfold active_at in Hac. destruct (nodes (state s) !! c) eqn:E; [|done]. by eapply lookup_lt_Some. }
  apply wf_part_full in Hw.
  destruct (link_run c i (pa_is_active a) s Hc Hi) as (g1 & Hg1 & Hl).
  pose proof (linked_wf _ _ _ _ _ _ Hc Hi Hw Hl) as Hw1.
  unfold Graph.wire_addition in Hrun. fold c in Hrun. rewrite bool_decide_false in Hrun by done.
  erewrite mbind_ok in Hrun by exact Hg1. unfold mbind at 1, Graph.fix_layers in Hrun.
  destruct (Graph.fix_layers_loop fuel [c] (set_state g1 s)) as [r1 s1] eqn:E.
  assert (HQ : Forall (fun k => k < length (nodes (state (set_state g1 s)))) [c]).
  { constructor; [|constructor]. simpl. by rewrite (lk_len _ _ _ _ _ Hl). }
  destruct (fix_layers_total fuel [c] (set_state g1 s) r1 s1 (wf_part_range _ _ _ Hw1) HQ E) as [->| ->];
    [|by injection Hrun as <- _].
  exfalso. destruct (fix_layers_ok fuel [c] _ (set_state g1 s) s1 Hw1 HQ E) as (g2 & _ & Hw2 & Hr2 & _).
  apply (depends_acyclic _ _ c Hw2). eapply tc_rtc_r.
  - apply tc_once. eapply raised_depends; [exact Hr2|]. by eapply linked_new.
  - assert (Hmono : forall x y, depends (state s) x y -> depends g2 x y).
    { intros x y Hxy. eapply raised_depends; [exact Hr2|]. by eapply linked_depends. }
    clear -Hpath Hmono. induction Hpath as [x|x y z Hxy _ IH]; [done|].
    eapply rtc_l; [by apply Hmono|done].
Qed.

(** C9: pending additions that are wired are wired completely. Each added node
    is registered; if it is active it feeds the node that asked for it, from a
    lower layer. The nodes new to the graph have all been set up, and then all
    been started; and the state is consistent for the next cycle. *)
Theorem additions_wire {W} `{NodeLaws W} fuel (s s' : Sys W) :
  settled (state s) -> Graph.process_pending_additions fuel s = (Ok tt, s') ->
  graph_wf (state s') /\ clean (state s') /\
  forall a, a ∈ pending_additions (state s) -> exists r,
    node_to_index (state s') !! pa_node a = Some r /\
    (active_at (state s') r = true ->
       (exists act, mkEdge r act ∈ upstreams_at (state s') (pa_caller_index a)) /\
       layer_at (state s') r < layer_at (state s') (pa_caller_index a)) /\
    exists s1 s2, let new := seq (length (nodes (state s)))
        (length (nodes (state s')) - length (nodes (state s))) in
      called op_setup new s1 s2 /\ called op_start new s2 s'.
Proof.
  intros Hs Hrun. destruct (pending_additions_spec fuel s s' Hs Hrun) as [[Hw' Hc'] _].
  split_and!; [done..|]. rewrite additions_eq in Hrun.
  set (s1 := set_state (set_pending_additions (state s) []) s) in *.
  assert (Hs1 : settled (state s1)).
  { destruct Hs as [Hw Hc]. split; [|done]. by apply (graph_wf_tables (state s)); try done; apply Hw. }
  pose proof (gw_pending _ (proj1 Hs)) as Hpend.
  destruct (pending_additions (state s)) as [|a0 adds] eqn:Ep; [by intros a ?%not_elem_of_nil|].
  change (length (nodes (state s))) with (length (nodes (state s1))) in Hrun, Hpend.
  inv_bind Hrun. inv_bind Hrun. destruct a1.
  destruct (wire_pending_ok fuel _ _ _ _ Hs1 Hpend E) as (Hs2 & _ & Hix & Hnew & Hadd).
  destruct (calls_new_ok _ _ _ _ _ law_setup Hs2 Hix E0) as (Hs3 & Hr3 & Hn3).
  rewrite <-Hn3 in Hix. destruct (calls_new_ok _ _ _ _ _ law_start Hs3 Hix Hrun) as (Hs4 & _ & Hn4).
  assert (Hnodes : nodes (state s') = nodes (state s0)) by congruence.
  intros b Hb. destruct (Hadd b Hb) as (r & e & Hr & He & Hec).
  assert (Hr' : node_to_index (state s') !! pa_node b = Some r).
  { apply (gw_index _ (proj1 Hs2)) in Hr. apply (gw_index _ Hw'). by rewrite Hnodes. }
  exists r. split; [done|]. split.
  2: { exists s0, s2. rewrite Hnodes. change (length (nodes (state s))) with (length (nodes (state s1))).
       cbv zeta. rewrite <-Hnew. split; by eapply calls_new_called. }
  intros Hac. unfold active_at in Hac.
  unfold downstreams_at in He. rewrite <-Hnodes in He.
  destruct (nodes (state s') !! r) as [nd|] eqn:End; [|done]. simpl in Hac, He. rewrite <-Hec. split.
  - exists (edge_active e). by eapply (gw_back _ Hw').
  - unfold layer_at at 1. rewrite End. simpl. by eapply (gw_down_layer _ Hw').
Qed.

(** ** Witnesses *)

Lemma removal_unlinks_witness :
  exists s' i, Graph.remove_one 3%positive diamond_graph = (Ok tt, s') /\
    node_to_index (state diamond_graph) !! 3%positive = Some i /\ unlinked i (state s') /\
    disposed 3%positive diamond_graph s'.
Proof.
  destruct (Graph.remove_one 3%positive diamond_graph) as [r s'] eqn:E.
  assert (Hr : r = Ok tt).
  { change r with (r, s').1. rewrite <-E. vm_compute. reflexivity. }
  rewrite Hr in E. destruct (removal_unlinks 3%positive diamond_graph s' diamond_settled E)
    as (_ & _ & [[_ Hina]|(i & Hi & _ & Hun & Hd)]).
  - specialize (Hina 2 ltac:(vm_compute; reflexivity)). vm_compute in Hina. discriminate.
  - exists s', i. rewrite Hr. split; [reflexivity|]. split; [exact Hi|]. split; [exact Hun|exact Hd].
Defined.

(** The diamond with an edge from node 2 to node 3, its layers not yet fixed. *)
Definition diamond_linked : Sys Scripts :=
  ((do! update_node 2 (push_upstream (mkEdge 1 true)) in
    update_node 1 (push_downstream (mkEdge 2 true))) diamond_graph).2.

Lemma diamond_linked_part :
  wf_part [2] 4 (state diamond_linked) /\ layering (fun i => i) (state diamond_linked).
Proof.
  destruct diamond_settled as [Hw _]. apply wf_part_full in Hw.
  assert (Hlen : length (nodes (state diamond_graph)) = 4) by (vm_compute; reflexivity).
  destruct (link_run 2 1 true diamond_graph) as (g & Hg & Hl); [rewrite Hlen; lia|rewrite Hlen; lia|].
  assert (Heq : state diamond_linked = g) by (unfold diamond_linked; rewrite Hg; reflexivity).
  split.
  - rewrite Heq. rewrite Hlen in Hw. apply (linked_wf 2 1 true 4 (state diamond_graph)); [rewrite Hlen; lia|rewrite Hlen; lia|exact Hw|exact Hl].
  - assert (Hall : Forall (fun p => layer p.2 <= p.1 /\ Forall (fun e => node_index e < p.1) (upstreams p.2))
      (imap pair (nodes (state diamond_linked)))) by (vm_compute; repeat constructor).
    rewrite Forall_lookup in Hall.
    assert (Hp : forall i nd, nodes (state diamond_linked) !! i = Some nd ->
      layer nd <= i /\ Forall (fun e => node_index e < i) (upstreams nd)).
    { intros i nd Hi. apply (Hall i (i, nd)). rewrite list_lookup_imap, Hi. reflexivity. }
    split; [intros i nd Hi; apply (Hp i nd Hi)|]. intros i nd e Hi He.
    destruct (Hp i nd Hi) as [_ Hf]. rewrite Forall_forall in Hf. by apply Hf.
Qed.

Lemma fix_layers_correct_witness :
  layer_at (state diamond_linked) 2 = 1 /\ layer_at (state diamond_linked) 3 = 2 /\
  exists g, Graph.fix_layers 4 2 diamond_linked = (Ok tt, set_state g diamond_linked) /\
    wf_part [] 4 g /\ layer_at (state (Graph.fix_layers 4 2 diamond_linked).2) 3 = 3.
Proof.
  split; [vm_compute; reflexivity|]. split; [vm_compute; reflexivity|].
  destruct diamond_linked_part as [Hw Hl].
  destruct (fix_layers_correct (fun i => i) 4 2 4 diamond_linked Hw) as (g & Hrun & Hg & _).
  - vm_compute. lia.
  - exact Hl.
  - vm_compute. lia.
  - exists g. split; [exact Hrun|]. split; [exact Hg|]. vm_compute. reflexivity.
Defined.

Lemma diamond_depends_31 : depends (state diamond_graph) 3 1.
Proof.
  exists (mkNodeData 4 [mkEdge 1 true; mkEdge 2 false] [] 2 true), (mkEdge 1 true).
  split; [vm_compute; reflexivity|]. split; [reflexivity|]. split; [left|reflexivity].
Qed.

Lemma diamond_depends_10 : depends (state diamond_graph) 1 0.
Proof.
  exists (mkNodeData 2 [mkEdge 0 true] [mkEdge 3 true] 1 true), (mkEdge 0 true).
  split; [vm_compute; reflexivity|]. split; [reflexivity|]. split; [left|reflexivity].
Qed.

Lemma closing_cycle_diverges_witness :
  (Graph.wire_addition 100 [] (mkPendingAddition 4 0 true false) 3 ∅ diamond_graph).1 = OutOfFuel.
Proof.
  destruct (Graph.wire_addition 100 [] (mkPendingAddition 4 0 true false) 3 ∅ diamond_graph)
    as [r s'] eqn:E.
  apply (closing_cycle_diverges 100 [] (mkPendingAddition 4 0 true false) 3 ∅ diamond_graph r s').
  - exact diamond_settled.
  - vm_compute. lia.
  - vm_compute. reflexivity.
  - eapply rtc_l; [exact diamond_depends_31|]. eapply rtc_l; [exact diamond_depends_10|]. apply rtc_refl.
  - apply not_elem_of_empty.
  - exact E.
Defined.

(** The diamond, node 4 having asked for a new source, node 5. *)
Definition diamond_adding : Sys Scripts :=
  set_state (set_pending_additions (state diamond_graph) [mkPendingAddition 5 3 true true]) diamond_graph.

Lemma set_pending_settled g l :
  settled g -> Forall (fun a => pa_caller_index a < length (nodes g)) l ->
  settled (set_pending_additions g l).
Proof.
  intros [Hw Hc] Hl. split; [|done]. by apply (graph_wf_tables g); try done; apply Hw.
Qed.

Lemma diamond_adding_settled : settled (state diamond_adding).
Proof.
  apply (set_pending_settled (state diamond_graph) _ diamond_settled).
  constructor; [|constructor]. vm_compute. lia.
Qed.

Lemma additions_wire_witness :
  exists s', Graph.process_pending_additions 40 diamond_adding = (Ok tt, s') /\ graph_wf (state s') /\
    exists r, node_to_index (state s') !! 5%positive = Some r.
Proof.
  destruct (Graph.process_pending_additions 40 diamond_adding) as [r s'] eqn:E.
  assert (Hr : r = Ok tt).
  { change r with (r, s').1. rewrite <-E. vm_compute. reflexivity. }
  rewrite Hr in E. destruct (additions_wire 40 diamond_adding s' diamond_adding_settled E)
    as (Hw & _ & Hall).
  destruct (Hall (mkPendingAddition 5 3 true true)) as (i & Hi & _); [left|].
  exists s'. rewrite Hr. split; [reflexivity|]. split; [exact Hw|]. exists i. exact Hi.
Defined.
