(* ===== verification/NodeCalls.v ===== *)
(** * Node objects and the calls made on them: [wingfoil/src/types.rs],
      [MutableNode] and [impl Node for RefCell<NODE>]

    A node type is a record [S] of its fields. A method of [impl MutableNode]
    takes [&mut self] and [&mut GraphState]: it is a computation on the pair.
    A value a node reads from an upstream with [peek_value] is an argument of
    the call: the engine never changes it during the call.

    [drive] runs a node's [cycle] on a sequence of calls and lists what the node
    emits: for every call that returns [Ok(true)], the engine's time and the
    value downstream nodes peek. *)
From S2P Require Import Prelude NanoTime TimeQueue GraphState.

(** [Element]: what the program relies on is [Default]. *)
Class Element (T : Type) := default_value : T.
#[export] Instance Element_Z : Element Z := 0%Z.
#[export] Instance Element_bool : Element bool := false.
#[export] Instance Element_unit : Element unit := tt.
#[export] Instance Element_list {T} : Element (list T) := [].
#[export] Instance Element_prod {A B} `{Element A, Element B} : Element (A * B) :=
  (default_value, default_value).
#[export] Instance Element_option {T} : Element (option T) := None.

Definition NodeM (S A : Type) : Type := M (S * GraphState) A.

Section calls.
Context {S : Type}.

Definition get_self : NodeM S S := fun s => (Ok s.1, s).
Definition put_self (x : S) : NodeM S unit := fun s => (Ok tt, (x, s.2)).
Definition graph : NodeM S GraphState := fun s => (Ok s.2, s).
(** A method of [GraphState] called by a node. *)
Definition call {A} (m : M GraphState A) : NodeM S A := fun s =>
  let '(r, g) := m s.2 in (r, (s.1, g)).

(** The default bodies of [setup], [start], [stop] and [teardown]. *)
Definition default_hook : NodeM S unit := mreturn tt.

(** ** Emissions *)

Context {I O : Type} (cycle : I -> NodeM S bool) (peek : S -> O).

Definition emit (c : GraphState * I) : M S (list (Z * O)) := fun s =>
  let '(r, (s', _)) := cycle c.2 (s, c.1) in
  (match r with
   | Ok true => Ok [(time c.1, peek s')]
   | Ok false => Ok []
   | Err e => Err e
   | Panic w => Panic w
   | OutOfFuel => OutOfFuel
   end, s').

Fixpoint drive (cs : list (GraphState * I)) : M S (list (Z * O)) :=
  match cs with
  | [] => mreturn []
  | c :: cs' => let! x := emit c in let! y := drive cs' in mreturn (x ++ y)
  end.

(** The values offered to a node, with the times of the calls. *)
Definition offered {A} (cs : list (GraphState * A)) : list (Z * A) :=
  (fun c => (time c.1, c.2)) <$> cs.

Lemma emit_ok c s b s' g' :
  cycle c.2 (s, c.1) = (Ok b, (s', g')) ->
  emit c s = (Ok (if b then [(time c.1, peek s')] else []), s').
Proof. unfold emit. intros ->. by destruct b. Qed.

Lemma drive_cons c cs s b s' g' r s'' :
  cycle c.2 (s, c.1) = (Ok b, (s', g')) -> drive cs s' = (Ok r, s'') ->
  drive (c :: cs) s = (Ok ((if b then [(time c.1, peek s')] else []) ++ r), s'').
Proof. intros Hc Hd. simpl. unfold mbind. erewrite emit_ok by done. by rewrite Hd. Qed.

Lemma drive_app cs1 cs2 s :
  drive (cs1 ++ cs2) s =
  mbind (drive cs1) (fun x => mbind (drive cs2) (fun y => mreturn (x ++ y))) s.
Proof.
  revert s. induction cs1 as [|c cs1 IH]; intros s; simpl.
  - unfold mbind at 1 2. simpl. unfold mbind, mreturn. by destruct (drive cs2 s) as [[] ?].
  - rewrite !mbind_assoc. apply mbind_ext. intros x s1.
    rewrite mbind_assoc. unfold mbind at 1 2. rewrite IH. unfold mbind.
    destruct (drive cs1 s1) as [[] s2]; [|done..]. simpl.
    destruct (drive cs2 s2) as [[] s3]; [|done..]. unfold mreturn. by rewrite app_assoc.
Qed.

(** An invariant [R] between a node's state and what it emitted for what it was
    offered, kept by every call made as [P] allows after the calls before it,
    holds of every run; and the run returns. *)
Lemma drive_inv (P : list (GraphState * I) -> GraphState * I -> Prop)
    (R : list (GraphState * I) -> list (Z * O) -> S -> Prop) cs s :
  R [] [] s -> (forall k c, cs !! k = Some c -> P (take k cs) c) ->
  (forall cs out c s, P cs c -> R cs out s ->
     exists b s' g', cycle c.2 (s, c.1) = (Ok b, (s', g')) /\
       R (cs ++ [c]) (out ++ if b then [(time c.1, peek s')] else []) s') ->
  exists out s', drive cs s = (Ok out, s') /\ R cs out s'.
Proof.
  intros HR HP Hstep.
  cut (forall cs0 out0 cs s, R cs0 out0 s -> (forall k c, cs !! k = Some c -> P (cs0 ++ take k cs) c) ->
    exists out s', drive cs s = (Ok out, s') /\ R (cs0 ++ cs) (out0 ++ out) s').
  { intros Hx. by apply (Hx [] []). }
  clear s HR cs HP. intros cs0 out0 cs. revert cs0 out0.
  induction cs as [|c cs IH]; intros cs0 out0 s HR HP.
  { exists [], s. by rewrite !app_nil_r. }
  pose proof (HP 0 c eq_refl) as Hc. simpl in Hc. rewrite app_nil_r in Hc.
  destruct (Hstep _ _ c s Hc HR) as (b & s1 & g1 & Hrun & HR1).
  destruct (IH _ _ _ HR1) as (out & s2 & Hd & HR2).
  { intros k c' Hk. rewrite <-app_assoc. apply (HP (Datatypes.S k) c' Hk). }
  exists ((if b then [(time c.1, peek s1)] else []) ++ out), s2. split.
  - by eapply drive_cons.
  - by rewrite <-(app_assoc cs0 [c] cs), <-(app_assoc out0) in HR2.
Qed.
End calls.

(** The calls come at times related by [R]. *)
Definition ordered {I} (R : relation Z) (cs : list (GraphState * I)) : Prop :=
  forall k c c', cs !! k = Some c -> cs !! S k = Some c' -> R (time c.1) (time c'.1).

Lemma ordered_last {I} R (cs : list (GraphState * I)) k c c' :
  ordered R cs -> cs !! k = Some c -> last (take k cs) = Some c' -> R (time c'.1) (time c.1).
Proof.
  intros Ho Hk Hl. rewrite last_lookup, length_take_le in Hl
    by (apply Nat.lt_le_incl; by eapply lookup_lt_Some).
  destruct k as [|k]; [done|]. simpl pred in Hl.
  rewrite lookup_take_lt in Hl by lia. by eapply Ho.
Qed.

(** ** What a node's call may do to the engine *)

(** A call made for the node at [ix] that stays within the engine's interface. *)
Definition reach (cycling : bool) (ix : nat) {S} (s s' : S * GraphState) : Prop :=
  current_node_index s.2 = Some ix -> ix < length (nodes s.2) ->
  rtc (api_step cycling ix) s.2 s'.2 /\
  current_node_index s'.2 = Some ix /\ nodes s'.2 = nodes s.2.

Definition lawful_call (cycling : bool) {S A} (m : NodeM S A) : Prop :=
  forall ix, respects (reach cycling ix) m.

Section lawful.
Context {S : Type} (cycling : bool).

#[export] Instance reach_preorder ix : PreOrder (reach cycling ix (S:=S)).
Proof.
  split.
  - intros s ? ?. by split_and!.
  - intros s1 s2 s3 H1 H2 Hc Hl. destruct (H1 Hc Hl) as (Hr & Hc' & Hn).
    destruct (H2 Hc' ltac:(by rewrite Hn)) as (Hr' & Hc'' & Hn').
    split_and!; [by etransitivity|done|congruence].
Qed.

Lemma lawful_return {A} (a : A) : lawful_call cycling (S:=S) (mreturn a).
Proof. intros ix. apply respects_return, _. Qed.
Lemma lawful_fail {A} e : lawful_call cycling (S:=S) (mfail (A:=A) e).
Proof. intros ix. apply respects_fail, _. Qed.
Lemma lawful_panic {A} w : lawful_call cycling (S:=S) (mpanic (A:=A) w).
Proof. intros ix. apply respects_panic, _. Qed.
Lemma lawful_lift {A} (r : Res A) : lawful_call cycling (S:=S) (mlift r).
Proof. intros ix. apply respects_lift, _. Qed.
Lemma lawful_bind {A B} (m : NodeM S A) (k : A -> NodeM S B) :
  lawful_call cycling m -> (forall a, lawful_call cycling (k a)) ->
  lawful_call cycling (mbind m k).
Proof. intros Hm Hk ix. apply respects_bind; [apply _|apply Hm|intros a; apply Hk]. Qed.
Lemma lawful_get_self : lawful_call cycling (S:=S) get_self.
Proof. intros ix s r s' [= <- <-]. reflexivity. Qed.
Lemma lawful_put_self (x : S) : lawful_call cycling (put_self x).
Proof. intros ix s r s' [= <- <-] Hc Hl. by split_and!. Qed.
Lemma lawful_graph : lawful_call cycling (S:=S) graph.
Proof. intros ix s r s' [= <- <-]. reflexivity. Qed.

Lemma lawful_api (m : M GraphState unit) :
  (forall ix g, current_node_index g = Some ix -> ix < length (nodes g) ->
     exists g', m g = (Ok tt, g') /\ rtc (api_step cycling ix) g g' /\
       current_node_index g' = Some ix /\ nodes g' = nodes g) ->
  lawful_call cycling (S:=S) (call m).
Proof.
  intros Hm ix [x g] r s' Hrun Hc Hl. destruct (Hm ix g Hc Hl) as (g' & Hg & Hr).
  unfold call in Hrun. simpl in *. rewrite Hg in Hrun. by simplify_eq/=.
Qed.

Lemma lawful_add_callback t : lawful_call cycling (S:=S) (call (GraphState.add_callback t)).
Proof.
  apply lawful_api. intros ix g Hc Hl. unfold GraphState.add_callback, GraphState.current, mbind.
  rewrite Hc. eexists. split_and!; [done| |done|done]. apply rtc_once. by apply api_callback.
Qed.

Lemma lawful_always_callback : lawful_call cycling (S:=S) (call GraphState.always_callback).
Proof.
  apply lawful_api. intros ix g Hc Hl. unfold GraphState.always_callback, GraphState.current, mbind.
  rewrite Hc. eexists. split_and!; [done|..]; case_bool_decide; try done.
  apply rtc_once. by apply api_always.
Qed.

Lemma lawful_add_upstream n act rec :
  lawful_call cycling (S:=S) (call (GraphState.add_upstream n act rec)).
Proof.
  apply lawful_api. intros ix g Hc Hl. unfold GraphState.add_upstream, GraphState.current, mbind.
  rewrite Hc. eexists. split_and!; [done| |done|done]. apply rtc_once, api_add_upstream.
Qed.

Lemma lawful_remove_node n : lawful_call cycling (S:=S) (call (GraphState.remove_node n)).
Proof.
  apply lawful_api. intros ix g Hc Hl. eexists. split_and!; [done| |done|done].
  apply rtc_once, api_remove.
Qed.
End lawful.

#[export] Hint Resolve lawful_return lawful_fail lawful_panic lawful_lift lawful_get_self
  lawful_put_self lawful_graph lawful_add_callback lawful_always_callback
  lawful_add_upstream lawful_remove_node : wingfoil.

(** Prove that a call written with the combinators above is lawful. *)
Ltac lawful :=
  repeat first
    [ solve [eauto with wingfoil]
    | apply lawful_bind; [|intros ?]
    | match goal with |- lawful_call _ (match ?x with _ => _ end) => destruct x end
    | match goal with |- lawful_call _ (let '_ := ?x in _) => destruct x end
    | progress cbv zeta ].
