(* ===== verification/Transforms.v ===== *)
(** * Value operators: [wingfoil/src/nodes/]

    One module per node type, in the order of the source files; each has the
    record of the node's fields, its declared upstreams and its methods. What
    the [#[node(..)]] attribute generates -- [upstreams] from the listed fields,
    [peek_ref] from the output field -- is written out.

    User closures are functions; one with a side effect works on a state [X] of
    the outside world, carried next to the node. *)
From S2P Require Import Prelude NanoTime TimeQueue GraphState NodeCalls.

(** [Dep<T>] ([types.rs]), by the address of its stream. *)
Inductive Dep := Active (s : addr) | Passive (s : addr).
Definition dep_stream (d : Dep) : addr := match d with Active s | Passive s => s end.
Definition dep_is_active (d : Dep) : bool := match d with Active _ => true | Passive _ => false end.

(** The [partition] that [upstreams] of the mapping nodes makes of its [Dep]s. *)
Definition dep_upstreams (ds : list Dep) : UpStreams :=
  mkUpStreams (dep_stream <$> List.filter dep_is_active ds)
    (dep_stream <$> List.filter (fun d => negb (dep_is_active d)) ds).

Module MapStream.
Section node.
Context {IN OUT : Type} `{Element OUT}.
Record MapStream := mk { upstream : addr; value : OUT; func : IN -> OUT }.
Definition new (up : addr) (f : IN -> OUT) : MapStream := mk up default_value f.
Definition upstreams (self : MapStream) : UpStreams := mkUpStreams [upstream self] [].
Definition cycle (up : IN) : NodeM MapStream bool :=
  let! self := get_self in
  do! put_self (mk (upstream self) (func self up) (func self)) in
  mreturn true.
End node.
Arguments MapStream : clear implicits.
End MapStream.

Module MapFilterStream.
Section node.
Context {IN OUT : Type} `{Element OUT}.
Record MapFilterStream := mk { upstream : addr; value : OUT; func : IN -> OUT * bool }.
Definition new (up : addr) (f : IN -> OUT * bool) : MapFilterStream := mk up default_value f.
Definition upstreams (self : MapFilterStream) : UpStreams := mkUpStreams [upstream self] [].
Definition cycle (up : IN) : NodeM MapFilterStream bool :=
  let! self := get_self in
  let '(val, ticked) := func self up in
  do! (if ticked : bool then put_self (mk (upstream self) val (func self)) else mreturn tt) in
  mreturn ticked.
End node.
Arguments MapFilterStream : clear implicits.
End MapFilterStream.

Module TryMapStream.
Section node.
Context {IN OUT : Type} `{Element OUT}.
Record TryMapStream := mk { upstream : addr; value : OUT; func : IN -> Res OUT }.
Definition new (up : addr) (f : IN -> Res OUT) : TryMapStream := mk up default_value f.
Definition upstreams (self : TryMapStream) : UpStreams := mkUpStreams [upstream self] [].
Definition cycle (up : IN) : NodeM TryMapStream bool :=
  let! self := get_self in
  let! v := mlift (func self up) in
  do! put_self (mk (upstream self) v (func self)) in
  mreturn true.
End node.
Arguments TryMapStream : clear implicits.
End TryMapStream.

Module FilterStream.
Section node.
Context {T : Type} `{Element T}.
Record FilterStream := mk { source : addr; condition : addr; value : T }.
Definition new (src cond : addr) : FilterStream := mk src cond default_value.
Definition upstreams (self : FilterStream) : UpStreams :=
  mkUpStreams [source self; condition self] [].
Definition cycle (up : T * bool) : NodeM FilterStream bool :=
  let! self := get_self in
  let '(val, ticked) := up in
  do! (if ticked : bool then put_self (mk (source self) (condition self) val) else mreturn tt) in
  mreturn ticked.
End node.
Arguments FilterStream : clear implicits.
End FilterStream.

Module BiMapStream.
Section node.
Context {IN1 IN2 OUT : Type} `{Element OUT}.
Record BiMapStream := mk {
  upstream1 : Dep; upstream2 : Dep; value : OUT; func : IN1 -> IN2 -> OUT }.
Definition new (u1 u2 : Dep) (f : IN1 -> IN2 -> OUT) : BiMapStream := mk u1 u2 default_value f.
Definition upstreams (self : BiMapStream) : UpStreams :=
  dep_upstreams [upstream1 self; upstream2 self].
Definition cycle (up : IN1 * IN2) : NodeM BiMapStream bool :=
  let! self := get_self in
  do! put_self (mk (upstream1 self) (upstream2 self) (func self up.1 up.2) (func self)) in
  mreturn true.
End node.
Arguments BiMapStream : clear implicits.
End BiMapStream.

Module TryBiMapStream.
Section node.
Context {IN1 IN2 OUT : Type} `{Element OUT}.
Record TryBiMapStream := mk {
  upstream1 : Dep; upstream2 : Dep; value : OUT; func : IN1 -> IN2 -> Res OUT }.
Definition new (u1 u2 : Dep) (f : IN1 -> IN2 -> Res OUT) : TryBiMapStream :=
  mk u1 u2 default_value f.
Definition upstreams (self : TryBiMapStream) : UpStreams :=
  dep_upstreams [upstream1 self; upstream2 self].
Definition cycle (up : IN1 * IN2) : NodeM TryBiMapStream bool :=
  let! self := get_self in
  let! v := mlift (func self up.1 up.2) in
  do! put_self (mk (upstream1 self) (upstream2 self) v (func self)) in
  mreturn true.
End node.
Arguments TryBiMapStream : clear implicits.
End TryBiMapStream.

Module TriMapStream.
Section node.
Context {IN1 IN2 IN3 OUT : Type} `{Element OUT}.
Record TriMapStream := mk {
  upstream1 : Dep; upstream2 : Dep; upstream3 : Dep; value : OUT;
  func : IN1 -> IN2 -> IN3 -> OUT }.
Definition new (u1 u2 u3 : Dep) (f : IN1 -> IN2 -> IN3 -> OUT) : TriMapStream :=
  mk u1 u2 u3 default_value f.
Definition upstreams (self : TriMapStream) : UpStreams :=
  dep_upstreams [upstream1 self; upstream2 self; upstream3 self].
Definition cycle (up : IN1 * IN2 * IN3) : NodeM TriMapStream bool :=
  let! self := get_self in
  let '(a, b, c) := up in
  do! put_self (mk (upstream1 self) (upstream2 self) (upstream3 self)
                  (func self a b c) (func self)) in
  mreturn true.
End node.
Arguments TriMapStream : clear implicits.
End TriMapStream.

Module TryTriMapStream.
Section node.
Context {IN1 IN2 IN3 OUT : Type} `{Element OUT}.
Record TryTriMapStream := mk {
  upstream1 : Dep; upstream2 : Dep; upstream3 : Dep; value : OUT;
  func : IN1 -> IN2 -> IN3 -> Res OUT }.
Definition new (u1 u2 u3 : Dep) (f : IN1 -> IN2 -> IN3 -> Res OUT) : TryTriMapStream :=
  mk u1 u2 u3 default_value f.
Definition upstreams (self : TryTriMapStream) : UpStreams :=
  dep_upstreams [upstream1 self; upstream2 self; upstream3 self].
Definition cycle (up : IN1 * IN2 * IN3) : NodeM TryTriMapStream bool :=
  let! self := get_self in
  let '(a, b, c) := up in
  let! v := mlift (func self a b c) in
  do! put_self (mk (upstream1 self) (upstream2 self) (upstream3 self) v (func self)) in
  mreturn true.
End node.
Arguments TryTriMapStream : clear implicits.
End TryTriMapStream.

(** [Fn(&mut OUT, IN)] is a function from the accumulator to the new one. *)
Module FoldStream.
Section node.
Context {IN OUT : Type} `{Element OUT}.
Record FoldStream := mk { upstream : addr; func : OUT -> IN -> OUT; value : OUT }.
Definition new (up : addr) (f : OUT -> IN -> OUT) : FoldStream := mk up f default_value.
Definition upstreams (self : FoldStream) : UpStreams := mkUpStreams [upstream self] [].
Definition cycle (up : IN) : NodeM FoldStream bool :=
  let! self := get_self in
  do! put_self (mk (upstream self) (func self) (func self (value self) up)) in
  mreturn true.
End node.
Arguments FoldStream : clear implicits.
End FoldStream.

Module DifferenceStream.
Section node.
Context {T : Type} `{Element T} (minus : T -> T -> T).
Record DifferenceStream := mk { upstream : addr; diff : T; prev_val : option T }.
Definition new (up : addr) : DifferenceStream := mk up default_value None.
Definition upstreams (self : DifferenceStream) : UpStreams := mkUpStreams [upstream self] [].
Definition cycle (value : T) : NodeM DifferenceStream bool :=
  let! self := get_self in
  match prev_val self with
  | Some prv =>
    do! put_self (mk (upstream self) (minus value prv) (Some value)) in mreturn true
  | None =>
    do! put_self (mk (upstream self) (diff self) (Some value)) in mreturn false
  end.
End node.
Arguments DifferenceStream : clear implicits.
End DifferenceStream.

Module DistinctStream.
Section node.
Context {T : Type} `{Element T, PartialEq T}.
Record DistinctStream := mk { source : addr; value : T; last : option T }.
Definition new (src : addr) : DistinctStream := mk src default_value None.
Definition upstreams (self : DistinctStream) : UpStreams := mkUpStreams [source self] [].
Definition cycle (curr : T) : NodeM DistinctStream bool :=
  let! self := get_self in
  if match last self with Some l => peq l curr | None => false end then mreturn false
  else do! put_self (mk (source self) curr (Some curr)) in mreturn true.
End node.
Arguments DistinctStream : clear implicits.
End DistinctStream.

(** [tick_count] and [limit] are [u32]. *)
Module LimitStream.
Section node.
Context {T : Type} `{Element T}.
Record LimitStream := mk { source : addr; limit : Z; tick_count : Z; value : T }.
Definition new (src : addr) (lim : Z) : LimitStream := mk src lim 0 default_value.
Definition upstreams (self : LimitStream) : UpStreams := mkUpStreams [source self] [].
Definition cycle (up : T) : NodeM LimitStream bool :=
  let! self := get_self in
  if (limit self <=? tick_count self)%Z then mreturn false
  else
    do! put_self (mk (source self) (limit self) (wrap_u32 (tick_count self + 1)) up) in
    mreturn true.
End node.
Arguments LimitStream : clear implicits.
End LimitStream.

Module SampleStream.
Section node.
Context {T : Type} `{Element T}.
Record SampleStream := mk { upstream : addr; trigger : addr; value : T }.
Definition new (up trig : addr) : SampleStream := mk up trig default_value.
Definition upstreams (self : SampleStream) : UpStreams :=
  mkUpStreams [trigger self] [upstream self].
Definition cycle (up : T) : NodeM SampleStream bool :=
  let! self := get_self in
  do! put_self (mk (upstream self) (trigger self) up) in
  mreturn true.
End node.
Arguments SampleStream : clear implicits.
End SampleStream.

Module WithTimeStream.
Section node.
Context {T : Type} `{Element T}.
Record WithTimeStream := mk { upstream : addr; value : Z * T }.
Definition new (up : addr) : WithTimeStream := mk up (0%Z, default_value).
Definition upstreams (self : WithTimeStream) : UpStreams := mkUpStreams [upstream self] [].
Definition cycle (up : T) : NodeM WithTimeStream bool :=
  let! self := get_self in
  let! g := graph in
  do! put_self (mk (upstream self) (time g, up)) in
  mreturn true.
End node.
Arguments WithTimeStream : clear implicits.
End WithTimeStream.

(** [Fn(&mut GraphState) -> T]: the closures the library passes only read. *)
Module GraphStateStream.
Section node.
Context {T : Type} `{Element T}.
Record GraphStateStream := mk { upstream : addr; value : T; func : GraphState -> T }.
Definition new (up : addr) (f : GraphState -> T) : GraphStateStream := mk up default_value f.
Definition upstreams (self : GraphStateStream) : UpStreams := mkUpStreams [upstream self] [].
Definition cycle (_ : unit) : NodeM GraphStateStream bool :=
  let! self := get_self in
  let! g := graph in
  do! put_self (mk (upstream self) (func self g) (func self)) in
  mreturn true.
End node.
Arguments GraphStateStream : clear implicits.
End GraphStateStream.

(** ** Nodes whose closures act on the outside world [X] *)

Module InspectStream.
Section node.
Context {X T : Type} `{Element T}.
Record InspectStream := mk { upstream : addr; value : T; func : T -> X -> X }.
Definition new (up : addr) (f : T -> X -> X) : InspectStream := mk up default_value f.
Definition upstreams (self : InspectStream) : UpStreams := mkUpStreams [upstream self] [].
Definition cycle (up : T) : NodeM (InspectStream * X) bool :=
  let! s := get_self in
  let '(self, x) := s in
  do! put_self (mk (upstream self) up (func self), func self up x) in
  mreturn true.
End node.
Arguments InspectStream : clear implicits.
End InspectStream.

Module ProducerStream.
Section node.
Context {X T : Type} `{Element T}.
Record ProducerStream := mk { upstream : addr; func : X -> T * X; value : T }.
Definition new (up : addr) (f : X -> T * X) : ProducerStream := mk up f default_value.
Definition upstreams (self : ProducerStream) : UpStreams := mkUpStreams [upstream self] [].
Definition cycle (_ : unit) : NodeM (ProducerStream * X) bool :=
  let! s := get_self in
  let '(self, x) := s in
  let '(v, x) := func self x in
  do! put_self (mk (upstream self) (func self) v, x) in
  mreturn true.
End node.
Arguments ProducerStream : clear implicits.
End ProducerStream.

Module ConsumerNode.
Section node.
Context {X IN : Type}.
Record ConsumerNode := mk { upstream : addr; func : IN -> Z -> X -> X }.
Definition upstreams (self : ConsumerNode) : UpStreams := mkUpStreams [upstream self] [].
Definition cycle (up : IN) : NodeM (ConsumerNode * X) bool :=
  let! s := get_self in
  let! g := graph in
  let '(self, x) := s in
  do! put_self (self, func self up (time g) x) in
  mreturn true.
End node.
Arguments ConsumerNode : clear implicits.
End ConsumerNode.

Module TryConsumerNode.
Section node.
Context {X IN : Type}.
Record TryConsumerNode := mk { upstream : addr; func : IN -> Z -> M X unit }.
Definition upstreams (self : TryConsumerNode) : UpStreams := mkUpStreams [upstream self] [].
Definition cycle (up : IN) : NodeM (TryConsumerNode * X) bool :=
  let! s := get_self in
  let! g := graph in
  let '(self, x) := s in
  let '(r, x) := func self up (time g) x in
  do! put_self (self, x) in
  do! mlift r in
  mreturn true.
End node.
Arguments TryConsumerNode : clear implicits.
End TryConsumerNode.

(** [finally: Option<F>] with [F: FnOnce]: taken by the first [stop]. *)
Module FinallyNode.
Section node.
Context {X T : Type} `{Element T}.
Record FinallyNode := mk {
  source : addr; finally : option (T -> GraphState -> M X unit); value : T }.
Definition new (src : addr) (f : option (T -> GraphState -> M X unit)) : FinallyNode :=
  mk src f default_value.
Definition upstreams (self : FinallyNode) : UpStreams := mkUpStreams [source self] [].
Definition cycle (up : T) : NodeM (FinallyNode * X) bool :=
  let! s := get_self in
  let '(self, x) := s in
  do! put_self (mk (source self) (finally self) up, x) in
  mreturn true.
Definition stop : NodeM (FinallyNode * X) unit :=
  let! s := get_self in
  let! g := graph in
  let '(self, x) := s in
  match finally self with
  | Some f =>
    let '(r, x) := f (value self) g x in
    do! put_self (mk (source self) None (value self), x) in
    mlift r
  | None => mreturn tt
  end.
End node.
Arguments FinallyNode : clear implicits.
End FinallyNode.

(** The values printed are the buffer's, on [drop]. *)
Module PrintStream.
Section node.
Context {T : Type} `{Element T}.
Record PrintStream := mk { upstream : addr; buffer : list T; value : T }.
Definition new (up : addr) : PrintStream := mk up [] default_value.
Definition upstreams (self : PrintStream) : UpStreams := mkUpStreams [upstream self] [].
Definition cycle (up : T) : NodeM PrintStream bool :=
  let! self := get_self in
  do! put_self (mk (upstream self) (buffer self ++ [up]) up) in
  mreturn true.
Definition drop (self : PrintStream) : list T := buffer self.
End node.
Arguments PrintStream : clear implicits.
End PrintStream.

(** ** Several upstreams *)

Module MergeStream.
Section node.
Context {T : Type} `{Element T}.
Record MergeStream := mk { upstreams_of : list addr; upstream_indices : list nat; value : T }.
Definition new (ups : list addr) : MergeStream := mk ups [] default_value.
Definition upstreams (self : MergeStream) : UpStreams := mkUpStreams (upstreams_of self) [].

(** [upstreams.iter().map(..expect..).collect()]. *)
Fixpoint resolve (ups : list addr) : NodeM MergeStream (list nat) :=
  match ups with
  | [] => mreturn []
  | up :: ups' =>
    let! g := graph in
    let! ix := mlift (match GraphState.get_node_index g up with
                      | Some ix => Ok ix
                      | None => Panic "invariant: merge upstream wired at graph init"
                      end) in
    let! rest := resolve ups' in
    mreturn (ix :: rest)
  end.

(** The loop over [upstreams.iter().zip(&upstream_indices)], to its [break]. *)
Fixpoint first_ticked (l : list (T * nat)) : NodeM MergeStream bool :=
  match l with
  | [] => mreturn false
  | (v, index) :: l' =>
    let! g := graph in
    let! b := mlift (GraphState.node_index_ticked g index) in
    if b : bool then
      let! self := get_self in
      do! put_self (mk (upstreams_of self) (upstream_indices self) v) in
      mreturn true
    else first_ticked l'
  end.

(** [ups] are the values of the upstreams, in the order of [upstreams]. *)
Definition cycle (ups : list T) : NodeM MergeStream bool :=
  let! self := get_self in
  do! match upstream_indices self, upstreams_of self with
      | [], _ :: _ =>
        let! ixs := resolve (upstreams_of self) in
        put_self (mk (upstreams_of self) ixs (value self))
      | _, _ => mreturn tt
      end in
  let! self := get_self in
  first_ticked (zip ups (upstream_indices self)).
End node.
Arguments MergeStream : clear implicits.
End MergeStream.

(** The [Burst] a [CombineNode] appends to is shared with the
    [CombineStream2] that takes it: a cell next to the node. *)
Module CombineNode.
Section node.
Context {T : Type}.
Record CombineNode := mk { upstream : addr }.
Definition upstreams (self : CombineNode) : UpStreams := mkUpStreams [upstream self] [].
Definition cycle (up : T) : NodeM (CombineNode * list T) bool :=
  let! s := get_self in
  let '(self, combined) := s in
  do! put_self (self, combined ++ [up]) in
  mreturn true.
End node.
End CombineNode.

Module CombineStream2.
Section node.
Context {T : Type}.
Record CombineStream2 := mk { upstreams_of : list addr; value : list T }.
Definition upstreams (self : CombineStream2) : UpStreams := mkUpStreams (upstreams_of self) [].
Definition cycle (_ : unit) : NodeM (CombineStream2 * list T) bool :=
  let! s := get_self in
  let '(self, combined) := s in
  do! put_self (mk (upstreams_of self) combined, []) in
  mreturn true.
End node.
Arguments CombineStream2 : clear implicits.
End CombineStream2.

(** [combine]: one [CombineNode] per stream, at the addresses given, all
    feeding the [CombineStream2]. *)
Definition combine {T} (streams nodes : list addr) :
    list (addr * CombineNode.CombineNode) * CombineStream2.CombineStream2 T :=
  (zip nodes (CombineNode.mk <$> streams), CombineStream2.mk nodes []).
