(* ===== verification/Timing.v ===== *)
(** * Sources and time-dependent operators: [wingfoil/src/nodes/]

    The nodes that look at the clock or drive themselves: sources, batching,
    throttling, delaying, feedback. As in Transforms, a module per node type. *)
From S2P Require Import Prelude NanoTime TimeQueue GraphState NodeCalls.

(** ** Sources *)

Module AlwaysTickNode.
Record AlwaysTickNode := mk {}.
Definition cycle (_ : unit) : NodeM AlwaysTickNode bool := mreturn true.
Definition start : NodeM AlwaysTickNode unit := call GraphState.always_callback.
End AlwaysTickNode.

Module NeverTickNode.
Record NeverTickNode := mk {}.
Definition cycle (_ : unit) : NodeM NeverTickNode bool := mreturn false.
End NeverTickNode.

Module ConstantStream.
Section node.
Context {T : Type}.
Record ConstantStream := mk { value : T }.
Definition cycle (_ : unit) : NodeM ConstantStream bool := mreturn true.
Definition start : NodeM ConstantStream unit :=
  let! g := graph in call (GraphState.add_callback (start_time g)).
End node.
Arguments ConstantStream : clear implicits.
End ConstantStream.

Module TickNode.
Record TickNode := mk { interval : Z; at_time : option Z }.
Definition new (i : Z) : TickNode := mk i None.
Definition cycle (_ : unit) : NodeM TickNode bool :=
  let! self := get_self in
  let! g := graph in
  let next_time := match at_time self with
                   | Some t => NanoTime.add t (interval self)
                   | None => NanoTime.add (time g) (interval self)
                   end in
  do! put_self (mk (interval self) (Some next_time)) in
  do! call (GraphState.add_callback next_time) in
  mreturn true.
Definition start : NodeM TickNode unit :=
  let! g := graph in call (GraphState.add_callback (start_time g)).
End TickNode.

(** The loop [while let Some(value) = queue.pop_if_pending(now)] that keeps the
    last value popped. *)
Definition pop_pending {T} `{PartialEq T} (q : TimeQueue T) (now : Z) (value : T)
  : bool * T * TimeQueue T :=
  let '(vs, q') := TimeQueue.drain_pending q now in
  match last vs with Some v => (true, v, q') | None => (false, value, q') end.

Module CallBackStream.
Section node.
Context {T : Type} `{Element T, PartialEq T}.
Record CallBackStream := mk { value : T; queue : TimeQueue T }.
Definition new : CallBackStream := mk default_value TimeQueue.new.
Definition cycle (_ : unit) : NodeM CallBackStream bool :=
  let! self := get_self in
  let! g := graph in
  let '(ticked, v, q) := pop_pending (queue self) (time g) (value self) in
  do! put_self (mk v q) in
  do! match TimeQueue.next_time q with
      | Some callback_time => call (GraphState.add_callback callback_time)
      | None => mreturn tt
      end in
  mreturn ticked.
Definition start : NodeM CallBackStream unit :=
  let! self := get_self in
  match TimeQueue.next_time (queue self) with
  | Some t => call (GraphState.add_callback t)
  | None => mreturn tt
  end.
Definition push (self : CallBackStream) (value_at : ValueAt T) : CallBackStream :=
  mk (value self) (TimeQueue.push (queue self) (va_value value_at) (va_time value_at)).
End node.
Arguments CallBackStream : clear implicits.
End CallBackStream.

(** ** Batching *)

Module BufferStream.
Section node.
Context {T : Type}.
Record BufferStream := mk {
  upstream : addr; capacity : nat; buffer : list T; value : list T }.
Definition new (up : addr) (cap : nat) : BufferStream := mk up cap [] [].
Definition upstreams (self : BufferStream) : UpStreams := mkUpStreams [upstream self] [].
Definition cycle (up : T) : NodeM BufferStream bool :=
  let! self := get_self in
  let! g := graph in
  let buffer := buffer self ++ [up] in
  if (capacity self <=? length buffer) || (negb (Nat.eqb (length buffer) 0) && is_last_cycle g)
  then
    do! put_self (mk (upstream self) (capacity self) [] buffer) in
    if Nat.eqb (length buffer) 0 then mpanic "assertion failed: !self.value.is_empty()"
    else mreturn true
  else
    do! put_self (mk (upstream self) (capacity self) buffer (value self)) in
    mreturn false.
End node.
Arguments BufferStream : clear implicits.
End BufferStream.

Module WindowStream.
Section node.
Context {T : Type}.
Record WindowStream := mk {
  upstream : addr; interval : Z; next_window : Z; buffer : list T; value : list T }.
Definition new (up : addr) (i : Z) : WindowStream := mk up i NanoTime.ZERO [] [].
Definition upstreams (self : WindowStream) : UpStreams := mkUpStreams [upstream self] [].

Definition start : NodeM WindowStream unit :=
  let! self := get_self in
  let! g := graph in
  put_self (mk (upstream self) (interval self) (NanoTime.add (time g) (interval self))
              (buffer self) (value self)).

(** [while self.next_window <= state.time()]. *)
Fixpoint advance (fuel : nat) (now interval next_window : Z) : Res Z :=
  if (next_window <=? now)%Z then
    match fuel with
    | O => OutOfFuel
    | S fuel' => advance fuel' now interval (NanoTime.add next_window interval)
    end
  else Ok next_window.

Definition cycle (fuel : nat) (up : T) : NodeM WindowStream bool :=
  let! self := get_self in
  let! g := graph in
  let passed := (next_window self <=? time g)%Z in
  let flushed := passed && negb (Nat.eqb (length (buffer self)) 0) in
  let value1 := if flushed then buffer self else value self in
  let buffer1 := if flushed then [] else buffer self in
  let! next := mlift (if passed then advance fuel (time g) (interval self) (next_window self)
                      else Ok (next_window self)) in
  let buffer2 := buffer1 ++ [up] in
  if negb flushed && is_last_cycle g && negb (Nat.eqb (length buffer2) 0) then
    do! put_self (mk (upstream self) (interval self) next [] buffer2) in
    mreturn true
  else
    do! put_self (mk (upstream self) (interval self) next buffer2 value1) in
    mreturn flushed.
End node.
Arguments WindowStream : clear implicits.
End WindowStream.

(** ** Throttling and delaying *)

Module ThrottleStream.
Section node.
Context {T : Type} `{Element T}.
Record ThrottleStream := mk {
  upstream : addr; interval : Z; last_emit_time : option Z; value : T }.
Definition new (up : addr) (i : Z) : ThrottleStream := mk up i None default_value.
Definition upstreams (self : ThrottleStream) : UpStreams := mkUpStreams [upstream self] [].
Definition cycle (up : T) : NodeM ThrottleStream bool :=
  let! self := get_self in
  let! g := graph in
  let now := time g in
  let should_emit := match last_emit_time self with
                     | None => true
                     | Some last => (interval self <=? NanoTime.sub now last)%Z
                     end in
  if should_emit then
    do! put_self (mk (upstream self) (interval self) (Some now) up) in mreturn true
  else mreturn false.
End node.
Arguments ThrottleStream : clear implicits.
End ThrottleStream.

(** [get_or_insert_with(|| state.node_index(..).expect(..))]. *)
Definition resolve_once {S} (cached : option nat) (n : addr) (what : string) : NodeM S nat :=
  match cached with
  | Some ix => mreturn ix
  | None =>
    let! g := graph in
    mlift (match GraphState.get_node_index g n with Some ix => Ok ix | None => Panic what end)
  end.

Definition index_ticked {S} (ix : nat) : NodeM S bool :=
  let! g := graph in mlift (GraphState.node_index_ticked g ix).

Module DelayStream.
Section node.
Context {T : Type} `{Element T, PartialEq T}.
Record DelayStream := mk {
  value : T; queue : TimeQueue T; initialized : bool; upstream_index : option nat;
  upstream : addr; delay : Z }.
Definition new (up : addr) (d : Z) : DelayStream :=
  mk default_value TimeQueue.new false None up d.
Definition upstreams (self : DelayStream) : UpStreams := mkUpStreams [upstream self] [].

(** What a delaying node does with a value that has just arrived. *)
Definition accept (v : T) : NodeM DelayStream unit :=
  let! self := get_self in
  let! g := graph in
  let next_time := NanoTime.add (time g) (delay self) in
  do! call (GraphState.add_callback next_time) in
  put_self (mk (if initialized self then value self else v)
              (TimeQueue.push (queue self) v next_time) true
              (upstream_index self) (upstream self) (delay self)).

Definition cycle (up : T) : NodeM DelayStream bool :=
  let! self := get_self in
  if (delay self =? NanoTime.ZERO)%Z then
    do! put_self (mk up (queue self) (initialized self) (upstream_index self)
                    (upstream self) (delay self)) in
    mreturn true
  else
    let! g := graph in
    let current_time := time g in
    let! ix := resolve_once (upstream_index self) (upstream self)
                 "invariant: delay upstream wired at graph init" in
    do! put_self (mk (value self) (queue self) (initialized self) (Some ix)
                    (upstream self) (delay self)) in
    let! b := index_ticked ix in
    do! (if b : bool then accept up else mreturn tt) in
    let! self := get_self in
    let '(ticked, v, q) := pop_pending (queue self) current_time (value self) in
    do! put_self (mk v q (initialized self) (upstream_index self) (upstream self) (delay self)) in
    mreturn ticked.
End node.
Arguments DelayStream : clear implicits.
End DelayStream.

Module DelayWithResetStream.
Section node.
Context {T : Type} `{Element T, PartialEq T}.
Record DelayWithResetStream := mk {
  value : T; queue : TimeQueue T; initialized : bool;
  trigger_index : option nat; upstream_index : option nat;
  upstream : addr; trigger : addr; delay : Z }.
Definition new (up trig : addr) (d : Z) : DelayWithResetStream :=
  mk default_value TimeQueue.new false None None up trig d.
Definition upstreams (self : DelayWithResetStream) : UpStreams :=
  mkUpStreams [upstream self; trigger self] [].

Definition accept (v : T) : NodeM DelayWithResetStream unit :=
  let! self := get_self in
  let! g := graph in
  let next_time := NanoTime.add (time g) (delay self) in
  do! call (GraphState.add_callback next_time) in
  put_self (mk (if initialized self then value self else v)
              (TimeQueue.push (queue self) v next_time) true
              (trigger_index self) (upstream_index self) (upstream self) (trigger self)
              (delay self)).

Definition cycle (up : T) : NodeM DelayWithResetStream bool :=
  let! self := get_self in
  let! tix := resolve_once (trigger_index self) (trigger self)
                "invariant: delay_with_reset trigger wired at graph init" in
  do! put_self (mk (value self) (queue self) (initialized self) (Some tix)
                  (upstream_index self) (upstream self) (trigger self) (delay self)) in
  let! reset := index_ticked tix in
  let! self := get_self in
  if reset : bool then
    do! put_self (mk up (TimeQueue.clear (queue self)) true (trigger_index self)
                    (upstream_index self) (upstream self) (trigger self) (delay self)) in
    mreturn true
  else if (delay self =? NanoTime.ZERO)%Z then
    do! put_self (mk up (queue self) (initialized self) (trigger_index self)
                    (upstream_index self) (upstream self) (trigger self) (delay self)) in
    mreturn true
  else
    let! g := graph in
    let current_time := time g in
    let! ix := resolve_once (upstream_index self) (upstream self)
                 "invariant: delay_with_reset upstream wired at graph init" in
    do! put_self (mk (value self) (queue self) (initialized self) (trigger_index self)
                    (Some ix) (upstream self) (trigger self) (delay self)) in
    let! b := index_ticked ix in
    do! (if b : bool then accept up else mreturn tt) in
    let! self := get_self in
    let '(ticked, v, q) := pop_pending (queue self) current_time (value self) in
    do! put_self (mk v q (initialized self) (trigger_index self) (upstream_index self)
                    (upstream self) (trigger self) (delay self)) in
    mreturn ticked.
End node.
Arguments DelayWithResetStream : clear implicits.
End DelayWithResetStream.

(** The line [TimedStream] logs when it stops, by the values it shows: the ticks, the
    wall-clock time and its average per tick, and in a historical run the time covered
    (the speed-up shown is its ratio to the wall-clock time). [instant] is a reading of
    the monotonic clock. *)
Record TimedLine := mkTimedLine { l_cycles : Z; l_wall : Z; l_avg : Z; l_covered : option Z }.

Module TimedStream.
Section node.
Context {T : Type} `{Element T}.
Record TimedStream := mk { upstream : addr; value : T; cycles : Z; wall_start : option Z }.
Definition new (up : addr) : TimedStream := mk up default_value 0 None.
Definition upstreams (self : TimedStream) : UpStreams := mkUpStreams [upstream self] [].
Definition start (instant : Z) : NodeM TimedStream unit :=
  let! self := get_self in
  put_self (mk (upstream self) (value self) (cycles self) (Some instant)).
Definition cycle (up : T) : NodeM TimedStream bool :=
  let! self := get_self in
  do! put_self (mk (upstream self) up (wrap_u64 (cycles self + 1)) (wall_start self)) in
  mreturn true.
Definition summary (self : TimedStream) (g : GraphState) (instant : Z) : TimedLine :=
  let wall_elapsed := option_map (fun s => Z.max 0 (instant - s))%Z (wall_start self) in
  let engine_elapsed := GraphState.elapsed g in
  let wall := default engine_elapsed wall_elapsed in
  let avg := wrap_u64 (wall / Z.max (cycles self) 1)%Z in
  mkTimedLine (cycles self) wall avg
    (match run_mode g, wall_elapsed with HistoricalFrom _, Some _ => Some engine_elapsed | _, _ => None end).
Definition stop (instant : Z) : NodeM (TimedStream * list TimedLine) unit :=
  let! s := get_self in
  let! g := graph in
  put_self (s.1, s.2 ++ [summary s.1 g instant]).
End node.
Arguments TimedStream : clear implicits.
End TimedStream.

(** ** The same operators on nodes without a value ([node_flow.rs]) *)

Module ThrottleNode.
Record ThrottleNode := mk { upstream : addr; interval : Z; last_emit_time : option Z }.
Definition new (up : addr) (i : Z) : ThrottleNode := mk up i None.
Definition upstreams (self : ThrottleNode) : UpStreams := mkUpStreams [upstream self] [].
Definition cycle (_ : unit) : NodeM ThrottleNode bool :=
  let! self := get_self in
  let! g := graph in
  let now := time g in
  let should_emit := match last_emit_time self with
                     | None => true
                     | Some last => (interval self <=? NanoTime.sub now last)%Z
                     end in
  do! (if should_emit then put_self (mk (upstream self) (interval self) (Some now))
       else mreturn tt) in
  mreturn should_emit.
End ThrottleNode.

Module DelayNode.
Record DelayNode := mk { upstream : addr; delay : Z; queue : TimeQueue unit }.
Definition new (up : addr) (d : Z) : DelayNode := mk up d TimeQueue.new.
Definition upstreams (self : DelayNode) : UpStreams := mkUpStreams [upstream self] [].
Definition cycle (_ : unit) : NodeM DelayNode bool :=
  let! self := get_self in
  if (delay self =? NanoTime.ZERO)%Z then mreturn true
  else
    let! g := graph in
    let current_time := time g in
    let! b := mlift (GraphState.ticked g (upstream self)) in
    do! (if b : bool then
           let next_time := NanoTime.add current_time (delay self) in
           do! call (GraphState.add_callback next_time) in
           put_self (mk (upstream self) (delay self) (TimeQueue.push (queue self) tt next_time))
         else mreturn tt) in
    let! self := get_self in
    let '(ticked, _, q) := pop_pending (queue self) current_time tt in
    do! put_self (mk (upstream self) (delay self) q) in
    mreturn ticked.
End DelayNode.

Module LimitNode.
Record LimitNode := mk { upstream : addr; limit : Z; tick_count : Z }.
Definition new (up : addr) (lim : Z) : LimitNode := mk up lim 0.
Definition upstreams (self : LimitNode) : UpStreams := mkUpStreams [upstream self] [].
Definition cycle (_ : unit) : NodeM LimitNode bool :=
  let! self := get_self in
  if (limit self <=? tick_count self)%Z then mreturn false
  else
    do! put_self (mk (upstream self) (limit self) (wrap_u32 (tick_count self + 1))) in
    mreturn true.
End LimitNode.

Module FilterNode.
Record FilterNode := mk { upstream : addr; condition : addr }.
Definition upstreams (self : FilterNode) : UpStreams :=
  mkUpStreams [upstream self] [condition self].
Definition cycle (cond : bool) : NodeM FilterNode bool := mreturn cond.
End FilterNode.

(** ** Feedback ([feedback.rs])

    The sink and the source stream share the queue and the source's index: one
    channel, next to the node that uses it. *)

Record FeedbackChannel (T : Type) := mkFeedback {
  fb_queue : TimeQueue T; fb_node_id : option nat }.
Arguments mkFeedback {T} fb_queue fb_node_id.
Arguments fb_queue {T} f.
Arguments fb_node_id {T} f.

Definition feedback {T} : FeedbackChannel T := mkFeedback TimeQueue.new None.

Module FeedbackSink.
Section sink.
Context {S T : Type} `{PartialEq T}.
Definition send (v : T) : NodeM (S * FeedbackChannel T) unit :=
  let! s := get_self in
  let! g := graph in
  let '(self, ch) := s in
  let t := NanoTime.add (time g) 1 in
  do! put_self (self, mkFeedback (TimeQueue.push (fb_queue ch) v t) (fb_node_id ch)) in
  match fb_node_id ch with
  | Some node_id => call (GraphState.add_callback_for_node node_id t)
  | None => mpanic "FeedbackSink::send called before paired stream's setup"
  end.
End sink.
End FeedbackSink.

Module FeedbackStream.
Section node.
Context {T : Type} `{Element T, PartialEq T}.
Record FeedbackStream := mk { value : T }.
Definition new : FeedbackStream := mk default_value.
Definition cycle (_ : unit) : NodeM (FeedbackStream * FeedbackChannel T) bool :=
  let! s := get_self in
  let! g := graph in
  let '(self, ch) := s in
  let '(ticked, v, q) := pop_pending (fb_queue ch) (time g) (value self) in
  do! put_self (mk v, mkFeedback q (fb_node_id ch)) in
  mreturn ticked.
Definition setup : NodeM (FeedbackStream * FeedbackChannel T) unit :=
  let! s := get_self in
  let '(self, ch) := s in
  let! ix := call GraphState.current_node_id in
  put_self (self, mkFeedback (fb_queue ch) (Some ix)).
End node.
Arguments FeedbackStream : clear implicits.
End FeedbackStream.

Module FeedbackSendStream.
Section node.
Context {T : Type} `{Element T, PartialEq T}.
Record FeedbackSendStream := mk { upstream : addr; value : T }.
Definition new (up : addr) : FeedbackSendStream := mk up default_value.
Definition upstreams (self : FeedbackSendStream) : UpStreams := mkUpStreams [upstream self] [].
Definition cycle (up : T) : NodeM (FeedbackSendStream * FeedbackChannel T) bool :=
  let! s := get_self in
  let '(self, ch) := s in
  do! put_self (mk (upstream self) up, ch) in
  do! FeedbackSink.send up in
  mreturn true.
End node.
Arguments FeedbackSendStream : clear implicits.
End FeedbackSendStream.

Module FeedbackSendNode.
Record FeedbackSendNode := mk { upstream : addr }.
Definition upstreams (self : FeedbackSendNode) : UpStreams := mkUpStreams [upstream self] [].
Definition cycle (_ : unit) : NodeM (FeedbackSendNode * FeedbackChannel unit) bool :=
  do! FeedbackSink.send tt in mreturn true.
End FeedbackSendNode.
