(* ===== verification/OperatorProps.v ===== *)
(** * Properties of the value operators and of batching *)
From S2P Require Import Prelude NanoTime TimeQueue GraphState NodeCalls Transforms Timing.

(** Consecutive elements of a list are related. *)
Definition adjacent {A} (R : relation A) (l : list A) : Prop :=
  forall k x y, l !! k = Some x -> l !! S k = Some y -> R x y.

Lemma adjacent_snoc {A} (R : relation A) l x :
  adjacent R l -> (forall y, last l = Some y -> R y x) -> adjacent R (l ++ [x]).
Proof.
  intros Hl Hx k a b Ha Hb. destruct (decide (S k < length l)) as [?|?].
  - rewrite !lookup_app_l in * by lia. by eapply Hl.
  - assert (Hk : S k = length l).
    { apply lookup_lt_Some in Hb. rewrite length_app in Hb. simpl in Hb. lia. }
    rewrite lookup_app_l in Ha by lia. rewrite lookup_app_r, Hk, Nat.sub_diag in Hb by lia.
    simplify_eq/=. apply Hx. by rewrite last_lookup, <-Hk.
Qed.

Lemma adjacent_nil {A} (R : relation A) : adjacent R [].
Proof. intros k x y. by rewrite lookup_nil. Qed.

(** ** [distinct] *)

Section distinct.
Context {T : Type} `{Element T, PartialEq T}.

Definition unchanged (prev : option T) (v : T) : bool :=
  match prev with Some l => peq l v | None => false end.

(** The elements that differ from their predecessor, and the first. *)
Fixpoint changes (prev : option T) (l : list (Z * T)) : list (Z * T) :=
  match l with
  | [] => []
  | p :: l' => if unchanged prev p.2 then changes prev l' else p :: changes (Some p.2) l'
  end.

Lemma distinct_drive cs s :
  exists s', drive DistinctStream.cycle DistinctStream.value cs s =
    (Ok (changes (DistinctStream.last s) (offered cs)), s').
Proof.
  revert s. induction cs as [|c cs IH]; intros s; [by exists s|].
  set (b := unchanged (DistinctStream.last s) c.2).
  set (s1 := if b then s else DistinctStream.mk (DistinctStream.source s) c.2 (Some c.2)).
  assert (Hc : DistinctStream.cycle c.2 (s, c.1) = (Ok (negb b), (s1, c.1))).
  { unfold DistinctStream.cycle, s1, mbind, get_self. simpl. fold (unchanged (DistinctStream.last s) c.2).
    fold b. by destruct b. }
  destruct (IH s1) as (s' & Hd). exists s'.
  rewrite (drive_cons _ _ c cs s _ _ _ _ _ Hc Hd). unfold s1. simpl. fold b. by destruct b.
Qed.

Lemma changes_spec `{!EqLaws T} prev l :
  changes prev l `sublist_of` l /\
  adjacent (fun p q => p.2 <> q.2) (changes prev l) /\
  (forall p, head (changes prev l) = Some p -> prev <> Some p.2) /\
  default prev (Some <$> (snd <$> last (changes prev l))) = default prev (Some <$> (snd <$> last l)).
Proof.
  revert prev. induction l as [|p l IH]; intros prev; simpl; [by split_and!|].
  destruct (unchanged prev p.2) eqn:Hp.
  - assert (Hp' : prev = Some p.2).
    { destruct prev as [x|]; [|done]. f_equal. by apply peq_spec. }
    destruct (IH prev) as (H1 & H2 & H3 & H4). split_and!; [by constructor|done|done|].
    rewrite H4, Hp', last_cons. by destruct (last l).
  - destruct (IH (Some p.2)) as (H1 & H2 & H3 & H4). split_and!.
    + by constructor.
    + intros [|k] x y Hx Hy; simpl in *; [|by eapply H2].
      simplify_eq. intros Heq. apply (H3 y); [|by rewrite Heq].
      by rewrite head_lookup.
    + intros q [= <-] ->. simpl in Hp. by rewrite (proj2 (peq_spec _ _) eq_refl) in Hp.
    + transitivity (default (Some p.2) (Some <$> (snd <$> last (changes (Some p.2) l)))).
      { rewrite last_cons. by destruct (last (changes (Some p.2) l)). }
      rewrite H4, last_cons. by destruct (last l).
Qed.
End distinct.

(** ** [buffer] *)

Section buffer.
Context {T : Type}.

Definition full (n : nat) : nat := Nat.max 1 n.

(** What a buffer has emitted and what it holds make up what it was offered. *)
Record buffer_inv (cap : nat) (cs : list (GraphState * T)) (out : list (Z * list T))
    (s : BufferStream.BufferStream T) : Prop := {
  bi_cap : BufferStream.capacity s = cap;
  bi_all : concat (snd <$> out) ++ BufferStream.buffer s = snd <$> cs;
  bi_room : length (BufferStream.buffer s) < full cap;
  bi_chunks : Forall (fun p => 0 < length p.2 /\ (length p.2 = full cap \/
    length p.2 < full cap /\
    exists c, c ∈ cs /\ time c.1 = p.1 /\ is_last_cycle c.1 = true)) out;
  bi_last c : last cs = Some c -> is_last_cycle c.1 = true -> BufferStream.buffer s = [] }.

Lemma buffer_step cap cs out c s :
  buffer_inv cap cs out s ->
  exists b s' g', BufferStream.cycle c.2 (s, c.1) = (Ok b, (s', g')) /\
    buffer_inv cap (cs ++ [c]) (out ++ if b then [(time c.1, BufferStream.value s')] else []) s'.
Proof.
  intros [Hcap Hall Hroom Hch Hlast].
  set (buf := BufferStream.buffer s ++ [c.2]).
  assert (Hbuf : length buf = S (length (BufferStream.buffer s))).
  { unfold buf. rewrite length_app. simpl. lia. }
  assert (Hch' : Forall (fun p => 0 < length p.2 /\ (length p.2 = full cap \/
    length p.2 < full cap /\
    exists c', c' ∈ cs ++ [c] /\ time c'.1 = p.1 /\ is_last_cycle c'.1 = true)) out).
  { eapply Forall_impl; [exact Hch|]. intros p [? Hp]. split; [done|].
    destruct Hp as [?|(? & c' & ? & ?)]; [by left|right]. split; [done|]. exists c'. set_solver. }
  unfold BufferStream.cycle, mbind, get_self, graph. simpl. fold buf. rewrite Hbuf, Hcap. simpl.
  assert (Hoff : snd <$> (cs ++ [c]) = (snd <$> cs) ++ [c.2]) by by rewrite fmap_app.
  destruct ((cap <=? S _) || is_last_cycle c.1) eqn:Ef; simpl; do 3 eexists; (split; [done|]).
  - split; simpl; [done| | | |done].
    + rewrite fmap_app, concat_app, Hoff, <-Hall. simpl. rewrite !app_nil_r, <-app_assoc. done.
    + unfold full. lia.
    + apply Forall_app. split; [done|]. apply Forall_singleton. simpl. rewrite Hbuf. split; [lia|].
      apply orb_true_iff in Ef as [Ef|Ef].
      * left. apply Nat.leb_le in Ef. unfold full in *. lia.
      * destruct (decide (S (length (BufferStream.buffer s)) = full cap)); [by left|right].
        split; [unfold full in *; lia|]. exists c. set_solver.
  - apply orb_false_iff in Ef as [Ef El]. apply Nat.leb_gt in Ef. rewrite app_nil_r.
    split; simpl; [done| | |done|].
    + unfold buf. by rewrite Hoff, <-Hall, app_assoc.
    + rewrite Hbuf. unfold full. lia.
    + intros c' Hc'. rewrite last_snoc in Hc'. simplify_eq. by rewrite El.
Qed.
End buffer.

(** ** [window] *)

Section window.
Context {T : Type}.

(** [n] rounds of [while self.next_window <= state.time()]. *)
Lemma advance_rounds n fuel now i next :
  (0 < i)%Z -> (0 <= next)%Z -> (now + i <= u64_max)%Z ->
  (next + Z.of_nat n * i <= now + i)%Z ->
  (forall k, k < n -> (next + Z.of_nat k * i <= now)%Z) ->
  WindowStream.advance (n + fuel) now i next = WindowStream.advance fuel now i (next + Z.of_nat n * i).
Proof.
  intros Hi. revert next. induction n as [|n IH]; intros next Hn Hmax Hle Hk; simpl.
  { by rewrite Z.add_0_r. }
  rewrite (proj2 (Z.leb_le _ _)) by (specialize (Hk 0); lia).
  assert (Hadd : NanoTime.add next i = (next + i)%Z).
  { specialize (Hk 0). apply wrap_u64_small. unfold is_u64. lia. }
  rewrite Hadd, IH; [f_equal; lia|lia|lia|lia|].
  intros k Hkn. specialize (Hk (S k)). lia.
Qed.

(** The catch-up leaves the first boundary after [now]; it takes one round per
    interval between the old boundary and [now]. *)
Lemma advance_spec fuel now i next :
  (0 < i)%Z -> (0 <= next <= now)%Z -> (now + i <= u64_max)%Z ->
  let n := Z.to_nat ((now - next) / i + 1) in
  WindowStream.advance fuel now i next =
    if decide (n <= fuel) then Ok (next + ((now - next) / i + 1) * i)%Z else OutOfFuel.
Proof.
  intros Hi Hn Hmax n.
  assert (Hq : (0 <= (now - next) / i)%Z) by (apply Z.div_pos; lia).
  pose proof (Z.mul_div_le (now - next) i Hi). pose proof (Z.mul_succ_div_gt (now - next) i Hi).
  assert (HnZ : Z.of_nat n = ((now - next) / i + 1)%Z) by lia.
  assert (Hk : forall k, k < n -> (next + Z.of_nat k * i <= now)%Z) by (intros k ?; nia).
  destruct (decide (n <= fuel)) as [Hf|Hf].
  - replace fuel with (n + (fuel - n)) by lia. rewrite advance_rounds; [|lia|lia|lia|nia|done].
    rewrite HnZ. destruct (fuel - n); simpl; rewrite (proj2 (Z.leb_gt _ _)) by nia; done.
  - replace fuel with (fuel + 0) by lia. rewrite advance_rounds; [|lia|lia|lia| |intros; apply Hk; lia].
    + simpl. rewrite (proj2 (Z.leb_le _ _)); [done|]. apply Hk. lia.
    + specialize (Hk fuel ltac:(lia)). lia.
Qed.
(** The values of a batch were offered in one window, which had passed when the
    batch was emitted -- or else the batch is the flush of the last cycle. *)
Definition batch_ok (i : Z) (cs : list (GraphState * T)) (p : Z * list T) (batch : list (Z * T)) : Prop :=
  batch <> [] /\ exists w, Forall (fun q => q.1 / i = w)%Z batch /\
    ((w < p.1 / i)%Z \/ exists c, c ∈ cs /\ time c.1 = p.1 /\ is_last_cycle c.1 = true).

(** What a window has emitted, in terms of the windows [time / i] its values
    were offered in. *)
Record window_inv (i : Z) (cs : list (GraphState * T)) (out : list (Z * list T))
    (s : WindowStream.WindowStream T) : Prop := {
  wv_interval : WindowStream.interval s = i;
  wv_next : WindowStream.next_window s =
    (i * (from_option (fun c => time c.1 / i) 0 (last cs) + 1))%Z;
  wv_split : exists batches rest,
    concat batches ++ rest = offered cs /\
    map snd out = map (map snd) batches /\
    WindowStream.buffer s = map snd rest /\
    Forall2 (batch_ok i cs) out batches /\
    Forall (fun q => q.1 / i = from_option (fun c => time c.1 / i) 0 (last cs))%Z rest /\
    (forall c, last cs = Some c -> is_last_cycle c.1 = true ->
      rest = [] \/ rest = [(time c.1, c.2)] /\ exists p, last out = Some p /\ p.1 = time c.1) }.

(** A call the window can serve: no earlier than the call before, clear of the
    end of the clock, and with fuel for the catch-up. *)
Definition window_call (fuel : nat) (i : Z) (cs : list (GraphState * T)) (c : GraphState * T) : Prop :=
  (0 <= time c.1)%Z /\ (time c.1 + i <= u64_max)%Z /\ (time c.1 / i <= Z.of_nat fuel)%Z /\
  (forall c', last cs = Some c' -> (0 <= time c'.1 <= time c.1)%Z).

Lemma window_next_boundary fuel i t0 t :
  (0 < i)%Z -> (0 <= t0 <= t)%Z -> (t + i <= u64_max)%Z -> (t / i <= Z.of_nat fuel)%Z ->
  (if (i * (t0 / i + 1) <=? t)%Z then WindowStream.advance fuel t i (i * (t0 / i + 1))
   else Ok (i * (t0 / i + 1))%Z) = Ok (i * (t / i + 1))%Z.
Proof.
  intros Hi Ht Hmax Hf.
  assert (H0 : (0 <= t0 / i)%Z) by (apply Z.div_pos; lia).
  pose proof (Z.div_le_mono t0 t i Hi ltac:(lia)).
  pose proof (Z.mul_div_le t i Hi). pose proof (Z.mul_succ_div_gt t i Hi).
  destruct (i * (t0 / i + 1) <=? t)%Z eqn:E.
  - apply Z.leb_le in E. rewrite advance_spec by nia.
    assert (Hd : ((t - i * (t0 / i + 1)) / i = t / i - (t0 / i + 1))%Z).
    { replace (t - i * (t0 / i + 1))%Z with (t + (- (t0 / i + 1)) * i)%Z by lia.
      rewrite Z.div_add by lia. lia. }
    rewrite Hd. rewrite decide_True by lia. f_equal. lia.
  - apply Z.leb_gt in E. f_equal. f_equal. apply Z.le_antisymm; [lia|].
    assert (t / i < t0 / i + 1)%Z; [|lia]. apply Z.div_lt_upper_bound; lia.
Qed.

(** One call, its catch-up done. *)
Lemma window_cycle_run fuel (s : WindowStream.WindowStream T) g v next rest :
  WindowStream.buffer s = map snd rest ->
  (if (WindowStream.next_window s <=? time g)%Z
   then WindowStream.advance fuel (time g) (WindowStream.interval s) (WindowStream.next_window s)
   else Ok (WindowStream.next_window s)) = Ok next ->
  let mk := WindowStream.mk (WindowStream.upstream s) (WindowStream.interval s) next in
  let rest' := rest ++ [(time g, v)] in
  WindowStream.cycle fuel v (s, g) =
    if (WindowStream.next_window s <=? time g)%Z && negb (Nat.eqb (length rest) 0)
    then (Ok true, (mk [v] (map snd rest), g))
    else if is_last_cycle g then (Ok true, (mk [] (map snd rest'), g))
    else (Ok false, (mk (map snd rest') (WindowStream.value s), g)).
Proof.
  intros Hbuf Hnext mk rest'. unfold WindowStream.cycle. unfold mbind at 1 2, get_self, graph. simpl.
  rewrite Hnext. unfold mbind at 1, mlift. rewrite Hbuf, length_map.
  unfold rest'. rewrite map_app. simpl.
  destruct ((_ <=? _)%Z && negb _); simpl; [done|].
  rewrite length_app, Nat.add_1_r. by destruct (is_last_cycle g).
Qed.

Lemma batch_ok_snoc i cs c p batch : batch_ok i cs p batch -> batch_ok i (cs ++ [c]) p batch.
Proof.
  intros (? & w & ? & Hw). split; [done|]. exists w. split; [done|].
  destruct Hw as [?|(c' & ? & ? & ?)]; [by left|right]. exists c'. set_solver.
Qed.

(** Where the call stands with respect to the window the buffer holds. *)
Lemma window_passed i t0 t :
  (0 < i)%Z -> (0 <= t0 <= t)%Z ->
  if (i * (t0 / i + 1) <=? t)%Z then (t0 / i < t / i)%Z else (t / i = t0 / i)%Z.
Proof.
  intros Hi Ht. pose proof (Z.div_le_mono t0 t i Hi ltac:(lia)).
  destruct (_ <=? _)%Z eqn:E.
  - apply Z.leb_le in E. apply Z.lt_le_trans with (t0 / i + 1)%Z; [lia|].
    apply Z.div_le_lower_bound; lia.
  - apply Z.leb_gt in E. assert (t / i < t0 / i + 1)%Z; [|lia]. apply Z.div_lt_upper_bound; lia.
Qed.

Lemma window_step fuel i cs out c s :
  (0 < i)%Z -> window_call fuel i cs c -> window_inv i cs out s ->
  exists b s' g', WindowStream.cycle fuel c.2 (s, c.1) = (Ok b, (s', g')) /\
    window_inv i (cs ++ [c]) (out ++ if b then [(time c.1, WindowStream.value s')] else []) s'.
Proof.
  intros Hi (Ht & Hmax & Hf & Hprev) [Hint Hnext (bs & rest & Hall & Hout & Hbuf & Hbs & Hrest & Hlast)].
  set (t0 := from_option (fun c => time c.1) 0%Z (last cs)).
  assert (Ht0 : (0 <= t0 <= time c.1)%Z).
  { unfold t0. destruct (last cs) as [c'|]; simpl; [by apply Hprev|lia]. }
  assert (Hw0 : from_option (fun c => time c.1 / i)%Z 0%Z (last cs) = (t0 / i)%Z).
  { unfold t0. destruct (last cs); simpl; [done|]. by rewrite Zdiv_0_l. }
  rewrite Hw0 in *.
  pose proof (window_next_boundary fuel i t0 (time c.1) Hi Ht0 Hmax Hf) as Hadv.
  pose proof (window_passed i t0 (time c.1) Hi Ht0) as Hp.
  assert (Hoff : offered (cs ++ [c]) = offered cs ++ [(time c.1, c.2)]) by (unfold offered; by rewrite fmap_app).
  assert (Hl : last (cs ++ [c]) = Some c) by by rewrite last_snoc.
  assert (Hbs' : Forall2 (batch_ok i (cs ++ [c])) out bs).
  { eapply Forall2_impl; [exact Hbs|]. intros p b Hpb. by apply batch_ok_snoc. }
  rewrite (window_cycle_run fuel s c.1 c.2 _ rest Hbuf) by (rewrite Hint, Hnext; exact Hadv).
  rewrite Hnext, Hint. set (r' := rest ++ [(time c.1, c.2)]).
  destruct ((_ <=? _)%Z && negb _) eqn:Ef; [|destruct (is_last_cycle c.1) eqn:El];
    do 3 eexists; (split; [reflexivity|]); split; simpl; rewrite ?Hl, ?app_nil_r; try done.
  - apply andb_true_iff in Ef as [Ep En]. rewrite Ep in Hp.
    exists (bs ++ [rest]), [(time c.1, c.2)]. split_and!; [|by rewrite !map_app, Hout|done| |by repeat constructor|].
    + by rewrite Hoff, concat_app, <-Hall, <-!app_assoc; simpl; rewrite app_nil_r.
    + apply Forall2_app; [done|]. repeat constructor; simpl; [by intros ->|].
      exists (t0 / i)%Z. split; [done|by left].
    + intros c' [= <-] _. right. split; [done|]. by exists (time c.1, map snd rest); rewrite last_snoc.
  - exists (bs ++ [r']), []. split_and!; [|by rewrite !map_app, Hout|done| |done|].
    + rewrite app_nil_r, concat_app. simpl. unfold r'. by rewrite app_nil_r, Hoff, <-Hall, app_assoc.
    + apply Forall2_app; [done|]. repeat constructor; simpl; [unfold r'; by destruct rest|].
      exists (time c.1 / i)%Z. split; [|right; exists c; set_solver].
      apply Forall_app. split; [|by repeat constructor].
      destruct (_ <=? _)%Z; simpl in Ef; [by destruct rest|]. simpl. by rewrite Hp.
    + intros c' [= <-] _. by left.
  - exists bs, r'. split_and!; [|done|done|done| |].
    + unfold r'. by rewrite Hoff, app_assoc, Hall.
    + apply Forall_app. split; [|by repeat constructor].
      destruct (_ <=? _)%Z; simpl in Ef; [by destruct rest|]. simpl. by rewrite Hp.
    + intros c' [= <-]. by rewrite El.
Qed.
End window.

(** ** Properties *)

(** A call of the engine, for the witnesses: its time, and whether the cycle is
    the last. *)
Definition at_time (t : Z) (last : bool) : GraphState :=
  set_is_last_cycle (set_time (GraphState.new (HistoricalFrom 0) Forever 0) t) last.

(** [distinct] removes repetitions and nothing else. What it emits is a
    sublist of what it is offered, starting with the first value -- even one
    equal to the default --, no two consecutive emissions are equal, and after
    any sequence of calls the last value emitted is the last one offered. *)
Theorem distinct_correct {T} `{Element T, EqLaws T} src (cs : list (GraphState * T)) :
  exists out s', drive DistinctStream.cycle DistinctStream.value cs (DistinctStream.new src) =
    (Ok out, s') /\
  out `sublist_of` offered cs /\
  head out = head (offered cs) /\
  adjacent (fun p q => p.2 <> q.2) out /\
  snd <$> last out = snd <$> last (offered cs).
Proof.
  destruct (distinct_drive cs (DistinctStream.new src)) as (s' & Hd). simpl in Hd.
  destruct (changes_spec None (offered cs)) as (Hs & Ha & _ & Hl).
  exists (changes None (offered cs)), s'. split_and!; [done|done|by destruct cs|done|].
  revert Hl. destruct (last (changes _ _)), (last (offered cs)); simpl; naive_solver.
Qed.

Lemma distinct_correct_witness :
  (drive DistinctStream.cycle DistinctStream.value
     [(at_time 1 false, 0%Z); (at_time 2 false, 0%Z); (at_time 3 false, 5%Z); (at_time 4 false, 0%Z)]
     (DistinctStream.new 1)).1 = Ok [(1, 0); (3, 5); (4, 0)]%Z /\
  adjacent (fun p q : Z * Z => p.2 <> q.2) [(1, 0); (3, 5); (4, 0)]%Z.
Proof.
  split; [vm_compute; reflexivity|].
  destruct (distinct_correct 1 [(at_time 1 false, 0%Z); (at_time 2 false, 0%Z);
    (at_time 3 false, 5%Z); (at_time 4 false, 0%Z)]) as (out & s' & Hd & _ & _ & Ha & _).
  vm_compute in Hd. injection Hd as <- _. exact Ha.
Defined.

(** [buffer] loses, repeats and reorders nothing: the chunks emitted and the
    values still held, in order, are the values offered. A chunk has [capacity]
    values (one for capacity 0), fewer only when the engine's last cycle flushes
    it; a chunk is never empty, and after the last cycle nothing is held. *)
Theorem buffer_correct {T} up cap (cs : list (GraphState * T)) :
  exists out s', drive BufferStream.cycle BufferStream.value cs (BufferStream.new up cap) =
    (Ok out, s') /\
  concat (snd <$> out) ++ BufferStream.buffer s' = snd <$> cs /\
  length (BufferStream.buffer s') < Nat.max 1 cap /\
  Forall (fun p => 0 < length p.2 /\ (length p.2 = Nat.max 1 cap \/ length p.2 < Nat.max 1 cap /\
    exists c, c ∈ cs /\ time c.1 = p.1 /\ is_last_cycle c.1 = true)) out /\
  (forall c, last cs = Some c -> is_last_cycle c.1 = true -> BufferStream.buffer s' = []).
Proof.
  destruct (drive_inv BufferStream.cycle BufferStream.value (fun _ _ => True) (buffer_inv cap) cs
    (BufferStream.new up cap)) as (out & s' & Hd & [_ H1 H2 H3 H4]).
  - split; simpl; try done. unfold full. lia.
  - done.
  - intros cs' out c s _. by apply buffer_step.
  - exists out, s'. by split_and!.
Qed.

(** C12: [window] batches by wall windows [[k * interval, (k + 1) * interval)].
    For calls at non-decreasing times the batches emitted, then the values held,
    are the values offered; the values of a batch belong to one window, and it is
    emitted by the first call after that window (or by the flush of the last
    cycle), so what is held always belongs to the window of the last call. In the
    last cycle everything held is flushed, except when that very cycle opens a
    window: the value that arrives with it is then never emitted. *)
Theorem window_correct {T} fuel up i g0 (cs : list (GraphState * T)) :
  (0 < i <= u64_max)%Z -> time g0 = NanoTime.ZERO -> ordered Z.le cs ->
  Forall (fun c => 0 <= time c.1 /\ time c.1 + i <= u64_max /\ time c.1 / i <= Z.of_nat fuel)%Z cs ->
  exists s0 out s' batches rest,
    WindowStream.start (WindowStream.new up i, g0) = (Ok tt, (s0, g0)) /\
    drive (WindowStream.cycle fuel) WindowStream.value cs s0 = (Ok out, s') /\
    concat batches ++ rest = offered cs /\ map snd out = map (map snd) batches /\
    WindowStream.buffer s' = map snd rest /\
    Forall2 (batch_ok i cs) out batches /\
    Forall (fun q => q.1 / i = from_option (fun c => time c.1 / i) 0 (last cs))%Z rest /\
    (forall c, last cs = Some c -> is_last_cycle c.1 = true ->
       rest = [] \/ rest = [(time c.1, c.2)] /\ exists p, last out = Some p /\ p.1 = time c.1).
Proof.
  intros Hi H0 Hord Hall. rewrite Forall_lookup in Hall.
  exists (WindowStream.mk up i i [] []).
  destruct (drive_inv (WindowStream.cycle fuel) WindowStream.value (window_call fuel i) (window_inv i)
    cs (WindowStream.mk up i i [] [])) as (out & s' & Hd & [_ _ (bs & rest & Hx)]).
  - split; simpl; [done|lia|]. exists [], []. by split_and!.
  - intros k c Hk. destruct (Hall k c Hk) as (? & ? & ?). split_and!; [done..|].
    intros c' Hc'. split; [|by apply (ordered_last Z.le cs k)].
    rewrite last_lookup in Hc'. apply lookup_take_Some in Hc' as [Hc' _]. by destruct (Hall _ c' Hc').
  - intros cs' out c s Hc Hs. apply window_step; [lia|done|done].
  - exists out, s', bs, rest. split_and!; try apply Hx; [|done].
    unfold WindowStream.start, mbind, get_self, graph, put_self. simpl. rewrite H0.
    unfold NanoTime.add, NanoTime.ZERO. rewrite wrap_u64_small; [done|]. unfold is_u64. lia.
Qed.

Lemma window_correct_witness :
  exists s0 s', WindowStream.start (WindowStream.new 1 10, at_time 0 false) =
      (Ok tt, (s0, at_time 0 false)) /\
    drive (WindowStream.cycle 5) WindowStream.value
      [(at_time 3 false, 7%Z); (at_time 8 false, 8%Z); (at_time 20 true, 9%Z)] s0 =
      (Ok [(20%Z, [7%Z; 8%Z])], s') /\
    WindowStream.buffer s' = [9%Z].
Proof.
  destruct (window_correct 5 1 10 (at_time 0 false)
    [(at_time 3 false, 7%Z); (at_time 8 false, 8%Z); (at_time 20 true, 9%Z)])
    as (s0 & out & s' & bs & rest & H1 & H2 & _).
  - unfold u64_max. lia.
  - reflexivity.
  - intros [|[|[|k]]] c c'; simpl; intros [= <-] [= <-] || done; vm_compute; discriminate.
  - repeat constructor; vm_compute; discriminate.
  - exists s0, s'. vm_compute in H1. injection H1 as <-. vm_compute in H2. injection H2 as <- <-.
    split_and!; reflexivity.
Defined.

(** The first value a window receives pays for the whole past. [start] runs
    before the first cycle, while [state.time()] is still zero, so the first
    boundary is one interval after zero and not after the start of the run; the
    first call walks from there to the current time one interval at a time, in
    [t / interval] rounds (for 10 ms windows in a run that starts today, more than
    10^11); an interval of zero never gets there. *)
Theorem window_catches_up_from_zero {T} fuel up i t last (v : T) :
  (0 < i <= t)%Z -> (t + i <= u64_max)%Z ->
  let s0 := (WindowStream.start (WindowStream.new (T:=T) up i, at_time 0 false)).2.1 in
  ((t / i <= Z.of_nat fuel)%Z ->
    is_ok (WindowStream.cycle fuel v (s0, at_time t last)).1 = true) /\
  ((Z.of_nat fuel < t / i)%Z ->
    (WindowStream.cycle fuel v (s0, at_time t last)).1 = OutOfFuel) /\
  (WindowStream.cycle fuel v
     ((WindowStream.start (WindowStream.new (T:=T) up 0, at_time 0 false)).2.1, at_time t last)).1 =
    OutOfFuel.
Proof.
  intros Hi Hmax s0.
  assert (Hs0 : s0 = WindowStream.mk up i i [] []).
  { unfold s0, WindowStream.start, mbind, get_self, graph, put_self. simpl.
    unfold NanoTime.add, NanoTime.ZERO. rewrite wrap_u64_small; [done|]. unfold is_u64. lia. }
  rewrite Hs0. clear s0 Hs0.
  assert (Hq : ((t - i) / i + 1 = t / i)%Z).
  { replace t with (t - i + 1 * i)%Z at 2 by lia. rewrite Z.div_add by lia. lia. }
  assert (Hcyc : forall j s, WindowStream.buffer s = [] -> WindowStream.interval s = j ->
    (WindowStream.next_window s <= t)%Z ->
    (WindowStream.cycle fuel v (s, at_time t last)).1 =
    match WindowStream.advance fuel t j (WindowStream.next_window s) with
    | Ok _ => Ok last | r => res_map_err (fun e => e) match r with
      | Err e => Err e | Panic w => Panic w | _ => OutOfFuel end end).
  { intros j s Hb Hj Hle. unfold WindowStream.cycle, mbind, get_self, graph, mlift. simpl.
    rewrite (proj2 (Z.leb_le _ _) Hle), Hb, Hj. simpl.
    destruct (WindowStream.advance fuel t j _); try done. by destruct last. }
  split_and!.
  - intros Hf. rewrite (Hcyc i) by (simpl; done || lia). simpl. rewrite advance_spec by lia.
    rewrite Hq, decide_True by lia. done.
  - intros Hf. rewrite (Hcyc i) by (simpl; done || lia). simpl. rewrite advance_spec by lia.
    rewrite Hq, decide_False by lia. done.
  - assert (Hz : (WindowStream.start (WindowStream.new (T:=T) up 0, at_time 0 false)).2.1 =
      WindowStream.mk up 0 0 [] []) by reflexivity.
    rewrite Hz, (Hcyc 0%Z) by (simpl; done || lia). simpl.
    assert (Hadv : forall n, WindowStream.advance n t 0 0 = OutOfFuel); [|by rewrite Hadv].
    induction n as [|n IH]; simpl; rewrite (proj2 (Z.leb_le 0 t)) by lia; [done|exact IH].
Qed.

Lemma window_catches_up_from_zero_witness :
  (WindowStream.cycle 2 7%Z
     ((WindowStream.start (WindowStream.new 1 10, at_time 0 false)).2.1, at_time 1000 false)).1 = OutOfFuel.
Proof.
  destruct (window_catches_up_from_zero 2 1 10 1000 false 7%Z) as (_ & Hx & _).
  { lia. }
  { vm_compute. discriminate. }
  apply Hx. vm_compute. reflexivity.
Defined.
