(* ===== verification/TimingProps.v ===== *)
(** * Properties of throttling, delaying, merging and feedback *)
From S2P Require Import Prelude NanoTime TimeQueue GraphState NodeCalls Transforms Timing OperatorProps.

(** ** [throttle] *)

Section throttle.
Context {T : Type} `{Element T}.

Record throttle_inv (i : Z) (cs : list (GraphState * T)) (out : list (Z * T))
    (s : ThrottleStream.ThrottleStream T) : Prop := {
  th_interval : ThrottleStream.interval s = i;
  th_last : ThrottleStream.last_emit_time s = fst <$> last out;
  th_sub : out `sublist_of` offered cs;
  th_head : head out = head (offered cs);
  th_spaced : adjacent (fun p q => p.1 + i <= q.1)%Z out;
  th_covered : Forall (fun q => q ∈ out \/ exists p, p ∈ out /\ p.1 <= q.1 < p.1 + i)%Z (offered cs) }.

Lemma throttle_step i cs out c s :
  (0 <= time c.1)%Z -> (time c.1 <= u64_max)%Z ->
  (forall p, last out = Some p -> 0 <= p.1 <= time c.1)%Z ->
  throttle_inv i cs out s ->
  exists b s' g', ThrottleStream.cycle c.2 (s, c.1) = (Ok b, (s', g')) /\
    throttle_inv i (cs ++ [c]) (out ++ if b then [(time c.1, ThrottleStream.value s')] else []) s'.
Proof.
  intros Ht Hmax Hle [Hi Hl Hsub Hhd Hsp Hcov].
  assert (Hoff : offered (cs ++ [c]) = offered cs ++ [(time c.1, c.2)]) by (unfold offered; by rewrite fmap_app).
  assert (Hcov' : forall out', out ⊆ out' ->
    Forall (fun q => q ∈ out' \/ exists p, p ∈ out' /\ p.1 <= q.1 < p.1 + i)%Z (offered cs)).
  { intros out' Hs. eapply Forall_impl; [exact Hcov|]. intros q [?|(p & ? & ?)]; [left|right]; [by apply Hs|].
    exists p. split; [by apply Hs|done]. }
  unfold ThrottleStream.cycle, mbind, get_self, graph. simpl. rewrite Hi, Hl.
  set (emits := match fst <$> last out with None => true | Some l => (i <=? NanoTime.sub (time c.1) l)%Z end).
  assert (Hem : emits = true \/ exists p, last out = Some p /\ (time c.1 < p.1 + i)%Z /\ emits = false).
  { unfold emits. destruct (last out) as [p|] eqn:El; simpl; [|by left].
    destruct (i <=? _)%Z eqn:Ei; [by left|right]. exists p. split_and!; [done| |done].
    specialize (Hle p eq_refl). apply Z.leb_gt in Ei. unfold NanoTime.sub in Ei.
    rewrite wrap_u64_small in Ei by (unfold is_u64; lia). lia. }
  assert (Hem2 : emits = true -> forall p, last out = Some p -> (p.1 + i <= time c.1)%Z).
  { unfold emits. intros He p Hp. rewrite Hp in He. simpl in He. apply Z.leb_le in He.
    specialize (Hle p Hp). unfold NanoTime.sub in He. rewrite wrap_u64_small in He by (unfold is_u64; lia). lia. }
  destruct emits; simpl; do 3 eexists; (split; [done|]).
  - split; simpl; [done|by rewrite last_snoc| | | |].
    + rewrite Hoff. by apply sublist_app.
    + rewrite Hoff. destruct out; [|by destruct (offered cs)].
      destruct (offered cs); [done|]. done.
    + apply adjacent_snoc; [done|]. by apply Hem2.
    + rewrite Hoff. apply Forall_app. split; [apply Hcov'; set_solver|]. apply Forall_singleton. left. set_solver.
  - destruct Hem as [?|(p & Hp & Hlt & _)]; [done|]. rewrite app_nil_r. split; simpl; [done|done| | |done|].
    + rewrite Hoff. by apply sublist_inserts_r.
    + rewrite Hoff. destruct (offered cs) eqn:E; [|done]. simpl in *. by destruct out.
    + rewrite Hoff. apply Forall_app. split; [by apply Hcov'|]. apply Forall_singleton. right. exists p.
      split; [by apply last_Some_elem_of|]. specialize (Hle p Hp). simpl. lia.
Qed.
End throttle.

(** ** [delay] *)

Section delay.
Context {T : Type} `{Element T, PartialEq T}.
Context (up : addr) (u ix : nat) (d : Z).

(** The calls in which the upstream ticked, with the values it had. *)
Definition arrived (c : GraphState * T) : bool := default false (node_ticked c.1 !! u).
Definition arrivals (cs : list (GraphState * T)) : list (Z * T) := offered (List.filter arrived cs).
Definition shift (p : Z * T) : Z * T := ((p.1 + d)%Z, p.2).
Definition last_time (cs : list (GraphState * T)) : Z := from_option (fun c => time c.1) 0%Z (last cs).

(** A call the engine makes on the node: its upstream is wired, the clock has
    advanced since the call before, and no callback the node asked for has been
    passed over. *)
Record delay_call (cs : list (GraphState * T)) (c : GraphState * T) : Prop := {
  dc_wired : GraphState.get_node_index c.1 up = Some u;
  dc_ticked : is_Some (node_ticked c.1 !! u);
  dc_current : current_node_index c.1 = Some ix;
  dc_time : (0 <= time c.1 /\ time c.1 + d <= u64_max)%Z;
  dc_after : cs <> [] -> (last_time cs < time c.1)%Z;
  dc_served p : p ∈ arrivals cs -> (last_time cs < p.1 + d -> time c.1 <= p.1 + d)%Z;
  dc_room : (Z.of_nat (length cs) < u64_max)%Z }.

Record delay_inv (cs : list (GraphState * T)) (out : list (Z * T))
    (s : DelayStream.DelayStream T) : Prop := {
  di_delay : DelayStream.delay s = d;
  di_up : DelayStream.upstream s = up;
  di_index : DelayStream.upstream_index s = None \/ DelayStream.upstream_index s = Some u;
  di_seq : (0 <= next_seq (DelayStream.queue s) <= Z.of_nat (length cs))%Z;
  di_sorted : StronglySorted (fun p q => p.1 < q.1)%Z (arrivals cs);
  di_before : Forall (fun p => p.1 <= last_time cs)%Z (arrivals cs);
  di_split : exists pending, represents (DelayStream.queue s) pending /\
    map shift (arrivals cs) = out ++ pending /\
    Forall (fun p => p.1 <= last_time cs)%Z out /\
    Forall (fun p => last_time cs < p.1)%Z pending }.

Lemma arrivals_snoc cs c :
  arrivals (cs ++ [c]) = arrivals cs ++ if arrived c then [(time c.1, c.2)] else [].
Proof.
  unfold arrivals, offered. rewrite List.filter_app, fmap_app. simpl. by destruct (arrived c).
Qed.

Lemma last_time_snoc cs c : last_time (cs ++ [c]) = time c.1.
Proof. unfold last_time. by rewrite last_snoc. Qed.

Lemma spec_push_last v t (l : list (Z * T)) :
  Forall (fun p => p.1 < t)%Z l -> Spec.push v t l = l ++ [(t, v)].
Proof.
  intros Hl. unfold Spec.push. rewrite existsb_none.
  - induction Hl as [|[t' v'] l Ht _ IH]; simpl in *; [done|].
    rewrite (proj2 (Z.ltb_ge _ _)) by lia. by rewrite IH.
  - eapply Forall_impl; [exact Hl|]. intros p Hp. simpl in Hp.
    by rewrite (proj2 (Z.eqb_neq _ _)) by lia.
Qed.

(** Of entries at distinct times none of which is before [t], at most the first
    is due at [t]. *)
Lemma due_at t (l : list (Z * T)) :
  StronglySorted (fun p q => p.1 < q.1)%Z l -> Forall (fun p => t <= p.1)%Z l ->
  (exists v l', l = (t, v) :: l' /\ Spec.due t l = [v] /\ Spec.later t l = l' /\
     Forall (fun p => t < p.1)%Z l') \/
  (Forall (fun p => t < p.1)%Z l /\ Spec.due t l = [] /\ Spec.later t l = l).
Proof.
  intros Hs Hge. destruct l as [|[t1 v1] l]; [by right|].
  apply StronglySorted_inv in Hs as [_ Hlt]. apply Forall_cons in Hge as [H1 _]. simpl in *.
  destruct (decide (t1 = t)) as [->|Hne].
  - left. exists v1, l. split; [done|]. rewrite Z.leb_refl.
    assert (Hd : Spec.due t l = [] /\ Spec.later t l = l).
    { destruct Hlt as [|[t2 v2] l H2 _]; [done|]. simpl in *. by rewrite (proj2 (Z.leb_gt _ _)) by lia. }
    destruct Hd as [-> ->]. by split_and!.
  - right. rewrite (proj2 (Z.leb_gt _ _)) by lia. split_and!; [|done..].
    constructor; simpl; [lia|]. eapply Forall_impl; [exact Hlt|]. simpl. lia.
Qed.

Lemma map_shift_sorted (l : list (Z * T)) :
  StronglySorted (fun p q => p.1 < q.1)%Z l -> StronglySorted (fun p q => p.1 < q.1)%Z (map shift l).
Proof.
  induction 1 as [|p l Hs IH Hall]; simpl; constructor; [done|].
  apply Forall_fmap. eapply Forall_impl; [exact Hall|]. simpl. lia.
Qed.

Lemma StronglySorted_app_inv_r {A} (R : relation A) l1 l2 :
  StronglySorted R (l1 ++ l2) -> StronglySorted R l2.
Proof. induction l1 as [|x l1 IH]; [done|]. intros Hs. apply StronglySorted_inv in Hs as [? _]. auto. Qed.

Lemma pop_pending_spec (q : TimeQueue T) l t v :
  represents q l ->
  exists q', pop_pending q t v =
    (match last (Spec.due t l) with Some w => (true, w, q') | None => (false, v, q') end) /\
    represents q' (Spec.later t l) /\ next_seq q' = next_seq q.
Proof.
  intros Hr. unfold pop_pending, TimeQueue.drain_pending.
  destruct (drain_loop_spec (length (heap q)) q l t Hr) as (q' & -> & Hr' & Hn).
  { by rewrite (represents_length q l Hr). }
  exists q'. by destruct (last _).
Qed.

(** The queue once the value of this call, if any, has been accepted. *)
Lemma accepted_queue cs out c s pending :
  (0 < d)%Z -> delay_call cs c -> delay_inv cs out s -> represents (DelayStream.queue s) pending ->
  map shift (arrivals cs) = out ++ pending -> Forall (fun p => last_time cs < p.1)%Z pending ->
  let q := if arrived c then TimeQueue.push (DelayStream.queue s) c.2 (time c.1 + d) else DelayStream.queue s in
  let pending' := pending ++ if arrived c then [((time c.1 + d)%Z, c.2)] else [] in
  represents q pending' /\ (0 <= next_seq q <= Z.of_nat (length (cs ++ [c])))%Z /\
  map shift (arrivals (cs ++ [c])) = out ++ pending' /\
  StronglySorted (fun p q => p.1 < q.1)%Z (arrivals (cs ++ [c])) /\
  Forall (fun p => time c.1 <= p.1)%Z pending'.
Proof.
  intros Hd Hc [_ _ _ Hseq Hsort Hbef _] Hr Hsp Hpend q pending'.
  assert (Hlt : Forall (fun p => p.1 < time c.1)%Z (arrivals cs)).
  { destruct (decide (cs = [])) as [->|Hne]; [constructor|].
    pose proof (dc_after _ _ Hc Hne). eapply Forall_impl; [exact Hbef|]. simpl. lia. }
  assert (Hin : forall p, p ∈ pending -> p ∈ map shift (arrivals cs)).
  { intros p Hp. rewrite Hsp. set_solver. }
  assert (Hltp : Forall (fun p => p.1 < time c.1 + d)%Z pending).
  { apply Forall_forall. intros p Hp. apply Hin, list_elem_of_fmap in Hp as (p0 & -> & Hp0).
    rewrite Forall_forall in Hlt. specialize (Hlt p0 Hp0). simpl. lia. }
  rewrite arrivals_snoc, length_app. simpl. unfold q, pending'.
  split_and!.
  - destruct (arrived c); [|by rewrite app_nil_r]. rewrite <-spec_push_last by done.
    apply represents_push; [done|]. pose proof (dc_room _ _ Hc). unfold seq_room. lia.
  - destruct (arrived c); [|lia]. unfold TimeQueue.push. destruct (existsb _ _); simpl; [lia|].
    rewrite wrap_u64_small by (pose proof (dc_room _ _ Hc); unfold is_u64; lia). lia.
  - destruct (arrived c); [|lia]. unfold TimeQueue.push. destruct (existsb _ _); simpl; [lia|].
    rewrite wrap_u64_small by (pose proof (dc_room _ _ Hc); unfold is_u64; lia). lia.
  - rewrite map_app, Hsp, <-app_assoc. by destruct (arrived c).
  - destruct (arrived c); [|by rewrite app_nil_r]. apply StronglySorted_append; [done|by repeat constructor|].
    rewrite Forall_forall in Hlt. set_solver.
  - apply Forall_app. split; [|destruct (arrived c); repeat constructor; simpl; lia].
    apply Forall_forall. intros p Hp. pose proof Hp as Hp'. apply Hin, list_elem_of_fmap in Hp as (p0 & -> & Hp0).
    rewrite Forall_forall in Hpend. apply (dc_served _ _ Hc p0 Hp0), (Hpend _ Hp').
Qed.

(** The engine's state after the call: a callback for the value accepted. *)
Definition requested (c : GraphState * T) : GraphState :=
  if arrived c then set_scheduled c.1 (TimeQueue.push (scheduled_callbacks c.1) ix (time c.1 + d))
  else c.1.

Lemma delay_cycle_run cs out c s :
  (0 < d)%Z -> delay_call cs c -> delay_inv cs out s ->
  let q := if arrived c then TimeQueue.push (DelayStream.queue s) c.2 (time c.1 + d) else DelayStream.queue s in
  exists v0 i0, forall b v q', pop_pending q (time c.1) v0 = (b, v, q') ->
    DelayStream.cycle c.2 (s, c.1) =
      (Ok b, (DelayStream.mk v q' i0 (Some u) up d, requested c)).
Proof.
  intros Hd [Hw [b0 Hb0] Hcur Ht _ _ _] [Hdel Hup Hix _ _ _ _] q.
  assert (Hadd : NanoTime.add (time c.1) d = (time c.1 + d)%Z).
  { apply wrap_u64_small. unfold is_u64. lia. }
  assert (Hres : forall s1 w, resolve_once (DelayStream.upstream_index s) up w (s1, c.1) =
    (Ok u, (s1, c.1)) :> Res nat * (DelayStream.DelayStream T * GraphState)).
  { intros s1 w. unfold resolve_once. destruct Hix as [->| ->]; [|done].
    unfold mbind, graph, mlift. simpl. by rewrite Hw. }
  exists (if arrived c then (if DelayStream.initialized s then DelayStream.value s else c.2) else DelayStream.value s),
    (if arrived c then true else DelayStream.initialized s).
  intros b v q' Hpop. unfold DelayStream.cycle. unfold mbind at 1, get_self at 1. simpl. rewrite Hdel.
  rewrite (proj2 (Z.eqb_neq d NanoTime.ZERO)) by (unfold NanoTime.ZERO; lia).
  unfold mbind at 1, graph at 1. simpl. rewrite Hup. unfold mbind at 1. rewrite Hres.
  unfold mbind at 1, put_self at 1. simpl. unfold mbind at 1, index_ticked, mbind at 1, graph at 1, mlift. simpl.
  unfold GraphState.node_index_ticked. rewrite Hb0.
  unfold requested, q in *. unfold arrived in *. rewrite Hb0 in *. simpl in *. destruct b0.
  - unfold DelayStream.accept, mbind, get_self, graph, call, GraphState.add_callback, GraphState.current,
      GraphState.add_callback_for_node, put_self, mbind. simpl. rewrite Hcur. simpl. rewrite Hadd, Hpop. done.
  - unfold mbind, mreturn, get_self. simpl. rewrite Hpop. done.
Qed.

Lemma delay_step cs out c s :
  (0 < d)%Z -> delay_call cs c -> delay_inv cs out s ->
  exists b s', DelayStream.cycle c.2 (s, c.1) = (Ok b, (s', requested c)) /\
    delay_inv (cs ++ [c]) (out ++ if b then [(time c.1, DelayStream.value s')] else []) s'.
Proof.
  intros Hd Hc Hs. destruct (delay_cycle_run cs out c s Hd Hc Hs) as (v0 & i0 & Hrun).
  pose proof Hs as [_ _ _ _ _ _ (pending & Hr & Hsp & Hout & Hpend)].
  destruct (accepted_queue cs out c s pending Hd Hc Hs Hr Hsp Hpend) as (Hr' & Hseq & Hsp' & Hsort & Hge).
  set (q := if arrived c then _ else _) in *. set (pending' := pending ++ _) in *.
  destruct (pop_pending_spec q pending' (time c.1) v0 Hr') as (q' & Hpop & Hrq & Hnq).
  assert (Hps : StronglySorted (fun p q => p.1 < q.1)%Z pending').
  { apply (StronglySorted_app_inv_r _ out). rewrite <-Hsp'. by apply map_shift_sorted. }
  assert (Hout' : Forall (fun p => p.1 <= time c.1)%Z out).
  { destruct (decide (cs = [])) as [->|Hne].
    - simpl in Hsp. by destruct out.
    - pose proof (dc_after _ _ Hc Hne). eapply Forall_impl; [exact Hout|]. simpl. lia. }
  assert (Hbef : Forall (fun p => p.1 <= time c.1)%Z (arrivals (cs ++ [c]))).
  { rewrite arrivals_snoc. apply Forall_app. split; [|destruct (arrived c); repeat constructor; simpl; lia].
    destruct (decide (cs = [])) as [->|Hne]; [constructor|].
    pose proof (dc_after _ _ Hc Hne). eapply Forall_impl; [apply Hs|]. simpl. lia. }
  destruct (due_at (time c.1) pending' Hps Hge) as [(w & l' & Hl & Hdue & Hlat & Hafter)|(Hafter & Hdue & Hlat)];
    rewrite Hdue in Hpop; simpl in Hpop; rewrite Hlat in Hrq; do 2 eexists; (split; [by apply Hrun, Hpop|]).
  - split; simpl; [done|done|by right|by rewrite Hnq|done|by rewrite last_time_snoc|].
    exists l'. rewrite last_time_snoc. split_and!; [done|by rewrite Hsp', Hl, <-app_assoc| |done].
    apply Forall_app. split; [done|]. by repeat constructor.
  - rewrite app_nil_r. split; simpl; [done|done|by right|by rewrite Hnq|done|by rewrite last_time_snoc|].
    exists pending'. rewrite last_time_snoc. by split_and!.
Qed.

Lemma delay_run cs :
  (0 < d)%Z -> (forall k c, cs !! k = Some c -> delay_call (take k cs) c) ->
  exists out s', drive DelayStream.cycle DelayStream.value cs (DelayStream.new up d) = (Ok out, s') /\
    delay_inv cs out s'.
Proof.
  intros Hd Hcs. apply (drive_inv _ _ delay_call delay_inv).
  - split; simpl; try done; [by left|constructor|]. exists []. split_and!; try done. apply represents_new.
  - done.
  - intros cs' out c s Hc Hs. destruct (delay_step cs' out c s Hd Hc Hs) as (b & s' & Hrun & Hs').
    by exists b, s', (requested c).
Qed.
End delay.

(** ** [merge] *)

Section merge.
Context {T : Type} `{Element T}.

Definition tick_flags (g : GraphState) (ixs : list nat) : list bool :=
  map (fun i => default false (node_ticked g !! i)) ixs.

(** The value of the first upstream, in the order supplied, that ticked. *)
Definition first_of (vals : list T) (flags : list bool) : option T :=
  head (omap (fun p => if p.2 : bool then Some p.1 else None) (zip vals flags)).

Definition merge_call (ups : list addr) (ixs : list nat) (c : GraphState * list T) : Prop :=
  Forall2 (fun a i => GraphState.get_node_index c.1 a = Some i /\ is_Some (node_ticked c.1 !! i)) ups ixs /\
  length c.2 = length ups.

Lemma merge_resolve ups ixs g (s : MergeStream.MergeStream T) :
  Forall2 (fun a i => GraphState.get_node_index g a = Some i /\ is_Some (node_ticked g !! i)) ups ixs ->
  MergeStream.resolve ups (s, g) = (Ok ixs, (s, g)).
Proof.
  induction 1 as [|a i ups ixs [Ha _] _ IH]; [done|]. simpl.
  unfold mbind at 1, graph, mlift, mbind at 1. simpl. rewrite Ha. unfold mbind. by rewrite IH.
Qed.

Lemma merge_first vals ixs g (s : MergeStream.MergeStream T) :
  Forall (fun i => is_Some (node_ticked g !! i)) ixs ->
  MergeStream.first_ticked (zip vals ixs) (s, g) =
  match first_of vals (tick_flags g ixs) with
  | Some v => (Ok true, (MergeStream.mk (MergeStream.upstreams_of s) (MergeStream.upstream_indices s) v, g))
  | None => (Ok false, (s, g))
  end.
Proof.
  intros Hi. revert vals. induction Hi as [|i ixs [b Hb] _ IH]; intros vals; [by destruct vals|].
  destruct vals as [|v vals]; [done|]. simpl. unfold mbind at 1, graph, mbind at 1, mlift. simpl.
  unfold GraphState.node_index_ticked. unfold first_of, tick_flags in *. simpl. rewrite Hb. simpl.
  destruct b; simpl; [done|]. apply IH.
Qed.

Lemma merge_drive ups ixs cs s :
  MergeStream.upstreams_of s = ups ->
  MergeStream.upstream_indices s = [] \/ MergeStream.upstream_indices s = ixs ->
  Forall (merge_call ups ixs) cs ->
  exists s', drive MergeStream.cycle MergeStream.value cs s =
    (Ok (omap (fun c => pair (time c.1) <$> first_of c.2 (tick_flags c.1 ixs)) cs), s').
Proof.
  intros Hu Hix Hcs. revert s Hu Hix. induction Hcs as [|c cs [Hc Hlen] _ IH]; intros s Hu Hix; [by eexists|].
  assert (Hi : Forall (fun i => is_Some (node_ticked c.1 !! i)) ixs).
  { clear -Hc. induction Hc as [|a i ups ixs [_ ?] _ IH]; constructor; [done|apply IH]. }
  set (s1 := MergeStream.mk ups ixs (MergeStream.value s)).
  assert (Hrun : MergeStream.cycle c.2 (s, c.1) = MergeStream.first_ticked (zip c.2 ixs) (s1, c.1)).
  { unfold MergeStream.cycle. unfold mbind at 1, get_self at 1. simpl. rewrite Hu. destruct s as [u0 i0 v0]. simpl in *. subst u0.
    destruct Hix as [->| ->].
    - destruct ups as [|a ups].
      + apply Forall2_nil_inv_l in Hc as ->. done.
      + unfold mbind at 1 2. rewrite (merge_resolve _ ixs) by done. done.
    - unfold mbind, get_self, mreturn. destruct ixs, ups; try done. by inversion Hc. }
  rewrite merge_first in Hrun by done.
  destruct (first_of c.2 (tick_flags c.1 ixs)) as [v|] eqn:Ef.
  - destruct (IH (MergeStream.mk ups ixs v) eq_refl (or_intror eq_refl)) as (s' & Hd).
    exists s'. erewrite drive_cons by done. simpl. by rewrite Ef.
  - destruct (IH s1 eq_refl (or_intror eq_refl)) as (s' & Hd).
    exists s'. erewrite drive_cons by done. simpl. by rewrite Ef.
Qed.
End merge.

(** ** Properties *)

(** [throttle] emits at most once per interval and skips no more than it
    must. For calls at non-decreasing times it emits the first value offered,
    successive emissions are at least an interval apart, and every value it drops
    arrived less than an interval after an emission. *)
Theorem throttle_correct {T} `{Element T} up i (cs : list (GraphState * T)) :
  (0 <= i)%Z -> ordered Z.le cs -> Forall (fun c => is_u64 (time c.1)) cs ->
  exists out s', drive ThrottleStream.cycle ThrottleStream.value cs (ThrottleStream.new up i) =
    (Ok out, s') /\
  out `sublist_of` offered cs /\ head out = head (offered cs) /\
  adjacent (fun p q => p.1 + i <= q.1)%Z out /\
  Forall (fun q => q ∈ out \/ exists p, p ∈ out /\ p.1 <= q.1 < p.1 + i)%Z (offered cs).
Proof.
  intros Hi Hord Hall. rewrite Forall_lookup in Hall.
  destruct (drive_inv ThrottleStream.cycle ThrottleStream.value
    (fun cs c => is_u64 (time c.1) /\ Forall (fun c' => 0 <= time c'.1 <= time c.1)%Z cs)
    (throttle_inv i) cs (ThrottleStream.new up i)) as (out & s' & Hd & [_ _ ? ? ? ?]).
  - split; simpl; done || apply adjacent_nil.
  - intros k c Hk. split; [by apply (Hall k)|]. apply Forall_lookup. intros j c' Hj.
    apply lookup_take_Some in Hj as [Hj Hlt]. split; [by apply (Hall j c')|].
    clear -Hord Hk Hj Hlt. revert c Hk. induction Hlt as [|k Hlt IH]; intros c Hk.
    + by apply (Hord j).
    + destruct (lookup_lt_is_Some_2 cs k) as [c1 H1]; [apply lookup_lt_Some in Hk; lia|].
      specialize (IH c1 H1). pose proof (Hord k c1 c H1 Hk). lia.
  - intros cs' out c s [Hc Hbef] Hs. apply throttle_step; [apply Hc|apply Hc| |done].
    intros p Hp. apply last_Some_elem_of in Hp.
    pose proof (elem_of_sublist _ _ _ Hp (th_sub _ _ _ _ Hs)) as Hin.
    unfold offered in Hin. apply list_elem_of_fmap in Hin as (c' & -> & Hc').
    rewrite Forall_forall in Hbef. by apply (Hbef c').
  - exists out, s'. by split_and!.
Qed.

(** C13: [delay] re-emits every value after exactly [d], and never twice. When
    the calls come at increasing times and no callback the node asked for is
    passed over, its emissions are the values that arrived, in order, each at its
    arrival time plus [d], up to the time of the last call; the rest are later.
    The callback it asks for on an arrival at [t] is for itself, at [t + d]. *)
Theorem delay_correct {T} `{Element T, PartialEq T} up u ix d (cs : list (GraphState * T)) :
  (0 < d)%Z -> (forall k c, cs !! k = Some c -> delay_call up u ix d (take k cs) c) ->
  exists out s' pending,
    drive DelayStream.cycle DelayStream.value cs (DelayStream.new up d) = (Ok out, s') /\
    map (shift d) (arrivals u cs) = out ++ pending /\
    Forall (fun p => p.1 <= last_time cs)%Z out /\
    Forall (fun p => last_time cs < p.1)%Z pending /\
    (forall k c, cs !! k = Some c -> exists o s_k b s_k',
       drive DelayStream.cycle DelayStream.value (take k cs) (DelayStream.new up d) = (Ok o, s_k) /\
       DelayStream.cycle c.2 (s_k, c.1) = (Ok b, (s_k', requested u ix d c))).
Proof.
  intros Hd Hcs. destruct (delay_run up u ix d cs Hd Hcs) as (out & s' & Hrun & Hs).
  destruct Hs as [_ _ _ _ _ _ (pending & _ & ? & ? & ?)].
  exists out, s', pending. split_and!; [done..|]. intros k c Hk.
  destruct (delay_run up u ix d (take k cs) Hd) as (o & s_k & Ho & Hs).
  { intros j c' Hj. apply lookup_take_Some in Hj as [Hj Hlt]. rewrite take_take, Nat.min_l by lia. by apply Hcs. }
  destruct (delay_step up u ix d _ _ c s_k Hd (Hcs k c Hk) Hs) as (b & s_k' & Hc & _).
  by exists o, s_k, b, s_k'.
Qed.

(** [merge] emits in exactly the calls in which some upstream ticked, with
    the value of the first of them in the order supplied; its lazily resolved
    indices never go stale. *)
Theorem merge_correct {T} `{Element T} ups ixs (cs : list (GraphState * list T)) :
  Forall (merge_call ups ixs) cs ->
  exists s', drive MergeStream.cycle MergeStream.value cs (MergeStream.new ups) =
    (Ok (omap (fun c => pair (time c.1) <$> first_of c.2 (tick_flags c.1 ixs)) cs), s').
Proof. intros Hcs. apply (merge_drive ups ixs); [done|by left|done]. Qed.

(** A value sent through a feedback channel comes out of its source on the
    next time step and not before: sending at [t] schedules the source at
    [t + 1]; the source ignores a call at [t], and at any later call emits the
    value once. *)
Theorem feedback_next_step {S T} `{Element T, PartialEq T} (self : S) src q j v g :
  represents q [] -> seq_room q -> (time g < u64_max)%Z -> (0 <= time g)%Z ->
  exists q1,
    FeedbackSink.send v ((self, mkFeedback q (Some j)), g) =
      (Ok tt, ((self, mkFeedback q1 (Some j)),
               set_scheduled g (TimeQueue.push (scheduled_callbacks g) j (time g + 1)))) /\
    (forall g', time g' = time g ->
       FeedbackStream.cycle tt ((src, mkFeedback q1 (Some j)), g') =
         (Ok false, ((src, mkFeedback q1 (Some j)), g'))) /\
    (forall g', (time g < time g')%Z -> exists q2,
       FeedbackStream.cycle tt ((src, mkFeedback q1 (Some j)), g') =
         (Ok true, ((FeedbackStream.mk v, mkFeedback q2 (Some j)), g')) /\ represents q2 []).
Proof.
  intros Hr Hroom Hmax Hge.
  assert (Hadd : NanoTime.add (time g) 1 = (time g + 1)%Z) by (apply wrap_u64_small; unfold is_u64; lia).
  pose proof (represents_push q [] v (time g + 1) Hr Hroom) as Hr1.
  change (Spec.push v (time g + 1) []) with [((time g + 1)%Z, v)] in Hr1.
  exists (TimeQueue.push q v (time g + 1)). split_and!.
  - unfold FeedbackSink.send, mbind, get_self, graph, put_self, call, GraphState.add_callback_for_node, mmodify.
    simpl. by rewrite Hadd.
  - intros g' Hg. unfold FeedbackStream.cycle, mbind, get_self, graph. simpl.
    pose proof (represents_pop_if_pending _ _ (time g') Hr1) as Hp. simpl in Hp.
    rewrite (proj2 (Z.leb_gt _ _)) in Hp by lia.
    unfold pop_pending, TimeQueue.drain_pending.
    rewrite (represents_length _ _ Hr1). simpl. rewrite Hp. simpl. by destruct src.
  - intros g' Hg. unfold FeedbackStream.cycle, mbind, get_self, graph. simpl.
    destruct (pop_pending_spec _ _ (time g') (FeedbackStream.value src) Hr1) as (q2 & Hp & Hr2 & _).
    simpl in Hp, Hr2. rewrite (proj2 (Z.leb_le _ _)) in Hp, Hr2 by lia. simpl in Hp.
    exists q2. by rewrite Hp.
Qed.

(** ** [timed] *)

Section timed.
Context {T : Type} `{Element T}.

(** The node passes its input through, and counts it. *)
Lemma timed_passes_through (cs : list (GraphState * T)) s :
  exists s', drive TimedStream.cycle TimedStream.value cs s = (Ok (offered cs), s') /\
    TimedStream.wall_start s' = TimedStream.wall_start s /\
    TimedStream.cycles s' = foldr (fun _ n => wrap_u64 (n + 1)) (TimedStream.cycles s) cs.
Proof.
  revert s. induction cs as [|c cs IH]; intros s; [by exists s|].
  set (s1 := TimedStream.mk (TimedStream.upstream s) c.2 (wrap_u64 (TimedStream.cycles s + 1)) (TimedStream.wall_start s)).
  destruct (IH s1) as (s' & Hd & Hw & Hc). exists s'. split_and!; [|done|].
  - rewrite (drive_cons TimedStream.cycle TimedStream.value c cs s true s1 c.1 (offered cs) s'); [done|done|exact Hd].
  - rewrite Hc. cbn [foldr]. subst s1. cbn [TimedStream.cycles]. clear.
    induction cs as [|c cs IH]; [done|]. cbn [foldr]. by rewrite IH.
Qed.

(** The average that is logged is the whole part of the time by the ticks; without a
    tick it is the time itself. *)
Lemma timed_average (s : TimedStream.TimedStream T) g instant :
  let line := TimedStream.summary s g instant in
  is_u64 (l_wall line) -> (0 <= TimedStream.cycles s)%Z ->
  (l_avg line * Z.max (TimedStream.cycles s) 1 <= l_wall line <
   (l_avg line + 1) * Z.max (TimedStream.cycles s) 1)%Z.
Proof.
  intros line Hw Hc. assert (Ha : l_avg line = (l_wall line / Z.max (TimedStream.cycles s) 1)%Z).
  { unfold line in *. unfold TimedStream.summary in *. cbn [l_avg l_wall] in *. set (wall := default _ _) in *.
    apply wrap_u64_small. unfold is_u64 in *. split; [apply Z.div_pos; lia|].
    assert (wall / Z.max (TimedStream.cycles s) 1 <= wall)%Z by (apply Z.div_le_upper_bound; nia). lia. }
  rewrite Ha. pose proof (Z.div_mod (l_wall line) (Z.max (TimedStream.cycles s) 1) ltac:(lia)).
  pose proof (Z.mod_pos_bound (l_wall line) (Z.max (TimedStream.cycles s) 1) ltac:(lia)). lia.
Qed.
End timed.

(** ** Witnesses *)

Lemma throttle_correct_witness :
  exists s', drive ThrottleStream.cycle ThrottleStream.value
      [(at_time 3 false, 7%Z); (at_time 8 false, 8%Z); (at_time 14 false, 9%Z)]
      (ThrottleStream.new 1 10) = (Ok [(3, 7); (14, 9)]%Z, s') /\
    adjacent (fun p q => p.1 + 10 <= q.1)%Z [(3, 7); (14, 9)]%Z.
Proof.
  destruct (throttle_correct 1 10 [(at_time 3 false, 7%Z); (at_time 8 false, 8%Z); (at_time 14 false, 9%Z)])
    as (out & s' & Hd & _ & _ & Ha & _).
  - lia.
  - intros [|[|[|k]]] c c'; simpl; intros [= <-] [= <-] || done; vm_compute; discriminate.
  - repeat constructor; vm_compute; discriminate.
  - exists s'. assert (out = [(3, 7); (14, 9)]%Z) as ->; [|by split].
    vm_compute in Hd. by injection Hd.
Defined.

(** A node at index 1 whose upstream, object 1, is at index 0. *)
Definition call_at (t : Z) (ticked : bool) : GraphState :=
  set_current (set_node_ticked (set_node_to_index (at_time t false) {[1%positive := 0]}) [ticked; false]) (Some 1).

Definition delay_calls : list (GraphState * Z) :=
  [(call_at 3 true, 7); (call_at 8 true, 8); (call_at 13 false, 8); (call_at 18 true, 9)]%Z.

Lemma delay_calls_ok k c : delay_calls !! k = Some c -> delay_call 1 0 1 10 (take k delay_calls) c.
Proof.
  intros Hk. destruct k as [|[|[|[|k]]]]; simpl in Hk; [| | | |done]; injection Hk as <-;
    (split; [reflexivity|vm_compute; eauto|reflexivity|vm_compute; split; discriminate
            |intros; vm_compute; reflexivity || done| |reflexivity]).
  all: intros p Hp; vm_compute in Hp; repeat (apply elem_of_cons in Hp as [->|Hp];
    [vm_compute; first [discriminate|intros _; discriminate]|]); by apply not_elem_of_nil in Hp.
Qed.

Lemma delay_correct_witness :
  exists s', drive DelayStream.cycle DelayStream.value delay_calls (DelayStream.new 1 10) =
      (Ok [(13, 7); (18, 8)]%Z, s') /\
    map (shift 10) (arrivals 0 delay_calls) = [(13, 7); (18, 8)]%Z ++ [(28, 9)]%Z.
Proof.
  destruct (delay_correct 1 0 1 10 delay_calls) as (out & s' & pending & Hd & Hs & _).
  - lia.
  - exact delay_calls_ok.
  - exists s'. assert (out = [(13, 7); (18, 8)]%Z) as -> by (vm_compute in Hd; by injection Hd).
    split; [exact Hd|reflexivity].
Defined.

Lemma merge_correct_witness :
  exists s', drive MergeStream.cycle MergeStream.value
      [(call_at 3 true, [7; 8]); (call_at 4 false, [7; 9])]%Z (MergeStream.new [1%positive; 1%positive]) =
    (Ok [(3, 7)]%Z, s').
Proof.
  destruct (merge_correct [1%positive; 1%positive] [0; 0]
    [(call_at 3 true, [7; 8]); (call_at 4 false, [7; 9])]%Z) as (s' & Hd).
  - repeat constructor; vm_compute; eauto.
  - exists s'. exact Hd.
Defined.

Lemma feedback_next_step_witness :
  exists q1, FeedbackSink.send 7%Z ((tt, mkFeedback TimeQueue.new (Some 4)), at_time 20 false) =
    (Ok tt, ((tt, mkFeedback q1 (Some 4)),
      set_scheduled (at_time 20 false) (TimeQueue.push TimeQueue.new 4 21))).
Proof.
  destruct (feedback_next_step tt (FeedbackStream.mk 0%Z) TimeQueue.new 4 7%Z (at_time 20 false))
    as (q1 & Hs & _).
  - apply represents_new.
  - vm_compute. split; congruence.
  - vm_compute. reflexivity.
  - vm_compute. congruence.
  - exists q1. exact Hs.
Defined.
