(* ===== verification/Iterators.v ===== *)
(** * Streams over iterators: [wingfoil/src/nodes/iterator_stream.rs]

    [dyn Iterator] is any sequence of results of [next], finite or not, fused or
    not: a function of the number of calls. [std::iter::Peekable] holds at most
    one result already taken. A [Burst] is a list. *)
From S2P Require Import Prelude NanoTime TimeQueue GraphState NodeCalls.

(** ** [std::iter::Peekable] *)

Record Peekable (A : Type) := mkPeekable {
  it_next : nat -> option A; it_pos : nat; peeked : option (option A) }.
Arguments mkPeekable {A} it_next it_pos peeked.
Arguments it_next {A} p.
Arguments it_pos {A} p.
Arguments peeked {A} p.

Module Peekable.
Section peekable.
Context {A : Type}.
Implicit Types p : Peekable A.

Definition new (it : nat -> option A) : Peekable A := mkPeekable it 0 None.

Definition peek p : option A * Peekable A :=
  match peeked p with
  | Some x => (x, p)
  | None =>
    let x := it_next p (it_pos p) in
    (x, mkPeekable (it_next p) (S (it_pos p)) (Some x))
  end.

Definition next p : option A * Peekable A :=
  match peeked p with
  | Some x => (x, mkPeekable (it_next p) (it_pos p) None)
  | None => (it_next p (it_pos p), mkPeekable (it_next p) (S (it_pos p)) None)
  end.
End peekable.
End Peekable.

(** [add_callback]: it tells whether there is a next item. *)
Definition iter_add_callback {S T} (p : Peekable (ValueAt T))
  : NodeM S (bool * Peekable (ValueAt T)) :=
  let '(x, p) := Peekable.peek p in
  match x with
  | Some value_at => do! call (GraphState.add_callback (va_time value_at)) in mreturn (true, p)
  | None => mreturn (false, p)
  end.

Module IteratorStream.
Section node.
Context {T : Type}.
Record IteratorStream := mk { peekable : Peekable (ValueAt T); value : list T }.
Definition new (it : nat -> option (ValueAt T)) : IteratorStream := mk (Peekable.new it) [].

(** [while let Some(value_at) = self.peekable.peek()]: the items at [now]. *)
Fixpoint take_due (fuel : nat) (now : Z) (p : Peekable (ValueAt T)) (value : list T)
  : Res (list T * Peekable (ValueAt T)) :=
  let '(x, p) := Peekable.peek p in
  match x with
  | Some value_at =>
    if (va_time value_at =? now)%Z then
      match fuel with
      | O => OutOfFuel
      | S fuel' =>
        match Peekable.next p with
        | (Some v, p) => take_due fuel' now p (value ++ [va_value v])
        | (None, p) => Panic "peek() just returned Some"
        end
      end
    else Ok (value, p)
  | None => Ok (value, p)
  end.

Definition cycle (fuel : nat) (_ : unit) : NodeM IteratorStream bool :=
  let! self := get_self in
  let! g := graph in
  let! r := mlift (take_due fuel (time g) (peekable self) []) in
  let '(v, p) := r in
  let! r := iter_add_callback p in
  do! put_self (mk r.2 v) in
  mreturn (negb (Nat.eqb (length v) 0)).

Definition start : NodeM IteratorStream unit :=
  let! self := get_self in
  let! r := iter_add_callback (peekable self) in
  put_self (mk r.2 (value self)).
End node.
Arguments IteratorStream : clear implicits.
End IteratorStream.

(** [try_add_callback]: an error at the head is taken and returned. *)
Definition try_add_callback {S T} (p : Peekable (Res (ValueAt T)))
  : NodeM S (Res bool * Peekable (Res (ValueAt T))) :=
  let '(x, p) := Peekable.peek p in
  match x with
  | Some (Ok value_at) =>
    do! call (GraphState.add_callback (va_time value_at)) in mreturn (Ok true, p)
  | Some (Err _) =>
    match Peekable.next p with
    | (Some (Err e), p) => mreturn (Err e, p)
    | _ => mpanic "peek() just returned Err"
    end
  | Some (Panic w) => mpanic w
  | Some OutOfFuel => mstuck
  | None => mreturn (Ok false, p)
  end.

Module TryIteratorStream.
Section node.
Context {T : Type}.
Record TryIteratorStream := mk { peekable : Peekable (Res (ValueAt T)); value : list T }.
Definition new (it : nat -> option (Res (ValueAt T))) : TryIteratorStream := mk (Peekable.new it) [].

Fixpoint take_due (fuel : nat) (now : Z) (p : Peekable (Res (ValueAt T))) (value : list T)
  : Res (list T * Peekable (Res (ValueAt T))) :=
  let '(x, p) := Peekable.peek p in
  match x with
  | Some item =>
    let due := match item with Ok value_at => (va_time value_at =? now)%Z | _ => false end in
    if negb due then Ok (value, p)
    else
      match fuel with
      | O => OutOfFuel
      | S fuel' =>
        match Peekable.next p with
        | (Some (Ok v), p) => take_due fuel' now p (value ++ [va_value v])
        | _ => Panic "peek() just returned Ok"
        end
      end
  | None => Ok (value, p)
  end.

Definition cycle (fuel : nat) (_ : unit) : NodeM TryIteratorStream bool :=
  let! self := get_self in
  let! g := graph in
  let! r := mlift (take_due fuel (time g) (peekable self) []) in
  let '(v, p) := r in
  let! r := try_add_callback p in
  do! put_self (mk r.2 v) in
  do! mlift r.1 in
  mreturn (negb (Nat.eqb (length v) 0)).

Definition start : NodeM TryIteratorStream unit :=
  let! self := get_self in
  let! r := try_add_callback (peekable self) in
  do! put_self (mk r.2 (value self)) in
  do! mlift r.1 in
  mreturn tt.
End node.
Arguments TryIteratorStream : clear implicits.
End TryIteratorStream.

Module SimpleIteratorStream.
Section node.
Context {T : Type} `{Element T}.
Record SimpleIteratorStream := mk { peekable : Peekable (ValueAt T); value : T }.
Definition new (it : nat -> option (ValueAt T)) : SimpleIteratorStream :=
  mk (Peekable.new it) default_value.

Definition descending : Error := Msg "source time was descending!".
Definition repeated : Error :=
  Msg "source produced multiple ticks for same time, use IteratorStream instead".

Definition cycle (_ : unit) : NodeM SimpleIteratorStream bool :=
  let! self := get_self in
  match Peekable.next (peekable self) with
  | (None, p) => mpanic "SimpleIteratorStream cycled with no upcoming item"
  | (Some val_at1, p) =>
    let '(x, p) := Peekable.peek p in
    do! put_self (mk p (va_value val_at1)) in
    do! match x with
        | Some val_at2 =>
          match (va_time val_at1 ?= va_time val_at2)%Z with
          | Gt => mfail descending
          | Eq => mfail repeated
          | Lt => mreturn tt
          end
        | None => mreturn tt
        end in
    let! r := iter_add_callback p in
    do! put_self (mk r.2 (va_value val_at1)) in
    mreturn true
  end.

Definition start : NodeM SimpleIteratorStream unit :=
  let! self := get_self in
  let! r := iter_add_callback (peekable self) in
  put_self (mk r.2 (value self)).
End node.
Arguments SimpleIteratorStream : clear implicits.
End SimpleIteratorStream.

(** ** Reasoning about peekable iterators over lists *)

Section of_list.
Context {A : Type}.

Definition of_list (l : list A) : nat -> option A := fun n => l !! n.

(** The items still to come are [l], and then nothing. *)
Definition remaining (p : Peekable A) (l : list A) : Prop :=
  exists done,
    (forall n, it_next p n = (done ++ l) !! n) /\
    match peeked p with
    | None => it_pos p = length done
    | Some x => it_pos p = S (length done) /\ x = head l
    end.

Lemma remaining_new l : remaining (Peekable.new (of_list l)) l.
Proof. by exists []. Qed.

Lemma remaining_next_item (done l : list A) : (done ++ l) !! length done = head l.
Proof. rewrite lookup_app_r, Nat.sub_diag by lia. by destruct l. Qed.

Lemma remaining_peek p l :
  remaining p l -> exists p', Peekable.peek p = (head l, p') /\ remaining p' l /\
    Peekable.peek p' = (head l, p').
Proof.
  intros (done & Hn & Hp). unfold Peekable.peek. destruct (peeked p) as [x|] eqn:E.
  - destruct Hp as [Hpos ->]. exists p. rewrite E. split_and!; [done| |done]. exists done. by rewrite E.
  - exists (mkPeekable (it_next p) (S (it_pos p)) (Some (head l))).
    split_and!; [by rewrite Hn, Hp, remaining_next_item| |done].
    exists done. simpl. by rewrite Hp.
Qed.

Lemma remaining_next p x l :
  remaining p (x :: l) -> exists p', Peekable.next p = (Some x, p') /\ remaining p' l.
Proof.
  intros (done & Hn & Hp). unfold Peekable.next.
  assert (Hl : length (done ++ [x]) = S (length done)) by (rewrite length_app; simpl; lia).
  destruct (peeked p) as [y|] eqn:E.
  - destruct Hp as [Hpos ->]. eexists. split; [done|]. exists (done ++ [x]). simpl.
    split; [|by rewrite Hl]. intros n. by rewrite Hn, <-app_assoc.
  - exists (mkPeekable (it_next p) (S (it_pos p)) None).
    split; [by rewrite Hn, Hp, remaining_next_item|]. exists (done ++ [x]). simpl.
    split; [|by rewrite Hl, Hp]. intros n. by rewrite Hn, <-app_assoc.
Qed.
End of_list.

(** ** The iterator stream *)

Section iterator_stream.
Context {T : Type}.
Implicit Types l : list (ValueAt T).

(** The items at the head of [l] that are at [t], and the rest. *)
Fixpoint at_now (t : Z) l : list T * list (ValueAt T) :=
  match l with
  | v :: l' =>
    if (va_time v =? t)%Z then let '(vs, r) := at_now t l' in (va_value v :: vs, r) else ([], l)
  | [] => ([], [])
  end.

Lemma take_due_spec fuel t p l acc :
  remaining p l -> length (at_now t l).1 <= fuel ->
  exists p', IteratorStream.take_due fuel t p acc = Ok (acc ++ (at_now t l).1, p') /\
    remaining p' (at_now t l).2.
Proof.
  revert p l acc. induction fuel as [|fuel IH]; intros p l acc Hr Hlen;
    destruct (remaining_peek p l Hr) as (p1 & Hp & Hr1 & _); simpl; rewrite Hp;
    destruct l as [|v l]; simpl in *; try (exists p1; by rewrite app_nil_r).
  - destruct (va_time v =? t)%Z; [|exists p1; by rewrite app_nil_r].
    destruct (at_now t l) as [vs r]. simpl in Hlen. lia.
  - destruct (va_time v =? t)%Z; [|exists p1; by rewrite app_nil_r].
    destruct (remaining_next p1 v l Hr1) as (p2 & -> & Hr2).
    destruct (at_now t l) as [vs r] eqn:E. simpl in *.
    destruct (IH p2 l (acc ++ [va_value v]) Hr2) as (p3 & Hd & Hr3); rewrite E in *; simpl in *; [lia|].
    exists p3. by rewrite Hd, <-app_assoc.
Qed.

Definition schedule (ix : nat) (t : option Z) (g : GraphState) : GraphState :=
  match t with
  | Some t => set_scheduled g (TimeQueue.push (scheduled_callbacks g) ix t)
  | None => g
  end.

(** One call of the node: it takes what is at the current time and asks for a
    callback at the time of the next item. *)
Lemma iterator_cycle_run fuel ix g s l :
  current_node_index g = Some ix -> remaining (IteratorStream.peekable s) l ->
  length (at_now (time g) l).1 <= fuel ->
  exists p', IteratorStream.cycle fuel tt (s, g) =
    (Ok (negb (Nat.eqb (length (at_now (time g) l).1) 0)),
     (IteratorStream.mk p' (at_now (time g) l).1,
      schedule ix (va_time <$> head (at_now (time g) l).2) g)) /\
    remaining p' (at_now (time g) l).2.
Proof.
  intros Hc Hr Hlen.
  destruct (take_due_spec fuel (time g) _ l [] Hr Hlen) as (p1 & Ht & Hr1).
  destruct (remaining_peek p1 _ Hr1) as (p2 & Hp & Hr2 & _).
  exists p2. split; [|done]. unfold IteratorStream.cycle, mbind, get_self, graph, mlift. simpl.
  rewrite Ht. simpl. unfold iter_add_callback. rewrite Hp.
  destruct (head (at_now (time g) l).2) as [v|]; simpl; [|done].
  unfold mbind, call, GraphState.add_callback, GraphState.current, mbind. simpl. by rewrite Hc.
Qed.

(** The bursts of a list of items: runs of items at one time. *)
Fixpoint bursts l : list (Z * list T) :=
  match l with
  | [] => []
  | v :: l' =>
    match bursts l' with
    | (t, vs) :: rest =>
      if (t =? va_time v)%Z then (t, va_value v :: vs) :: rest
      else (va_time v, [va_value v]) :: (t, vs) :: rest
    | [] => [(va_time v, [va_value v])]
    end
  end.

Lemma bursts_nil l : bursts l = [] -> l = [].
Proof. destruct l as [|v l]; [done|]. simpl. destruct (bursts l) as [|[t vs] r]; [done|]. by destruct (_ =? _)%Z. Qed.

Lemma bursts_head l t vs rest :
  bursts l = (t, vs) :: rest ->
  va_time <$> head l = Some t /\ vs <> [] /\ (at_now t l).1 = vs /\ bursts (at_now t l).2 = rest /\
  fst <$> head rest <> Some t.
Proof.
  revert t vs rest. induction l as [|v l IH]; intros t vs rest; simpl; [done|].
  destruct (bursts l) as [|[t1 vs1] rest1] eqn:E.
  - intros [= <- <- <-]. apply bursts_nil in E as ->. simpl. rewrite Z.eqb_refl. by split_and!.
  - destruct (IH t1 vs1 rest1 eq_refl) as (Hh & Hne & Ha & Hb & Hr).
    destruct (t1 =? va_time v)%Z eqn:Et; intros [= <- <- <-].
    + apply Z.eqb_eq in Et as <-. rewrite Z.eqb_refl. destruct (at_now t1 l) as [a b]. simpl in *.
      subst. by split_and!.
    + rewrite Z.eqb_refl. apply Z.eqb_neq in Et.
      assert (Hat : at_now (va_time v) l = ([], l)).
      { destruct l as [|w l]; [done|]. simpl in *. injection Hh as Hh. by rewrite Hh, (proj2 (Z.eqb_neq _ _)). }
      rewrite Hat. simpl. split_and!; [done|done|done|done|]. intros [= ->]. done.
Qed.

Lemma bursts_concat l :
  flat_map (fun b => map (fun v => mkValueAt v b.1) b.2) (bursts l) = l.
Proof.
  induction l as [|v l IH]; [done|]. simpl. destruct (bursts l) as [|[t vs] rest] eqn:E.
  - apply bursts_nil in E as ->. by destruct v.
  - destruct (t =? va_time v)%Z eqn:Et; simpl in *.
    + apply Z.eqb_eq in Et as ->. rewrite IH. by destruct v.
    + rewrite IH. by destruct v.
Qed.
End iterator_stream.

(** ** Properties *)

Lemma at_now_length {T} t (l : list (ValueAt T)) :
  length (at_now t l).1 + length (at_now t l).2 = length l.
Proof.
  induction l as [|v l IH]; [done|]. simpl. destruct (_ =? _)%Z; [|done].
  destruct (at_now t l). simpl in *. lia.
Qed.

Lemma iterator_run {T} fuel ix (l : list (ValueAt T)) cs s :
  length l <= fuel -> remaining (IteratorStream.peekable s) l ->
  map (fun c => time c.1) cs = map fst (bursts l) ->
  Forall (fun c => current_node_index c.1 = Some ix) cs ->
  exists s', drive (IteratorStream.cycle fuel) IteratorStream.value cs s = (Ok (bursts l), s') /\
  (forall k c, cs !! k = Some c -> exists o s_k b s_k',
     drive (IteratorStream.cycle fuel) IteratorStream.value (take k cs) s = (Ok o, s_k) /\
     IteratorStream.cycle fuel c.2 (s_k, c.1) =
       (Ok b, (s_k', schedule ix (fst <$> bursts l !! S k) c.1))).
Proof.
  intros Hf Hr Hts Hcur. revert l s Hf Hr Hts. induction Hcur as [|c cs Hc _ IH]; intros l s Hf Hr Hts.
  { exists s. split; [|done]. by destruct (bursts l). }
  destruct (bursts l) as [|[t vs] rest] eqn:Eb; [done|]. injection Hts as Ht Hts.
  destruct (bursts_head l t vs rest Eb) as (_ & Hne & Hvs & Hrest & _).
  pose proof (at_now_length t l) as Hlen. destruct c as [g []]. cbn [fst snd] in *.
  destruct (iterator_cycle_run fuel ix g s l Hc Hr) as (p' & Hrun & Hr'); [rewrite Ht; lia|].
  rewrite Ht, Hvs in Hrun. rewrite Ht in Hr'.
  assert (Hb : negb (length vs =? 0) = true) by by destruct vs.
  rewrite Hb in Hrun.
  assert (Hnext : va_time <$> head (at_now t l).2 = fst <$> rest !! 0).
  { rewrite <-Hrest. destruct (bursts (at_now t l).2) as [|[t2 vs2] rest2] eqn:E2; simpl.
    - apply bursts_nil in E2. by rewrite E2.
    - by destruct (bursts_head _ _ _ _ E2) as (-> & _). }
  destruct (IH (at_now t l).2 (IteratorStream.mk p' vs)) as (s' & Hd & Hreq); [lia|exact Hr'|by rewrite Hrest|].
  exists s'. split.
  - erewrite (drive_cons _ _ (g, ()) cs s); [|exact Hrun|exact Hd]. simpl. by rewrite Ht, Hrest.
  - intros [|k] c Hk; simpl in Hk.
    + injection Hk as <-. exists [], s, true, (IteratorStream.mk p' vs). split; [done|].
      simpl. rewrite Hrun, Hnext. done.
    + destruct (Hreq k c Hk) as (o & s_k & b & s_k' & Ho & Hcy). rewrite Hrest in Hcy.
      eexists _, s_k, b, s_k'. split; [|exact Hcy]. simpl take.
      erewrite (drive_cons _ _ (g, ()) _ s); [done|exact Hrun|exact Ho].
Qed.

(** C14: an iterator stream turns its items into bursts and loses none. Started
    on a list of items -- finite, in any order -- it asks for a callback at the
    time of the first; called at the times it asks for, it emits every run of
    consecutive items at one time as one burst, the last included, and asks for
    exactly the time of the next. The bursts, flattened, are the items. *)
Theorem iterator_stream_bursts {T} fuel ix (l : list (ValueAt T)) g0 cs :
  length l <= fuel -> current_node_index g0 = Some ix ->
  map (fun c => time c.1) cs = map fst (bursts l) ->
  Forall (fun c => current_node_index c.1 = Some ix) cs ->
  exists s0 s',
    IteratorStream.start (IteratorStream.new (of_list l), g0) =
      (Ok tt, (s0, schedule ix (fst <$> bursts l !! 0) g0)) /\
    drive (IteratorStream.cycle fuel) IteratorStream.value cs s0 = (Ok (bursts l), s') /\
    (forall k c, cs !! k = Some c -> exists o s_k b s_k',
       drive (IteratorStream.cycle fuel) IteratorStream.value (take k cs) s0 = (Ok o, s_k) /\
       IteratorStream.cycle fuel c.2 (s_k, c.1) =
         (Ok b, (s_k', schedule ix (fst <$> bursts l !! S k) c.1))) /\
    flat_map (fun b => map (fun v => mkValueAt v b.1) b.2) (bursts l) = l.
Proof.
  intros Hf Hc Hts Hcur.
  destruct (remaining_peek _ l (remaining_new l)) as (p' & Hp & Hr & _).
  set (s0 := IteratorStream.mk p' ([] : list T)).
  destruct (iterator_run fuel ix l cs s0 Hf Hr Hts Hcur) as (s' & Hd & Hreq).
  exists s0, s'. split_and!; [|done|done|apply bursts_concat].
  assert (Hh : fst <$> bursts l !! 0 = va_time <$> head l).
  { destruct (bursts l) as [|[t vs] rest] eqn:E; [by apply bursts_nil in E as ->|].
    by destruct (bursts_head l t vs rest E) as (-> & _). }
  rewrite Hh. unfold IteratorStream.start, mbind, get_self, IteratorStream.new.
  cbn [fst snd IteratorStream.peekable IteratorStream.value]. unfold iter_add_callback. rewrite Hp.
  destruct (head l) as [v|]; simpl; [|done].
  unfold mbind, call, GraphState.add_callback, GraphState.current, mbind. simpl. by rewrite Hc.
Qed.

(** An item behind the clock is never emitted and never skipped. The stream
    compares times for equality only: called at a time past that of the item at
    its head, it emits nothing, keeps the item and asks for a callback at the
    item's time, in the past -- in every such call, however many. (The engine
    answers a callback in the past on the next nanosecond, so a run that meets an
    out-of-order item creeps on without emitting anything.) *)
Theorem iterator_out_of_order_stuck {T} fuel ix v (l : list (ValueAt T)) s cs :
  remaining (IteratorStream.peekable s) (v :: l) ->
  Forall (fun c => current_node_index c.1 = Some ix /\ (va_time v < time c.1)%Z) cs ->
  exists s', drive (IteratorStream.cycle fuel) IteratorStream.value cs s = (Ok [], s') /\
    remaining (IteratorStream.peekable s') (v :: l) /\
    (forall c, c ∈ cs -> exists s'', IteratorStream.cycle fuel c.2 (s', c.1) =
       (Ok false, (s'', schedule ix (Some (va_time v)) c.1))).
Proof.
  intros Hr Hcs.
  assert (Hone : forall c s, current_node_index c.1 = Some ix /\ (va_time v < time c.1)%Z ->
    remaining (IteratorStream.peekable s) (v :: l) -> exists p', IteratorStream.cycle fuel c.2 (s, c.1) =
      (Ok false, (IteratorStream.mk p' [], schedule ix (Some (va_time v)) c.1)) /\ remaining p' (v :: l)).
  { intros [g []] s1 [Hc Ht] Hr1. simpl in *.
    assert (Hat : at_now (time g) (v :: l) = ([], v :: l)).
    { simpl. by rewrite (proj2 (Z.eqb_neq _ _)) by lia. }
    destruct (iterator_cycle_run fuel ix g s1 (v :: l) Hc Hr1) as (p' & Hrun & Hr'); rewrite Hat in *; simpl in *;
      [lia|]. by exists p'. }
  assert (Hd : exists s', drive (IteratorStream.cycle fuel) IteratorStream.value cs s = (Ok [], s') /\
    remaining (IteratorStream.peekable s') (v :: l)).
  { clear - Hone Hr Hcs. revert s Hr. induction Hcs as [|c cs Hc _ IH]; intros s Hr; [by exists s|].
    destruct (Hone c s Hc Hr) as (p' & Hrun & Hr'). destruct (IH (IteratorStream.mk p' []) Hr') as (s' & Hd & ?).
    exists s'. split; [|done]. by rewrite (drive_cons _ _ c cs s _ _ _ _ _ Hrun Hd). }
  destruct Hd as (s' & Hd & Hr'). exists s'. split_and!; [done..|].
  intros c Hc. rewrite Forall_forall in Hcs. destruct (Hone c s' (Hcs c Hc) Hr') as (p' & Hrun & _).
  by exists (IteratorStream.mk p' []).
Qed.

(** ** Witnesses *)

(** Calls of a source at index 0. *)
Definition source_call (t : Z) : GraphState * unit :=
  (set_current (set_time (GraphState.new (HistoricalFrom 0) Forever 0) t) (Some 0), tt).

Definition some_items : list (ValueAt Z) :=
  [mkValueAt 7 10; mkValueAt 8 10; mkValueAt 9 20]%Z.

Lemma iterator_stream_bursts_witness :
  bursts some_items = [(10, [7; 8]); (20, [9])]%Z /\
  exists s0 s',
    IteratorStream.start (IteratorStream.new (of_list some_items), (source_call 0).1) =
      (Ok tt, (s0, schedule 0 (Some 10%Z) (source_call 0).1)) /\
    drive (IteratorStream.cycle 3) IteratorStream.value [source_call 10; source_call 20] s0 =
      (Ok [(10, [7; 8]); (20, [9])]%Z, s').
Proof.
  split; [reflexivity|].
  destruct (iterator_stream_bursts 3 0 some_items (source_call 0).1 [source_call 10; source_call 20])
    as (s0 & s' & H1 & H2 & _).
  - simpl. lia.
  - reflexivity.
  - reflexivity.
  - repeat constructor.
  - exists s0, s'. split; [exact H1|exact H2].
Defined.

Lemma iterator_out_of_order_stuck_witness :
  exists s', drive (IteratorStream.cycle 3) IteratorStream.value [source_call 21; source_call 22]
    (IteratorStream.new (of_list some_items)) = (Ok [], s').
Proof.
  destruct (iterator_out_of_order_stuck 3 0 (mkValueAt 7 10)%Z [mkValueAt 8 10; mkValueAt 9 20]%Z
    (IteratorStream.new (of_list some_items)) [source_call 21; source_call 22]) as (s' & Hd & _).
  - apply remaining_new.
  - repeat constructor.
  - exists s'. exact Hd.
Defined.
