(* ===== verification/Objects.v ===== *)
(** * Graphs of combinators, clocks and iterators

    The heap of node objects a program builds: an object is one of the 39 node
    types of Transforms, Timing and Iterators (not a demultiplexer, a feedback
    sink, a channel, a graph or async node, a statistic, a dynamic group or a
    node of an adapter), at the type [Val] of dynamic values that stands for the
    element types of a program. It implements the engine's interface [NodeOps],
    reading upstream values from the heap, and satisfies [NodeLaws]: the theorems
    about the engine hold of every graph of these nodes. *)
From S2P Require Import Prelude NanoTime TimeQueue GraphState NodeCalls Transforms Timing Iterators.

(** ** Dynamic values *)

Inductive Val :=
| VUnit | VBool (b : bool) | VInt (z : Z) | VPair (a b : Val) | VList (vs : list Val).

Fixpoint val_eqb (a b : Val) : bool :=
  match a, b with
  | VUnit, VUnit => true
  | VBool x, VBool y => Bool.eqb x y
  | VInt x, VInt y => Z.eqb x y
  | VPair x1 x2, VPair y1 y2 => val_eqb x1 y1 && val_eqb x2 y2
  | VList xs, VList ys =>
    (fix go (xs ys : list Val) : bool :=
       match xs, ys with
       | [], [] => true
       | x :: xs, y :: ys => val_eqb x y && go xs ys
       | _, _ => false
       end) xs ys
  | _, _ => false
  end.
#[export] Instance Val_PartialEq : PartialEq Val := val_eqb.

Definition val_bool (v : Val) : bool := match v with VBool b => b | _ => false end.
Definition val_int (v : Val) : Z := match v with VInt z => z | _ => 0%Z end.
Definition val_list (v : Val) : list Val := match v with VList l => l | _ => [] end.

(** ** Objects *)

(** What the program's closures have done to the outside world: a log. *)
Abbreviation Outside := (list (Z * Val)).

(** A node object of Transforms, Timing or Iterators. *)
Inductive Obj :=
| OMap (n : MapStream.MapStream Val Val)
| OMapFilter (n : MapFilterStream.MapFilterStream Val Val)
| OTryMap (n : TryMapStream.TryMapStream Val Val)
| OFilter (n : FilterStream.FilterStream Val)
| OBiMap (n : BiMapStream.BiMapStream Val Val Val)
| OTryBiMap (n : TryBiMapStream.TryBiMapStream Val Val Val)
| OTriMap (n : TriMapStream.TriMapStream Val Val Val Val)
| OTryTriMap (n : TryTriMapStream.TryTriMapStream Val Val Val Val)
| OFold (n : FoldStream.FoldStream Val Val)
| ODifference (n : DifferenceStream.DifferenceStream Val)
| ODistinct (n : DistinctStream.DistinctStream Val)
| OLimit (n : LimitStream.LimitStream Val)
| OSample (n : SampleStream.SampleStream Val)
| OWithTime (n : WithTimeStream.WithTimeStream Val)
| OGraphState (n : GraphStateStream.GraphStateStream Val)
| OInspect (n : InspectStream.InspectStream Outside Val)
| OProducer (n : ProducerStream.ProducerStream Outside Val)
| OConsumer (n : ConsumerNode.ConsumerNode Outside Val)
| OTryConsumer (n : TryConsumerNode.TryConsumerNode Outside Val)
| OFinally (n : FinallyNode.FinallyNode Outside Val)
| OPrint (n : PrintStream.PrintStream Val)
| OMerge (n : MergeStream.MergeStream Val)
| OAlways (n : AlwaysTickNode.AlwaysTickNode)
| ONever (n : NeverTickNode.NeverTickNode)
| OConstant (n : ConstantStream.ConstantStream Val)
| OTick (n : TickNode.TickNode)
| OCallBack (n : CallBackStream.CallBackStream Val)
| OBuffer (n : BufferStream.BufferStream Val)
| OWindow (n : WindowStream.WindowStream Val)
| OThrottle (n : ThrottleStream.ThrottleStream Val)
| ODelay (n : DelayStream.DelayStream Val)
| ODelayWithReset (n : DelayWithResetStream.DelayWithResetStream Val)
| OThrottleNode (n : ThrottleNode.ThrottleNode)
| ODelayNode (n : DelayNode.DelayNode)
| OLimitNode (n : LimitNode.LimitNode)
| OFilterNode (n : FilterNode.FilterNode)
| OIterator (n : IteratorStream.IteratorStream Val)
| OTryIterator (n : TryIteratorStream.TryIteratorStream Val)
| OSimpleIterator (n : SimpleIteratorStream.SimpleIteratorStream Val).

(** [peek_value]: the output field. *)
Definition obj_value (o : Obj) : Val :=
  match o with
  | OMap n => MapStream.value n
  | OMapFilter n => MapFilterStream.value n
  | OTryMap n => TryMapStream.value n
  | OFilter n => FilterStream.value n
  | OBiMap n => BiMapStream.value n
  | OTryBiMap n => TryBiMapStream.value n
  | OTriMap n => TriMapStream.value n
  | OTryTriMap n => TryTriMapStream.value n
  | OFold n => FoldStream.value n
  | ODifference n => DifferenceStream.diff n
  | ODistinct n => DistinctStream.value n
  | OLimit n => LimitStream.value n
  | OSample n => SampleStream.value n
  | OWithTime n => let '(t, v) := WithTimeStream.value n in VPair (VInt t) v
  | OGraphState n => GraphStateStream.value n
  | OInspect n => InspectStream.value n
  | OProducer n => ProducerStream.value n
  | OPrint n => PrintStream.value n
  | OMerge n => MergeStream.value n
  | OConstant n => ConstantStream.value n
  | OCallBack n => CallBackStream.value n
  | OBuffer n => VList (BufferStream.value n)
  | OWindow n => VList (WindowStream.value n)
  | OThrottle n => ThrottleStream.value n
  | ODelay n => DelayStream.value n
  | ODelayWithReset n => DelayWithResetStream.value n
  | OIterator n => VList (IteratorStream.value n)
  | OTryIterator n => VList (TryIteratorStream.value n)
  | OSimpleIterator n => SimpleIteratorStream.value n
  | _ => VUnit
  end.

Definition obj_upstreams (o : Obj) : UpStreams :=
  match o with
  | OMap n => MapStream.upstreams n
  | OMapFilter n => MapFilterStream.upstreams n
  | OTryMap n => TryMapStream.upstreams n
  | OFilter n => FilterStream.upstreams n
  | OBiMap n => BiMapStream.upstreams n
  | OTryBiMap n => TryBiMapStream.upstreams n
  | OTriMap n => TriMapStream.upstreams n
  | OTryTriMap n => TryTriMapStream.upstreams n
  | OFold n => FoldStream.upstreams n
  | ODifference n => DifferenceStream.upstreams n
  | ODistinct n => DistinctStream.upstreams n
  | OLimit n => LimitStream.upstreams n
  | OSample n => SampleStream.upstreams n
  | OWithTime n => WithTimeStream.upstreams n
  | OGraphState n => GraphStateStream.upstreams n
  | OInspect n => InspectStream.upstreams n
  | OProducer n => ProducerStream.upstreams n
  | OConsumer n => ConsumerNode.upstreams n
  | OTryConsumer n => TryConsumerNode.upstreams n
  | OFinally n => FinallyNode.upstreams n
  | OPrint n => PrintStream.upstreams n
  | OMerge n => MergeStream.upstreams n
  | OBuffer n => BufferStream.upstreams n
  | OWindow n => WindowStream.upstreams n
  | OThrottle n => ThrottleStream.upstreams n
  | ODelay n => DelayStream.upstreams n
  | ODelayWithReset n => DelayWithResetStream.upstreams n
  | OThrottleNode n => ThrottleNode.upstreams n
  | ODelayNode n => DelayNode.upstreams n
  | OLimitNode n => LimitNode.upstreams n
  | OFilterNode n => FilterNode.upstreams n
  | _ => UpStreams_none
  end.

(** ** The heap *)

Record Heap := mkHeap { objs : gmap addr Obj; outside : Outside; next_addr : addr }.

Definition peek (w : Heap) (a : addr) : Val := from_option obj_value VUnit (objs w !! a).

(** A call on the object at [a], which holds the node [s]. *)
Definition zoom {S A} (wrap : S -> Obj) (a : addr) (s : S) (m : NodeM S A) : M (Sys Heap) A :=
  fun sys =>
    let w := world sys in
    let '(r, (s', g')) := m (s, state sys) in
    (r, mkSys (mkHeap (<[a := wrap s']> (objs w)) (outside w) (next_addr w)) g' (env sys)).

(** The same for a node whose closures act on the outside world. *)
Definition zoom_out {S A} (wrap : S -> Obj) (a : addr) (s : S) (m : NodeM (S * Outside) A) : M (Sys Heap) A :=
  fun sys =>
    let w := world sys in
    let '(r, ((s', x'), g')) := m ((s, outside w), state sys) in
    (r, mkSys (mkHeap (<[a := wrap s']> (objs w)) x' (next_addr w)) g' (env sys)).

Section ops.
(** Fuel for the catch-up loop of a window and for the burst of an iterator. *)
Context (fuel : nat).

Definition minus_int (a b : Val) : Val := VInt (wrap_u64 (val_int a - val_int b)).

Definition obj_cycle (a : addr) : M (Sys Heap) bool := fun sys =>
  let w := world sys in
  let pk := peek w in
  match objs w !! a with
  | None => (Panic "no such object", sys)
  | Some o =>
    match o with
    | OMap n => zoom OMap a n (MapStream.cycle (pk (MapStream.upstream n)))
    | OMapFilter n => zoom OMapFilter a n (MapFilterStream.cycle (pk (MapFilterStream.upstream n)))
    | OTryMap n => zoom OTryMap a n (TryMapStream.cycle (pk (TryMapStream.upstream n)))
    | OFilter n => zoom OFilter a n (FilterStream.cycle
        (pk (FilterStream.source n), val_bool (pk (FilterStream.condition n))))
    | OBiMap n => zoom OBiMap a n (BiMapStream.cycle
        (pk (dep_stream (BiMapStream.upstream1 n)), pk (dep_stream (BiMapStream.upstream2 n))))
    | OTryBiMap n => zoom OTryBiMap a n (TryBiMapStream.cycle
        (pk (dep_stream (TryBiMapStream.upstream1 n)), pk (dep_stream (TryBiMapStream.upstream2 n))))
    | OTriMap n => zoom OTriMap a n (TriMapStream.cycle
        (pk (dep_stream (TriMapStream.upstream1 n)), pk (dep_stream (TriMapStream.upstream2 n)),
         pk (dep_stream (TriMapStream.upstream3 n))))
    | OTryTriMap n => zoom OTryTriMap a n (TryTriMapStream.cycle
        (pk (dep_stream (TryTriMapStream.upstream1 n)), pk (dep_stream (TryTriMapStream.upstream2 n)),
         pk (dep_stream (TryTriMapStream.upstream3 n))))
    | OFold n => zoom OFold a n (FoldStream.cycle (pk (FoldStream.upstream n)))
    | ODifference n => zoom ODifference a n
        (DifferenceStream.cycle minus_int (pk (DifferenceStream.upstream n)))
    | ODistinct n => zoom ODistinct a n (DistinctStream.cycle (pk (DistinctStream.source n)))
    | OLimit n => zoom OLimit a n (LimitStream.cycle (pk (LimitStream.source n)))
    | OSample n => zoom OSample a n (SampleStream.cycle (pk (SampleStream.upstream n)))
    | OWithTime n => zoom OWithTime a n (WithTimeStream.cycle (pk (WithTimeStream.upstream n)))
    | OGraphState n => zoom OGraphState a n (GraphStateStream.cycle tt)
    | OInspect n => zoom_out OInspect a n (InspectStream.cycle (pk (InspectStream.upstream n)))
    | OProducer n => zoom_out OProducer a n (ProducerStream.cycle tt)
    | OConsumer n => zoom_out OConsumer a n (ConsumerNode.cycle (pk (ConsumerNode.upstream n)))
    | OTryConsumer n => zoom_out OTryConsumer a n (TryConsumerNode.cycle (pk (TryConsumerNode.upstream n)))
    | OFinally n => zoom_out OFinally a n (FinallyNode.cycle (pk (FinallyNode.source n)))
    | OPrint n => zoom OPrint a n (PrintStream.cycle (pk (PrintStream.upstream n)))
    | OMerge n => zoom OMerge a n (MergeStream.cycle (map pk (MergeStream.upstreams_of n)))
    | OAlways n => zoom OAlways a n (AlwaysTickNode.cycle tt)
    | ONever n => zoom ONever a n (NeverTickNode.cycle tt)
    | OConstant n => zoom OConstant a n (ConstantStream.cycle tt)
    | OTick n => zoom OTick a n (TickNode.cycle tt)
    | OCallBack n => zoom OCallBack a n (CallBackStream.cycle tt)
    | OBuffer n => zoom OBuffer a n (BufferStream.cycle (pk (BufferStream.upstream n)))
    | OWindow n => zoom OWindow a n (WindowStream.cycle fuel (pk (WindowStream.upstream n)))
    | OThrottle n => zoom OThrottle a n (ThrottleStream.cycle (pk (ThrottleStream.upstream n)))
    | ODelay n => zoom ODelay a n (DelayStream.cycle (pk (DelayStream.upstream n)))
    | ODelayWithReset n => zoom ODelayWithReset a n
        (DelayWithResetStream.cycle (pk (DelayWithResetStream.upstream n)))
    | OThrottleNode n => zoom OThrottleNode a n (ThrottleNode.cycle tt)
    | ODelayNode n => zoom ODelayNode a n (DelayNode.cycle tt)
    | OLimitNode n => zoom OLimitNode a n (LimitNode.cycle tt)
    | OFilterNode n => zoom OFilterNode a n (FilterNode.cycle (val_bool (pk (FilterNode.condition n))))
    | OIterator n => zoom OIterator a n (IteratorStream.cycle fuel tt)
    | OTryIterator n => zoom OTryIterator a n (TryIteratorStream.cycle fuel tt)
    | OSimpleIterator n => zoom OSimpleIterator a n (SimpleIteratorStream.cycle tt)
    end sys
  end.

Definition obj_start (a : addr) : M (Sys Heap) unit := fun sys =>
  match objs (world sys) !! a with
  | None => (Panic "no such object", sys)
  | Some o =>
    match o with
    | OAlways n => zoom OAlways a n AlwaysTickNode.start
    | OConstant n => zoom OConstant a n ConstantStream.start
    | OTick n => zoom OTick a n TickNode.start
    | OCallBack n => zoom OCallBack a n CallBackStream.start
    | OWindow n => zoom OWindow a n WindowStream.start
    | OIterator n => zoom OIterator a n IteratorStream.start
    | OTryIterator n => zoom OTryIterator a n TryIteratorStream.start
    | OSimpleIterator n => zoom OSimpleIterator a n SimpleIteratorStream.start
    | _ => mreturn tt
    end sys
  end.

Definition obj_stop (a : addr) : M (Sys Heap) unit := fun sys =>
  match objs (world sys) !! a with
  | None => (Panic "no such object", sys)
  | Some (OFinally n) => zoom_out OFinally a n FinallyNode.stop sys
  | Some _ => (Ok tt, sys)
  end.

Definition heap_ops : NodeOps Heap := {|
  op_upstreams w a := from_option obj_upstreams UpStreams_none (objs w !! a);
  op_cycle := obj_cycle;
  op_setup _ := mreturn tt;
  op_start := obj_start;
  op_stop := obj_stop;
  op_teardown _ := mreturn tt |}.

(** ** The laws *)

Lemma zoom_law cycling {S A} wrap a (n : S) (m : NodeM S A) s ix nd r s' :
  lawful_call cycling m -> current_node_index (state s) = Some ix ->
  nodes (state s) !! ix = Some nd -> zoom wrap a n m s = (r, s') ->
  rtc (api_step cycling ix) (state s) (state s').
Proof.
  intros Hm Hc Hn. unfold zoom. destruct (m (n, state s)) as [r1 [n' g']] eqn:E. intros [= <- <-].
  apply (Hm ix _ _ _ E Hc (lookup_lt_Some _ _ _ Hn)).
Qed.

Lemma zoom_out_law cycling {S A} wrap a (n : S) (m : NodeM (S * Outside) A) s ix nd r s' :
  lawful_call cycling m -> current_node_index (state s) = Some ix ->
  nodes (state s) !! ix = Some nd -> zoom_out wrap a n m s = (r, s') ->
  rtc (api_step cycling ix) (state s) (state s').
Proof.
  intros Hm Hc Hn. unfold zoom_out. destruct (m _) as [r1 [[n' x'] g']] eqn:E. intros [= <- <-].
  apply (Hm ix _ _ _ E Hc (lookup_lt_Some _ _ _ Hn)).
Qed.

Lemma index_ticked_lawful cycling {S} ix : lawful_call cycling (index_ticked (S:=S) ix).
Proof. unfold index_ticked. lawful. Qed.
Lemma resolve_once_lawful cycling {S} c n w : lawful_call cycling (resolve_once (S:=S) c n w).
Proof. unfold resolve_once. lawful. Qed.
Lemma iter_add_callback_lawful cycling {S T} (p : Peekable (ValueAt T)) :
  lawful_call cycling (iter_add_callback (S:=S) p).
Proof. unfold iter_add_callback. lawful. Qed.
Lemma try_add_callback_lawful cycling {S T} (p : Peekable (Res (ValueAt T))) :
  lawful_call cycling (try_add_callback (S:=S) p).
Proof. unfold try_add_callback. lawful. Qed.
Lemma merge_resolve_lawful cycling {T} ups : lawful_call cycling (MergeStream.resolve (T:=T) ups).
Proof. induction ups; simpl; lawful. Qed.
Lemma merge_first_lawful cycling {T} l : lawful_call cycling (MergeStream.first_ticked (T:=T) l).
Proof. induction l; simpl; lawful. Qed.
End ops.

#[export] Hint Resolve index_ticked_lawful resolve_once_lawful iter_add_callback_lawful
  try_add_callback_lawful merge_resolve_lawful merge_first_lawful : wingfoil.

Ltac lawful_node := unfold MapStream.cycle, MapFilterStream.cycle, TryMapStream.cycle,
  FilterStream.cycle, BiMapStream.cycle, TryBiMapStream.cycle, TriMapStream.cycle,
  TryTriMapStream.cycle, FoldStream.cycle, DifferenceStream.cycle, DistinctStream.cycle,
  LimitStream.cycle, SampleStream.cycle, WithTimeStream.cycle, GraphStateStream.cycle,
  InspectStream.cycle, ProducerStream.cycle, ConsumerNode.cycle, TryConsumerNode.cycle,
  FinallyNode.cycle, FinallyNode.stop, PrintStream.cycle, MergeStream.cycle, AlwaysTickNode.cycle,
  AlwaysTickNode.start, NeverTickNode.cycle, ConstantStream.cycle, ConstantStream.start,
  TickNode.cycle, TickNode.start, CallBackStream.cycle, CallBackStream.start, BufferStream.cycle,
  WindowStream.cycle, WindowStream.start, ThrottleStream.cycle, DelayStream.cycle,
  DelayStream.accept, DelayWithResetStream.cycle, DelayWithResetStream.accept, ThrottleNode.cycle,
  DelayNode.cycle, LimitNode.cycle, FilterNode.cycle, IteratorStream.cycle, IteratorStream.start,
  TryIteratorStream.cycle, TryIteratorStream.start, SimpleIteratorStream.cycle,
  SimpleIteratorStream.start; lawful.

Lemma same_state_law {A} cycling ix (r : Res A) (s : Sys Heap) r' s' :
  (r, s) = (r', s') -> rtc (api_step cycling ix) (state s) (state s').
Proof. by intros [= _ <-]. Qed.

Ltac law_of_zoom Hc Hn Hrun :=
  first [ exact (same_state_law _ _ _ _ _ _ Hrun)
        | refine (zoom_law _ _ _ _ _ _ _ _ _ _ _ Hc Hn Hrun)
        | refine (zoom_out_law _ _ _ _ _ _ _ _ _ _ _ Hc Hn Hrun) ]; lawful_node.

#[export] Instance heap_laws fuel : @NodeLaws Heap (heap_ops fuel).
Proof.
  split; intros s a ix nd r s' Hc Hn _ Hrun; simpl in Hrun;
    try (injection Hrun as _ <-; reflexivity).
  - unfold obj_cycle in Hrun. destruct (objs (world s) !! a) as [o|]; [|by eapply same_state_law].
    destruct o; law_of_zoom Hc Hn Hrun.
  - unfold obj_start in Hrun. destruct (objs (world s) !! a) as [o|]; [|by eapply same_state_law].
    destruct o; law_of_zoom Hc Hn Hrun.
  - unfold obj_stop in Hrun. destruct (objs (world s) !! a) as [o|]; [|by eapply same_state_law].
    destruct o; law_of_zoom Hc Hn Hrun.
Qed.

(** ** The other objects *)

(** A call on the object at [a] leaves every other object as it was. *)
Definition other_objects_kept (a : addr) (w w' : Heap) : Prop :=
  forall a', a' <> a -> objs w' !! a' = objs w !! a'.

Lemma zoom_kept {S A} wrap a (n : S) (m : NodeM S A) s :
  other_objects_kept a (world s) (world (zoom wrap a n m s).2).
Proof.
  intros a' Ha. unfold zoom. destruct (m _) as [r [n' g']]. simpl. by rewrite lookup_insert_ne.
Qed.

Lemma zoom_out_kept {S A} wrap a (n : S) (m : NodeM (S * Outside) A) s :
  other_objects_kept a (world s) (world (zoom_out wrap a n m s).2).
Proof.
  intros a' Ha. unfold zoom_out. destruct (m _) as [r [[n' x'] g']]. simpl. by rewrite lookup_insert_ne.
Qed.

Lemma obj_cycle_kept fuel a s : other_objects_kept a (world s) (world (obj_cycle fuel a s).2).
Proof.
  unfold obj_cycle. destruct (objs (world s) !! a) as [[]|];
    first [apply zoom_kept|apply zoom_out_kept|done].
Qed.

Lemma obj_start_kept a s : other_objects_kept a (world s) (world (obj_start a s).2).
Proof.
  unfold obj_start. destruct (objs (world s) !! a) as [[]|]; first [apply zoom_kept|done].
Qed.

Lemma obj_stop_kept a s : other_objects_kept a (world s) (world (obj_stop a s).2).
Proof.
  unfold obj_stop. destruct (objs (world s) !! a) as [[]|]; first [apply zoom_out_kept|done].
Qed.
