(* ===== verification/Builders.v ===== *)
(** * The builder functions: [wingfoil/src/nodes/mod.rs]

    [.into_node()] and [.into_stream()] allocate the node object on the heap;
    the operators of [NodeOperators], [NodeFlowOperators], [StreamOperators],
    [TupleStreamOperators] and [OptionStreamOperators] are the compositions the
    source makes of them. An [Option] value is a list of at most one value, a
    [Duration] argument is a [Duration], a period in nanoseconds is taken
    [as u64]. The element type's [Default] and its operators are arguments
    where the program's type parameter supplies them. *)
From S2P Require Import Prelude NanoTime TimeQueue GraphState NodeCalls Transforms Timing Iterators Graph Objects.

Definition Build (A : Type) : Type := M Heap A.

(** [Rc::new(RefCell::new(node))]. *)
Definition alloc (o : Obj) : Build addr := fun w =>
  let a := next_addr w in
  (Ok a, mkHeap (<[a := o]> (objs w)) (outside w) (Pos.succ a)).

Definition empty_heap : Heap := mkHeap ∅ [] 1.

(** [NanoTime::new(d.as_nanos() as u64)]. *)
Definition nanos (d : Duration) : Z := wrap_u64 (as_nanos d).

Definition add_int (a b : Val) : Val := VInt (wrap_u64 (val_int a + val_int b)).
Definition zero : Element Val := VInt 0.
Definition nil : Element Val := VList [].

(** [Option<Val>] as a [Val]. *)
Definition val_option (v : Val) : option Val := head (val_list v).
Definition option_val (o : option Val) : Val := VList (match o with Some v => [v] | None => [] end).

(** ** Free functions *)

Section functions.
Context `{Element Val}.

Definition bimap (u1 u2 : Dep) (func : Val -> Val -> Val) : Build addr :=
  alloc (OBiMap (BiMapStream.new u1 u2 func)).
Definition trimap (u1 u2 u3 : Dep) (func : Val -> Val -> Val -> Val) : Build addr :=
  alloc (OTriMap (TriMapStream.new u1 u2 u3 func)).
Definition try_bimap (u1 u2 : Dep) (func : Val -> Val -> Res Val) : Build addr :=
  alloc (OTryBiMap (TryBiMapStream.new u1 u2 func)).
Definition try_trimap (u1 u2 u3 : Dep) (func : Val -> Val -> Val -> Res Val) : Build addr :=
  alloc (OTryTriMap (TryTriMapStream.new u1 u2 u3 func)).
Definition add (plus : Val -> Val -> Val) (upstream1 upstream2 : addr) : Build addr :=
  bimap (Active upstream1) (Active upstream2) plus.
Definition merge (sources : list addr) : Build addr := alloc (OMerge (MergeStream.new sources)).
Definition constant (value : Val) : Build addr := alloc (OConstant (ConstantStream.mk value)).
Definition ticker (period : Duration) : Build addr := alloc (OTick (TickNode.new (nanos period))).
Definition always : Build addr := alloc (OAlways AlwaysTickNode.mk).
Definition never : Build addr := alloc (ONever NeverTickNode.mk).
End functions.

(** ** [StreamOperators] *)

Section stream_operators.
Context `{Element Val}.
Implicit Types self : addr.

Definition fold self (func : Val -> Val -> Val) : Build addr := alloc (OFold (FoldStream.new self func)).
Definition reduce self (func : Val -> Val -> Val) : Build addr := fold self (fun acc val => func acc val).
Definition map_ self (func : Val -> Val) : Build addr := alloc (OMap (MapStream.new self func)).
Definition try_map self (func : Val -> Res Val) : Build addr := alloc (OTryMap (TryMapStream.new self func)).
Definition buffer self (capacity : nat) : Build addr := alloc (OBuffer (BufferStream.new self capacity)).
Definition window self (interval : Duration) : Build addr :=
  alloc (OWindow (WindowStream.new self (nanos interval))).
Definition sample self (trigger : addr) : Build addr := alloc (OSample (SampleStream.new self trigger)).
Definition filter self (condition : addr) : Build addr := alloc (OFilter (FilterStream.new self condition)).
Definition distinct self : Build addr := alloc (ODistinct (DistinctStream.new self)).
Definition difference self : Build addr := alloc (ODifference (DifferenceStream.new self)).
Definition limit self (lim : Z) : Build addr := alloc (OLimit (LimitStream.new self lim)).
Definition throttle self (interval : Duration) : Build addr :=
  alloc (OThrottle (ThrottleStream.new self (nanos interval))).
Definition delay self (duration : Duration) : Build addr :=
  alloc (ODelay (DelayStream.new self (nanos duration))).
Definition delay_with_reset self (d : Duration) (trigger : addr) : Build addr :=
  alloc (ODelayWithReset (DelayWithResetStream.new self trigger (nanos d))).
Definition with_time self : Build addr := alloc (OWithTime (WithTimeStream.new self)).
Definition inspect self (func : Val -> Outside -> Outside) : Build addr :=
  alloc (OInspect (InspectStream.new self func)).
Definition for_each self (func : Val -> Z -> Outside -> Outside) : Build addr :=
  alloc (OConsumer (ConsumerNode.mk self func)).
Definition try_for_each self (func : Val -> Z -> M Outside unit) : Build addr :=
  alloc (OTryConsumer (TryConsumerNode.mk self func)).
Definition finally self (func : Val -> GraphState -> M Outside unit) : Build addr :=
  alloc (OFinally (FinallyNode.new self (Some func))).
Definition print self : Build addr := alloc (OPrint (PrintStream.new self)).

(** [x.into_iter().last()]. *)
Definition collapse self : Build addr :=
  alloc (OMapFilter (MapFilterStream.new self
    (fun x => match last (val_list x) with Some x => (x, true) | None => (default_value, false) end))).

Definition filter_map self (func : Val -> option Val) : Build addr :=
  alloc (OMapFilter (MapFilterStream.new self
    (fun val => match func val with Some out => (out, true) | None => (default_value, false) end))).

Definition filter_none self : Build addr := filter_map self val_option.

Definition filter_value self (predicate : Val -> bool) : Build addr :=
  let! condition := alloc (OMap (@MapStream.new Val Val (VBool false) self (fun val => VBool (predicate val)))) in
  alloc (OFilter (FilterStream.new self condition)).

Definition not self (neg : Val -> Val) : Build addr := map_ self (fun value => neg value).
End stream_operators.

(** ** [NodeOperators] *)

Definition ticked_at (self : addr) : Build addr :=
  alloc (OGraphState (@GraphStateStream.new Val zero self (fun state => VInt (time state)))).
Definition ticked_at_elapsed (self : addr) : Build addr :=
  alloc (OGraphState (@GraphStateStream.new Val zero self (fun state => VInt (GraphState.elapsed state)))).
Definition produce `{Element Val} (self : addr) (func : Outside -> Val * Outside) : Build addr :=
  alloc (OProducer (ProducerStream.new self func)).
Definition count (self : addr) : Build addr :=
  let! one := constant (VInt 1) in
  let! sampled := @sample zero one self in
  @reduce zero sampled add_int.

Definition accumulate (self : addr) : Build addr :=
  @fold nil self (fun acc value => VList (val_list acc ++ [value])).

(** [ValueAt::new] pairs a value with its time. *)
Definition collect (self : addr) : Build addr :=
  let! times := ticked_at self in
  let! pairs := @bimap (VPair VUnit (VInt 0)) (Active self) (Active times) VPair in
  @fold nil pairs (fun acc value => VList (val_list acc ++ [value])).

(** The stream is returned as it is when the log level is disabled; otherwise
    the closure logs and passes the value on. *)
Definition logged `{Element Val} (self : addr) (enabled : bool) : Build addr :=
  if negb enabled then mreturn self
  else
    let! elapsed := ticked_at_elapsed self in
    bimap (Active self) (Active elapsed) (fun value _ => value).

Definition split (dA dB : Element Val) (self : addr) : Build (addr * addr) :=
  let! a := @map_ dA self (fun t => match t with VPair x _ => x | _ => default_value end) in
  let! b := @map_ dB self (fun t => match t with VPair _ y => y | _ => default_value end) in
  mreturn (a, b).

(** ** [NodeFlowOperators] *)

Definition node_throttle (self : addr) (interval : Duration) : Build addr :=
  alloc (OThrottleNode (ThrottleNode.new self (nanos interval))).
Definition node_delay (self : addr) (d : Duration) : Build addr :=
  alloc (ODelayNode (DelayNode.new self (nanos d))).
Definition node_limit (self : addr) (lim : Z) : Build addr := alloc (OLimitNode (LimitNode.new self lim)).
Definition node_filter (self condition : addr) : Build addr :=
  alloc (OFilterNode (FilterNode.mk self condition)).

(** [into_graph] and [run]: build, wire, run; the heap afterwards. *)
Definition into_graph (fuel : nat) (self : Build addr) (run_mode : RunMode) (run_for : RunFor)
  : Res unit * Sys Heap :=
  let '(r, w) := self empty_heap in
  match r with
  | Ok root => @Graph.new Heap (heap_ops fuel) fuel [root] run_mode run_for w env_quiet
  | Err e => (Err e, mkSys w (GraphState.new run_mode run_for 0) env_quiet)
  | Panic why => (Panic why, mkSys w (GraphState.new run_mode run_for 0) env_quiet)
  | OutOfFuel => (OutOfFuel, mkSys w (GraphState.new run_mode run_for 0) env_quiet)
  end.

Definition run (fuel : nat) (self : Build addr) (run_mode : RunMode) (run_for : RunFor)
  : Res unit * Sys Heap :=
  let '(r, s) := into_graph fuel self run_mode run_for in
  match r with
  | Ok _ => @Graph.run Heap (heap_ops fuel) fuel s
  | _ => (r, s)
  end.

(** Run a stream and peek at it, as the program's tests do. *)
Definition run_and_peek (fuel : nat) (self : Build addr) (run_mode : RunMode) (run_for : RunFor) : Res Val :=
  match (self empty_heap).1, run fuel self run_mode run_for with
  | Ok root, (Ok _, s) => Ok (peek (world s) root)
  | _, (Err e, _) => Err e
  | _, (Panic w, _) => Panic w
  | _, _ => OutOfFuel
  end.

(** ** The program's own tests, evaluated on the model *)

Definition pairs_at (l : list (Z * Z)) : Val := VList (map (fun p => VPair (VInt p.1) (VInt p.2)) l).
Definition ms (n : Z) : Duration := from_nanos (n * 1000000).
Definition ns (n : Z) : Duration := from_nanos n.

(** [throttle.rs], [throttle_suppresses_fast_ticks]. *)
Example throttle_suppresses_fast_ticks :
  run_and_peek 50
    (let! t := ticker (ns 10) in let! c := count t in let! th := @throttle zero c (ns 25) in collect th)
    (HistoricalFrom 0) (ForDuration (ns 60)) = Ok (pairs_at [(1, 0); (4, 30); (7, 60)]%Z).
Proof. vm_compute. reflexivity. Qed.

(** [merge.rs], [merge_emits_from_both_streams]: the times. *)
Example merge_emits_from_both_streams :
  run_and_peek 50
    (let! t := ticker (ns 100) in let! a := count t in
     let! u := ticker (ns 200) in let! c := count u in
     let! b := @map_ zero c (fun x => VInt (val_int x * 100)) in
     let! m := @merge zero [a; b] in collect m)
    (HistoricalFrom 0) (ForDuration (ns 400)) =
  Ok (pairs_at [(1, 0); (2, 100); (3, 200); (4, 300); (5, 400); (6, 500)]%Z).
Proof. vm_compute. reflexivity. Qed.

(** [window.rs], [window_stream_works]. *)
Example window_stream_works :
  run_and_peek 50
    (let! t := ticker (ms 100) in let! c := count t in let! w := window c (ms 250) in collect w)
    (HistoricalFrom 0) (ForDuration (ms 1200)) =
  Ok (VList (map (fun p => VPair (VList (map VInt p.1)) (VInt p.2))
    [([1; 2; 3], 300000000); ([4; 5], 500000000); ([6; 7; 8], 800000000);
     ([9; 10], 1000000000); ([11; 12; 13], 1300000000)]%Z)).
Proof. vm_compute. reflexivity. Qed.
