(* ===== verification/Pipelines.v ===== *)
(** * A whole program: [ticker(period).count().collect()]

    The engine's model, the node models and the builders together: what the
    program's simplest pipeline produces, for any period, start time and bound. *)
From S2P Require Import Prelude NanoTime TimeQueue GraphState NodeCalls Transforms Timing Iterators Graph WiringFacts RunLoop RunProps Objects Builders.
Local Open Scope Z_scope.
Local Transparent gmap_empty.

Definition counter (period : Duration) : Build addr :=
  let! t := ticker period in let! c := count t in collect c.

(** The objects once [k] ticks have been collected, the last at [t]. *)
Definition counter_objs (p : Z) (at_time : option Z) (one k t : Z) (pair : Val) (acc : list Val) : gmap addr Obj :=
  {[ 1%positive := OTick (TickNode.mk p at_time);
     2%positive := OConstant (ConstantStream.mk (VInt 1));
     3%positive := OSample (SampleStream.mk 2 1 (VInt one));
     4%positive := OFold (FoldStream.mk 3 add_int (VInt k));
     5%positive := OGraphState (GraphStateStream.mk 4 (VInt t) (fun state => VInt (time state)));
     6%positive := OBiMap (BiMapStream.mk (Active 4) (Active 5) pair VPair);
     7%positive := OFold (FoldStream.mk 6 (fun acc value => VList (val_list acc ++ [value])) (VList acc)) ]}.

Definition counter_graph (fuel : nat) : Sys Heap :=
  (into_graph fuel (counter (ns 1)) (HistoricalFrom 0) Forever).2.

Definition counter_nodes : list NodeData := Eval vm_compute in nodes (state (counter_graph 50)).
Definition counter_index : gmap addr nat := Eval vm_compute in node_to_index (state (counter_graph 50)).

Definition counter_state (t0 : Z) (rf : RunFor) (t wall : Z) (first last : bool) (q : TimeQueue nat) : GraphState :=
  mkGraphState t wall first last None q [] counter_index (repeat false 7) (HistoricalFrom t0) rf []
    t0 counter_nodes (repeat [] 6) (repeat false 7) None [] [].

Definition quiet_env (reads polls : nat) : Env :=
  mkEnv 0 (fun _ => 0) reads (fun _ => []) polls (fun _ => None) 0.

Section counter.
Context (f : nat) (t0 p : Z) (rf : RunFor).
Local Abbreviation fuel := (50 + f)%nat.

Lemma counter_built period :
  nanos period = p ->
  into_graph fuel (counter period) (HistoricalFrom t0) rf =
  (Ok tt, mkSys (mkHeap (counter_objs p None 0 0 0 (VPair VUnit (VInt 0)) []) [] 8)
    (counter_state t0 rf 0 0 true false TimeQueue.new) env_quiet).
Proof. intros <-. reflexivity. Qed.


(** The queue of the ticker alone, and of a started graph. *)
Definition due_ticker (t seq : Z) : TimeQueue nat := mkTimeQueue [mkEntry t seq 0%nat] (wrap_u64 (seq + 1)).
Definition due_sources (t : Z) : TimeQueue nat := mkTimeQueue [mkEntry t 1 1%nat; mkEntry t 0 0%nat] 2.

Definition marked (sources : list nat) (g : GraphState) : GraphState :=
  set_node_dirty (set_dirty_rows g (sources :: repeat [] 5))
    (map (fun i => bool_decide (i ∈ sources)) (seq 0 7)).

Lemma counter_first w last r n :
  Graph.process_callbacks_historical
    (mkSys w (counter_state t0 rf 0 0 true last (due_sources t0)) (quiet_env r n) : Sys Heap) =
  (Ok true, mkSys w (marked [0; 1]%nat (counter_state t0 rf t0 0 false last (mkTimeQueue [] 2)))
    (quiet_env r (S n))).
Proof.
  unfold Graph.process_callbacks_historical.
  do 2 erewrite mbind_ok by reflexivity.
  lazy -[Z.compare Z.leb Z.max NanoTime.add]. rewrite ?Z.compare_refl.
  do 3 (lazy -[Z.leb Z.max NanoTime.add]; rewrite ?Z.leb_refl).
  reflexivity.
Qed.

(** The scheduling step of every later cycle. *)
Lemma counter_next w last r n t t' seq :
  Z.max t' (NanoTime.add t 1) = t' ->
  Graph.process_callbacks_historical
    (mkSys w (counter_state t0 rf t 0 false last (due_ticker t' seq)) (quiet_env r n) : Sys Heap) =
  (Ok true, mkSys w (marked [0]%nat (counter_state t0 rf t' 0 false last (mkTimeQueue [] (wrap_u64 (seq + 1)))))
    (quiet_env r (S n))).
Proof.
  intros Hmax. unfold Graph.process_callbacks_historical.
  do 2 erewrite mbind_ok by reflexivity.
  lazy -[Z.compare Z.leb Z.max NanoTime.add wrap_u64]. rewrite Hmax.
  do 2 (lazy -[Z.compare Z.leb Z.max NanoTime.add wrap_u64]; rewrite ?Z.compare_refl, ?Z.leb_refl).
  reflexivity.
Qed.

Definition bumped (at_time : option Z) (t : Z) : Z :=
  match at_time with Some a => NanoTime.add a p | None => NanoTime.add t p end.

(** A cycle in which the ticker runs, alone or with the constant. *)
Lemma counter_cycle sources at_time one k t t' pair acc last seq r n :
  sources = [0; 1]%nat \/ sources = [0]%nat ->
  let k' := wrap_u64 (k + 1) in
  Graph.cycle (H := heap_ops fuel) fuel
    (mkSys (mkHeap (counter_objs p at_time one k t pair acc) [] 8)
      (marked sources (counter_state t0 rf t' 0 false last (mkTimeQueue [] seq))) (quiet_env r n)) =
  (Ok tt, mkSys (mkHeap (counter_objs p (Some (bumped at_time t')) 1 k' t' (VPair (VInt k') (VInt t'))
             (acc ++ [VPair (VInt k') (VInt t')])) [] 8)
    (counter_state t0 rf t' 0 false last (due_ticker (bumped at_time t') seq)) (quiet_env (S r) n)).
Proof.
  intros Hs k'. destruct Hs as [->| ->]; destruct at_time as [a|].
  all: lazy -[Z.compare Z.leb Z.max NanoTime.add wrap_u64].
  all: reflexivity.
Qed.

(** ** The run *)

(** The ticks: the [k]-th value is [k], at [k - 1] periods after the start. *)
Definition ticks (n : nat) : list (Z * Z) :=
  map (fun k => (Z.of_nat k + 1, t0 + Z.of_nat k * p)) (seq 0 n).

(** The engine's time once [k] cycles are done. *)
Definition time_after (k : nat) : Z := match k with O => 0 | S j => t0 + Z.of_nat j * p end.

Definition collected (k : nat) : list Val := val_list (pairs_at (ticks k)).
Arguments collected : simpl never.

Definition counter_heap (k : nat) : Heap :=
  match k with
  | O => mkHeap (counter_objs p None 0 0 0 (VPair VUnit (VInt 0)) []) [] 8
  | S j =>
    mkHeap (counter_objs p (Some (t0 + Z.of_nat k * p)) 1 (Z.of_nat k) (time_after k)
      (VPair (VInt (Z.of_nat k)) (VInt (time_after k))) (collected k)) [] 8
  end.

Definition counter_queue (k : nat) (seq : Z) : TimeQueue nat :=
  match k with O => due_sources t0 | S _ => due_ticker (t0 + Z.of_nat k * p) seq end.

Definition counter_sys (k : nat) (last : bool) (seq : Z) (r n : nat) : Sys Heap :=
  mkSys (counter_heap k)
    (counter_state t0 rf (time_after k) 0 (Nat.eqb k 0) last (counter_queue k seq)) (quiet_env r n).

Lemma collected_snoc k :
  collected (S k) = collected k ++ [VPair (VInt (Z.of_nat k + 1)) (VInt (t0 + Z.of_nat k * p))].
Proof. unfold collected, ticks. rewrite seq_S, map_app. simpl. by rewrite map_app. Qed.

(** One round of the run loop, from [k] cycles done to [k + 1]. *)
Lemma counter_round b k last seq r n :
  0 < p -> 0 <= t0 -> t0 + Z.of_nat (S k) * p <= u64_max ->
  exists seq' r' n',
    Graph.process_callbacks_historical
      (set_state (flag_last b (Z.of_nat k) (state (counter_sys k last seq r n))) (counter_sys k last seq r n)) =
      (Ok true, mkSys (counter_heap k)
        (marked (match k with O => [0; 1] | _ => [0] end)%nat
          (counter_state t0 rf (time_after (S k)) 0 false
            (last || lookahead b (Z.of_nat k) (state (counter_sys k last seq r n)))
            (mkTimeQueue [] seq'))) (quiet_env r n')) /\
    Graph.cycle (H := heap_ops fuel) fuel (mkSys (counter_heap k)
        (marked (match k with O => [0; 1] | _ => [0] end)%nat
          (counter_state t0 rf (time_after (S k)) 0 false
            (last || lookahead b (Z.of_nat k) (state (counter_sys k last seq r n)))
            (mkTimeQueue [] seq'))) (quiet_env r n')) =
      (Ok tt, counter_sys (S k) (last || lookahead b (Z.of_nat k) (state (counter_sys k last seq r n))) seq' r' n').
Proof.
  intros Hp Ht0 Hmax. set (la := lookahead _ _ _).
  assert (Hflag : flag_last b (Z.of_nat k) (state (counter_sys k last seq r n)) =
    counter_state t0 rf (time_after k) 0 (Nat.eqb k 0) (last || la) (counter_queue k seq)).
  { unfold flag_last. fold la. by destruct last, la. }
  rewrite Hflag. unfold set_state, counter_sys. cbn [world env].
  assert (Hk1 : wrap_u64 (Z.of_nat k + 1) = Z.of_nat (S k)).
  { rewrite wrap_u64_small; [lia|]. unfold is_u64. nia. }
  destruct k as [|k].
  - exists 2, (S r), (S n). simpl time_after. rewrite Z.add_0_r. split; [apply counter_first|].
    unfold counter_heap. rewrite counter_cycle by by left. simpl bumped. unfold NanoTime.add.
    change (wrap_u64 (0 + 1)) with 1. rewrite wrap_u64_small by (unfold is_u64; lia).
    unfold counter_sys, counter_heap, counter_queue. simpl time_after.
    change (collected 1) with [VPair (VInt 1) (VInt (t0 + 0))]. rewrite ?Z.add_0_r, Z.mul_1_l. reflexivity.
  - set (t := t0 + Z.of_nat k * p). set (t' := t0 + Z.of_nat (S k) * p).
    assert (Htt : t' = t + p) by (unfold t, t'; lia).
    exists (wrap_u64 (seq + 1)), (S r), (S n). change (time_after (S k)) with t. change (time_after (S (S k))) with t'.
    split.
    + apply counter_next. unfold NanoTime.add. rewrite wrap_u64_small by (unfold is_u64; lia). lia.
    + simpl counter_heap. change (time_after (S k)) with t. rewrite counter_cycle by by right.
      simpl bumped. fold t'. unfold NanoTime.add. rewrite wrap_u64_small by (unfold is_u64; lia).
      rewrite Hk1. unfold counter_sys, counter_heap, counter_queue.
      change (time_after (S (S k))) with t'. rewrite (collected_snoc (S k)). fold t'.
      replace (t0 + Z.of_nat (S (S k)) * p) with (t' + p) by (unfold t'; lia).
      replace (Z.of_nat (S k) + 1) with (Z.of_nat (S (S k))) by lia. reflexivity.
Qed.

(** The bounds let exactly [N] cycles happen: [L k] is the flag after [k]. *)
Record plan (b : Graph.RunBounds) (N : nat) (L : nat -> bool) : Prop := {
  pl_start : L 0%nat = false;
  pl_go k : (k < N)%nat ->
    (Graph.rb_end_cycle b <=? Z.of_nat k) || L k && (Graph.rb_end_time b <=? time_after k) = false;
  pl_flag k : (k < N)%nat -> L (S k) = L k || (Graph.rb_end_cycle b <=? Z.of_nat k + 1) ||
    (Graph.rb_end_time b <=? time_after k);
  pl_stop :
    (Graph.rb_end_cycle b <=? Z.of_nat N) || L N && (Graph.rb_end_time b <=? time_after N) = true }.

Lemma counter_loop b N L m k rounds seq r n :
  0 < p -> 0 <= t0 -> t0 + Z.of_nat N * p <= u64_max -> Z.of_nat N <= u32_max ->
  plan b N L -> (k + m = N)%nat -> (m < rounds)%nat ->
  exists seq' r' n', Graph.run_loop (H := heap_ops fuel) fuel rounds b false (Z.of_nat k) 0
    (counter_sys k (L k) seq r n) = (Ok (Z.of_nat N, 0), counter_sys N (L N) seq' r' n').
Proof.
  intros Hp Ht0 Hmax HN Hpl. revert k rounds seq r n.
  induction m as [|m IH]; intros k rounds seq r n Hk Hr; (destruct rounds as [|rounds]; [lia|]);
    rewrite hist_round.
  - assert (k = N) as -> by lia.
    assert (Hst : stops b (Z.of_nat N) (state (counter_sys N (L N) seq r n)) = true) by apply Hpl.
    rewrite Hst. by exists seq, r, n.
  - assert (Hst : stops b (Z.of_nat k) (state (counter_sys k (L k) seq r n)) = false) by (apply Hpl; lia).
    destruct (counter_round b k (L k) seq r n Hp Ht0) as (seq' & r' & n' & Hproc & Hcyc); [nia|].
    assert (Hfl : L k || lookahead b (Z.of_nat k) (state (counter_sys k (L k) seq r n)) = L (S k)).
    { rewrite (pl_flag _ _ _ Hpl k), <-orb_assoc by lia. done. }
    rewrite Hfl in *. rewrite Hst, Hproc, Hcyc.
    assert (Hwr : wrap_u32 (Z.of_nat k + 1) = Z.of_nat (S k)).
    { rewrite wrap_u32_small; lia. }
    rewrite Hwr. apply IH; lia.
Qed.

(** The lifecycle around the loop. *)
Lemma counter_started :
  Graph.setup_nodes (H := heap_ops fuel)
    (mkSys (counter_heap 0) (counter_state t0 rf 0 0 true false TimeQueue.new) env_quiet) =
    (Ok tt, mkSys (counter_heap 0) (counter_state t0 rf 0 0 true false TimeQueue.new) env_quiet) /\
  Graph.start_nodes (H := heap_ops fuel)
    (mkSys (counter_heap 0) (counter_state t0 rf 0 0 true false TimeQueue.new) env_quiet) =
    (Ok tt, counter_sys 0 false 0 0 0).
Proof.
  split; [reflexivity|].
  assert (Hq : TimeQueue.push (TimeQueue.push TimeQueue.new 0%nat t0) 1%nat t0 = due_sources t0).
  { unfold TimeQueue.push at 1. simpl. by rewrite Z.eqb_refl. }
  unfold counter_sys, counter_queue. rewrite <-Hq. reflexivity.
Qed.

Lemma counter_stopped k last seq r n :
  Graph.stop_nodes (H := heap_ops fuel) (counter_sys k last seq r n) = (Ok tt, counter_sys k last seq r n) /\
  Graph.teardown_nodes (H := heap_ops fuel) (counter_sys k last seq r n) = (Ok tt, counter_sys k last seq r n).
Proof. destruct k; split; reflexivity. Qed.

Lemma counter_run period N L :
  nanos period = p -> 0 < p -> 0 <= t0 -> t0 + Z.of_nat N * p <= u64_max -> Z.of_nat N <= u32_max ->
  plan (historical_bounds rf t0) N L -> (N < fuel)%nat ->
  exists s, run fuel (counter period) (HistoricalFrom t0) rf = (Ok tt, s) /\
    world s = counter_heap N.
Proof.
  intros Hper Hp Ht0 Hmax HN Hpl Hf. unfold run. rewrite (counter_built period Hper).
  destruct (counter_loop _ N L N 0 fuel 0 0 0 Hp Ht0 Hmax HN Hpl ltac:(lia) Hf) as (seq' & r' & n' & Hloop).
  rewrite (pl_start _ _ _ Hpl) in Hloop.
  exists (counter_sys N (L N) seq' r' n'). split; [|done].
  destruct counter_started as [Hsetup Hstart]. destruct (counter_stopped N (L N) seq' r' n') as [Hstop Htear].
  assert (Hrun : Graph.run_nodes (H := heap_ops fuel) fuel (counter_sys 0 false 0 0 0) =
    (Ok (Z.of_nat N, 0), counter_sys N (L N) seq' r' n')).
  { by rewrite (run_nodes_eq (H := heap_ops fuel) fuel t0). }
  unfold Graph.run. do 2 erewrite mbind_ok by reflexivity.
  change (wiring_error _) with (@None Error). cbv iota.
  erewrite mbind_ok by exact Hsetup.
  erewrite mbind_ok by (unfold mcatch; rewrite Hstart; reflexivity). cbn [is_ok].
  erewrite mbind_ok by (unfold mcatch; erewrite mbind_ok by exact Hrun; reflexivity).
  erewrite mbind_ok by (unfold mcatch; rewrite Hstop; reflexivity).
  erewrite mbind_ok by (unfold mcatch; rewrite Htear; reflexivity).
  reflexivity.
Qed.
End counter.

(** The number of cycles a ticker of period [p] gets. *)
Definition tick_count (p : Z) (rf : RunFor) : option nat :=
  match rf with
  | Cycles n => Some (Z.to_nat n)
  | ForDuration d => Some (Z.to_nat ((as_nanos d + p - 1) / p + 2))
  | Forever => None
  end.

Definition run_for_positive (rf : RunFor) : Prop :=
  match rf with ForDuration d => 0 < as_nanos d | Cycles n => 0 <= n | Forever => True end.

Lemma plan_cycles t0 p n :
  0 < p -> 0 <= t0 -> 0 <= n -> t0 + n * p <= u64_max ->
  plan t0 p (historical_bounds (Cycles n) t0) (Z.to_nat n) (fun k => (0 <? Z.of_nat k) && (n <=? Z.of_nat k)).
Proof.
  intros Hp Ht0 Hn Hmax.
  assert (Htime : forall k, (k < Z.to_nat n)%nat -> (NanoTime.MAX <=? time_after t0 p k) = false).
  { intros [|k] Hk; simpl; apply Z.leb_gt; [done|]. unfold NanoTime.MAX. nia. }
  split; simpl.
  - done.
  - intros k Hk. rewrite (Htime k Hk), andb_false_r, orb_false_r. apply Z.leb_gt. lia.
  - intros k Hk. rewrite (Htime k Hk), orb_false_r. apply eq_true_iff_eq.
    rewrite orb_true_iff, !andb_true_iff, !Z.leb_le, !Z.ltb_lt. lia.
  - rewrite Z2Nat.id by done. by rewrite Z.leb_refl.
Qed.

Lemma plan_duration t0 p d N :
  0 < p -> 0 <= t0 -> 0 < as_nanos d -> N = Z.to_nat ((as_nanos d + p - 1) / p + 2) ->
  t0 + Z.of_nat N * p <= u64_max -> Z.of_nat N < u32_max ->
  plan t0 p (historical_bounds (ForDuration d) t0) N (fun k => (N <=? k)%nat).
Proof.
  intros Hp Ht0 Hd HN Hmax Hlt. set (j := (as_nanos d + p - 1) / p) in *.
  assert (Hj1 : as_nanos d <= j * p).
  { pose proof (Z.mul_succ_div_gt (as_nanos d + p - 1) p Hp). fold j in H. nia. }
  assert (Hj2 : (j - 1) * p < as_nanos d).
  { pose proof (Z.mul_div_le (as_nanos d + p - 1) p Hp). fold j in H. nia. }
  assert (Hj : 0 < j) by nia.
  assert (Hend : Graph.rb_end_time (historical_bounds (ForDuration d) t0) = t0 + as_nanos d).
  { simpl. unfold NanoTime.add_duration. rewrite wrap_u64_add_r, wrap_u64_small; [done|].
    unfold is_u64. nia. }
  assert (Htime : forall k, (Graph.rb_end_time (historical_bounds (ForDuration d) t0) <=? time_after t0 p k) =
    (N - 1 <=? k)%nat).
  { intros [|k]; rewrite Hend; simpl; apply eq_true_iff_eq; rewrite Z.leb_le, Nat.leb_le.
    - split; lia.
    - split; nia. }
  split.
  - apply Nat.leb_gt. lia.
  - intros k Hk. rewrite (proj2 (Nat.leb_gt _ _)), (proj2 (Z.leb_gt _ _)) by (simpl; lia). done.
  - intros k Hk. rewrite Htime. apply eq_true_iff_eq.
    rewrite !orb_true_iff, !Nat.leb_le, Z.leb_le. simpl. unfold u32_max in *. lia.
  - rewrite Htime, (proj2 (Nat.leb_le (N - 1) N)), Nat.leb_refl by lia. apply orb_true_r.
Qed.

(** C15: the engine, the nodes and the builders together. A historical run of
    [ticker(period).count().collect()] from [t0] returns [Ok] and has collected
    [(1, t0), (2, t0 + period), (3, t0 + 2 period), ...]: exactly [n] values for
    [RunFor::Cycles(n)]; for [RunFor::Duration(d)] as many as there are multiples
    of the period below [d], and two more. The period, [n] and [d] are not zero,
    the last time is in range of a [NanoTime], and there are fewer cycles than
    the engine counts. *)
Theorem counter_correct f t0 period rf N :
  0 < nanos period -> 0 <= t0 -> run_for_positive rf -> tick_count (nanos period) rf = Some N ->
  t0 + Z.of_nat N * nanos period <= u64_max -> Z.of_nat N < u32_max -> (N < 50 + f)%nat ->
  run_and_peek (50 + f) (counter period) (HistoricalFrom t0) rf =
    Ok (pairs_at (ticks t0 (nanos period) N)).
Proof.
  intros Hp Ht0 Hrf HN Hmax Hlt Hf.
  assert (Hpl : exists L, plan t0 (nanos period) (historical_bounds rf t0) N L).
  { destruct rf as [d|n|]; [| |done]; simpl in HN, Hrf; injection HN as HN; eexists.
    - by apply plan_duration.
    - rewrite <-HN. apply plan_cycles; [done..|]. nia. }
  destruct Hpl as [L Hpl].
  destruct (counter_run f t0 (nanos period) rf period N L) as (s & Hrun & Hw);
    [done|done|done|done|lia|done|done|].
  unfold run_and_peek. rewrite Hrun, Hw. by destruct N.
Qed.

Lemma counter_correct_witness :
  run_and_peek 50 (counter (ns 10)) (HistoricalFrom 0) (ForDuration (ns 50)) =
    Ok (pairs_at [(1, 0); (2, 10); (3, 20); (4, 30); (5, 40); (6, 50); (7, 60)]).
Proof.
  refine (counter_correct 0 0 (ns 10) (ForDuration (ns 50)) 7 _ _ _ _ _ _ _).
  - reflexivity.
  - lia.
  - reflexivity.
  - reflexivity.
  - vm_compute. discriminate.
  - reflexivity.
  - lia.
Defined.

(** C16: the combinators, clocks and iterators keep the engine's rules. Take any
    object of the 39 node types that [Obj] holds: those of Transforms, Timing and
    Iterators. Whichever of the five calls of the engine's interface is made on it
    -- [cycle], [setup], [start], [stop] or [teardown], returning, failing or
    panicking --, it acts on the engine's state only through the calls a node is
    allowed, for the node it is, and changes no other object. So the theorems
    about the engine, which assume just this of the nodes, hold of every graph of
    these types. Demultiplexers, feedback sinks, channels, graph and async
    nodes, statistics, dynamic groups and the nodes of the adapters are not
    among them. *)
Theorem combinator_nodes_lawful fuel (s : Sys Heap) a ix nd :
  current_node_index (state s) = Some ix -> nodes (state s) !! ix = Some nd -> node nd = a ->
  let lawful cycling {A} (call : M (Sys Heap) A) :=
    rtc (api_step cycling ix) (state s) (state (call s).2) /\
    other_objects_kept a (world s) (world (call s).2) in
  let ops := heap_ops fuel in
  lawful true (@op_cycle _ ops a) /\ lawful false (@op_setup _ ops a) /\
  lawful false (@op_start _ ops a) /\ lawful false (@op_stop _ ops a) /\
  lawful false (@op_teardown _ ops a).
Proof.
  intros Hc Hn Ha lawful ops. pose proof (heap_laws fuel) as [Hcy Hse Hst Hsp Hte].
  split_and!; (split; [by eauto using surjective_pairing|]).
  - apply obj_cycle_kept.
  - done.
  - apply obj_start_kept.
  - apply obj_stop_kept.
  - done.
Qed.

Lemma combinator_nodes_lawful_witness :
  let s := set_state (set_current (state (counter_graph 50)) (Some 0%nat)) (counter_graph 50) in
  rtc (api_step true 0) (state s) (state (obj_cycle 50 1 s).2) /\
  other_objects_kept 1 (world s) (world (obj_cycle 50 1 s).2).
Proof.
  intros s.
  destruct (combinator_nodes_lawful 50 s 1 0 (mkNodeData 1 [] [mkEdge 2 true] 0 true)) as (Hc & _).
  - vm_compute. reflexivity.
  - vm_compute. reflexivity.
  - reflexivity.
  - exact Hc.
Defined.
