(* ===== verification/Demux.v ===== *)
(** * Demultiplexing: [wingfoil/src/nodes/demux.rs]

    A parent node routes each value, by a key, to one of a fixed number of child
    streams: it marks the child dirty itself. A [HashMap] is a [gmap], a
    [HashSet] a [gset]; the element [iter().next()] yields is a choice function
    [pick] about which only the documented is assumed ([PickLaws]). *)
From S2P Require Import Prelude NanoTime TimeQueue GraphState NodeCalls.

(** [self.available.iter().next().copied()]: some element, unless empty. *)
Class PickLaws (pick : gset nat -> option nat) : Prop := {
  pick_some s i : pick s = Some i -> i ∈ s;
  pick_none s : pick s = None -> s = ∅ }.

Inductive DemuxEvent := EvNone | EvClose.
Inductive DemuxEntry := ESome (index : nat) | EOverflow.

Record DemuxMapInner (K : Type) `{Countable K} := mkDemuxMap {
  available : gset nat; in_use : gmap K (option nat); size : nat }.
Arguments mkDemuxMap {K _ _} available in_use size.
Arguments available {K _ _} d.
Arguments in_use {K _ _} d.
Arguments size {K _ _} d.

Module DemuxMap.
Section map.
Context {K : Type} `{Countable K} (pick : gset nat -> option nat).
Implicit Types m : DemuxMapInner K.

Definition new (n : nat) : DemuxMapInner K := mkDemuxMap (set_seq 0 n) ∅ n.

Definition peek_available m : option nat := pick (available m).

Definition release m (key : K) : DemuxEntry * DemuxMapInner K :=
  match in_use m !! key with
  | Some index =>
    let in_use' := delete key (in_use m) in
    match index with
    | Some ix => (ESome ix, mkDemuxMap ({[ix]} ∪ available m) in_use' (size m))
    | None => (EOverflow, mkDemuxMap (available m) in_use' (size m))
    end
  | None => (match peek_available m with Some ix => ESome ix | None => EOverflow end, m)
  end.

Definition get_or_insert m (key : K) : DemuxEntry * DemuxMapInner K :=
  match in_use m !! key with
  | Some (Some ix) => (ESome ix, m)
  | Some None => (EOverflow, m)
  | None =>
    match peek_available m with
    | Some index =>
      (ESome index, mkDemuxMap (available m ∖ {[index]}) (<[key := Some index]> (in_use m)) (size m))
    | None => (EOverflow, mkDemuxMap (available m) (<[key := None]> (in_use m)) (size m))
    end
  end.

(** The entry an item's key and event lead to. *)
Definition route m (e : K * DemuxEvent) : DemuxEntry * DemuxMapInner K :=
  match e.2 with EvClose => release m e.1 | EvNone => get_or_insert m e.1 end.
End map.
End DemuxMap.

(** ** Setup, shared by the two parents *)

Definition unresolved_child : Error :=
  Msg "Failed to resolve graph index of demux child node.  Was it added to the graph?".
Definition overflow_taken : Error := Msg "demux overflow child is already taken".
Definition unresolved_overflow : Error :=
  Msg "Failed to resolve graph index of demux overflow node.  Was it added to the graph?".
Definition no_children : Error := Msg "Failed to resolve any children to demux into".

(** [drain(..).map(..).collect::<anyhow::Result<_>>()]. *)
Fixpoint child_indices (g : GraphState) (children : list addr) : Res (list nat) :=
  match children with
  | [] => Ok []
  | c :: cs =>
    match GraphState.get_node_index g c with
    | None => Err unresolved_child
    | Some i => match child_indices g cs with Ok ixs => Ok (i :: ixs) | r => r end
    end
  end.

(** The cells [children] and [overflow_child], and the parent's [index_map]. *)
Record ChildCells := mkChildCells {
  children : list addr; overflow_child : option addr; index_map : list nat }.

Definition setup_demux_children : NodeM ChildCells (option nat) :=
  let! c := get_self in
  let! g := graph in
  do! put_self (mkChildCells [] (overflow_child c) (index_map c)) in
  let! ixs := mlift (child_indices g (children c)) in
  do! put_self (mkChildCells [] (overflow_child c) (index_map c ++ ixs)) in
  match overflow_child c with
  | None => mfail overflow_taken
  | Some o =>
    do! put_self (mkChildCells [] None (index_map c ++ ixs)) in
    match GraphState.get_node_index g o with
    | None => mfail unresolved_overflow
    | Some oi =>
      if Nat.eqb (length (index_map c ++ ixs)) 0 then mfail no_children
      else mreturn (Some oi)
    end
  end.

(** [Overflow::stream], on the cell it shares with the parent. *)
Definition overflow_stream (c : ChildCells) : Res addr :=
  match overflow_child c with
  | Some o => Ok o
  | None => Panic "Overflow stream accessed before demux setup populated it"
  end.

(** A call on the cells, from a parent that holds them. *)
Definition on_cells {S A} (get : S -> ChildCells) (put : ChildCells -> S -> S) (m : NodeM ChildCells A)
  : NodeM S A := fun s =>
  let '(r, (c, g)) := m (get s.1, s.2) in (r, (put c s.1, g)).

(** ** One value at a time *)

Module DemuxParent.
Section node.
Context {T K : Type} `{Element T, Countable K} (pick : gset nat -> option nat).
Record DemuxParent := mk {
  source : addr; func : T -> K * DemuxEvent; map : DemuxMapInner K; cells : ChildCells;
  value : T; overflow_graph_index : option nat }.
Definition upstreams (self : DemuxParent) : UpStreams := mkUpStreams [source self] [].

Definition cycle (up : T) : NodeM DemuxParent bool :=
  let! self := get_self in
  let '(entry, m) := DemuxMap.route pick (map self) (func self up) in
  do! put_self (mk (source self) (func self) m (cells self) up (overflow_graph_index self)) in
  let! graph_index := mlift (match entry with
    | EOverflow =>
      match overflow_graph_index self with
      | Some i => Ok i
      | None => Panic "overflow_graph_index populated during setup"
      end
    | ESome index =>
      match index_map (cells self) !! index with
      | Some i => Ok i
      | None => Panic "index out of bounds"
      end
    end) in
  do! call (GraphState.mark_dirty graph_index) in
  mreturn false.

Definition setup : NodeM DemuxParent unit :=
  let! oi := on_cells cells (fun c s => mk (source s) (func s) (map s) c (value s)
                                          (overflow_graph_index s)) setup_demux_children in
  let! self := get_self in
  put_self (mk (source self) (func self) (map self) (cells self) (value self) oi).
End node.
End DemuxParent.

Module DemuxChild.
Section node.
Context {T : Type} `{Element T}.
Record DemuxChild := mk { source : addr; value : T }.
Definition new (src : addr) : DemuxChild := mk src default_value.
Definition upstreams (self : DemuxChild) : UpStreams := mkUpStreams [] [source self].
Definition cycle (up : T) : NodeM DemuxChild bool :=
  let! self := get_self in
  do! put_self (mk (source self) up) in
  mreturn true.
End node.
Arguments DemuxChild : clear implicits.
End DemuxChild.

(** [demux]: a parent, [size] children, one more for the overflow; the parent
    finds them in the shared cells. The parent is at [parent], the children at
    the addresses given. *)
Definition demux {T K} `{Element T, Countable K} (source parent overflow : addr)
    (demuxed : list addr) (m : DemuxMapInner K) (func : T -> K * DemuxEvent) :
    DemuxParent.DemuxParent * list (addr * DemuxChild.DemuxChild T) :=
  (DemuxParent.mk source func m (mkChildCells demuxed (Some overflow) []) default_value None,
   List.map (fun a => (a, DemuxChild.new parent)) (demuxed ++ [overflow])).

(** ** Bursts *)

Module DemuxVecParent.
Section node.
Context {T K : Type} `{Countable K} (pick : gset nat -> option nat).
Record DemuxVecParent := mk {
  source : addr; func : T -> K * DemuxEvent; map : DemuxMapInner K; cells : ChildCells;
  value : list (list T); overflow_graph_index : option nat }.
Definition upstreams (self : DemuxVecParent) : UpStreams := mkUpStreams [source self] [].

(** The body of the loop over the items of a burst. *)
Definition item (x : T) : NodeM DemuxVecParent unit :=
  let! self := get_self in
  let '(entry, m) := DemuxMap.route pick (map self) (func self x) in
  do! put_self (mk (source self) (func self) m (cells self) (value self) (overflow_graph_index self)) in
  let! ixs := mlift (match entry with
    | EOverflow =>
      match overflow_graph_index self with
      | Some i => Ok (size m, i)
      | None => Panic "overflow_graph_index populated during setup"
      end
    | ESome index =>
      match index_map (cells self) !! index with
      | Some i => Ok (index, i)
      | None => Panic "index out of bounds"
      end
    end) in
  let '(index, graph_index) := ixs in
  let! row := mlift (match value self !! index with
                     | Some row => Ok row
                     | None => Panic "index out of bounds"
                     end) in
  do! put_self (mk (source self) (func self) m (cells self)
                  (<[index := row ++ [x]]> (value self)) (overflow_graph_index self)) in
  call (GraphState.mark_dirty graph_index).

Definition cycle (up : list T) : NodeM DemuxVecParent bool :=
  let! self := get_self in
  do! put_self (mk (source self) (func self) (map self) (cells self)
                  (List.map (fun _ => []) (value self)) (overflow_graph_index self)) in
  do! mfor up item in
  mreturn false.

Definition setup : NodeM DemuxVecParent unit :=
  let! oi := on_cells cells (fun c s => mk (source s) (func s) (map s) c (value s)
                                          (overflow_graph_index s)) setup_demux_children in
  let! self := get_self in
  put_self (mk (source self) (func self) (map self) (cells self) (value self) oi).
End node.
End DemuxVecParent.

Module DemuxVecChild.
Section node.
Context {T : Type}.
Record DemuxVecChild := mk { index : nat; source : addr; value : list T }.
Definition new (i : nat) (src : addr) : DemuxVecChild := mk i src [].
Definition upstreams (self : DemuxVecChild) : UpStreams := mkUpStreams [] [source self].
Definition cycle (up : list (list T)) : NodeM DemuxVecChild bool :=
  let! self := get_self in
  let! v := mlift (match up !! index self with
                   | Some v => Ok v
                   | None => Panic "DemuxVecChild index out of bounds vs parent value vector"
                   end) in
  do! put_self (mk (index self) (source self) v) in
  mreturn true.
End node.
Arguments DemuxVecChild : clear implicits.
End DemuxVecChild.

Definition demux_it {T K} `{Countable K} (source parent overflow : addr) (demuxed : list addr)
    (m : DemuxMapInner K) (func : T -> K * DemuxEvent) :
    DemuxVecParent.DemuxVecParent * list (addr * DemuxVecChild.DemuxVecChild T) :=
  (DemuxVecParent.mk source func m (mkChildCells demuxed (Some overflow) [])
     (repeat [] (S (size m))) None,
   imap (fun i a => (a, DemuxVecChild.new i parent)) (demuxed ++ [overflow])).
