(* ===== verification/DemuxProps.v ===== *)
(** * What the demultiplexer promises

    [demux_map_correct]: the table of open keys against a specification that
    reads a log of the events routed so far. [demux_setup_correct]: the
    resolution of the children, and what a second setup does.
    [demux_burst_correct]: one cycle of the parent that splits bursts. *)
From S2P Require Import Prelude NanoTime TimeQueue GraphState NodeCalls GraphWf CycleProps Scripted InitFacts Demux.

(** ** The specification of the table: a log of routed events *)

Section log.
Context {K : Type} `{Countable K}.
Implicit Types log : list (K * DemuxEvent * DemuxEntry).

(** The entry a key holds: the one its last event was given, unless that event
    closed it. *)
Definition held log (key : K) : option DemuxEntry :=
  match last (filter (fun r => r.1.1 = key) log) with
  | Some (_, EvNone, en) => Some en
  | _ => None
  end.

Lemma held_snoc log e en key :
  held (log ++ [(e, en)]) key =
  if decide (e.1 = key) then match e.2 with EvNone => Some en | EvClose => None end
  else held log key.
Proof.
  unfold held. rewrite filter_app. destruct e as [k ev]. simpl.
  case_decide as Hd.
  - rewrite filter_cons_True by done. rewrite filter_nil, last_snoc. by destruct ev.
  - rewrite filter_cons_False by done. by rewrite filter_nil, app_nil_r.
Qed.
End log.

(** ** The table *)

Section table.
Context {K : Type} `{Countable K} (pick : gset nat -> option nat).
Implicit Types m : DemuxMapInner K.

Fixpoint route_all m (evs : list (K * DemuxEvent)) : list DemuxEntry * DemuxMapInner K :=
  match evs with
  | [] => ([], m)
  | e :: evs' =>
    let '(en, m1) := DemuxMap.route pick m e in
    let '(ens, m2) := route_all m1 evs' in (en :: ens, m2)
  end.

Lemma route_all_snoc m evs e :
  route_all m (evs ++ [e]) =
  let '(ens, m1) := route_all m evs in
  let '(en, m2) := DemuxMap.route pick m1 e in (ens ++ [en], m2).
Proof.
  revert m. induction evs as [|e' evs IH]; intros m; simpl.
  - by destruct (DemuxMap.route pick m e).
  - destruct (DemuxMap.route pick m e') as [en m1]. rewrite IH.
    destruct (route_all m1 evs) as [ens m2]. by destruct (DemuxMap.route pick m2 e).
Qed.

Lemma route_all_length m evs : length (route_all m evs).1 = length evs.
Proof.
  revert m. induction evs as [|e evs IH]; intros m; simpl; [done|].
  destruct (DemuxMap.route pick m e) as [en m1]. specialize (IH m1).
  destruct (route_all m1 evs). simpl in *. by f_equal.
Qed.

Definition to_entry (o : option nat) : DemuxEntry :=
  match o with Some i => ESome i | None => EOverflow end.

(** Every slot is free or held by exactly one key. *)
Record table_ok m : Prop := {
  to_free i : i ∈ available m -> i < size m;
  to_used key i : in_use m !! key = Some (Some i) -> i < size m /\ i ∉ available m;
  to_inj key key' i :
    in_use m !! key = Some (Some i) -> in_use m !! key' = Some (Some i) -> key = key';
  to_cover i : i < size m -> i ∈ available m \/ exists key, in_use m !! key = Some (Some i) }.

Lemma new_table_ok n : table_ok (DemuxMap.new n : DemuxMapInner K).
Proof.
  split; simpl.
  - intros i Hi%elem_of_set_seq. lia.
  - intros key i Hk. by rewrite lookup_empty in Hk.
  - intros key key' i Hk. by rewrite lookup_empty in Hk.
  - intros i Hi. left. apply elem_of_set_seq. lia.
Qed.

Context `{!PickLaws pick}.

Lemma free_pick m i : table_ok m -> pick (available m) = Some i ->
  i < size m /\ i ∈ available m /\ forall key, in_use m !! key <> Some (Some i).
Proof.
  intros Hok Hp%pick_some. split_and!; [by apply to_free|done|].
  intros key Hk. by apply (to_used _ Hok) in Hk as [_ ?].
Qed.

(** What one routed event does to the table, and what it answers. *)
Record routed m (e : K * DemuxEvent) (en : DemuxEntry) m' : Prop := {
  ro_ok : table_ok m';
  ro_size : size m' = size m;
  ro_keys key : to_entry <$> in_use m' !! key =
    if decide (e.1 = key) then match e.2 with EvNone => Some en | EvClose => None end
    else to_entry <$> in_use m !! key;
  ro_held o : in_use m !! e.1 = Some o -> en = to_entry o;
  ro_range i : en = ESome i -> i < size m;
  ro_excl i key : en = ESome i -> key <> e.1 -> in_use m !! key <> Some (Some i);
  ro_full : in_use m !! e.1 = None -> en = EOverflow -> available m = ∅ }.

Lemma release_routed m key en m' :
  table_ok m -> DemuxMap.release pick m key = (en, m') -> routed m (key, EvClose) en m'.
Proof.
  intros Hok. unfold DemuxMap.release, DemuxMap.peek_available.
  destruct (in_use m !! key) as [[i|]|] eqn:Hk.
  - intros [= <- <-]. pose proof (to_used _ Hok _ _ Hk) as [Hi Hfree]. split; simpl.
    + split; simpl.
      * intros j. rewrite elem_of_union, elem_of_singleton. intros [->|Hj]; [done|]. by apply to_free.
      * intros k j [Hne Hj]%lookup_delete_Some. split; [by eapply to_used|].
        rewrite not_elem_of_union, not_elem_of_singleton. split; [|by eapply to_used].
        intros ->. apply Hne. by eapply to_inj.
      * intros k k' j [_ Hj]%lookup_delete_Some [_ Hj']%lookup_delete_Some. by eapply to_inj.
      * intros j Hj. destruct (decide (j = i)) as [->|Hne]; [left; set_solver|].
        destruct (to_cover _ Hok j Hj) as [?|[k Hk']]; [left; set_solver|]. right. exists k.
        apply lookup_delete_Some. split; [|done]. intros <-. congruence.
    + done.
    + intros k. case_decide as Hd; [by subst; rewrite lookup_delete_eq|by rewrite lookup_delete_ne].
    + intros o. rewrite Hk. by intros [= <-].
    + by intros j [= <-].
    + intros j k [= <-] Hne Hk'. apply Hne. by eapply to_inj.
    + by rewrite Hk.
  - intros [= <- <-]. split; simpl.
    + split; simpl.
      * by apply to_free.
      * intros k j [_ Hj]%lookup_delete_Some. by eapply to_used.
      * intros k k' j [_ Hj]%lookup_delete_Some [_ Hj']%lookup_delete_Some. by eapply to_inj.
      * intros j Hj. destruct (to_cover _ Hok j Hj) as [?|[k Hk']]; [by left|]. right. exists k.
        apply lookup_delete_Some. split; [|done]. intros <-. congruence.
    + done.
    + intros k. case_decide as Hd; [by subst; rewrite lookup_delete_eq|by rewrite lookup_delete_ne].
    + intros o. rewrite Hk. by intros [= <-].
    + done.
    + done.
    + by rewrite Hk.
  - intros [= <- <-]. split; simpl; try done.
    + intros k. case_decide as Hd; [|done]. by rewrite <-Hd, Hk.
    + intros o. by rewrite Hk.
    + intros j. destruct (pick (available m)) eqn:Hp; intros [= <-]. by eapply free_pick.
    + intros j k. destruct (pick (available m)) eqn:Hp; intros [= <-] _. by eapply free_pick.
    + intros _. destruct (pick (available m)) eqn:Hp; [done|]. intros _. by apply pick_none.
Qed.

Lemma insert_routed m key en m' :
  table_ok m -> DemuxMap.get_or_insert pick m key = (en, m') -> routed m (key, EvNone) en m'.
Proof.
  intros Hok. unfold DemuxMap.get_or_insert, DemuxMap.peek_available.
  destruct (in_use m !! key) as [[i|]|] eqn:Hk; [intros [= <- <-]..|].
  1,2: split; simpl; try done;
    [intros k; case_decide as Hd; [by subst; rewrite Hk|done]
    |intros o; rewrite Hk; by intros [= <-]|..]; try by rewrite Hk.
  - intros j [= <-]. by eapply to_used.
  - intros j k [= <-] Hne Hk'. apply Hne. by eapply to_inj.
  - destruct (pick (available m)) as [i|] eqn:Hp; intros [= <- <-].
    + destruct (free_pick _ _ Hok Hp) as (Hi & Hin & Hnk). split; simpl; try done.
      * split; simpl.
        -- intros j Hj. apply to_free; [done|set_solver].
        -- intros k j [[<- [= <-]]|[Hne Hj]]%lookup_insert_Some; [split; [done|set_solver]|].
           pose proof (to_used _ Hok _ _ Hj). set_solver.
        -- intros k k' j [[<- [= <-]]|[Hne Hj]]%lookup_insert_Some
             [[<- Hx]|[Hne' Hj']]%lookup_insert_Some; try done.
           ++ by apply Hnk in Hj'.
           ++ simplify_eq. by apply Hnk in Hj.
           ++ by eapply to_inj.
        -- intros j Hj. destruct (decide (j = i)) as [->|Hne].
           { right. exists key. by rewrite lookup_insert_eq. }
           destruct (to_cover _ Hok j Hj) as [?|[k Hk']]; [left; set_solver|]. right. exists k.
           rewrite lookup_insert_ne; [done|]. intros <-. congruence.
      * intros k. case_decide as Hd; [by subst; rewrite lookup_insert_eq|by rewrite lookup_insert_ne].
      * intros o. by rewrite Hk.
      * by intros j [= <-].
      * intros j k [= <-] _. apply Hnk.
    + split; simpl; try done.
      * split; simpl.
        -- by apply to_free.
        -- intros k j [[_ Hx]|[_ Hj]]%lookup_insert_Some; [done|]. by eapply to_used.
        -- intros k k' j [[_ Hx]|[_ Hj]]%lookup_insert_Some [[_ Hx']|[_ Hj']]%lookup_insert_Some; try done.
           by eapply to_inj.
        -- intros j Hj. destruct (to_cover _ Hok j Hj) as [?|[k Hk']]; [by left|]. right. exists k.
           rewrite lookup_insert_ne; [done|]. intros <-. congruence.
      * intros k. case_decide as Hd; [by subst; rewrite lookup_insert_eq|by rewrite lookup_insert_ne].
      * intros o. by rewrite Hk.
      * intros _ _. by apply pick_none.
Qed.

Lemma route_routed m e en m' :
  table_ok m -> DemuxMap.route pick m e = (en, m') -> routed m e en m'.
Proof.
  destruct e as [key []]; unfold DemuxMap.route; simpl; [apply insert_routed|apply release_routed].
Qed.

(** The table after any events: well formed, and the log tells what it holds. *)
Lemma route_all_inv n evs :
  let '(ens, m) := route_all (DemuxMap.new n) evs in
  table_ok m /\ size m = n /\
  forall key, to_entry <$> in_use m !! key = held (zip evs ens) key.
Proof.
  induction evs as [|e evs IH] using rev_ind.
  { simpl. split_and!; [apply new_table_ok|done|]. intros key. by rewrite lookup_empty. }
  rewrite route_all_snoc. pose proof (route_all_length (DemuxMap.new n) evs) as Hl.
  destruct (route_all (DemuxMap.new n) evs) as [ens m] eqn:Hr. simpl in Hl.
  destruct IH as (Hok & Hs & Hk). destruct (DemuxMap.route pick m e) as [en m'] eqn:He.
  destruct (route_routed _ _ _ _ Hok He) as [Hok' Hs' Hk' _ _ _ _].
  split_and!; [done|congruence|]. intros key.
  rewrite zip_with_app by done. simpl. rewrite held_snoc, Hk'. by case_decide.
Qed.

End table.

(** C33: After any events, the demultiplexer's answer to the next one is an
    existing child, or the overflow; it is the child the key already holds if
    the key is open; it is never a child that another open key holds, so no two
    open keys share a child; and a key that is not open is sent to the overflow
    only when every child is held by some open key. Closing a key frees its
    child. *)
Theorem demux_map_correct {K} `{Countable K} (pick : gset nat -> option nat) (n : nat)
    (evs : list (K * DemuxEvent)) (e : K * DemuxEvent) :
  PickLaws pick ->
  let '(ens, m) := route_all pick (DemuxMap.new n) evs in
  let log := zip evs ens in
  let '(en, m') := DemuxMap.route pick m e in
  (forall i, en = ESome i -> i < n) /\
  (forall x, held log e.1 = Some x -> en = x) /\
  (forall i key, en = ESome i -> key <> e.1 -> held log key <> Some (ESome i)) /\
  (held log e.1 = None -> en = EOverflow -> forall i, i < n -> exists key, held log key = Some (ESome i)) /\
  (forall key, key ∈ dom (in_use m') <->
     key = e.1 /\ e.2 = EvNone \/ key <> e.1 /\ is_Some (held log key)).
Proof.
  intros Hpick. pose proof (route_all_inv pick n evs) as Hinv.
  destruct (route_all pick (DemuxMap.new n) evs) as [ens m]. destruct Hinv as (Hok & Hs & Hk).
  destruct (DemuxMap.route pick m e) as [en m'] eqn:He. cbn zeta.
  destruct (route_routed _ _ _ _ _ Hok He) as [_ _ Hkeys Hheld Hrange Hexcl Hfull].
  assert (Hin : forall key i, in_use m !! key = Some (Some i) <-> held (zip evs ens) key = Some (ESome i)).
  { intros key i. rewrite <-Hk. destruct (in_use m !! key) as [[j|]|]; simpl; naive_solver. }
  split_and!.
  - rewrite <-Hs. apply Hrange.
  - intros x. rewrite <-Hk. intros (o & Ho & ->)%fmap_Some. by apply Hheld.
  - intros i key -> Hne Hh%Hin. by eapply Hexcl.
  - rewrite <-Hk. intros Hn%fmap_None Hov i Hi. rewrite <-Hs in Hi.
    destruct (to_cover _ Hok i Hi) as [Hf|[key Hu]]; [by rewrite Hfull in Hf|].
    exists key. by apply Hin.
  - intros key. rewrite elem_of_dom, <-(fmap_is_Some to_entry), Hkeys, Hk.
    case_decide as Hd; [destruct e.2|]; naive_solver.
Qed.

(** A choice that satisfies the laws: the first element listed. *)
Definition pick_first (s : gset nat) : option nat := head (elements s).
#[export] Instance pick_first_laws : PickLaws pick_first.
Proof.
  unfold pick_first. split.
  - intros s i Hh. apply elem_of_elements, head_Some_elem_of. done.
  - intros s Hh. apply leibniz_equiv, elements_empty_iff. by apply head_None.
Qed.

(** Two children, three keys: the third overflows; once the first is closed, its
    child serves the next new key. *)
Lemma demux_map_correct_witness :
  let evs := [(1, EvNone); (2, EvNone); (3, EvNone); (1, EvClose)] in
  let m := (route_all pick_first (DemuxMap.new 2) evs).2 in
  (route_all pick_first (DemuxMap.new 2) evs).1 = [ESome 1; ESome 0; EOverflow; ESome 1] /\
  (DemuxMap.route pick_first m (4, EvNone)).1 = ESome 1 /\
  4 ∈ dom (in_use (DemuxMap.route pick_first m (4, EvNone)).2).
Proof.
  cbv zeta. split_and!; [vm_compute; reflexivity..|].
  pose proof (demux_map_correct pick_first 2 [(1, EvNone); (2, EvNone); (3, EvNone); (1, EvClose)]
    (4, EvNone) pick_first_laws) as Hx.
  destruct (route_all _ _ _) as [ens m]. destruct (DemuxMap.route _ _ _) as [en m'].
  destruct Hx as (_ & _ & _ & _ & Hx). apply Hx. by left.
Defined.

(** ** Setup *)

Lemma child_indices_spec g cs :
  child_indices g cs =
  match mapM (GraphState.get_node_index g) cs with Some ixs => Ok ixs | None => Err unresolved_child end.
Proof.
  induction cs as [|c cs IH]; [done|]. simpl. unfold option_bind. rewrite IH.
  destruct (GraphState.get_node_index g c); [|done]. simpl.
  by destruct (mapM (GraphState.get_node_index g) cs).
Qed.

(** Setup resolves the graph index of every child, in order, and of the
    overflow child; it fails when one of them is not in the graph or when there
    are no children, and never touches the engine. It empties the cells it read
    from, so the setup of a second run of the same graph always fails, saying
    that the overflow child is already taken. *)
Theorem demux_setup_correct (c : ChildCells) (g : GraphState) (o : addr) :
  index_map c = [] -> overflow_child c = Some o ->
  exists r c', setup_demux_children (c, g) = (r, (c', g)) /\
  r = (match mapM (GraphState.get_node_index g) (children c), GraphState.get_node_index g o with
       | None, _ => Err unresolved_child
       | Some _, None => Err unresolved_overflow
       | Some [], Some _ => Err no_children
       | Some (_ :: _), Some oi => Ok (Some oi)
       end) /\
  (is_ok r = true ->
     mapM (GraphState.get_node_index g) (children c) = Some (index_map c') /\
     setup_demux_children (c', g) = (Err overflow_taken, (c', g))).
Proof.
  destruct c as [cs oc ixs]. simpl. intros -> ->.
  unfold setup_demux_children, get_self, graph, put_self, mbind, mlift, mfail, mreturn. simpl.
  rewrite child_indices_spec. destruct (mapM (GraphState.get_node_index g) cs) as [ixs|]; simpl.
  - destruct (GraphState.get_node_index g o) as [oi|], ixs as [|i ixs]; simpl;
      eexists _, _; split_and!; try done.
    intros _. simpl. by rewrite app_nil_r.
  - by eexists _, _; split_and!.
Qed.

(** The diamond's middle nodes as the children, its sink as the overflow. *)
Lemma demux_setup_correct_witness :
  exists r c', setup_demux_children (mkChildCells [2; 3]%positive (Some 4%positive) [], state diamond_graph)
                 = (r, (c', state diamond_graph)) /\
    is_ok r = true /\ setup_demux_children (c', state diamond_graph) =
                       (Err overflow_taken, (c', state diamond_graph)).
Proof.
  destruct (demux_setup_correct (mkChildCells [2; 3]%positive (Some 4%positive) [])
    (state diamond_graph) 4%positive eq_refl eq_refl) as (r & c' & Hrun & Hr & Hok).
  assert (Hx : is_ok r = true) by (rewrite Hr; vm_compute; reflexivity).
  exists r, c'. split_and!; [exact Hrun|exact Hx|]. apply (Hok Hx).
Defined.

(** ** A cycle of the parent that splits bursts *)

Definition slot (n : nat) (en : DemuxEntry) : nat :=
  match en with ESome i => i | EOverflow => n end.
Definition target (ixs : list nat) (oi : nat) (en : DemuxEntry) : nat :=
  match en with ESome i => default oi (ixs !! i) | EOverflow => oi end.
(** The items of a burst that were given slot [i], in order. *)
Definition for_slot {T} (n i : nat) (up : list T) (ens : list DemuxEntry) : list T :=
  (filter (fun p => slot n p.2 = i) (zip up ens)).*1.

Lemma for_slot_cons {T} n i (x : T) up en ens :
  for_slot n i (x :: up) (en :: ens) =
  (if decide (slot n en = i) then [x] else []) ++ for_slot n i up ens.
Proof. unfold for_slot. simpl. rewrite filter_cons. simpl. by case_decide. Qed.

(** The rows together hold every item exactly once. *)
Lemma for_slot_partition {T} n (up : list T) ens :
  length ens = length up -> Forall (fun en => slot n en <= n) ens ->
  (concat ((fun i => for_slot n i up ens) <$> seq 0 (S n))) ≡ₚ up.
Proof.
  revert ens. induction up as [|x up IH]; intros [|en ens] Hl Hs; try done.
  { clear. unfold for_slot. generalize (seq 0 (S n)). intros l. by induction l. }
  apply Forall_cons in Hs as [Hen Hs]. simpl in Hl. specialize (IH ens ltac:(lia) Hs).
  set (k := slot n en) in *.
  etransitivity; [|by apply perm_skip, IH]. clear IH.
  assert (Hsplit : seq 0 (S n) = seq 0 k ++ k :: seq (S k) (n - k)).
  { replace (S n) with (k + S (n - k)) by lia. by rewrite seq_app. }
  rewrite Hsplit, !fmap_app, !concat_app, !fmap_cons. simpl concat.
  assert (Hne : forall l : list nat, k ∉ l ->
    (fun i => for_slot n i (x :: up) (en :: ens)) <$> l =@{list (list T)}
    (fun i => for_slot n i up ens) <$> l).
  { intros l Hk. apply list_fmap_ext. intros j i Hj%list_elem_of_lookup_2.
    rewrite for_slot_cons, decide_False; [done|]. fold k. by intros ->. }
  rewrite !Hne by (rewrite elem_of_seq; lia). rewrite for_slot_cons, decide_True by done. simpl.
  by rewrite <-Permutation_middle.
Qed.

Section burst.
Context {T K : Type} `{Countable K} (pick : gset nat -> option nat) `{!PickLaws pick}.
Implicit Types (self : DemuxVecParent.DemuxVecParent (T:=T) (K:=K)) (g : GraphState).
Import DemuxVecParent.

(** A parent as setup leaves it, in a graph that has the children. *)
Record wired self g (oi : nat) : Prop := {
  wi_table : table_ok (map self);
  wi_children : length (index_map (cells self)) = size (map self);
  wi_overflow : overflow_graph_index self = Some oi;
  wi_rows : length (value self) = S (size (map self));
  wi_wf : graph_wf g;
  wi_dirty : dirty_ok g;
  wi_overflow_in : oi < length (nodes g);
  wi_children_in : Forall (fun j => j < length (nodes g)) (index_map (cells self)) }.

Definition with_rows self m (rows : list (list T)) :=
  mk (source self) (func self) m (cells self) rows (overflow_graph_index self).

(** The engine gains marks on the nodes [P] tells, and nothing else. *)
Definition gains (P : nat -> Prop) g g' : Prop :=
  frame g g' /\ node_ticked g' = node_ticked g /\
  scheduled_callbacks g' = scheduled_callbacks g /\ forall j, dirty g' j <-> P j \/ dirty g j.

Lemma gains_trans P Q g g' g'' :
  gains P g g' -> gains Q g' g'' -> gains (fun j => P j \/ Q j) g g''.
Proof.
  intros (Hf & Ht & Hs & Hd) (Hf' & Ht' & Hs' & Hd'). split_and!.
  - by etransitivity.
  - congruence.
  - congruence.
  - intros j. rewrite Hd', Hd. tauto.
Qed.

Lemma item_spec self g oi x en m :
  wired self g oi -> DemuxMap.route pick (map self) (func self x) = (en, m) ->
  let self' := with_rows self m
    (alter (.++ [x]) (slot (size (map self)) en) (value self)) in
  exists g', item pick x (self, g) = (Ok tt, (self', g')) /\ wired self' g' oi /\
    slot (size (map self)) en <= size (map self) /\
    gains (fun j => j = target (index_map (cells self)) oi en) g g'.
Proof.
  intros [Htab Hlen Hov Hrows Hw Hd Hoi Hin] Hroute self'.
  destruct (route_routed _ _ _ _ _ Htab Hroute) as [Hok Hsize _ _ Hrange _ _].
  assert (Hslot : slot (size (map self)) en <= size (map self)).
  { destruct en as [i|]; simpl; [|done]. by apply Nat.lt_le_incl, Hrange. }
  set (tgt := target (index_map (cells self)) oi en).
  assert (Htgt : tgt < length (nodes g)).
  { subst tgt. destruct en as [i|]; simpl; [|done].
    destruct (index_map (cells self) !! i) eqn:Hi; [|done]. apply (Forall_lookup_1 _ _ _ _ Hin Hi). }
  destruct (mark_dirty_spec g tgt Hw Hd Htgt) as (g' & Hm & Hw' & Hd' & Hf & Hj & _ & Ht & _ & Hs & _).
  destruct (lookup_lt_is_Some_2 (value self) (slot (size (map self)) en)) as [row Hrow]; [lia|].
  exists g'. split_and!; [|split; simpl; try done|done|done].
  - unfold item, get_self, put_self, call, mbind, mlift. simpl. rewrite Hroute. simpl.
    assert (Hsel : (match en with
      | EOverflow => match overflow_graph_index self with
                     | Some i => Ok (size m, i)
                     | None => Panic "overflow_graph_index populated during setup" end
      | ESome index => match index_map (cells self) !! index with
                       | Some i => Ok (index, i) | None => Panic "index out of bounds" end
      end) = Ok (slot (size (map self)) en, tgt)).
    { subst tgt. destruct en as [i|]; simpl; [|by rewrite Hov, Hsize].
      destruct (lookup_lt_is_Some_2 (index_map (cells self)) i) as [j Hji].
      { rewrite Hlen. by apply Hrange. }
      by rewrite Hji. }
    rewrite Hsel. simpl. rewrite Hrow. simpl. rewrite Hm. simpl. subst self'. unfold with_rows.
    rewrite list_insert_alter. erewrite list_alter_ext; [done| |done].
    intros y. rewrite Hrow. by intros [= <-].
  - congruence.
  - rewrite length_alter. congruence.
  - by rewrite (fm_nodes _ _ Hf).
  - by rewrite (fm_nodes _ _ Hf).
Qed.

(** The rows after the items [up] were routed as [ens]. *)
Definition filled n up ens (rows : list (list T)) : list (list T) :=
  imap (fun i row => row ++ for_slot n i up ens) rows.

Lemma filled_cons n x up en ens rows :
  filled n up ens (alter (.++ [x]) (slot n en) rows) = filled n (x :: up) (en :: ens) rows.
Proof.
  apply list_eq. intros i. unfold filled. rewrite !list_lookup_imap, list_lookup_alter.
  rewrite for_slot_cons. case_decide as Hd; [subst|by destruct (rows !! i)].
  destruct (rows !! slot n en); simpl; [|done]. by rewrite <-app_assoc.
Qed.

Lemma items_spec self g oi up :
  wired self g oi ->
  let '(ens, m) := route_all pick (map self) (func self <$> up) in
  let self' := with_rows self m (filled (size (map self)) up ens (value self)) in
  exists g', mfor up (item pick) (self, g) = (Ok tt, (self', g')) /\ wired self' g' oi /\
    Forall (fun en => slot (size (map self)) en <= size (map self)) ens /\
    gains (fun j => exists en, en ∈ ens /\ j = target (index_map (cells self)) oi en) g g'.
Proof.
  revert self g. induction up as [|x up IH]; intros self g Hw; cbn [fmap list_fmap route_all].
  - assert (Hs : with_rows self (map self) (filled (size (map self)) [] [] (value self)) = self).
    { destruct self. unfold with_rows, filled, for_slot. simpl. f_equal.
      apply list_eq. intros i. rewrite list_lookup_imap.
      destruct (value0 !! i); simpl; [by rewrite app_nil_r|done]. }
    cbv zeta. rewrite Hs. exists g. split_and!; try done. split_and!; try done. intros j. split; [by right|].
    by intros [(en & Hen%not_elem_of_nil & _)|?].
  - destruct (DemuxMap.route pick (map self) (func self x)) as [en m1] eqn:Hr.
    destruct (item_spec self g oi x en m1 Hw Hr) as (g1 & Hi & Hw1 & Hsl & Hg1).
    pose proof (ro_size _ _ _ _ (route_routed pick _ _ _ _ (wi_table _ _ _ Hw) Hr)) as Hsz.
    specialize (IH _ _ Hw1). simpl in IH. rewrite Hsz in IH.
    destruct (route_all pick m1 (func self <$> up)) as [ens m2].
    cbv zeta in IH |- *. destruct IH as (g2 & Hrest & Hw2 & Hall & Hg2).
    rewrite filled_cons in Hrest, Hw2. exists g2. split_and!.
    + simpl. by rewrite (mbind_ok _ _ _ _ _ Hi).
    + done.
    + by constructor.
    + destruct (gains_trans _ _ _ _ _ Hg1 Hg2) as (Hf & Ht & Hs & Hd). split_and!; [done..|].
      intros j. rewrite Hd. simpl. setoid_rewrite elem_of_cons. naive_solver.
Qed.
End burst.

(** A cycle of the parent that splits bursts routes the items in order and
    cannot fail once setup has run. Afterwards each child's row holds exactly
    the items routed to that child in this burst, in order (nothing of the last
    burst remains), and all rows together hold every item once. The parent
    itself does not tick: it marks dirty the nodes of the children (and the
    overflow) that got an item, and only those. *)
Theorem demux_burst_correct {T K} `{Countable K} (pick : gset nat -> option nat)
    (self : DemuxVecParent.DemuxVecParent (T:=T) (K:=K)) (g : GraphState) (oi : nat) (up : list T) :
  PickLaws pick -> wired self g oi ->
  let n := size (DemuxVecParent.map self) in
  let '(ens, m) := route_all pick (DemuxVecParent.map self) (DemuxVecParent.func self <$> up) in
  exists self' g',
    DemuxVecParent.cycle pick up (self, g) = (Ok false, (self', g')) /\
    wired self' g' oi /\ DemuxVecParent.map self' = m /\
    DemuxVecParent.value self' = (fun i => for_slot n i up ens) <$> seq 0 (S n) /\
    concat (DemuxVecParent.value self') ≡ₚ up /\
    node_ticked g' = node_ticked g /\ scheduled_callbacks g' = scheduled_callbacks g /\
    (forall j, dirty g' j <-> dirty g j \/
       exists en, en ∈ ens /\ j = target (index_map (DemuxVecParent.cells self)) oi en).
Proof.
  intros Hpick Hw n.
  set (rows := List.map (fun _ => [] : list T) (DemuxVecParent.value self)).
  set (self0 := with_rows self (DemuxVecParent.map self) rows).
  assert (Hw0 : wired self0 g oi).
  { destruct Hw. split; try done. simpl. subst rows. by rewrite length_map. }
  pose proof (items_spec pick self0 g oi up Hw0) as Hs. simpl in Hs.
  pose proof (route_all_length pick (DemuxVecParent.map self) (DemuxVecParent.func self <$> up)) as Hl.
  destruct (route_all _ _ _) as [ens m]. cbv zeta in Hs. simpl in Hl. rewrite length_fmap in Hl.
  destruct Hs as (g' & Hrun & Hw' & Hall & Hf & Ht & Hsc & Hd).
  assert (Hrows : filled n up ens rows = (fun i => for_slot n i up ens) <$> seq 0 (S n)).
  { apply list_eq. intros i. unfold filled. rewrite list_lookup_imap, list_lookup_fmap.
    subst rows. change (List.map ?f ?l) with (f <$> l). rewrite list_lookup_fmap.
    pose proof (wi_rows _ _ _ Hw) as Hlen. fold n in Hlen. destruct (decide (i < S n)) as [Hi|Hi].
    - rewrite lookup_seq_lt by done. rewrite <-Hlen in Hi.
      apply lookup_lt_is_Some_2 in Hi as [row ->]. done.
    - rewrite !lookup_ge_None_2; [done|rewrite length_seq; lia|lia]. }
  fold n in Hrun, Hw'. rewrite Hrows in Hrun, Hw'. eexists _, g'. split_and!.
  - unfold DemuxVecParent.cycle, get_self, put_self. unfold mbind at 1 2. simpl.
    rewrite (mbind_ok _ _ _ _ _ Hrun). done.
  - exact Hw'.
  - done.
  - done.
  - by apply for_slot_partition.
  - done.
  - done.
  - intros j. rewrite Hd. tauto.
Qed.

(** Two children and the overflow are the inner nodes and the sink of the
    diamond; the burst has three keys. *)
Definition demux_parent_example : DemuxVecParent.DemuxVecParent (T:=nat) (K:=nat) :=
  DemuxVecParent.mk 1%positive (fun x => (x, EvNone)) (DemuxMap.new 2)
    (mkChildCells [] None [1; 2]) [[]; [9]; []] (Some 3).

Lemma demux_burst_correct_witness :
  wired demux_parent_example (state diamond_graph) 3 /\
  exists self' g',
    DemuxVecParent.cycle pick_first [7; 8; 9; 7] (demux_parent_example, state diamond_graph)
      = (Ok false, (self', g')) /\
    DemuxVecParent.value self' = [[8]; [7; 7]; [9]] /\
    concat (DemuxVecParent.value self') ≡ₚ [7; 8; 9; 7] /\ dirty g' 3.
Proof.
  assert (Hw : wired demux_parent_example (state diamond_graph) 3).
  { destruct diamond_graph_ok as (Hw & Hd & _). split.
    - apply new_table_ok.
    - reflexivity.
    - reflexivity.
    - reflexivity.
    - exact Hw.
    - exact Hd.
    - apply Nat.ltb_lt. vm_compute. reflexivity.
    - repeat constructor; apply Nat.ltb_lt; vm_compute; reflexivity. }
  split; [exact Hw|].
  pose proof (demux_burst_correct pick_first demux_parent_example (state diamond_graph) 3
    [7; 8; 9; 7] pick_first_laws Hw) as Hx. cbv zeta in Hx.
  assert (Hens : (route_all pick_first (DemuxVecParent.map demux_parent_example)
    (DemuxVecParent.func demux_parent_example <$> [7; 8; 9; 7])).1 = [ESome 1; ESome 0; EOverflow; ESome 1])
    by (vm_compute; reflexivity).
  destruct (route_all _ _ _) as [ens m]. simpl in Hens. subst ens.
  destruct Hx as (self' & g' & Hrun & _ & _ & Hv & Hc & _ & _ & Hd). exists self', g'.
  split_and!; [exact Hrun|rewrite Hv; vm_compute; reflexivity|exact Hc|].
  apply Hd. right. exists EOverflow. split; [|reflexivity]. apply list_elem_of_In. simpl. tauto.
Defined.
