(* ===== verification/DynamicGroup.v ===== *)
(** * Dynamic groups: [wingfoil/src/nodes/dynamic_group.rs]

    A keyed registry of streams that a node wires and unwires while the graph
    runs. The store behind it is a trait; the two implementations of the source
    are over the standard [BTreeMap] (a list sorted by the key's order) and
    [HashMap] (a [gmap], iterated in an order that is not specified: the
    argument [order]). The two stores are finite maps ([btree_laws],
    [hash_laws]); the group and its node are specified against that interface. *)
From S2P Require Import Prelude NanoTime TimeQueue GraphState NodeCalls WiringFacts GraphWf CycleProps Scripted InitFacts.

(** ** The store *)

Class StreamStore (S K : Type) := {
  store_insert : K -> addr -> S -> S;
  store_remove : K -> S -> option addr * S;
  store_entries : S -> list (K * addr) }.

(** What an implementation promises: it is a finite map. *)
Class StoreLaws (S K : Type) `{Countable K, !StreamStore S K} := {
  store_ok : S -> Prop;
  contents : S -> gmap K addr;
  insert_ok s k a : store_ok s -> store_ok (store_insert k a s);
  insert_contents s k a : store_ok s -> contents (store_insert k a s) = <[k := a]> (contents s);
  remove_ok s k : store_ok s -> store_ok (store_remove k s).2;
  remove_contents s k : store_ok s -> contents (store_remove k s).2 = delete k (contents s);
  remove_found s k : store_ok s -> (store_remove k s).1 = contents s !! k;
  entries_contents s : store_ok s -> store_entries s ≡ₚ map_to_list (contents s) }.

(** [Ord]. *)
Class Ord (K : Type) := cmp : K -> K -> comparison.
Class OrdLaws (K : Type) `{Ord K} : Prop := {
  cmp_eq (a b : K) : cmp a b = Eq <-> a = b;
  cmp_gt (a b : K) : cmp a b = Gt <-> cmp b a = Lt;
  cmp_trans (a b c : K) : cmp a b = Lt -> cmp b c = Lt -> cmp a c = Lt }.

#[export] Instance nat_ord : Ord nat := Nat.compare.
#[export] Instance nat_ord_laws : OrdLaws nat.
Proof.
  split; unfold cmp, nat_ord; intros *.
  - apply Nat.compare_eq_iff.
  - rewrite Nat.compare_gt_iff, Nat.compare_lt_iff. done.
  - rewrite !Nat.compare_lt_iff. lia.
Qed.

Module BTreeMap.
Section btree.
Context {K : Type} `{Ord K}.

Fixpoint insert (k : K) (a : addr) (l : list (K * addr)) : list (K * addr) :=
  match l with
  | [] => [(k, a)]
  | (k', a') :: l' =>
    match cmp k k' with
    | Lt => (k, a) :: l
    | Eq => (k', a) :: l'
    | Gt => (k', a') :: insert k a l'
    end
  end.

Fixpoint remove (k : K) (l : list (K * addr)) : option addr * list (K * addr) :=
  match l with
  | [] => (None, [])
  | (k', a') :: l' =>
    match cmp k k' with
    | Lt => (None, l)
    | Eq => (Some a', l')
    | Gt => let '(found, rest) := remove k l' in (found, (k', a') :: rest)
    end
  end.
End btree.
End BTreeMap.

Record BTreeMap (K : Type) := mkBTreeMap { btree : list (K * addr) }.
Arguments mkBTreeMap {K} btree.
Arguments btree {K} b.

#[export] Instance btree_store {K} `{Ord K} : StreamStore (BTreeMap K) K := {
  store_insert k a s := mkBTreeMap (BTreeMap.insert k a (btree s));
  store_remove k s := let '(found, l) := BTreeMap.remove k (btree s) in (found, mkBTreeMap l);
  store_entries s := btree s }.

Record HashMap (K : Type) `{Countable K} := mkHashMap { hash : gmap K addr }.
Arguments mkHashMap {K _ _} hash.
Arguments hash {K _ _} h.

Definition hash_store {K} `{Countable K} (order : gmap K addr -> list (K * addr)) :
    StreamStore (HashMap K) K := {|
  store_insert k a s := mkHashMap (<[k := a]> (hash s));
  store_remove k s := (hash s !! k, mkHashMap (delete k (hash s)));
  store_entries s := order (hash s) |}.

(** ** The group *)

Module DynamicGroup.
Section group.
Context {S K : Type} `{StreamStore S K}.
Record DynamicGroup := mk { store : S }.
Definition with_store (s : S) : DynamicGroup := mk s.

Definition insert (key : K) (stream : addr) : NodeM DynamicGroup unit :=
  do! call (GraphState.add_upstream stream true true) in
  let! self := get_self in
  put_self (mk (store_insert key stream (store self))).

Definition remove (key : K) : NodeM DynamicGroup unit :=
  let! self := get_self in
  let '(found, store') := store_remove key (store self) in
  do! put_self (mk store') in
  match found with
  | Some stream => call (GraphState.remove_node stream)
  | None => mreturn tt
  end.

(** [ticked_iter], with what the loop over it does. *)
Definition for_ticked {A T} (peek : addr -> T) (body : K -> T -> NodeM A unit) (self : DynamicGroup)
  : NodeM A unit :=
  mfor (store_entries (store self)) (fun '(key, stream) =>
    let! g := graph in
    let! ticked := mlift (GraphState.ticked g stream) in
    if ticked : bool then body key (peek stream) else mreturn tt).
End group.
Arguments DynamicGroup : clear implicits.
End DynamicGroup.

(** ** The node

    The factory builds new streams: it acts on an outside world [X], in which
    [peek] reads the value of a stream. *)
Module DynamicGroupStream.
Section node.
Context {S K T V X : Type} `{StreamStore S K}.
Import DynamicGroup.
Record DynamicGroupStream := mk {
  add : addr; del : addr;
  factory : K -> X -> addr * X;
  group : DynamicGroup S;
  on_tick : V -> K -> T -> V;
  on_remove : V -> K -> V;
  value : V }.
Definition upstreams (self : DynamicGroupStream) : UpStreams := mkUpStreams [add self; del self] [].

Definition set_group (self : DynamicGroupStream) gr :=
  mk (add self) (del self) (factory self) gr (on_tick self) (on_remove self) (value self).
Definition set_value (self : DynamicGroupStream) v :=
  mk (add self) (del self) (factory self) (group self) (on_tick self) (on_remove self) v.

(** A call on the field [group]. *)
Definition on_group {A} (m : NodeM (DynamicGroup S) A) : NodeM (DynamicGroupStream * X) A :=
  fun s => let '(r, (gr, g)) := m (group s.1.1, s.2) in (r, ((set_group s.1.1 gr, s.1.2), g)).

Definition cycle (peek : X -> addr -> T) (add_value del_value : K) :
    NodeM (DynamicGroupStream * X) bool :=
  let! s := get_self in
  let! g := NodeCalls.graph in
  let! added := mlift (GraphState.ticked g (add s.1)) in
  do! (if added : bool then
         let! s := get_self in
         let '(stream, x) := factory s.1 add_value s.2 in
         do! put_self (s.1, x) in
         on_group (DynamicGroup.insert add_value stream)
       else mreturn tt) in
  let! g := NodeCalls.graph in
  let! deleted := mlift (GraphState.ticked g (del s.1)) in
  do! (if deleted : bool then
         let! s := get_self in
         do! put_self (set_value s.1 (on_remove s.1 (value s.1) del_value), s.2) in
         on_group (DynamicGroup.remove del_value)
       else mreturn tt) in
  let! s := get_self in
  (** The flag [ticked] of the source and [self.value] are both changed by the loop. *)
  fun st =>
    let '(r, ((self_ticked, x), g)) :=
      for_ticked (peek s.2) (fun key val =>
          let! t := get_self in
          put_self ((set_value t.1.1 (on_tick t.1.1 (value t.1.1) key val), true), t.2))
        (group s.1) (((st.1.1, false), st.1.2), st.2) in
    (match r with
     | Ok _ => Ok self_ticked.2
     | Err e => Err e
     | Panic w => Panic w
     | OutOfFuel => OutOfFuel
     end, ((self_ticked.1, x), g)).
End node.
Arguments DynamicGroupStream : clear implicits.
End DynamicGroupStream.

Definition dynamic_group_stream_with_store {S K T V X} `{StreamStore S K} (add del : addr)
    (factory : K -> X -> addr * X) (store : S) (init : V) (on_tick : V -> K -> T -> V)
    (on_remove : V -> K -> V) : DynamicGroupStream.DynamicGroupStream S K T V X :=
  DynamicGroupStream.mk add del factory (DynamicGroup.with_store store) on_tick on_remove init.

Definition dynamic_group_stream {K T V X} `{Ord K} (add del : addr)
    (factory : K -> X -> addr * X) (init : V) (on_tick : V -> K -> T -> V)
    (on_remove : V -> K -> V) : DynamicGroupStream.DynamicGroupStream (BTreeMap K) K T V X :=
  dynamic_group_stream_with_store add del factory (mkBTreeMap []) init on_tick on_remove.

(** ** The stores implement the interface *)

Section btree.
Context {K : Type} `{Countable K, OrdK : !Ord K, !OrdLaws K}.
Implicit Types l : list (K * addr).

Definition key_lt : relation (K * addr) := fun p q => cmp p.1 q.1 = Lt.

Lemma cmp_irrefl (k : K) : cmp k k <> Lt.
Proof. rewrite (proj2 (cmp_eq k k) eq_refl). done. Qed.

Lemma sorted_below l k : StronglySorted key_lt l -> Forall (fun p => cmp k p.1 = Lt) l ->
  (list_to_map l : gmap K addr) !! k = None.
Proof.
  intros _ Hall. apply not_elem_of_list_to_map_1. intros (p & -> & Hp)%list_elem_of_fmap.
  rewrite Forall_forall in Hall. by eapply cmp_irrefl, Hall.
Qed.

Lemma sorted_keys_NoDup l : StronglySorted key_lt l -> NoDup l.*1.
Proof.
  induction 1 as [|[k a] l Hs IH Hall]; simpl; constructor; [|done].
  intros (p & -> & Hp)%list_elem_of_fmap. rewrite Forall_forall in Hall.
  by eapply cmp_irrefl, (Hall p).
Qed.

Lemma lt_all k k' l : cmp k k' = Lt -> Forall (fun p => cmp k' p.1 = Lt) l ->
  Forall (fun p => cmp k p.1 = Lt) l.
Proof. intros Hlt Hall. eapply Forall_impl; [exact Hall|]. intros p. simpl. by apply cmp_trans. Qed.

Lemma btree_insert_all k k' a l :
  cmp k' k = Lt -> Forall (fun p => cmp k' p.1 = Lt) l ->
  Forall (fun p => cmp k' p.1 = Lt) (BTreeMap.insert k a l).
Proof.
  intros Hlt. induction 1 as [|[k1 a1] l Hk Hl IH]; simpl; [by repeat constructor|].
  destruct (cmp k k1); by repeat constructor.
Qed.

Lemma btree_insert_sorted k a l :
  StronglySorted key_lt l -> StronglySorted key_lt (BTreeMap.insert k a l).
Proof.
  induction 1 as [|[k' a'] l Hs IH Hall]; simpl; [by repeat constructor|].
  destruct (cmp k k') eqn:Hc.
  - by constructor.
  - constructor; [by constructor|]. constructor; [done|]. by eapply lt_all.
  - apply cmp_gt in Hc. constructor; [done|]. by apply btree_insert_all.
Qed.

Lemma btree_insert_map k a l :
  StronglySorted key_lt l ->
  list_to_map (BTreeMap.insert k a l) =@{gmap K addr} <[k := a]> (list_to_map l).
Proof.
  induction 1 as [|[k' a'] l Hs IH Hall]; simpl; [done|].
  destruct (cmp k k') eqn:Hc; simpl; [|done|].
  - apply cmp_eq in Hc as ->. by rewrite insert_insert_eq.
  - rewrite IH. apply insert_insert_ne. intros ->. by rewrite (proj2 (cmp_eq k k) eq_refl) in Hc.
Qed.

Lemma btree_remove_all (P : K * addr -> Prop) k l :
  Forall P l -> Forall P (BTreeMap.remove k l).2.
Proof.
  induction 1 as [|[k1 a1] l Hk Hl IH]; simpl; [done|].
  destruct (cmp k k1); try done; [by constructor|].
  destruct (BTreeMap.remove k l). by constructor.
Qed.

Lemma btree_remove_sorted k l :
  StronglySorted key_lt l -> StronglySorted key_lt (BTreeMap.remove k l).2.
Proof.
  induction 1 as [|[k' a'] l Hs IH Hall]; simpl; [by constructor|].
  destruct (cmp k k'); simpl; try done; [by constructor|].
  pose proof (btree_remove_all _ k _ Hall) as Hr.
  destruct (BTreeMap.remove k l). by constructor.
Qed.

Lemma btree_remove_map k l :
  StronglySorted key_lt l ->
  let '(found, l') := BTreeMap.remove k l in
  found = list_to_map (M:=gmap K addr) l !! k /\
  list_to_map l' =@{gmap K addr} delete k (list_to_map l).
Proof.
  induction 1 as [|[k' a'] l Hs IH Hall]; simpl; [by rewrite delete_empty|].
  destruct (cmp k k') eqn:Hc; simpl.
  - apply cmp_eq in Hc as ->. rewrite lookup_insert_eq, delete_insert_eq, delete_id; [done|].
    by apply sorted_below.
  - assert (Hn : list_to_map (M:=gmap K addr) ((k', a') :: l) !! k = None).
    { apply sorted_below; [by constructor|]. constructor; [done|]. by eapply lt_all. }
    simpl in Hn. by rewrite Hn, delete_id.
  - assert (Hne : k <> k') by (intros ->; by rewrite (proj2 (cmp_eq k' k') eq_refl) in Hc).
    destruct (BTreeMap.remove k l) as [found l']. destruct IH as [-> Hl]. simpl. rewrite Hl.
    by rewrite lookup_insert_ne, delete_insert_ne.
Qed.

#[export] Instance btree_laws : StoreLaws (BTreeMap K) K.
Proof.
  refine {| store_ok s := StronglySorted key_lt (btree s);
            contents s := list_to_map (btree s) |}.
  - intros s k a. apply btree_insert_sorted.
  - intros s k a. apply btree_insert_map.
  - intros s k Hs. pose proof (btree_remove_sorted k _ Hs) as Hr. simpl.
    by destruct (BTreeMap.remove k (btree s)).
  - intros s k Hs. pose proof (btree_remove_map k _ Hs) as Hr. simpl.
    by destruct (BTreeMap.remove k (btree s)), Hr.
  - intros s k Hs. pose proof (btree_remove_map k _ Hs) as Hr. simpl.
    by destruct (BTreeMap.remove k (btree s)), Hr.
  - intros s Hs. simpl. symmetry. apply map_to_list_to_map. by apply sorted_keys_NoDup.
Defined.
End btree.

(** The order a [HashMap] is iterated in: each entry once. *)
Definition hash_laws {K} `{Countable K} (order : gmap K addr -> list (K * addr))
    (Horder : forall m, order m ≡ₚ map_to_list m) :
    @StoreLaws (HashMap K) K _ _ (hash_store order).
Proof.
  refine (@Build_StoreLaws (HashMap K) K _ _ (hash_store order) (fun _ => True) hash
    _ _ _ _ _ _); try done.
  intros s _. apply Horder.
Defined.

(** ** The group's operations and the node's cycle *)

Section group.
Context {S K : Type} `{Countable K, !StreamStore S K, !StoreLaws S K}.
Import DynamicGroup.

(** The requests a call leaves for the end of the engine's cycle. *)
Definition requests (g : GraphState) (adds : list PendingAddition) (removals : list addr) : GraphState :=
  set_pending_removals (set_pending_additions g (pending_additions g ++ adds))
    (pending_removals g ++ removals).

Lemma requests_nil g : requests g [] [] = g.
Proof. unfold requests. rewrite !app_nil_r. by destruct g. Qed.

Lemma requests_app g a1 r1 a2 r2 :
  requests (requests g a1 r1) a2 r2 = requests g (a1 ++ a2) (r1 ++ r2).
Proof. unfold requests. simpl. by rewrite !app_assoc. Qed.

Lemma insert_run (gr : DynamicGroup S) g ix (key : K) stream :
  current_node_index g = Some ix ->
  insert key stream (gr, g) =
  (Ok tt, (mk (store_insert key stream (store gr)),
           requests g [mkPendingAddition stream ix true true] [])).
Proof.
  intros Hc. unfold insert, call, get_self, put_self, GraphState.add_upstream, GraphState.current, mbind.
  simpl. rewrite Hc. simpl. unfold requests, mreturn. simpl. by rewrite app_nil_r.
Qed.

Lemma remove_run (gr : DynamicGroup S) g (key : K) :
  store_ok (store gr) ->
  remove key (gr, g) =
  (Ok tt, (mk (store_remove key (store gr)).2,
           requests g [] (option_list (contents (store gr) !! key)))).
Proof.
  intros Hok. unfold remove, get_self, put_self, call, mbind. simpl.
  pose proof (remove_found _ key Hok) as Hf. destruct (store_remove key (store gr)) as [found s'].
  simpl in Hf. subst found. destruct (contents (store gr) !! key); simpl; [|by rewrite requests_nil].
  unfold requests. simpl. rewrite app_nil_r. by destruct g.
Qed.
End group.

Definition is_ticked (g : GraphState) (a : addr) : bool :=
  match GraphState.ticked g a with Ok b => b | _ => false end.

Lemma ticked_run g a : index_ok g -> GraphState.ticked g a = Ok (is_ticked g a).
Proof.
  intros Hw. unfold is_ticked, GraphState.ticked, GraphState.get_node_index.
  destruct (node_to_index g !! a) as [i|] eqn:Hi; [|done].
  destruct (lookup_lt_is_Some_2 (node_ticked g) i) as [b Hb]; [|by rewrite Hb].
  destruct Hw as [Hlen Hix]. apply Hix in Hi as (nd & Hnd & _). rewrite Hlen. by eapply lookup_lt_Some.
Qed.

Section cycle.
Context {S K T V X : Type} `{Countable K, !StreamStore S K, !StoreLaws S K}.
Import DynamicGroupStream.
Implicit Types (self : DynamicGroupStream S K T V X) (g : GraphState).

(** The streams of the group that ticked, in the order of the store. *)
Definition ticked_entries g (l : list (K * addr)) : list (K * addr) :=
  List.filter (fun p => is_ticked g p.2) l.

Definition on_ticks self (peek : addr -> T) (l : list (K * addr)) (v : V) : V :=
  foldl (fun v p => on_tick self v p.1 (peek p.2)) v l.

Lemma loop_run self (x : X) peek b g l :
  index_ok g ->
  mfor l (fun '(key, stream) =>
    let! g := NodeCalls.graph in
    let! ticked := mlift (GraphState.ticked g stream) in
    if ticked : bool
    then let! t := get_self in
         put_self ((set_value t.1.1 (on_tick t.1.1 (value t.1.1) key (peek stream)), true), t.2)
    else mreturn tt) (((self, b), x), g) =
  (Ok tt, (((set_value self (on_ticks self peek (ticked_entries g l) (value self)),
     b || existsb (fun p => is_ticked g p.2) l), x), g)).
Proof.
  intros Hw. revert self b. induction l as [|[k a] l IH]; intros self b; simpl.
  { rewrite orb_false_r. unfold on_ticks, mreturn. simpl. by destruct self. }
  unfold NodeCalls.graph, mlift. unfold mbind at 1. unfold mbind at 1. unfold mbind at 1. simpl.
  rewrite ticked_run by done. destruct (is_ticked g a) eqn:Ht.
  - unfold get_self, put_self. unfold mbind at 1. simpl. rewrite IH. simpl.
    by rewrite orb_true_r.
  - unfold mreturn at 1. by rewrite IH.
Qed.

Definition put_store self s := set_group self (DynamicGroup.mk s).

Lemma add_stage self (x : X) g ix (ka : K) stream xa :
  current_node_index g = Some ix -> factory self ka x = (stream, xa) ->
  (let! s := get_self in
   let '(stream, x) := factory s.1 ka s.2 in
   do! put_self (s.1, x) in
   on_group (DynamicGroup.insert ka stream)) ((self, x), g) =
  (Ok tt, ((put_store self (store_insert ka stream (DynamicGroup.store (group self))), xa),
           requests g [mkPendingAddition stream ix true true] [])).
Proof.
  intros Hc Hf. unfold get_self. unfold mbind at 1. simpl. rewrite Hf.
  unfold put_self, mbind, on_group. simpl. by rewrite (insert_run _ _ ix).
Qed.

Lemma del_stage self (x : X) g (kd : K) :
  store_ok (DynamicGroup.store (group self)) ->
  (let! s := get_self in
   do! put_self (set_value s.1 (on_remove s.1 (value s.1) kd), s.2) in
   on_group (DynamicGroup.remove kd)) ((self, x), g) =
  (Ok tt, ((set_value (put_store self (store_remove kd (DynamicGroup.store (group self))).2)
              (on_remove self (value self) kd), x),
           requests g [] (option_list (contents (DynamicGroup.store (group self)) !! kd)))).
Proof.
  intros Hok. unfold get_self, put_self, mbind, on_group. simpl. by rewrite remove_run.
Qed.

(** The store and the requests after the cycle, and the value [on_tick] starts from. *)
Definition store_after self g ka kd stream : S :=
  let s := DynamicGroup.store (group self) in
  let s1 := if is_ticked g (add self) then store_insert ka stream s else s in
  if is_ticked g (del self) then (store_remove kd s1).2 else s1.
Definition contents_added self g ka stream : gmap K addr :=
  let c := contents (DynamicGroup.store (group self)) in
  if is_ticked g (add self) then <[ka := stream]> c else c.
Definition state_after self g ix ka kd stream : GraphState :=
  requests g (if is_ticked g (add self) then [mkPendingAddition stream ix true true] else [])
    (if is_ticked g (del self) then option_list (contents_added self g ka stream !! kd) else []).
Definition value_before self g kd : V :=
  if is_ticked g (del self) then on_remove self (value self) kd else value self.

Lemma cycle_run self (x : X) g ix peek ka kd stream xa :
  store_ok (DynamicGroup.store (group self)) -> index_ok g -> current_node_index g = Some ix ->
  factory self ka x = (stream, xa) ->
  let x1 := if is_ticked g (add self) then xa else x in
  let s' := store_after self g ka kd stream in
  cycle peek ka kd ((self, x), g) =
  (Ok (existsb (fun p => is_ticked g p.2) (store_entries s')),
   ((set_value (put_store self s')
       (on_ticks self (peek x1) (ticked_entries g (store_entries s')) (value_before self g kd)), x1),
    state_after self g ix ka kd stream)).
Proof.
  intros Hok Hix Hc Hf. unfold cycle, store_after, state_after, value_before, contents_added.
  rewrite (mbind_ok get_self _ _ _ _ eq_refl), (mbind_ok NodeCalls.graph _ _ _ _ eq_refl).
  unfold mlift. unfold mbind at 1. simpl. rewrite ticked_run by done.
  destruct (is_ticked g (add self)).
  - rewrite (mbind_ok _ _ _ _ _ (add_stage _ _ _ _ _ _ _ Hc Hf)).
    rewrite (mbind_ok NodeCalls.graph _ _ _ _ eq_refl). unfold mbind at 1. simpl.
    rewrite ticked_run by done. change (is_ticked (requests g ?a ?r) ?d) with (is_ticked g d).
    destruct (is_ticked g (del self)).
    + erewrite mbind_ok by (apply del_stage; by apply insert_ok). simpl. cbv zeta.
      rewrite (mbind_ok get_self _ _ _ _ eq_refl). simpl. unfold DynamicGroup.for_ticked.
      rewrite loop_run by done. rewrite requests_app, insert_contents by done. done.
    + rewrite (mbind_ok (mreturn tt) _ _ _ _ eq_refl), (mbind_ok get_self _ _ _ _ eq_refl).
      simpl. unfold DynamicGroup.for_ticked. by rewrite loop_run.
  - rewrite (mbind_ok (mreturn tt) _ _ _ _ eq_refl), (mbind_ok NodeCalls.graph _ _ _ _ eq_refl).
    unfold mbind at 1. simpl. rewrite ticked_run by done.
    destruct (is_ticked g (del self)).
    + erewrite mbind_ok by (by apply del_stage). simpl. cbv zeta.
      rewrite (mbind_ok get_self _ _ _ _ eq_refl). simpl. unfold DynamicGroup.for_ticked.
      rewrite loop_run by done. done.
    + rewrite (mbind_ok (mreturn tt) _ _ _ _ eq_refl), (mbind_ok get_self _ _ _ _ eq_refl).
      simpl. unfold DynamicGroup.for_ticked. rewrite loop_run, requests_nil by done.
      by destruct self as [? ? ? []].
Qed.

(** C34: A cycle of the dynamic group's node, whatever store is behind it. If
    [add] ticked, the stream the factory makes for its key is bound in the store
    (whatever the key was bound to before) and a request to wire it, active and
    recycled, is queued. If [del] ticked, [on_remove] is called, the key unbound
    and a request to unwire the stream it was bound to queued. Then [on_tick]
    sees exactly the streams still in the group that ticked, once each, in the
    order of the store, and the node ticks when there is one. *)
Theorem group_cycle_correct self (x : X) (g : GraphState) (ix : nat)
    (peek : X -> addr -> T) (ka kd : K) :
  store_ok (DynamicGroup.store (group self)) -> index_ok g -> current_node_index g = Some ix ->
  exists self' g',
  let c := contents (DynamicGroup.store (group self)) in
  let added := is_ticked g (add self) in
  let deleted := is_ticked g (del self) in
  let '(stream, xa) := factory self ka x in
  let c1 := if added then <[ka := stream]> c else c in
  let c2 := if deleted then delete kd c1 else c1 in
  let entries := store_entries (DynamicGroup.store (group self')) in
  cycle peek ka kd ((self, x), g) =
    (Ok (existsb (fun p => is_ticked g p.2) entries), ((self', if added then xa else x), g')) /\
  store_ok (DynamicGroup.store (group self')) /\
  contents (DynamicGroup.store (group self')) = c2 /\ entries ≡ₚ map_to_list c2 /\
  g' = requests g (if added then [mkPendingAddition stream ix true true] else [])
         (if deleted then option_list (c1 !! kd) else []) /\
  value self' = on_ticks self (peek (if added then xa else x)) (ticked_entries g entries)
    (if deleted then on_remove self (value self) kd else value self).
Proof.
  intros Hok Hix Hc. destruct (factory self ka x) as [stream xa] eqn:Hf.
  pose proof (cycle_run self x g ix peek ka kd stream xa Hok Hix Hc Hf) as Hrun. cbv zeta in Hrun.
  set (s' := store_after self g ka kd stream) in *.
  assert (Hs' : store_ok s' /\ contents s' =
    let c1 := contents_added self g ka stream in if is_ticked g (del self) then delete kd c1 else c1).
  { subst s'. unfold store_after, contents_added. destruct (is_ticked g (add self)), (is_ticked g (del self));
      split; rewrite ?remove_contents, ?insert_contents; eauto using insert_ok, remove_ok. }
  destruct Hs' as [Hok' Hcont].
  exists (set_value (put_store self s') (on_ticks self
    (peek (if is_ticked g (add self) then xa else x)) (ticked_entries g (store_entries s'))
    (value_before self g kd))), (state_after self g ix ka kd stream).
  cbv zeta. split_and!; [exact Hrun|done|exact Hcont| |done|done].
  etransitivity; [exact (entries_contents s' Hok')|]. by rewrite Hcont.
Qed.
End cycle.

Lemma index_ok_flags g ticks cur :
  index_ok g -> length ticks = length (nodes g) -> index_ok (set_current (set_node_ticked g ticks) cur).
Proof. by intros [_ Hi] Hl. Qed.

(** A node over a sorted map that collects what ticks, called in the diamond
    after every node ticked: [add] and [del] are its first two nodes, the group
    holds the other two. *)
Definition group_example : DynamicGroupStream.DynamicGroupStream (BTreeMap nat) nat nat (list nat) unit :=
  DynamicGroupStream.mk 1%positive 2%positive (fun k x => (Pos.of_nat (10 + k), x))
    (DynamicGroup.with_store (mkBTreeMap [(5, 3%positive); (7, 4%positive)]))
    (fun v k t => v ++ [k * t]) (fun v k => v ++ [k]) [].
Definition group_graph : GraphState :=
  set_current (set_node_ticked (state diamond_graph) [true; true; true; true]) (Some 3).

(** Key 6 is added, key 5 deleted: only the stream of key 7 is seen. *)
Lemma group_cycle_correct_witness :
  index_ok group_graph /\
  exists self' g',
    DynamicGroupStream.cycle (fun _ a => Pos.to_nat a) 6 5 ((group_example, tt), group_graph)
      = (Ok true, ((self', tt), g')) /\
    contents (DynamicGroup.store (DynamicGroupStream.group self')) =
      delete 5 (<[6 := 16%positive]> {[ 5 := 3%positive; 7 := 4%positive ]}) /\
    pending_removals g' = [3%positive] /\ DynamicGroupStream.value self' = [5; 28].
Proof.
  assert (Hix : index_ok group_graph).
  { apply index_ok_flags; [apply gw_index, diamond_graph_ok|]. vm_compute. reflexivity. }
  split; [exact Hix|].
  destruct (group_cycle_correct group_example tt group_graph 3 (fun _ a => Pos.to_nat a) 6 5)
    as (self' & g' & Hx).
  - repeat constructor.
  - exact Hix.
  - reflexivity.
  - assert (Ha : is_ticked group_graph (DynamicGroupStream.add group_example) = true)
      by (vm_compute; reflexivity).
    assert (Hd : is_ticked group_graph (DynamicGroupStream.del group_example) = true)
      by (vm_compute; reflexivity).
    cbv zeta in Hx. rewrite Ha, Hd in Hx. cbn [DynamicGroupStream.factory group_example] in Hx.
    destruct Hx as (Hrun & _ & Hc & _ & Hg & _).
    set (run := DynamicGroupStream.cycle _ _ _ _) in Hrun.
    assert (Hev : run.1 = Ok true /\ DynamicGroupStream.value run.2.1.1 = [5; 28])
      by (vm_compute; split; reflexivity).
    rewrite Hrun in Hev. destruct Hev as [Hr Hv]. simpl in Hr, Hv.
    exists self', g'. rewrite <-Hr. split_and!; [exact Hrun|exact Hc| |exact Hv].
    rewrite Hg. vm_compute. reflexivity.
Defined.

(** ** A key bound again *)

(** Inserting a key that is already in the group replaces its stream but
    does not ask for the replaced stream to be unwired; removing the key later
    unwires the new stream only. The replaced stream stays wired for good. *)
Theorem reinsert_keeps_replaced_wired {S K} `{Countable K, !StreamStore S K, !StoreLaws S K}
    (gr : DynamicGroup.DynamicGroup S) (g : GraphState) (ix : nat) (key : K) (old new : addr) :
  store_ok (DynamicGroup.store gr) -> current_node_index g = Some ix ->
  contents (DynamicGroup.store gr) !! key = Some old ->
  exists gr' g', 
    (do! DynamicGroup.insert key new in DynamicGroup.remove key) (gr, g) = (Ok tt, (gr', g')) /\
    contents (DynamicGroup.store gr') = delete key (contents (DynamicGroup.store gr)) /\
    pending_additions g' = pending_additions g ++ [mkPendingAddition new ix true true] /\
    pending_removals g' = pending_removals g ++ [new].
Proof.
  intros Hok Hc Hkey. eexists _, _. rewrite (mbind_ok _ _ _ _ _ (insert_run gr g ix key new Hc)).
  assert (Hok' := insert_ok _ key new Hok).
  rewrite remove_run by done. split_and!; [reflexivity|..]; simpl.
  - rewrite remove_contents, insert_contents by done. apply delete_insert_eq.
  - by rewrite app_nil_r.
  - rewrite insert_contents, lookup_insert_eq by done. by rewrite app_nil_r.
Qed.

Lemma reinsert_keeps_replaced_wired_witness :
  exists gr' g',
    (do! DynamicGroup.insert 5 9%positive in DynamicGroup.remove 5)
      (DynamicGroupStream.group group_example, group_graph) = (Ok tt, (gr', g')) /\
    pending_removals g' = [9%positive].
Proof.
  destruct (reinsert_keeps_replaced_wired (DynamicGroupStream.group group_example) group_graph 3 5
    3%positive 9%positive) as (gr' & g' & Hrun & _ & _ & Hp).
  - repeat constructor.
  - reflexivity.
  - vm_compute. reflexivity.
  - exists gr', g'. split; [exact Hrun|]. rewrite Hp. vm_compute. reflexivity.
Defined.
