(* ===== verification/TimeSlices.v ===== *)
(** * Slicing a historical window: [wingfoil/src/adapters/common.rs]

    The part the time-partitioned readers share: the run's window is cut into
    half-open slices, one query per slice, and the rows of a slice are filtered
    to the run's window. *)
From S2P Require Import Prelude NanoTime.
Local Open Scope Z_scope.

(** ** [TimeWindow] and [WindowFilter] *)

Record TimeWindow := mkWindow { lo : Z; hi : Z }.

Definition clamp (t0 t1 start finish : Z) : TimeWindow := mkWindow (Z.max t0 start) (Z.min t1 finish).

Definition contains (self : TimeWindow) (time : Z) : bool := (lo self <=? time) && (time <? hi self).

Record WindowFilter := mkFilter { label : string; window : TimeWindow; dropped : Z }.

Definition WindowFilter_new (label : string) (window : TimeWindow) : WindowFilter :=
  mkFilter label window 0.

Definition keep (self : WindowFilter) (time : Z) : bool * WindowFilter :=
  if contains (window self) time then (true, self)
  else (false, mkFilter (label self) (window self) (wrap_u64 (dropped self + 1))).

(** The warning [finish] logs, if any: its arguments. *)
Definition finish (self : WindowFilter) : option (string * Z * Z * Z) :=
  if 0 <? dropped self then Some (label self, dropped self, lo (window self), hi (window self))
  else None.

(** ** Slices *)

Definition DAY_NANOS : Z := 86400000000000.

Record Slice := mkSlice { sl_t0 : Z; sl_t1 : Z; kdb_date : Z; iteration : Z }.

(** The [loop] of one day, from [iteration]. [last]: [day == end_day]. *)
Fixpoint day_slices (fuel : nat) (last : bool) (end_kdb midnight_kdb next_midnight_kdb period_nanos
    date iteration : Z) : Res (list Slice) :=
  match fuel with
  | O => OutOfFuel
  | S fuel' =>
    let t0 := wrap_i64 (midnight_kdb + wrap_i64 (wrap_i64 iteration * period_nanos)) in
    if last && (end_kdb <=? t0) then Ok []
    else
      let natural_t1 := wrap_i64 (t0 + period_nanos) in
      let t1 := Z.min natural_t1 next_midnight_kdb in
      let s := mkSlice (NanoTime.from_kdb_timestamp t0) (NanoTime.from_kdb_timestamp t1) date iteration in
      if next_midnight_kdb <=? natural_t1 then Ok [s]
      else
        match day_slices fuel' last end_kdb midnight_kdb next_midnight_kdb period_nanos date
                (wrap_u64 (iteration + 1)) with
        | Ok rest => Ok (s :: rest)
        | r => r
        end
  end.

Fixpoint all_days (fuel : nat) (days : list Z) (start_day end_day start_kdb end_kdb period_nanos : Z)
  : Res (list Slice) :=
  match days with
  | [] => Ok []
  | day :: days' =>
    let midnight_kdb := wrap_i64 (day * DAY_NANOS) in
    let next_midnight_kdb := wrap_i64 (midnight_kdb + DAY_NANOS) in
    if (day =? start_day) && (period_nanos =? 0) then Panic "attempt to divide by zero"
    else
      let first :=
        if day =? start_day then wrap_u64 (Z.quot (wrap_i64 (start_kdb - midnight_kdb)) period_nanos)
        else 0 in
      match day_slices fuel (day =? end_day) end_kdb midnight_kdb next_midnight_kdb period_nanos
              ((day + 2 ^ 31) mod 2 ^ 32 - 2 ^ 31) first with
      | Ok l =>
        match all_days fuel days' start_day end_day start_kdb end_kdb period_nanos with
        | Ok rest => Ok (l ++ rest)
        | r => r
        end
      | r => r
      end
  end.

Definition compute_time_slices (fuel : nat) (start_time end_time : Z) (period : Duration)
  : Res (list Slice) :=
  let period_nanos := wrap_i64 (as_nanos period) in
  let start_kdb := NanoTime.to_kdb_timestamp start_time in
  let end_kdb := NanoTime.to_kdb_timestamp end_time in
  let start_day := start_kdb / DAY_NANOS in
  let end_day := wrap_i64 (end_kdb - 1) / DAY_NANOS in
  all_days fuel (seqZ start_day (end_day - start_day + 1)) start_day end_day start_kdb end_kdb
    period_nanos.

Definition compute_validated_time_slices (fuel : nat) (adapter : string) (start_time : Z)
    (end_time : Res Z) (period : Duration) : Res (list Slice) :=
  if as_nanos period =? 0 then Err (Msg (adapter +:+ ": period must be greater than zero"))
  else if start_time =? NanoTime.ZERO then
    Err (Msg (adapter +:+ ": start_time is NanoTime::ZERO; use RunMode::HistoricalFrom with an explicit start time"))
  else
    match end_time with
    | Ok t =>
      if t =? NanoTime.MAX then
        Err (Msg (adapter +:+ " requires RunFor::Duration; RunFor::Forever would generate an unbounded number of slices"))
      else compute_time_slices fuel start_time t period
    | Err _ =>
      Err (Msg (adapter +:+ " requires RunFor::Duration; RunFor::Cycles does not provide an end time"))
    | Panic w => Panic w
    | OutOfFuel => OutOfFuel
    end.

(** The repository's own case: eight hours from the kdb epoch, one day. *)
Example eight_hours :
  (fun r => match r with Ok l => length l | _ => 0%nat end)
    (compute_time_slices 10 946684800000000000 (946684800000000000 + DAY_NANOS - 1)
       (mkDuration 28800 0)) = 3%nat.
Proof. vm_compute. reflexivity. Qed.

(** ** Slices that tile an interval *)

Definition bounds (s : Slice) : Z * Z := (sl_t0 s, sl_t1 s).

Fixpoint tiles (a b : Z) (l : list (Z * Z)) : Prop :=
  match l with
  | [] => a = b
  | p :: l' => p.1 = a /\ p.1 < p.2 /\ tiles p.2 b l'
  end.

Lemma tiles_app a b c l1 l2 : tiles a b l1 -> tiles b c l2 -> tiles a c (l1 ++ l2).
Proof.
  revert a. induction l1 as [|p l1 IH]; intros a; simpl; [by intros ->|].
  intros (Ha & Hlt & Hl) H2. split_and!; [done..|]. by apply IH.
Qed.

Lemma tiles_le a b l : tiles a b l -> a <= b.
Proof.
  revert a. induction l as [|p l IH]; intros a; simpl; [lia|].
  intros (Ha & Hlt & Hl). apply IH in Hl. lia.
Qed.

Lemma tiles_within a b l p : tiles a b l -> p ∈ l -> a <= p.1 /\ p.1 < p.2 <= b.
Proof.
  revert a. induction l as [|q l IH]; intros a; simpl; [by intros _ ?%not_elem_of_nil|].
  intros (Ha & Hlt & Hl) [->|Hp]%elem_of_cons.
  - pose proof (tiles_le _ _ _ Hl). lia.
  - pose proof (IH _ Hl Hp). lia.
Qed.

Definition inside (t : Z) (p : Z * Z) : Prop := p.1 <= t < p.2.

(** Every point of the interval is in one tile, and in no other. *)
Lemma tiles_find a b l t : tiles a b l -> a <= t < b ->
  exists k, (exists p, l !! k = Some p /\ inside t p) /\
    forall k' p', l !! k' = Some p' -> inside t p' -> k' = k.
Proof.
  unfold inside. revert a. induction l as [|p l IH]; intros a; simpl; [lia|].
  intros (Ha & Hlt & Hl) Ht. destruct (decide (t < p.2)) as [Hin|Hout].
  - exists 0%nat. split; [exists p; split; [done|lia]|].
    intros [|k'] p' Hp' Hi; [done|]. simpl in Hp'. apply list_elem_of_lookup_2 in Hp'.
    pose proof (tiles_within _ _ _ _ Hl Hp'). lia.
  - destruct (IH _ Hl ltac:(lia)) as (k & Hk & Huniq). exists (S k). split; [done|].
    intros [|k'] p' Hp' Hi; simpl in Hp'; [simplify_eq; lia|]. f_equal. by eapply Huniq.
Qed.

(** ** One day *)

Abbreviation K := NanoTime.KDB_EPOCH_OFFSET_NANOS.

Lemma from_kdb_exact x : 0 <= x + K <= i64_max -> NanoTime.from_kdb_timestamp x = x + K.
Proof.
  unfold i64_max. intros Hx. unfold NanoTime.from_kdb_timestamp.
  rewrite wrap_i64_small by (unfold is_i64, i64_max; lia).
  apply wrap_u64_small. unfold is_u64, u64_max. lia.
Qed.

Lemma to_kdb_in_range t : 0 <= t <= i64_max -> NanoTime.to_kdb_timestamp t = t - K.
Proof.
  unfold i64_max. intros Ht. unfold NanoTime.to_kdb_timestamp.
  destruct (Z.eqb_spec t u64_max) as [->|_]; [unfold u64_max in Ht; lia|].
  rewrite !wrap_i64_small; [done|..]; unfold is_i64, i64_max, NanoTime.KDB_EPOCH_OFFSET_NANOS in *;
    rewrite ?wrap_i64_small; unfold is_i64, i64_max; lia.
Qed.

(** A slice of the day that starts at [m]. *)
Record good_slice (m p date : Z) (s : Slice) : Prop := {
  gs_end : sl_t1 s = Z.min (m + iteration s * p + p) (m + DAY_NANOS) + K;
  gs_date : kdb_date s = date;
  gs_start : sl_t0 s = m + iteration s * p + K;
  gs_day : m + K <= sl_t0 s < sl_t1 s /\ sl_t1 s <= m + DAY_NANOS + K }.

Lemma day_slices_spec fuel last e m p date it :
  0 < p -> 0 <= it -> it * p < DAY_NANOS -> - K <= m -> m + DAY_NANOS + p + K <= i64_max ->
  (last = true -> e <= m + DAY_NANOS) -> DAY_NANOS - it * p <= Z.of_nat fuel * p ->
  exists l h, day_slices fuel last e m (m + DAY_NANOS) p date it = Ok l /\
    tiles (m + it * p + K) h (bounds <$> l) /\
    (if last then e + K <= h else h = m + DAY_NANOS + K) /\
    Forall (fun s => good_slice m p date s /\ (last = true -> sl_t0 s < e + K)) l.
Proof.
  intros Hp. revert it. induction fuel as [|fuel IH]; intros it Hit Hin Hm Hmax He Hf; [lia|].
  assert (Hsmall : it <= it * p) by nia.
  assert (Hr : forall x, - K <= x -> x + K <= i64_max -> wrap_i64 x = x).
  { unfold NanoTime.KDB_EPOCH_OFFSET_NANOS, i64_max. intros x H1 H2.
    apply wrap_i64_small. unfold is_i64, i64_max. lia. }
  assert (HK : K > 0 /\ DAY_NANOS > 0 /\ DAY_NANOS + K <= i64_max) by (vm_compute; done).
  cbn [day_slices].
  rewrite (Hr it), (Hr (it * p)), (Hr (m + it * p)), (Hr (m + it * p + p)) by lia.
  destruct (last && (e <=? m + it * p)) eqn:Hstop.
  { apply andb_true_iff in Hstop as [-> Hle%Z.leb_le]. exists [], (m + it * p + K).
    split_and!; [done|done|lia|by constructor]. }
  rewrite !from_kdb_exact by lia.
  assert (Hgood : good_slice m p date (mkSlice (m + it * p + K)
    (Z.min (m + it * p + p) (m + DAY_NANOS) + K) date it)) by (split; simpl; lia).
  assert (Hstart : last = true -> m + it * p + K < e + K).
  { intros ->. simpl in Hstop. apply Z.leb_gt in Hstop. lia. }
  destruct (Z.leb_spec (m + DAY_NANOS) (m + it * p + p)) as [Hend|Hmore].
  - eexists [_], _. split_and!; [done|simpl; split_and!; [done|lia|done]| |by constructor].
    destruct last; simpl; [specialize (He eq_refl)|]; lia.
  - rewrite wrap_u64_small by (unfold is_u64, u64_max, DAY_NANOS in *; nia).
    destruct (IH (it + 1)) as (l & h & -> & Ht & Hh & Hall); [lia|lia|lia|lia|done|lia|].
    eexists (_ :: l), h. split_and!; [done| |done|by constructor].
    simpl. split_and!; [done|lia|]. replace (Z.min _ _) with (m + (it + 1) * p) by lia. done.
Qed.

(** ** All days *)

Section days.
Context (st e p : Z).
Context (Hp : 0 < p) (Hlow : - K <= st) (Hmax : e + 2 * DAY_NANOS + p + K <= i64_max).
Let sd := st / DAY_NANOS.
Let ed := (e - 1) / DAY_NANOS.

Definition first_iteration (day : Z) : Z := if day =? sd then (st - day * DAY_NANOS) / p else 0.

Definition run_slice (s : Slice) : Prop :=
  exists day, sd <= day <= ed /\ good_slice (day * DAY_NANOS) p day s /\ sl_t0 s < e + K.

Lemma day_numbers day : sd <= day <= ed ->
  - K <= day * DAY_NANOS /\ day * DAY_NANOS < e /\ (day < ed -> (day + 1) * DAY_NANOS <= e - 1) /\
  e <= (ed + 1) * DAY_NANOS /\ - 2 ^ 31 <= day < 2 ^ 31.
Proof.
  intros Hd. subst sd ed. pose proof (Z.div_mod (e - 1) DAY_NANOS ltac:(done)).
  pose proof (Z.mod_pos_bound (e - 1) DAY_NANOS ltac:(done)).
  pose proof (Z.div_mod st DAY_NANOS ltac:(done)).
  pose proof (Z.mod_pos_bound st DAY_NANOS ltac:(done)).
  unfold NanoTime.KDB_EPOCH_OFFSET_NANOS, DAY_NANOS, i64_max in *. lia.
Qed.

Lemma first_iteration_bounds day : sd <= day <= ed ->
  0 <= first_iteration day /\ first_iteration day * p < DAY_NANOS /\
  (day = sd -> day * DAY_NANOS + first_iteration day * p <= st <
               day * DAY_NANOS + first_iteration day * p + p) /\ 
  (day <> sd -> first_iteration day = 0).
Proof.
  intros Hd. unfold first_iteration. destruct (Z.eqb_spec day sd) as [->|Hne].
  - pose proof (Z.div_mod st DAY_NANOS ltac:(done)) as H1.
    pose proof (Z.mod_pos_bound st DAY_NANOS ltac:(done)) as H2.
    replace (st - sd * DAY_NANOS) with (st mod DAY_NANOS) by (subst sd; lia).
    set (r := st mod DAY_NANOS) in *.
    pose proof (Z.div_mod r p ltac:(lia)) as H3. pose proof (Z.mod_pos_bound r p Hp) as H4.
    assert (Heq : sd * DAY_NANOS + r = st) by (subst sd r; lia).
    split_and!; [apply Z.div_pos; lia|lia|intros _; lia|done].
  - split_and!; [done|by vm_compute|done|done].
Qed.

Context (fuel : nat) (Hfuel : DAY_NANOS <= Z.of_nat fuel * p).

(** The step of a day, with nothing wrapping around. *)
Lemma all_days_cons day days : sd <= day <= ed ->
  all_days fuel (day :: days) sd ed st e p =
  match day_slices fuel (day =? ed) e (day * DAY_NANOS) (day * DAY_NANOS + DAY_NANOS) p day
          (first_iteration day) with
  | Ok l => match all_days fuel days sd ed st e p with Ok rest => Ok (l ++ rest) | r => r end
  | r => r
  end.
Proof.
  intros Hd. destruct (day_numbers day Hd) as (H1 & H2 & _ & _ & H5).
  destruct (first_iteration_bounds day Hd) as (Hf1 & Hf2 & Hf3 & _).
  assert (Hr : forall x, - K <= x -> x <= i64_max -> wrap_i64 x = x).
  { unfold NanoTime.KDB_EPOCH_OFFSET_NANOS, i64_max. intros x Hx1 Hx2.
    apply wrap_i64_small. unfold is_i64, i64_max. lia. }
  assert (HK : K > 0 /\ DAY_NANOS > 0) by (vm_compute; done).
  cbn [all_days]. rewrite (Hr (day * DAY_NANOS)), (Hr (day * DAY_NANOS + DAY_NANOS)) by lia.
  replace (p =? 0) with false by lia. rewrite andb_false_r.
  replace ((day + 2 ^ 31) mod 2 ^ 32 - 2 ^ 31) with day by (rewrite Z.mod_small; lia).
  assert (Hfirst : (if day =? sd then wrap_u64 (wrap_i64 (st - day * DAY_NANOS) ÷ p) else 0) =
    first_iteration day).
  { unfold first_iteration in *. destruct (Z.eqb_spec day sd) as [Heq|]; [|done].
    specialize (Hf3 Heq). assert (Hst : 0 <= st - day * DAY_NANOS < DAY_NANOS).
    { rewrite Heq. subst sd. pose proof (Z.div_mod st DAY_NANOS ltac:(done)).
      pose proof (Z.mod_pos_bound st DAY_NANOS ltac:(done)). lia. }
    rewrite Hr by lia. rewrite Z.quot_div_nonneg by lia. apply wrap_u64_small.
    unfold is_u64, u64_max. assert ((st - day * DAY_NANOS) / p <= st - day * DAY_NANOS).
    { apply Z.div_le_upper_bound; nia. }
    unfold DAY_NANOS in *. lia. }
  by rewrite Hfirst.
Qed.

Lemma all_days_spec n day :
  sd <= day -> day + Z.of_nat n = ed ->
  exists l h, all_days fuel (seqZ day (Z.of_nat (S n))) sd ed st e p = Ok l /\
    tiles (day * DAY_NANOS + first_iteration day * p + K) h (bounds <$> l) /\
    e + K <= h /\ Forall run_slice l.
Proof.
  revert day. induction n as [|n IH]; intros day Hsd Hed; rewrite seqZ_cons by lia.
  all: destruct (day_numbers day ltac:(lia)) as (H1 & H2 & H3 & H4 & _).
  all: destruct (first_iteration_bounds day ltac:(lia)) as (Hf1 & Hf2 & _).
  all: assert (HK : K > 0 /\ DAY_NANOS > 0) by (vm_compute; done).
  all: rewrite all_days_cons by lia.
  all: assert (He : (day =? ed) = true -> e <= day * DAY_NANOS + DAY_NANOS) by lia.
  all: destruct (day_slices_spec fuel (day =? ed) e (day * DAY_NANOS) p day (first_iteration day))
    as (l & h & -> & Ht & Hh & Hall); [lia|lia|lia|lia|lia|exact He|lia|].
  all: assert (Hgood : Forall run_slice l) by
    (eapply Forall_impl; [exact Hall|]; intros s [Hg Hs]; exists day; split_and!; [lia|lia|exact Hg|];
     pose proof (gs_day _ _ _ _ Hg); destruct (Z.eqb_spec day ed); [by apply Hs|lia]).
  - replace (day =? ed) with true in * by lia. rewrite seqZ_nil by lia. simpl.
    exists l, h. by rewrite app_nil_r.
  - replace (day =? ed) with false in * by lia. 
    replace (Z.pred (Z.of_nat (S (S n)))) with (Z.of_nat (S n)) by lia.
    destruct (IH (Z.succ day)) as (l2 & h2 & -> & Ht2 & Hh2 & Hall2); [lia|lia|].
    exists (l ++ l2), h2. split_and!; [done| |done|by apply Forall_app].
    rewrite fmap_app. eapply tiles_app; [done|].
    destruct (first_iteration_bounds (Z.succ day) ltac:(lia)) as (_ & _ & _ & Hz).
    rewrite Hz in Ht2 by lia. replace h with (Z.succ day * DAY_NANOS + 0 * p + K) by lia. done.
Qed.
End days.

Lemma day_after x : x < (x / DAY_NANOS + 1) * DAY_NANOS.
Proof.
  pose proof (Z.div_mod x DAY_NANOS ltac:(done)). pose proof (Z.mod_pos_bound x DAY_NANOS ltac:(done)). lia.
Qed.

(** The slices of a run, from the code's arguments. *)
Lemma compute_time_slices_spec fuel start finish period :
  0 < as_nanos period -> 0 <= start < finish ->
  finish + 2 * DAY_NANOS + as_nanos period <= i64_max ->
  DAY_NANOS <= Z.of_nat fuel * as_nanos period ->
  exists l a b, compute_time_slices fuel start finish period = Ok l /\
    tiles a b (bounds <$> l) /\ a <= start /\ (forall q, q ∈ bounds <$> l -> start < q.2) /\ finish <= b /\
    Forall (run_slice (start - K) (finish - K) (as_nanos period)) l.
Proof.
  intros Hp Hst Hmax Hfuel. set (p := as_nanos period) in *. unfold compute_time_slices.
  assert (HK : K > 0 /\ DAY_NANOS > 0) by (vm_compute; done).
  rewrite !to_kdb_in_range by lia. fold p.
  rewrite (wrap_i64_small p) by (unfold is_i64, i64_max in *; lia).
  rewrite (wrap_i64_small (finish - K - 1))
    by (unfold is_i64, NanoTime.KDB_EPOCH_OFFSET_NANOS, i64_max, DAY_NANOS in *; lia).
  set (st := start - K). set (e := finish - K).
  assert (Hle : st / DAY_NANOS <= (e - 1) / DAY_NANOS) by (apply Z.div_le_mono; [lia|subst st e; lia]).
  destruct (all_days_spec st e p Hp ltac:(subst st; lia) ltac:(subst e; lia) fuel Hfuel
    (Z.to_nat ((e - 1) / DAY_NANOS - st / DAY_NANOS)) (st / DAY_NANOS)) as (l & h & Hrun & Ht & Hh & Hall);
    [lia|lia|].
  replace (Z.of_nat (S _)) with ((e - 1) / DAY_NANOS - st / DAY_NANOS + 1) in Hrun by lia.
  destruct (first_iteration_bounds st e p Hp (st / DAY_NANOS)) as (_ & _ & Hf & _); [lia|]. specialize (Hf eq_refl).
  eexists l, _, h. split_and!; [exact Hrun|exact Ht|subst st; lia| |subst e; lia|exact Hall].
  intros q (s & -> & Hs)%list_elem_of_fmap.
  pose proof (tiles_within _ _ _ _ Ht (list_elem_of_fmap_2 bounds _ _ Hs)) as Hw.
  rewrite Forall_forall in Hall. destruct (Hall s Hs) as (day & Hday & [Hend _ Hbeg Hin] & _).
  simpl in *. destruct (decide (day = st / DAY_NANOS)) as [->|Hne].
  - pose proof (day_after st). nia.
  - pose proof (day_after st). assert (st / DAY_NANOS + 1 <= day) by lia. nia.
Qed.

Definition kept (l : list Slice) (start finish t : Z) (k : nat) : Prop :=
  exists s, l !! k = Some s /\ contains (clamp (sl_t0 s) (sl_t1 s) start finish) t = true.

Lemma contains_clamp s start finish t :
  contains (clamp (sl_t0 s) (sl_t1 s) start finish) t = true <->
  inside t (bounds s) /\ start <= t < finish.
Proof. unfold contains, clamp, inside. simpl. rewrite andb_true_iff, Z.leb_le, Z.ltb_lt. lia. Qed.

(** Filtering the tiles to the window keeps each of its points once. *)
Lemma kept_once l a b start finish t :
  tiles a b (bounds <$> l) -> a <= start -> finish <= b ->
  (start <= t < finish -> exists k, kept l start finish t k /\ forall k', kept l start finish t k' -> k' = k) /\
  (~ (start <= t < finish) -> forall k, ~ kept l start finish t k).
Proof.
  intros Ht Ha Hb. split.
  - intros Hin. destruct (tiles_find _ _ _ t Ht ltac:(lia)) as (k & (q & Hk & Hq) & Huniq).
    rewrite list_lookup_fmap in Hk. apply fmap_Some in Hk as (s & Hs & ->).
    exists k. split; [exists s; by rewrite contains_clamp|].
    intros k' (s' & Hs' & [Hin' _]%contains_clamp). apply (Huniq _ (bounds s')); [|done].
    by rewrite list_lookup_fmap, Hs'.
  - intros Hout k (s & _ & [_ Hin]%contains_clamp). done.
Qed.

(** C35: For a period and a window of the run in range, the window is cut into
    slices, none empty, none longer than the period, none across a midnight,
    none wholly outside the window; each starts a whole number of periods, its
    iteration, after the midnight of its date. Filtered to the run's window, the
    slices partition it: a row inside the window is kept by exactly one slice, a
    row outside it by none. *)
Theorem time_slices_partition fuel start finish period :
  0 < as_nanos period -> 0 <= start < finish ->
  finish + 2 * DAY_NANOS + as_nanos period <= i64_max ->
  DAY_NANOS <= Z.of_nat fuel * as_nanos period ->
  exists l, compute_time_slices fuel start finish period = Ok l /\
  (forall s, s ∈ l ->
     sl_t0 s < sl_t1 s /\ sl_t1 s - sl_t0 s <= as_nanos period /\ start < sl_t1 s /\ sl_t0 s < finish /\
     (sl_t0 s - K) / DAY_NANOS = kdb_date s /\ (sl_t1 s - 1 - K) / DAY_NANOS = kdb_date s /\
     sl_t0 s = kdb_date s * DAY_NANOS + iteration s * as_nanos period + K) /\
  forall t,
    (start <= t < finish ->
       exists k, kept l start finish t k /\ forall k', kept l start finish t k' -> k' = k) /\
    (~ (start <= t < finish) -> forall k, ~ kept l start finish t k).
Proof.
  intros Hp Hst Hmax Hfuel.
  destruct (compute_time_slices_spec fuel start finish period Hp Hst Hmax Hfuel)
    as (l & a & b & Hrun & Ht & Ha & Hend & Hb & Hall).
  exists l. split_and!; [done| |intros t; by eapply kept_once].
  intros s Hs. rewrite Forall_forall in Hall.
  destruct (Hall s Hs) as (day & _ & [He Hd Hbeg Hin] & Hfin).
  pose proof (Hend _ (list_elem_of_fmap_2 bounds _ _ Hs)) as Hafter. simpl in Hafter.
  assert (Hday : forall x, day * DAY_NANOS <= x < day * DAY_NANOS + DAY_NANOS -> x / DAY_NANOS = day).
  { intros x Hx. symmetry. apply (Z.div_unique _ _ _ (x - day * DAY_NANOS)); lia. }
  rewrite Hd, !Hday by lia. lia.
Qed.

(** Five-hour slices from ten past noon on the kdb epoch to noon the next day: six
    of them, the third clamped at midnight. *)
Lemma time_slices_partition_witness :
  let start := K + 43800000000000 in let finish := K + DAY_NANOS + 43200000000000 in
  exists l, compute_time_slices 5 start finish (mkDuration 18000 0) = Ok l /\
    (iteration <$> l) = [2; 3; 4; 0; 1; 2] /\
    exists k, kept l start finish (K + DAY_NANOS) k /\
      forall k', kept l start finish (K + DAY_NANOS) k' -> k' = k.
Proof.
  cbv zeta.
  destruct (time_slices_partition 5 (K + 43800000000000) (K + DAY_NANOS + 43200000000000)
    (mkDuration 18000 0)) as (l & Hrun & _ & Hkept).
  - vm_compute. reflexivity.
  - vm_compute. split; [discriminate|reflexivity].
  - vm_compute. discriminate.
  - vm_compute. discriminate.
  - exists l. split_and!; [exact Hrun| |apply Hkept; vm_compute; split; [discriminate|reflexivity]].
    assert (Hev : (match compute_time_slices 5 (K + 43800000000000) (K + DAY_NANOS + 43200000000000)
      (mkDuration 18000 0) with Ok l => iteration <$> l | _ => [] end) = [2; 3; 4; 0; 1; 2])
      by (vm_compute; reflexivity).
    rewrite Hrun in Hev. exact Hev.
Defined.
