(* ===== verification/Utf8.v ===== *)
(** * UTF-8, as the standard library reads it

    [str::from_utf8] accepts a text or not, [String::from_utf8_lossy] replaces what
    is not text. *)
From S2P Require Import Prelude.
From Stdlib Require Import Strings.Ascii.
Local Open Scope N_scope.

Abbreviation bytes := (list ascii).

(** [str::from_utf8(..).is_ok()]. *)
Definition between (lo hi : N) (c : ascii) : bool := (lo <=? N_of_ascii c) && (N_of_ascii c <=? hi).
Definition continuation : ascii -> bool := between 128 191.
Fixpoint utf8_valid (s : bytes) : bool :=
  match s with
  | [] => true
  | c :: s1 =>
    if N_of_ascii c <? 128 then utf8_valid s1
    else
      match s1 with
      | [] => false
      | c1 :: s2 =>
        if between 194 223 c then continuation c1 && utf8_valid s2
        else
          match s2 with
          | [] => false
          | c2 :: s3 =>
            if between 224 239 c then
              (if N_of_ascii c =? 224 then between 160 191 c1
               else if N_of_ascii c =? 237 then between 128 159 c1
               else continuation c1) && continuation c2 && utf8_valid s3
            else
              match s3 with
              | [] => false
              | c3 :: s4 =>
                between 240 244 c &&
                (if N_of_ascii c =? 240 then between 144 191 c1
                 else if N_of_ascii c =? 244 then between 128 143 c1
                 else continuation c1) && continuation c2 && continuation c3 && utf8_valid s4
              end
          end
      end
  end.

(** The character at the head of the bytes, or what [Utf8Chunks] takes for one
    error: whether it is valid, and its length. A byte past the end reads as zero. *)
Definition chunk_head (s : bytes) : bool * nat :=
  let c := nth 0 s zero in
  let c1 := nth 1 s zero in
  let tail2 := if continuation (nth 2 s zero) then (true, 3%nat) else (false, 2%nat) in
  let tail3 :=
    if continuation (nth 2 s zero)
    then if continuation (nth 3 s zero) then (true, 4%nat) else (false, 3%nat)
    else (false, 2%nat) in
  if N_of_ascii c <? 128 then (true, 1%nat)
  else if between 194 223 c then if continuation c1 then (true, 2%nat) else (false, 1%nat)
  else if between 224 239 c then
    if (if N_of_ascii c =? 224 then between 160 191 c1
        else if N_of_ascii c =? 237 then between 128 159 c1
        else continuation c1)
    then tail2 else (false, 1%nat)
  else if between 240 244 c then
    if (if N_of_ascii c =? 240 then between 144 191 c1
        else if N_of_ascii c =? 244 then between 128 143 c1
        else continuation c1)
    then tail3 else (false, 1%nat)
  else (false, 1%nat).

(** U+FFFD. *)
Definition REPLACEMENT : bytes := [ascii_of_N 239; ascii_of_N 191; ascii_of_N 189].

Fixpoint lossy_loop (fuel : nat) (s : bytes) : bytes :=
  match fuel, s with
  | S fuel', _ :: _ =>
    let '(ok, n) := chunk_head s in
    (if ok : bool then take n s else REPLACEMENT) ++ lossy_loop fuel' (drop n s)
  | _, _ => []
  end.

(** [String::from_utf8_lossy]: every round consumes a byte. *)
Definition from_utf8_lossy (s : bytes) : bytes := lossy_loop (length s) s.

(** Text starts with a valid character, and text follows. *)
Lemma chunk_head_valid c s : utf8_valid (c :: s) = true ->
  exists n, chunk_head (c :: s) = (true, S n) /\ utf8_valid (drop n s) = true.
Proof.
  unfold chunk_head. cbn [utf8_valid nth]. destruct (N_of_ascii c <? 128); [by exists 0%nat|].
  destruct s as [|c1 s]; [done|]. cbn [nth].
  destruct (between 194 223 c); [intros [-> Hs]%andb_true_iff; by exists 1%nat|].
  destruct s as [|c2 s]; [done|]. cbn [nth].
  destruct (between 224 239 c).
  { intros [[-> ->]%andb_true_iff Hs]%andb_true_iff. by exists 2%nat. }
  destruct s as [|c3 s]; [done|]. cbn [nth].
  intros [[[[-> ->]%andb_true_iff ->]%andb_true_iff ->]%andb_true_iff Hs]%andb_true_iff. by exists 3%nat.
Qed.

(** What is text is not changed. *)
Lemma lossy_loop_valid fuel s : (length s <= fuel)%nat -> utf8_valid s = true -> lossy_loop fuel s = s.
Proof.
  revert s. induction fuel as [|fuel IH]; intros s Hf Hs; [by destruct s; [|simpl in Hf; lia]|].
  destruct s as [|c s]; [done|]. cbn [lossy_loop].
  apply chunk_head_valid in Hs as (n & -> & Hs). cbn [take drop]. rewrite IH; [|rewrite length_drop; simpl in Hf; lia|done].
  cbn [app]. by rewrite take_drop.
Qed.

Lemma from_utf8_lossy_valid s : utf8_valid s = true -> from_utf8_lossy s = s.
Proof. intros Hs. by apply lossy_loop_valid. Qed.

Example lossy_example :
  from_utf8_lossy (map ascii_of_N [104; 255; 226; 130; 105]) = map ascii_of_N [104] ++ REPLACEMENT ++ REPLACEMENT ++ map ascii_of_N [105].
Proof. vm_compute. reflexivity. Qed.
