(* ===== verification/Fix.v ===== *)
(** * The FIX adapter, codec and session: [wingfoil/src/adapters/fix/mod.rs]

    Strings and buffers are lists of bytes. The socket, the wall clock and what
    else the session's thread touches are the world [W] of the class [Wire]; the
    caller's logon builder is a function. *)
From S2P Require Import Prelude NanoTime.
From S2P Require Export Utf8.
From Stdlib Require Export Ascii.
Local Open Scope N_scope.

Abbreviation bytes := (list ascii).

(** A string literal's bytes. *)
Definition str (s : string) : bytes := String.list_ascii_of_string s.

(** ** Standard library: decimal numbers *)

Definition digit (d : N) : ascii := ascii_of_N (48 + d).
Definition digit_value (c : ascii) : option N :=
  let n := N_of_ascii c in if (48 <=? n) && (n <=? 57) then Some (n - 48) else None.

(** [u64::to_string]. *)
Fixpoint decimal (fuel : nat) (n : N) : bytes :=
  match fuel with
  | O => []
  | S fuel' => if n <? 10 then [digit n] else decimal fuel' (n / 10) ++ [digit (n mod 10)]
  end.
Definition to_string (n : N) : bytes := decimal (S (N.to_nat (N.size n))) n.

(** [format!("{n:03}")] of a byte. *)
Definition pad3 (n : N) : bytes := [digit (n / 100); digit (n / 10 mod 10); digit (n mod 10)].

(** [str::parse] at an unsigned type whose greatest value is [max]: an optional
    plus sign, at least one digit, no overflow. *)
Fixpoint parse_digits (max acc : N) (s : bytes) : option N :=
  match s with
  | [] => Some acc
  | c :: s' =>
    match digit_value c with
    | None => None
    | Some d => let acc' := acc * 10 + d in if max <? acc' then None else parse_digits max acc' s'
    end
  end.
Definition parse (max : N) (s : bytes) : option N :=
  match s with
  | [] => None
  | c :: s' =>
    if bool_decide (c = "+"%char) then match s' with [] => None | _ => parse_digits max 0 s' end
    else parse_digits max 0 s
  end.
Definition u32_limit : N := 2 ^ 32 - 1.
Definition u64_limit : N := 2 ^ 64 - 1.

(** ** Constants *)

Definition TAG_BODY_LENGTH : N := 9.
Definition TAG_MSG_TYPE : N := 35.
Definition TAG_SENDER_COMP_ID : N := 49.
Definition TAG_TARGET_COMP_ID : N := 56.
Definition TAG_MSG_SEQ_NUM : N := 34.
Definition TAG_SENDING_TIME : N := 52.
Definition TAG_CHECKSUM : N := 10.
Definition TAG_BEGIN_STRING : N := 8.
Definition TAG_HEARTBT_INT : N := 108.
Definition TAG_TEST_REQ_ID : N := 112.
Definition TAG_ENCRYPT_METHOD : N := 98.
Definition TAG_USERNAME : N := 553.
Definition TAG_PASSWORD : N := 554.
Definition TAG_RESET_SEQ_NUM_FLAG : N := 141.
Definition TAG_TEXT : N := 58.
Definition MSG_HEARTBEAT : bytes := str "0".
Definition MSG_TEST_REQUEST : bytes := str "1".
Definition MSG_LOGON : bytes := str "A".
Definition MSG_LOGOUT : bytes := str "5".
Definition SOH : ascii := "001"%char.
Definition EQUALS : ascii := "="%char.
Definition BEGIN_STRING : bytes := str "FIX.4.4".
Definition HEARTBEAT_INTERVAL : N := 30.
Definition HEADER_TAGS : list N :=
  [TAG_BEGIN_STRING; TAG_BODY_LENGTH; TAG_MSG_TYPE; TAG_SENDER_COMP_ID; TAG_TARGET_COMP_ID;
   TAG_MSG_SEQ_NUM; TAG_SENDING_TIME; TAG_CHECKSUM].

(** ** Messages and events *)

Abbreviation field := (N * bytes)%type.

Record FixMessage := mkFix { msg_type : bytes; seq_num : N; sending_time : Z; fields : list field }.
Definition FixMessage_default : FixMessage := mkFix [] 0 NanoTime.ZERO [].

(** The first field with a tag. *)
Definition find_tag (tag : N) (l : list field) : option bytes :=
  snd <$> head (filter (fun f => f.1 = tag) l).
Definition get_field (m : FixMessage) (tag : N) : option bytes := find_tag tag (fields m).

Inductive FixSessionStatus :=
| Disconnected | LoggingIn | LoggedIn
| LoggedOut (reason : option bytes)
| StatusError (why : Error).

Inductive FixEvent := Data (m : FixMessage) | Status (s : FixSessionStatus).

Record LogonContext := mkLogonContext {
  lc_msg_type : bytes; lc_sender_comp_id : bytes; lc_target_comp_id : bytes;
  lc_msg_seq_num : N; lc_sending_time : bytes }.

Inductive FixLogon :=
| LogonNone
| Password (pwd : bytes)
| Custom (builder : LogonContext -> list field).
Definition FixLogon_from (password : option bytes) : FixLogon :=
  match password with Some p => Password p | None => LogonNone end.

(** ** The codec *)

(** What [append_field] appends. *)
Definition field_bytes (f : field) : bytes := to_string f.1 ++ EQUALS :: f.2 ++ [SOH].
Definition append_field (buf : bytes) (tag : N) (value : bytes) : bytes := buf ++ field_bytes (tag, value).

(** [iter().fold(0u8, |a, &b| a.wrapping_add(b))]. *)
Definition checksum (out : bytes) : N := foldl (fun a b => (a + N_of_ascii b) mod 256) 0 out.

Definition encode_message (msg_type sender target : bytes) (seq : N) (sending_time : bytes)
    (extra : list field) : bytes :=
  let body := append_field [] TAG_MSG_TYPE msg_type in
  let body := append_field body TAG_SENDER_COMP_ID sender in
  let body := append_field body TAG_TARGET_COMP_ID target in
  let body := append_field body TAG_MSG_SEQ_NUM (to_string seq) in
  let body := append_field body TAG_SENDING_TIME sending_time in
  let body := foldl (fun b f => append_field b f.1 f.2) body extra in
  let out := append_field [] TAG_BEGIN_STRING BEGIN_STRING in
  let out := append_field out TAG_BODY_LENGTH (to_string (N.of_nat (length body))) in
  let out := out ++ body in
  append_field out TAG_CHECKSUM (pad3 (checksum out)).

(** The [while] loop of [decode_fields] on the bytes from [pos] on: each round
    consumes at least one, so as many rounds as bytes are enough. *)
Fixpoint decode_loop (fuel : nat) (data : bytes) : list field :=
  match fuel with
  | O => []
  | S fuel' =>
    match split_at EQUALS data with
    | None => []
    | Some (tag_bytes, rest) =>
      match (if utf8_valid tag_bytes then parse u32_limit tag_bytes else None) with
      | None => decode_loop fuel' rest
      | Some tag =>
        match split_at SOH rest with
        | None => []
        | Some (v, rest') =>
          (tag, if utf8_valid v then v else []) :: decode_loop fuel' rest'
        end
      end
    end
  end.
Definition decode_fields (data : bytes) : list field := decode_loop (length data) data.

Definition build_message (all : list field) : option FixMessage :=
  match find_tag TAG_MSG_TYPE all with
  | None => None
  | Some mt =>
    let seq := default 0 (match find_tag TAG_MSG_SEQ_NUM all with Some v => parse u64_limit v | None => None end) in
    Some (mkFix mt seq NanoTime.ZERO (filter (fun f => f.1 ∉ HEADER_TAGS) all))
  end.

(** [buf.windows(pattern.len()).position(|w| w == pattern)], for a pattern that
    is not empty. *)
Fixpoint find_sub (pattern buf : bytes) : option nat :=
  match buf with
  | [] => None
  | _ :: buf' =>
    if bool_decide (take (length pattern) buf = pattern) then Some 0%nat
    else S <$> find_sub pattern buf'
  end.

Definition FRAME_PATTERN : bytes := SOH :: str "10=".

Definition find_message (buf : bytes) : option (bytes * nat) :=
  match find_sub FRAME_PATTERN buf with
  | None => None
  | Some pos =>
    let val_start := (pos + length FRAME_PATTERN)%nat in
    match split_at SOH (drop val_start buf) with
    | None => None
    | Some (v, _) =>
      let end_ := (val_start + length v + 1)%nat in Some (take end_ buf, end_)
    end
  end.

(** ** The session *)

(** A socket, with the thread's clock: [Write] and [Read] of the standard
    library, [chrono]'s formatted current time. *)
Inductive ReadResult :=
| RData (data : bytes)  (** [Ok(n)], [n > 0] *)
| REof                  (** [Ok(0)] *)
| RWouldBlock
| RTimedOut
| RReset                (** [ConnectionReset] or [BrokenPipe] *)
| ROther (e : Error).

Class Wire (W : Type) := {
  write_all : bytes -> M W unit;
  flush : M W unit;
  read : W -> ReadResult * W;
  set_nonblocking : M W unit;
  now_sending_time : W -> bytes * W }.

Record FixSession := mkSession {
  sender_comp_id : bytes; target_comp_id : bytes; out_seq : N; logon : FixLogon }.

Module FixSession.
Definition new_with_logon (sender target : bytes) (l : FixLogon) : FixSession :=
  mkSession sender target 0 l.
Definition new (sender target : bytes) : FixSession := new_with_logon sender target LogonNone.

Section session.
Context {W : Type} `{Wire W}.

(** A call on the socket, [self] untouched. *)
Definition on_sock {A} (m : M W A) : M (FixSession * W) A := fun s =>
  let '(r, w) := m s.2 in (r, (s.1, w)).

Definition write_encoded (mt time : bytes) (extra : list field) : M (FixSession * W) unit :=
  let! s := mget in
  let self := s.1 in
  let bs := encode_message mt (sender_comp_id self) (target_comp_id self) (out_seq self) time extra in
  do! on_sock (write_all bs) in
  on_sock flush.

Definition send_with (mt : bytes) (build_extra : N -> bytes -> list field) : M (FixSession * W) unit :=
  do! mmodify (fun '(self, w) =>
        (mkSession (sender_comp_id self) (target_comp_id self) ((out_seq self + 1) mod 2 ^ 64) (logon self), w)) in
  let! s := mget in
  let '(time, w) := now_sending_time s.2 in
  do! mmodify (fun s => (s.1, w)) in
  write_encoded mt time (build_extra (out_seq s.1) time).

Definition send (mt : bytes) (extra : list field) : M (FixSession * W) unit :=
  do! mmodify (fun '(self, w) =>
        (mkSession (sender_comp_id self) (target_comp_id self) ((out_seq self + 1) mod 2 ^ 64) (logon self), w)) in
  let! s := mget in
  let '(time, w) := now_sending_time s.2 in
  do! mmodify (fun s => (s.1, w)) in
  write_encoded mt time extra.

(** The fields of the Logon message. *)
Definition logon_fields (self : FixSession) (seq : N) (time : bytes) : list field :=
  [(TAG_ENCRYPT_METHOD, str "0"); (TAG_HEARTBT_INT, to_string HEARTBEAT_INTERVAL);
   (TAG_RESET_SEQ_NUM_FLAG, str "Y")] ++
  match logon self with
  | LogonNone => []
  | Password pwd => [(TAG_USERNAME, sender_comp_id self); (TAG_PASSWORD, pwd)]
  | Custom builder =>
    builder (mkLogonContext MSG_LOGON (sender_comp_id self) (target_comp_id self) seq time)
  end.

Definition send_logon : M (FixSession * W) unit :=
  let! s := mget in send_with MSG_LOGON (logon_fields s.1).
Definition send_logout : M (FixSession * W) unit := send MSG_LOGOUT [].
Definition send_heartbeat (test_req_id : option bytes) : M (FixSession * W) unit :=
  send MSG_HEARTBEAT (match test_req_id with Some id => [(TAG_TEST_REQ_ID, id)] | None => [] end).
End session.
End FixSession.

(** ** Session-level messages

    The state is the session, the socket and the events pushed so far; the
    answer tells whether the message goes on to the application. *)
Section handlers.
Context {W : Type} `{Wire W}.

Definition Handling : Type := FixSession * W * list FixEvent.

Definition on_session {A} (m : M (FixSession * W) A) : M Handling A := fun s =>
  let '(r, sw) := m s.1 in (r, (sw, s.2)).
Definition push_event (e : FixEvent) : M Handling unit := mmodify (fun s => (s.1, s.2 ++ [e])).

Definition handle_initiator (msg : FixMessage) : M Handling bool :=
  if bool_decide (msg_type msg = MSG_LOGON) then
    do! push_event (Status LoggedIn) in
    mreturn false
  else if bool_decide (msg_type msg = MSG_HEARTBEAT) then mreturn false
  else if bool_decide (msg_type msg = MSG_TEST_REQUEST) then
    do! on_session (FixSession.send_heartbeat (get_field msg TAG_TEST_REQ_ID)) in
    mreturn false
  else if bool_decide (msg_type msg = MSG_LOGOUT) then
    do! push_event (Status (LoggedOut (get_field msg TAG_TEXT))) in
    mreturn false
  else mreturn true.

Definition handle_acceptor (msg : FixMessage) : M Handling bool :=
  if bool_decide (msg_type msg = MSG_LOGON) then
    do! on_session FixSession.send_logon in
    do! push_event (Status LoggedIn) in
    mreturn false
  else if bool_decide (msg_type msg = MSG_HEARTBEAT) then mreturn false
  else if bool_decide (msg_type msg = MSG_TEST_REQUEST) then
    do! on_session (FixSession.send_heartbeat (get_field msg TAG_TEST_REQ_ID)) in
    mreturn false
  else if bool_decide (msg_type msg = MSG_LOGOUT) then
    do! push_event (Status (LoggedOut (get_field msg TAG_TEXT))) in
    mreturn false
  else mreturn true.

(** [drain_parse_buf]. A handler that fails takes the socket with it. *)
Record Draining := mkDraining {
  parse_buf : bytes; socket : option W; session : FixSession; events : list FixEvent }.

Fixpoint drain_loop (fuel : nat) (is_acceptor : bool) (s : Draining) : Res unit * Draining :=
  match fuel with
  | O => (OutOfFuel, s)
  | S fuel' =>
    match find_message (parse_buf s) with
    | None => (Ok tt, s)
    | Some (msg_bytes, consumed) =>
      let rest := drop consumed (parse_buf s) in
      match build_message (decode_fields msg_bytes) with
      | None => drain_loop fuel' is_acceptor (mkDraining rest (socket s) (session s) (events s))
      | Some msg =>
        match socket s with
        | None => drain_loop fuel' is_acceptor (mkDraining rest None (session s) (events s))
        | Some sock =>
          let '(r, ((sess, sock'), evs)) :=
            (if is_acceptor then handle_acceptor msg else handle_initiator msg)
              ((session s, sock), events s) in
          match r with
          | Ok pass =>
            drain_loop fuel' is_acceptor
              (mkDraining rest (Some sock') sess (if pass : bool then evs ++ [Data msg] else evs))
          | Err e => (Err e, mkDraining rest None sess evs)
          | Panic why => (Panic why, mkDraining rest None sess evs)
          | OutOfFuel => (OutOfFuel, mkDraining rest None sess evs)
          end
        end
      end
    end
  end.

(** A message is at least one byte: the buffer's length and one bound the rounds. *)
Definition drain_parse_buf (is_acceptor : bool) : M Draining bool := fun s =>
  match drain_loop (S (length (parse_buf s))) is_acceptor s with
  | (Ok _, s') => (Ok (length (events s) <? length (events s'))%nat, s')
  | (Err e, s') => (Err e, s')
  | (Panic w, s') => (Panic w, s')
  | (OutOfFuel, s') => (OutOfFuel, s')
  end.
End handlers.
Arguments Draining : clear implicits.
Arguments Handling : clear implicits.

(** What [split_events] maps a burst of events to. *)
Definition data_of (burst : list FixEvent) : list FixMessage * bool :=
  let msgs := omap (fun e => match e with Data m => Some m | Status _ => None end) burst in
  (msgs, negb (Nat.eqb (length msgs) 0)).
Definition status_of (burst : list FixEvent) : list FixSessionStatus * bool :=
  let l := omap (fun e => match e with Data _ => None | Status s => Some s end) burst in
  (l, negb (Nat.eqb (length l) 0)).

(** The repository's round-trip test. *)
Example encode_decode_roundtrip :
  let bs := encode_message (str "D") (str "SENDER") (str "TARGET") 1 (str "20240627-11:17:25.223")
    [(55, str "AAPL"); (54, str "1"); (38, str "100"); (44, str "150.00")] in
  (fun '(m, _) => build_message (decode_fields m)) <$> find_message bs =
  Some (Some (mkFix (str "D") 1 0%Z [(55, str "AAPL"); (54, str "1"); (38, str "100"); (44, str "150.00")])).
Proof. vm_compute. reflexivity. Qed.
