(* ===== verification/FixCodec.v ===== *)
(** * The FIX codec

    Decimal numbers parse back, fields decode back, a frame is found where it
    ends. [fix_roundtrip] puts them together. *)
From S2P Require Import Prelude NanoTime Fix.
Local Open Scope N_scope.

(** ** Decimal numbers *)

Definition is_digit (c : ascii) : Prop := exists d, d < 10 /\ c = digit d.

Lemma digit_value_digit d : d < 10 -> digit_value (digit d) = Some d.
Proof.
  intros Hd. unfold digit_value, digit. rewrite N_ascii_embedding by lia.
  destruct (N.leb_spec 48 (48 + d)); [|lia]. destruct (N.leb_spec (48 + d) 57); [|lia].
  simpl. f_equal. lia.
Qed.

Lemma is_digit_code c : is_digit c -> 48 <= N_of_ascii c <= 57.
Proof. intros (d & Hd & ->). unfold digit. rewrite N_ascii_embedding; lia. Qed.

Lemma digit_plain c : is_digit c -> c <> SOH /\ c <> EQUALS /\ c <> "+"%char /\ N_of_ascii c < 128.
Proof. intros Hc%is_digit_code. split_and!; [intros ->; vm_compute in Hc; destruct Hc; congruence..|lia]. Qed.

Lemma decimal_digits fuel n : Forall is_digit (decimal fuel n).
Proof.
  revert n. induction fuel as [|fuel IH]; intros n; simpl; [constructor|].
  destruct (N.ltb_spec n 10) as [Hn|_].
  - constructor; [by exists n|constructor].
  - apply Forall_app. split; [done|]. constructor; [|constructor].
    exists (n mod 10). split; [by apply N.mod_lt|done].
Qed.

Lemma parse_decimal max fuel n acc s :
  (0 < fuel)%nat -> n < 10 ^ N.of_nat fuel ->
  acc * 10 ^ N.of_nat (length (decimal fuel n)) + n <= max ->
  parse_digits max acc (decimal fuel n ++ s) =
  parse_digits max (acc * 10 ^ N.of_nat (length (decimal fuel n)) + n) s.
Proof.
  revert n s. induction fuel as [|fuel IH]; intros n s Hf Hn Hmax; [lia|].
  cbn [decimal] in *. destruct (N.ltb_spec n 10) as [Hlt|Hge].
  - cbn [app length parse_digits] in *. rewrite digit_value_digit by done.
    change (10 ^ N.of_nat 1) with 10 in *. cbn zeta.
    destruct (N.ltb_spec max (acc * 10 + n)); [lia|done].
  - assert (Hq : n / 10 < 10 ^ N.of_nat fuel).
    { apply N.Div0.div_lt_upper_bound. by rewrite <-N.pow_succ_r', <-Nat2N.inj_succ. }
    assert (Hfuel : (0 < fuel)%nat).
    { destruct fuel; [|lia]. change (10 ^ N.of_nat 1) with 10 in Hn. lia. }
    rewrite length_app in *. cbn [length] in *.
    replace (10 ^ N.of_nat (length (decimal fuel (n / 10)) + 1))
      with (10 ^ N.of_nat (length (decimal fuel (n / 10))) * 10) in *
      by (rewrite Nat2N.inj_add, N.pow_add_r; done).
    pose proof (N.div_mod' n 10) as Hdm. pose proof (N.mod_lt n 10 ltac:(done)) as Hm.
    set (X := 10 ^ N.of_nat (length (decimal fuel (n / 10)))) in *.
    assert (Hx : acc * (X * 10) = acc * X * 10) by lia.
    rewrite <-app_assoc, IH; [|done|done|fold X; rewrite Hx in Hmax;
      clear -Hmax Hdm; revert Hmax Hdm; generalize (n / 10), (n mod 10), (acc * X); lia]. cbn [app parse_digits].
    rewrite digit_value_digit by done. cbn zeta.
    fold X. replace ((acc * X + n / 10) * 10 + n mod 10) with (acc * (X * 10) + n) by lia.
    destruct (N.ltb_spec max (acc * (X * 10) + n)); [lia|done].
Qed.

Lemma to_string_digits n : Forall is_digit (to_string n).
Proof. apply decimal_digits. Qed.

Lemma to_string_cons n : exists c s, to_string n = c :: s /\ is_digit c.
Proof.
  pose proof (to_string_digits n) as Hd. destruct (to_string n) as [|c s] eqn:He.
  - exfalso. revert He. unfold to_string. cbn [decimal]. destruct (n <? 10); [done|].
    intros [_ ?]%app_eq_nil. done.
  - exists c, s. split; [done|]. by apply Forall_inv in Hd.
Qed.

(** A number prints to digits that parse back to it. *)
Lemma parse_to_string max n : n <= max -> parse max (to_string n) = Some n.
Proof.
  intros Hn. destruct (to_string_cons n) as (c & s & He & Hc).
  unfold parse. rewrite He. rewrite bool_decide_eq_false_2 by by apply digit_plain.
  rewrite <-He, <-(app_nil_r (to_string n)). unfold to_string.
  rewrite parse_decimal; [simpl; f_equal; lia|lia| |simpl; lia].
  rewrite Nat2N.inj_succ, N2Nat.id. pose proof (N.size_gt n).
  eapply N.lt_le_trans; [done|]. transitivity (2 ^ N.succ (N.size n)).
  - apply N.pow_le_mono_r; lia.
  - apply N.pow_le_mono_l. lia.
Qed.

Lemma to_string_inj n m : to_string n = to_string m -> n = m.
Proof.
  intros He. pose proof (parse_to_string (N.max n m) n ltac:(lia)) as Hn.
  rewrite He, parse_to_string in Hn by lia. by simplify_eq.
Qed.

(** ** Bytes that stand for themselves *)

(** The values a message can carry: no SOH, valid UTF-8 -- every Rust string is. *)
Definition plain (v : bytes) : Prop := (SOH ∉ v) /\ utf8_valid v = true.

Lemma utf8_ascii s : Forall (fun c => N_of_ascii c < 128) s -> utf8_valid s = true.
Proof.
  induction 1 as [|c s Hc Hs IH]; [done|]. simpl. by destruct (N.ltb_spec (N_of_ascii c) 128); [|lia].
Qed.

Lemma digits_plain s : Forall is_digit s -> plain s /\ EQUALS ∉ s.
Proof.
  intros Hs. unfold plain. split_and!.
  - intros Hin. rewrite Forall_forall in Hs. by apply Hs, digit_plain in Hin as (? & _).
  - apply utf8_ascii. eapply Forall_impl; [exact Hs|]. intros c Hc. by apply digit_plain.
  - intros Hin. rewrite Forall_forall in Hs. by apply Hs, digit_plain in Hin as (_ & ? & _).
Qed.

(** ** Decoding fields *)

Lemma decode_fuel n1 n2 data :
  (length data <= n1)%nat -> (length data <= n2)%nat -> decode_loop n1 data = decode_loop n2 data.
Proof.
  revert n2 data. induction n1 as [|n1 IH]; intros [|n2] data H1 H2; try done.
  - by destruct data; [|simpl in *; lia].
  - by destruct data; [|simpl in *; lia].
  - simpl. destruct (split_at EQUALS data) as [[a r]|] eqn:Hs; [|done].
    apply split_at_shorter in Hs.
    destruct (if utf8_valid a then parse u32_limit a else None).
    + destruct (split_at SOH r) as [[v r']|] eqn:Hs'; [|done]. apply split_at_shorter in Hs'.
      f_equal. apply IH; lia.
    + apply IH; lia.
Qed.

Lemma decode_fields_unfold data :
  decode_fields data =
  match split_at EQUALS data with
  | None => []
  | Some (tag_bytes, rest) =>
    match (if utf8_valid tag_bytes then parse u32_limit tag_bytes else None) with
    | None => decode_fields rest
    | Some tag =>
      match split_at SOH rest with
      | None => []
      | Some (v, rest') => (tag, if utf8_valid v then v else []) :: decode_fields rest'
      end
    end
  end.
Proof.
  unfold decode_fields at 1. destruct data as [|c data]; [done|]. cbn [length decode_loop].
  destruct (split_at EQUALS (c :: data)) as [[a r]|] eqn:Hs; [|done].
  apply split_at_shorter in Hs. simpl in Hs.
  destruct (if utf8_valid a then parse u32_limit a else None).
  - destruct (split_at SOH r) as [[v r']|] eqn:Hs'; [|done]. apply split_at_shorter in Hs'.
    f_equal. apply decode_fuel; lia.
  - apply decode_fuel; lia.
Qed.

(** A field a message can carry. *)
Definition good_field (f : field) : Prop := f.1 <= u32_limit /\ plain f.2.

Lemma field_bytes_app f rest : field_bytes f ++ rest = to_string f.1 ++ EQUALS :: f.2 ++ SOH :: rest.
Proof. unfold field_bytes. by rewrite <-app_assoc, <-app_comm_cons, <-app_assoc. Qed.

Lemma decode_field f rest : good_field f -> decode_fields (field_bytes f ++ rest) = f :: decode_fields rest.
Proof.
  intros (Ht & Hs & Hu). destruct (digits_plain _ (to_string_digits f.1)) as [[_ Hut] Heq].
  rewrite field_bytes_app, decode_fields_unfold.
  rewrite split_at_app by done. rewrite Hut, parse_to_string by done.
  rewrite split_at_app by done. rewrite Hu. by destruct f.
Qed.

Definition frame_bytes (fs : list field) : bytes := concat (field_bytes <$> fs).

Lemma decode_frame fs rest :
  Forall good_field fs -> decode_fields (frame_bytes fs ++ rest) = fs ++ decode_fields rest.
Proof.
  unfold frame_bytes. induction 1 as [|f fs Hf Hfs IH]; [done|].
  rewrite fmap_cons, concat_cons, <-app_assoc, decode_field by done. by rewrite IH.
Qed.

(** ** Finding the frame *)

Lemma find_sub_skip v r : SOH ∉ v ->
  find_sub FRAME_PATTERN (v ++ r) = Nat.add (length v) <$> find_sub FRAME_PATTERN r.
Proof.
  induction v as [|c v IH]; intros Hv.
  { cbn [app length]. destruct (find_sub FRAME_PATTERN r); done. }
  apply not_elem_of_cons in Hv as [Hc Hv]. cbn [app find_sub].
  rewrite bool_decide_eq_false_2 by (cbn; intros [= ? _]; congruence).
  rewrite IH by done. by destruct (find_sub FRAME_PATTERN r).
Qed.

Lemma find_sub_soh r :
  find_sub FRAME_PATTERN (SOH :: r) =
  if bool_decide (take 3 r = str "10=") then Some 0%nat else S <$> find_sub FRAME_PATTERN r.
Proof.
  cbn [find_sub]. change (take (length FRAME_PATTERN) (SOH :: r)) with (SOH :: take 3 r).
  unfold FRAME_PATTERN at 2. destruct (decide (take 3 r = str "10=")) as [->|Hne].
  - by rewrite !bool_decide_eq_true_2.
  - rewrite !bool_decide_eq_false_2; [done|done|]. intros [= ?]. done.
Qed.

(** Only the checksum's tag starts like the pattern. *)
Lemma tag_prefix t r : take 3 (to_string t ++ EQUALS :: r) = str "10=" -> t = 10.
Proof.
  pose proof (to_string_digits t) as Hd. intros Ht.
  assert (Hs : to_string t = str "10"); [|by apply to_string_inj; rewrite Hs].
  destruct (to_string_cons t) as (c & s & He & _). rewrite He in Ht, Hd |- *.
  destruct s as [|c2 [|c3 s]]; cbn in Ht.
  - discriminate.
  - by injection Ht as -> ->.
  - injection Ht as -> -> ->. rewrite !Forall_cons in Hd.
    destruct Hd as (_ & _ & Hx & _). by apply digit_plain in Hx as (_ & ? & _).
Qed.

Lemma field_body_soh f : good_field f -> SOH ∉ to_string f.1 ++ EQUALS :: f.2.
Proof.
  intros (_ & Hs & _). destruct (digits_plain _ (to_string_digits f.1)) as [[Hn _] _].
  rewrite elem_of_app, elem_of_cons. by intros [?|[?|?]].
Qed.

Lemma find_sub_field f r : good_field f ->
  find_sub FRAME_PATTERN (field_bytes f ++ r) =
  Nat.add (length (field_bytes f) - 1) <$> find_sub FRAME_PATTERN (SOH :: r).
Proof.
  intros Hf. rewrite field_bytes_app.
  replace (to_string f.1 ++ EQUALS :: f.2 ++ SOH :: r)
    with ((to_string f.1 ++ EQUALS :: f.2) ++ SOH :: r) by by rewrite <-app_assoc.
  rewrite find_sub_skip by by apply field_body_soh. f_equal. f_equal.
  unfold field_bytes. rewrite !length_app. cbn [length]. rewrite !length_app. simpl. lia.
Qed.

Lemma frame_length_pos f fs : (0 < length (field_bytes f))%nat /\
  length (frame_bytes (f :: fs)) = (length (field_bytes f) + length (frame_bytes fs))%nat.
Proof.
  unfold frame_bytes. rewrite fmap_cons, concat_cons, length_app. split; [|done].
  unfold field_bytes. rewrite !length_app. cbn [length]. lia.
Qed.

Lemma find_sub_frame fs v rest :
  Forall good_field fs -> Forall (fun f => f.1 <> TAG_CHECKSUM) fs -> fs <> [] ->
  find_sub FRAME_PATTERN (frame_bytes fs ++ field_bytes (TAG_CHECKSUM, v) ++ rest) =
  Some (length (frame_bytes fs) - 1)%nat.
Proof.
  intros Hg Ht Hne. induction Hg as [|f fs Hf Hg IH]; [done|]. apply Forall_cons in Ht as [_ Ht].
  specialize (IH Ht). unfold frame_bytes in *. rewrite fmap_cons, concat_cons, <-app_assoc.
  rewrite find_sub_field, find_sub_soh, length_app by done.
  destruct fs as [|g fs].
  - cbn [fmap list_fmap concat app]. rewrite bool_decide_eq_true_2 by (vm_compute; done).
    simpl. f_equal. lia.
  - rewrite bool_decide_eq_false_2.
    + rewrite IH by done. pose proof (frame_length_pos f fs). pose proof (frame_length_pos g fs).
      unfold frame_bytes in *. set (n := length (concat (field_bytes <$> g :: fs))) in *.
      cbn [fmap option_fmap option_map]. f_equal. lia.
    + rewrite fmap_cons, concat_cons, <-app_assoc, field_bytes_app. intros Hx%tag_prefix.
      by apply Forall_cons in Ht as [? _].
Qed.

Lemma find_message_frame fs v rest :
  Forall good_field fs -> Forall (fun f => f.1 <> TAG_CHECKSUM) fs -> fs <> [] -> SOH ∉ v ->
  let frame := frame_bytes fs ++ field_bytes (TAG_CHECKSUM, v) in
  find_message (frame ++ rest) = Some (frame, length frame).
Proof.
  intros Hg Ht Hne Hv frame. unfold find_message. subst frame.
  rewrite <-app_assoc, find_sub_frame by done.
  assert (Hpos : (0 < length (frame_bytes fs))%nat).
  { destruct fs as [|f fs]; [done|]. pose proof (frame_length_pos f fs). lia. }
  assert (Hf : field_bytes (TAG_CHECKSUM, v) = str "10=" ++ v ++ [SOH]) by done.
  replace (length (frame_bytes fs) - 1 + length FRAME_PATTERN)%nat
    with (length (frame_bytes fs) + 3)%nat by (simpl; lia).
  rewrite Hf, <-(app_assoc (str "10=")), app_assoc, drop_app_length'
    by (rewrite length_app; simpl; lia).
  rewrite <-app_assoc. change ([SOH] ++ rest) with (SOH :: rest). rewrite split_at_app by done.
  f_equal. f_equal.
  - replace ((frame_bytes fs ++ str "10=") ++ v ++ SOH :: rest)
      with ((frame_bytes fs ++ str "10=" ++ v ++ [SOH]) ++ rest)
      by (rewrite <-!app_assoc; done).
    apply take_app_length'. rewrite !length_app; simpl; rewrite ?length_app; simpl; lia.
  - rewrite !length_app; simpl; rewrite ?length_app; simpl; lia.
Qed.
