(* ===== verification/FixProps.v ===== *)
(** * What the FIX adapter promises

    [fix_roundtrip]: an encoded message is found in a stream and decodes to what
    was sent. [fix_chunking]: how the stream is cut into reads does not matter.
    [fix_delivery]: what one session sends, the other's application receives.
    [malformed_tag_hides_rest]: what one bad tag does to the fields after it. *)
From S2P Require Import Prelude NanoTime Fix FixCodec.
Local Open Scope N_scope.

(** ** Round trip *)

Definition message_fields (mt sender target : bytes) (seq : N) (time : bytes) (extra : list field)
    (len : N) : list field :=
  (TAG_BEGIN_STRING, BEGIN_STRING) :: (TAG_BODY_LENGTH, to_string len) ::
  (TAG_MSG_TYPE, mt) :: (TAG_SENDER_COMP_ID, sender) :: (TAG_TARGET_COMP_ID, target) ::
  (TAG_MSG_SEQ_NUM, to_string seq) :: (TAG_SENDING_TIME, time) :: extra.

Lemma append_fields buf extra :
  foldl (fun b f => append_field b f.1 f.2) buf extra = buf ++ frame_bytes extra.
Proof.
  revert buf. unfold frame_bytes. induction extra as [|f extra IH]; intros buf; [by rewrite app_nil_r|].
  rewrite fmap_cons, concat_cons. cbn [foldl]. rewrite IH. unfold append_field.
  by rewrite <-app_assoc; destruct f.
Qed.

Lemma checksum_byte s a : a < 256 -> foldl (fun a b => (a + N_of_ascii b) mod 256) a s < 256.
Proof. revert a. induction s as [|c s IH]; intros a Ha; [done|]. apply IH. by apply N.mod_lt. Qed.

Lemma pad3_digits n : n < 256 -> Forall is_digit (pad3 n).
Proof.
  intros Hn. unfold pad3. repeat constructor; eexists; (split; [|done]); try by apply N.mod_lt.
  apply N.Div0.div_lt_upper_bound. lia.
Qed.

(** An encoded message is a frame. *)
Lemma encode_frame mt sender target seq time extra :
  exists len c, c < 256 /\
    encode_message mt sender target seq time extra =
    frame_bytes (message_fields mt sender target seq time extra len) ++ field_bytes (TAG_CHECKSUM, pad3 c).
Proof.
  unfold encode_message. rewrite append_fields. unfold append_field.
  set (body := _ ++ frame_bytes extra). exists (N.of_nat (length body)), (checksum
    ((([] ++ field_bytes (TAG_BEGIN_STRING, BEGIN_STRING)) ++
      field_bytes (TAG_BODY_LENGTH, to_string (N.of_nat (length body)))) ++ body)).
  split; [by apply checksum_byte|]. f_equal. subst body. unfold frame_bytes, message_fields.
  rewrite !fmap_cons, !concat_cons, !app_nil_l, <-!app_assoc. done.
Qed.

Lemma find_tag_cons t f l : find_tag t (f :: l) = if decide (f.1 = t) then Some f.2 else find_tag t l.
Proof. unfold find_tag. rewrite filter_cons. by case_decide. Qed.

(** What a message of the application can carry. *)
Definition app_field (f : field) : Prop := good_field f /\ f.1 ∉ HEADER_TAGS.

Lemma build_fields mt sender target seq time extra len cs :
  seq <= u64_limit -> Forall app_field extra ->
  build_message (message_fields mt sender target seq time extra len ++ [(TAG_CHECKSUM, cs)]) =
  Some (mkFix mt seq NanoTime.ZERO extra).
Proof.
  intros Hseq Hex. unfold message_fields, build_message. cbn [app].
  assert (Hfilter : filter (fun f : field => f.1 ∉ HEADER_TAGS) (extra ++ [(TAG_CHECKSUM, cs)]) = extra).
  { rewrite filter_app, filter_cons_False by (cbn; set_solver). rewrite filter_nil, app_nil_r.
    induction Hex as [|f l [_ Hf] Hl IH]; [done|]. rewrite filter_cons_True by done. by rewrite IH. }
  set (l := _ :: _).
  assert (Hmt : find_tag TAG_MSG_TYPE l = Some mt) by (subst l; by rewrite !find_tag_cons).
  assert (Hs : find_tag TAG_MSG_SEQ_NUM l = Some (to_string seq)) by (subst l; by rewrite !find_tag_cons).
  rewrite Hmt, Hs, parse_to_string by done. cbn [default from_option id]. subst l. f_equal. f_equal.
  do 7 (rewrite filter_cons_False by (cbn; set_solver)). done.
Qed.

(** The header values of a message that survive the encoding. *)
Definition good_header (mt sender target time : bytes) (seq : N) : Prop :=
  plain mt /\ plain sender /\ plain target /\ plain time /\ seq <= u64_limit.

Lemma body_length_small len : exists v, to_string len = v /\ plain v.
Proof. eexists. split; [done|]. apply digits_plain, to_string_digits. Qed.

Lemma message_fields_good mt sender target seq time extra len :
  good_header mt sender target time seq -> Forall app_field extra ->
  Forall good_field (message_fields mt sender target seq time extra len) /\
  Forall (fun f => f.1 <> TAG_CHECKSUM) (message_fields mt sender target seq time extra len).
Proof.
  intros (Hmt & Hs & Ht & Htime & _) Hex. split; unfold message_fields.
  - repeat (apply Forall_cons; split); try (split; [done|]; simpl; done || apply digits_plain, to_string_digits).
    + split; [done|]. split; [vm_compute; set_solver|done].
    + eapply Forall_impl; [exact Hex|]. by intros f [? _].
  - repeat (apply Forall_cons; split); try done.
    eapply Forall_impl; [exact Hex|]. intros f [_ Hf] He. apply Hf. rewrite He. cbn. set_solver.
Qed.

(** Encoding and decoding are inverse. An encoded message, whatever follows
    it in the buffer, is found as the first frame, whole; and it decodes to the
    message type, the sequence number and the application fields it was encoded
    from, in order. The values may hold any bytes that are valid UTF-8 except
    SOH, and the tags any 32-bit number that is not a header's. *)
Theorem fix_roundtrip mt sender target seq time extra rest :
  good_header mt sender target time seq -> Forall app_field extra ->
  let frame := encode_message mt sender target seq time extra in
  find_message (frame ++ rest) = Some (frame, length frame) /\
  build_message (decode_fields frame) = Some (mkFix mt seq NanoTime.ZERO extra).
Proof.
  intros Hh Hex frame. subst frame.
  destruct (encode_frame mt sender target seq time extra) as (len & c & Hc & ->).
  destruct (message_fields_good mt sender target seq time extra len Hh Hex) as [Hg Hn].
  destruct (digits_plain _ (pad3_digits c Hc)) as [Hp _]. split.
  - by apply find_message_frame; [..|apply Hp].
  - rewrite decode_frame by done. rewrite <-(app_nil_r (field_bytes _)), decode_field by by split.
    rewrite (build_fields _ _ _ _ _ _ _ (pad3 c)); [done|apply Hh|done].
Qed.

Lemma fix_roundtrip_witness :
  let frame := encode_message (str "D") (str "ME") (str "YOU") 7 (str "20240627-11:17:25.223")
    [(55, str "AAPL"); (44, str "a=b")] in
  find_message (frame ++ str "8=FIX") = Some (frame, length frame) /\
  build_message (decode_fields frame) =
    Some (mkFix (str "D") 7 NanoTime.ZERO [(55, str "AAPL"); (44, str "a=b")]).
Proof.
  apply fix_roundtrip.
  - unfold good_header, plain. split_and!; try (vm_compute; reflexivity || discriminate);
      apply (bool_decide_unpack _); vm_compute; exact I.
  - repeat constructor; try (vm_compute; reflexivity || discriminate);
      apply (bool_decide_unpack _); vm_compute; exact I.
Defined.

(** ** A malformed tag *)

Lemma parse_digits_soh max acc s : SOH ∈ s -> parse_digits max acc s = None.
Proof.
  revert acc. induction s as [|c s IH]; intros acc; [by intros ?%not_elem_of_nil|].
  intros [<-|Hs]%elem_of_cons; [done|]. cbn [parse_digits].
  destruct (digit_value c); [|done]. cbv zeta. destruct (max <? _); [done|]. by apply IH.
Qed.

Lemma parse_soh max s : SOH ∈ s -> parse max s = None.
Proof.
  intros Hs. unfold parse. destruct s as [|c s]; [done|]. case_bool_decide as Hc.
  - apply elem_of_cons in Hs as [<-|Hs]; [discriminate|].
    destruct s; [by apply not_elem_of_nil in Hs|]. by apply parse_digits_soh.
  - by apply parse_digits_soh.
Qed.

(** From the middle of a field nothing more is decoded. *)
Lemma decode_astray u after :
  SOH ∈ u -> EQUALS ∉ u -> Forall (fun f => EQUALS ∉ f.2) after ->
  decode_fields (u ++ frame_bytes after) = [].
Proof.
  intros Hs He Ha. revert u Hs He. induction Ha as [|f after Hf Ha IH]; intros u Hs He.
  - unfold frame_bytes. rewrite app_nil_r, decode_fields_unfold. by rewrite split_at_none.
  - unfold frame_bytes in *. rewrite fmap_cons, concat_cons, field_bytes_app, app_assoc.
    rewrite decode_fields_unfold, split_at_app.
    + assert (Hn : (if utf8_valid (u ++ to_string f.1) then parse u32_limit (u ++ to_string f.1) else None)
        = None) by (destruct (utf8_valid _); [|done]; apply parse_soh, elem_of_app; by left).
      rewrite Hn. replace (f.2 ++ SOH :: concat (field_bytes <$> after))
        with ((f.2 ++ [SOH]) ++ concat (field_bytes <$> after)) by by rewrite <-app_assoc.
      apply IH; rewrite elem_of_app, elem_of_cons; [by right; left|].
      by intros [?|[?|?%not_elem_of_nil]].
    + rewrite elem_of_app. intros [?|Hd]; [done|]. by eapply digits_plain, Hd; apply to_string_digits.
Qed.

(** One field whose tag is not a number hides every field after it. The
    decoder resumes right after the equals sign, in the middle of the bad
    field, so what it takes for the next tag is that field's value, an SOH and
    the next tag, which is no number either, and so on to the end. *)
Theorem malformed_tag_hides_rest (bad v : bytes) (before after : list field) :
  Forall good_field before -> EQUALS ∉ v ->
  Forall (fun f => EQUALS ∉ f.2) after ->
  EQUALS ∉ bad -> parse u32_limit bad = None ->
  decode_fields (frame_bytes before ++ bad ++ EQUALS :: v ++ SOH :: frame_bytes after) = before.
Proof.
  intros Hb Hv Ha Hbad Hparse. rewrite decode_frame by done.
  rewrite decode_fields_unfold, split_at_app, Hparse by done.
  assert (Hn : (if utf8_valid bad then None else None) = @None N) by by destruct (utf8_valid bad).
  rewrite Hn. replace (v ++ SOH :: frame_bytes after) with ((v ++ [SOH]) ++ frame_bytes after)
    by by rewrite <-app_assoc.
  rewrite decode_astray; [by rewrite app_nil_r| | |done]; rewrite elem_of_app, elem_of_cons.
  - by right; left.
  - by intros [?|[?|?%not_elem_of_nil]].
Qed.

(** A tag with a letter between two good fields. *)
Lemma malformed_tag_hides_rest_witness :
  decode_fields (frame_bytes [(35, str "D")] ++ str "5x" ++ EQUALS :: str "1" ++
                 SOH :: frame_bytes [(49, str "ME"); (56, str "YOU")]) = [(35, str "D")].
Proof.
  apply malformed_tag_hides_rest.
  - repeat constructor; try (vm_compute; reflexivity || discriminate);
      apply (bool_decide_unpack _); vm_compute; exact I.
  - apply (bool_decide_unpack _); vm_compute; exact I.
  - repeat constructor; apply (bool_decide_unpack _); vm_compute; exact I.
  - apply (bool_decide_unpack _); vm_compute; exact I.
  - vm_compute. reflexivity.
Defined.

(** ** Frames and the bytes that follow *)

Lemma find_sub_long p buf n : find_sub p buf = Some n -> (n + length p <= length buf)%nat.
Proof.
  revert n. induction buf as [|c buf IH]; intros n; [done|]. cbn [find_sub]. case_bool_decide as Ht.
  - intros [= <-]. rewrite <-Ht, length_take. lia.
  - intros (m & Hm & ->)%fmap_Some. specialize (IH _ Hm). cbn [length]. lia.
Qed.

Lemma find_sub_app p buf c n : find_sub p buf = Some n -> find_sub p (buf ++ c) = Some n.
Proof.
  revert n. induction buf as [|x buf IH]; intros n; [done|]. cbn [find_sub app]. intros Hf.
  assert (Hlen : (length p <= length (x :: buf))%nat).
  { revert Hf. case_bool_decide as Ht.
    - intros _. rewrite <-Ht, length_take. lia.
    - intros (m & Hm & _)%fmap_Some. apply find_sub_long in Hm. cbn [length]. lia. }
  change (x :: buf ++ c) with ((x :: buf) ++ c). rewrite take_app_le by done.
  revert Hf. case_bool_decide; [done|]. intros (m & Hm & ->)%fmap_Some. by rewrite (IH _ Hm).
Qed.

(** Later bytes do not change the first frame. *)
Lemma find_message_app buf c m n :
  find_message buf = Some (m, n) ->
  (0 < n <= length buf)%nat /\ find_message (buf ++ c) = Some (m, n).
Proof.
  unfold find_message. destruct (find_sub FRAME_PATTERN buf) as [pos|] eqn:Hp; [|done].
  pose proof (find_sub_long _ _ _ Hp) as Hlong. rewrite (find_sub_app _ _ _ _ Hp).
  set (start := (pos + length FRAME_PATTERN)%nat) in *.
  destruct (split_at SOH (drop start buf)) as [[v b]|] eqn:Hs; [|done]. intros [= <- <-].
  rewrite drop_app_le by done. rewrite (split_at_app_r _ _ _ _ _ Hs).
  apply split_at_length in Hs. rewrite length_drop in Hs.
  split; [lia|]. rewrite take_app_le by lia. done.
Qed.

(** ** Draining *)

Section draining.
Context {W : Type} `{Wire W} (acceptor : bool).
Implicit Types s : Draining W.

Definition feed (c : bytes) s : Draining W := mkDraining (parse_buf s ++ c) (socket s) (session s) (events s).

(** The round of the loop that handles the first frame: [None] when there is none. *)
Definition drain_round s : option (Res unit * Draining W) :=
  match find_message (parse_buf s) with
  | None => None
  | Some (msg_bytes, consumed) =>
    let rest := drop consumed (parse_buf s) in
    Some match build_message (decode_fields msg_bytes) with
    | None => (Ok tt, mkDraining rest (socket s) (session s) (events s))
    | Some msg =>
      match socket s with
      | None => (Ok tt, mkDraining rest None (session s) (events s))
      | Some sock =>
        let '(r, ((sess, sock'), evs)) :=
          (if acceptor then handle_acceptor msg else handle_initiator msg)
            ((session s, sock), events s) in
        match r with
        | Ok pass => (Ok tt, mkDraining rest (Some sock') sess (if pass : bool then evs ++ [Data msg] else evs))
        | Err e => (Err e, mkDraining rest None sess evs)
        | Panic why => (Panic why, mkDraining rest None sess evs)
        | OutOfFuel => (OutOfFuel, mkDraining rest None sess evs)
        end
      end
    end
  end.

Lemma drain_loop_round fuel s :
  drain_loop (S fuel) acceptor s =
  match drain_round s with
  | None => (Ok tt, s)
  | Some (Ok _, s') => drain_loop fuel acceptor s'
  | Some (r, s') => (r, s')
  end.
Proof.
  unfold drain_round. cbn [drain_loop]. destruct (find_message (parse_buf s)) as [[m n]|]; [|done].
  destruct (build_message (decode_fields m)) as [msg|]; [|done]. destruct (socket s) as [sock|]; [|done].
  by destruct ((if acceptor then handle_acceptor msg else handle_initiator msg)
    (session s, sock, events s)) as [[] [[] ]].
Qed.

Lemma drain_round_feed c s r s' :
  drain_round s = Some (r, s') ->
  (length (parse_buf s') < length (parse_buf s))%nat /\ drain_round (feed c s) = Some (r, feed c s').
Proof.
  unfold drain_round. destruct (find_message (parse_buf s)) as [[m n]|] eqn:Hf; [|done].
  destruct (find_message_app _ c _ _ Hf) as [Hn Hf']. cbn [feed parse_buf socket session events]. 
  rewrite Hf', drop_app_le by lia. pose proof (length_drop (parse_buf s) n) as Hd.
  destruct (build_message (decode_fields m)) as [msg|].
  - destruct (socket s) as [sock|].
    + destruct ((if acceptor then handle_acceptor msg else handle_initiator msg)
        (session s, sock, events s)) as [[] [[] ]];
        intros [= <- <-]; unfold feed; cbn; split; try done; lia.
    + intros [= <- <-]; unfold feed; cbn; split; try done; lia.
  - intros [= <- <-]; unfold feed; cbn; split; try done; lia.
Qed.

(** More fuel than bytes makes no difference. *)
Lemma drain_fuel n1 n2 s :
  (length (parse_buf s) < n1)%nat -> (length (parse_buf s) < n2)%nat ->
  drain_loop n1 acceptor s = drain_loop n2 acceptor s.
Proof.
  revert n2 s. induction n1 as [|n1 IH]; intros [|n2] s H1 H2; try lia.
  rewrite !drain_loop_round. destruct (drain_round s) as [[r s']|] eqn:Hr; [|done].
  destruct (drain_round_feed [] _ _ _ Hr) as [Hlt _]. destruct r; try done. apply IH; lia.
Qed.

Definition drained s : Res unit * Draining W := drain_loop (S (length (parse_buf s))) acceptor s.

Lemma drained_unfold s :
  drained s =
  match drain_round s with
  | None => (Ok tt, s)
  | Some (Ok _, s') => drained s'
  | Some (r, s') => (r, s')
  end.
Proof.
  unfold drained. rewrite drain_loop_round. destruct (drain_round s) as [[r s']|] eqn:Hr; [|done].
  destruct (drain_round_feed [] _ _ _ Hr) as [Hlt _]. destruct r; try done. apply drain_fuel; lia.
Qed.

Lemma drained_feed c s s1 :
  drained s = (Ok tt, s1) -> drained (feed c s1) = drained (feed c s).
Proof.
  remember (length (parse_buf s)) as n eqn:Hn. revert s Hn.
  induction (lt_wf n) as [n _ IH]; intros s -> Hd. rewrite drained_unfold in Hd.
  destruct (drain_round s) as [[r s']|] eqn:Hr; [|by simplify_eq].
  destruct (drain_round_feed c _ _ _ Hr) as [Hlt Hr']. destruct r; try done.
  rewrite (drained_unfold (feed c s)), Hr'. by eapply IH.
Qed.

Lemma drained_feed_fails c s r s1 :
  drained s = (r, s1) -> r <> Ok tt -> drained (feed c s) = (r, feed c s1).
Proof.
  remember (length (parse_buf s)) as n eqn:Hn. revert s Hn.
  induction (lt_wf n) as [n _ IH]; intros s -> Hd Hr1. rewrite drained_unfold in Hd.
  destruct (drain_round s) as [[r' s']|] eqn:Hr; [|by simplify_eq].
  destruct (drain_round_feed c _ _ _ Hr) as [Hlt Hr']. rewrite (drained_unfold (feed c s)), Hr'.
  destruct r' as [[]| | |]; [by eapply IH|by simplify_eq..].
Qed.

Lemma feed_feed c d s : feed d (feed c s) = feed (c ++ d) s.
Proof. unfold feed. cbn. by rewrite app_assoc. Qed.

(** Reads of these chunks, each followed by a drain. *)
Fixpoint receive (chunks : list bytes) s : Res unit * Draining W :=
  match chunks with
  | [] => (Ok tt, s)
  | c :: chunks' =>
    match drain_parse_buf acceptor (feed c s) with
    | (Ok _, s') => receive chunks' s'
    | (Err e, s') => (Err e, s')
    | (Panic w, s') => (Panic w, s')
    | (OutOfFuel, s') => (OutOfFuel, s')
    end
  end.

Lemma receive_cons c chunks s :
  receive (c :: chunks) s =
  match drained (feed c s) with (Ok _, s') => receive chunks s' | (r, s') => (r, s') end.
Proof.
  cbn [receive]. unfold drain_parse_buf, drained. by destruct (drain_loop _ _ _) as [[[]| | |] ?].
Qed.

Lemma receive_merge c d chunks s s' :
  receive (c :: d :: chunks) s = (Ok tt, s') <-> receive ((c ++ d) :: chunks) s = (Ok tt, s').
Proof.
  rewrite !receive_cons, <-feed_feed.
  destruct (drained (feed c s)) as [r s1] eqn:Hd. destruct r as [[]| | |].
  - by rewrite receive_cons, (drained_feed d _ _ Hd).
  - rewrite (drained_feed_fails d _ _ _ Hd) by done. done.
  - rewrite (drained_feed_fails d _ _ _ Hd) by done. done.
  - rewrite (drained_feed_fails d _ _ _ Hd) by done. done.
Qed.
End draining.

Lemma receive_concat {W} `{Wire W} acceptor c chunks (s s' : Draining W) :
  receive acceptor (c :: chunks) s = (Ok tt, s') <->
  drained acceptor (feed (concat (c :: chunks)) s) = (Ok tt, s').
Proof.
  revert c. induction chunks as [|d chunks IH]; intros c.
  - rewrite receive_cons. cbn [concat]. rewrite app_nil_r.
    by destruct (drained acceptor (feed c s)) as [[[]| | |] ?].
  - rewrite receive_merge, IH. cbn [concat]. by rewrite app_assoc.
Qed.

(** How the bytes of a connection are cut into reads makes no difference.
    Draining after every chunk ends without an error exactly when draining once
    after all of them does, and then in the same state: the same events in the
    same order, the same bytes left over, the same session and socket. *)
Theorem fix_chunking {W} `{Wire W} (acceptor : bool) (c : bytes) (chunks : list bytes)
    (s s' : Draining W) :
  receive acceptor (c :: chunks) s = (Ok tt, s') <->
  receive acceptor [concat (c :: chunks)] s = (Ok tt, s').
Proof.
  rewrite !receive_concat. cbn [concat]. by rewrite app_nil_r.
Qed.

(** ** Delivery *)

(** A socket that accepts every write, and a clock that prints plain bytes. *)
Class Reliable (W : Type) `{Wire W} := {
  sent : W -> bytes;
  reliable_write b w : exists w', write_all b w = (Ok tt, w') /\ sent w' = sent w ++ b;
  reliable_flush w : exists w', flush w = (Ok tt, w') /\ sent w' = sent w;
  reliable_clock w : plain (now_sending_time w).1 /\ sent (now_sending_time w).2 = sent w }.

Definition bump (self : FixSession) : FixSession :=
  mkSession (sender_comp_id self) (target_comp_id self) (out_seq self + 1) (logon self).

Section delivery.
Context {W : Type} `{Reliable W}.

Lemma send_with_spec (self : FixSession) (w : W) mt build :
  out_seq self < u64_limit ->
  exists w' t, FixSession.send_with mt build (self, w) = (Ok tt, (bump self, w')) /\ plain t /\
    sent w' = sent w ++ encode_message mt (sender_comp_id self) (target_comp_id self)
                          (out_seq self + 1) t (build (out_seq self + 1) t).
Proof.
  intros Hseq. destruct (now_sending_time w) as [t w1] eqn:Hnow.
  pose proof (reliable_clock w) as [Ht Hs1]. rewrite Hnow in Ht, Hs1. simpl in Ht, Hs1.
  assert (Hmod : (out_seq self + 1) mod 2 ^ 64 = out_seq self + 1).
  { apply N.mod_small. unfold u64_limit in Hseq. lia. }
  destruct (reliable_write (encode_message mt (sender_comp_id self) (target_comp_id self)
    (out_seq self + 1) t (build (out_seq self + 1) t)) w1) as (w2 & Hw & Hs2).
  destruct (reliable_flush w2) as (w3 & Hf & Hs3).
  exists w3, t. split_and!; [|done|congruence].
  unfold FixSession.send_with, FixSession.write_encoded, FixSession.on_sock, mmodify, mget, mbind. simpl.
  rewrite Hnow. simpl. rewrite Hmod, Hw. simpl. by rewrite Hf.
Qed.

Lemma send_spec (self : FixSession) (w : W) mt extra :
  out_seq self < u64_limit ->
  exists w' t, FixSession.send mt extra (self, w) = (Ok tt, (bump self, w')) /\ plain t /\
    sent w' = sent w ++ encode_message mt (sender_comp_id self) (target_comp_id self)
                          (out_seq self + 1) t extra.
Proof. exact (send_with_spec self w mt (fun _ _ => extra)). Qed.

Lemma on_session_run {A} (m : M (FixSession * W) A) s evs a s' :
  m s = (Ok a, s') -> on_session m (s, evs) = (Ok a, (s', evs)).
Proof. intros Hm. unfold on_session. simpl. by rewrite Hm. Qed.

(** A message of the application: not one the session layer keeps to itself. *)
Definition app_message (m : bytes * list field) : Prop :=
  plain m.1 /\ Forall app_field m.2 /\ m.1 ∉ [MSG_LOGON; MSG_HEARTBEAT; MSG_TEST_REQUEST; MSG_LOGOUT].

Definition delivered (seq : N) (msgs : list (bytes * list field)) : list FixEvent :=
  imap (fun i m => Data (mkFix m.1 (seq + 1 + N.of_nat i) NanoTime.ZERO m.2)) msgs.

Lemma delivered_cons seq m msgs :
  delivered seq (m :: msgs) = Data (mkFix m.1 (seq + 1) NanoTime.ZERO m.2) :: delivered (seq + 1) msgs.
Proof.
  unfold delivered. rewrite imap_cons. f_equal; [by rewrite N.add_0_r|].
  apply imap_ext. intros i x _. unfold compose. rewrite Nat2N.inj_succ.
  by replace (seq + 1 + N.succ (N.of_nat i)) with (seq + 1 + 1 + N.of_nat i) by lia.
Qed.

Lemma drained_frame {V} `{Wire V} acceptor frame rest m (sock : V) sess evs :
  find_message (frame ++ rest) = Some (frame, length frame) ->
  build_message (decode_fields frame) = Some m ->
  msg_type m ∉ [MSG_LOGON; MSG_HEARTBEAT; MSG_TEST_REQUEST; MSG_LOGOUT] ->
  drained acceptor (mkDraining (frame ++ rest) (Some sock) sess evs) =
  drained acceptor (mkDraining rest (Some sock) sess (evs ++ [Data m])).
Proof.
  intros Hf Hb Hm. rewrite !not_elem_of_cons in Hm. destruct Hm as (Hm1 & Hm2 & Hm3 & Hm4 & _).
  rewrite drained_unfold. unfold drain_round. cbn [parse_buf socket session events].
  rewrite Hf, Hb. unfold handle_acceptor, handle_initiator.
  rewrite !bool_decide_eq_false_2 by done. unfold mreturn.
  rewrite drop_app_length. by destruct acceptor.
Qed.

Lemma send_all (self : FixSession) (w : W) msgs :
  plain (sender_comp_id self) -> plain (target_comp_id self) ->
  out_seq self + N.of_nat (length msgs) <= u64_limit -> Forall app_message msgs ->
  exists self' w' wire,
    mfor msgs (fun m => FixSession.send m.1 m.2) (self, w) = (Ok tt, (self', w')) /\
    sent w' = sent w ++ wire /\
    forall V (HV : Wire V) acceptor rest (sock : V) sess evs,
      drained acceptor (mkDraining (wire ++ rest) (Some sock) sess evs) =
      drained acceptor (mkDraining rest (Some sock) sess (evs ++ delivered (out_seq self) msgs)).
Proof.
  intros Hs Ht Hseq Hall. revert self w Hs Ht Hseq.
  induction Hall as [|m msgs (Hmt & Hex & Happ) Hall IH]; intros self w Hs Ht Hseq.
  { exists self, w, []. split_and!; [done|by rewrite app_nil_r|]. intros. by rewrite app_nil_r. }
  cbn [length] in Hseq. rewrite Nat2N.inj_succ in Hseq.
  destruct (send_spec self w m.1 m.2 ltac:(lia)) as (w1 & t & Hsend & Hplain & Hsent).
  destruct (IH (bump self) w1 Hs Ht ltac:(simpl; lia)) as (self' & w' & wire & Hrun & Hw & Hdrain).
  exists self', w', (encode_message m.1 (sender_comp_id self) (target_comp_id self) (out_seq self + 1) t m.2
    ++ wire). split_and!.
  - cbn [mfor]. by rewrite (mbind_ok _ _ _ _ _ Hsend).
  - by rewrite Hw, Hsent, app_assoc.
  - intros V HV acceptor rest sock sess evs. rewrite <-app_assoc.
    destruct (fix_roundtrip m.1 (sender_comp_id self) (target_comp_id self) (out_seq self + 1) t m.2
      (wire ++ rest)) as [Hfind Hbuild]; [split_and!; try done; lia|done|].
    rewrite (drained_frame _ _ _ _ _ _ _ Hfind Hbuild) by done.
    rewrite Hdrain, delivered_cons, <-app_assoc. done.
Qed.
End delivery.

(** C38: End to end: messages one session sends over a reliable connection reach
    the other side's application, each once, in order, with the type and fields
    they were sent with and consecutive sequence numbers, however the connection
    cuts the bytes into reads; nothing is left in the buffer. The identifiers and
    the values of the fields hold no separator, the fields use no tag of the header
    or the trailer, the type is that of no session message, and the sequence
    numbers do not run out. *)
Theorem fix_delivery {W V} `{Reliable W} `{Wire V} (self : FixSession) (w : W)
    (msgs : list (bytes * list field)) :
  plain (sender_comp_id self) -> plain (target_comp_id self) ->
  out_seq self + N.of_nat (length msgs) <= u64_limit -> Forall app_message msgs ->
  exists self' w' wire,
    mfor msgs (fun m => FixSession.send m.1 m.2) (self, w) = (Ok tt, (self', w')) /\
    sent w' = sent w ++ wire /\
    forall acceptor c chunks (r : Draining V) sock,
      concat (c :: chunks) = wire -> parse_buf r = [] -> socket r = Some sock ->
      receive acceptor (c :: chunks) r =
      (Ok tt, mkDraining [] (Some sock) (session r) (events r ++ delivered (out_seq self) msgs)).
Proof.
  intros Hs Ht Hseq Hall.
  destruct (send_all self w msgs Hs Ht Hseq Hall) as (self' & w' & wire & Hrun & Hw & Hdrain).
  exists self', w', wire. split_and!; [done..|]. intros acceptor c chunks r sock Hc Hbuf Hsock.
  apply receive_concat. rewrite Hc. destruct r as [buf so sess evs]. simpl in *. subst buf so.
  unfold feed. cbn [parse_buf socket session events]. rewrite <-(app_nil_r wire), app_nil_l, Hdrain.
  done.
Qed.

(** A connection in memory: what was written, the reads to come, a stopped clock. *)
Record MemWire := mkMemWire { mem_out : bytes; mem_in : list ReadResult; mem_clock : bytes }.
#[export] Instance mem_wire : Wire MemWire := {
  write_all b w := (Ok tt, mkMemWire (mem_out w ++ b) (mem_in w) (mem_clock w));
  flush w := (Ok tt, w);
  read w := match mem_in w with
            | [] => (RWouldBlock, w)
            | r :: rs => (r, mkMemWire (mem_out w) rs (mem_clock w))
            end;
  set_nonblocking w := (Ok tt, w);
  now_sending_time w := (str "20240627-11:17:25.223", w) }.

Lemma bytes_plain v : bool_decide (SOH ∉ v) && utf8_valid v = true -> plain v.
Proof. intros [Hs%bool_decide_eq_true_1 Hu]%andb_true_iff. by split. Qed.

#[export] Instance mem_reliable : Reliable MemWire.
Proof.
  refine {| sent := mem_out |}.
  - intros b w. by eexists.
  - intros w. by eexists.
  - intros w. split; [|done]. apply bytes_plain. vm_compute. reflexivity.
Defined.

(** Two messages, read in three chunks that cut both of them. *)
Lemma fix_delivery_witness :
  let self := FixSession.new (str "ME") (str "YOU") in
  let msgs := [(str "D", [(55, str "AAPL")]); (str "F", [])] in
  exists self' w' wire,
    mfor msgs (fun m => FixSession.send m.1 m.2) (self, mkMemWire [] [] []) = (Ok tt, (self', w')) /\
    receive true [take 10 wire; take 90 (drop 10 wire); drop 90 (drop 10 wire)]
      (mkDraining [] (Some (mkMemWire [] [] [])) (FixSession.new (str "YOU") (str "ME")) []) =
    (Ok tt, mkDraining [] (Some (mkMemWire [] [] [])) (FixSession.new (str "YOU") (str "ME"))
       [Data (mkFix (str "D") 1 NanoTime.ZERO [(55, str "AAPL")]); Data (mkFix (str "F") 2 NanoTime.ZERO [])]).
Proof.
  intros self msgs.
  destruct (fix_delivery (V := MemWire) self (mkMemWire [] [] []) msgs)
    as (self' & w' & wire & Hrun & _ & Hrecv).
  - apply bytes_plain. vm_compute. reflexivity.
  - apply bytes_plain. vm_compute. reflexivity.
  - vm_compute. discriminate.
  - repeat constructor; try (apply bytes_plain; vm_compute; reflexivity);
      try (vm_compute; reflexivity || discriminate); apply (bool_decide_unpack _); vm_compute; exact I.
  - exists self', w', wire. split; [exact Hrun|].
    apply (Hrecv true _ _ (mkDraining [] (Some (mkMemWire [] [] [])) (FixSession.new (str "YOU") (str "ME")) []));
      [|reflexivity..].
    cbn [concat]. by rewrite app_nil_r, !take_drop.
Defined.

(** ** Session-level messages *)

(** What a message does to the session, by its type. A Logon is answered by a
    Logon of our own when we accepted the connection, and reported either way; a
    TestRequest is answered by a Heartbeat that echoes its id; a Logout is
    reported with its text; none of these, nor a Heartbeat, reaches the
    application, and every other message does, with nothing else done. Every
    answer is one more than the last in sequence number. *)
Theorem fix_session_messages {W} `{Reliable W} (acceptor : bool) (msg : FixMessage)
    (self : FixSession) (w : W) (evs : list FixEvent) :
  out_seq self < u64_limit ->
  exists w' t pass answer,
    (if acceptor then handle_acceptor msg else handle_initiator msg) ((self, w), evs) =
      (Ok pass, ((if answer is Some _ then bump self else self, w'),
        evs ++ (if decide (msg_type msg = MSG_LOGON) then [Status LoggedIn]
                else if decide (msg_type msg = MSG_LOGOUT) then [Status (LoggedOut (get_field msg TAG_TEXT))]
                else []))) /\
    sent w' = sent w ++ (if answer is Some (mt, extra)
      then encode_message mt (sender_comp_id self) (target_comp_id self) (out_seq self + 1) t extra else []) /\
    answer = (if decide (msg_type msg = MSG_LOGON) then
                if acceptor then Some (MSG_LOGON, FixSession.logon_fields self (out_seq self + 1) t) else None
              else if decide (msg_type msg = MSG_TEST_REQUEST) then
                Some (MSG_HEARTBEAT, match get_field msg TAG_TEST_REQ_ID with
                                     | Some id => [(TAG_TEST_REQ_ID, id)] | None => [] end)
              else None) /\
    pass = bool_decide (msg_type msg ∉ [MSG_LOGON; MSG_HEARTBEAT; MSG_TEST_REQUEST; MSG_LOGOUT]).
Proof.
  intros Hseq. unfold handle_acceptor, handle_initiator.
  destruct (decide (msg_type msg = MSG_LOGON)) as [Hl|Hl].
  { rewrite bool_decide_eq_true_2 by done. rewrite Hl.
    destruct acceptor.
    - destruct (send_with_spec self w MSG_LOGON (FixSession.logon_fields self) Hseq)
        as (w' & t & Hsend & _ & Hs).
      exists w', t, false, (Some (MSG_LOGON, FixSession.logon_fields self (out_seq self + 1) t)).
      split_and!; [|by rewrite Hs|done|by vm_compute].
      erewrite mbind_ok by (by apply on_session_run). done.
    - exists w, [], false, None. split_and!; [done|by rewrite app_nil_r|done|by vm_compute]. }
  rewrite !(bool_decide_eq_false_2 (msg_type msg = MSG_LOGON)) by done.
  destruct (decide (msg_type msg = MSG_HEARTBEAT)) as [Hh|Hh].
  { rewrite !bool_decide_eq_true_2 by done. exists w, [], false, None.
    rewrite Hh. split_and!; [|by rewrite app_nil_r|done|by vm_compute]. rewrite app_nil_r. by destruct acceptor. }
  rewrite !(bool_decide_eq_false_2 (msg_type msg = MSG_HEARTBEAT)) by done.
  destruct (decide (msg_type msg = MSG_TEST_REQUEST)) as [Ht|Ht].
  { rewrite !bool_decide_eq_true_2 by done.
    destruct (send_spec self w MSG_HEARTBEAT (match get_field msg TAG_TEST_REQ_ID with
      | Some id => [(TAG_TEST_REQ_ID, id)] | None => [] end) Hseq) as (w' & t & Hsend & _ & Hs).
    exists w', t, false, (Some (MSG_HEARTBEAT, match get_field msg TAG_TEST_REQ_ID with
      | Some id => [(TAG_TEST_REQ_ID, id)] | None => [] end)).
    rewrite Ht. split_and!; [|by rewrite Hs|done|by vm_compute].
    rewrite app_nil_r. by destruct acceptor; erewrite mbind_ok by (by apply on_session_run). }
  rewrite !(bool_decide_eq_false_2 (msg_type msg = MSG_TEST_REQUEST)) by done.
  exists w, []. destruct (decide (msg_type msg = MSG_LOGOUT)) as [Ho|Ho].
  - rewrite !bool_decide_eq_true_2 by done. exists false, None. rewrite Ho.
    split_and!; [by destruct acceptor|by rewrite app_nil_r|done|by vm_compute].
  - rewrite !(bool_decide_eq_false_2 (msg_type msg = MSG_LOGOUT)) by done. exists true, None.
    rewrite !app_nil_r. split_and!; [by destruct acceptor|done|done|].
    symmetry. apply bool_decide_eq_true_2. rewrite !not_elem_of_cons. split_and!; try done. apply not_elem_of_nil.
Qed.

Lemma fix_session_messages_witness :
  exists w' t, handle_initiator (mkFix MSG_TEST_REQUEST 5 0%Z [(112, str "hello")])
      ((FixSession.new (str "ME") (str "YOU"), mkMemWire [] [] []), []) =
    (Ok false, ((bump (FixSession.new (str "ME") (str "YOU")), w'), [])) /\
    mem_out w' = encode_message (str "0") (str "ME") (str "YOU") 1 t [(112, str "hello")].
Proof.
  destruct (fix_session_messages false (mkFix MSG_TEST_REQUEST 5 0%Z [(112, str "hello")])
    (FixSession.new (str "ME") (str "YOU")) (mkMemWire [] [] []) [])
    as (w' & t & pass & answer & Hrun & Hsent & Ha & Hp).
  - vm_compute. reflexivity.
  - exists w', t. vm_compute in Ha. subst answer. vm_compute in Hp. subst pass.
    split; [exact Hrun|exact Hsent].
Defined.
