(* ===== verification/FixNodes.v ===== *)
(** * The FIX adapter's nodes and its session loop: [wingfoil/src/adapters/fix/mod.rs]

    The two polled sources, the subscription and sender sinks, and the loop a
    background thread runs. Connecting, accepting and the queues between threads
    belong to the environment: their outcomes are arguments, or the methods of
    the classes [Listener], [InjectQueue] and [EventChannel].

    Then, what the nodes promise. [fix_sub_correct]: the subscription sink asks
    for every symbol once, after logon. [spin_disconnect_drops_frames]: what the
    polled source does with the messages that arrive together with the end of the
    stream. *)
From S2P Require Import Prelude NanoTime TimeQueue GraphState NodeCalls Fix FixCodec FixProps.

(** [connect_with_retry]: twenty attempts; [attempt n] is the outcome of the [n]-th. *)
Fixpoint connect_attempts {W} (attempt : nat -> Res W) (n : nat) (left : nat) : Res W :=
  match left with
  | O => Err (Msg "failed to connect after 20 attempts")
  | S left' =>
    match attempt n with
    | Err _ => if Nat.ltb n 19 then connect_attempts attempt (S n) left' else attempt n
    | r => r
    end
  end.
Definition connect_with_retry {W} (attempt : nat -> Res W) : Res W := connect_attempts attempt 0 20.

Definition realtime_only : Error := Msg "FIX nodes only support real-time mode".

(** The [loop] that reads until the socket would block: whether it met the end
    of the stream, the socket, the buffer. *)
Fixpoint read_available {W} `{Wire W} (fuel : nat) (sock : W) (buf : bytes) : Res bool * (W * bytes) :=
  match fuel with
  | O => (OutOfFuel, (sock, buf))
  | S fuel' =>
    match read sock with
    | (REof, sock') => (Ok true, (sock', buf))
    | (RData data, sock') => read_available fuel' sock' (buf ++ data)
    | (RWouldBlock, sock') => (Ok false, (sock', buf))
    | (RTimedOut, sock') => (Err (Msg "timed out"), (sock', buf))
    | (RReset, sock') => (Err (Msg "connection reset"), (sock', buf))
    | (ROther e, sock') => (Err e, (sock', buf))
    end
  end.

(** [let _ = self.session.send_logout(&mut sock);] with the socket taken. *)
Definition logout_ignored {W} `{Wire W} (session : FixSession) (sock : option W) : Res FixSession :=
  match sock with
  | None => Ok session
  | Some w =>
    match FixSession.send_logout (session, w) with
    | (Panic why, _) => Panic why
    | (OutOfFuel, _) => OutOfFuel
    | (_, (session', _)) => Ok session'
    end
  end.

Module FixSpinSource.
Section node.
Context {W : Type} `{Wire W}.
Record FixSpinSource := mk {
  session : FixSession; socket : option W; parse_buf : bytes; value : list FixEvent }.
Definition new (sender target : bytes) : FixSpinSource :=
  mk (FixSession.new sender target) None [] [].

Definition drain_messages : NodeM FixSpinSource bool :=
  let! self := get_self in
  let '(r, d) := drain_parse_buf false
    (mkDraining (parse_buf self) (socket self) (session self) (value self)) in
  do! put_self (mk (Fix.session d) (Fix.socket d) (Fix.parse_buf d) (events d)) in
  mlift r.

Definition start (attempt : nat -> Res W) : NodeM FixSpinSource unit :=
  let! g := graph in
  match run_mode g with
  | HistoricalFrom _ => mfail realtime_only
  | RealTime =>
    do! call GraphState.always_callback in
    let! sock := mlift (connect_with_retry attempt) in
    let! self := get_self in
    let '(r, (session', sock)) := FixSession.send_logon (session self, sock) in
    do! put_self (mk session' (socket self) (parse_buf self) (value self)) in
    do! mlift r in
    let '(r, sock) := set_nonblocking sock in
    do! mlift r in
    let! self := get_self in
    put_self (mk (session self) (Some sock) (parse_buf self) (value self ++ [Status LoggingIn]))
  end.

Definition cycle (fuel : nat) : NodeM FixSpinSource bool :=
  let! self := get_self in
  do! put_self (mk (session self) (socket self) (parse_buf self) []) in
  let! eof := (match socket self with
    | None => mreturn false
    | Some sock =>
      let '(r, (sock', buf)) := read_available fuel sock (parse_buf self) in
      do! put_self (mk (session self) (Some sock') buf []) in
      mlift r
    end) in
  let! self := get_self in
  if eof : bool then
    do! put_self (mk (session self) None (parse_buf self) (value self ++ [Status Disconnected])) in
    mreturn true
  else drain_messages.

Definition upstreams (self : FixSpinSource) : UpStreams := UpStreams_none.

Definition stop : NodeM FixSpinSource unit :=
  let! self := get_self in
  let! session' := mlift (logout_ignored (session self) (socket self)) in
  put_self (mk session' None (parse_buf self) (value self)).
End node.
Arguments FixSpinSource : clear implicits.
End FixSpinSource.

(** A listening socket: [accept] on a non-blocking one. *)
Inductive AcceptResult (W : Type) := Accepted (w : W) | NoneYet | AcceptError (e : Error).
Arguments Accepted {W} w.
Arguments NoneYet {W}.
Arguments AcceptError {W} e.
Class Listener (L W : Type) := {
  accept : L -> AcceptResult W * L;
  listener_nonblocking : M L unit }.

Module FixAcceptorSpin.
Section node.
Context {L W : Type} `{Wire W, Listener L W}.
Record FixAcceptorSpin := mk {
  session : FixSession; listener : option L; socket : option W; parse_buf : bytes;
  value : list FixEvent }.
Definition new (sender target : bytes) : FixAcceptorSpin :=
  mk (FixSession.new sender target) None None [] [].

Definition start (bind : Res L) : NodeM FixAcceptorSpin unit :=
  let! g := graph in
  match run_mode g with
  | HistoricalFrom _ => mfail realtime_only
  | RealTime =>
    do! call GraphState.always_callback in
    let! l := mlift bind in
    let '(r, l) := listener_nonblocking l in
    do! mlift r in
    let! self := get_self in
    put_self (mk (session self) (Some l) (socket self) (parse_buf self) (value self))
  end.

(** The accept phase: whether a connection was made. *)
Definition accept_phase : NodeM FixAcceptorSpin bool :=
  let! self := get_self in
  match socket self, listener self with
  | None, Some l =>
    let '(r, l) := accept l in
    do! put_self (mk (session self) (Some l) None (parse_buf self) (value self)) in
    match r with
    | Accepted stream =>
      let '(r, stream) := set_nonblocking stream in
      do! mlift r in
      do! put_self (mk (session self) (Some l) (Some stream) (parse_buf self)
                      (value self ++ [Status LoggingIn])) in
      mreturn true
    | NoneYet => mreturn false
    | AcceptError e => mfail e
    end
  | _, _ => mreturn false
  end.

Definition cycle (fuel : nat) : NodeM FixAcceptorSpin bool :=
  let! self := get_self in
  do! put_self (mk (session self) (listener self) (socket self) (parse_buf self) []) in
  let! ticked := accept_phase in
  let! self := get_self in
  let! eof := (match socket self with
    | None => mreturn false
    | Some sock =>
      let '(r, (sock', buf)) := read_available fuel sock (parse_buf self) in
      do! put_self (mk (session self) (listener self) (Some sock') buf (value self)) in
      mlift r
    end) in
  let! self := get_self in
  do! (if eof : bool then
         put_self (mk (session self) (listener self) None (parse_buf self)
                     (value self ++ [Status Disconnected]))
       else mreturn tt) in
  let! self := get_self in
  let '(r, d) := drain_parse_buf true
    (mkDraining (parse_buf self) (socket self) (session self) (value self)) in
  do! put_self (mk (Fix.session d) (listener self) (Fix.socket d) (Fix.parse_buf d) (events d)) in
  let! msg_ticked := mlift r in
  mreturn (ticked || eof || msg_ticked).

Definition upstreams (self : FixAcceptorSpin) : UpStreams := UpStreams_none.

Definition stop : NodeM FixAcceptorSpin unit :=
  let! self := get_self in
  let! session' := mlift (logout_ignored (session self) (socket self)) in
  put_self (mk session' (listener self) None (parse_buf self) (value self)).
End node.
Arguments FixAcceptorSpin : clear implicits.
End FixAcceptorSpin.

(** ** Queues between threads *)

(** [kanal::Sender::try_send]: [Ok(true)], [Ok(false)] or [Err]. *)
Inductive TrySend := Queued | Full | Gone.
Class InjectQueue (X : Type) := try_send : FixMessage -> X -> TrySend * X.

Inductive SendError := QueueFull | Closed.

(** [FixSender::send] and [send_or_log] (which drops the error). *)
Definition sender_send {X} `{InjectQueue X} (m : FixMessage) (x : X) : option SendError * X :=
  let '(r, x') := try_send m x in
  (match r with Queued => None | Full => Some QueueFull | Gone => Some Closed end, x').
Definition send_or_log {X} `{InjectQueue X} (m : FixMessage) (x : X) : X := (sender_send m x).2.

(** What the session thread sees: the channel to the graph, which may be closed,
    and the inject queue's receiver ([None]: empty, or no senders left). *)
Class EventChannel (X : Type) := {
  send_event : FixEvent -> X -> bool * X;
  try_recv : X -> option FixMessage * X }.

(** ** Market data subscriptions *)

Definition market_data_request (symbol req_id : bytes) : FixMessage :=
  mkFix (str "V") 0 NanoTime.ZERO
    [(262%N, req_id); (263%N, str "1"); (264%N, str "1"); (265%N, str "0"); (267%N, str "2");
     (269%N, str "0"); (269%N, str "1"); (146%N, str "1"); (48%N, symbol); (22%N, str "8")].

Definition is_logged_in (s : FixSessionStatus) : bool :=
  match s with LoggedIn => true | _ => false end.

Module FixSubNode.
Section node.
Context {X : Type} `{InjectQueue X}.
Record FixSubNode := mk {
  status : addr; symbols : addr; pending : list bytes; sent : list bytes; logged_in : bool }.
(** What [fix_sub] builds. *)
Definition new (status symbols : addr) : FixSubNode := mk status symbols [] [] false.
Definition upstreams (self : FixSubNode) : UpStreams := mkUpStreams [status self; symbols self] [].

Definition req_id (n : nat) (sym : bytes) : bytes :=
  str "sub_" ++ to_string (N.of_nat n) ++ str "_" ++ sym.

Definition subscribe (sym : bytes) : NodeM (FixSubNode * X) unit :=
  let! s := get_self in
  let '(self, x) := s in
  let x := send_or_log (market_data_request sym (req_id (length (sent self)) sym)) x in
  put_self (mk (status self) (symbols self) (pending self) (sent self ++ [sym]) (logged_in self), x).

(** The body of the loop over the symbols that arrived. *)
Definition collect (sym : bytes) : NodeM (FixSubNode * X) unit :=
  let! s := get_self in
  let '(self, x) := s in
  if negb (bool_decide (sym ∈ sent self)) && negb (bool_decide (sym ∈ pending self)) then
    if logged_in self then subscribe sym
    else put_self (mk (status self) (symbols self) (pending self ++ [sym]) (sent self) (logged_in self), x)
  else mreturn tt.

Definition cycle (burst : list FixSessionStatus) (syms : list bytes) : NodeM (FixSubNode * X) bool :=
  let! s := get_self in
  let '(self, x) := s in
  do! (if existsb is_logged_in burst
       then put_self (mk (status self) (symbols self) (pending self) (sent self) true, x)
       else mreturn tt) in
  do! mfor syms collect in
  let! s := get_self in
  let '(self, x) := s in
  do! (if logged_in self && negb (Nat.eqb (length (pending self)) 0) then
         do! put_self (mk (status self) (symbols self) [] (sent self) (logged_in self), x) in
         mfor (pending self) (fun sym =>
           let! s := get_self in
           if negb (bool_decide (sym ∈ sent s.1)) then subscribe sym else mreturn tt)
       else mreturn tt) in
  mreturn false.
End node.
End FixSubNode.

(** ** The sender sink *)

(** Its read loop gives the connection up on any error but would-block. *)
Fixpoint read_or_drop {W} `{Wire W} (fuel : nat) (sock : W) (buf : bytes) : Res (option W) * bytes :=
  match fuel with
  | O => (OutOfFuel, buf)
  | S fuel' =>
    match read sock with
    | (RData data, sock') => read_or_drop fuel' sock' (buf ++ data)
    | (RWouldBlock, sock') => (Ok (Some sock'), buf)
    | _ => (Ok None, buf)
    end
  end.

Module FixSenderNode.
Section node.
Context {W : Type} `{Wire W}.
Record FixSenderNode := mk {
  src : addr; session : FixSession; socket : option W; parse_buf : bytes }.

Definition start (attempt : nat -> Res W) : NodeM FixSenderNode unit :=
  let! g := graph in
  match run_mode g with
  | HistoricalFrom _ => mfail realtime_only
  | RealTime =>
    let! sock := mlift (connect_with_retry attempt) in
    let! self := get_self in
    let '(r, (session', sock)) := FixSession.send_logon (session self, sock) in
    do! put_self (mk (src self) session' (socket self) (parse_buf self)) in
    do! mlift r in
    let '(r, sock) := set_nonblocking sock in
    do! mlift r in
    put_self (mk (src self) session' (Some sock) (parse_buf self))
  end.

Definition cycle (fuel : nat) (msg : FixMessage) : NodeM FixSenderNode bool :=
  let! self := get_self in
  do! put_self (mk (src self) (session self) None (parse_buf self)) in
  let! sock_opt := (match socket self with
    | None => mreturn None
    | Some sock =>
      let '(r, buf) := read_or_drop fuel sock (parse_buf self) in
      do! put_self (mk (src self) (session self) None buf) in
      mlift r
    end) in
  let! self := get_self in
  let '(r, d) := drain_parse_buf false (mkDraining (parse_buf self) sock_opt (session self) []) in
  do! put_self (mk (src self) (Fix.session d) None (Fix.parse_buf d)) in
  let! ticked := mlift r in
  match Fix.socket d with
  | None => mfail (Msg "FIX sender: connection lost")
  | Some sock =>
    let '(r, (session', sock)) := FixSession.send (msg_type msg) (fields msg) (Fix.session d, sock) in
    do! put_self (mk (src self) session' None (Fix.parse_buf d)) in
    do! mlift r in
    do! put_self (mk (src self) session' (Some sock) (Fix.parse_buf d)) in
    mreturn true
  end.

Definition upstreams (self : FixSenderNode) : UpStreams := mkUpStreams [src self] [].

Definition stop : NodeM FixSenderNode unit :=
  let! self := get_self in
  let! session' := mlift (logout_ignored (session self) (socket self)) in
  put_self (mk (src self) session' None (parse_buf self)).
End node.
Arguments FixSenderNode : clear implicits.
End FixSenderNode.

(** ** The session loop of a background thread

    The answer tells whether the caller may reconnect; the session and what else
    the thread shares with the graph survive it, the socket does not. *)
Section run_session.
Context {W X : Type} `{Wire W, EventChannel X}.

(** Forward the injected messages: whether every write succeeded. *)
Fixpoint flush_inject (fuel : nat) (s : FixSession) (sock : W) (x : X) : Res bool * (FixSession * W * X) :=
  match fuel with
  | O => (OutOfFuel, (s, sock, x))
  | S fuel' =>
    match try_recv x with
    | (None, x) => (Ok true, (s, sock, x))
    | (Some msg, x) =>
      match FixSession.send (msg_type msg) (fields msg) (s, sock) with
      | (Ok _, (s, sock)) => flush_inject fuel' s sock x
      | (Err _, (s, sock)) => (Ok false, (s, sock, x))
      | (Panic w, (s, sock)) => (Panic w, (s, sock, x))
      | (OutOfFuel, (s, sock)) => (OutOfFuel, (s, sock, x))
      end
    end
  end.

Fixpoint send_events (evs : list FixEvent) (x : X) : bool * X :=
  match evs with
  | [] => (true, x)
  | e :: evs' => let '(ok, x) := send_event e x in if ok : bool then send_events evs' x else (false, x)
  end.

Fixpoint session_loop (fuel : nat) (is_acceptor : bool) (s : FixSession) (sock_opt : option W)
    (parse_buf : bytes) (x : X) : Res bool * (FixSession * X) :=
  match fuel with
  | O => (OutOfFuel, (s, x))
  | S fuel' =>
    match sock_opt with
    | None => (Ok true, (s, x))
    | Some sock =>
      let '(r, sock) := read sock in
      let got := match r with
                 | RData data => Some (Some data)
                 | RTimedOut | RWouldBlock => Some None
                 | REof | RReset | ROther _ => None
                 end in
      match got with
      | None => (Ok true, (s, x))
      | Some data =>
        let '(r, d) :=
          match data with
          | Some data => drain_parse_buf is_acceptor (mkDraining (parse_buf ++ data) (Some sock) s [])
          | None => (Ok false, mkDraining parse_buf (Some sock) s [])
          end in
        match r with
        | Err _ => (Ok true, (session d, x))
        | Panic w => (Panic w, (session d, x))
        | OutOfFuel => (OutOfFuel, (session d, x))
        | Ok _ =>
          let '(r, (s, sock_opt, x)) :=
            match socket d with
            | None => (Ok true, (session d, None, x))
            | Some sock =>
              let '(r, (s, sock, x)) := flush_inject fuel' (session d) sock x in (r, (s, Some sock, x))
            end in
          match r with
          | Ok true =>
            let '(ok, x) := send_events (events d) x in
            if ok : bool then session_loop fuel' is_acceptor s sock_opt (Fix.parse_buf d) x
            else (Ok false, (s, x))
          | Ok false => (Ok true, (s, x))
          | Err e => (Err e, (s, x))
          | Panic w => (Panic w, (s, x))
          | OutOfFuel => (OutOfFuel, (s, x))
          end
        end
      end
    end
  end.

Definition run_fix_session (fuel : nat) (sock : W) (s : FixSession) (is_acceptor : bool) (x : X)
  : Res bool * (FixSession * X) :=
  let '(ok, x) := send_event (Status LoggingIn) x in
  if ok : bool then
    let '(r, (s, sock)) :=
      if is_acceptor then (Ok tt, (s, sock)) else FixSession.send_logon (s, sock) in
    match r with
    | Ok _ => session_loop fuel is_acceptor s (Some sock) [] x
    | Err e => let '(_, x) := send_event (Status (StatusError e)) x in (Ok true, (s, x))
    | Panic w => (Panic w, (s, x))
    | OutOfFuel => (OutOfFuel, (s, x))
    end
  else (Ok false, (s, x)).
End run_session.

(** ** The end of the stream *)

Section disconnect.
Context {W : Type} `{Wire W}.
Import FixSpinSource.

(** Without a socket, draining discards every frame. *)
Lemma drained_disconnected acceptor (s : Draining W) :
  Fix.socket s = None ->
  exists buf, drained acceptor s = (Ok tt, mkDraining buf None (Fix.session s) (events s)) /\
    find_message buf = None.
Proof.
  remember (length (Fix.parse_buf s)) as n eqn:Hn. revert s Hn.
  induction (lt_wf n) as [n _ IH]; intros s -> Hs. rewrite drained_unfold.
  destruct (drain_round acceptor s) as [[r s']|] eqn:Hr.
  - destruct (drain_round_feed acceptor [] _ _ _ Hr) as [Hlt _].
    assert (Hs' : r = Ok tt /\ Fix.socket s' = None /\ Fix.session s' = Fix.session s /\ events s' = events s).
    { unfold drain_round in Hr. rewrite Hs in Hr. destruct (find_message (Fix.parse_buf s)) as [[m k]|]; [|done].
      destruct (build_message (decode_fields m)); by simplify_eq. }
    destruct Hs' as (-> & Hnone & Hsess & Hev).
    destruct (IH _ Hlt s' eq_refl Hnone) as (buf & -> & Hbuf). exists buf. by rewrite Hsess, Hev.
  - exists (Fix.parse_buf s). destruct s as [buf so sess evs]. simpl in *. subst so. split; [done|].
    unfold drain_round in Hr. simpl in Hr. by destruct (find_message buf) as [[m k]|].
Qed.

Lemma drain_disconnected acceptor (s : Draining W) :
  Fix.socket s = None ->
  exists buf, drain_parse_buf acceptor s = (Ok false, mkDraining buf None (Fix.session s) (events s)) /\
    find_message buf = None.
Proof.
  intros Hs. destruct (drained_disconnected acceptor s Hs) as (buf & Hd & Hbuf). exists buf.
  split; [|done]. unfold drain_parse_buf. unfold drained in Hd. rewrite Hd. simpl.
  by rewrite Nat.ltb_irrefl.
Qed.

(** Messages that arrive together with the end of the stream are lost. The
    cycle of the polled initiator that meets the end reports the disconnection
    and nothing else, whatever complete messages it read before it; the next
    cycle, having no socket, discards them from the buffer and does not tick. *)
Theorem spin_disconnect_drops_frames (fuel fuel' : nat) (self : FixSpinSource W) (sock sock' : W)
    (buf : bytes) (g g' : GraphState) :
  socket self = Some sock ->
  read_available fuel sock (parse_buf self) = (Ok true, (sock', buf)) ->
  let self1 := mk (session self) None buf [Status Disconnected] in
  cycle fuel (self, g) = (Ok true, (self1, g)) /\
  exists rest, cycle fuel' (self1, g') = (Ok false, (mk (session self) None rest [], g')) /\
    find_message rest = None.
Proof.
  intros Hsock Hread self1. split.
  - unfold cycle, get_self, put_self, mbind, mlift. simpl. rewrite Hsock, Hread. done.
  - unfold cycle, drain_messages, get_self, put_self, mbind, mlift, mreturn. simpl.
    destruct (drain_disconnected false (mkDraining (W:=W) buf None (session self) []) eq_refl)
      as (rest & Hd & Hrest).
    exists rest. rewrite Hd. done.
Qed.
End disconnect.

(** A Logout and the end of the stream in one cycle. *)
Lemma spin_disconnect_drops_frames_witness :
  let logout := encode_message (str "5") (str "YOU") (str "ME") 1 (str "20240627-11:17:25.223") [] in
  let self := FixSpinSource.mk (FixSession.new (str "ME") (str "YOU"))
                (Some (mkMemWire [] [RData logout; REof] [])) [] [] in
  let g := GraphState.new RealTime Forever 0 in
  exists self1, FixSpinSource.cycle 5 (self, g) = (Ok true, (self1, g)) /\
    FixSpinSource.value self1 = [Status Disconnected] /\
    (exists m, find_message (FixSpinSource.parse_buf self1) = Some m) /\
    exists self2, FixSpinSource.cycle 5 (self1, g) = (Ok false, (self2, g)) /\
      FixSpinSource.value self2 = [].
Proof.
  intros logout self g.
  destruct (spin_disconnect_drops_frames 5 5 self (mkMemWire [] [RData logout; REof] [])
    (mkMemWire [] [] []) logout g g) as (H1 & rest & H2 & _); [reflexivity..|].
  eexists. split_and!; [exact H1|reflexivity| |eexists; split; [exact H2|reflexivity]].
  eexists. vm_compute. reflexivity.
Defined.

(** ** Subscriptions *)

Section subscriptions.
Context {X : Type} `{InjectQueue X}.
Import FixSubNode.
(** The messages offered to the queue so far, whatever became of them. *)
Context (offered : X -> list FixMessage).
Context (Hoffered : forall m x, offered (try_send m x).2 = offered x ++ [m]).
Implicit Types (self : FixSubNode) (x : X) (g : GraphState).

Lemma send_or_log_offered m x : offered (send_or_log m x) = offered x ++ [m].
Proof.
  unfold send_or_log, sender_send. pose proof (Hoffered m x) as Ho.
  destruct (try_send m x) as [[] x']; exact Ho.
Qed.

(** The node's state, against the symbols it has seen and whether a logon was. *)
Record sub_inv (seen : list bytes) (logon : bool) self x : Prop := {
  si_nodup : NoDup (sent self ++ pending self);
  si_seen sym : sym ∈ sent self ++ pending self <-> sym ∈ seen;
  si_logged : logged_in self = logon;
  si_before : logon = false -> sent self = [];
  si_offered : offered x = imap (fun i sym => market_data_request sym (req_id i sym)) (sent self) }.

Lemma subscribe_run self x g sym :
  exists x', subscribe sym ((self, x), g) =
    (Ok tt, ((mk (status self) (symbols self) (pending self) (sent self ++ [sym]) (logged_in self), x'), g)) /\
    offered x' = offered x ++ [market_data_request sym (req_id (length (sent self)) sym)].
Proof.
  exists (send_or_log (market_data_request sym (req_id (length (sent self)) sym)) x).
  split; [reflexivity|]. apply send_or_log_offered.
Qed.

Lemma imap_offered (f : nat -> bytes -> FixMessage) l sym :
  imap f (l ++ [sym]) = imap f l ++ [f (length l) sym].
Proof. rewrite imap_app. simpl. by rewrite Nat.add_0_r. Qed.

(** One symbol of the stream. [settled]: nothing is pending once logged on. *)
Lemma collect_run seen logon self x g sym :
  sub_inv seen logon self x ->
  exists self' x', collect sym ((self, x), g) = (Ok tt, ((self', x'), g)) /\
    sub_inv (seen ++ [sym]) logon self' x' /\ status self' = status self /\ symbols self' = symbols self.
Proof.
  intros [Hnd Hseen Hlog Hbefore Hoff]. unfold collect, get_self. unfold mbind at 1. simpl.
  assert (Hin : sym ∈ sent self ++ pending self <-> sym ∈ sent self \/ sym ∈ pending self)
    by apply elem_of_app.
  destruct (decide (sym ∈ sent self ++ pending self)) as [Hold|Hnew].
  - assert (Hb : negb (bool_decide (sym ∈ sent self)) && negb (bool_decide (sym ∈ pending self)) = false).
    { apply Hin in Hold as [Hs|Hp]; [by rewrite (bool_decide_eq_true_2 (sym ∈ sent self))|].
      rewrite (bool_decide_eq_true_2 (sym ∈ pending self)) by done. apply andb_false_r. }
    rewrite Hb. exists self, x. split_and!; try done. split; try done.
    intros s. rewrite Hseen, elem_of_app, list_elem_of_singleton. split; [by left|].
    intros [?| ->]; [done|]. by apply Hseen.
  - assert (Hb : negb (bool_decide (sym ∈ sent self)) && negb (bool_decide (sym ∈ pending self)) = true).
    { rewrite !bool_decide_eq_false_2 by tauto. done. }
    rewrite Hb. assert (Hs : forall s, s ∈ seen ++ [sym] <-> s ∈ sent self ++ pending self \/ s = sym).
    { intros s. by rewrite elem_of_app, list_elem_of_singleton, Hseen. }
    destruct (logged_in self) eqn:Hl.
    + destruct (subscribe_run self x g sym) as (x' & -> & Hx').
      eexists _, x'. split_and!; [done| |done|done].
      split; simpl; [| |congruence|intros ->; congruence|by rewrite Hx', Hoff, imap_offered].
      * rewrite <-app_assoc. apply NoDup_app in Hnd as (H1 & H2 & H3).
        apply NoDup_app. split_and!; [done| |].
        -- intros s Hs1 [->|Hs2]%elem_of_cons; [tauto|by eapply H2].
        -- constructor; [tauto|done].
      * intros s. rewrite Hs, !elem_of_app, list_elem_of_singleton. tauto.
    + eexists _, x. split_and!; [done| |done|done].
      split; simpl; [| |congruence|done|done].
      * rewrite app_assoc. apply NoDup_app. split_and!; [done| |apply NoDup_singleton].
        intros s Hs1 ->%list_elem_of_singleton. done.
      * intros s. rewrite Hs, app_assoc, (elem_of_app _ [sym]), list_elem_of_singleton. tauto.
Qed.

Lemma collect_all seen logon self x g syms :
  sub_inv seen logon self x ->
  exists self' x', mfor syms collect ((self, x), g) = (Ok tt, ((self', x'), g)) /\
    sub_inv (seen ++ syms) logon self' x' /\ status self' = status self /\ symbols self' = symbols self.
Proof.
  revert seen self x. induction syms as [|sym syms IH]; intros seen self x Hinv.
  { exists self, x. by rewrite app_nil_r. }
  destruct (collect_run _ _ _ _ g sym Hinv) as (self1 & x1 & Hc & Hinv1 & Hst1 & Hsy1).
  destruct (IH _ _ _ Hinv1) as (self2 & x2 & Hr & Hinv2 & Hst2 & Hsy2).
  exists self2, x2. cbn [mfor]. rewrite (mbind_ok _ _ _ _ _ Hc). rewrite <-app_assoc in Hinv2.
  split_and!; [done|done|congruence|congruence].
Qed.

(** What was pending before the logon. *)
Lemma drain_pending x g st sy l asked :
  NoDup (asked ++ l) ->
  exists x',
    mfor l (fun sym => let! s := get_self in
                       if negb (bool_decide (sym ∈ sent s.1)) then subscribe sym else mreturn tt)
      ((mk st sy [] asked true, x), g) = (Ok tt, ((mk st sy [] (asked ++ l) true, x'), g)) /\
    (offered x = imap (fun i sym => market_data_request sym (req_id i sym)) asked ->
     offered x' = imap (fun i sym => market_data_request sym (req_id i sym)) (asked ++ l)).
Proof.
  revert asked x. induction l as [|sym l IH]; intros asked x Hnd.
  { exists x. by rewrite app_nil_r. }
  assert (Hnew : sym ∉ asked).
  { apply NoDup_app in Hnd as (_ & Hd & _). intros Hin. apply (Hd _ Hin). by left. }
  destruct (subscribe_run (mk st sy [] asked true) x g sym) as (x1 & Hsub & Hx1).
  rewrite (cons_middle sym asked l), app_assoc in Hnd. destruct (IH _ x1 Hnd) as (x2 & Hr & Hx2).
  exists x2. rewrite (cons_middle sym asked l), app_assoc. split.
  - cbn [mfor]. erewrite mbind_ok; [exact Hr|].
    rewrite (mbind_ok get_self _ _ _ _ eq_refl). cbn [fst sent].
    by rewrite bool_decide_eq_false_2.
  - intros Ho. apply Hx2. by rewrite Hx1, Ho, imap_offered.
Qed.

Definition settled self : Prop := logged_in self = true -> pending self = [].

Lemma sub_cycle_run seen logon self x g burst syms :
  sub_inv seen logon self x ->
  exists self' x', cycle burst syms ((self, x), g) = (Ok false, ((self', x'), g)) /\
    sub_inv (seen ++ syms) (logon || existsb is_logged_in burst) self' x' /\ settled self'.
Proof.
  intros Hinv. unfold cycle. rewrite (mbind_ok get_self _ _ _ _ eq_refl). cbv iota beta.
  set (self0 := if existsb is_logged_in burst
    then mk (status self) (symbols self) (pending self) (sent self) true else self).
  assert (Hset : (if existsb is_logged_in burst
    then put_self (mk (status self) (symbols self) (pending self) (sent self) true, x)
    else mreturn tt) ((self, x), g) = (Ok tt, ((self0, x), g)))
    by (subst self0; by destruct (existsb is_logged_in burst)).
  cbn [fst]. rewrite (mbind_ok _ _ _ _ _ Hset).
  assert (Hinv0 : sub_inv seen (logon || existsb is_logged_in burst) self0 x).
  { subst self0. destruct Hinv as [H1 H2 H3 H4 H5]. destruct (existsb is_logged_in burst).
    - rewrite orb_true_r. by split.
    - rewrite orb_false_r. by split. }
  destruct (collect_all _ _ _ _ g syms Hinv0) as (self1 & x1 & Hc & Hinv1 & _).
  rewrite (mbind_ok _ _ _ _ _ Hc), (mbind_ok get_self _ _ _ _ eq_refl). cbn [fst].
  destruct (logged_in self1 && negb (Nat.eqb (length (pending self1)) 0)) eqn:Hgo.
  - apply andb_true_iff in Hgo as [Hl _]. destruct Hinv1 as [H1 H2 H3 H4 H5].
    destruct (drain_pending x1 g (status self1) (symbols self1) (pending self1) (sent self1) H1)
      as (x2 & Hd & Hx2).
    exists (mk (status self1) (symbols self1) [] (sent self1 ++ pending self1) true), x2. split_and!.
    + rewrite Hl. erewrite mbind_ok; [done|]. rewrite (mbind_ok (put_self _) _ _ _ _ eq_refl). exact Hd.
    + split; simpl; try done; [by rewrite app_nil_r|by rewrite app_nil_r|congruence| |by apply Hx2].
      intros Hf. congruence.
    + done.
  - exists self1, x1. split_and!; [done|done|]. intros Hl. rewrite Hl in Hgo. simpl in Hgo.
    destruct (pending self1); [done|discriminate].
Qed.

(** Any number of cycles. *)
Fixpoint cycles (calls : list (list FixSessionStatus * list bytes)) : NodeM (FixSubNode * X) unit :=
  match calls with
  | [] => mreturn tt
  | c :: calls' => do! cycle c.1 c.2 in cycles calls'
  end.

Lemma cycles_run calls seen logon self x g :
  sub_inv seen logon self x -> settled self ->
  exists self' x', cycles calls ((self, x), g) = (Ok tt, ((self', x'), g)) /\
    sub_inv (seen ++ concat (calls.*2)) (logon || existsb is_logged_in (concat (calls.*1))) self' x' /\
    settled self'.
Proof.
  revert seen logon self x. induction calls as [|[burst syms] calls IH]; intros seen logon self x Hinv Hset.
  { exists self, x. simpl. by rewrite app_nil_r, orb_false_r. }
  destruct (sub_cycle_run _ _ _ _ g burst syms Hinv) as (self1 & x1 & Hc & Hinv1 & Hset1).
  destruct (IH _ _ _ _ Hinv1 Hset1) as (self2 & x2 & Hr & Hinv2 & Hset2).
  exists self2, x2. cbn [cycles fst snd]. rewrite (mbind_ok _ _ _ _ _ Hc). split_and!; [done| |done].
  rewrite !fmap_cons, !concat_cons, existsb_app, orb_assoc, app_assoc. done.
Qed.
End subscriptions.

(** The subscription sink, over any sequence of cycles: it asks for every
    symbol it is shown exactly once and for nothing else, in requests numbered
    from zero; it sends no request before the session reports a logon, and after
    one holds no symbol back. What the queue makes of a request changes nothing:
    a request it drops is not repeated. *)
Theorem fix_sub_correct {X} `{InjectQueue X} (offered : X -> list FixMessage)
    (status symbols : addr) (x : X) (g : GraphState)
    (calls : list (list FixSessionStatus * list bytes)) :
  (forall m x, offered (try_send m x).2 = offered x ++ [m]) -> offered x = [] ->
  let logon := existsb is_logged_in (concat (calls.*1)) in
  exists self x', cycles calls ((FixSubNode.new status symbols, x), g) = (Ok tt, ((self, x'), g)) /\
    NoDup (FixSubNode.sent self) /\
    offered x' = imap (fun i sym => market_data_request sym (FixSubNode.req_id i sym)) (FixSubNode.sent self) /\
    (logon = false -> offered x' = []) /\
    (logon = true -> forall sym, sym ∈ FixSubNode.sent self <-> sym ∈ concat (calls.*2)).
Proof.
  intros Hoff Hx logon.
  assert (Hinv : sub_inv offered [] false (FixSubNode.new status symbols) x).
  { split; simpl; try done. constructor. }
  destruct (cycles_run offered Hoff calls [] false _ x g Hinv ltac:(done))
    as (self & x' & Hrun & [H1 H2 H3 H4 H5] & Hset).
  exists self, x'. split_and!; [done| |done| |].
  - by apply NoDup_app in H1 as [? _].
  - intros Hl. by rewrite H5, H4.
  - intros Hl sym. rewrite (Hset ltac:(rewrite H3; exact Hl)), app_nil_r in H2. apply H2.
Qed.

(** A queue that keeps what it is offered, and is always full. *)
#[export] Instance full_queue : InjectQueue (list FixMessage) := fun m q => (Full, q ++ [m]).

Lemma fix_sub_correct_witness :
  exists self x', cycles [([], [str "4001"; str "4002"]); ([LoggedIn], [str "4003"; str "4001"])]
      ((FixSubNode.new 1%positive 2%positive, []), GraphState.new RealTime Forever 0)
    = (Ok tt, ((self, x'), GraphState.new RealTime Forever 0)) /\
    FixSubNode.sent self = [str "4003"; str "4001"; str "4002"] /\
    x' = imap (fun i sym => market_data_request sym (FixSubNode.req_id i sym)) (FixSubNode.sent self).
Proof.
  destruct (fix_sub_correct (fun q => q) 1%positive 2%positive ([] : list FixMessage)
    (GraphState.new RealTime Forever 0)
    [([], [str "4001"; str "4002"]); ([LoggedIn], [str "4003"; str "4001"])])
    as (self & x' & Hrun & _ & Ho & _); [done|done|].
  exists self, x'. split_and!; [exact Hrun| |exact Ho].
  assert (Hev : FixSubNode.sent (cycles [([], [str "4001"; str "4002"]); ([LoggedIn], [str "4003"; str "4001"])]
    ((FixSubNode.new 1%positive 2%positive, ([] : list FixMessage)), GraphState.new RealTime Forever 0)).2.1.1
    = [str "4003"; str "4001"; str "4002"]) by (vm_compute; reflexivity).
  rewrite Hrun in Hev. exact Hev.
Defined.
