(* ===== verification/Latency.v ===== *)
(** * Latency measurement: [wingfoil/src/latency.rs]

    A latency record is its list of [u64] stamps; what the macro
    [latency_stages!] generates for it is the class [Latency]. The two stamping
    nodes and the report sink follow; the statistics of a stage are summarised
    by [Summary], the list of deltas they stand for. [latency_stats_refine]: the running
    statistics of every stage are those of the list of its deltas;
    [quantile_brackets]: how far off the estimated quantile is. *)
From stdpp Require Import pretty.
From S2P Require Import Prelude NanoTime TimeQueue GraphState NodeCalls.
From Stdlib Require Import Strings.Ascii.
Local Open Scope Z_scope.

(** ** Records and stages *)

(** [Latency]: the number of stages and their names. *)
Class Latency := { N : nat; stage_names : list string }.

Definition stamps_default `{Latency} : list Z := replicate N 0.

(** [*latency.stamp_mut(idx) = t], with the generated bounds check. *)
Definition stamp_mut `{Latency} (idx : nat) (t : Z) (latency : list Z) : Res (list Z) :=
  if Nat.ltb idx N then Ok (<[idx := t]> latency) else Panic "stage index out of bounds".

(** [Stage]: its index. *)
Record Stage := mkStage { INDEX : nat }.
Definition Stage_stamp `{Latency} (s : Stage) (latency : list Z) (t : Z) : Res (list Z) :=
  stamp_mut (INDEX s) t latency.

Record Traced (T : Type) := mkTraced { payload : T; latency : list Z }.
Arguments mkTraced {T} payload latency.
Arguments payload {T} t.
Arguments latency {T} t.
Definition Traced_new {T} `{Latency} (p : T) : Traced T := mkTraced p stamps_default.
Definition with_latency {T} (p : T) (l : list Z) : Traced T := mkTraced p l.

(** ** The stamping nodes *)

Module StampStream.
Section node.
Context {T : Type} `{Element T, Latency} (stage : Stage).
Record StampStream := mk { upstream : addr; value : Traced T }.
Definition new (up : addr) : StampStream := mk up (Traced_new default_value).
Definition upstreams (self : StampStream) : UpStreams := mkUpStreams [upstream self] [].
Definition cycle (up : Traced T) : NodeM StampStream bool :=
  let! self := get_self in
  do! put_self (mk (upstream self) up) in
  let! g := graph in
  let! l := mlift (Stage_stamp stage (latency up) (wall_time g)) in
  do! put_self (mk (upstream self) (mkTraced (payload up) l)) in
  mreturn true.
End node.
End StampStream.

(** [now]: the reading of the clock the call makes. *)
Module StampPreciseStream.
Section node.
Context {T : Type} `{Element T, Latency} (stage : Stage).
Record StampPreciseStream := mk { upstream : addr; value : Traced T }.
Definition new (up : addr) : StampPreciseStream := mk up (Traced_new default_value).
Definition upstreams (self : StampPreciseStream) : UpStreams := mkUpStreams [upstream self] [].
Definition cycle (now : Z) (up : Traced T) : NodeM StampPreciseStream bool :=
  let! self := get_self in
  do! put_self (mk (upstream self) up) in
  let! l := mlift (Stage_stamp stage (latency up) now) in
  do! put_self (mk (upstream self) (mkTraced (payload up) l)) in
  mreturn true.
End node.
End StampPreciseStream.

(** [stamp_if] and [stamp_precise_if]: the node to use in the upstream's place. *)
Definition stamp_if {A} (stamp : addr -> A * addr) (enabled : bool) (up : addr) : option A * addr :=
  if enabled then let '(node, a) := stamp up in (Some node, a) else (None, up).

(** ** Statistics *)

Definition HISTOGRAM_BUCKETS : nat := 64.

Record StageStats := mkStats {
  count : Z; sum_ns : Z; min_ns : Z; max_ns : Z; histogram : list Z }.
Definition StageStats_default : StageStats := mkStats 0 0 u64_max 0 (replicate HISTOGRAM_BUCKETS 0).

(** [u64::ilog2], which panics on zero. *)
Definition ilog2 (x : Z) : Res Z :=
  if x <=? 0 then Panic "argument of integer logarithm must be positive" else Ok (Z.log2 x).

Module StageStats.
Definition bucket_of (delta_ns : Z) : Res nat :=
  match ilog2 (wrap_u64 (delta_ns + 1)) with
  | Ok b => Ok (Nat.min (Z.to_nat b) (HISTOGRAM_BUCKETS - 1))
  | Err e => Err e
  | Panic w => Panic w
  | OutOfFuel => OutOfFuel
  end.

Definition record (delta_ns : Z) : M StageStats unit :=
  do! mmodify (fun s =>
    mkStats (wrap_u64 (count s + 1)) (u64_saturating_add (sum_ns s) delta_ns)
      (if delta_ns <? min_ns s then delta_ns else min_ns s)
      (if max_ns s <? delta_ns then delta_ns else max_ns s) (histogram s)) in
  let! bucket := mlift (bucket_of delta_ns) in
  let! s := mget in
  match histogram s !! bucket with
  | None => mpanic "index out of bounds"
  | Some n =>
    mmodify (fun s => mkStats (count s) (sum_ns s) (min_ns s) (max_ns s)
                        (<[bucket := wrap_u64 (n + 1)]> (histogram s)))
  end.

Definition mean_ns (s : StageStats) : Z := if count s =? 0 then 0 else sum_ns s / count s.

(** The loop of [quantile_ns], over the buckets from index [i]. *)
Fixpoint quantile_loop (target max cum : Z) (i : nat) (buckets : list Z) : Z :=
  match buckets with
  | [] => max
  | n :: buckets' =>
    let cum := wrap_u64 (cum + n) in
    if target <=? cum then Z.shiftl 1 (Z.of_nat (Nat.min (i + 1) 63))
    else quantile_loop target max cum (S i) buckets'
  end.

(** [target]: the rank [((count as f64) * q).ceil() as u64], computed in floating point. *)
Definition quantile_ns (target : Z -> Z) (s : StageStats) : Z :=
  if count s =? 0 then 0 else quantile_loop (target (count s)) (max_ns s) 0 0 (histogram s).
End StageStats.

Module LatencyStats.
Section stats.
Context `{Latency}.

Definition new : list StageStats := replicate N StageStats_default.

(** The body of the loop over the stages. *)
Definition observe_stage (stamps : list Z) (i : nat) : M (list StageStats) unit :=
  match stamps !! (i - 1)%nat, stamps !! i with
  | Some prev, Some cur =>
    if (prev =? 0) || (cur =? 0) || (cur <? prev) then mreturn tt
    else fun stages =>
      match stages !! i with
      | None => (Panic "index out of bounds", stages)
      | Some s => let '(r, s') := StageStats.record (wrap_u64 (cur - prev)) s in (r, <[i := s']> stages)
      end
  | _, _ => mpanic "index out of bounds"
  end.

Definition observe (stamps : list Z) : M (list StageStats) unit :=
  mfor (seq 1 (N - 1)) (observe_stage stamps).
End stats.
End LatencyStats.

(** *** The text of the report *)

Definition newline : string := String.String "010"%char EmptyString.
Definition spaces (n : nat) : string := String.string_of_list_ascii (repeat " "%char n).
(** [{:<w}] and [{:>w}], of text in which a character is a byte. *)
Definition pad_right (w : nat) (s : string) : string := s +:+ spaces (w - String.length s).
Definition pad_left (w : nat) (s : string) : string := spaces (w - String.length s) +:+ s.

(** A row: the label, then the columns. *)
Definition report_row (label count : string) (columns : list string) : string :=
  "  " +:+ pad_right 24 label +:+ " " +:+ pad_left 10 count +:+
  foldr (fun c s => " " +:+ pad_left 12 c +:+ s) newline columns.

(** [p50], [p99]: the ranks of the two quantiles. *)
Definition stage_row `{Latency} (p50 p99 : Z -> Z) (stages : list StageStats) (i : nat) : Res string :=
  match stages !! i, stage_names !! (i - 1)%nat, stage_names !! i with
  | Some s, Some from, Some to =>
    let label := from +:+ " -> " +:+ to in
    if count s =? 0 then Ok (report_row label "(no samples)" [])
    else Ok (report_row label (pretty (count s)) [pretty (min_ns s); pretty (StageStats.mean_ns s);
               pretty (StageStats.quantile_ns p50 s); pretty (StageStats.quantile_ns p99 s); pretty (max_ns s)])
  | _, _, _ => Panic "index out of bounds"
  end.

Fixpoint stage_rows `{Latency} (p50 p99 : Z -> Z) (stages : list StageStats) (is_ : list nat) (out : string) : Res string :=
  match is_ with
  | [] => Ok out
  | i :: is_ =>
    match stage_row p50 p99 stages i with
    | Ok row => stage_rows p50 p99 stages is_ (out +:+ row)
    | r => r
    end
  end.

Definition format_report `{Latency} (p50 p99 : Z -> Z) (stages : list StageStats) : Res string :=
  stage_rows p50 p99 stages (seq 1 (N - 1))
    ("latency report (delta from previous stage, nanoseconds):" +:+ newline +:+
     report_row "stage" "count" ["min"; "mean"; "p50"; "p99"; "max"]%string).

(** The report's node: its shared statistics, and whether to print them. *)
Module LatencyReport.
Section node.
Context `{Latency}.
Record LatencyReport := mk { upstream : addr; stats : list StageStats; print_on_teardown : bool }.
Definition new (up : addr) : LatencyReport := mk up LatencyStats.new false.
Definition set_print_on_teardown (yes : bool) (self : LatencyReport) : LatencyReport :=
  mk (upstream self) (stats self) yes.
Definition upstreams (self : LatencyReport) : UpStreams := mkUpStreams [upstream self] [].
Definition cycle {T} (up : Traced T) : NodeM LatencyReport bool :=
  let! self := get_self in
  let '(r, stats') := LatencyStats.observe (latency up) (stats self) in
  do! put_self (mk (upstream self) stats' (print_on_teardown self)) in
  do! mlift r in
  mreturn true.

(** What is printed is appended to the second component. *)
Definition stop (p50 p99 : Z -> Z) : NodeM (LatencyReport * string) unit :=
  let! s := get_self in
  let '(self, printed) := s in
  if print_on_teardown self then
    let! report := mlift (format_report p50 p99 (stats self)) in
    put_self (self, printed +:+ report)
  else mreturn tt.
End node.
End LatencyReport.

(** [latency_report_if]: the sink, or the upstream itself with empty statistics. *)
Definition latency_report `{Latency} (up : addr) (print : bool) : LatencyReport.LatencyReport :=
  LatencyReport.set_print_on_teardown print (LatencyReport.new up).
Definition latency_report_if `{Latency} (up : addr) (enabled print : bool)
  : LatencyReport.LatencyReport + (addr * list StageStats) :=
  if enabled then inl (latency_report up print) else inr (up, LatencyStats.new).

(** ** The deltas a stage's statistics stand for *)

Definition bucket (d : Z) : nat := Nat.min (Z.to_nat (Z.log2 (d + 1))) 63.
Definition count_if (P : Z -> bool) (D : list Z) : Z := Z.of_nat (length (List.filter P D)).

Definition is_delta (d : Z) : Prop := 0 <= d < u64_max.

Record Summary (D : list Z) (s : StageStats) : Prop := {
  su_deltas : Forall is_delta D;
  su_count : count s = Z.of_nat (length D);
  su_sum : sum_ns s = Z.min u64_max (foldr Z.add 0 D);
  su_min : min_ns s = foldr Z.min u64_max D;
  su_max : max_ns s = foldr Z.max 0 D;
  su_buckets : histogram s = (fun b => count_if (fun d => Nat.eqb (bucket d) b) D) <$> seq 0 64 }.

Lemma summary_nil : Summary [] StageStats_default.
Proof. by split. Qed.

Lemma count_if_snoc P D d : count_if P (D ++ [d]) = count_if P D + (if P d then 1 else 0).
Proof. unfold count_if. rewrite List.filter_app, length_app. simpl. destruct (P d); simpl; lia. Qed.

Lemma count_if_le P D : count_if P D <= Z.of_nat (length D).
Proof. unfold count_if. pose proof (List.filter_length_le P D). lia. Qed.

Lemma foldr_snoc_comm (f : Z -> Z -> Z) a D d :
  (forall x y z, f x (f y z) = f y (f x z)) -> foldr f a (D ++ [d]) = f d (foldr f a D).
Proof. intros Hf. induction D as [|x D IH]; [done|]. simpl. by rewrite IH, Hf. Qed.

Lemma bucket_of_delta d : is_delta d -> StageStats.bucket_of d = Ok (bucket d).
Proof.
  unfold is_delta. intros Hd. unfold StageStats.bucket_of, ilog2, bucket.
  rewrite wrap_u64_small by (unfold is_u64; lia).
  destruct (Z.leb_spec (d + 1) 0); [lia|done].
Qed.

Lemma bucket_lt d : (bucket d < 64)%nat.
Proof. unfold bucket. lia. Qed.

Lemma foldr_sum_nonneg D : Forall is_delta D -> 0 <= foldr Z.add 0 D.
Proof. induction 1 as [|d D Hd HD IH]; simpl; [lia|]. unfold is_delta in Hd. lia. Qed.

(** Recording a delta adds it to the list the statistics stand for. *)
Lemma record_summary D s d :
  Summary D s -> is_delta d -> Z.of_nat (length D) < u64_max ->
  exists s', StageStats.record d s = (Ok tt, s') /\ Summary (D ++ [d]) s'.
Proof.
  intros [HD Hc Hsum Hmin Hmax Hb] Hd Hlen.
  assert (Hbk : histogram s !! bucket d = Some (count_if (fun x => Nat.eqb (bucket x) (bucket d)) D)).
  { rewrite Hb, list_lookup_fmap, lookup_seq_lt by apply bucket_lt. done. }
  unfold StageStats.record, mmodify, mlift, mget, mbind. rewrite bucket_of_delta by done.
  cbn [histogram]. rewrite Hbk. eexists. split; [done|].
  pose proof (count_if_le (fun x => Nat.eqb (bucket x) (bucket d)) D) as Hle.
  pose proof (foldr_sum_nonneg D HD) as Hpos. unfold is_delta in Hd.
  split; cbn [count sum_ns min_ns max_ns histogram].
  - apply Forall_app. split; [done|]. by constructor.
  - rewrite Hc, length_app, wrap_u64_small by (unfold is_u64; lia). simpl. lia.
  - rewrite foldr_snoc_comm by lia. unfold u64_saturating_add. lia.
  - rewrite foldr_snoc_comm by lia. destruct (Z.ltb_spec d (min_ns s)); lia.
  - rewrite foldr_snoc_comm by lia. destruct (Z.ltb_spec (max_ns s) d); lia.
  - rewrite Hb. apply list_eq. intros b. rewrite list_lookup_fmap.
    destruct (decide (b < 64)%nat) as [Hlt|Hge].
    + rewrite lookup_seq_lt by done. cbn [fmap option_fmap option_map]. rewrite Nat.add_0_l.
      destruct (decide (b = bucket d)) as [->|Hne].
      * rewrite list_lookup_insert_eq by (rewrite length_fmap, length_seq; apply bucket_lt).
        rewrite count_if_snoc, Nat.eqb_refl. f_equal. apply wrap_u64_small. unfold is_u64, count_if. 
        unfold count_if in Hle. lia.
      * rewrite list_lookup_insert_ne, list_lookup_fmap, lookup_seq_lt by done.
        cbn [fmap option_fmap option_map]. rewrite Nat.add_0_l, count_if_snoc.
        destruct (Nat.eqb_spec (bucket d) b); [congruence|]. f_equal. lia.
    + rewrite !lookup_ge_None_2; [done|rewrite length_seq; lia|].
      rewrite length_insert, length_fmap, length_seq. lia.
Qed.

(** ** Observing records *)

(** The delta a record contributes to stage [i]. *)
Definition delta_at (stamps : list Z) (i : nat) : list Z :=
  match stamps !! (i - 1)%nat, stamps !! i with
  | Some prev, Some cur =>
    if (prev =? 0) || (cur =? 0) || (cur <? prev) then [] else [cur - prev]
  | _, _ => []
  end.

Section observe.
Context `{Latency}.

(** Statistics for every stage, standing for the deltas [D i] of stage [i]. *)
Definition stands_for (D : nat -> list Z) (stages : list StageStats) : Prop :=
  length stages = N /\ forall i s, stages !! i = Some s -> Summary (D i) s.

Lemma observe_stage_run stamps D stages i :
  length stamps = N -> Forall is_u64 stamps -> (1 <= i < N)%nat ->
  stands_for D stages -> Z.of_nat (length (D i)) < u64_max ->
  exists stages', LatencyStats.observe_stage stamps i stages = (Ok tt, stages') /\
    stands_for (fun j => if decide (j = i) then D j ++ delta_at stamps j else D j) stages'.
Proof.
  intros Hls Hu Hi [Hlen Hst] Hfull. unfold LatencyStats.observe_stage, delta_at.
  destruct (lookup_lt_is_Some_2 stamps (i - 1)) as [prev Hp]; [lia|].
  destruct (lookup_lt_is_Some_2 stamps i) as [cur Hcur]; [lia|].
  rewrite Hp, Hcur. pose proof (Forall_lookup_1 _ _ _ _ Hu Hp) as Hup.
  pose proof (Forall_lookup_1 _ _ _ _ Hu Hcur) as Huc. unfold is_u64 in Hup, Huc.
  destruct ((prev =? 0) || (cur =? 0) || (cur <? prev)) eqn:Hskip.
  - exists stages. split; [done|]. split; [done|]. intros j s Hs. case_decide as Hd; [|by apply Hst].
    subst j. rewrite Hp, Hcur, Hskip, app_nil_r. by apply Hst.
  - apply orb_false_iff in Hskip as [Hz Hge]. apply orb_false_iff in Hz as [Hz1 Hz2].
    destruct (lookup_lt_is_Some_2 stages i) as [s Hs]; [lia|]. rewrite Hs.
    rewrite wrap_u64_small by (unfold is_u64; lia).
    destruct (record_summary (D i) s (cur - prev) (Hst _ _ Hs)) as (s' & -> & Hsum);
      [unfold is_delta; lia|done|].
    eexists. split; [done|]. split; [by rewrite length_insert|]. intros j t Ht.
    apply list_lookup_insert_Some in Ht as [(<- & <- & _)|[Hne Ht]].
    + rewrite decide_True, Hp, Hcur, Hz1, Hz2, Hge by done. done.
    + rewrite decide_False by done. by apply Hst.
Qed.

Lemma stands_for_ext D D' stages :
  (forall i, (i < N)%nat -> D i = D' i) -> stands_for D stages -> stands_for D' stages.
Proof.
  intros Hext [Hl Hs]. split; [done|]. intros i s Hi. rewrite <-Hext; [by apply Hs|].
  rewrite <-Hl. by eapply lookup_lt_Some.
Qed.

Lemma observe_stages stamps D stages n :
  length stamps = N -> Forall is_u64 stamps -> (n <= N - 1)%nat ->
  stands_for D stages -> (forall i, Z.of_nat (length (D i)) < u64_max) ->
  exists stages', mfor (seq 1 n) (LatencyStats.observe_stage stamps) stages = (Ok tt, stages') /\
    stands_for (fun j => if decide (1 <= j <= n)%nat then D j ++ delta_at stamps j else D j) stages'.
Proof.
  intros Hls Hu Hn Hst Hfull. induction n as [|n IH].
  - exists stages. split; [done|]. eapply stands_for_ext; [|done]. intros i _. simpl.
    by rewrite decide_False by lia.
  - destruct IH as (stages1 & Hr & Hst1); [lia|].
    destruct (observe_stage_run stamps _ stages1 (S n) Hls Hu ltac:(lia) Hst1) as (stages2 & Hr2 & Hst2).
    { by rewrite decide_False by lia. }
    exists stages2. split.
    + rewrite seq_S, mfor_app, (mbind_ok _ _ _ _ _ Hr). cbn [mfor].
      by rewrite (mbind_ok _ _ _ _ _ Hr2).
    + eapply stands_for_ext; [|done]. intros i _. simpl. case_decide; subst; repeat case_decide; lia || done.
Qed.
End observe.

(** C40: Refinement: after any records, none of them makes the report panic, and
    the statistics of every stage after the first are those of the list of its
    deltas: how many, their sum (capped at the top of the range), the least, the
    greatest, and for every [b] how many are in [2^b - 1 .. 2^(b+1) - 2]. The
    deltas are those between adjacent stages that are both stamped and not going
    backwards; the first stage has none. *)
Theorem latency_stats_refine `{Latency} (records : list (list Z)) :
  Forall (fun stamps => length stamps = N /\ Forall is_u64 stamps) records ->
  Z.of_nat (length records) <= u64_max ->
  exists stages, mfor records LatencyStats.observe LatencyStats.new = (Ok tt, stages) /\
    length stages = N /\
    forall i s, stages !! i = Some s ->
      Summary (if decide (i = 0%nat) then [] else concat ((fun stamps => delta_at stamps i) <$> records)) s.
Proof.
  intros Hall Hfull.
  set (D := fun (rs : list (list Z)) (i : nat) =>
    if decide (i = 0%nat) then [] else concat ((fun stamps => delta_at stamps i) <$> rs)).
  cut (exists stages, mfor records LatencyStats.observe LatencyStats.new = (Ok tt, stages) /\
    stands_for (D records) stages).
  { intros (stages & Hr & Hl & Hs). by exists stages. }
  assert (Hbound : forall rs i, (length (D rs i) <= length rs)%nat).
  { intros rs i. subst D. simpl. case_decide; [simpl; lia|]. induction rs as [|r rs IH]; [done|].
    rewrite fmap_cons, concat_cons, length_app. cbn [length].
    assert ((length (delta_at r i) <= 1)%nat); [|lia].
    unfold delta_at. destruct (r !! (i - 1)%nat), (r !! i); try (simpl; lia). case_match; simpl; lia. }
  induction records as [|r records IH] using rev_ind.
  { exists LatencyStats.new. split; [done|]. unfold LatencyStats.new. split; [apply length_replicate|].
    intros i s [-> _]%lookup_replicate. subst D. simpl. case_decide; apply summary_nil. }
  rewrite length_app in Hfull. simpl in Hfull. apply Forall_app in Hall as [Hall Hr].
  apply Forall_inv in Hr as [Hlr Hur]. destruct IH as (stages1 & Hrun & Hst); [done|lia|].
  destruct (observe_stages r (D records) stages1 (N - 1) Hlr Hur ltac:(lia) Hst) as (stages2 & Hr2 & Hst2).
  { intros i. specialize (Hbound records i). lia. }
  exists stages2. split.
  - rewrite mfor_app, (mbind_ok _ _ _ _ _ Hrun). cbn [mfor]. unfold LatencyStats.observe.
    by rewrite (mbind_ok _ _ _ _ _ Hr2).
  - eapply stands_for_ext; [|done]. intros i Hi. subst D. simpl.
    destruct (decide (i = 0%nat)) as [->|Hne]; [by rewrite decide_False by lia|].
    rewrite decide_True by lia. by rewrite fmap_app, concat_app; simpl; rewrite app_nil_r.
Qed.

(** The report can be printed whatever was recorded: a row for each stage after the
    first, in their order. *)
Lemma format_report_rows `{Latency} p50 p99 (stages : list StageStats) :
  length stages = N -> length stage_names = N ->
  exists rows, Forall2 (fun i row => stage_row p50 p99 stages i = Ok row) (seq 1 (N - 1)) rows /\
    format_report p50 p99 stages = Ok (foldl String.append
      ("latency report (delta from previous stage, nanoseconds):" +:+ newline +:+
       report_row "stage" "count" ["min"; "mean"; "p50"; "p99"; "max"]%string) rows).
Proof.
  intros Hs Hn. unfold format_report.
  assert (Hgen : forall is_ out, Forall (fun i => (i < N)%nat) is_ ->
    exists rows, Forall2 (fun i row => stage_row p50 p99 stages i = Ok row) is_ rows /\
      stage_rows p50 p99 stages is_ out = Ok (foldl String.append out rows)).
  { induction is_ as [|i is_ IH]; intros out Hall; [by exists []; split|]. apply Forall_cons in Hall as [Hi Hall].
    assert (Hrow : exists row, stage_row p50 p99 stages i = Ok row).
    { unfold stage_row. destruct (lookup_lt_is_Some_2 stages i) as [s ->]; [lia|].
      destruct (lookup_lt_is_Some_2 stage_names (i - 1)) as [a ->]; [lia|].
      destruct (lookup_lt_is_Some_2 stage_names i) as [b ->]; [lia|]. destruct (count s =? 0); eauto. }
    destruct Hrow as [row Hr]. destruct (IH (out +:+ row) Hall) as (rows & Hrows & Hout).
    exists (row :: rows). split; [by constructor|]. cbn [stage_rows]. by rewrite Hr, Hout. }
  apply Hgen, Forall_forall. intros i Hi%elem_of_seq. lia.
Qed.

(** Three stages, three records: the second lacks a stamp, the third goes back. *)
Lemma latency_stats_refine_witness :
  let lat := {| N := 3; stage_names := ["ingest"; "decode"; "publish"]%string |} in
  exists stages, mfor [[100; 103; 110]; [200; 0; 207]; [300; 305; 304]] (@LatencyStats.observe lat)
      (@LatencyStats.new lat) = (Ok tt, stages) /\
    forall s, stages !! 1%nat = Some s -> Summary [3; 5] s.
Proof.
  intros lat.
  destruct (@latency_stats_refine lat [[100; 103; 110]; [200; 0; 207]; [300; 305; 304]])
    as (stages & Hrun & _ & Hs).
  - repeat constructor; vm_compute; discriminate.
  - vm_compute. discriminate.
  - exists stages. split; [exact Hrun|]. intros s Hl. exact (Hs 1%nat s Hl).
Defined.

(** ** The estimated quantile *)

Definition below (i : nat) (D : list Z) : Z := count_if (fun d => Nat.ltb (bucket d) i) D.

Lemma below_S i D : below (S i) D = below i D + count_if (fun d => Nat.eqb (bucket d) i) D.
Proof.
  unfold below, count_if. induction D as [|d D IH]; [done|]. cbn [List.filter].
  destruct (Nat.ltb_spec (bucket d) (S i)), (Nat.ltb_spec (bucket d) i), (Nat.eqb_spec (bucket d) i);
    cbn [length]; lia.
Qed.

Lemma below_64 D : below 64 D = Z.of_nat (length D).
Proof.
  unfold below, count_if. f_equal. induction D as [|d D IH]; [done|]. cbn [List.filter].
  destruct (Nat.ltb_spec (bucket d) 64); [simpl; lia|]. pose proof (bucket_lt d). lia.
Qed.

(** The loop stops at the first bucket up to which there are [t] deltas. *)
Lemma quantile_loop_spec t max D n i :
  (i + n = 64)%nat -> Z.of_nat (length D) <= u64_max -> below i D < t <= Z.of_nat (length D) ->
  exists j, (i <= j < 64)%nat /\ below j D < t <= below (S j) D /\
    StageStats.quantile_loop t max (below i D) i
      ((fun b => count_if (fun d => Nat.eqb (bucket d) b) D) <$> seq i n) = Z.shiftl 1 (Z.of_nat (Nat.min (j + 1) 63)).
Proof.
  revert i. induction n as [|n IH]; intros i Hi Hlen Ht.
  { replace i with 64%nat in Ht by lia. rewrite below_64 in Ht. lia. }
  cbn [seq fmap list_fmap StageStats.quantile_loop].
  assert (Hcum : wrap_u64 (below i D + count_if (fun d => Nat.eqb (bucket d) i) D) = below (S i) D).
  { rewrite <-below_S. apply wrap_u64_small. unfold is_u64, below.
    pose proof (count_if_le (fun d => Nat.ltb (bucket d) (S i)) D). unfold count_if in *. lia. }
  cbv zeta. rewrite Hcum. destruct (Z.leb_spec t (below (S i) D)) as [Hle|Hgt].
  - exists i. split_and!; try done; lia.
  - destruct (IH (S i)) as (j & Hj & Hb & Hq); [lia|done|lia|]. exists j. split_and!; try done; lia.
Qed.

Lemma bucket_below d j : 0 <= d -> (j <= 62)%nat ->
  Nat.ltb (bucket d) (S j) = (d + 1 <? 2 ^ Z.of_nat (S j)).
Proof.
  intros Hd Hj. unfold bucket. pose proof (Z.log2_nonneg (d + 1)).
  apply eq_true_iff_eq. rewrite Nat.ltb_lt, Z.ltb_lt, Z.log2_lt_pow2 by lia. lia.
Qed.

Lemma count_if_ext P Q D : Forall (fun d => P d = Q d) D -> count_if P D = count_if Q D.
Proof.
  unfold count_if. induction 1 as [|d D Hd HD IH]; [done|]. cbn [List.filter]. rewrite Hd.
  destruct (Q d); cbn [length]; lia.
Qed.

(** The estimated quantile brackets the true one within a factor of two. If
    the rank asked for is [t] and every delta is below [2^63 - 1], the estimate
    [v] has at least [t] deltas [d] with [d + 1 < v], and fewer than [t] with
    [2 * (d + 1) < v]: the [t]-th smallest delta lies between the two. *)
Theorem quantile_brackets (D : list Z) (s : StageStats) (target : Z -> Z) :
  Summary D s -> D <> [] -> Z.of_nat (length D) <= u64_max -> Forall (fun d => d < 2 ^ 63 - 1) D ->
  1 <= target (count s) <= Z.of_nat (length D) ->
  let v := StageStats.quantile_ns target s in
  count_if (fun d => 2 * (d + 1) <? v) D < target (count s) <= count_if (fun d => d + 1 <? v) D.
Proof.
  intros [HD Hc _ _ _ Hb] Hne Hlen Hsmall Ht v. subst v. unfold StageStats.quantile_ns.
  assert (Hpos : 0 < count s) by (rewrite Hc; destruct D; [done|simpl; lia]).
  replace (count s =? 0) with false by lia. set (t := target (count s)) in *.
  assert (Hb0 : below 0 D = 0).
  { clear. unfold below, count_if. induction D as [|d D IH]; [done|]. simpl. done. }
  destruct (quantile_loop_spec t (max_ns s) D 64 0) as (j & Hj & Hbj & Hq); [lia|done|lia|].
  rewrite Hb0 in Hq. rewrite Hb, Hq.
  pose proof (proj1 (Forall_forall _ _) HD) as Hdelta. pose proof (proj1 (Forall_forall _ _) Hsmall) as Hs63.
  assert (Hall : below 63 D = Z.of_nat (length D)).
  { rewrite <-below_64. apply count_if_ext, Forall_forall. intros d Hd.
    specialize (Hdelta d Hd). specialize (Hs63 d Hd). unfold is_delta in Hdelta. cbv beta in Hs63.
    rewrite (bucket_below d 62) by lia. change (2 ^ Z.of_nat 63) with (2 ^ 63).
    replace (d + 1 <? 2 ^ 63) with true by lia.
    symmetry. apply Nat.ltb_lt, bucket_lt. }
  assert (Hj62 : (j <= 62)%nat).
  { destruct (decide (j = 63%nat)) as [->|]; [rewrite Hall in Hbj; lia|lia]. }
  replace (Nat.min (j + 1) 63) with (S j) by lia. rewrite Z.shiftl_1_l.
  assert (Hhi : below (S j) D = count_if (fun d => d + 1 <? 2 ^ Z.of_nat (S j)) D).
  { apply count_if_ext, Forall_forall. intros d Hd. specialize (Hdelta d Hd). unfold is_delta in Hdelta.
    apply bucket_below; lia. }
  assert (Hlo : below j D = count_if (fun d => 2 * (d + 1) <? 2 ^ Z.of_nat (S j)) D).
  { apply count_if_ext, Forall_forall. intros d Hd. specialize (Hdelta d Hd). unfold is_delta in Hdelta.
    destruct j as [|j].
    { change (2 ^ Z.of_nat 1) with 2. by replace (2 * (d + 1) <? 2) with false by lia. }
    rewrite bucket_below by lia.
    rewrite (Nat2Z.inj_succ (S j)), Z.pow_succ_r by lia. lia. }
  rewrite <-Hhi, <-Hlo. exact Hbj.
Qed.

(** Four deltas; the median's rank is two. *)
Lemma quantile_brackets_witness :
  exists s, mfor [3; 100; 5; 1000] StageStats.record StageStats_default = (Ok tt, s) /\
    StageStats.quantile_ns (fun n => n / 2) s = 8 /\
    count_if (fun d => 2 * (d + 1) <? StageStats.quantile_ns (fun n => n / 2) s) [3; 100; 5; 1000] < 2 <=
    count_if (fun d => d + 1 <? StageStats.quantile_ns (fun n => n / 2) s) [3; 100; 5; 1000].
Proof.
  set (s := (mfor [3; 100; 5; 1000] StageStats.record StageStats_default).2).
  assert (Hs : Summary [3; 100; 5; 1000] s).
  { split; [|vm_compute; reflexivity..]. repeat constructor; vm_compute; discriminate || reflexivity. }
  exists s. split; [vm_compute; reflexivity|]. split; [vm_compute; reflexivity|].
  assert (Ht : (fun n => n / 2) (count s) = 2) by (vm_compute; reflexivity).
  rewrite <-Ht. apply (quantile_brackets [3; 100; 5; 1000] s (fun n => n / 2)); [exact Hs|discriminate| | |].
  - vm_compute. discriminate.
  - repeat constructor; vm_compute; reflexivity.
  - rewrite Ht. vm_compute. split; discriminate.
Defined.
