(* ===== verification/Channel.v ===== *)
(** * Channels between threads: [wingfoil/src/channel/]

    [Message] and the two ends of a channel. The channel itself is [kanal], a
    library: what each end sees of it, and of what the other threads do to it
    meanwhile, are the classes [KanalSender] and [KanalReceiver]; the ready
    channel behind a notifier is [ReadyChannel]. Their documented behaviour --
    first in, first out, nothing lost -- are the classes [Outbound] and
    [Inbound]. *)
From stdpp Require Import pretty.
From S2P Require Import Prelude NanoTime TimeQueue GraphState NodeCalls.

(** ** Messages: [message.rs] *)

Module Message.
Inductive Message (T : Type) :=
| CheckPoint (t : Z)
| EndOfStream
| HistoricalValue (v : ValueAt (list T))
| RealtimeValue (v : T)
| Error (e : Prelude.Error).
Arguments CheckPoint {T} t.
Arguments EndOfStream {T}.
Arguments HistoricalValue {T} v.
Arguments RealtimeValue {T} v.
Arguments Error {T} e.

(** Slices are equal when their elements are, pairwise. *)
Fixpoint burst_eq {T} `{PartialEq T} (a b : list T) : bool :=
  match a, b with
  | [], [] => true
  | x :: a', y :: b' => peq x y && burst_eq a' b'
  | _, _ => false
  end.

Definition eq {T} `{PartialEq T} (self other : Message T) : bool :=
  match self, other with
  | CheckPoint t1, CheckPoint t2 => (t1 =? t2)%Z
  | EndOfStream, EndOfStream => true
  | HistoricalValue v1, HistoricalValue v2 =>
    burst_eq (va_value v1) (va_value v2) && (va_time v1 =? va_time v2)%Z
  | RealtimeValue v1, RealtimeValue v2 => peq v1 v2
  | Error _, Error _ => false
  | _, _ => false
  end.

Definition build {T} (value : T) (graph_state : GraphState) : Message T :=
  match run_mode graph_state with
  | RealTime => RealtimeValue value
  | HistoricalFrom _ => HistoricalValue (mkValueAt [value] (time graph_state))
  end.
End Message.
Abbreviation Message := Message.Message.

Inductive SendNodeError := ChannelClosed | NotifierClosed.

(** [impl Display for SendNodeError]: what [?] makes of it in a node. *)
Definition SendNodeError_fmt (e : SendNodeError) : string :=
  match e with
  | ChannelClosed => "channel closed"
  | NotifierClosed => "ready-notifier dropped"
  end.

(** [Result<(), SendNodeError>]. *)
Inductive SendResult := SendOk | SendErr (e : SendNodeError).

Definition send_result (r : SendResult) : Res unit :=
  match r with SendOk => Ok tt | SendErr e => Err (Msg (SendNodeError_fmt e)) end.

(** ** The environment *)

(** [kanal::Sender::send]: [false] when the receiving end is gone. *)
Class KanalSender (K T : Type) := kanal_send : Message T -> K -> bool * K.

(** [try_recv]: [None] for [Err] (closed), [Some None] when empty. [recv] waits.
    Every look at the channel may find that other threads have moved on. *)
Class KanalReceiver (R T : Type) := {
  kanal_try_recv : R -> option (option (Message T)) * R;
  kanal_recv : R -> option (Message T) * R;
  kanal_sender_count : R -> Z * R }.

(** [crossbeam]'s [send] on the ready channel of a graph. *)
Class ReadyChannel (X : Type) := ready_send : nat -> X -> bool * X.

(** [ReadyNotifier] ([graph.rs]). *)
Record ReadyNotifier (X : Type) := mkNotifier { rn_node_index : nat; rn_sender : X }.
Arguments mkNotifier {X} rn_node_index rn_sender.
Arguments rn_node_index {X} r.
Arguments rn_sender {X} r.

Definition notify {X} `{ReadyChannel X} (n : ReadyNotifier X) : bool * ReadyNotifier X :=
  let '(ok, x) := ready_send (rn_node_index n) (rn_sender n) in (ok, mkNotifier (rn_node_index n) x).

(** [GraphState::ready_notifier]; [x] is the graph's ready channel. *)
Definition ready_notifier {X} (x : X) : M GraphState (ReadyNotifier X) :=
  let! ix := GraphState.current "ready_notifier" in mreturn (mkNotifier ix x).

(** ** The sending end: [kanal_chan.rs] *)

Module ChannelSender.
Section sender.
Context {K X T : Type} `{KanalSender K T, ReadyChannel X}.
Record ChannelSender := mk { kanal_sender : option K; notifier : option (ReadyNotifier X) }.

Definition new (k : K) (n : option (ReadyNotifier X)) : ChannelSender := mk (Some k) n.
Definition set_notifier (n : ReadyNotifier X) (self : ChannelSender) : ChannelSender :=
  mk (kanal_sender self) (Some n).

Definition send_message (message : Message T) (self : ChannelSender) : SendResult * ChannelSender :=
  match kanal_sender self with
  | None => (SendErr ChannelClosed, self)
  | Some k =>
    let '(ok, k) := kanal_send message k in
    if ok : bool then
      match notifier self with
      | None => (SendOk, mk (Some k) None)
      | Some n =>
        let '(ok, n) := notify n in
        (if ok : bool then SendOk else SendErr NotifierClosed, mk (Some k) (Some n))
      end
    else (SendErr ChannelClosed, mk (Some k) (notifier self))
  end.

Definition send (state : GraphState) (value : T) (self : ChannelSender) : SendResult * ChannelSender :=
  let message :=
    match run_mode state with
    | HistoricalFrom _ => Message.HistoricalValue (mkValueAt [value] (time state))
    | RealTime => Message.RealtimeValue value
    end in
  send_message message self.

Definition send_checkpoint (state : GraphState) (self : ChannelSender) : SendResult * ChannelSender :=
  send_message (Message.CheckPoint (time state)) self.

(** A closed sender stays closed; the error of the last send is ignored. *)
Definition close (self : ChannelSender) : SendResult * ChannelSender :=
  match kanal_sender self with
  | None => (SendOk, self)
  | Some _ =>
    let '(_, self) := send_message Message.EndOfStream self in (SendOk, mk None (notifier self))
  end.

(** What dropping the sender does besides dropping its fields: wake the graph. *)
Definition drop (self : ChannelSender) : ChannelSender :=
  match notifier self with
  | None => self
  | Some n => mk (kanal_sender self) (Some (notify n).2)
  end.
End sender.
Arguments ChannelSender : clear implicits.
End ChannelSender.
Abbreviation ChannelSender := ChannelSender.ChannelSender.

(** The sender an async task owns. A send that waits is one send. *)
Module AsyncChannelSender.
Section sender.
Context {K X T : Type} `{KanalSender K T, ReadyChannel X}.
Record AsyncChannelSender := mk { kanal_sender : option K; notifier : option (ReadyNotifier X) }.
Definition new (k : K) (n : option (ReadyNotifier X)) : AsyncChannelSender := mk (Some k) n.

Definition send_message (message : Message T) (self : AsyncChannelSender)
  : SendResult * AsyncChannelSender :=
  match kanal_sender self with
  | None => (SendErr ChannelClosed, self)
  | Some k =>
    let '(ok, k) := kanal_send message k in
    if ok : bool then
      match notifier self with
      | None => (SendOk, mk (Some k) None)
      | Some n =>
        let '(ok, n) := notify n in
        (if ok : bool then SendOk else SendErr NotifierClosed, mk (Some k) (Some n))
      end
    else (SendErr ChannelClosed, mk (Some k) (notifier self))
  end.

Definition send (run_mode : RunMode) (time : Z) (value : T) (self : AsyncChannelSender)
  : SendResult * AsyncChannelSender :=
  let message :=
    match run_mode with
    | HistoricalFrom _ => Message.HistoricalValue (mkValueAt [value] time)
    | RealTime => Message.RealtimeValue value
    end in
  send_message message self.

Definition send_checkpoint (time : Z) (self : AsyncChannelSender) : SendResult * AsyncChannelSender :=
  send_message (Message.CheckPoint time) self.

Definition close (self : AsyncChannelSender) : SendResult * AsyncChannelSender :=
  match kanal_sender self with
  | None => (SendOk, self)
  | Some _ =>
    let '(_, self) := send_message Message.EndOfStream self in (SendOk, mk None (notifier self))
  end.

(** [ChannelSender::into_async]: the emptied sender is dropped, and with no
    notifier left its drop does nothing. *)
Definition into_async (self : ChannelSender K X) : Res AsyncChannelSender :=
  match ChannelSender.kanal_sender self with
  | None => Panic "invariant: sender is not closed before into_async"
  | Some k => Ok (new k (ChannelSender.notifier self))
  end.
End sender.
Arguments AsyncChannelSender : clear implicits.
End AsyncChannelSender.
Abbreviation AsyncChannelSender := AsyncChannelSender.AsyncChannelSender.

(** ** The receiving end *)

Module ChannelReceiver.
Section receiver.
Context {R T : Type} `{KanalReceiver R T}.
Record ChannelReceiver := mk { kanal_receiver : R }.
Definition new (r : R) : ChannelReceiver := mk r.

(** A closed channel reads as the end of the stream. *)
Definition try_recv (self : ChannelReceiver) : option (Message T) * ChannelReceiver :=
  let '(x, r) := kanal_try_recv (kanal_receiver self) in
  (match x with Some msg => msg | None => Some Message.EndOfStream end, mk r).

Definition recv (self : ChannelReceiver) : Message T * ChannelReceiver :=
  let '(x, r) := kanal_recv (kanal_receiver self) in
  (default Message.EndOfStream x, mk r).

(** Up to a hundred looks, 10 ms apart, for the last sender to go. *)
Fixpoint await_senders (rounds : nat) (r : R) : bool * R :=
  match rounds with
  | O => (false, r)
  | S rounds' =>
    let '(n, r) := kanal_sender_count (T := T) r in
    if (n =? 0)%Z then (true, r) else await_senders rounds' r
  end.

Definition teardown (self : ChannelReceiver) : Res unit * ChannelReceiver :=
  let '(closed, r) := await_senders 100 (kanal_receiver self) in
  (if closed : bool then Ok tt
   else Err (Msg "timed out waiting for the sending end of the channel to close"), mk r).
End receiver.
Arguments ChannelReceiver : clear implicits.
End ChannelReceiver.
Abbreviation ChannelReceiver := ChannelReceiver.ChannelReceiver.

(** [channel_pair]; [chan] is what [kanal::bounded] or [unbounded] returns. *)
Definition channel_pair {K R X} (chan : option Z -> K * R)
    (n : option (ReadyNotifier X)) (buffer_size : option Z) : ChannelSender K X * ChannelReceiver R :=
  let '(tx, rx) := chan buffer_size in (ChannelSender.new tx n, ChannelReceiver.new rx).

(** ** What the library documents *)

(** The messages this end has put into the channel, in order. *)
Class Outbound (K T : Type) `{KanalSender K T} := {
  outbox : K -> list (Message T);
  kanal_send_spec m k ok k' :
    kanal_send m k = (ok, k') -> outbox k' = if ok : bool then outbox k ++ [m] else outbox k }.

(** The messages this end has yet to take out, in order, those not yet sent
    included. Whether one has arrived by the time of a [try_recv] is open; a
    [recv] waits for it, and the channel reads as closed only at the end. *)
Class Inbound (R T : Type) `{KanalReceiver R T} := {
  inbox : R -> list (Message T);
  kanal_try_recv_spec r x r' :
    kanal_try_recv r = (x, r') ->
    match x with
    | Some (Some m) => inbox r = m :: inbox r'
    | Some None => inbox r' = inbox r
    | None => inbox r = [] /\ inbox r' = []
    end;
  kanal_recv_spec r x r' :
    kanal_recv r = (x, r') ->
    match x with
    | Some m => inbox r = m :: inbox r'
    | None => inbox r = [] /\ inbox r' = []
    end }.

(** ** An instance: the messages to come, and whether the next look at the
    channel finds one there. *)

Record Arrivals (T : Type) := mkArrivals { arr_msgs : list (Message T); arr_there : list bool }.
Arguments mkArrivals {T} arr_msgs arr_there.
Arguments arr_msgs {T} a.
Arguments arr_there {T} a.

#[export] Instance Arrivals_receiver {T} : KanalReceiver (Arrivals T) T := {|
  kanal_try_recv a :=
    match arr_there a with
    | false :: there => (Some None, mkArrivals (arr_msgs a) there)
    | _ =>
      match arr_msgs a with
      | m :: msgs => (Some (Some m), mkArrivals msgs (tail (arr_there a)))
      | [] => (None, a)
      end
    end;
  kanal_recv a :=
    match arr_msgs a with
    | m :: msgs => (Some m, mkArrivals msgs (arr_there a))
    | [] => (None, a)
    end;
  kanal_sender_count a := (0%Z, a) |}.

#[export] Instance Arrivals_inbound {T} : Inbound (Arrivals T) T.
Proof.
  refine {| inbox := arr_msgs |}.
  - intros [msgs there] x r'. unfold kanal_try_recv. simpl.
    destruct there as [|[] there], msgs as [|m msgs]; intros; by simplify_eq/=.
  - intros [msgs there] x r'. unfold kanal_recv. simpl. destruct msgs; intros; by simplify_eq/=.
Defined.

(** A sending end whose receiver never goes away keeps what it was given. *)
#[export] Instance list_sender {T} : KanalSender (list (Message T)) T := fun m k => (true, k ++ [m]).
#[export] Instance list_outbound {T} : Outbound (list (Message T)) T.
Proof. refine {| outbox k := k |}. intros m k ok k'. unfold kanal_send, list_sender. by intros [= <- <-]. Defined.

(** A ready channel that remembers who called. *)
#[export] Instance list_ready : ReadyChannel (list nat) := fun i x => (true, x ++ [i]).
