(* ===== verification/ChannelNodes.v ===== *)
(** * The nodes at the two ends of a channel: [wingfoil/src/nodes/channel.rs],
      [wingfoil/src/nodes/receiver.rs]

    [SenderNode] puts a stream into a channel, [ChannelReceiverStream] takes it
    out on another thread's graph, [ReceiverStream] is a receiver that owns the
    thread of its producer. The rounds of a loop that empties a channel are
    bounded by [fuel]. *)
From stdpp Require Import pretty.
From S2P Require Import Prelude NanoTime TimeQueue GraphState NodeCalls Timing Channel.

Module SenderNode.
Section node.
Context {K X T : Type} `{KanalSender K T, ReadyChannel X}.
Record SenderNode := mk {
  source : addr; sender : ChannelSender K X; trigger : option addr; source_index : option nat }.
Definition new (source : addr) (sender : ChannelSender K X) (trigger : option addr) : SenderNode :=
  mk source sender trigger None.

Definition upstreams (self : SenderNode) : UpStreams :=
  mkUpStreams (source self :: match trigger self with Some trig => [trig] | None => [] end) [].

(** A send, and [?]. *)
Definition sending (m : ChannelSender K X -> SendResult * ChannelSender K X) : NodeM SenderNode unit :=
  let! self := get_self in
  let '(r, s) := m (sender self) in
  do! put_self (mk (source self) s (trigger self) (source_index self)) in
  mlift (send_result r).

(** [value] is the source's current value. *)
Definition cycle (value : T) : NodeM SenderNode bool :=
  let! self := get_self in
  let! ix := resolve_once (source_index self) (source self)
    "invariant: channel sender source wired at graph init" in
  do! put_self (mk (source self) (sender self) (trigger self) (Some ix)) in
  let! g := graph in
  let! b := index_ticked ix in
  if b : bool then
    do! sending (ChannelSender.send g value) in mreturn true
  else
    match trigger self with
    | Some _ => do! sending (ChannelSender.send_checkpoint (T := T) g) in mreturn false
    | None => mfail (Msg "None trigger!")
    end.

Definition stop : NodeM SenderNode unit :=
  sending (ChannelSender.send_message (T := T) Message.EndOfStream).
End node.
Arguments SenderNode : clear implicits.
End SenderNode.
Abbreviation SenderNode := SenderNode.SenderNode.

(** The channel on which a receiver hands its notifier to the other thread. *)
Class NotifierChannel (NC X : Type) := notifier_send : ReadyNotifier X -> NC -> Res unit * NC.

Module ChannelReceiverStream.
Section node.
Context {R X NC T : Type} `{KanalReceiver R T, NotifierChannel NC X}.
Record ChannelReceiverStream := mk {
  receiver : ChannelReceiver R; trigger : option addr; notifier_channel : option NC;
  value : list T; finished : bool; message_time : option Z; queue : list (ValueAt (list T)) }.
Definition new (receiver : ChannelReceiver R) (trigger : option addr) (nc : option NC)
  : ChannelReceiverStream := mk receiver trigger nc [] false None [].

Definition upstreams (self : ChannelReceiverStream) : UpStreams :=
  mkUpStreams (match trigger self with Some trig => [trig] | None => [] end) [].

Definition set_receiver (r : ChannelReceiver R) (self : ChannelReceiverStream) :=
  mk r (trigger self) (notifier_channel self) (value self) (finished self) (message_time self) (queue self).
Definition set_value (v : list T) (self : ChannelReceiverStream) :=
  mk (receiver self) (trigger self) (notifier_channel self) v (finished self) (message_time self) (queue self).
Definition set_finished (self : ChannelReceiverStream) :=
  mk (receiver self) (trigger self) (notifier_channel self) (value self) true (message_time self) (queue self).
Definition set_message_time (t : option Z) (self : ChannelReceiverStream) :=
  mk (receiver self) (trigger self) (notifier_channel self) (value self) (finished self) t (queue self).
Definition set_queue (q : list (ValueAt (list T))) (self : ChannelReceiverStream) :=
  mk (receiver self) (trigger self) (notifier_channel self) (value self) (finished self) (message_time self) q.

Definition modify_self (f : ChannelReceiverStream -> ChannelReceiverStream)
  : NodeM ChannelReceiverStream unit := let! self := get_self in put_self (f self).

Definition try_recv : NodeM ChannelReceiverStream (option (Message T)) :=
  let! self := get_self in
  let '(m, r) := ChannelReceiver.try_recv (receiver self) in
  do! put_self (set_receiver r self) in mreturn m.

Definition recv : NodeM ChannelReceiverStream (Message T) :=
  let! self := get_self in
  let '(m, r) := ChannelReceiver.recv (receiver self) in
  do! put_self (set_receiver r self) in mreturn m.

(** The loop of a realtime cycle: everything there is. *)
Fixpoint drain_realtime (fuel : nat) (values : list T) : NodeM ChannelReceiverStream (list T) :=
  let! self := get_self in
  if finished self then mreturn values
  else
    match fuel with
    | O => mstuck
    | S fuel' =>
      let! m := try_recv in
      match m with
      | Some message =>
        match message with
        | Message.RealtimeValue value => drain_realtime fuel' (values ++ [value])
        | Message.HistoricalValue value_at => drain_realtime fuel' (values ++ va_value value_at)
        | Message.EndOfStream => do! modify_self set_finished in drain_realtime fuel' values
        | Message.CheckPoint _ => drain_realtime fuel' values
        | Message.Error err => mfail err
        end
      | None => mreturn values
      end
    end.

(** The head of a historical cycle's loop: [None] to leave it, otherwise
    whether the next read must not block. *)
Definition reading (self : ChannelReceiverStream) (now : Z) : option bool :=
  match message_time self with
  | Some t =>
    if (now <? t)%Z then None
    else if (t =? now)%Z then
      match trigger self with Some _ => None | None => Some true end
    else Some false
  | None => Some false
  end.

Definition realtime_in_historical : Error := Msg "received RealtimeValue but RunMode is Historical".
Definition behind (t now : Z) : Error :=
  Msg ("received Historical message but with time less than graph time, " +:+ pretty t
       +:+ " < " +:+ pretty now).

Definition accept (message : Message T) (now : Z) : NodeM ChannelReceiverStream unit :=
  match message with
  | Message.RealtimeValue _ => mfail realtime_in_historical
  | Message.HistoricalValue value_at =>
    if (va_time value_at <? now)%Z then mfail (behind (va_time value_at) now)
    else modify_self (fun self =>
      set_queue (queue self ++ [value_at]) (set_message_time (Some (va_time value_at)) self))
  | Message.EndOfStream => modify_self set_finished
  | Message.CheckPoint check_point => modify_self (set_message_time (Some check_point))
  | Message.Error err => mfail err
  end.

Fixpoint read_historical (fuel : nat) : NodeM ChannelReceiverStream unit :=
  let! self := get_self in
  let! g := graph in
  if finished self then mreturn tt
  else
    match reading self (time g) with
    | None => mreturn tt
    | Some non_blocking =>
      match fuel with
      | O => mstuck
      | S fuel' =>
        let! m := (if non_blocking : bool then try_recv else let! m := recv in mreturn (Some m)) in
        match m with
        | None => mreturn tt
        | Some message => do! accept message (time g) in read_historical fuel'
        end
      end
    end.

(** [while let Some(value_at) = self.queue.front()]: what is due. *)
Fixpoint pop_due (now : Z) (q : list (ValueAt (list T))) (values : list T)
  : list T * list (ValueAt (list T)) :=
  match q with
  | value_at :: q' =>
    if (va_time value_at <=? now)%Z then pop_due now q' (values ++ va_value value_at) else (values, q)
  | [] => (values, [])
  end.

(** The wakeup a historical cycle asks for. *)
Definition reschedule : NodeM ChannelReceiverStream unit :=
  let! self := get_self in
  let! g := graph in
  match queue self with
  | head :: _ => call (GraphState.add_callback (va_time head))
  | [] =>
    do! (if negb (finished self) && match trigger self with None => true | Some _ => false end
         then call (GraphState.add_callback (time g)) else mreturn tt) in
    modify_self (set_message_time None)
  end.

Definition cycle_historical (fuel : nat) : NodeM ChannelReceiverStream (list T) :=
  do! read_historical fuel in
  let! self := get_self in
  let! g := graph in
  let '(values, q) := pop_due (time g) (queue self) [] in
  do! put_self (set_queue q self) in
  do! reschedule in
  mreturn values.

Definition cycle (fuel : nat) : NodeM ChannelReceiverStream bool :=
  let! g := graph in
  let! values := (match run_mode g with
    | RealTime => drain_realtime fuel []
    | HistoricalFrom _ => cycle_historical fuel
    end) in
  match values with
  | [] => mreturn false
  | _ :: _ => do! modify_self (set_value values) in mreturn true
  end.

(** [x] is the graph's ready channel. *)
Definition setup (x : X) : NodeM ChannelReceiverStream unit :=
  let! g := graph in
  match run_mode g with
  | RealTime =>
    let! self := get_self in
    match notifier_channel self with
    | Some chan =>
      do! put_self (mk (receiver self) (trigger self) None (value self) (finished self)
                      (message_time self) (queue self)) in
      let! n := call (ready_notifier x) in
      mlift (notifier_send n chan).1
    | None => mreturn tt
    end
  | HistoricalFrom t =>
    let! self := get_self in
    match trigger self with
    | None => call (GraphState.add_callback t)
    | Some _ => mreturn tt
    end
  end.

Definition teardown : NodeM ChannelReceiverStream unit :=
  let! self := get_self in
  let '(r, rx) := ChannelReceiver.teardown (T := T) (receiver self) in
  do! put_self (set_receiver rx self) in
  mlift r.
End node.
Arguments ChannelReceiverStream : clear implicits.
End ChannelReceiverStream.
Abbreviation ChannelReceiverStream := ChannelReceiverStream.ChannelReceiverStream.

(** ** A receiver with its producer's thread *)

(** What the owner of a thread sees of it: [is_finished]; [join], which waits
    for the closure's result or its panic; and that the flag it shares with the
    closure can be raised. [f] is the closure, [H] the running thread. *)
Inductive Joined := Returned (r : Res unit) | Panicked (why : string).
Class Threads (F S H : Type) := {
  thread_spawn : F -> S -> H;
  is_finished : H -> bool * H;
  join : H -> Joined;
  raise_stop : H -> H }.

Definition thread_panicked (what : string) (why : string) : Error := Msg (what +:+ why).

Module State.
Section state.
Context {F S H : Type} `{Threads F S H}.
Inductive State := Func (f : F) | JoinHandle (h : H) | Done | Empty.

Definition start (channel_sender : S) (self : State) : State :=
  match self with
  | Func f => JoinHandle (thread_spawn f channel_sender)
  | JoinHandle _ | Done | Empty => Empty
  end.

Definition check_running (finished : bool) (self : State) : Res unit * State :=
  match self with
  | JoinHandle handle =>
    let '(over, handle) := is_finished handle in
    if over : bool then
      match join handle with
      | Panicked e => (Err (thread_panicked "Receiver thread panicked: " e), Empty)
      | Returned (Ok tt) =>
        if finished then (Ok tt, Done)
        else (Err (Msg "Receiver thread exited unexpectedly"), Empty)
      | Returned r => (r, Empty)
      end
    else (Ok tt, JoinHandle handle)
  | Done => (Ok tt, Done)
  | Func _ | Empty => (Err (Msg "Receiver thread not running"), self)
  end.

Definition stop (self : State) : Res unit * State :=
  match self with
  | JoinHandle handle =>
    (match join handle with
     | Panicked e => Err (thread_panicked "Thread panicked: " e)
     | Returned r => r
     end, Empty)
  | _ => (Ok tt, Empty)
  end.

(** The flag raised, as the thread sees it. *)
Definition stopped (self : State) : State :=
  match self with JoinHandle handle => JoinHandle (raise_stop handle) | _ => self end.
End state.
Arguments State : clear implicits.
End State.
Abbreviation State := State.State.

Module ReceiverStream.
Section node.
Context {K R X NC T F H : Type}.
Context `{KanalReceiver R T, NotifierChannel NC X, ReadyChannel X, Threads F (ChannelSender K X) H}.
Abbreviation Inner := (ChannelReceiverStream R NC T).
Record ReceiverStream := mk {
  inner : Inner; sender : option (ChannelSender K X); thread : State F H; stop_flag : bool;
  assert_realtime : bool; pending_err : option Error; notifier : option (ReadyNotifier X) }.

(** [channel] is the pair [channel_pair(None, None)] returns. *)
Definition new (channel : ChannelSender K X * ChannelReceiver R) (f : F) (assert_realtime : bool)
  : ReceiverStream :=
  mk (ChannelReceiverStream.new channel.2 None None) (Some channel.1) (State.Func f) false
    assert_realtime None None.

Definition upstreams (self : ReceiverStream) : UpStreams := ChannelReceiverStream.upstreams (inner self).

Definition set_inner (i : Inner) (self : ReceiverStream) : ReceiverStream :=
  mk i (sender self) (thread self) (stop_flag self) (assert_realtime self) (pending_err self) (notifier self).
Definition set_thread (t : State F H) (self : ReceiverStream) : ReceiverStream :=
  mk (inner self) (sender self) t (stop_flag self) (assert_realtime self) (pending_err self) (notifier self).
Definition set_pending (e : option Error) (self : ReceiverStream) : ReceiverStream :=
  mk (inner self) (sender self) (thread self) (stop_flag self) (assert_realtime self) e (notifier self).
Definition set_notifier (n : option (ReadyNotifier X)) (self : ReceiverStream) : ReceiverStream :=
  mk (inner self) (sender self) (thread self) (stop_flag self) (assert_realtime self) (pending_err self) n.
Definition set_sender (s : option (ChannelSender K X)) (self : ReceiverStream) : ReceiverStream :=
  mk (inner self) s (thread self) (stop_flag self) (assert_realtime self) (pending_err self) (notifier self).
Definition set_stop_flag (self : ReceiverStream) : ReceiverStream :=
  mk (inner self) (sender self) (State.stopped (thread self)) true (assert_realtime self)
    (pending_err self) (notifier self).

(** A call on the inner node. *)
Definition on_inner {A} (m : NodeM Inner A) : NodeM ReceiverStream A := fun s =>
  let '(r, (i, g)) := m (inner s.1, s.2) in (r, (set_inner i s.1, g)).

Definition self_notify (self : ReceiverStream) : ReceiverStream :=
  set_notifier (match notifier self with Some n => Some (notify n).2 | None => None end) self.

Definition cycle (fuel : nat) : NodeM ReceiverStream bool :=
  let! self := get_self in
  do! put_self (set_pending None self) in
  match pending_err self with
  | Some e => mfail e
  | None =>
    let! cycle_result := on_inner (ChannelReceiverStream.cycle fuel) in
    let! self := get_self in
    let '(r, t) := State.check_running (ChannelReceiverStream.finished (inner self)) (thread self) in
    do! put_self (set_thread t self) in
    match r with
    | Err thread_err =>
      let! self := get_self in
      do! put_self (self_notify (set_pending (Some thread_err) self)) in
      mreturn cycle_result
    | Ok _ => mreturn cycle_result
    | Panic w => mpanic w
    | OutOfFuel => mstuck
    end
  end.

Definition is_realtime (m : RunMode) : bool := match m with RealTime => true | HistoricalFrom _ => false end.

(** [x] is the graph's ready channel. *)
Definition setup (x : X) : NodeM ReceiverStream unit :=
  let! self := get_self in
  match sender self with
  | None => mfail (Msg "missing sender")
  | Some sender =>
    do! put_self (set_sender None self) in
    let! g := graph in
    let! sender := (if is_realtime (run_mode g) then
        let! n := call (ready_notifier x) in
        let! self := get_self in
        do! put_self (set_notifier (Some n) self) in
        mreturn (ChannelSender.set_notifier n sender)
      else mreturn sender) in
    let! self := get_self in
    do! put_self (set_thread (State.start sender (thread self)) self) in
    on_inner (ChannelReceiverStream.setup x)
  end.

Definition start : NodeM ReceiverStream unit :=
  let! self := get_self in
  let! g := graph in
  if assert_realtime self && negb (is_realtime (run_mode g)) then
    mfail (Msg "ReceiverStream only supports real-time mode")
  else mreturn tt.

Definition stop : NodeM ReceiverStream unit :=
  let! self := get_self in
  do! put_self (set_stop_flag self) in
  let! self := get_self in
  let '(r, t) := State.stop (thread self) in
  do! put_self (set_thread t self) in
  mlift r.

Definition teardown : NodeM ReceiverStream unit :=
  on_inner ChannelReceiverStream.teardown.
End node.
Arguments ReceiverStream : clear implicits.
End ReceiverStream.
Abbreviation ReceiverStream := ReceiverStream.ReceiverStream.
