(* ===== verification/Solo.v ===== *)
(** * A graph of one source node

    The engine run on a graph whose only node is a self-driven source: its
    [setup] and each of its cycles ask for the next callback, or for none. The
    engine's world is the node and a log of what it emitted. [solo_run] reads a
    whole run ([Graph::run]) off the node's own cycles. *)
From S2P Require Import Prelude NanoTime TimeQueue GraphState NodeCalls Iterators Graph RunLoop RunProps.
Local Open Scope Z_scope.

Section solo.
Context {S O : Type} (peek : S -> O).
Context (cycle : NodeM S bool) (setup start stop teardown : NodeM S unit).
Abbreviation World := (S * list (Z * O))%type.

(** A call on the node. *)
Definition solo_call {A} (m : NodeM S A) : M (Sys World) A := fun sys =>
  let '(r, (s', g')) := m ((world sys).1, state sys) in
  (r, mkSys (s', (world sys).2) g' (env sys)).

Definition solo_ops : NodeOps World := {|
  op_upstreams _ _ := UpStreams_none;
  op_cycle _ :=
    let! b := solo_call cycle in
    let! sys := mget in
    do! (if b : bool then
           fun sys => (Ok tt, set_world ((world sys).1,
             (world sys).2 ++ [(time (state sys), peek (world sys).1)]) sys)
         else mreturn tt) in
    mreturn b;
  op_setup _ := solo_call setup;
  op_start _ := solo_call start;
  op_stop _ := solo_call stop;
  op_teardown _ := solo_call teardown |}.

(** The node's calls from [s] on, the next at time [next]: [k] cycles that emit
    [out] and leave it at [s']. Each call sees the engine at its time, and asks
    for the time of the next; a callback that is not later than the clock comes
    on the next nanosecond. *)
Definition at_cycle (t0 t : Z) (g : GraphState) : Prop :=
  time g = t /\ run_mode g = HistoricalFrom t0 /\ current_node_index g = Some 0%nat.

Definition due (now t : Z) : Z := Z.max t (NanoTime.add now 1).

Inductive runs_to (t0 : Z) : nat -> option Z -> S -> list (Z * O) -> S -> Prop :=
| runs_done s : runs_to t0 0 None s [] s
| runs_cycle k t b next s s' out s'' :
    t < u64_max ->
    (forall g, at_cycle t0 t g -> cycle (s, g) = (Ok b, (s', schedule 0 next g))) ->
    runs_to t0 k (due t <$> next) s' out s'' ->
    runs_to t0 (Datatypes.S k) (Some t) s ((if b : bool then [(t, peek s')] else []) ++ out) s''.

(** ** The engine on such a graph *)

Context (t0 : Z).

Definition solo_nodes : list NodeData := [mkNodeData 1 [] [] 0 true].
Definition solo_index : gmap addr nat := Eval vm_compute in {[1%positive := 0%nat]}.

Definition solo_state (t wall : Z) (first : bool) (q : TimeQueue nat) : GraphState :=
  mkGraphState t wall first false None q [] solo_index [false] (HistoricalFrom t0) Forever []
    t0 solo_nodes [[]] [false] None [] [].

Definition solo_env (reads polls : nat) : Env :=
  mkEnv 0 (fun _ => 0) reads (fun _ => []) polls (fun _ => None) 0.

Definition one_entry (t : option Z) (seq : Z) : TimeQueue nat :=
  mkTimeQueue (match t with Some t => [mkEntry t seq 0%nat] | None => [] end)
    (match t with Some _ => wrap_u64 (seq + 1) | None => seq end).

Definition solo_due (g : GraphState) : GraphState :=
  set_node_dirty (set_dirty_rows g [[0%nat]]) [true].

Lemma solo_process_first (w : World) r n t seq :
  Graph.process_callbacks_historical
    (mkSys w (solo_state 0 0 true (one_entry (Some t) seq)) (solo_env r n)) =
  (Ok true, mkSys w (solo_due (solo_state t 0 false (one_entry None (wrap_u64 (seq + 1)))))
    (solo_env r (Datatypes.S n))).
Proof.
  unfold Graph.process_callbacks_historical. do 2 erewrite mbind_ok by reflexivity.
  lazy -[Z.leb wrap_u64]. rewrite Z.leb_refl. reflexivity.
Qed.

Lemma solo_process_next (w : World) wall r n now t seq :
  Graph.process_callbacks_historical
    (mkSys w (solo_state now wall false (one_entry (Some t) seq)) (solo_env r n)) =
  (Ok true, mkSys w (solo_due (solo_state (due now t) wall false (one_entry None (wrap_u64 (seq + 1)))))
    (solo_env r (Datatypes.S n))).
Proof.
  assert (Hle : (t <=? due now t) = true) by (unfold due; apply Z.leb_le; lia).
  unfold Graph.process_callbacks_historical. do 2 erewrite mbind_ok by reflexivity.
  unfold due in *. lazy -[Z.add Z.leb Z.max NanoTime.add wrap_u64]. rewrite Hle. reflexivity.
Qed.

Lemma solo_process_none (w : World) wall r n now seq :
  Graph.process_callbacks_historical
    (mkSys w (solo_state now wall false (one_entry None seq)) (solo_env r n)) =
  (Ok false, mkSys w (solo_state now wall false (one_entry None seq)) (solo_env r (Datatypes.S n))).
Proof. reflexivity. Qed.

Lemma solo_layers t wall b next s s' log seq r n :
  (forall g, at_cycle t0 t g -> cycle (s, g) = (Ok b, (s', schedule 0 next g))) ->
  Graph.cycle_layers (H := solo_ops)
    (mkSys (s, log) (solo_due (solo_state t wall false (one_entry None seq))) (solo_env r n)) =
  (Ok tt, mkSys (s', log ++ if b : bool then [(t, peek s')] else [])
    (set_node_ticked (solo_due (solo_state t wall false (one_entry next seq))) [b]) (solo_env r n)).
Proof.
  intros Hc.
  assert (Hop : op_cycle (NodeOps := solo_ops) 1%positive (mkSys (s, log)
      (set_current (solo_due (solo_state t wall false (one_entry None seq))) (Some 0%nat)) (solo_env r n)) =
    (Ok b, mkSys (s', log ++ if b then [(t, peek s')] else [])
      (set_current (solo_due (solo_state t wall false (one_entry next seq))) (Some 0%nat)) (solo_env r n))).
  { simpl. unfold mbind at 1, solo_call. cbn [world fst state]. rewrite Hc by done.
    destruct b, next; cbn -[app]; by rewrite ?app_nil_r. }
  assert (Hn : Graph.cycle_node (H := solo_ops) 0 (mkSys (s, log)
      (solo_due (solo_state t wall false (one_entry None seq))) (solo_env r n)) =
    (Ok tt, mkSys (s', log ++ if b then [(t, peek s')] else [])
      (set_node_ticked (solo_due (solo_state t wall false (one_entry next seq))) [b]) (solo_env r n))).
  { unfold Graph.cycle_node. erewrite mbind_ok by reflexivity. cbn [active negb].
    erewrite mbind_ok by reflexivity. erewrite mbind_ok by (unfold mcatch; cbn [node]; 
      change (set_state _ _) with (mkSys (s, log)
        (set_current (solo_due (solo_state t wall false (one_entry None seq))) (Some 0%nat)) (solo_env r n));
      rewrite Hop; reflexivity).
    by destruct b. }
  assert (Hl : Graph.cycle_layer (H := solo_ops) 0 (mkSys (s, log)
      (solo_due (solo_state t wall false (one_entry None seq))) (solo_env r n)) =
    (Ok tt, mkSys (s', log ++ if b then [(t, peek s')] else [])
      (set_node_ticked (solo_due (solo_state t wall false (one_entry next seq))) [b]) (solo_env r n))).
  { unfold Graph.cycle_layer. do 2 erewrite mbind_ok by reflexivity.
    change (Graph.for_range _ ?f) with (mfor [0%nat] f). simpl mfor.
    erewrite mbind_ok; [reflexivity|]. do 3 erewrite mbind_ok by reflexivity. exact Hn. }
  unfold Graph.cycle_layers. erewrite mbind_ok by reflexivity.
  change (Graph.for_range _ ?f) with (mfor [0%nat] f). simpl mfor.
  erewrite mbind_ok by exact Hl. reflexivity.
Qed.

Lemma solo_cycle fuel t wall b next s s' log seq r n :
  (forall g, at_cycle t0 t g -> cycle (s, g) = (Ok b, (s', schedule 0 next g))) ->
  exists wall', Graph.cycle (H := solo_ops) fuel
    (mkSys (s, log) (solo_due (solo_state t wall false (one_entry None seq))) (solo_env r n)) =
  (Ok tt, mkSys (s', log ++ if b : bool then [(t, peek s')] else [])
    (solo_state t wall' false (one_entry next seq)) (solo_env (Datatypes.S r) n)).
Proof.
  intros Hc. exists (NanoTime.now 0 0).
  set (w := NanoTime.now 0 0). unfold Graph.cycle.
  rewrite (mbind_ok _ _ _ w (mkSys (s, log)
    (solo_due (solo_state t wall false (one_entry None seq))) (solo_env (Datatypes.S r) n))) by reflexivity.
  rewrite (mbind_ok _ _ _ tt (mkSys (s, log)
    (solo_due (solo_state t w false (one_entry None seq))) (solo_env (Datatypes.S r) n))) by reflexivity.
  erewrite mbind_ok by exact (solo_layers t _ b next s s' log seq (Datatypes.S r) n Hc).
  reflexivity.
Qed.

(** ** Whole runs *)

Definition solo_sys (s : S) (log : list (Z * O)) (t wall : Z) (first : bool) (next : option Z) (seq : Z) r n :=
  mkSys (s, log) (solo_state t wall first (one_entry next seq)) (solo_env r n) : Sys World.

(** The next cycle's time: exactly what was asked for in the first. *)
Definition next_time (first : bool) (now : Z) (next : option Z) : option Z :=
  if first then next else due now <$> next.

Lemma solo_flags c s log now wall first next seq r n :
  c + 1 < u32_max -> now < u64_max ->
  stops (historical_bounds Forever t0) c (state (solo_sys s log now wall first next seq r n)) = false /\
  set_state (flag_last (historical_bounds Forever t0) c (state (solo_sys s log now wall first next seq r n)))
    (solo_sys s log now wall first next seq r n) = solo_sys s log now wall first next seq r n.
Proof.
  intros Hc Hn. unfold stops, flag_last, lookahead, historical_bounds, NanoTime.MAX. simpl.
  rewrite !(proj2 (Z.leb_gt _ _)) by lia. done.
Qed.

(** One round of the loop, from a callback asked for to the next. *)
Lemma solo_round fuel rounds c next first t b nx s s' log now wall seq r n :
  next_time first now next = Some t -> (first = true -> now = 0 /\ wall = 0) ->
  c + 1 < u32_max -> 0 <= c -> now < u64_max ->
  (forall g, at_cycle t0 t g -> cycle (s, g) = (Ok b, (s', schedule 0 nx g))) ->
  exists wall' seq' r' n',
    Graph.run_loop (H := solo_ops) fuel (Datatypes.S rounds) (historical_bounds Forever t0) false c 0
      (solo_sys s log now wall first next seq r n) =
    Graph.run_loop (H := solo_ops) fuel rounds (historical_bounds Forever t0) false (c + 1) 0
      (solo_sys s' (log ++ if b : bool then [(t, peek s')] else []) t wall' false nx seq' r' n').
Proof.
  intros Hnt Hfirst Hc Hc0 Hnow Hcy. rewrite hist_round.
  destruct (solo_flags c s log now wall first next seq r n Hc Hnow) as [-> ->].
  assert (Hp : exists w0 seq' n', Graph.process_callbacks_historical (solo_sys s log now wall first next seq r n) =
    (Ok true, mkSys (s, log) (solo_due (solo_state t w0 false (one_entry None seq'))) (solo_env r n'))).
  { unfold solo_sys, next_time in *. destruct first.
    - destruct Hfirst as [-> ->]; [done|]. subst next. rewrite solo_process_first. eauto.
    - destruct next as [t'|]; [|done]. injection Hnt as <-. rewrite solo_process_next. eauto. }
  destruct Hp as (w0 & seq' & n' & ->).
  destruct (solo_cycle fuel t w0 b nx s s' log seq' r n' Hcy) as (wall' & ->).
  rewrite wrap_u32_small by lia. by exists wall', seq', (Datatypes.S r), n'.
Qed.

Lemma solo_loop fuel k rounds c next first s out s' log now wall seq r n :
  runs_to t0 k (next_time first now next) s out s' ->
  (first = true -> now = 0 /\ wall = 0 /\ is_Some next) -> now < u64_max ->
  0 <= c -> c + Z.of_nat k + 1 < u32_max -> (k < rounds)%nat ->
  exists now' wall' seq' r' n',
    Graph.run_loop (H := solo_ops) fuel rounds (historical_bounds Forever t0) false c 0
      (solo_sys s log now wall first next seq r n) =
    (Ok (c + Z.of_nat k, 0), solo_sys s' (log ++ out) now' wall' false None seq' r' n').
Proof.
  intros Hruns. remember (next_time first now next) as nt eqn:Hnt.
  revert first now wall next rounds c log seq r n Hnt.
  induction Hruns as [s|k t b nx s s1 out s2 Ht Hc Hruns IH];
    intros first now wall next rounds c log seq r n Hnt Hfirst Hnow Hc0 Hck Hr;
    (destruct rounds as [|rounds]; [lia|]).
  - assert (first = false /\ next = None) as [-> ->].
    { destruct first; simpl in Hnt; [destruct Hfirst as (_ & _ & [? ?]); congruence|].
      by destruct next. }
    rewrite hist_round. destruct (solo_flags c s log now wall false None seq r n) as [-> ->]; [lia..|].
    unfold solo_sys at 1 2. rewrite solo_process_none, Z.add_0_r, app_nil_r. by eexists _, _, _, _, _.
  - destruct (solo_round fuel rounds c next first t b nx s s1 log now wall seq r n)
      as (w1 & seq1 & r1 & n1 & ->); [done|naive_solver|lia|lia|done|done|].
    destruct (IH false t w1 nx rounds (c + 1) (log ++ if b then [(t, peek s1)] else []) seq1 r1 n1)
      as (now' & wall' & seq' & r' & n' & ->); [done|done|done|lia|lia|lia|].
    rewrite <-app_assoc. replace (c + 1 + Z.of_nat k) with (c + Z.of_nat (Datatypes.S k)) by lia.
    by eexists _, _, _, _, _.
Qed.

(** [Graph::new] and [Graph::run], for ever. *)
Definition run_solo (fuel : nat) (s : S) : Res unit * Sys World :=
  match Graph.new (H := solo_ops) fuel [1%positive] (HistoricalFrom t0) Forever (s, []) env_quiet with
  | (Ok _, sys) => Graph.run (H := solo_ops) fuel sys
  | r => r
  end.

Lemma solo_new fuel s :
  (3 < fuel)%nat -> Graph.new (H := solo_ops) fuel [1%positive] (HistoricalFrom t0) Forever (s, []) env_quiet =
  (Ok tt, mkSys (s, []) (solo_state 0 0 true TimeQueue.new) (solo_env 0 0)).
Proof. intros Hf. do 4 (destruct fuel as [|fuel]; [lia|]). reflexivity. Qed.

(** A hook that asks for a callback, or for none. *)
Record at_hook (g : GraphState) : Prop := {
  ah_mode : run_mode g = HistoricalFrom t0;
  ah_current : current_node_index g = Some 0%nat;
  ah_for : run_for g = Forever;
  ah_start : start_time g = t0 }.

Definition asks (m : NodeM S unit) (s : S) (o : option Z) (s' : S) : Prop :=
  forall g, at_hook g -> m (s, g) = (Ok tt, (s', schedule 0 o g)).

Definition push_opt (o : option Z) (q : TimeQueue nat) : TimeQueue nat :=
  match o with Some t => TimeQueue.push q 0%nat t | None => q end.

(** One pass over the nodes: the hook is called once. *)
Lemma solo_apply (m : NodeM S unit) desc s o s' log t wall first q r n :
  asks m s o s' ->
  Graph.apply_nodes desc (fun _ => solo_call m) (mkSys (s, log) (solo_state t wall first q) (solo_env r n)) =
    (Ok tt, mkSys (s', log) (solo_state t wall first (push_opt o q)) (solo_env r n)).
Proof.
  intros Hm. unfold Graph.apply_nodes. erewrite mbind_ok by reflexivity.
  change (Graph.for_range _ ?f) with (mfor [0%nat] f). simpl mfor.
  erewrite mbind_ok; [reflexivity|]. erewrite mbind_ok by reflexivity. cbn [active negb].
  erewrite mbind_ok by reflexivity.
  erewrite mbind_ok by (unfold mmap_err, solo_call; cbn [world state fst snd set_state];
    rewrite Hm by done; reflexivity).
  by destruct o.
Qed.

Lemma solo_mcatch {A} (m : M (Sys World) A) sys a sys' : m sys = (Ok a, sys') -> mcatch m sys = (Ok (Ok a), sys').
Proof. intros Hm. unfold mcatch. by rewrite Hm. Qed.

(** A run: the node is asked for its first callback at [t1] in [setup] or in
    [start], cycles as [runs_to] says, and is stopped. *)
Lemma solo_run fuel k t1 o1 o2 s0 s1 s2 out s3 s4 s5 :
  asks setup s0 o1 s1 -> asks start s1 o2 s2 ->
  (o1, o2) = (Some t1, None) \/ (o1, o2) = (None, Some t1) ->
  runs_to t0 k (Some t1) s2 out s3 -> asks stop s3 None s4 -> asks teardown s4 None s5 ->
  (3 + k < fuel)%nat -> Z.of_nat k + 1 < u32_max ->
  exists sys, run_solo fuel s0 = (Ok tt, sys) /\ world sys = (s5, out).
Proof.
  intros Hsetup Hstart Ho Hruns Hstop Htear Hf Hk.
  unfold run_solo. rewrite solo_new by lia.
  assert (Hq : push_opt o2 (push_opt o1 TimeQueue.new) = one_entry (Some t1) 0).
  { destruct Ho as [Ho|Ho]; injection Ho as -> ->; reflexivity. }
  destruct (solo_loop fuel k fuel 0 (Some t1) true s2 out s3 [] 0 0 0 0 0 Hruns)
    as (now' & wall' & seq' & r' & n' & Hloop); [intros _; by eauto|done|done|lia|lia|].
  eexists. split; [|shelve]. unfold Graph.run. do 2 erewrite mbind_ok by reflexivity.
  cbn [wiring_error state solo_state].
  change (set_state _ _) with (mkSys (s0, [] : list (Z * O)) (solo_state 0 0 true TimeQueue.new) (solo_env 0 0)).
  erewrite mbind_ok by (apply solo_apply; exact Hsetup).
  erewrite mbind_ok by exact (solo_mcatch _ _ _ _ (solo_apply start "start" _ _ _ _ _ _ _ _ _ _ Hstart)).
  cbn [is_ok]. rewrite Hq.
  assert (Hrn : Graph.run_nodes (H := solo_ops) fuel
      (mkSys (s2, []) (solo_state 0 0 true (one_entry (Some t1) 0)) (solo_env 0 0)) =
    (Ok (0 + Z.of_nat k, 0), solo_sys s3 ([] ++ out) now' wall' false None seq' r' n')).
  { rewrite (run_nodes_eq (H := solo_ops) fuel t0) by done. exact Hloop. }
  erewrite mbind_ok by (unfold mcatch; erewrite mbind_ok by exact Hrn; reflexivity).
  unfold solo_sys.
  erewrite mbind_ok by exact (solo_mcatch _ _ _ _ (solo_apply stop "stop" _ _ _ _ _ _ _ _ _ _ Hstop)).
  erewrite mbind_ok by exact (solo_mcatch _ _ _ _ (solo_apply teardown "teardown" _ _ _ _ _ _ _ _ _ _ Htear)).
  reflexivity.
  Unshelve. done.
Qed.
End solo.

(** A node whose calls are those of a node it holds. *)
Lemma runs_to_embed {S1 S2 O} (peek1 : S1 -> O) (peek2 : S2 -> O) (cycle1 : NodeM S1 bool) (cycle2 : NodeM S2 bool)
    (wrap : S1 -> S2) t0 k next i out i' :
  (forall i g r i' g', cycle1 (i, g) = (r, (i', g')) -> cycle2 (wrap i, g) = (r, (wrap i', g'))) ->
  (forall i, peek2 (wrap i) = peek1 i) ->
  runs_to peek1 cycle1 t0 k next i out i' -> runs_to peek2 cycle2 t0 k next (wrap i) out (wrap i').
Proof.
  intros Hc Hp. induction 1 as [i|k t b next i i1 out i2 Ht Hcy _ IH]; [apply runs_done|].
  rewrite <-Hp. eapply runs_cycle; [done| |exact IH]. intros g Hg. by apply Hc, Hcy.
Qed.
