(* ===== verification/ChannelProps.v ===== *)
(** * What a channel between two graphs promises in historical mode

    The receiving node of a historical run, on the real engine ([Solo]): the
    values of a channel come out at their times, in order, whatever the speed of
    the other thread. *)
From S2P Require Import Prelude NanoTime TimeQueue GraphState NodeCalls Timing Iterators Graph Solo Channel ChannelNodes.
Import ChannelReceiverStream.
Local Open Scope Z_scope.

(** ** The messages of a historical producer *)

Section messages.
Context {T : Type}.
Implicit Types (m : Message T) (msgs : list (Message T)).

(** The time a message carries: none for the end of the stream, an error, or a
    value sent in real time. *)
Definition stamp m : option Z :=
  match m with
  | Message.CheckPoint t => Some t
  | Message.HistoricalValue v => Some (va_time v)
  | _ => None
  end.

(** Stamps strictly increase, from [lo] on. *)
Fixpoint in_order (lo : Z) msgs : Prop :=
  match msgs with
  | [] => True
  | m :: msgs' =>
    match stamp m with Some t => lo <= t /\ t + 1 < u64_max /\ in_order (t + 1) msgs' | None => False end
  end.

(** A bursts with something in it is delivered. *)
Definition delivery (v : ValueAt (list T)) : list (Z * list T) :=
  match va_value v with [] => [] | _ :: _ => [(va_time v, va_value v)] end.

Definition deliveries msgs : list (Z * list T) :=
  flat_map (fun m => match m with Message.HistoricalValue v => delivery v | _ => [] end) msgs.

(** What follows the last message: the end of the stream, or the channel closed. *)
Definition ends (tl : list (Message T)) : Prop := head tl = None \/ head tl = Some Message.EndOfStream.

Lemma in_order_le lo lo' msgs : lo <= lo' -> in_order lo' msgs -> in_order lo msgs.
Proof. destruct msgs as [|m msgs]; [done|]. simpl. destruct (stamp m); [intros; intuition lia|done]. Qed.
End messages.

(** ** One read *)

Section reads.
Context {R X NC T : Type} `{Inbound R T}.
Abbreviation Node := (ChannelReceiverStream R NC T).
Implicit Types (g : GraphState) (r : R) (msgs : list (Message T)).

(** A [recv] yields the next message, or the end of the stream. *)
Lemma recv_spec r msgs tl : ends tl -> inbox r = msgs ++ tl ->
  exists r', ChannelReceiver.recv (ChannelReceiver.mk r) =
      (default Message.EndOfStream (head msgs), ChannelReceiver.mk r') /\
    (msgs <> [] -> inbox r' = tail msgs ++ tl).
Proof.
  intros Htl Hr. unfold ChannelReceiver.recv. simpl.
  destruct (kanal_recv r) as [x r'] eqn:E. pose proof (kanal_recv_spec _ _ _ E) as Hx.
  exists r'. rewrite Hr in Hx. destruct msgs as [|m msgs], x as [m'|]; simpl in *.
  - destruct Htl as [Ht|Ht]; rewrite Hx in Ht; [done|]. injection Ht as ->. done.
  - done.
  - injection Hx as -> Hx. split; [done|]. by intros _.
  - by destruct Hx.
Qed.

(** A [try_recv] yields the same, or nothing yet. *)
Lemma try_recv_spec r msgs tl : ends tl -> inbox r = msgs ++ tl ->
  exists r', (ChannelReceiver.try_recv (ChannelReceiver.mk r) = (None, ChannelReceiver.mk r') /\
      inbox r' = msgs ++ tl) \/
    (ChannelReceiver.try_recv (ChannelReceiver.mk r) =
      (Some (default Message.EndOfStream (head msgs)), ChannelReceiver.mk r') /\
     (msgs <> [] -> inbox r' = tail msgs ++ tl)).
Proof.
  intros Htl Hr. unfold ChannelReceiver.try_recv. simpl.
  destruct (kanal_try_recv r) as [x r'] eqn:E. pose proof (kanal_try_recv_spec _ _ _ E) as Hx.
  exists r'. rewrite Hr in Hx. destruct x as [[m'|]|].
  - right. destruct msgs as [|m msgs]; simpl in *.
    + destruct Htl as [Ht|Ht]; rewrite Hx in Ht; [done|]. injection Ht as ->. done.
    + injection Hx as -> Hx. split; [done|]. by intros _.
  - left. by rewrite Hx.
  - right. destruct Hx as [Hx _]. apply app_eq_nil in Hx as [-> ->]. done.
Qed.

(** The node between two reads, free-running. *)
Definition at_read (r : R) (nc : option NC) v fin mt q : Node := mk (ChannelReceiver.mk r) None nc v fin mt q.

(** Where reading can stop, in a cycle at [t]: at the end of the stream; with
    one value from the future; or with nothing more to be had now. *)
Inductive stopped (t : Z) (tl : list (Message T)) (due : list (ValueAt (list T)))
  : Node -> list (ValueAt (list T)) -> list (Message T) -> Prop :=
| stop_end r nc v mt : stopped t tl due (at_read r nc v true mt due) [] []
| stop_ahead r nc v va msgs :
    inbox r = msgs ++ tl -> t < va_time va -> va_time va + 1 < u64_max -> in_order (va_time va + 1) msgs ->
    stopped t tl due (at_read r nc v false (Some (va_time va)) (due ++ [va])) [va] msgs
| stop_wait r nc v mt msgs :
    inbox r = msgs ++ tl -> t + 1 < u64_max -> in_order (t + 1) msgs ->
    stopped t tl due (at_read r nc v false mt due) [] msgs.

Lemma read_finished fuel (self : Node) g :
  finished self = true -> read_historical fuel (self, g) = (Ok tt, (self, g)).
Proof. intros Hf. destruct fuel; simpl; unfold mbind, get_self, graph; simpl; by rewrite Hf. Qed.

Lemma read_break fuel (self : Node) g :
  reading self (time g) = None -> read_historical fuel (self, g) = (Ok tt, (self, g)).
Proof.
  intros Hb. destruct fuel; simpl; unfold mbind, get_self, graph; simpl; rewrite Hb; by destruct (finished self).
Qed.

Lemma read_some fuel (self : Node) g nb m rx :
  finished self = false -> reading self (time g) = Some nb ->
  (if nb : bool then ChannelReceiver.try_recv (receiver self) = (Some m, rx)
   else ChannelReceiver.recv (receiver self) = (m, rx)) ->
  read_historical (S fuel) (self, g) =
    (do! accept m (time g) in read_historical fuel) (set_receiver rx self, g).
Proof.
  intros Hf Hb Hm. simpl. unfold mbind at 1 2, get_self at 1, graph. cbn [fst snd]. rewrite Hf, Hb.
  rewrite (mbind_ok _ _ _ (Some m) (set_receiver rx self, g)); [done|].
  destruct nb; unfold try_recv, recv, mbind, get_self; cbn [fst snd]; by rewrite Hm.
Qed.

Lemma read_none fuel (self : Node) g rx :
  reading self (time g) = Some true ->
  ChannelReceiver.try_recv (T := T) (receiver self) = (None, rx) -> finished self = false ->
  read_historical (S fuel) (self, g) = (Ok tt, (set_receiver rx self, g)).
Proof.
  intros Hb Hm Hf. simpl. unfold mbind at 1 2, get_self at 1, graph. cbn [fst snd]. rewrite Hf, Hb.
  rewrite (mbind_ok _ _ _ None (set_receiver rx self, g)); [done|].
  unfold try_recv, mbind, get_self. cbn [fst snd]. by rewrite Hm.
Qed.

(** What one message that carries a time does, when it is not behind. *)
Definition told (m : Message T) (self : Node) : Node :=
  match m with
  | Message.HistoricalValue va =>
    set_queue (queue self ++ [va]) (set_message_time (Some (va_time va)) self)
  | Message.CheckPoint t => set_message_time (Some t) self
  | Message.EndOfStream => set_finished self
  | _ => self
  end.

Lemma accept_told m t (self : Node) g :
  (m = Message.EndOfStream \/ exists t', stamp m = Some t' /\ t <= t') ->
  accept m t (self, g) = (Ok tt, (told m self, g)).
Proof.
  intros [->|(t' & Hs & Hle)]; [done|]. destruct m; try done. simpl in *. injection Hs as ->.
  by rewrite (proj2 (Z.ltb_ge _ _)) by lia.
Qed.

Lemma reading_at r nc v q mt t :
  reading (at_read r nc v false mt q) t =
  match mt with
  | Some t' => if t <? t' then None else if t' =? t then Some true else Some false
  | None => Some false
  end.
Proof. by destruct mt. Qed.

(** What reading on from [msgs] comes to. *)
Definition reads_to (t : Z) (tl : list (Message T)) v q msgs n (self' : Node) : Prop :=
  exists later msgs', stopped t tl q self' later msgs' /\ value self' = v /\
    deliveries msgs = flat_map delivery later ++ deliveries msgs' /\
    (2 * length msgs' + length later <= n)%nat.

(** The message read: the end, or the next one. *)
Definition next_read r (nb : bool) (m : Message T) r' : Prop :=
  if nb then ChannelReceiver.try_recv (ChannelReceiver.mk r) = (Some m, ChannelReceiver.mk r')
  else ChannelReceiver.recv (ChannelReceiver.mk r) = (m, ChannelReceiver.mk r').

Lemma read_end fuel tl r r' nc v mt q g nb :
  reading (at_read r nc v false mt q) (time g) = Some nb -> next_read r nb Message.EndOfStream r' ->
  exists self', read_historical (S fuel) (at_read r nc v false mt q, g) = (Ok tt, (self', g)) /\
    reads_to (time g) tl v q [] 0 self' /\ finished self' = true.
Proof.
  intros Hb Hm. rewrite (read_some fuel _ g nb Message.EndOfStream (ChannelReceiver.mk r')) by done.
  erewrite mbind_ok by (apply accept_told; by left). rewrite read_finished by done.
  eexists. split; [done|]. split; [|done]. exists [], []. split; [apply stop_end|]. by split_and!.
Qed.

(** A message from the future is the last one read. *)
Lemma read_ahead fuel tl (m : Message T) msgs r r' nc v mt q g nb t :
  reading (at_read r nc v false mt q) (time g) = Some nb -> next_read r nb m r' ->
  stamp m = Some t -> time g < t -> t + 1 < u64_max -> in_order (t + 1) msgs -> inbox r' = msgs ++ tl ->
  exists self', read_historical (S fuel) (at_read r nc v false mt q, g) = (Ok tt, (self', g)) /\
    reads_to (time g) tl v q (m :: msgs) (2 * length msgs + 1) self'.
Proof.
  intros Hb Hm Hs Ht Hmax Ho Hr'. rewrite (read_some fuel _ g nb m (ChannelReceiver.mk r')) by done.
  erewrite mbind_ok by (apply accept_told; right; exists t; split; [done|lia]).
  destruct m as [t'| |va| |]; simplify_eq/=; (rewrite read_break;
    [|unfold reading; simpl; by rewrite (proj2 (Z.ltb_lt _ _)) by lia]).
  - eexists. split; [done|]. exists [], msgs. split; [|by split_and!; [..|simpl; lia]].
    apply stop_wait; [done|lia|]. eapply in_order_le; [|done]. lia.
  - eexists. split; [done|]. exists [va], msgs. split; [by apply stop_ahead|].
    split_and!; [done|simpl; by rewrite app_nil_r|simpl; lia].
Qed.

(** Reading on, once a message at the current time has been read. *)
Lemma read_caught_up fuel g r nc v q msgs tl :
  ends tl -> inbox r = msgs ++ tl -> time g + 1 < u64_max -> in_order (time g + 1) msgs ->
  exists self', read_historical (S fuel) (at_read r nc v false (Some (time g)) q, g) = (Ok tt, (self', g)) /\
    reads_to (time g) tl v q msgs (2 * length msgs) self'.
Proof.
  intros Htl Hr Hmax Ho.
  assert (Hb : reading (at_read r nc v false (Some (time g)) q) (time g) = Some true)
    by by rewrite reading_at, Z.ltb_irrefl, Z.eqb_refl.
  destruct (try_recv_spec r msgs tl Htl Hr) as (r' & [[Hrd Hr']|[Hrd Hr']]).
  - rewrite (read_none fuel _ g (ChannelReceiver.mk r')) by done. eexists. split; [done|].
    exists [], msgs. split; [by apply stop_wait|]. split_and!; [done|done|simpl; lia].
  - destruct msgs as [|m msgs]; [|].
    { destruct (read_end fuel tl r r' nc v _ q g true Hb Hrd) as (self' & ? & ? & _). by exists self'. }
    simpl in Ho. destruct (stamp m) as [t|] eqn:Hs; [|done]. destruct Ho as (Ht & Hmax' & Ho).
    destruct (read_ahead fuel tl m msgs r r' nc v _ q g true t Hb Hrd Hs)
      as (self' & Hrun & later & msgs' & Hst & Hv & Hd & Hn); [lia|done|done|by apply Hr'|].
    exists self'. split; [done|]. exists later, msgs'. split_and!; try done. simpl. lia.
Qed.

(** Reading from the start of a cycle, nothing queued. *)
Lemma read_waiting fuel g r nc v msgs tl :
  ends tl -> inbox r = msgs ++ tl -> in_order (time g) msgs ->
  exists self' due, read_historical (S (S fuel)) (at_read r nc v false None [], g) = (Ok tt, (self', g)) /\
    (forall va, va ∈ due -> va_time va = time g) /\ (length due <= 1)%nat /\
    exists later msgs', stopped (time g) tl due self' later msgs' /\ value self' = v /\
      deliveries msgs = flat_map delivery due ++ flat_map delivery later ++ deliveries msgs' /\
      (2 * length msgs' + length later <= 2 * length msgs - 1)%nat /\
      (msgs = [] -> finished self' = true).
Proof.
  intros Htl Hr Ho.
  assert (Hb : reading (at_read r nc v false None []) (time g) = Some false) by done.
  destruct (recv_spec r msgs tl Htl Hr) as (r' & Hrd & Hr').
  destruct msgs as [|m msgs].
  { destruct (read_end (S fuel) tl r r' nc v None [] g false Hb Hrd)
      as (self' & Hrun & (later & msgs' & H1 & H2 & H3 & H4) & Hfin).
    exists self', []. split; [done|]. split; [intros va Hva; inversion Hva|]. split; [simpl; lia|].
    exists later, msgs'. split_and!; try done. }
  specialize (Hr' ltac:(done)). simpl in Ho, Hrd, Hr'. destruct (stamp m) as [t|] eqn:Hs; [|done].
  destruct Ho as (Ht & Hmax & Ho). destruct (decide (t = time g)) as [->|Hne].
  - rewrite (read_some (S fuel) _ g false m (ChannelReceiver.mk r')) by done.
    erewrite mbind_ok by (apply accept_told; right; exists (time g); split; [done|lia]).
    set (due := match m with Message.HistoricalValue va => [va] | _ => [] end).
    assert (Htold : told m (set_receiver (ChannelReceiver.mk r') (at_read r nc v false None [])) =
      at_read r' nc v false (Some (time g)) due) by (unfold told, due; destruct m; try done; injection Hs as Hs; simpl; by rewrite Hs).
    rewrite Htold. destruct (read_caught_up fuel g r' nc v due msgs tl Htl Hr' Hmax Ho)
      as (self' & Hrun & later & msgs' & H1 & H2 & H3 & H4).
    exists self', due. split; [done|]. split.
    { intros va Hva. unfold due in Hva. destruct m; try by inversion Hva. injection Hs as Hs.
      by apply list_elem_of_singleton in Hva as ->. }
    split; [destruct m; simpl; lia|]. exists later, msgs'. split_and!; [done|done| |simpl; lia|done].
    simpl. rewrite H3. by destruct m; simpl; rewrite ?app_nil_r.
  - destruct (read_ahead (S fuel) tl m msgs r r' nc v None [] g false t Hb Hrd Hs)
      as (self' & Hrun & later & msgs' & H1 & H2 & H3 & H4); [lia|done|done|done|].
    exists self', []. split; [done|]. split; [intros va Hva; inversion Hva|]. split; [simpl; lia|].
    exists later, msgs'. split_and!; try done. simpl. lia.
Qed.

(** Reading depends on the engine only through its time, and leaves it alone. *)
Lemma read_frame fuel (self : Node) g g' :
  time g = time g' ->
  read_historical fuel (self, g') =
    (let '(res, (self', _)) := read_historical fuel (self, g) in (res, (self', g'))).
Proof.
  intros Ht. revert self. induction fuel as [|fuel IH]; intros self; simpl;
    unfold mbind, get_self, graph; simpl; rewrite <-Ht;
    (destruct (finished self); [done|]); destruct (reading self (time g)) as [nb|]; try done.
  assert (Hacc : forall m (self1 : Node),
    (do! accept m (time g) in read_historical fuel) (self1, g') =
    (let '(res, (self', _)) := (do! accept m (time g) in read_historical fuel) (self1, g) in (res, (self', g')))).
  { intros m self1. destruct m as [t| |va|v|e]; try apply IH; try done.
    unfold accept, mbind. destruct (va_time va <? time g); [done|apply IH]. }
  destruct nb; unfold try_recv, recv, mbind, get_self; simpl.
  - destruct (ChannelReceiver.try_recv (receiver self)) as [[m|] rx]; simpl; [|done]. apply Hacc.
  - destruct (ChannelReceiver.recv (receiver self)) as [m rx]; simpl. apply Hacc.
Qed.

(** ** One cycle *)

Lemma pop_due_split t due later vs :
  (forall va, va ∈ due -> va_time va = t) -> (forall va, va ∈ later -> t < va_time va) ->
  pop_due (T := T) t (due ++ later) vs = (vs ++ concat (va_value <$> due), later).
Proof.
  revert vs. induction due as [|va due IH]; intros vs Hd Hl; simpl.
  - rewrite app_nil_r. destruct later as [|va later]; simpl; [done|].
    by rewrite (proj2 (Z.leb_gt _ _)) by (apply Hl; left).
  - rewrite Hd, Z.leb_refl by left. rewrite IH, <-app_assoc; [done| |done]. intros. apply Hd. by right.
Qed.

(** The callback asked for at the end of a cycle. *)
Definition wakeup (t : Z) (fin : bool) (later : list (ValueAt (list T))) : option Z :=
  match later with va :: _ => Some (va_time va) | [] => if fin then None else Some t end.

(** The node once a cycle has delivered what was due. *)
Definition settled_node (due later : list (ValueAt (list T))) (self : Node) : Node :=
  let self := set_queue later self in
  let self := match later with [] => set_message_time None self | _ => self end in
  match concat (va_value <$> due) with [] => self | vs => set_value vs self end.

Lemma cycle_stopped fuel t0 t tl due self self' later msgs g :
  at_cycle t0 t g -> read_historical fuel (self, g) = (Ok tt, (self', g)) ->
  stopped t tl due self' later msgs -> (forall va, va ∈ due -> va_time va = t) ->
  cycle fuel (self, g) =
    (Ok match concat (va_value <$> due) with [] => false | _ => true end,
     (settled_node due later self', schedule 0 (wakeup t (finished self') later) g)).
Proof.
  intros (Ht & Hm & Hc) Hrd Hst Hdue. subst t. unfold cycle. erewrite mbind_ok by reflexivity. cbn [snd]. rewrite Hm.
  assert (Hl : forall va, va ∈ later -> time g < va_time va).
  { intros va. inversion Hst; subst; intros Hva; [by inversion Hva| |by inversion Hva].
    apply list_elem_of_singleton in Hva as ->. lia. }
  assert (Hq : queue self' = due ++ later /\ trigger self' = None) by (inversion Hst; subst; simpl; by rewrite ?app_nil_r).
  destruct Hq as [Hq Htr].
  assert (Hh : cycle_historical fuel (self, g) = (Ok (concat (va_value <$> due)),
    (let self := set_queue later self' in match later with [] => set_message_time None self | _ => self end,
     schedule 0 (wakeup (time g) (finished self') later) g))).
  { unfold cycle_historical. erewrite mbind_ok by exact Hrd.
    do 2 erewrite mbind_ok by reflexivity. cbn [fst snd]. rewrite Hq, pop_due_split by done. simpl app at 1.
    erewrite mbind_ok by reflexivity. unfold reschedule. unfold mbind, get_self, graph, put_self. cbn [fst snd].
    destruct later as [|va later]; simpl.
    - rewrite Htr. destruct (finished self'); simpl; [done|].
      unfold call, GraphState.add_callback, GraphState.current, mbind. cbn [fst snd]. by rewrite Hc.
    - unfold call, GraphState.add_callback, GraphState.current, mbind. cbn [fst snd]. by rewrite Hc. }
  erewrite mbind_ok by exact Hh. unfold settled_node. by destruct (concat _).
Qed.

(** ** The run *)

(** The node before a cycle at [t]: waiting for its next message, or woken for
    the one it holds; [pend] is still to come, in at most [n] cycles and one. *)
Inductive ready (tl : list (Message T)) (t : Z) : Node -> list (Z * list T) -> nat -> Prop :=
| ready_wait r nc v msgs :
    inbox r = msgs ++ tl -> 0 <= t < u64_max -> in_order t msgs ->
    ready tl t (at_read r nc v false None []) (deliveries msgs) (2 * length msgs)
| ready_held r nc v va msgs :
    inbox r = msgs ++ tl -> va_time va = t -> 0 <= t -> t + 1 < u64_max -> in_order (t + 1) msgs ->
    ready tl t (at_read r nc v false (Some t) [va]) (delivery va ++ deliveries msgs) (S (2 * length msgs)).

Lemma ready_read fuel tl t self pend n :
  ends tl -> ready tl t self pend n ->
  exists self1 due later msgs,
    (forall g, time g = t -> read_historical (S (S fuel)) (self, g) = (Ok tt, (self1, g))) /\
    stopped t tl due self1 later msgs /\ (forall va, va ∈ due -> va_time va = t) /\
    (length due <= 1)%nat /\ 0 <= t < u64_max /\
    pend = flat_map delivery due ++ flat_map delivery later ++ deliveries msgs /\
    (finished self1 = true \/ (2 * length msgs + length later < n)%nat).
Proof.
  intros Htl Hready. set (g0 := set_time (GraphState.new RealTime Forever 0) t).
  assert (Hframe : forall self1, read_historical (S (S fuel)) (self, g0) = (Ok tt, (self1, g0)) ->
    forall g, time g = t -> read_historical (S (S fuel)) (self, g) = (Ok tt, (self1, g))).
  { intros self1 Hr g Hg. by rewrite (read_frame _ self g0 g), Hr. }
  destruct Hready as [r nc v msgs Hr Ht Ho|r nc v va msgs Hr Hva Ht0 Ht Ho].
  - destruct (read_waiting fuel g0 r nc v msgs tl Htl Hr Ho)
      as (self1 & due & Hrd & Hdue & Hl & later & msgs' & Hst & _ & Hd & Hn & Hfin).
    exists self1, due, later, msgs'. split_and!; [by apply Hframe|done|done|done|lia|lia|done|].
    destruct msgs as [|m msgs]; [left; by apply Hfin|right; simpl in *; lia].
  - destruct (read_caught_up (S fuel) g0 r nc v [va] msgs tl Htl Hr Ht Ho)
      as (self1 & Hrd & later & msgs' & Hst & _ & Hd & Hn).
    exists self1, [va], later, msgs'. split_and!; [by apply Hframe|done| |done|lia|lia| |right; lia].
    + intros va' Hva'. by apply list_elem_of_singleton in Hva' as ->.
    + by rewrite Hd; simpl; rewrite app_nil_r.
Qed.

(** A node that has stopped reading before the end is ready for the cycle it
    asks for. *)
Lemma stopped_ready t tl due self1 later msgs :
  stopped t tl due self1 later msgs -> 0 <= t < u64_max ->
  trigger (settled_node due later self1) = None /\
  ((wakeup t (finished self1) later = None /\ later = [] /\ msgs = []) \/
   (finished self1 = false /\ exists t', Solo.due t <$> wakeup t (finished self1) later = Some t' /\
     ready tl t' (settled_node due later self1) (flat_map delivery later ++ deliveries msgs)
       (2 * length msgs + length later))).
Proof.
  intros Hst Ht.
  assert (Hadd : NanoTime.add t 1 = t + 1) by (apply wrap_u64_small; unfold is_u64; lia).
  unfold settled_node, Solo.due. rewrite Hadd. inversion Hst; subst; simpl.
  - split; [by destruct (concat _)|by left].
  - split; [by destruct (concat _)|right]. split; [done|]. exists (va_time va). split; [f_equal; lia|].
    rewrite app_nil_r. replace (_ + 1)%nat with (S (2 * length msgs)) by lia.
    destruct (concat _); by apply ready_held; try lia.
  - split; [by destruct (concat _)|right]. split; [done|]. exists (t + 1). split; [f_equal; lia|].
    replace (_ + _)%nat with (2 * length msgs)%nat by lia.
    destruct (concat _); by apply ready_wait; try lia.
Qed.

Lemma one_due t (due : list (ValueAt (list T))) later (self1 : Node) :
  (forall va, va ∈ due -> va_time va = t) -> (length due <= 1)%nat ->
  flat_map delivery due =
    (if match concat (va_value <$> due) with [] => false | _ => true end
     then [(t, value (settled_node due later self1))] else []).
Proof.
  intros Hdue Hl. destruct due as [|va [|va' due]]; simpl in *; [done| |lia].
  rewrite !app_nil_r. specialize (Hdue va ltac:(left)). unfold delivery, settled_node. simpl.
  rewrite app_nil_r. destruct (va_value va) eqn:E; [done|]. by rewrite Hdue.
Qed.

(** One cycle: it emits what is due, and is over or leaves the node ready. *)
Lemma ready_cycle fuel t0 tl t self pend n :
  ends tl -> ready tl t self pend n ->
  exists b self' next,
    (forall g, at_cycle t0 t g -> cycle (S (S fuel)) (self, g) = (Ok b, (self', schedule 0 next g))) /\
    t < u64_max /\ trigger self' = None /\
    ((next = None /\ pend = if b : bool then [(t, value self')] else []) \/
     exists t' pend' n', Solo.due t <$> next = Some t' /\ (n' < n)%nat /\
       pend = (if b : bool then [(t, value self')] else []) ++ pend' /\ ready tl t' self' pend' n').
Proof.
  intros Htl Hready. destruct (ready_read fuel tl t self pend n Htl Hready)
    as (self1 & due & later & msgs & Hrd & Hst & Hdue & Hl & Ht & Hp & Hn).
  destruct (stopped_ready t tl due self1 later msgs Hst Ht) as [Htr Hcase].
  eexists _, _, _. split.
  { intros g Hg. apply (cycle_stopped _ t0 t tl due self self1 later msgs g Hg); [|done|done].
    apply Hrd, Hg. }
  split; [lia|]. split; [done|]. rewrite <-(one_due t due later self1) by done.
  destruct Hcase as [(-> & -> & ->)|(Hf & t' & Ht' & Hr')].
  - left. by rewrite Hp, app_nil_r.
  - right. eexists _, _, _. split; [exact Ht'|]. split; [|by split].
    destruct Hn as [Hn|Hn]; [congruence|done].
Qed.

Lemma ready_runs fuel t0 tl t self pend n :
  ends tl -> ready tl t self pend n ->
  exists k self', (k <= S n)%nat /\ runs_to value (cycle (S (S fuel))) t0 k (Some t) self pend self' /\
    trigger self' = None.
Proof.
  intros Htl. revert t self pend. induction (lt_wf n) as [n _ IH]. intros t self pend Hready.
  destruct (ready_cycle fuel t0 tl t self pend n Htl Hready)
    as (b & self' & next & Hcy & Ht & Htr & [[-> ->]|(t' & pend' & n' & Hnext & Hn & -> & Hr)]).
  - exists 1%nat, self'. split; [lia|]. split; [|done].
    rewrite <-(app_nil_r (if b then _ else _)). eapply runs_cycle; [done|done|]. apply runs_done.
  - destruct (IH n' Hn t' self' pend' Hr) as (k & self2 & Hk & Hruns & Htr2).
    exists (S k), self2. split; [lia|]. split; [|done]. eapply runs_cycle; [done|done|].
    by rewrite Hnext.
Qed.

(** ** The whole run, on the engine *)

Context `{NotifierChannel NC X}.

(** The other thread drops its sender before the receiver gives up waiting. *)
Definition senders_go : Prop := forall r, (ChannelReceiver.await_senders (T := T) 100 r).1 = true.

Definition run_receiver (fuel : nat) (t0 : Z) (x : X) (self : Node) : Res unit * Sys (Node * list (Z * list T)) :=
  run_solo value (cycle (S (S fuel))) (setup x) default_hook default_hook teardown t0 (5 + fuel) self.

Lemma teardown_asks t0 (self : Node) :
  senders_go -> exists self', asks t0 teardown self None self'.
Proof.
  intros Hgo. unfold asks, teardown, ChannelReceiver.teardown. unfold mbind, get_self, put_self.
  cbn [fst snd]. specialize (Hgo (ChannelReceiver.kanal_receiver (receiver self))).
  destruct (ChannelReceiver.await_senders 100 _) as [b r'] eqn:E. simpl in Hgo. subst b.
  eexists. intros g _. reflexivity.
Qed.

Lemma setup_asks t0 x (self : Node) : trigger self = None -> asks t0 (setup x) self (Some t0) self.
Proof.
  intros Htr g [Hm Hc _ _]. unfold setup. erewrite mbind_ok by reflexivity. cbn [snd]. rewrite Hm.
  erewrite mbind_ok by reflexivity. cbn [fst]. rewrite Htr.
  unfold call, GraphState.add_callback, GraphState.current, mbind. cbn [fst snd]. by rewrite Hc.
Qed.

Lemma receiver_run fuel t0 tl x r nc msgs :
  ends tl -> inbox r = msgs ++ tl -> 0 <= t0 < u64_max -> in_order t0 msgs -> senders_go ->
  (2 * length msgs <= fuel)%nat -> Z.of_nat (2 * length msgs) + 2 < u32_max ->
  exists sys, run_receiver fuel t0 x (new (ChannelReceiver.mk r) None nc) = (Ok tt, sys) /\
    (world sys).2 = deliveries msgs.
Proof.
  intros Htl Hr Ht Ho Hgo Hf Hu.
  destruct (ready_runs fuel t0 tl t0 (at_read r nc [] false None []) _ _ Htl
    (ready_wait tl t0 r nc [] msgs Hr Ht Ho)) as (k & self' & Hk & Hruns & _).
  destruct (teardown_asks t0 self' Hgo) as [self2 Htear].
  destruct (solo_run value (cycle (S (S fuel))) (setup x) default_hook default_hook teardown t0 (5 + fuel) k t0
    (Some t0) None (new (ChannelReceiver.mk r) None nc) (new (ChannelReceiver.mk r) None nc)
    (at_read r nc [] false None []) (deliveries msgs) self' self' self2) as (sys & Hrun & Hw);
    [|by intros g|by left|done|by intros g|done|lia|lia|].
  { by apply setup_asks. }
  exists sys. split; [done|]. by rewrite Hw.
Qed.
End reads.
