(* ===== verification/ChannelPipe.v ===== *)
(** * A stream sent to another thread

    What a sending node puts into a channel in a historical run
    ([sender_stream]). [receiver_realtime_drain]: in real time nothing is lost,
    repeated or reordered. [same_time_arrival_race]: where the outcome depends on the
    speed of the threads. Then the receiver that owns its producer's thread. *)
From stdpp Require Import pretty.
From S2P Require Import Prelude NanoTime TimeQueue GraphState NodeCalls Timing Iterators Graph Solo Channel ChannelNodes ChannelProps.
Local Open Scope Z_scope.

Lemma resolve_known {S} (cached : option nat) n w ix (s : S) g :
  cached = None \/ cached = Some ix -> GraphState.get_node_index g n = Some ix ->
  resolve_once cached n w (s, g) = (Ok ix, (s, g)).
Proof. intros [->| ->] Hn; [|done]. unfold resolve_once, mbind, graph. cbn [fst snd]. by rewrite Hn. Qed.

Lemma index_ticked_known {S} ix b (s : S) g :
  node_ticked g !! ix = Some b -> index_ticked ix (s, g) = (Ok b, (s, g)).
Proof.
  intros Hb. unfold index_ticked, mbind, graph, GraphState.node_index_ticked. cbn [fst snd]. by rewrite Hb.
Qed.

(** Messages stamped with the times of the calls they were sent in. *)
Lemma stamps_in_order {T A} (f : GraphState * A -> Message T) t0 cs :
  StronglySorted Z.lt (map (fun c => time c.1) cs) ->
  Forall (fun c => stamp (f c) = Some (time c.1) /\ t0 <= time c.1 /\ time c.1 + 1 < u64_max) cs ->
  in_order t0 (map f cs).
Proof.
  intros Hs Hcs. revert t0 Hcs. induction cs as [|c cs IH]; intros t0 Hcs; [done|].
  inversion Hcs as [|? ? (Hst & Hlo & Hmax) Hcs']; inversion Hs as [|? ? Hs1 Hs2]; subst. simpl. rewrite Hst.
  split_and!; [done..|]. apply IH; [done|]. apply Forall_forall. intros c' Hc'.
  rewrite Forall_forall in Hcs'. rewrite Forall_forall in Hs2. destruct (Hcs' c' Hc') as (Hst' & _ & Hmax').
  specialize (Hs2 (time c'.1)). split_and!; [done| |done]. apply Z.le_succ_l, Hs2.
  apply list_elem_of_In, in_map_iff. exists c'. split; [done|]. by apply list_elem_of_In.
Qed.

(** ** The sending node *)

Section sender.
Context {K X T : Type} `{Outbound K T, ReadyChannel X}.
Abbreviation Sender := (SenderNode K X).
Implicit Types (c : GraphState * T) (cs : list (GraphState * T)).

(** A call of a sending node whose source sits at [ix]: whether the source
    ticked in this cycle. *)
Definition ticked_at (ix : nat) (g : GraphState) : bool := default false (node_ticked g !! ix).

Record sender_call (t0 : Z) (source : addr) (ix : nat) c : Prop := {
  sc_mode : run_mode c.1 = HistoricalFrom t0;
  sc_index : GraphState.get_node_index c.1 source = Some ix;
  sc_range : is_Some (node_ticked c.1 !! ix);
  sc_time : t0 <= time c.1 /\ time c.1 + 1 < u64_max }.

Definition message_of (ix : nat) c : Message T :=
  if ticked_at ix c.1 then Message.HistoricalValue (mkValueAt [c.2] (time c.1))
  else Message.CheckPoint (time c.1).

(** The ticks of the source among the calls. *)
Definition source_ticks (ix : nat) cs : list (Z * list T) :=
  flat_map (fun c => if ticked_at ix c.1 then [(time c.1, [c.2])] else []) cs.

(** No send fails while the receiver is there. *)
Definition receiver_stays : Prop := forall (m : Message T) (k : K), (kanal_send m k).1 = true.

Lemma send_message_ok (m : Message T) (k : K) : receiver_stays ->
  exists k', ChannelSender.send_message m (ChannelSender.mk (X := X) (Some k) None) =
      (SendOk, ChannelSender.mk (Some k') None) /\ outbox k' = outbox k ++ [m].
Proof.
  intros Hst. unfold ChannelSender.send_message. simpl. specialize (Hst m k).
  destruct (kanal_send m k) as [ok k'] eqn:E. simpl in Hst. subst ok. exists k'. split; [done|].
  by rewrite (kanal_send_spec _ _ _ _ E).
Qed.

Lemma sender_cycle t0 source ix c trig cached k :
  receiver_stays -> sender_call t0 source ix c -> (cached = None \/ cached = Some ix) ->
  (trig = None -> ticked_at ix c.1 = true) ->
  exists k', SenderNode.cycle c.2 (SenderNode.mk source (ChannelSender.mk (X := X) (Some k) None) trig cached, c.1) =
      (Ok (ticked_at ix c.1),
       (SenderNode.mk source (ChannelSender.mk (Some k') None) trig (Some ix), c.1)) /\
    outbox k' = outbox k ++ [message_of ix c].
Proof.
  intros Hst [Hm Hix [b Hb] _] Hca Htrig. destruct c as [g v]. cbn [fst snd] in *.
  destruct (send_message_ok (message_of ix (g, v)) k Hst) as (k' & Hsend & Hk'). exists k'. split; [|done].
  unfold SenderNode.cycle. erewrite mbind_ok by reflexivity. cbn [fst SenderNode.source_index SenderNode.source].
  erewrite mbind_ok by by apply resolve_known. do 2 erewrite mbind_ok by reflexivity.
  erewrite mbind_ok by by apply index_ticked_known.
  unfold message_of, ticked_at in *. cbn [fst snd] in *. rewrite Hb in *. simpl in *.
  destruct b; simpl.
  - erewrite mbind_ok; [reflexivity|]. unfold SenderNode.sending, mbind, get_self, put_self. cbn [fst snd SenderNode.sender].
    unfold ChannelSender.send. rewrite Hm, Hsend. reflexivity.
  - destruct trig as [trig|]; [|by specialize (Htrig eq_refl)].
    erewrite mbind_ok; [reflexivity|]. unfold SenderNode.sending, mbind, get_self, put_self. cbn [fst snd SenderNode.sender].
    unfold ChannelSender.send_checkpoint. rewrite Hsend. reflexivity.
Qed.

Lemma sender_run t0 source ix trig cs cached k :
  receiver_stays -> Forall (sender_call t0 source ix) cs -> (cached = None \/ cached = Some ix) ->
  (trig = None -> Forall (fun c => ticked_at ix c.1 = true) cs) ->
  exists out cached' k',
    drive SenderNode.cycle (fun _ => tt) cs
      (SenderNode.mk source (ChannelSender.mk (X := X) (Some k) None) trig cached) =
      (Ok out, SenderNode.mk source (ChannelSender.mk (Some k') None) trig cached') /\
    outbox k' = outbox k ++ (message_of ix <$> cs).
Proof.
  intros Hst Hcs. revert cached k. induction Hcs as [|c cs Hc _ IH]; intros cached k Hca Htrig.
  { exists [], cached, k. by rewrite app_nil_r. }
  destruct (sender_cycle t0 source ix c trig cached k Hst Hc Hca) as (k1 & Hrun & Hk1).
  { intros Hn. specialize (Htrig Hn). by inversion Htrig. }
  destruct (IH (Some ix) k1 (or_intror eq_refl)) as (out & ca' & k' & Hd & Hk').
  { intros Hn. specialize (Htrig Hn). by inversion Htrig. }
  eexists _, ca', k'. split; [by eapply drive_cons|]. by rewrite Hk', Hk1, <-app_assoc.
Qed.

(** What it sent is in order when its cycles are. *)
Lemma sent_in_order t0 source ix cs :
  Forall (sender_call t0 source ix) cs -> StronglySorted Z.lt (map (fun c => time c.1) cs) ->
  in_order t0 (message_of ix <$> cs).
Proof.
  intros Hcs Hs. apply stamps_in_order; [done|]. eapply Forall_impl; [exact Hcs|]. intros c Hc. split; [|apply Hc].
  unfold message_of. by destruct (ticked_at ix c.1).
Qed.

Lemma sent_deliveries ix cs : deliveries (message_of ix <$> cs) = source_ticks ix cs.
Proof.
  unfold deliveries, source_ticks. induction cs as [|c cs IH]; [done|].
  rewrite fmap_cons. cbn [flat_map]. rewrite IH. f_equal.
  unfold message_of. by destruct (ticked_at ix c.1).
Qed.

(** A producer's graph: its cycles, and the [stop] that ends the stream. *)
Lemma sender_stream t0 source ix trig cs k :
  receiver_stays -> Forall (sender_call t0 source ix) cs ->
  (trig = None -> Forall (fun c => ticked_at ix c.1 = true) cs) ->
  exists out s1 s2 k2,
    drive SenderNode.cycle (fun _ => tt) cs
      (SenderNode.new source (ChannelSender.new (X := X) k None) trig) = (Ok out, s1) /\
    (forall g, SenderNode.stop (T := T) (s1, g) = (Ok tt, (s2, g))) /\
    SenderNode.sender s2 = ChannelSender.mk (Some k2) None /\
    outbox k2 = outbox k ++ (message_of ix <$> cs) ++ [Message.EndOfStream].
Proof.
  intros Hst Hcs Htrig.
  destruct (sender_run t0 source ix trig cs None k Hst Hcs (or_introl eq_refl) Htrig) as (out & ca & k1 & Hd & Hk1).
  destruct (send_message_ok Message.EndOfStream k1 Hst) as (k2 & Hsend & Hk2).
  eexists out, _, _, k2. split; [exact Hd|]. split; [|split; [|by rewrite Hk2, Hk1, <-app_assoc]].
  - intros g. unfold SenderNode.stop, SenderNode.sending, mbind, get_self, put_self. cbn [fst snd SenderNode.sender].
    rewrite Hsend. reflexivity.
  - reflexivity.
Qed.
End sender.

(** ** Real time *)

Section realtime.
Context {R X NC T : Type} `{Inbound R T}.
Abbreviation Node := (ChannelReceiverStream R NC T).
Import ChannelReceiverStream.

(** The values a message brings in real time, and the messages that do not end
    the stream or fail it. *)
Definition values_of (m : Message T) : list T :=
  match m with
  | Message.RealtimeValue v => [v]
  | Message.HistoricalValue va => va_value va
  | _ => []
  end.
Definition plain (m : Message T) : bool :=
  match m with Message.EndOfStream | Message.Error _ => false | _ => true end.

Definition at_real (r : R) trig (nc : option NC) v fin mt q : Node := mk (ChannelReceiver.mk r) trig nc v fin mt q.

Lemma drain_step fuel acc r r' trig nc v mt q g (m : Message T) :
  ChannelReceiver.try_recv (ChannelReceiver.mk r) = (Some m, ChannelReceiver.mk r') -> plain m = true ->
  drain_realtime (S fuel) acc (at_real r trig nc v false mt q, g) =
  drain_realtime fuel (acc ++ values_of m) (at_real r' trig nc v false mt q, g).
Proof.
  intros Hr Hp. simpl. erewrite mbind_ok by reflexivity. cbn [fst finished at_real].
  rewrite (mbind_ok _ _ _ (Some m) (at_real r' trig nc v false mt q, g)).
  - by destruct m; try discriminate Hp; simpl; rewrite ?app_nil_r.
  - unfold try_recv, mbind, get_self. cbn [fst snd receiver at_real]. by rewrite Hr.
Qed.

Lemma drain_stop fuel acc r rx trig nc v mt q g (x : option (Message T)) :
  ChannelReceiver.try_recv (ChannelReceiver.mk r) = (x, rx) -> x = None \/ x = Some Message.EndOfStream ->
  drain_realtime (S fuel) acc (at_real r trig nc v false mt q, g) =
    (Ok acc, (mk rx trig nc v (match x with None => false | _ => true end) mt q, g)).
Proof.
  intros Hr Hx. simpl. erewrite mbind_ok by reflexivity. cbn [fst finished at_real].
  rewrite (mbind_ok _ _ _ x (mk rx trig nc v false mt q, g)).
  - destruct Hx as [->| ->]; [done|]. by destruct fuel.
  - unfold try_recv, mbind, get_self. cbn [fst snd receiver at_real]. by rewrite Hr.
Qed.

Lemma drain_realtime_spec fuel acc r trig nc v mt q g msgs tl :
  ends tl -> inbox r = msgs ++ tl -> Forall (fun m => plain m = true) msgs -> (length msgs < fuel)%nat ->
  exists r' got rest fin,
    drain_realtime fuel acc (at_real r trig nc v false mt q, g) =
      (Ok (acc ++ flat_map values_of got), (at_real r' trig nc v fin mt q, g)) /\
    msgs = got ++ rest /\ (if fin : bool then rest = [] else inbox r' = rest ++ tl).
Proof.
  intros Htl Hr Hp. revert fuel acc r Hr. induction Hp as [|m msgs Hm _ IH]; intros fuel acc r Hr Hf;
    (destruct fuel as [|fuel]; [simpl in Hf; lia|]);
    destruct (try_recv_spec r _ tl Htl Hr) as (r' & [[Hrd Hr']|[Hrd Hr']]).
  - exists r', [], [], false. rewrite (drain_stop fuel acc r _ trig nc v mt q g None Hrd) by by left.
    simpl. by rewrite app_nil_r.
  - exists r', [], [], true. rewrite (drain_stop fuel acc r _ trig nc v mt q g _ Hrd) by by right.
    simpl. by rewrite app_nil_r.
  - exists r', [], (m :: msgs), false. rewrite (drain_stop fuel acc r _ trig nc v mt q g None Hrd) by by left.
    simpl. by rewrite app_nil_r.
  - rewrite (drain_step fuel acc r r' trig nc v mt q g m Hrd Hm).
    destruct (IH fuel (acc ++ values_of m) r' (Hr' ltac:(done))) as (r2 & got & rest & fin & -> & -> & Hfin);
      [simpl in Hf; lia|].
    exists r2, (m :: got), rest, fin. split; [|done]. simpl. by rewrite <-app_assoc.
Qed.

Lemma realtime_cycle fuel r trig nc v mt q g msgs tl :
  ends tl -> inbox r = msgs ++ tl -> Forall (fun m => plain m = true) msgs -> (length msgs < fuel)%nat ->
  run_mode g = RealTime ->
  exists r' got rest fin,
    cycle fuel (at_real r trig nc v false mt q, g) =
      (Ok match flat_map values_of got with [] => false | _ => true end,
       (at_real r' trig nc match flat_map values_of got with [] => v | vs => vs end fin mt q, g)) /\
    msgs = got ++ rest /\ (if fin : bool then rest = [] else inbox r' = rest ++ tl).
Proof.
  intros Htl Hr Hp Hf Hm.
  destruct (drain_realtime_spec fuel [] r trig nc v mt q g msgs tl Htl Hr Hp Hf)
    as (r' & got & rest & fin & Hd & ? & ?).
  exists r', got, rest, fin. split; [|done]. unfold cycle. erewrite mbind_ok by reflexivity.
  cbn [snd]. rewrite Hm. erewrite mbind_ok by exact Hd. simpl app. by destruct (flat_map values_of got).
Qed.

Lemma realtime_finished fuel r trig nc v mt q g :
  run_mode g = RealTime ->
  cycle fuel (at_real r trig nc v true mt q, g) = (Ok false, (at_real r trig nc v true mt q, g)).
Proof.
  intros Hm. unfold cycle. erewrite mbind_ok by reflexivity. cbn [snd]. rewrite Hm. by destruct fuel.
Qed.

Lemma finished_drive fuel r trig nc v mt q (cs : list (GraphState * unit)) :
  Forall (fun c => run_mode c.1 = RealTime) cs ->
  drive (fun _ => cycle fuel) value cs (at_real r trig nc v true mt q) =
    (Ok [], at_real r trig nc v true mt q).
Proof.
  induction 1 as [|c cs Hc _ IH]; [done|].
  rewrite (drive_cons _ _ c cs _ false _ c.1 [] _ (realtime_finished fuel r trig nc v mt q c.1 Hc) IH). done.
Qed.
End realtime.

(** In real time a receiver loses, repeats and reorders nothing. Called any
    number of times, whatever has arrived by each look at the channel, it emits
    non-empty bursts that concatenate to the values of the messages it has taken
    out, those taken out are a prefix of those sent, and the rest is still to
    come; once it has met the end of the stream (or the closed channel) the
    prefix is everything, and it emits no more. *)
Theorem receiver_realtime_drain {R X NC T} `{Inbound R T, NotifierChannel NC X}
    fuel (cs : list (GraphState * unit)) trig (nc : option NC) r (msgs tl : list (Message T)) :
  ends tl -> inbox r = msgs ++ tl -> Forall (fun m => plain m = true) msgs -> (length msgs < fuel)%nat ->
  Forall (fun c => run_mode c.1 = RealTime) cs ->
  exists out s' got rest,
    drive (fun _ => ChannelReceiverStream.cycle fuel) ChannelReceiverStream.value cs
      (ChannelReceiverStream.new (ChannelReceiver.mk r) trig nc) = (Ok out, s') /\
    concat (map snd out) = flat_map values_of got /\ Forall (fun b => b.2 <> []) out /\
    msgs = got ++ rest /\
    (if ChannelReceiverStream.finished s' then rest = []
     else inbox (ChannelReceiver.kanal_receiver (ChannelReceiverStream.receiver s')) = rest ++ tl).
Proof.
  intros Htl Hr Hp Hf Hcs. pose (v := @nil T).
  change (ChannelReceiverStream.new _ trig nc) with (at_real (T := T) r trig nc v false None []). clearbody v.
  revert r msgs v Hr Hp Hf. induction Hcs as [|c cs Hc Hcs IH]; intros r msgs v Hr Hp Hf.
  { exists [], (at_real (T := T) r trig nc v false None []), [], msgs. by split_and!. }
  destruct (realtime_cycle fuel r trig nc v None [] c.1 msgs tl Htl Hr Hp Hf Hc)
    as (r' & got & rest & fin & Hcy & -> & Hfin). apply Forall_app in Hp as [_ Hp]. rewrite length_app in Hf.
  set (v' := match flat_map values_of got with [] => v | vs => vs end) in Hcy.
  assert (Hfirst : concat (map snd (if match flat_map values_of got with [] => false | _ => true end
      then [(time c.1, v')] else [])) = flat_map values_of got /\
    Forall (fun b => b.2 <> []) (if match flat_map values_of got with [] => false | _ => true end
      then [(time c.1, v')] else [])).
  { unfold v'. destruct (flat_map values_of got) as [|a l]; [done|]. simpl. rewrite app_nil_r.
    split; [done|]. by repeat constructor. }
  destruct Hfirst as [Hf1 Hf2]. destruct fin.
  - subst rest. eexists _, _, got, []. split; [eapply drive_cons; [exact Hcy|by apply finished_drive]|].
    rewrite !app_nil_r. split_and!; [exact Hf1|exact Hf2|done|done].
  - destruct (IH r' rest v' Hfin Hp ltac:(lia)) as (out & s' & got' & rest' & Hd & Hout & Hne & -> & Hend).
    eexists _, s', (got ++ got'), rest'. split; [by eapply drive_cons|].
    cbn [ChannelReceiverStream.value at_real]. rewrite map_app, concat_app, flat_map_app, Hf1, Hout. split; [done|]. split; [by apply Forall_app|].
    by rewrite app_assoc.
Qed.

(** ** Two values at one time *)

#[export] Instance unit_notifier : NotifierChannel unit (list nat) := fun _ nc => (Ok tt, nc).

(** Two values stamped 100, sent one after the other, and the end of the stream;
    [there] tells what the looks at the channel find. *)
Definition same_time_run {T} (a b : T) (there : list bool) :=
  run_receiver (R := Arrivals T) (NC := unit) 10 0 []
    (ChannelReceiverStream.new (ChannelReceiver.mk (mkArrivals
      [Message.HistoricalValue (mkValueAt [a] 100); Message.HistoricalValue (mkValueAt [b] 100);
       Message.EndOfStream] there)) None None).

(** The outcome of a historical run can depend on the speed of another
    thread. Two values for the same time sent as two messages: when the second
    is in the channel by the time the first has been read, the receiver emits
    both at their time and the run succeeds; when it is not, the receiver emits
    the first alone, is called again one nanosecond later, and the run fails with
    the error for a message behind the clock. *)
Theorem same_time_arrival_race {T} (a b : T) :
  (exists sys, same_time_run a b [true] = (Ok tt, sys) /\ (world sys).2 = [(100, [a; b])]) /\
  (exists sys, same_time_run a b [false] =
     (Err (NodeContext "cycle" 0 (ChannelReceiverStream.behind 100 101)), sys) /\
     (world sys).2 = [(100, [a])]).
Proof. split; eexists; (split; [vm_compute; reflexivity|reflexivity]). Qed.

(** ** Witnesses *)

Definition realtime_call (t : Z) : GraphState * unit :=
  (set_time (GraphState.new RealTime Forever 0) t, tt).

Lemma receiver_realtime_drain_witness :
  exists out s' got rest,
    drive (fun _ => ChannelReceiverStream.cycle 5) ChannelReceiverStream.value [realtime_call 10; realtime_call 20]
      (ChannelReceiverStream.new (NC := unit) (ChannelReceiver.mk (mkArrivals
         [Message.RealtimeValue 7; Message.RealtimeValue 8; Message.EndOfStream] [true; false])) None None) =
      (Ok out, s') /\ concat (map snd out) = flat_map values_of got /\
    [Message.RealtimeValue 7; Message.RealtimeValue 8] = got ++ rest.
Proof.
  destruct (receiver_realtime_drain (R := Arrivals Z) (NC := unit) (X := list nat) 5
    [realtime_call 10; realtime_call 20] None None
    (mkArrivals [Message.RealtimeValue 7; Message.RealtimeValue 8; Message.EndOfStream] [true; false])
    [Message.RealtimeValue 7; Message.RealtimeValue 8] [Message.EndOfStream])
    as (out & s' & got & rest & H1 & H2 & _ & H3 & _).
  - by right.
  - reflexivity.
  - repeat constructor.
  - simpl. lia.
  - repeat constructor.
  - exists out, s', got, rest. split; [exact H1|]. split; [exact H2|exact H3].
Defined.

(** ** A receiver that owns its producer's thread ([nodes/receiver.rs])

    [receiver_stream_cycle]: what a realtime cycle of [ReceiverStream] emits and
    what it makes of the thread's end. [clean_exit_race]: the verdict on a thread
    that ended depends on when it ended. *)

Section receiver.
Context {K R X NC T F H : Type}.
Context `{Inbound R T, NotifierChannel NC X, ReadyChannel X, Threads F (ChannelSender K X) H}.
Abbreviation Stream := (ReceiverStream K R X NC T F H).
Implicit Types (self : Stream) (h : H).

(** The error a cycle defers to the next, if any: the stream has or has not met
    its end, and the thread is seen as [is_finished] says. *)
Definition verdict (fin over : bool) (j : Joined) : option Error :=
  if over then
    match j with
    | Panicked w => Some (thread_panicked "Receiver thread panicked: " w)
    | Returned (Err e) => Some e
    | Returned _ => if fin then None else Some (Msg "Receiver thread exited unexpectedly")
    end
  else None.

(** A closure returns [Ok] or [Err], or panics. *)
Definition settled_join (j : Joined) : Prop :=
  match j with Returned (Panic _) | Returned OutOfFuel => False | _ => True end.

Definition running_stream r (nc : option NC) v (s : option (ChannelSender K X)) h stop rt n : Stream :=
  ReceiverStream.mk (at_real r None nc v false None []) s (State.JoinHandle h) stop rt None n.

Lemma check_running_handle fin h over h' :
  is_finished h = (over, h') -> settled_join (join h') ->
  exists st, State.check_running fin (State.JoinHandle h) =
    (match verdict fin over (join h') with Some e => Err e | None => Ok tt end, st) /\
    (over = false -> st = State.JoinHandle h').
Proof.
  intros Hf Hj. unfold State.check_running, verdict. rewrite Hf. destruct over; [|by eexists].
  destruct (join h') as [[[]|e|w|]|w]; try done; [destruct fin|..]; by eexists.
Qed.

Lemma pending_cycle fuel self g e :
  ReceiverStream.pending_err self = Some e ->
  ReceiverStream.cycle fuel (self, g) = (Err e, (ReceiverStream.set_pending None self, g)).
Proof.
  intros He. unfold ReceiverStream.cycle. do 2 erewrite mbind_ok by reflexivity. cbn [fst]. by rewrite He.
Qed.

(** The cycle around the inner node's. *)
Lemma stream_cycle_ok fuel self g b i st res :
  ReceiverStream.pending_err self = None ->
  ChannelReceiverStream.cycle fuel (ReceiverStream.inner self, g) = (Ok b, (i, g)) ->
  State.check_running (ChannelReceiverStream.finished i) (ReceiverStream.thread self) = (res, st) ->
  res = Ok tt \/ (exists e, res = Err e) ->
  let self1 := ReceiverStream.set_thread st (ReceiverStream.set_inner i self) in
  ReceiverStream.cycle fuel (self, g) =
    (Ok b, (match res with
            | Err e => ReceiverStream.self_notify (ReceiverStream.set_pending (Some e) self1)
            | _ => self1
            end, g)).
Proof.
  intros Hp Hi Hck Hres self1. unfold ReceiverStream.cycle. do 2 erewrite mbind_ok by reflexivity. cbn [fst].
  rewrite Hp.
  assert (Hs : ReceiverStream.set_pending None self = self) by (destruct self; simpl in *; by subst).
  rewrite Hs. erewrite mbind_ok by (unfold ReceiverStream.on_inner; cbn [fst snd]; rewrite Hi; reflexivity).
  erewrite mbind_ok by reflexivity. cbn [fst ReceiverStream.inner ReceiverStream.thread ReceiverStream.set_inner].
  rewrite Hck. erewrite mbind_ok by reflexivity. by destruct Hres as [->|[e ->]].
Qed.
End receiver.

(** A realtime cycle of a receiver with a running producer. It emits, as
    one burst, the values of the messages it finds, a prefix of those to come;
    whatever the thread did, this cycle succeeds. An error or a panic of the
    thread, or its return without the stream having met its end, becomes an error
    of the next cycle, which then takes nothing more from the channel; otherwise
    nothing is deferred. *)
Theorem receiver_stream_cycle {K R X NC T F H}
    `{Inbound R T, NotifierChannel NC X, ReadyChannel X, Threads F (ChannelSender K X) H}
    fuel g r (nc : option NC) v s (h h' : H) stop rt n over (msgs tl : list (Message T)) :
  ends tl -> inbox r = msgs ++ tl -> Forall (fun m => plain m = true) msgs -> (length msgs < fuel)%nat ->
  run_mode g = RealTime -> is_finished h = (over, h') -> settled_join (join h') ->
  exists self' got rest,
    let fin := ChannelReceiverStream.finished (ReceiverStream.inner self') in
    ReceiverStream.cycle fuel (running_stream (T := T) (F := F) (K := K) (X := X) r nc v s h stop rt n, g) =
      (Ok match flat_map values_of got with [] => false | _ => true end, (self', g)) /\
    ChannelReceiverStream.value (ReceiverStream.inner self') =
      match flat_map values_of got with [] => v | vs => vs end /\
    msgs = got ++ rest /\
    (if fin then rest = []
     else inbox (ChannelReceiver.kanal_receiver (ChannelReceiverStream.receiver (ReceiverStream.inner self'))) = rest ++ tl) /\
    ReceiverStream.pending_err self' = verdict fin over (join h') /\
    (forall e g2, verdict fin over (join h') = Some e ->
       exists self2, ReceiverStream.cycle fuel (self', g2) = (Err e, (self2, g2)) /\
         ReceiverStream.inner self2 = ReceiverStream.inner self').
Proof.
  intros Htl Hr Hp Hf Hm Hfin Hj.
  destruct (realtime_cycle fuel r None nc v None [] g msgs tl Htl Hr Hp Hf Hm)
    as (r' & got & rest & fin & Hcy & Hmsgs & Hend).
  destruct (check_running_handle (F := F) (K := K) (X := X) fin h over h' Hfin Hj) as (st & Hck & _).
  set (i := at_real r' None nc match flat_map values_of got with [] => v | vs => vs end fin None []) in Hcy.
  pose proof (stream_cycle_ok fuel (running_stream r nc v s h stop rt n) g _ i st _ eq_refl Hcy Hck) as Hrun.
  specialize (Hrun ltac:(destruct (verdict _ _ _); [by right; eexists|by left])).
  eexists _, got, rest. split; [exact Hrun|]. clear Hrun.
  destruct (verdict fin over (join h')) as [e|] eqn:Ev; simpl.
  all: split_and!; [done|done|done|done|]; intros e' g2 He'; rewrite Ev in He'; simplify_eq.
  eexists. split; [by apply pending_cycle|done].
Qed.

(** ** A producer that ends *)

(** A thread given by its fate: whether each look finds it over, and its result. *)
Record Fate := mkFate { fa_over : list bool; fa_result : Joined }.

#[export] Instance fate_threads {S} : Threads Fate S Fate := {|
  thread_spawn f _ := f;
  is_finished h :=
    match fa_over h with b :: bs => (b, mkFate bs (fa_result h)) | [] => (true, h) end;
  join h := fa_result h;
  raise_stop h := h |}.

(** The messages a producer sends before it returns [Ok(())], whether each look
    at the channel finds one, and whether each look at the thread finds it over:
    a receiver set up in a realtime graph, and the results of its cycles, each
    with the value peeked afterwards. *)
Section scenario.
Context {T : Type}.

Definition scenario_graph : GraphState :=
  set_current (GraphState.new RealTime Forever 0) (Some 0%nat).

Fixpoint cycles_of (n : nat) (s : ReceiverStream (list (Message T)) (Arrivals T) (list nat) unit T Fate Fate * GraphState)
  : list (Res bool * list T) :=
  match n with
  | O => []
  | S n' =>
    let '(r, s') := ReceiverStream.cycle 9 s in
    (r, ChannelReceiverStream.value (ReceiverStream.inner s'.1)) :: cycles_of n' s'
  end.

Definition scenario (msgs : list (Message T)) (there over : list bool) (n : nat) : list (Res bool * list T) :=
  let channel := channel_pair (fun _ => ([], mkArrivals msgs there)) None None in
  match ReceiverStream.setup []
      (ReceiverStream.new channel (mkFate over (Returned (Ok tt))) true, scenario_graph) with
  | (Ok _, s) => cycles_of n s
  | _ => []
  end.
End scenario.

(** Whether a producer's clean exit is an error depends on when it happens.
    The producer sends [a], then the end of the stream, and returns [Ok]. When all
    of it happens before the receiver looks, no cycle fails. When the receiver
    looks between [a] and the end of the stream, and the thread is over when it
    is asked next, the following cycle fails with an unexpected exit. And a
    producer that returns [Ok] after [a] without ending the stream is taken for
    clean when it is over before the receiver looks. *)
Theorem clean_exit_race {T} (a : T) :
  scenario [Message.RealtimeValue a; Message.EndOfStream] [] [] 2 = [(Ok true, [a]); (Ok false, [a])] /\
  scenario [Message.RealtimeValue a; Message.EndOfStream] [true; false] [] 2 =
    [(Ok true, [a]); (Err (Msg "Receiver thread exited unexpectedly"), [a])] /\
  scenario [Message.RealtimeValue a] [] [] 2 = [(Ok true, [a]); (Ok false, [a])].
Proof. split_and!; vm_compute; reflexivity. Qed.

(** ** Witness *)

Lemma receiver_stream_cycle_witness :
  exists self' got rest,
    ReceiverStream.cycle 5 (running_stream (T := Z) (F := Fate) (K := list (Message Z)) (X := list nat)
       (mkArrivals [Message.RealtimeValue 7; Message.RealtimeValue 8] [true; false]) (None : option unit) [] None
       (mkFate [true] (Returned (Err (Msg "boom")))) false true None, (realtime_call 10).1) =
      (Ok match flat_map values_of got with [] => false | _ => true end, (self', (realtime_call 10).1)) /\
    [Message.RealtimeValue 7; Message.RealtimeValue 8] = got ++ rest /\
    exists self2, ReceiverStream.cycle 5 (self', (realtime_call 20).1) =
      (Err (Msg "boom"), (self2, (realtime_call 20).1)).
Proof.
  destruct (receiver_stream_cycle (K := list (Message Z)) (X := list nat) (F := Fate) 5 (realtime_call 10).1
    (mkArrivals [Message.RealtimeValue 7; Message.RealtimeValue 8] [true; false]) (None : option unit) [] None
    (mkFate [true] (Returned (Err (Msg "boom")))) (mkFate [] (Returned (Err (Msg "boom")))) false true None true
    [Message.RealtimeValue 7; Message.RealtimeValue 8] []) as (self' & got & rest & H1 & _ & H2 & _ & _ & H3).
  - by left.
  - reflexivity.
  - repeat constructor.
  - simpl. lia.
  - reflexivity.
  - reflexivity.
  - exact I.
  - exists self', got, rest. split; [exact H1|]. split; [exact H2|].
    destruct (H3 (Msg "boom") (realtime_call 20).1 eq_refl) as (self2 & H4 & _). by exists self2.
Defined.
