(* ===== verification/GraphNodes.v ===== *)
(** * Graphs on worker threads: [wingfoil/src/nodes/graph_node.rs]

    [GraphProducerStream] runs a graph on another thread and emits its output
    here; [GraphMapStream] sends its source to a graph on another thread and
    emits what comes back. Spawning a thread, opening a channel and
    waiting for the worker's notifier belong to the environment: the class
    [GraphThreads] and the argument [open]. *)
From S2P Require Import Prelude NanoTime TimeQueue GraphState NodeCalls Timing Channel ChannelNodes.

(** What the worker's thread is given of this graph's run. *)
Record RunParams := mkRunParams { rp_mode : RunMode; rp_for : RunFor; rp_start : Z }.
Definition run_params (g : GraphState) : RunParams := mkRunParams (run_mode g) (run_for g) (start_time g).

(** [thread::spawn] of a worker, and the 100 ms wait for the notifier of its graph
    (or the reason there is none). [P] is what the closure captures. What [join]
    says of the worker is only logged, so it has no counterpart. *)
Class GraphThreads (P X H : Type) := {
  spawn_graph : P -> RunParams -> H;
  await_notifier : H -> (string + ReadyNotifier X) * H }.

(** A call on a receiving node kept in a field. *)
Definition on_receiver {S R NC T A} (get : S -> ChannelReceiverStream R NC T)
    (set : ChannelReceiverStream R NC T -> S -> S) (m : NodeM (ChannelReceiverStream R NC T) A) : NodeM S A := fun s =>
  let '(r, (i, g)) := m (get s.1, s.2) in (r, (set i s.1, g)).

Module GraphProducerStream.
Section node.
Context {K R X NC T FUNC H : Type}.
Context `{KanalReceiver R T, NotifierChannel NC X, GraphThreads (FUNC * ChannelSender K X) X H}.
Abbreviation Inner := (ChannelReceiverStream R NC T).
Inductive GraphProducerStreamState := Func (f : FUNC) | Handle (h : H) | Empty.
Record GraphProducerStream := mk { receiver_stream : option Inner; state : GraphProducerStreamState }.
Definition new (func : FUNC) : GraphProducerStream := mk None (Func func).
Definition upstreams (self : GraphProducerStream) : UpStreams := UpStreams_none.

Definition set_receiver (i : Inner) (self : GraphProducerStream) : GraphProducerStream :=
  mk (Some i) (state self).

(** [self.receiver_stream.get_mut().ok_or_else(..)?], and a call on it. *)
Definition with_receiver {A} (why : string) (m : NodeM Inner A) : NodeM GraphProducerStream A :=
  let! self := get_self in
  match receiver_stream self with
  | None => mfail (Msg why)
  | Some i => on_receiver (fun _ => i) set_receiver m
  end.

Definition cycle (fuel : nat) : NodeM GraphProducerStream bool :=
  with_receiver "GraphProducerStream cycled before setup" (ChannelReceiverStream.cycle fuel).

(** [open] opens a channel; [x] is this graph's ready channel. *)
Definition setup (open : option Z -> K * R) (x : X) : NodeM GraphProducerStream unit :=
  let! self := get_self in
  do! put_self (mk (receiver_stream self) Empty) in
  match state self with
  | Func func =>
    let! g := graph in
    let! n := (match run_mode g with
      | HistoricalFrom _ => mreturn None
      | RealTime => let! n := call (ready_notifier x) in mreturn (Some n)
      end) in
    let '(sender, receiver) := channel_pair open n None in
    let inner := ChannelReceiverStream.new receiver None None in
    let! inner := (fun s =>
      let '(r, (i, g)) := ChannelReceiverStream.setup x (inner, s.2) in
      (match r with Ok _ => Ok i | Err e => Err e | Panic w => Panic w | OutOfFuel => OutOfFuel end, (s.1, g))) in
    let! self := get_self in
    match receiver_stream self with
    | Some _ => mfail (Msg "GraphProducerStream setup called twice")
    | None =>
      let! g := graph in
      put_self (mk (Some inner) (Handle (spawn_graph (func, sender) (run_params g))))
    end
  | _ => mfail (Msg "GraphProducerStream::setup called in unexpected state")
  end.

(** The worker's panic, if it died of one, is only logged. *)
Definition teardown : NodeM GraphProducerStream unit :=
  do! with_receiver "GraphProducerStream torn down before setup" ChannelReceiverStream.teardown in
  let! self := get_self in
  do! put_self (mk (receiver_stream self) Empty) in
  match state self with
  | Handle _ => mreturn tt
  | _ => mfail (Msg "unexpected state")
  end.

(** [peek_ref]: a panic before [setup]. *)
Definition peek_ref (self : GraphProducerStream) : Res (list T) :=
  match receiver_stream self with
  | Some i => Ok (ChannelReceiverStream.value i)
  | None => Panic "peek_ref called before GraphProducerStream::setup"
  end.
End node.
Arguments GraphProducerStream : clear implicits.
End GraphProducerStream.

Module GraphMapStream.
Section node.
Context {K1 R1 K2 R2 X NC IN OUT FUNC H : Type}.
Context `{KanalSender K1 IN, KanalReceiver R2 OUT, ReadyChannel X, NotifierChannel NC X}.
Context `{GraphThreads (FUNC * ChannelReceiver R1 * ChannelSender K2 X) X H}.
Abbreviation Inner := (ChannelReceiverStream R2 NC OUT).
Inductive GraphMapStreamState := Func (f : FUNC) (sender_out : ChannelSender K2 X) | Handle (h : H) | Empty.
Record GraphMapStream := mk {
  source : addr; sender : option (ChannelSender K1 X); receiver_stream : Inner; state : GraphMapStreamState }.

(** [out] is the channel that [channel_pair(None, None)] returns. *)
Definition new (source : addr) (func : FUNC) (out : ChannelSender K2 X * ChannelReceiver R2) : GraphMapStream :=
  mk source None (ChannelReceiverStream.new out.2 (Some source) None) (Func func out.1).
Definition upstreams (self : GraphMapStream) : UpStreams := mkUpStreams [source self] [].

Definition set_sender (s : option (ChannelSender K1 X)) (self : GraphMapStream) : GraphMapStream :=
  mk (source self) s (receiver_stream self) (state self).
Definition set_receiver (i : Inner) (self : GraphMapStream) : GraphMapStream :=
  mk (source self) (sender self) i (state self).
Definition set_state (st : GraphMapStreamState) (self : GraphMapStream) : GraphMapStream :=
  mk (source self) (sender self) (receiver_stream self) st.

(** [value] is the source's. *)
Definition cycle (fuel : nat) (value : IN) : NodeM GraphMapStream bool :=
  let! self := get_self in
  let! g := graph in
  let! ticked := mlift (GraphState.ticked g (source self)) in
  do! (if ticked : bool then
      match sender self with
      | None => mfail (Msg "GraphMapStream cycled before setup")
      | Some s =>
        let '(r, s) := ChannelSender.send g value s in
        do! put_self (set_sender (Some s) self) in
        mlift (send_result r)
      end
    else mreturn tt) in
  on_receiver receiver_stream set_receiver (ChannelReceiverStream.cycle fuel).

(** [open] opens the channel to the worker; [x] is this graph's ready channel. *)
Definition setup (open : option Z -> K1 * R1) (x : X) : NodeM GraphMapStream unit :=
  let! self := get_self in
  do! put_self (set_state Empty self) in
  match state self with
  | Func func sender_out =>
    let! g := graph in
    let! sender_out := (match run_mode g with
      | RealTime => let! n := call (ready_notifier x) in mreturn (ChannelSender.set_notifier n sender_out)
      | HistoricalFrom _ => mreturn sender_out
      end) in
    let '(sender_in, receiver_in) := channel_pair open None None in
    let handle := spawn_graph (func, receiver_in, sender_out) (run_params g) in
    let! sender_in := (match run_mode g with
      | HistoricalFrom _ =>
        do! put_self (set_state (Handle handle) self) in mreturn sender_in
      | RealTime =>
        let '(r, handle) := await_notifier handle in
        do! put_self (set_state (Handle handle) self) in
        match r with
        | inl e => mfail (Msg ("waiting for ready notifier: " +:+ e))
        | inr n => mreturn (ChannelSender.set_notifier n sender_in)
        end
      end) in
    let! self := get_self in
    match sender self with
    | Some _ => mfail (Msg "GraphMapStream setup called twice")
    | None =>
      do! put_self (set_sender (Some sender_in) self) in
      on_receiver receiver_stream set_receiver (ChannelReceiverStream.setup x)
    end
  | _ => mfail (Msg "Invalid state")
  end.

Definition stop : NodeM GraphMapStream unit :=
  let! self := get_self in
  match sender self with
  | None => mfail (Msg "Sender not initialized")
  | Some s =>
    let '(r, s) := ChannelSender.close (T := IN) s in
    do! put_self (set_sender (Some s) self) in
    mlift (send_result r)
  end.

Definition teardown : NodeM GraphMapStream unit :=
  do! on_receiver receiver_stream set_receiver ChannelReceiverStream.teardown in
  let! self := get_self in
  do! put_self (set_state Empty self) in
  match state self with
  | Handle _ => mreturn tt
  | _ => mfail (Msg "Invalid state")
  end.

Definition peek_ref (self : GraphMapStream) : list OUT := ChannelReceiverStream.value (receiver_stream self).
End node.
Arguments GraphMapStream : clear implicits.
End GraphMapStream.
