(* ===== verification/GraphNodeProps.v ===== *)
(** * What graphs on worker threads promise

    [producer_correct]: the output of a producer's graph comes out of the
    consumer's. [graph_map_lockstep]: a mapped stream and its worker take turns. *)
From S2P Require Import Prelude NanoTime TimeQueue GraphState NodeCalls Timing Iterators Graph Solo Channel ChannelNodes ChannelProps ChannelPipe GraphNodes.
Local Open Scope Z_scope.

(** ** The producer *)

Section producer.
Context {K R X NC T FUNC H : Type}.
Context `{Inbound R T, NotifierChannel NC X, GraphThreads (FUNC * ChannelSender K X) X H}.
Abbreviation Node := (GraphProducerStream.GraphProducerStream R NC T FUNC H).
Import GraphProducerStream.

Definition value_of (self : Node) : list T := match peek_ref self with Ok v => v | _ => [] end.

(** A call on the inner node is a call on the node. *)
Lemma with_receiver_run {A} why (m : NodeM (ChannelReceiverStream R NC T) A) i st g r i' g' :
  m (i, g) = (r, (i', g')) ->
  with_receiver why m (mk (FUNC := FUNC) (H := H) (Some i) st, g) = (r, (mk (Some i') st, g')).
Proof. intros Hm. unfold with_receiver. erewrite mbind_ok by reflexivity. simpl. unfold on_receiver. simpl. by rewrite Hm. Qed.

Lemma producer_runs fuel t0 k next i out i' st :
  runs_to ChannelReceiverStream.value (ChannelReceiverStream.cycle fuel) t0 k next i out i' ->
  runs_to value_of (cycle fuel) t0 k next (mk (Some i) st) out (mk (Some i') st).
Proof.
  apply (runs_to_embed _ _ _ _ (fun i => mk (Some i) st)); [|done]. intros. by apply with_receiver_run.
Qed.

Definition run_producer (fuel : nat) (t0 : Z) (open : option Z -> K * R) (x : X) (func : FUNC)
  : Res unit * Sys (Node * list (Z * list T)) :=
  run_solo value_of (cycle (S (S fuel))) (setup open x) default_hook default_hook teardown t0 (5 + fuel) (new func).

Lemma producer_run fuel t0 tl open x func k r (msgs : list (Message T)) :
  open None = (k, r) -> ends tl -> inbox r = msgs ++ tl -> 0 <= t0 < u64_max -> in_order t0 msgs ->
  senders_go (R := R) (T := T) -> (2 * length msgs <= fuel)%nat -> Z.of_nat (2 * length msgs) + 2 < u32_max ->
  exists sys, run_producer fuel t0 open x func = (Ok tt, sys) /\ (world sys).2 = deliveries msgs.
Proof.
  intros Hopen Htl Hr Ht Ho Hgo Hf Hu.
  destruct (ready_runs (NC := NC) fuel t0 tl t0 (at_read r None [] false None []) _ _ Htl
    (ready_wait tl t0 r None [] msgs Hr Ht Ho)) as (n & i' & Hk & Hruns & _).
  destruct (teardown_asks t0 i' Hgo) as [i2 Htear].
  set (st := Handle (FUNC := FUNC) (spawn_graph (func, ChannelSender.new k None) (mkRunParams (HistoricalFrom t0) Forever t0))).
  destruct (solo_run value_of (cycle (S (S fuel))) (setup open x) default_hook default_hook teardown t0 (5 + fuel) n t0
    (Some t0) None (new func) (mk (Some (at_read r None [] false None [])) st)
    (mk (Some (at_read r None [] false None [])) st) (deliveries msgs) (mk (Some i') st) (mk (Some i') st)
    (mk (Some i2) Empty)) as (sys & Hrun & Hw);
    [|by intros g|by left|by apply producer_runs|by intros g| |lia|lia|].
  - intros g [Hm Hc Hfor Hst]. unfold setup. do 2 erewrite mbind_ok by reflexivity. cbn [fst state new].
    erewrite mbind_ok by reflexivity. cbn [snd]. rewrite Hm. erewrite mbind_ok by reflexivity.
    unfold channel_pair. rewrite Hopen.
    assert (Hsetup := setup_asks t0 x (ChannelReceiverStream.new (T := T) (ChannelReceiver.new r) None (None : option NC))
      eq_refl g (Build_at_hook t0 g Hm Hc Hfor Hst)).
    erewrite mbind_ok by (cbn [fst snd]; rewrite Hsetup; reflexivity).
    erewrite mbind_ok by reflexivity. cbn [fst receiver_stream new]. erewrite mbind_ok by reflexivity.
    unfold run_params. simpl. by rewrite Hm, Hfor, Hst.
  - intros g Hg. unfold teardown. erewrite mbind_ok by (apply with_receiver_run, Htear, Hg). reflexivity.
  - exists sys. split; [done|]. by rewrite Hw.
Qed.
End producer.

(** C17: the output of a graph on a producer thread comes out of this graph as it
    was. The worker's graph sends its stream into the channel it was given: at
    every cycle the value when the stream ticked, and the end of the stream when
    it stops. The graph of [producer(func)], run in historical mode on this
    thread over the other end of that channel, ends without an error and emits
    the stream's ticks: the same values, one burst each, at the same times. This
    whatever has arrived by each look at the channel, as long as the channel keeps
    messages in order, both its ends live on, and the times of the worker's cycles
    increase, as the engine's do. Both graphs run for [RunFor::Forever], in
    fewer cycles than the engine counts. *)
Theorem producer_correct {K R X NC T FUNC H}
    `{Outbound K T, Inbound R T, ReadyChannel X, NotifierChannel NC X, GraphThreads (FUNC * ChannelSender K X) X H}
    fuel t0 open (func : FUNC) source ix cs k r (x : X) :
  open None = (k, r) -> receiver_stays (K := K) (T := T) -> senders_go (R := R) (T := T) ->
  0 <= t0 < u64_max -> Forall (sender_call t0 source ix) cs ->
  StronglySorted Z.lt (map (fun c => time c.1) cs) -> Forall (fun c => ticked_at ix c.1 = true) cs ->
  outbox k = [] -> (2 * length cs <= fuel)%nat -> Z.of_nat (2 * length cs) + 2 < u32_max ->
  exists out s1 s2 k2,
    drive SenderNode.cycle (fun _ => tt) cs
      (SenderNode.new source (ChannelSender.new (X := X) k None) None) = (Ok out, s1) /\
    (forall g, SenderNode.stop (T := T) (s1, g) = (Ok tt, (s2, g))) /\
    SenderNode.sender s2 = ChannelSender.mk (Some k2) None /\
    (inbox r = outbox k2 ->
       exists sys, run_producer (NC := NC) (H := H) fuel t0 open x func = (Ok tt, sys) /\
         (world sys).2 = map (fun c => (time c.1, [c.2])) cs).
Proof.
  intros Hopen Hst Hgo Ht0 Hcs Hs Htick Hk Hf Hu.
  destruct (sender_stream (X := X) t0 source ix None cs k Hst Hcs (fun _ => Htick))
    as (out & s1 & s2 & k2 & Hd & Hsp & Hse & Hk2).
  exists out, s1, s2, k2. split_and!; [done..|]. intros Hr. rewrite Hk2, Hk in Hr. simpl in Hr.
  destruct (producer_run (NC := NC) (H := H) fuel t0 [Message.EndOfStream] open x func k r (message_of ix <$> cs))
    as (sys & Hrun & Hw); [done|by right|done|done| |done|by rewrite length_fmap|by rewrite length_fmap|].
  - by eapply sent_in_order.
  - exists sys. split; [done|]. rewrite Hw, sent_deliveries. clear -Htick. unfold source_ticks.
    induction Htick as [|c cs Hc _ IH]; simpl; [done|]. by rewrite Hc, IH.
Qed.

(** ** The mapped stream *)

Section triggered.
Context {R X NC T : Type} `{Inbound R T}.
Abbreviation Receiver := (ChannelReceiverStream R NC T).
Import ChannelReceiverStream.

(** A triggered receiver between two cycles. *)
Definition waiting (r : R) (trig : addr) (nc : option NC) v : Receiver :=
  mk (ChannelReceiver.mk r) (Some trig) nc v false None [].

(** The values a stamped message brings. *)
Definition burst_of (m : Message T) : list T :=
  match m with Message.HistoricalValue va => va_value va | _ => [] end.

(** Its cycle at [t] takes one message, the one stamped [t], and asks for nothing. *)
Lemma triggered_cycle fuel g r trig nc v (m : Message T) msgs t0 :
  run_mode g = HistoricalFrom t0 -> inbox r = m :: msgs -> stamp m = Some (time g) ->
  exists r', inbox r' = msgs /\
    cycle (S fuel) (waiting r trig nc v, g) =
      (Ok match burst_of m with [] => false | _ => true end,
       (waiting r' trig nc match burst_of m with [] => v | vs => vs end, g)).
Proof.
  intros Hm Hr Hs. destruct (recv_spec r (m :: msgs) []) as (r' & Hrd & Hr'); [by left|by rewrite app_nil_r|].
  exists r'. split; [by rewrite Hr', app_nil_r|].
  set (due := match m with Message.HistoricalValue va => [va] | _ => [] end).
  assert (Hread : read_historical (S fuel) (waiting r trig nc v, g) =
    (Ok tt, (mk (ChannelReceiver.mk r') (Some trig) nc v false (Some (time g)) due, g))).
  { rewrite (read_some fuel _ g false m (ChannelReceiver.mk r')) by done.
    erewrite mbind_ok by (apply accept_told; right; exists (time g); split; [done|lia]).
    assert (Htold : told m (set_receiver (ChannelReceiver.mk r') (waiting r trig nc v)) =
      mk (ChannelReceiver.mk r') (Some trig) nc v false (Some (time g)) due)
      by (unfold told, due; destruct m; try done; injection Hs as Hs; simpl; by rewrite Hs).
    rewrite Htold. apply read_break. unfold reading. simpl. by rewrite Z.ltb_irrefl, Z.eqb_refl. }
  assert (Hdue : forall va, va ∈ due -> va_time va = time g).
  { intros va Hva. unfold due in Hva. destruct m; try by inversion Hva. injection Hs as Hs.
    by apply list_elem_of_singleton in Hva as ->. }
  assert (Hvs : concat (va_value <$> due) = burst_of m) by (unfold due; destruct m; simpl; by rewrite ?app_nil_r).
  assert (Hh : cycle_historical (S fuel) (waiting r trig nc v, g) = (Ok (burst_of m), (waiting r' trig nc v, g))).
  { unfold cycle_historical. erewrite mbind_ok by exact Hread. do 2 erewrite mbind_ok by reflexivity.
    cbn [fst snd queue].
    rewrite <-(app_nil_r due), (pop_due_split (time g) due [] []) by (try done; intros va Hva; inversion Hva).
    rewrite Hvs. erewrite mbind_ok by reflexivity. reflexivity. }
  unfold cycle. erewrite mbind_ok by reflexivity. cbn [snd]. rewrite Hm. erewrite mbind_ok by exact Hh.
  by destruct (burst_of m).
Qed.
End triggered.

Section map.
Context {K1 R1 K2 R2 X NC IN OUT FUNC H : Type}.
Context `{Outbound K1 IN, Inbound R2 OUT, ReadyChannel X, NotifierChannel NC X}.
Context `{GraphThreads (FUNC * ChannelReceiver R1 * ChannelSender K2 X) X H}.
Abbreviation Node := (GraphMapStream.GraphMapStream K1 K2 R2 X NC OUT FUNC H).
Import GraphMapStream.

(** The node between two cycles. *)
Definition mapping source (k : K1) (r : R2) (nc : option NC) (v : list OUT) st : Node :=
  mk source (Some (ChannelSender.mk (Some k) None)) (waiting r source nc v) st.

Lemma map_cycle fuel t0 g source value k r nc v st (m : Message OUT) msgs :
  receiver_stays (K := K1) (T := IN) -> run_mode g = HistoricalFrom t0 -> GraphState.ticked g source = Ok true ->
  inbox r = m :: msgs -> stamp m = Some (time g) ->
  exists k' r', outbox k' = outbox k ++ [Message.HistoricalValue (mkValueAt [value] (time g))] /\
    inbox r' = msgs /\
    cycle (S fuel) value (mapping source k r nc v st, g) =
      (Ok match burst_of m with [] => false | _ => true end,
       (mapping source k' r' nc match burst_of m with [] => v | vs => vs end st, g)).
Proof.
  intros Hst Hm Htick Hr Hs.
  destruct (send_message_ok (X := X) (Message.HistoricalValue (mkValueAt [value] (time g))) k Hst) as (k' & Hsend & Hk').
  destruct (triggered_cycle fuel g r source nc v m msgs t0 Hm Hr Hs) as (r' & Hr' & Hcy).
  exists k', r'. split; [done|]. split; [done|]. unfold cycle.
  do 2 erewrite mbind_ok by reflexivity. cbn [fst snd GraphMapStream.source mapping].
  erewrite mbind_ok by (unfold mlift; rewrite Htick; reflexivity). cbn [sender mapping].
  unfold ChannelSender.send. rewrite Hm, Hsend. erewrite mbind_ok by reflexivity.
  unfold on_receiver. cbn [fst snd receiver_stream set_sender mapping].
  change (receiver_stream _) with (waiting r source nc v). rewrite Hcy. reflexivity.
Qed.

(** A call in a cycle in which the source ticked. *)
Record map_call (t0 : Z) (source : addr) (c : GraphState * IN) : Prop := {
  mc_mode : run_mode c.1 = HistoricalFrom t0;
  mc_ticked : GraphState.ticked c.1 source = Ok true;
  mc_time : t0 <= time c.1 /\ time c.1 + 1 < u64_max }.

(** What a call sends to the worker. *)
Definition sent_to_worker (c : GraphState * IN) : Message IN :=
  Message.HistoricalValue (mkValueAt [c.2] (time c.1)).

Lemma sent_to_worker_in_order t0 source cs :
  Forall (map_call t0 source) cs -> StronglySorted Z.lt (map (fun c => time c.1) cs) ->
  in_order t0 (map sent_to_worker cs).
Proof.
  intros Hcs Hs. apply stamps_in_order; [done|]. eapply Forall_impl; [exact Hcs|]. intros c Hc. split; [done|apply Hc].
Qed.

Lemma map_run fuel t0 source cs k r nc v st (replies : list (Message OUT)) tl :
  receiver_stays (K := K1) (T := IN) -> Forall (map_call t0 source) cs ->
  Forall2 (fun c m => stamp m = Some (time c.1)) cs replies -> inbox r = replies ++ tl ->
  exists k' r' v',
    drive (cycle (S fuel)) peek_ref cs (mapping source k r nc v st) =
      (Ok (deliveries replies), mapping source k' r' nc v' st) /\
    outbox k' = outbox k ++ map sent_to_worker cs /\ inbox r' = tl.
Proof.
  intros Hst Hcs Hrep. revert k r v. induction Hrep as [|c m cs replies Hs _ IH]; intros k r v Hr.
  { exists k, r, v. by rewrite app_nil_r. }
  inversion Hcs as [|? ? [Hm Htick Ht] Hcs']; subst.
  destruct (map_cycle fuel t0 c.1 source c.2 k r nc v st m (replies ++ tl) Hst Hm Htick Hr Hs)
    as (k1 & r1 & Hk1 & Hr1 & Hcy).
  destruct (IH Hcs' k1 r1 match burst_of m with [] => v | vs => vs end Hr1) as (k2 & r2 & v2 & Hd & Hk2 & Hr2).
  exists k2, r2, v2. split; [|split; [|done]].
  - rewrite (drive_cons _ _ c cs _ _ _ _ _ _ Hcy Hd). do 2 f_equal. unfold deliveries. cbn [flat_map]. f_equal.
    destruct m as [t'| |va| |]; try done. injection Hs as Hs. simpl. unfold delivery.
    destruct (va_value va); [done|]. by rewrite Hs.
  - rewrite Hk2, Hk1, <-app_assoc. done.
Qed.

Lemma map_stop source k r nc v st g :
  receiver_stays (K := K1) (T := IN) ->
  exists k' self', stop (mapping source k r nc v st, g) = (Ok tt, (self', g)) /\
    sender self' = Some (ChannelSender.mk None None) /\
    (kanal_send Message.EndOfStream k).2 = k' /\ outbox k' = outbox k ++ [Message.EndOfStream].
Proof.
  intros Hst. destruct (send_message_ok (X := X) Message.EndOfStream k Hst) as (k' & Hsend & Hk').
  exists k', (set_sender (Some (ChannelSender.mk None None)) (mapping source k r nc v st)). split; [|split_and!].
  - unfold stop. erewrite mbind_ok by reflexivity. cbn [fst sender mapping].
    unfold ChannelSender.close. cbn [ChannelSender.kanal_sender]. by rewrite Hsend.
  - reflexivity.
  - unfold ChannelSender.send_message in Hsend. simpl in Hsend.
    destruct (kanal_send Message.EndOfStream k) as [[] k1]; simpl; congruence.
  - done.
Qed.
End map.

(** A mapped stream and its worker take turns. When the worker answers what
    it is sent with one message stamped alike (its sending node's value, or a
    checkpoint), every historical cycle of the mapping node in which the source
    ticked sends the source's value and takes exactly one message, the answer to
    it: after any number of such cycles as many values have been sent as answers
    taken, in order, and the node has emitted the answers' values at their times.
    And the receiving node of the worker, run to the end over what was sent and
    the end of the stream, emits every value at its time, whatever has arrived by
    each of its looks. *)
Theorem graph_map_lockstep {K1 R1 K2 R2 X NC NC1 IN OUT FUNC H}
    `{Outbound K1 IN, Inbound R2 OUT, Inbound R1 IN, ReadyChannel X, NotifierChannel NC X, NotifierChannel NC1 X}
    `{GraphThreads (FUNC * ChannelReceiver R1 * ChannelSender K2 X) X H}
    fuel t0 source cs (k : K1) (r : R2) (nc : option NC) (nc1 : option NC1) st (x : X) replies (tl : list (Message OUT)) :
  receiver_stays (K := K1) (T := IN) -> senders_go (R := R1) (T := IN) -> 0 <= t0 < u64_max ->
  Forall (map_call t0 source) cs -> StronglySorted Z.lt (map (fun c => time c.1) cs) ->
  Forall2 (fun c m => stamp m = Some (time c.1)) cs replies -> inbox r = replies ++ tl -> outbox k = [] ->
  (2 * length cs <= fuel)%nat -> Z.of_nat (2 * length cs) + 2 < u32_max ->
  (forall n, exists k' r' v',
     drive (GraphMapStream.cycle (S fuel)) GraphMapStream.peek_ref (take n cs) (mapping (FUNC := FUNC) (H := H) (K2 := K2) (X := X) source k r nc [] st) =
       (Ok (deliveries (take n replies)), mapping source k' r' nc v' st) /\
     outbox k' = map sent_to_worker (take n cs) /\ inbox r' = drop n replies ++ tl) /\
  (forall r1 : R1, inbox r1 = map sent_to_worker cs ++ [Message.EndOfStream] ->
     exists sys, run_receiver fuel t0 x (ChannelReceiverStream.new (ChannelReceiver.mk r1) None nc1) = (Ok tt, sys) /\
       (world sys).2 = map (fun c => (time c.1, [c.2])) cs).
Proof.
  intros Hst Hgo Ht0 Hcs Hsorted Hrep Hr Hk Hf Hu. split.
  - intros n. destruct (map_run (K2 := K2) (FUNC := FUNC) (H := H) fuel t0 source (take n cs) k r nc [] st
      (take n replies) (drop n replies ++ tl) Hst) as (k' & r' & v' & Hd & Hk' & Hr').
    + by apply Forall_take.
    + by apply Forall2_take.
    + by rewrite app_assoc, take_drop.
    + exists k', r', v'. by rewrite Hk', Hk.
  - intros r1 Hr1. destruct (receiver_run fuel t0 [Message.EndOfStream] x r1 nc1 (map sent_to_worker cs))
      as (sys & Hrun & Hw); [by right|done|done| |done|by rewrite length_map|by rewrite length_map|].
    + by eapply sent_to_worker_in_order.
    + exists sys. split; [done|]. rewrite Hw. clear. induction cs as [|c cs IH]; [done|]. simpl. by rewrite <-IH.
Qed.

(** ** Witnesses *)

(** A thread nobody looks at: what it was given of the run. *)
#[export] Instance params_threads {P X} : GraphThreads P X RunParams := {|
  spawn_graph _ p := p;
  await_notifier h := (inl EmptyString, h) |}.

(** A worker's calls: its source, at index 0, ticks at 10 and at 25. *)
Definition worker_call (t : Z) (v : Z) : GraphState * Z :=
  (set_node_to_index (set_node_ticked (set_time (GraphState.new (HistoricalFrom 0) Forever 0) t) [true])
     {[1%positive := 0%nat]}, v).
Definition worker_calls : list (GraphState * Z) := [worker_call 10 7; worker_call 25 8].

Lemma producer_correct_witness :
  let sent := [Message.HistoricalValue (mkValueAt [7] 10); Message.HistoricalValue (mkValueAt [8] 25);
               Message.EndOfStream] in
  exists sys, run_producer (NC := unit) (FUNC := unit) (H := RunParams) 4 0
      (fun _ => ([] : list (Message Z), mkArrivals sent [false])) ([] : list nat) tt = (Ok tt, sys) /\
    (world sys).2 = [(10, [7]); (25, [8])].
Proof.
  intros sent.
  destruct (producer_correct (K := list (Message Z)) (R := Arrivals Z) (X := list nat) (NC := unit) (FUNC := unit)
    (H := RunParams) 4 0 (fun _ => ([], mkArrivals sent [false])) tt 1%positive 0 worker_calls []
    (mkArrivals sent [false]) []) as (out & s1 & s2 & k2 & Hd & Hst & Hs & Hrun).
  - reflexivity.
  - intros m k. reflexivity.
  - intros r. reflexivity.
  - unfold u64_max. lia.
  - repeat constructor; simpl; try reflexivity; try lia; try (unfold u64_max; lia); by eexists.
  - repeat constructor; lia.
  - repeat constructor.
  - reflexivity.
  - simpl. lia.
  - reflexivity.
  - apply Hrun. vm_compute in Hd. injection Hd as _ <-. specialize (Hst (worker_call 0 0).1).
    vm_compute in Hst. injection Hst as <-. injection Hs as <-. reflexivity.
Defined.

Lemma graph_map_lockstep_witness :
  let replies := [Message.CheckPoint 10; Message.HistoricalValue (mkValueAt [80] 25)] in
  (exists k' r' v',
     drive (GraphMapStream.cycle 5) GraphMapStream.peek_ref worker_calls
       (mapping (K2 := unit) (X := list nat) (FUNC := unit) (H := RunParams) 1%positive ([] : list (Message Z))
          (mkArrivals replies []) (None : option unit) [] GraphMapStream.Empty) =
       (Ok [(25, [80])], mapping 1%positive k' r' None v' GraphMapStream.Empty) /\
     inbox r' = []) /\
  exists sys, run_receiver 4 0 ([] : list nat) (ChannelReceiverStream.new (ChannelReceiver.mk
      (mkArrivals (map sent_to_worker worker_calls ++ [Message.EndOfStream]) [false])) None (None : option unit)) = (Ok tt, sys) /\
    (world sys).2 = [(10, [7]); (25, [8])].
Proof.
  intros replies.
  destruct (graph_map_lockstep (K1 := list (Message Z)) (R1 := Arrivals Z) (K2 := unit) (R2 := Arrivals Z)
    (X := list nat) (NC := unit) (NC1 := unit) (FUNC := unit) (H := RunParams) 4 0 1%positive worker_calls []
    (mkArrivals replies []) None None GraphMapStream.Empty [] replies []) as [Hmap Hworker].
  - intros m k. reflexivity.
  - intros r. reflexivity.
  - unfold u64_max. lia.
  - repeat constructor; simpl; try reflexivity; try lia; unfold u64_max; lia.
  - repeat constructor; lia.
  - repeat constructor.
  - reflexivity.
  - reflexivity.
  - simpl. lia.
  - reflexivity.
  - split.
    + destruct (Hmap 2%nat) as (k' & r' & v' & Hd & _ & Hr'). exists k', r', v'. split; [exact Hd|exact Hr'].
    + exact (Hworker (mkArrivals (map sent_to_worker worker_calls ++ [Message.EndOfStream]) [false]) eq_refl).
Defined.
