(* ===== verification/AsyncNodes.v ===== *)
(** * Async producers and consumers: [wingfoil/src/nodes/async_io.rs]

    A stream fed by an async task, and a sink that feeds one. A futures stream is
    the list of its items; what a task does with one is a function on lists. The
    runtime is the class [Tasks], the closures are its spawned programs, and a
    reading of the clock is an argument. *)
From S2P Require Import Prelude NanoTime TimeQueue GraphState NodeCalls Timing Channel ChannelNodes GraphNodes.

(** [RunParams::end_time]. *)
Definition end_time (p : RunParams) : Res Z :=
  match rp_for p with
  | ForDuration d => Ok (NanoTime.add_duration (rp_start p) d)
  | Forever => Ok NanoTime.MAX
  | Cycles _ => Err (Msg "end_time not available for RunFor::Cycles")
  end.

(** ** Streams of messages *)

Section streams.
Context {T : Type}.

(** What is pending when a group ends. *)
Definition flush (pending : option (ValueAt (list T))) : list (Message T) :=
  match pending with Some group => [Message.HistoricalValue group] | None => [] end.

(** [to_message_stream]: same-time neighbours make one message. *)
Fixpoint message_loop (run_mode : RunMode) (pending : option (ValueAt (list T)))
    (source : list (Error + (Z * T))) : list (Message T) :=
  match source with
  | [] => flush pending ++ [Message.EndOfStream]
  | inr (time, value) :: rest =>
    match run_mode with
    | RealTime => Message.RealtimeValue value :: message_loop run_mode pending rest
    | HistoricalFrom _ =>
      match pending with
      | Some group =>
        if (va_time group =? time)%Z then
          message_loop run_mode (Some (mkValueAt (va_value group ++ [value]) (va_time group))) rest
        else Message.HistoricalValue group :: message_loop run_mode (Some (mkValueAt [value] time)) rest
      | None => message_loop run_mode (Some (mkValueAt [value] time)) rest
      end
    end
  | inl e :: rest => flush pending ++ Message.Error e :: message_loop run_mode None rest
  end.

Definition to_message_stream (run_mode : RunMode) (source : list (Error + (Z * T))) : list (Message T) :=
  message_loop run_mode None source.

(** [limit]: the messages up to the one that ends the stream or the run. The
    [n]-th reading of the clock is [now n]. *)
Fixpoint limit_loop (now : nat -> Z) (reads : nat) (run_for : RunFor) (time0 time cycle : Z)
    (source : list (Message T)) : list (Message T) :=
  match source with
  | [] => []
  | message :: rest =>
    let '(time, reads, finished) :=
      match message with
      | Message.RealtimeValue _ => (now reads, S reads, false)
      | Message.HistoricalValue value_at => (va_time value_at, reads, false)
      | Message.CheckPoint t => (t, reads, false)
      | Message.EndOfStream => (time, reads, true)
      | Message.Error _ => (time, reads, false)
      end in
    let elapsed := NanoTime.sub time time0 in
    message ::
      (if RunFor_done run_for cycle elapsed || finished then []
       else limit_loop now reads run_for time0 time (wrap_u32 (cycle + 1)) rest)
  end.

Definition limit (now : nat -> Z) (run_mode : RunMode) (run_for : RunFor) (source : list (Message T))
  : list (Message T) :=
  match run_mode with
  | RealTime => limit_loop now 1 run_for (now 0) (now 0) 0 source
  | HistoricalFrom start_time => limit_loop now 0 run_for start_time start_time 0 source
  end.

(** [to_stream]: what a consumer's closure is given. *)
Fixpoint to_stream (now : nat -> Z) (reads : nat) (source : list (Message T)) : list (Z * T) :=
  match source with
  | [] => []
  | Message.RealtimeValue value :: rest => (now reads, value) :: to_stream now (S reads) rest
  | Message.HistoricalValue value_at :: rest =>
    map (fun value => (va_time value_at, value)) (va_value value_at) ++ to_stream now reads rest
  | Message.CheckPoint _ :: rest | Message.EndOfStream :: rest => to_stream now reads rest
  | Message.Error _ :: _ => []
  end.
End streams.

(** ** Tasks *)

(** What awaiting a task yields: its result, or a [JoinError], whose text is [why]. *)
Inductive TaskEnd := TaskOk | TaskErr (e : Error) | TaskGone (cancelled : bool) (why : string).

Class Tasks (P H : Type) := {
  task_spawn : P -> RunParams -> H;
  task_finished : H -> bool * H;
  block_on : H -> TaskEnd;
  abort : H -> H }.

(** ** The producer *)

Section producer_task.
Context {K X T : Type} `{KanalSender K T, ReadyChannel X}.

(** [while let Some(message) = source.next().await], until a send fails. *)
Fixpoint send_all (messages : list (Message T)) (sender : AsyncChannelSender K X) : AsyncChannelSender K X :=
  match messages with
  | [] => sender
  | message :: rest =>
    let '(r, sender) := AsyncChannelSender.send_message message sender in
    match r with SendOk => send_all rest sender | SendErr _ => sender end
  end.

(** The future that [setup] spawns; [outcome] is what the closure returns. *)
Definition producer_task (now : nat -> Z) (p : RunParams) (outcome : Error + list (Error + (Z * T)))
    (sender : AsyncChannelSender K X) : AsyncChannelSender K X :=
  let sender :=
    match outcome with
    | inl e => (AsyncChannelSender.send_message (Message.Error e) sender).2
    | inr items => send_all (limit now (rp_mode p) (rp_for p) (to_message_stream (rp_mode p) items)) sender
    end in
  (AsyncChannelSender.close (T := T) sender).2.
End producer_task.

Module AsyncProducerStream.
Section node.
Context {K R X NC T FUNC H : Type}.
Context `{KanalReceiver R T, NotifierChannel NC X, Tasks (FUNC * AsyncChannelSender K X) H}.
Abbreviation Inner := (ChannelReceiverStream R NC T).
Record AsyncProducerStream := mk {
  func : option FUNC; receiver_stream : Inner; handle : option H; sender : option (ChannelSender K X) }.

(** [open] opens a channel. *)
Definition new (open : option Z -> K * R) (func : FUNC) (buffer_size : option Z) : AsyncProducerStream :=
  let '(sender, receiver) := channel_pair open None buffer_size in
  mk (Some func) (ChannelReceiverStream.new receiver None None) None (Some sender).
Definition upstreams (self : AsyncProducerStream) : UpStreams := UpStreams_none.

Definition set_receiver (i : Inner) (self : AsyncProducerStream) : AsyncProducerStream :=
  mk (func self) i (handle self) (sender self).
Definition set_sender (s : option (ChannelSender K X)) (self : AsyncProducerStream) : AsyncProducerStream :=
  mk (func self) (receiver_stream self) (handle self) s.
Definition set_func (f : option FUNC) (self : AsyncProducerStream) : AsyncProducerStream :=
  mk f (receiver_stream self) (handle self) (sender self).
Definition set_handle (h : option H) (self : AsyncProducerStream) : AsyncProducerStream :=
  mk (func self) (receiver_stream self) h (sender self).

Definition cycle (fuel : nat) : NodeM AsyncProducerStream bool :=
  on_receiver receiver_stream set_receiver (ChannelReceiverStream.cycle fuel).

(** [x] is the graph's ready channel. *)
Definition setup (x : X) : NodeM AsyncProducerStream unit :=
  let! self := get_self in
  match sender self with
  | None => mfail (Msg "sender is already taken")
  | Some sender =>
    do! put_self (set_sender None self) in
    let! g := graph in
    let! sender := (match run_mode g with
      | HistoricalFrom _ => mreturn sender
      | RealTime => let! n := call (ready_notifier x) in mreturn (ChannelSender.set_notifier n sender)
      end) in
    let! sender := mlift (AsyncChannelSender.into_async sender) in
    let! self := get_self in
    match func self with
    | None => mfail (Msg "func is already taken")
    | Some func =>
      do! put_self (set_handle (Some (task_spawn (func, sender) (run_params g))) (set_func None self)) in
      on_receiver receiver_stream set_receiver (ChannelReceiverStream.setup x)
    end
  end.

Definition teardown : NodeM AsyncProducerStream unit :=
  let! self := get_self in
  match handle self with
  | None => mreturn tt
  | Some handle =>
    do! put_self (set_handle None self) in
    let result := block_on (abort handle) in
    do! on_receiver receiver_stream set_receiver ChannelReceiverStream.teardown in
    match result with
    | TaskOk => mreturn tt
    | TaskErr e => mfail e
    | TaskGone true _ => mreturn tt
    | TaskGone false e => mfail (Msg ("producer task panicked: " +:+ e))
    end
  end.

Definition peek_ref (self : AsyncProducerStream) : list T := ChannelReceiverStream.value (receiver_stream self).
End node.
Arguments AsyncProducerStream : clear implicits.
End AsyncProducerStream.

(** ** The consumer *)

Module AsyncConsumerNode.
Section node.
Context {K R X T FUNC H : Type}.
Context `{KanalSender K T, ReadyChannel X, Tasks (FUNC * ChannelReceiver R) H}.
Record AsyncConsumerNode := mk {
  source : addr; sender : ChannelSender K X; func : option FUNC; handle : option H;
  rx : option (ChannelReceiver R) }.
Definition new (source : addr) (open : option Z -> K * R) (func : FUNC) : AsyncConsumerNode :=
  let '(sender, receiver) := channel_pair open None None in
  mk source sender (Some func) None (Some receiver).
Definition upstreams (self : AsyncConsumerNode) : UpStreams := mkUpStreams [source self] [].

Definition set_sender (s : ChannelSender K X) (self : AsyncConsumerNode) : AsyncConsumerNode :=
  mk (source self) s (func self) (handle self) (rx self).
Definition set_handle (h : option H) (self : AsyncConsumerNode) : AsyncConsumerNode :=
  mk (source self) (sender self) (func self) h (rx self).

(** Whether the task is over already. *)
Definition look (self : AsyncConsumerNode) : bool * option H :=
  match handle self with
  | None => (false, None)
  | Some h => let '(over, h) := task_finished h in (over, Some h)
  end.

(** [value] is the source's. *)
Definition cycle (value : T) : NodeM AsyncConsumerNode bool :=
  let! self := get_self in
  let '(over, h) := look self in
  match over, h with
  | true, Some h =>
    do! put_self (set_handle None self) in
    match block_on h with
    | TaskOk => mfail (Msg "consumer task exited early without error")
    | TaskErr e => mfail (Context "consumer task failed" e)
    | TaskGone _ e => mfail (Msg ("consumer task panicked or was cancelled: " +:+ e))
    end
  | _, _ =>
    let! g := graph in
    let '(r, s) := ChannelSender.send g value (sender self) in
    do! put_self (set_sender s (set_handle h self)) in
    do! mlift (send_result r) in
    mreturn true
  end.

Definition setup : NodeM AsyncConsumerNode unit :=
  let! self := get_self in
  match rx self with
  | None => mfail (Msg "rx is already taken")
  | Some r =>
    do! put_self (mk (source self) (sender self) (func self) (handle self) None) in
    match func self with
    | None => mfail (Msg "func is already taken")
    | Some f =>
      let! g := graph in
      put_self (mk (source self) (sender self) None (Some (task_spawn (f, r) (run_params g))) None)
    end
  end.

Definition stop : NodeM AsyncConsumerNode unit :=
  let! self := get_self in
  let '(r, s) := ChannelSender.close (T := T) (sender self) in
  do! put_self (set_sender s self) in
  mlift (send_result r).

Definition teardown : NodeM AsyncConsumerNode unit :=
  let! self := get_self in
  match handle self with
  | None => mreturn tt
  | Some h =>
    do! put_self (set_handle None self) in
    match block_on h with
    | TaskOk => mreturn tt
    | TaskErr e => mfail e
    | TaskGone _ e => mfail (Msg e)
    end
  end.
End node.
Arguments AsyncConsumerNode : clear implicits.
End AsyncConsumerNode.

(** What the consumer's closure is given: the messages up to the end of the run.
    Both stages read the clock. *)
Definition consumer_source {T} (now1 now2 : nat -> Z) (p : RunParams) (messages : list (Message T)) : list (Z * T) :=
  to_stream now2 0 (limit now1 (rp_mode p) (rp_for p) messages).
