(* ===== verification/AsyncProps.v ===== *)
(** * What async producers and consumers promise

    [async_producer_correct]: the items of an async source come out of the
    graph, grouped by time, whatever the speed of the task. [consumer_ticks]: the run of a ticker,
    and what of it the closure of [consume_async] sees. *)
From S2P Require Import Prelude NanoTime TimeQueue GraphState NodeCalls Timing Iterators Graph RunProps Objects Builders Pipelines Solo Channel ChannelNodes ChannelProps ChannelPipe GraphNodes AsyncNodes.
Local Open Scope Z_scope.

(** ** Grouping *)

Section grouping.
Context {T : Type}.
Implicit Types (items : list (Z * T)) (bs : list (Z * list T)).

Definition value_at (p : Z * T) : ValueAt T := mkValueAt p.2 p.1.

(** One message per burst. *)
Definition burst_messages bs : list (Message T) :=
  map (fun b => Message.HistoricalValue (mkValueAt b.2 b.1)) bs.

(** A pending group, and the bursts after it. *)
Definition prepend (t : Z) (vs : list T) bs : list (Z * list T) :=
  match bs with
  | (t', vs') :: rest => if t' =? t then (t, vs ++ vs') :: rest else (t, vs) :: bs
  | [] => [(t, vs)]
  end.

Lemma bursts_cons (v : ValueAt T) l : bursts (v :: l) = prepend (va_time v) [va_value v] (bursts l).
Proof.
  simpl. unfold prepend. destruct (bursts l) as [|[t vs] rest]; [done|].
  destruct (Z.eqb_spec t (va_time v)) as [->|]; done.
Qed.

Lemma prepend_app t vs w l :
  prepend t vs (prepend t [w] l) = prepend t (vs ++ [w]) l.
Proof.
  unfold prepend. destruct l as [|[t' vs'] rest]; [by rewrite Z.eqb_refl|].
  destruct (t' =? t); by rewrite Z.eqb_refl, <-?app_assoc.
Qed.

Lemma prepend_other t vs t' vs' l : t' <> t -> prepend t vs (prepend t' vs' l) = (t, vs) :: prepend t' vs' l.
Proof.
  intros Hne. apply Z.eqb_neq in Hne. unfold prepend.
  destruct l as [|[t2 vs2] rest]; [by rewrite Hne|]. by destruct (t2 =? t'); rewrite Hne.
Qed.

Lemma message_loop_pending t0 t vs items :
  message_loop (HistoricalFrom t0) (Some (mkValueAt vs t)) (map inr items) =
    burst_messages (prepend t vs (bursts (map value_at items))) ++ [Message.EndOfStream].
Proof.
  revert t vs. induction items as [|[t' v] items IH]; intros t vs; [done|].
  cbn [map message_loop]. rewrite bursts_cons. cbn [va_time va_value value_at fst snd].
  destruct (Z.eqb_spec t t') as [->|Hne].
  - by rewrite IH, prepend_app.
  - rewrite IH, prepend_other by congruence. done.
Qed.

Lemma message_loop_bursts t0 items :
  to_message_stream (HistoricalFrom t0) (map inr items) =
    burst_messages (bursts (map value_at items)) ++ [Message.EndOfStream].
Proof.
  destruct items as [|[t v] items]; [done|]. unfold to_message_stream. cbn [map message_loop].
  rewrite message_loop_pending. rewrite bursts_cons. done.
Qed.

Lemma bursts_nonempty (l : list (ValueAt T)) : Forall (fun b => b.2 <> []) (bursts l).
Proof.
  induction l as [|v l IH]; [constructor|]. rewrite bursts_cons. unfold prepend.
  destruct (bursts l) as [|[t vs] rest]; [by repeat constructor|].
  inversion IH; subst. destruct (t =? va_time v); by repeat constructor.
Qed.

Lemma burst_deliveries bs : Forall (fun b => b.2 <> []) bs -> deliveries (burst_messages bs) = bs.
Proof.
  induction 1 as [|[t vs] bs Hne _ IH]; [done|]. unfold deliveries in *. simpl in *. rewrite IH.
  unfold delivery. simpl. by destruct vs.
Qed.

(** Grouped, the items' times strictly increase. *)
Lemma bursts_in_order lo (l : list (ValueAt T)) :
  StronglySorted Z.le (map va_time l) -> Forall (fun v => lo <= va_time v /\ va_time v + 1 < u64_max) l ->
  in_order lo (burst_messages (bursts l)).
Proof.
  revert lo. induction l as [|v l IH]; intros lo Hs Hb; [done|].
  inversion Hs as [|? ? Hs1 Hs2]; inversion Hb as [|? ? [Hlo Hmax] Hb']; subst.
  assert (IHv : in_order (va_time v) (burst_messages (bursts l))).
  { apply IH; [done|]. apply Forall_forall. intros w Hw. rewrite Forall_forall in Hs2. rewrite Forall_forall in Hb'.
    split; [|by apply Hb']. apply Hs2, list_elem_of_In, in_map_iff. exists w. split; [done|by apply list_elem_of_In]. }
  rewrite bursts_cons. unfold prepend. destruct (bursts l) as [|[t vs] rest]; [done|].
  simpl in IHv. destruct IHv as (Ht & Htmax & Hrest). destruct (Z.eqb_spec t (va_time v)) as [->|Hne]; simpl.
  - by split_and!.
  - split_and!; [done|done|lia|done|done].
Qed.
End grouping.

(** ** The task *)

Section task.
Context {K X T : Type} `{Outbound K T, ReadyChannel X}.

Lemma limit_forever now reads time0 time cycle (msgs : list (Message T)) rest :
  Forall (fun m => m <> Message.EndOfStream) msgs ->
  limit_loop now reads Forever time0 time cycle (msgs ++ Message.EndOfStream :: rest) = msgs ++ [Message.EndOfStream].
Proof.
  intros Hm. revert reads time cycle. induction Hm as [|m msgs Hm _ IH]; intros reads time cycle; [done|].
  simpl. destruct m; try done; simpl; f_equal; apply IH.
Qed.

Lemma async_send_ok (m : Message T) (k : K) : receiver_stays (K := K) (T := T) ->
  exists k', AsyncChannelSender.send_message m (AsyncChannelSender.mk (X := X) (Some k) None) =
      (SendOk, AsyncChannelSender.mk (Some k') None) /\ outbox k' = outbox k ++ [m].
Proof.
  intros Hst. unfold AsyncChannelSender.send_message. simpl. specialize (Hst m k).
  destruct (kanal_send m k) as [ok k'] eqn:E. simpl in Hst. subst ok. exists k'. split; [done|].
  by rewrite (kanal_send_spec _ _ _ _ E).
Qed.

Lemma send_all_ok (msgs : list (Message T)) (k : K) : receiver_stays (K := K) (T := T) ->
  exists k', send_all msgs (AsyncChannelSender.mk (X := X) (Some k) None) = AsyncChannelSender.mk (Some k') None /\
    outbox k' = outbox k ++ msgs.
Proof.
  intros Hst. revert k. induction msgs as [|m msgs IH]; intros k; [exists k; by rewrite app_nil_r|].
  destruct (async_send_ok m k Hst) as (k1 & Hs & Hk1). destruct (IH k1) as (k' & Ha & Hk').
  exists k'. simpl. rewrite Hs, Ha. split; [done|]. by rewrite Hk', Hk1, <-app_assoc.
Qed.
End task.

(** ** The node *)

Section producer.
Context {K R X NC T FUNC H : Type}.
Context `{Inbound R T, NotifierChannel NC X, Tasks (FUNC * AsyncChannelSender K X) H}.
Abbreviation Node := (AsyncProducerStream.AsyncProducerStream K R X NC T FUNC H).
Import AsyncProducerStream.

Definition run_async_producer (fuel : nat) (t0 : Z) (open : option Z -> K * R) (x : X) (func : FUNC)
    (buffer_size : option Z) : Res unit * Sys (Node * list (Z * list T)) :=
  run_solo peek_ref (cycle (S (S fuel))) (setup x) default_hook default_hook teardown t0 (5 + fuel)
    (new open func buffer_size).

(** The task ends quietly: with [Ok], or cancelled. *)
Definition quiet_end (h : H) : Prop := block_on h = TaskOk \/ exists why, block_on h = TaskGone true why.

Definition forever_params (t0 : Z) : RunParams := mkRunParams (HistoricalFrom t0) Forever t0.

Lemma async_run fuel t0 tl open x func size k r (msgs : list (Message T)) :
  open size = (k, r) -> ends tl -> inbox r = msgs ++ tl -> 0 <= t0 < u64_max -> in_order t0 msgs ->
  senders_go (R := R) (T := T) ->
  quiet_end (abort (task_spawn (func, AsyncChannelSender.new k None) (forever_params t0))) ->
  (2 * length msgs <= fuel)%nat -> Z.of_nat (2 * length msgs) + 2 < u32_max ->
  exists sys, run_async_producer fuel t0 open x func size = (Ok tt, sys) /\ (world sys).2 = deliveries msgs.
Proof.
  intros Hopen Htl Hr Ht Ho Hgo Hq Hf Hu.
  destruct (ready_runs (NC := NC) fuel t0 tl t0 (at_read r None [] false None []) _ _ Htl
    (ready_wait tl t0 r None [] msgs Hr Ht Ho)) as (n & i' & Hk & Hruns & _).
  destruct (teardown_asks t0 i' Hgo) as [i2 Htear].
  set (h := task_spawn (func, AsyncChannelSender.new k None) (forever_params t0)) in *.
  set (wrap := fun i => mk None i (Some h) None : Node).
  destruct (solo_run peek_ref (cycle (S (S fuel))) (setup x) default_hook default_hook teardown t0 (5 + fuel) n t0
    (Some t0) None (new open func size) (wrap (at_read r None [] false None []))
    (wrap (at_read r None [] false None [])) (deliveries msgs) (wrap i') (wrap i')
    (mk None i2 None None)) as (sys & Hrun & Hw);
    [|by intros g|by left| |by intros g| |lia|lia|].
  - intros g [Hm Hc Hfor Hst]. unfold setup, new, channel_pair. rewrite Hopen.
    erewrite mbind_ok by reflexivity. cbn [fst sender]. do 2 erewrite mbind_ok by reflexivity. cbn [snd].
    rewrite Hm. do 3 erewrite mbind_ok by reflexivity. cbn [fst set_sender AsyncProducerStream.func].
    erewrite mbind_ok by reflexivity. unfold run_params. cbn [snd]. rewrite Hm, Hfor, Hst.
    unfold on_receiver. cbn [fst snd receiver_stream set_handle set_func set_sender].
    by rewrite (setup_asks t0 x (ChannelReceiverStream.new (T := T) (ChannelReceiver.new r) None (None : option NC))
      eq_refl g (Build_at_hook t0 g Hm Hc Hfor Hst)).
  - apply (runs_to_embed ChannelReceiverStream.value peek_ref (ChannelReceiverStream.cycle (S (S fuel)))
      (cycle (S (S fuel))) wrap t0 n (Some t0)); [|done|exact Hruns].
    intros i g res i1 g' Hcy. unfold cycle, on_receiver, wrap. cbn [fst snd receiver_stream]. by rewrite Hcy.
  - intros g Hg. unfold teardown, wrap. erewrite mbind_ok by reflexivity. cbn [fst handle].
    erewrite mbind_ok by reflexivity.
    erewrite mbind_ok by (unfold on_receiver; cbn [fst snd receiver_stream set_handle]; rewrite (Htear g Hg); reflexivity).
    by destruct Hq as [->|[why ->]].
  - exists sys. split; [done|]. by rewrite Hw.
Qed.
End producer.

(** C19: the items of an async source come out of the graph at their times. The
    source yields [items], in the order of their times, and ends. The task of
    [produce_async] sends one message per time and the end of the stream; the
    graph run over the other end of the channel ends without an error and emits,
    for every time, one burst of the items at it, in order -- none split, lost or
    late, however slow the task: whatever had arrived by each look. Both ends of
    the channel live on, the run is [RunFor::Forever], no item is earlier than its
    start, and there are fewer cycles than the engine counts. *)
Theorem async_producer_correct {K R X NC T FUNC H}
    `{Outbound K T, Inbound R T, ReadyChannel X, NotifierChannel NC X, Tasks (FUNC * AsyncChannelSender K X) H}
    fuel t0 open (func : FUNC) size k r (x : X) now (items : list (Z * T)) :
  open size = (k, r) -> receiver_stays (K := K) (T := T) -> senders_go (R := R) (T := T) ->
  quiet_end (abort (task_spawn (func, AsyncChannelSender.new k None) (forever_params t0))) ->
  0 <= t0 < u64_max -> StronglySorted Z.le (map fst items) ->
  Forall (fun p => t0 <= p.1 /\ p.1 + 1 < u64_max) items -> outbox k = [] ->
  (2 * length (bursts (map value_at items)) <= fuel)%nat ->
  Z.of_nat (2 * length (bursts (map value_at items))) + 2 < u32_max ->
  let sent := limit now (HistoricalFrom t0) Forever (to_message_stream (HistoricalFrom t0) (map inr items)) in
  exists k1 k2,
    send_all sent (AsyncChannelSender.new (X := X) k None) = AsyncChannelSender.mk (Some k1) None /\
    kanal_send Message.EndOfStream k1 = (true, k2) /\
    producer_task now (forever_params t0) (inr (map inr items)) (AsyncChannelSender.new (X := X) k None) =
      AsyncChannelSender.mk None None /\
    (inbox r = outbox k2 ->
       exists sys, run_async_producer (NC := NC) fuel t0 open x func size = (Ok tt, sys) /\
         (world sys).2 = bursts (map value_at items)).
Proof.
  intros Hopen Hst Hgo Hq Ht0 Hs Hb Hk Hf Hu sent. set (bs := bursts (map value_at items)) in *.
  assert (Hsent : sent = burst_messages bs ++ [Message.EndOfStream]).
  { unfold sent. rewrite message_loop_bursts. apply limit_forever. apply Forall_forall.
    intros m Hm. unfold burst_messages in Hm. apply list_elem_of_In, in_map_iff in Hm as (b & <- & _). done. }
  destruct (send_all_ok (X := X) sent k Hst) as (k1 & Hall & Hk1).
  destruct (kanal_send Message.EndOfStream k1) as [ok k2] eqn:E.
  pose proof (Hst Message.EndOfStream k1) as Hok. rewrite E in Hok. simpl in Hok. subst ok.
  exists k1, k2. split; [exact Hall|]. split; [done|]. split.
  - unfold producer_task. cbn [rp_mode rp_for forever_params]. fold sent.
    change (AsyncChannelSender.new k None) with (AsyncChannelSender.mk (X := X) (Some k) None).
    rewrite Hall. unfold AsyncChannelSender.close, AsyncChannelSender.send_message. simpl. by rewrite E.
  - intros Hr. rewrite (kanal_send_spec _ _ _ _ E), Hk1, Hk, Hsent in Hr. cbn [app] in Hr. rewrite <-app_assoc in Hr. cbn [app] in Hr.
    destruct (async_run (NC := NC) fuel t0 [Message.EndOfStream; Message.EndOfStream] open x func size k r
      (burst_messages bs)) as (sys & Hrun & Hw); try done;
      try (by right); try (by unfold burst_messages; rewrite length_map).
    + apply bursts_in_order; [by rewrite map_map|]. by apply Forall_map.
    + exists sys. split; [done|]. rewrite Hw. apply burst_deliveries, bursts_nonempty.
Qed.

(** ** Witness *)

(** A task that returns [Ok]. *)
#[export] Instance params_tasks {P} : Tasks P RunParams := {|
  task_spawn _ p := p;
  task_finished h := (false, h);
  block_on _ := TaskOk;
  abort h := h |}.

Definition async_items : list (Z * Z) := [(10, 1); (10, 2); (25, 3)].

Lemma async_producer_correct_witness :
  let sent := [Message.HistoricalValue (mkValueAt [1; 2] 10); Message.HistoricalValue (mkValueAt [3] 25);
               Message.EndOfStream; Message.EndOfStream] in
  exists sys, run_async_producer (NC := unit) (FUNC := unit) (H := RunParams) 4 0
      (fun _ => ([] : list (Message Z), mkArrivals sent [false])) ([] : list nat) tt None = (Ok tt, sys) /\
    (world sys).2 = [(10, [1; 2]); (25, [3])].
Proof.
  intros sent.
  destruct (async_producer_correct (K := list (Message Z)) (R := Arrivals Z) (X := list nat) (NC := unit)
    (FUNC := unit) (H := RunParams) 4 0 (fun _ => ([], mkArrivals sent [false])) tt None []
    (mkArrivals sent [false]) [] (fun _ => 0) async_items) as (k1 & k2 & Hs & Hk & _ & Hrun).
  - reflexivity.
  - intros m k. reflexivity.
  - intros r. reflexivity.
  - by left.
  - unfold u64_max. lia.
  - repeat constructor; simpl; lia.
  - repeat constructor; simpl; unfold u64_max; lia.
  - reflexivity.
  - simpl. lia.
  - reflexivity.
  - apply Hrun. vm_compute in Hs. injection Hs as <-. vm_compute in Hk. injection Hk as <-. reflexivity.
Defined.

(** ** One cycle of the consumer's node *)

Section consumer.
Context {K R X T FUNC H : Type}.
Context `{Outbound K T, ReadyChannel X, Tasks (FUNC * ChannelReceiver R) H}.
Import AsyncConsumerNode.

(** While the task runs, a historical cycle sends the value with its time; once
    it is over, the cycle fails, also when the task returned [Ok]. *)
Lemma consumer_cycle t0 g source k f (h h' : H) over rx (v : T) :
  run_mode g = HistoricalFrom t0 -> receiver_stays (K := K) (T := T) -> task_finished h = (over, h') ->
  let self := mk source (ChannelSender.mk (X := X) (Some k) None) f (Some h) rx in
  if over : bool then
    block_on h' = TaskOk -> (cycle v (self, g)).1 = Err (Msg "consumer task exited early without error")
  else
    exists k', cycle v (self, g) =
      (Ok true, (mk source (ChannelSender.mk (Some k') None) f (Some h') rx, g)) /\
      outbox k' = outbox k ++ [Message.HistoricalValue (mkValueAt [v] (time g))].
Proof.
  intros Hm Hst Hf self. unfold cycle. erewrite mbind_ok by reflexivity. cbn [fst]. unfold look, self.
  cbn [handle]. rewrite Hf. destruct over.
  - intros Hb. erewrite mbind_ok by reflexivity. by rewrite Hb.
  - destruct (send_message_ok (X := X) (Message.HistoricalValue (mkValueAt [v] (time g))) k Hst) as (k' & Hs & Hk').
    exists k'. split; [|done]. erewrite mbind_ok by reflexivity. cbn [snd sender]. unfold ChannelSender.send.
    rewrite Hm, Hs. reflexivity.
Qed.
End consumer.

(** ** The messages of a ticker's run *)

(** What the node sends for the ticks [(value, time)], and at the end. *)
Definition tick_messages (l : list (Z * Z)) : list (Message Z) :=
  map (fun p => Message.HistoricalValue (mkValueAt [p.1] p.2)) l ++ [Message.EndOfStream].

Definition swap (p : Z * Z) : Z * Z := (p.2, p.1).

Section limits.
Context (t0 p D : Z) (d : Duration).
Context (Hp : 0 < p) (Ht0 : 0 <= t0) (HD : NanoTime.from_duration d = D) (HD0 : 0 <= D).

Definition tick (k : nat) : Z * Z := (Z.of_nat k + 1, t0 + Z.of_nat k * p).

(** The first tick more than [D] after the start. *)
Definition last_seen : nat := Z.to_nat (D / p + 1).

Lemma past_duration cyc k : t0 + Z.of_nat k * p <= u64_max ->
  RunFor_done (ForDuration d) cyc (NanoTime.sub (tick k).2 t0) = (last_seen <=? k)%nat.
Proof.
  intros Hk. unfold RunFor_done, tick, NanoTime.sub, last_seen. simpl. rewrite HD.
  rewrite wrap_u64_small by (unfold is_u64; nia).
  apply eq_true_iff_eq. rewrite Z.ltb_lt, Nat.leb_le.
  pose proof (Z.mul_succ_div_gt D p Hp). pose proof (Z.mul_div_le D p Hp).
  assert (0 <= D / p) by by apply Z.div_pos. split; intros; nia.
Qed.

Lemma limit_ticks now1 now2 reads reads2 time cyc j n :
  t0 + Z.of_nat (j + n) * p <= u64_max -> (j <= last_seen)%nat ->
  to_stream now2 reads2 (limit_loop now1 reads (ForDuration d) t0 time cyc (tick_messages (map tick (seq j n)))) =
  map (fun k => swap (tick k)) (seq j (Nat.min n (S last_seen - j))).
Proof.
  revert j time cyc. induction n as [|n IH]; intros j time cyc Hmax Hj; [simpl; by destruct (_ || _)|].
  unfold tick_messages in *. cbn [seq map app limit_loop va_time].
  rewrite past_duration by (simpl in Hmax; nia). rewrite orb_false_r.
  destruct (Nat.leb_spec last_seen j) as [Hle|Hlt].
  - assert (j = last_seen) as -> by lia. replace (Nat.min (S n) (S last_seen - last_seen)) with 1%nat by lia. done.
  - replace (Nat.min (S n) (S last_seen - j)) with (S (Nat.min n (S last_seen - S j))) by lia.
    cbn [to_stream va_value va_time seq map app]. f_equal. apply IH; [|lia].
    replace (S j + n)%nat with (j + S n)%nat by lia. done.
Qed.
End limits.

(** An async consumer may be given less than the run. A ticker of period [p]
    and a duration [d]: the historical run has [ceil(d / p) + 2] ticks, the last
    at the first multiple of the period not below [d], and one more. The closure
    of [consume_async], fed every tick and the end of the stream, is given the
    first [floor(d / p) + 2]: the same when [p] divides [d], and otherwise all but
    the last. *)
Theorem consumer_ticks f t0 period d N now1 now2 :
  let p := nanos period in let D := as_nanos d in
  0 < p -> 0 <= t0 -> 0 < D -> NanoTime.from_duration d = D -> N = Z.to_nat ((D + p - 1) / p + 2) ->
  t0 + Z.of_nat N * p <= u64_max -> Z.of_nat N < u32_max -> (N < 50 + f)%nat ->
  run_and_peek (50 + f) (counter period) (HistoricalFrom t0) (ForDuration d) = Ok (pairs_at (ticks t0 p N)) /\
  consumer_source now1 now2 (mkRunParams (HistoricalFrom t0) (ForDuration d) t0) (tick_messages (ticks t0 p N)) =
    map swap (take (if D mod p =? 0 then N else (N - 1)%nat) (ticks t0 p N)).
Proof.
  intros p D Hp Ht0 HD Hd HN Hmax Hu Hf. split.
  { apply counter_correct; try done. simpl. by rewrite HN. }
  assert (Hq : 0 <= D / p) by (apply Z.div_pos; lia).
  assert (Hc : (D + p - 1) / p = if D mod p =? 0 then D / p else D / p + 1).
  { pose proof (Z.div_mod D p ltac:(lia)) as Hdm. pose proof (Z.mod_pos_bound D p Hp) as Hmp.
    destruct (Z.eqb_spec (D mod p) 0) as [He|Hne]; symmetry.
    - apply (Z.div_unique _ _ _ (p - 1)); lia.
    - apply (Z.div_unique _ _ _ (D mod p - 1)); lia. }
  unfold consumer_source, limit. cbn [rp_mode rp_for].
  change (ticks t0 p N) with (map (tick t0 p) (seq 0 N)).
  rewrite (limit_ticks t0 p D d Hp Ht0 Hd ltac:(lia)) by (simpl; unfold last_seen; lia).
  rewrite firstn_map, map_map. f_equal.
  assert (Hl : (S (last_seen p D) - 0)%nat = if D mod p =? 0 then N else (N - 1)%nat).
  { unfold last_seen. destruct (D mod p =? 0); lia. }
  rewrite Hl. set (n := if D mod p =? 0 then N else (N - 1)%nat).
  rewrite Nat.min_r by (unfold n; destruct (D mod p =? 0); lia).
  replace N with (n + (N - n))%nat at 1 by (unfold n; destruct (D mod p =? 0); lia).
  rewrite seq_app. rewrite firstn_app, length_seq, Nat.sub_diag, firstn_O, app_nil_r. 
  by rewrite firstn_all2 by (rewrite length_seq; lia).
Qed.

Lemma consumer_ticks_witness :
  run_and_peek 50 (counter (ns 7)) (HistoricalFrom 0) (ForDuration (ns 5)) =
    Ok (pairs_at [(1, 0); (2, 7); (3, 14)]) /\
  consumer_source (fun _ => 0) (fun _ => 0) (mkRunParams (HistoricalFrom 0) (ForDuration (ns 5)) 0)
    (tick_messages [(1, 0); (2, 7); (3, 14)]) = [(0, 1); (7, 2)].
Proof.
  refine (consumer_ticks 0 0 (ns 7) (ns 5) 3 (fun _ => 0) (fun _ => 0) _ _ _ _ _ _ _ _).
  - reflexivity.
  - lia.
  - reflexivity.
  - reflexivity.
  - reflexivity.
  - vm_compute. discriminate.
  - reflexivity.
  - lia.
Defined.
