(* ===== verification/Float.v ===== *)
(** * Floating-point numbers

    The statistics operators compute with [f64]. Their definitions are written
    against the class [Num] of what they use of it, which has two instances:
    [f64] itself, by the Standard Library's executable specification of IEEE 754
    arithmetic at binary64, and the real numbers, the arithmetic in which the
    operators' algorithms are exact. Comparison is Rust's [PartialOrd]:
    [None] when an operand is not a number. *)
From S2P Require Import Prelude NanoTime.
From Stdlib Require Import Floats.SpecFloat Reals Lra.

(** ** What the operators use of [f64] *)

Class Num (F : Type) := {
  of_Z : Z -> F;                        (* [n as f64], and literals *)
  nan : F; infinity : F; neg_infinity : F;
  fadd : F -> F -> F; fsub : F -> F -> F; fmul : F -> F -> F; fdiv : F -> F -> F;
  sqrt : F -> F;
  partial_cmp : F -> F -> option comparison }.

(** [exp] is the platform's, so it is an interface of its own. *)
Class Exp (F : Type) := { exp : F -> F; LN_2 : F }.

Declare Scope num_scope.
Delimit Scope num_scope with num.
Notation "x + y" := (fadd x y) : num_scope.
Notation "x - y" := (fsub x y) : num_scope.
Notation "x * y" := (fmul x y) : num_scope.
Notation "x / y" := (fdiv x y) : num_scope.

Section num.
Context {F : Type} `{Num F}.
Definition zero : F := of_Z 0.
Definition one : F := of_Z 1.

(** [<], [<=] and [==]. *)
Definition flt (x y : F) : bool := match partial_cmp x y with Some Lt => true | _ => false end.
Definition fle (x y : F) : bool := match partial_cmp x y with Some (Lt | Eq) => true | _ => false end.
Definition feq (x y : F) : bool := match partial_cmp x y with Some Eq => true | _ => false end.
Definition is_nan (x : F) : bool := negb (feq x x).

(** [f64::min], [f64::max]: the other operand when one is not a number. Which
    of two zeros is returned is not specified. *)
Definition fmin (x y : F) : F :=
  if is_nan x then y else if is_nan y then x else if flt y x then y else x.
Definition fmax (x y : F) : F :=
  if is_nan x then y else if is_nan y then x else if flt x y then y else x.

(** [Iterator::sum] (the sign of a zero sum apart). *)
Definition fsum (l : list F) : F := foldl fadd zero l.
End num.

(** Comparison is a total preorder on the numbers, the infinities at its ends. *)
Class NumOrder (F : Type) `{Num F} := {
  num_total x y : is_nan x = false -> is_nan y = false -> fle x y = true \/ fle y x = true;
  num_lt x y : is_nan x = false -> is_nan y = false -> flt x y = negb (fle y x);
  num_trans x y z : fle x y = true -> fle y z = true -> fle x z = true;
  num_infinite : is_nan (F:=F) infinity = false /\ is_nan (F:=F) neg_infinity = false;
  num_infinity x : is_nan x = false -> fle x infinity = true /\ (fle infinity x = true -> x = infinity);
  num_neg_infinity x : is_nan x = false ->
    fle neg_infinity x = true /\ (fle x neg_infinity = true -> x = neg_infinity) }.

(** ** [f64] *)

Definition f64 : Type := spec_float.

#[export] Instance f64_num : Num f64 := {
  of_Z n := binary_normalize 53 1024 n 0 false;
  nan := S754_nan; infinity := S754_infinity false; neg_infinity := S754_infinity true;
  fadd := SFadd 53 1024; fsub := SFsub 53 1024; fmul := SFmul 53 1024; fdiv := SFdiv 53 1024;
  sqrt := SFsqrt 53 1024;
  partial_cmp := SFcompare }.

(** A float that is a number, as a triple ordered lexicographically. *)
Definition key (x : f64) : Z * Z * Z :=
  match x with
  | S754_infinity s => (if s then -2 else 2, 0, 0)%Z
  | S754_finite true m e => (-1, - e, - Z.pos m)%Z
  | S754_finite false m e => (1, e, Z.pos m)%Z
  | _ => (0, 0, 0)%Z
  end.

Definition key_cmp (a b : Z * Z * Z) : comparison :=
  match (a.1.1 ?= b.1.1)%Z with
  | Eq => match (a.1.2 ?= b.1.2)%Z with Eq => (a.2 ?= b.2)%Z | c => c end
  | c => c
  end.

Lemma key_cmp_spec x y :
  SFcompare x y = match x, y with S754_nan, _ | _, S754_nan => None | _, _ => Some (key_cmp (key x) (key y)) end.
Proof.
  destruct x as [[]|[]| |[] m e], y as [[]|[]| |[] m' e']; try done; unfold key_cmp; simpl.
  rewrite Z.compare_opp, (Z.compare_antisym e e').
  by destruct (e ?= e')%Z.
Qed.

Lemma key_cmp_le a b :
  match key_cmp a b with Lt | Eq => true | Gt => false end = true <->
  (a.1.1 < b.1.1 \/ a.1.1 = b.1.1 /\ (a.1.2 < b.1.2 \/ a.1.2 = b.1.2 /\ a.2 <= b.2))%Z.
Proof.
  unfold key_cmp. destruct (Z.compare_spec a.1.1 b.1.1), (Z.compare_spec a.1.2 b.1.2),
    (Z.compare_spec a.2 b.2); simpl; split; intros; done || lia.
Qed.

Lemma key_cmp_lt a b :
  match key_cmp a b with Lt => true | Eq | Gt => false end =
  negb match key_cmp b a with Lt | Eq => true | Gt => false end.
Proof.
  unfold key_cmp. rewrite (Z.compare_antisym b.1.1), (Z.compare_antisym b.1.2), (Z.compare_antisym b.2).
  by destruct (b.1.1 ?= a.1.1)%Z, (b.1.2 ?= a.1.2)%Z, (b.2 ?= a.2)%Z.
Qed.

Lemma f64_nan x : is_nan (F:=f64) x = false -> x <> S754_nan.
Proof. by destruct x. Qed.

Lemma f64_le x y :
  x <> S754_nan -> y <> S754_nan -> fle (F:=f64) x y = true <->
  let a := key x in let b := key y in
  (a.1.1 < b.1.1 \/ a.1.1 = b.1.1 /\ (a.1.2 < b.1.2 \/ a.1.2 = b.1.2 /\ a.2 <= b.2))%Z.
Proof.
  intros Hx Hy. cbv zeta. rewrite <-key_cmp_le. unfold fle. simpl. rewrite key_cmp_spec.
  destruct x, y; try done; by destruct (key_cmp _ _).
Qed.

Lemma f64_le_num x y : fle (F:=f64) x y = true -> x <> S754_nan /\ y <> S754_nan.
Proof. by destruct x, y. Qed.

#[export] Instance f64_order : NumOrder f64.
Proof.
  split.
  - intros x y Hx%f64_nan Hy%f64_nan. rewrite !f64_le by done. cbv zeta. lia.
  - intros x y Hx%f64_nan Hy%f64_nan. unfold flt, fle. simpl. rewrite !key_cmp_spec.
    pose proof (key_cmp_lt (key x) (key y)) as Hk.
    destruct x, y; try done; by destruct (key_cmp _ _), (key_cmp _ _).
  - intros x y z Hxy Hyz. destruct (f64_le_num _ _ Hxy), (f64_le_num _ _ Hyz).
    rewrite f64_le in Hxy, Hyz |- * by done. cbv zeta in *. lia.
  - done.
  - intros x Hx%f64_nan. by destruct x as [[]|[]| |[]].
  - intros x Hx%f64_nan. by destruct x as [[]|[]| |[]].
Qed.

(** ** The real numbers

    Exact arithmetic. There is no not-a-number and no infinity: zero stands in
    their fields, which no statement about the reals depends on. *)
Definition R_cmp (x y : R) : comparison :=
  match total_order_T x y with
  | inleft (left _) => Lt
  | inleft (right _) => Eq
  | inright _ => Gt
  end.

#[export] Instance R_num : Num R := {
  of_Z := IZR; nan := 0%R; infinity := 0%R; neg_infinity := 0%R;
  fadd := Rplus; fsub := Rminus; fmul := Rmult; fdiv := Rdiv; sqrt := R_sqrt.sqrt;
  partial_cmp x y := Some (R_cmp x y) }.

#[export] Instance R_exp : Exp R := { exp := Rtrigo_def.exp; LN_2 := ln 2 }.

Local Open Scope R_scope.

Lemma R_cmp_spec (x y : R) : CompareSpec (x = y) (x < y) (y < x) (R_cmp x y).
Proof. unfold R_cmp. destruct (total_order_T x y) as [[?|?]|?]; by constructor. Qed.

Lemma R_flt (x y : R) : flt x y = true <-> x < y.
Proof. unfold flt. simpl. destruct (R_cmp_spec x y); split; intros; done || lra. Qed.
Lemma R_fle (x y : R) : fle x y = true <-> x <= y.
Proof. unfold fle. simpl. destruct (R_cmp_spec x y); split; intros; done || lra. Qed.
Lemma R_feq (x y : R) : feq x y = true <-> x = y.
Proof. unfold feq. simpl. destruct (R_cmp_spec x y); split; intros; done || lra. Qed.
Lemma R_flt_false (x y : R) : flt x y = false <-> y <= x.
Proof. rewrite <-not_true_iff_false, R_flt. lra. Qed.
Lemma R_fle_false (x y : R) : fle x y = false <-> y < x.
Proof. rewrite <-not_true_iff_false, R_fle. lra. Qed.

(** Case analysis on a comparison of reals. *)
Ltac Rcases :=
  repeat match goal with
    | |- context [flt ?x ?y] => let E := fresh "Hlt" in
      destruct (flt x y) eqn:E; [apply R_flt in E|apply R_flt_false in E]
    | |- context [fle ?x ?y] => let E := fresh "Hle" in
      destruct (fle x y) eqn:E; [apply R_fle in E|apply R_fle_false in E]
    end.

Lemma R_not_nan (x : R) : is_nan x = false.
Proof. unfold is_nan. by rewrite (proj2 (R_feq x x)). Qed.

(** The sum of a list of reals. *)
Definition Rsum (l : list R) : R := foldr Rplus 0 l.

Lemma Rsum_app l k : Rsum (l ++ k) = Rsum l + Rsum k.
Proof. induction l as [|x l IH]; simpl; [lra|]. rewrite IH. lra. Qed.

Lemma fsum_R (l : list R) : fsum l = Rsum l.
Proof.
  unfold fsum, zero. simpl. cut (forall a, foldl Rplus a l = a + Rsum l); [intros ->; lra|].
  induction l as [|x l IH]; intros a; simpl; [lra|]. rewrite IH. lra.
Qed.
