(* ===== verification/Statistics.v ===== *)
(** * Statistics operators: [wingfoil/src/adapters/statistics.rs]

    One module per node type. The numbers are any [F] with the operations of
    [Num]: [f64] for the program. A [VecDeque] is a list, front first; a value is
    converted by the class [ToPrimitive]. [StatStream] is a [dyn Stream<f64>]
    made by one of the operators, which choose the node by the window. *)
From S2P Require Import Prelude NanoTime TimeQueue GraphState NodeCalls Float.

Local Open Scope num_scope.

(** [num_traits::ToPrimitive]. *)
Class ToPrimitive (T F : Type) := to_f64 : T -> option F.
#[export] Instance Z_to_primitive {F} `{Num F} : ToPrimitive Z F := fun n => Some (of_Z n).
#[export] Instance f64_to_primitive {F} : ToPrimitive F F | 10 := Some.

Module Weighting.
Inductive Weighting := Count | Time.
End Weighting.
Abbreviation Weighting := Weighting.Weighting.

Module Window.
Inductive Window := Count (n : nat) | Time (d : Duration) | Unbounded.
End Window.
Abbreviation Window := Window.Window.

Section numbers.
Context {F : Type} `{Num F}.

(** [self.upstream.peek_value().to_f64().unwrap_or(f64::NAN)]. *)
Definition sample {T} `{ToPrimitive T F} (up : T) : F := default nan (to_f64 up).

(** A window of zero samples is clamped to one. *)
Definition clamp_window (window : Window) : Window :=
  match window with
  | Window.Count n => Window.Count (Nat.max n 1)
  | Window.Time _ | Window.Unbounded => window
  end.

(** Whether the front of a buffer has left the window. *)
Definition should_evict (window : Window) (now : Z) (buffer : list (F * Z)) : bool :=
  match window with
  | Window.Count n => (n <? length buffer)%nat
  | Window.Time duration =>
    match buffer with
    | (_, t) :: _ => (wrap_u64 (as_nanos duration) <? wrap_u64 (now - t))%Z
    | [] => false
    end
  | Window.Unbounded => false
  end.
End numbers.

(** ** Weighted moments *)

Inductive Moment := Mean | Var | Std.

Module WeightedMoments.
Section moments.
Context {F : Type} `{Num F}.
Record WeightedMoments := mk { w_sum : F; count : Z; mean : F; m2 : F }.
Definition default : WeightedMoments := mk zero 0 zero zero.

Definition push (x weight : F) (self : WeightedMoments) : WeightedMoments :=
  if fle weight zero then self
  else
    let w_sum := w_sum self + weight in
    let mean_old := mean self in
    let mean := mean_old + (weight / w_sum) * (x - mean_old) in
    mk w_sum (wrap_u64 (count self + 1)) mean (m2 self + weight * (x - mean_old) * (x - mean)).

Definition remove (x weight : F) (self : WeightedMoments) : WeightedMoments :=
  if fle weight zero then self
  else
    let w_new := w_sum self - weight in
    if (count self <=? 1)%Z || fle w_new zero then default
    else
      let mean_old := (w_sum self * mean self - weight * x) / w_new in
      let m2 := m2 self - weight * (x - mean_old) * (x - mean self) in
      mk w_new (wrap_u64 (count self - 1)) mean_old (if flt m2 zero then zero else m2).

Definition is_empty (self : WeightedMoments) : bool := fle (w_sum self) zero.

Definition variance (weighting : Weighting) (self : WeightedMoments) : F :=
  match weighting with
  | Weighting.Count =>
    if (count self <? 2)%Z then zero else m2 self / (of_Z (count self) - one)
  | Weighting.Time => if fle (w_sum self) zero then zero else m2 self / w_sum self
  end.

(** [output] of both nodes. *)
Definition output (moment : Moment) (weighting : Weighting) (current : F) (self : WeightedMoments) : F :=
  match moment with
  | Mean => if is_empty self then current else mean self
  | Var => variance weighting self
  | Std => sqrt (fmax (variance weighting self) zero)
  end.
End moments.
Arguments WeightedMoments : clear implicits.
End WeightedMoments.
Abbreviation WeightedMoments := WeightedMoments.WeightedMoments.

Module MomentStream.
Section node.
Context {F T : Type} `{Num F, ToPrimitive T F}.
Record MomentStream := mk {
  upstream : addr; moment : Moment; weighting : Weighting; moments : WeightedMoments F;
  last_time : option Z; prev_value : F; value : F }.
Definition new (up : addr) (moment : Moment) (weighting : Weighting) : MomentStream :=
  mk up moment weighting WeightedMoments.default None nan nan.
Definition upstreams (self : MomentStream) : UpStreams := mkUpStreams [upstream self] [].

Definition output (current : F) (self : MomentStream) : F :=
  WeightedMoments.output (moment self) (weighting self) current (moments self).

Definition cycle (up : T) : NodeM MomentStream bool :=
  let! self := get_self in
  let! g := graph in
  let sample := sample up in
  let self :=
    match weighting self with
    | Weighting.Count =>
      mk (upstream self) (moment self) (weighting self) (WeightedMoments.push sample one (moments self))
        (last_time self) (prev_value self) (value self)
    | Weighting.Time =>
      let now := time g in
      let moments :=
        match last_time self with
        | Some prev_t =>
          WeightedMoments.push (prev_value self) (of_Z (NanoTime.sub now prev_t)) (moments self)
        | None => moments self
        end in
      mk (upstream self) (moment self) (weighting self) moments (Some now) sample (value self)
    end in
  do! put_self (mk (upstream self) (moment self) (weighting self) (moments self)
                  (last_time self) (prev_value self) (output sample self)) in
  mreturn true.
End node.
Arguments MomentStream : clear implicits.
End MomentStream.

Module RollingMomentStream.
Section node.
Context {F T : Type} `{Num F, ToPrimitive T F}.
Record RollingMomentStream := mk {
  upstream : addr; moment : Moment; weighting : Weighting; window : Window;
  buffer : list (F * Z); moments : WeightedMoments F; value : F }.
Definition new (up : addr) (moment : Moment) (weighting : Weighting) (window : Window)
  : RollingMomentStream :=
  mk up moment weighting (clamp_window window) [] WeightedMoments.default nan.
Definition upstreams (self : RollingMomentStream) : UpStreams := mkUpStreams [upstream self] [].

(** The contribution a new sample creates. *)
Definition commit (weighting : Weighting) (sample : F) (now : Z) (buffer : list (F * Z))
    (moments : WeightedMoments F) : WeightedMoments F :=
  match weighting with
  | Weighting.Count => WeightedMoments.push sample one moments
  | Weighting.Time =>
    match last buffer with
    | Some (prev_v, prev_t) => WeightedMoments.push prev_v (of_Z (NanoTime.sub now prev_t)) moments
    | None => moments
    end
  end.

(** [while self.should_evict(now)]. *)
Fixpoint evict (weighting : Weighting) (window : Window) (now : Z) (buffer : list (F * Z))
    (moments : WeightedMoments F) : Res (list (F * Z) * WeightedMoments F) :=
  if should_evict window now buffer then
    match buffer with
    | [] => Panic "invariant: should_evict implies a front sample"
    | (old_v, old_t) :: rest =>
      let moments :=
        match weighting with
        | Weighting.Count => WeightedMoments.remove old_v one moments
        | Weighting.Time =>
          match rest with
          | (_, next_t) :: _ => WeightedMoments.remove old_v (of_Z (NanoTime.sub next_t old_t)) moments
          | [] => moments
          end
        end in
      evict weighting window now rest moments
    end
  else Ok (buffer, moments).

Definition cycle (up : T) : NodeM RollingMomentStream bool :=
  let! self := get_self in
  let! g := graph in
  let now := time g in
  let sample := sample up in
  let moments := commit (weighting self) sample now (buffer self) (moments self) in
  let! kept :=
    mlift (evict (weighting self) (window self) now (buffer self ++ [(sample, now)]) moments) in
  let '(buffer, moments) := kept in
  do! put_self (mk (upstream self) (moment self) (weighting self) (window self) buffer moments
                  (WeightedMoments.output (moment self) (weighting self) sample moments)) in
  mreturn true.
End node.
Arguments RollingMomentStream : clear implicits.
End RollingMomentStream.

(** ** Exponentially weighted average *)

Inductive EwmaDecay (F : Type) := PerTick (alpha : F) | HalfLife (half_life : F).
Arguments PerTick {F} alpha.
Arguments HalfLife {F} half_life.

Module EwmaStream.
Section node.
Context {F T : Type} `{Num F, Exp F, ToPrimitive T F}.
Record EwmaStream := mk {
  upstream : addr; decay : EwmaDecay F; value : F; initialised : bool; last_time : option Z }.
Definition new (up : addr) (decay : EwmaDecay F) : EwmaStream := mk up decay nan false None.
Definition upstreams (self : EwmaStream) : UpStreams := mkUpStreams [upstream self] [].

(** [alpha = 1 - 2^(-dt / half_life)]; [-x] is [0 - x], the sign of a zero apart. *)
Definition half_life_alpha (half_life : F) (now prev : Z) : F :=
  if fle half_life zero then one
  else
    let dt := of_Z (NanoTime.sub now prev) in
    one - exp ((zero - (dt / half_life)) * LN_2).

Definition cycle (up : T) : NodeM EwmaStream bool :=
  let! self := get_self in
  let! g := graph in
  let sample := sample up in
  if negb (initialised self) then
    do! put_self (mk (upstream self) (decay self) sample true (Some (time g))) in
    mreturn true
  else
    let! alpha := (match decay self with
      | PerTick alpha => mreturn alpha
      | HalfLife half_life =>
        match last_time self with
        | None => mpanic "invariant: last_time set once initialised"
        | Some prev =>
          do! put_self (mk (upstream self) (decay self) (value self) (initialised self) (Some (time g))) in
          mreturn (half_life_alpha half_life (time g) prev)
        end
      end) in
    let! self := get_self in
    do! put_self (mk (upstream self) (decay self) (value self + alpha * (sample - value self))
                    (initialised self) (last_time self)) in
    mreturn true.
End node.
Arguments EwmaStream : clear implicits.
End EwmaStream.

(** ** Sums and extremes *)

Inductive CumulativeStat := CumulativeSum | CumulativeMin | CumulativeMax.

Module CumulativeStream.
Section node.
Context {F T : Type} `{Num F, ToPrimitive T F}.
Record CumulativeStream := mk {
  upstream : addr; stat : CumulativeStat; acc : F; seeded : bool; value : F }.
Definition new (up : addr) (stat : CumulativeStat) : CumulativeStream := mk up stat zero false nan.
Definition upstreams (self : CumulativeStream) : UpStreams := mkUpStreams [upstream self] [].

Definition cycle (up : T) : NodeM CumulativeStream bool :=
  let! self := get_self in
  let sample := sample up in
  let acc :=
    if negb (seeded self) then sample
    else
      match stat self with
      | CumulativeSum => acc self + sample
      | CumulativeMin => fmin (acc self) sample
      | CumulativeMax => fmax (acc self) sample
      end in
  do! put_self (mk (upstream self) (stat self) acc true acc) in
  mreturn true.
End node.
Arguments CumulativeStream : clear implicits.
End CumulativeStream.

Module RollingSumStream.
Section node.
Context {F T : Type} `{Num F, ToPrimitive T F}.
Record RollingSumStream := mk {
  upstream : addr; window : nat; buffer : list F; sum : F; value : F }.
Definition new (up : addr) (window : nat) : RollingSumStream := mk up (Nat.max window 1) [] zero nan.
Definition upstreams (self : RollingSumStream) : UpStreams := mkUpStreams [upstream self] [].

Definition cycle (up : T) : NodeM RollingSumStream bool :=
  let! self := get_self in
  let sample := sample up in
  let buffer := buffer self ++ [sample] in
  let sum := sum self + sample in
  let! kept := (if (window self <? length buffer)%nat then
      match buffer with
      | [] => mpanic "invariant: len > window >= 1 implies non-empty"
      | oldest :: buffer => mreturn (buffer, sum - oldest)
      end
    else mreturn (buffer, sum)) in
  let '(buffer, sum) := kept in
  do! put_self (mk (upstream self) (window self) buffer sum sum) in
  mreturn true.
End node.
Arguments RollingSumStream : clear implicits.
End RollingSumStream.

Inductive Extreme := Min | Max.

Module RollingExtremeStream.
Section node.
Context {F T : Type} `{Num F, ToPrimitive T F}.
Record RollingExtremeStream := mk {
  upstream : addr; extreme : Extreme; window : Z; deque : list (Z * F); index : Z; value : F }.
Definition new (up : addr) (extreme : Extreme) (window : nat) : RollingExtremeStream :=
  mk up extreme (Z.of_nat (Nat.max window 1)) [] 0 nan.
Definition upstreams (self : RollingExtremeStream) : UpStreams := mkUpStreams [upstream self] [].

(** Whether a candidate can never be the extreme again. *)
Definition dominated (extreme : Extreme) (back sample : F) : bool :=
  match extreme with Min => fle sample back | Max => fle back sample end.

(** The loop over the back of the deque. *)
Fixpoint drop_dominated (extreme : Extreme) (sample : F) (back_first : list (Z * F)) : list (Z * F) :=
  match back_first with
  | (i, back) :: rest =>
    if dominated extreme back sample then drop_dominated extreme sample rest else (i, back) :: rest
  | [] => []
  end.

(** The loop over its front. *)
Fixpoint drop_stale (window i : Z) (deque : list (Z * F)) : list (Z * F) :=
  match deque with
  | (idx, v) :: rest =>
    if (window <=? wrap_u64 (i - idx))%Z then drop_stale window i rest else (idx, v) :: rest
  | [] => []
  end.

Definition cycle (up : T) : NodeM RollingExtremeStream bool :=
  let! self := get_self in
  let sample := sample up in
  let i := index self in
  let deque := rev (drop_dominated (extreme self) sample (rev (deque self))) ++ [(i, sample)] in
  let deque := drop_stale (window self) i deque in
  match deque with
  | [] => mpanic "invariant: deque holds the current sample"
  | (_, v) :: _ =>
    do! put_self (mk (upstream self) (extreme self) (window self) deque (wrap_u64 (i + 1)) v) in
    mreturn true
  end.
End node.
Arguments RollingExtremeStream : clear implicits.
End RollingExtremeStream.

(** ** Statistics recomputed over the window *)

Inductive WindowStat := WindowSum | WindowMin | WindowMax | WindowMedian.

Module StatWindow.
Section node.
Context {F T : Type} `{Num F, ToPrimitive T F}.
Record WindowStream := mk {
  upstream : addr; stat : WindowStat; weighting : Weighting; window : Window;
  buffer : list (F * Z); value : F }.
Definition new (up : addr) (stat : WindowStat) (weighting : Weighting) (window : Window) : WindowStream :=
  mk up stat weighting (clamp_window window) [] nan.
Definition upstreams (self : WindowStream) : UpStreams := mkUpStreams [upstream self] [].

(** The loops that evict what has left the window. *)
Fixpoint trim (window : Window) (now : Z) (buffer : list (F * Z)) : list (F * Z) :=
  match buffer with
  | [] => []
  | _ :: rest => if should_evict window now buffer then trim window now rest else buffer
  end.

(** [for_each_weight]: the values with their weights. *)
Fixpoint gaps (now : Z) (buffer : list (F * Z)) : list (F * F) :=
  match buffer with
  | [] => []
  | (v, t) :: rest =>
    let next_t := match rest with (_, next_t) :: _ => next_t | [] => now end in
    (v, of_Z (NanoTime.sub next_t t)) :: gaps now rest
  end.
Definition for_each_weight (weighting : Weighting) (now : Z) (buffer : list (F * Z)) : list (F * F) :=
  match weighting with
  | Weighting.Count => map (fun p => (p.1, one)) buffer
  | Weighting.Time => gaps now buffer
  end.

(** [sort_by]: a stable sort, specified for a comparison that is a total order
    on the values. *)
Fixpoint insert_by (x : F * F) (pairs : list (F * F)) : list (F * F) :=
  match pairs with
  | [] => [x]
  | y :: rest =>
    match default Eq (partial_cmp x.1 y.1) with
    | Gt => y :: insert_by x rest
    | Lt | Eq => x :: pairs
    end
  end.
Definition sort_by (pairs : list (F * F)) : list (F * F) := foldr insert_by [] pairs.

(** The loop that finds where the cumulative weight crosses [half]. *)
Fixpoint crossing (half cumulative : F) (pairs : list (F * F)) : option F :=
  match pairs with
  | [] => None
  | (v, w) :: rest =>
    let cumulative := cumulative + w in
    if flt half cumulative then Some v
    else if feq cumulative half then
      Some (match rest with (next, _) :: _ => (v + next) / of_Z 2 | [] => v end)
    else crossing half cumulative rest
  end.

Definition weighted_median (weighting : Weighting) (now : Z) (buffer : list (F * Z)) : Res F :=
  let pairs := List.filter (fun p => flt zero p.2) (for_each_weight weighting now buffer) in
  match pairs with
  | [] =>
    match last buffer with Some (v, _) => Ok v | None => Panic "invariant: buffer non-empty" end
  | _ :: _ =>
    let pairs := sort_by pairs in
    let half := fsum (map snd pairs) / of_Z 2 in
    match crossing half zero pairs with
    | Some v => Ok v
    | None =>
      match last pairs with Some (v, _) => Ok v | None => Panic "invariant: pairs non-empty" end
    end
  end.

Definition compute (stat : WindowStat) (weighting : Weighting) (now : Z) (buffer : list (F * Z)) : Res F :=
  match buffer with
  | [] => Ok nan
  | _ :: _ =>
    match stat with
    | WindowSum => Ok (fsum (map fst buffer))
    | WindowMin => Ok (foldl fmin infinity (map fst buffer))
    | WindowMax => Ok (foldl fmax neg_infinity (map fst buffer))
    | WindowMedian => weighted_median weighting now buffer
    end
  end.

Definition cycle (up : T) : NodeM WindowStream bool :=
  let! self := get_self in
  let! g := graph in
  let now := time g in
  let buffer := trim (window self) now (buffer self ++ [(sample up, now)]) in
  let! value := mlift (compute (stat self) (weighting self) now buffer) in
  do! put_self (mk (upstream self) (stat self) (weighting self) (window self) buffer value) in
  mreturn true.
End node.
Arguments WindowStream : clear implicits.
End StatWindow.

(** ** The operators *)

Inductive EwmaSpan (F : Type) := SpanPerTick (alpha : F) | SpanHalfLife (half_life : Duration).
Arguments SpanPerTick {F} alpha.
Arguments SpanHalfLife {F} half_life.

Module StatStream.
Section operators.
Context {F T : Type} `{Num F, Exp F, ToPrimitive T F}.

(** A [dyn Stream<f64>] that an operator returns. *)
Inductive StatStream :=
| OfMoment (s : MomentStream.MomentStream F)
| OfRollingMoment (s : RollingMomentStream.RollingMomentStream F)
| OfEwma (s : EwmaStream.EwmaStream F)
| OfCumulative (s : CumulativeStream.CumulativeStream F)
| OfRollingSum (s : RollingSumStream.RollingSumStream F)
| OfRollingExtreme (s : RollingExtremeStream.RollingExtremeStream F)
| OfWindow (s : StatWindow.WindowStream F).

(** The call a [dyn] object dispatches to. *)
Definition on {S} (wrap : S -> StatStream) (m : NodeM S bool) (s : S) : NodeM StatStream bool := fun st =>
  let '(r, (s', g)) := m (s, st.2) in (r, (wrap s', g)).

Definition cycle (up : T) : NodeM StatStream bool :=
  let! self := get_self in
  match self with
  | OfMoment s => on OfMoment (MomentStream.cycle up) s
  | OfRollingMoment s => on OfRollingMoment (RollingMomentStream.cycle up) s
  | OfEwma s => on OfEwma (EwmaStream.cycle up) s
  | OfCumulative s => on OfCumulative (CumulativeStream.cycle up) s
  | OfRollingSum s => on OfRollingSum (RollingSumStream.cycle up) s
  | OfRollingExtreme s => on OfRollingExtreme (RollingExtremeStream.cycle up) s
  | OfWindow s => on OfWindow (StatWindow.cycle up) s
  end.

Definition peek_value (self : StatStream) : F :=
  match self with
  | OfMoment s => MomentStream.value s
  | OfRollingMoment s => RollingMomentStream.value s
  | OfEwma s => EwmaStream.value s
  | OfCumulative s => CumulativeStream.value s
  | OfRollingSum s => RollingSumStream.value s
  | OfRollingExtreme s => RollingExtremeStream.value s
  | OfWindow s => StatWindow.value s
  end.

(** [self] is the stream the operator is applied to. *)
Definition moment (self : addr) (moment : Moment) (window : Window) (weighting : Weighting) : StatStream :=
  match window with
  | Window.Unbounded => OfMoment (MomentStream.new self moment weighting)
  | _ => OfRollingMoment (RollingMomentStream.new self moment weighting window)
  end.
Definition mean (self : addr) (window : Window) (weighting : Weighting) : StatStream :=
  moment self Mean window weighting.
Definition variance (self : addr) (window : Window) (weighting : Weighting) : StatStream :=
  moment self Var window weighting.
Definition std (self : addr) (window : Window) (weighting : Weighting) : StatStream :=
  moment self Std window weighting.

Definition sum (self : addr) (window : Window) : StatStream :=
  match window with
  | Window.Unbounded => OfCumulative (CumulativeStream.new self CumulativeSum)
  | Window.Count n => OfRollingSum (RollingSumStream.new self n)
  | Window.Time _ => OfWindow (StatWindow.new self WindowSum Weighting.Count window)
  end.
Definition min (self : addr) (window : Window) : StatStream :=
  match window with
  | Window.Unbounded => OfCumulative (CumulativeStream.new self CumulativeMin)
  | Window.Count n => OfRollingExtreme (RollingExtremeStream.new self Min n)
  | Window.Time _ => OfWindow (StatWindow.new self WindowMin Weighting.Count window)
  end.
Definition max (self : addr) (window : Window) : StatStream :=
  match window with
  | Window.Unbounded => OfCumulative (CumulativeStream.new self CumulativeMax)
  | Window.Count n => OfRollingExtreme (RollingExtremeStream.new self Max n)
  | Window.Time _ => OfWindow (StatWindow.new self WindowMax Weighting.Count window)
  end.
Definition median (self : addr) (window : Window) (weighting : Weighting) : StatStream :=
  OfWindow (StatWindow.new self WindowMedian weighting window).
Definition ewma (self : addr) (span : EwmaSpan F) : StatStream :=
  OfEwma (EwmaStream.new self
    (match span with
     | SpanPerTick alpha => PerTick alpha
     | SpanHalfLife half_life => HalfLife (of_Z (as_nanos half_life))
     end)).
End operators.
Arguments StatStream : clear implicits.
End StatStream.
Abbreviation StatStream := StatStream.StatStream.
