(* ===== verification/StatFacts.v ===== *)
(** * The windows of the statistics operators

    What the operators' theorems share: the calls of a run in order of time, the
    samples a window retains, and the loop that evicts the others. *)
From S2P Require Import Prelude NanoTime TimeQueue GraphState NodeCalls Float Statistics.

Lemma StronglySorted_split {A} (R : relation A) l k :
  StronglySorted R (l ++ k) ->
  (forall x y, x ∈ l -> y ∈ k -> R x y) /\ StronglySorted R l /\ StronglySorted R k.
Proof.
  induction l as [|a l IH]; simpl; intros Hs.
  - split; [intros x y Hx; by apply not_elem_of_nil in Hx|]. split; [constructor|done].
  - apply StronglySorted_inv in Hs as [Hs Ha]. destruct (IH Hs) as (H1 & H2 & H3).
    apply Forall_app in Ha as [Ha Hk]. rewrite Forall_forall in Hk. split; [|split; [by constructor|done]].
    intros x y [->|Hx]%elem_of_cons Hy; [by apply Hk|by apply H1].
Qed.

(** ** Runs in which a node emits at every call *)

Section each.
Context {S I O : Type} (cycle : I -> NodeM S bool) (peek : S -> O).

(** One emission per call, at its time, as [spec] has it of the calls so far. *)
Definition each_call (spec : list (GraphState * I) -> O -> Prop) (cs : list (GraphState * I))
    (out : list (Z * O)) : Prop :=
  length out = length cs /\
  forall k c, cs !! k = Some c -> exists v, out !! k = Some (time c.1, v) /\ spec (take (Datatypes.S k) cs) v.

(** The calls come in order of time. *)
Definition clocked (cs : list (GraphState * I)) : Prop :=
  StronglySorted Z.le ((fun c => time c.1) <$> cs) /\ Forall (fun c => is_u64 (time c.1)) cs.

Lemma clocked_take cs k : clocked cs -> clocked (take k cs).
Proof.
  intros [Hs Hu]. rewrite <-(take_drop k cs) in Hs, Hu. rewrite fmap_app in Hs.
  apply StronglySorted_split in Hs as (_ & Hs & _). by apply Forall_app in Hu as [? _].
Qed.

Lemma each_call_snoc spec cs out c v :
  each_call spec cs out -> spec (cs ++ [c]) v -> each_call spec (cs ++ [c]) (out ++ [(time c.1, v)]).
Proof.
  intros [Hl Hout] Hv. split; [rewrite !length_app; simpl; lia|]. intros k c' Hk.
  destruct (decide (k < length cs)) as [Hlt|Hge].
  - rewrite lookup_app_l in Hk by done. destruct (Hout k c' Hk) as (v' & Ho & Hs).
    exists v'. rewrite lookup_app_l by lia. split; [done|]. by rewrite take_app_le by lia.
  - assert (Hkl : k = length cs).
    { apply lookup_lt_Some in Hk. rewrite length_app in Hk. simpl in Hk. lia. }
    subst k. rewrite lookup_app_r, Nat.sub_diag in Hk by lia. simplify_eq/=.
    exists v. rewrite lookup_app_r, Hl, Nat.sub_diag by lia. split; [done|].
    by rewrite take_ge by (rewrite length_app; simpl; lia).
Qed.

(** An invariant kept by every call with a value that is [ok], each of which
    emits as [spec] has it. *)
Lemma drive_each (ok : I -> Prop) (Inv : list (GraphState * I) -> S -> Prop) spec cs s :
  clocked cs -> (Z.of_nat (length cs) <= u64_max)%Z -> Forall (fun c => ok c.2) cs -> Inv [] s ->
  (forall cs c s, clocked (cs ++ [c]) -> ok c.2 -> (Z.of_nat (length cs) < u64_max)%Z -> Inv cs s ->
     exists s' g', cycle c.2 (s, c.1) = (Ok true, (s', g')) /\ Inv (cs ++ [c]) s' /\
       spec (cs ++ [c]) (peek s')) ->
  exists out s', drive cycle peek cs s = (Ok out, s') /\ each_call spec cs out.
Proof.
  intros Hcl Hlen Hok Hs Hstep.
  destruct (drive_inv cycle peek
    (fun cs c => (clocked (cs ++ [c]) /\ ok c.2) /\ (Z.of_nat (length cs) < u64_max)%Z)
    (fun cs out s => Inv cs s /\ each_call spec cs out) cs s) as (out & s' & Hd & _ & Hout).
  - by split.
  - intros k c Hk. rewrite <-take_S_r by done. pose proof (lookup_lt_Some _ _ _ Hk).
    split; [split; [by apply clocked_take|]|rewrite length_take; lia].
    rewrite Forall_lookup in Hok. by apply (Hok k).
  - intros cs' out c s1 [[Hc Hk] Hl] [HI Ho]. destruct (Hstep cs' c s1 Hc Hk Hl HI) as (s' & g' & Hrun & HI' & Hsp).
    exists true, s', g'. split; [done|]. split; [done|]. by apply each_call_snoc.
  - by exists out, s'.
Qed.

(** The same run seen through a wrapper of the node. *)
Lemma drive_wrap {S'} (wrap : S -> S') (cycle' : I -> NodeM S' bool) (peek' : S' -> O) cs s :
  (forall up s g, cycle' up (wrap s, g) = let '(r, (s', g')) := cycle up (s, g) in (r, (wrap s', g'))) ->
  (forall s, peek' (wrap s) = peek s) ->
  drive cycle' peek' cs (wrap s) = let '(r, s') := drive cycle peek cs s in (r, wrap s').
Proof.
  intros Hc Hp. revert s. induction cs as [|c cs IH]; intros s; [done|].
  simpl. unfold mbind at 1 3. unfold emit. rewrite Hc.
  destruct (cycle c.2 (s, c.1)) as [r [s1 g1]]. rewrite Hp.
  destruct r as [[]| | |]; try done; unfold mbind; rewrite IH; by destruct (drive cycle peek cs s1) as [[] ?].
Qed.
End each.

(** ** Samples and windows *)

Section windows.
Context {F T : Type} `{Num F, ToPrimitive T F}.

Definition samples (cs : list (GraphState * T)) : list (F * Z) := (fun c => (sample c.2, time c.1)) <$> cs.

(** What a window retains of the samples up to [now]. *)
Definition retained (window : Window) (now : Z) (l : list (F * Z)) : list (F * Z) :=
  match window with
  | Window.Count n => drop (length l - Nat.max n 1) l
  | Window.Time d => List.filter (fun p => now - p.2 <=? as_nanos d)%Z l
  | Window.Unbounded => l
  end.

(** The window's length is a [u64] of nanoseconds. *)
Definition window_ok (window : Window) : Prop :=
  match window with Window.Time d => is_u64 (as_nanos d) | _ => True end.

(** Samples in order of time, up to [now]. *)
Definition timed (now : Z) (l : list (F * Z)) : Prop :=
  StronglySorted Z.le (snd <$> l) /\ Forall (fun p => 0 <= p.2 <= now)%Z l.

Lemma samples_snoc cs c : samples (cs ++ [c]) = samples cs ++ [(sample c.2, time c.1)].
Proof. unfold samples. by rewrite fmap_app. Qed.

Lemma clocked_timed (cs : list (GraphState * T)) c :
  clocked (cs ++ [c]) -> timed (time c.1) (samples (cs ++ [c])) /\ is_u64 (time c.1).
Proof.
  intros [Hs Hu]. assert (Hsnd : snd <$> samples (cs ++ [c]) = (fun c => time c.1) <$> (cs ++ [c])).
  { unfold samples. by rewrite <-list_fmap_compose. }
  pose proof Hs as Hs0. rewrite fmap_app in Hs. apply StronglySorted_split in Hs as (Hle & _ & _).
  apply Forall_app in Hu as [Hu Hc%Forall_inv]. split; [|done]. split; [by rewrite Hsnd|].
  rewrite samples_snoc. apply Forall_app. split; [|apply Forall_singleton; unfold is_u64 in Hc; simpl; lia].
  apply Forall_fmap. rewrite Forall_forall in Hu |- *. intros c' Hc'. simpl.
  specialize (Hu c' Hc'). unfold is_u64 in Hu. split; [lia|].
  apply (Hle (time c'.1) (time c.1)); [|simpl; left; done]. by apply (list_elem_of_fmap_2 (fun c : GraphState * T => time c.1)).
Qed.

Lemma timed_app now l k : timed now (l ++ k) -> timed now l /\ timed now k.
Proof.
  unfold timed. rewrite fmap_app, Forall_app. intros [Hs [Hl Hk]].
  by apply StronglySorted_split in Hs as (_ & Hsl & Hsk).
Qed.

Lemma filter_sublist {A} (f : A -> bool) l : List.filter f l `sublist_of` l.
Proof. induction l as [|x l IH]; simpl; [done|]. destruct (f x); by constructor. Qed.

Lemma retained_sublist window now l : retained window now l `sublist_of` l.
Proof. destruct window; simpl; [apply sublist_drop|apply filter_sublist|done]. Qed.

Lemma sublist_Forall {A} (P : A -> Prop) l l' : l' `sublist_of` l -> Forall P l -> Forall P l'.
Proof.
  intros Hsub Hl. rewrite Forall_forall in Hl |- *. intros x Hx. apply Hl.
  by apply (elem_of_submseteq l'); [|apply sublist_submseteq].
Qed.

Lemma timed_sublist now l l' : l' `sublist_of` l -> timed now l -> timed now l'.
Proof.
  intros Hsub [Hs Hf]. split; [|by eapply sublist_Forall].
  clear Hf. induction Hsub as [|p l' l Hsub IH|p l' l Hsub IH]; simpl in *; [constructor|..];
    apply StronglySorted_inv in Hs as [Hs Ha]; [|by apply IH].
  constructor; [by apply IH|]. eapply sublist_Forall; [|exact Ha]. by apply (fmap_sublist snd).
Qed.

Lemma filter_filter_sub {A} (f g : A -> bool) l :
  (forall x, g x = true -> f x = true) -> List.filter g (List.filter f l) = List.filter g l.
Proof.
  intros Hfg. induction l as [|x l IH]; [done|]. simpl. destruct (f x) eqn:Ef; simpl; [by rewrite IH|].
  destruct (g x) eqn:Eg; [|done]. by rewrite Hfg in Ef.
Qed.

Lemma trim_count n now (l : list (F * Z)) :
  StatWindow.trim (Window.Count n) now l = drop (length l - n) l.
Proof.
  induction l as [|p l IH]; [done|]. cbn [StatWindow.trim should_evict].
  destruct (n <? length (p :: l))%nat eqn:E.
  - apply Nat.ltb_lt in E. rewrite IH. cbn [length] in *.
    replace (S (length l) - n) with (S (length l - n)) by lia. done.
  - apply Nat.ltb_ge in E. by replace (length (p :: l) - n) with 0 by lia.
Qed.

Lemma trim_time d now (l : list (F * Z)) :
  is_u64 (as_nanos d) -> (now <= u64_max)%Z -> timed now l ->
  StatWindow.trim (Window.Time d) now l = List.filter (fun p => now - p.2 <=? as_nanos d)%Z l.
Proof.
  intros Hd Hnow. induction l as [|[v t] l IH]; [done|]. intros Ht.
  pose proof Ht as [Hs Hf]. inversion Hf as [|? ? Ht0 Hf']; subst. simpl in Ht0.
  inversion Hs as [|? ? Hs' Hall]; subst. simpl in Hall.
  cbn [StatWindow.trim should_evict List.filter snd].
  rewrite !wrap_u64_small by (unfold is_u64 in *; lia).
  destruct (as_nanos d <? now - t)%Z eqn:E.
  - rewrite (proj2 (Z.leb_gt _ _)) by lia. by apply IH.
  - rewrite (proj2 (Z.leb_le _ _)) by lia. f_equal. symmetry.
    apply filter_all. rewrite Forall_forall. intros p Hp. rewrite Forall_forall in Hall. apply Z.leb_le.
    specialize (Hall p.2 (list_elem_of_fmap_2 snd l p Hp)). lia.
Qed.

(** The eviction of one call. *)
Lemma trim_retained window now0 now l p :
  window_ok window -> (now0 <= now <= u64_max)%Z -> timed now (l ++ [p]) ->
  StatWindow.trim (clamp_window window) now (retained window now0 l ++ [p]) =
  retained window now (l ++ [p]).
Proof.
  intros Hw Hnow Ht. destruct window as [n|d|]; simpl.
  - rewrite trim_count. set (m := Nat.max n 1). assert (1 <= m) by lia.
    rewrite !drop_app, drop_drop, !length_app, !length_drop. simpl. f_equal.
    + f_equal. lia.
    + f_equal. lia.
  - rewrite trim_time; [|done|lia|].
    + rewrite !List.filter_app, filter_filter_sub; [done|]. intros q Hq. lia.
    + eapply timed_sublist; [|exact Ht]. apply sublist_app; [apply filter_sublist|done].
  - by destruct (l ++ [p]).
Qed.

(** The samples a rolling node holds. *)
Definition held (window : Window) (cs : list (GraphState * T)) : list (F * Z) :=
  from_option (fun c => retained window (time c.1) (samples cs)) [] (last cs).

Lemma held_after window cs c :
  held window (cs ++ [c]) = retained window (time c.1) (samples (cs ++ [c])).
Proof. unfold held. by rewrite last_snoc. Qed.

Lemma held_step window cs c :
  window_ok window -> clocked (cs ++ [c]) ->
  timed (time c.1) (held window cs ++ [(sample c.2, time c.1)]) /\ is_u64 (time c.1) /\
  length (held window cs) <= length cs /\
  StatWindow.trim (clamp_window window) (time c.1) (held window cs ++ [(sample c.2, time c.1)]) =
    held window (cs ++ [c]).
Proof.
  intros Hw Hcl. destruct (clocked_timed cs c Hcl) as [Ht Hu].
  assert (Hheld : exists now0, (now0 <= time c.1)%Z /\ held window cs = retained window now0 (samples cs)).
  { unfold held. destruct (last cs) as [c0|] eqn:El; simpl.
    - exists (time c0.1). split; [|done]. destruct Hcl as [Hs _]. rewrite fmap_app in Hs.
      apply StronglySorted_split in Hs as (Hle & _ & _). apply Hle; [|by left].
      by apply (list_elem_of_fmap_2 (fun c : GraphState * T => time c.1)), last_Some_elem_of.
    - apply last_None in El as ->. exists (time c.1). split; [done|]. by destruct window. }
  destruct Hheld as (now0 & Hle & Hh). rewrite held_after. rewrite Hh, samples_snoc in *.
  pose proof (retained_sublist window now0 (samples cs)) as Hsub. split_and!.
  - eapply timed_sublist; [|exact Ht]. by apply sublist_app.
  - apply Hu.
  - apply sublist_length in Hsub. unfold samples in Hsub at 2. by rewrite length_fmap in Hsub.
  - apply trim_retained; [done|unfold is_u64 in Hu; lia|done].
Qed.
(** The node that recomputes over what it holds. *)
Definition window_node (stat : WindowStat) (weighting : Weighting) (window : Window)
    (cs : list (GraphState * T)) (s : StatWindow.WindowStream F) : Prop :=
  StatWindow.stat s = stat /\ StatWindow.weighting s = weighting /\
  StatWindow.window s = clamp_window window /\ StatWindow.buffer s = held window cs.

Lemma window_cycle stat weighting window cs c s v :
  window_ok window -> clocked (cs ++ [c]) -> window_node stat weighting window cs s ->
  StatWindow.compute stat weighting (time c.1) (held window (cs ++ [c])) = Ok v ->
  exists s' g', StatWindow.cycle c.2 (s, c.1) = (Ok true, (s', g')) /\
    window_node stat weighting window (cs ++ [c]) s' /\ StatWindow.value s' = v.
Proof.
  intros Hw Hcl (Hs & Hwt & Hwin & Hbuf) Hv. destruct (held_step window cs c Hw Hcl) as (_ & _ & _ & Htrim).
  unfold StatWindow.cycle, mbind, get_self, graph, put_self, mlift, mreturn. simpl.
  rewrite Hs, Hwt, Hwin, Hbuf, Htrim, Hv. simpl. do 2 eexists. by split_and!.
Qed.

(** The newest sample is always held. *)
Lemma held_newest window cs c :
  window_ok window -> last (held window (cs ++ [c])) = Some (sample c.2, time c.1).
Proof.
  intros Hw. rewrite held_after, samples_snoc. destruct window as [n|d|]; simpl; [| |by rewrite last_snoc].
  - rewrite drop_app_le, last_snoc; [done|]. rewrite length_app. simpl. lia.
  - rewrite List.filter_app. simpl. rewrite Z.sub_diag, (proj2 (Z.leb_le _ _)) by apply Hw.
    by rewrite last_snoc.
Qed.

(** The node that accumulates over the whole stream. *)
Definition cumulative_op (stat : CumulativeStat) : F -> F -> F :=
  match stat with CumulativeSum => fadd | CumulativeMin => fmin | CumulativeMax => fmax end.
Definition cumulative_node (stat : CumulativeStat) (good : list F -> F -> Prop)
    (cs : list (GraphState * T)) (s : CumulativeStream.CumulativeStream F) : Prop :=
  CumulativeStream.stat s = stat /\ CumulativeStream.seeded s = negb (bool_decide (cs = [])) /\
  (cs <> [] -> good (map fst (samples cs)) (CumulativeStream.acc s)).

Lemma cumulative_cycle stat good cs c s :
  good [sample c.2] (sample c.2) ->
  (forall l a, good l a -> good (l ++ [sample c.2]) (cumulative_op stat a (sample c.2))) ->
  cumulative_node stat good cs s ->
  exists s' g', CumulativeStream.cycle c.2 (s, c.1) = (Ok true, (s', g')) /\
    cumulative_node stat good (cs ++ [c]) s' /\
    good (map fst (samples (cs ++ [c]))) (CumulativeStream.value s').
Proof.
  intros Hone Hop (Hs & Hseed & Hacc).
  unfold CumulativeStream.cycle, mbind, get_self, put_self, mreturn. simpl.
  set (acc := if negb _ then _ else _). do 2 eexists. split; [done|].
  assert (Hg : good (map fst (samples (cs ++ [c]))) acc).
  { unfold acc. rewrite Hseed, negb_involutive, samples_snoc, map_app. case_bool_decide as E; [by subst cs|].
    rewrite Hs. pose proof (Hop _ _ (Hacc E)) as Hgood. by destruct stat. }
  split; [|done]. split; [done|]. split; [|done]. simpl. by destruct cs.
Qed.
End windows.

(** Calls at given times, with the upstream's values. *)
Definition calls_at {T} (l : list (Z * T)) : list (GraphState * T) :=
  map (fun p => (set_time (GraphState.new (HistoricalFrom 0) Forever 0) p.1, p.2)) l.

(** Prove that calls at given times are in order. *)
Ltac clocked := split; [cbn; repeat constructor; lia|cbn; repeat constructor; unfold is_u64, u64_max; simpl; lia].
