(* ===== verification/MomentProps.v ===== *)
(** * Mean, variance and standard deviation

    In exact arithmetic the accumulator of West's algorithm holds the weighted
    moments of what was pushed and not removed ([push_exact], [remove_exact]).
    [moment_correct]: what [mean], [variance] and [std] emit over any window. *)
From S2P Require Import Prelude NanoTime TimeQueue GraphState NodeCalls Float Statistics StatFacts.
From Stdlib Require Import Reals Lra.

Local Open Scope R_scope.

(** ** Definitions *)

(** Values with their weights. *)
Definition wsum (l : list (R * R)) : R := Rsum (map snd l).
Definition wxsum (l : list (R * R)) : R := Rsum (map (fun p => p.2 * p.1) l).
Definition mean_of (l : list (R * R)) : R := wxsum l / wsum l.
(** The weighted sum of the squared deviations from [m]. *)
Definition deviation (m : R) (l : list (R * R)) : R :=
  Rsum (map (fun p => p.2 * (p.1 - m) * (p.1 - m)) l).
Definition m2_of (l : list (R * R)) : R := deviation (mean_of l) l.
Definition heavy (l : list (R * R)) : list (R * R) := List.filter (fun p => negb (fle p.2 0)) l.

(** The contributions the samples of a window make. *)
Fixpoint steps (l : list (R * Z)) : list (R * R) :=
  match l with
  | (v, t) :: ((_, t') :: _) as l' => (v, IZR (t' - t)) :: steps l'
  | _ => []
  end.
Definition contributions (weighting : Weighting) (l : list (R * Z)) : list (R * R) :=
  match weighting with
  | Weighting.Count => map (fun p => (p.1, 1)) l
  | Weighting.Time => heavy (steps l)
  end.

(** The moment of a list of contributions; [current] is the newest sample. *)
Definition moment_spec (moment : Moment) (weighting : Weighting) (current : R) (l : list (R * R)) : R :=
  let variance :=
    match weighting with
    | Weighting.Count => if (length l <? 2)%nat then 0 else m2_of l / (INR (length l) - 1)
    | Weighting.Time => match l with [] => 0 | _ => m2_of l / wsum l end
    end in
  match moment with
  | Mean => match l with [] => current | _ => mean_of l end
  | Var => variance
  | Std => R_sqrt.sqrt variance
  end.

(** The accumulator that holds exactly [l]. *)
Definition accumulator (l : list (R * R)) : WeightedMoments R :=
  WeightedMoments.mk (wsum l) (Z.of_nat (length l)) (mean_of l) (m2_of l).

Definition weighty (l : list (R * R)) : Prop := Forall (fun p => 0 < p.2) l.

(** ** The accumulator *)

Lemma wsum_snoc l p : wsum (l ++ [p]) = wsum l + p.2.
Proof. unfold wsum. rewrite map_app, Rsum_app. simpl. lra. Qed.
Lemma wxsum_snoc l p : wxsum (l ++ [p]) = wxsum l + p.2 * p.1.
Proof. unfold wxsum. rewrite map_app, Rsum_app. simpl. lra. Qed.
Lemma deviation_snoc m l p : deviation m (l ++ [p]) = deviation m l + p.2 * (p.1 - m) * (p.1 - m).
Proof. unfold deviation. rewrite map_app, Rsum_app. simpl. lra. Qed.

Lemma wsum_nonneg l : weighty l -> 0 <= wsum l.
Proof. unfold wsum. induction 1; simpl; lra. Qed.

Lemma wsum_pos l : weighty l -> l <> [] -> 0 < wsum l.
Proof.
  intros Hl ?. destruct Hl as [|p l Hp Hl]; [done|]. pose proof (wsum_nonneg l Hl).
  unfold wsum in *. simpl. lra.
Qed.

Lemma deviation_nonneg m l : weighty l -> 0 <= deviation m l.
Proof.
  unfold deviation. induction 1 as [|p l Hp Hl IH]; simpl; [lra|].
  assert (0 <= (p.1 - m) * (p.1 - m)) by apply Rle_0_sqr. nra.
Qed.

(** Moving the point the deviations are taken from. *)
Lemma deviation_shift a b l :
  deviation a l = deviation b l + (b - a) * (2 * wxsum l - (a + b) * wsum l).
Proof.
  unfold deviation, wxsum, wsum. induction l as [|p l IH]; simpl; [lra|]. rewrite IH. lra.
Qed.

Lemma deviation_mean a l :
  wsum l <> 0 -> deviation a l = m2_of l + (mean_of l - a) * (mean_of l - a) * wsum l.
Proof. intros Hw. rewrite (deviation_shift a (mean_of l)). unfold m2_of, mean_of. field_simplify; [|done..]. lra. Qed.

Lemma mean_nil : mean_of [] = 0.
Proof. apply Rmult_0_l. Qed.

Lemma exact_nil : accumulator [] = WeightedMoments.default.
Proof.
  unfold accumulator, WeightedMoments.default. by rewrite mean_nil.
Qed.

(** The mean after one more contribution. *)
Lemma mean_snoc l x w :
  weighty l -> 0 < w ->
  mean_of (l ++ [(x, w)]) = mean_of l + w / (wsum l + w) * (x - mean_of l).
Proof.
  intros Hl Hw. destruct l as [|p l].
  { rewrite mean_nil. unfold mean_of, wsum, wxsum. simpl. field. lra. }
  unfold mean_of. rewrite wsum_snoc, wxsum_snoc. simpl.
  pose proof (wsum_pos (p :: l) Hl ltac:(done)). field. lra.
Qed.

Lemma m2_snoc l x w :
  weighty l -> 0 < w ->
  m2_of (l ++ [(x, w)]) = m2_of l + w * (x - mean_of l) * (x - mean_of (l ++ [(x, w)])).
Proof.
  intros Hl Hw. unfold m2_of at 1. rewrite deviation_snoc, mean_snoc by done. simpl.
  destruct l as [|p l].
  { unfold m2_of. rewrite mean_nil. unfold deviation, wsum. simpl. field. lra. }
  pose proof (wsum_pos (p :: l) Hl ltac:(done)).
  rewrite deviation_mean by lra. field. lra.
Qed.

Lemma push_exact l x w :
  weighty l -> (Z.of_nat (length l) < u64_max)%Z ->
  WeightedMoments.push x w (accumulator l) = accumulator (l ++ heavy [(x, w)]).
Proof.
  intros Hl Hlen. unfold WeightedMoments.push, heavy, zero. simpl. Rcases; simpl; [by rewrite app_nil_r|].
  unfold accumulator. rewrite m2_snoc, mean_snoc, wsum_snoc by done. simpl.
  rewrite length_app, wrap_u64_small by (unfold is_u64; lia). simpl. f_equal. lia.
Qed.

Lemma mean_cons x w l :
  weighty ((x, w) :: l) -> l <> [] ->
  (wsum ((x, w) :: l) * mean_of ((x, w) :: l) - w * x) / (wsum ((x, w) :: l) - w) = mean_of l.
Proof.
  intros Hl Hne. pose proof (wsum_pos ((x, w) :: l) Hl ltac:(done)).
  apply Forall_cons in Hl as [_ Hl]. pose proof (wsum_pos l Hl Hne).
  unfold mean_of, wsum, wxsum in *. simpl in *. field. lra.
Qed.

Lemma m2_cons x w l :
  weighty ((x, w) :: l) -> l <> [] ->
  m2_of ((x, w) :: l) - w * (x - mean_of l) * (x - mean_of ((x, w) :: l)) = m2_of l.
Proof.
  intros Hl Hne. pose proof (wsum_pos ((x, w) :: l) Hl ltac:(done)) as H1.
  assert (H2 : 0 < w) by (apply Forall_cons in Hl as [? _]; done).
  assert (H3 : 0 < wsum l) by (apply wsum_pos; [by apply Forall_cons in Hl as [_ ?]|done]).
  unfold m2_of at 1. set (m := mean_of ((x, w) :: l)).
  assert (deviation m ((x, w) :: l) = w * (x - m) * (x - m) + deviation m l) as -> by done.
  rewrite (deviation_mean m l) by lra.
  assert (Hm : m = (w * x + wxsum l) / (w + wsum l)) by done.
  assert (Hx : mean_of l = wxsum l / wsum l) by done. rewrite Hm, Hx.
  assert (w + wsum l <> 0) by (pose proof H1; unfold wsum in *; simpl in *; lra).
  field. lra.
Qed.

Lemma remove_exact l x w :
  weighty ((x, w) :: l) -> (Z.of_nat (length l) < u64_max)%Z ->
  WeightedMoments.remove x w (accumulator ((x, w) :: l)) = accumulator l.
Proof.
  intros Hp Hlen. pose proof Hp as [Hw Hl]%Forall_cons. simpl in Hw.
  assert (HW : wsum ((x, w) :: l) - w = wsum l) by (unfold wsum; simpl; lra).
  unfold WeightedMoments.remove, zero. cbn [accumulator WeightedMoments.w_sum WeightedMoments.count
    WeightedMoments.mean WeightedMoments.m2 of_Z R_num fsub fmul fdiv fle].
  rewrite (proj2 (R_fle_false w 0)) by done.
  destruct (decide (l = [])) as [->|Hne]; [simpl; by rewrite exact_nil|].
  pose proof (wsum_pos l Hl Hne). destruct l as [|p l]; [done|]. set (k := p :: l) in *.
  rewrite (proj2 (Z.leb_gt _ _)) by (simpl; lia). rewrite (proj2 (R_fle_false _ _)) by lra.
  cbn [orb]. rewrite mean_cons, m2_cons, HW by done.
  rewrite (proj2 (R_flt_false _ _)) by (apply deviation_nonneg; done).
  unfold accumulator. f_equal. cbn [length]. rewrite wrap_u64_small by (unfold is_u64; lia). lia.
Qed.

(** ** The two nodes *)

Lemma heavy_positive l : weighty (heavy l).
Proof.
  unfold weighty, heavy. induction l as [|p l IH]; simpl; [constructor|].
  Rcases; simpl; [done|]. by constructor.
Qed.

Lemma contributions_positive weighting l : weighty (contributions weighting l).
Proof.
  destruct weighting; [|apply heavy_positive]. simpl. unfold weighty. induction l; simpl; constructor; simpl; [lra|done].
Qed.

Lemma contributions_length weighting l : (length (contributions weighting l) <= length l)%nat.
Proof.
  destruct weighting; simpl; [by rewrite length_map|].
  transitivity (length (steps l)); [apply List.filter_length_le|].
  induction l as [|[v t] [|[v' t'] l] IH]; simpl in *; lia.
Qed.

(** A new sample closes the step its predecessor opened. *)
Lemma steps_snoc l v t v' t' :
  steps ((l ++ [(v, t)]) ++ [(v', t')]) = steps (l ++ [(v, t)]) ++ [(v, IZR (t' - t))].
Proof.
  induction l as [|[a b] [|[a' b'] l] IH]; [done|done|]. simpl in *. by rewrite IH.
Qed.

Lemma contributions_snoc weighting l v t :
  contributions weighting (l ++ [(v, t)]) =
  contributions weighting l ++
    match weighting with
    | Weighting.Count => [(v, 1)]
    | Weighting.Time => match last l with Some (v0, t0) => heavy [(v0, IZR (t - t0))] | None => [] end
    end.
Proof.
  destruct weighting; simpl; [by rewrite map_app|].
  destruct l as [|[v0 t0] l _] using rev_ind; [done|].
  rewrite steps_snoc, last_snoc. unfold heavy. by rewrite List.filter_app.
Qed.

Lemma contributions_cons weighting v t l :
  contributions weighting ((v, t) :: l) =
    match weighting with
    | Weighting.Count => [(v, 1)]
    | Weighting.Time => match l with (_, t1) :: _ => heavy [(v, IZR (t1 - t))] | [] => [] end
    end ++ contributions weighting l.
Proof.
  destruct weighting; [done|]. destruct l as [|[v1 t1] l]; [done|].
  unfold contributions. cbn [steps]. unfold heavy. simpl. by destruct (negb _).
Qed.

Section nodes.
Context {T : Type} `{ToPrimitive T R}.

(** Committing what a new sample contributes. *)
Lemma commit_exact weighting now sample l :
  timed now l -> (now <= u64_max)%Z -> (Z.of_nat (length l) < u64_max)%Z ->
  RollingMomentStream.commit weighting sample now l (accumulator (contributions weighting l)) =
  accumulator (contributions weighting (l ++ [(sample, now)])).
Proof.
  intros [_ Ht] Hnow Hlen. pose proof (contributions_length weighting l) as Hc.
  pose proof (contributions_positive weighting l) as Hp.
  rewrite contributions_snoc. unfold RollingMomentStream.commit. destruct weighting.
  - rewrite push_exact by (done || lia). f_equal. f_equal. unfold heavy. simpl.
    by rewrite (proj2 (R_fle_false _ _)) by lra.
  - destruct (last l) as [[v t]|] eqn:El; [|by rewrite app_nil_r].
    rewrite push_exact by (done || lia). rewrite Forall_forall in Ht.
    specialize (Ht (v, t) (last_Some_elem_of _ _ El)). simpl in Ht.
    unfold NanoTime.sub. by rewrite wrap_u64_small by (unfold is_u64; lia).
Qed.

(** Evicting keeps the accumulator in step with the buffer. *)
Lemma evict_exact weighting window now l :
  timed now l -> (now <= u64_max)%Z -> (Z.of_nat (length l) <= u64_max)%Z ->
  RollingMomentStream.evict weighting window now l (accumulator (contributions weighting l)) =
  Ok (StatWindow.trim window now l, accumulator (contributions weighting (StatWindow.trim window now l))).
Proof.
  intros Ht Hnow. induction l as [|[v t] l IH]; intros Hlen; [by destruct window|].
  cbn [RollingMomentStream.evict StatWindow.trim]. destruct (should_evict _ _ _); [|done].
  cbn [length] in Hlen. rewrite <-IH; [|by apply (timed_app _ [(v, t)])|lia].
  f_equal. rewrite contributions_cons.
  pose proof (contributions_length weighting l) as Hc. pose proof (contributions_positive weighting l) as Hp.
  destruct weighting; simpl app.
  - apply remove_exact; [constructor; simpl; [lra|done]|lia].
  - destruct l as [|[v1 t1] l']; [done|]. set (l := (v1, t1) :: l') in *.
    assert (Hs : NanoTime.sub t1 t = (t1 - t)%Z /\ (0 <= t1 - t)%Z).
    { destruct Ht as [Hs Ht]. apply Forall_cons in Ht as [Ht0 Ht]. apply Forall_cons in Ht as [Ht1 _].
      simpl in *. apply StronglySorted_inv in Hs as [_ Hs]. apply Forall_cons in Hs as [Hle _].
      unfold NanoTime.sub. rewrite wrap_u64_small by (unfold is_u64; lia). lia. }
    destruct Hs as [-> Hge]. apply IZR_le in Hge.
    unfold heavy. cbn [List.filter snd]. unfold WeightedMoments.remove at 1.
    destruct (fle (IZR (t1 - t)) 0) eqn:E; cbn [negb app].
    + cbn [of_Z R_num]. unfold zero. simpl. by rewrite E.
    + apply remove_exact; [|lia]. constructor; [|done]. simpl. by apply R_fle_false.
Qed.

Lemma variance_spec weighting l :
  weighty l ->
  WeightedMoments.variance weighting (accumulator l) = moment_spec Var weighting 0 l /\
  0 <= moment_spec Var weighting 0 l.
Proof.
  intros Hl. pose proof (deviation_nonneg (mean_of l) l Hl) as Hdev. fold (m2_of l) in Hdev.
  unfold WeightedMoments.variance, moment_spec. destruct weighting; simpl.
  - destruct (length l <? 2)%nat eqn:E; [apply Nat.ltb_lt in E|apply Nat.ltb_ge in E].
    + rewrite (proj2 (Z.ltb_lt _ _)) by lia. split; [done|lra].
    + rewrite (proj2 (Z.ltb_ge _ _)) by lia. rewrite <-INR_IZR_INZ. split; [done|].
      apply le_INR in E. simpl in E. apply Rmult_le_pos; [done|]. left. apply Rinv_0_lt_compat. lra.
  - destruct l as [|p l]; [rewrite (proj2 (R_fle _ _)); [split; [done|lra]|unfold wsum, zero; simpl; lra]|].
    pose proof (wsum_pos (p :: l) Hl ltac:(done)).
    rewrite (proj2 (R_fle_false _ _)) by done. split; [done|].
    apply Rmult_le_pos; [done|]. left. by apply Rinv_0_lt_compat.
Qed.

Lemma output_spec moment weighting current l :
  weighty l ->
  WeightedMoments.output moment weighting current (accumulator l) = moment_spec moment weighting current l.
Proof.
  intros Hl. destruct (variance_spec weighting l Hl) as [Hv Hpos]. destruct moment; simpl.
  - unfold WeightedMoments.is_empty. simpl. destruct l as [|p l].
    + by rewrite (proj2 (R_fle _ _)) by (unfold wsum, zero; simpl; lra).
    + by rewrite (proj2 (R_fle_false _ _)) by (apply wsum_pos; done).
  - rewrite Hv. by destruct weighting.
  - rewrite Hv. unfold fmax. rewrite !R_not_nan, (proj2 (R_flt_false _ _)) by done. by destruct weighting.
Qed.

(** What a moment operator has to emit after the calls [cs]. *)
Definition moment_after (moment : Moment) (window : Window) (weighting : Weighting)
    (cs : list (GraphState * T)) (v : R) : Prop :=
  exists c, last cs = Some c /\
    v = moment_spec moment weighting (sample c.2)
          (contributions weighting (retained window (time c.1) (samples cs))).

Definition rolling_inv (moment : Moment) (window : Window) (weighting : Weighting)
    (cs : list (GraphState * T)) (s : RollingMomentStream.RollingMomentStream R) : Prop :=
  RollingMomentStream.moment s = moment /\ RollingMomentStream.weighting s = weighting /\
  RollingMomentStream.window s = clamp_window window /\
  RollingMomentStream.buffer s = held window cs /\
  RollingMomentStream.moments s = accumulator (contributions weighting (RollingMomentStream.buffer s)).

Lemma rolling_step moment window weighting cs c s :
  window_ok window -> clocked (cs ++ [c]) -> (Z.of_nat (length cs) < u64_max)%Z ->
  rolling_inv moment window weighting cs s ->
  exists s' g', RollingMomentStream.cycle c.2 (s, c.1) = (Ok true, (s', g')) /\
    rolling_inv moment window weighting (cs ++ [c]) s' /\
    moment_after moment window weighting (cs ++ [c]) (RollingMomentStream.value s').
Proof.
  intros Hw Hcl Hlen (Hm & Hwt & Hwin & Hbuf & Hmom).
  destruct (held_step window cs c Hw Hcl) as (Ht & Hnow & Hb & Htrim).
  unfold is_u64 in Hnow. unfold RollingMomentStream.cycle, mbind, get_self, graph, put_self, mlift, mreturn.
  simpl. rewrite Hm, Hwt, Hwin, Hmom, Hbuf.
  rewrite commit_exact; [|by apply timed_app in Ht as [? _]|lia|lia].
  rewrite evict_exact; [|done|lia|rewrite length_app; simpl; lia]. rewrite Htrim. simpl.
  do 2 eexists. split; [done|]. split; [by split_and!|]. exists c. split; [by rewrite last_snoc|]. simpl.
  rewrite output_spec by apply contributions_positive. by rewrite held_after.
Qed.

(** The flat node keeps no buffer. *)
Definition flat_inv (moment : Moment) (weighting : Weighting)
    (cs : list (GraphState * T)) (s : MomentStream.MomentStream R) : Prop :=
  MomentStream.moment s = moment /\ MomentStream.weighting s = weighting /\
  MomentStream.moments s = accumulator (contributions weighting (samples cs)) /\
  (weighting = Weighting.Time ->
     MomentStream.last_time s = snd <$> last (samples cs) /\
     forall p, last (samples cs) = Some p -> MomentStream.prev_value s = p.1).

Lemma flat_step moment weighting cs c s :
  clocked (cs ++ [c]) -> (Z.of_nat (length cs) < u64_max)%Z -> flat_inv moment weighting cs s ->
  exists s' g', MomentStream.cycle c.2 (s, c.1) = (Ok true, (s', g')) /\
    flat_inv moment weighting (cs ++ [c]) s' /\
    moment_after moment Window.Unbounded weighting (cs ++ [c]) (MomentStream.value s').
Proof.
  intros Hcl Hlen (Hm & Hwt & Hmom & Htw).
  destruct (clocked_timed cs c Hcl) as [Ht Hu]. unfold is_u64 in Hu. rewrite samples_snoc in Ht.
  apply timed_app in Ht as [Ht _].
  assert (Hl : length (samples cs) = length cs) by apply length_fmap.
  pose proof (commit_exact weighting (time c.1) (sample c.2) (samples cs) Ht ltac:(lia) ltac:(lia)) as Hc.
  rewrite <-Hmom, <-samples_snoc in Hc.
  unfold MomentStream.cycle, mbind, get_self, graph, put_self, mreturn, MomentStream.output.
  simpl. rewrite Hwt. destruct weighting; simpl.
  - do 2 eexists. split; [done|]. simpl in Hc. unfold flat_inv. simpl.
    rewrite Hm, Hc. split; [by split_and!|]. exists c. split; [by rewrite last_snoc|].
    by rewrite output_spec by apply (contributions_positive Weighting.Count).
  - destruct (Htw eq_refl) as [Hlt Hpv]. simpl in Hc.
    assert (Hc' : match MomentStream.last_time s with
      | Some prev_t => WeightedMoments.push (MomentStream.prev_value s) (of_Z (NanoTime.sub (time c.1) prev_t))
          (MomentStream.moments s)
      | None => MomentStream.moments s
      end = accumulator (heavy (steps (samples (cs ++ [c]))))).
    { rewrite <-Hc, Hlt. destruct (last (samples cs)) as [[v t]|]; [|done]. simpl. by rewrite (Hpv _ eq_refl). }
    do 2 eexists. split; [done|]. unfold flat_inv. simpl in Hc' |- *. rewrite Hm, Hc'. split.
    + split_and!; [done..|]. intros _. rewrite samples_snoc, last_snoc. split; [done|]. by intros p [= <-].
    + exists c. split; [by rewrite last_snoc|].
      by rewrite output_spec by apply (contributions_positive Weighting.Time).
Qed.
End nodes.

(** ** The property *)

(** C20: in exact arithmetic the moment operators emit, at every call, the mean,
    the sample variance (population variance when time weighted) or its square
    root of the samples the window retains, each weighted by one or by the time
    to its successor; a mean of nothing is the newest sample. The operators
    maintain it incrementally, by West's algorithm and its inverse. *)
Theorem moment_correct {T} `{ToPrimitive T R} up moment window weighting (cs : list (GraphState * T)) :
  window_ok window -> clocked cs -> (Z.of_nat (length cs) <= u64_max)%Z ->
  exists out s',
    drive StatStream.cycle StatStream.peek_value cs (StatStream.moment up moment window weighting)
      = (Ok out, s') /\
    each_call (moment_after moment window weighting) cs out.
Proof.
  intros Hw Hcl Hlen.
  assert (Hroll : forall window, window_ok window -> exists out s',
    drive RollingMomentStream.cycle RollingMomentStream.value cs
      (RollingMomentStream.new up moment weighting window) = (Ok out, s') /\
    each_call (moment_after moment window weighting) cs out).
  { intros w Hw'. apply (drive_each _ _ (fun _ => True) (rolling_inv moment w weighting)); [done..|by apply Forall_true| |].
    - unfold rolling_inv. simpl. split_and!; [done..|]. rewrite <-exact_nil. by destruct weighting.
    - intros cs' c s Hc _ Hl Hs. by apply rolling_step. }
  destruct window as [n|d|]; simpl.
  3: { destruct (drive_each MomentStream.cycle MomentStream.value (fun _ => True) (flat_inv moment weighting)
         (moment_after moment Window.Unbounded weighting) cs (MomentStream.new up moment weighting))
         as (out & s' & Hd & Hout); [done..|by apply Forall_true| | |].
       - unfold flat_inv. simpl. rewrite <-exact_nil. split_and!; [done..| |done]. by destruct weighting.
       - intros cs' c s Hc _ Hl Hs. by apply flat_step.
       - exists out, (StatStream.OfMoment s'). split; [|done].
         erewrite (drive_wrap MomentStream.cycle MomentStream.value); [by rewrite Hd|done|done]. }
  all: destruct (Hroll _ Hw) as (out & s' & Hd & Hout); exists out, (StatStream.OfRollingMoment s');
    split; [|done]; erewrite (drive_wrap RollingMomentStream.cycle RollingMomentStream.value);
    [by rewrite Hd|done|done].
Qed.

(** Over the last two of the values 1, 2, 4 the sample variance is 2. *)
Lemma moment_correct_witness :
  let cs := calls_at [(100, 1); (200, 2); (300, 4)]%Z in
  exists out s', drive StatStream.cycle StatStream.peek_value cs
      (StatStream.moment (F:=R) 1 Var (Window.Count 2) Weighting.Count) = (Ok out, s') /\
    out !! 2%nat = Some (300%Z, 2).
Proof.
  intros cs. destruct (moment_correct 1 Var (Window.Count 2) Weighting.Count cs) as (out & s' & Hd & _ & Hout).
  - done.
  - clocked.
  - done.
  - exists out, s'. split; [exact Hd|]. destruct (Hout 2%nat _ eq_refl) as (v & Hv & c & Hc & ->).
    rewrite Hv. cbn in Hc. injection Hc as <-. do 2 f_equal.
    cbn. unfold m2_of, deviation, mean_of, wsum, wxsum. cbn. field.
Defined.
