(* ===== verification/ExtremeProps.v ===== *)
(** * Minimum and maximum

    [extreme_correct]: what [min] and [max] emit over any window, for the
    program's own floating-point numbers: the monotonic deque, the running
    accumulator and the scan of a time window keep the same promise. *)
From S2P Require Import Prelude NanoTime TimeQueue GraphState NodeCalls Float Statistics StatFacts.

(** ** Definitions *)

Section order.
Context {F : Type} `{Num F}.

(** [v] is at least as extreme as [x]. *)
Definition better (e : Extreme) (v x : F) : bool :=
  match e with Min => fle v x | Max => fle x v end.

(** [v] is an element of [l] no other is more extreme than. *)
Definition extreme_of (e : Extreme) (l : list F) (v : F) : Prop :=
  v ∈ l /\ forall x, x ∈ l -> better e v x = true.

Definition pick (e : Extreme) : F -> F -> F := match e with Min => fmin | Max => fmax end.
Definition worst (e : Extreme) : F := match e with Min => infinity | Max => neg_infinity end.

(** The deque holds, of the last [w] of [vals], those that can still become the
    extreme, the present one first. *)
Record deque_inv (e : Extreme) (w : nat) (vals : list F) (d : list (Z * F)) : Prop := {
  dq_entry i v : (i, v) ∈ d ->
    (0 <= i)%Z /\ vals !! Z.to_nat i = Some v /\ length vals - w <= Z.to_nat i;
  dq_sorted : StronglySorted (fun a b => (a.1 < b.1)%Z /\ better e a.2 b.2 = true) d;
  dq_cover j x : vals !! j = Some x -> length vals - w <= j ->
    exists i v, (i, v) ∈ d /\ j <= Z.to_nat i /\ better e v x = true }.
End order.

(** ** The order *)

Section facts.
Context {F : Type} `{NumOrder F}.
Abbreviation numbers l := (Forall (fun x => is_nan x = false) l).

Lemma better_total e (x y : F) :
  is_nan x = false -> is_nan y = false -> better e x y = false -> better e y x = true.
Proof. intros Hx Hy Hb. destruct e; simpl in *; destruct (num_total x y Hx Hy); congruence. Qed.

Lemma better_refl e (x : F) : is_nan x = false -> better e x x = true.
Proof. intros Hx. destruct e; simpl; by destruct (num_total x x Hx Hx). Qed.

Lemma better_trans e (x y z : F) : better e x y = true -> better e y z = true -> better e x z = true.
Proof. destruct e; simpl; intros; by eapply num_trans. Qed.

Lemma pick_spec e (x y : F) :
  is_nan x = false -> is_nan y = false -> pick e x y = if better e x y then x else y.
Proof.
  intros Hx Hy. destruct e; simpl; [unfold fmin|unfold fmax]; rewrite Hx, Hy, num_lt by done; by destruct (fle _ _).
Qed.

Lemma extreme_one e (x : F) : is_nan x = false -> extreme_of e [x] x.
Proof. intros Hx. split; [by left|]. intros y ->%list_elem_of_singleton. by apply better_refl. Qed.

Lemma extreme_snoc e l (v x : F) :
  numbers l -> is_nan x = false -> extreme_of e l v -> extreme_of e (l ++ [x]) (pick e v x).
Proof.
  intros Hl Hx [Hv Hb]. rewrite Forall_forall in Hl. pose proof (Hl v Hv) as Hnv.
  rewrite pick_spec by done. destruct (better e v x) eqn:E; split.
  - set_solver.
  - intros y [Hy| ->%list_elem_of_singleton]%elem_of_app; [by apply Hb|done].
  - set_solver.
  - apply better_total in E; [|done..].
    intros y [Hy| ->%list_elem_of_singleton]%elem_of_app; [|by apply better_refl].
    eapply better_trans; [exact E|by apply Hb].
Qed.

(** The scan of a window, from the worst value there is. *)
Lemma extreme_scan e (l : list F) :
  numbers l -> l <> [] -> extreme_of e l (foldl (pick e) (worst e) l).
Proof.
  intros Hl. induction l as [|x l IH] using rev_ind; [done|]. intros _.
  apply Forall_app in Hl as [Hl Hx%Forall_inv]. rewrite foldl_app. simpl.
  destruct l as [|y l]; [|by apply extreme_snoc; [..|apply IH]]. simpl.
  assert (pick e (worst e) x = x) as ->; [|by apply extreme_one].
  destruct num_infinite as [H1 H2]. rewrite pick_spec; [|by destruct e|done].
  destruct (better e (worst e) x) eqn:E; [|done]. symmetry. destruct e; simpl in E |- *.
  - by apply num_infinity.
  - by apply num_neg_infinity.
Qed.

(** ** The deque *)

Lemma drop_dominated_spec e (x : F) d :
  exists d2, d = rev (RollingExtremeStream.drop_dominated e x (rev d)) ++ d2 /\
    Forall (fun p => better e x p.2 = true) d2 /\
    (forall p, last (rev (RollingExtremeStream.drop_dominated e x (rev d))) = Some p ->
       better e x p.2 = false).
Proof.
  induction d as [|[i v] d IH] using rev_ind; [by exists []|]. rewrite rev_unit. simpl.
  assert (Hdom : RollingExtremeStream.dominated e v x = better e x v) by by destruct e.
  rewrite Hdom. destruct (better e x v) eqn:E.
  - destruct IH as (d2 & Hd & Hf & Hlast). exists (d2 ++ [(i, v)]). split; [by rewrite app_assoc, <-Hd|].
    split; [|done]. apply Forall_app. split; [done|]. by constructor.
  - exists []. rewrite app_nil_r. simpl. rewrite rev_involutive. split; [done|]. split; [done|].
    intros p. rewrite last_snoc. by intros [= <-].
Qed.

Lemma drop_stale_spec w i (d : list (Z * F)) :
  StronglySorted (fun a b => (a.1 < b.1)%Z) d -> Forall (fun p => 0 <= p.1 <= i)%Z d -> (i <= u64_max)%Z ->
  exists d1, d = d1 ++ RollingExtremeStream.drop_stale w i d /\
    Forall (fun p => w <= i - p.1)%Z d1 /\
    Forall (fun p => i - p.1 < w)%Z (RollingExtremeStream.drop_stale w i d).
Proof.
  intros Hs Hf Hi. induction d as [|[j v] d IH]; [by exists []|].
  apply StronglySorted_inv in Hs as [Hs Ha]. apply Forall_cons in Hf as [Hj Hf]. simpl in Hj.
  cbn [RollingExtremeStream.drop_stale]. rewrite wrap_u64_small by (unfold is_u64; lia).
  destruct (w <=? i - j)%Z eqn:E.
  - destruct (IH Hs Hf) as (d1 & Hd & H1 & H2). exists ((j, v) :: d1). split; [by rewrite <-app_comm_cons, <-Hd|].
    split; [|done]. constructor; [simpl; lia|done].
  - exists []. split; [done|]. split; [done|]. constructor; [simpl; lia|].
    eapply Forall_impl; [exact Ha|]. intros p ?. simpl in *. lia.
Qed.
(** The candidates once a new sample has driven out those it dominates. *)
Lemma pushed_sorted e w vals d (x : F) :
  numbers (vals ++ [x]) -> deque_inv e w vals d ->
  let i := Z.of_nat (length vals) in
  StronglySorted (fun a b => (a.1 < b.1)%Z /\ better e a.2 b.2 = true)
    (rev (RollingExtremeStream.drop_dominated e x (rev d)) ++ [(i, x)]).
Proof.
  intros [Hn Hx%Forall_inv]%Forall_app [Hent Hs _] i. rewrite Forall_forall in Hn.
  destruct (drop_dominated_spec e x d) as (d2 & Hd & _ & Hlast).
  set (keep := rev _) in *. clearbody keep. rewrite Hd in Hs, Hent.
  apply StronglySorted_split in Hs as (_ & Hk & _).
  apply StronglySorted_append; [done|by repeat constructor|].
  intros [j v] q Hj ->%list_elem_of_singleton. simpl.
  assert (Hent' : forall j v, (j, v) ∈ keep -> (j < i)%Z /\ is_nan v = false).
  { intros j' v' Hin. destruct (Hent j' v') as (H0' & Hv & _); [set_solver|].
    split; [apply lookup_lt_Some in Hv; lia|]. apply Hn. by eapply list_elem_of_lookup_2. }
  split; [by apply (Hent' j v)|]. destruct keep as [|[jl vl] keep' _] using rev_ind; [by apply not_elem_of_nil in Hj|].
  rewrite last_snoc in Hlast. specialize (Hlast _ eq_refl). simpl in Hlast.
  apply better_total in Hlast; [|done|apply (Hent' jl vl); set_solver].
  apply elem_of_app in Hj as [Hj| [= -> ->]%list_elem_of_singleton]; [|done].
  apply StronglySorted_split in Hk as (Hb & _ & _). eapply better_trans; [|exact Hlast].
  by apply (Hb (j, v) (jl, vl)); [|left].
Qed.

Lemma deque_step e w vals d (x : F) :
  1 <= w -> numbers (vals ++ [x]) -> (Z.of_nat (length vals) <= u64_max)%Z -> deque_inv e w vals d ->
  let i := Z.of_nat (length vals) in
  deque_inv e w (vals ++ [x])
    (RollingExtremeStream.drop_stale (Z.of_nat w) i
       (rev (RollingExtremeStream.drop_dominated e x (rev d)) ++ [(i, x)])).
Proof.
  intros Hw Hn Hlen Hd i. pose proof (pushed_sorted e w vals d x Hn Hd) as Hsort.
  destruct Hd as [Hent Hs Hcov]. destruct (drop_dominated_spec e x d) as (d2 & Hd & Hdom & _).
  cbv zeta in Hsort. fold i in Hsort. set (keep := rev _) in *. clearbody keep.
  assert (Hent1 : forall j v, (j, v) ∈ keep ++ [(i, x)] ->
    (0 <= j <= i)%Z /\ (vals ++ [x]) !! Z.to_nat j = Some v).
  { intros j v [Hj|[= -> ->]%list_elem_of_singleton]%elem_of_app.
    - destruct (Hent j v) as (H0' & Hv & _); [set_solver|]. pose proof (lookup_lt_Some _ _ _ Hv).
      split; [lia|]. by rewrite lookup_app_l.
    - split; [lia|]. unfold i. by rewrite Nat2Z.id, lookup_app_r, Nat.sub_diag by lia. }
  destruct (drop_stale_spec (Z.of_nat w) i (keep ++ [(i, x)])) as (d1 & Hd1 & Hst & Hfr).
  { clear -Hsort. induction Hsort as [|a l ? ? Ha]; constructor; [done|].
    eapply Forall_impl; [exact Ha|]. by intros ? []. }
  { apply Forall_forall. intros [j v] Hj. by apply (Hent1 j v). }
  { done. }
  set (d' := RollingExtremeStream.drop_stale _ _ _) in *. clearbody d'.
  rewrite Forall_forall in Hst, Hfr, Hdom.
  assert (Hin : forall j v, (j, v) ∈ keep ++ [(i, x)] -> (i - j < Z.of_nat w)%Z -> (j, v) ∈ d').
  { intros j v Hj Hlt. rewrite Hd1 in Hj. apply elem_of_app in Hj as [Hj|?]; [|done].
    specialize (Hst _ Hj). simpl in Hst. lia. }
  assert (Hxin : (i, x) ∈ d') by (apply Hin; [set_solver|lia]).
  split.
  - intros j v Hj. destruct (Hent1 j v) as [Hji Hv]; [rewrite Hd1; set_solver|].
    specialize (Hfr _ Hj). simpl in Hfr. split; [lia|]. split; [done|]. rewrite length_app. simpl. lia.
  - rewrite Hd1 in Hsort. by apply StronglySorted_split in Hsort as (_ & _ & ?).
  - intros j y Hy Hj. rewrite length_app in Hj. simpl in Hj.
    assert (Hold : forall y', better e x y' = true -> j <= Z.to_nat i -> exists i' v', (i', v') ∈ d' /\
      j <= Z.to_nat i' /\ better e v' y' = true) by (intros y' ? ?; by exists i, x).
    apply Forall_app in Hn as [_ Hx%Forall_inv].
    destruct (decide (j < length vals)) as [Hlt|Hge].
    + rewrite lookup_app_l in Hy by done. destruct (Hcov j y Hy ltac:(lia)) as (i' & v & Hv & Hji & Hb).
      rewrite Hd in Hv. apply elem_of_app in Hv as [Hv|Hv].
      * destruct (Hent1 i' v) as [? _]; [set_solver|]. exists i', v. split; [|done]. apply Hin; [set_solver|lia].
      * apply Hold; [|lia]. eapply better_trans; [|exact Hb]. exact (Hdom _ Hv).
    + pose proof (lookup_lt_Some _ _ _ Hy) as Hl. rewrite length_app in Hl. simpl in Hl.
      assert (j = length vals) as -> by lia. rewrite lookup_app_r, Nat.sub_diag in Hy by lia. simplify_eq/=.
      apply Hold; [by apply better_refl|lia].
Qed.

Lemma deque_front e w vals d :
  1 <= w -> numbers vals -> vals <> [] -> deque_inv e w vals d ->
  exists i v d', d = (i, v) :: d' /\ extreme_of e (drop (length vals - w) vals) v.
Proof.
  intros Hw Hn Hne [Hent Hs Hcov]. rewrite Forall_forall in Hn.
  assert (Hl : 0 < length vals) by (destruct vals; simpl; [done|lia]).
  destruct (lookup_lt_is_Some_2 vals (length vals - 1) ltac:(lia)) as [y Hy].
  destruct (Hcov _ y Hy ltac:(lia)) as (i0 & v0 & H0' & _). destruct d as [|[i v] d]; [by apply not_elem_of_nil in H0'|].
  exists i, v, d. split; [done|]. destruct (Hent i v ltac:(by left)) as (Hi & Hv & Hin). split.
  - apply list_elem_of_lookup. exists (Z.to_nat i - (length vals - w)).
    rewrite lookup_drop. by replace (_ + _) with (Z.to_nat i) by lia.
  - intros z Hz. apply list_elem_of_lookup in Hz as [k Hk]. rewrite lookup_drop in Hk.
    destruct (Hcov _ z Hk ltac:(lia)) as (i' & v' & Hin' & _ & Hb).
    apply StronglySorted_inv in Hs as [_ Ha]. rewrite Forall_forall in Ha.
    apply elem_of_cons in Hin' as [[= -> ->]|Hin']; [done|].
    eapply better_trans; [exact (proj2 (Ha _ Hin'))|done].
Qed.
(** ** The three nodes *)

Context {T : Type} `{ToPrimitive T F}.

Definition values (cs : list (GraphState * T)) : list F := (fun c => sample c.2) <$> cs.
Definition is_number (up : T) : Prop := is_nan (sample (F:=F) up) = false.

Lemma values_samples cs : map fst (samples cs) = values cs.
Proof. unfold samples, values. by rewrite <-list_fmap_compose. Qed.

Lemma values_snoc cs c : values (cs ++ [c]) = values cs ++ [sample c.2].
Proof. unfold values. by rewrite fmap_app. Qed.

(** What [min] or [max] has to emit after the calls [cs]. *)
Definition extreme_after (e : Extreme) (window : Window) (cs : list (GraphState * T)) (v : F) : Prop :=
  exists c, last cs = Some c /\
    extreme_of e (map fst (retained window (time c.1) (samples cs))) v.

Definition deque_node (e : Extreme) (n : nat) (cs : list (GraphState * T))
    (s : RollingExtremeStream.RollingExtremeStream F) : Prop :=
  RollingExtremeStream.extreme s = e /\ RollingExtremeStream.window s = Z.of_nat (Nat.max n 1) /\
  RollingExtremeStream.index s = Z.of_nat (length cs) /\ numbers (values cs) /\
  deque_inv e (Nat.max n 1) (values cs) (RollingExtremeStream.deque s).

Lemma deque_cycle e n cs c s :
  is_number c.2 -> (Z.of_nat (length cs) < u64_max)%Z -> deque_node e n cs s ->
  exists s' g', RollingExtremeStream.cycle c.2 (s, c.1) = (Ok true, (s', g')) /\
    deque_node e n (cs ++ [c]) s' /\
    extreme_after e (Window.Count n) (cs ++ [c]) (RollingExtremeStream.value s').
Proof.
  intros Hc Hlen (He & Hw & Hi & Hn & Hd).
  assert (Hl : length (values cs) = length cs) by apply length_fmap.
  assert (Hn' : numbers (values cs ++ [sample c.2])) by (apply Forall_app; split; [done|by constructor]).
  pose proof (deque_step e (Nat.max n 1) (values cs) _ (sample c.2) ltac:(lia) Hn' ltac:(lia) Hd) as Hd'.
  cbv zeta in Hd'. rewrite Hl in Hd'.
  destruct (deque_front e (Nat.max n 1) _ _ ltac:(lia) Hn' ltac:(by destruct (values cs)) Hd')
    as (i & v & d' & Hfront & Hv).
  unfold RollingExtremeStream.cycle, mbind, get_self, put_self, mreturn. simpl.
  rewrite He, Hw, Hi, Hfront. do 2 eexists. split; [done|]. rewrite <-values_snoc in *. split.
  - unfold deque_node. simpl. rewrite <-Hfront. split_and!; [done..| |done|done].
    rewrite length_app, wrap_u64_small by (unfold is_u64; lia). simpl. lia.
  - exists c. split; [by rewrite last_snoc|]. simpl.
    rewrite <-skipn_map, values_samples. unfold samples. rewrite length_fmap.
    by rewrite <-(length_fmap (fun c => sample c.2)).
Qed.

Lemma held_values window cs c :
  numbers (values cs) -> is_number c.2 -> numbers (map fst (held window (cs ++ [c]))).
Proof.
  intros Hn Hc. rewrite held_after.
  assert (Hall : numbers (values (cs ++ [c]))).
  { rewrite values_snoc. apply Forall_app. split; [done|by constructor]. }
  rewrite <-values_samples in Hall. eapply sublist_Forall; [|exact Hall].
  apply (fmap_sublist fst), retained_sublist.
Qed.

Lemma window_extreme_cycle e window cs c s :
  let stat := match e with Min => WindowMin | Max => WindowMax end in
  window_ok window -> clocked (cs ++ [c]) -> is_number c.2 ->
  window_node stat Weighting.Count window cs s /\ numbers (values cs) ->
  exists s' g', StatWindow.cycle c.2 (s, c.1) = (Ok true, (s', g')) /\
    (window_node stat Weighting.Count window (cs ++ [c]) s' /\ numbers (values (cs ++ [c]))) /\
    extreme_after e window (cs ++ [c]) (StatWindow.value s').
Proof.
  intros stat Hw Hcl Hc [Hs Hn]. pose proof (held_newest window cs c Hw) as Hne.
  pose proof (held_values window cs c Hn Hc) as Hh.
  destruct (window_cycle stat Weighting.Count window cs c s
    (foldl (pick e) (worst e) (map fst (held window (cs ++ [c])))) Hw Hcl Hs) as (s' & g' & Hrun & Hs' & Hv).
  { unfold stat, StatWindow.compute. destruct (held window (cs ++ [c])); [done|]. by destruct e. }
  exists s', g'. split; [done|]. split; [split; [done|]|].
  - rewrite values_snoc. apply Forall_app. split; [done|by constructor].
  - exists c. split; [by rewrite last_snoc|]. rewrite Hv, <-held_after. apply extreme_scan; [done|].
    by destruct (held window (cs ++ [c])).
Qed.

Lemma cumulative_extreme_cycle e cs c s :
  let stat := match e with Min => CumulativeMin | Max => CumulativeMax end in
  let good := fun l v => numbers l /\ extreme_of e l v in
  is_number c.2 -> cumulative_node stat good cs s ->
  exists s' g', CumulativeStream.cycle c.2 (s, c.1) = (Ok true, (s', g')) /\
    cumulative_node stat good (cs ++ [c]) s' /\
    extreme_after e Window.Unbounded (cs ++ [c]) (CumulativeStream.value s').
Proof.
  intros stat good Hc Hs.
  destruct (cumulative_cycle stat good cs c s) as (s' & g' & Hrun & Hs' & Hv); [| |done|].
  - split; [by constructor|by apply extreme_one].
  - intros l a [Hl Ha]. split; [apply Forall_app; split; [done|by constructor]|].
    assert (cumulative_op stat a (sample c.2) = pick e a (sample c.2)) as -> by by destruct e.
    by apply extreme_snoc.
  - exists s', g'. split; [done|]. split; [done|]. exists c. split; [by rewrite last_snoc|]. apply Hv.
Qed.
End facts.

(** ** The property *)

(** C21: at every call [min] (or [max]) emits a sample of the window that no other
    sample of the window undercuts (or exceeds), provided no sample is a NaN. This
    is so of the numbers the program computes with, whichever of the three
    implementations the window selects. *)
Theorem extreme_correct {F T} `{NumOrder F, Exp F, ToPrimitive T F} up e window (cs : list (GraphState * T)) :
  window_ok window -> clocked cs -> (Z.of_nat (length cs) <= u64_max)%Z ->
  Forall (fun c => is_number c.2) cs ->
  exists out s',
    drive StatStream.cycle StatStream.peek_value cs
      (match e with Min => StatStream.min up window | Max => StatStream.max up window end) = (Ok out, s') /\
    each_call (extreme_after e window) cs out.
Proof.
  intros Hw Hcl Hlen Hn. destruct window as [n|d|].
  - destruct (drive_each RollingExtremeStream.cycle RollingExtremeStream.value is_number (deque_node e n)
      (extreme_after e (Window.Count n)) cs (RollingExtremeStream.new up e n)) as (out & s' & Hd & Hout);
      [done..| | |].
    + split_and!; [done..|constructor|]. split; [|constructor|done]. intros i v Hi. by apply not_elem_of_nil in Hi.
    + intros cs' c s _ Hc Hl Hs. by apply deque_cycle.
    + exists out, (StatStream.OfRollingExtreme s'). split; [|done].
      destruct e; simpl; (erewrite (drive_wrap RollingExtremeStream.cycle RollingExtremeStream.value);
        [by rewrite Hd|done|done]).
  - set (stat := match e with Min => WindowMin | Max => WindowMax end).
    destruct (drive_each StatWindow.cycle StatWindow.value is_number
      (fun cs s => window_node stat Weighting.Count (Window.Time d) cs s /\ Forall (fun x => is_nan x = false) (values cs))
      (extreme_after e (Window.Time d)) cs (StatWindow.new up stat Weighting.Count (Window.Time d)))
      as (out & s' & Hd & Hout); [done..| | |].
    + split; [by split_and!|constructor].
    + intros cs' c s Hc Hk Hl Hs. by apply window_extreme_cycle.
    + exists out, (StatStream.OfWindow s'). split; [|done]. subst stat.
      destruct e; simpl; (erewrite (drive_wrap StatWindow.cycle StatWindow.value); [by rewrite Hd|done|done]).
  - set (stat := match e with Min => CumulativeMin | Max => CumulativeMax end).
    destruct (drive_each CumulativeStream.cycle CumulativeStream.value is_number
      (cumulative_node stat (fun l v => Forall (fun x => is_nan x = false) l /\ extreme_of e l v))
      (extreme_after e Window.Unbounded) cs (CumulativeStream.new up stat)) as (out & s' & Hd & Hout); [done..| | |].
    + by split_and!.
    + intros cs' c s _ Hk Hl Hs. by apply cumulative_extreme_cycle.
    + exists out, (StatStream.OfCumulative s'). split; [|done]. subst stat.
      destruct e; simpl; (erewrite (drive_wrap CumulativeStream.cycle CumulativeStream.value); [by rewrite Hd|done|done]).
Qed.

(** The minimum of the last two of 3, 1, 2, 5; no exponential is involved. *)
Lemma extreme_correct_witness :
  let exp := Build_Exp f64 (fun x => x) zero in
  let cs := calls_at [(100, 3); (200, 1); (300, 2); (400, 5)]%Z in
  exists out s', drive StatStream.cycle StatStream.peek_value cs
      (StatStream.min (F:=f64) 1 (Window.Count 2)) = (Ok out, s') /\
    out = [(100, of_Z 3); (200, of_Z 1); (300, of_Z 1); (400, of_Z 2)]%Z /\
    each_call (extreme_after Min (Window.Count 2)) cs out.
Proof.
  intros exp cs. destruct (extreme_correct (F:=f64) 1 Min (Window.Count 2) cs) as (out & s' & Hd & Hout).
  - done.
  - clocked.
  - done.
  - repeat constructor.
  - exists out, s'. split; [exact Hd|]. split; [|exact Hout]. vm_compute in Hd. injection Hd as <- _. reflexivity.
Defined.
