(* ===== verification/SumProps.v ===== *)
(** * Sums and exponentially weighted averages

    [sum_correct] and [ewma_correct]: what [sum] and [ewma] emit in exact
    arithmetic. [rolling_sum_poisoned]: what one sample that is not a number does
    to a rolling sum of floating-point numbers. *)
From S2P Require Import Prelude NanoTime TimeQueue GraphState NodeCalls Float Statistics StatFacts ExtremeProps.
From Stdlib Require Import Floats.SpecFloat Reals Lra.

Section sum.
Context {T : Type} `{ToPrimitive T R}.

(** What [sum] has to emit after the calls [cs]. *)
Definition sum_after (window : Window) (cs : list (GraphState * T)) (v : R) : Prop :=
  exists c, last cs = Some c /\ v = Rsum (map fst (retained window (time c.1) (samples cs))).

(** The last [m] of a list, and what the next element changes. *)
Definition lastn {A} (m : nat) (l : list A) : list A := drop (length l - m) l.

Lemma lastn_snoc {A} m (l : list A) x :
  1 <= m ->
  lastn m (l ++ [x]) =
    if m <? length (lastn m l ++ [x]) then drop 1 (lastn m l ++ [x]) else lastn m l ++ [x].
Proof.
  intros Hm. unfold lastn. rewrite !length_app, length_drop. simpl.
  destruct (Nat.ltb_spec m (length l - (length l - m) + 1)).
  - rewrite !drop_app_le by (rewrite ?length_drop; lia). rewrite drop_drop. f_equal. f_equal. lia.
  - rewrite drop_app_le by lia. f_equal. f_equal. lia.
Qed.

Definition rolling_sum (n : nat) (cs : list (GraphState * T)) (s : RollingSumStream.RollingSumStream R) : Prop :=
  RollingSumStream.window s = Nat.max n 1 /\
  RollingSumStream.buffer s = lastn (Nat.max n 1) (values cs) /\
  RollingSumStream.sum s = Rsum (RollingSumStream.buffer s).

Lemma rolling_sum_cycle n cs c s :
  rolling_sum n cs s ->
  exists s' g', RollingSumStream.cycle c.2 (s, c.1) = (Ok true, (s', g')) /\
    rolling_sum n (cs ++ [c]) s' /\ sum_after (Window.Count n) (cs ++ [c]) (RollingSumStream.value s').
Proof.
  intros (Hw & Hbuf & Hsum). pose proof (lastn_snoc (Nat.max n 1) (values cs) (sample c.2) ltac:(lia)) as Hl.
  rewrite <-Hbuf, <-values_snoc in Hl. set (full := RollingSumStream.buffer s ++ [sample c.2]) in *.
  assert (Hfull : (RollingSumStream.sum s + sample c.2)%R = Rsum full).
  { unfold full. rewrite Hsum, Rsum_app. simpl. lra. }
  assert (Hspec : sum_after (Window.Count n) (cs ++ [c]) (Rsum (lastn (Nat.max n 1) (values (cs ++ [c]))))).
  { exists c. split; [by rewrite last_snoc|]. f_equal. simpl.
    rewrite <-skipn_map, values_samples. unfold lastn, samples, values. by rewrite !length_fmap. }
  unfold RollingSumStream.cycle, mbind, get_self, put_self, mreturn. simpl. fold full. rewrite Hw, Hfull.
  destruct (Nat.max n 1 <? length full) eqn:E.
  - destruct full as [|oldest rest] eqn:Ef; [done|]. do 2 eexists. split; [done|]. simpl in Hl. rewrite drop_0 in Hl.
    assert (Hr : (Rsum (oldest :: rest) - oldest)%R = Rsum rest) by (simpl; lra).
    unfold rolling_sum. cbn [RollingSumStream.window RollingSumStream.buffer RollingSumStream.sum RollingSumStream.value].
    rewrite Hr, <-Hl. by split_and!.
  - do 2 eexists. split; [done|].
    unfold rolling_sum. cbn [RollingSumStream.window RollingSumStream.buffer RollingSumStream.sum RollingSumStream.value].
    rewrite <-Hl. by split_and!.
Qed.
End sum.

(** In exact arithmetic [sum] emits, at every call, the sum of the samples
    its window retains, whichever of the three implementations the window selects. *)
Theorem sum_correct {T} `{ToPrimitive T R} up window (cs : list (GraphState * T)) :
  window_ok window -> clocked cs -> (Z.of_nat (length cs) <= u64_max)%Z ->
  exists out s',
    drive StatStream.cycle StatStream.peek_value cs (StatStream.sum (F:=R) up window) = (Ok out, s') /\
    each_call (sum_after window) cs out.
Proof.
  intros Hw Hcl Hlen. assert (Hok : Forall (fun c : GraphState * T => True) cs) by by apply Forall_true.
  destruct window as [n|d|]; simpl.
  - destruct (drive_each RollingSumStream.cycle RollingSumStream.value (fun _ => True) (rolling_sum n)
      (sum_after (Window.Count n)) cs (RollingSumStream.new up n)) as (out & s' & Hd & Hout); [done..| | |].
    + by split_and!.
    + intros cs' c s _ _ _. apply rolling_sum_cycle.
    + exists out, (StatStream.OfRollingSum s'). split; [|done].
      erewrite (drive_wrap RollingSumStream.cycle RollingSumStream.value); [by rewrite Hd|done|done].
  - destruct (drive_each StatWindow.cycle StatWindow.value (fun _ => True)
      (window_node WindowSum Weighting.Count (Window.Time d)) (sum_after (Window.Time d)) cs
      (StatWindow.new up WindowSum Weighting.Count (Window.Time d))) as (out & s' & Hd & Hout); [done..| | |].
    + by split_and!.
    + intros cs' c s Hc _ _ Hs. pose proof (held_newest (Window.Time d) cs' c Hw) as Hne.
      destruct (window_cycle WindowSum Weighting.Count (Window.Time d) cs' c s
        (Rsum (map fst (held (Window.Time d) (cs' ++ [c])))) Hw Hc Hs) as (s' & g' & Hrun & Hs' & Hv).
      { unfold StatWindow.compute. destruct (held _ _); [done|]. by rewrite fsum_R. }
      exists s', g'. split; [done|]. split; [done|]. exists c. by rewrite last_snoc, Hv, held_after.
    + exists out, (StatStream.OfWindow s'). split; [|done].
      erewrite (drive_wrap StatWindow.cycle StatWindow.value); [by rewrite Hd|done|done].
  - destruct (drive_each CumulativeStream.cycle CumulativeStream.value (fun _ => True)
      (cumulative_node CumulativeSum (fun l v => v = Rsum l)) (sum_after Window.Unbounded) cs
      (CumulativeStream.new up CumulativeSum)) as (out & s' & Hd & Hout); [done..| | |].
    + by split_and!.
    + intros cs' c s _ _ _ Hs.
      destruct (cumulative_cycle CumulativeSum (fun l v => v = Rsum l) cs' c s) as (s' & g' & Hrun & Hs' & Hv);
        [simpl; lra|intros l a ->; rewrite Rsum_app; simpl; lra|done|].
      exists s', g'. split; [done|]. split; [done|]. exists c. by rewrite last_snoc.
    + exists out, (StatStream.OfCumulative s'). split; [|done].
      erewrite (drive_wrap CumulativeStream.cycle CumulativeStream.value); [by rewrite Hd|done|done].
Qed.

(** ** A rolling sum of floating-point numbers *)

Section poison.
Context {T : Type} `{ToPrimitive T f64}.

Definition bad (c : GraphState * T) : Prop := sample (F:=f64) c.2 = S754_nan.

Lemma rolling_sum_bad n (cs : list (GraphState * T)) c (s : RollingSumStream.RollingSumStream f64) :
  RollingSumStream.window s = Nat.max n 1 /\ (Exists bad cs -> RollingSumStream.sum s = (nan : f64)) ->
  exists s' g', RollingSumStream.cycle (F:=f64) c.2 (s, c.1) = (Ok true, (s', g')) /\
    (RollingSumStream.window s' = Nat.max n 1 /\
     (Exists bad (cs ++ [c]) -> RollingSumStream.sum s' = (nan : f64))) /\
    (Exists bad (cs ++ [c]) -> RollingSumStream.value s' = (nan : f64)).
Proof.
  intros [Hw Hsum]. unfold RollingSumStream.cycle, mbind, get_self, put_self, mreturn. simpl.
  set (full := RollingSumStream.buffer s ++ [sample (F:=f64) c.2]).
  assert (Hadd : Exists bad (cs ++ [c]) -> SFadd 53 1024 (RollingSumStream.sum s) (sample (F:=f64) c.2) = S754_nan).
  { intros [He|Hc]%Exists_app; [by rewrite Hsum|]. inversion Hc as [? ? Hb|? ? Hx]; [|by inversion Hx]. unfold bad in Hb.
    rewrite Hb. by destruct (RollingSumStream.sum s). }
  rewrite Hw. destruct (Nat.max n 1 <? length full).
  - destruct full as [|oldest rest] eqn:E; [by destruct (RollingSumStream.buffer s)|].
    do 2 eexists. split; [done|]. simpl. split; [split; [done|]|]; intros Hx; by rewrite Hadd.
  - do 2 eexists. split; [done|]. simpl. split; [split; [done|]|]; intros Hx; by rewrite Hadd.
Qed.
End poison.

(** Once one sample is not a number, a rolling sum over the last [n] samples
    is NaN for ever, long after that sample has left the window: the running total
    cannot be corrected by a subtraction. *)
Theorem rolling_sum_poisoned {T} `{ToPrimitive T f64, Exp f64} up n j cj (cs : list (GraphState * T)) :
  clocked cs -> (Z.of_nat (length cs) <= u64_max)%Z ->
  cs !! j = Some cj -> sample (F:=f64) cj.2 = nan ->
  exists out s',
    drive StatStream.cycle StatStream.peek_value cs (StatStream.sum (F:=f64) up (Window.Count n)) = (Ok out, s') /\
    length out = length cs /\
    forall k c, j <= k -> cs !! k = Some c -> out !! k = Some (time c.1, nan).
Proof.
  intros Hcl Hlen Hj Hnan.
  destruct (drive_each RollingSumStream.cycle RollingSumStream.value (fun _ => True)
    (fun cs s => RollingSumStream.window s = Nat.max n 1 /\ (Exists bad cs -> RollingSumStream.sum s = (nan : f64)))
    (fun cs v => Exists bad cs -> v = (nan : f64)) cs (RollingSumStream.new (F:=f64) up n))
    as (out & s' & Hd & Hlo & Hout); [done|done|by apply Forall_true| | |].
  - split; [done|]. intros Hx. by inversion Hx.
  - intros cs' c s _ _ _. apply rolling_sum_bad.
  - exists out, (StatStream.OfRollingSum s'). split; [|split; [done|]].
    + simpl. erewrite (drive_wrap RollingSumStream.cycle RollingSumStream.value); [by rewrite Hd|done|done].
    + intros k c Hjk Hk. destruct (Hout k c Hk) as (v & -> & Hv). rewrite Hv; [done|].
      apply Exists_exists. exists cj. split; [|done]. apply (list_elem_of_lookup_2 _ j). by rewrite lookup_take_lt by lia.
Qed.

(** ** Exponentially weighted averages *)

(** The sum of the values, each times the growth of its weight over its predecessor's. *)
Fixpoint blend (prev : R) (l : list (R * R)) : R :=
  match l with
  | [] => 0%R
  | (x, d) :: l' => ((d - prev) * x + blend d l')%R
  end.

Definition scale (r : R) (l : list (R * R)) : list (R * R) := map (fun p => (p.1, r * p.2)%R) l.

(** What of the weight of the past is left when a call comes at [now] after one at [prev]. *)
Definition keeps (span : EwmaSpan R) (dt : Z) : R :=
  match span with
  | SpanPerTick alpha => (1 - alpha)%R
  | SpanHalfLife h => Rpower 2 (- (IZR dt / IZR (as_nanos h)))
  end.

(** The weight a sample has after [age] further ticks and [dt] nanoseconds. *)
Definition aged (span : EwmaSpan R) (age : nat) (dt : Z) : R :=
  match span with
  | SpanPerTick alpha => ((1 - alpha) ^ age)%R
  | SpanHalfLife h => Rpower 2 (- (IZR dt / IZR (as_nanos h)))
  end.
Definition weights (span : EwmaSpan R) (now : Z) (l : list (R * Z)) : list (R * R) :=
  imap (fun i p => (p.1, aged span (length l - S i) (now - p.2))) l.

Lemma blend_scale r p l : blend (r * p) (scale r l) = (r * blend p l)%R.
Proof. revert p. induction l as [|[x d] l IH]; intros p; simpl; [lra|]. rewrite IH. lra. Qed.

Lemma blend_snoc p l x d :
  blend p (l ++ [(x, d)]) = (blend p l + (d - from_option snd p (last l)) * x)%R.
Proof.
  revert p. induction l as [|[y e] l IH]; intros p; simpl blend; [simpl; lra|].
  rewrite IH, last_cons. destruct (last l) as [[y' e']|]; simpl; lra.
Qed.

(** The weights of the past shrink by [keeps] when a call comes. *)
Lemma weights_snoc span l x now prev :
  (match span with SpanHalfLife h => 0 < as_nanos h | _ => True end)%Z ->
  weights span now (l ++ [(x, now)]) =
  scale (keeps span (now - prev)) (weights span prev l) ++ [(x, 1%R)].
Proof.
  intros Hpos. unfold weights. rewrite imap_app. f_equal.
  - rewrite length_app. unfold scale.
    change (map ?f ?k) with (f <$> k). rewrite fmap_imap. apply imap_ext. intros i [y t] Hi. simpl.
    pose proof (lookup_lt_Some _ _ _ Hi). f_equal. destruct span as [alpha|h]; simpl.
    + by replace (length l + 1 - S i) with (S (length l - S i)) by lia.
    + rewrite <-Rpower_plus. f_equal. rewrite !minus_IZR. field. apply not_0_IZR. lia.
  - simpl. rewrite Nat.add_0_r, length_app. simpl. replace (length l + 1 - S (length l)) with 0 by lia.
    rewrite Z.sub_diag. do 2 f_equal. destruct span; simpl; [done|].
    unfold Rdiv. rewrite Rmult_0_l, Ropp_0. apply Rpower_O. lra.
Qed.

Section ewma.
Context {T : Type} `{ToPrimitive T R}.

(** What [ewma] has to emit after the calls [cs]: the average of all samples so
    far with their weights. *)
Definition ewma_after (span : EwmaSpan R) (cs : list (GraphState * T)) (v : R) : Prop :=
  exists c, last cs = Some c /\ v = blend 0 (weights span (time c.1) (samples cs)).

Definition span_ok (span : EwmaSpan R) : Prop :=
  match span with SpanHalfLife h => 0 < as_nanos h | SpanPerTick _ => True end%Z.

Definition ewma_node (span : EwmaSpan R) (cs : list (GraphState * T)) (s : EwmaStream.EwmaStream R) : Prop :=
  EwmaStream.decay s = match span with
                       | SpanPerTick alpha => PerTick alpha
                       | SpanHalfLife h => HalfLife (IZR (as_nanos h))
                       end /\
  EwmaStream.initialised s = negb (bool_decide (cs = [])) /\
  (cs <> [] -> ewma_after span cs (EwmaStream.value s) /\
    (forall h, span = SpanHalfLife h -> EwmaStream.last_time s = (fun c => time c.1) <$> last cs)).

(** One more sample moves the average towards it. *)
Lemma blend_step span l x now prev :
  span_ok span -> (forall p, last (weights span prev l) = Some p -> p.2 = 1%R) -> l <> [] ->
  blend 0 (weights span now (l ++ [(x, now)])) =
  (blend 0 (weights span prev l) +
   (1 - keeps span (now - prev)) * (x - blend 0 (weights span prev l)))%R.
Proof.
  intros Hs Hlast Hne. rewrite (weights_snoc span l x now prev Hs), blend_snoc.
  pose proof (blend_scale (keeps span (now - prev)) 0 (weights span prev l)) as Hb.
  rewrite Rmult_0_r in Hb. rewrite Hb.
  assert (Hl : last (scale (keeps span (now - prev)) (weights span prev l)) =
    (fun p => (p.1, keeps span (now - prev) * p.2)%R) <$> last (weights span prev l)) by apply fmap_last.
  rewrite Hl. destruct (last (weights span prev l)) as [p|] eqn:E.
  - simpl. rewrite (Hlast p eq_refl). lra.
  - apply last_None in E. apply (f_equal length) in E. unfold weights in E. rewrite length_imap in E. by destruct l.
Qed.

Lemma weights_now span l x now :
  span_ok span -> last (weights span now (l ++ [(x, now)])) = Some (x, 1%R).
Proof. intros Hs. by rewrite (weights_snoc span l x now now Hs), last_snoc. Qed.

Lemma half_life_keeps h now prev :
  (0 < as_nanos h)%Z -> (0 <= prev <= now)%Z -> (now <= u64_max)%Z ->
  EwmaStream.half_life_alpha (IZR (as_nanos h)) now prev = (1 - keeps (SpanHalfLife h) (now - prev))%R.
Proof.
  intros Hh Hle Hmax. unfold EwmaStream.half_life_alpha, zero, one. simpl.
  rewrite (proj2 (R_fle_false _ _)) by by apply IZR_lt.
  unfold NanoTime.sub. rewrite wrap_u64_small by (unfold is_u64; lia). by rewrite Rminus_0_l.
Qed.

Lemma ewma_cycle span cs c s :
  span_ok span -> clocked (cs ++ [c]) -> ewma_node span cs s ->
  exists s' g', EwmaStream.cycle c.2 (s, c.1) = (Ok true, (s', g')) /\
    ewma_node span (cs ++ [c]) s' /\ ewma_after span (cs ++ [c]) (EwmaStream.value s').
Proof.
  intros Hs Hcl (Hdec & Hinit & Hval).
  unfold EwmaStream.cycle, mbind, get_self, graph, put_self, mreturn. simpl. rewrite Hinit, negb_involutive.
  destruct cs as [|c0 cs _] using rev_ind.
  - rewrite bool_decide_eq_true_2 by done. do 2 eexists. split; [done|].
    assert (Ha : ewma_after span ([] ++ [c]) (sample c.2)).
    { exists c. split; [done|]. rewrite (samples_snoc []).
      change (samples []) with (@nil (R * Z)). rewrite (weights_snoc span [] _ _ (time c.1) Hs). simpl. lra. }
    split; [|exact Ha]. split; [exact Hdec|]. by split.
  - rewrite bool_decide_eq_false_2 by by destruct cs.
    destruct (Hval ltac:(by destruct cs)) as [(c1 & Hc1 & Hv) Hlt]. rewrite last_snoc in Hc1, Hlt. simplify_eq.
    destruct (clocked_timed _ _ Hcl) as [[Hsort Hf] Hu]. unfold is_u64 in Hu.
    rewrite (samples_snoc (cs ++ [c1])), (samples_snoc cs) in Hf, Hsort.
    assert (Hle : (0 <= time c1.1 <= time c.1)%Z).
    { rewrite !Forall_app in Hf. destruct Hf as [[_ Hf%Forall_inv] _]. apply Hf. }
    set (v := EwmaStream.value s) in *.
    assert (Ha : ewma_after span ((cs ++ [c1]) ++ [c])
      (v + (1 - keeps span (time c.1 - time c1.1)) * (sample c.2 - v))%R).
    { exists c. split; [by rewrite last_snoc|]. rewrite (samples_snoc (cs ++ [c1])).
      rewrite (blend_step span _ _ _ (time c1.1) Hs), Hv; [done| |by rewrite samples_snoc; destruct (samples cs)].
      intros p. rewrite samples_snoc, weights_now by done. by intros [= <-]. }
    destruct span as [alpha|h]; rewrite Hdec.
    + do 2 eexists. split; [done|]. simpl in Ha |- *. replace (1 - (1 - alpha))%R with alpha in Ha by lra.
      split; [|exact Ha]. split; [simpl; done || exact Hdec|]. split; [simpl; rewrite ?Hinit; by destruct cs|]. by split.
    + rewrite (Hlt h eq_refl). simpl. do 2 eexists. split; [done|].
      rewrite <-half_life_keeps in Ha by (done || lia). split; [|exact Ha].
      split; [simpl; done || exact Hdec|]. split; [simpl; rewrite ?Hinit; by destruct cs|].
      intros _. split; [exact Ha|]. intros h' _. by rewrite last_snoc.
Qed.
End ewma.

(** In exact arithmetic [ewma] emits the weighted average of all samples so
    far in which the weights of the past shrink by [1 - alpha] at each tick, or
    halve with every half-life that passes whatever the tick rate: the weight of a
    sample is [aged] less the predecessor's, and the first keeps all of its own. *)
Theorem ewma_correct {T} `{ToPrimitive T R} up span (cs : list (GraphState * T)) :
  span_ok span -> clocked cs -> (Z.of_nat (length cs) <= u64_max)%Z ->
  exists out s',
    drive StatStream.cycle StatStream.peek_value cs (StatStream.ewma (F:=R) up span) = (Ok out, s') /\
    each_call (ewma_after span) cs out.
Proof.
  intros Hs Hcl Hlen. set (s0 := match StatStream.ewma up span with StatStream.OfEwma s => s | _ => EwmaStream.new up (PerTick 0%R) end).
  destruct (drive_each EwmaStream.cycle EwmaStream.value (fun _ => True) (ewma_node span) (ewma_after span) cs s0)
    as (out & s' & Hd & Hout); [done|done|by apply Forall_true| | |].
  - split; [by destruct span|]. by split.
  - intros cs' c s Hc _ _. by apply ewma_cycle.
  - exists out, (StatStream.OfEwma s'). split; [|done].
    change (StatStream.ewma up span) with (StatStream.OfEwma s0).
    erewrite (drive_wrap EwmaStream.cycle EwmaStream.value); [by rewrite Hd|done|done].
Qed.

(** ** Instances *)

Lemma sum_correct_witness :
  let cs := calls_at [(100, 1); (200, 2); (300, 4)]%Z in
  exists out s', drive StatStream.cycle StatStream.peek_value cs
      (StatStream.sum (F:=R) 1 (Window.Time (from_nanos 100))) = (Ok out, s') /\
    out !! 2 = Some (300%Z, 6%R).
Proof.
  intros cs. destruct (sum_correct 1 (Window.Time (from_nanos 100)) cs) as (out & s' & Hd & _ & Hout).
  - done.
  - clocked.
  - done.
  - exists out, s'. split; [exact Hd|]. destruct (Hout 2 _ eq_refl) as (v & Hv & c & Hc & ->).
    rewrite Hv. cbn in Hc. injection Hc as <-. do 2 f_equal. cbn.
    change (as_nanos (from_nanos 100)) with 100%Z. simpl. lra.
Defined.

(** The bad sample leaves a window of one at the next call. *)
Lemma rolling_sum_poisoned_witness :
  let exp := Build_Exp f64 (fun x => x) zero in
  let cs := calls_at [(100, nan); (200, of_Z 1); (300, of_Z 2)]%Z in
  exists out s', drive StatStream.cycle StatStream.peek_value cs
      (StatStream.sum (F:=f64) 1 (Window.Count 1)) = (Ok out, s') /\ out !! 2 = Some (300%Z, nan).
Proof.
  intros exp cs. destruct (rolling_sum_poisoned 1 1 0 (set_time (GraphState.new (HistoricalFrom 0) Forever 0) 100, nan : f64) cs)
    as (out & s' & Hd & _ & Hout).
  - clocked.
  - done.
  - reflexivity.
  - reflexivity.
  - exists out, s'. split; [exact Hd|]. apply (Hout 2 _ ltac:(lia) eq_refl).
Defined.

Lemma ewma_correct_witness :
  let cs := calls_at [(100, 1); (200, 2); (300, 3)]%Z in
  exists out s', drive StatStream.cycle StatStream.peek_value cs
      (StatStream.ewma (F:=R) 1 (SpanPerTick (1 / 2)%R)) = (Ok out, s') /\
    out !! 2 = Some (300%Z, (9 / 4)%R).
Proof.
  intros cs. destruct (ewma_correct 1 (SpanPerTick (1 / 2)%R) cs) as (out & s' & Hd & _ & Hout).
  - done.
  - clocked.
  - done.
  - exists out, s'. split; [exact Hd|]. destruct (Hout 2 _ eq_refl) as (v & Hv & c & Hc & ->).
    rewrite Hv. cbn in Hc. injection Hc as <-. do 2 f_equal. cbn. lra.
Defined.
