(* ===== verification/MedianProps.v ===== *)
(** * Medians

    [median_correct]: what [median] emits over any window, in exact arithmetic. *)
From S2P Require Import Prelude NanoTime TimeQueue GraphState NodeCalls Float Statistics StatFacts MomentProps.
From Stdlib Require Import Reals Lra.

Local Open Scope R_scope.

(** ** Definitions *)

(** The weight of the values that satisfy [f]. *)
Definition weight (f : R -> bool) (l : list (R * R)) : R := wsum (List.filter (fun p => f p.1) l).

(** The least value with half of the weight at or below it, and the greatest
    with half of the weight at or above it. *)
Definition lower_median (l : list (R * R)) (m : R) : Prop :=
  m ∈ map fst l /\ weight (fun x => flt x m) l < wsum l / 2 <= weight (fun x => fle x m) l.
Definition upper_median (l : list (R * R)) (m : R) : Prop :=
  m ∈ map fst l /\ weight (fun x => flt m x) l < wsum l / 2 <= weight (fun x => fle m x) l.
Definition is_median (l : list (R * R)) (m : R) : Prop :=
  exists lo hi, lower_median l lo /\ upper_median l hi /\ m = (lo + hi) / 2.

(** ** Sorting *)

Lemma insert_by_perm (x : R * R) l : StatWindow.insert_by x l ≡ₚ x :: l.
Proof.
  induction l as [|y l IH]; [done|]. simpl. destruct (R_cmp x.1 y.1); [done..|]. by rewrite IH, Permutation_swap.
Qed.

Lemma sort_by_perm (l : list (R * R)) : StatWindow.sort_by l ≡ₚ l.
Proof. induction l as [|x l IH]; [done|]. simpl. by rewrite insert_by_perm, IH. Qed.

Definition sorted (l : list (R * R)) : Prop := StronglySorted (fun p q => p.1 <= q.1) l.

Lemma insert_by_sorted (x : R * R) l : sorted l -> sorted (StatWindow.insert_by x l).
Proof.
  induction l as [|y l IH]; intros Hs; [by repeat constructor|]. simpl.
  pose proof Hs as [Hs' Ha]%StronglySorted_inv. rewrite Forall_forall in Ha.
  assert (Hle : x.1 <= y.1 -> sorted (x :: y :: l)).
  { intros Hxy. constructor; [done|]. constructor; [done|]. apply Forall_forall. intros z Hz. specialize (Ha z Hz). lra. }
  destruct (R_cmp_spec x.1 y.1); [apply Hle; lra..|].
  constructor; [by apply IH|]. apply Forall_forall. intros z Hz. rewrite insert_by_perm in Hz.
  apply elem_of_cons in Hz as [->|Hz]; [lra|by apply Ha].
Qed.

Lemma sort_by_sorted (l : list (R * R)) : sorted (StatWindow.sort_by l).
Proof. induction l; [constructor|]. simpl. by apply insert_by_sorted. Qed.

(** ** Weights *)

Lemma wsum_app l k : wsum (l ++ k) = wsum l + wsum k.
Proof. unfold wsum. by rewrite map_app, Rsum_app. Qed.

Lemma wsum_perm l k : l ≡ₚ k -> wsum l = wsum k.
Proof. unfold wsum. induction 1; simpl in *; lra. Qed.

Lemma weight_perm f l k : l ≡ₚ k -> weight f l = weight f k.
Proof. intros Hp. by apply wsum_perm, filter_perm. Qed.

Lemma weight_app f l k : weight f (l ++ k) = weight f l + weight f k.
Proof. unfold weight. by rewrite List.filter_app, wsum_app. Qed.

Lemma weight_cons f p l : weight f (p :: l) = (if f p.1 then p.2 else 0) + weight f l.
Proof. unfold weight, wsum. simpl. destruct (f p.1); simpl; lra. Qed.

Lemma weight_bounds f l : weighty l -> 0 <= weight f l <= wsum l.
Proof.
  unfold weight, wsum. induction 1 as [|p l Hp Hl IH]; simpl; [lra|]. destruct (f p.1); simpl; lra.
Qed.

Lemma weight_all f l : Forall (fun p => f p.1 = true) l -> weight f l = wsum l.
Proof. intros Hl. unfold weight. by rewrite filter_all. Qed.

Lemma weight_none f l : Forall (fun p => f p.1 = false) l -> weight f l = 0.
Proof. unfold weight, wsum. induction 1 as [|p l Hp Hl IH]; simpl; [lra|]. by rewrite Hp. Qed.

Lemma median_perm l k m : l ≡ₚ k -> is_median l m -> is_median k m.
Proof.
  intros Hp (lo & hi & [Hlo1 Hlo2] & [Hhi1 Hhi2] & ->). exists lo, hi.
  assert (Hmap : map fst l ≡ₚ map fst k) by by apply Permutation_map.
  unfold lower_median, upper_median. rewrite <-Hmap, <-(wsum_perm _ _ Hp), <-!(weight_perm _ _ _ Hp).
  tauto.
Qed.

(** The weights around a value of a sorted list. *)
Lemma weights_around pre v w post :
  weighty (pre ++ (v, w) :: post) -> sorted (pre ++ (v, w) :: post) ->
  let l := pre ++ (v, w) :: post in
  weight (fun x => flt x v) l <= wsum pre /\ wsum pre + w <= weight (fun x => fle x v) l /\
  weight (fun x => flt v x) l <= wsum post /\ w + wsum post <= weight (fun x => fle v x) l.
Proof.
  intros Hp Hs l. apply Forall_app in Hp as [Hpre [Hw Hpost]%Forall_cons]. simpl in Hw.
  apply StronglySorted_split in Hs as (Hle & _ & Hs). apply StronglySorted_inv in Hs as [_ Hge].
  assert (Hbelow : Forall (fun p => p.1 <= v) pre).
  { apply Forall_forall. intros p Hin. by apply (Hle p (v, w)); [|left]. }
  assert (Habove : Forall (fun p => v <= p.1) post) by exact Hge.
  assert (Hall : forall f k, Forall (fun p => f p.1 = true) k -> wsum k <= weight f k).
  { intros f k Hk. rewrite weight_all by done. lra. }
  assert (Hv : fle v v = true) by (apply R_fle; lra). assert (Hv' : flt v v = false) by (apply R_flt_false; lra).
  unfold l. rewrite !weight_app, !weight_cons. simpl. rewrite Hv, Hv'.
  pose proof (weight_bounds (fun x => flt x v) pre Hpre). pose proof (weight_bounds (fun x => flt v x) post Hpost).
  pose proof (weight_bounds (fun x => fle x v) post Hpost). pose proof (weight_bounds (fun x => fle v x) pre Hpre).
  rewrite (weight_none (fun x => flt x v) post), (weight_none (fun x => flt v x) pre).
  - pose proof (Hall (fun x => fle x v) pre) as Hpre1. pose proof (Hall (fun x => fle v x) post) as Hpost1.
    assert (wsum pre <= weight (fun x => fle x v) pre).
    { apply Hpre1. eapply Forall_impl; [exact Hbelow|]. intros p ?. by apply R_fle. }
    assert (wsum post <= weight (fun x => fle v x) post).
    { apply Hpost1. eapply Forall_impl; [exact Habove|]. intros p ?. by apply R_fle. }
    lra.
  - eapply Forall_impl; [exact Hbelow|]. intros p ?. by apply R_flt_false.
  - eapply Forall_impl; [exact Habove|]. intros p ?. by apply R_flt_false.
Qed.

(** ** The crossing *)

Lemma crossing_median pre post :
  weighty (pre ++ post) -> sorted (pre ++ post) -> wsum pre < wsum (pre ++ post) / 2 ->
  exists m, StatWindow.crossing (wsum (pre ++ post) / 2) (wsum pre) post = Some m /\ is_median (pre ++ post) m.
Proof.
  revert pre. induction post as [|[v w] post IH]; intros pre Hp Hs Hlt.
  { rewrite app_nil_r in *. pose proof (wsum_nonneg pre Hp). lra. }
  pose proof (weights_around pre v w post Hp Hs) as (H1 & H2 & H3 & H4).
  assert (Hin : v ∈ map fst (pre ++ (v, w) :: post)).
  { rewrite map_app. simpl. set_solver. }
  assert (Hw : wsum (pre ++ (v, w) :: post) = wsum pre + w + wsum post).
  { rewrite wsum_app. unfold wsum at 2. simpl. fold (wsum post). lra. }
  assert (Hpost : weighty post) by by apply Forall_app in Hp as [_ [_ ?]%Forall_cons].
  pose proof (wsum_nonneg post Hpost).
  set (half := wsum (pre ++ (v, w) :: post) / 2) in *.
  assert (Hlo : half <= wsum pre + w -> lower_median (pre ++ (v, w) :: post) v).
  { intros ?. split; [done|]. fold half. lra. }
  cbn [StatWindow.crossing]. simpl fadd. destruct (flt half (wsum pre + w)) eqn:E1.
  - apply R_flt in E1. exists v. split; [done|]. exists v, v. split; [apply Hlo; lra|]. split; [|lra].
    split; [done|]. fold half. unfold half in *. lra.
  - apply R_flt_false in E1. destruct (feq (wsum pre + w) half) eqn:E2.
    + apply R_feq in E2. destruct post as [|[v' w'] post].
      { unfold half in E2. rewrite Hw in E2. unfold wsum at 3 in E2. simpl in E2.
        apply Forall_app in Hp as [Hpre [Hw0 _]%Forall_cons]. simpl in Hw0. pose proof (wsum_nonneg pre Hpre). lra. }
      exists ((v + v') / 2). split; [done|]. exists v, v'. split; [apply Hlo; lra|]. split; [|done].
      clear IH. assert (Hassoc : pre ++ (v, w) :: (v', w') :: post = (pre ++ [(v, w)]) ++ (v', w') :: post) by by rewrite <-app_assoc.
      rewrite Hassoc in Hp, Hs. pose proof (weights_around _ v' w' post Hp Hs) as (_ & _ & H5 & H6).
      rewrite <-Hassoc in H5, H6. split; [rewrite map_app; simpl; set_solver|]. fold half.
      assert (Hw1 : wsum ((v', w') :: post) = w' + wsum post) by done. rewrite Hw1 in *.
      apply Forall_cons in Hpost as [Hw' _]. simpl in Hw'. unfold half in *. lra.
    + assert (E3 : wsum pre + w <> half) by (intros E3; apply R_feq in E3; congruence).
      assert (Hassoc : pre ++ (v, w) :: post = (pre ++ [(v, w)]) ++ post) by by rewrite <-app_assoc.
      specialize (IH (pre ++ [(v, w)])). rewrite wsum_snoc, <-Hassoc in IH. simpl in IH. apply IH; [done|done|].
      fold half. lra.
Qed.

Section median.
Context {T : Type} `{ToPrimitive T R}.

(** What [median] has to emit after the calls [cs]. *)
Definition median_after (window : Window) (weighting : Weighting) (cs : list (GraphState * T)) (v : R) : Prop :=
  exists c, last cs = Some c /\
    match contributions weighting (retained window (time c.1) (samples cs)) with
    | [] => v = sample c.2
    | l => is_median l v
    end.

Lemma flt_zero (w : R) : flt zero w = negb (fle w 0).
Proof.
  destruct (fle w 0) eqn:E; simpl; [by apply R_flt_false, R_fle|by apply R_flt, R_fle_false].
Qed.

(** The newest sample, with no time to its successor yet, weighs nothing. *)
Lemma gaps_steps now v l :
  timed now l -> (now <= u64_max)%Z -> last l = Some (v, now) ->
  List.filter (fun p => flt zero p.2) (StatWindow.gaps now l) = heavy (steps l).
Proof.
  intros Ht Hnow. induction l as [|[a t] l IH]; [done|]. intros Hl.
  pose proof Ht as [Hs Hf]. apply Forall_cons in Hf as [Ha Hf]. simpl in Ha.
  destruct l as [|[b t'] l].
  - simpl in Hl. injection Hl as -> ->. cbn [StatWindow.gaps List.filter snd steps].
    unfold NanoTime.sub. rewrite Z.sub_diag, flt_zero. change (wrap_u64 0) with 0%Z. simpl. by rewrite (proj2 (R_fle _ _)) by lra.
  - assert (Ht' : timed now ((b, t') :: l)) by by apply (timed_app _ [(a, t)]).
    specialize (IH Ht' Hl). apply Forall_cons in Hf as [Hb _]. simpl in Hb, Hs.
    apply StronglySorted_inv in Hs as [_ [Hle _]%Forall_cons].
    cbn [StatWindow.gaps]. unfold heavy. cbn [steps List.filter snd]. fold (heavy (steps ((b, t') :: l))).
    unfold NanoTime.sub. rewrite wrap_u64_small by (unfold is_u64; lia).
    rewrite flt_zero. cbn [of_Z R_num]. destruct (negb _); [f_equal|]; exact IH.
Qed.

Lemma weighted_median_correct weighting now v l :
  timed now l -> (now <= u64_max)%Z -> last l = Some (v, now) ->
  exists m, StatWindow.weighted_median weighting now l = Ok m /\
    match contributions weighting l with [] => m = v | l => is_median l m end.
Proof.
  intros Ht Hnow Hl.
  assert (Hpairs : List.filter (fun p => flt zero p.2) (StatWindow.for_each_weight weighting now l) =
    contributions weighting l).
  { destruct weighting; [|by eapply gaps_steps]. apply filter_all, Forall_map, Forall_true. intros p.
    simpl. apply R_flt. unfold zero, one. simpl. lra. }
  unfold StatWindow.weighted_median. rewrite Hpairs.
  pose proof (contributions_positive weighting l) as Hp.
  destruct (contributions weighting l) as [|p k] eqn:E; [rewrite Hl; by exists v|]. rewrite <-E in *.
  set (pairs := contributions weighting l) in *.
  assert (Hperm : StatWindow.sort_by pairs ≡ₚ pairs) by apply sort_by_perm.
  assert (Hsum : wsum (StatWindow.sort_by pairs) = wsum pairs) by by apply wsum_perm.
  assert (Hpos : 0 < wsum pairs) by (apply wsum_pos; [done|by rewrite E]).
  destruct (crossing_median [] (StatWindow.sort_by pairs)) as (m & Hm & Hmed).
  - unfold weighty. by rewrite Hperm.
  - apply sort_by_sorted.
  - simpl. rewrite Hsum. unfold wsum at 1. simpl. lra.
  - exists m. simpl in Hm, Hmed. rewrite fsum_R. unfold wsum in Hm. simpl in Hm |- *.
    unfold zero. simpl. rewrite Hm. split; [done|]. by eapply median_perm.
Qed.

Lemma median_cycle window weighting cs c s :
  window_ok window -> clocked (cs ++ [c]) -> window_node WindowMedian weighting window cs s ->
  exists s' g', StatWindow.cycle c.2 (s, c.1) = (Ok true, (s', g')) /\
    window_node WindowMedian weighting window (cs ++ [c]) s' /\
    median_after window weighting (cs ++ [c]) (StatWindow.value s').
Proof.
  intros Hw Hcl Hs. pose proof (held_newest window cs c Hw) as Hne.
  destruct (clocked_timed cs c Hcl) as [Ht Hu]. unfold is_u64 in Hu.
  destruct (weighted_median_correct weighting (time c.1) (sample c.2) (held window (cs ++ [c])))
    as (m & Hm & Hmed); [|lia|done|].
  { rewrite held_after. eapply timed_sublist; [apply retained_sublist|done]. }
  destruct (window_cycle WindowMedian weighting window cs c s m Hw Hcl Hs) as (s' & g' & Hrun & Hs' & Hv).
  { unfold StatWindow.compute. destruct (held window (cs ++ [c])); [done|exact Hm]. }
  exists s', g'. split; [done|]. split; [done|]. exists c. split; [by rewrite last_snoc|].
  by rewrite Hv, <-held_after.
Qed.
End median.

(** C22: in exact arithmetic [median] emits, at every call, the weighted median of
    the samples its window retains: the mean of the least value with half of the
    weight at or below it and the greatest with half of the weight at or above it. *)
Theorem median_correct {T} `{ToPrimitive T R} up window weighting (cs : list (GraphState * T)) :
  window_ok window -> clocked cs -> (Z.of_nat (length cs) <= u64_max)%Z ->
  exists out s',
    drive StatStream.cycle StatStream.peek_value cs (StatStream.median (F:=R) up window weighting)
      = (Ok out, s') /\
    each_call (median_after window weighting) cs out.
Proof.
  intros Hw Hcl Hlen.
  destruct (drive_each StatWindow.cycle StatWindow.value (fun _ => True)
    (window_node WindowMedian weighting window) (median_after window weighting) cs
    (StatWindow.new up WindowMedian weighting window)) as (out & s' & Hd & Hout); [done..|by apply Forall_true| | |].
  - split_and!; [done..|]. unfold held. by destruct window.
  - intros cs' c s Hc _ _. by apply median_cycle.
  - exists out, (StatStream.OfWindow s'). split; [|done]. unfold StatStream.median.
    erewrite (drive_wrap StatWindow.cycle StatWindow.value); [by rewrite Hd|done|done].
Qed.

(** The last three of four values, weighted by the time each was in effect. *)
Lemma median_correct_witness :
  let cs := calls_at [(100, 1); (200, 2); (400, 4); (500, 3)]%Z in
  exists out s', drive StatStream.cycle StatStream.peek_value cs
      (StatStream.median (F:=R) 1 (Window.Count 3) Weighting.Time) = (Ok out, s') /\
    exists v, out !! 3%nat = Some (500%Z, v) /\ is_median [(2, 200); (4, 100)] v.
Proof.
  intros cs. destruct (median_correct 1 (Window.Count 3) Weighting.Time cs) as (out & s' & Hd & _ & Hout).
  - done.
  - clocked.
  - done.
  - exists out, s'. split; [exact Hd|]. destruct (Hout 3%nat _ eq_refl) as (v & Hv & c & Hc & Hmed).
    exists v. cbn in Hc. injection Hc as <-. split; [exact Hv|].
    assert (Hcon : contributions Weighting.Time (retained (Window.Count 3) 500 (samples cs)) =
      [(2, 200); (4, 100)]).
    { change (heavy [(2, 200); (4, 100)] = [(2, 200); (4, 100)]). apply filter_all.
      repeat constructor; simpl; by rewrite (proj2 (R_fle_false _ _)) by lra. }
    change (match contributions Weighting.Time (retained (Window.Count 3) 500 (samples cs)) with
      | [] => v = sample 3%Z | p :: l => is_median (p :: l) v end) in Hmed. rewrite Hcon in Hmed. exact Hmed.
Defined.
