(* ===== verification/AeronUri.v ===== *)
(** * Aeron channel URIs: [wingfoil/src/adapters/aeron/channel.rs]

    A [&str] is the list of its characters, each its code point. An error is the
    message the source formats, as a constructor with the values it prints.
    [uri_roundtrip]: what the builders accept, and that it can be read back. *)
From S2P Require Import Prelude NanoTime.
From Stdlib Require Import Strings.Ascii.
Local Open Scope Z_scope.

Definition str := list Z.
Definition chars (s : string) : str := map (fun c => Z.of_N (N_of_ascii c)) (String.list_ascii_of_string s).
Definition code (c : ascii) : Z := Z.of_N (N_of_ascii c).

(** ** Strings, as the Standard Library of Rust has them *)

Definition count (c : Z) (s : str) : nat := length (List.filter (Z.eqb c) s).
Definition contains (c : Z) (s : str) : bool := existsb (Z.eqb c) s.

Definition digit (radix c : Z) : option Z :=
  let d := if (48 <=? c) && (c <=? 57) then c - 48
           else if (97 <=? c) && (c <=? 122) then c - 87
           else if (65 <=? c) && (c <=? 90) then c - 55 else radix in
  if d <? radix then Some d else None.

(** [u16::from_str]: an optional [+], then at least one digit, no overflow. *)
Fixpoint u16_digits (acc : Z) (s : str) : option Z :=
  match s with
  | [] => Some acc
  | c :: s' =>
    match digit 10 c with
    | Some d => if acc * 10 + d <? 2 ^ 16 then u16_digits (acc * 10 + d) s' else None
    | None => None
    end
  end.
Definition parse_u16 (s : str) : option Z :=
  let s := match s with c :: (_ :: _) as s' => if c =? code "+" then s' else s | _ => s end in
  match s with [] => None | _ => u16_digits 0 s end.

(** [Ipv6Addr::from_str], which reads from the front of a string: whether an
    address is there, and the rest. *)
Module Ipv6.
(** At most [max] digits below [limit]. *)
Fixpoint digits (radix limit : Z) (max n : nat) (acc : Z) (s : str) : option (nat * str) :=
  match s with
  | c :: s' =>
    match digit radix c with
    | Some d =>
      match max with
      | O => None
      | S max' => if acc * radix + d <? limit then digits radix limit max' (S n) (acc * radix + d) s' else None
      end
    | None => Some (n, s)
    end
  | [] => Some (n, s)
  end.

Definition read_number (radix limit : Z) (max : nat) (allow_zero_prefix : bool) (s : str) : option str :=
  let leading_zero := match s with c :: _ => c =? code "0" | [] => false end in
  match digits radix limit max 0 0 s with
  | Some (n, s') =>
    if (n =? 0)%nat || negb allow_zero_prefix && leading_zero && (1 <? n)%nat then None else Some s'
  | None => None
  end.

Definition read_char (c : Z) (s : str) : option str :=
  match s with x :: s' => if x =? c then Some s' else None | [] => None end.

Definition read_separator (sep : Z) (i : nat) (inner : str -> option str) (s : str) : option str :=
  match (if (0 <? i)%nat then read_char sep s else Some s) with Some s' => inner s' | None => None end.

Definition read_ipv4 (s : str) : option str :=
  let part i s := match s with
    | Some s => read_separator (code ".") i (read_number 10 256 3 false) s
    | None => None
    end in
  part 3%nat (part 2%nat (part 1%nat (part 0%nat (Some s)))).

(** [left] groups remain of which [i] have been read: how many in all, whether
    the last two were an IPv4 address, and the rest. *)
Fixpoint read_groups (left i : nat) (s : str) : nat * bool * str :=
  match left with
  | O => (i, false, s)
  | S left' =>
    match (if (0 <? left')%nat then read_separator (code ":") i read_ipv4 s else None) with
    | Some s' => (i + 2, true, s')%nat
    | None =>
      match read_separator (code ":") i (read_number 16 (2 ^ 16) 4 true) s with
      | Some s' => read_groups left' (S i) s'
      | None => (i, false, s)
      end
    end
  end.

Definition from_str (s : str) : bool :=
  let '(head_size, head_ipv4, s) := read_groups 8 0 s in
  if (head_size =? 8)%nat then match s with [] => true | _ => false end
  else if head_ipv4 then false
  else
    match read_char (code ":") s with
    | Some s =>
      match read_char (code ":") s with
      | Some s =>
        let '(_, _, s) := read_groups (8 - (head_size + 1)) 0 s in
        match s with [] => true | _ => false end
      | None => false
      end
    | None => false
    end.
End Ipv6.

(** ** The validators *)

Inductive UriError :=
| EmptyParam (label : string)
| InvalidChar (label : string) (c : Z)
| MissingBracket (label : string) (value : str)
| MissingPort (label : string) (value : str)
| BadIpv6 (label : string) (host value : str)
| NoColon (label : string) (value : str)
| BareIpv6 (label : string) (value : str)
| StrayBracket (label : string) (value : str)
| EmptyHost (label : string)
| BadPort (label : string) (port : str).

Definition Checked (A : Type) : Type := UriError + A.

Definition URI_ALLOWED_PUNCT : str := chars ":[].-_".
Definition is_ascii_alphanumeric (c : Z) : bool :=
  (48 <=? c) && (c <=? 57) || (65 <=? c) && (c <=? 90) || (97 <=? c) && (c <=? 122).
Definition is_uri_char (c : Z) : bool := is_ascii_alphanumeric c || contains c URI_ALLOWED_PUNCT.

Definition validate_param (label : string) (value : str) : Checked unit :=
  match value with
  | [] => inl (EmptyParam label)
  | _ =>
    match List.find (fun c => negb (is_uri_char c)) value with
    | Some ch => inl (InvalidChar label ch)
    | None => inr tt
    end
  end.

(** The host and the port of a value, if it has the shape of a pair. *)
Definition split_host_port (label : string) (value : str) : Checked (str * str) :=
  match Ipv6.read_char (code "[") value with
  | Some rest =>
    match split_at (code "]") rest with
    | None => inl (MissingBracket label value)
    | Some (host, after) =>
      match Ipv6.read_char (code ":") after with
      | None => inl (MissingPort label value)
      | Some port => if Ipv6.from_str host then inr (host, port) else inl (BadIpv6 label host value)
      end
    end
  | None =>
    match count (code ":") value, split_at (code ":") value with
    | O, _ | _, None => inl (NoColon label value)
    | S O, Some (host, port) =>
      if contains (code "[") host || contains (code "]") host then inl (StrayBracket label value)
      else inr (host, port)
    | S (S _), _ => inl (BareIpv6 label value)
    end
  end.

Definition validate_host_port (label : string) (value : str) : Checked unit :=
  match validate_param label value with
  | inl e => inl e
  | inr _ =>
    match split_host_port label value with
    | inl e => inl e
    | inr (host, port) =>
      match host with
      | [] => inl (EmptyHost label)
      | _ => match parse_u16 port with None => inl (BadPort label port) | Some _ => inr tt end
      end
    end
  end.

(** ** The builders *)

Module ChannelUri.
Definition ipc : str := chars "aeron:ipc".

Definition udp (endpoint : str) : Checked str :=
  match validate_host_port "endpoint" endpoint with
  | inl e => inl e
  | inr _ => inr (chars "aeron:udp?endpoint=" ++ endpoint)
  end.

Definition mdc_publication (control : str) : Checked str :=
  match validate_host_port "control" control with
  | inl e => inl e
  | inr _ => inr (chars "aeron:udp?control=" ++ control ++ chars "|control-mode=dynamic")
  end.

Definition mdc_subscription (endpoint control : str) : Checked str :=
  match validate_host_port "endpoint" endpoint with
  | inl e => inl e
  | inr _ =>
    match validate_host_port "control" control with
    | inl e => inl e
    | inr _ => inr (chars "aeron:udp?endpoint=" ++ endpoint ++ chars "|control=" ++ control
                      ++ chars "|control-mode=dynamic")
    end
  end.
End ChannelUri.

(** ** What is accepted *)

(** A host and a port: an IPv6 address in brackets or a name without colons and
    brackets, and a number below 65536. *)
Definition well_formed (v : str) : Prop :=
  Forall (fun c => is_uri_char c = true) v /\
  exists host port, is_Some (parse_u16 port) /\
    (v = code "[" :: host ++ code "]" :: code ":" :: port /\ Ipv6.from_str host = true /\ code "]" ∉ host \/
     v = host ++ code ":" :: port /\ host <> [] /\
       code ":" ∉ host /\ code "[" ∉ host /\ code "]" ∉ host /\ code ":" ∉ port).

(** Reading a URI back: what precedes the question mark, and its parameters. *)
Fixpoint pieces (c : Z) (fuel : nat) (s : str) : list str :=
  match fuel, split_at c s with
  | S fuel', Some (a, b) => a :: pieces c fuel' b
  | _, _ => [s]
  end.
Definition read_uri (uri : str) : option (str * list (option (str * str))) :=
  match split_at (code "?") uri with
  | Some (scheme, rest) => Some (scheme, map (split_at (code "=")) (pieces (code "|") (length rest) rest))
  | None => None
  end.

Lemma contains_spec c s : contains c s = true <-> c ∈ s.
Proof.
  unfold contains. rewrite existsb_exists. split.
  - intros (x & Hx & <-%Z.eqb_eq). by apply list_elem_of_In.
  - intros Hc. exists c. split; [by apply list_elem_of_In|apply Z.eqb_refl].
Qed.

Lemma count_zero c s : c ∉ s -> count c s = 0%nat.
Proof.
  unfold count. induction s as [|x s IH]; intros Hc; [done|]. apply not_elem_of_cons in Hc as [Hx Hc].
  simpl. rewrite (proj2 (Z.eqb_neq c x)) by done. by apply IH.
Qed.

Lemma count_app c a b : count c (a ++ b) = (count c a + count c b)%nat.
Proof. unfold count. by rewrite List.filter_app, length_app. Qed.

Lemma count_cons_same c b : count c (c :: b) = S (count c b).
Proof. unfold count. simpl. by rewrite Z.eqb_refl. Qed.

Lemma count_pos c s : c ∈ s -> (0 < count c s)%nat.
Proof.
  unfold count. intros Hc. induction s as [|x s IH]; [by apply not_elem_of_nil in Hc|]. simpl.
  destruct (Z.eqb_spec c x); simpl; [lia|]. apply IH. set_solver.
Qed.

Lemma validate_param_spec label v :
  validate_param label v = inr tt <-> v <> [] /\ Forall (fun c => is_uri_char c = true) v.
Proof.
  unfold validate_param. destruct v as [|x v]; [split; [done|by intros []]|].
  destruct (List.find _ (x :: v)) as [ch|] eqn:E.
  - apply find_some in E as [Hin Hch]. split; [done|]. intros [_ Hall]. rewrite Forall_forall in Hall.
    rewrite (Hall ch) in Hch by by apply list_elem_of_In. done.
  - split; [|done]. intros _. split; [done|]. apply Forall_forall. intros c Hc%list_elem_of_In.
    pose proof (find_none _ _ E c Hc). by apply negb_false_iff.
Qed.

Lemma split_host_port_spec label v host port :
  split_host_port label v = inr (host, port) ->
  v = code "[" :: host ++ code "]" :: code ":" :: port /\ Ipv6.from_str host = true /\ code "]" ∉ host \/
  v = host ++ code ":" :: port /\
    code ":" ∉ host /\ code "[" ∉ host /\ code "]" ∉ host /\ code ":" ∉ port.
Proof.
  unfold split_host_port, Ipv6.read_char. intros Hs.
  assert (Hplain : match v with x :: _ => x <> code "[" | [] => True end ->
    match count (code ":") v, split_at (code ":") v with
    | O, _ | _, None => inl (NoColon label v)
    | S O, Some (host, port) =>
      if contains (code "[") host || contains (code "]") host then inl (StrayBracket label v)
      else inr (host, port)
    | S (S _), _ => inl (BareIpv6 label v)
    end = inr (host, port) ->
    v = host ++ code ":" :: port /\
    code ":" ∉ host /\ code "[" ∉ host /\ code "]" ∉ host /\ code ":" ∉ port).
  { intros _ Hp. pose proof (split_at_inv (code ":") v) as Hi.
    destruct (count (code ":") v) as [|[|n]] eqn:Ec; try (destruct (split_at _ v); done).
    destruct (split_at (code ":") v) as [[a b]|]; [|done]. destruct Hi as [-> Ha].
    destruct (contains (code "[") a) eqn:E1; [done|]. destruct (contains (code "]") a) eqn:E2; [done|].
    simpl in Hp. simplify_eq. rewrite count_app, count_cons_same, (count_zero _ host Ha) in Ec.
    split_and!; [done|done| | |].
    - intros Hx%contains_spec. congruence.
    - intros Hx%contains_spec. congruence.
    - intros Hx%count_pos. lia. }
  destruct v as [|x rest]; [by right; apply Hplain|].
  destruct (Z.eqb_spec x (code "[")) as [->|Hx]; [|by right; apply Hplain].
  left. pose proof (split_at_inv (code "]") rest) as Hi. destruct (split_at (code "]") rest) as [[h after]|]; [|done].
  destruct Hi as [-> Hno]. destruct after as [|y port']; [done|]. destruct (Z.eqb_spec y (code ":")) as [->|]; [|done].
  destruct (Ipv6.from_str h) eqn:E; [|done]. by simplify_eq.
Qed.

Lemma split_host_port_complete label host port :
  (forall v, v = code "[" :: host ++ code "]" :: code ":" :: port -> Ipv6.from_str host = true ->
     code "]" ∉ host -> split_host_port label v = inr (host, port)) /\
  (forall v, v = host ++ code ":" :: port -> code ":" ∉ host -> code "[" ∉ host -> code "]" ∉ host ->
     code ":" ∉ port -> split_host_port label v = inr (host, port)).
Proof.
  split; intros v ->.
  - intros Hip Hh. unfold split_host_port, Ipv6.read_char. rewrite Z.eqb_refl, split_at_app by done.
    by rewrite Z.eqb_refl, Hip.
  - intros H1 H2 H3 H4. unfold split_host_port.
    assert (Hno : Ipv6.read_char (code "[") (host ++ code ":" :: port) = None).
    { destruct host as [|x host]; [done|]. simpl. apply not_elem_of_cons in H2 as [Hx _].
      by rewrite (proj2 (Z.eqb_neq _ _)). }
    rewrite Hno, count_app, count_cons_same, !count_zero, split_at_app by done. simpl.
    destruct (contains (code "[") host) eqn:E1; [by apply contains_spec in E1|].
    by destruct (contains (code "]") host) eqn:E2; [apply contains_spec in E2|].
Qed.

Lemma validate_host_port_spec label v : validate_host_port label v = inr tt <-> well_formed v.
Proof.
  unfold validate_host_port, well_formed. split.
  - destruct (validate_param label v) as [e|[]] eqn:Ep; [done|]. apply validate_param_spec in Ep as [_ Hall].
    destruct (split_host_port label v) as [e|[host port]] eqn:Es; [done|].
    apply split_host_port_spec in Es. destruct host as [|x host]; [done|].
    destruct (parse_u16 port) as [n|] eqn:En; [|done]. intros _. split; [done|].
    exists (x :: host), port. rewrite En. split; [done|].
    destruct Es as [Hb|(Hv & H1 & H2 & H3 & H4)]; [by left|right]. by split_and!.
  - intros [Hall (host & port & [n Hn] & Hshape)].
    destruct (split_host_port_complete label host port) as [Hb Hp].
    assert (Hne : v <> [] /\ host <> [] /\ split_host_port label v = inr (host, port)).
    { destruct Hshape as [(Hv & Hip & Hno)|(Hv & Hh & H1 & H2 & H3 & H4)].
      - split; [by rewrite Hv|]. split; [by intros ->|by apply Hb].
      - split; [rewrite Hv; by destruct host|]. split; [done|by apply Hp]. }
    destruct Hne as (Hv & Hh & Hs). rewrite (proj2 (validate_param_spec label v) (conj Hv Hall)), Hs.
    destruct host; [done|]. by rewrite Hn.
Qed.

(** ** Reading back *)

Lemma uri_chars v c : Forall (fun c => is_uri_char c = true) v -> is_uri_char c = false -> c ∉ v.
Proof. intros Hall Hc Hin. rewrite Forall_forall in Hall. specialize (Hall c Hin). congruence. Qed.

(** The parameters of a URI, written one after the other. *)
Fixpoint render (params : list (str * str)) : str :=
  match params with
  | [] => []
  | [(k, v)] => k ++ code "=" :: v
  | (k, v) :: params => (k ++ code "=" :: v) ++ code "|" :: render params
  end.

Definition clean (p : str * str) : Prop := code "=" ∉ p.1 /\ code "|" ∉ p.1 /\ code "|" ∉ p.2.

Lemma pieces_render params fuel :
  params <> [] -> Forall clean params -> (length (render params) <= fuel)%nat ->
  map (split_at (code "=")) (pieces (code "|") fuel (render params)) = map Some params.
Proof.
  revert fuel. induction params as [|[k v] params IH]; intros fuel Hne Hc Hl; [done|].
  apply Forall_cons in Hc as [(Hk & Hk' & Hv) Hc]. simpl in Hk, Hk', Hv.
  assert (Hno : code "|" ∉ k ++ code "=" :: v) by (rewrite elem_of_app, elem_of_cons; naive_solver).
  destruct params as [|p params].
  - simpl render. destruct fuel; simpl; rewrite ?(split_at_none (code "|")) by done; simpl; by rewrite split_at_app.
  - change (render ((k, v) :: p :: params)) with ((k ++ code "=" :: v) ++ code "|" :: render (p :: params)) in *.
    destruct fuel as [|fuel]; [rewrite length_app in Hl; simpl in Hl; lia|].
    cbn [pieces]. rewrite split_at_app by done. cbn [map]. rewrite split_at_app by done. f_equal.
    apply IH; [done|done|]. rewrite length_app in Hl. cbn [length] in Hl. lia.
Qed.

Lemma read_uri_render scheme params :
  code "?" ∉ scheme -> params <> [] -> Forall clean params ->
  read_uri (scheme ++ code "?" :: render params) = Some (scheme, map Some params).
Proof. intros Hs Hne Hc. unfold read_uri. rewrite split_at_app by done. by rewrite pieces_render. Qed.

Lemma clean_value k v :
  well_formed v -> code "=" ∉ k -> code "|" ∉ k -> clean (k, v).
Proof. intros [Hall _] ? ?. split_and!; [done..|]. by apply uri_chars. Qed.

(** Prove that a character is not among those of a literal. *)
Ltac absent := rewrite <-contains_spec; by vm_compute.

(** C32: the builders of channel URIs accept exactly the well-formed pairs of a
    host and a port, and lose nothing: no accepted value can add a parameter to
    the URI or change another, so reading the URI back gives the values. *)
Theorem uri_roundtrip endpoint control :
  ((exists u, ChannelUri.udp endpoint = inr u) <-> well_formed endpoint) /\
  ((exists u, ChannelUri.mdc_publication control = inr u) <-> well_formed control) /\
  ((exists u, ChannelUri.mdc_subscription endpoint control = inr u) <->
     well_formed endpoint /\ well_formed control) /\
  (forall u, ChannelUri.udp endpoint = inr u ->
     read_uri u = Some (chars "aeron:udp", [Some (chars "endpoint", endpoint)])) /\
  (forall u, ChannelUri.mdc_publication control = inr u ->
     read_uri u = Some (chars "aeron:udp", [Some (chars "control", control);
                                            Some (chars "control-mode", chars "dynamic")])) /\
  (forall u, ChannelUri.mdc_subscription endpoint control = inr u ->
     read_uri u = Some (chars "aeron:udp", [Some (chars "endpoint", endpoint); Some (chars "control", control);
                                            Some (chars "control-mode", chars "dynamic")])).
Proof.
  assert (Hv : forall label v, (exists e, validate_host_port label v = inl e /\ ~ well_formed v) \/
    (validate_host_port label v = inr tt /\ well_formed v)).
  { intros label v. pose proof (validate_host_port_spec label v) as Hs.
    destruct (validate_host_port label v) as [e|[]]; [left|right]; [exists e|]; naive_solver. }
  unfold ChannelUri.udp, ChannelUri.mdc_publication, ChannelUri.mdc_subscription.
  assert (Hmode : clean (chars "control-mode", chars "dynamic")) by (split_and!; absent).
  assert (Hread : forall params, params <> [] -> Forall clean params ->
    read_uri (chars "aeron:udp" ++ code "?" :: render params) = Some (chars "aeron:udp", map Some params)).
  { intros params. apply read_uri_render. absent. }
  split_and!.
  - destruct (Hv "endpoint" endpoint) as [(e & -> & ?)|[-> ?]]; naive_solver.
  - destruct (Hv "control" control) as [(e & -> & ?)|[-> ?]]; naive_solver.
  - destruct (Hv "endpoint" endpoint) as [(e & -> & ?)|[-> ?]]; [naive_solver|].
    destruct (Hv "control" control) as [(e & -> & ?)|[-> ?]]; naive_solver.
  - destruct (Hv "endpoint" endpoint) as [(e & -> & ?)|[-> Hwf]]; [done|]. intros u [= <-].
    apply (Hread [(chars "endpoint", endpoint)]); [done|]. constructor; [apply clean_value; done || absent|done].
  - destruct (Hv "control" control) as [(e & -> & ?)|[-> Hwf]]; [done|]. intros u [= <-].
    apply (Hread [(chars "control", control); (chars "control-mode", chars "dynamic")]); [done|].
    constructor; [apply clean_value; done || absent|by constructor].
  - destruct (Hv "endpoint" endpoint) as [(e & -> & ?)|[-> Hwf]]; [done|].
    destruct (Hv "control" control) as [(e & -> & ?)|[-> Hwf']]; [done|]. intros u [= <-].
    apply (Hread [(chars "endpoint", endpoint); (chars "control", control); (chars "control-mode", chars "dynamic")]); [done|].
    repeat constructor; simpl; try absent; by apply uri_chars; [apply Hwf||apply Hwf'|].
Qed.

Lemma uri_roundtrip_witness :
  let e := chars "[::1]:40123" in
  well_formed e /\ exists u, ChannelUri.udp e = inr u /\
    read_uri u = Some (chars "aeron:udp", [Some (chars "endpoint", e)]).
Proof.
  intros e. destruct (uri_roundtrip e []) as ([Hok _] & _ & _ & Hread & _).
  assert (He : exists u, ChannelUri.udp e = inr u) by (eexists; vm_compute; reflexivity).
  split; [by apply Hok|]. destruct He as [u Hu]. exists u. split; [exact Hu|by apply Hread].
Defined.
