(* ===== verification/Aeron.v ===== *)
(** * The Aeron adapter: [wingfoil/src/adapters/aeron/]

    Publisher and subscriber nodes over the two transport traits, which are the
    classes [AeronSubscriber] and [AeronPublisher]; a status side channel; and the
    loops of the polling threads. The status stream is shared by the node that
    records into it and the status node: it is kept in the former, and the calls
    on the latter are calls on that field ([on_status]). Bytes are [Z]. *)
From S2P Require Import Prelude NanoTime TimeQueue GraphState NodeCalls Channel ChannelNodes.

Definition bytes := list Z.

(** ** [error.rs], [status.rs], [buffer.rs] *)

Inductive TransportError :=
| BackPressure | Connection (msg : string) | Backend (msg : string) | Invalid (msg : string).

Definition TransportError_fmt (e : TransportError) : string :=
  match e with
  | BackPressure => "Back-pressure: buffer full"
  | Connection msg => "Connection error: " +:+ msg
  | Backend msg => "Backend error: " +:+ msg
  | Invalid msg => "Invalid operation: " +:+ msg
  end.

Inductive AeronStatus := Connected | Disconnected | BackPressured | Closed.
Definition AeronStatus_default : AeronStatus := Disconnected.
#[export] Instance AeronStatus_eq_dec : EqDecision AeronStatus.
Proof. solve_decision. Defined.

Record FragmentHeader := mkHeader { fh_position : Z; session_id : Z; stream_id : Z }.

Module FragmentBuffer.
Record FragmentBuffer := new { buffer : bytes; header : FragmentHeader }.
Definition len (self : FragmentBuffer) : nat := length (buffer self).
Definition is_empty (self : FragmentBuffer) : bool := match buffer self with [] => true | _ => false end.
Definition position (self : FragmentBuffer) : Z := fh_position (header self).
End FragmentBuffer.
Abbreviation FragmentBuffer := FragmentBuffer.FragmentBuffer.

(** [AeronBufferClaim] of the client library. *)
Class BufferClaim (C : Type) := {
  claim_data : C -> bytes; claim_write : bytes -> C -> C;
  claim_commit : C -> (string + unit) * C; claim_abort : C -> (string + unit) * C }.

(** A claim is consumed by [commit] and [abort], which drop it. *)
Module ClaimBuffer.
Section claim.
Context {C : Type} `{BufferClaim C}.
Record ClaimBuffer := mk { claim : C; position : Z; finalised : bool }.
Definition from_aeron (claim : C) (position : Z) : ClaimBuffer := mk claim position false.
Definition data (self : ClaimBuffer) : bytes := claim_data (claim self).
Definition len (self : ClaimBuffer) : nat := length (claim_data (claim self)).
Definition is_empty (self : ClaimBuffer) : bool := (len self =? 0)%nat.

(** [Drop]: what becomes of the claim. *)
Definition drop (self : ClaimBuffer) : C :=
  if finalised self then claim self else (claim_abort (claim self)).2.

Definition commit (self : ClaimBuffer) : (TransportError + unit) * C :=
  let '(r, c) := claim_commit (claim self) in
  (match r with inr _ => inr tt | inl e => inl (Backend ("aeron buffer commit: " +:+ e)) end,
   drop (mk c (position self) true)).

Definition abort (self : ClaimBuffer) : (TransportError + unit) * C :=
  let '(r, c) := claim_abort (claim self) in
  (match r with inr _ => inr tt | inl e => inl (Backend ("aeron buffer abort: " +:+ e)) end,
   drop (mk c (position self) true)).
End claim.
Arguments ClaimBuffer : clear implicits.
End ClaimBuffer.

(** ** [transport.rs] *)

(** [poll_fragments] hands the fragments to its handler in order and then
    returns their number, or fails after some of them. *)
Class AeronSubscriber (B : Type) := {
  poll_fragments : B -> list FragmentBuffer * (TransportError + Z) * B;
  sub_is_connected : B -> bool;
  sub_is_closed : B -> bool;
  supports_graph_thread_poll : B -> bool;
  with_fragment_limit : Z -> B -> B }.

(** The default [poll_fragments] of the trait, on a backend's [poll]. *)
Definition default_poll_fragments {B} (poll : B -> list bytes * (string + Z) * B) (b : B)
  : list FragmentBuffer * (TransportError + Z) * B :=
  let '(fragments, r, b) := poll b in
  (map (fun bytes => FragmentBuffer.new bytes (mkHeader 0 0 0)) fragments,
   match r with inl e => inl (Backend e) | inr n => inr n end, b).

(** The error of an [offer]: whether [downcast_ref::<TransportError>] finds one. *)
Inductive OfferError := Transport (e : TransportError) | Other (e : Error).
Definition to_error (e : OfferError) : Error :=
  match e with Transport e => Msg (TransportError_fmt e) | Other e => e end.

Class AeronPublisher (B : Type) := {
  offer : bytes -> B -> (OfferError + unit) * B;
  pub_is_connected : B -> bool;
  pub_is_closed : B -> bool }.

(** ** [status_stream.rs] *)

Module AeronStatusStream.
Record AeronStatusStream := mk {
  last : AeronStatus; out : list AeronStatus; producer : option addr }.
Definition default : AeronStatusStream := mk AeronStatus_default [] None.
Definition set_producer (p : addr) (self : AeronStatusStream) : AeronStatusStream :=
  mk (last self) (out self) (Some p).

Definition record (new : AeronStatus) (self : AeronStatusStream) : bool * AeronStatusStream :=
  if negb (bool_decide (new = last self)) then (true, mk new (out self ++ [new]) (producer self))
  else (false, self).

Definition clear (self : AeronStatusStream) : AeronStatusStream := mk (last self) [] (producer self).
Definition current (self : AeronStatusStream) : AeronStatus :=
  match rev (out self) with s :: _ => s | [] => last self end.

(** [alive] says whether an object can still be upgraded. *)
Definition upstreams (alive : addr -> bool) (self : AeronStatusStream) : UpStreams :=
  match producer self with
  | Some p => if alive p then mkUpStreams [p] [] else UpStreams_none
  | None => UpStreams_none
  end.

Definition cycle : NodeM AeronStatusStream bool :=
  let! self := get_self in
  mreturn (match out self with [] => false | _ => true end).
Definition peek_ref (self : AeronStatusStream) : list AeronStatus := out self.
End AeronStatusStream.
Abbreviation AeronStatusStream := AeronStatusStream.AeronStatusStream.

(** ** [pub_node.rs] *)

Module AeronPubNode.
Section node.
Context {T B : Type} `{AeronPublisher B}.
Record AeronPubNode := mk {
  upstream : addr; serialiser : T -> bytes; backend : B; status : option AeronStatusStream }.
Definition upstreams (self : AeronPubNode) : UpStreams := mkUpStreams [upstream self] [].

Definition set_backend (b : B) (self : AeronPubNode) : AeronPubNode :=
  mk (upstream self) (serialiser self) b (status self).
Definition set_status (s : option AeronStatusStream) (self : AeronPubNode) : AeronPubNode :=
  mk (upstream self) (serialiser self) (backend self) s.

Definition record_status (new_status : AeronStatus) (self : AeronPubNode) : AeronPubNode :=
  set_status ((fun s => (AeronStatusStream.record new_status s).2) <$> status self) self.
Definition clear_status (self : AeronPubNode) : AeronPubNode :=
  set_status (AeronStatusStream.clear <$> status self) self.

(** The loop over the burst: it runs to its end, or stops at back-pressure or
    at another error. *)
Inductive OfferOutcome := Offered (outcome : option AeronStatus) | Pressed | Failed (e : Error).
Fixpoint offer_all (serialiser : T -> bytes) (items : list T) (outcome : option AeronStatus) (b : B)
  : OfferOutcome * B :=
  match items with
  | [] => (Offered outcome, b)
  | item :: items' =>
    let '(r, b) := offer (serialiser item) b in
    match r with
    | inr _ => offer_all serialiser items' (Some Connected) b
    | inl (Transport BackPressure) => (Pressed, b)
    | inl e => (Failed (to_error e), b)
    end
  end.

(** [up] is the burst of the upstream. *)
Definition cycle (up : list T) : NodeM AeronPubNode bool :=
  let! self := get_self in
  let self := clear_status self in
  if pub_is_closed (backend self) then
    do! put_self (record_status Closed self) in
    mreturn true
  else
    let '(r, b) := offer_all (serialiser self) up None (backend self) in
    let self := set_backend b self in
    match r with
    | Failed e => do! put_self self in mfail e
    | Pressed => do! put_self (record_status BackPressured self) in mreturn true
    | Offered outcome =>
      let new_status :=
        match outcome with
        | Some s => s
        | None => if pub_is_connected b then Connected else Disconnected
        end in
      do! put_self (record_status new_status self) in
      mreturn true
    end.

Definition start : NodeM AeronPubNode unit :=
  let! g := graph in
  match run_mode g with
  | RealTime => mreturn tt
  | HistoricalFrom _ => mfail (Msg "Aeron publisher only supports RealTime mode")
  end.

(** [aeron_pub], and [aeron_pub_with_status] whose node is allocated at [node]. *)
Definition aeron_pub (self : addr) (publisher : B) (serialiser : T -> bytes) : AeronPubNode :=
  mk self serialiser publisher None.
Definition aeron_pub_with_status (self : addr) (publisher : B) (serialiser : T -> bytes) (node : addr)
  : AeronPubNode :=
  mk self serialiser publisher (Some (AeronStatusStream.set_producer node AeronStatusStream.default)).
End node.
Arguments AeronPubNode : clear implicits.
End AeronPubNode.

(** ** [sub_fragment_node.rs] *)

(** [FnMut(&FragmentBuffer) -> Result<Option<T>, TransportError>], with the state
    the closure keeps. *)
Definition Parser (P T : Type) : Type := FragmentBuffer -> P -> (TransportError + option T) * P.

(** The handler given to [poll_fragments], called on each fragment. *)
Fixpoint parse_all {P T} (parser : Parser P T) (fragments : list FragmentBuffer) (p : P) : list T * P :=
  match fragments with
  | [] => ([], p)
  | frag :: fragments =>
    let '(r, p) := parser frag p in
    let '(values, p) := parse_all parser fragments p in
    (match r with inr (Some v) => v :: values | _ => values end, p)
  end.

(** The status of a backend after a poll. *)
Definition derived_status {B} `{AeronSubscriber B} (b : B) : AeronStatus :=
  if sub_is_closed b then Closed else if sub_is_connected b then Connected else Disconnected.

Module AeronSpinSubFragmentNode.
Section node.
Context {T P B : Type} `{AeronSubscriber B}.
Record AeronSpinSubFragmentNode := mk {
  backend : B; parser : Parser P T; captured : P; value : list T; status : option AeronStatusStream }.
(** A closure is its code and what it captured. *)
Definition new (backend : B) (parser : Parser P T) (p : P) : AeronSpinSubFragmentNode :=
  mk backend parser p [] None.
Definition with_status (backend : B) (parser : Parser P T) (p : P) (status : AeronStatusStream)
  : AeronSpinSubFragmentNode := mk backend parser p [] (Some status).
Definition upstreams (self : AeronSpinSubFragmentNode) : UpStreams := UpStreams_none.

Definition cycle : NodeM AeronSpinSubFragmentNode bool :=
  let! self := get_self in
  let status := AeronStatusStream.clear <$> status self in
  let '(fragments, r, b) := poll_fragments (backend self) in
  let '(value, p) := parse_all (parser self) fragments (captured self) in
  match r with
  | inl e =>
    do! put_self (mk b (parser self) p value status) in
    mfail (Msg (TransportError_fmt e))
  | inr _ =>
    let '(transition, status) :=
      match status with
      | Some s => let '(t, s) := AeronStatusStream.record (derived_status b) s in (t, Some s)
      | None => (false, None)
      end in
    do! put_self (mk b (parser self) p value status) in
    mreturn (match value with [] => false | _ => true end || transition)
  end.

Definition start : NodeM AeronSpinSubFragmentNode unit := call GraphState.always_callback.
Definition peek_ref (self : AeronSpinSubFragmentNode) : list T := value self.
End node.
Arguments AeronSpinSubFragmentNode : clear implicits.
End AeronSpinSubFragmentNode.

(** The polling threads. A closure run for the rounds of its loop: what its look
    at the stop flag finds in each; [None] when it is still running after the
    last. It also yields the sleeps it took, in microseconds. *)
Section threads.
Context {T P B K X : Type} `{AeronSubscriber B}.

Definition idle (count : Z) (idle_count : Z) : Z * list Z :=
  if (count =? 0)%Z then
    let idle_count := Z.min (idle_count + 1) 20 in
    (idle_count, [Z.shiftl 1 (Z.min idle_count 10)])
  else (0%Z, []).

(** [let _ = sender.send_message(Message::RealtimeValue(..))] for each value. *)
Fixpoint send_values {U} `{KanalSender K U, ReadyChannel X} (values : list U) (sender : ChannelSender K X)
  : ChannelSender K X :=
  match values with
  | [] => sender
  | v :: values => send_values values (ChannelSender.send_message (Message.RealtimeValue v) sender).2
  end.

(** The closure of [build_threaded]. *)
Fixpoint poll_thread `{KanalSender K T, ReadyChannel X} (parser : Parser P T) (stops : list bool)
    (b : B) (p : P) (idle_count : Z) (sender : ChannelSender K X)
  : option (Res unit) * ChannelSender K X * list Z :=
  match stops with
  | [] => (None, sender, [])
  | true :: _ => (Some (Ok tt), sender, [])
  | false :: stops =>
    let '(fragments, r, b) := poll_fragments b in
    let '(values, p) := parse_all parser fragments p in
    let sender := send_values values sender in
    match r with
    | inl e => (Some (Err (Msg (TransportError_fmt e))), sender, [])
    | inr count =>
      let '(idle_count, sleep) := idle count idle_count in
      let '(r, sender, sleeps) := poll_thread parser stops b p idle_count sender in
      (r, sender, sleep ++ sleeps)
    end
  end.

Inductive AeronItem := Data (v : T) | Status (s : AeronStatus).

(** The closure of [build_threaded_with_status]. *)
Fixpoint status_poll_thread `{KanalSender K AeronItem, ReadyChannel X} (parser : Parser P T)
    (stops : list bool) (b : B) (p : P) (idle_count : Z) (last_status : AeronStatus)
    (sender : ChannelSender K X) : option (Res unit) * ChannelSender K X * list Z :=
  match stops with
  | [] => (None, sender, [])
  | true :: _ => (Some (Ok tt), sender, [])
  | false :: stops =>
    let '(fragments, r, b) := poll_fragments b in
    let '(values, p) := parse_all parser fragments p in
    let sender := send_values (map Data values) sender in
    match r with
    | inl e => (Some (Err (Msg (TransportError_fmt e))), sender, [])
    | inr count =>
      let new_status := derived_status b in
      let '(last_status, sender) :=
        if negb (bool_decide (new_status = last_status)) then
          (new_status, (ChannelSender.send_message (Message.RealtimeValue (Status new_status)) sender).2)
        else (last_status, sender) in
      let '(idle_count, sleep) := idle count idle_count in
      let '(r, sender, sleeps) := status_poll_thread parser stops b p idle_count last_status sender in
      (r, sender, sleep ++ sleeps)
    end
  end.
End threads.
Arguments AeronItem T : clear implicits.

Module ThreadedAeronFragmentNode.
Section node.
Context {K R X NC T F H : Type}.
Context `{KanalReceiver R T, NotifierChannel NC X, ReadyChannel X, Threads F (ChannelSender K X) H}.
Abbreviation Inner := (ReceiverStream K R X NC T F H).
Record ThreadedAeronFragmentNode := mk { inner : Inner; stop_flag : bool }.
(** [build_threaded]; [f] is the closure that polls. *)
Definition build (channel : ChannelSender K X * ChannelReceiver R) (f : F) : ThreadedAeronFragmentNode :=
  mk (ReceiverStream.new channel f true) false.
Definition upstreams (self : ThreadedAeronFragmentNode) : UpStreams := ReceiverStream.upstreams (inner self).

(** A call on the inner node. *)
Definition on_inner {A} (m : NodeM Inner A) : NodeM ThreadedAeronFragmentNode A := fun s =>
  let '(r, (i, g)) := m (inner s.1, s.2) in (r, (mk i (stop_flag s.1), g)).

Definition cycle (fuel : nat) : NodeM ThreadedAeronFragmentNode bool := on_inner (ReceiverStream.cycle fuel).
Definition setup (x : X) : NodeM ThreadedAeronFragmentNode unit := on_inner (ReceiverStream.setup x).
Definition start : NodeM ThreadedAeronFragmentNode unit := on_inner ReceiverStream.start.
Definition stop : NodeM ThreadedAeronFragmentNode unit :=
  let! self := get_self in
  do! put_self (mk (inner self) true) in
  let! _ := mcatch (on_inner ReceiverStream.stop) in
  mreturn tt.
Definition teardown : NodeM ThreadedAeronFragmentNode unit := on_inner ReceiverStream.teardown.
Definition peek_ref (self : ThreadedAeronFragmentNode) : list T :=
  ChannelReceiverStream.value (ReceiverStream.inner (inner self)).
End node.
Arguments ThreadedAeronFragmentNode : clear implicits.
End ThreadedAeronFragmentNode.

Module ThreadedAeronStatusFragmentNode.
Section node.
Context {K R X NC T F H : Type}.
Context `{KanalReceiver R (AeronItem T), NotifierChannel NC X, ReadyChannel X, Threads F (ChannelSender K X) H}.
Abbreviation Inner := (ReceiverStream K R X NC (AeronItem T) F H).
Record ThreadedAeronStatusFragmentNode := mk {
  inner : Inner; value : list T; status : AeronStatusStream; stop_flag : bool }.
(** [build_threaded_with_status]. *)
Definition build (channel : ChannelSender K X * ChannelReceiver R) (f : F) (status : AeronStatusStream)
  : ThreadedAeronStatusFragmentNode :=
  mk (ReceiverStream.new channel f true) [] status false.
Definition upstreams (self : ThreadedAeronStatusFragmentNode) : UpStreams :=
  ReceiverStream.upstreams (inner self).

Definition on_inner {A} (m : NodeM Inner A) : NodeM ThreadedAeronStatusFragmentNode A := fun s =>
  let '(r, (i, g)) := m (inner s.1, s.2) in (r, (mk i (value s.1) (status s.1) (stop_flag s.1), g)).

(** The loop over the items the inner node holds. *)
Fixpoint demux (items : list (AeronItem T)) (value : list T) (status : AeronStatusStream) (transition : bool)
  : list T * AeronStatusStream * bool :=
  match items with
  | [] => (value, status, transition)
  | Data v :: items => demux items (value ++ [v]) status transition
  | Status s :: items =>
    let '(t, status) := AeronStatusStream.record s status in demux items value status (transition || t)
  end.

Definition cycle (fuel : nat) : NodeM ThreadedAeronStatusFragmentNode bool :=
  let! self := get_self in
  do! put_self (mk (inner self) [] (AeronStatusStream.clear (status self)) (stop_flag self)) in
  let! _ := on_inner (ReceiverStream.cycle fuel) in
  let! self := get_self in
  let items := ChannelReceiverStream.value (ReceiverStream.inner (inner self)) in
  let '(value, status, transition) := demux items (value self) (status self) false in
  do! put_self (mk (inner self) value status (stop_flag self)) in
  mreturn (match value with [] => false | _ => true end || transition).

Definition setup (x : X) : NodeM ThreadedAeronStatusFragmentNode unit := on_inner (ReceiverStream.setup x).
Definition start : NodeM ThreadedAeronStatusFragmentNode unit := on_inner ReceiverStream.start.
Definition stop : NodeM ThreadedAeronStatusFragmentNode unit :=
  let! self := get_self in
  do! put_self (mk (inner self) (value self) (status self) true) in
  let! _ := mcatch (on_inner ReceiverStream.stop) in
  mreturn tt.
Definition teardown : NodeM ThreadedAeronStatusFragmentNode unit := on_inner ReceiverStream.teardown.
Definition peek_ref (self : ThreadedAeronStatusFragmentNode) : list T := value self.
End node.
Arguments ThreadedAeronStatusFragmentNode : clear implicits.
End ThreadedAeronStatusFragmentNode.

(** ** [mod.rs] *)

Inductive AeronMode := Spin | Threaded.
Definition DEFAULT_FRAGMENT_LIMIT : Z := 256.
Record AeronSubOptions := mkSubOptions { mode : AeronMode; fragment_limit : Z }.
Definition AeronSubOptions_default : AeronSubOptions := mkSubOptions Spin DEFAULT_FRAGMENT_LIMIT.

Section factory.
Context {T P B K R X NC F H : Type}.
Context `{AeronSubscriber B, KanalReceiver R T, KanalReceiver R (AeronItem T), NotifierChannel NC X,
  ReadyChannel X, Threads F (ChannelSender K X) H}.

Definition effective_mode (requested : AeronMode) (subscriber : B) : AeronMode :=
  match requested with
  | Spin => if supports_graph_thread_poll subscriber then Spin else Threaded
  | Threaded => Threaded
  end.

(** The node behind the stream a factory returns. *)
Inductive SubNode :=
| SpinNode (n : AeronSpinSubFragmentNode.AeronSpinSubFragmentNode T P B)
| ThreadedNode (n : ThreadedAeronFragmentNode.ThreadedAeronFragmentNode K R X NC T F H)
| ThreadedStatusNode (n : ThreadedAeronStatusFragmentNode.ThreadedAeronStatusFragmentNode K R X NC T F H).

(** [channel] opens the receiver's channel; [closure] is the closure that polls,
    made of the subscriber and the parser. *)
Definition aeron_sub_fragment (channel : ChannelSender K X * ChannelReceiver R)
    (closure : B -> Parser P T -> P -> F) (subscriber : B) (parser : Parser P T) (p : P)
    (opts : AeronSubOptions) : SubNode :=
  let subscriber := with_fragment_limit (fragment_limit opts) subscriber in
  match effective_mode (mode opts) subscriber with
  | Spin => SpinNode (AeronSpinSubFragmentNode.new subscriber parser p)
  | Threaded => ThreadedNode (ThreadedAeronFragmentNode.build channel (closure subscriber parser p))
  end.

(** The data node is allocated at [data]. *)
Definition aeron_sub_fragment_with_status (channel : ChannelSender K X * ChannelReceiver R)
    (closure : B -> Parser P T -> P -> F) (subscriber : B) (parser : Parser P T) (p : P)
    (opts : AeronSubOptions) (data : addr) : SubNode :=
  let subscriber := with_fragment_limit (fragment_limit opts) subscriber in
  let status := AeronStatusStream.set_producer data AeronStatusStream.default in
  match effective_mode (mode opts) subscriber with
  | Spin => SpinNode (AeronSpinSubFragmentNode.with_status subscriber parser p status)
  | Threaded =>
    ThreadedStatusNode (ThreadedAeronStatusFragmentNode.build channel (closure subscriber parser p) status)
  end.
End factory.
