(* ===== verification/AeronProps.v ===== *)
(** * What the Aeron nodes promise

    [aeron_modes_agree]: the two ways to poll a subscription deliver the same data
    and the same changes of status, where no wake-up of the threaded node finds its
    channel empty. [threaded_status_cycle]: what one cycle of the
    threaded node makes of what it finds, and what it does when it finds nothing.
    [pub_keeps_oldest]: what a publisher does under back-pressure. *)
From S2P Require Import Prelude NanoTime TimeQueue GraphState NodeCalls Timing Iterators Graph Solo Channel ChannelNodes ChannelProps ChannelPipe Aeron.

(** ** Definitions *)

Section modes.
Context {T P B : Type} `{AeronSubscriber B}.

(** The next [n] polls, if all succeed: the parsed values and the status after each. *)
Fixpoint polls (parser : Parser P T) (n : nat) (b : B) (p : P) : option (list (list T * AeronStatus)) :=
  match n with
  | O => Some []
  | S n' =>
    let '(fragments, r, b) := poll_fragments b in
    let '(values, p) := parse_all parser fragments p in
    match r, polls parser n' b p with
    | inr _, Some l => Some ((values, derived_status b) :: l)
    | _, _ => None
    end
  end.

(** A status that differs from the last one. *)
Definition change (last s : AeronStatus) : list AeronStatus := if bool_decide (s = last) then [] else [s].

(** The data and the status changes of each poll. *)
Fixpoint rounds (last : AeronStatus) (l : list (list T * AeronStatus)) : list (list T * list AeronStatus) :=
  match l with
  | [] => []
  | (values, s) :: l => (values, change last s) :: rounds s l
  end.

(** The polls in which a node that emits both ticks, at the times of its calls. *)
Fixpoint ticks (times : list Z) (l : list (list T * list AeronStatus)) : list (Z * (list T * list AeronStatus)) :=
  match times, l with
  | t :: times, ([], []) :: l => ticks times l
  | t :: times, x :: l => (t, x) :: ticks times l
  | _, _ => []
  end.

Definition items_of (round : list T * list AeronStatus) : list (AeronItem T) :=
  map Data round.1 ++ map Status round.2.

(** Data and status changes of a sequence of items. *)
Definition data_of (items : list (AeronItem T)) : list T :=
  flat_map (fun i => match i with Data v => [v] | Status _ => [] end) items.
Fixpoint changes (last : AeronStatus) (items : list (AeronItem T)) : list AeronStatus :=
  match items with
  | [] => []
  | Data _ :: items => changes last items
  | Status s :: items => change last s ++ changes s items
  end.
Fixpoint last_status (last : AeronStatus) (items : list (AeronItem T)) : AeronStatus :=
  match items with
  | [] => last
  | Data _ :: items => last_status last items
  | Status s :: items => last_status s items
  end.

(** What the threaded node handles in each cycle, given what the cycle finds: a
    cycle that finds nothing handles what was handled last ([v] at first) again. *)
Fixpoint seen_by (v : list (AeronItem T)) (founds : list (list (AeronItem T))) : list (list (AeronItem T)) :=
  match founds with
  | [] => []
  | found :: founds => let seen := match found with [] => v | _ => found end in seen :: seen_by seen founds
  end.

(** The data and the changes of status of each, from the last status on. *)
Fixpoint outputs (last : AeronStatus) (seens : list (list (AeronItem T))) : list (list T * list AeronStatus) :=
  match seens with
  | [] => []
  | seen :: seens => (data_of seen, changes last seen) :: outputs (last_status last seen) seens
  end.

(** ** Demultiplexing *)

Lemma record_change s st :
  AeronStatusStream.record s st =
    (negb (bool_decide (s = AeronStatusStream.last st)),
     AeronStatusStream.mk s (AeronStatusStream.out st ++ change (AeronStatusStream.last st) s)
       (AeronStatusStream.producer st)).
Proof.
  unfold AeronStatusStream.record, change. destruct st as [last out prod]. simpl.
  case_bool_decide as E; simpl; [|done]. by rewrite E, app_nil_r.
Qed.

Lemma demux_spec items v st t :
  ThreadedAeronStatusFragmentNode.demux items v st t =
    (v ++ data_of items,
     AeronStatusStream.mk (last_status (AeronStatusStream.last st) items)
       (AeronStatusStream.out st ++ changes (AeronStatusStream.last st) items) (AeronStatusStream.producer st),
     t || match changes (AeronStatusStream.last st) items with [] => false | _ => true end).
Proof.
  revert v st t. induction items as [|[d|s] items IH]; intros v st t.
  - destruct st. simpl. by rewrite !app_nil_r, orb_false_r.
  - simpl. rewrite IH. by rewrite <-app_assoc.
  - cbn [ThreadedAeronStatusFragmentNode.demux]. rewrite record_change, IH. simpl. unfold change. case_bool_decide; simpl.
    + by rewrite orb_false_r, app_nil_r.
    + by rewrite orb_true_r, <-app_assoc.
Qed.

Lemma changes_app last a b : changes last (a ++ b) = changes last a ++ changes (last_status last a) b.
Proof.
  revert last. induction a as [|[d|s] a IH]; intros last; simpl; [done|by apply IH|].
  by rewrite IH, app_assoc.
Qed.
Lemma last_status_app last a b : last_status last (a ++ b) = last_status (last_status last a) b.
Proof. revert last. induction a as [|[d|s] a IH]; intros last; simpl; [done|by apply IH..]. Qed.
Lemma data_of_app a b : data_of (a ++ b) = data_of a ++ data_of b.
Proof. apply flat_map_app. Qed.

Lemma seen_by_found v founds : Forall (fun found => found <> []) founds -> seen_by v founds = founds.
Proof.
  intros Hf. revert v. induction Hf as [|[|x found] founds Hx Hf IH]; intros v; [done..|]. simpl. by rewrite IH.
Qed.

Lemma outputs_totals last seens :
  flat_map fst (outputs last seens) = data_of (concat seens) /\
  flat_map snd (outputs last seens) = changes last (concat seens).
Proof.
  revert last. induction seens as [|seen seens IH]; intros last; [done|]. cbn [outputs flat_map concat fst snd].
  destruct (IH (last_status last seen)) as [-> ->]. by rewrite data_of_app, changes_app.
Qed.

Lemma outputs_length last seens : length (outputs last seens) = length seens.
Proof. revert last. induction seens as [|seen seens IH]; intros last; simpl; [done|by rewrite IH]. Qed.
Lemma seen_by_length v founds : length (seen_by v founds) = length founds.
Proof. revert v. induction founds as [|[|x f] founds IH]; intros v; simpl; [done|by rewrite IH..]. Qed.

(** The cycles that do not tick have nothing to add. *)
Lemma ticks_totals times (l : list (list T * list AeronStatus)) : length times = length l ->
  flat_map (fun e => e.2.1) (ticks times l) = flat_map fst l /\
  flat_map (fun e => e.2.2) (ticks times l) = flat_map snd l.
Proof.
  revert l. induction times as [|t times IH]; intros [|[d s] l]; try done. intros [= Hlen].
  destruct (IH l Hlen) as [H1 H2]. destruct d, s; simpl; by rewrite H1, H2.
Qed.

Lemma items_of_spec values last s :
  data_of (items_of (values, change last s)) = values /\
  changes last (items_of (values, change last s)) = change last s /\
  last_status last (items_of (values, change last s)) = s.
Proof.
  unfold items_of. simpl. induction values as [|v values IH]; simpl.
  - unfold change. case_bool_decide; simpl; [by subst|]. unfold change. by rewrite bool_decide_eq_false_2.
  - destruct IH as (H1 & H2 & H3). by rewrite H1, H2, H3.
Qed.

Lemma rounds_items last l :
  data_of (flat_map items_of (rounds last l)) = flat_map fst (rounds last l) /\
  changes last (flat_map items_of (rounds last l)) = flat_map snd (rounds last l).
Proof.
  revert last. induction l as [|[values s] l IH]; intros last; [done|]. cbn [rounds flat_map].
  destruct (items_of_spec values last s) as (H1 & H2 & H3). destruct (IH s) as [H4 H5].
  by rewrite data_of_app, changes_app, H1, H2, H3, H4, H5.
Qed.
End modes.

(** ** The polling node *)

Section spin.
Context {T P B : Type} `{AeronSubscriber B}.
Abbreviation Node := (AeronSpinSubFragmentNode.AeronSpinSubFragmentNode T P B).

(** What downstream nodes can read: the data, and the status stream's burst. *)
Definition spin_peek (self : Node) : list T * list AeronStatus :=
  (AeronSpinSubFragmentNode.value self, from_option AeronStatusStream.out [] (AeronSpinSubFragmentNode.status self)).

Lemma spin_drive (parser : Parser P T) (cs : list (GraphState * unit)) b p v st l :
  polls parser (length cs) b p = Some l ->
  exists self', drive (fun _ => AeronSpinSubFragmentNode.cycle) spin_peek cs
      (AeronSpinSubFragmentNode.mk b parser p v (Some st)) =
    (Ok (ticks ((fun c => time c.1) <$> cs) (rounds (AeronStatusStream.last st) l)), self').
Proof.
  revert b p v st l. induction cs as [|c cs IH]; intros b p v st l Hl; [by injection Hl as <-; eexists|].
  cbn [length polls] in Hl.
  destruct (poll_fragments b) as [[fragments r] b1] eqn:Epoll.
  destruct (parse_all parser fragments p) as [values p1] eqn:Eparse.
  destruct r as [e|n]; [done|]. destruct (polls parser (length cs) b1 p1) as [l'|] eqn:El; [|done].
  injection Hl as <-.
  set (st1 := AeronStatusStream.mk (derived_status b1) (change (AeronStatusStream.last st) (derived_status b1))
                (AeronStatusStream.producer st)).
  destruct (IH b1 p1 values st1 l' El) as (self' & Hd). exists self'.
  erewrite drive_cons; [|unfold AeronSpinSubFragmentNode.cycle, mbind, get_self, put_self, mreturn; simpl;
    rewrite Epoll, Eparse, record_change; simpl; reflexivity|exact Hd].
  do 2 f_equal. unfold spin_peek. simpl. fold st1. destruct values as [|x values]; [|done]. simpl.
  unfold change. by case_bool_decide.
Qed.
End spin.

(** ** The polling thread *)

Section thread.
Context {T P B K X : Type} `{AeronSubscriber B, Outbound K (AeronItem T), ReadyChannel X}.

(** The receiving end is there: every send is accepted. *)
Definition live : Prop := forall (m : Message (AeronItem T)) (k : K), (kanal_send m k).1 = true.

Definition sent (s : ChannelSender K X) : option (list (Message (AeronItem T))) :=
  outbox <$> ChannelSender.kanal_sender s.

Lemma send_live m s q :
  live -> sent s = Some q ->
  sent (ChannelSender.send_message m s).2 = Some (q ++ [m]).
Proof.
  intros Hlive Hs. unfold sent, ChannelSender.send_message in *.
  destruct s as [[k|] n]; [|done]. simpl in *. injection Hs as <-.
  pose proof (Hlive m k) as Hok. destruct (kanal_send m k) as [ok k'] eqn:Ek. simpl in Hok. subst ok.
  apply kanal_send_spec in Ek. simpl in Ek. destruct n as [n|]; simpl; [|by rewrite Ek].
  destruct (notify n) as [ok n']. simpl. by rewrite Ek.
Qed.

Lemma send_values_live values s q :
  live -> sent s = Some q ->
  sent (send_values values s) = Some (q ++ map Message.RealtimeValue values).
Proof.
  intros Hlive. revert s q. induction values as [|v values IH]; intros s q Hs; simpl; [by rewrite app_nil_r|].
  rewrite (IH _ _ (send_live _ _ _ Hlive Hs)). by rewrite <-app_assoc.
Qed.

Lemma idle_sleeps count i : (0 <= i <= 20)%Z ->
  (0 <= (idle count i).1 <= 20)%Z /\ Forall (fun us => 0 < us <= 1024)%Z (idle count i).2.
Proof.
  intros Hi. unfold idle. destruct (count =? 0)%Z; simpl; [|split; [lia|constructor]].
  split; [lia|]. constructor; [|constructor]. rewrite Z.shiftl_1_l.
  split; [apply Z.pow_pos_nonneg; lia|]. change 1024%Z with (2 ^ 10)%Z. apply Z.pow_le_mono_r; lia.
Qed.

Lemma thread_run (parser : Parser P T) n b p i last sender q l :
  live -> (0 <= i <= 20)%Z -> sent sender = Some q -> polls parser n b p = Some l ->
  exists sender' sleeps,
    status_poll_thread parser (repeat false n) b p i last sender = (None, sender', sleeps) /\
    sent sender' = Some (q ++ map Message.RealtimeValue (flat_map items_of (rounds last l))) /\
    Forall (fun us => 0 < us <= 1024)%Z sleeps.
Proof.
  intros Hlive. revert b p i last sender q l. induction n as [|n IH]; intros b p i last sender q l Hi Hq Hl.
  { injection Hl as <-. exists sender, []. simpl. rewrite app_nil_r. by split_and!. }
  cbn [polls] in Hl. destruct (poll_fragments b) as [[fragments r] b1] eqn:Epoll.
  destruct (parse_all parser fragments p) as [values p1] eqn:Eparse.
  destruct r as [e|count]; [done|]. destruct (polls parser n b1 p1) as [l'|] eqn:El; [|done].
  injection Hl as <-.
  pose proof (send_values_live (map Data values) sender q Hlive Hq) as Hq1.
  set (sender1 := send_values (map Data values) sender) in *.
  set (sender2 := if negb (bool_decide (derived_status b1 = last))
    then (ChannelSender.send_message (Message.RealtimeValue (Status (derived_status b1))) sender1).2 else sender1).
  assert (Hq2 : sent sender2 = Some (q ++ map Message.RealtimeValue (items_of (values, change last (derived_status b1))))).
  { unfold sender2, items_of, change. simpl. rewrite map_app, app_assoc. case_bool_decide; simpl.
    - by rewrite app_nil_r.
    - by apply send_live. }
  destruct (idle_sleeps count i Hi) as [Hi1 Hsl].
  destruct (IH b1 p1 (idle count i).1 (derived_status b1) sender2 _ l' Hi1 Hq2 El) as (s' & sleeps & Hrun & Hs' & Hsl').
  exists s', ((idle count i).2 ++ sleeps). split; [|split].
  - cbn [repeat status_poll_thread]. rewrite Epoll, Eparse. fold sender1. destruct (idle count i) as [i1 sl]. simpl in Hrun |- *.
    unfold sender2 in Hrun. case_bool_decide as E; simpl in Hrun |- *; [rewrite <-E|]; by rewrite Hrun.
  - rewrite Hs'. cbn [rounds flat_map]. by rewrite map_app, <-app_assoc.
  - by apply Forall_app.
Qed.
End thread.

(** ** The threaded node *)

Section threaded.
Context {K R X NC T F H : Type}.
Context `{Inbound R (AeronItem T), NotifierChannel NC X, ReadyChannel X, Threads F (ChannelSender K X) H}.
Abbreviation Node := (ThreadedAeronStatusFragmentNode.ThreadedAeronStatusFragmentNode K R X NC T F H).

(** A node in a realtime graph whose polling thread runs; [v] is what its
    receiver holds from the cycles before. *)
Definition threaded_node r (nc : option NC) v (s : option (ChannelSender K X)) (h : H) n value status stop : Node :=
  ThreadedAeronStatusFragmentNode.mk (running_stream r nc v s h false true n) value status stop.

(** One cycle, given what the receiver's cycle does. *)
Lemma status_cycle_ok fuel (self : Node) g b i :
  ReceiverStream.cycle fuel (ThreadedAeronStatusFragmentNode.inner self, g) = (Ok b, (i, g)) ->
  let status := ThreadedAeronStatusFragmentNode.status self in
  let items := ChannelReceiverStream.value (ReceiverStream.inner i) in
  let news := changes (AeronStatusStream.last status) items in
  ThreadedAeronStatusFragmentNode.cycle fuel (self, g) =
    (Ok match data_of items, news with [], [] => false | _, _ => true end,
     (ThreadedAeronStatusFragmentNode.mk i (data_of items)
        (AeronStatusStream.mk (last_status (AeronStatusStream.last status) items) news
           (AeronStatusStream.producer status)) (ThreadedAeronStatusFragmentNode.stop_flag self), g)).
Proof.
  intros Hi status items news. unfold ThreadedAeronStatusFragmentNode.cycle. do 2 erewrite mbind_ok by reflexivity.
  erewrite mbind_ok by (unfold ThreadedAeronStatusFragmentNode.on_inner; cbn [fst snd
    ThreadedAeronStatusFragmentNode.inner]; rewrite Hi; reflexivity).
  erewrite mbind_ok by reflexivity. cbn [fst snd ThreadedAeronStatusFragmentNode.inner
    ThreadedAeronStatusFragmentNode.value ThreadedAeronStatusFragmentNode.status
    ThreadedAeronStatusFragmentNode.stop_flag]. rewrite demux_spec. fold items.
  erewrite mbind_ok by reflexivity. unfold mreturn. cbn [AeronStatusStream.clear AeronStatusStream.last
    AeronStatusStream.out AeronStatusStream.producer app orb]. fold status news. by destruct (data_of items), news.
Qed.
(** The same, whether or not its receiver has met the end of the stream. *)
Definition threaded_at r (nc : option NC) v (fin : bool) (s : option (ChannelSender K X)) (h : H) n value status stop : Node :=
  ThreadedAeronStatusFragmentNode.mk
    (ReceiverStream.mk (at_real r None nc v fin None []) s (State.JoinHandle h) false true None n) value status stop.

(** What downstream nodes can read. *)
Definition threaded_peek (self : Node) : list T * list AeronStatus :=
  (ThreadedAeronStatusFragmentNode.peek_ref self, AeronStatusStream.out (ThreadedAeronStatusFragmentNode.status self)).

(** The polling thread still runs at each of the next [k] looks at it. *)
Fixpoint runs_for (k : nat) (h : H) : Prop :=
  match k with
  | O => True
  | S k => exists h', is_finished h = (false, h') /\ runs_for k h'
  end.

(** The receiver still has these items to take, or is finished and has none. *)
Definition to_come (fin : bool) (r : R) (items : list (AeronItem T)) tl : Prop :=
  if fin then items = [] else inbox r = map Message.RealtimeValue items ++ tl.

Lemma receiver_step fuel g r (nc : option NC) v fin (items : list (AeronItem T)) tl :
  ends tl -> to_come fin r items tl -> length items < fuel -> run_mode g = RealTime ->
  exists r' found rest fin', items = found ++ rest /\ to_come fin' r' rest tl /\
    ChannelReceiverStream.cycle fuel (at_real r None nc v fin None [], g) =
      (Ok match found with [] => false | _ => true end,
       (at_real r' None nc match found with [] => v | _ => found end fin' None [], g)).
Proof.
  intros Htl Hr Hf Hm. destruct fin; simpl in Hr.
  { subst items. exists r, [], [], true. split_and!; [done..|]. by apply realtime_finished. }
  destruct (realtime_cycle fuel r None nc v None [] g (map Message.RealtimeValue items) tl Htl Hr)
    as (r' & got & rest & fin & Hcy & Hmsgs & Hrest); [by apply Forall_map, Forall_true|by rewrite length_map|done|].
  destruct (map_eq_app _ _ _ _ Hmsgs) as (found & rest' & -> & <- & <-).
  assert (Hvals : flat_map values_of (map Message.RealtimeValue found) = found).
  { induction found as [|x found IH] in |- *; [done|]. simpl. by rewrite IH. }
  rewrite Hvals in Hcy. exists r', found, rest', fin. split; [done|]. split; [|by destruct found].
  destruct fin; [by apply map_eq_nil in Hrest|exact Hrest].
Qed.

Lemma threaded_step fuel g r (nc : option NC) v fin s (h h' : H) n value status stop
    (items : list (AeronItem T)) tl :
  ends tl -> to_come fin r items tl -> length items < fuel -> run_mode g = RealTime ->
  is_finished h = (false, h') ->
  exists r' found rest fin', items = found ++ rest /\ to_come fin' r' rest tl /\
    let seen := match found with [] => v | _ => found end in
    let news := changes (AeronStatusStream.last status) seen in
    ThreadedAeronStatusFragmentNode.cycle fuel (threaded_at r nc v fin s h n value status stop, g) =
      (Ok match data_of seen, news with [], [] => false | _, _ => true end,
       (threaded_at r' nc seen fin' s h' n (data_of seen)
          (AeronStatusStream.mk (last_status (AeronStatusStream.last status) seen) news
             (AeronStatusStream.producer status)) stop, g)).
Proof.
  intros Htl Hr Hf Hm Hfin.
  destruct (receiver_step fuel g r nc v fin items tl Htl Hr Hf Hm) as (r' & found & rest & fin' & Hitems & Hrest & Hcy).
  exists r', found, rest, fin'. split_and!; [done..|]. intros seen news.
  set (i := at_real r' None nc seen fin' None []).
  assert (Hck : State.check_running (F := F) (S := ChannelSender K X) (ChannelReceiverStream.finished i) (State.JoinHandle h) =
    (Ok tt, State.JoinHandle h')) by (unfold State.check_running; by rewrite Hfin).
  pose proof (stream_cycle_ok fuel (ReceiverStream.mk (at_real r None nc v fin None []) s (State.JoinHandle h)
    false true None n) g _ i _ (Ok tt) eq_refl Hcy Hck (or_introl eq_refl)) as Hrun.
  exact (status_cycle_ok fuel (threaded_at r nc v fin s h n value status stop) g _ _ Hrun).
Qed.

(** Any number of wake-ups: each takes a further part of the items, in order. *)
Lemma threaded_drive fuel (cs : list (GraphState * unit)) r (nc : option NC) v fin s (h : H) n value status stop
    (items : list (AeronItem T)) tl :
  ends tl -> to_come fin r items tl -> length items < fuel ->
  Forall (fun c => run_mode c.1 = RealTime) cs -> runs_for (length cs) h ->
  exists founds rest self', length founds = length cs /\ items = concat founds ++ rest /\
    drive (fun _ => ThreadedAeronStatusFragmentNode.cycle fuel) threaded_peek cs
      (threaded_at r nc v fin s h n value status stop) =
      (Ok (ticks ((fun c => time c.1) <$> cs) (outputs (AeronStatusStream.last status) (seen_by v founds))), self').
Proof.
  intros Htl Hr Hf Hm. revert r v fin h value status items Hr Hf.
  induction Hm as [|c cs Hc Hm IH]; intros r v fin h value status items Hr Hf Hh.
  { by eexists [], items, _. }
  destruct Hh as (h' & Hfin & Hh).
  destruct (threaded_step fuel c.1 r nc v fin s h h' n value status stop items tl Htl Hr Hf Hc Hfin)
    as (r' & found & rest & fin' & -> & Hr' & Hcy).
  rewrite length_app in Hf. cbv zeta in Hcy. set (seen := match found with [] => v | _ => found end) in Hcy.
  destruct (IH r' seen fin' h' (data_of seen) (AeronStatusStream.mk (last_status (AeronStatusStream.last status) seen)
      (changes (AeronStatusStream.last status) seen) (AeronStatusStream.producer status)) rest Hr' ltac:(lia) Hh)
    as (founds & rest' & self' & Hlen & -> & Hd).
  exists (found :: founds), rest', self'. split; [by f_equal/=|]. split; [by simpl; rewrite <-app_assoc|].
  rewrite (drive_cons _ _ c cs _ _ _ _ _ _ Hcy Hd). do 2 f_equal. cbn [seen_by outputs fmap list_fmap ticks].
  unfold threaded_peek. simpl. fold seen.
  by destruct (data_of seen), (changes (AeronStatusStream.last status) seen).
Qed.
End threaded.

(** C23: polling on the graph thread and polling on a thread of its own agree. For
    any backend whose next [n] polls succeed, [n] cycles of the polling node emit
    the parsed values of each poll and the changes of status, in the cycles that
    have either; the polling thread sends the same values and the same changes, in
    the same order, and never sleeps for more than 1024 microseconds. The threaded
    node, woken any number of times while its thread runs and whatever has arrived
    at each wake-up, takes these messages in order and, in each cycle, emits the
    data and the changes of status among what it has found, if there are any; in
    a cycle that finds no message it handles what it found last once more. So, if
    every wake-up finds a message, it has emitted in total the data and the
    changes of status of the polling node, less those still to come. *)
Theorem aeron_modes_agree {T P B K X} {R NC F H} `{AeronSubscriber B, Outbound K (AeronItem T), ReadyChannel X}
    `{Inbound R (AeronItem T), NotifierChannel NC X, Threads F (ChannelSender K X) H}
    (parser : Parser P T) (cs : list (GraphState * unit)) b p (sender : ChannelSender K X) q producer l
    fuel (ws : list (GraphState * unit)) (r : R) (nc : option NC) s (h : H) n stop tl :
  let st := AeronStatusStream.set_producer producer AeronStatusStream.default in
  let delivered := rounds AeronStatus_default l in
  let items := flat_map items_of delivered in
  polls parser (length cs) b p = Some l -> live (T := T) (K := K) -> sent sender = Some q ->
  ends tl -> inbox r = map Message.RealtimeValue items ++ tl -> length items < fuel ->
  Forall (fun c => run_mode c.1 = RealTime) ws -> runs_for (F := F) (K := K) (X := X) (length ws) h ->
  (exists self', drive (fun _ => AeronSpinSubFragmentNode.cycle) spin_peek cs
     (AeronSpinSubFragmentNode.with_status b parser p st) =
     (Ok (ticks ((fun c => time c.1) <$> cs) delivered), self')) /\
  (exists sender' sleeps,
     status_poll_thread parser (repeat false (length cs)) b p 0 AeronStatus_default sender = (None, sender', sleeps) /\
     sent sender' = Some (q ++ map Message.RealtimeValue items) /\
     Forall (fun us => 0 < us <= 1024)%Z sleeps) /\
  (exists founds rest self' emitted, length founds = length ws /\ items = concat founds ++ rest /\
     drive (fun _ => ThreadedAeronStatusFragmentNode.cycle fuel) threaded_peek ws
       (threaded_node (F := F) (K := K) r nc [] s h n [] st stop) = (Ok emitted, self') /\
     emitted = ticks ((fun c => time c.1) <$> ws) (outputs AeronStatus_default (seen_by [] founds)) /\
     (Forall (fun found => found <> []) founds ->
        flat_map (fun e => e.2.1) emitted ++ data_of rest = flat_map fst delivered /\
        flat_map (fun e => e.2.2) emitted ++ changes (last_status AeronStatus_default (concat founds)) rest =
          flat_map snd delivered)).
Proof.
  intros st delivered items Hl Hlive Hq Htl Hr Hf Hm Hh. split; [|split].
  - apply (spin_drive parser cs b p [] st l Hl).
  - by apply thread_run; [|lia|..].
  - destruct (threaded_drive fuel ws r nc [] false s h n [] st stop items tl Htl Hr Hf Hm Hh)
      as (founds & rest & self' & Hlen & Hitems & Hd).
    change (AeronStatusStream.last st) with AeronStatus_default in Hd.
    eexists founds, rest, self', _. split_and!; [done..|]. intros Hne. rewrite (seen_by_found [] _ Hne).
    destruct (ticks_totals ((fun c => time c.1) <$> ws) (outputs AeronStatus_default founds)) as [-> ->].
    { by rewrite outputs_length, length_fmap. }
    destruct (outputs_totals AeronStatus_default founds) as [-> ->].
    destruct (rounds_items AeronStatus_default l) as [Hd1 Hd2]. fold delivered items in Hd1, Hd2.
    rewrite <-Hd1, <-Hd2, Hitems, data_of_app, changes_app. done.
Qed.

(** A cycle of the threaded node with status, its thread running. If the
    receiver finds messages, the node emits exactly their data and the changes of
    status among them. If it finds none -- the wakeup of a message that an earlier
    cycle has already taken -- the node handles what it found before once more:
    the data is emitted again, and old changes of status are repeated. *)
Theorem threaded_status_cycle {K R X NC T F H}
    `{Inbound R (AeronItem T), NotifierChannel NC X, ReadyChannel X, Threads F (ChannelSender K X) H}
    fuel g r (nc : option NC) v s (h h' : H) n value status stop (items : list (AeronItem T)) tl :
  ends tl -> inbox r = map Message.RealtimeValue items ++ tl -> length items < fuel ->
  run_mode g = RealTime -> is_finished h = (false, h') ->
  exists self' found rest,
    items = found ++ rest /\
    let seen := match found with [] => v | _ => found end in
    let news := changes (AeronStatusStream.last status) seen in
    ThreadedAeronStatusFragmentNode.cycle fuel
      (threaded_node (F := F) (K := K) r nc v s h n value status stop, g) =
      (Ok match data_of seen, news with [], [] => false | _, _ => true end, (self', g)) /\
    ThreadedAeronStatusFragmentNode.peek_ref self' = data_of seen /\
    AeronStatusStream.out (ThreadedAeronStatusFragmentNode.status self') = news.
Proof.
  intros Htl Hr Hf Hm Hfin.
  destruct (threaded_step fuel g r nc v false s h h' n value status stop items tl Htl Hr Hf Hm Hfin)
    as (r' & found & rest & fin' & Hitems & _ & Hc).
  eexists _, found, rest. split; [done|]. split; [exact Hc|]. by split.
Qed.

(** ** The publisher *)

(** Under back-pressure a publisher keeps the oldest items of a burst, not the
    latest: it publishes the items before the first refusal, drops the refused one
    and all after it, and reports success; the status stream shows the change. *)
Theorem pub_keeps_oldest {T B} `{AeronPublisher B} (self : AeronPubNode.AeronPubNode T B) g accepted refused dropped b1 b2 :
  pub_is_closed (AeronPubNode.backend self) = false ->
  AeronPubNode.offer_all (AeronPubNode.serialiser self) accepted None (AeronPubNode.backend self) =
    (AeronPubNode.Offered match accepted with [] => None | _ => Some Connected end, b1) ->
  offer (AeronPubNode.serialiser self refused) b1 = (inl (Transport BackPressure), b2) ->
  exists self',
    AeronPubNode.cycle (accepted ++ refused :: dropped) (self, g) = (Ok true, (self', g)) /\
    AeronPubNode.backend self' = b2 /\
    AeronStatusStream.out <$> AeronPubNode.status self' =
      (fun st => change (AeronStatusStream.last st) BackPressured) <$> AeronPubNode.status self.
Proof.
  intros Hopen Hacc Href.
  assert (Hall : forall items o b r, AeronPubNode.offer_all (AeronPubNode.serialiser self) items o b = (AeronPubNode.Offered r, b1) ->
    AeronPubNode.offer_all (AeronPubNode.serialiser self) (items ++ refused :: dropped) o b = (AeronPubNode.Pressed, b2)).
  { intros items. induction items as [|x items IH]; intros o b r Hrun; simpl in *.
    - injection Hrun as _ ->. by rewrite Href.
    - destruct (offer _ b) as [[[[]|e]|[]] b']; try done. by eapply IH. }
  unfold AeronPubNode.cycle, mbind, get_self, put_self, mreturn. simpl. rewrite Hopen, (Hall _ _ _ _ Hacc).
  eexists. split; [done|]. split; [done|]. simpl. destruct (AeronPubNode.status self) as [st|]; [|done]. simpl.
  by rewrite record_change.
Qed.

(** ** Instances *)

(** A backend that follows a script: the fragments of each poll, and whether it
    is connected afterwards. *)
Record Script := mkScript { sc_polls : list (list Z * bool); sc_connected : bool }.
Definition frag (x : Z) : FragmentBuffer := FragmentBuffer.new [x] (mkHeader 0 0 0).

#[export] Instance script_subscriber : AeronSubscriber Script := {|
  poll_fragments s :=
    match sc_polls s with
    | (xs, c) :: rest => (map frag xs, inr (Z.of_nat (length xs)), mkScript rest c)
    | [] => ([], inr 0%Z, s)
    end;
  sub_is_connected := sc_connected;
  sub_is_closed _ := false;
  supports_graph_thread_poll _ := true;
  with_fragment_limit _ s := s |}.

(** A parser that drops what is negative. *)
Definition keep_positive : Parser unit Z := fun f p =>
  (match FragmentBuffer.buffer f with
   | x :: _ => if (x <? 0)%Z then inl (Invalid "negative") else inr (Some x)
   | [] => inr None
   end, p).

(** Three polls on the graph thread; and what they find, sent by a thread, in two
    wake-ups of the threaded node, of which the first finds three messages. *)
Lemma aeron_modes_agree_witness :
  let b := mkScript [([1; -2; 3]%Z, true); ([], true); ([4]%Z, false)] false in
  let r := mkArrivals (map Message.RealtimeValue [Data 1; Data 3; Status Connected; Data 4; Status Disconnected]%Z)
             [true; true; true; false; true; true; false] in
  (exists self', drive (fun _ => AeronSpinSubFragmentNode.cycle) spin_peek
      (map realtime_call [10; 20; 30]%Z)
      (AeronSpinSubFragmentNode.with_status b keep_positive tt
         (AeronStatusStream.set_producer 1 AeronStatusStream.default)) =
    (Ok [(10, ([1; 3], [Connected])); (30, ([4], [Disconnected]))]%Z, self')) /\
  (exists self' emitted, drive (fun _ => ThreadedAeronStatusFragmentNode.cycle 6) threaded_peek
      (map realtime_call [40; 50]%Z)
      (threaded_node (F := Fate) (K := list (Message (AeronItem Z))) (X := list nat) r (None : option unit) [] None
         (mkFate [false; false] (Returned (Ok tt))) None []
         (AeronStatusStream.set_producer 1 AeronStatusStream.default) false) = (Ok emitted, self') /\
    emitted = [(40, ([1; 3], [Connected])); (50, ([4], [Disconnected]))]%Z).
Proof.
  intros b r.
  destruct (aeron_modes_agree (F := Fate) (NC := unit) keep_positive (map realtime_call [10; 20; 30]%Z) b tt
    (ChannelSender.new ([] : list (Message (AeronItem Z))) (None : option (ReadyNotifier (list nat)))) [] 1%positive
    [([1; 3], Connected); ([], Connected); ([4], Disconnected)]%Z
    6 (map realtime_call [40; 50]%Z) r None None (mkFate [false; false] (Returned (Ok tt))) None false [])
    as ((self' & Hd) & _ & (founds & rest & self2 & emitted & _ & _ & Hdr & _)).
  - reflexivity.
  - intros m k. reflexivity.
  - reflexivity.
  - by left.
  - reflexivity.
  - simpl. lia.
  - repeat constructor.
  - exists (mkFate [false] (Returned (Ok tt))). split; [reflexivity|].
    exists (mkFate [] (Returned (Ok tt))). by split.
  - split; [exists self'; exact Hd|]. exists self2, emitted. split; [exact Hdr|].

    apply (f_equal fst) in Hdr. vm_compute in Hdr. by injection Hdr as <-.
Defined.

(** A wakeup that finds the channel empty: the 7 is emitted again. *)
Lemma threaded_status_cycle_witness :
  exists self' found rest,
    ([] : list (AeronItem Z)) = found ++ rest /\
    ThreadedAeronStatusFragmentNode.cycle 5
      (threaded_node (F := Fate) (K := list (Message (AeronItem Z))) (X := list nat)
         (mkArrivals [] [false]) (None : option unit) [Data 7%Z] None (mkFate [false] (Returned (Ok tt))) None [7%Z]
         AeronStatusStream.default false, (realtime_call 20).1) = (Ok true, (self', (realtime_call 20).1)) /\
    ThreadedAeronStatusFragmentNode.peek_ref self' = [7%Z].
Proof.
  destruct (threaded_status_cycle (F := Fate) (K := list (Message (AeronItem Z))) (X := list nat) 5
    (realtime_call 20).1 (mkArrivals [] [false]) (None : option unit) [Data 7%Z] None
    (mkFate [false] (Returned (Ok tt))) (mkFate [] (Returned (Ok tt))) None [7%Z] AeronStatusStream.default false
    ([] : list (AeronItem Z)) []) as (self' & found & rest & Hf & Hrun & Hv & _).
  - by left.
  - reflexivity.
  - simpl. lia.
  - reflexivity.
  - reflexivity.
  - exists self', found, rest. split; [exact Hf|]. symmetry in Hf. apply app_nil in Hf as [-> ->]. by split.
Defined.

(** A publication with room for one message. *)
#[local] Instance room_publisher : AeronPublisher (list bytes) := {|
  offer m k := match k with [] => (inr tt, [m]) | _ => (inl (Transport BackPressure), k) end;
  pub_is_connected _ := true; pub_is_closed _ := false |}.

Lemma pub_keeps_oldest_witness :
  exists self', AeronPubNode.cycle [1; 2; 3]%Z
      (AeronPubNode.aeron_pub_with_status 1 [] (fun x => [x]) 2, (realtime_call 10).1) =
      (Ok true, (self', (realtime_call 10).1)) /\
    AeronPubNode.backend self' = [[1%Z]].
Proof.
  destruct (pub_keeps_oldest (AeronPubNode.aeron_pub_with_status 1 [] (fun x : Z => [x]) 2) (realtime_call 10).1
    [1%Z] 2%Z [3%Z] [[1%Z]] [[1%Z]]) as (self' & Hrun & Hb & _).
  - reflexivity.
  - reflexivity.
  - reflexivity.
  - exists self'. by split.
Defined.
