(* ===== verification/Cache.v ===== *)
(** * The file cache: [wingfoil/src/adapters/cache/]

    Results of queries, one file each, in a folder whose size is bounded by
    deleting the files that were used longest ago. Strings and file contents
    are lists of bytes; a path is a folder and an ordinary file name in it. The
    file system is the class [FileSystem], the digest [Hasher], the binary
    encoding [Codec]; what is relied on of them is [FileSystemLaws] and
    [CodecLaws]. *)
From S2P Require Import Prelude NanoTime.
From Stdlib Require Import Strings.Ascii.
Local Open Scope Z_scope.

Abbreviation bytes := (list ascii).
Definition lit (s : string) : bytes := String.list_ascii_of_string s.
Definition text (b : bytes) : string := String.string_of_list_ascii b.

(** [to_lowercase], of ASCII text. *)
Definition to_ascii_lowercase (c : ascii) : ascii :=
  let n := N_of_ascii c in if ((65 <=? n) && (n <=? 90))%N then ascii_of_N (n + 32) else c.
Definition NEWLINE : ascii := "010"%char.

(** ** Paths and files *)

Record Path := mkPath { parent : bytes; file_name : bytes }.

#[global] Instance Path_eq_dec : EqDecision Path.
Proof. solve_decision. Defined.
#[global] Instance Path_countable : Countable Path :=
  inj_countable' (fun p => (parent p, file_name p)) (fun q => mkPath q.1 q.2) (fun p => match p with mkPath _ _ => eq_refl end).

(** The stem of a file name and its extension, what follows the last dot unless
    the name has nothing before it. *)
Definition split_extension (name : bytes) : bytes * option bytes :=
  match split_at "."%char (rev name) with
  | Some (_, []) | None => (name, None)
  | Some (ext, stem) => (rev stem, Some (rev ext))
  end.

Definition extension (p : Path) : option bytes := (split_extension (file_name p)).2.
Definition with_extension (ext : bytes) (p : Path) : Path :=
  mkPath (parent p) ((split_extension (file_name p)).1 ++ "."%char :: ext).
Definition display (p : Path) : bytes := parent p ++ "/"%char :: file_name p.

(** [std::io::Error], by the one kind the code asks about. *)
Inductive IoError := NotFound (why : string) | OtherIo (why : string).
Definition io_text (e : IoError) : string := match e with NotFound t | OtherIo t => t end.
Definition io_error (e : IoError) : Error := Msg (io_text e).

Record Metadata := mkMetadata { len : Z; modified : option Z }.

(** A [None] is success. An entry of a folder may fail to be read. *)
Class FileSystem (W : Type) := {
  fs_read : Path -> W -> (IoError + bytes) * W;
  fs_write : Path -> bytes -> W -> option IoError * W;
  fs_rename : Path -> Path -> W -> option IoError * W;
  fs_remove_file : Path -> W -> option IoError * W;
  fs_create_dir_all : bytes -> W -> option IoError * W;
  fs_read_dir : bytes -> W -> (IoError + list (IoError + Path)) * W;
  fs_metadata : Path -> W -> (IoError + Metadata) * W }.

(** What a write that failed leaves at its path: what was there, nothing, or the
    first of the bytes it was to write. *)
Definition torn (b : bytes) (before after : option bytes) : Prop :=
  after = before \/ after = None \/ exists n, after = Some (take n b).

(** The documented behaviour, for a folder no other process writes to. *)
Class FileSystemLaws (W : Type) `{FileSystem W} := {
  files : W -> gmap Path bytes;
  read_law p w :
    let '(r, w') := fs_read p w in files w' = files w /\
      match r with inr b => files w !! p = Some b | inl (NotFound _) => files w !! p = None | inl _ => True end;
  write_law p b w :
    let '(r, w') := fs_write p b w in
      match r with
      | None => files w' = <[p := b]> (files w)
      | Some _ => exists c, files w' = partial_alter (fun _ => c) p (files w) /\ torn b (files w !! p) c
      end;
  rename_law p q w :
    let '(r, w') := fs_rename p q w in
      match r with
      | None => exists b, files w !! p = Some b /\ files w' = <[q := b]> (delete p (files w))
      | Some _ => files w' = files w
      end;
  remove_law p w :
    let '(r, w') := fs_remove_file p w in
      files w' = match r with None => delete p (files w) | Some _ => files w end;
  create_dir_law d w : files (fs_create_dir_all d w).2 = files w;
  read_dir_law d w : files (fs_read_dir d w).2 = files w;
  metadata_law p w : files (fs_metadata p w).2 = files w }.

(** A file system on which the calls of [evict_lru] succeed, with the times of
    last modification it reports. *)
Class Healthy (W : Type) `{FileSystemLaws W} := {
  mtime : W -> Path -> Z;
  read_dir_works d w : exists ps w', fs_read_dir d w = (inr (map inr ps), w') /\ NoDup ps /\
    (forall p, p ∈ ps <-> parent p = d /\ is_Some (files w !! p)) /\ mtime w' = mtime w;
  metadata_works p w b : files w !! p = Some b -> exists w',
    fs_metadata p w = (inr (mkMetadata (Z.of_nat (length b)) (Some (mtime w p))), w') /\ mtime w' = mtime w;
  remove_works p w : is_Some (files w !! p) -> (fs_remove_file p w).1 = None;
  write_mtime p b w q : q <> p -> mtime (fs_write p b w).2 q = mtime w q }.

(** [bincode] for the rows of a slice: an encoding decodes to what was encoded,
    and no proper prefix of it decodes. *)
Class Codec (T : Type) := {
  serialize : list (Z * T) -> Error + bytes;
  deserialize : bytes -> Error + list (Z * T) }.

Class CodecLaws (T : Type) `{Codec T} : Prop := {
  deserialize_serialize rows b : serialize rows = inr b -> deserialize b = inr rows;
  deserialize_truncated rows b n : serialize rows = inr b -> (n < length b)%nat ->
    exists e, deserialize (take n b) = inl e }.

(** A call whose [Result] is kept as a value. *)
Definition io {W A} (f : W -> A * W) : M W A := fun w => let '(a, w') := f w in (Ok a, w').

(** ** [CacheKey] and [CacheConfig] *)

(** The digits [{:x}] prints of a SHA-256 digest: there are 64. *)
Class Hasher := hex_digest : bytes -> bytes.

Record CacheKey := mkKey { key_text : bytes }.

Definition hashed (parts : list bytes) : bytes := concat (map (fun p => p ++ ["000"%char]) parts).
Definition from_parts `{Hasher} (parts : list bytes) : CacheKey := mkKey (take 16 (hex_digest (hashed parts))).

Record CacheConfig := mkConfig { folder : bytes; max_size_bytes : Z }.

Definition is_cache (p : Path) : bool := bool_decide (extension p = Some (lit "cache")).

(** [join] on a slice of strings. *)
Fixpoint join (sep : bytes) (l : list bytes) : bytes :=
  match l with
  | [] => []
  | [x] => x
  | x :: l' => x ++ sep ++ join sep l'
  end.

Section clear.
Context {W : Type} `{FileSystem W}.

(** The loop over [entries.flatten()], with the messages collected so far. *)
Fixpoint clear_loop (entries : list (IoError + Path)) (errors : list bytes) : M W (list bytes) :=
  match entries with
  | [] => mreturn errors
  | inl _ :: rest => clear_loop rest errors
  | inr path :: rest =>
    if is_cache path then
      let! r := io (fs_remove_file path) in
      match r with
      | Some e => clear_loop rest (errors ++ [display path ++ lit ": " ++ lit (io_text e)])
      | None => clear_loop rest errors
      end
    else clear_loop rest errors
  end.

Definition clear (self : CacheConfig) : M W unit :=
  let! entries := io (fs_read_dir (folder self)) in
  match entries with
  | inl (NotFound _) => mreturn tt
  | inl e => mfail (io_error e)
  | inr entries =>
    let! errors := clear_loop entries [] in
    match errors with
    | [] => mreturn tt
    | _ => mfail (Msg (text (lit "cache clear errors:" ++ NEWLINE :: join [NEWLINE] errors)))
    end
  end.
End clear.

(** ** [FileCache] *)

Record CacheFile := mkFile { cf_path : Path; cf_size : Z; cf_mtime : Z }.

(** [sort_by_key], which is stable, on the time of the last modification. *)
Fixpoint insert_file (x : CacheFile) (l : list CacheFile) : list CacheFile :=
  match l with
  | [] => [x]
  | y :: l' => if cf_mtime x <=? cf_mtime y then x :: l else y :: insert_file x l'
  end.
Definition sort_files (l : list CacheFile) : list CacheFile := foldr insert_file [] l.

Definition sizes (l : list CacheFile) : Z := foldr (fun f n => cf_size f + n) 0 l.

Module FileCache.
Record FileCache := new { config : CacheConfig }.

Definition path (self : FileCache) (key : CacheKey) : Path :=
  mkPath (folder (config self)) (key_text key ++ lit ".cache").

Section cache.
Context {W T : Type} `{FileSystem W, Codec T}.

Definition get (self : FileCache) (key : CacheKey) : M W (option (list (Z * T))) :=
  let path := path self key in
  let! r := io (fs_read path) in
  match r with
  | inl (NotFound _) => mreturn None
  | inl e => mfail (io_error e)
  | inr bytes =>
    match split_at NEWLINE bytes with
    | None => mfail (Msg "cache file missing header newline")
    | Some (_, payload) =>
      match deserialize payload with
      | inl e => mfail e
      | inr raw =>
        do! io (fs_write path bytes) in
        mreturn (Some raw)
      end
    end
  end.

(** The [while let] over the entries of the folder. *)
Fixpoint scan (exclude : Path) (entries : list (IoError + Path)) : M W (list CacheFile) :=
  match entries with
  | [] | inl _ :: _ => mreturn []
  | inr p :: rest =>
    if is_cache p && negb (bool_decide (p = exclude)) then
      let! meta := io (fs_metadata p) in
      match meta with
      | inr meta =>
        let! l := scan exclude rest in
        mreturn (mkFile p (len meta) (default 0 (modified meta)) :: l)
      | inl _ => scan exclude rest
      end
    else scan exclude rest
  end.

(** The [for] that deletes. *)
Fixpoint evict_loop (freed needed : Z) (l : list CacheFile) : M W unit :=
  match l with
  | [] => mreturn tt
  | f :: rest =>
    if needed <=? freed then mreturn tt
    else
      let! r := io (fs_remove_file (cf_path f)) in
      match r with
      | None => evict_loop (wrap_u64 (freed + cf_size f)) needed rest
      | Some _ => evict_loop freed needed rest
      end
  end.

Definition evict_lru (self : FileCache) (new_size : Z) (exclude : Path) : M W unit :=
  let! entries := io (fs_read_dir (folder (config self))) in
  match entries with
  | inl _ => mreturn tt
  | inr entries =>
    let! l := scan exclude entries in
    let l := sort_files l in
    let total_existing := wrap_u64 (sizes l) in
    let needed := Z.max 0 (wrap_u64 (total_existing + new_size) - max_size_bytes (config self)) in
    if needed =? 0 then mreturn tt else evict_loop 0 needed l
  end.

Definition put (self : FileCache) (key : CacheKey) (query : bytes) (data : list (Z * T)) : M W unit :=
  let path := path self key in
  let tmp := with_extension (lit "tmp") path in
  match serialize data with
  | inl e => mfail e
  | inr payload =>
    let buf := query ++ [NEWLINE] ++ payload in
    let! r := io (fs_write tmp buf) in
    match r with
    | Some e => mfail (io_error e)
    | None =>
      do! (if max_size_bytes (config self) <? u64_max then evict_lru self (Z.of_nat (length buf)) path
           else mreturn tt) in
      let! r := io (fs_rename tmp path) in
      match r with Some e => mfail (io_error e) | None => mreturn tt end
    end
  end.
End cache.
End FileCache.
Export (hints) FileCache.
Abbreviation FileCache := FileCache.FileCache.
