(* ===== verification/CacheProps.v ===== *)
(** * What the file cache promises

    [get_coherent], [put_coherent]: whatever fails, a lookup finds what was stored
    under the query or nothing. [put_bounded]: what eviction leaves.
    [two_line_query_is_corrupt]: a query it cannot find again. First a file system in
    memory, to evaluate them on. *)
From stdpp Require Import sorting.
From S2P Require Import Prelude NanoTime Cache.
From Stdlib Require Import Strings.Ascii.
Local Open Scope Z_scope.

(** ** A file system in memory

    An instance of [FileSystem] and one of [Codec]. Each write takes the next time of
    a counter. They satisfy [FileSystemLaws], [Healthy] and [CodecLaws]; they model
    no code of their own. *)

Record MemFs := mkMem { contents : gmap Path bytes; times : gmap Path Z; clock : Z }.
Definition empty_fs : MemFs := mkMem ∅ ∅ 0.

Definition missing : IoError := NotFound "no such file".

#[export] Instance mem_fs : FileSystem MemFs := {
  fs_read p w := (match contents w !! p with Some b => inr b | None => inl missing end, w);
  fs_write p b w := (None, mkMem (<[p := b]> (contents w)) (<[p := clock w]> (times w)) (clock w + 1));
  fs_rename p q w :=
    match contents w !! p with
    | Some b => (None, mkMem (<[q := b]> (delete p (contents w)))
                  (<[q := default 0 (times w !! p)]> (delete p (times w))) (clock w))
    | None => (Some missing, w)
    end;
  fs_remove_file p w :=
    match contents w !! p with
    | Some _ => (None, mkMem (delete p (contents w)) (delete p (times w)) (clock w))
    | None => (Some missing, w)
    end;
  fs_create_dir_all _ w := (None, w);
  fs_read_dir d w := (inr (map inr (filter (fun p => parent p = d) (elements (dom (contents w))))), w);
  fs_metadata p w :=
    match contents w !! p with
    | Some b => (inr (mkMetadata (Z.of_nat (length b)) (Some (default 0 (times w !! p)))), w)
    | None => (inl missing, w)
    end }.

#[export] Program Instance mem_laws : FileSystemLaws MemFs := { files := contents }.
Next Obligation. intros p w. simpl. by destruct (contents w !! p). Qed.
Next Obligation. done. Qed.
Next Obligation. intros p q w. simpl. destruct (contents w !! p); [by eexists|done]. Qed.
Next Obligation. intros p w. simpl. by destruct (contents w !! p). Qed.
Next Obligation. done. Qed.
Next Obligation. done. Qed.
Next Obligation. intros p w. simpl. by destruct (contents w !! p). Qed.

#[export] Program Instance mem_healthy : Healthy MemFs := { mtime w p := default 0 (times w !! p) }.
Next Obligation.
  intros d w. simpl. eexists _, w. split_and!; [done|apply NoDup_filter, NoDup_elements| |done].
  intros p. by rewrite list_elem_of_filter, elem_of_elements, elem_of_dom.
Qed.
Next Obligation. intros p w b Hb. simpl in *. exists w. by rewrite Hb. Qed.
Next Obligation. intros p w [b Hb]. simpl in *. by rewrite Hb. Qed.
Next Obligation. intros p b w q Hq. simpl. by rewrite lookup_insert_ne. Qed.

(** Rows as the bits of their number, and a full stop. *)
Fixpoint bits (p : positive) : bytes :=
  match p with
  | xH => ["."%char]
  | xO p => "0"%char :: bits p
  | xI p => "1"%char :: bits p
  end.

Fixpoint unbits (b : bytes) : option positive :=
  match b with
  | ["."%char] => Some xH
  | "0"%char :: b => xO <$> unbits b
  | "1"%char :: b => xI <$> unbits b
  | _ => None
  end.

Lemma unbits_bits p : unbits (bits p) = Some p.
Proof. induction p as [p IH|p IH|]; simpl; [by rewrite IH..|done]. Qed.

Lemma unbits_truncated p n : (n < length (bits p))%nat -> unbits (take n (bits p)) = None.
Proof.
  revert n. induction p as [p IH|p IH|]; intros [|n] Hn; simpl in *; try done.
  - by rewrite IH by lia.
  - by rewrite IH by lia.
  - lia.
Qed.

#[export] Instance mem_codec : Codec Z := {
  serialize rows := inr (bits (encode rows));
  deserialize b :=
    match unbits b ≫= decode with Some rows => inr rows | None => inl (Msg "not an encoding") end }.

#[export] Program Instance mem_codec_laws : CodecLaws Z.
Next Obligation. intros rows b [= <-]. simpl. by rewrite unbits_bits; simpl; rewrite decode_encode. Qed.
Next Obligation. intros rows b n [= <-] Hn. eexists. simpl. by rewrite unbits_truncated. Qed.

(** A digest that tells the texts of up to 64 bytes apart, backwards. *)
#[export] Instance mem_hasher : Hasher := fun b =>
  take 64 (rev b ++ repeat "0"%char 64).

(** ** The cache *)

Lemma io_eq {W A B} (f : W -> A * W) (k : A -> M W B) w :
  mbind (io f) k w = k (f w).1 (f w).2.
Proof. unfold mbind, io. by destruct (f w). Qed.

(** ** Paths *)

Lemma last_lit (s : bytes) c t : last (s ++ c :: t) = last (c :: t).
Proof. rewrite last_app. by destruct (last (c :: t)) eqn:E; [|by apply last_None in E]. Qed.

Lemma tmp_not_cache p s d : with_extension (lit "tmp") p <> mkPath d (s ++ lit ".cache").
Proof.
  unfold with_extension. intros [= _ E]. apply (f_equal last) in E. by rewrite !last_lit in E.
Qed.

Lemma is_cache_inv p : is_cache p = true -> exists s, file_name p = s ++ lit ".cache".
Proof.
  unfold is_cache, extension, split_extension. rewrite bool_decide_eq_true.
  pose proof (split_at_inv "."%char (rev (file_name p))) as Hi.
  destruct (split_at _ _) as [[e [|c s]]|]; [done| |done]. destruct Hi as [Hi _].
  cbn [snd]. intros [= He]. exists (rev (c :: s)).
  rewrite <-(rev_involutive (file_name p)), Hi, rev_app_distr, He. cbn [rev]. by rewrite <-!app_assoc.
Qed.

Lemma is_cache_spec d k : k <> [] -> is_cache (mkPath d (k ++ lit ".cache")) = true.
Proof.
  intros Hk. unfold is_cache, extension, split_extension. rewrite bool_decide_eq_true. cbn [file_name].
  replace (rev (k ++ lit ".cache")) with (rev (lit "cache") ++ "."%char :: rev k) by (by rewrite rev_app_distr).
  rewrite split_at_app by (vm_compute; set_solver).
  destruct (rev k) eqn:E; [|done]. apply (f_equal (@rev ascii)) in E. by rewrite rev_involutive in E.
Qed.

Lemma tmp_is_no_cache p : is_cache (with_extension (lit "tmp") p) = false.
Proof.
  apply not_true_iff_false. intros [s Hs]%is_cache_inv.
  apply (tmp_not_cache p s (parent (with_extension (lit "tmp") p))). rewrite <-Hs.
  by destruct (with_extension _ p).
Qed.

(** ** Eviction only deletes *)

Section shrinks.
Context {W T : Type} `{FileSystemLaws W}.

Definition shrinks (w w' : W) : Prop := files w' ⊆ files w.

#[local] Instance shrinks_preorder : PreOrder shrinks.
Proof. split; [intros w; exact (reflexivity (files w))|intros w1 w2 w3; unfold shrinks; by etransitivity]. Qed.

Lemma respects_io {A} (R : relation W) (f : W -> A * W) :
  (forall w, R w (f w).2) -> respects R (io f).
Proof. intros Hf w r w' E. unfold io in E. specialize (Hf w). destruct (f w). by simplify_eq. Qed.

Lemma remove_shrinks p : respects shrinks (io (fs_remove_file p)).
Proof.
  apply respects_io. intros w. pose proof (remove_law p w) as Hr. unfold shrinks.
  destruct (fs_remove_file p w) as [[e|] w']; simpl; rewrite Hr; [done|apply delete_subseteq].
Qed.

Lemma metadata_shrinks p : respects shrinks (io (fs_metadata p)).
Proof. apply respects_io. intros w. unfold shrinks. by rewrite metadata_law. Qed.

Lemma read_dir_shrinks d : respects shrinks (io (fs_read_dir d)).
Proof. apply respects_io. intros w. unfold shrinks. by rewrite read_dir_law. Qed.

Lemma return_shrinks {A} (a : A) : respects shrinks (mreturn a).
Proof. apply respects_return, _. Qed.

#[local] Hint Resolve remove_shrinks metadata_shrinks read_dir_shrinks return_shrinks : core.

Lemma scan_shrinks exclude entries : respects shrinks (FileCache.scan exclude entries).
Proof.
  induction entries as [|[e|p] entries IH]; simpl; [by auto..|]. destruct (_ && _); [|done].
  apply respects_bind; [apply _|done|]. intros [e|m]; [done|].
  apply respects_bind; [apply _|done|]. auto.
Qed.

Lemma evict_loop_shrinks freed needed l : respects shrinks (FileCache.evict_loop freed needed l).
Proof.
  revert freed. induction l as [|f l IH]; intros freed; simpl; [by auto|].
  destruct (needed <=? freed); [by auto|]. apply respects_bind; [apply _|done|]. by intros [e|].
Qed.

Lemma evict_lru_shrinks self n exclude : respects shrinks (FileCache.evict_lru self n exclude).
Proof.
  unfold FileCache.evict_lru. apply respects_bind; [apply _|done|]. intros [e|entries]; [by auto|].
  apply respects_bind; [apply _|apply scan_shrinks|]. intros l. destruct (_ =? 0); [by auto|].
  apply evict_loop_shrinks.
Qed.

(** It never fails either. *)
Lemma scan_total exclude entries w : exists l w', FileCache.scan exclude entries w = (Ok l, w').
Proof.
  revert w. induction entries as [|[e|p] entries IH]; intros w; simpl; [by eauto..|].
  destruct (_ && _); [|done]. rewrite io_eq. destruct (fs_metadata p w).1 as [e|m]; [done|].
  destruct (IH (fs_metadata p w).2) as (l & w' & E). erewrite mbind_ok by exact E. by eauto.
Qed.

Lemma evict_loop_total freed needed l w : exists w', FileCache.evict_loop freed needed l w = (Ok tt, w').
Proof.
  revert freed w. induction l as [|f l IH]; intros freed w; simpl; [by eauto|].
  destruct (needed <=? freed); [by eauto|]. rewrite io_eq. by destruct (fs_remove_file _ w).1.
Qed.

Lemma evict_total self n exclude w :
  exists w', FileCache.evict_lru self n exclude w = (Ok tt, w') /\ files w' ⊆ files w.
Proof.
  assert (Ht : exists w', FileCache.evict_lru self n exclude w = (Ok tt, w')).
  { unfold FileCache.evict_lru. rewrite io_eq. destruct (fs_read_dir _ w).1 as [e|entries]; [by eauto|].
    destruct (scan_total exclude entries (fs_read_dir (folder (FileCache.config self)) w).2) as (l & w' & E).
    erewrite mbind_ok by exact E. simpl. destruct (_ =? 0); [by eauto|apply evict_loop_total]. }
  destruct Ht as [w' Ht]. exists w'. split; [done|]. by apply evict_lru_shrinks in Ht.
Qed.
End shrinks.

(** ** Coherence: the files hold answers, or parts of them *)

Section coherence.
Context {W T : Type} `{FileSystemLaws W, CodecLaws T, Hasher}.
(** The queries asked, those of them whose answers get to be stored, and the answers. *)
Context (self : FileCache) (admissible storable : bytes -> Prop) (answer : bytes -> list (Z * T)).

Definition key (query : bytes) : CacheKey := from_parts [query].
Abbreviation path q := (FileCache.path self (key q)).

Hypothesis one_line : forall q, admissible q -> NEWLINE ∉ q.
(** The digests of the queries asked differ in their first 64 bits. *)
Hypothesis collision_free : forall q1 q2, admissible q1 -> admissible q2 -> key q1 = key q2 -> q1 = q2.

Definition stored (query : bytes) (b : bytes) : Prop :=
  storable query /\ exists payload n, serialize (answer query) = inr payload /\ b = take n (query ++ NEWLINE :: payload).

Definition coherent (m : gmap Path bytes) : Prop :=
  forall q b, admissible q -> m !! path q = Some b -> stored q b.

Lemma coherent_sub m m' : m' ⊆ m -> coherent m -> coherent m'.
Proof. intros Hsub Hc q b Hq Hb. apply (Hc q b Hq). by eapply lookup_weaken. Qed.

Lemma path_inj q1 q2 : admissible q1 -> admissible q2 -> path q1 = path q2 -> q1 = q2.
Proof.
  unfold FileCache.path. intros ? ? [= Hk]. apply collision_free; [done..|].
  apply app_inv_tail in Hk. unfold key, from_parts in *. by destruct Hk.
Qed.

(** What can be read back of a stored file. *)
Lemma stored_read q b : admissible q -> stored q b ->
  match split_at NEWLINE b with
  | Some (_, payload) => deserialize payload = inr (answer q) \/ exists e, deserialize (T := T) payload = inl e
  | None => True
  end.
Proof.
  intros Hq (_ & payload & n & Hs & ->). pose proof (one_line q Hq) as Hnl.
  rewrite take_app. destruct (decide (n <= length q)%nat) as [Hle|Hgt].
  { replace (n - length q)%nat with O by lia. rewrite take_0, app_nil_r, split_at_none; [done|].
    intros (i & Hi & _)%elem_of_take. by eapply Hnl, list_elem_of_lookup_2. }
  rewrite (take_ge q) by lia. destruct (n - length q)%nat as [|k] eqn:Ek; [lia|]. simpl take.
  rewrite split_at_app by done. destruct (decide (length payload <= k)%nat).
  - left. rewrite take_ge by done. by eapply deserialize_serialize.
  - right. eapply deserialize_truncated; [done|lia].
Qed.

Lemma torn_stored q b c : stored q b -> torn b (Some b) (Some c) -> stored q c.
Proof.
  intros Hb [[= ->]|[[=]|[k [= ->]]]]; [done|]. destruct Hb as (Hst & payload & n & Hs & ->).
  split; [done|]. exists payload, (k `min` n)%nat. by rewrite take_take.
Qed.

Lemma get_coherent q w : admissible q -> coherent (files w) ->
  let '(r, w') := FileCache.get self (key q) w in coherent (files w') /\
    (r = Ok (Some (answer q)) /\ storable q \/ r = Ok None \/ exists e, r = Err e).
Proof.
  intros Hq Hc. unfold FileCache.get. rewrite io_eq.
  pose proof (read_law (path q) w) as Hr. destruct (fs_read _ w) as [[[why|why]|b] w1]; simpl in *.
  - rewrite (proj1 Hr). eauto.
  - rewrite (proj1 Hr). eauto.
  - destruct Hr as [Hw1 Hb]. rewrite <-Hw1 in Hc, Hb. pose proof (Hc q b Hq Hb) as Hst.
    pose proof (stored_read q b Hq Hst) as Hd.
    destruct (split_at NEWLINE b) as [[h payload]|]; [|simpl; by eauto].
    destruct (deserialize payload) as [e|raw]; [simpl; by eauto|].
    destruct Hd as [[= ->]|[? ?]]; [|done].
    rewrite io_eq. pose proof (write_law (path q) b w1) as Hwr.
    destruct (fs_write _ b w1) as [[e|] w2]; simpl in *; (split; [|by destruct Hst; eauto]).
    + destruct Hwr as (c & -> & Ht). intros q' b' Hq' Hb'.
      destruct (decide (path q' = path q)) as [Heq|Hne].
      * apply path_inj in Heq as ->; [|done..]. rewrite lookup_partial_alter_eq in Hb'. subst c.
        rewrite Hb in Ht. by eapply torn_stored.
      * rewrite lookup_partial_alter_ne in Hb' by done. by apply Hc.
    + rewrite Hwr, insert_id by done. done.
Qed.
(** Nothing evicted, written to the side or renamed can spoil an answer. *)
Lemma put_coherent q w : admissible q -> storable q -> coherent (files w) ->
  let '(r, w') := FileCache.put self (key q) q (answer q) w in coherent (files w') /\
    (r = Ok tt \/ exists e, r = Err e).
Proof.
  intros Hq Hst Hc. unfold FileCache.put. destruct (serialize (answer q)) as [e|payload] eqn:Hs; [simpl; by eauto|].
  set (buf := q ++ [NEWLINE] ++ payload). set (tmp := with_extension _ _).
  assert (Htmp : forall q', tmp <> path q') by (intros q'; apply tmp_not_cache).
  assert (Hside : forall m c, coherent m -> coherent (partial_alter (fun _ => c) tmp m)).
  { intros m c Hm q' b' Hq' Hb'. rewrite lookup_partial_alter_ne in Hb' by done. by apply Hm. }
  rewrite io_eq. pose proof (write_law tmp buf w) as Hwr. destruct (fs_write tmp buf w) as [[e|] w1]; simpl in Hwr.
  { destruct Hwr as (c & Hw1 & _). simpl. rewrite Hw1. eauto. }
  simpl. assert (Hc1 : coherent (files w1)) by (rewrite Hwr; by apply Hside).
  set (evict := if _ <? _ then _ else _).
  assert (Hev : exists w2, evict w1 = (Ok tt, w2) /\ files w2 ⊆ files w1).
  { unfold evict. destruct (_ <? _); [|by eexists]. apply evict_total. }
  destruct Hev as (w2 & Hev & Hsub). erewrite mbind_ok by exact Hev. rewrite io_eq.
  pose proof (rename_law tmp (path q) w2) as Hrn. pose proof (coherent_sub _ _ Hsub Hc1) as Hc2.
  destruct (fs_rename tmp _ w2) as [[e|] w3]; simpl in *; [rewrite Hrn; by eauto|].
  split; [|by eauto]. destruct Hrn as (b & Hb & ->). eapply lookup_weaken in Hb; [|done].
  rewrite Hwr, lookup_insert_eq in Hb. injection Hb as <-. intros q' b' Hq' Hb'.
  destruct (decide (path q' = path q)) as [Heq|Hne].
  - apply path_inj in Heq as ->; [|done..]. rewrite lookup_insert_eq in Hb'. injection Hb' as <-.
    split; [done|]. exists payload, (length buf). by rewrite take_ge.
  - rewrite lookup_insert_ne, lookup_delete_ne in Hb' by done. by apply Hc2.
Qed.
End coherence.

(** ** What eviction keeps *)

Lemma insert_file_perm x l : Permutation (insert_file x l) (x :: l).
Proof.
  induction l as [|y l IH]; simpl; [done|]. destruct (_ <=? _); [done|]. rewrite IH. apply perm_swap.
Qed.

Lemma sort_files_perm l : Permutation (sort_files l) l.
Proof. induction l as [|x l IH]; simpl; [done|]. by rewrite insert_file_perm, IH. Qed.

Definition older (x y : CacheFile) : Prop := cf_mtime x <= cf_mtime y.

Lemma insert_file_sorted x l : StronglySorted older l -> StronglySorted older (insert_file x l).
Proof.
  unfold older. induction 1 as [|y l Hs IH Hy]; simpl; [by repeat constructor|].
  destruct (Z.leb_spec (cf_mtime x) (cf_mtime y)).
  - constructor; [by constructor|]. constructor; [done|]. eapply Forall_impl; [done|]. simpl. lia.
  - constructor; [done|]. rewrite insert_file_perm. constructor; [lia|done].
Qed.

Lemma sort_files_sorted l : StronglySorted older (sort_files l).
Proof. induction l as [|x l IH]; simpl; [constructor|]. by apply insert_file_sorted. Qed.

Lemma sizes_app l1 l2 : sizes (l1 ++ l2) = sizes l1 + sizes l2.
Proof. induction l1 as [|f l1 IH]; simpl; lia. Qed.

#[export] Instance sizes_perm : Proper (Permutation ==> eq) sizes.
Proof. induction 1; simpl; lia. Qed.

Definition size_at (m : gmap Path bytes) (p : Path) : Z := Z.of_nat (length (default [] (m !! p))).

(** The cache files of a folder, and their size. *)
Definition cache_paths (d : bytes) (m : gmap Path bytes) : list Path :=
  filter (fun p => parent p = d /\ is_cache p = true) (elements (dom m)).
Definition total (m : gmap Path bytes) (l : list Path) : Z := foldr (fun p n => size_at m p + n) 0 l.
Definition folder_size (d : bytes) (m : gmap Path bytes) : Z := total m (cache_paths d m).

Lemma elem_of_cache_paths d m p :
  p ∈ cache_paths d m <-> parent p = d /\ is_cache p = true /\ is_Some (m !! p).
Proof. unfold cache_paths. rewrite list_elem_of_filter, elem_of_elements, elem_of_dom. tauto. Qed.

Lemma NoDup_cache_paths d m : NoDup (cache_paths d m).
Proof. apply NoDup_filter, NoDup_elements. Qed.

#[export] Instance total_perm m : Proper (Permutation ==> eq) (total m).
Proof. induction 1; simpl; lia. Qed.

Lemma total_ext m m' l : (forall p, p ∈ l -> size_at m p = size_at m' p) -> total m l = total m' l.
Proof.
  induction l as [|p l IH]; intros Hl; simpl; [done|].
  rewrite IH by (intros q Hq; apply Hl; by right). rewrite (Hl p) by (by left). done.
Qed.

Lemma sizes_nonneg l : Forall (fun f => 0 <= cf_size f) l -> 0 <= sizes l.
Proof. induction 1; simpl; lia. Qed.

Definition delete_all (gone : list CacheFile) (m : gmap Path bytes) : gmap Path bytes :=
  foldl (fun m f => delete (cf_path f) m) m gone.

Lemma lookup_delete_all gone m p :
  delete_all gone m !! p = if bool_decide (p ∈ map cf_path gone) then None else m !! p.
Proof.
  unfold delete_all. revert m. induction gone as [|f gone IH]; intros m; cbn [foldl map].
  { by rewrite bool_decide_eq_false_2 by apply not_elem_of_nil. }
  rewrite IH. case_bool_decide as Hin; case_bool_decide as Hin'; [done|set_solver| |].
  - apply elem_of_cons in Hin' as [->|]; [apply lookup_delete_eq|done].
  - apply lookup_delete_ne. set_solver.
Qed.

Section bound.
Context {W T : Type} `{Healthy W, Codec T}.

Definition entry (w : W) (p : Path) : CacheFile := mkFile p (size_at (files w) p) (mtime w p).

Lemma scan_spec exclude ps w :
  Forall (fun p => is_Some (files w !! p)) ps ->
  exists w', FileCache.scan exclude (map inr ps) w =
      (Ok (map (entry w) (filter (fun p => is_cache p = true /\ p <> exclude) ps)), w') /\
    files w' = files w /\ mtime w' = mtime w.
Proof.
  intros Hps. induction ps as [|p ps IH] in w, Hps |- *; [by eexists|].
  apply Forall_cons in Hps as [[b Hb] Hps]. simpl map. cbn [FileCache.scan].
  rewrite filter_cons. destruct (is_cache p && _) eqn:Hif.
  - apply andb_true_iff in Hif as [Hc Hx%negb_true_iff%bool_decide_eq_false]. rewrite decide_True by done.
    destruct (metadata_works p w b Hb) as (w1 & Hm & Ht). pose proof (metadata_law p w) as Hf.
    rewrite io_eq, Hm in *. simpl in Hf |- *.
    destruct (IH w1) as (w2 & Hs & Hf2 & Ht2); [by rewrite Hf|]. erewrite mbind_ok by exact Hs.
    exists w2. split_and!; [|congruence..]. unfold mreturn. do 3 f_equal.
    + unfold entry, size_at. by rewrite Hb.
    + apply map_ext. intros q. unfold entry. by rewrite Hf, Ht.
  - rewrite decide_False; [by apply IH|]. intros [Hc Hx]. by rewrite Hc, bool_decide_eq_false_2 in Hif.
Qed.

Lemma evict_loop_spec freed needed l w :
  Forall (fun f => 0 <= cf_size f /\ is_Some (files w !! cf_path f)) l -> NoDup (map cf_path l) ->
  0 <= freed -> freed + sizes l <= u64_max ->
  exists gone kept w', FileCache.evict_loop freed needed l w = (Ok tt, w') /\ l = gone ++ kept /\
    files w' = delete_all gone (files w) /\ (kept = [] \/ needed <= freed + sizes gone).
Proof.
  intros Hl Hnd Hfr Hmax. induction l as [|f l IH] in w, freed, Hl, Hnd, Hfr, Hmax |- *.
  { exists [], [], w. split_and!; [done..|by left]. }
  cbn [FileCache.evict_loop]. destruct (Z.leb_spec needed freed) as [Hle|Hlt].
  { exists [], (f :: l), w. split_and!; [done..|]. right. simpl. lia. }
  apply Forall_cons in Hl as [[Hsz Hf] Hl]. apply NoDup_cons in Hnd as [Hfl Hnd]. cbn [sizes foldr] in Hmax.
  rewrite io_eq. pose proof (remove_works _ _ Hf) as Hok. pose proof (remove_law (cf_path f) w) as Hr.
  destruct (fs_remove_file _ w) as [r w1]; simpl in Hok; subst r. simpl fst in *. simpl snd in *.
  assert (Hnn : 0 <= sizes l) by (apply sizes_nonneg; eapply Forall_impl; [exact Hl|]; by intros ? [? _]).
  unfold sizes in Hnn. rewrite wrap_u64_small by (unfold is_u64; lia).
  destruct (IH (freed + cf_size f) w1) as (gone & kept & w2 & He & -> & Hf2 & Hk); [|done|lia|unfold sizes; lia|].
  { rewrite Hr. apply Forall_forall. intros g Hg. rewrite Forall_forall in Hl. destruct (Hl g Hg) as [? ?].
    split; [done|]. rewrite lookup_delete_ne; [done|]. intros Heq. apply Hfl. rewrite Heq.
    by apply list_elem_of_fmap_2. }
  exists (f :: gone), kept, w2. split_and!; [done|done|by rewrite Hf2, Hr|].
  destruct Hk as [->|Hk]; [by left|right]. cbn [sizes foldr]. unfold sizes in Hk. lia.
Qed.
Lemma total_entries w l : sizes (map (entry w) l) = total (files w) l.
Proof. unfold sizes, total. induction l as [|p l IH]; simpl; [done|]. by rewrite IH. Qed.

Lemma entries_paths w l : map cf_path (map (entry w) l) = l.
Proof. rewrite map_map. apply map_id. Qed.

Definition others (d : bytes) (exclude : Path) (w : W) : list Path :=
  filter (fun p => p <> exclude) (cache_paths d (files w)).

Lemma evict_lru_spec self new exclude w :
  let d := folder (FileCache.config self) in
  let max := max_size_bytes (FileCache.config self) in
  0 <= new -> total (files w) (others d exclude w) + new <= u64_max -> 0 <= max ->
  exists gone kept w', FileCache.evict_lru self new exclude w = (Ok tt, w') /\
    Permutation (gone ++ kept) (map (entry w) (others d exclude w)) /\
    StronglySorted older (gone ++ kept) /\ files w' = delete_all gone (files w) /\
    (kept = [] \/ sizes kept + new <= max) /\
    (total (files w) (others d exclude w) + new <= max -> gone = []).
Proof.
  intros d max Hnew Hmax Hm. unfold FileCache.evict_lru. rewrite io_eq. fold d max.
  destruct (read_dir_works d w) as (ps & w1 & Hrd & Hnd & Hps & Ht1).
  pose proof (read_dir_law d w) as Hf1. rewrite Hrd in Hf1 |- *. simpl in Hf1. cbn [fst snd].
  destruct (scan_spec exclude ps w1) as (w2 & Hs & Hf2 & Ht2).
  { apply Forall_forall. intros p Hp. rewrite Hf1. by apply Hps. }
  erewrite mbind_ok by exact Hs. set (found := map _ (filter _ ps)).
  assert (Hfound : Permutation found (map (entry w) (others d exclude w))).
  { unfold found. replace (entry w1) with (entry w).
    2: { unfold entry. by rewrite Hf1, Ht1. }
    apply Permutation_map, list.NoDup_Permutation; [by apply NoDup_filter|by apply NoDup_filter, NoDup_cache_paths|].
    intros p. unfold others. rewrite !list_elem_of_filter, elem_of_cache_paths, Hps. tauto. }
  assert (Hsz : sizes (sort_files found) = total (files w) (others d exclude w)).
  { by rewrite sort_files_perm, Hfound, total_entries. }
  assert (Hge : Forall (fun f => 0 <= cf_size f /\ is_Some (files w2 !! cf_path f)) (sort_files found)).
  { rewrite sort_files_perm, Hfound. apply Forall_forall. intros f (p & -> & Hp)%list_elem_of_fmap.
    rewrite Hf2, Hf1. apply list_elem_of_filter in Hp as [_ (_ & _ & Hp)%elem_of_cache_paths].
    split; [unfold entry, size_at; simpl; lia|done]. }
  assert (Hnn : 0 <= sizes (sort_files found)).
  { apply sizes_nonneg. eapply Forall_impl; [exact Hge|]. by intros ? [? _]. }
  rewrite <-sort_files_perm in Hfound. rewrite <-Hsz in Hmax |- *.
  cbv beta zeta. fold max. rewrite (wrap_u64_small (sizes _)) by (unfold is_u64; lia).
  rewrite wrap_u64_small by (unfold is_u64; lia).
  destruct (Z.eqb_spec (Z.max 0 (sizes (sort_files found) + new - max)) 0) as [Hz|Hz].
  { exists [], (sort_files found), w2. split_and!; [done|done|apply sort_files_sorted|simpl; congruence|right; lia|done]. }
  destruct (evict_loop_spec 0 (Z.max 0 (sizes (sort_files found) + new - max)) (sort_files found) w2)
    as (gone & kept & w3 & He & Happ & Hf3 & Hk); [done| |lia|lia|].
  { rewrite Hfound, entries_paths. apply NoDup_filter, NoDup_cache_paths. }
  exists gone, kept, w3. split_and!; [done|by rewrite <-Happ|rewrite <-Happ; apply sort_files_sorted|congruence| |lia].
  destruct Hk as [->|Hk]; [by left|right]. rewrite Happ, sizes_app in Hk, Hz. lia.
Qed.
(** The state [put] has made when it starts to evict. *)
Lemma others_side d p0 tmp w w1 buf :
  is_cache tmp = false -> files w1 = <[tmp := buf]> (files w) ->
  (forall q, q <> tmp -> mtime w1 q = mtime w q) ->
  (forall p, p ∈ others d p0 w -> entry w1 p = entry w p) /\
  Permutation (others d p0 w1) (others d p0 w).
Proof.
  intros Htmp Hf Ht.
  assert (Hne : forall p, is_cache p = true -> tmp <> p) by (intros p Hp <-; congruence).
  split.
  - intros p [_ (_ & Hc & _)%elem_of_cache_paths]%list_elem_of_filter. unfold entry, size_at.
    rewrite Hf, Ht, lookup_insert_ne by (specialize (Hne p Hc); congruence). done.
  - apply list.NoDup_Permutation; [apply NoDup_filter, NoDup_cache_paths..|].
    intros p. unfold others. rewrite !list_elem_of_filter, !elem_of_cache_paths, Hf.
    destruct (is_cache p) eqn:Hc; [|naive_solver].
    rewrite lookup_insert_ne by (by apply Hne). done.
Qed.

(** How much is left when what is kept has been joined by the new file. *)
Lemma folder_size_after d p0 b w gone kept m :
  parent p0 = d -> is_cache p0 = true ->
  Permutation (gone ++ kept) (map (entry w) (others d p0 w)) ->
  m !! p0 = Some b ->
  (forall p, is_cache p = true -> p <> p0 -> m !! p = delete_all gone (files w) !! p) ->
  folder_size d m = Z.of_nat (length b) + sizes kept /\
  (forall p, p ∈ others d p0 w -> is_Some (m !! p) -> p ∈ map cf_path kept).
Proof.
  intros Hd Hc0 Hperm Hb Hm.
  assert (Hnd : NoDup (map cf_path gone ++ map cf_path kept)).
  { rewrite <-map_app, Hperm, entries_paths. apply NoDup_filter, NoDup_cache_paths. }
  apply NoDup_app in Hnd as (_ & Hdisj & Hnk).
  assert (Hin : forall p, p ∈ map cf_path gone \/ p ∈ map cf_path kept <-> p ∈ others d p0 w).
  { intros p. by rewrite <-elem_of_app, <-map_app, Hperm, entries_paths. }
  assert (Hkept : forall p, p ∈ others d p0 w -> is_Some (m !! p) <-> p ∈ map cf_path kept).
  { intros p Hp. pose proof Hp as Hp2. apply list_elem_of_filter in Hp2 as [Hne (_ & Hc & Hs)%elem_of_cache_paths].
    rewrite Hm, lookup_delete_all by done. case_bool_decide as Hg.
    - split; [by intros [? ?]|]. intros Hk. by destruct (Hdisj p Hg).
    - split; [|done]. intros _. apply Hin in Hp as [?|?]; done. }
  split; [|intros p Hp; by apply Hkept].
  assert (Hpaths : Permutation (cache_paths d m) (p0 :: map cf_path kept)).
  { apply list.NoDup_Permutation; [apply NoDup_cache_paths| |].
    - constructor; [|done]. intros Hk. assert (Ho : p0 ∈ others d p0 w) by (apply Hin; by right).
      by apply list_elem_of_filter in Ho as [? _].
    - intros p. rewrite elem_of_cache_paths, elem_of_cons. split.
      + intros (Hp & Hc & Hs). destruct (decide (p = p0)) as [|Hne]; [by left|right]. apply Hkept; [|done].
        apply list_elem_of_filter. split; [done|]. apply elem_of_cache_paths. split_and!; [done..|].
        rewrite Hm, lookup_delete_all in Hs by done. case_bool_decide; [by destruct Hs|done].
      + intros [->|Hk]; [by rewrite Hb|]. assert (Ho : p ∈ others d p0 w) by (apply Hin; by right).
        split_and!; [| |by apply Hkept]; by apply list_elem_of_filter in Ho as [_ (? & ? & _)%elem_of_cache_paths]. }
  unfold folder_size. rewrite Hpaths. cbn [total foldr]. unfold size_at at 1. rewrite Hb. cbn [default]. f_equal.
  assert (Hk : kept = map (entry w) (map cf_path kept)).
  { rewrite map_map. rewrite <-(map_id kept) at 1. apply map_ext_in. intros f Hf%list_elem_of_In.
    assert (Hf2 : f ∈ gone ++ kept) by (apply elem_of_app; by right). rewrite Hperm in Hf2.
    by apply list_elem_of_fmap in Hf2 as (p & -> & _). }
  rewrite Hk at 2. rewrite total_entries. apply total_ext. intros p Hp. unfold size_at.
  assert (Ho : p ∈ others d p0 w) by (apply Hin; by right).
  apply list_elem_of_filter in Ho as [Hne (_ & Hc & _)%elem_of_cache_paths].
  rewrite Hm, lookup_delete_all, bool_decide_eq_false_2; [done| |done..].
  intros Hg. by destruct (Hdisj p Hg).
Qed.

Definition file_bytes (query payload : bytes) : bytes := query ++ [NEWLINE] ++ payload.

(** A successful [put], by the files it deletes and those it keeps. *)
Lemma put_spec self key query data payload w w' :
  let d := folder (FileCache.config self) in
  let max := max_size_bytes (FileCache.config self) in
  let p0 := FileCache.path self key in
  let size := Z.of_nat (length (file_bytes query payload)) in
  is_cache p0 = true -> 0 <= max < u64_max ->
  serialize data = inr payload -> total (files w) (others d p0 w) + size <= u64_max ->
  FileCache.put self key query data w = (Ok tt, w') ->
  exists gone kept, Permutation (gone ++ kept) (map (entry w) (others d p0 w)) /\
    StronglySorted older (gone ++ kept) /\ files w' !! p0 = Some (file_bytes query payload) /\
    (forall p, p <> p0 -> p <> with_extension (lit "tmp") p0 -> files w' !! p = delete_all gone (files w) !! p) /\
    (kept = [] \/ sizes kept + size <= max) /\
    (total (files w) (others d p0 w) + size <= max -> gone = []).
Proof.
  intros d max p0 size Hc0 Hmax Hser Htot. set (tmp := with_extension (lit "tmp") p0).
  pose proof (tmp_is_no_cache p0) as Htc. fold tmp in Htc.
  unfold FileCache.put. rewrite Hser. fold p0 tmp. change (query ++ _) with (file_bytes query payload).
  rewrite io_eq. pose proof (write_law tmp (file_bytes query payload) w) as Hw.
  pose proof (write_mtime tmp (file_bytes query payload) w) as Ht.
  destruct (fs_write tmp _ w) as [[e|] w1]; simpl in Hw, Ht; [done|]. cbn [fst snd].
  destruct (others_side d p0 tmp w w1 _ Htc Hw Ht) as [Hent Hoth].
  rewrite (proj2 (Z.ltb_lt _ _)) by (fold max; lia). fold size.
  assert (Hmap : map (entry w1) (others d p0 w) = map (entry w) (others d p0 w)).
  { apply map_ext_in. intros p Hp%list_elem_of_In. by apply Hent. }
  assert (Htot1 : total (files w1) (others d p0 w1) = total (files w) (others d p0 w)).
  { by rewrite Hoth, <-!total_entries, Hmap. }
  destruct (evict_lru_spec self size p0 w1) as (gone & kept & w2 & He & Hperm & Hsort & Hf2 & Hfit & Hnone);
    fold d max; [lia|lia|lia|]. fold d max in Hperm, Hnone. erewrite mbind_ok by exact He. rewrite io_eq.
  pose proof (rename_law tmp p0 w2) as Hr. destruct (fs_rename tmp p0 w2) as [[e|] w3]; simpl in Hr |- *; [done|].
  intros [= <-]. destruct Hr as (b & Hb & Hf3). rewrite Hoth, Hmap in Hperm. rewrite Htot1 in Hnone.
  exists gone, kept. rewrite Hf3, lookup_insert_eq. split_and!; [done|done| | |done|done].
  - rewrite Hf2, lookup_delete_all, Hw, lookup_insert_eq in Hb. by destruct (bool_decide _).
  - intros p Hp0 Hpt. rewrite lookup_insert_ne, lookup_delete_ne, Hf2, !lookup_delete_all, Hw by congruence.
    by rewrite lookup_insert_ne by congruence.
Qed.

(** C37: What [put] leaves, when the calls of the file system succeed. The new file
    is there, and the cache files of the folder take no more than the limit, or
    than the new file if that is larger. Every other file is as it was, or was
    one of them and is deleted; the deleted ones were not used later than any
    that stay; and when they all fit none is deleted. *)
Theorem put_bounded self key query data payload w w' :
  let d := folder (FileCache.config self) in
  let max := max_size_bytes (FileCache.config self) in
  let p0 := FileCache.path self key in
  let size := Z.of_nat (length (file_bytes query payload)) in
  key_text key <> [] -> 0 <= max < u64_max ->
  serialize data = inr payload -> total (files w) (others d p0 w) + size <= u64_max ->
  FileCache.put self key query data w = (Ok tt, w') ->
  files w' !! p0 = Some (file_bytes query payload) /\
  folder_size d (files w') <= Z.max max size /\
  (forall p, p <> p0 -> p <> with_extension (lit "tmp") p0 ->
     files w' !! p = files w !! p \/ p ∈ others d p0 w /\ files w' !! p = None) /\
  (forall p q, p ∈ others d p0 w -> q ∈ others d p0 w ->
     files w' !! p = None -> is_Some (files w' !! q) -> mtime w p <= mtime w q) /\
  (total (files w) (others d p0 w) + size <= max ->
     forall p, p ∈ others d p0 w -> files w' !! p = files w !! p).
Proof.
  intros d max p0 size Hkey Hmax Hser Htot Hput.
  assert (Hc0 : is_cache p0 = true) by (by apply is_cache_spec).
  destruct (put_spec self key query data payload w w' Hc0 Hmax Hser Htot Hput)
    as (gone & kept & Hperm & Hsort & Hp0 & Hlook & Hfit & Hnone). fold d p0 in Hperm, Hlook, Hnone.
  pose proof (tmp_is_no_cache p0) as Htc.
  assert (Hgone : forall p, p ∈ map cf_path gone -> p ∈ others d p0 w).
  { intros p Hp. rewrite <-(entries_paths w), <-Hperm, map_app. apply elem_of_app. by left. }
  assert (Hnt : forall p, p ∈ others d p0 w -> p <> p0 /\ p <> with_extension (lit "tmp") p0).
  { intros p [Hp (_ & Hc & _)%elem_of_cache_paths]%list_elem_of_filter. split; [done|congruence]. }
  destruct (folder_size_after d p0 _ w gone kept (files w') eq_refl Hc0 Hperm Hp0) as [Hsize Hkept].
  { intros p Hp Hpp. apply Hlook; [done|congruence]. }
  split_and!; [done| | | |].
  - rewrite Hsize. fold size max in Hfit |- *. destruct Hfit as [->|Hfit]; simpl; lia.
  - intros p H1p H2p. rewrite Hlook, lookup_delete_all by done.
    case_bool_decide as Hin; [right; by split; [apply Hgone|]|by left].
  - intros p q Hp Hq Hpn Hqs. destruct (Hnt p Hp) as [Hp1 Hp2]. apply Hkept in Hqs; [|done].
    rewrite Hlook, lookup_delete_all in Hpn by done. case_bool_decide as Hin.
    2: { apply list_elem_of_filter in Hp as [_ (_ & _ & [? ?])%elem_of_cache_paths]. congruence. }
    apply list_elem_of_fmap in Hin as (f & -> & Hf). apply list_elem_of_fmap in Hqs as (g & -> & Hg).
    assert (Hm : forall h, h ∈ gone ++ kept -> mtime w (cf_path h) = cf_mtime h).
    { intros h Hh. rewrite Hperm in Hh. by apply list_elem_of_fmap in Hh as (? & -> & _). }
    rewrite !Hm by (apply elem_of_app; by auto).
    by apply (StronglySorted_app_1_elem_of older gone kept f g).
  - intros Hall p Hp. destruct (Hnt p Hp). rewrite Hlook by done. by rewrite Hnone.
Qed.
End bound.

(** Room for two entries of three: [a] is looked up after [b] is stored, so it is
    [b] that goes. A new entry larger than the limit pushes out the others and
    stays. *)
Definition small_cache : FileCache := FileCache.new (mkConfig (lit "c") 60).
Definition small_put (i q : string) (rows : list (Z * Z)) (w : MemFs) : Res unit * MemFs :=
  FileCache.put small_cache (mkKey (lit i)) (lit q) rows w.
Definition small_world : MemFs :=
  let w := (small_put "b" "qb" [(9, 9)] (small_put "a" "qa" [(7, 7)] empty_fs).2).2 in
  (FileCache.get (T := Z) small_cache (mkKey (lit "a")) w).2.
Definition present (w : MemFs) (i : string) : bool :=
  bool_decide (is_Some (files w !! FileCache.path small_cache (mkKey (lit i)))).

Lemma put_bounded_witness :
  let w := (small_put "c" "qc" [(1, 9)] small_world).2 in
  (files w !! FileCache.path small_cache (mkKey (lit "c")) = Some (file_bytes (lit "qc") (bits (encode [(1, 9)]))) /\
   folder_size (lit "c") (files w) <= 60) /\
  map (present small_world) ["a"; "b"; "c"] = [true; true; false] /\
  map (present w) ["a"; "b"; "c"] = [true; false; true] /\
  let w := (small_put "d" "q" [(1, 2); (3, 4); (5, 6); (7, 8); (9, 10)] w).2 in
  map (present w) ["a"; "c"; "d"] = [false; false; true] /\ folder_size (lit "c") (files w) = 87.
Proof.
  split_and!; [| |by vm_compute..].
  all: edestruct (put_bounded small_cache (mkKey (lit "c")) (lit "qc") [(1, 9)]
    (bits (encode [(1, 9)])) small_world) as (Hp & Hs & _);
    [done|vm_compute; split; done|reflexivity|vm_compute; discriminate|vm_compute; reflexivity|].
  - exact Hp.
  - etransitivity; [exact Hs|]. vm_compute. discriminate.
Defined.

(** A query of two lines is stored and cannot be found again: the first line end
    of the file is taken for the end of the query. *)
Lemma two_line_query_is_corrupt :
  let k := mkKey (lit "k") in let q := lit "select x" ++ NEWLINE :: lit "from t" in
  let '(r, w) := FileCache.put small_cache k q [(7, 7)] empty_fs in
  r = Ok tt /\ (FileCache.get (T := Z) small_cache k w).1 = Err (Msg "not an encoding").
Proof. by vm_compute. Qed.
