(* ===== verification/Kdb.v ===== *)
(** * Reading from kdb+: [wingfoil/src/adapters/kdb/]

    The time-sliced reader, the cached reader and the live subscription. A value
    [K] of the client library and a connection to a server are the classes
    [KValue] and [Client]; the program's row type is [KdbDeserialize]. An async
    stream is the list of its items when it is consumed to its end, and what
    consuming it does to the connection and the file system.

    [KdbWrite]: each burst becomes one [insert] whose columns are printed as q. How
    a floating-point number and a time are printed is the Standard Library's and
    [chrono]'s: the class [FloatText] and the argument [format_time].
    [columns_correct]: a burst is transposed or refused. [symbol_reads_back]: a
    symbol is quoted so that it reads back. *)
From stdpp Require Import pretty.
From S2P Require Import Prelude NanoTime GraphState TimeSlices Cache GraphNodes AsyncNodes.
From Stdlib Require Import Strings.Ascii.
Local Open Scope Z_scope.

(** [KdbError], by the variants the adapter builds; the client's own errors have
    a text. *)
Inductive KdbError :=
| IndexOutOfBounds (index length : nat)
| InvalidOperation (operator operand_type : string) (expected : option string)
| ClientError (why : string).

(** The type numbers of q. *)
Module qtype.
Definition COMPOUND_LIST : Z := 0.
Definition BOOL_LIST : Z := 1.
Definition SHORT_LIST : Z := 5.
Definition INT_LIST : Z := 6.
Definition LONG_LIST : Z := 7.
Definition REAL_LIST : Z := 8.
Definition FLOAT_LIST : Z := 9.
Definition STRING : Z := 10.
Definition SYMBOL_LIST : Z := 11.
Definition TIMESTAMP_LIST : Z := 12.
Definition DATE_LIST : Z := 14.
Definition TIMESPAN_LIST : Z := 16.
Definition TIME_LIST : Z := 19.
Definition TABLE : Z := 98.
Definition BOOL_ATOM : Z := -1.
Definition INT_ATOM : Z := -6.
Definition LONG_ATOM : Z := -7.
Definition REAL_ATOM : Z := -8.
Definition FLOAT_ATOM : Z := -9.
Definition SYMBOL_ATOM : Z := -11.
Definition ERROR : Z := -128.
End qtype.

(** The element types of the vectors a [K] can hold. *)
Inductive VecKind := VLong | VFloat | VSymbol | VByte | VInt | VShort | VBool | VReal | VCompound.

(** [as_vec] and the constructor of an atom from an element, at each element type:
    [atoms k v] is [k.as_vec()] with each element made a [K] (a clone, for a
    compound list). *)
Class KValue (K : Type) := {
  get_type : K -> Z;
  k_len : K -> nat;
  get_dictionary : K -> KdbError + K;
  as_vec_K : K -> KdbError + list K;
  as_vec_String : K -> KdbError + list bytes;
  atoms : VecKind -> K -> KdbError + list K;
  get_long : K -> KdbError + Z;
  get_symbol : K -> KdbError + bytes;
  (* [Display], through which an error becomes an [anyhow::Error] *)
  kdb_text : KdbError -> string }.

Definition ok_of {E A} (r : E + A) : option A := match r with inr a => Some a | inl _ => None end.

(** ** Rows: [KdbExt], [Rows], [RowIter], [Row] *)

Section rows.
Context {K : Type} `{KValue K}.

Record Rows := mkRows { r_columns : list K; n_rows : nat }.
Record Row := mkRow { row_columns : list K; row_index : nat }.
Record RowIter := mkRowIter { ri_columns : list K; ri_rows : nat; ri_current : nat }.

Definition kdb_error (e : KdbError) : Error := Msg (kdb_text e).

Definition element_at (k : K) (index : nat) : KdbError + K :=
  let ktype := get_type k in
  let vec kind := inr (ok_of (atoms kind k) ≫= (.!! index)) in
  let result : KdbError + option K :=
    if (ktype =? qtype.LONG_LIST) || (ktype =? qtype.TIMESTAMP_LIST) || (ktype =? qtype.TIMESPAN_LIST) then vec VLong
    else if ktype =? qtype.FLOAT_LIST then vec VFloat
    else if ktype =? qtype.SYMBOL_LIST then vec VSymbol
    else if ktype =? qtype.STRING then vec VByte
    else if (ktype =? qtype.INT_LIST) || (ktype =? qtype.DATE_LIST) || (ktype =? qtype.TIME_LIST) then vec VInt
    else if ktype =? qtype.SHORT_LIST then vec VShort
    else if ktype =? qtype.BOOL_LIST then vec VBool
    else if ktype =? qtype.REAL_LIST then vec VReal
    else if ktype =? qtype.COMPOUND_LIST then vec VCompound
    else inl (InvalidOperation "element_at" "K" (Some "list type")) in
  match result with
  | inl e => inl e
  | inr (Some x) => inr x
  | inr None => inl (IndexOutOfBounds index (k_len k))
  end.

Definition z_text (z : Z) : string := pretty z.

Definition not_a_table (k : K) : Error :=
  Msg ("expected table (qtype 98), got qtype " +:+ z_text (get_type k)).

Definition column_names (k : K) : Error + list bytes :=
  if negb (get_type k =? qtype.TABLE) then inl (not_a_table k)
  else
    match get_dictionary k with
    | inl e => inl (kdb_error e)
    | inr dict =>
      match as_vec_K dict with
      | inl e => inl (kdb_error e)
      | inr [] => inl (Msg "table dictionary has no keys")
      | inr (keys :: _) =>
        match as_vec_String keys with inl e => inl (kdb_error e) | inr symbols => inr symbols end
      end
    end.

Definition from_column_list (columns : list K) : Rows :=
  mkRows columns (match columns with c :: _ => k_len c | [] => 0%nat end).

Definition rows (k : K) : Error + Rows :=
  if negb (get_type k =? qtype.TABLE) then inl (not_a_table k)
  else
    match get_dictionary k with
    | inl e => inl (kdb_error e)
    | inr dict =>
      match as_vec_K dict with
      | inl e => inl (kdb_error e)
      | inr (_ :: values :: _) =>
        match as_vec_K values with inl e => inl (kdb_error e) | inr columns => inr (from_column_list columns) end
      | inr _ => inl (Msg "table dictionary missing values")
      end
    end.

Definition upd_payload_rows (data : K) : Error + Rows :=
  if get_type data =? qtype.TABLE then rows data
  else
    match as_vec_K data with
    | inl _ => inl (Msg ("kdb_sub: upd payload is neither a table nor a list of columns (qtype "
                          +:+ z_text (get_type data) +:+ ")"))
    | inr columns => inr (from_column_list columns)
    end.

Definition Rows_get (self : Rows) (index : nat) : option Row :=
  if (index <? n_rows self)%nat then Some (mkRow (r_columns self) index) else None.

Definition Rows_len (self : Rows) : nat := n_rows self.
Definition Rows_is_empty (self : Rows) : bool := (n_rows self =? 0)%nat.

Definition Rows_iter (self : Rows) : RowIter := mkRowIter (r_columns self) (n_rows self) 0.

Definition RowIter_next (self : RowIter) : option Row * RowIter :=
  if (ri_current self <? ri_rows self)%nat then
    (Some (mkRow (ri_columns self) (ri_current self)),
     mkRowIter (ri_columns self) (ri_rows self) (S (ri_current self)))
  else (None, self).

(** [remaining]: a [usize]. *)
Definition RowIter_size_hint (self : RowIter) : Z * option Z :=
  let remaining := wrap_u64 (Z.of_nat (ri_rows self) - Z.of_nat (ri_current self)) in
  (remaining, Some remaining).

(** What a [for] over the rows goes through: [next] until [None]. *)
Fixpoint iterate (fuel : nat) (it : RowIter) : list Row :=
  match fuel with
  | O => []
  | S fuel' => match RowIter_next it with (Some r, it') => r :: iterate fuel' it' | (None, _) => [] end
  end.
Definition all_rows (self : Rows) : list Row := iterate (S (n_rows self)) (Rows_iter self).

Definition Row_len (self : Row) : nat := length (row_columns self).
Definition Row_is_empty (self : Row) : bool := match row_columns self with [] => true | _ => false end.

Definition Row_get (self : Row) (col : nat) : KdbError + K :=
  match row_columns self !! col with
  | None => inl (IndexOutOfBounds col (length (row_columns self)))
  | Some c => element_at c (row_index self)
  end.

Definition Row_get_timestamp (self : Row) (col : nat) : KdbError + Z :=
  match Row_get self col with
  | inl e => inl e
  | inr k => match get_long k with inl e => inl e | inr t => inr (NanoTime.from_kdb_timestamp t) end
  end.

(** [Sym] and [SymbolInterner]: symbols are equal when their texts are, so which
    allocation they share is not observable. *)
Definition Sym := bytes.
Definition SymbolInterner := gset bytes.
Definition intern (self : SymbolInterner) (s : bytes) : Sym * SymbolInterner :=
  if bool_decide (s ∈ self) then (s, self) else (s, {[s]} ∪ self).

Definition Row_get_sym (self : Row) (col : nat) (interner : SymbolInterner) : (KdbError + Sym) * SymbolInterner :=
  match row_columns self !! col with
  | None => (inl (IndexOutOfBounds col (length (row_columns self))), interner)
  | Some column =>
    match as_vec_String column with
    | inl _ => (inl (InvalidOperation "get_sym" "K" (Some "symbol list")), interner)
    | inr strings =>
      match strings !! row_index self with
      | None => (inl (IndexOutOfBounds (row_index self) (length strings)), interner)
      | Some s => let '(sym, interner) := intern interner s in (inr sym, interner)
      end
    end
  end.
End rows.
Arguments Rows : clear implicits.
Arguments Row : clear implicits.
Arguments RowIter : clear implicits.

(** ** Connections *)

Record KdbCredentials := mkCredentials { username : bytes; password : bytes }.
Record KdbConnection := mkConnection { host : bytes; port : Z; credentials : option KdbCredentials }.

Definition KdbConnection_new (host : bytes) (port : Z) : KdbConnection := mkConnection host port None.
Definition with_credentials (username password : bytes) (self : KdbConnection) : KdbConnection :=
  mkConnection (host self) (port self) (Some (mkCredentials username password)).
Definition credentials_string (self : KdbConnection) : bytes :=
  match credentials self with
  | Some creds => username creds ++ ":"%char :: password creds
  | None => []
  end.

(** [QStream]: what connecting over TCP yields, and the calls on a connection. *)
Class Client (S K : Type) := {
  connect : bytes -> Z -> bytes -> KdbError + S;
  send_sync_message : bytes -> S -> (KdbError + K) * S;
  receive_message : S -> (KdbError + (Z * K)) * S }.

Definition connect_to {S K} `{Client S K} (c : KdbConnection) : KdbError + S :=
  connect (host c) (port c) (credentials_string c).

Class KdbDeserialize (K T : Type) :=
  from_kdb_row : Row K -> list bytes -> SymbolInterner -> (KdbError + (Z * T)) * SymbolInterner.

(** An item of an async stream. *)
Abbreviation Item T := (Error + (Z * T))%type.

Definition unsorted (time prev : Z) : Error :=
  Msg ("KDB data is not sorted by time: got " +:+ z_text time +:+ " after " +:+ z_text prev +:+
       ". Add `xasc` to your query to sort the data.").

Definition goes_back (prev_time : option Z) (time : Z) : bool :=
  match prev_time with Some prev => time <? prev | None => false end.

(** [slice_fn] and the [for] over the slices: the window and the query of each
    slice. [query_fn] is a closure with a state [Q]. *)
Section queries.
Context {Q : Type} (query_fn : Z * Z -> Z -> Z -> Q -> bytes * Q) (start_time end_time : Z).

Fixpoint slice_queries (q : Q) (slices : list Slice) : list (bytes * TimeWindow) :=
  match slices with
  | [] => []
  | s :: slices =>
    let '(query, q) := query_fn (sl_t0 s, sl_t1 s) (kdb_date s) (iteration s) q in
    (query, clamp (sl_t0 s) (sl_t1 s) start_time end_time) :: slice_queries q slices
  end.
End queries.

(** ** [kdb_read] *)

Section read.
Context {S K T : Type} `{KValue K, !Client S K, !KdbDeserialize K T}.

(** The [for] over the rows of one slice: what it yields, and whether it broke off. *)
Fixpoint chunk_rows (columns : list bytes) (l : list (Row K)) (prev_time : option Z) (filter : WindowFilter)
    (interner : SymbolInterner) : list (Item T) * bool * SymbolInterner :=
  match l with
  | [] => ([], false, interner)
  | row :: l =>
    match from_kdb_row row columns interner with
    | (inl e, interner) => ([inl (kdb_error e)], true, interner)
    | (inr (time, record), interner) =>
      let '(keep, filter) := TimeSlices.keep filter time in
      if negb keep then chunk_rows columns l prev_time filter interner
      else if goes_back prev_time time then ([inl (unsorted time (default 0 prev_time))], true, interner)
      else
        let '(items, broke, interner) := chunk_rows columns l (Some time) filter interner in
        (inr (time, record) :: items, broke, interner)
    end
  end.

(** One round of [chunk_stream]'s loop: the items, whether it broke off. *)
Definition chunk (query : bytes) (window : TimeWindow) (socket : S) (interner : SymbolInterner)
  : list (Item T) * bool * S * SymbolInterner :=
  match send_sync_message query socket with
  | (inl e, socket) => ([inl (kdb_error e)], true, socket, interner)
  | (inr result, socket) =>
    match column_names result, rows result with
    | inr columns, inr rows =>
      let '(items, broke, interner) :=
        chunk_rows columns (all_rows rows) None (WindowFilter_new "kdb_read" window) interner in
      (items, broke, socket, interner)
    | inl e, _ | _, inl e => ([inl e], true, socket, interner)
    end
  end.

Fixpoint chunk_stream (queries : list (bytes * TimeWindow)) (socket : S) (interner : SymbolInterner)
  : list (Item T) * S :=
  match queries with
  | [] => ([], socket)
  | (query, window) :: queries =>
    let '(items, broke, socket, interner) := chunk query window socket interner in
    if broke : bool then (items, socket)
    else let '(more, socket) := chunk_stream queries socket interner in (items ++ more, socket)
  end.

Context {Q : Type} (query_fn : Z * Z -> Z -> Z -> Q -> bytes * Q).

(** The future [kdb_read] gives [produce_async]: the stream, or why there is none. *)
Definition kdb_read (fuel : nat) (connection : KdbConnection) (period : Duration) (q : Q) (ctx : RunParams)
  : Res (list (Item T)) :=
  let start_time := rp_start ctx in
  match compute_validated_time_slices fuel "kdb_read_time_sliced" start_time (end_time ctx) period with
  | Ok slices =>
    match end_time ctx with
    | Ok end_time =>
      match connect_to connection with
      | inl e => Err (kdb_error e)
      | inr socket => Ok (chunk_stream (slice_queries query_fn start_time end_time q slices) socket ∅).1
      end
    | _ => Panic "compute_validated_time_slices accepted a bounded end_time"
    end
  | Err e => Err e
  | Panic w => Panic w
  | OutOfFuel => OutOfFuel
  end.

(** ** [kdb_read_cached] *)

Context {W : Type} `{FileSystem W, Codec T, Hasher}.

(** The rows of a result, parsed and checked. *)
Fixpoint parse_rows (columns : list bytes) (l : list (Row K)) (prev_time : option Z) (interner : SymbolInterner)
  : (Error + list (Z * T)) * SymbolInterner :=
  match l with
  | [] => (inr [], interner)
  | row :: l =>
    match from_kdb_row row columns interner with
    | (inl e, interner) => (inl (kdb_error e), interner)
    | (inr (time, record), interner) =>
      if goes_back prev_time time then (inl (unsorted time (default 0 prev_time)), interner)
      else
        match parse_rows columns l (Some time) interner with
        | (inr parsed, interner) => (inr ((time, record) :: parsed), interner)
        | (inl e, interner) => (inl e, interner)
        end
    end
  end.

Fixpoint emit (filter : WindowFilter) (l : list (Z * T)) : list (Item T) :=
  match l with
  | [] => []
  | (time, record) :: l =>
    let '(keep, filter) := TimeSlices.keep filter time in
    if keep : bool then inr (time, record) :: emit filter l else emit filter l
  end.

(** A miss: the rows the server answers, or the error to yield. *)
Definition fetch (connection : KdbConnection) (query : bytes) (socket : option S) (interner : SymbolInterner)
  : (Error + list (Z * T)) * option S * SymbolInterner :=
  match (match socket with Some s => inr s | None => connect_to connection end) with
  | inl e => (inl (kdb_error e), None, interner)
  | inr socket =>
    match send_sync_message query socket with
    | (inl e, socket) => (inl (kdb_error e), Some socket, interner)
    | (inr result, socket) =>
      match column_names result, rows result with
      | inr columns, inr rows =>
        let '(parsed, interner) := parse_rows columns (all_rows rows) None interner in
        (parsed, Some socket, interner)
      | inl e, _ | _, inl e => (inl e, Some socket, interner)
      end
    end
  end.

(** The ['slices] loop, from the state of the file system on. *)
Fixpoint cached_stream (connection : KdbConnection) (cache : FileCache) (queries : list (bytes * TimeWindow))
    (socket : option S) (interner : SymbolInterner) (w : W) : list (Item T) * W :=
  match queries with
  | [] => ([], w)
  | (query, window) :: queries =>
    let key := from_parts [query] in
    let filter := WindowFilter_new "kdb_read_cached" window in
    match FileCache.get cache key w with
    | (Ok (Some rows), w) =>
      let '(more, w) := cached_stream connection cache queries socket interner w in (emit filter rows ++ more, w)
    | (_, w) =>
      let '(parsed, socket, interner) := fetch connection query socket interner in
      match parsed with
      | inl e => ([inl e], w)
      | inr parsed =>
        let '(_, w) := FileCache.put cache key query parsed w in
        let '(more, w) := cached_stream connection cache queries socket interner w in
        (emit filter parsed ++ more, w)
      end
    end
  end.

Definition kdb_read_cached (fuel : nat) (connection : KdbConnection) (period : Duration) (cache_config : CacheConfig)
    (q : Q) (ctx : RunParams) : M W (list (Item T)) :=
  let start_time := rp_start ctx in
  let! slices := mlift (compute_validated_time_slices fuel "kdb_read_cached" start_time (end_time ctx) period) in
  match end_time ctx with
  | Ok end_time =>
    let! r := io (fs_create_dir_all (folder cache_config)) in
    match r with
    | Some e => mfail (io_error e)
    | None =>
      io (cached_stream connection (FileCache.new cache_config)
            (slice_queries query_fn start_time end_time q slices) None ∅)
    end
  | _ => mpanic "compute_validated_time_slices accepted a bounded end_time"
  end.
End read.

(** ** [kdb_sub] *)

Section sub.
Context {S K T : Type} `{KValue K, !Client S K, !KdbDeserialize K T}.

(** The rows of one update, up to one that does not parse. *)
Fixpoint sub_rows (columns : list bytes) (l : list (Row K)) (interner : SymbolInterner)
  : list (Item T) * bool * SymbolInterner :=
  match l with
  | [] => ([], false, interner)
  | row :: l =>
    match from_kdb_row row columns interner with
    | (inl e, interner) => ([inl (kdb_error e)], true, interner)
    | (inr (time, record), interner) =>
      let '(items, broke, interner) := sub_rows columns l interner in
      (inr (time, record) :: items, broke, interner)
    end
  end.

(** What is done with one message: the items, whether the stream ends. *)
Definition on_message (columns : list bytes) (msg : K) (interner : SymbolInterner)
  : list (Item T) * bool * SymbolInterner :=
  if negb (get_type msg =? qtype.COMPOUND_LIST) || (k_len msg <? 3)%nat then ([], false, interner)
  else
    match ok_of (element_at msg 0) ≫= (fun f => ok_of (get_symbol f)) with
    | Some name =>
      if bool_decide (name = lit "upd") then
        match element_at msg 2 with
        | inl e => ([inl (Context "kdb_sub: upd message has no data" (kdb_error e))], true, interner)
        | inr data =>
          match upd_payload_rows data with
          | inl e => ([inl e], true, interner)
          | inr rows => sub_rows columns (all_rows rows) interner
          end
        end
      else ([], false, interner)
    | None => ([], false, interner)
    end.

(** The [loop], for [n] messages. *)
Fixpoint sub_stream (n : nat) (columns : list bytes) (socket : S) (interner : SymbolInterner) : list (Item T) :=
  match n with
  | O => []
  | Datatypes.S n =>
    match receive_message socket with
    | (inl e, _) => [inl (Context "kdb_sub: receive failed" (kdb_error e))]
    | (inr (_, msg), socket) =>
      let '(items, broke, interner) := on_message columns msg interner in
      if broke : bool then items else items ++ sub_stream n columns socket interner
    end
  end.

Definition sub_query (table symbols : bytes) : bytes :=
  lit ".u.sub[`" ++ table ++ ";"%char :: symbols ++ lit "]".

Definition kdb_sub (n : nat) (connection : KdbConnection) (table symbols : bytes) (ctx : RunParams)
  : Res (list (Item T)) :=
  match rp_mode ctx with
  | HistoricalFrom _ => Err (Msg "kdb_sub requires RunMode::RealTime; use kdb_read for historical replay")
  | RealTime =>
    match connect_to connection with
    | inl e =>
      Err (Context ("kdb_sub: failed to connect to " +:+ text (host connection) +:+ ":" +:+ z_text (port connection))
             (kdb_error e))
    | inr socket =>
      let sub_query := sub_query table symbols in
      match send_sync_message sub_query socket with
      | (inl e, _) => Err (Context ("kdb_sub: subscription `" +:+ text sub_query +:+ "` failed") (kdb_error e))
      | (inr sub_reply, socket) =>
        let columns := default [] (ok_of (element_at sub_reply 1) ≫= (fun schema => ok_of (column_names schema))) in
        Ok (sub_stream n columns socket ∅)
      end
    end
  end.
End sub.

(** ** Writing ([write.rs]) *)

Module KdbWrite.

(** [f64] or [f32]: [Display] and the tests of the code. *)
Class FloatText (F : Type) := {
  show_float : F -> bytes;
  is_nan : F -> bool;
  is_infinity : F -> bool;
  is_neg_infinity : F -> bool }.
Definition is_finite {F} `{FloatText F} (v : F) : bool := negb (is_nan v || is_infinity v || is_neg_infinity v).

Class KAtom (K F64 F32 : Type) := {
  get_float : K -> KdbError + F64;
  get_int : K -> KdbError + Z;
  get_bool : K -> KdbError + bool;
  get_real : K -> KdbError + F32;
  get_error_string : K -> KdbError + bytes }.

Class KdbSerialize (T K : Type) := to_kdb_row : T -> K.

(** [collect] into a [Result]: the first error, if there is one. *)
Fixpoint collect {A B E} (f : A -> E + B) (l : list A) : E + list B :=
  match l with
  | [] => inr []
  | x :: l =>
    match f x with
    | inl e => inl e
    | inr y => match collect f l with inl e => inl e | inr ys => inr (y :: ys) end
    end
  end.

(** [Iterator::position]. *)
Fixpoint position {A} (f : A -> bool) (l : list A) : option nat :=
  match l with
  | [] => None
  | x :: l => if f x then Some 0%nat else S <$> position f l
  end.

Definition num (n : nat) : string := z_text (Z.of_nat n).

Section columns.
Context {K : Type} `{KValue K}.

(** The inner [for] over [row.into_iter().enumerate()]. *)
Fixpoint push_row (col_idx : nat) (row : list K) (columns : list (list K)) : list (list K) :=
  match row with
  | [] => columns
  | val :: row => push_row (S col_idx) row (alter (fun c => c ++ [val]) col_idx columns)
  end.

Definition row_values (row : K) : Error + list K :=
  match as_vec_K row with
  | inr v => inr v
  | inl _ => inl (Msg ("kdb_write: KdbSerialize::to_kdb_row must return a compound list, got K type "
                         +:+ z_text (get_type row)))
  end.

Definition k_rows_to_columns (rows : list K) : Error + list (list K) :=
  match collect row_values rows with
  | inl e => inl e
  | inr [] => inr []
  | inr ((first :: _) as serialized) =>
    let n_cols := length first in
    match position (fun r => negb (length r =? n_cols)%nat) serialized with
    | Some bad =>
      inl (Msg ("kdb_write: ragged burst — row " +:+ num bad +:+ " has " +:+
        num (length (default [] (serialized !! bad))) +:+ " columns, expected " +:+ num n_cols +:+
        " (all rows must share the table schema)"))
    | None => inr (foldl (fun columns row => push_row 0 row columns) (repeat [] n_cols) serialized)
    end
  end.
End columns.

(** ** Printing q *)

Definition q_float64_token {F} `{FloatText F} (v : F) : bytes :=
  if is_nan v then lit "0n"
  else if is_infinity v then lit "0w"
  else if is_neg_infinity v then lit "-0w"
  else show_float v.

Definition q_float32_token {F} `{FloatText F} (v : F) : bytes :=
  if is_nan v then lit "0Ne"
  else if is_infinity v then lit "0we"
  else if is_neg_infinity v then lit "-0we"
  else show_float v.

Definition BACKSLASH : ascii := "\"%char.
Definition QUOTE : ascii := "034"%char.

(** [str::replace] of one character. *)
Definition replace (c : ascii) (by_ : bytes) (s : bytes) : bytes :=
  concat (map (fun x => if bool_decide (x = c) then by_ else [x]) s).

Definition q_string_literal (s : bytes) : bytes :=
  QUOTE :: replace QUOTE [BACKSLASH; QUOTE] (replace BACKSLASH [BACKSLASH; BACKSLASH] s) ++ [QUOTE].

Section format.
Context {K F64 F32 : Type} `{KValue K, !KAtom K F64 F32, FloatText F64, FloatText F32}.

Definition enlist (s : bytes) : bytes := lit "enlist " ++ s.

(** A column of printed values: one enlisted, or several with one suffix. *)
Definition vector (suffix : bytes) (parts : list bytes) : bytes :=
  match parts with
  | [p] => enlist (p ++ suffix)
  | _ => join (lit " ") parts ++ suffix
  end.
(** A float column that needs a cast when there are several values. *)
Definition cast (type : string) (parts : list bytes) : bytes :=
  match parts with
  | [p] => enlist p
  | _ => lit type ++ lit "$(" ++ join (lit ";") parts ++ lit ")"
  end.

Definition show_bool (b : bool) : bytes := lit (if b then "1" else "0").

Definition get_all {A} (f : K -> KdbError + A) (l : list K) : Error + list A :=
  match collect f l with inl e => inl (kdb_error e) | inr v => inr v end.

Definition result_map {A B} (f : A -> B) (r : Error + A) : Error + B :=
  match r with inl e => inl e | inr a => inr (f a) end.

Definition format_kdb_column_q (l : list K) : Error + bytes :=
  match l with
  | [] => inr (lit "()")
  | k :: _ =>
    let col_type := get_type k in
    if col_type =? qtype.SYMBOL_ATOM then
      result_map (fun syms =>
        match syms with
        | [s] => lit "enlist `$" ++ q_string_literal s
        | _ => lit "`$(" ++ join (lit ";") (map q_string_literal syms) ++ lit ")"
        end) (get_all get_symbol l)
    else if col_type =? qtype.FLOAT_ATOM then
      result_map (fun vals =>
        if forallb is_finite vals then vector (lit "f") (map show_float vals)
        else cast "`float" (map q_float64_token vals)) (get_all get_float l)
    else if col_type =? qtype.LONG_ATOM then
      result_map (fun vals => vector (lit "j") (map (fun v => lit (z_text v)) vals)) (get_all get_long l)
    else if col_type =? qtype.INT_ATOM then
      result_map (fun vals => vector (lit "i") (map (fun v => lit (z_text v)) vals)) (get_all get_int l)
    else if col_type =? qtype.BOOL_ATOM then
      result_map (fun vals => vector (lit "b") (map show_bool vals)) (get_all get_bool l)
    else if col_type =? qtype.REAL_ATOM then
      result_map (fun vals =>
        if forallb is_finite vals then vector (lit "e") (map show_float vals)
        else cast "`real" (map q_float32_token vals)) (get_all get_real l)
    else inl (Msg ("unsupported KDB column type " +:+ z_text col_type +:+ " in kdb_write"))
  end.

(** ** The consumer *)

Context {S T : Type} `{!Client S K, !KdbSerialize T K} (format_time : Z -> bytes).

Definition insert_query (table_name ts_frag : bytes) (col_frags : list bytes) : bytes :=
  lit "insert[`" ++ table_name ++ lit "; (" ++ join (lit "; ") (ts_frag :: col_frags) ++ lit ")]".

(** One burst: the query to send, if there is one. *)
Definition burst_query (table_name : bytes) (time : Z) (batch : list T) : Error + option bytes :=
  let ts_str := format_time time in
  match k_rows_to_columns (map to_kdb_row batch) with
  | inl e => inl e
  | inr [] => inr None
  | inr ((col :: _) as columns) =>
    let n := length col in
    let ts_frag := if (n =? 1)%nat then enlist ts_str else join (lit " ") (repeat ts_str n) in
    result_map (fun frags => Some (insert_query table_name ts_frag frags)) (collect format_kdb_column_q columns)
  end.

(** The [while let] over the bursts. *)
Fixpoint write_loop (table_name : bytes) (source : list (Z * list T)) (socket : S) : Res unit * S :=
  match source with
  | [] => (Ok tt, socket)
  | (time, batch) :: source =>
    match burst_query table_name time batch with
    | inl e => (Err e, socket)
    | inr None => write_loop table_name source socket
    | inr (Some q) =>
      match send_sync_message q socket with
      | (inl e, socket) => (Err (kdb_error e), socket)
      | (inr response, socket) =>
        if get_type response =? qtype.ERROR then
          (Err (Msg ("KDB insert error: " +:+
             text (match get_error_string response with inr s => s | inl _ => lit "unknown" end))), socket)
        else write_loop table_name source socket
      end
    end
  end.

(** [None]: no connection was made. *)
Definition kdb_write_consumer (connection : KdbConnection) (table_name : bytes) (source : list (Z * list T))
  : Res unit * option S :=
  match connect_to connection with
  | inl e => (Err (kdb_error e), None)
  | inr socket => let '(r, socket) := write_loop table_name source socket in (r, Some socket)
  end.
End format.

(** ** Transposition *)

Section transpose.
Context {K : Type} `{KValue K}.
Implicit Types (rows : list K) (vals : list (list K)).

Lemma collect_spec {A B E} (f : A -> E + B) l :
  match collect f l with
  | inr ys => Forall2 (fun x y => f x = inr y) l ys
  | inl e => exists x, x ∈ l /\ f x = inl e
  end.
Proof.
  induction l as [|x l IH]; simpl; [constructor|]. destruct (f x) as [e|y] eqn:Hx.
  - exists x. split; [by left|done].
  - destruct (collect f l) as [e|ys]; [|by constructor]. destruct IH as (z & Hz & He). exists z. split; [by right|done].
Qed.

Lemma position_spec {A} (f : A -> bool) l :
  match position f l with
  | Some i => exists x, l !! i = Some x /\ f x = true
  | None => Forall (fun x => f x = false) l
  end.
Proof.
  induction l as [|x l IH]; simpl; [constructor|]. destruct (f x) eqn:Hx; [by exists x|].
  by destruct (position f l); [|constructor].
Qed.

Lemma push_row_lookup k row (cols : list (list K)) j :
  push_row k row cols !! j =
  if decide (k <= j)%nat then (fun c => c ++ option_list (row !! (j - k)%nat)) <$> (cols !! j) else cols !! j.
Proof.
  induction row as [|v row IH] in k, cols |- *; simpl.
  { case_decide; [|done]. destruct (cols !! j); simpl; by rewrite ?app_nil_r. }
  rewrite IH. destruct (decide (j = k)) as [->|Hne].
  - rewrite decide_False, decide_True by lia. rewrite list_lookup_alter_eq. by replace (k - k)%nat with 0%nat by lia.
  - rewrite list_lookup_alter_ne by done. do 2 case_decide; try lia; [|done].
    by replace (j - k)%nat with (S (j - S k)) by lia.
Qed.

Lemma push_rows_lookup vals cols j c :
  cols !! j = Some c ->
  foldl (fun columns row => push_row 0 row columns) cols vals !! j = Some (c ++ omap (.!! j) vals).
Proof.
  induction vals as [|row vals IH] in cols, c |- *; intros Hc; simpl; [by rewrite app_nil_r|].
  erewrite IH. 2: { rewrite push_row_lookup, Hc. simpl. by rewrite Nat.sub_0_r. }
  rewrite <-app_assoc. by destruct (row !! j).
Qed.

Lemma push_rows_length vals (cols : list (list K)) :
  length (foldl (fun columns row => push_row 0 row columns) cols vals) = length cols.
Proof.
  induction vals as [|row vals IH] in cols |- *; simpl; [done|]. rewrite IH. clear.
  generalize 0%nat. induction row as [|v row IH] in cols |- *; intros k; simpl; [done|].
  by rewrite IH, length_alter.
Qed.

Lemma lookup_repeat {A} (x : A) n i : (i < n)%nat -> repeat x n !! i = Some x.
Proof. revert i. induction n as [|n IH]; intros [|i] Hi; simpl; [lia..|done|apply IH; lia]. Qed.

Lemma omap_lookup {A B} (f : A -> option B) l i :
  Forall (fun x => is_Some (f x)) l -> omap f l !! i = l !! i ≫= f.
Proof.
  intros Hl. induction Hl as [|x l [y Hy] _ IH] in i |- *; [done|]. simpl. rewrite Hy.
  destruct i as [|i]; simpl; [done|apply IH].
Qed.

(** A burst is transposed or refused. The columns built of the rows hold what the
    rows hold, column for row, however many there are; and an error means that a
    row is no list, or that two of them differ in length. It never panics. *)
Theorem columns_correct rows :
  match k_rows_to_columns rows with
  | inr columns => exists vals n, Forall2 (fun row v => as_vec_K row = inr v) rows vals /\
      Forall (fun v => length v = n) vals /\ (rows <> [] -> length columns = n) /\
      forall i j, columns !! j ≫= (.!! i) = vals !! i ≫= (.!! j)
  | inl _ => (exists row e, row ∈ rows /\ as_vec_K row = inl e) \/
      exists v1 v2 r1 r2, r1 ∈ rows /\ r2 ∈ rows /\ as_vec_K r1 = inr v1 /\ as_vec_K r2 = inr v2 /\ length v1 <> length v2
  end.
Proof.
  assert (Hval : forall row v, row_values row = inr v -> as_vec_K row = inr v).
  { unfold row_values. intros row v. by destruct (as_vec_K row); [|intros [= ->]]. }
  unfold k_rows_to_columns. pose proof (collect_spec row_values rows) as Hc.
  destruct (collect row_values rows) as [e|vals].
  { left. destruct Hc as (row & Hrow & He). unfold row_values in He. destruct (as_vec_K row) eqn:E; [by eauto|done]. }
  assert (Hvals : Forall2 (fun row v => as_vec_K row = inr v) rows vals).
  { eapply Forall2_impl; [exact Hc|]. simpl. apply Hval. }
  destruct vals as [|first vals].
  { exists [], 0%nat. apply Forall2_nil_inv_r in Hc as ->. by split_and!. }
  set (n := length first). pose proof (position_spec (fun r => negb (length r =? n)%nat) (first :: vals)) as Hp.
  destruct (position _ _) as [bad|].
  - right. destruct Hp as (v2 & Hv2 & Hlen%negb_true_iff%Nat.eqb_neq).
    destruct (Forall2_lookup_r _ _ _ 0 first Hvals eq_refl) as (r1 & Hr1 & E1).
    destruct (Forall2_lookup_r _ _ _ bad v2 Hvals Hv2) as (r2 & Hr2 & E2).
    exists first, v2, r1, r2. split_and!; [by eapply list_elem_of_lookup_2..|done|done|by apply not_eq_sym].
  - assert (Hn : Forall (fun v => length v = n) (first :: vals)).
    { eapply Forall_impl; [exact Hp|]. simpl. intros v Hv. by apply negb_false_iff, Nat.eqb_eq in Hv. }
    exists (first :: vals), n. split_and!; [done|done|intros _; by rewrite push_rows_length, repeat_length|].
    intros i j. destruct (decide (j < n)%nat) as [Hj|Hj].
    + rewrite (push_rows_lookup _ _ j []) by (by apply lookup_repeat). transitivity (omap (.!! j) (first :: vals) !! i); [done|].
      apply omap_lookup. eapply Forall_impl; [exact Hn|]. simpl. intros v Hv. apply lookup_lt_is_Some. lia.
    + rewrite lookup_ge_None_2 by (rewrite push_rows_length, repeat_length; lia).
      destruct ((first :: vals) !! i) as [v|] eqn:Ev; [|done]. simpl.
      rewrite Forall_lookup in Hn. apply Hn in Ev. symmetry. apply lookup_ge_None_2. lia.
Qed.
End transpose.

(** ** Quoting *)

(** What q reads after an opening quote: the text, and the rest. *)
Fixpoint unquote (s : bytes) : option (bytes * bytes) :=
  match s with
  | [] => None
  | c :: s' =>
    if bool_decide (c = QUOTE) then Some ([], s')
    else if bool_decide (c = BACKSLASH) then
      match s' with
      | d :: s'' => if bool_decide (d = QUOTE \/ d = BACKSLASH) then prod_map (cons d) id <$> unquote s'' else None
      | [] => None
      end
    else prod_map (cons c) id <$> unquote s'
  end.

Lemma replace_app c by_ s1 s2 : replace c by_ (s1 ++ s2) = replace c by_ s1 ++ replace c by_ s2.
Proof. unfold replace. by rewrite map_app, concat_app. Qed.

(** A symbol's text, whatever it is, is quoted so that q reads it back: no
    quote or backslash in it ends the literal early or hides what follows. *)
Theorem symbol_reads_back s rest :
  exists body, q_string_literal s = QUOTE :: body /\ unquote (body ++ rest) = Some (s, rest).
Proof.
  eexists. split; [reflexivity|]. rewrite <-app_assoc. simpl app.
  induction s as [|c s IH]; [done|]. change (c :: s) with ([c] ++ s). rewrite !replace_app, <-app_assoc.
  destruct (decide (c = BACKSLASH)) as [->|Hb]; [|destruct (decide (c = QUOTE)) as [->|Hq]].
  - simpl. by rewrite IH.
  - simpl. by rewrite IH.
  - replace (replace QUOTE [BACKSLASH; QUOTE] (replace BACKSLASH [BACKSLASH; BACKSLASH] [c])) with [c].
    2: { unfold replace. simpl. rewrite bool_decide_eq_false_2 by done. simpl. by rewrite bool_decide_eq_false_2. }
    simpl. rewrite !bool_decide_eq_false_2 by done. by rewrite IH.
Qed.
End KdbWrite.
