(* ===== verification/KdbProps.v ===== *)
(** * What the kdb+ readers promise

    [kdb_read_exact]: reading slice by slice is reading the run's window once.
    [kdb_read_cached_equiv]: the cached reader gives the same, whatever the file
    system does, except where it checks the order of rows the plain reader has
    dropped ([order_outside_window]). [cache_ignores_connection]: except between servers. *)
From S2P Require Import Prelude NanoTime GraphState TimeSlices Cache CacheProps GraphNodes AsyncNodes Kdb.
From Stdlib Require Import Strings.Ascii.
Local Open Scope Z_scope.

(** ** Rows in a window *)

Section rows.
Context {T : Type}.
Implicit Types (r : Z * T) (l : list (Z * T)).

Definition earlier (a b : Z * T) : Prop := a.1 <= b.1.
Definition kept_rows (w : TimeWindow) l : list (Z * T) := List.filter (fun r => contains w r.1) l.
Definition between (a b : Z) l : list (Z * T) := kept_rows (mkWindow a b) l.

Lemma kept_cons w r l :
  kept_rows w (r :: l) = if contains w r.1 then r :: kept_rows w l else kept_rows w l.
Proof. done. Qed.

Lemma kept_sorted w l : StronglySorted earlier l -> StronglySorted earlier (kept_rows w l).
Proof.
  induction 1 as [|r l Hs IH Hr]; rewrite ?kept_cons; [constructor|]. destruct (contains _ _); [|done].
  constructor; [done|]. apply Forall_forall. intros x [Hx _]%list_elem_of_In%filter_In.
  rewrite Forall_forall in Hr. by apply Hr, list_elem_of_In.
Qed.

(** A window inside another. *)
Lemma kept_kept w1 w2 l :
  (forall t, contains w1 t = true -> contains w2 t = true) -> kept_rows w1 (kept_rows w2 l) = kept_rows w1 l.
Proof.
  intros Hw. induction l as [|r l IH]; [done|]. rewrite !kept_cons.
  destruct (contains w2 r.1) eqn:H2; rewrite ?kept_cons, IH; [done|].
  destruct (contains w1 r.1) eqn:H1; [|done]. apply Hw in H1. congruence.
Qed.

Lemma kept_id w1 w2 l :
  (forall t, contains w1 t = true -> contains w2 t = true) -> kept_rows w2 (kept_rows w1 l) = kept_rows w1 l.
Proof.
  intros Hw. induction l as [|r l IH]; [done|]. rewrite !kept_cons.
  destruct (contains w1 r.1) eqn:H1; rewrite ?kept_cons, ?IH; [|done]. by rewrite Hw.
Qed.

Lemma between_none a b l : Forall (fun r => b <= r.1) l -> between a b l = [].
Proof.
  unfold between. induction 1 as [|r l Hr _ IH]; rewrite ?kept_cons; [done|].
  unfold contains. simpl. replace (r.1 <? b) with false by lia. by rewrite andb_false_r.
Qed.

Lemma between_split a m b l : a <= m <= b -> StronglySorted earlier l ->
  between a m l ++ between m b l = between a b l.
Proof.
  intros Hm. induction 1 as [|r l Hs IH Hr]; [done|]. destruct (Z.ltb_spec r.1 m).
  - unfold between in *. rewrite !kept_cons. unfold contains. simpl.
    replace (r.1 <? m) with true by lia. replace (r.1 <? b) with true by lia. rewrite !andb_true_r.
    replace (m <=? r.1) with false by lia. destruct (a <=? r.1); simpl; by rewrite IH.
  - assert (Hlate : Forall (fun r => m <= r.1) (r :: l)).
    { constructor; [done|]. eapply Forall_impl; [exact Hr|]. unfold earlier. simpl. lia. }
    rewrite (between_none a m (r :: l)) by done. apply Forall_inv_tail in Hlate.
    rewrite (between_none a m l) in IH by done. unfold between in *. rewrite !kept_cons. unfold contains. simpl.
    replace (m <=? r.1) with true by lia. replace (a <=? r.1) with true by lia. by rewrite <-IH.
Qed.

Lemma between_tiles a b ts l : tiles a b ts -> StronglySorted earlier l ->
  concat (map (fun p => between p.1 p.2 l) ts) = between a b l.
Proof.
  intros Ht Hs. induction ts as [|p ts IH] in a, Ht |- *.
  - simpl in *. subst b. unfold between. clear Hs. induction l as [|r l IH]; [done|]. rewrite kept_cons.
    unfold contains. simpl. by replace ((a <=? r.1) && (r.1 <? a)) with false by lia.
  - destruct Ht as (<- & Hlt & Ht). simpl. rewrite (IH _ Ht). apply tiles_le in Ht. apply between_split; [lia|done].
Qed.

(** The slices' windows, put together, are the run's. *)
Lemma kept_slices l slices a b start finish :
  tiles a b (bounds <$> slices) -> a <= start -> finish <= b -> StronglySorted earlier l ->
  concat (map (fun s => kept_rows (clamp (sl_t0 s) (sl_t1 s) start finish) l) slices) = between start finish l.
Proof.
  intros Ht Ha Hb Hs. transitivity (between a b (between start finish l)).
  - rewrite <-(between_tiles a b (bounds <$> slices)) by (done || by apply kept_sorted).
    change (bounds <$> slices) with (map bounds slices). rewrite map_map. f_equal. apply map_ext. intros s. unfold between, bounds. simpl.
    clear Hs. induction l as [|r l IH]; [done|]. rewrite !kept_cons.
    destruct (contains (mkWindow start finish) r.1) eqn:E1; rewrite ?kept_cons, ?IH; unfold contains, clamp in *; simpl in *.
    + by replace (_ && _) with ((sl_t0 s <=? r.1) && (r.1 <? sl_t1 s)) by lia.
    + by replace (_ && _) with false by lia.
  - apply kept_id. unfold contains. simpl. lia.
Qed.
End rows.

(** ** A server, and what the readers make of its answers *)

Section readers.
Context {S K T : Type} `{KValue K, !Client S K, !KdbDeserialize K T}.

(** The program's rows in a value of the client library. *)
Definition parses (k : K) (l : list (Z * T)) : Prop :=
  exists columns rs, column_names k = inr columns /\ rows k = inr rs /\
    Forall2 (fun row r => forall interner, exists interner', from_kdb_row row columns interner = (inr r, interner'))
      (all_rows rs) l.

(** [served s]: the connection [s] is to a server that answers each query in play
    with a table of rows, and stays up. *)
Record serves (admissible : bytes -> Prop) (answer : bytes -> list (Z * T)) (served : S -> Prop) : Prop := {
  serves_one q s : admissible q -> served s ->
    exists k s', send_sync_message q s = (inr k, s') /\ served s' /\ parses k (answer q) }.

Context (admissible : bytes -> Prop) (answer : bytes -> list (Z * T)) (served : S -> Prop).
Context (Hserves : serves admissible answer served).

Definition items (w : TimeWindow) (l : list (Z * T)) : list (Item T) := map inr (kept_rows w l).

Lemma chunk_rows_spec columns rs l prev filter interner :
  Forall2 (fun row r => forall interner, exists interner', from_kdb_row row columns interner = (inr r, interner')) rs l ->
  StronglySorted earlier (kept_rows (window filter) l) ->
  (forall p, prev = Some p -> Forall (fun r => p <= r.1) (kept_rows (window filter) l)) ->
  exists interner', chunk_rows columns rs prev filter interner = (items (window filter) l, false, interner').
Proof.
  intros Hp. induction Hp as [|row r rs l Hrow _ IH] in prev, filter, interner |- *; intros Hs Hprev; [by eexists|].
  cbn [chunk_rows]. destruct (Hrow interner) as [i' ->]. destruct r as [t v].
  unfold items. rewrite kept_cons in *. cbn [fst] in *. unfold keep.
  destruct (contains (window filter) t) eqn:Hc; cbn [negb].
  - assert (Hb : goes_back prev t = false).
    { destruct prev as [p|]; [|done]. specialize (Hprev p eq_refl). apply Forall_inv in Hprev. simpl in *. lia. }
    rewrite Hb. apply StronglySorted_inv in Hs as [Hs Hle].
    destruct (IH (Some t) filter i' Hs) as [i2 ->]; [|by eexists].
    intros p [= <-]. exact Hle.
  - by apply (IH prev (mkFilter _ _ _)).
Qed.

Lemma chunk_stream_spec queries s interner :
  served s -> Forall (fun qw => admissible qw.1 /\ StronglySorted earlier (kept_rows qw.2 (answer qw.1))) queries ->
  exists s', chunk_stream queries s interner = (concat (map (fun qw => items qw.2 (answer qw.1)) queries), s').
Proof.
  intros Hs Hq. induction Hq as [|[q w] queries [Hadm Hsort] _ IH] in s, interner, Hs |- *; [by eexists|].
  cbn [chunk_stream]. unfold chunk. simpl in Hadm, Hsort.
  destruct (serves_one _ _ _ Hserves q s Hadm Hs) as (k & s' & -> & Hs' & cols & rs & -> & -> & Hp).
  destruct (chunk_rows_spec cols (all_rows rs) (answer q) None (WindowFilter_new "kdb_read" w) interner Hp Hsort)
    as [i ->]; [done|].
  destruct (IH s' i Hs') as [s2 ->]. by eexists.
Qed.

(** The rows of each slice's query, read by [query_fn]. *)
Context {Q : Type} (query_fn : Z * Z -> Z -> Z -> Q -> bytes * Q) (start finish : Z).

Lemma slice_queries_spec (P : Slice -> bytes -> Prop) slices q :
  (forall s q, s ∈ slices -> P s (query_fn (sl_t0 s, sl_t1 s) (kdb_date s) (iteration s) q).1) ->
  Forall2 (fun s qw => P s qw.1 /\ qw.2 = clamp (sl_t0 s) (sl_t1 s) start finish) slices
    (slice_queries query_fn start finish q slices).
Proof.
  induction slices as [|s slices IH] in q |- *; intros HP; [constructor|]. cbn [slice_queries].
  pose proof (HP s q ltac:(by left)) as Hs. destruct (query_fn _ _ _ q) as [query q']. constructor; [done|].
  apply IH. intros s' q2 Hin. apply HP. by right.
Qed.

(** A query is right for a table when what it is answered holds the slice's rows
    of the table, among whatever outside of the slice. *)
Definition right_query (table : list (Z * T)) (s : Slice) (query : bytes) : Prop :=
  admissible query /\ between (sl_t0 s) (sl_t1 s) (answer query) = between (sl_t0 s) (sl_t1 s) table.

Lemma right_kept table s query : right_query table s query ->
  kept_rows (clamp (sl_t0 s) (sl_t1 s) start finish) (answer query) =
  kept_rows (clamp (sl_t0 s) (sl_t1 s) start finish) table.
Proof.
  intros [_ Hr].
  assert (Hin : forall t, contains (clamp (sl_t0 s) (sl_t1 s) start finish) t = true ->
    contains (mkWindow (sl_t0 s) (sl_t1 s)) t = true) by (unfold contains, clamp; simpl; lia).
  rewrite <-(kept_kept _ _ (answer query) Hin), <-(kept_kept _ _ table Hin). unfold between in Hr. by rewrite Hr.
Qed.

Lemma slices_items table slices queries :
  Forall2 (fun s qw => right_query table s qw.1 /\ qw.2 = clamp (sl_t0 s) (sl_t1 s) start finish) slices queries ->
  concat (map (fun qw => items qw.2 (answer qw.1)) queries) =
  map inr (concat (map (fun s => kept_rows (clamp (sl_t0 s) (sl_t1 s) start finish) table) slices)).
Proof.
  induction 1 as [|s [q w] slices queries [Hr Hw] _ IH]; [done|].
  simpl in Hr, Hw. subst w. cbn [map concat fst snd].
  rewrite map_app, IH. unfold items. by erewrite right_kept by exact Hr.
Qed.

Lemma slices_admissible table slices queries :
  StronglySorted earlier table ->
  Forall2 (fun s qw => right_query table s qw.1 /\ qw.2 = clamp (sl_t0 s) (sl_t1 s) start finish) slices queries ->
  Forall (fun qw => admissible qw.1 /\ StronglySorted earlier (kept_rows qw.2 (answer qw.1))) queries.
Proof.
  intros Hs. induction 1 as [|s [q w] slices queries [Hr Hw] _ IH]; constructor; [|done].
  simpl in *. subst w. rewrite (right_kept table s q Hr). split; [by destruct Hr|by apply kept_sorted].
Qed.
End readers.

(** ** The run's slices *)

Section runs.
Context {S K T : Type} `{KValue K, !Client S K, !KdbDeserialize K T}.
Context (admissible : bytes -> Prop) (answer : bytes -> list (Z * T)) (served : S -> Prop).
Context (Hserves : serves admissible answer served).
Context {Q : Type} (query_fn : Z * Z -> Z -> Z -> Q -> bytes * Q).
Context (fuel : nat) (connection : KdbConnection) (period : Duration) (ctx : RunParams) (finish : Z).
Context (table : list (Z * T)) (slices : list Slice).

(** A run of a bounded window of time, in range, with slices enough fuel. *)
Record bounded_run : Prop := {
  br_period : 0 < as_nanos period;
  br_window : 0 < rp_start ctx < finish;
  br_range : finish + 2 * DAY_NANOS + as_nanos period <= i64_max;
  br_fuel : DAY_NANOS <= Z.of_nat fuel * as_nanos period;
  br_end : end_time ctx = Ok finish;
  br_slices : compute_time_slices fuel (rp_start ctx) finish period = Ok slices }.

(** Every slice's query is right for the table, whatever the closure's state. *)
Definition right_queries : Prop :=
  forall s q, s ∈ slices ->
    right_query admissible answer table s (query_fn (sl_t0 s, sl_t1 s) (kdb_date s) (iteration s) q).1.

Lemma validated_slices label :
  bounded_run -> compute_validated_time_slices fuel label (rp_start ctx) (end_time ctx) period = Ok slices.
Proof.
  intros [Hp Hw Hr Hf He Hs]. unfold compute_validated_time_slices. rewrite He, Hs.
  unfold NanoTime.ZERO, NanoTime.MAX. unfold i64_max, DAY_NANOS in Hr. unfold u64_max.
  by rewrite !(proj2 (Z.eqb_neq _ _)) by lia.
Qed.

(** What both readers emit. *)
Lemma window_items q : bounded_run -> StronglySorted earlier table -> right_queries ->
  let queries := slice_queries query_fn (rp_start ctx) finish q slices in
  concat (map (fun qw => items qw.2 (answer qw.1)) queries) = map inr (between (rp_start ctx) finish table) /\
  Forall (fun qw => admissible qw.1 /\ StronglySorted earlier (kept_rows qw.2 (answer qw.1))) queries.
Proof.
  intros [Hp Hw Hr Hf He Hs] Htab Hright queries.
  pose proof (slice_queries_spec query_fn (rp_start ctx) finish (right_query admissible answer table) slices q Hright) as Hq.
  split; [|by eapply slices_admissible].
  erewrite slices_items by exact Hq. f_equal.
  destruct (compute_time_slices_spec fuel (rp_start ctx) finish period) as (l & a & b & Hl & Ht & Ha & _ & Hb & _);
    [done|lia|done|done|]. rewrite Hs in Hl. injection Hl as <-. by eapply kept_slices.
Qed.

Lemma kdb_read_window q s :
  bounded_run -> StronglySorted earlier table -> right_queries -> connect_to connection = inr s -> served s ->
  kdb_read query_fn fuel connection period q ctx = Ok (map inr (between (rp_start ctx) finish table)).
Proof.
  intros Hrun Htab Hright Hconn Hs. destruct (window_items q Hrun Htab Hright) as [Hitems Hall].
  unfold kdb_read. rewrite (validated_slices _ Hrun), (br_end Hrun), Hconn.
  destruct (chunk_stream_spec admissible answer served Hserves _ s ∅ Hs Hall) as [s' ->]. by rewrite <-Hitems.
Qed.

(** Reading slice by slice is reading once. Let every query hold, among any
    others, the rows of its slice of a table sorted by time. Then the stream
    [kdb_read] gives the graph is exactly the table's rows within the run's window,
    in order: none is lost where two slices meet, none is there twice, none lies
    outside the window, and no error is among them. *)
Theorem kdb_read_exact q s :
  bounded_run -> StronglySorted earlier table -> right_queries -> connect_to connection = inr s -> served s ->
  kdb_read query_fn fuel connection period q ctx = Ok (map inr (between (rp_start ctx) finish table)).
Proof. apply kdb_read_window. Qed.
End runs.

(** ** The order of rows *)

Section order.
Context {T : Type}.
Implicit Types (l : list (Z * T)).

(** The rows follow one another, and [prev], in time. *)
Fixpoint in_order (prev : option Z) l : Prop :=
  match l with
  | [] => True
  | r :: l => goes_back prev r.1 = false /\ in_order (Some r.1) l
  end.

Lemma in_order_bound p l : in_order (Some p) l -> Forall (fun r => p <= r.1) l.
Proof.
  induction l as [|r l IH] in p |- *; [done|]. intros [Hp Hl]. simpl in Hp. constructor; [lia|].
  eapply Forall_impl; [by apply IH|]. simpl. lia.
Qed.

Lemma in_order_sorted prev l : in_order prev l -> StronglySorted earlier l.
Proof.
  induction l as [|r l IH] in prev |- *; [constructor|]. intros [_ Hl].
  constructor; [by eapply IH|by apply in_order_bound].
Qed.

Lemma sorted_in_order l : StronglySorted earlier l -> in_order None l.
Proof.
  intros Hl. assert (Hall : forall prev, (forall p, prev = Some p -> Forall (fun r => p <= r.1) l) -> in_order prev l).
  { induction Hl as [|r l _ IH Hr]; intros prev Hp; [done|]. split.
    - destruct prev as [p|]; [|done]. specialize (Hp p eq_refl). apply Forall_inv in Hp. simpl in *. lia.
    - apply IH. by intros p [= <-]. }
  by apply Hall.
Qed.

Lemma in_order_snoc prev l r : in_order prev l ->
  goes_back (from_option (fun x => Some x.1) prev (last l)) r.1 = false -> in_order prev (l ++ [r]).
Proof.
  induction l as [|x l IH] in prev |- *; [by intros _|]. intros [Hx Hl] Hg. split; [done|]. apply IH; [done|].
  rewrite last_cons in Hg. by destruct (last l).
Qed.

(** The first row that goes back, and the one before it. *)
Definition first_back l (a b : Z * T) : Prop :=
  exists before after, l = before ++ a :: b :: after /\ StronglySorted earlier (before ++ [a]) /\ b.1 < a.1.

Lemma first_back_unsorted l a b : first_back l a b -> ~ StronglySorted earlier l.
Proof.
  intros (before & after & -> & _ & Hlt) Hs.
  induction before as [|x before IH]; simpl in Hs; [|by apply StronglySorted_inv in Hs as [Hs _]; apply IH].
  apply StronglySorted_inv in Hs as [_ Hs]. apply Forall_inv in Hs. unfold earlier in Hs. lia.
Qed.
End order.

(** ** The cached reader *)

Section cached.
Context {S K T : Type} `{KValue K, !Client S K, !KdbDeserialize K T}.
Context {W : Type} `{FileSystemLaws W, CodecLaws T, Hasher}.
Context (admissible : bytes -> Prop) (answer : bytes -> list (Z * T)) (served : S -> Prop).
Context (Hserves : serves admissible answer served).
Context (cache : FileCache) (connection : KdbConnection).
Hypothesis one_line : forall q, admissible q -> NEWLINE ∉ q.
Hypothesis collision_free : forall q1 q2, admissible q1 -> admissible q2 -> key q1 = key q2 -> q1 = q2.

(** The whole answer is sorted, also outside the slice: only such an answer is stored. *)
Definition sorted_answer (q : bytes) : Prop := StronglySorted earlier (answer q).
Abbreviation coherent w := (coherent cache admissible sorted_answer answer (files w)).

Lemma emit_spec filter (l : list (Z * T)) : emit filter l = items (window filter) l.
Proof.
  unfold items. induction l as [|[t v] l IH] in filter |- *; [done|]. cbn [emit]. rewrite kept_cons. cbn [fst].
  unfold keep. destruct (contains (window filter) t); [by rewrite IH|]. apply (IH (mkFilter _ _ _)).
Qed.

(** The rows parsed are those of the answer, or the error is that of the first
    that goes back in time. [done]: the rows before these. *)
Lemma parse_rows_spec columns rs done l interner :
  Forall2 (fun row r => forall interner, exists interner', from_kdb_row row columns interner = (inr r, interner')) rs l ->
  in_order None done -> let prev := fst <$> last done in
  exists interner', (in_order prev l /\ parse_rows (K := K) (T := T) columns rs prev interner = (inr l, interner')) \/
    exists a b, first_back (done ++ l) a b /\
      parse_rows (K := K) (T := T) columns rs prev interner = (inl (unsorted b.1 a.1), interner').
Proof.
  intros Hp. induction Hp as [|row r rs l Hrow _ IH] in done, interner |- *; intros Hd prev.
  { eexists. by left. }
  cbn [parse_rows]. destruct (Hrow interner) as [i' ->]. destruct r as [t v].
  destruct (goes_back prev t) eqn:Hb.
  - eexists. right. destruct (last done) as [a|] eqn:Ha; [|done]. apply last_Some in Ha as [before ->].
    exists a, (t, v). simpl in Hb. split; [|by subst prev]. exists before, l. rewrite <-app_assoc.
    split_and!; [done|by eapply in_order_sorted|simpl; lia].
  - assert (Hd' : in_order None (done ++ [(t, v)])).
    { apply in_order_snoc; [done|]. subst prev. by destruct (last done). }
    destruct (IH (done ++ [(t, v)]) i' Hd') as (i2 & Hres). rewrite last_snoc in Hres. cbn [fmap option_fmap option_map fst] in Hres.
    exists i2. destruct Hres as [[Hin E]|(a & b & Hab & E)]; rewrite E; [left; by split|right].
    exists a, b. by rewrite <-app_assoc in Hab.
Qed.

(** The connection, made or still to be made. *)
Definition reachable (socket : option S) : Prop :=
  match socket with Some s => served s | None => exists s, connect_to connection = inr s /\ served s end.

Lemma fetch_spec q socket interner : admissible q -> reachable socket ->
  exists socket' interner', reachable socket' /\
    (sorted_answer q /\ fetch connection q socket interner = (inr (answer q), socket', interner') \/
     exists a b, first_back (answer q) a b /\
       fetch connection q socket interner = (inl (unsorted b.1 a.1), socket', interner')).
Proof.
  intros Hq Hr. unfold fetch.
  assert (Hs : exists s, (match socket with Some s => inr s | None => connect_to connection end) = inr s /\ served s).
  { destruct socket as [s|]; [by exists s|exact Hr]. }
  destruct Hs as (s & -> & Hs).
  destruct (serves_one _ _ _ Hserves q s Hq Hs) as (k & s' & -> & Hs' & cols & rs & -> & -> & Hp).
  destruct (parse_rows_spec cols (all_rows rs) [] (answer q) interner Hp I) as (i & Hres). simpl in Hres.
  exists (Some s'), i. split; [done|].
  destruct Hres as [[Hin ->]|(a & b & Hab & ->)]; [left; split; [by eapply in_order_sorted|done]|right; by exists a, b].
Qed.

(** What the cached reader gives of the queries: the slices up to the first whose
    answer goes back in time, then the error. *)
Definition cached_items (queries : list (bytes * TimeWindow)) (l : list (Item T)) : Prop :=
  Forall (fun qw => sorted_answer qw.1) queries /\ l = concat (map (fun qw => items qw.2 (answer qw.1)) queries) \/
  exists pre q win post a b, queries = pre ++ (q, win) :: post /\ Forall (fun qw => sorted_answer qw.1) pre /\
    first_back (answer q) a b /\
    l = concat (map (fun qw => items qw.2 (answer qw.1)) pre) ++ [inl (unsorted b.1 a.1)].

Lemma cached_items_cons q win queries l : sorted_answer q -> cached_items queries l ->
  cached_items ((q, win) :: queries) (items win (answer q) ++ l).
Proof.
  intros Hq [[Hall ->]|(pre & q' & win' & post & a & b & -> & Hpre & Hab & ->)].
  - left. split; [by constructor|done].
  - right. exists ((q, win) :: pre), q', win', post, a, b. split_and!; [done|by constructor|done|].
    simpl. by rewrite app_assoc.
Qed.

Lemma cached_stream_spec queries socket interner w :
  Forall (fun qw => admissible qw.1) queries -> reachable socket -> coherent w ->
  exists l w', cached_stream connection cache queries socket interner w = (l, w') /\
    cached_items queries l /\ coherent w'.
Proof.
  intros Hq. induction Hq as [|[q win] queries Hadm _ IH] in socket, interner, w |- *; intros Hr Hc.
  { eexists _, _. split_and!; [done|by left|done]. }
  simpl in Hadm. cbn [cached_stream].
  pose proof (get_coherent cache admissible sorted_answer answer one_line collision_free q w Hadm Hc) as Hget.
  unfold key in Hget. destruct (FileCache.get cache (from_parts [q]) w) as [r w1]. destruct Hget as [Hc1 Hres].
  destruct Hres as [[-> Hst]|Hres].
  - destruct (IH socket interner w1 Hr Hc1) as (l & w2 & E & Hl & Hc2). rewrite E, emit_spec.
    eexists _, _. split_and!; [done|by apply cached_items_cons|done].
  - destruct (fetch_spec q socket interner Hadm Hr) as (socket' & i & Hr' & Hf).
    assert (Hnot : match r with Ok (Some _) => False | _ => True end) by (by destruct Hres as [->|[e ->]]).
    destruct Hf as [[Hst Hf]|(a & b & Hab & Hf)].
    + pose proof (put_coherent cache admissible sorted_answer answer collision_free q w1 Hadm Hst Hc1) as Hput.
      unfold key in Hput. destruct r as [[|]| | |]; try done; rewrite Hf;
        destruct (FileCache.put cache _ q (answer q) w1) as [r2 w2]; destruct Hput as [Hc2 _];
        destruct (IH socket' i w2 Hr' Hc2) as (l & w3 & E & Hl & Hc3); rewrite E, emit_spec;
        (eexists _, _; split_and!; [done|by apply cached_items_cons|done]).
    + destruct r as [[|]| | |]; try done; rewrite Hf; (eexists _, _; split_and!; [done| |done]);
        (right; exists [], q, win, queries, a, b; split_and!; [done|constructor|done|done]).
Qed.

Context {Q : Type} (query_fn : Z * Z -> Z -> Z -> Q -> bytes * Q).
Context (fuel : nat) (period : Duration) (ctx : RunParams) (finish : Z) (table : list (Z * T)) (slices : list Slice).

(** C36: The cached reader against the plain one. The server is up; the query of each
    slice is one line, the queries' digests differ, and each is answered with the rows
    of its slice of a table sorted by time, among any others; the files are coherent:
    the file of a query, if there is one, holds its answer, sorted, or a part of what
    was to be written. Then the plain reader gives the graph the table's rows within
    the run's window. If the cache's folder cannot be made, the cached reader fails
    with that error. Otherwise, whichever other calls of the file system fail, hit or
    miss, it leaves the files coherent for the next run, and if each answer is
    sorted by time as a whole, also outside its slice, it gives the very stream of
    the plain reader. If one is not, it gives the rows of the slices before the
    first such answer and then the error of the first row there that goes back in
    time, though the rows of the window are sorted: the cached reader checks the
    order before it drops the rows outside the window, the plain reader after. *)
Theorem kdb_read_cached_equiv q w s :
  bounded_run fuel period ctx finish slices -> StronglySorted earlier table ->
  right_queries admissible answer query_fn table slices -> connect_to connection = inr s -> served s ->
  coherent w ->
  let queries := slice_queries query_fn (rp_start ctx) finish q slices in
  let cached := kdb_read_cached query_fn fuel connection period (FileCache.config cache) q ctx w in
  let plain := kdb_read query_fn fuel connection period q ctx in
  plain = Ok (map inr (between (rp_start ctx) finish table)) /\
  match (fs_create_dir_all (folder (FileCache.config cache)) w).1 with
  | Some e => cached.1 = Err (io_error e)
  | None =>
    coherent cached.2 /\
    (Forall (fun qw => sorted_answer qw.1) queries -> cached.1 = plain) /\
    (~ Forall (fun qw => sorted_answer qw.1) queries ->
       exists pre query win post a b, queries = pre ++ (query, win) :: post /\
         Forall (fun qw => sorted_answer qw.1) pre /\ first_back (answer query) a b /\
         cached.1 = Ok (concat (map (fun qw => items qw.2 (answer qw.1)) pre) ++ [inl (unsorted b.1 a.1)]))
  end.
Proof.
  intros Hrun Htab Hright Hconn Hs Hc queries cached plain.
  destruct (window_items admissible answer query_fn fuel period ctx finish table slices q Hrun Htab Hright) as [Hitems Hall].
  assert (Hplain : plain = Ok (map inr (between (rp_start ctx) finish table)))
    by (by apply (kdb_read_window admissible answer served Hserves query_fn fuel connection period ctx finish table slices q s)).
  split; [exact Hplain|]. unfold cached, kdb_read_cached.
  rewrite (validated_slices _ _ _ _ _ _ Hrun), (br_end _ _ _ _ _ Hrun). unfold mlift. erewrite mbind_ok by reflexivity.
  rewrite io_eq. destruct (fs_create_dir_all _ w).1 as [e|] eqn:Hdir; [done|].
  pose proof (create_dir_law (folder (FileCache.config cache)) w) as Hd.
  edestruct (cached_stream_spec queries None ∅ (fs_create_dir_all (folder (FileCache.config cache)) w).2)
    as (l & w' & E & Hl & Hc'); [|by exists s|by rewrite Hd|].
  { eapply Forall_impl; [exact Hall|]. by intros ? [? _]. }
  unfold io. fold queries. destruct cache as [cfg]. simpl in E |- *. rewrite E. simpl. split; [done|].
  destruct Hl as [[Hsort ->]|(pre & q' & win & post & a & b & Hq & Hpre & Hab & ->)]; split.
  - intros _. by rewrite Hplain, <-Hitems.
  - by intros [].
  - rewrite Hq. intros [_ [Hx _]%Forall_cons]%Forall_app. by apply first_back_unsorted in Hab.
  - intros _. by exists pre, q', win, post, a, b.
Qed.
End cached.

(** ** Two small servers *)

Module Small.
(** As much of a q value as a table of two columns of longs takes. *)
Inductive QValue :=
| QLong (z : Z)
| QLongs (l : list Z)
| QSyms (l : list bytes)
| QList (l : list QValue)
| QDict (k v : QValue)
| QTable (d : QValue).

#[export] Instance q_value : KValue QValue := {
  get_type k := match k with QLong _ => -7 | QLongs _ => 7 | QSyms _ => 11 | QList _ => 0 | QDict _ _ => 99 | QTable _ => 98 end;
  k_len k := match k with QLongs l => length l | QSyms l => length l | QList l => length l | _ => 1%nat end;
  get_dictionary k := match k with QTable d => inr d | _ => inl (ClientError "not a table") end;
  as_vec_K k :=
    match k with QList l => inr l | QDict k v => inr [k; v] | _ => inl (ClientError "not a list") end;
  as_vec_String k := match k with QSyms l => inr l | _ => inl (ClientError "not symbols") end;
  atoms kind k :=
    match kind, k with VLong, QLongs l => inr (map QLong l) | VCompound, QList l => inr l | _, _ => inl (ClientError "kind") end;
  get_long k := match k with QLong z => inr z | _ => inl (ClientError "not a long") end;
  get_symbol _ := inl (ClientError "not a symbol");
  kdb_text _ := "kdb error" }.

Definition table_of (l : list (Z * Z)) : QValue :=
  QTable (QDict (QSyms [lit "time"; lit "x"]) (QList [QLongs (map fst l); QLongs (map snd l)])).

(** Times count from the kdb epoch. *)
Definition book (h : bytes) : list (Z * Z) :=
  if bool_decide (h = lit "a") then
    [(0, 1); (50000000000000, 2); (54000000000000, 3); (DAY_NANOS, 4); (DAY_NANOS, 5); (DAY_NANOS + 43200000000000, 6)]
  else if bool_decide (h = lit "c") then [(9, 8); (0, 1); (50000000000000, 2)]
  else [(DAY_NANOS, 7)].

(** A server is its host, and answers whatever it is asked with all it has. *)
#[export] Instance q_client : Client bytes QValue := {
  connect h _ _ := inr h;
  send_sync_message _ h := (inr (table_of (book h)), h);
  receive_message h := (inl (ClientError "closed"), h) }.

#[export] Instance q_row : KdbDeserialize QValue Z := fun row _ interner =>
  (match Row_get_timestamp row 0, Row_get row 1 with
   | inr t, inr k => match get_long k with inr v => inr (t, v) | inl e => inl e end
   | inl e, _ | _, inl e => inl e
   end, interner).

Abbreviation K := NanoTime.KDB_EPOCH_OFFSET_NANOS.
Definition answer (_ : bytes) : list (Z * Z) := map (fun r => (r.1 + K, r.2)) (book (lit "a")).
Definition query_fn (w : Z * Z) (_ _ : Z) (q : unit) : bytes * unit := (lit "select " ++ lit (z_text w.1), q).

(** From ten past noon of the first day to noon of the second, by five hours. *)
Definition ctx : RunParams :=
  mkRunParams (HistoricalFrom (K + 43800000000000)) (ForDuration (mkDuration 85800 0)) (K + 43800000000000).
Definition finish : Z := K + DAY_NANOS + 43200000000000.
Definition period : Duration := mkDuration 18000 0.
Definition slices : list Slice :=
  match compute_time_slices 5 (rp_start ctx) finish period with Ok l => l | _ => [] end.
Definition queries : list bytes := map (fun s => (query_fn (sl_t0 s, sl_t1 s) 0 0 tt).1) slices.
Definition asked (q : bytes) : Prop := q ∈ queries.
Definition read (h : string) : Res (list (Item Z)) :=
  kdb_read (S := bytes) query_fn 5 (KdbConnection_new (lit h) 5000) period tt ctx.
Definition read_cached (h : string) (w : MemFs) : Res (list (Item Z)) * MemFs :=
  kdb_read_cached (S := bytes) query_fn 5 (KdbConnection_new (lit h) 5000) period (mkConfig (lit "c") u64_max) tt ctx w.

Lemma run_bounded : bounded_run 5 period ctx finish slices.
Proof. split; [done|done|by vm_compute|by vm_compute|done|by vm_compute]. Qed.

Lemma queries_right : right_queries asked answer query_fn (answer []) slices.
Proof. intros s [] Hs. split; [|done]. by apply (list_elem_of_fmap_2 (fun s => (query_fn (sl_t0 s, sl_t1 s) 0 0 tt).1)). Qed.

Lemma served_a : serves asked answer (fun s => s = lit "a").
Proof.
  pose (cols := [QLongs (map fst (book (lit "a"))); QLongs (map snd (book (lit "a")))]).
  split. intros q s _ ->. exists (table_of (book (lit "a"))), (lit "a"). split_and!; [done|done|].
  exists [lit "time"; lit "x"], (from_column_list cols). split_and!; [done|done|].
  change (all_rows (from_column_list cols)) with (map (mkRow cols) [0; 1; 2; 3; 4; 5]%nat).
  repeat constructor; intros interner; exists interner; reflexivity.
Qed.

Lemma answer_sorted : StronglySorted earlier (answer []).
Proof. unfold earlier, answer. vm_compute. repeat constructor; done. Qed.

Lemma keys_differ q1 q2 : asked q1 -> asked q2 -> key q1 = key q2 -> q1 = q2.
Proof.
  assert (Hd : Forall (fun q1 => Forall (fun q2 => key_text (key q1) = key_text (key q2) -> q1 = q2) queries) queries).
  { apply (bool_decide_unpack _). by vm_compute. }
  intros H1 H2 Hk. rewrite Forall_forall in Hd. specialize (Hd q1 H1). rewrite Forall_forall in Hd.
  apply Hd; [done|]. by rewrite Hk.
Qed.

Lemma queries_one_line q : asked q -> NEWLINE ∉ q.
Proof.
  assert (Hd : Forall (fun q => NEWLINE ∉ q) queries) by (apply (bool_decide_unpack _); by vm_compute).
  rewrite Forall_forall in Hd. apply Hd.
Qed.

Lemma nothing_stored :
  coherent (FileCache.new (mkConfig (lit "c") u64_max)) asked (sorted_answer answer) answer (files empty_fs).
Proof. intros q b _. change (files empty_fs) with (∅ : gmap Path bytes). by rewrite lookup_empty. Qed.
End Small.

(** Four of the six rows are in the window. *)
Lemma kdb_read_exact_witness :
  Small.read "a" = Ok (map inr (between (K + 43800000000000) Small.finish (Small.answer []))) /\
  map snd (between (K + 43800000000000) Small.finish (Small.answer [])) = [2; 3; 4; 5].
Proof.
  split; [|by vm_compute].
  apply (kdb_read_exact Small.asked Small.answer (fun s => s = lit "a") Small.served_a Small.query_fn 5
    (KdbConnection_new (lit "a") 5000) Small.period Small.ctx Small.finish (Small.answer []) Small.slices tt (lit "a"));
    [apply Small.run_bounded|apply Small.answer_sorted|apply Small.queries_right|done|done].
Defined.

(** Twice over the same folder, empty at first. *)
Lemma kdb_read_cached_equiv_witness :
  exists w1 w2, Small.read_cached "a" empty_fs = (Small.read "a", w1) /\
    Small.read_cached "a" w1 = (Small.read "a", w2).
Proof.
  pose (equiv := fun w => kdb_read_cached_equiv Small.asked Small.answer (fun s => s = lit "a") Small.served_a
    (FileCache.new (mkConfig (lit "c") u64_max)) (KdbConnection_new (lit "a") 5000) Small.queries_one_line
    Small.keys_differ Small.query_fn 5 Small.period Small.ctx Small.finish
    (Small.answer []) Small.slices tt w (lit "a") Small.run_bounded Small.answer_sorted Small.queries_right
    eq_refl eq_refl).
  assert (Hsort : forall l : list (bytes * TimeWindow), Forall (fun qw => sorted_answer Small.answer qw.1) l).
  { intros l. apply Forall_forall. intros qw _. exact Small.answer_sorted. }
  destruct (equiv empty_fs Small.nothing_stored) as (_ & Hc1 & E1 & _). specialize (E1 (Hsort _)).
  destruct (equiv _ Hc1) as (_ & _ & E2 & _). specialize (E2 (Hsort _)).
  eexists _, _. split; (etransitivity; [apply surjective_pairing|]); (apply f_equal2; [|reflexivity]).
  - exact E1.
  - exact E2.
Defined.

(** A server whose rows before the window are out of order. *)
Example order_outside_window :
  Small.read "c" = Ok [inr (50000000000000 + K, 2)] /\
  (Small.read_cached "c" empty_fs).1 = Ok [inl (unsorted K (9 + K))].
Proof. vm_compute. split; reflexivity. Qed.

(** The key is made of the query alone: after a run against one server, a run
    against another is given the first one's rows. *)
Lemma cache_ignores_connection :
  let w := (Small.read_cached "a" empty_fs).2 in
  (Small.read_cached "b" w).1 = Small.read "a" /\ Small.read "b" <> Small.read "a" /\
  (Small.read_cached "b" empty_fs).1 = Small.read "b".
Proof. vm_compute. split_and!; done. Qed.
