(* ===== verification/NodeWorld.v ===== *)
(** * Nodes and threads that call a library

    A library that keeps its state elsewhere is a set of calls on a world [W]. A
    method of a node works on the node, the world and the engine's state; the code
    of a thread on the thread's own data and the world. What a call may fail with is
    a text. Then the items an async stream stamps with the clock, as the adapters of
    live systems yield them, and the loop of their writers. *)
From S2P Require Import Prelude NanoTime TimeQueue GraphState NodeCalls Channel GraphNodes AsyncNodes Cache Kdb.
From Stdlib Require Import Strings.Ascii.

(** [{name:?}], of a text in which [Debug] has nothing to escape. *)
Definition quoted (name : string) : string :=
  let q := String.String "034"%char EmptyString in q +:+ name +:+ q.

(** ** Calls *)

Section lib.
Context {W : Type}.

(** [call().map_err(f)?], of a call with a result and of one without. *)
Definition io_or {A E} (f : E -> Error) (c : W -> (E + A) * W) : M W A :=
  let! r := io c in match r with inr a => mreturn a | inl e => mfail (f e) end.
Definition io_or_ {E} (f : E -> Error) (c : W -> option E * W) : M W unit :=
  let! r := io c in match r with None => mreturn tt | Some e => mfail (f e) end.

Lemma io_or_inv {A E} (f : E -> Error) (c : W -> (E + A) * W) w a w' :
  io_or f c w = (Ok a, w') -> c w = (inr a, w').
Proof. unfold io_or, mbind, io. destruct (c w) as [[e|b] w1]; [done|]. by intros [= -> ->]. Qed.
End lib.

(** In a method of a node. *)
Section node.
Context {S W : Type}.

Definition world {A} (f : W -> A * W) : NodeM (S * W) A := fun s =>
  let '(a, w) := f s.1.2 in (Ok a, ((s.1.1, w), s.2)).
Definition in_world {A} (m : M W A) : NodeM (S * W) A := fun s =>
  let '(r, w) := m s.1.2 in (r, ((s.1.1, w), s.2)).
Definition self_of : NodeM (S * W) S := fun s => (Ok s.1.1, s).
Definition set_self (x : S) : NodeM (S * W) unit := fun s => (Ok tt, ((x, s.1.2), s.2)).
Definition try {A} (f : W -> (string + A) * W) : NodeM (S * W) A :=
  let! r := world f in match r with inr a => mreturn a | inl e => mfail (Msg e) end.
Definition try_ (f : W -> option string * W) : NodeM (S * W) unit :=
  let! r := world f in match r with None => mreturn tt | Some e => mfail (Msg e) end.
End node.

(** In a thread that owns the sending end of a channel. *)
Section thread.
Context {K X W V : Type} `{KanalSender K V, ReadyChannel X}.
Abbreviation ThreadM A := (M (ChannelSender K X * W) A).

Definition on_world {A} (f : W -> A * W) : ThreadM A := fun s => let '(a, w) := f s.2 in (Ok a, (s.1, w)).
Definition run_in_world {A} (m : M W A) : ThreadM A := fun s => let '(r, w) := m s.2 in (r, (s.1, w)).
Definition ask {A} (f : W -> (string + A) * W) : ThreadM A :=
  let! r := on_world f in match r with inr a => mreturn a | inl e => mfail (Msg e) end.
Definition ask_ (f : W -> option string * W) : ThreadM unit :=
  let! r := on_world f in match r with None => mreturn tt | Some e => mfail (Msg e) end.

(** [sender.send_message(m)?], and [let _ = sender.send_message(m)]. *)
Definition post (m : Message V) : ThreadM unit := fun s =>
  let '(r, sender) := ChannelSender.send_message m s.1 in (send_result r, (sender, s.2)).
Definition post_ignoring (m : Message V) : ThreadM unit := fun s =>
  let '(_, sender) := ChannelSender.send_message m s.1 in (Ok tt, (sender, s.2)).
End thread.

(** ** What a thread has put into its channel *)

Section outbox.
Context {K X W V : Type} `{Outbound K V, ReadyChannel X}.

Definition put (c : ChannelSender K X) : list (Message V) :=
  match ChannelSender.kanal_sender c with Some k => outbox k | None => [] end.

(** A send appends its message, or does nothing. *)
Lemma send_message_put m (c : ChannelSender K X) r c' :
  ChannelSender.send_message m c = (r, c') ->
  put c' = put c ++ [m] \/ r = SendErr ChannelClosed /\ put c' = put c.
Proof.
  unfold ChannelSender.send_message, put. destruct (ChannelSender.kanal_sender c) as [k|] eqn:Ek;
    [|by intros [= <- <-]; right; rewrite Ek].
  destruct (kanal_send m k) as [ok k'] eqn:Hk. apply kanal_send_spec in Hk.
  destruct ok; [|by intros [= <- <-]; right]. intros E. left. clear Ek.
  destruct (ChannelSender.notifier c) as [n|]; [destruct (notify n) as [ok n']|]; by simplify_eq/=.
Qed.

Lemma post_put m (s : ChannelSender K X * W) u s' :
  post m s = (Ok u, s') -> put s'.1 = put s.1 ++ [m] /\ s'.2 = s.2.
Proof.
  unfold post. destruct (ChannelSender.send_message m s.1) as [r c] eqn:E. intros [= Hr <-]. split; [|done].
  apply send_message_put in E as [E|[-> _]]; [exact E|done].
Qed.
End outbox.

(** ** Streams of a live system *)

(** [NanoTime::now()], a call on the world. *)
Class Clock (W : Type) := clock_now : W -> Z * W.

Section live.
Context {W : Type} `{!Clock W}.

(** [yield Ok((NanoTime::now(), x))]. *)
Definition stamp {T} (x : T) : M W (Item T) := let! now := io clock_now in mreturn (inr (now, x)).

Fixpoint stamp_all {T} (l : list T) : M W (list (Item T)) :=
  match l with
  | [] => mreturn []
  | x :: l =>
    let! item := stamp x in
    let! more := stamp_all l in
    mreturn (item :: more)
  end.

(** What is yielded before the stream goes on. *)
Definition yielding {T} (m : M W (list (Item T))) (k : M W (list (Item T))) : M W (list (Item T)) :=
  let! items := m in
  let! more := k in
  mreturn (items ++ more).

(** The loop of a writer: every value of every burst of its source. *)
Definition write_bursts {T} (send : T -> M W unit) (source : list (Z * list T)) : M W unit :=
  mfor source (fun burst => mfor burst.2 send).

(** [self.map(|x| burst![x])]: the source of a writer of single values. *)
Definition in_bursts {T} (source : list (Z * T)) : list (Z * list T) := map (fun '(t, x) => (t, [x])) source.
End live.

(** The values among the items, and the error that ends them. *)
Definition events_of {T} (items : list (Item T)) : list T :=
  omap (fun i => match i with inr (_, x) => Some x | inl _ => None end) items.

Lemma events_of_app {T} (a b : list (Item T)) : events_of (a ++ b) = events_of a ++ events_of b.
Proof. unfold events_of. by rewrite omap_app. Qed.

(** Stamping never fails, and touches no more than a reading of the clock does. *)
Lemma stamp_all_run {W T} `{!Clock W} (l : list T) (w w' : W) r : stamp_all l w = (r, w') ->
  exists items, r = Ok items /\ events_of items = l /\
    Forall (fun i => match i with inr _ => True | inl _ => False end) items /\
    forall P : W -> Prop, (forall v, P v -> P (clock_now v).2) -> P w -> P w'.
Proof.
  revert w r w'. induction l as [|x l IH]; intros w r w' E; [injection E as <- <-; exists []; by split_and!|].
  cbn [stamp_all] in E. unfold stamp, mbind, io, mreturn in E. destruct (clock_now w) as [t w1] eqn:Ec.
  destruct (stamp_all l w1) as [r1 w2] eqn:E1. apply IH in E1 as (items & -> & Hi & Ha & Hp).
  injection E as <- <-. exists (inr (t, x) :: items). split_and!; [done|cbn; by rewrite <-Hi|by constructor|].
  intros P HP Hw. apply Hp; [done|]. specialize (HP w Hw). by rewrite Ec in HP.
Qed.

(** A writer whose every send shows in a log gets through its source in order, up
    to the first send that fails. *)
Section writer.
Context {W T O : Type} (send : T -> M W unit) (ops : W -> list O) (op : T -> O).
Context (Hsend : forall x w r w', send x w = (r, w') ->
  ops w' = ops w ++ [op x] /\ (r = Ok tt \/ exists e, r = Err e)).

Lemma mfor_log l w r w' : mfor l send w = (r, w') ->
  exists done rest, l = done ++ rest /\ ops w' = ops w ++ map op done /\
    (r = Ok tt /\ rest = [] \/ exists e, r = Err e).
Proof.
  revert w. induction l as [|x l IH]; intros w E; cbn [mfor] in E.
  { injection E as <- <-. exists [], []. cbn [map]. rewrite (app_nil_r (ops w)). split_and!; [done..|by left]. }
  unfold mbind in E. destruct (send x w) as [r1 w1] eqn:E1. apply Hsend in E1 as [Ho [->|[er ->]]].
  - apply IH in E as (d & rest & -> & Ho' & Hr). exists (x :: d), rest.
    rewrite Ho', Ho, <-app_assoc. split_and!; [done..|exact Hr].
  - injection E as <- <-. exists [x], l. split_and!; [done..|eauto].
Qed.

Lemma write_bursts_log source w r w' : write_bursts send source w = (r, w') ->
  exists done rest, concat source.*2 = done ++ rest /\ ops w' = ops w ++ map op done /\
    (r = Ok tt /\ rest = [] \/ exists e, r = Err e).
Proof.
  unfold write_bursts. revert w. induction source as [|[t l] source IH]; intros w E; cbn [mfor] in E.
  { injection E as <- <-. exists [], []. cbn [map]. rewrite (app_nil_r (ops w)). split_and!; [done..|by left]. }
  unfold mbind in E. destruct (mfor (t, l).2 _ w) as [r1 w1] eqn:E1.
  apply mfor_log in E1 as (d & rest & Hl & Ho & [[-> ->]|[er ->]]); simpl in Hl.
  - apply IH in E as (d2 & rest & Hs & Ho2 & Hr). exists (d ++ d2), rest. cbn [fmap list_fmap concat snd].
    rewrite Hs, Hl, app_nil_r, Ho2, Ho, map_app, !app_assoc. split_and!; [done..|exact Hr].
  - injection E as <- <-. exists d, (rest ++ concat source.*2). cbn [fmap list_fmap concat snd].
    rewrite Hl, app_assoc. split_and!; [done..|eauto].
Qed.
End writer.
