(* ===== verification/Zmq.v ===== *)
(** * The ZeroMQ adapter: [wingfoil/src/adapters/zmq/]

    A publisher node that keeps its messages until a subscriber is there, the
    thread of a subscriber, and the registry by which the two find each other.
    The ZeroMQ library and the clock are the class [Zmq] on a world [W], the
    discovery backend [ZmqRegistry], the encoding [Bincode]; the etcd backend is
    written over the class [EtcdClient]. A method of a node works on the node and
    the world. [fuel] bounds the events and frames that are drained. *)
From stdpp Require Import pretty.
From S2P Require Import Prelude NanoTime TimeQueue GraphState NodeCalls Transforms Channel NodeWorld.
From Stdlib Require Import Strings.Ascii.
Local Open Scope Z_scope.

Abbreviation frame := (list ascii).

(** ** The environment *)

Inductive SocketType := SUB | PUB | PAIR.

(** A [None] is success, a text an error. [poll] tells of each socket whether it is
    readable; [monitor_id] is [MONITOR_ID.fetch_add]; [instant] is
    [Instant::now], in nanoseconds. *)
Class Zmq (W Sock : Type) := {
  new_socket : SocketType -> W -> (string + Sock) * W;
  zmq_monitor : Sock -> string -> Z -> W -> option string * W;
  zmq_connect : Sock -> string -> W -> option string * W;
  zmq_bind : Sock -> string -> W -> option string * W;
  zmq_subscribe : Sock -> frame -> W -> option string * W;
  zmq_poll : list Sock -> Z -> W -> (string + list bool) * W;
  zmq_recv : Sock -> W -> (string + frame) * W;
  zmq_rcvmore : Sock -> W -> (string + bool) * W;
  zmq_send : Sock -> frame -> W -> option string * W;
  monitor_id : W -> Z * W;
  instant : W -> Z * W;
  stop_requested : W -> bool * W }.

(** [bincode] for messages. *)
Class Bincode (T : Type) := {
  bincode_serialize : Message T -> Error + frame;
  bincode_deserialize : frame -> Error + Message T }.

Class ZmqRegistry (R W H : Type) := {
  register : R -> string -> string -> W -> (Error + H) * W;
  lookup_name : R -> string -> W -> (Error + string) * W;
  revoke : H -> W -> W }.

Definition ZMQ_EVENT_CONNECTED : Z := 1.
Definition ZMQ_EVENT_ACCEPTED : Z := 8.
Definition ZMQ_EVENT_DISCONNECTED : Z := 512.
Definition byte (c : ascii) : Z := Z.of_N (N_of_ascii c).

(** [u16::from_le_bytes] of the first two bytes, if there are two. *)
Definition event_id (f : frame) : option Z :=
  match f with a :: b :: _ => Some (byte a + 256 * byte b) | _ => None end.

(** [duration_since], which saturates. *)
Definition since (now earlier : Z) : Z := Z.max 0 (now - earlier).

(** [Option<(name, registry)>] and the two ways to name an address. *)
Inductive ZmqStatus := Connected | Disconnected.
Definition ZmqStatus_default : ZmqStatus := Disconnected.
Inductive ZmqEvent (T : Type) := Data (v : T) | Status (s : ZmqStatus).
Arguments Data {T} v.
Arguments Status {T} s.
#[export] Instance ZmqEvent_default {T} `{Element T} : Element (ZmqEvent T) := Data default_value.

Inductive ZmqSubResolution (R : Type) := Direct (address : string) | Discover (name : string) (registry : R).
Arguments Direct {R} address.
Arguments Discover {R} name registry.
Definition ZmqPubRegistration (R : Type) : Type := option (string * R).

(** ** The publisher: [write.rs] *)

Definition BUFFER_TIMEOUT : Z := 500000000.

Module ZeroMqSenderNode.
Section node.
Context {W Sock R H T : Type} `{Zmq W Sock, Bincode T, ZmqRegistry R W H}.
Record ZeroMqSenderNode := mk {
  src : addr; port : Z; bind_address : string; registration : ZmqPubRegistration R;
  socket : option Sock; monitor : option Sock; registry_handle : option H;
  subscriber_connected : bool; accepted_at : option Z; buffer : list frame; buffer_start : option Z }.

(** [zmq_pub_on], and [zmq_pub] on the loopback address. *)
Definition zmq_pub_on (self : addr) (address : string) (port : Z) (registration : ZmqPubRegistration R)
  : ZeroMqSenderNode := mk self port address registration None None None false None [] None.
Definition zmq_pub (self : addr) (port : Z) (registration : ZmqPubRegistration R) : ZeroMqSenderNode :=
  mk self port "127.0.0.1" registration None None None false None [] None.
Definition upstreams (self : ZeroMqSenderNode) : UpStreams := mkUpStreams [src self] [].

Definition set_accepted (a : option Z) (n : ZeroMqSenderNode) : ZeroMqSenderNode :=
  mk (src n) (port n) (bind_address n) (registration n) (socket n) (monitor n) (registry_handle n)
    (subscriber_connected n) a (buffer n) (buffer_start n).
Definition set_connected (n : ZeroMqSenderNode) : ZeroMqSenderNode :=
  mk (src n) (port n) (bind_address n) (registration n) (socket n) (monitor n) (registry_handle n)
    true (accepted_at n) (buffer n) (buffer_start n).
Definition set_buffer (b : list frame) (start : option Z) (n : ZeroMqSenderNode) : ZeroMqSenderNode :=
  mk (src n) (port n) (bind_address n) (registration n) (socket n) (monitor n) (registry_handle n)
    (subscriber_connected n) (accepted_at n) b start.
Definition set_socket (s : Sock) (n : ZeroMqSenderNode) : ZeroMqSenderNode :=
  mk (src n) (port n) (bind_address n) (registration n) (Some s) (monitor n) (registry_handle n)
    (subscriber_connected n) (accepted_at n) (buffer n) (buffer_start n).
Definition set_monitor (s : Sock) (n : ZeroMqSenderNode) : ZeroMqSenderNode :=
  mk (src n) (port n) (bind_address n) (registration n) (socket n) (Some s) (registry_handle n)
    (subscriber_connected n) (accepted_at n) (buffer n) (buffer_start n).
Definition set_handle (h : option H) (n : ZeroMqSenderNode) : ZeroMqSenderNode :=
  mk (src n) (port n) (bind_address n) (registration n) (socket n) (monitor n) h
    (subscriber_connected n) (accepted_at n) (buffer n) (buffer_start n).

Abbreviation PubM A := (NodeM (ZeroMqSenderNode * W) A).

(** The further frames of a monitor's event; an error of [get_rcvmore] ends them. *)
Fixpoint drain_frames (fuel : nat) (m : Sock) : PubM unit :=
  match fuel with
  | O => mstuck
  | Datatypes.S fuel =>
    let! more := world (zmq_rcvmore m) in
    match more with
    | inr true => do! world (zmq_recv m) in drain_frames fuel m
    | _ => mreturn tt
    end
  end.

Fixpoint monitor_loop (fuel : nat) (m : Sock) : PubM unit :=
  match fuel with
  | O => mstuck
  | Datatypes.S fuel' =>
    let! readable := world (zmq_poll [m] 0) in
    match readable with
    | inr [true] =>
      let! event_frame := world (zmq_recv m) in
      do! match event_frame with
          | inr f =>
            do! drain_frames fuel m in
            if bool_decide (event_id f = Some ZMQ_EVENT_ACCEPTED) then
              let! now := world instant in
              let! self := self_of in
              set_self (set_accepted (Some now) self)
            else mreturn tt
          | inl _ => mreturn tt
          end in
      monitor_loop fuel' m
    | _ => mreturn tt
    end
  end.

Definition check_monitor (fuel : nat) : PubM unit :=
  let! self := self_of in
  match monitor self with None => mreturn tt | Some m => monitor_loop fuel m end.

(** The first [if] of [cycle]: has a subscriber had 50 ms to subscribe? *)
Definition check_subscriber (fuel : nat) : PubM unit :=
  let! self := self_of in
  if subscriber_connected self then mreturn tt
  else
    do! check_monitor fuel in
    let! self := self_of in
    match accepted_at self with
    | None => mreturn tt
    | Some at_ =>
      let! now := world instant in
      if 50000000 <=? since now at_ then set_self (set_connected self) else mreturn tt
    end.

(** [for buffered in self.buffer.drain(..)]: what is left when a send fails is
    dropped with the iterator. *)
Fixpoint flush (sock : Sock) (l : list frame) : PubM unit :=
  match l with
  | [] => mreturn tt
  | buffered :: l => do! try_ (zmq_send sock buffered) in flush sock l
  end.

(** [up] is the value of the upstream. *)
Definition cycle (fuel : nat) (up : T) : PubM bool :=
  do! check_subscriber fuel in
  let! g := graph in
  match bincode_serialize (Message.build up g) with
  | inl e => mfail e
  | inr data =>
    let! self := self_of in
    match socket self with
    | None => mfail (Msg "missing socket")
    | Some sock =>
      if subscriber_connected self then
        do! set_self (set_buffer [] (buffer_start self) self) in
        do! flush sock (buffer self) in
        do! set_self (set_buffer [] None self) in
        do! try_ (zmq_send sock data) in
        mreturn true
      else
        let! now := world instant in
        let start := default now (buffer_start self) in
        do! (if bool_decide (accepted_at self = None) && (BUFFER_TIMEOUT <? since now start) then
               set_self (set_buffer [data] (Some now) self)
             else set_self (set_buffer (buffer self ++ [data]) (Some start) self)) in
        mreturn true
    end
  end.

Definition start : PubM unit :=
  let! g := graph in
  match run_mode g with
  | HistoricalFrom _ => mfail (Msg "ZMQ nodes only support real-time mode")
  | RealTime =>
    let! sock := try (new_socket PUB) in
    let! id := world monitor_id in
    let monitor_addr := "inproc://zmq-pub-monitor-" +:+ pretty id in
    do! try_ (zmq_monitor sock monitor_addr ZMQ_EVENT_ACCEPTED) in
    let! m := try (new_socket PAIR) in
    do! try_ (zmq_connect m monitor_addr) in
    let! self := self_of in
    do! set_self (set_monitor m self) in
    let! self := self_of in
    let address := "tcp://" +:+ bind_address self +:+ ":" +:+ pretty (port self) in
    do! try_ (zmq_bind sock address) in
    do! set_self (set_socket sock self) in
    match registration self with
    | None => mreturn tt
    | Some (name, registry) =>
      let! h := world (register registry name address) in
      match h with
      | inl e => mfail e
      | inr h => let! self := self_of in set_self (set_handle (Some h) self)
      end
    end
  end.

Definition stop : PubM unit :=
  let! self := self_of in
  do! match registry_handle self with
      | Some h => do! set_self (set_handle None self) in world (fun w => (tt, revoke h w))
      | None => mreturn tt
      end in
  let! self := self_of in
  match socket self with
  | None => mreturn tt
  | Some sock =>
    match bincode_serialize (T := T) Message.EndOfStream with
    | inl e => mfail e
    | inr data => try_ (zmq_send sock data)
    end
  end.
End node.
Arguments ZeroMqSenderNode : clear implicits.
End ZeroMqSenderNode.
Abbreviation ZeroMqSenderNode := ZeroMqSenderNode.ZeroMqSenderNode.

(** ** The subscriber: [read.rs] *)

Module ZeroMqSubscriber.
Section thread.
Context {W Sock K X T : Type} `{Zmq W Sock, Bincode T, KanalSender K (ZmqEvent T), ReadyChannel X}.

Abbreviation SubM A := (M (ChannelSender K X * W) A).

Fixpoint drain_frames (fuel : nat) (m : Sock) : SubM unit :=
  match fuel with
  | O => mstuck
  | Datatypes.S fuel =>
    let! more := ask (zmq_rcvmore m) in
    if more : bool then do! ask (zmq_recv m) in drain_frames fuel m else mreturn tt
  end.

Definition on_event (id : option Z) : SubM unit :=
  if bool_decide (id = Some ZMQ_EVENT_CONNECTED) then
    post (Message.RealtimeValue (Status Connected))
  else if bool_decide (id = Some ZMQ_EVENT_DISCONNECTED) then
    post (Message.RealtimeValue (Status Disconnected))
  else mreturn tt.

(** What is done with a message: whether the thread returns. *)
Definition on_data (res : frame) : SubM bool :=
  let msg := match bincode_deserialize (T := T) res with inr m => m | inl err => Message.Error err end in
  match msg with
  | Message.RealtimeValue v =>
    do! post (Message.RealtimeValue (Data v)) in mreturn false
  | Message.EndOfStream =>
    do! post (Message.RealtimeValue (Status Disconnected)) in
    do! post Message.EndOfStream in
    mreturn true
  | Message.Error err => do! post (Message.Error err) in mreturn true
  | Message.HistoricalValue _ | Message.CheckPoint _ => mreturn false
  end.

(** The [loop], for at most [rounds] rounds. *)
Fixpoint poll_loop (fuel rounds : nat) (socket monitor : Sock) : SubM unit :=
  match rounds with
  | O => mstuck
  | Datatypes.S rounds =>
    let! stop := on_world stop_requested in
    if stop : bool then mreturn tt
    else
      let! readable := ask (zmq_poll [socket; monitor] 200) in
      do! (if nth 1 readable false then
             let! event_frame := ask (zmq_recv monitor) in
             do! drain_frames fuel monitor in
             on_event (event_id event_frame)
           else mreturn tt) in
      let! done := (if nth 0 readable false then let! res := ask (zmq_recv socket) in on_data res else mreturn false) in
      if done : bool then mreturn tt else poll_loop fuel rounds socket monitor
  end.

Definition run (fuel rounds : nat) (address : string) : SubM unit :=
  let! socket := ask (new_socket SUB) in
  do! ask_ (zmq_connect socket address) in
  do! ask_ (zmq_subscribe socket []) in
  let! id := on_world monitor_id in
  let monitor_addr := "inproc://zmq-sub-monitor-" +:+ pretty id in
  do! ask_ (zmq_monitor socket monitor_addr (Z.lor ZMQ_EVENT_CONNECTED ZMQ_EVENT_DISCONNECTED)) in
  let! monitor := ask (new_socket PAIR) in
  do! ask_ (zmq_connect monitor monitor_addr) in
  poll_loop fuel rounds socket monitor.
End thread.
End ZeroMqSubscriber.

(** The closures of the two streams split off the subscriber's events. *)
Section split.
Context {T : Type}.
Definition event_data (e : ZmqEvent T) : option T := match e with Data v => Some v | Status _ => None end.
Definition event_status (e : ZmqEvent T) : option ZmqStatus := match e with Status s => Some s | Data _ => None end.

Definition data_of_burst (burst : list (ZmqEvent T)) : list T * bool :=
  let data := omap event_data burst in
  (data, match data with [] => false | _ => true end).
Definition status_of_burst (burst : list (ZmqEvent T)) : ZmqStatus * bool :=
  match last (omap event_status burst) with
  | Some s => (s, true)
  | None => (ZmqStatus_default, false)
  end.
#[export] Instance ZmqStatus_element : Element ZmqStatus := ZmqStatus_default.

(** [zmq_sub_direct], its receiver allocated at [events]. *)
Definition zmq_sub_direct (events : addr)
  : MapFilterStream.MapFilterStream (list (ZmqEvent T)) (list T) *
    MapFilterStream.MapFilterStream (list (ZmqEvent T)) ZmqStatus :=
  (MapFilterStream.new events data_of_burst, MapFilterStream.new events status_of_burst).

(** The address [zmq_sub] connects to. *)
Definition resolve {R W H} `{ZmqRegistry R W H} (config : ZmqSubResolution R) (w : W) : (Error + string) * W :=
  match config with
  | Direct addr => (inr addr, w)
  | Discover name reg => lookup_name reg name w
  end.
End split.

(** ** The etcd registry: [registry.rs] *)

(** The calls on an etcd client [C] and on the thread that keeps a lease alive. A key's
    value may not be text. *)
Class EtcdClient (W C J : Type) := {
  etcd_connect : list string -> W -> (string + C) * W;
  lease_grant : C -> Z -> W -> (string + Z) * W;
  etcd_put : C -> string -> string -> Z -> W -> option string * W;
  etcd_get : C -> string -> W -> (string + list (string + string)) * W;
  lease_revoke : C -> Z -> W -> option string * W;
  lease_keep_alive : C -> Z -> W -> option string * W;
  keep_alive : C -> W -> option string * W;
  keep_alive_response : C -> W -> bool * W;
  shutdown_within : Z -> W -> bool * W;
  spawn_keepalive : Z -> list string -> W -> J * W;
  notify_shutdown : J -> W -> W;
  join_thread : J -> W -> W }.

Module EtcdRegistry.
Section registry.
Context {W C J : Type} `{EtcdClient W C J}.

Definition LEASE_TTL_SECS : Z := 30.
Definition KEEPALIVE_INTERVAL_SECS : Z := 10.

Record EtcdRegistry := mk { endpoints : list string }.
Definition new (conn : string) : EtcdRegistry := mk [conn].
Definition with_endpoints (endpoints : list string) : EtcdRegistry := mk endpoints.
Record EtcdHandle := mkHandle { lease_id : Z; conn : list string; keepalive_thread : option J }.

Definition failed {A} (what : string) (e : string) (w : W) : (Error + A) * W := (inl (Msg (what +:+ e)), w).

Definition etcd_register (self : EtcdRegistry) (name address : string) (w : W) : (Error + EtcdHandle) * W :=
  match etcd_connect (endpoints self) w with
  | (inl e, w) => failed "etcd connect failed: " e w
  | (inr client, w) =>
    match lease_grant client LEASE_TTL_SECS w with
    | (inl e, w) => failed "etcd lease_grant failed: " e w
    | (inr id, w) =>
      match etcd_put client name address id w with
      | (Some e, w) => failed "etcd put failed: " e w
      | (None, w) =>
        let '(j, w) := spawn_keepalive id (endpoints self) w in (inr (mkHandle id (endpoints self) (Some j)), w)
      end
    end
  end.

(** The loop of the thread, for at most [rounds] renewals. *)
Fixpoint keepalive_loop (rounds : nat) (client : C) (w : W) : Res unit * W :=
  match rounds with
  | O => (OutOfFuel, w)
  | Datatypes.S rounds =>
    let '(shutdown, w) := shutdown_within KEEPALIVE_INTERVAL_SECS w in
    if shutdown : bool then (Ok tt, w)
    else
      match keep_alive client w with
      | (Some _, w) => (Ok tt, w)
      | (None, w) =>
        let '(renewed, w) := keep_alive_response client w in
        if renewed : bool then keepalive_loop rounds client w else (Ok tt, w)
      end
  end.

Definition keepalive (rounds : nat) (id : Z) (endpoints : list string) (w : W) : Res unit * W :=
  match etcd_connect endpoints w with
  | (inl _, w) => (Ok tt, w)
  | (inr client, w) =>
    match lease_keep_alive client id w with
    | (Some _, w) => (Ok tt, w)
    | (None, w) => keepalive_loop rounds client w
    end
  end.

Definition etcd_lookup (self : EtcdRegistry) (name : string) (w : W) : (Error + string) * W :=
  match etcd_connect (endpoints self) w with
  | (inl e, w) => failed "etcd connect failed: " e w
  | (inr client, w) =>
    match etcd_get client name w with
    | (inl e, w) => failed "etcd get failed: " e w
    | (inr (inr addr :: _), w) => (inr addr, w)
    | (inr (inl e :: _), w) => failed "etcd value is not valid UTF-8: " e w
    | (inr [], w) => (inl (Msg ("no publisher named " +:+ quoted name +:+ " found in etcd")), w)
    end
  end.

Definition revoke_lease (id : Z) (conn : list string) (w : W) : W :=
  match etcd_connect conn w with
  | (inl _, w) => w
  | (inr client, w) => (lease_revoke client id w).2
  end.

Definition revoke (self : EtcdHandle) (w : W) : W :=
  let w := match keepalive_thread self with Some j => join_thread j (notify_shutdown j w) | None => w end in
  revoke_lease (lease_id self) (conn self) w.

#[export] Instance etcd_registry : ZmqRegistry EtcdRegistry W EtcdHandle := {
  register self name address := etcd_register self name address;
  lookup_name self name := etcd_lookup self name;
  Zmq.revoke := revoke }.
End registry.
End EtcdRegistry.
