(* ===== verification/ZmqProps.v ===== *)
(** * What the ZeroMQ publisher and subscriber promise

    [zmq_pub_suffix]: what a publisher has sent and still holds is what it was given,
    less what was stale before a subscriber was seen. [zmq_stop_drops_buffer]: what
    stopping does to the messages it still holds. [zmq_sub_in_order]: a subscriber
    passes on what it receives. *)
From S2P Require Import Prelude NanoTime TimeQueue GraphState NodeCalls Transforms Channel NodeWorld Zmq.
From Stdlib Require Import Strings.Ascii.
Local Open Scope Z_scope.

(** What a socket has sent, and what it has received: a successful [send] sends one
    frame, nothing else sends. *)
Class ZmqLaws (W Sock : Type) `{Zmq W Sock} := {
  sent : W -> Sock -> list frame;
  send_law s f w : let '(r, w') := zmq_send s f w in
    sent w' s = match r with None => sent w s ++ [f] | Some _ => sent w s end;
  poll_law l t w s : sent (zmq_poll l t w).2 s = sent w s;
  recv_law m w s : sent (zmq_recv m w).2 s = sent w s;
  rcvmore_law m w s : sent (zmq_rcvmore m w).2 s = sent w s;
  instant_law w s : sent (instant w).2 s = sent w s }.

(** ** The publisher *)

Section publisher.
Context {W Sock R H T : Type} `{ZmqLaws W Sock, Bincode T, ZmqRegistry R W H}.
Abbreviation Pub := (ZeroMqSenderNode Sock R H).
Abbreviation St := (Pub * W * GraphState)%type.
Implicit Types (n : Pub) (w : W) (s : St).

Abbreviation connected n := (ZeroMqSenderNode.subscriber_connected n).
Abbreviation accepted n := (ZeroMqSenderNode.accepted_at n).
Abbreviation held n := (ZeroMqSenderNode.buffer n).
Abbreviation sock_of n := (ZeroMqSenderNode.socket n).

Context (sock : Sock).

(** Looking for a subscriber changes none of the messages. *)
Record quiet (s s' : St) : Prop := {
  q_socket : sock_of s'.1.1 = sock_of s.1.1;
  q_held : held s'.1.1 = held s.1.1;
  q_start : ZeroMqSenderNode.buffer_start s'.1.1 = ZeroMqSenderNode.buffer_start s.1.1;
  q_sent : sent s'.1.2 sock = sent s.1.2 sock;
  q_graph : s'.2 = s.2;
  q_connected : connected s.1.1 = true -> connected s'.1.1 = true;
  q_accepted : is_Some (accepted s.1.1) -> is_Some (accepted s'.1.1) }.

#[local] Instance quiet_preorder : PreOrder quiet.
Proof.
  split; [by intros s; split|]. intros s1 s2 s3 [] []. split; try congruence; auto.
Qed.

Lemma world_quiet {A} (f : W -> A * W) :
  (forall w, sent (f w).2 sock = sent w sock) -> respects quiet (world (S := Pub) f).
Proof.
  intros Hf [[n w] g] r s' E. unfold world in E. simpl in E. specialize (Hf w). destruct (f w) as [a w1].
  simplify_eq. by split.
Qed.

Lemma self_quiet : respects quiet (self_of (S := Pub) (W := W)).
Proof. intros s r s' [= <- <-]. reflexivity. Qed.

(** A step that only sets the two fields about the subscriber. *)
Lemma accepted_quiet now : respects quiet
  (mbind (self_of (S := Pub) (W := W)) (fun n => set_self (ZeroMqSenderNode.set_accepted (Some now) n))).
Proof. intros [[n w] g] r s' [= <- <-]. split; simpl; try done. Qed.

Lemma return_quiet {A} (a : A) : respects quiet (mreturn a).
Proof. apply respects_return, _. Qed.

Hint Resolve world_quiet self_quiet accepted_quiet return_quiet poll_law recv_law rcvmore_law instant_law : core.

Lemma stuck_quiet {A} : respects quiet (mstuck (A := A)).
Proof. apply respects_stuck, _. Qed.
Hint Resolve stuck_quiet : core.

Lemma drain_quiet fuel m : respects quiet (ZeroMqSenderNode.drain_frames fuel m).
Proof.
  induction fuel as [|fuel IH]; simpl; [done|]. apply respects_bind; [apply _|auto|].
  intros [e|[]]; try done. apply respects_bind; [apply _|auto|done].
Qed.
Hint Resolve drain_quiet : core.

Lemma monitor_quiet fuel m : respects quiet (ZeroMqSenderNode.monitor_loop fuel m).
Proof.
  assert (Hd : forall k, respects quiet (ZeroMqSenderNode.drain_frames k m)) by auto.
  revert Hd. induction fuel as [|fuel IH]; intros Hd; cbn [ZeroMqSenderNode.monitor_loop]; [done|].
  apply respects_bind; [apply _|auto|]. intros [e|[|[] [|]]]; try done.
  apply respects_bind; [apply _|auto|]. intros ev. apply respects_bind; [apply _| |auto].
  destruct ev as [e|f]; [done|]. apply respects_bind; [apply _|apply Hd|]. intros _.
  case_bool_decide; [|done]. apply respects_bind; [apply _|auto|]. intros now. apply accepted_quiet.
Qed.

Lemma check_quiet fuel : respects quiet (ZeroMqSenderNode.check_subscriber fuel).
Proof.
  unfold ZeroMqSenderNode.check_subscriber, ZeroMqSenderNode.check_monitor.
  apply respects_bind; [apply _|auto|]. intros n0. destruct (connected n0); [done|].
  apply respects_bind; [apply _| |].
  { apply respects_bind; [apply _|auto|]. intros n1. destruct (ZeroMqSenderNode.monitor n1); [apply monitor_quiet|done]. }
  intros _ [[n w] g] r s' E. unfold mbind in E. simpl in E.
  destruct (accepted n) as [at_|] eqn:Ha; [|by injection E as <- <-].
  unfold world in E. simpl in E. pose proof (instant_law w sock) as Hi. destruct (instant w) as [now w1].
  destruct (_ <=? _); injection E as <- <-; by split.
Qed.

Lemma flush_ok l s u s' : ZeroMqSenderNode.flush sock l s = (Ok u, s') ->
  s'.1.1 = s.1.1 /\ s'.2 = s.2 /\ sent s'.1.2 sock = sent s.1.2 sock ++ l.
Proof.
  induction l as [|f l IH] in s |- *; simpl.
  { intros [= _ <-]. by rewrite app_nil_r. }
  intros E. inv_bind E. unfold try_ in E0. inv_bind E0. unfold world in E1.
  pose proof (send_law sock f s.1.2) as Hs. destruct (zmq_send sock f s.1.2) as [r w1]. injection E1 as <- <-.
  destruct r as [e|]; [done|]. injection E0 as _ <-. apply IH in E as (Hn & Hg & Hw). simpl in *.
  by rewrite Hn, Hg, Hw, Hs, <-app_assoc.
Qed.

(** Before there is a subscriber nothing is sent; after, nothing is held back. *)
Definition pub_inv n w : Prop :=
  sock_of n = Some sock /\ if connected n then held n = [] else sent w sock = [].

(** The cycle [c] finds no subscriber: after it has looked for one, none has so much
    as been accepted, and the oldest message it holds is more than 500 ms old. *)
Definition stale fuel (c : GraphState * T) (nw : Pub * W) : Prop :=
  exists n1 w1 start,
    ZeroMqSenderNode.check_subscriber fuel ((nw.1, nw.2), c.1) = (Ok tt, ((n1, w1), c.1)) /\
    connected n1 = false /\ accepted n1 = None /\
    ZeroMqSenderNode.buffer_start n1 = Some start /\ BUFFER_TIMEOUT < since (instant w1).1 start.

(** A cycle discards what is held when that is stale, and nothing otherwise. *)
Lemma cycle_step fuel up n w g b n' w' g' :
  ZeroMqSenderNode.cycle fuel up ((n, w), g) = (Ok b, ((n', w'), g')) -> pub_inv n w ->
  exists f, bincode_serialize (Message.build up g) = inr f /\ pub_inv n' w' /\
    (is_Some (accepted n) -> is_Some (accepted n')) /\
    (stale fuel (g, up) (n, w) /\ accepted n = None /\ sent w' sock ++ held n' = [f] \/
     ~ stale fuel (g, up) (n, w) /\ sent w' sock ++ held n' = (sent w sock ++ held n) ++ [f]).
Proof.
  unfold ZeroMqSenderNode.cycle. intros E [Hsock Hinv]. inv_bind E. pose proof (check_quiet fuel _ _ _ E0) as Hq.
  destruct s as [[n1 w1] g1]. destruct Hq as [Q1 Q2 Q3 Q4 Q5 Q6 Q7]; simpl in *. subst g1. destruct a.
  assert (Hst : stale fuel (g, up) (n, w) <-> connected n1 = false /\ accepted n1 = None /\
    exists start, ZeroMqSenderNode.buffer_start n1 = Some start /\ BUFFER_TIMEOUT < since (instant w1).1 start).
  { unfold stale. simpl. rewrite E0. split; [|naive_solver].
    intros (n2 & w2 & start & [= <- <-] & ? & ? & ? & ?). by eauto. }
  unfold mbind at 1 in E. simpl in E.
  destruct (bincode_serialize (Message.build up g)) as [e|f]; [done|]. unfold mbind at 1 in E. simpl in E.
  rewrite Q1, Hsock in E. exists f. destruct (connected n1) eqn:Hc.
  - unfold mbind at 1 in E. simpl in E. inv_bind E. apply flush_ok in E1 as (Hn & Hg & Hw).
    destruct s as [[n2 w2] g2]. simpl in *. unfold mbind at 1 in E. simpl in E. inv_bind E. injection E as _ ->.
    unfold try_ in E1. inv_bind E1. unfold world in E. simpl in E. pose proof (send_law sock f w2) as Hs.
    destruct (zmq_send sock f w2) as [r w3]. injection E as <- <-. destruct r; [done|]. injection E1 as _ <- <- <-.
    simpl. rewrite Hs, Hw, Q4, Q2, app_nil_r. split_and!; [done| |done|].
    + split; simpl; [congruence|]. by rewrite Hc.
    + right. split; [by intros [? _]%Hst|done].
  - destruct (connected n) eqn:Hc0; [by specialize (Q6 eq_refl)|].
    unfold mbind at 1 in E. unfold world in E. simpl in E. pose proof (instant_law w1 sock) as Hi.
    destruct (instant w1) as [now w2]. unfold mbind at 1 in E. simpl in Hi, Hst.
    assert (Hinv' : forall n', sock_of n' = Some sock -> connected n' = false -> pub_inv n' w2).
    { intros n2 Hs2 Hc2. split; [done|]. by rewrite Hc2, Hi, Q4, Hinv. }
    destruct (bool_decide (accepted n1 = None) && _) eqn:Hd; simpl in E; injection E as _ <- <- <-; simpl;
      (split_and!; [done|apply Hinv'; simpl; congruence|done|]).
    + left. apply andb_true_iff in Hd as [Hd%bool_decide_eq_true Ht%Z.ltb_lt]. rewrite Hi, Q4, Hinv. split; [|split; [|done]].
      * apply Hst. split_and!; [done..|]. destruct (ZeroMqSenderNode.buffer_start n1) as [start|]; [by eexists|].
        exfalso. simpl in Ht. unfold since, BUFFER_TIMEOUT in Ht. lia.
      * destruct (accepted n) as [at_|]; [|done]. destruct Q7 as [x Hx]; [by eexists|]. congruence.
    + right. rewrite Hi, Q4, Hinv, Q2. split; [|done]. intros (_ & Ha & start & Hb & Ht)%Hst.
      rewrite Hb, (bool_decide_eq_true_2 _ Ha) in Hd. simpl in Hd. lia.
Qed.

(** No cycle of the run finds what it holds stale. *)
Abbreviation run fuel cs := (drive (ZeroMqSenderNode.cycle fuel) (fun _ => tt) cs).
Definition never_stale fuel (cs : list (GraphState * T)) (nw : Pub * W) : Prop :=
  forall cs1 c cs2 out nw', cs = cs1 ++ c :: cs2 -> run fuel cs1 nw = (Ok out, nw') -> ~ stale fuel c nw'.

Lemma never_stale_cons fuel c cs nw b nw1 g' :
  ZeroMqSenderNode.cycle fuel c.2 (nw, c.1) = (Ok b, (nw1, g')) ->
  ~ stale fuel c nw -> never_stale fuel cs nw1 -> never_stale fuel (c :: cs) nw.
Proof.
  intros Hc Hns Hall cs1 d cs2 out nw' Heq Hrun. destruct cs1 as [|c1 cs1]; simpl in Heq; injection Heq as <- ->.
  - by injection Hrun as _ <-.
  - cbn [drive] in Hrun. inv_bind Hrun. inv_bind Hrun. injection Hrun as _ ->.
    rewrite (emit_ok _ _ _ _ _ _ _ Hc) in E. injection E as _ <-. by eapply Hall.
Qed.

(** C28: A publisher never reorders or repeats, and leaves out only what is stale.
    After any cycles that succeed, either none of them has found its messages stale,
    and what the socket has sent followed by what the node still holds is what it
    had sent and held before followed by the messages of all the cycles; or some
    cycle was the last to find them so, and it is the messages from that cycle on,
    everything before having been discarded in it. A cycle finds them stale if,
    after it has looked for a subscriber, none has been accepted yet and the oldest
    message held is more than 500 ms old: a cycle that comes to see the accept
    discards nothing, nor does any after it. The node has its socket, and has sent
    nothing while it knew of no subscriber, which it keeps so. (What is still held
    when the node is stopped is lost, and a send that fails ends the run.) *)
Theorem zmq_pub_suffix fuel (cs : list (GraphState * T)) n w out n' w' :
  pub_inv n w -> run fuel cs (n, w) = (Ok out, (n', w')) ->
  exists frames, Forall2 (fun c f => bincode_serialize (Message.build c.2 c.1) = inr f) cs frames /\
    pub_inv n' w' /\ (is_Some (accepted n) -> never_stale fuel cs (n, w)) /\
    (never_stale fuel cs (n, w) /\ sent w' sock ++ held n' = (sent w sock ++ held n) ++ frames \/
     exists cs1 c cs2 out1 nw1 out2 nw2, cs = cs1 ++ c :: cs2 /\
       run fuel cs1 (n, w) = (Ok out1, nw1) /\ stale fuel c nw1 /\
       run fuel (cs1 ++ [c]) (n, w) = (Ok out2, nw2) /\ never_stale fuel cs2 nw2 /\
       sent w' sock ++ held n' = drop (length cs1) frames).
Proof.
  induction cs as [|[g up] cs IH] in n, w, out |- *; intros Hinv.
  { intros [= <- <- <-]. exists []. rewrite app_nil_r.
    assert (Hn : never_stale fuel [] (n, w)) by (intros cs1 c cs2 ? ? Heq; by destruct cs1).
    split_and!; [done..|]. by left. }
  cbn [drive]. intros E. inv_bind E. inv_bind E. injection E as _ ->. unfold emit in E0. simpl in E0.
  destruct (ZeroMqSenderNode.cycle fuel up (n, w, g)) as [r [[n1 w1] g1]] eqn:Hc. destruct s as [n2 w2].
  assert (Hok : exists b, r = Ok b) by (destruct r; [by eexists|done..]). destruct Hok as [b ->].
  assert (Heq : (n2, w2) = (n1, w1)) by (destruct b; congruence). injection Heq as -> ->. clear E0.
  destruct (cycle_step fuel up n w g b n1 w1 g1 Hc Hinv) as (f & Hf & Hinv1 & Hacc & Hstep).
  destruct (IH _ _ _ Hinv1 E1) as (frames & Hfs & Hinv2 & Hnever & Hrest).
  pose proof (fun Hns => never_stale_cons fuel (g, up) cs (n, w) b (n1, w1) g1 Hc Hns) as Hcons.
  exists (f :: frames). split; [by constructor|]. split; [done|]. split.
  { intros Ha. destruct Hstep as [(_ & Hx & _)|[Hns _]]; [rewrite Hx in Ha; by destruct Ha|]. by apply Hcons; auto. }
  destruct Hrest as [[Hns ->]|(cs1 & c & cs2 & o1 & nw1 & o2 & nw2 & -> & Hr1 & Hst & Hr2 & Hns & Hs)].
  - destruct Hstep as [(Hst & _ & ->)|[Hst ->]].
    + right. exists [], (g, up), cs. eexists _, (n, w), _, (n1, w1). split_and!; [done..| |done|done].
      simpl app. by erewrite drive_cons; [|exact Hc|reflexivity].
    + left. split; [by apply Hcons|]. by rewrite <-!app_assoc.
  - right. exists ((g, up) :: cs1), c, cs2. eexists _, nw1, _, nw2. split_and!; [done| |done| |done|exact Hs].
    + by erewrite drive_cons; [|exact Hc|exact Hr1].
    + simpl app. by erewrite drive_cons; [|exact Hc|exact Hr2].
Qed.
End publisher.

(** ** The subscriber *)

(** What has been received from a socket. *)
Class ZmqReceived (W Sock : Type) `{Zmq W Sock} := {
  taken : W -> Sock -> list frame;
  taken_recv s w : let '(r, w') := zmq_recv s w in
    taken w' s = match r with inr f => taken w s ++ [f] | inl _ => taken w s end;
  taken_other s s' w : s <> s' -> taken (zmq_recv s' w).2 s = taken w s;
  taken_poll l t w s : taken (zmq_poll l t w).2 s = taken w s;
  taken_rcvmore m w s : taken (zmq_rcvmore m w).2 s = taken w s;
  taken_stop w s : taken (stop_requested w).2 s = taken w s }.

Section subscriber.
Context {W Sock K X T : Type} `{ZmqReceived W Sock, Bincode T, Outbound K (ZmqEvent T), ReadyChannel X}.
Context (socket monitor : Sock) (Hdistinct : socket <> monitor).
Abbreviation St := (ChannelSender K X * W)%type.
Implicit Types s : St.

(** The value a frame brings, if it brings one. *)
Definition frame_value (f : frame) : option T :=
  match bincode_deserialize f with inr (Message.RealtimeValue v) => Some v | _ => None end.
Definition is_end (f : frame) : bool :=
  match bincode_deserialize (T := T) f with inr Message.EndOfStream => true | _ => false end.
Definition message_value (m : Message (ZmqEvent T)) : option T :=
  match m with Message.RealtimeValue e => event_data e | _ => None end.

(** From [s] to [s'] the frames [fs] were received and the messages [out] passed on. *)
Definition moved s s' (fs : list frame) (out : list (Message (ZmqEvent T))) : Prop :=
  taken s'.2 socket = taken s.2 socket ++ fs /\ put s'.1 = put s.1 ++ out.

Lemma moved_refl s : moved s s [] [].
Proof. split; by rewrite app_nil_r. Qed.

Lemma moved_trans s1 s2 s3 fs1 fs2 out1 out2 :
  moved s1 s2 fs1 out1 -> moved s2 s3 fs2 out2 -> moved s1 s3 (fs1 ++ fs2) (out1 ++ out2).
Proof. intros [F1 O1] [F2 O2]. split; by rewrite ?F2, ?O2, ?F1, ?O1, <-app_assoc. Qed.

Lemma world_moved {A} (f : W -> A * W) s a s' :
  (forall w, taken (f w).2 socket = taken w socket) ->
  on_world f s = (Ok a, s') -> moved s s' [] [].
Proof.
  intros Hf E. unfold on_world in E. specialize (Hf s.2). destruct (f s.2) as [x w].
  injection E as _ <-. split; simpl; by rewrite ?Hf, app_nil_r.
Qed.

Lemma ask_moved {A} (f : W -> (string + A) * W) s a s' :
  (forall w, taken (f w).2 socket = taken w socket) ->
  ask f s = (Ok a, s') -> moved s s' [] [].
Proof.
  intros Hf E. unfold ask in E. inv_bind E. destruct a0; [done|]. injection E as _ <-.
  by eapply world_moved.
Qed.

Lemma recv_moved s f s' : ask (zmq_recv socket) s = (Ok f, s') -> moved s s' [f] [].
Proof.
  unfold ask. intros E. inv_bind E. unfold on_world in E0.
  pose proof (taken_recv socket s.2) as Ht. destruct (zmq_recv socket s.2) as [r w]. injection E0 as <- <-.
  destruct r; [done|]. injection E as -> <-. split; simpl; [done|by rewrite app_nil_r].
Qed.

Lemma send_moved m s u s' : post m s = (Ok u, s') -> moved s s' [] [m].
Proof. intros [Hp Hw]%post_put. split; [by rewrite Hw, app_nil_r|exact Hp]. Qed.

Lemma drain_moved fuel s u s' : ZeroMqSubscriber.drain_frames fuel monitor s = (Ok u, s') -> moved s s' [] [].
Proof.
  induction fuel as [|fuel IH] in s |- *; simpl; [done|]. intros E. inv_bind E.
  apply ask_moved in E0; [|intros w; apply taken_rcvmore]. destruct a; [|by injection E as _ <-].
  inv_bind E. apply ask_moved in E1; [|intros w; by apply taken_other]. apply IH in E.
  apply (moved_trans _ _ _ [] [] [] [] E0), (moved_trans _ _ _ [] [] [] [] E1 E).
Qed.

(** A monitor's event passes on a status, or nothing. *)
Lemma event_moved id s u s' : ZeroMqSubscriber.on_event id s = (Ok u, s') ->
  exists out, moved s s' [] out /\ omap message_value out = [] /\ Message.EndOfStream ∉ out.
Proof.
  unfold ZeroMqSubscriber.on_event. case_bool_decide.
  - intros E%send_moved. eexists. split_and!; [exact E|done|by intros ?%list_elem_of_singleton].
  - case_bool_decide.
    + intros E%send_moved. eexists. split_and!; [exact E|done|by intros ?%list_elem_of_singleton].
    + intros [= _ <-]. exists []. split_and!; [apply moved_refl|done|apply not_elem_of_nil].
Qed.

(** A frame passes on its value, or ends the stream. *)
Lemma data_moved f s b s' : ZeroMqSubscriber.on_data f s = (Ok b, s') ->
  exists out, moved s s' [] out /\ omap message_value out = option_list (frame_value f) /\
    if is_end f then b = true /\ out = [Message.RealtimeValue (Status Disconnected); Message.EndOfStream]
    else Message.EndOfStream ∉ out.
Proof.
  unfold ZeroMqSubscriber.on_data, frame_value, is_end. destruct (bincode_deserialize f) as [e|m].
  - intros E. inv_bind E. apply send_moved in E0. injection E as _ <-.
    eexists. split_and!; [exact E0|done|by intros ?%list_elem_of_singleton].
  - destruct m; intros E.
    all: try (injection E as _ <-; exists []; split_and!; [apply moved_refl|done|apply not_elem_of_nil]).
    + inv_bind E. inv_bind E. apply send_moved in E0, E1. injection E as <- <-.
      pose proof (moved_trans _ _ _ _ _ _ _ E0 E1) as Hm. eexists. split_and!; [exact Hm|done|done|done].
    + inv_bind E. apply send_moved in E0. injection E as _ <-.
      eexists. split_and!; [exact E0|done|by intros ?%list_elem_of_singleton].
    + inv_bind E. apply send_moved in E0. injection E as _ <-.
      eexists. split_and!; [exact E0|done|by intros ?%list_elem_of_singleton].
Qed.

(** A subscriber's thread that returns has passed on the values of the frames it
    received, each once, in the order of their arrival, whatever events of the
    monitor came between; and it signals the end of the stream exactly when the
    last frame was one, as its last message, after the status. *)
Theorem zmq_sub_in_order fuel rounds s u s' :
  ZeroMqSubscriber.poll_loop fuel rounds socket monitor s = (Ok u, s') ->
  exists fs out, moved s s' fs out /\ omap message_value out = omap frame_value fs /\
    ((Message.EndOfStream ∉ out /\ Forall (fun f => is_end f = false) fs) \/
     exists fs0 f out0, fs = fs0 ++ [f] /\ Forall (fun f => is_end f = false) fs0 /\ is_end f = true /\
       Message.EndOfStream ∉ out0 /\ out = out0 ++ [Message.RealtimeValue (Status Disconnected); Message.EndOfStream]).
Proof.
  induction rounds as [|rounds IH] in s |- *; cbn [ZeroMqSubscriber.poll_loop]; [done|].
  intros E. inv_bind E. apply world_moved in E0; [|intros w; apply taken_stop].
  destruct a. { injection E as _ <-. exists [], []. split_and!; [done..|]. left. split; [apply not_elem_of_nil|constructor]. }
  inv_bind E. apply ask_moved in E1; [|intros w; apply taken_poll]. inv_bind E.
  assert (Hev : exists out, moved s1 s2 [] out /\ omap message_value out = [] /\ Message.EndOfStream ∉ out).
  { destruct (nth 1 a false).
    - inv_bind E2. apply ask_moved in E3; [|intros w; by apply taken_other]. inv_bind E2.
      apply drain_moved in E4. apply event_moved in E2 as (out & Hm & Hv & He). exists out. split_and!; [|done..].
      apply (moved_trans _ _ _ [] [] [] out E3), (moved_trans _ _ _ [] [] [] out E4 Hm).
    - injection E2 as _ <-. exists []. split_and!; [apply moved_refl|done|apply not_elem_of_nil]. }
  destruct Hev as (oe & Hme & Hve & Hee). inv_bind E.
  pose proof (moved_trans _ _ _ _ _ _ _ (moved_trans _ _ _ _ _ _ _ E0 E1) Hme) as H02. simpl in H02.
  destruct (nth 0 a false).
  - inv_bind E3. apply recv_moved in E4. apply data_moved in E3 as (od & Hmd & Hvd & Hed).
    pose proof (moved_trans _ _ _ _ _ _ _ (moved_trans _ _ _ _ _ _ _ H02 E4) Hmd) as H03. simpl in H03.
    rewrite app_nil_r in H03. destruct (is_end a2) eqn:Hend.
    + destruct Hed as [-> ->]. injection E as _ <-. exists [a2], (oe ++ [Message.RealtimeValue (Status Disconnected); Message.EndOfStream]).
      split_and!; [done|by rewrite omap_app, Hve|]. right. exists [], a2, oe. by split_and!.
    + destruct a1.
      * injection E as _ <-. exists [a2], (oe ++ od). split_and!; [done|by rewrite omap_app, Hve, Hvd|]. left.
        split; [by apply not_elem_of_app|by constructor].
      * destruct (IH _ E) as (fs & out & Hm & Hv & Hend2). exists ([a2] ++ fs), ((oe ++ od) ++ out).
        split_and!; [by eapply moved_trans|rewrite !omap_app, Hve, Hvd, Hv; simpl; by destruct (frame_value a2)|].
        destruct Hend2 as [[He Hf]|(fs0 & f & out0 & -> & Hf & Hf2 & He & ->)].
        -- left. split; [by rewrite !not_elem_of_app|by constructor].
        -- right. exists ([a2] ++ fs0), f, ((oe ++ od) ++ out0). split_and!; [by rewrite app_assoc|by constructor|done| |by rewrite app_assoc].
           by rewrite !not_elem_of_app.
  - injection E3 as <- <-. destruct (IH _ E) as (fs & out & Hm & Hv & Hend2). exists fs, (oe ++ out).
    split_and!; [by apply (moved_trans _ _ _ [] fs oe out H02)|by rewrite omap_app, Hve, Hv|].
    destruct Hend2 as [[He Hf]|(fs0 & f & out0 & -> & Hf & Hf2 & He & ->)].
    + left. split; [by rewrite not_elem_of_app|done].
    + right. exists fs0, f, (oe ++ out0). split_and!; [done..| |by rewrite app_assoc]. by rewrite not_elem_of_app.
Qed.
End subscriber.

(** ** Stopping *)

(** Stopping a publisher that no subscriber has joined for long enough sends the end
    of the stream alone: what it holds is lost. *)
Lemma zmq_stop_drops_buffer {W Sock R H T} `{ZmqLaws W Sock, Bincode T, ZmqRegistry R W H}
    (n : ZeroMqSenderNode Sock R H) (w : W) g sock u n' w' g' :
  ZeroMqSenderNode.socket n = Some sock -> ZeroMqSenderNode.registry_handle n = None ->
  ZeroMqSenderNode.stop ((n, w), g) = (Ok u, ((n', w'), g')) ->
  exists f, bincode_serialize (T := T) Message.EndOfStream = inr f /\ sent w' sock = sent w sock ++ [f] /\
    ZeroMqSenderNode.buffer n' = ZeroMqSenderNode.buffer n.
Proof.
  intros Hs Hr. unfold ZeroMqSenderNode.stop. intros E. unfold mbind at 1 in E. simpl in E. rewrite Hr in E.
  unfold mbind at 1 in E. simpl in E. unfold mbind at 1 in E. simpl in E. rewrite Hs in E.
  destruct (bincode_serialize Message.EndOfStream) as [e|f]; [done|]. exists f. unfold try_ in E. inv_bind E.
  unfold world in E0. simpl in E0. pose proof (send_law sock f w) as Hw. destruct (zmq_send sock f w) as [r w1].
  injection E0 as <- <-. destruct r; [done|]. by injection E as _ <- <- <-.
Qed.

(** ** A scripted library *)

(** Sockets are numbers; what is readable, what comes in, what the clock says and
    when to stop are lists of answers. *)
Record Script := mkScript {
  z_sent : list (nat * frame); z_taken : list (nat * frame); z_in : list (nat * frame);
  z_ready : list (list bool); z_times : list Z; z_stops : list bool }.

Definition on (s : nat) (l : list (nat * frame)) : list frame := map snd (List.filter (fun x => (x.1 =? s)%nat) l).

(** The first frame that came in at a socket. *)
Fixpoint take_in (s : nat) (l : list (nat * frame)) : option (frame * list (nat * frame)) :=
  match l with
  | [] => None
  | x :: l =>
    if (x.1 =? s)%nat then Some (x.2, l)
    else match take_in s l with Some (f, l') => Some (f, x :: l') | None => None end
  end.

#[export] Instance script_zmq : Zmq Script nat := {
  new_socket t w := (inr (match t with PAIR => 1%nat | _ => 0%nat end), w);
  zmq_monitor _ _ _ w := (None, w);
  zmq_connect _ _ w := (None, w);
  zmq_bind _ _ w := (None, w);
  zmq_subscribe _ _ w := (None, w);
  zmq_poll _ _ w :=
    (inr (hd [] (z_ready w)), mkScript (z_sent w) (z_taken w) (z_in w) (tl (z_ready w)) (z_times w) (z_stops w));
  zmq_recv s w :=
    match take_in s (z_in w) with
    | Some (f, l) => (inr f, mkScript (z_sent w) (z_taken w ++ [(s, f)]) l (z_ready w) (z_times w) (z_stops w))
    | None => (inl "nothing there", w)
    end;
  zmq_rcvmore _ w := (inr false, w);
  zmq_send s f w := (None, mkScript (z_sent w ++ [(s, f)]) (z_taken w) (z_in w) (z_ready w) (z_times w) (z_stops w));
  monitor_id w := (0, w);
  instant w := (hd 0 (z_times w), mkScript (z_sent w) (z_taken w) (z_in w) (z_ready w) (tl (z_times w)) (z_stops w));
  stop_requested w := (hd true (z_stops w), mkScript (z_sent w) (z_taken w) (z_in w) (z_ready w) (z_times w) (tl (z_stops w))) }.

Lemma on_app s a b : on s (a ++ b) = on s a ++ on s b.
Proof. unfold on. by rewrite List.filter_app, map_app. Qed.
Lemma on_one s x f : on s [(x, f)] = if (x =? s)%nat then [f] else [].
Proof. unfold on. simpl. by destruct (x =? s)%nat. Qed.

#[export] Program Instance script_laws : ZmqLaws Script nat := { sent w s := on s (z_sent w) }.
Next Obligation. intros s f w. simpl. by rewrite on_app, on_one, Nat.eqb_refl. Qed.
Next Obligation. done. Qed.
Next Obligation. intros m w s. simpl. by destruct (take_in m (z_in w)) as [[f l]|]. Qed.
Next Obligation. done. Qed.
Next Obligation. done. Qed.

#[export] Program Instance script_received : ZmqReceived Script nat := { taken w s := on s (z_taken w) }.
Next Obligation.
  intros s w. simpl. destruct (take_in s (z_in w)) as [[f l]|]; simpl; [|done]. by rewrite on_app, on_one, Nat.eqb_refl.
Qed.
Next Obligation.
  intros s s' w Hne. simpl. destruct (take_in s' (z_in w)) as [[f l]|]; simpl; [|done].
  rewrite on_app, on_one. replace (s' =? s)%nat with false by (symmetry; apply Nat.eqb_neq; congruence). by rewrite app_nil_r.
Qed.
Next Obligation. done. Qed.
Next Obligation. done. Qed.
Next Obligation. done. Qed.

#[export] Instance char_bincode : Bincode ascii := {
  bincode_serialize m :=
    match m with
    | Message.RealtimeValue c => inr ["d"%char; c]
    | Message.EndOfStream => inr ["e"%char]
    | _ => inl (Msg "not sent")
    end;
  bincode_deserialize f :=
    match f with
    | ["d"%char; c] => inr (Message.RealtimeValue c)
    | ["e"%char] => inr Message.EndOfStream
    | _ => inl (Msg "not a message")
    end }.

#[export] Instance no_registry : ZmqRegistry unit Script unit := {
  register _ _ _ w := (inr tt, w);
  lookup_name _ _ w := (inl (Msg "no registry"), w);
  revoke _ w := w }.

Definition ready_pub : ZeroMqSenderNode nat unit unit :=
  ZeroMqSenderNode.set_socket 0%nat (ZeroMqSenderNode.set_monitor 1%nat
    (ZeroMqSenderNode.zmq_pub (H := unit) 1%positive 5556 None)).

(** Four values; a subscriber is accepted in the third cycle, 700 ms after the first,
    and has had its 50 ms in the fourth. *)
Definition pub_world : Script :=
  mkScript [] [] [(1%nat, ["008"%char; "000"%char])] [[]; []; [true]; []; []]
    [0; 600000000; 700000000; 700000000; 700000000; 760000000] [].
Definition pub_calls : list (GraphState * ascii) :=
  map (fun c => (GraphState.new RealTime Forever 0, c)) ["a"; "b"; "c"; "d"]%char.

Definition pub_end : ZeroMqSenderNode nat unit unit * Script :=
  (drive (ZeroMqSenderNode.cycle 5) (fun _ => tt) pub_calls (ready_pub, pub_world)).2.

Lemma zmq_pub_suffix_witness :
  sent pub_end.2 0%nat = [["d"; "b"]; ["d"; "c"]; ["d"; "d"]]%char /\
  exists frames, length frames = 4%nat /\
    sent pub_end.2 0%nat ++ ZeroMqSenderNode.buffer pub_end.1 = drop 1 frames.
Proof.
  split; [by vm_compute|].
  assert (Hinv : pub_inv 0%nat ready_pub pub_world) by (by split).
  assert (Hrun : drive (ZeroMqSenderNode.cycle 5) (fun _ => tt) pub_calls (ready_pub, pub_world) =
    (Ok (map (fun _ => (0, tt)) pub_calls), (pub_end.1, pub_end.2))) by (by vm_compute).
  destruct (zmq_pub_suffix (R := unit) (H := unit) 0%nat 5 pub_calls ready_pub pub_world _ _ _ Hinv Hrun)
    as (frames & Hf & _ & _ & Hs).
  apply Forall2_length in Hf. exists frames. split; [done|].
  assert (Hlen : length (sent pub_end.2 0%nat ++ ZeroMqSenderNode.buffer pub_end.1) = 3%nat) by (vm_compute; reflexivity).
  destruct Hs as [[_ Hs]|(cs1 & c & cs2 & o1 & nw1 & o2 & nw2 & _ & _ & _ & _ & _ & Hs)].
  - apply (f_equal length) in Hs. rewrite Hlen, length_app, <-Hf in Hs. vm_compute in Hs. discriminate Hs.
  - rewrite Hs in Hlen |- *. rewrite length_drop, <-Hf in Hlen. f_equal. simpl in Hlen. lia.
Defined.

(** A value published once the subscriber is accepted, and the end of the run before
    it has had its 50 ms: it is never sent. *)
Example value_lost_at_stop :
  let w := mkScript [] [] [(1%nat, ["008"%char; "000"%char])] [[true]; []] [0; 0; 0] [] in
  let '(r, (n, w)) := drive (ZeroMqSenderNode.cycle 5) (fun _ => tt) [(GraphState.new RealTime Forever 0, "a"%char)] (ready_pub, w) in
  is_ok r = true /\ is_Some (ZeroMqSenderNode.accepted_at n) /\
  let '(r, ((n, w), _)) := ZeroMqSenderNode.stop ((n, w), GraphState.new RealTime Forever 0) in
  r = Ok tt /\ sent w 0%nat = [["e"%char]].
Proof. vm_compute. split_and!; try done. by eexists. Qed.

(** A value of ten seconds ago, sent to a subscriber that connected just now: the age
    of the buffer is looked at in a cycle, and only before a subscriber is seen. *)
Example stale_value_sent :
  let w := mkScript [] [] [(1%nat, ["008"; "000"]%char)] [[]; [true]; []; []]
    [0; 10000000000; 10000000000; 10000000000; 10060000000] [] in
  let cs := map (fun c => (GraphState.new RealTime Forever 0, c)) ["a"; "b"; "c"]%char in
  sent (drive (ZeroMqSenderNode.cycle 5) (fun _ => tt) cs (ready_pub, w)).2.2 0%nat =
    [["d"; "a"]; ["d"; "b"]; ["d"; "c"]]%char.
Proof. vm_compute. reflexivity. Qed.

(** A value, the accept of a connection, a second value, the end. *)
Definition sub_world : Script :=
  mkScript [] [] [(0%nat, ["d"; "x"]); (1%nat, ["001"; "000"]); (0%nat, ["d"; "y"]); (0%nat, ["e"])]%char
    [[true; false]; [true; true]; [true; false]] [] [false; false; false; true].
Definition sub_end : Res unit * (ChannelSender (list (Message (ZmqEvent ascii))) (list nat) * Script) :=
  ZeroMqSubscriber.poll_loop 5 10 0%nat 1%nat (ChannelSender.new [] None, sub_world).

Lemma zmq_sub_in_order_witness :
  put sub_end.2.1 = [Message.RealtimeValue (Data "x"%char); Message.RealtimeValue (Status Connected);
    Message.RealtimeValue (Data "y"%char); Message.RealtimeValue (Status Disconnected); Message.EndOfStream] /\
  exists fs out, taken sub_end.2.2 0%nat = fs /\ put sub_end.2.1 = out /\ omap message_value out = omap frame_value fs.
Proof.
  split; [by vm_compute|].
  assert (Hrun : ZeroMqSubscriber.poll_loop 5 10 0%nat 1%nat (ChannelSender.new (X := list nat) [] None, sub_world) =
    (Ok tt, sub_end.2)) by (by vm_compute).
  destruct (zmq_sub_in_order 0%nat 1%nat ltac:(done) 5 10 _ _ _ Hrun) as (fs & out & [Ht Ho] & Hv & _).
  exists fs, out. split_and!; [exact Ht|exact Ho|exact Hv].
Defined.
