(* ===== verification/Postgres.v ===== *)
(** * The PostgreSQL adapter: [wingfoil/src/adapters/postgres/]

    The time-sliced reader, the live tail, the writer, and the texts they are made
    of: quoted names, the trigger's SQL, the masked connection string. The client
    library is the classes [PgClient], [PgTail] and [PgWriter] on a world [W]; the
    program's row type is [PostgresDeserialize] and [PostgresSerialize]. As with
    kdb+ an async stream is the list of its items. *)
From stdpp Require Import pretty.
From S2P Require Import Prelude NanoTime GraphState TimeSlices Cache GraphNodes AsyncNodes Kdb.
From Stdlib Require Import Strings.Ascii.
Local Open Scope Z_scope.

(** ** Dates: [time.rs] *)

(** [NaiveDateTime]: seconds since the epoch and nanoseconds of the second. *)
Record NaiveDateTime := mkNaive { nd_secs : Z; nd_nanos : Z }.

Definition from_naive (d : NaiveDateTime) : Res Z :=
  let t := nd_secs d * 1000000000 + nd_nanos d in
  if (- 2 ^ 63 <=? t) && (t <=? i64_max) then Ok (wrap_u64 t) else Panic "NanoTime supports years 1677..=2262".

Definition to_naive (t : Z) : NaiveDateTime := mkNaive (t / 1000000000) (t mod 1000000000).

(** ** Names and connections: [mod.rs] *)

Definition DQUOTE : ascii := "034"%char.
Definition SQUOTE : ascii := "'"%char.

(** [replace] of a character by two of it. *)
Definition doubled (q : ascii) (s : bytes) : bytes :=
  concat (map (fun c => if bool_decide (c = q) then [q; q] else [c]) s).

(** [split] at a character. *)
Fixpoint split_on (c : ascii) (s : bytes) : list bytes :=
  match s with
  | [] => [[]]
  | x :: s =>
    if bool_decide (x = c) then [] :: split_on c s
    else match split_on c s with p :: ps => (x :: p) :: ps | [] => [[x]] end
  end.

Definition quote_ident (ident : bytes) : bytes := DQUOTE :: doubled DQUOTE ident ++ [DQUOTE].
Definition quote_table (table : bytes) : bytes := join (lit ".") (map quote_ident (split_on "."%char table)).

(** [char::is_whitespace] of an ASCII character, and [split_whitespace]: [word] is what
    was read of the current word. *)
Definition is_whitespace (c : ascii) : bool :=
  let n := N_of_ascii c in ((9 <=? n) && (n <=? 13) || (n =? 32))%N.
Fixpoint words_from (word s : bytes) : list bytes :=
  match s with
  | [] => match word with [] => [] | _ => [word] end
  | c :: s =>
    if is_whitespace c then match word with [] => words_from [] s | _ => word :: words_from [] s end
    else words_from (word ++ [c]) s
  end.
Definition split_whitespace (s : bytes) : list bytes := words_from [] s.

Definition eq_ignore_ascii_case (a b : bytes) : bool :=
  bool_decide (map to_ascii_lowercase a = map to_ascii_lowercase b).

Record PostgresConnection := mkPg { conn_str : bytes }.

(** The closure of [redacted]. *)
Definition mask (kv : bytes) : bytes :=
  match split_at "="%char kv with
  | Some (k, _) => if eq_ignore_ascii_case k (lit "password") then lit "password=***" else kv
  | None => kv
  end.
Definition redacted (self : PostgresConnection) : bytes :=
  join (lit " ") (map mask (split_whitespace (conn_str self))).

(** ** The environment *)

(** An error of the library is its text. *)
Class PgClient (S R W : Type) := {
  pg_connect : bytes -> W -> (string + S) * W;
  pg_query : S -> bytes -> W -> (string + list R) * W }.

(** A column of a row as a [timestamp], and as a [timestamptz] in UTC. *)
Inductive Column := Idx (i : nat) | Named (name : string).
Class PgRow (R : Type) := {
  try_timestamp : R -> Column -> option NaiveDateTime;
  try_timestamptz : R -> Column -> string + NaiveDateTime }.

Class PostgresDeserialize (R T : Type) := from_row : R -> Error + (Z * T).

(** ** The reader: [read.rs] *)

Definition column_text (c : Column) : string :=
  match c with Idx i => pretty i | Named name => "`" +:+ name +:+ "`" end.

(** [get_nanotime] and [get_nanotime_named]. *)
Definition get_nanotime {R} `{PgRow R} (row : R) (c : Column) : Res Z :=
  match try_timestamp row c with
  | Some dt => from_naive dt
  | None =>
    match try_timestamptz row c with
    | inr dt => from_naive dt
    | inl e => Err (Context ("column " +:+ column_text c +:+ " is not a `timestamp`/`timestamptz`") (Msg e))
    end
  end.

(** The text chrono gives a date in the format of the literal. *)
Definition postgres_timestamp (format : NaiveDateTime -> bytes) (time : Z) : bytes := format (to_naive time).

Definition pg_unsorted (time prev : Z) : Error :=
  Msg ("postgres data is not sorted by time: got " +:+ z_text time +:+ " after " +:+ z_text prev +:+
       ". Add `ORDER BY time` to your query.").

Section read.
Context {S R T W : Type} `{!PgClient S R W, !PostgresDeserialize R T}.

(** The rows of one slice: what is yielded, whether the stream broke off, and the
    time of the last row. *)
Fixpoint pg_rows (l : list R) (prev_time : option Z) (filter : WindowFilter) : list (Item T) * bool * option Z :=
  match l with
  | [] => ([], false, prev_time)
  | row :: l =>
    match from_row row with
    | inl e => ([inl e], true, prev_time)
    | inr (time, record) =>
      let '(keep, filter) := TimeSlices.keep filter time in
      if negb keep then pg_rows l prev_time filter
      else if goes_back prev_time time then ([inl (pg_unsorted time (default 0 prev_time))], true, prev_time)
      else
        let '(items, broke, prev_time) := pg_rows l (Some time) filter in
        (inr (time, record) :: items, broke, prev_time)
    end
  end.

Fixpoint pg_stream (queries : list (bytes * TimeWindow)) (client : S) (prev_time : option Z) (w : W) : list (Item T) * W :=
  match queries with
  | [] => ([], w)
  | (query, window) :: queries =>
    match pg_query client query w with
    | (inl e, w) => ([inl (Context "postgres query failed" (Msg e))], w)
    | (inr rows, w) =>
      let '(items, broke, prev_time) := pg_rows rows prev_time (WindowFilter_new "postgres_read" window) in
      if broke : bool then (items, w)
      else let '(more, w) := pg_stream queries client prev_time w in (items ++ more, w)
    end
  end.

Context {Q : Type} (query_fn : Z * Z -> Z -> Z -> Q -> bytes * Q).

Definition pg_connect_to (what : string) (connection : PostgresConnection) : M W S :=
  let! r := io (pg_connect (conn_str connection)) in
  match r with
  | inr client => mreturn client
  | inl e => mfail (Context (what +:+ ": failed to connect: " +:+ text (redacted connection)) (Msg e))
  end.

Definition postgres_read (fuel : nat) (connection : PostgresConnection) (period : Duration) (q : Q) (ctx : RunParams)
  : M W (list (Item T)) :=
  let start_time := rp_start ctx in
  let! slices := mlift (compute_validated_time_slices fuel "postgres_read" start_time (end_time ctx) period) in
  match end_time ctx with
  | Ok end_time =>
    let! client := pg_connect_to "postgres_read" connection in
    io (pg_stream (slice_queries query_fn start_time end_time q slices) client None)
  | _ => mpanic "compute_validated_time_slices accepted a bounded end_time"
  end.
End read.

(** ** The live tail: [sub.rs] *)

(** The further calls of the tail on its connection, and on the queue of wake-ups:
    [next], where [false] is a closed queue, and [try_recv]. *)
Class PgTail (S W : Type) := {
  pg_batch_execute : S -> bytes -> W -> option string * W;
  rx_next : S -> W -> bool * W;
  rx_try_recv : S -> W -> bool * W }.

(** The task that drives the connection: [send] puts a wake-up into the queue, and
    fails when the subscriber is gone. *)
Inductive AsyncMessage := Notification | OtherMessage.
Fixpoint forward {K} (send : K -> bool * K) (messages : list (string + AsyncMessage)) (k : K) : K :=
  match messages with
  | [] => k
  | inr Notification :: messages => let '(ok, k) := send k in if ok : bool then forward send messages k else k
  | inr OtherMessage :: messages => forward send messages k
  | inl _ :: _ => k
  end.

Definition pg_notify_body (channel : bytes) : bytes :=
  NEWLINE :: lit "BEGIN" ++ NEWLINE :: lit "  PERFORM pg_notify('" ++ doubled SQUOTE channel ++ lit "', '');" ++
  NEWLINE :: lit "  RETURN NULL;" ++ NEWLINE :: lit "END ".

Definition postgres_notify_trigger_sql (table channel : bytes) : bytes :=
  let table_sql := quote_table table in
  let fn_ident := quote_ident (channel ++ lit "_notify_fn") in
  let trg_ident := quote_ident (channel ++ lit "_notify_trg") in
  lit "CREATE OR REPLACE FUNCTION " ++ fn_ident ++ lit "() RETURNS trigger LANGUAGE plpgsql AS $$" ++
  pg_notify_body channel ++ lit "$$;" ++
  NEWLINE :: lit "DROP TRIGGER IF EXISTS " ++ trg_ident ++ lit " ON " ++ table_sql ++ lit ";" ++
  NEWLINE :: lit "CREATE TRIGGER " ++ trg_ident ++ lit " AFTER INSERT ON " ++ table_sql ++
  NEWLINE :: lit "FOR EACH STATEMENT EXECUTE FUNCTION " ++ fn_ident ++ lit "();".

Section sub.
Context {S R T W : Type} `{!PgClient S R W, !PgTail S W, !PostgresDeserialize R T}.

(** The rows of one query: the items, whether the stream ends, the cursor. *)
Fixpoint tail_rows (l : list R) (cursor : Z) : list (Item T) * bool * Z :=
  match l with
  | [] => ([], false, cursor)
  | row :: l =>
    match from_row row with
    | inl e => ([inl e], true, cursor)
    | inr (time, record) =>
      let '(items, ended, cursor) := tail_rows l (if cursor <? time then time else cursor) in
      (inr (time, record) :: items, ended, cursor)
    end
  end.

(** [while rx.try_recv().is_ok() {}]. *)
Fixpoint coalesce (fuel : nat) (client : S) : M W unit :=
  match fuel with
  | O => mstuck
  | Datatypes.S fuel => let! more := io (rx_try_recv client) in if more : bool then coalesce fuel client else mreturn tt
  end.

Context {Q : Type} (query_fn : Z -> Q -> bytes * Q).

(** The [loop], for [n] rounds. *)
Fixpoint tail_stream (fuel n : nat) (client : S) (q : Q) (cursor : Z) : M W (list (Item T)) :=
  match n with
  | O => mreturn []
  | Datatypes.S n =>
    let '(query, q) := query_fn cursor q in
    let! r := io (pg_query client query) in
    match r with
    | inl e => mreturn [inl (Context "postgres_sub query failed" (Msg e))]
    | inr rows =>
      let '(items, ended, cursor) := tail_rows rows cursor in
      if ended : bool then mreturn items
      else
        let! woken := io (rx_next client) in
        if woken : bool then
          do! coalesce fuel client in
          let! more := tail_stream fuel n client q cursor in
          mreturn (items ++ more)
        else mreturn (items ++ [inl (Msg "postgres_sub: connection to postgres closed")])
    end
  end.

Definition postgres_sub (fuel n : nat) (connection : PostgresConnection) (channel : bytes) (start_from : Z) (q : Q)
    (ctx : RunParams) : M W (list (Item T)) :=
  match rp_mode ctx with
  | HistoricalFrom _ => mfail (Msg "postgres_sub requires RunMode::RealTime; use postgres_read for historical replay")
  | RealTime =>
    let! client := pg_connect_to "postgres_sub" connection in
    let! r := io (pg_batch_execute client (lit "LISTEN " ++ quote_ident channel)) in
    match r with
    | Some e => mfail (Context ("postgres_sub: LISTEN on channel `" +:+ text channel +:+ "` failed") (Msg e))
    | None => tail_stream fuel n client q start_from
    end
  end.
End sub.

(** ** The writer: [write.rs] *)

(** A prepared statement [St] and the values [V] it takes. [pg_execute_all] is
    [try_join_all] of the executions of one burst. *)
Class PgWriter (S St V W : Type) := {
  pg_prepare : S -> bytes -> W -> (string + St) * W;
  pg_execute_all : S -> St -> list (list V) -> W -> option string * W;
  timestamp_value : NaiveDateTime -> V }.

Class PostgresSerialize (T V : Type) := to_params : T -> list V.

Definition placeholders (n : nat) : bytes := join (lit ", ") (map (fun i => "$"%char :: lit (pretty i)) (seq 1 n)).
Definition insert_sql (table_sql : bytes) (n : nat) : bytes :=
  lit "INSERT INTO " ++ table_sql ++ lit " VALUES (" ++ placeholders n ++ lit ")".

Section write.
Context {S R T St V W : Type} `{!PgClient S R W, !PgWriter S St V W, !PostgresSerialize T V}.

Definition prepared_statement (client : S) (table_sql : bytes) (n : nat) (prepared : option St) : M W St :=
  match prepared with
  | Some s => mreturn s
  | None =>
    let sql := insert_sql table_sql n in
    let! r := io (pg_prepare client sql) in
    match r with
    | inr s => mreturn s
    | inl e => mfail (Context ("postgres_write: failed to prepare `" +:+ text sql +:+ "`") (Msg e))
    end
  end.

Fixpoint pg_write_loop (client : S) (table_name table_sql : bytes) (source : list (Z * list T)) (prepared : option St)
  : M W unit :=
  match source with
  | [] => mreturn tt
  | (_, []) :: source => pg_write_loop client table_name table_sql source prepared
  | (time, (record :: _) as batch) :: source =>
    let ts := timestamp_value (to_naive time) in
    let rows := map to_params batch in
    let n := (length (to_params record) + 1)%nat in
    let! stmt := prepared_statement client table_sql n prepared in
    let! r := io (pg_execute_all client stmt (map (cons ts) rows)) in
    match r with
    | Some e => mfail (Context ("postgres_write: insert into `" +:+ text table_name +:+ "` failed") (Msg e))
    | None => pg_write_loop client table_name table_sql source (Some stmt)
    end
  end.

Definition postgres_write_consumer (connection : PostgresConnection) (table_name : bytes) (source : list (Z * list T))
  : M W unit :=
  let! client := pg_connect_to (R := R) "postgres_write" connection in
  pg_write_loop client table_name (quote_table table_name) source None.
End write.
