(* ===== verification/PostgresProps.v ===== *)
(** * What the PostgreSQL adapter promises

    [quote_table_reads_back]: a quoted name is read back as the parts of the name.
    [redacted_hides]: a masked connection string shows no password token.
    [postgres_read_exact]: reading slice by slice is reading the window once.
    [postgres_sub_exact]: a live tail emits each row once, as long as rows are
    inserted at increasing times. [write_inserts_all]: a run inserts every record. *)
From stdpp Require Import pretty.
From S2P Require Import Prelude NanoTime GraphState TimeSlices Cache CacheProps GraphNodes AsyncNodes Kdb KdbProps Postgres.
From Stdlib Require Import Strings.Ascii.
Local Open Scope Z_scope.

(** ** Dates *)

Lemma naive_roundtrip t : is_u64 t ->
  from_naive (to_naive t) = if t <=? i64_max then Ok t else Panic "NanoTime supports years 1677..=2262".
Proof.
  unfold from_naive, to_naive, is_u64, u64_max, i64_max, wrap_u64. simpl. intros Ht.
  pose proof (Z.div_mod t 1000000000). replace (t / 1000000000 * 1000000000 + t mod 1000000000) with t by lia.
  replace (_ <=? t) with true by lia. simpl. destruct (_ <=? _); [|done]. by rewrite Z.mod_small by lia.
Qed.

(** A date before 1970 is read as one after 2262. *)
Example before_the_epoch : from_naive (mkNaive (-1) 0) = Ok (2 ^ 64 - 1000000000).
Proof. reflexivity. Qed.

(** ** Quoted names *)

(** How the server reads what is between quotes: two quotes are one. *)
Fixpoint read_until (q : ascii) (s : bytes) : option (bytes * bytes) :=
  match s with
  | [] => None
  | c :: s =>
    if bool_decide (c = q) then
      match s with
      | d :: s' =>
        if bool_decide (d = q) then match read_until q s' with Some (t, r) => Some (q :: t, r) | None => None end
        else Some ([], s)
      | [] => Some ([], [])
      end
    else match read_until q s with Some (t, r) => Some (c :: t, r) | None => None end
  end.

(** A name: quoted identifiers with dots between them. *)
Fixpoint read_name (fuel : nat) (s : bytes) : option (list bytes * bytes) :=
  match fuel, s with
  | S fuel, c :: s =>
    if bool_decide (c = DQUOTE) then
      match read_until DQUOTE s with
      | Some (part, d :: rest) =>
        if bool_decide (d = "."%char) then
          match read_name fuel rest with Some (parts, rest) => Some (part :: parts, rest) | None => None end
        else Some ([part], d :: rest)
      | Some (part, []) => Some ([part], [])
      | None => None
      end
    else None
  | _, _ => None
  end.

Lemma read_doubled q s rest : head rest <> Some q -> read_until q (doubled q s ++ q :: rest) = Some (s, rest).
Proof.
  intros Hr. unfold doubled. induction s as [|c s IH]; simpl.
  - rewrite bool_decide_true by done. destruct rest as [|d rest]; [done|]. rewrite bool_decide_false; [done|]. simpl in Hr. congruence.
  - case_bool_decide as Hc; simpl.
    + subst c. rewrite !bool_decide_true by done. by rewrite IH.
    + rewrite bool_decide_false by done. by rewrite IH.
Qed.

Lemma split_on_cons c s : exists p ps, split_on c s = p :: ps.
Proof. destruct s as [|x s]; simpl; [eauto|]. case_bool_decide; [eauto|]. destruct (split_on c s); eauto. Qed.

Lemma split_on_join c s : join [c] (split_on c s) = s.
Proof.
  induction s as [|x s IH]; [done|]. destruct (split_on_cons c s) as (p & ps & E). simpl. rewrite E in *.
  case_bool_decide as Hc; [subst x|]; [by rewrite <-IH|]. rewrite <-IH. by destruct ps.
Qed.

Lemma split_on_free c s : Forall (fun p => c ∉ p) (split_on c s).
Proof.
  induction s as [|x s IH]; [repeat constructor; set_solver|]. destruct (split_on_cons c s) as (p & ps & E). simpl. rewrite E in *.
  case_bool_decide as Hc; constructor; [set_solver|done| |by inversion IH]. apply Forall_inv in IH. set_solver.
Qed.

Lemma split_on_length c s : (length (split_on c s) <= S (length s))%nat.
Proof.
  induction s as [|x s IH]; [done|]. destruct (split_on_cons c s) as (p & ps & E). simpl. rewrite E in *.
  case_bool_decide; simpl in *; lia.
Qed.

Lemma read_quoted_parts parts rest fuel :
  parts <> [] -> (length parts <= fuel)%nat -> head rest <> Some DQUOTE -> head rest <> Some "."%char ->
  read_name fuel (join (lit ".") (map quote_ident parts) ++ rest) = Some (parts, rest).
Proof.
  intros Hne Hf Hq Hd. induction parts as [|p parts IH] in fuel, Hne, Hf |- *; [done|].
  destruct fuel as [|fuel]; [simpl in Hf; lia|]. destruct parts as [|p2 parts].
  - cbn [map join]. unfold quote_ident. cbn [app read_name]. rewrite bool_decide_true by done.
    rewrite <-app_assoc. cbn [app]. rewrite read_doubled by done.
    destruct rest as [|d rest]; [done|]. rewrite bool_decide_false; [done|]. simpl in Hd. congruence.
  - replace (join (lit ".") (map quote_ident (p :: p2 :: parts)) ++ rest) with
      (DQUOTE :: doubled DQUOTE p ++ DQUOTE :: "."%char :: (join (lit ".") (map quote_ident (p2 :: parts)) ++ rest))
      by (change (join (lit ".") (map quote_ident (p :: p2 :: parts)))
            with (quote_ident p ++ "."%char :: join (lit ".") (map quote_ident (p2 :: parts)));
          unfold quote_ident at 2; cbn [app]; rewrite <-!app_assoc; reflexivity).
    cbn [read_name]. rewrite bool_decide_true by done. rewrite read_doubled by done.
    rewrite bool_decide_true by done.
    rewrite IH; [done|done|simpl in *; lia].
Qed.

(** The name of a table is safe to splice into SQL: wherever it is put, the
    server reads the quoted name as the parts of the name between its dots, each
    with its characters as they are, quotes included, and goes on with what follows;
    nothing in a name ends the quotes. *)
Theorem quote_table_reads_back table rest :
  head rest <> Some DQUOTE -> head rest <> Some "."%char ->
  exists parts, read_name (S (length table)) (quote_table table ++ rest) = Some (parts, rest) /\
    join (lit ".") parts = table /\ Forall (fun p => "."%char ∉ p) parts.
Proof.
  intros Hq Hd. exists (split_on "."%char table). split_and!; [|apply split_on_join|apply split_on_free].
  apply read_quoted_parts; [|apply split_on_length|done..].
  destruct (split_on_cons "."%char table) as (p & ps & ->). done.
Qed.

Lemma quote_table_reads_back_witness :
  let table := lit "public.My T" ++ [DQUOTE; "."%char] in
  read_name 14 (quote_table table ++ lit " VALUES ($1)") =
    Some ([lit "public"; lit "My T" ++ [DQUOTE]; []], lit " VALUES ($1)") /\
  exists parts, read_name 14 (quote_table table ++ lit " VALUES ($1)") = Some (parts, lit " VALUES ($1)") /\
    join (lit ".") parts = table.
Proof.
  split; [by vm_compute|].
  destruct (quote_table_reads_back (lit "public.My T" ++ [DQUOTE; "."%char]) (lit " VALUES ($1)"))
    as (parts & Hread & Hjoin & _); [done..|].
  exists parts. split; [exact Hread|exact Hjoin].
Defined.

(** ** The trigger *)

(** How the server reads the body of a function: to the next two dollars. *)
Fixpoint read_dollars (s : bytes) : option (bytes * bytes) :=
  match s with
  | [] => None
  | c :: s =>
    match s with
    | d :: s' =>
      if bool_decide (c = "$"%char) && bool_decide (d = "$"%char) then Some ([], s')
      else match read_dollars s with Some (t, r) => Some (c :: t, r) | None => None end
    | [] => None
    end
  end.

Lemma read_dollars_eq c d s :
  read_dollars (c :: d :: s) =
  if bool_decide (c = "$"%char) && bool_decide (d = "$"%char) then Some ([], s)
  else match read_dollars (d :: s) with Some (t, r) => Some (c :: t, r) | None => None end.
Proof. reflexivity. Qed.

Definition no_dollars (s : bytes) : Prop := read_dollars s = None.

Lemma no_dollars_cons c s : no_dollars (c :: s) -> no_dollars s /\ (c = "$"%char -> head s <> Some "$"%char).
Proof.
  unfold no_dollars. destruct s as [|d s]; [done|]. rewrite read_dollars_eq. destruct (_ && _) eqn:E; [done|].
  destruct (read_dollars (d :: s)) as [[]|]; [done|]. intros _. split; [done|]. intros -> [= ->]. done.
Qed.

(** A text that holds no two dollars next to each other, before one that does not
    begin with a dollar. *)
Lemma read_dollars_app a c s : no_dollars a -> c <> "$"%char ->
  read_dollars (a ++ c :: s) = match read_dollars (c :: s) with Some (t, r) => Some (a ++ t, r) | None => None end.
Proof.
  intros Ha Hc. induction a as [|x a IH]; [by destruct (read_dollars _) as [[]|]|].
  apply no_dollars_cons in Ha as [Ha Hx]. specialize (IH Ha). cbn [app].
  assert (E : read_dollars (x :: a ++ c :: s) =
    match read_dollars (a ++ c :: s) with Some (t, r) => Some (x :: t, r) | None => None end).
  { destruct a as [|y a]; cbn [app]; rewrite read_dollars_eq.
    - by rewrite (bool_decide_false (c = _)), andb_false_r by done.
    - destruct (decide (x = "$"%char)) as [->|]; [|by rewrite bool_decide_false].
      rewrite (bool_decide_false (y = _)), andb_false_r; [done|]. intros ->. by apply Hx. }
  rewrite E, IH. by destruct (read_dollars (c :: s)) as [[]|].
Qed.

Lemma no_dollars_step c s : no_dollars s -> (c = "$"%char -> head s <> Some "$"%char) -> no_dollars (c :: s).
Proof.
  unfold no_dollars. intros Hs Hc. destruct s as [|d s]; [done|]. rewrite read_dollars_eq, Hs.
  destruct (decide (c = "$"%char)) as [->|]; [|by rewrite bool_decide_false].
  rewrite (bool_decide_false (d = _)), andb_false_r; [done|]. intros ->. by apply Hc.
Qed.

Lemma head_doubled s : head (doubled SQUOTE s) = head s.
Proof. destruct s as [|x s]; [done|]. unfold doubled. simpl. by case_bool_decide; subst. Qed.

Lemma no_dollars_doubled s : no_dollars s -> no_dollars (doubled SQUOTE s).
Proof.
  induction s as [|c s IH]; [done|]. intros H. apply no_dollars_cons in H as [H Hc]. specialize (IH H).
  change (doubled SQUOTE (c :: s)) with ((if bool_decide (c = SQUOTE) then [SQUOTE; SQUOTE] else [c]) ++ doubled SQUOTE s).
  case_bool_decide; cbn [app]; [by repeat apply no_dollars_step|]. apply no_dollars_step; [done|].
  intros ->. rewrite head_doubled. by apply Hc.
Qed.

(** The function's body is read back whole, and the literal in it is the channel,
    for a channel without two dollars next to each other. *)
Theorem trigger_reads_back channel rest : no_dollars channel ->
  read_dollars (pg_notify_body channel ++ lit "$$;" ++ rest) = Some (pg_notify_body channel, ";"%char :: rest) /\
  exists a b, pg_notify_body channel = a ++ SQUOTE :: b /\ SQUOTE ∉ a /\
    read_until SQUOTE b = Some (channel, lit ", '');" ++ NEWLINE :: lit "  RETURN NULL;" ++ NEWLINE :: lit "END ").
Proof.
  intros Hc. set (pre := NEWLINE :: lit "BEGIN" ++ NEWLINE :: lit "  PERFORM pg_notify(").
  set (post := lit ", '');" ++ NEWLINE :: lit "  RETURN NULL;" ++ NEWLINE :: lit "END ").
  assert (E : pg_notify_body channel = pre ++ SQUOTE :: doubled SQUOTE channel ++ SQUOTE :: post).
  { unfold pg_notify_body, pre, post. cbn. by rewrite <-?app_assoc. }
  rewrite E. split.
  - rewrite <-app_assoc. cbn [app]. rewrite read_dollars_app by done.
    assert (Hq : forall u, read_dollars (SQUOTE :: u) = match read_dollars u with Some (t, r) => Some (SQUOTE :: t, r) | None => None end).
    { intros [|d u]; done. }
    rewrite Hq, <-app_assoc. cbn [app]. rewrite read_dollars_app by (done || by apply no_dollars_doubled). done.
  - exists pre, (doubled SQUOTE channel ++ SQUOTE :: post). split_and!; [done|by apply (bool_decide_unpack _)|].
    by apply read_doubled.
Qed.

(** Two dollars in the channel end the body: what is left is read as SQL. *)
Example dollars_end_the_body :
  read_dollars (pg_notify_body (lit "$$; DROP TABLE t; --") ++ lit "$$;") =
    Some (lit "
BEGIN
  PERFORM pg_notify('", lit "; DROP TABLE t; --', '');
  RETURN NULL;
END $$;").
Proof. reflexivity. Qed.

(** ** The masked connection string *)

Definition is_word (w : bytes) : Prop := w <> [] /\ Forall (fun c => is_whitespace c = false) w.

Lemma words_from_app w t s : Forall (fun c => is_whitespace c = false) t -> words_from w (t ++ s) = words_from (w ++ t) s.
Proof.
  intros Ht. induction Ht as [|c t Hc _ IH] in w |- *; simpl; [by rewrite app_nil_r|]. rewrite Hc, IH. by rewrite <-app_assoc.
Qed.

Lemma words_join l : Forall is_word l -> split_whitespace (join (lit " ") l) = l.
Proof.
  unfold split_whitespace. induction 1 as [|w l [Hne Hw] Hl IH]; [done|]. destruct l as [|w2 l].
  - cbn [join]. rewrite <-(app_nil_r w) at 1; rewrite words_from_app by done. by destruct w.
  - change (join (lit " ") (w :: w2 :: l)) with (w ++ " "%char :: join (lit " ") (w2 :: l)).
    rewrite words_from_app by done. cbn [app words_from]. change (is_whitespace " ") with true. cbv iota.
    destruct w as [|a w]; [done|]. cbn [app]. f_equal. exact IH.
Qed.

Lemma words_are_words w s : Forall (fun c => is_whitespace c = false) w -> Forall is_word (words_from w s).
Proof.
  induction s as [|c s IH] in w |- *; intros Hw; simpl.
  - destruct w; constructor; [by split|constructor].
  - destruct (is_whitespace c) eqn:Hc; [|apply IH, Forall_app; by repeat constructor].
    destruct w; [by apply IH|]. constructor; [by split|by apply IH].
Qed.

(** What a token shows: nothing, when its key is that of the password. *)
Definition hides (kv : bytes) : Prop :=
  forall k v, split_at "="%char kv = Some (k, v) -> eq_ignore_ascii_case k (lit "password") = true -> v = lit "***".

Lemma mask_word kv : is_word kv -> is_word (mask kv) /\ hides (mask kv).
Proof.
  intros Hw. unfold mask, hides. destruct (split_at "="%char kv) as [[k v]|] eqn:E; [|split; [done|]; intros; congruence].
  destruct (eq_ignore_ascii_case k _) eqn:Ek; [|split; [done|]; intros; congruence]. split.
  - split; [done|]. by apply (bool_decide_unpack _).
  - intros k' v' [= <- <-] _. done.
Qed.

(** A masked connection string is made of the tokens of the original, each [mask]ed:
    no token with the key [password] shows its value, the others are as they were. *)
Theorem redacted_hides c :
  split_whitespace (redacted c) = map mask (split_whitespace (conn_str c)) /\
  Forall hides (split_whitespace (redacted c)).
Proof.
  assert (Hw : Forall is_word (split_whitespace (conn_str c))) by (by apply words_are_words).
  assert (Hm : Forall is_word (map mask (split_whitespace (conn_str c)))).
  { apply Forall_map. eapply Forall_impl; [exact Hw|]. intros kv Hkv. by apply mask_word. }
  unfold redacted. rewrite words_join by exact Hm. split; [done|].
  apply Forall_map. eapply Forall_impl; [exact Hw|]. intros kv Hkv. by apply mask_word.
Qed.

(** Two ways to write a password that the library accepts and that are shown: with
    spaces around the sign, and in quotes with a space. *)
Example spaced_password_shown : redacted (mkPg (lit "host=x password = s3cr3t")) = lit "host=x password = s3cr3t".
Proof. reflexivity. Qed.
Example quoted_password_shown : redacted (mkPg (lit "host=x password='my s3cr3t'")) = lit "host=x password=*** s3cr3t'".
Proof. reflexivity. Qed.

(** ** The reader *)

Section reader.
Context {S R T W : Type} `{!PgClient S R W, !PostgresDeserialize R T}.
Context (admissible : bytes -> Prop) (answer : bytes -> list (Z * T)) (served : S -> W -> Prop).

(** The client's connection is to a server that answers each query in play with rows
    the program's type can be read from, and stays up. *)
Record pg_serves : Prop := {
  pg_serves_one client q w : admissible q -> served client w ->
    exists rs w', pg_query client q w = (inr rs, w') /\ served client w' /\
      Forall2 (fun row r => from_row row = inr r) rs (answer q) }.
Context (Hserves : pg_serves).

Definition no_later (prev : option Z) (l : list (Z * T)) : Prop :=
  forall p, prev = Some p -> Forall (fun r => p <= r.1) l.

Lemma pg_rows_spec rs l prev filter more :
  Forall2 (fun row r => from_row row = inr r) rs l ->
  StronglySorted earlier (kept_rows (window filter) l ++ more) -> no_later prev (kept_rows (window filter) l ++ more) ->
  exists prev', pg_rows rs prev filter = (items (window filter) l, false, prev') /\ no_later prev' more.
Proof.
  intros Hp. induction Hp as [|row r rs l Hrow _ IH] in prev, filter |- *; intros Hs Hprev; [by eexists|].
  cbn [pg_rows]. rewrite Hrow. destruct r as [t v].
  unfold items. rewrite kept_cons in *. cbn [fst] in *. unfold keep.
  destruct (contains (window filter) t) eqn:Hc; cbn [negb].
  - assert (Hb : goes_back prev t = false).
    { destruct prev as [p|]; [|done]. specialize (Hprev p eq_refl). apply Forall_inv in Hprev. simpl in *. lia. }
    rewrite Hb. cbn [app] in Hs. apply StronglySorted_inv in Hs as [Hs Hle].
    destruct (IH (Some t) filter Hs) as (prev' & -> & Hp'); [|by eexists].
    intros p [= <-]. exact Hle.
  - by apply (IH prev (mkFilter _ _ _)).
Qed.

Lemma pg_stream_spec queries client prev w :
  served client w -> Forall (fun qw => admissible qw.1) queries ->
  StronglySorted earlier (concat (map (fun qw => kept_rows qw.2 (answer qw.1)) queries)) ->
  no_later prev (concat (map (fun qw => kept_rows qw.2 (answer qw.1)) queries)) ->
  exists w', pg_stream queries client prev w = (concat (map (fun qw => items qw.2 (answer qw.1)) queries), w').
Proof.
  intros Hs Hq. induction Hq as [|[q win] queries Hadm _ IH] in prev, w, Hs |- *; intros Hsort Hprev; [by eexists|].
  cbn [pg_stream]. simpl in Hadm. cbn [map concat fst snd] in Hsort, Hprev.
  destruct (pg_serves_one Hserves client q w Hadm Hs) as (rs & w1 & -> & Hs1 & Hp).
  destruct (pg_rows_spec rs (answer q) prev (WindowFilter_new "postgres_read" win) _ Hp Hsort Hprev) as (prev' & -> & Hp').
  assert (Hrest : StronglySorted earlier (concat (map (fun qw => kept_rows qw.2 (answer qw.1)) queries))).
  { clear -Hsort. induction (kept_rows win (answer q)); [done|]. apply StronglySorted_inv in Hsort as [? _]. auto. }
  destruct (IH prev' w1 Hs1 Hrest Hp') as [w2 ->]. by eexists.
Qed.

Context {Q : Type} (query_fn : Z * Z -> Z -> Z -> Q -> bytes * Q).

Lemma items_kept (queries : list (bytes * TimeWindow)) :
  concat (map (fun qw => items qw.2 (answer qw.1)) queries) =
  map inr (concat (map (fun qw => kept_rows qw.2 (answer qw.1)) queries)).
Proof. induction queries as [|qw queries IH]; [done|]. cbn [map concat]. by rewrite map_app, IH. Qed.

(** Reading a table slice by slice is reading it once, with the order checked
    across the slices: when every query holds the rows of its slice, the stream is
    exactly the rows of the run's window, in order, without an error; rows that a
    query returns from before the start or from after the end are dropped and do
    not disturb the check. *)
Theorem postgres_read_exact fuel connection period ctx finish table slices q client w w0 :
  bounded_run fuel period ctx finish slices -> StronglySorted earlier table ->
  right_queries admissible answer query_fn table slices ->
  pg_connect (conn_str connection) w = (inr client, w0) -> served client w0 ->
  exists w', postgres_read query_fn fuel connection period q ctx w =
    (Ok (map inr (between (rp_start ctx) finish table)), w').
Proof.
  intros Hrun Htab Hright Hconn Hs.
  destruct (window_items admissible answer query_fn fuel period ctx finish table slices q Hrun Htab Hright) as [Hitems Hall].
  assert (Hkept : concat (map (fun qw => kept_rows qw.2 (answer qw.1))
    (slice_queries query_fn (rp_start ctx) finish q slices)) = between (rp_start ctx) finish table).
  { rewrite items_kept in Hitems. by apply (inj (map inr)) in Hitems. }
  unfold postgres_read. erewrite validated_slices by exact Hrun. rewrite (br_end _ _ _ _ _ Hrun).
  unfold mbind, mlift, pg_connect_to, io. unfold mbind. rewrite Hconn.
  destruct (pg_stream_spec (slice_queries query_fn (rp_start ctx) finish q slices) client None w0 Hs) as [w' E].
  - eapply Forall_impl; [exact Hall|]. by intros qw [? _].
  - rewrite Hkept. by apply kept_sorted.
  - done.
  - exists w'. simpl. rewrite E. by rewrite Hitems.
Qed.
End reader.

(** ** The live tail *)

Section rows_after.
Context {T : Type}.
Implicit Types (l seen : list (Z * T)).

Definition later (cursor : Z) l : list (Z * T) := List.filter (fun r => cursor <? r.1) l.

(** Rows are only added, and at later times than all that are there. *)
Definition grows l l' : Prop := exists new, l' = l ++ new /\ forall a b, a ∈ l -> b ∈ new -> a.1 < b.1.

#[export] Instance grows_preorder : PreOrder grows.
Proof.
  split.
  - intros l. exists []. rewrite app_nil_r. split; [done|]. intros ?? _ []%not_elem_of_nil.
  - intros l1 l2 l3 (n1 & -> & H1) (n2 & -> & H2). exists (n1 ++ n2). rewrite app_assoc. split; [done|].
    intros a b Ha [Hb|Hb]%elem_of_app; [by apply H1|]. apply H2; [|done]. apply elem_of_app. by left.
Qed.

(** The cursor has caught up with the rows [seen] of a tail from [start] on. *)
Record caught_up (start cursor : Z) seen : Prop := {
  cu_start : start <= cursor;
  cu_seen r : r ∈ seen -> r.1 <= cursor;
  cu_tight : cursor = start \/ exists r, r ∈ seen /\ r.1 = cursor }.

Lemma caught_up_nil start : caught_up start start [].
Proof. split; [lia|by intros r []%not_elem_of_nil|by left]. Qed.

Lemma elem_of_later cursor l r : r ∈ later cursor l <-> r ∈ l /\ cursor < r.1.
Proof. unfold later. by rewrite list_elem_of_In, filter_In, <-list_elem_of_In, Z.ltb_lt. Qed.

Lemma later_nil cursor l : (forall r, r ∈ l -> r.1 <= cursor) -> later cursor l = [].
Proof.
  intros H. destruct (later cursor l) as [|r l'] eqn:E; [done|].
  assert (Hr : r ∈ later cursor l) by (rewrite E; by left). apply elem_of_later in Hr as [Hr ?]. apply H in Hr. lia.
Qed.

Lemma later_app cursor l1 l2 : later cursor (l1 ++ l2) = later cursor l1 ++ later cursor l2.
Proof. apply List.filter_app. Qed.

Lemma later_ext c1 c2 l : (forall r, r ∈ l -> (c1 < r.1 <-> c2 < r.1)) -> later c1 l = later c2 l.
Proof.
  intros H. apply filter_ext_in. intros r Hr%list_elem_of_In. apply H in Hr. lia.
Qed.

(** What comes after the cursor is what is new after the start. *)
Lemma later_grows start cursor seen l :
  caught_up start cursor seen -> grows seen l -> later start l = later start seen ++ later cursor l.
Proof.
  intros [Hs Hc Ht] (new & -> & Hn). rewrite !later_app, (later_nil cursor seen) by done. simpl. f_equal.
  apply later_ext. intros r Hr. split; [|lia]. intros Hlt.
  destruct Ht as [->|(x & Hx & <-)]; [done|by apply Hn].
Qed.

Lemma max_spec c (l : list (Z * T)) : let m := foldl Z.max c (map fst l) in
  c <= m /\ (forall r, r ∈ l -> r.1 <= m) /\ (m = c \/ exists r, r ∈ l /\ r.1 = m).
Proof.
  induction l as [|x l IH] in c |- *; simpl; [split_and!; [lia|by intros r []%not_elem_of_nil|by left]|].
  destruct (IH (Z.max c x.1)) as (H1 & H2 & H3). split_and!; [lia| |].
  - intros r [->|Hr]%elem_of_cons; [lia|by apply H2].
  - destruct H3 as [->|(r & Hr & He)]; [|right; exists r; split; [by right|done]].
    destruct (Z.max_spec c x.1) as [[_ ->]|[_ ->]]; [right; exists x; split; [by left|done]|by left].
Qed.

Lemma catch_up start cursor seen l : caught_up start cursor seen -> grows seen l ->
  caught_up start (foldl Z.max cursor (map fst (later cursor l))) l.
Proof.
  intros [Hs Hc Ht] (new & -> & Hn). destruct (max_spec cursor (later cursor (seen ++ new))) as (H1 & H2 & H3).
  set (m := foldl _ _ _) in *. split; [lia| |].
  - intros r Hr. destruct (Z.lt_ge_cases cursor r.1); [|lia]. apply H2, elem_of_later. done.
  - destruct H3 as [E|(r & Hr & E)].
    + rewrite E. destruct Ht as [->|(x & Hx & E')]; [by left|right]. exists x. split; [apply elem_of_app; by left|done].
    + right. exists r. apply elem_of_later in Hr as [Hr _]. done.
Qed.
End rows_after.

Section tail.
Context {S R T W : Type} `{!PgClient S R W, !PgTail S W, !PostgresDeserialize R T}.
Context {Q : Type} (query_fn : Z -> Q -> bytes * Q) (holds : W -> list (Z * T)) (client : S) (fuel : nat).

(** [holds w] are the rows of the table. A query answers those past the cursor; rows
    are inserted between any two calls, at increasing times; the connection stays up;
    [fuel] is enough for the wake-ups that queue up. *)
Record tails : Prop := {
  t_query q cursor w : exists rs w', pg_query client (query_fn cursor q).1 w = (inr rs, w') /\
    Forall2 (fun row r => from_row row = inr r) rs (later cursor (holds w)) /\ grows (holds w) (holds w');
  t_next w : exists w', rx_next client w = (true, w') /\ grows (holds w) (holds w');
  t_coalesce w : exists w', coalesce fuel client w = (Ok tt, w') /\ grows (holds w) (holds w') }.
Context (Htails : tails).

Lemma tail_rows_spec rs (l : list (Z * T)) cursor :
  Forall2 (fun row r => from_row row = inr r) rs l ->
  tail_rows rs cursor = (map inr l, false, foldl Z.max cursor (map fst l)).
Proof.
  intros H. induction H as [|row [t v] rs l Hrow _ IH] in cursor |- *; [done|]. cbn [tail_rows map foldl fst]. rewrite Hrow.
  replace (if cursor <? t then t else cursor) with (Z.max cursor t) by (destruct (Z.ltb_spec cursor t); lia).
  by rewrite IH.
Qed.

(** One round. *)
Lemma tail_round q cursor w : exists cursor' w',
  (forall start seen, caught_up start cursor seen -> grows seen (holds w) -> caught_up start cursor' (holds w)) /\
  grows (holds w) (holds w') /\ forall n,
  tail_stream query_fn fuel (Datatypes.S n) client q cursor w =
  (let! more := tail_stream query_fn fuel n client (query_fn cursor q).2 cursor' in
   mreturn (map inr (later cursor (holds w)) ++ more)) w'.
Proof.
  destruct (t_query Htails q cursor w) as (rs & w1 & Hq & Hrs & Hg1).
  destruct (t_next Htails w1) as (w2 & Hn & Hg2). destruct (t_coalesce Htails w2) as (w3 & Hc & Hg3).
  exists (foldl Z.max cursor (map fst (later cursor (holds w)))), w3. split_and!.
  - intros start seen. by apply catch_up.
  - by transitivity (holds w1); [|transitivity (holds w2)].
  - intros n. cbn [tail_stream]. destruct (query_fn cursor q) as [query q'] eqn:E. simpl in Hq. unfold mbind at 1, io at 1. rewrite Hq.
    rewrite (tail_rows_spec rs (later cursor (holds w)) cursor Hrs). cbv iota beta.
    unfold mbind at 1, io. rewrite Hn. unfold mbind at 1. rewrite Hc. done.
Qed.

(** After [n] rounds, and one more. *)
Lemma tail_rounds n q start cursor seen w : caught_up start cursor seen -> grows seen (holds w) ->
  exists seen1 w1 seen2 w2 out1 out2,
    tail_stream query_fn fuel n client q cursor w = (Ok (map inr out1), w1) /\
    tail_stream query_fn fuel (Datatypes.S n) client q cursor w = (Ok (map inr out2), w2) /\
    later start seen ++ out1 = later start seen1 /\ later start seen ++ out2 = later start seen2 /\
    grows seen1 (holds w1) /\ grows (holds w1) seen2.
Proof.
  induction n as [|n IH] in q, cursor, seen, w |- *; intros Hc Hg.
  - destruct (tail_round q cursor w) as (c1 & w1 & _ & Hg1 & E). exists seen, w, (holds w), w1, [], (later cursor (holds w)).
    split_and!; [done| |by rewrite app_nil_r|symmetry; by apply later_grows|done|reflexivity].
    rewrite E. unfold mbind. simpl. by rewrite app_nil_r.
  - destruct (tail_round q cursor w) as (c1 & w1 & Hc1 & Hg1 & E).
    destruct (IH (query_fn cursor q).2 c1 (holds w) w1 (Hc1 _ _ Hc Hg) Hg1)
      as (seen1 & w2 & seen2 & w3 & out1 & out2 & E1 & E2 & H1 & H2 & G1 & G2).
    exists seen1, w2, seen2, w3, (later cursor (holds w) ++ out1), (later cursor (holds w) ++ out2).
    rewrite !E. unfold mbind. rewrite E1, E2, !map_app, !app_assoc, <-(later_grows start cursor seen) by done. done.
Qed.

(** C25: A live tail neither loses nor repeats a row. Let rows be inserted at
    increasing times, while queries and waits are under way, and let each query
    answer the rows past its cursor. Then after any number of rounds the stream has
    emitted the rows later than its start that the table held at the last query,
    each once and in order; and what the table holds when the wake-up of a round has
    been handled is emitted in the next. (In real time, with a connection and its
    [LISTEN] that succeed, and no query that fails.) *)
Theorem postgres_sub_exact n connection channel start q ctx w w0 w1 :
  rp_mode ctx = RealTime -> pg_connect (conn_str connection) w = (inr client, w0) ->
  pg_batch_execute client (lit "LISTEN " ++ quote_ident channel) w0 = (None, w1) ->
  exists seen1 w2 seen2 w3,
    postgres_sub query_fn fuel n connection channel start q ctx w = (Ok (map inr (later start seen1)), w2) /\
    postgres_sub query_fn fuel (Datatypes.S n) connection channel start q ctx w = (Ok (map inr (later start seen2)), w3) /\
    grows seen1 (holds w2) /\ grows (holds w2) seen2.
Proof.
  intros Hm Hc Hl.
  destruct (tail_rounds n q start start [] w1 (caught_up_nil start)) as (seen1 & w2 & seen2 & w3 & out1 & out2 & E1 & E2 & H1 & H2 & G);
    [by exists (holds w1); split; [|intros ?? []%not_elem_of_nil]|].
  simpl in H1, H2. subst out1 out2. exists seen1, w2, seen2, w3. unfold postgres_sub. rewrite Hm.
  unfold mbind, pg_connect_to, io. unfold mbind. rewrite Hc. unfold mreturn at 1 2. cbv beta iota. rewrite Hl. done.
Qed.
End tail.

(** ** The writer *)

Section writer.
Context {S R T St V W : Type} `{!PgClient S R W, !PgWriter S St V W, !PostgresSerialize T V}.

(** The rows that have been inserted: those of each burst whose executions succeed. *)
Context (inserted : W -> list (list V)).
Record writes : Prop := {
  w_prepare client sql w : inserted (pg_prepare client sql w).2 = inserted w;
  w_connect c w : inserted (pg_connect (R := R) (S := S) c w).2 = inserted w;
  w_execute client stmt rows w w' : pg_execute_all client stmt rows w = (None, w') -> inserted w' = inserted w ++ rows }.
Context (Hwrites : writes).

Definition row_of (time : Z) (record : T) : list V := timestamp_value (to_naive time) :: to_params record.

Lemma prepared_inserted client table_sql n prepared w stmt w' :
  prepared_statement client table_sql n prepared w = (Ok stmt, w') -> inserted w' = inserted w.
Proof.
  unfold prepared_statement. destruct prepared; [by intros [= _ <-]|]. intros E. inv_bind E.
  unfold io in E0. pose proof (w_prepare Hwrites client (insert_sql table_sql n) w) as Hp.
  destruct (pg_prepare _ _ _) as [r w1]. injection E0 as <- <-. destruct r; [done|]. by injection E as _ <-.
Qed.

(** A run of the writer that ends well has inserted every record of every burst, in
    order, each under the time of its burst. *)
Theorem write_inserts_all connection table_name (source : list (Z * list T)) w u w' :
  postgres_write_consumer (R := R) connection table_name source w = (Ok u, w') ->
  inserted w' = inserted w ++ concat (map (fun burst => map (row_of burst.1) burst.2) source).
Proof.
  unfold postgres_write_consumer, pg_connect_to. intros E. inv_bind E. inv_bind E0. unfold io in E1.
  pose proof (w_connect Hwrites (conn_str connection) w) as Hc. destruct (pg_connect _ w) as [r w1].
  injection E1 as <- <-. destruct r as [|c]; [done|]. injection E0 as <- <-. simpl in Hc. rewrite <-Hc. clear Hc.
  generalize (@None St), (quote_table table_name), E. clear E. intros prepared table_sql.
  induction source as [|[time [|r batch]] source IH] in prepared, w1 |- *; cbn [pg_write_loop map concat fst snd].
  - intros [= _ <-]. by rewrite app_nil_r.
  - apply IH.
  - intros E. inv_bind E. apply prepared_inserted in E0 as <-. inv_bind E. unfold io in E0.
    destruct (pg_execute_all _ _ _ _) as [res w2] eqn:Ex. injection E0 as <- <-. destruct res; [done|].
    apply (w_execute Hwrites) in Ex. apply IH in E. rewrite E, Ex, <-app_assoc. do 2 f_equal.
    rewrite map_map. done.
Qed.
End writer.

(** ** A small server *)

Module Server.
(** A table of rows of a time and a number, and the numbers that will be inserted,
    one in each wait, each a nanosecond after the last row. *)
Record Table := mkTable { rows : list (Z * Z); coming : list Z }.

Definition next_time (l : list (Z * Z)) : Z := foldl Z.max 0 (map fst l) + 1.
Definition insert_next (w : Table) : Table :=
  match coming w with
  | [] => w
  | v :: coming => mkTable (rows w ++ [(next_time (rows w), v)]) coming
  end.

(** A query is the cursor, its sign and then as many characters. *)
Definition tail_query (cursor : Z) (q : unit) : bytes * unit :=
  ((if cursor <? 0 then "-"%char else "+"%char) :: repeat "x"%char (Z.abs_nat cursor), q).
Definition cursor_of (query : bytes) : Z :=
  match query with
  | c :: l => if bool_decide (c = "-"%char) then - Z.of_nat (length l) else Z.of_nat (length l)
  | [] => 0
  end.

Lemma cursor_of_query cursor : cursor_of (tail_query cursor tt).1 = cursor.
Proof. unfold tail_query, cursor_of. destruct (Z.ltb_spec cursor 0); simpl; rewrite repeat_length; lia. Qed.

#[export] Instance table_row : PostgresDeserialize (Z * Z) Z := fun row => inr row.
#[export] Instance table_client : PgClient bool (Z * Z) Table := {
  pg_connect _ w := (inr true, w);
  pg_query _ query w := (inr (later (cursor_of query) (rows w)), w) }.
#[export] Instance table_tail : PgTail bool Table := {
  pg_batch_execute _ _ w := (None, w);
  rx_next _ w := (true, insert_next w);
  rx_try_recv _ w := (false, w) }.

(** A server that answers every query with all it has. *)
#[export] Instance book_client : PgClient unit (Z * Z) unit := {
  pg_connect _ w := (inr tt, w);
  pg_query _ query w := (inr (Small.answer query), w) }.

Lemma table_tails : tails tail_query rows true 1.
Proof.
  split.
  - intros [] cursor w. exists (later cursor (rows w)), w. split_and!; [|by apply Forall_Forall2_diag, Forall_true|done].
    unfold pg_query, table_client. by rewrite cursor_of_query.
  - intros w. exists (insert_next w). split; [done|]. unfold insert_next. destruct (coming w); [done|].
    simpl. exists [(next_time (rows w), z)]. split; [done|]. intros a b Ha ->%list_elem_of_singleton.
    unfold next_time. simpl. destruct (max_spec 0 (rows w)) as (_ & Hmax & _). specialize (Hmax a Ha). lia.
  - intros w. by exists w.
Qed.

Definition tail (n : nat) : Res (list (Item Z)) * Table :=
  postgres_sub tail_query 1 n (mkPg []) (lit "feed") 2 tt (mkRunParams RealTime Forever 0)
    (mkTable [(1, 10); (2, 20); (5, 50)] [60; 70; 80]).

Definition read : M unit (list (Item Z)) :=
  postgres_read (S := unit) (R := Z * Z) Small.query_fn 5 (mkPg []) Small.period tt Small.ctx.

Lemma book_serves : pg_serves Small.asked Small.answer (fun (_ _ : unit) => True).
Proof. split. intros c q w _ _. exists (Small.answer q), w. split_and!; [done|done|]. by apply Forall_Forall2_diag, Forall_true. Qed.
End Server.

Lemma postgres_read_exact_witness :
  exists w', Server.read tt = (Ok (map inr (between (K + 43800000000000) Small.finish (Small.answer []))), w').
Proof.
  apply (postgres_read_exact Small.asked Small.answer (fun _ _ => True) Server.book_serves Small.query_fn 5 (mkPg [])
    Small.period Small.ctx Small.finish (Small.answer []) Small.slices tt tt tt tt);
    [apply Small.run_bounded|apply Small.answer_sorted|apply Small.queries_right|done|done].
Defined.

Lemma postgres_sub_exact_witness :
  (Server.tail 3).1 = Ok (map inr [(5, 50); (6, 60); (7, 70)]) /\
  exists seen1 w2 seen2 w3, Server.tail 2 = (Ok (map inr (later 2 seen1)), w2) /\
    Server.tail 3 = (Ok (map inr (later 2 seen2)), w3) /\ grows (Server.rows w2) seen2.
Proof.
  split; [by vm_compute|].
  destruct (postgres_sub_exact Server.tail_query Server.rows true 1 Server.table_tails 2 (mkPg []) (lit "feed") 2 tt
    (mkRunParams RealTime Forever 0) (Server.mkTable [(1, 10); (2, 20); (5, 50)] [60; 70; 80])
    (Server.mkTable [(1, 10); (2, 20); (5, 50)] [60; 70; 80]) (Server.mkTable [(1, 10); (2, 20); (5, 50)] [60; 70; 80]))
    as (seen1 & w2 & seen2 & w3 & E1 & E2 & _ & G); [done..|].
  exists seen1, w2, seen2, w3. split_and!; [exact E1|exact E2|exact G].
Defined.
