(* ===== verification/Iceoryx.v ===== *)
(** * The iceoryx2 adapter: [wingfoil/src/adapters/iceoryx2/]

    Shared-memory publish and subscribe: the contract of a service, the subscriber
    in its three modes with the thread of two of them, and the publisher. The
    library is the classes [IoxService], [IoxSubscriber], [IoxPublisher] and
    [IoxEvents] on a world [W]. The code for typed payloads and the code for byte
    slices are the same up to how a sample is loaned ([size]); so are those of the
    two service variants. [fuel] bounds the samples and events that are drained. *)
From stdpp Require Import pretty.
From S2P Require Import Prelude NanoTime TimeQueue GraphState NodeCalls Channel ChannelNodes Cache NodeWorld.
From Stdlib Require Import Strings.Ascii.
Local Open Scope Z_scope.

(** ** [mod.rs] *)

Definition ICEORYX2_DEFAULT_HISTORY_SIZE : Z := 5.
Definition ICEORYX2_DEFAULT_SUBSCRIBER_MAX_BUFFER_SIZE : Z := 16.
Definition ICEORYX2_DEFAULT_INITIAL_MAX_SLICE_LEN : Z := 128 * 1024.

Record Iceoryx2ServiceContract := mkContract { history_size : Z; subscriber_max_buffer_size : Z }.
Definition contract_new (history_size : Z) : Iceoryx2ServiceContract :=
  mkContract history_size (Z.max history_size ICEORYX2_DEFAULT_SUBSCRIBER_MAX_BUFFER_SIZE).
Definition contract_default : Iceoryx2ServiceContract := contract_new ICEORYX2_DEFAULT_HISTORY_SIZE.

Record Iceoryx2SliceContract := mkSliceContract { pubsub : Iceoryx2ServiceContract; initial_max_slice_len : Z }.
Definition slice_contract_new (history_size initial_max_slice_len : Z) : Iceoryx2SliceContract :=
  mkSliceContract (contract_new history_size) initial_max_slice_len.
Definition slice_contract_default : Iceoryx2SliceContract :=
  slice_contract_new ICEORYX2_DEFAULT_HISTORY_SIZE ICEORYX2_DEFAULT_INITIAL_MAX_SLICE_LEN.

Inductive Iceoryx2ServiceVariant := Ipc | Local.
Definition variant_default : Iceoryx2ServiceVariant := Ipc.
Inductive Iceoryx2Mode := Spin | Threaded | Signaled.
Definition mode_default : Iceoryx2Mode := Spin.

Record Iceoryx2SubOpts := mkSubOpts { so_variant : Iceoryx2ServiceVariant; so_mode : Iceoryx2Mode; so_history : Z }.
Definition sub_opts_default : Iceoryx2SubOpts := mkSubOpts variant_default mode_default ICEORYX2_DEFAULT_HISTORY_SIZE.
Definition sub_contract (self : Iceoryx2SubOpts) : Iceoryx2ServiceContract := contract_new (so_history self).

Record Iceoryx2PubOpts := mkPubOpts { po_variant : Iceoryx2ServiceVariant; po_history : Z }.
Definition pub_opts_default : Iceoryx2PubOpts := mkPubOpts variant_default ICEORYX2_DEFAULT_HISTORY_SIZE.
Definition pub_contract (self : Iceoryx2PubOpts) : Iceoryx2ServiceContract := contract_new (po_history self).

Record Iceoryx2PubSliceOpts := mkPubSliceOpts { pso_variant : Iceoryx2ServiceVariant; pso_history : Z; pso_max_len : Z }.
Definition pub_slice_opts_default : Iceoryx2PubSliceOpts :=
  mkPubSliceOpts variant_default ICEORYX2_DEFAULT_HISTORY_SIZE ICEORYX2_DEFAULT_INITIAL_MAX_SLICE_LEN.
Definition pub_slice_contract (self : Iceoryx2PubSliceOpts) : Iceoryx2SliceContract :=
  slice_contract_new (pso_history self) (pso_max_len self).

(** [FixedBytes<N>]: a length and [N] bytes. *)
Record FixedBytes := mkFixed { fb_len : nat; fb_data : bytes }.
Definition FixedBytes_default (n : nat) : FixedBytes := mkFixed 0 (replicate n "000"%char).
Definition FixedBytes_new (n : nat) (b : bytes) : FixedBytes :=
  let len := Nat.min (length b) n in
  mkFixed len (take len b ++ drop len (replicate n "000"%char)).
Definition as_slice (self : FixedBytes) : Res bytes :=
  if (fb_len self <=? length (fb_data self))%nat then Ok (take (fb_len self) (fb_data self))
  else Panic "range end index out of range for slice".

Inductive Iceoryx2Error :=
| NodeCreationFailed (e : string)
| ServiceOpenFailed (error service_name : string) (variant : Iceoryx2ServiceVariant) (contract : Iceoryx2ServiceContract)
| ServiceConfigMismatch (error service_name : string) (variant : Iceoryx2ServiceVariant) (contract : Iceoryx2ServiceContract)
| PortCreationFailed (e : string)
| SharedMemoryError (e : string)
| TransmissionError (e : string)
| Other (e : string).

Definition variant_text (v : Iceoryx2ServiceVariant) : string := match v with Ipc => "Ipc" | Local => "Local" end.

Definition service_text (error service_name : string) (variant : Iceoryx2ServiceVariant) (c : Iceoryx2ServiceContract) : string :=
  error +:+ " (service_name=" +:+ quoted service_name +:+ ", variant=" +:+ variant_text variant +:+
  ", history_size=" +:+ pretty (history_size c) +:+
  ", subscriber_max_buffer_size=" +:+ pretty (subscriber_max_buffer_size c) +:+ ")".

Definition display (e : Iceoryx2Error) : string :=
  match e with
  | NodeCreationFailed e => "Failed to create node: " +:+ e
  | ServiceOpenFailed e n v c => "Failed to open/create service: " +:+ service_text e n v c
  | ServiceConfigMismatch e n v c => "Service config mismatch: " +:+ service_text e n v c
  | PortCreationFailed e => "Failed to create port: " +:+ e
  | SharedMemoryError e => "Shared memory error: " +:+ e
  | TransmissionError e => "Data transmission error: " +:+ e
  | Other e => "Other error: " +:+ e
  end.
Definition iox_error (e : Iceoryx2Error) : Error := Msg (display e).

(** ** The environment *)

(** The payload's type is that of the service. [parse_name] is the conversion to a
    service name, [None] when it succeeds. *)
Class IoxService (W N Svc Ev : Type) := {
  create_node : Iceoryx2ServiceVariant -> W -> (string + N) * W;
  parse_name : string -> option string;
  open_pubsub : N -> string -> Z -> Z -> W -> (string + Svc) * W;
  open_event : N -> string -> W -> (string + Ev) * W;
  sleep : Z -> W -> W }.

Class IoxSubscriber (W Svc Sub T : Type) := {
  create_sub : Svc -> Z -> W -> (string + Sub) * W;
  sub_update_connections : Sub -> W -> option string * W;
  receive : Sub -> W -> (string + option T) * W }.

Class IoxPublisher (W Svc Pub Smp T : Type) := {
  create_pub : Svc -> option Z -> W -> (string + Pub) * W;
  pub_update_connections : Pub -> W -> option string * W;
  loan : Pub -> option Z -> W -> (string + Smp) * W;
  send_sample : Smp -> T -> W -> option string * W }.

Class IoxEvents (W Ev Lst Set_ Ntf : Type) := {
  create_listener : Ev -> W -> (string + Lst) * W;
  create_waitset : Iceoryx2ServiceVariant -> W -> (string + Set_) * W;
  attach_notification : Set_ -> Lst -> W -> option string * W;
  wait_once : Set_ -> Z -> W -> option string * W;
  try_wait_one : Lst -> W -> (string + bool) * W;
  create_notifier : Ev -> W -> (string + Ntf) * W;
  notify_event : Ntf -> W -> option string * W }.

(** The flag a thread shares with its node. *)
Class Running (W : Type) := is_running : W -> bool * W.

(** ** Opening a service: the macros of [read.rs] and [write.rs] *)

Fixpoint starts_with (p s : bytes) : bool :=
  match p, s with
  | [], _ => true
  | x :: p, y :: s => bool_decide (x = y) && starts_with p s
  | _, [] => false
  end.
Fixpoint contains_text (p s : bytes) : bool :=
  starts_with p s || match s with [] => false | _ :: s => contains_text p s end.

Definition service_open_err_with_context (service_name : string) (variant : Iceoryx2ServiceVariant)
    (contract : Iceoryx2ServiceContract) (error : string) : Iceoryx2Error :=
  let e := map to_ascii_lowercase (lit error) in
  if contains_text (lit "incompatible") e || contains_text (lit "mismatch") e || contains_text (lit "config") e
  then ServiceConfigMismatch error service_name variant contract
  else ServiceOpenFailed error service_name variant contract.

Section service.
Context {W N Svc Ev : Type} `{!IoxService W N Svc Ev}.

Definition to_service_name (name : string) : M W unit :=
  match parse_name name with None => mreturn tt | Some e => mfail (iox_error (Other e)) end.

Definition new_node (variant : Iceoryx2ServiceVariant) : M W N :=
  io_or (fun e => iox_error (NodeCreationFailed e)) (create_node variant).

Definition open_service (node : N) (name : string) (variant : Iceoryx2ServiceVariant) (history_size : Z) : M W Svc :=
  let contract := contract_new history_size in
  do! to_service_name name in
  io_or (fun e => iox_error (service_open_err_with_context name variant contract e))
    (open_pubsub node name history_size (subscriber_max_buffer_size contract)).

(** The [for _ in 0..25]: the service, and the last error. *)
Fixpoint open_event_retry (rounds : nat) (node : N) (signal_name : string) (last_err : option string)
  : M W (option Ev * option string) :=
  match rounds with
  | O => mreturn (None, last_err)
  | Datatypes.S rounds =>
    do! to_service_name signal_name in
    let! r := io (open_event node signal_name) in
    match r with
    | inr s => mreturn (Some s, last_err)
    | inl e =>
      do! io (fun w => (tt, sleep 10000000 w)) in
      open_event_retry rounds node signal_name (Some e)
    end
  end.

Definition event_service (node : N) (name : string) (variant : Iceoryx2ServiceVariant) : M W Ev :=
  let signal_name := name +:+ ".signal" in
  let! r := open_event_retry 25 node signal_name None in
  match r with
  | (Some s, _) => mreturn s
  | (None, last_err) =>
    mfail (iox_error (service_open_err_with_context signal_name variant (contract_new 0)
             (default "event open_or_create failed" last_err)))
  end.
End service.

(** ** The subscriber: [read.rs] *)

Section port.
Context {W N Svc Ev Sub T : Type} `{!IoxService W N Svc Ev, !IoxSubscriber W Svc Sub T}.

Definition port_error (e : string) : Error := iox_error (PortCreationFailed e).

Definition create_subscriber (name : string) (variant : Iceoryx2ServiceVariant) (history_size : Z) : M W (N * Sub) :=
  let! node := new_node variant in
  let! service := open_service node name variant history_size in
  let! subscriber := io_or port_error (create_sub service (Z.max history_size 1)) in
  do! io_or_ port_error (sub_update_connections subscriber) in
  mreturn (node, subscriber).

(** [receive_into]: the samples there are; an error ends them too. *)
Fixpoint receive_into (fuel : nat) (sub : Sub) : M W (list T) :=
  match fuel with
  | O => mstuck
  | Datatypes.S fuel =>
    let! r := io (receive sub) in
    match r with
    | inr (Some sample) => let! more := receive_into fuel sub in mreturn (sample :: more)
    | _ => mreturn []
    end
  end.
End port.

(** The thread of the modes [Threaded] and [Signaled]. *)
Section thread.
Context {W N Svc Ev Lst Set_ Ntf Sub T K X : Type}.
Context `{!IoxService W N Svc Ev, !IoxSubscriber W Svc Sub T, !IoxEvents W Ev Lst Set_ Ntf, !Running W}.
Context `{!KanalSender K T, !ReadyChannel X}.
Abbreviation ThreadM A := (M (ChannelSender K X * W) A).

(** Every sample there is, sent on; whether there was one. *)
Fixpoint forward_samples (fuel : nat) (sub : Sub) : ThreadM bool :=
  match fuel with
  | O => mstuck
  | Datatypes.S fuel =>
    let! r := on_world (receive sub) in
    match r with
    | inr (Some sample) =>
      do! post_ignoring (Message.RealtimeValue sample) in
      do! forward_samples fuel sub in
      mreturn true
    | _ => mreturn false
    end
  end.

Fixpoint drain_events (fuel : nat) (listener : Lst) : ThreadM unit :=
  match fuel with
  | O => mstuck
  | Datatypes.S fuel =>
    let! r := on_world (try_wait_one listener) in
    match r with inr true => drain_events fuel listener | _ => mreturn tt end
  end.

(** The two loops of [run_poll_loop], for at most [rounds] rounds. *)
Fixpoint signaled_loop (fuel rounds : nat) (ws : Set_) (sub : Sub) (listener : Lst) : ThreadM unit :=
  match rounds with
  | O => mstuck
  | Datatypes.S rounds =>
    let! running := on_world is_running in
    if negb running then mreturn tt
    else
      do! run_in_world (io_or_ (fun e => iox_error (Other e)) (wait_once ws 100000000)) in
      do! on_world (sub_update_connections sub) in
      do! forward_samples fuel sub in
      do! drain_events fuel listener in
      signaled_loop fuel rounds ws sub listener
  end.

Fixpoint threaded_loop (fuel rounds : nat) (mode : Iceoryx2Mode) (sub : Sub) (loop_cycles : Z) : ThreadM unit :=
  match rounds with
  | O => mstuck
  | Datatypes.S rounds =>
    let! running := on_world is_running in
    if negb running then mreturn tt
    else
      let loop_cycles := wrap_u64 (loop_cycles + 1) in
      do! (if loop_cycles mod 100 =? 0 then do! on_world (sub_update_connections sub) in mreturn tt else mreturn tt) in
      let! received := forward_samples fuel sub in
      do! (match received, mode with
           | false, Threaded => on_world (fun w => (tt, sleep 10000 w))
           | _, _ => mreturn tt
           end) in
      threaded_loop fuel rounds mode sub loop_cycles
  end.

Definition run_poll_loop (fuel rounds : nat) (sub : Sub) (opts : Iceoryx2SubOpts) (name : string) (node : N)
  : ThreadM unit :=
  match so_mode opts with
  | Signaled =>
    let! event_service := run_in_world (event_service node name (so_variant opts)) in
    let! listener := run_in_world (io_or port_error (create_listener event_service)) in
    let! ws := run_in_world (io_or (fun e => iox_error (Other e)) (create_waitset (so_variant opts))) in
    do! run_in_world (io_or_ port_error (attach_notification ws listener)) in
    signaled_loop fuel rounds ws sub listener
  | mode => threaded_loop fuel rounds mode sub 0
  end.

(** [run_subscriber_thread] and [run_slice_subscriber_thread]. A [?] in one of the two
    macros leaves this function, so all that comes after them finds [res] to be
    [Ok(())]. *)
Definition run_subscriber_thread (fuel rounds : nat) (name : string) (opts : Iceoryx2SubOpts) : ThreadM unit :=
  let! created := run_in_world (create_subscriber name (so_variant opts) (so_history opts)) in
  let '(node, subscriber) := created in
  do! run_poll_loop fuel rounds subscriber opts name node in
  let res := Ok tt in
  do! match res with Err e => post_ignoring (Message.Error e) | _ => mreturn tt end in
  do! post_ignoring Message.EndOfStream in
  mlift res.
End thread.

Module Iceoryx2ReceiverStream.
Section node.
Context {W N Svc Ev Sub T K R X H : Type}.
Context `{!IoxService W N Svc Ev, !IoxSubscriber W Svc Sub T, !KanalReceiver R T}.
Context `{!Threads (string * Iceoryx2SubOpts) (ChannelSender K X) H}.
(** What [channel_pair] makes its channel with. *)
Context (chan : option Z -> K * R).

Record Iceoryx2ReceiverStream := mk {
  service_name : string; opts : Iceoryx2SubOpts; node : option N; subscriber : option Sub;
  receiver : option (ChannelReceiver R); running : bool; thread_handle : option H; value : list T; cycles : Z }.

Definition new (service_name : string) (opts : Iceoryx2SubOpts) : Iceoryx2ReceiverStream :=
  mk service_name opts None None None false None [] 0.
Definition upstreams (self : Iceoryx2ReceiverStream) : UpStreams := mkUpStreams [] [].
Definition peek_ref (self : Iceoryx2ReceiverStream) : list T := value self.

Definition set_value (v : list T) (cycles : Z) (n : Iceoryx2ReceiverStream) : Iceoryx2ReceiverStream :=
  mk (service_name n) (opts n) (node n) (subscriber n) (receiver n) (running n) (thread_handle n) v cycles.
Definition set_port (p : N * Sub) (n : Iceoryx2ReceiverStream) : Iceoryx2ReceiverStream :=
  mk (service_name n) (opts n) (Some p.1) (Some p.2) (receiver n) (running n) (thread_handle n) (value n) (cycles n).
Definition set_receiver (r : ChannelReceiver R) (n : Iceoryx2ReceiverStream) : Iceoryx2ReceiverStream :=
  mk (service_name n) (opts n) (node n) (subscriber n) (Some r) (running n) (thread_handle n) (value n) (cycles n).
Definition set_thread (running : bool) (h : option H) (n : Iceoryx2ReceiverStream) : Iceoryx2ReceiverStream :=
  mk (service_name n) (opts n) (node n) (subscriber n) (receiver n) running h (value n) (cycles n).
Definition clear (n : Iceoryx2ReceiverStream) : Iceoryx2ReceiverStream :=
  mk (service_name n) (opts n) None None None (running n) (thread_handle n) (value n) (cycles n).

Abbreviation RecvM A := (NodeM (Iceoryx2ReceiverStream * W) A).

(** The [loop] over the channel. *)
Fixpoint drain (fuel : nat) (rx : ChannelReceiver R) : RecvM unit :=
  match fuel with
  | O => mstuck
  | Datatypes.S fuel =>
    let '(m, rx) := ChannelReceiver.try_recv (T := T) rx in
    let! self := self_of in
    do! set_self (set_receiver rx self) in
    match m with
    | Some (Message.RealtimeValue v) =>
      let! self := self_of in
      do! set_self (set_value (value self ++ [v]) (cycles self) self) in
      drain fuel rx
    | Some Message.EndOfStream => mreturn tt
    | Some (Message.Error err) => mfail err
    | None => mreturn tt
    | Some _ => drain fuel rx
    end
  end.

Definition ticked : RecvM bool :=
  let! self := self_of in mreturn (match value self with [] => false | _ => true end).

Definition cycle (fuel : nat) : RecvM bool :=
  let! self := self_of in
  do! set_self (set_value [] (wrap_u64 (cycles self + 1)) self) in
  let! self := self_of in
  match so_mode (opts self) with
  | Spin =>
    match subscriber self with
    | None => mreturn false
    | Some sub =>
      do! (if cycles self mod 10 =? 0 then do! world (sub_update_connections sub) in mreturn tt else mreturn tt) in
      let! samples := in_world (receive_into fuel sub) in
      do! set_self (set_value (value self ++ samples) (cycles self) self) in
      ticked
    end
  | Threaded | Signaled =>
    match receiver self with
    | None => mreturn false
    | Some rx => do! drain fuel rx in ticked
    end
  end.

(** A call of the engine's by a node that also has a world. *)
Definition engine {A} (m : M GraphState A) : RecvM A := fun s =>
  let '(r, g) := m s.2 in (r, (s.1, g)).

Definition start : RecvM unit :=
  let! self := self_of in
  match so_mode (opts self) with
  | Spin =>
    do! engine GraphState.always_callback in
    let! port := in_world (create_subscriber (service_name self) (so_variant (opts self)) (so_history (opts self))) in
    set_self (set_port port self)
  | Threaded | Signaled =>
    do! engine GraphState.always_callback in
    let '(sender, receiver) := channel_pair chan None None in
    let h := thread_spawn (service_name self, opts self) sender in
    set_self (set_thread true (Some h) (set_receiver receiver self))
  end.

(** The thread's result is ignored. *)
Definition stop : RecvM unit :=
  let! self := self_of in
  let! _ := mreturn (match thread_handle self with Some h => Some (ChannelNodes.join (raise_stop h)) | None => None end) in
  set_self (clear (set_thread false None self)).
End node.
Arguments Iceoryx2ReceiverStream : clear implicits.
End Iceoryx2ReceiverStream.
Abbreviation Iceoryx2ReceiverStream := Iceoryx2ReceiverStream.Iceoryx2ReceiverStream.

(** [iceoryx2_sub], [iceoryx2_sub_with], [iceoryx2_sub_opts], and the first and the last
    for slices. *)
Section sub.
Context {N Sub T R H : Type}.
Definition iceoryx2_sub_opts (service_name : string) (opts : Iceoryx2SubOpts) : Iceoryx2ReceiverStream N Sub T R H :=
  Iceoryx2ReceiverStream.new service_name opts.
Definition iceoryx2_sub (service_name : string) : Iceoryx2ReceiverStream N Sub T R H :=
  iceoryx2_sub_opts service_name sub_opts_default.
Definition iceoryx2_sub_with (service_name : string) (variant : Iceoryx2ServiceVariant)
  : Iceoryx2ReceiverStream N Sub T R H :=
  iceoryx2_sub_opts service_name (mkSubOpts variant mode_default (so_history sub_opts_default)).
End sub.

(** ** The publisher: [write.rs] *)

(** Typed samples have a fixed size, slices are loaned with their length. *)
Definition typed_size {T} (_ : T) : option Z := None.
Definition slice_size (data : bytes) : option Z := Some (Z.of_nat (length data)).

Module Iceoryx2Publisher.
Section node.
Context {W N Svc Ev Lst Set_ Ntf Pub Smp T : Type}.
Context `{!IoxService W N Svc Ev, !IoxPublisher W Svc Pub Smp T, !IoxEvents W Ev Lst Set_ Ntf}.
Context (size : T -> option Z).

(** [max_len] is that of a slice publisher. *)
Record Iceoryx2Publisher := mk {
  upstream : addr; service_name : string; variant : Iceoryx2ServiceVariant; history : Z; max_len : option Z;
  node : option N; publisher : option Pub; notifier : option Ntf; cycles : Z }.

Definition new (upstream : addr) (service_name : string) (variant : Iceoryx2ServiceVariant) (history : Z)
    (max_len : option Z) : Iceoryx2Publisher :=
  mk upstream service_name variant history max_len None None None 0.
Definition upstreams (self : Iceoryx2Publisher) : UpStreams := mkUpStreams [upstream self] [].

Definition set_ports (ports : option (N * Pub * Ntf)) (n : Iceoryx2Publisher) : Iceoryx2Publisher :=
  mk (upstream n) (service_name n) (variant n) (history n) (max_len n)
    (p ← ports; Some p.1.1) (p ← ports; Some p.1.2) (p ← ports; Some p.2) (cycles n).
Definition set_cycles (c : Z) (n : Iceoryx2Publisher) : Iceoryx2Publisher :=
  mk (upstream n) (service_name n) (variant n) (history n) (max_len n) (node n) (publisher n) (notifier n) c.

Definition create_publisher_and_notifier (name : string) (variant : Iceoryx2ServiceVariant) (history_size : Z)
    (max_len : option Z) : M W (N * Pub * Ntf) :=
  let! node := new_node variant in
  let! service := open_service node name variant history_size in
  let! publisher := io_or port_error (create_pub service max_len) in
  do! io_or_ port_error (pub_update_connections publisher) in
  let! event_service := event_service node name variant in
  let! notifier := io_or port_error (create_notifier event_service) in
  mreturn (node, publisher, notifier).

Definition transmission_error (e : string) : Error := iox_error (TransmissionError e).

(** The [for] over the burst: whether anything was sent. *)
Fixpoint send_all (publisher : Pub) (burst : list T) (sent_any : bool) : M W bool :=
  match burst with
  | [] => mreturn sent_any
  | data :: burst =>
    let! sample := io_or transmission_error (loan publisher (size data)) in
    do! io_or_ transmission_error (send_sample sample data) in
    send_all publisher burst true
  end.

Definition notify (n : Ntf) : M W unit := io_or_ transmission_error (notify_event n).

Abbreviation PubM A := (NodeM (Iceoryx2Publisher * W) A).

(** Every tenth cycle. *)
Definition refresh (publisher : Pub) (cycles : Z) : PubM unit :=
  if cycles mod 10 =? 0 then try_ (pub_update_connections publisher) else mreturn tt.

(** [burst] is the value of the upstream. *)
Definition cycle (burst : list T) : PubM bool :=
  let! self := self_of in
  match publisher self with
  | None => mreturn false
  | Some publisher =>
    let self := set_cycles (wrap_u64 (cycles self + 1)) self in
    do! set_self self in
    do! refresh publisher (cycles self) in
    let! sent_any := in_world (send_all publisher burst false) in
    do! match notifier self with
        | Some n => if sent_any : bool then in_world (notify n) else mreturn tt
        | None => mreturn tt
        end in
    mreturn sent_any
  end.

Definition start : PubM unit :=
  let! self := self_of in
  let! ports := in_world (create_publisher_and_notifier (service_name self) (variant self) (history self) (max_len self)) in
  set_self (set_ports (Some ports) self).

Definition stop : PubM unit := let! self := self_of in set_self (set_ports None self).
End node.
Arguments Iceoryx2Publisher : clear implicits.
End Iceoryx2Publisher.
Abbreviation Iceoryx2Publisher := Iceoryx2Publisher.Iceoryx2Publisher.

(** [iceoryx2_pub_opts] and [iceoryx2_pub_slice_opts], and those with defaults. *)
Section pub.
Context {N Ntf Pub : Type}.
Abbreviation Node_ := (Iceoryx2Publisher N Ntf Pub).
Definition iceoryx2_pub_opts (upstream : addr) (service_name : string) (opts : Iceoryx2PubOpts) : Node_ :=
  Iceoryx2Publisher.new upstream service_name (po_variant opts) (po_history opts) None.
Definition iceoryx2_pub (upstream : addr) (service_name : string) : Node_ :=
  iceoryx2_pub_opts upstream service_name pub_opts_default.
Definition iceoryx2_pub_with (upstream : addr) (service_name : string) (variant : Iceoryx2ServiceVariant) : Node_ :=
  iceoryx2_pub_opts upstream service_name (mkPubOpts variant (po_history pub_opts_default)).
Definition iceoryx2_pub_slice_opts (upstream : addr) (service_name : string) (opts : Iceoryx2PubSliceOpts) : Node_ :=
  Iceoryx2Publisher.new upstream service_name (pso_variant opts) (pso_history opts) (Some (pso_max_len opts)).
Definition iceoryx2_pub_slice (upstream : addr) (service_name : string) : Node_ :=
  iceoryx2_pub_slice_opts upstream service_name pub_slice_opts_default.
Definition iceoryx2_pub_slice_with (upstream : addr) (service_name : string) (variant : Iceoryx2ServiceVariant) : Node_ :=
  iceoryx2_pub_slice_opts upstream service_name
    (mkPubSliceOpts variant (pso_history pub_slice_opts_default) (pso_max_len pub_slice_opts_default)).
End pub.

(** ** Byte slices

    The nodes for slices of bytes: the same code, on samples that are copied out
    ([to_vec]) and loaned with their length. *)
Section slices.
Context {W N Svc Ev Lst Set_ Ntf Sub Pub Smp K R X H : Type}.
Context `{!IoxService W N Svc Ev, !IoxSubscriber W Svc Sub bytes, !IoxEvents W Ev Lst Set_ Ntf, !Running W}.
Context `{!IoxPublisher W Svc Pub Smp bytes, !KanalSender K bytes, !KanalReceiver R bytes, !ReadyChannel X}.
Context `{!Threads (string * Iceoryx2SubOpts) (ChannelSender K X) H} (chan : option Z -> K * R).

Definition Iceoryx2SliceReceiverStream : Type := Iceoryx2ReceiverStream N Sub bytes R H.
Definition slice_receiver_new (service_name : string) (opts : Iceoryx2SubOpts) : Iceoryx2SliceReceiverStream :=
  Iceoryx2ReceiverStream.new service_name opts.
Definition iceoryx2_sub_slice_opts (service_name : string) (opts : Iceoryx2SubOpts) : Iceoryx2SliceReceiverStream :=
  slice_receiver_new service_name opts.
Definition iceoryx2_sub_slice (service_name : string) : Iceoryx2SliceReceiverStream :=
  iceoryx2_sub_slice_opts service_name sub_opts_default.
Definition slice_receive_into : nat -> Sub -> M W (list bytes) := receive_into.
Definition slice_receiver_cycle (fuel : nat) : NodeM (Iceoryx2SliceReceiverStream * W) bool :=
  Iceoryx2ReceiverStream.cycle fuel.
Definition slice_receiver_start : NodeM (Iceoryx2SliceReceiverStream * W) unit := Iceoryx2ReceiverStream.start chan.
Definition slice_receiver_stop : NodeM (Iceoryx2SliceReceiverStream * W) unit :=
  Iceoryx2ReceiverStream.stop (K := K) (X := X).
Definition run_slice_subscriber_thread (fuel rounds : nat) (name : string) (opts : Iceoryx2SubOpts)
  : M (ChannelSender K X * W) unit :=
  run_subscriber_thread (Sub := Sub) fuel rounds name opts.

Definition Iceoryx2SlicePublisher : Type := Iceoryx2Publisher N Ntf Pub.
Definition slice_publisher_new (upstream : addr) (service_name : string) (opts : Iceoryx2PubSliceOpts) : Iceoryx2SlicePublisher :=
  iceoryx2_pub_slice_opts upstream service_name opts.
Definition create_slice_publisher_and_notifier (name : string) (variant : Iceoryx2ServiceVariant)
    (history_size initial_max_slice_len : Z) : M W (N * Pub * Ntf) :=
  Iceoryx2Publisher.create_publisher_and_notifier name variant history_size (Some initial_max_slice_len).
Definition slice_publisher_cycle (burst : list bytes) : NodeM (Iceoryx2SlicePublisher * W) bool :=
  Iceoryx2Publisher.cycle slice_size burst.
Definition slice_publisher_start : NodeM (Iceoryx2SlicePublisher * W) unit := Iceoryx2Publisher.start.
Definition slice_publisher_stop : NodeM (Iceoryx2SlicePublisher * W) unit := Iceoryx2Publisher.stop.
End slices.
