(* ===== verification/IceoryxProps.v ===== *)
(** * What the iceoryx2 adapter promises

    [iox_thread_messages]: what a subscriber's thread puts into its channel, and what
    it does not when it fails. [iox_bursts_in_order]: what the stream emits, in every
    mode. [iox_publisher_sends]: what a publisher sends. [fixed_bytes_roundtrip]. *)
From S2P Require Import Prelude NanoTime TimeQueue GraphState NodeCalls Channel ChannelNodes Cache NodeWorld Iceoryx.
From Stdlib Require Import Strings.Ascii.
Local Open Scope Z_scope.

(** ** Fixed bytes and contracts *)

(** What is put into [n] bytes is read back, up to [n] bytes of it. *)
Theorem fixed_bytes_roundtrip n b :
  as_slice (FixedBytes_new n b) = Ok (take n b) /\ length (fb_data (FixedBytes_new n b)) = n.
Proof.
  unfold as_slice, FixedBytes_new. simpl. set (len := Nat.min (length b) n).
  assert (Ht : length (take len b) = len) by (rewrite length_take; lia).
  assert (Hl : length (take len b ++ drop len (replicate n "000"%char)) = n).
  { rewrite length_app, Ht, length_drop, length_replicate. lia. }
  rewrite Hl, (proj2 (Nat.leb_le _ _)) by lia. split; [|done]. f_equal.
  rewrite take_app_le by lia. rewrite take_take. destruct (Nat.le_ge_cases (length b) n).
  - rewrite !take_ge; [done|lia..].
  - f_equal. lia.
Qed.

(** Participants that agree on the history agree on the contract, and a subscriber's
    buffer holds the history. *)
Lemma contracts_agree (s : Iceoryx2SubOpts) (p : Iceoryx2PubOpts) : so_history s = po_history p ->
  sub_contract s = pub_contract p /\ so_history s <= subscriber_max_buffer_size (pub_contract p).
Proof. unfold sub_contract, pub_contract, contract_new. simpl. intros ->. split; [done|lia]. Qed.

(** ** Samples *)

(** The samples received so far: a successful [receive] adds one, and no other call
    does. *)
Class Samples (W N Svc Ev Lst Set_ Ntf Sub T : Type)
    `{!IoxService W N Svc Ev, !IoxSubscriber W Svc Sub T, !IoxEvents W Ev Lst Set_ Ntf, !Running W} := {
  got : W -> list T;
  got_receive s w : let '(r, w') := receive s w in
    got w' = match r with inr (Some x) => got w ++ [x] | _ => got w end;
  got_create_node v w : got (create_node v w).2 = got w;
  got_open_pubsub n s h b w : got (open_pubsub n s h b w).2 = got w;
  got_open_event n s w : got (open_event n s w).2 = got w;
  got_sleep t w : got (sleep t w) = got w;
  got_create_sub s b w : got (create_sub (T := T) s b w).2 = got w;
  got_update s w : got (sub_update_connections (T := T) s w).2 = got w;
  got_listener e w : got (create_listener e w).2 = got w;
  got_waitset v w : got (create_waitset v w).2 = got w;
  got_attach s l w : got (attach_notification s l w).2 = got w;
  got_wait s t w : got (wait_once s t w).2 = got w;
  got_try_wait l w : got (try_wait_one l w).2 = got w;
  got_running w : got (is_running w).2 = got w }.

#[export] Hint Resolve got_create_node got_open_pubsub got_open_event got_sleep got_create_sub got_update
  got_listener got_waitset got_attach got_wait got_try_wait got_running : wingfoil.

Section samples.
Context {W N Svc Ev Lst Set_ Ntf Sub T : Type} `{Samples W N Svc Ev Lst Set_ Ntf Sub T}.

Definition same (w w' : W) : Prop := got w' = got w.
#[local] Instance same_preorder : PreOrder same.
Proof. split; [done|]. intros w1 w2 w3 E1 E2. by transitivity (got w2). Qed.

Lemma io_same {A} (f : W -> A * W) : (forall w, got (f w).2 = got w) -> respects same (io f).
Proof. intros Hf w r w' E. unfold io in E. specialize (Hf w). destruct (f w). by simplify_eq/=. Qed.

Lemma io_or_same {A E} (e : E -> Error) (f : W -> (E + A) * W) :
  (forall w, got (f w).2 = got w) -> respects same (io_or e f).
Proof.
  intros Hf. apply respects_bind; [apply _|by apply io_same|]. intros [?|?]; auto with wingfoil typeclass_instances.
Qed.

Lemma io_or__same {E} (e : E -> Error) (f : W -> option E * W) :
  (forall w, got (f w).2 = got w) -> respects same (io_or_ e f).
Proof.
  intros Hf. apply respects_bind; [apply _|by apply io_same|]. intros [?|]; auto with wingfoil typeclass_instances.
Qed.

Hint Resolve io_same io_or_same io_or__same : wingfoil.
Hint Extern 5 (respects same (mbind _ _)) => apply respects_bind; [apply _| |intros] : wingfoil.

Lemma name_same name : respects same (to_service_name name).
Proof. unfold to_service_name. destruct (parse_name name); auto with wingfoil typeclass_instances. Qed.
Hint Resolve name_same : wingfoil.

Lemma create_subscriber_same name v h : respects same (create_subscriber (Sub := Sub) (T := T) name v h).
Proof. unfold create_subscriber, new_node, open_service. auto 20 with wingfoil typeclass_instances. Qed.

Lemma event_service_same node name v : respects same (event_service (Ev := Ev) node name v).
Proof.
  unfold event_service. apply respects_bind; [apply _| |].
  - generalize 25%nat, (@None string). intros rounds. induction rounds as [|rounds IH]; intros e; simpl; [by auto with wingfoil typeclass_instances|].
    apply respects_bind; [apply _|by auto with wingfoil|]. intros _.
    apply respects_bind; [apply _|by auto with wingfoil|]. intros [?|?]; [|by auto with wingfoil typeclass_instances].
    apply respects_bind; [apply _|apply io_same; intros w; apply got_sleep|auto].
  - intros [[s|] e]; auto with wingfoil typeclass_instances.
Qed.
End samples.

(** ** The thread *)

Section thread.
Context {W N Svc Ev Lst Set_ Ntf Sub T K X : Type} `{Samples W N Svc Ev Lst Set_ Ntf Sub T}.
Context `{Outbound K T, !ReadyChannel X}.
(** The receiving end stays open while the thread runs. *)
Context (Hopen : forall (m : Message T) (k : K), (kanal_send m k).1 = true).
Abbreviation St := (ChannelSender K X * W)%type.
Implicit Types s : St.

Definition open s : Prop := is_Some (ChannelSender.kanal_sender s.1).

(** From [s] to [s'] some samples were received, and exactly those passed on. *)
Definition passed s s' : Prop := exists vs,
  got s'.2 = got s.2 ++ vs /\ (open s -> open s' /\ put s'.1 = put s.1 ++ map Message.RealtimeValue vs).

#[local] Instance passed_preorder : PreOrder passed.
Proof.
  split.
  - intros s. exists []. by rewrite !app_nil_r.
  - intros s1 s2 s3 (v1 & G1 & P1) (v2 & G2 & P2). exists (v1 ++ v2). rewrite G2, G1, map_app, !app_assoc. split; [done|].
    intros Ho. destruct (P1 Ho) as [Ho2 E1]. destruct (P2 Ho2) as [Ho3 E2]. by rewrite E2, E1.
Qed.

Lemma in_world_passed {A} (m : M W A) : respects same m -> respects passed (run_in_world (K := K) (X := X) m).
Proof.
  intros Hm s r s' E. unfold run_in_world in E. destruct (m s.2) as [a w] eqn:Em. injection E as <- <-.
  apply Hm in Em. exists []. rewrite !app_nil_r. by split.
Qed.

Lemma on_world_passed {A} (f : W -> A * W) : (forall w, got (f w).2 = got w) ->
  respects passed (on_world (K := K) (X := X) f).
Proof.
  intros Hf s r s' E. unfold on_world in E. specialize (Hf s.2). destruct (f s.2) as [a w]. injection E as <- <-.
  exists []. rewrite !app_nil_r. by split.
Qed.

Lemma post_open (m : Message T) s u s' : post_ignoring m s = (u, s') ->
  u = Ok tt /\ s'.2 = s.2 /\ (open s -> open s' /\ put s'.1 = put s.1 ++ [m]).
Proof.
  unfold post_ignoring. destruct (ChannelSender.send_message m s.1) as [r c] eqn:E. intros [= <- <-].
  split_and!; [done|done|]. intros [k Hk]. unfold open. simpl.
  pose proof (send_message_put m s.1 r c E) as Hput.
  unfold ChannelSender.send_message in E. rewrite Hk in E. specialize (Hopen m k). destruct (kanal_send m k) as [ok k'].
  simpl in Hopen. subst ok. destruct (ChannelSender.notifier s.1) as [n|]; [destruct (notify n) as [ok n']; destruct ok|];
    injection E as <- <-; (split; [by eexists|]); destruct Hput as [?|[? _]]; done.
Qed.

Lemma forward_passed fuel sub : respects passed (forward_samples (K := K) (X := X) fuel sub).
Proof.
  induction fuel as [|fuel IH]; simpl; [by auto with wingfoil typeclass_instances|].
  intros s r s' E. unfold mbind at 1, on_world in E.
  pose proof (got_receive sub s.2) as Hg. destruct (receive sub s.2) as [x w]. destruct x as [e|[v|]].
  - injection E as <- <-. exists []. rewrite !app_nil_r. by split.
  - unfold mbind at 1 in E. destruct (post_ignoring _ (s.1, w)) as [u s1] eqn:Ep.
    apply post_open in Ep as (-> & Hw & Hp). transitivity s1.
    + exists [v]. rewrite Hw. split; [exact Hg|]. exact Hp.
    + revert E. apply (respects_bind passed); [done|]. intros _. by auto with wingfoil typeclass_instances.
  - injection E as <- <-. exists []. rewrite !app_nil_r. by split.
Qed.

Hint Resolve in_world_passed on_world_passed forward_passed : wingfoil.
Hint Extern 5 (respects passed (mbind _ _)) => apply respects_bind; [apply _| |intros] : wingfoil.
Hint Extern 5 (respects same (io_or _ _)) => apply io_or_same : wingfoil.
Hint Extern 5 (respects same (io_or_ _ _)) => apply io_or__same : wingfoil.

Lemma drain_passed fuel l : respects passed (drain_events (K := K) (X := X) fuel l).
Proof.
  induction fuel as [|fuel IH]; simpl; [by auto with wingfoil typeclass_instances|].
  apply respects_bind; [apply _|by auto with wingfoil|]. intros [?|[]]; auto with wingfoil typeclass_instances.
Qed.
Hint Resolve drain_passed : wingfoil.

Lemma signaled_passed fuel rounds ws sub l : respects passed (signaled_loop (K := K) (X := X) fuel rounds ws sub l).
Proof.
  induction rounds as [|rounds IH]; cbn [signaled_loop]; [by auto with wingfoil typeclass_instances|].
  apply respects_bind; [apply _|by auto with wingfoil|]. intros []; simpl; auto 20 with wingfoil typeclass_instances.
Qed.

Lemma threaded_passed fuel rounds mode sub c : respects passed (threaded_loop (K := K) (X := X) fuel rounds mode sub c).
Proof.
  induction rounds as [|rounds IH] in c |- *; cbn [threaded_loop]; [by auto with wingfoil typeclass_instances|].
  apply respects_bind; [apply _|by auto with wingfoil|]. intros []; simpl; [|by auto with wingfoil typeclass_instances].
  apply respects_bind; [apply _|destruct (_ =? 0); by auto with wingfoil typeclass_instances|]. intros _.
  apply respects_bind; [apply _|by auto with wingfoil|]. intros received.
  apply respects_bind; [apply _| |auto]. destruct received, mode; auto with wingfoil typeclass_instances.
  apply on_world_passed. intros w. apply got_sleep.
Qed.

Lemma poll_loop_passed fuel rounds sub opts name node : respects passed (run_poll_loop (K := K) (X := X) fuel rounds sub opts name node).
Proof.
  unfold run_poll_loop. destruct (so_mode opts); [apply threaded_passed..|].
  apply respects_bind; [apply _|apply in_world_passed, event_service_same|]. intros es.
  apply respects_bind; [apply _|by auto with wingfoil|]. intros l.
  apply respects_bind; [apply _|by auto with wingfoil|]. intros ws.
  apply respects_bind; [apply _|by auto with wingfoil|]. intros _. apply signaled_passed.
Qed.

(** C26: The thread of a subscriber puts the samples it receives into its channel, each
    once and in order, and after them the end of the stream when it was told to stop.
    When anything fails -- creating the node, the service, the port, the event service
    or the wait set -- it puts nothing more: no error, no end of the stream. The branch
    that would report the error is never reached. *)
Theorem iox_thread_messages fuel rounds name opts s r s' :
  open s -> run_subscriber_thread fuel rounds name opts s = (r, s') ->
  exists vs, got s'.2 = got s.2 ++ vs /\
    put s'.1 = put s.1 ++ map Message.RealtimeValue vs ++ match r with Ok _ => [Message.EndOfStream] | _ => [] end.
Proof.
  intros Ho. unfold run_subscriber_thread. unfold mbind at 1.
  destruct (run_in_world _ s) as [rc s1] eqn:Ec. apply in_world_passed in Ec; [|apply create_subscriber_same].
  assert (Hend : forall (rr : Res unit) sx, passed s sx -> (forall u, rr <> Ok u) -> r = rr -> s' = sx ->
    exists vs, got s'.2 = got s.2 ++ vs /\
    put s'.1 = put s.1 ++ map Message.RealtimeValue vs ++ match r with Ok _ => [Message.EndOfStream] | _ => [] end).
  { intros rr sx (vs & G & P) Hr -> ->. destruct (P Ho) as [_ E]. exists vs. split; [exact G|].
    rewrite E. destruct rr as [u| | |]; [by specialize (Hr u)|by rewrite app_nil_r..]. }
  destruct rc as [[node sub]|e|w|]; [|intros [= <- <-]; eapply (Hend _ s1 Ec); [|reflexivity..]; done..].
  unfold mbind at 1. destruct (run_poll_loop _ _ _ _ _ _ s1) as [rp s2] eqn:Ep. apply poll_loop_passed in Ep.
  assert (E2 : passed s s2) by (by transitivity s1). destruct rp as [[]|e|w|]; [|intros [= <- <-]; eapply (Hend _ s2 E2); [|reflexivity..]; done..].
  unfold mbind at 1. simpl. unfold mbind at 1. destruct (post_ignoring _ s2) as [u s3] eqn:E3.
  apply post_open in E3 as (-> & Hw & Hp). intros [= <- <-]. destruct E2 as (vs & G & P). exists vs.
  destruct (P Ho) as [Ho2 E2]. destruct (Hp Ho2) as [_ E3]. by rewrite Hw, G, E3, E2, <-app_assoc.
Qed.
End thread.

(** ** The stream *)

Section stream.
Context {W N Svc Ev Lst Set_ Ntf Sub T K R X H : Type} `{Samples W N Svc Ev Lst Set_ Ntf Sub T}.
Context `{!KanalReceiver R T, !Inbound R T, !Threads (string * Iceoryx2SubOpts) (ChannelSender K X) H}.
Abbreviation Node := (Iceoryx2ReceiverStream N Sub T R H).
Import Iceoryx2ReceiverStream.
Implicit Types (n : Node) (rx : ChannelReceiver R) (w : W) (g : GraphState).

Lemma receive_into_got fuel (sub : Sub) w l w' : receive_into fuel sub w = (Ok l, w') -> got w' = got w ++ l.
Proof.
  induction fuel as [|fuel IH] in w, l, w' |- *; [done|]. cbn [receive_into]. unfold mbind at 1, io. intros E.
  pose proof (got_receive sub w) as Hg. destruct (receive sub w) as [x w1]. destruct x as [e|[v|]].
  - injection E as <- <-. by rewrite app_nil_r.
  - inv_bind E. apply IH in E0. injection E as <- <-. by rewrite E0, Hg, <-app_assoc.
  - injection E as <- <-. by rewrite app_nil_r.
Qed.

(** What may follow the values in the channel of a thread. *)
Definition ends (tl : list (Message T)) : Prop := tl = [] \/ tl = [Message.EndOfStream].
Definition inbox_of rx : list (Message T) := inbox (ChannelReceiver.kanal_receiver rx).

(** [rx] holds the values [vs] and then [tl], or has come to the end. *)
Definition holds rx (vs : list T) (tl : list (Message T)) : Prop :=
  inbox_of rx = map Message.RealtimeValue vs ++ tl \/ vs = [] /\ inbox_of rx = [].

Lemma drain_holds fuel rx n w g u n' w' g' vs tl : ends tl -> holds rx vs tl -> receiver n = Some rx ->
  drain fuel rx ((n, w), g) = (Ok u, ((n', w'), g')) ->
  exists taken rest rx', vs = taken ++ rest /\ value n' = value n ++ taken /\ opts n' = opts n /\
    receiver n' = Some rx' /\ holds rx' rest tl.
Proof.
  intros Ht. induction fuel as [|fuel IH] in rx, n, vs |- *; [done|]. cbn [drain]. intros Hh Hr E.
  unfold ChannelReceiver.try_recv in E. pose proof (kanal_try_recv_spec (ChannelReceiver.kanal_receiver rx)) as Hs.
  destruct (kanal_try_recv _) as [x r']. specialize (Hs x r' eq_refl). fold (inbox_of rx) in Hs.
  assert (Hstop : forall (m : list (Message T)), inbox_of rx = m -> (vs = [] /\ inbox r' = []) \/ inbox r' = m ->
    holds (ChannelReceiver.mk r') vs tl).
  { intros m Hm [Hx|Hx]; [by right|]. unfold holds, inbox_of in *. simpl. rewrite Hx, <-Hm. exact Hh. }
  set (n1 := set_receiver (ChannelReceiver.mk r') n).
  assert (Hend : holds (ChannelReceiver.mk r') vs tl -> Ok tt = Ok u /\ (n1, w, g) = (n', w', g') ->
    exists taken rest rx', vs = taken ++ rest /\ value n' = value n ++ taken /\ opts n' = opts n /\
    receiver n' = Some rx' /\ holds rx' rest tl).
  { intros Hx [_ [= <- <- <-]]. exists [], vs, (ChannelReceiver.mk r'). rewrite app_nil_r. by split_and!. }
  destruct x as [[m|]|].
  - destruct vs as [|v vs].
    + assert (Hm : m = Message.EndOfStream /\ inbox r' = []).
      { destruct Hh as [Hh|[_ Hh]]; rewrite Hh in Hs; [|done]. destruct Ht as [->| ->]; simpl in Hs; by simplify_eq. }
      destruct Hm as [-> Hnil]. apply Hend; [by right|]. by injection E as <- <- <- <-.
    + destruct Hh as [Hh|[? _]]; [|done]. rewrite Hh in Hs. simpl in Hs. injection Hs as <- Hs.
      unfold mbind in E. simpl in E.
      apply (IH (ChannelReceiver.mk r') (set_value (value n ++ [v]) (cycles n) n1) vs) in E as
        (taken & rest & rx' & -> & Hv & Ho & Hr' & Hh'); [|by left|done].
      exists (v :: taken), rest, rx'. split_and!; [done| |done|done|done]. simpl in Hv. by rewrite Hv, <-app_assoc.
  - apply Hend; [by eapply Hstop; [done|right; rewrite Hs]|]. by injection E as <- <- <- <-.
  - apply Hend; [|by injection E as <- <- <- <-]. destruct Hs as [Hs1 Hs2]. right.
    destruct Hh as [Hh|[? _]]; [|by split]. rewrite Hs1 in Hh. symmetry in Hh. apply app_eq_nil in Hh as [Hh _].
    apply map_eq_nil in Hh. by split.
Qed.

(** The state of a stream in each mode, and what one cycle makes of it. *)
Lemma spin_cycle fuel n w g b n' w' g' sub :
  so_mode (opts n) = Spin -> subscriber n = Some sub ->
  cycle fuel ((n, w), g) = (Ok b, ((n', w'), g')) ->
  opts n' = opts n /\ subscriber n' = Some sub /\ got w' = got w ++ value n' /\ (b = false <-> value n' = []).
Proof.
  intros Hm Hs. unfold cycle. intros E. unfold mbind at 1 2 3 in E. simpl in E. rewrite Hm, Hs in E.
  inv_bind E. inv_bind E. destruct s as [[n1 w1] g1]. destruct s0 as [[n2 w2] g2].
  assert (H1 : n1 = set_value [] (wrap_u64 (cycles n + 1)) n /\ got w1 = got w).
  { destruct (_ =? 0) in E0; [|by injection E0 as _ <- <- <-]. unfold mbind, world in E0. simpl in E0.
    pose proof (got_update sub w) as Hu. destruct (sub_update_connections sub w) as [x wx]. by injection E0 as _ <- <- <-. }
  destruct H1 as [-> H1]. unfold in_world in E1. simpl in E1. destruct (receive_into fuel sub w1) as [x wx] eqn:Er.
  injection E1 as -> <- <- <-. apply receive_into_got in Er. unfold mbind, ticked in E. simpl in E.
  injection E as <- <- <- <-. simpl. split_and!; [done|done|by rewrite Er, H1|]. by destruct a0.
Qed.

Lemma channel_cycle fuel n w g b n' w' g' rx vs tl :
  so_mode (opts n) <> Spin -> ends tl -> receiver n = Some rx -> holds rx vs tl ->
  cycle fuel ((n, w), g) = (Ok b, ((n', w'), g')) ->
  opts n' = opts n /\ (b = false <-> value n' = []) /\
  exists rest rx', vs = value n' ++ rest /\ receiver n' = Some rx' /\ holds rx' rest tl.
Proof.
  intros Hm Ht Hr Hh. unfold cycle. intros E. unfold mbind at 1 2 3 in E. simpl in E. rewrite Hr in E.
  assert (E' : (do! drain fuel rx in ticked) (set_value [] (wrap_u64 (cycles n + 1)) n, w, g) = (Ok b, (n', w', g')))
    by (by destruct (so_mode (opts n))). clear E. inv_bind E'. destruct s as [[n1 w1] g1]. destruct a.
  destruct (drain_holds _ _ (set_value [] (wrap_u64 (cycles n + 1)) n) _ _ _ _ _ _ _ _ Ht Hh Hr E) as (taken & rest & rx' & -> & Hv & Ho & Hr' & Hh').
  unfold ticked, mbind in E'. simpl in E'. injection E' as <- <- <- <-. simpl in Hv. rewrite Hv. split_and!; [done|by destruct taken|].
  by exists rest, rx'.
Qed.

(** In every mode the stream emits the samples once and in order, in non-empty
    bursts. Spinning, what it has emitted is what it has received from the port, with
    nothing left behind in a cycle; over the channel of a thread, what it has emitted
    is what the thread put in first, and the rest is still in the channel. *)
Theorem iox_bursts_in_order fuel (cs : list (GraphState * unit)) n w out n' w' :
  drive (fun _ => cycle fuel) (fun s : Node * W => peek_ref s.1) cs (n, w) = (Ok out, (n', w')) ->
  match so_mode (opts n) with
  | Spin => forall sub, subscriber n = Some sub ->
      got w' = got w ++ concat (map snd out) /\ Forall (fun e => e.2 <> []) out
  | _ => forall rx vs tl, receiver n = Some rx -> ends tl -> holds rx vs tl ->
      exists rest rx', vs = concat (map snd out) ++ rest /\ receiver n' = Some rx' /\ holds rx' rest tl /\
        Forall (fun e => e.2 <> []) out
  end.
Proof.
  assert (Hone : forall (c : GraphState * unit) n w r n1 w1, emit (fun _ => cycle fuel) (fun s : Node * W => peek_ref s.1) c (n, w) = (Ok r, (n1, w1)) ->
    exists b g, cycle fuel ((n, w), c.1) = (Ok b, ((n1, w1), g)) /\ r = if b then [(time c.1, value n1)] else []).
  { intros c n0 w0 r n1 w1. unfold emit. destruct (cycle fuel (n0, w0, c.1)) as [rb [s1 g1]].
    destruct rb as [[]| | |]; intros [= <- ->]; by eexists _, _. }
  assert (Hout : forall b (n1 : Node) (t : Z), (b = false <-> value n1 = []) ->
    let r : list (Z * list T) := if b : bool then [(t, value n1)] else [] in
    concat (map snd r) = value n1 /\ Forall (fun e => e.2 <> []) r).
  { intros [] n1 t Hb; simpl; [rewrite app_nil_r; split; [done|]|by rewrite (proj1 Hb)]. repeat constructor. simpl. naive_solver. }
  induction cs as [|c cs IH] in n, w, out |- *; cbn [drive]; intros E.
  - injection E as <- <- <-. destruct (so_mode (opts n)); [by intros; rewrite app_nil_r|intros rx vs tl Hr _ Hh; by exists vs, rx..].
  - inv_bind E. inv_bind E. injection E as <- ->. destruct s as [n1 w1]. apply Hone in E0 as (b & g & Hc & ->).
    apply IH in E1. rewrite map_app, concat_app. destruct (so_mode (opts n)) eqn:Hm.
    { intros sub Hs. destruct (spin_cycle _ _ _ _ _ _ _ _ _ Hm Hs Hc) as (Ho & Hs1 & Hg & Hb).
      rewrite Ho, Hm in E1. destruct (E1 sub Hs1) as [E2 F]. destruct (Hout b n1 (time c.1) Hb) as [-> F1].
      split; [by rewrite E2, Hg, <-app_assoc|by apply Forall_app]. }
    all: intros rx vs tl Hr Ht Hh; destruct (channel_cycle fuel n w c.1 b n1 w1 g rx vs tl) as (Ho & Hb & rest & rx' & -> & Hr1 & Hh1); [congruence|done..|];
      rewrite Ho, Hm in E1; destruct (E1 rx' rest tl Hr1 Ht Hh1) as (rest2 & rx2 & -> & Hr2 & Hh2 & F);
      destruct (Hout b n1 (time c.1) Hb) as [-> F1]; exists rest2, rx2; by rewrite app_assoc, Forall_app.
Qed.
End stream.

(** ** The publisher *)

(** The samples sent, and how often subscribers were woken. *)
Class Sent (W N Svc Ev Lst Set_ Ntf Pub Smp T : Type)
    `{!IoxService W N Svc Ev, !IoxPublisher W Svc Pub Smp T, !IoxEvents W Ev Lst Set_ Ntf} := {
  sent : W -> list T;
  woken : W -> nat;
  sent_send s d w : let '(r, w') := send_sample s d w in
    sent w' = match r with None => sent w ++ [d] | Some _ => sent w end /\ woken w' = woken w;
  sent_notify n w : let '(r, w') := notify_event n w in
    sent w' = sent w /\ woken w' = match r with None => Datatypes.S (woken w) | Some _ => woken w end;
  sent_loan p l w : sent (loan p l w).2 = sent w /\ woken (loan p l w).2 = woken w;
  sent_update p w : sent (pub_update_connections p w).2 = sent w /\ woken (pub_update_connections p w).2 = woken w }.

Section publisher.
Context {W N Svc Ev Lst Set_ Ntf Pub Smp T : Type} `{Sent W N Svc Ev Lst Set_ Ntf Pub Smp T}.
Context (size : T -> option Z).
Import Iceoryx2Publisher.
Implicit Types (w : W) (burst : list T) (n : Iceoryx2Publisher N Ntf Pub) (g : GraphState).

Lemma send_all_sent p burst any w r w' : send_all size p burst any w = (r, w') ->
  woken w' = woken w /\ exists k, sent w' = sent w ++ take k burst /\
    (forall b, r = Ok b -> k = length burst /\ (b = true <-> any = true \/ burst <> [])).
Proof.
  induction burst as [|d burst IH] in any, w |- *; cbn [send_all].
  - intros [= <- <-]. split; [done|]. exists 0%nat. rewrite app_nil_r. split; [done|]. intros b [= <-]. split; [done|]. naive_solver.
  - unfold mbind at 1, io_or at 1, io. unfold mbind at 1. pose proof (sent_loan p (size d) w) as Hl.
    destruct (loan p (size d) w) as [x w1]. simpl in Hl. destruct Hl as [Hl Hl'].
    destruct x as [e|s]; [intros [= <- <-]; split; [done|]; exists 0%nat; by rewrite app_nil_r|].
    cbn [mreturn]. unfold mbind at 1, io_or_ at 1, io. unfold mbind at 1. pose proof (sent_send s d w1) as Hs.
    destruct (send_sample s d w1) as [x w2]. destruct Hs as [Hs Hs'].
    destruct x as [e|]; [intros [= <- <-]; split; [congruence|]; exists 0%nat; rewrite app_nil_r; split; [congruence|done]|].
    cbn [mreturn]. intros E. apply IH in E as (Hw & k & Hk & Hb). split; [congruence|]. exists (S k). split.
    + by rewrite Hk, Hs, Hl, <-app_assoc.
    + intros b ->. destruct (Hb b eq_refl) as [-> Hb']. split; [done|]. naive_solver.
Qed.

(** A cycle of the publisher sends the burst in order, up to the first failure; when it
    sent anything and nothing failed, it wakes the subscribers once. *)
Theorem iox_publisher_sends burst n w g r n' w' g' p : publisher n = Some p ->
  cycle size burst ((n, w), g) = (r, ((n', w'), g')) ->
  exists k, sent w' = sent w ++ take k burst /\
    (forall b, r = Ok b -> k = length burst /\ (b = true <-> burst <> []) /\
      woken w' = (woken w + if b && bool_decide (is_Some (notifier n)) then 1 else 0)%nat).
Proof.
  intros Hp. unfold cycle, mbind at 1. simpl. rewrite Hp. unfold mbind at 1. simpl. unfold mbind at 1.
  destruct (refresh p _ _) as [rc [[n1 w1] g1]] eqn:E1. unfold refresh in E1.
  assert (Hn : sent w1 = sent w /\ woken w1 = woken w /\ (forall u, rc = Ok u -> n1 = set_cycles (wrap_u64 (cycles n + 1)) n)).
  { destruct (_ =? 0); [|by injection E1 as <- <- <- <-]. unfold try_, mbind, world in E1. simpl in E1.
    pose proof (sent_update p w) as [Hu Hu']. destruct (pub_update_connections p w) as [x wx].
    destruct x; injection E1 as <- <- <- <-; by split_and!. }
  destruct Hn as (Hs1 & Hw1 & Hn1).
  destruct rc as [[]|e|why|]; [|intros [= <- <- <- <-]; exists 0%nat; rewrite app_nil_r; by split..].
  unfold mbind at 1, in_world at 1. simpl. destruct (send_all size p burst false w1) as [rs w2] eqn:E2.
  apply send_all_sent in E2 as (Hw2 & k & Hk & Hb).
  destruct rs as [sent_any|e|why|]; [|intros [= <- <- <- <-]; exists k; by rewrite Hk, Hs1..].
  destruct (Hb sent_any eq_refl) as [-> Hany]. rewrite take_ge in Hk by done.
  assert (Hb' : sent_any = true <-> burst <> []) by naive_solver. clear Hany Hb.
  intros E. exists (length burst). rewrite take_ge by done. destruct (notifier n) as [nt|].
  - rewrite bool_decide_true by done. destruct sent_any.
    + unfold mbind, in_world, notify, io_or_, io in E. unfold mbind in E. simpl in E. pose proof (sent_notify nt w2) as Hnt.
      destruct (notify_event nt w2) as [x w3]. destruct Hnt as [Hn3 Hw3].
      destruct x; injection E as <- <- <- <-; (split; [congruence|]); intros b [= <-]. split_and!; [done|exact Hb'|simpl; lia].
    + injection E as <- <- <- <-. split; [congruence|]. intros b [= <-]. split_and!; [done|exact Hb'|simpl; lia].
  - rewrite bool_decide_false by (by intros []). injection E as <- <- <- <-. split; [congruence|].
    intros b [= <-]. split_and!; [done|exact Hb'|rewrite andb_false_r; lia].
Qed.
End publisher.

(** ** A scripted library *)

(** What the next looks at the port find, what was received, whether the thread is
    still wanted, whether nodes can be created. *)
Record Lib := mkLib { l_next : list (option ascii); l_got : list ascii; l_runs : list bool; l_works : bool }.

#[export] Instance lib_service : IoxService Lib unit unit unit := {
  create_node _ w := (if l_works w then inr tt else inl "no shared memory", w);
  parse_name _ := None;
  open_pubsub _ _ _ _ w := (inr tt, w);
  open_event _ _ w := (inr tt, w);
  sleep _ w := w }.
#[export] Instance lib_subscriber : IoxSubscriber Lib unit unit ascii := {
  create_sub _ _ w := (inr tt, w);
  sub_update_connections _ w := (None, w);
  receive _ w :=
    match l_next w with
    | [] => (inr None, w)
    | None :: l => (inr None, mkLib l (l_got w) (l_runs w) (l_works w))
    | Some v :: l => (inr (Some v), mkLib l (l_got w ++ [v]) (l_runs w) (l_works w))
    end }.
#[export] Instance lib_events : IoxEvents Lib unit unit unit unit := {
  create_listener _ w := (inr tt, w);
  create_waitset _ w := (inr tt, w);
  attach_notification _ _ w := (None, w);
  wait_once _ _ w := (None, w);
  try_wait_one _ w := (inr false, w);
  create_notifier _ w := (inr tt, w);
  notify_event _ w := (None, w) }.
#[export] Instance lib_running : Running Lib := fun w =>
  (hd false (l_runs w), mkLib (l_next w) (l_got w) (tl (l_runs w)) (l_works w)).

#[export] Program Instance lib_samples : Samples Lib unit unit unit unit unit unit unit ascii := { got := l_got }.
Next Obligation. intros s w. simpl. by destruct (l_next w) as [|[v|] l]. Qed.
Solve Obligations with done.

#[export] Instance lib_threads : Threads (string * Iceoryx2SubOpts) (ChannelSender (list (Message ascii)) (list nat)) unit := {
  thread_spawn _ _ := tt;
  is_finished h := (false, h);
  join _ := Returned (Ok tt);
  raise_stop h := h }.

Abbreviation Sender := (ChannelSender (list (Message ascii)) (list nat)).
Definition new_sender : Sender := ChannelSender.new [] None.
Definition run_thread (mode : Iceoryx2Mode) (w : Lib) : Res unit * (Sender * Lib) :=
  run_subscriber_thread (N := unit) (Svc := unit) (Ev := unit) (Lst := unit) (Set_ := unit) (Ntf := unit) (Sub := unit)
    10 10 "prices" (mkSubOpts Ipc mode 5) (new_sender, w).

Lemma list_open (m : Message ascii) (k : list (Message ascii)) : (kanal_send m k).1 = true.
Proof. done. Qed.

(** A run that ends well, and one whose node cannot be created. *)
Lemma iox_thread_messages_witness :
  let w := mkLib [Some "a"; None; Some "b"; Some "c"]%char [] [true; true] in
  put (run_thread Threaded (w true)).2.1 =
    map Message.RealtimeValue ["a"; "b"; "c"]%char ++ [Message.EndOfStream] /\
  (run_thread Threaded (w false)).1 = Err (Msg "Failed to create node: no shared memory") /\
  exists vs, l_got (run_thread Threaded (w false)).2.2 = vs /\
    put (run_thread Threaded (w false)).2.1 = map Message.RealtimeValue vs.
Proof.
  split; [by vm_compute|]. split; [by vm_compute|].
  pose (w := mkLib [Some "a"; None; Some "b"; Some "c"]%char [] [true; true] false).
  destruct (iox_thread_messages (W := Lib) (N := unit) (Svc := unit) (Ev := unit) (Lst := unit) (Set_ := unit) (Ntf := unit)
    (Sub := unit) (T := ascii) (K := list (Message ascii)) (X := list nat) list_open 10 10 "prices" (mkSubOpts Ipc Threaded 5) (new_sender, w)
    (run_thread Threaded w).1 (run_thread Threaded w).2) as (vs & Hg & Hp).
  - by eexists.
  - change ((run_thread Threaded w).1, (run_thread Threaded w).2) with (run_thread Threaded w). reflexivity.
  - exists vs. split; [exact Hg|]. revert Hp. change ((run_thread Threaded w).1) with (Err (A := unit) (Msg "Failed to create node: no shared memory")).
    rewrite app_nil_r. intros Hp. exact Hp.
Defined.

Abbreviation Stream := (Iceoryx2ReceiverStream unit unit ascii (Arrivals ascii) unit).
Definition threaded_stream (rx : Arrivals ascii) : Stream :=
  Iceoryx2ReceiverStream.set_receiver (ChannelReceiver.mk rx)
    (Iceoryx2ReceiverStream.new "prices" (mkSubOpts Ipc Signaled 5)).
Definition spinning_stream : Stream :=
  Iceoryx2ReceiverStream.set_port (tt, tt) (Iceoryx2ReceiverStream.new "prices" (mkSubOpts Ipc Spin 5)).
Definition three_cycles : list (GraphState * unit) :=
  map (fun t => (set_time (GraphState.new RealTime Forever 0) t, tt)) [10; 20; 30].
Abbreviation run_stream n w :=
  (drive (fun _ : unit => Iceoryx2ReceiverStream.cycle (Svc := unit) 10)
    (fun s : Stream * Lib => Iceoryx2ReceiverStream.peek_ref s.1) three_cycles (n, w)).

(** The same samples over a channel and by spinning. *)
Definition sample_rx : Arrivals ascii :=
  mkArrivals (map Message.RealtimeValue ["a"; "b"; "c"]%char ++ [Message.EndOfStream]) [true; false; false; true; true].
Definition sample_lib : Lib := mkLib [Some "a"; None; None; Some "b"; Some "c"]%char [] [] true.
Definition bursts : list (Z * list ascii) := [(10, ["a"]); (30, ["b"; "c"])]%char.

Lemma channel_run : exists n' w', run_stream (threaded_stream sample_rx) sample_lib = (Ok bursts, (n', w')).
Proof. eexists _, _. vm_compute. reflexivity. Qed.
Lemma spinning_run : exists n' w', run_stream spinning_stream sample_lib = (Ok bursts, (n', w')).
Proof. eexists _, _. vm_compute. reflexivity. Qed.

Lemma iox_bursts_in_order_witness :
  (exists n' w', run_stream spinning_stream sample_lib = (Ok bursts, (n', w')) /\ got w' = got sample_lib ++ concat (map snd bursts)) /\
  exists n' w' rest, run_stream (threaded_stream sample_rx) sample_lib = (Ok bursts, (n', w')) /\
    ["a"; "b"; "c"]%char = concat (map snd bursts) ++ rest.
Proof.
  split.
  - destruct spinning_run as (n' & w' & E). exists n', w'.
    destruct (iox_bursts_in_order 10 three_cycles _ _ _ _ _ E tt eq_refl) as [Hg _]. split; [exact E|exact Hg].
  - destruct channel_run as (n' & w' & E).
    destruct (iox_bursts_in_order 10 three_cycles _ _ _ _ _ E (ChannelReceiver.mk sample_rx)
      ["a"; "b"; "c"]%char [Message.EndOfStream]) as (rest & rx' & Hv & _); [done|by right|by left|].
    exists n', w', rest. split; [exact E|exact Hv].
Defined.
