(* ===== verification/FixThread.v ===== *)
(** * The FIX adapter's threaded source and its factories:
      [wingfoil/src/adapters/fix/mod.rs]

    A thread connects or accepts, runs a session, and starts again after a
    disconnect until the graph has stopped; its node is a channel receiver. The
    thread's data are the sending end of the channel and a world [W] of the class
    [FixNet]: the network before a socket exists, the flag and the socket cell it
    shares with the node, the clock. Sockets are [V], or [T] behind TLS. [rounds]
    bounds the connections, [fuel] the reads of one. *)
From S2P Require Import Prelude NanoTime TimeQueue GraphState NodeCalls Transforms Channel ChannelNodes NodeWorld Fix FixNodes.

Definition INJECT_QUEUE_CAPACITY : Z := 1024.
(** Milliseconds. *)
Definition RECONNECT_DELAY : Z := 500.

Inductive FixPollMode := AlwaysSpin | Threaded.

(** [impl Display for SendError]. *)
Definition SendError_fmt (e : SendError) : string :=
  match e with
  | QueueFull => "FIX send queue full (1024 messages)"
  | Closed => "FIX send channel closed"
  end.

Definition FixEvent_default : FixEvent := Data FixMessage_default.

(** ** The environment *)

(** The receiving end of the inject queue, as the thread sees it. *)
Class InjectReceiver (W : Type) := inject_try_recv : W -> option FixMessage * W.

(** [attempts] gives the outcomes of the connections tried from now on, [store_socket]
    writes the cell (a poisoned lock panics), [pause] sleeps for milliseconds. *)
Class FixNet (W L V : Type) := {
  stop_requested : W -> bool * W;
  attempts : W -> (nat -> Res V) * W;
  bind_listener : M W L;
  set_blocking : M V unit;
  try_clone : V -> Res V * V;
  set_read_timeout : V -> V;
  store_socket : option V -> M W unit;
  pause : Z -> W -> W }.

(** The TLS library: the default client configuration over the Mozilla roots, a
    valid server name, a connection, and the stream of the two. *)
Class Tls (V T : Type) := {
  tls_config : Type; tls_name : Type; tls_connection : Type;
  client_config : Res tls_config;
  server_name : bytes -> option tls_name;
  client_connection : tls_config -> tls_name -> Res tls_connection;
  stream_owned : tls_connection -> V -> T }.

Definition invalid_server_name : Error := Msg "invalid TLS server name".

Definition res_bind {A B} (r : Res A) (k : A -> Res B) : Res B :=
  match r with Ok a => k a | Err e => Err e | Panic w => Panic w | OutOfFuel => OutOfFuel end.

Definition tls_connect {V T} `{Tls V T} (host : bytes) (stream : V) : Res T :=
  res_bind client_config (fun config =>
    match server_name host with
    | None => Err invalid_server_name
    | Some name => res_bind (client_connection config name) (fun conn => Ok (stream_owned conn stream))
    end).

(** ** The thread *)

(** What the closure captures. *)
Record FixConfig := mkConfig {
  host : bytes; port : Z; sender_id : bytes; target_id : bytes;
  cfg_logon : FixLogon; tls : bool; is_acceptor : bool }.

Section thread.
Context {K X W L V T : Type}.
Context `{KanalSender K FixEvent, ReadyChannel X, InjectReceiver W, FixNet W L V}.
Context `{Wire V, Wire T, Listener L V, Tls V T}.
Abbreviation Thread A := (M (ChannelSender K X * W) A).

#[export] Instance thread_channel : EventChannel (ChannelSender K X * W) := {
  send_event e s :=
    let '(r, c) := ChannelSender.send_message (Message.RealtimeValue e) s.1 in
    (match r with SendOk => true | SendErr _ => false end, (c, s.2));
  try_recv s := let '(m, w) := inject_try_recv s.2 in (m, (s.1, w)) }.

Definition send_status (status : FixSessionStatus) : Thread bool := fun s =>
  let '(ok, s) := send_event (Status status) s in (Ok ok, s).

(** [loop { match listener.accept() ... }]. *)
Fixpoint accept_loop (fuel : nat) (listener : L) : Thread V :=
  match fuel with
  | O => mstuck
  | S fuel' =>
    let '(r, listener) := accept listener in
    match r with
    | Accepted s => let '(r, s) := set_blocking s in do! mlift r in mreturn s
    | NoneYet =>
      let! stop := on_world stop_requested in
      if stop : bool then mfail (Msg "stop requested")
      else do! run_in_world (mmodify (pause 50)) in accept_loop fuel' listener
    | AcceptError e => mfail e
    end
  end.

(** [sock_result]. *)
Definition obtain_socket (fuel : nat) (is_acceptor : bool) : Thread V :=
  if is_acceptor then
    let! listener := run_in_world bind_listener in
    let '(r, listener) := listener_nonblocking listener in
    do! mlift r in
    accept_loop fuel listener
  else
    let! attempt := on_world attempts in
    mlift (connect_with_retry attempt).

(** An error before the session: report it; only an acceptor goes on, and only
    while the graph listens. *)
Definition report (is_acceptor : bool) (e : Error) : Thread bool :=
  let! ok := send_status (StatusError e) in mreturn (ok && is_acceptor).

Definition in_session {S} `{Wire S} (fuel : nat) (cfg : FixConfig) (sock : S) : Thread bool := fun s =>
  let session := FixSession.new_with_logon (sender_id cfg) (target_id cfg) (cfg_logon cfg) in
  let '(r, (_, s)) := run_fix_session fuel sock session (is_acceptor cfg) s in (r, s).

(** [still_open], or the error of the TLS set-up. *)
Definition run_socket (fuel : nat) (cfg : FixConfig) (sock : V) : Thread (Error + bool) :=
  let sock := set_read_timeout sock in
  if tls cfg then
    match tls_connect (host cfg) sock with
    | Ok tls_stream => let! open := in_session fuel cfg tls_stream in mreturn (inr open)
    | Err e => mreturn (inl e)
    | Panic w => mpanic w
    | OutOfFuel => mstuck
    end
  else let! open := in_session fuel cfg sock in mreturn (inr open).

(** After the session: whether to connect again. *)
Definition after_session (is_acceptor still_open : bool) : Thread bool :=
  do! run_in_world (store_socket None) in
  if still_open then
    let! ok := send_status Disconnected in
    if ok : bool then
      do! (if is_acceptor then mreturn tt else run_in_world (mmodify (pause RECONNECT_DELAY))) in
      mreturn true
    else mreturn false
  else mreturn false.

Definition on_socket (fuel : nat) (cfg : FixConfig) (sock : V) : Thread bool :=
  let '(r, sock) := try_clone sock in
  match r with
  | Ok clone =>
    do! run_in_world (store_socket (Some clone)) in
    let! outcome := run_socket fuel cfg sock in
    match outcome with
    | inl e => report (is_acceptor cfg) e
    | inr still_open => after_session (is_acceptor cfg) still_open
    end
  | Err e => report (is_acceptor cfg) e
  | Panic w => mpanic w
  | OutOfFuel => mstuck
  end.

(** One round of the loop: whether it goes on. *)
Definition thread_round (fuel : nat) (cfg : FixConfig) : Thread bool :=
  let! stop := on_world stop_requested in
  if stop : bool then mreturn false
  else
    let! sock_result := mcatch (obtain_socket fuel (is_acceptor cfg)) in
    match sock_result with
    | Ok sock => on_socket fuel cfg sock
    | Err e =>
      let! again := report (is_acceptor cfg) e in
      if again : bool then do! run_in_world (mmodify (pause 100)) in mreturn true
      else mreturn false
    | Panic w => mpanic w
    | OutOfFuel => mstuck
    end.

Fixpoint thread_loop (rounds fuel : nat) (cfg : FixConfig) : Thread unit :=
  match rounds with
  | O => mstuck
  | S rounds' =>
    let! again := thread_round fuel cfg in
    if again : bool then thread_loop rounds' fuel cfg else mreturn tt
  end.

(** The closure the node spawns. *)
Definition fix_thread (rounds fuel : nat) (cfg : FixConfig) : Thread unit :=
  do! thread_loop rounds fuel cfg in
  post_ignoring Message.EndOfStream.
End thread.

(** ** The node *)

(** What the node can do to the running thread besides joining it: take the
    socket out of their shared cell, if there is one, and shut it down (a
    poisoned lock panics). *)
Class LiveSocket (H : Type) := shutdown_live : H -> Res unit * H.

Module FixThreadedSource.
Section node.
Context {K R X NC I H : Type}.
Context `{KanalReceiver R FixEvent, NotifierChannel NC X, ReadyChannel X}.
Context `{Threads (FixConfig * I) (ChannelSender K X) H, LiveSocket H}.
Abbreviation Inner := (ChannelReceiverStream R NC FixEvent).

(** [socket_arc] tells whether the shared cell is there; [inject] are the two ends
    of the inject queue, the second until the thread takes it. *)
Record FixThreadedSource := mk {
  config : FixConfig; inner : Inner; chan_sender : option (ChannelSender K X);
  thread : option H; socket_arc : bool; stop_flag : bool;
  inject_sender : I; inject_receiver : option I }.

(** [channel] and [inject] are what [channel_pair] and [kanal::bounded] return. *)
Definition build (cfg : FixConfig) (channel : ChannelSender K X * ChannelReceiver R)
    (inject : Z -> I * I) : FixThreadedSource :=
  let '(tx, rx) := inject INJECT_QUEUE_CAPACITY in
  mk cfg (ChannelReceiverStream.new channel.2 None None) (Some channel.1) None false false tx (Some rx).

Definition new_initiator (host : bytes) (port : Z) (sender target : bytes)
    (channel : ChannelSender K X * ChannelReceiver R) (inject : Z -> I * I) : FixThreadedSource :=
  build (mkConfig host port sender target LogonNone false false) channel inject.
Definition new_initiator_tls (host : bytes) (port : Z) (sender target : bytes) (logon : FixLogon)
    (channel : ChannelSender K X * ChannelReceiver R) (inject : Z -> I * I) : FixThreadedSource :=
  build (mkConfig host port sender target logon true false) channel inject.
Definition new_acceptor (port : Z) (sender target : bytes)
    (channel : ChannelSender K X * ChannelReceiver R) (inject : Z -> I * I) : FixThreadedSource :=
  build (mkConfig (str "0.0.0.0") port sender target LogonNone false true) channel inject.

Definition set_inner (i : Inner) (self : FixThreadedSource) : FixThreadedSource :=
  mk (config self) i (chan_sender self) (thread self) (socket_arc self) (stop_flag self)
    (inject_sender self) (inject_receiver self).
Definition set_chan_sender (c : option (ChannelSender K X)) (self : FixThreadedSource) : FixThreadedSource :=
  mk (config self) (inner self) c (thread self) (socket_arc self) (stop_flag self)
    (inject_sender self) (inject_receiver self).
Definition set_thread (t : option H) (self : FixThreadedSource) : FixThreadedSource :=
  mk (config self) (inner self) (chan_sender self) t (socket_arc self) (stop_flag self)
    (inject_sender self) (inject_receiver self).
Definition set_socket_arc (b : bool) (self : FixThreadedSource) : FixThreadedSource :=
  mk (config self) (inner self) (chan_sender self) (thread self) b (stop_flag self)
    (inject_sender self) (inject_receiver self).
Definition set_stop_flag (self : FixThreadedSource) : FixThreadedSource :=
  mk (config self) (inner self) (chan_sender self) (raise_stop <$> thread self) (socket_arc self) true
    (inject_sender self) (inject_receiver self).
Definition take_inject (self : FixThreadedSource) : FixThreadedSource :=
  mk (config self) (inner self) (chan_sender self) (thread self) (socket_arc self) (stop_flag self)
    (inject_sender self) None.

Definition modify_self (f : FixThreadedSource -> FixThreadedSource) : NodeM FixThreadedSource unit :=
  let! self := get_self in put_self (f self).

(** A call on the inner node, whose [start] and [stop] are the trait's empty ones. *)
Definition on_inner {A} (m : NodeM Inner A) : NodeM FixThreadedSource A := fun s =>
  let '(r, (i, g)) := m (inner s.1, s.2) in (r, (set_inner i s.1, g)).

Definition upstreams (self : FixThreadedSource) : UpStreams := ChannelReceiverStream.upstreams (inner self).

Definition start : NodeM FixThreadedSource unit :=
  let! g := graph in
  match run_mode g with
  | RealTime => mreturn tt
  | HistoricalFrom _ => mfail realtime_only
  end.

Definition already_set_up : Error := Msg "FixThreadedSource: already set up".

(** [x] is the graph's ready channel. *)
Definition setup (x : X) : NodeM FixThreadedSource unit :=
  let! self := get_self in
  match chan_sender self with
  | None => mfail already_set_up
  | Some sender =>
    do! put_self (set_chan_sender None self) in
    let! g := graph in
    let! sender := (match run_mode g with
      | RealTime => let! n := call (ready_notifier x) in mreturn (ChannelSender.set_notifier n sender)
      | HistoricalFrom _ => mreturn sender
      end) in
    do! modify_self (set_socket_arc true) in
    let! self := get_self in
    match inject_receiver self with
    | None => mfail already_set_up
    | Some inject_rx =>
      do! put_self (take_inject self) in
      let handle := thread_spawn (config self, inject_rx) sender in
      do! modify_self (set_thread (Some (if stop_flag self then raise_stop handle else handle))) in
      on_inner (ChannelReceiverStream.setup x)
    end
  end.

Definition cycle (fuel : nat) : NodeM FixThreadedSource bool := on_inner (ChannelReceiverStream.cycle fuel).

(** The thread's result, or its panic, is dropped. *)
Definition stop : NodeM FixThreadedSource unit :=
  do! modify_self set_stop_flag in
  let! self := get_self in
  do! (match thread self with
    | Some handle =>
      if socket_arc self then
        let '(r, handle) := shutdown_live handle in
        do! put_self (set_socket_arc false (set_thread (Some handle) self)) in
        mlift r
      else mreturn tt
    | None => modify_self (set_socket_arc false)
    end) in
  let! self := get_self in
  match thread self with
  | Some handle => let _ := join handle in put_self (set_thread None self)
  | None => mreturn tt
  end.

Definition teardown : NodeM FixThreadedSource unit := on_inner ChannelReceiverStream.teardown.
End node.
Arguments FixThreadedSource : clear implicits.
End FixThreadedSource.
Abbreviation FixThreadedSource := FixThreadedSource.FixThreadedSource.

(** ** Factories

    A factory allocates its source and the two nodes [split_events] puts on it;
    here they are given the source's address. *)

#[export] Instance burst_element {A} : Element (list A) := [].

Definition split_events (events : addr)
  : MapFilterStream.MapFilterStream (list FixEvent) (list FixMessage) *
    MapFilterStream.MapFilterStream (list FixEvent) (list FixSessionStatus) :=
  (MapFilterStream.new events data_of, MapFilterStream.new events status_of).

Section factories.
Context {K R X NC I L V : Type}.
Context (channel : ChannelSender K X * ChannelReceiver R) (inject : Z -> I * I).
Abbreviation Source := (FixThreadedSource K R X NC I).

(** The source of [fix_connect] and of [fix_accept]. *)
Definition fix_connect {H} (host : bytes) (port : Z) (sender_comp_id target_comp_id : bytes)
    (mode : FixPollMode) : FixSpinSource.FixSpinSource V + Source H :=
  match mode with
  | AlwaysSpin => inl (FixSpinSource.new sender_comp_id target_comp_id)
  | Threaded => inr (FixThreadedSource.new_initiator host port sender_comp_id target_comp_id channel inject)
  end.

Definition fix_accept {H} (port : Z) (sender_comp_id target_comp_id : bytes) (mode : FixPollMode)
  : FixAcceptorSpin.FixAcceptorSpin L V + Source H :=
  match mode with
  | AlwaysSpin => inl (FixAcceptorSpin.new sender_comp_id target_comp_id)
  | Threaded => inr (FixThreadedSource.new_acceptor port sender_comp_id target_comp_id channel inject)
  end.

Record FixConnection := mkConnection { data : addr; status : addr; sender : I }.

(** The source, and the connection over the addresses of its two streams. *)
Definition fix_connect_tls_logon {H} (host : bytes) (port : Z) (sender_comp_id target_comp_id : bytes)
    (logon : FixLogon) (data status : addr) : Source H * FixConnection :=
  let src := FixThreadedSource.new_initiator_tls host port sender_comp_id target_comp_id logon channel inject in
  (src, mkConnection data status (FixThreadedSource.inject_sender src)).

Definition fix_connect_tls {H} (host : bytes) (port : Z) (sender_comp_id target_comp_id : bytes)
    (password : option bytes) (data status : addr) : Source H * FixConnection :=
  fix_connect_tls_logon host port sender_comp_id target_comp_id (FixLogon_from password) data status.

Definition fix_sub (self : FixConnection) (symbols : addr) : FixSubNode.FixSubNode * I :=
  (FixSubNode.new (status self) symbols, sender self).

Definition connection_send `{InjectQueue I} (m : FixMessage) (self : FixConnection)
  : option SendError * FixConnection :=
  let '(e, s) := sender_send m (sender self) in (e, mkConnection (data self) (status self) s).

Definition fix_send (src : addr) (sender_comp_id target_comp_id : bytes) : FixSenderNode.FixSenderNode V :=
  FixSenderNode.mk src (FixSession.new sender_comp_id target_comp_id) None [].
End factories.
Arguments FixConnection : clear implicits.
