(* ===== verification/FixThreadProps.v ===== *)
(** * What the threaded source of the FIX adapter reports, and when its thread ends *)
From S2P Require Import Prelude NanoTime TimeQueue GraphState NodeCalls Transforms Channel ChannelNodes NodeWorld Fix FixNodes FixProps FixThread.

(** ** The order of the reports *)

(** Between sessions, in one, or over. *)
Inductive Phase := Idle | InSession | Over.

Definition phase_step (p : Phase) (m : Message FixEvent) : option Phase :=
  match p, m with
  | Idle, Message.RealtimeValue (Status LoggingIn) => Some InSession
  | Idle, Message.RealtimeValue (Status (StatusError _)) => Some Idle
  | InSession, Message.RealtimeValue (Status LoggingIn) => None
  | InSession, Message.RealtimeValue (Status Disconnected) => Some Idle
  | InSession, Message.RealtimeValue _ => Some InSession
  | Idle, Message.EndOfStream | InSession, Message.EndOfStream => Some Over
  | _, _ => None
  end.

Definition scan (p : Phase) (ms : list (Message FixEvent)) : option Phase :=
  foldl (fun q m => q ≫= (fun q => phase_step q m)) (Some p) ms.

Lemma scan_app p q ms ms' : scan p ms = Some q -> scan p (ms ++ ms') = scan q ms'.
Proof. unfold scan. rewrite foldl_app. by intros ->. Qed.

(** What a session's dispatch pushes. *)
Definition in_session_event (e : FixEvent) : Prop :=
  match e with Status LoggingIn | Status Disconnected => False | _ => True end.

Section dispatch.
Context {W : Type} `{Wire W}.

Lemma on_session_events {A} (m : M (FixSession * W) A) s r s' :
  on_session m s = (r, s') -> s'.2 = s.2.
Proof. unfold on_session. destruct (m s.1) as [x sw]. by intros [= <- <-]. Qed.

Lemma handler_events (is_acceptor : bool) msg s r s' :
  (if is_acceptor then handle_acceptor msg else handle_initiator msg) s = (r, s') ->
  Forall in_session_event s.2 -> Forall in_session_event s'.2.
Proof.
  intros E Hs.
  destruct is_acceptor; unfold handle_acceptor, handle_initiator in E;
    repeat case_bool_decide; unfold mbind in E;
    repeat match type of E with
    | context [on_session ?m ?s] => destruct (on_session m s) as [[] ?] eqn:Ho; apply on_session_events in Ho
    end; unfold mreturn, push_event, mmodify in E; simplify_eq/=; rewrite ?Ho; try done;
    (apply Forall_app; split; [congruence|by repeat constructor]).
Qed.

Lemma drain_loop_events fuel is_acceptor s r s' :
  drain_loop fuel is_acceptor s = (r, s') ->
  Forall in_session_event (events s) -> Forall in_session_event (events s').
Proof.
  revert s. induction fuel as [|fuel IH]; intros s E Hs; simpl in E; [by simplify_eq|].
  destruct (find_message (parse_buf s)) as [[m n]|]; [|by simplify_eq].
  destruct (build_message (decode_fields m)) as [msg|]; [|by eapply IH].
  destruct (socket s) as [sock|]; [|by eapply IH].
  destruct ((if is_acceptor then handle_acceptor msg else handle_initiator msg) (session s, sock, events s))
    as [r1 [[se so] evs]] eqn:Eh.
  apply handler_events in Eh; [|done]. simpl in Eh.
  destruct r1 as [pass| | |]; [|by simplify_eq..].
  apply IH in E; [done|]. simpl. destruct pass; [|done]. apply Forall_app. by repeat constructor.
Qed.

Lemma drain_events is_acceptor s r s' :
  drain_parse_buf is_acceptor s = (r, s') ->
  Forall in_session_event (events s) -> Forall in_session_event (events s').
Proof.
  unfold drain_parse_buf. destruct (drain_loop _ is_acceptor s) as [r1 s1] eqn:E.
  intros E'. assert (s' = s1) as -> by (by destruct r1; simplify_eq). by eapply drain_loop_events.
Qed.
End dispatch.

Section order.
Context {K X W L V T : Type}.
Context `{Outbound K FixEvent, ReadyChannel X, InjectReceiver W, FixNet W L V}.
Context `{Wire V, Wire T, Listener L V, Tls V T}.
Abbreviation State := (ChannelSender K X * W)%type.

(** From phase [p] to phase [q], the channel only extended. *)
Definition moves (p q : Phase) : relation State := fun s s' =>
  exists ms, put s'.1 = put s.1 ++ ms /\ scan p ms = Some q.

Lemma moves_same p (s s' : State) : put s'.1 = put s.1 -> moves p p s s'.
Proof. exists []. by rewrite app_nil_r. Qed.
Lemma moves_refl p (s : State) : moves p p s s.
Proof. by apply moves_same. Qed.
Lemma moves_trans p q r (s1 s2 s3 : State) : moves p q s1 s2 -> moves q r s2 s3 -> moves p r s1 s3.
Proof.
  intros (ms & E & Hs) (ms' & E' & Hs'). exists (ms ++ ms').
  rewrite E', E, app_assoc. by rewrite (scan_app _ q).
Qed.

(** A send may be refused, and then changes nothing. *)
Lemma send_event_moves p q e (s s' : State) ok :
  phase_step p (Message.RealtimeValue e) = Some q -> send_event e s = (ok, s') ->
  moves p q s s' \/ ok = false /\ moves p p s s'.
Proof.
  intros Hp E. simpl in E. destruct (ChannelSender.send_message _ s.1) as [r c] eqn:Es.
  apply send_message_put in Es as [Ec|[-> Ec]]; simplify_eq.
  - left. exists [Message.RealtimeValue e]. by rewrite <-Ec.
  - right. split; [done|by apply moves_same].
Qed.

Lemma send_event_stays p e (s s' : State) ok :
  phase_step p (Message.RealtimeValue e) = Some p -> send_event e s = (ok, s') -> moves p p s s'.
Proof. intros Hp E. by destruct (send_event_moves p p e s s' ok Hp E) as [|[_ ?]]. Qed.

Lemma send_events_moves evs (s s' : State) ok :
  Forall in_session_event evs -> send_events evs s = (ok, s') -> moves InSession InSession s s'.
Proof.
  intros Hevs. revert s. induction Hevs as [|e evs He Hevs IH]; intros s E; cbn [send_events] in E.
  { simplify_eq. apply moves_refl. }
  destruct (send_event e s) as [ok1 s1] eqn:E1.
  apply (send_event_stays InSession) in E1; [|by destruct e as [|[]]].
  destruct ok1; [|by simplify_eq]. eapply moves_trans; [exact E1|by apply IH].
Qed.

Lemma try_recv_put (s s' : State) m : try_recv s = (m, s') -> put s'.1 = put s.1.
Proof. simpl. destruct (inject_try_recv s.2) as [m' w]. by intros [= <- <-]. Qed.

Lemma flush_inject_put {S} `{Wire S} fuel se (sock : S) (s : State) r se' sock' s' :
  flush_inject fuel se sock s = (r, (se', sock', s')) -> put s'.1 = put s.1.
Proof.
  revert se sock s. induction fuel as [|fuel IH]; intros se sock s E; cbn [flush_inject] in E; [by simplify_eq|].
  destruct (try_recv s) as [m s1] eqn:E1. apply try_recv_put in E1.
  destruct m as [msg|]; [|by simplify_eq].
  destruct (FixSession.send _ _ (se, sock)) as [[] [se1 sock1]]; [|by simplify_eq..].
  rewrite <-E1. by eapply IH.
Qed.

(** Whatever ends it, a session adds reports of the session. *)
Lemma session_loop_moves {S} `{Wire S} fuel acc se (sock : option S) buf (s : State) r se' s' :
  session_loop fuel acc se sock buf s = (r, (se', s')) -> moves InSession InSession s s'.
Proof.
  revert se sock buf s. induction fuel as [|fuel IH]; intros se sock buf s E; cbn [session_loop] in E.
  { simplify_eq. apply moves_refl. }
  destruct sock as [sock|]; [|simplify_eq; apply moves_refl].
  destruct (read sock) as [rd sock1].
  destruct (match rd with RData data => Some (Some data) | RWouldBlock | RTimedOut => Some None | _ => None end)
    as [data|]; [|simplify_eq; apply moves_refl].
  destruct (match data with Some _ => _ | None => _ end) as [rd1 d] eqn:Ed.
  assert (Forall in_session_event (events d)) as Hd.
  { destruct data as [data|]; [by eapply drain_events in Ed|by simplify_eq]. }
  destruct rd1; [|simplify_eq; apply moves_refl..].
  destruct (match socket d with Some _ => _ | None => _ end) as [rf [[se2 sock2] s2]] eqn:Ef.
  assert (put s2.1 = put s.1) as Hput.
  { destruct (socket d) as [sk|]; [|by simplify_eq].
    destruct (flush_inject fuel (session d) sk s) as [rf' [[se3 sk3] s3]] eqn:Ef'.
    apply flush_inject_put in Ef'. by simplify_eq. }
  apply (moves_same InSession) in Hput.
  destruct rf as [[]| | |]; [|by simplify_eq..].
  destruct (send_events (events d) s2) as [ok s3] eqn:Es.
  apply send_events_moves in Es; [|done]. eapply moves_trans; [exact Hput|].
  destruct ok; [|by simplify_eq]. eapply moves_trans; [exact Es|by eapply IH].
Qed.

(** Only a refused first report leaves a session unopened. *)
Lemma run_fix_session_moves {S} `{Wire S} fuel (sock : S) se acc (s : State) r se' s' :
  run_fix_session fuel sock se acc s = (r, (se', s')) ->
  moves Idle InSession s s' \/ r = Ok false /\ moves Idle Idle s s'.
Proof.
  unfold run_fix_session. destruct (send_event (Status LoggingIn) s) as [ok s1] eqn:E1.
  apply (send_event_moves Idle InSession) in E1; [|done]. intros E.
  destruct ok; [|simplify_eq; destruct E1 as [?|[_ ?]]; auto].
  destruct E1 as [E1|[? _]]; [|done]. left. eapply moves_trans; [exact E1|]. clear E1.
  destruct (if acc then _ else _) as [r1 [se1 sock1]].
  destruct r1; [by eapply session_loop_moves|..]; [|simplify_eq; apply moves_refl..].
  destruct (send_event (Status (StatusError e)) s1) as [ok s2] eqn:E2.
  apply (send_event_stays InSession) in E2; [|done]. by simplify_eq.
Qed.

(** [runs p m P]: from phase [p], [m] extends the channel in order, does not end
    it, and leaves a phase related to its answer. *)
Definition runs (p : Phase) {A} (m : M State A) (P : A -> Phase -> Prop) : Prop :=
  forall s r s', m s = (r, s') ->
  exists q, moves p q s s' /\ q <> Over /\ forall a, r = Ok a -> P a q.

Lemma runs_bind {A B} p (m : M State A) (k : A -> M State B) P P' :
  runs p m P -> (forall a q, P a q -> q <> Over -> runs q (k a) P') -> runs p (mbind m k) P'.
Proof.
  intros Hm Hk s r s' E. unfold mbind in E. destruct (m s) as [r1 s1] eqn:Em.
  apply Hm in Em as (q & Hq & Ho & HP). destruct r1 as [a| | |]; [|by simplify_eq; exists q..].
  apply (Hk a q) in E as (q' & Hq' & Ho' & HP'); [|by apply HP|done].
  exists q'. split; [by eapply moves_trans|done].
Qed.

Lemma runs_return {A} p (a : A) (P : A -> Phase -> Prop) : p <> Over -> P a p -> runs p (mreturn a) P.
Proof. intros Hp HP s r s' [= <- <-]. exists p. split; [apply moves_refl|naive_solver]. Qed.

(** What does not touch the channel. *)
Definition same_put : relation State := fun s s' => put s'.1 = put s.1.
#[local] Instance same_put_preorder : PreOrder same_put.
Proof. split; [done|]. intros s1 s2 s3 E1 E2. unfold same_put in *. congruence. Qed.

Lemma runs_silent {A} p (m : M State A) : p <> Over -> respects same_put m -> runs p m (fun _ q => q = p).
Proof. intros Hp Hm s r s' E. exists p. split; [by eapply moves_same, Hm|done]. Qed.

(** The failures of the model: nothing is sent, nothing returned. *)
Lemma runs_fails {A} p (m : M State A) P :
  p <> Over -> respects same_put m -> (forall s a s', m s <> (Ok a, s')) -> runs p m P.
Proof.
  intros Hp Hm Hn s r s' E. exists p. split; [by eapply moves_same, Hm|]. split; [done|].
  intros a ->. by apply Hn in E.
Qed.

Lemma on_world_silent {A} (f : W -> A * W) : respects same_put (on_world f : M State A).
Proof. intros s r s'. unfold on_world. destruct (f s.2). by intros [= <- <-]. Qed.
Lemma run_in_world_silent {A} (m : M W A) : respects same_put (run_in_world m : M State A).
Proof. intros s r s'. unfold run_in_world. destruct (m s.2). by intros [= <- <-]. Qed.

Hint Resolve on_world_silent run_in_world_silent : wingfoil.

Ltac silent := auto with wingfoil typeclass_instances.

Lemma accept_loop_silent fuel (l : L) : respects same_put (accept_loop fuel l : M State V).
Proof.
  revert l. induction fuel as [|fuel IH]; intros l; simpl; [silent|].
  destruct (accept l) as [[s| |e] l']; [destruct (set_blocking s) as [r s']|..].
  - apply respects_bind; [apply _|silent|intros []; silent].
  - apply respects_bind; [apply _|silent|intros []; [silent|]].
    apply respects_bind; [apply _|silent|intros []; apply IH].
  - silent.
Qed.

Lemma obtain_socket_silent fuel acc : respects same_put (obtain_socket fuel acc : M State V).
Proof.
  unfold obtain_socket. destruct acc; (apply respects_bind; [apply _|silent|intros l]); [|silent].
  destruct (listener_nonblocking l) as [r l'].
  apply respects_bind; [apply _|silent|intros _; apply accept_loop_silent].
Qed.

(** ** The thread *)

Lemma send_status_runs p q st :
  p <> Over -> q <> Over -> phase_step p (Message.RealtimeValue (Status st)) = Some q ->
  runs p (send_status st : M State bool) (fun ok q' => ok = true -> q' = q).
Proof.
  intros Hp Hq Hs s r s' E. unfold send_status in E. destruct (send_event (Status st) s) as [ok s1] eqn:E1.
  apply (send_event_moves p q) in E1; [|done]. simplify_eq.
  destruct E1 as [Hm|[-> Hm]]; [exists q|exists p]; naive_solver.
Qed.

Lemma report_runs acc e : runs Idle (report acc e : M State bool) (fun again q => again = true -> q = Idle).
Proof.
  eapply runs_bind; [by apply (send_status_runs Idle Idle)|].
  intros ok q Hq Ho. apply runs_return; [done|]. destruct ok; [auto|done].
Qed.

Lemma in_session_runs {S} `{Wire S} fuel cfg (sock : S) :
  runs Idle (in_session fuel cfg sock : M State bool) (fun open q => open = true -> q = InSession).
Proof.
  intros s r s' E. unfold in_session in E.
  destruct (run_fix_session _ _ _ _ s) as [r1 [se s1]] eqn:E1.
  apply run_fix_session_moves in E1 as [Hm|[-> Hm]]; simplify_eq; [exists InSession|exists Idle]; naive_solver.
Qed.

Lemma run_socket_runs fuel cfg (sock : V) :
  runs Idle (run_socket fuel cfg sock : M State (Error + bool)) (fun r q =>
    match r with inl _ => q = Idle | inr open => open = true -> q = InSession end).
Proof.
  unfold run_socket. destruct (tls cfg).
  - destruct (tls_connect _ _) as [t|e|w|]; [|by apply runs_return|..];
      [|by apply runs_fails; silent..].
    eapply runs_bind; [apply in_session_runs|]. intros open q Hq Ho. by apply runs_return.
  - eapply runs_bind; [apply in_session_runs|]. intros open q Hq Ho. by apply runs_return.
Qed.

Lemma after_session_runs p acc open :
  p <> Over -> (open = true -> p = InSession) ->
  runs p (after_session acc open : M State bool) (fun again q => again = true -> q = Idle).
Proof.
  intros Hp Hopen. unfold after_session.
  eapply runs_bind; [apply runs_silent; silent|]. intros _ q -> _.
  destruct open; [|by apply runs_return]. rewrite (Hopen eq_refl).
  eapply runs_bind; [by apply (send_status_runs InSession Idle)|]. intros ok q Hq Ho.
  destruct ok; [|by apply runs_return]. rewrite (Hq eq_refl).
  eapply runs_bind; [apply runs_silent; [done|destruct acc; silent]|].
  intros _ q' -> _. by apply runs_return.
Qed.

Lemma on_socket_runs fuel cfg (sock : V) :
  runs Idle (on_socket fuel cfg sock : M State bool) (fun again q => again = true -> q = Idle).
Proof.
  unfold on_socket. destruct (try_clone sock) as [[clone|e|w|] sock'];
    [|apply report_runs|by apply runs_fails; silent..].
  eapply runs_bind; [apply runs_silent; silent|]. intros _ q -> _.
  eapply runs_bind; [apply run_socket_runs|]. intros [e|open] q Hq Ho.
  - subst q. apply report_runs.
  - by apply after_session_runs.
Qed.

Lemma thread_round_runs fuel cfg :
  runs Idle (thread_round fuel cfg : M State bool) (fun again q => again = true -> q = Idle).
Proof.
  unfold thread_round. eapply runs_bind; [apply runs_silent; silent|]. intros stop q -> _.
  destruct stop; [by apply runs_return|].
  eapply runs_bind; [apply runs_silent; [done|]; apply respects_catch, obtain_socket_silent|].
  intros [sock|e|w|] q -> _; [apply on_socket_runs| |by apply runs_fails; silent..].
  eapply runs_bind; [apply report_runs|]. intros again q Hq Ho.
  destruct again; [|by apply runs_return].
  eapply runs_bind; [apply runs_silent; silent|]. intros _ q' -> _. by apply runs_return.
Qed.

Lemma thread_loop_runs rounds fuel cfg :
  runs Idle (thread_loop rounds fuel cfg : M State unit) (fun _ _ => True).
Proof.
  induction rounds as [|rounds IH]; [by apply runs_fails; silent|].
  eapply runs_bind; [apply thread_round_runs|]. intros again q Hq Ho.
  destruct again; [by rewrite (Hq eq_refl)|by apply runs_return].
Qed.

Lemma fix_thread_moves rounds fuel cfg (s : State) r s' :
  fix_thread rounds fuel cfg s = (r, s') -> exists q, moves Idle q s s'.
Proof.
  unfold fix_thread, mbind. destruct (thread_loop rounds fuel cfg s) as [r1 s1] eqn:E1.
  apply thread_loop_runs in E1 as (q & Hq & Ho & _).
  destruct r1; [|by intros [= <- <-]; exists q..].
  unfold post_ignoring. destruct (ChannelSender.send_message _ s1.1) as [r2 c] eqn:Es. intros [= <- <-].
  apply send_message_put in Es as [Ec|[_ Ec]].
  - exists Over. eapply moves_trans; [exact Hq|]. exists [Message.EndOfStream]. by destruct q.
  - exists q. eapply moves_trans; [exact Hq|]. by apply moves_same.
Qed.
End order.

(** ** What the phases mean *)

Abbreviation report_of st := (Message.RealtimeValue (Status st)).

Lemma scan_inv p a m b q : scan p (a ++ m :: b) = Some q ->
  exists p1 p2, scan p a = Some p1 /\ phase_step p1 m = Some p2 /\ scan p2 b = Some q.
Proof.
  unfold scan. rewrite foldl_app. simpl. destruct (foldl _ (Some p) a) as [p1|]; simpl.
  - destruct (phase_step p1 m) as [p2|] eqn:E; [eauto|]. clear. intros H. exfalso. revert H. by induction b.
  - intros H. exfalso. revert H. by induction b.
Qed.

Lemma scan_over ms q : scan Over ms = Some q -> ms = [].
Proof. destruct ms as [|m ms]; [done|]. intros (p1 & p2 & [= <-] & E & _)%(scan_inv _ []). by destruct m. Qed.

(** A session is left only by a disconnect or the end. *)
Lemma scan_in_session b q :
  scan InSession b = Some q -> q <> Idle \/ report_of Disconnected ∈ b.
Proof.
  revert q. induction b as [|m b IH] using rev_ind; [intros q [= <-]; by left|].
  intros q (p1 & p2 & Hp1 & Hp2 & [= <-])%scan_inv.
  destruct (IH _ Hp1) as [Hi|Hi]; [|set_solver].
  destruct p1; [done|..]; [|by destruct m].
  destruct m as [| | |[|[]]|]; simplify_eq/=; try (by left); right; set_solver.
Qed.

(** What is only reported in a session follows the start of one. *)
Lemma scan_session_start a q : scan Idle a = Some q -> q = InSession ->
  exists u v, a = u ++ report_of LoggingIn :: v /\ report_of Disconnected ∉ v.
Proof.
  revert q. induction a as [|m a IH] using rev_ind; [naive_solver|].
  intros q (p1 & p2 & Hp1 & Hp2 & [= <-])%scan_inv ->. destruct p1; [|..|by destruct m].
  - exists a, []. split; [|apply not_elem_of_nil]. by destruct m as [| | |[|[]]|].
  - destruct (IH _ Hp1 eq_refl) as (u & v & -> & Hv). exists u, (v ++ [m]).
    rewrite <-app_assoc. split; [done|]. rewrite elem_of_app, list_elem_of_singleton.
    intros [|<-]; done.
Qed.

(** ** The theorems *)

(** C39: The status stream tells sessions apart. Whatever the network, the clock, a
    stop and the receiving graph do, and however far the thread has come, in what
    it has put into the channel two [LoggingIn] have a [Disconnected] between them;
    a message, a login, a logout is preceded by a [LoggingIn] with no
    [Disconnected] since; a [Disconnected] ends a session, so that it is never
    reported twice; and the end of the stream comes last. *)
Theorem fix_sessions_bracketed {K X W L V T} `{Outbound K FixEvent, ReadyChannel X, InjectReceiver W,
    FixNet W L V, Wire V, Wire T, Listener L V, Tls V T}
    (rounds fuel : nat) (cfg : FixConfig) (s s' : ChannelSender K X * W) (r : Res unit)
    (Hrun : fix_thread rounds fuel cfg s = (r, s')) :
  exists ms, put s'.1 = put s.1 ++ ms /\
    (forall a b c, ms = a ++ report_of LoggingIn :: b ++ report_of LoggingIn :: c ->
       report_of Disconnected ∈ b) /\
    (forall a b e, ms = a ++ Message.RealtimeValue e :: b ->
       match e with
       | Data _ | Status LoggedIn | Status (LoggedOut _) | Status Disconnected =>
         exists u v, a = u ++ report_of LoggingIn :: v /\ report_of Disconnected ∉ v
       | _ => True
       end) /\
    (forall a b, ms = a ++ Message.EndOfStream :: b -> b = []).
Proof.
  apply fix_thread_moves in Hrun as (q & ms & Hput & Hscan). exists ms. split; [done|]. split_and!.
  - intros a b c ->. apply scan_inv in Hscan as (p1 & p2 & _ & Hp2 & Hscan).
    assert (p2 = InSession) as -> by (by destruct p1; simplify_eq/=).
    apply scan_inv in Hscan as (p3 & p4 & Hb & Hp4 & _).
    destruct (scan_in_session b p3 Hb) as [Hn|]; [|done]. by destruct p3.
  - intros a b e ->. apply scan_inv in Hscan as (p1 & p2 & Ha & Hp2 & _).
    assert (match e with Status LoggingIn | Status (StatusError _) => True | _ => p1 = InSession end) as Hp1
      by (destruct p1, e as [|[]]; done).
    destruct e as [m|[]]; try done; by eapply scan_session_start.
  - intros a b ->. apply scan_inv in Hscan as (p1 & p2 & _ & Hp2 & Hscan).
    destruct p1; simplify_eq/=; by eapply scan_over.
Qed.

(** ** A network from a script

    The connections to come, the answers of the stop flag (then always raised),
    the messages to inject, what the cell holds and how long the thread slept. *)
Record Net := mkNet {
  conns : list MemWire; stops : list bool; injected : list FixMessage;
  cell : option MemWire; slept : Z }.

#[export] Instance net_inject : InjectReceiver Net := fun n =>
  match injected n with
  | [] => (None, n)
  | m :: ms => (Some m, mkNet (conns n) (stops n) ms (cell n) (slept n))
  end.

#[export] Instance script_net : FixNet Net (list (AcceptResult MemWire)) MemWire := {
  stop_requested n :=
    match stops n with
    | [] => (true, n)
    | b :: bs => (b, mkNet (conns n) bs (injected n) (cell n) (slept n))
    end;
  attempts n :=
    (fun _ => match conns n with c :: _ => Ok c | [] => Err (Msg "refused") end,
     mkNet (tail (conns n)) (stops n) (injected n) (cell n) (slept n));
  bind_listener n :=
    (Ok (Accepted <$> conns n), mkNet [] (stops n) (injected n) (cell n) (slept n));
  set_blocking v := (Ok tt, v);
  try_clone v := (Ok v, v);
  set_read_timeout v := v;
  store_socket v n := (Ok tt, mkNet (conns n) (stops n) (injected n) v (slept n));
  pause ms n := mkNet (conns n) (stops n) (injected n) (cell n) (slept n + ms) }.

#[export] Instance script_listener : Listener (list (AcceptResult MemWire)) MemWire := {
  accept l := match l with [] => (NoneYet, []) | r :: rs => (r, rs) end;
  listener_nonblocking l := (Ok tt, l) }.

#[export] Instance no_tls : Tls MemWire MemWire := {
  tls_config := unit; tls_name := bytes; tls_connection := bytes;
  client_config := Ok tt;
  server_name h := match h with [] => None | _ => Some h end;
  client_connection _ name := Ok name;
  stream_owned _ v := v }.

Abbreviation acme_logon := (encode_message MSG_LOGON (str "V") (str "ME") 1 (str "t") []).
Abbreviation acme_quote := (encode_message (str "W") (str "V") (str "ME") 2 (str "t") [(55%N, str "AAPL")]).
Abbreviation acme := (mkConfig (str "acme") 443 (str "ME") (str "V") LogonNone true false).
Abbreviation quiet_channel := (ChannelSender.new ([] : list (Message FixEvent)) (None : option (ReadyNotifier (list nat)))).

(** Two sessions, the second cut off before its logon is answered, and a stop. *)
Abbreviation two_sessions := (mkNet
  [mkMemWire [] [RData (acme_logon ++ acme_quote); RTimedOut; REof] []; mkMemWire [] [RTimedOut; RReset] []]
  [false; false] [] None 0).
Abbreviation two_reports :=
  [report_of LoggingIn; report_of LoggedIn;
   Message.RealtimeValue (Data (mkFix (str "W") 2 0 [(55%N, str "AAPL")])); report_of Disconnected;
   report_of LoggingIn; report_of Disconnected; Message.EndOfStream].

Lemma two_sessions_run :
  exists s', fix_thread 3 4 acme (quiet_channel, two_sessions) = (Ok tt, s') /\
    put s'.1 = two_reports /\ slept s'.2 = 1000%Z.
Proof. eexists. split_and!; [vm_compute; reflexivity..]. Qed.

Lemma fix_sessions_bracketed_witness :
  (exists a b c, two_reports = a ++ report_of LoggingIn :: b ++ report_of LoggingIn :: c) /\
  (forall a b c, two_reports = a ++ report_of LoggingIn :: b ++ report_of LoggingIn :: c ->
   report_of Disconnected ∈ b).
Proof.
  split; [by eexists [], [_; _; _], _|].
  destruct two_sessions_run as (s' & Hrun & Hput & _).
  destruct (fix_sessions_bracketed 3 4 acme _ _ _ Hrun) as (ms & Hms & Hbr & _).
  rewrite Hput in Hms. change (two_reports = ms) in Hms. intros a b c Hc. apply (Hbr a b c).
  by rewrite <-Hms.
Defined.

(** ** A stop the session does not see *)

Section silent_session.
Context {V X : Type} `{Wire V, EventChannel X}.
(** A peer that sends nothing, and an inject queue that stays empty. *)
Context (Silent : V -> Prop) (Quiet : X -> Prop).
Context (Hsilent : forall v, Silent v ->
  exists r v', read v = (r, v') /\ (r = RTimedOut \/ r = RWouldBlock) /\ Silent v').
Context (Hquiet : forall x, Quiet x -> exists x', try_recv x = (None, x') /\ Quiet x').

(** While the peer is silent a session does not end, whatever flag was raised:
    the loop of a session reads none, and only a shutdown of the socket, or a
    report the channel refuses, ends it from this side. *)
Lemma session_ignores_stop fuel acc se v buf x :
  Silent v -> Quiet x ->
  exists x', session_loop fuel acc se (Some v) buf x = (OutOfFuel, (se, x')) /\ Quiet x'.
Proof.
  revert v buf x. induction fuel as [|fuel IH]; intros v buf x Hv Hx; [by exists x|].
  destruct (Hsilent v Hv) as (r & v' & Hr & Ht & Hv'). destruct (Hquiet x Hx) as (x' & Hx' & Hq).
  cbn [session_loop]. rewrite Hr. destruct fuel as [|fuel]; [exists x; by destruct Ht as [Ht|Ht]; rewrite Ht|].
  destruct (IH v' buf x' Hv' Hq) as (x'' & E & Hq'). exists x''. split; [|done].
  destruct Ht as [-> | ->]; cbn [socket session events Fix.parse_buf flush_inject]; rewrite Hx'; exact E.
Qed.
End silent_session.

(** The race: the thread finds the flag down and connects; the node's [stop] raises
    it and finds no socket to shut down; the thread stores the socket and runs the
    session. Here the flag is raised from the second look on, and the socket is in
    the cell when it is too late: the join waits for as long as the peer lives. *)
Abbreviation late := (mkNet [mkMemWire [] [] []] [false] [] None 0).

Definition stopping (s : ChannelSender (list (Message FixEvent)) (list nat) * Net) : Prop :=
  injected s.2 = [] /\ stops s.2 = [] /\ is_Some (cell s.2).

Lemma late_stop_waits rounds fuel :
  exists s', fix_thread (S rounds) fuel acme (quiet_channel, late) = (OutOfFuel, s') /\ stopping s'.
Proof.
    destruct (session_ignores_stop (fun v : MemWire => mem_in v = []) stopping
    ltac:(intros [o i c] Hi; simpl in Hi; subst i; exists RWouldBlock; eexists; split; [reflexivity|auto])
    ltac:(intros [c [cs st inj ce sl]] (Hi & Hs & Hc); simpl in Hi, Hs, Hc; subst inj st; eexists; split; [reflexivity|done])
    fuel false (mkSession (str "ME") (str "V") 1 LogonNone)
    (FixSession.send_logon (FixSession.new (str "ME") (str "V"), mkMemWire [] [] [])).2.2 []
    (ChannelSender.mk (Some [report_of LoggingIn]) None,
     mkNet [] [] [] (Some (mkMemWire [] [] [])) 0)) as (s' & E & Hs'); [reflexivity|by split_and!|].
  exists s'. split; [|done].
  assert (Hround : thread_round fuel acme (quiet_channel, late) = (OutOfFuel, s'))
    by (cbv -[session_loop] in E |- *; by rewrite E).
  unfold fix_thread. cbn [thread_loop]. unfold mbind at 1 2. by rewrite Hround.
Qed.

(** ** After a second login

    The subscription sink asks for a symbol once: when the session is made anew,
    nothing it asked for in the first session is asked for again. *)
Example no_request_after_relogin :
  let run := cycles [([LoggedIn], [str "4001"]); ([Disconnected; LoggingIn; LoggedIn], [str "4001"])]
    ((FixSubNode.new 1%positive 2%positive, ([] : list FixMessage)), GraphState.new RealTime Forever 0) in
  run.2.1.2 = [market_data_request (str "4001") (FixSubNode.req_id 0 (str "4001"))].
Proof. vm_compute. reflexivity. Qed.

(** An acceptor that is stopped while it waits reports an error before the end. *)
Example stopped_acceptor_reports :
  let cfg := mkConfig (str "0.0.0.0") 443 (str "ME") (str "V") LogonNone false true in
  put (fix_thread 2 4 cfg (quiet_channel, mkNet [] [false; false] [] None 0)).2.1 =
  [report_of (StatusError (Msg "stop requested")); Message.EndOfStream].
Proof. vm_compute. reflexivity. Qed.
