(* ===== verification/Etcd.v ===== *)
(** * The etcd adapter: [wingfoil/src/adapters/etcd/]

    The subscription, a snapshot followed by the watch, and the writer with its
    lease. The client library is the class [EtcdClient] on a world [W]; as in the
    other adapters an async stream is the list of its items, here of the first [n]
    responses. *)
From S2P Require Import Prelude NanoTime GraphState GraphNodes AsyncNodes Cache Kdb NodeWorld Utf8.
Local Open Scope Z_scope.

(** ** Data: [mod.rs] *)

Record EtcdConnection := mkEtcd { endpoints : list bytes }.
Definition EtcdConnection_new (endpoint : bytes) : EtcdConnection := mkEtcd [endpoint].
Definition with_endpoints (l : list bytes) : EtcdConnection := mkEtcd l.

Record EtcdEntry := mkEntry { key : bytes; value : bytes }.
Definition EtcdEntry_default : EtcdEntry := mkEntry [] [].
(** [None] for what is not text. *)
Definition value_str (self : EtcdEntry) : option bytes :=
  if utf8_valid (value self) then Some (value self) else None.

Inductive EtcdEventKind := Put | Delete.
Record EtcdEvent := mkEvent { kind : EtcdEventKind; entry : EtcdEntry; revision : Z }.

(** ** The environment *)

(** The library's key-value pair, watch event and watch response. *)
Record KeyValue := mkKv { kv_key : bytes; kv_value : bytes; kv_mod_revision : Z }.
Record WatchEvent := mkWatchEvent { event_type : EtcdEventKind; event_kv : option KeyValue }.
Record WatchResponse := mkWatch {
  created : bool; canceled : bool; cancel_reason : string; watch_events : list WatchEvent }.
(** The revision in the header, and the pairs. *)
Record GetResponse := mkGet { header_revision : option Z; kvs : list KeyValue }.

(** [C] is a connected client, [Wt] a watch, [L] the renewal task of a lease. An
    error of the library is its text; [watch_next] is [None] at the end. *)
Class EtcdClient (C Wt L W : Type) := {
  etcd_connect : list bytes -> W -> (string + C) * W;
  watch_prefix : C -> bytes -> W -> (string + Wt) * W;
  get_prefix : C -> bytes -> W -> (string + GetResponse) * W;
  watch_next : Wt -> W -> option (string + WatchResponse) * W;
  put : C -> bytes -> bytes -> option Z -> W -> option string * W;
  txn_put_absent : C -> bytes -> bytes -> option Z -> W -> (string + bool) * W;
  lease_grant : C -> Z -> W -> (string + Z) * W;
  lease_keep_alive : C -> Z -> W -> option string * W;
  spawn_keepalive : Z -> Duration -> W -> L * W;
  abort_and_join : L -> W -> W;
  lease_revoke : C -> Z -> W -> option string * W }.

(** ** The subscription: [read.rs] *)

Section sub.
Context {C Wt L W : Type} `{!EtcdClient C Wt L W, !Clock W}.

Definition snapshot_event (snapshot_rev : Z) (kv : KeyValue) : EtcdEvent :=
  mkEvent Put (mkEntry (from_utf8_lossy (kv_key kv)) (kv_value kv)) snapshot_rev.

(** What the loop over a response's events yields of one. *)
Definition watch_event (snapshot_rev : Z) (event : WatchEvent) : option EtcdEvent :=
  match event_kv event with
  | None => None
  | Some kv =>
    if kv_mod_revision kv <=? snapshot_rev then None
    else Some (mkEvent (event_type event) (mkEntry (from_utf8_lossy (kv_key kv)) (kv_value kv)) (kv_mod_revision kv))
  end.

(** The [loop], for [n] responses. *)
Fixpoint watch_loop (n : nat) (watch_stream : Wt) (snapshot_rev : Z) : M W (list (Item EtcdEvent)) :=
  match n with
  | O => mreturn []
  | S n =>
    let! r := io (watch_next watch_stream) in
    match r with
    | Some (inr resp) =>
      if created resp then watch_loop n watch_stream snapshot_rev
      else if canceled resp then mreturn [inl (Msg ("etcd watch cancelled: " +:+ cancel_reason resp))]
      else
        let! items := stamp_all (omap (watch_event snapshot_rev) (watch_events resp)) in
        let! more := watch_loop n watch_stream snapshot_rev in
        mreturn (items ++ more)
    | Some (inl e) => mreturn [inl (Msg ("etcd watch error: " +:+ e))]
    | None => mreturn [inl (Msg "etcd watch stream closed unexpectedly")]
    end
  end.

Definition etcd_sub (n : nat) (connection : EtcdConnection) (prefix : bytes) (_ctx : RunParams)
  : M W (list (Item EtcdEvent)) :=
  let! client := io_or Msg (etcd_connect (endpoints connection)) in
  let! watch_stream := io_or (fun e => Msg ("etcd watch failed: " +:+ e)) (watch_prefix client prefix) in
  let! get_resp := io_or (fun e => Msg ("etcd get failed: " +:+ e)) (get_prefix client prefix) in
  let snapshot_rev := default 0 (header_revision get_resp) in
  let snapshot := map (snapshot_event snapshot_rev) (kvs get_resp) in
  let! items := stamp_all snapshot in
  let! more := watch_loop n watch_stream snapshot_rev in
  mreturn (items ++ more).

(** ** The writer: [write.rs] *)

(** [u64 as i64]. *)
Definition as_i64 (n : Z) : Z := if n <? 2 ^ 63 then n else n - 2 ^ 64.

(** [ttl.as_secs().max(1) as i64], and [(ttl / 3).max(Duration::from_secs(1))]. *)
Definition ttl_secs (ttl : Duration) : Z := as_i64 (Z.max (dur_secs ttl) 1).
Definition renew_interval (ttl : Duration) : Duration := from_nanos (Z.max (as_nanos ttl / 3) 1000000000).

(** The lease and its renewal task. *)
Definition grant (client : C) (lease_ttl : option Duration) : M W (option (Z * L)) :=
  match lease_ttl with
  | None => mreturn None
  | Some ttl =>
    let! id := io_or (fun e => Msg ("etcd lease_grant failed: " +:+ e)) (lease_grant client (ttl_secs ttl)) in
    do! io_or_ (fun e => Msg ("etcd lease_keep_alive failed: " +:+ e)) (lease_keep_alive client id) in
    let! handle := io (spawn_keepalive id (renew_interval ttl)) in
    mreturn (Some (id, handle))
  end.

Definition already_exists (key : bytes) : Error :=
  Msg ("etcd conditional write failed: key already exists (use force=true to overwrite): " +:+ text key).

Definition put_entry (client : C) (lease_id : option Z) (force : bool) (entry : EtcdEntry) : M W unit :=
  if force then
    io_or_ (fun e => Msg ("etcd put failed: " +:+ e)) (put client (key entry) (value entry) lease_id)
  else
    let! succeeded := io_or (fun e => Msg ("etcd txn failed: " +:+ e))
      (txn_put_absent client (key entry) (value entry) lease_id) in
    if succeeded : bool then mreturn tt else mfail (already_exists (key entry)).

(** Stop the renewal, and revoke the lease whatever comes of it. *)
Definition release (client : C) (lease : option (Z * L)) : M W unit :=
  match lease with
  | None => mreturn tt
  | Some (id, handle) =>
    do! mmodify (abort_and_join handle) in
    let! _ := io (lease_revoke client id) in
    mreturn tt
  end.

Definition etcd_pub (connection : EtcdConnection) (lease_ttl : option Duration) (force : bool)
    (source : list (Z * list EtcdEntry)) : M W unit :=
  let! client := io_or (fun e => Msg ("etcd connect failed: " +:+ e)) (etcd_connect (endpoints connection)) in
  let! lease := grant client lease_ttl in
  do! write_bursts (put_entry client (fst <$> lease) force) source in
  release client lease.

(** [EtcdPubOperators] of a stream of single entries. *)
Definition etcd_pub_single (conn : EtcdConnection) (lease_ttl : option Duration) (force : bool)
    (source : list (Z * EtcdEntry)) : M W unit := etcd_pub conn lease_ttl force (in_bursts source).
End sub.

(** The spawned task: sleep, renew, read the acknowledgement. [renew] and [ack]
    answer whether the call went well; it ends with the first that did not. *)
Fixpoint keepalive_task {W} (rounds : nat) (sleep : W -> W) (renew ack : W -> bool * W) (w : W) : W :=
  match rounds with
  | O => w
  | S rounds =>
    let w := sleep w in
    let '(ok, w) := renew w in
    if ok : bool then
      let '(ok, w) := ack w in
      if ok : bool then keepalive_task rounds sleep renew ack w else w
    else w
  end.
