(* ===== verification/EtcdProps.v ===== *)
(** * The etcd adapter: the subscription replays the server, the writer and its lease *)
From S2P Require Import Prelude NanoTime GraphState GraphNodes AsyncNodes Cache Kdb NodeWorld Utf8 Etcd.
Local Open Scope Z_scope.

Lemma filter_none {A} (P : A -> Prop) `{!forall x, Decision (P x)} (l : list A) :
  Forall (fun x => ~ P x) l -> filter P l = [].
Proof. induction 1 as [|x l Hx Hl IH]; [done|]. by rewrite filter_cons, decide_False. Qed.

Lemma filter_keeps {A} (P Q : A -> Prop) `{!forall x, Decision (P x)} (l : list A) :
  Forall Q l -> Forall Q (filter P l).
Proof. rewrite !Forall_forall. intros HQ x [_ Hx]%list_elem_of_filter. by apply HQ. Qed.

(** ** The server *)

(** A change of one key, at the revision of its pair. *)
Record Change := mkChange { ch_kind : EtcdEventKind; ch_kv : KeyValue }.
Abbreviation rev c := (kv_mod_revision (ch_kv c)).

Abbreviation Store := (gmap bytes bytes).
Definition apply_change (m : Store) (c : Change) : Store :=
  match ch_kind c with
  | Put => <[kv_key (ch_kv c) := kv_value (ch_kv c)]> m
  | Delete => delete (kv_key (ch_kv c)) m
  end.

(** What is stored at a revision, of a history in order. *)
Definition state_at (hist : list Change) (r : Z) : Store := foldl apply_change ∅ (filter (fun c => rev c <= r) hist).

(** What the reader of the stream makes of it. *)
Definition apply_event (m : Store) (e : EtcdEvent) : Store :=
  match kind e with
  | Put => <[key (entry e) := value (entry e)]> m
  | Delete => delete (key (entry e)) m
  end.
Definition replay (l : list EtcdEvent) : Store := foldl apply_event ∅ l.
Definition wire (c : Change) : WatchEvent := mkWatchEvent (ch_kind c) (Some (ch_kv c)).
(** The subscription hands keys on as text: bytes that are none are replaced. *)
Definition emitted (c : Change) : EtcdEvent :=
  mkEvent (ch_kind c) (mkEntry (from_utf8_lossy (kv_key (ch_kv c))) (kv_value (ch_kv c))) (rev c).

(** The store a list of pairs makes up. *)
Definition store_of (l : list KeyValue) : Store := foldl (fun m kv => <[kv_key kv := kv_value kv]> m) ∅ l.

Abbreviation key_is_text kv := (utf8_valid (kv_key kv) = true).

(** What etcd documents, for the keys under the prefix, of which [hist] are all
    the changes, those to come included: a watch delivers every change after the
    revision at which it was opened, in order, and never part of a revision; a get
    returns the state at the revision of its header, each key once. [pending] are
    the changes a watch has yet to deliver. Keys and values are any bytes. *)
Class EtcdServer {C Wt L W} `{!EtcdClient C Wt L W, !Clock W} (hist : list Change) := {
  hist_sorted : StronglySorted (fun a b => rev a <= rev b) hist;
  current : W -> Z;
  pending : Wt -> W -> list Change -> Prop;
  watch_prefix_spec c p w ws w' : watch_prefix c p w = (inr ws, w') ->
    exists r, pending ws w' (filter (fun c => r < rev c) hist) /\ r <= current w';
  get_prefix_spec c p w resp w' : get_prefix c p w = (inr resp, w') -> exists r,
    header_revision resp = Some r /\ current w <= r /\
    NoDup (map kv_key (kvs resp)) /\ store_of (kvs resp) = state_at hist r;
  get_prefix_pending c p w resp w' ws l : get_prefix c p w = (resp, w') -> pending ws w l -> pending ws w' l;
  clock_pending w t w' ws l : clock_now w = (t, w') -> pending ws w l -> pending ws w' l;
  watch_next_spec ws w resp w' l : watch_next ws w = (Some (inr resp), w') -> pending ws w l ->
    if created resp then pending ws w' l
    else canceled resp = false -> exists d l', l = d ++ l' /\ watch_events resp = map wire d /\
      (forall a b, a ∈ d -> b ∈ l' -> rev a < rev b) /\ pending ws w' l' }.

(** ** The subscription *)

(** In order, what is up to a revision comes first. *)
Lemma sorted_filter_split (P : Change -> Prop) `{!forall c, Decision (P c)} r l :
  StronglySorted (fun a b => rev a <= rev b) l ->
  filter P l = filter (fun c => P c /\ rev c <= r) l ++ filter (fun c => P c /\ r < rev c) l.
Proof.
  induction 1 as [|c l Hs IH Hc]; [done|]. destruct (decide (P c)) as [Hp|Hp].
  2: { rewrite !filter_cons_False by tauto. exact IH. }
  rewrite filter_cons_True by done. destruct (decide (rev c <= r)).
  - rewrite filter_cons_True by done. rewrite filter_cons_False by lia. by rewrite IH.
  - rewrite filter_cons_False by lia. rewrite filter_cons_True by (split; [done|lia]).
    assert (E : filter (fun c => P c /\ rev c <= r) l = []).
    { apply filter_none. eapply Forall_impl; [exact Hc|]. simpl. lia. }
    rewrite E in *. by rewrite IH.
Qed.

Section sub.
Context {C Wt L W : Type} `{!EtcdClient C Wt L W, !Clock W} (hist : list Change) `{!EtcdServer hist}.
Implicit Types (w : W) (ws : Wt).

Lemma replay_app l1 l2 : replay (l1 ++ l2) = foldl apply_event (replay l1) l2.
Proof. unfold replay. by rewrite foldl_app. Qed.

Lemma foldl_emitted m l : Forall (fun c => key_is_text (ch_kv c)) l ->
  foldl apply_event m (map emitted l) = foldl apply_change m l.
Proof.
  intros Hl. revert m. induction Hl as [|c l Hc Hl IH]; intros m; [done|]. simpl. rewrite <-IH.
  f_equal. unfold apply_event, apply_change, emitted. simpl. by rewrite from_utf8_lossy_valid.
Qed.

Lemma foldl_change_keys (P : bytes -> Prop) l m :
  Forall (fun c => P (kv_key (ch_kv c))) l -> map_Forall (fun k _ => P k) m ->
  map_Forall (fun k _ => P k) (foldl apply_change m l).
Proof.
  intros Hl. revert m. induction Hl as [|c l Hc Hl IH]; intros m Hm; [done|]. apply IH.
  unfold apply_change. destruct (ch_kind c); [by apply map_Forall_insert_2|by apply map_Forall_delete].
Qed.

Lemma store_of_keys l kv : kv ∈ l -> is_Some (store_of l !! kv_key kv).
Proof.
  unfold store_of. induction l as [|x l IH] using rev_ind; [by intros ?%elem_of_nil|].
  rewrite foldl_snoc. intros [Hin|Heq]%elem_of_app.
  - rewrite lookup_insert_is_Some. destruct (decide (kv_key x = kv_key kv)); [by left|right; eauto].
  - apply list_elem_of_singleton in Heq as ->. rewrite lookup_insert_is_Some. by left.
Qed.

(** The keys of a snapshot are keys of the history. *)
Lemma snapshot_text r l : Forall (fun c => key_is_text (ch_kv c)) hist ->
  store_of l = state_at hist r -> Forall (fun kv => key_is_text kv) l.
Proof.
  intros Ht Hl. apply Forall_forall. intros kv Hkv. destruct (store_of_keys l kv Hkv) as [v Hv].
  rewrite Hl in Hv. refine (foldl_change_keys (fun k => utf8_valid k = true) _ ∅ _ _ _ _ Hv).
  - by apply filter_keeps.
  - apply map_Forall_empty.
Qed.

Lemma state_at_later r m : r <= m ->
  foldl apply_change (state_at hist r) (filter (fun c => r < rev c <= m) hist) = state_at hist m.
Proof.
  intros Hrm. unfold state_at. rewrite <-foldl_app. f_equal.
  rewrite (sorted_filter_split (fun c => rev c <= m) r hist hist_sorted).
  f_equal; apply list_filter_iff; intros c; lia.
Qed.

Lemma stamp_all_pending {T} (l : list T) w r w' : stamp_all l w = (r, w') ->
  exists items, r = Ok items /\ events_of items = l /\ forall ws p, pending ws w p -> pending ws w' p.
Proof.
  intros (items & Hr & Hi & _ & Hk)%stamp_all_run. exists items. split_and!; [done..|]. intros ws p.
  apply (Hk (fun v => pending ws v p)). intros v. destruct (clock_now v) as [t v'] eqn:E. by apply clock_pending with t.
Qed.

Lemma watch_events_emitted r (d : list Change) :
  omap (watch_event r) (map wire d) = map emitted (filter (fun c => r < rev c) d).
Proof.
  induction d as [|c d IH]; [done|]. cbn [map omap list_omap]. unfold watch_event at 1. simpl.
  destruct (Z.leb_spec (rev c) r).
  - rewrite filter_cons_False by lia. exact IH.
  - rewrite filter_cons_True by lia. cbn [map]. by rewrite <-IH.
Qed.

(** The responses read are a prefix of what was pending, cut between revisions. *)
Lemma watch_loop_run n ws r l w items w' :
  watch_loop n ws r w = (Ok items, w') -> pending ws w l ->
  exists d rest, l = d ++ rest /\ (forall a b, a ∈ d -> b ∈ rest -> rev a < rev b) /\
    events_of items = map emitted (filter (fun c => r < rev c) d).
Proof.
  revert l w items w'. induction n as [|n IH]; intros l w items w' E Hp; cbn [watch_loop] in E.
  { injection E as <- <-. exists [], l. split_and!; [done|set_solver|done]. }
  unfold mbind, io in E. destruct (watch_next ws w) as [x w1] eqn:Ew.
  destruct x as [[e|resp]|]; [by injection E as <- <-; exists [], l; split_and!; [|set_solver|]| |
    by injection E as <- <-; exists [], l; split_and!; [|set_solver|]].
  pose proof (watch_next_spec _ _ _ _ _ Ew Hp) as Hn.
  destruct (created resp); [by eapply IH|].
  destruct (canceled resp); [by injection E as <- <-; exists [], l; split_and!; [|set_solver|]|].
  destruct (Hn eq_refl) as (d & l' & -> & Hd & Hcut & Hp'). clear Hn.
  destruct (stamp_all _ w1) as [r1 w2] eqn:Es. apply stamp_all_pending in Es as (items1 & -> & Hi & Hk).
  destruct (watch_loop n ws r w2) as [r2 w3] eqn:El. destruct r2 as [more| | |]; [|done..].
  unfold mreturn in E. simplify_eq.
  destruct (IH l' w2 more w' El (Hk _ _ Hp')) as (d2 & rest & -> & Hcut2 & Hm).
  exists (d ++ d2), rest. split_and!; [by rewrite app_assoc| |].
  - intros a b [Ha|Ha]%elem_of_app Hb; [apply Hcut; set_solver|by apply Hcut2].
  - rewrite events_of_app, Hi, Hm, Hd, watch_events_emitted, filter_app, map_app. done.
Qed.

(** A prefix cut between revisions is everything up to one. *)
Lemma prefix_up_to r0 r d rest :
  filter (fun c => r0 < rev c) hist = d ++ rest -> r0 <= r ->
  (forall a b, a ∈ d -> b ∈ rest -> rev a < rev b) ->
  exists m, r <= m /\ filter (fun c => r < rev c) d = filter (fun c => r < rev c <= m) hist.
Proof.
  intros Hd Hr Hcut.
  set (m := foldr Z.max r (map (fun c => rev c) d)).
  assert (Hm : r <= m /\ Forall (fun c => rev c <= m) d /\ (m = r \/ exists c, c ∈ d /\ m = rev c)).
  { subst m. clear. induction d as [|c d (H1 & H2 & H3)]; simpl; [by split; [lia|auto]|].
    split_and!; [lia| |].
    - constructor; [lia|]. eapply Forall_impl; [exact H2|]. simpl. lia.
    - destruct (Z.max_spec (rev c) (foldr Z.max r (map (fun c => rev c) d))) as [[_ ->]|[_ ->]]; [|set_solver].
      destruct H3 as [|(x & Hx & ?)]; [by left|right; exists x; set_solver]. }
  destruct Hm as (Hrm & Hall & Hlast). exists m. split; [done|].
  assert (E : filter (fun c => r < rev c <= m) hist = filter (fun c => r < rev c <= m) (d ++ rest)).
  { rewrite <-Hd, list_filter_filter. apply list_filter_iff. intros c. lia. }
  rewrite E, filter_app, (filter_none (fun c => r < rev c <= m) rest), app_nil_r.
  - clearbody m. clear -Hall. induction Hall as [|c l Hc Hl IH]; [done|]. destruct (decide (r < rev c)).
    + rewrite !filter_cons_True by lia. by rewrite IH.
    + rewrite !filter_cons_False by lia. done.
  - apply Forall_forall. intros c Hc [H1 H2]. destruct Hlast as [|(x & Hx & E')]; [lia|].
    pose proof (Hcut x c Hx Hc). lia.
Qed.

Lemma replay_snapshot r l :
  Forall (fun kv => key_is_text kv) l -> replay (map (snapshot_event r) l) = store_of l.
Proof.
  unfold replay, store_of. generalize (∅ : Store). intros m Hl. revert m. induction Hl as [|kv l Hkv Hl IH]; intros m; [done|].
  simpl. rewrite IH. do 2 f_equal. unfold apply_event, snapshot_event. simpl. by rewrite from_utf8_lossy_valid.
Qed.
End sub.

(** C18: The subscription misses no change and repeats none. What it has emitted,
    after however many responses, is one event for each pair of the state at the
    revision [r] of the get, and then one event for every change after [r] up to
    some revision [m], once, in order, whatever was written between the opening
    of the watch and the get. Keys are emitted as text, with bytes that are no
    UTF-8 replaced. If the keys of the history are text, replaying the events
    gives the state of the server at [m], and the snapshot alone the state at [r];
    otherwise different keys may be emitted as the same text. *)
Theorem etcd_sub_replays {C Wt L W} `{!EtcdClient C Wt L W, !Clock W} (hist : list Change) `{!EtcdServer hist}
    (n : nat) (connection : EtcdConnection) (prefix : bytes) (ctx : RunParams) (w w' : W)
    (items : list (Item EtcdEvent))
    (Hrun : etcd_sub n connection prefix ctx w = (Ok items, w')) :
  exists r m pairs, r <= m /\ NoDup (map kv_key pairs) /\ store_of pairs = state_at hist r /\
    events_of items =
      map (snapshot_event r) pairs ++ map emitted (filter (fun c => r < rev c <= m) hist) /\
    (Forall (fun c => key_is_text (ch_kv c)) hist ->
       replay (map (snapshot_event r) pairs) = state_at hist r /\
       replay (events_of items) = state_at hist m).
Proof.
  unfold etcd_sub in Hrun.
  inv_bind Hrun. inv_bind Hrun. inv_bind Hrun. inv_bind Hrun. inv_bind Hrun.
  injection Hrun as <- <-. apply io_or_inv in E0, E1.
  apply (watch_prefix_spec (hist:=hist)) in E0 as (r0 & Hp & Hr0).
  destruct (get_prefix_spec _ _ _ _ _ E1) as (r & Hr & Hcur & Hnd & Hget).
  pose proof (get_prefix_pending _ _ _ _ _ _ _ E1 Hp) as Hp1. rewrite Hr in E2, E3. simpl in E2, E3.
  apply (stamp_all_pending hist) in E2 as (items1 & [= ->] & Hi & Hk).
  eapply (watch_loop_run hist) in E3 as (d & rest & Hd & Hcut & Hm); [|by apply Hk].
  destruct (prefix_up_to hist _ r _ _ Hd ltac:(lia) Hcut) as (m & Hrm & Hdm).
  exists r, m, (kvs a1). rewrite events_of_app, Hi, Hm, Hdm. split_and!; [done..|]. intros Ht.
  assert (Hs : replay (map (snapshot_event r) (kvs a1)) = state_at hist r).
  { rewrite <-Hget. by apply replay_snapshot, (snapshot_text hist r). }
  split; [done|]. rewrite replay_app, Hs, foldl_emitted; [by apply state_at_later|by apply filter_keeps].
Qed.

(** Two keys that are no text, in one emitted key: the state is lost. *)
Example not_text_merged :
  map (snapshot_event 3) [mkKv [Ascii.ascii_of_N 200] (lit "1") 1; mkKv [Ascii.ascii_of_N 201] (lit "2") 2] =
  [mkEvent Put (mkEntry REPLACEMENT (lit "1")) 3; mkEvent Put (mkEntry REPLACEMENT (lit "2")) 3].
Proof. vm_compute. reflexivity. Qed.

(** ** The writer *)

(** What the writer asks of the server and of its renewal task. *)
Inductive Op :=
| Grant (ttl : Z) | Spawn (id : Z) (interval : Duration) | AbortKeepalive | Revoke (id : Z)
| PutKey (key value : bytes) (lease : option Z) | PutAbsent (key value : bytes) (lease : option Z).

(** A world that logs them; the answers are open. *)
Class EtcdLog {C Wt L W} `{!EtcdClient C Wt L W} := {
  ops : W -> list Op;
  connect_log e w r w' : etcd_connect e w = (r, w') -> ops w' = ops w;
  put_log c k v l w r w' : put c k v l w = (r, w') -> ops w' = ops w ++ [PutKey k v l];
  txn_log c k v l w r w' : txn_put_absent c k v l w = (r, w') -> ops w' = ops w ++ [PutAbsent k v l];
  grant_log c t w r w' : lease_grant c t w = (r, w') -> ops w' = ops w ++ [Grant t];
  keep_log c i w r w' : lease_keep_alive c i w = (r, w') -> ops w' = ops w;
  spawn_log i d w h w' : spawn_keepalive i d w = (h, w') -> ops w' = ops w ++ [Spawn i d];
  abort_log h w : ops (abort_and_join h w) = ops w ++ [AbortKeepalive];
  revoke_log c i w r w' : lease_revoke c i w = (r, w') -> ops w' = ops w ++ [Revoke i] }.

Definition put_op (lease : option Z) (force : bool) (e : EtcdEntry) : Op :=
  (if force then PutKey else PutAbsent) (key e) (value e) lease.

Section pub.
Context {C Wt L W : Type} `{!EtcdClient C Wt L W} `{!EtcdLog}.
Implicit Types (w : W) (c : C).

Lemma put_entry_log c lease force e w r w' : put_entry c lease force e w = (r, w') ->
  ops w' = ops w ++ [put_op lease force e] /\ (r = Ok tt \/ exists e, r = Err e).
Proof.
  unfold put_entry, io_or, io_or_, mbind, io, put_op. destruct force.
  - destruct (put c (key e) (value e) lease w) as [[e'|] w1] eqn:E; intros [= <- <-];
      apply put_log in E; (split; [done|eauto]).
  - destruct (txn_put_absent c (key e) (value e) lease w) as [[e'|[]] w1] eqn:E; intros [= <- <-];
      apply txn_log in E; (split; [done|eauto]).
Qed.
End pub.

(** The writer puts the entries of its source in order, each under the lease,
    up to the first that fails. At the end of the source the renewal task is
    stopped before the lease is revoked; after an error neither happens: the
    task it has spawned goes on and the keys stay. *)
Theorem etcd_pub_exact {C Wt L W} `{!EtcdClient C Wt L W, !EtcdLog} (connection : EtcdConnection)
    (ttl : Duration) (force : bool) (source : list (Z * list EtcdEntry)) (w w' : W) (r : Res unit)
    (Hrun : etcd_pub connection (Some ttl) force source w = (r, w')) :
  (is_ok r = false /\ forall id d, Spawn id d ∉ drop (length (ops w)) (ops w')) \/
  exists id done rest, concat source.*2 = done ++ rest /\
    ops w' = ops w ++ [Grant (ttl_secs ttl); Spawn id (renew_interval ttl)] ++ map (put_op (Some id) force) done ++
             (if is_ok r then [AbortKeepalive; Revoke id] else []) /\
    (r = Ok tt /\ rest = [] \/ exists e, r = Err e).
Proof.
  unfold etcd_pub in Hrun. unfold mbind at 1 in Hrun. unfold io_or at 1, mbind at 1, io at 1 in Hrun.
  destruct (etcd_connect _ w) as [[e|c] w1] eqn:Ec; apply connect_log in Ec.
  { injection Hrun as <- <-. left. rewrite Ec, drop_all. split; [done|set_solver]. }
  unfold mreturn at 1, mbind at 1, grant, mbind at 1, io_or at 1, mbind at 1, io at 1 in Hrun.
  destruct (lease_grant c _ w1) as [[e|id] w2] eqn:Eg; apply grant_log in Eg; rewrite Ec in Eg.
  { injection Hrun as <- <-. left. rewrite Eg, drop_app_length. split; [done|set_solver]. }
  unfold mreturn at 1, mbind at 1, io_or_ at 1, mbind at 1, io at 1 in Hrun.
  destruct (lease_keep_alive c id w2) as [[e|] w3] eqn:Ek; apply keep_log in Ek; rewrite Eg in Ek.
  { injection Hrun as <- <-. left. rewrite Ek, drop_app_length. split; [done|set_solver]. }
  unfold mreturn at 1, mbind at 1, io at 1 in Hrun.
  destruct (spawn_keepalive _ _ w3) as [h w4] eqn:Es; apply spawn_log in Es; rewrite Ek in Es.
  unfold mreturn at 1, mbind at 1 in Hrun. cbn [fmap option_fmap option_map fst] in Hrun.
  destruct (write_bursts _ source w4) as [r1 w5] eqn:Ep.
  apply (write_bursts_log _ ops (put_op (Some id) force)) in Ep as (d & rest & Hd & Ho & [[-> ->]|[e ->]]);
    [right; exists id, d..|apply put_entry_log].
  - unfold release, mbind, mmodify, io, mreturn in Hrun.
    destruct (lease_revoke c id (abort_and_join h w5)) as [x w6] eqn:Er. injection Hrun as <- <-.
    apply revoke_log in Er. rewrite abort_log, Ho, Es in Er. exists []. split_and!; [done| |by left].
    rewrite Er. cbn [is_ok]. by rewrite <-!app_assoc.
  - injection Hrun as <- <-. exists rest. split_and!; [done| |eauto]. cbn [is_ok].
    by rewrite Ho, Es, app_nil_r, <-!app_assoc.
Qed.

(** The lease lasts whole seconds: it is renewed in time only from two seconds on. *)
Lemma renewal_in_time ttl : duration_valid ttl -> dur_secs ttl < 2 ^ 63 ->
  as_nanos (renew_interval ttl) < ttl_secs ttl * 1000000000 <-> 2 <= dur_secs ttl.
Proof.
  destruct ttl as [s n]. intros [[Hs _] Hn] Hlt. unfold renew_interval, ttl_secs, as_i64, as_nanos, from_nanos in *.
  cbn [dur_secs dur_subsec_nanos] in *.
  set (t := Z.max ((s * 1000000000 + n) / 3) 1000000000).
  assert (Ht : t / 1000000000 * 1000000000 + t mod 1000000000 = t) by (pose proof (Z.div_mod t 1000000000); lia).
  rewrite Ht. destruct (Z.ltb_spec (Z.max s 1) (2 ^ 63)); [|lia]. subst t.
  pose proof (Z.div_mod (s * 1000000000 + n) 3 ltac:(lia)).
  pose proof (Z.mod_pos_bound (s * 1000000000 + n) 3 ltac:(lia)). lia.
Qed.

(** ** A server from a history *)

Definition demo_kv (k v : string) (r : Z) : KeyValue := mkKv (lit k) (lit v) r.
Definition demo_history : list Change :=
  [mkChange Put (demo_kv "a" "1" 1); mkChange Put (demo_kv "b" "2" 2); mkChange Delete (demo_kv "a" "" 3);
   mkChange Put (demo_kv "c" "3" 4); mkChange Put (demo_kv "a" "5" 4); mkChange Delete (demo_kv "b" "" 5)].

(** The revision, the responses to come ([None]: the watch was created), and the
    log; the second key is refused when it is written. *)
Record Demo := mkDemo { at_rev : Z; todo : list (option (list Change)); log : list Op }.
Definition logging (o : Op) (w : Demo) : Demo := mkDemo (at_rev w) (todo w) (log w ++ [o]).

#[export] Instance demo_client : EtcdClient unit unit unit Demo := {
  etcd_connect _ w := (inr tt, w);
  watch_prefix _ _ w :=
    (inr tt, mkDemo (at_rev w) [None; Some (filter (fun c => at_rev w < rev c <= 4) demo_history);
                                Some (filter (fun c => at_rev w < rev c /\ 4 < rev c) demo_history)] (log w));
  get_prefix _ _ w :=
    if at_rev w <=? 3 then (inr (mkGet (Some 3) [demo_kv "b" "2" 2]), w) else (inl "too late", w);
  watch_next _ w :=
    match todo w with
    | [] => (None, w)
    | None :: l => (Some (inr (mkWatch true false "" [])), mkDemo (at_rev w) l (log w))
    | Some d :: l => (Some (inr (mkWatch false false "" (map wire d))), mkDemo (at_rev w) l (log w))
    end;
  put _ k v lease w := (if bool_decide (k = lit "b") then Some "refused" else None, logging (PutKey k v lease) w);
  txn_put_absent _ k v lease w := (inr (negb (bool_decide (k = lit "b"))), logging (PutAbsent k v lease) w);
  lease_grant _ t w := (inr 7, logging (Grant t) w);
  lease_keep_alive _ _ w := (None, w);
  spawn_keepalive i d w := (tt, logging (Spawn i d) w);
  abort_and_join _ w := logging AbortKeepalive w;
  lease_revoke _ i w := (None, logging (Revoke i) w) }.
#[export] Instance demo_clock : Clock Demo := fun w => (1000, w).

(** Every change of a chunk comes before every change of a later one. *)
Definition in_revision_order (chunks : list (list Change)) : Prop :=
  ForallOrdPairs (fun d d' => forall a b, a ∈ d -> b ∈ d' -> rev a < rev b) chunks.

#[export] Instance demo_server : EtcdServer demo_history.
Proof.
  refine {| current := at_rev;
    pending _ w l := l = concat (omap id (todo w)) /\ in_revision_order (omap id (todo w)) |}.
  - repeat constructor; simpl; lia.
  - intros c p w ws w' [= <- <-]. exists (at_rev w). split; [|done]. split.
    + cbn [omap list_omap concat todo id]. rewrite app_nil_r.
      apply (sorted_filter_split (fun c => at_rev w < rev c) 4). repeat constructor; simpl; lia.
    + constructor; [|repeat constructor]. constructor; [|done]. intros a b.
      rewrite !list_elem_of_filter. lia.
  - intros c p w resp w'. cbn. case_match eqn:E; [|done]. intros [= <- <-]. exists 3.
    apply Z.leb_le in E. split_and!; [done|lia|by apply NoDup_singleton|by vm_compute].
  - intros c p w resp w' ws l. cbn. case_match; intros [= <- <-]; done.
  - intros w t w' ws l [= <- <-]. done.
  - intros ws w resp w' l. cbn. destruct w as [r [|[d|] todo] lg]; cbn; intros [= <- <-] [-> Ho]; [|done].
    intros _. exists d, (concat (omap id todo)). cbn in Ho. inversion Ho as [|? ? Hd Hrest]; subst.
    split_and!; [done|done| |done|done].
    intros a b Ha (d' & Hd' & Hb)%elem_of_concat. rewrite Forall_forall in Hd. by eapply Hd.
Defined.

#[export] Instance demo_log : EtcdLog.
Proof.
  refine {| ops := log |}.
  - intros e w r w' E. by injection E as <- <-.
  - intros c k v l w r w' E. by injection E as <- <-.
  - intros c k v l w r w' E. by injection E as <- <-.
  - intros c t w r w' E. by injection E as <- <-.
  - intros c i w r w' E. by injection E as <- <-.
  - intros i d w h w' E. by injection E as <- <-.
  - done.
  - intros c i w r w' E. by injection E as <- <-.
Defined.

Abbreviation demo_start := (mkDemo 1 [] []).
Abbreviation demo_ctx := (mkRunParams RealTime Forever 0).

(** The watch is opened at revision 1 and the get answered at 3: the changes in
    between are in the snapshot and not repeated. *)
Lemma demo_sub_run :
  exists w', etcd_sub 3 (EtcdConnection_new (lit "host")) [] demo_ctx demo_start =
    (Ok [inr (1000, mkEvent Put (mkEntry (lit "b") (lit "2")) 3);
         inr (1000, mkEvent Put (mkEntry (lit "c") (lit "3")) 4);
         inr (1000, mkEvent Put (mkEntry (lit "a") (lit "5")) 4);
         inr (1000, mkEvent Delete (mkEntry (lit "b") []) 5)], w').
Proof. eexists. vm_compute. reflexivity. Qed.

Lemma etcd_sub_replays_witness :
  exists m, replay [mkEvent Put (mkEntry (lit "b") (lit "2")) 3; mkEvent Put (mkEntry (lit "c") (lit "3")) 4;
                    mkEvent Put (mkEntry (lit "a") (lit "5")) 4; mkEvent Delete (mkEntry (lit "b") []) 5] =
            state_at demo_history m.
Proof.
  destruct demo_sub_run as (w' & Hrun).
  destruct (etcd_sub_replays demo_history 3 _ _ _ _ _ _ Hrun) as (r & m & pairs & _ & _ & _ & _ & Hm).
  exists m. apply Hm. repeat constructor.
Defined.

(** The second key is refused: the lease is never given back. *)
Abbreviation demo_source := [(5, [mkEntry (lit "a") (lit "1")]); (6, [mkEntry (lit "b") (lit "2"); mkEntry (lit "c") []])].
Abbreviation demo_ops :=
  [Grant 3; Spawn 7 (mkDuration 1 0); PutKey (lit "a") (lit "1") (Some 7); PutKey (lit "b") (lit "2") (Some 7)].

Lemma demo_pub_run :
  exists w', etcd_pub (EtcdConnection_new (lit "host")) (Some (mkDuration 3 0)) true demo_source demo_start =
    (Err (Msg "etcd put failed: refused"), w') /\ ops w' = demo_ops.
Proof. eexists. vm_compute. split; reflexivity. Qed.

Lemma etcd_pub_exact_witness :
  exists id done rest, concat demo_source.*2 = done ++ rest /\
    demo_ops = [Grant 3; Spawn id (mkDuration 1 0)] ++ map (put_op (Some id) true) done.
Proof.
  destruct demo_pub_run as (w' & Hrun & Hops).
  destruct (etcd_pub_exact _ _ _ _ _ _ _ Hrun) as [[_ H]|(id & d & rest & Hd & Ho & _)].
  - exfalso. apply (H 7 (mkDuration 1 0)). rewrite Hops. vm_compute. right. left.
  - exists id, d, rest. split; [exact Hd|]. rewrite Hops in Ho. change (ops demo_start) with (@nil Op) in Ho.
    rewrite app_nil_r in Ho. exact Ho.
Defined.
