(* ===== verification/Brokers.v ===== *)
(** * The message brokers: [wingfoil/src/adapters/redis/], [kafka/], [fluvio/]

    A module per broker, each with its client library as a class on a world [W]. The
    endless streams are given by the items of their first [n] rounds. *)
From S2P Require Import Prelude NanoTime GraphState GraphNodes AsyncNodes Cache Kdb NodeWorld Utf8.
Local Open Scope Z_scope.

(** A [value_str], [payload_str] or [key_str]: [None] for what is not text. *)
Definition as_str (b : bytes) : option bytes := if utf8_valid b then Some b else None.

(** The text of an error: what was tried, and the library's reason. *)
Definition failed (what e : string) : Error := Msg (what +:+ " failed: " +:+ e).

Module Redis.

(** ** [redis/mod.rs] *)

Record RedisConnection := mkRedis { url : bytes }.
Definition RedisConnection_new (url : bytes) : RedisConnection := mkRedis url.

Record RedisEntry := mkEntry { channel : bytes; payload : bytes }.
Record RedisEvent := mkEvent { ev_channel : bytes; ev_payload : bytes }.
Record RedisStreamRecord := mkRecord { key : bytes; fields : list (bytes * bytes) }.
Definition single (key field value : bytes) : RedisStreamRecord := mkRecord key [(field, value)].
Record RedisStreamEvent := mkStreamEvent { se_key : bytes; se_id : bytes; se_fields : list (bytes * bytes) }.
Definition field (self : RedisStreamEvent) (name : bytes) : option bytes :=
  snd <$> head (filter (fun f => f.1 = name) (se_fields self)).

(** ** The environment *)

(** An entry of a stream: its id and its map, in the order the map iterates. *)
Record StreamId (V : Type) := mkId { id : bytes; id_map : list (bytes * V) }.
Arguments mkId {V} id id_map.
Arguments id {V} s.
Arguments id_map {V} s.

(** [xread_block] is [XREAD BLOCK 0], its reply a list of streams; [value_bytes] is the
    library's conversion of a value to bytes. *)
Class RedisClient (Cl Cn Ps V W : Type) := {
  redis_open : bytes -> W -> (string + Cl) * W;
  get_connection : Cl -> W -> (string + Cn) * W;
  get_pubsub : Cl -> W -> (string + Ps) * W;
  subscribe : Ps -> bytes -> W -> option string * W;
  next_message : Ps -> W -> option (bytes * bytes) * W;
  publish : Cn -> bytes -> bytes -> W -> (string + Z) * W;
  xadd : Cn -> bytes -> list (bytes * bytes) -> W -> (string + bytes) * W;
  xrange_all : Cn -> bytes -> W -> (string + list (StreamId V)) * W;
  xread_block : Cn -> bytes -> bytes -> W -> (string + list (bytes * list (StreamId V))) * W;
  value_bytes : V -> option bytes }.

Section redis.
Context {Cl Cn Ps V W : Type} `{!RedisClient Cl Cn Ps V W, !Clock W}.

Definition open_client (connection : RedisConnection) : M W Cl :=
  io_or (failed "redis client open") (redis_open (url connection)).
Definition connect (connection : RedisConnection) : M W Cn :=
  let! client := open_client connection in
  io_or (failed "redis connect") (get_connection client).

(** ** Publish and subscribe: [read.rs], [write.rs] *)

Fixpoint message_loop (n : nat) (pubsub : Ps) : M W (list (Item RedisEvent)) :=
  match n with
  | O => mreturn []
  | S n =>
    let! msg := io (next_message pubsub) in
    match msg with
    | Some (channel, payload) => yielding (stamp_all [mkEvent channel payload]) (message_loop n pubsub)
    | None => mreturn [inl (Msg "redis subscription stream closed unexpectedly")]
    end
  end.

Definition redis_sub (n : nat) (connection : RedisConnection) (channel : bytes) (_ctx : RunParams)
  : M W (list (Item RedisEvent)) :=
  let! client := open_client connection in
  let! pubsub := io_or (failed "redis connect") (get_pubsub client) in
  do! io_or_ (failed ("redis subscribe to " +:+ quoted (text channel))) (subscribe pubsub channel) in
  message_loop n pubsub.

Definition publish_entry (conn : Cn) (entry : RedisEntry) : M W unit :=
  let! _ := io_or (failed ("redis publish to " +:+ quoted (text (channel entry))))
    (publish conn (channel entry) (payload entry)) in
  mreturn tt.

Definition redis_pub (connection : RedisConnection) (source : list (Z * list RedisEntry)) : M W unit :=
  let! conn := connect connection in write_bursts (publish_entry conn) source.
(** [RedisPubOperators] of a stream of single entries. *)
Definition redis_pub_single (conn : RedisConnection) (source : list (Z * RedisEntry)) : M W unit :=
  redis_pub conn (in_bursts source).

(** ** Streams: [stream.rs] *)

Definition to_event (key : bytes) (id : StreamId V) : RedisStreamEvent :=
  mkStreamEvent key (Redis.id id)
    (omap (fun '(name, value) => (fun bytes => (name, bytes)) <$> value_bytes value) (id_map id)).

(** The entries of a reply, with the keys of their streams. *)
Definition reply_ids (reply : list (bytes * list (StreamId V))) : list (bytes * StreamId V) :=
  concat (map (fun '(key, ids) => map (pair key) ids) reply).

Fixpoint tail_loop (n : nat) (conn : Cn) (key last_id : bytes) : M W (list (Item RedisStreamEvent)) :=
  match n with
  | O => mreturn []
  | S n =>
    let! reply := io (xread_block conn key last_id) in
    match reply with
    | inr reply =>
      let ids := reply_ids reply in
      let last_id := match last ids with Some (_, i) => id i | None => last_id end in
      yielding (stamp_all (map (fun '(k, i) => to_event k i) ids)) (tail_loop n conn key last_id)
    | inl e => mreturn [inl (failed ("redis xread on " +:+ quoted (text key)) e)]
    end
  end.

Definition redis_stream_read (n : nat) (connection : RedisConnection) (key : bytes) (_ctx : RunParams)
  : M W (list (Item RedisStreamEvent)) :=
  let! conn := connect connection in
  let! snapshot := io_or (failed ("redis xrange on " +:+ quoted (text key))) (xrange_all conn key) in
  let last_id := match last snapshot with Some i => id i | None => lit "0" end in
  yielding (stamp_all (map (to_event key) snapshot)) (tail_loop n conn key last_id).

Definition append_record (conn : Cn) (record : RedisStreamRecord) : M W unit :=
  let! _ := io_or (failed ("redis xadd to " +:+ quoted (text (key record))))
    (xadd conn (key record) (fields record)) in
  mreturn tt.

Definition redis_stream_write (connection : RedisConnection) (source : list (Z * list RedisStreamRecord)) : M W unit :=
  let! conn := connect connection in write_bursts (append_record conn) source.
Definition redis_stream_write_single (conn : RedisConnection) (source : list (Z * RedisStreamRecord)) : M W unit :=
  redis_stream_write conn (in_bursts source).
End redis.
End Redis.

Module Kafka.

(** ** [kafka/mod.rs] *)

Record KafkaConnection := mkKafka { brokers : bytes }.
Record KafkaRecord := mkRecord { topic : bytes; key : option bytes; value : bytes }.
Record KafkaEvent := mkEvent {
  ev_topic : bytes; ev_partition : Z; ev_offset : Z; ev_key : option bytes; ev_value : bytes }.

(** ** The environment *)

(** A message of the library; its payload may be absent. *)
Record Message := mkMessage {
  m_topic : bytes; m_partition : Z; m_offset : Z; m_key : option bytes; m_payload : option bytes }.
(** [MessageConsumption(UnknownTopicOrPartition)], or another error. *)
Inductive KafkaError := UnknownTopicOrPartition | OtherError (e : string).

(** [send_all] polls the deliveries of a burst together: their results, in the
    order in which they complete. *)
Class KafkaClient (Co Pr W : Type) := {
  create_consumer : list (string * bytes) -> W -> (string + Co) * W;
  kafka_subscribe : Co -> bytes -> W -> option string * W;
  kafka_recv : Co -> W -> (KafkaError + Message) * W;
  create_producer : list (string * bytes) -> W -> (string + Pr) * W;
  send_all : Pr -> Z -> list KafkaRecord -> W -> list (option string) * W;
  kafka_flush : Pr -> Z -> W -> option string * W;
  kafka_error_text : KafkaError -> string }.

(** Seconds. *)
Definition SEND_TIMEOUT : Z := 5.
Definition FLUSH_TIMEOUT : Z := 5.

Section kafka.
Context {Co Pr W : Type} `{!KafkaClient Co Pr W, !Clock W}.

(** ** [read.rs] *)

Definition consumer_config (connection : KafkaConnection) (group_id : bytes) : list (string * bytes) :=
  [("bootstrap.servers", brokers connection); ("group.id", group_id); ("auto.offset.reset", lit "earliest");
   ("enable.auto.commit", lit "true"); ("session.timeout.ms", lit "6000")].

Definition is_transient_subscribe_error (err : KafkaError) : bool :=
  match err with UnknownTopicOrPartition => true | OtherError _ => false end.

Definition to_event (msg : Message) : KafkaEvent :=
  mkEvent (m_topic msg) (m_partition msg) (m_offset msg) (m_key msg) (default [] (m_payload msg)).

Fixpoint recv_loop (n : nat) (consumer : Co) : M W (list (Item KafkaEvent)) :=
  match n with
  | O => mreturn []
  | S n =>
    let! r := io (kafka_recv consumer) in
    match r with
    | inr msg => yielding (stamp_all [to_event msg]) (recv_loop n consumer)
    | inl e =>
      if is_transient_subscribe_error e then recv_loop n consumer
      else mreturn [inl (Msg ("kafka consume error: " +:+ kafka_error_text e))]
    end
  end.

Definition kafka_sub (n : nat) (connection : KafkaConnection) (topic group_id : bytes) (_ctx : RunParams)
  : M W (list (Item KafkaEvent)) :=
  let! consumer := io_or (failed "kafka consumer create") (create_consumer (consumer_config connection group_id)) in
  do! io_or_ (failed "kafka subscribe") (kafka_subscribe consumer topic) in
  recv_loop n consumer.

(** ** [write.rs] *)

Definition producer_config (connection : KafkaConnection) : list (string * bytes) :=
  [("bootstrap.servers", brokers connection); ("message.timeout.ms", lit "5000")].

(** [while let Some(result) = inflight.next().await]: the first failure ends it. *)
Fixpoint await_all (results : list (option string)) : M W unit :=
  match results with
  | [] => mreturn tt
  | None :: results => await_all results
  | Some e :: _ => mfail (failed "kafka produce" e)
  end.

Definition produce_burst (producer : Pr) (burst : list KafkaRecord) : M W unit :=
  let! results := io (send_all producer SEND_TIMEOUT burst) in await_all results.

Definition kafka_pub (connection : KafkaConnection) (source : list (Z * list KafkaRecord)) : M W unit :=
  let! producer := io_or (failed "kafka producer create") (create_producer (producer_config connection)) in
  do! mfor source (fun burst => produce_burst producer burst.2) in
  io_or_ (failed "kafka flush") (kafka_flush producer FLUSH_TIMEOUT).
Definition kafka_pub_single (conn : KafkaConnection) (source : list (Z * KafkaRecord)) : M W unit :=
  kafka_pub conn (in_bursts source).
End kafka.
End Kafka.

Module Fluvio.

(** ** [fluvio/mod.rs] *)

Record FluvioConnection := mkFluvio { endpoint : bytes }.
Record FluvioRecord := mkRecord { key : option bytes; value : bytes }.
Definition FluvioRecord_new (value : bytes) : FluvioRecord := mkRecord None value.
Definition with_key (key value : bytes) : FluvioRecord := mkRecord (Some key) value.
Record FluvioEvent := mkEvent { ev_key : option bytes; ev_value : bytes; ev_offset : Z }.

(** ** The environment *)

Inductive Offset := Beginning | Absolute (n : Z).
Inductive RecordKey := NULL | Key (k : bytes).
Record Record_ := mkRec { r_key : option bytes; r_value : bytes; r_offset : Z }.

Class FluvioClient (Cl Pr St W : Type) := {
  fluvio_connect : bytes -> W -> (string + Cl) * W;
  absolute : Z -> string + Offset;
  consumer_config : bytes -> Z -> Offset -> option string;
  fluvio_consumer : Cl -> bytes -> Z -> Offset -> W -> (string + St) * W;
  next_record : St -> W -> option (string + Record_) * W;
  topic_producer : Cl -> bytes -> W -> (string + Pr) * W;
  fluvio_send : Pr -> RecordKey -> bytes -> W -> option string * W;
  fluvio_flush : Pr -> W -> option string * W }.

Section fluvio.
Context {Cl Pr St W : Type} `{!FluvioClient Cl Pr St W, !Clock W}.

(** ** [read.rs] *)

Definition validation_error (start_offset : option Z) : option Error :=
  match start_offset with
  | Some n => if n <? 0 then Some (Msg ("start_offset must be non-negative, got " +:+ z_text n)) else None
  | None => None
  end.

Definition start_at (start_offset : option Z) : Res Offset :=
  match start_offset with
  | None => Ok Beginning
  | Some n =>
    match absolute n with
    | inr o => Ok o
    | inl e => Err (Msg ("invalid fluvio offset " +:+ z_text n +:+ ": " +:+ e))
    end
  end.

Definition to_event (record : Record_) : FluvioEvent := mkEvent (r_key record) (r_value record) (r_offset record).

Fixpoint record_loop (n : nat) (stream : St) : M W (list (Item FluvioEvent)) :=
  match n with
  | O => mreturn []
  | S n =>
    let! r := io (next_record stream) in
    match r with
    | Some (inr record) => yielding (stamp_all [to_event record]) (record_loop n stream)
    | Some (inl e) => mreturn [inl (Msg ("fluvio record error: " +:+ e))]
    | None => mreturn []
    end
  end.

Definition fluvio_sub (n : nat) (connection : FluvioConnection) (topic : bytes) (partition : Z)
    (start_offset : option Z) (_ctx : RunParams) : M W (list (Item FluvioEvent)) :=
  match validation_error start_offset with
  | Some err => mfail err
  | None =>
    let! client := io_or (failed "fluvio connect") (fluvio_connect (endpoint connection)) in
    let! offset := mlift (start_at start_offset) in
    match consumer_config topic partition offset with
    | Some e => mfail (failed "fluvio consumer config" e)
    | None =>
      let! stream := io_or (failed "fluvio consumer create") (fluvio_consumer client topic partition offset) in
      record_loop n stream
    end
  end.

(** ** [write.rs] *)

Definition send_record (producer : Pr) (record : FluvioRecord) : M W unit :=
  let key := match key record with Some k => Key k | None => NULL end in
  io_or_ (failed "fluvio send") (fluvio_send producer key (value record)).

Definition send_burst (producer : Pr) (burst : list FluvioRecord) : M W unit :=
  do! mfor burst (send_record producer) in
  io_or_ (failed "fluvio flush") (fluvio_flush producer).

Definition fluvio_pub (connection : FluvioConnection) (topic : bytes) (source : list (Z * list FluvioRecord)) : M W unit :=
  let! client := io_or (failed "fluvio connect") (fluvio_connect (endpoint connection)) in
  let! producer := io_or (failed "fluvio producer create") (topic_producer client topic) in
  mfor source (fun burst => send_burst producer burst.2).
Definition fluvio_pub_single (conn : FluvioConnection) (topic : bytes) (source : list (Z * FluvioRecord)) : M W unit :=
  fluvio_pub conn topic (in_bursts source).
End fluvio.
End Fluvio.
