(* ===== verification/BrokerProps.v ===== *)
(** * What arrives from the brokers, and what is sent to them *)
From S2P Require Import Prelude NanoTime GraphState GraphNodes AsyncNodes Cache Kdb NodeWorld Utf8 Brokers.

(** ** Redis streams *)

Module RedisLog.
Import Redis.

(** The id from which a tail goes on after [k] entries of the log. *)
Definition id_after {V} (log : list (StreamId V)) (k : nat) : bytes :=
  match k with O => lit "0" | S k => match log !! k with Some i => id i | None => [] end end.

(** What Redis documents of one stream, whose entries are [log], those to come
    included: a range returns what is there, a blocking read the next entries after
    the id it is given. *)
Class RedisServer {Cl Cn Ps V W} `{!RedisClient Cl Cn Ps V W} (key : bytes) (log : list (StreamId V)) := {
  xrange_spec conn w ids w' : xrange_all conn key w = (inr ids, w') -> exists k, ids = take k log;
  xread_spec conn k w reply w' : k <= length log -> xread_block conn key (id_after log k) w = (inr reply, w') ->
    exists j, reply_ids reply = map (pair key) (take j (drop k log)) }.

Section stream.
Context {Cl Cn Ps V W : Type} `{!RedisClient Cl Cn Ps V W, !Clock W}.
Context (key : bytes) (log : list (StreamId V)) `{!RedisServer key log}.

Lemma id_after_last k dflt : k <= length log -> (k = 0 -> dflt = lit "0") ->
  match last (take k log) with Some i => id i | None => dflt end = id_after log k.
Proof.
  intros Hk Hd. destruct k as [|k]; [by rewrite take_0; apply Hd|]. simpl.
  destruct (lookup_lt_is_Some_2 log k Hk) as [i Hi]. by rewrite (take_S_r _ _ _ Hi), last_snoc, Hi.
Qed.

Lemma tail_loop_run n conn k w items w' :
  tail_loop n conn key (id_after log k) w = (Ok items, w') -> k <= length log ->
  exists j, events_of items = map (to_event key) (take j (drop k log)).
Proof.
  revert k w items w'. induction n as [|n IH]; intros k w items w' E Hk; cbn [tail_loop] in E.
  { injection E as <- <-. by exists 0. }
  unfold mbind at 1, io in E. destruct (xread_block _ _ _ w) as [[e|reply] w1] eqn:Er.
  { injection E as <- <-. by exists 0. }
  apply (xread_spec conn k) in Er as (j & Hj); [|done]. rewrite Hj in E.
  set (j' := min j (length log - k)).
  assert (Htake : take j (drop k log) = take j' (drop k log)).
  { unfold j'. destruct (Nat.min_spec j (length log - k)) as [[_ ->]|[Hj' ->]]; [done|].
    by rewrite !take_ge by (rewrite length_drop; lia). }
  rewrite Htake in E. unfold yielding in E. inv_bind E. inv_bind E. injection E as <- <-.
  apply stamp_all_run in E0 as (items1 & [= ->] & Hi & _).
  assert (Hlast : match last (map (pair key) (take j' (drop k log))) with Some (_, i) => id i | None => id_after log k end
                  = id_after log (k + j')).
  { rewrite <-(id_after_last (k + j') (id_after log k)); [|unfold j'; lia|].
    - rewrite <-(take_take_drop log k j'), last_app, fmap_last.
      destruct (last (take j' (drop k log))) as [i|] eqn:El; [done|]. simpl.
      apply last_None in El. destruct k as [|k]; [by rewrite take_0|].
      rewrite <-(id_after_last (S k) []) by done. destruct (last (take (S k) log)) eqn:E; [done|].
      apply last_None, (f_equal length) in E. rewrite length_take in E. cbn [length] in E. lia.
    - intros ?. assert (k = 0) as -> by lia. done. }
  rewrite Hlast in E1. apply IH in E1 as (j2 & H2); [|unfold j'; lia].
  exists (j' + j2). rewrite events_of_app, Hi, H2, map_map, <-map_app. f_equal. 
  rewrite <-(take_take_drop (drop k log) j' j2), drop_drop. done.
Qed.
End stream.
End RedisLog.

(** A Redis stream is read without gap and without repetition: what
    [redis_stream_read] has emitted after any number of replies are the entries of
    the stream from the first on, each once, in order, whatever was appended
    between the snapshot and the tail; the tail starts at the id of the last entry
    of the snapshot, and at the beginning when there is none. *)
Theorem redis_stream_exact {Cl Cn Ps V W} `{!Redis.RedisClient Cl Cn Ps V W, !Clock W}
    (key : bytes) (log : list (Redis.StreamId V)) `{!RedisLog.RedisServer key log}
    (n : nat) (connection : Redis.RedisConnection) (ctx : RunParams) (w w' : W)
    (items : list (Item Redis.RedisStreamEvent))
    (Hrun : Redis.redis_stream_read n connection key ctx w = (Ok items, w')) :
  exists k, events_of items = map (Redis.to_event key) (take k log).
Proof.
  unfold Redis.redis_stream_read in Hrun. inv_bind Hrun. inv_bind Hrun. apply io_or_inv in E0.
  apply RedisLog.xrange_spec in E0 as (k0 & ->). unfold yielding in Hrun. inv_bind Hrun. inv_bind Hrun.
  injection Hrun as <- <-. apply stamp_all_run in E0 as (items1 & [= ->] & Hi & _).
  set (k := min k0 (length log)).
  assert (Hk : take k0 log = take k log).
  { unfold k. destruct (Nat.min_spec k0 (length log)) as [[_ ->]|[Hk ->]]; [done|]. by rewrite !take_ge by lia. }
  rewrite Hk, (RedisLog.id_after_last log k (lit "0")) in E1 by (unfold k; lia || done).
  apply (RedisLog.tail_loop_run key log) in E1 as (j & Hj); [|unfold k; lia].
  exists (k + j). by rewrite events_of_app, Hi, Hj, Hk, <-map_app, take_take_drop.
Qed.

(** ** The writers *)

Inductive RedisOp := Published (channel payload : bytes) | Appended (key : bytes) (fields : list (bytes * bytes)).

(** A world that logs what is sent; the answers are open. *)
Class RedisOps {Cl Cn Ps V W} `{!Redis.RedisClient Cl Cn Ps V W} := {
  redis_ops : W -> list RedisOp;
  open_ops u w r w' : Redis.redis_open u w = (r, w') -> redis_ops w' = redis_ops w;
  connect_ops c w r w' : Redis.get_connection c w = (r, w') -> redis_ops w' = redis_ops w;
  publish_ops c ch p w r w' : Redis.publish c ch p w = (r, w') -> redis_ops w' = redis_ops w ++ [Published ch p];
  xadd_ops c k f w r w' : Redis.xadd c k f w = (r, w') -> redis_ops w' = redis_ops w ++ [Appended k f] }.

Section redis_writers.
Context {Cl Cn Ps V W : Type} `{!Redis.RedisClient Cl Cn Ps V W, !RedisOps}.

Lemma connect_same connection (w w' : W) r : Redis.connect connection w = (r, w') -> redis_ops w' = redis_ops w.
Proof.
  unfold Redis.connect, Redis.open_client, io_or, mbind, io.
  destruct (Redis.redis_open _ w) as [[e|c] w1] eqn:E1; apply open_ops in E1; [by intros [= <- <-]|].
  simpl. destruct (Redis.get_connection c w1) as [[e|cn] w2] eqn:E2; apply connect_ops in E2;
    intros [= <- <-]; by rewrite E2.
Qed.

(** [redis_pub] publishes the entries of its source in order, each once, up to the
    first that fails; [redis_stream_write] appends its records so. *)
Lemma redis_pub_in_order connection source (w w' : W) r : Redis.redis_pub connection source w = (r, w') ->
  exists done rest, concat source.*2 = done ++ rest /\
    redis_ops w' = redis_ops w ++ map (fun e => Published (Redis.channel e) (Redis.payload e)) done /\
    (r = Ok tt -> rest = []).
Proof.
  unfold Redis.redis_pub, mbind. destruct (Redis.connect connection w) as [rc w1] eqn:Ec. apply connect_same in Ec.
  destruct rc as [c|e|x|]; [|intros [= <- <-]; exists [], (concat source.*2); by rewrite app_nil_r..].
  intros (d & rest & Hd & Ho & Hr)%(write_bursts_log _ redis_ops (fun e => Published (Redis.channel e) (Redis.payload e))).
  { exists d, rest. split_and!; [done|by rewrite Ho, Ec|]. intros ->. by destruct Hr as [[_ ->]|[? ?]]. }
  intros e v rv v'. unfold Redis.publish_entry, io_or, mbind, io.
  destruct (Redis.publish c _ _ v) as [[er|z] v1] eqn:E; apply publish_ops in E; intros [= <- <-]; eauto.
Qed.

Lemma redis_stream_write_in_order connection source (w w' : W) r :
  Redis.redis_stream_write connection source w = (r, w') ->
  exists done rest, concat source.*2 = done ++ rest /\
    redis_ops w' = redis_ops w ++ map (fun e => Appended (Redis.key e) (Redis.fields e)) done /\
    (r = Ok tt -> rest = []).
Proof.
  unfold Redis.redis_stream_write, mbind. destruct (Redis.connect connection w) as [rc w1] eqn:Ec. apply connect_same in Ec.
  destruct rc as [c|e|x|]; [|intros [= <- <-]; exists [], (concat source.*2); by rewrite app_nil_r..].
  intros (d & rest & Hd & Ho & Hr)%(write_bursts_log _ redis_ops (fun e => Appended (Redis.key e) (Redis.fields e))).
  { exists d, rest. split_and!; [done|by rewrite Ho, Ec|]. intros ->. by destruct Hr as [[_ ->]|[? ?]]. }
  intros e v rv v'. unfold Redis.append_record, io_or, mbind, io.
  destruct (Redis.xadd c _ _ v) as [[er|z] v1] eqn:E; apply xadd_ops in E; intros [= <- <-]; eauto.
Qed.
End redis_writers.

(** ** Kafka *)

(** What the consumer will be told, message or error, in order. *)
Class KafkaFeed {Co Pr W} `{!Kafka.KafkaClient Co Pr W, !Clock W} := {
  feed : W -> list (Kafka.KafkaError + Kafka.Message);
  recv_feed c w x w' : Kafka.kafka_recv c w = (x, w') -> feed w = x :: feed w';
  clock_feed w t w' : clock_now w = (t, w') -> feed w' = feed w }.

Definition ends_it (x : Kafka.KafkaError + Kafka.Message) : Prop :=
  match x with inl (Kafka.OtherError _) => True | _ => False end.

(** Every message is emitted, once, in order; a topic that is not known yet is
    waited for; any other error is the last item. *)
Lemma kafka_recv_exact {Co Pr W} `{!Kafka.KafkaClient Co Pr W, !Clock W, !KafkaFeed} n (c : Co) (w w' : W) items :
  Kafka.recv_loop n c w = (Ok items, w') ->
  exists l, feed w = l ++ feed w' /\
    events_of items = omap (fun x => match x with inr m => Some (Kafka.to_event m) | inl _ => None end) l /\
    forall a x b, l = a ++ x :: b -> ends_it x -> b = [].
Proof.
  revert w items. induction n as [|n IH]; intros w items E; cbn [Kafka.recv_loop] in E.
  { injection E as <- <-. exists []. split_and!; [done..|]. by intros []. }
  unfold mbind at 1, io in E. destruct (Kafka.kafka_recv c w) as [x w1] eqn:Er. apply recv_feed in Er.
  assert (Hnext : forall l y, ~ ends_it y -> (forall a x b, l = a ++ x :: b -> ends_it x -> b = []) ->
    forall a x b, y :: l = a ++ x :: b -> ends_it x -> b = []).
  { intros l y Hy Hl [|z a] x' b [= -> E'] Hx; [done|by eapply Hl]. }
  destruct x as [[|e]|m]; cbv beta iota in E; cbn [Kafka.is_transient_subscribe_error] in E.
  - apply IH in E as (l & Hf & Hi & Hl). exists (inl Kafka.UnknownTopicOrPartition :: l).
    split_and!; [by rewrite Er, Hf|done|apply Hnext; [by intros []|done]].
  - injection E as <- <-. exists [inl (Kafka.OtherError e)]. split_and!; [done..|].
    intros [|y a] x' b [= ? ?] _; [done|by destruct a].
  - unfold yielding in E. inv_bind E. inv_bind E. injection E as <- <-.
    apply stamp_all_run in E0 as (items1 & [= ->] & Hi & _ & Hk).
    apply IH in E1 as (l & Hf & Hi' & Hl). exists (inr m :: l).
    assert (Hs : feed s = feed w1).
    { apply (Hk (fun v => feed v = feed w1)); [|done]. intros v Hv. destruct (clock_now v) as [t v'] eqn:Ec.
      apply clock_feed in Ec. simpl. by rewrite Ec. }
    split_and!; [by rewrite Er, <-Hs, Hf|by rewrite events_of_app, Hi, Hi'|apply Hnext; [by intros []|done]].
Qed.

(** ** Fluvio *)

(** A negative offset is refused before anything is asked of the cluster. *)
Lemma fluvio_negative_offset {Cl Pr St W} `{!Fluvio.FluvioClient Cl Pr St W, !Clock W} n conn topic p o ctx (w : W) :
  (o < 0)%Z -> exists e, Fluvio.fluvio_sub n conn topic p (Some o) ctx w = (Err e, w).
Proof. intros Ho. unfold Fluvio.fluvio_sub, Fluvio.validation_error. apply Z.ltb_lt in Ho. rewrite Ho. by eexists. Qed.

Inductive FluvioOp := Sent (key : Fluvio.RecordKey) (value : bytes) | Flushed.
Class FluvioOps {Cl Pr St W} `{!Fluvio.FluvioClient Cl Pr St W} := {
  fluvio_ops : W -> list FluvioOp;
  send_ops p k v w r w' : Fluvio.fluvio_send p k v w = (r, w') -> fluvio_ops w' = fluvio_ops w ++ [Sent k v];
  flush_ops p w r w' : Fluvio.fluvio_flush p w = (r, w') -> fluvio_ops w' = fluvio_ops w ++ [Flushed] }.

Definition sent_record (r : Fluvio.FluvioRecord) : FluvioOp :=
  Sent (match Fluvio.key r with Some k => Fluvio.Key k | None => Fluvio.NULL end) (Fluvio.value r).

(** Every burst is sent whole, in order, and flushed before the next. *)
Lemma fluvio_flushes_bursts {Cl Pr St W} `{!Fluvio.FluvioClient Cl Pr St W, !FluvioOps} (p : Pr)
    (source : list (Z * list Fluvio.FluvioRecord)) (w w' : W) :
  mfor source (fun burst => Fluvio.send_burst p burst.2) w = (Ok tt, w') ->
  fluvio_ops w' = fluvio_ops w ++ concat (map (fun b => map sent_record b.2 ++ [Flushed]) source).
Proof.
  revert w. induction source as [|[t l] source IH]; intros w E; cbn [mfor] in E.
  { injection E as <-. by rewrite app_nil_r. }
  inv_bind E. apply IH in E. unfold Fluvio.send_burst in E0. inv_bind E0.
  apply (mfor_log _ fluvio_ops sent_record) in E1 as (d & rest & Hd & Ho & [[_ ->]|[e [=]]]).
  - unfold io_or_, mbind, io in E0. destruct (Fluvio.fluvio_flush p s0) as [x w2] eqn:Ef. apply flush_ops in Ef.
    assert (s = w2) as -> by (by destruct x; injection E0). rewrite app_nil_r in Hd. simpl in Hd. subst d.
    rewrite E, Ef, Ho. cbn [map concat snd]. by rewrite <-!app_assoc.
  - intros r v rv v'. unfold Fluvio.send_record, io_or_, mbind, io.
    destruct (Fluvio.fluvio_send p _ _ v) as [[er|] v1] eqn:Es; apply send_ops in Es; intros [= <- <-]; eauto.
Qed.

(** ** A stream in memory *)

(** The log, how much of it there is at the time of the range, and how many entries
    each read returns. *)
Record MemStream := mkMem { there : nat; reads : list nat }.
Abbreviation entry i v := (Redis.mkId (lit i) [(lit "f", lit v)]).
Definition mem_log : list (Redis.StreamId bytes) := [entry "1-0" "a"; entry "2-0" "b"; entry "2-1" "c"; entry "5-0" "d"].

(** What follows an id in the log. *)
Fixpoint after (i : bytes) (l : list (Redis.StreamId bytes)) : list (Redis.StreamId bytes) :=
  match l with [] => [] | x :: l => if bool_decide (Redis.id x = i) then l else after i l end.

#[export] Instance mem_redis : Redis.RedisClient unit unit unit bytes MemStream := {
  Redis.redis_open _ w := (inr tt, w);
  Redis.get_connection _ w := (inr tt, w);
  Redis.get_pubsub _ w := (inr tt, w);
  Redis.subscribe _ _ w := (None, w);
  Redis.next_message _ w := (None, w);
  Redis.publish _ _ _ w := (inr 0%Z, w);
  Redis.xadd _ _ _ w := (inr [], w);
  Redis.xrange_all _ _ w := (inr (take (there w) mem_log), w);
  Redis.xread_block _ k i w :=
    match reads w with
    | [] => (inl "connection lost", w)
    | j :: js =>
      (inr [(k, take j (if bool_decide (i = lit "0") then mem_log else after i mem_log))], mkMem (there w) js)
    end;
  Redis.value_bytes v := Some v }.
#[export] Instance mem_clock : Clock MemStream := fun w => (7%Z, w).

#[export] Instance mem_server : RedisLog.RedisServer (lit "k") mem_log.
Proof.
  split.
  - intros conn w ids w' [= <- <-]. by exists (there w).
  - intros conn k w reply w' Hk. cbn. destruct (reads w) as [|j js]; [done|]. intros [= <- <-]. exists j.
    unfold Redis.reply_ids. cbn [map concat]. rewrite app_nil_r. do 2 f_equal.
    by do 5 (destruct k as [|k]; [done|]); simpl in Hk; lia.
Defined.

Abbreviation mem_event i v := (Redis.mkStreamEvent (lit "k") (lit i) [(lit "f", lit v)]).
Lemma mem_stream_run :
  exists w', Redis.redis_stream_read 3 (Redis.RedisConnection_new []) (lit "k") (mkRunParams RealTime Forever 0)
      (mkMem 2 [1; 5]) =
    (Ok ([inr (7%Z, mem_event "1-0" "a"); inr (7%Z, mem_event "2-0" "b"); inr (7%Z, mem_event "2-1" "c");
          inr (7%Z, mem_event "5-0" "d"); inl (failed ("redis xread on " +:+ quoted "k") "connection lost")]), w').
Proof. eexists. vm_compute. reflexivity. Qed.

Lemma redis_stream_exact_witness :
  exists k, [mem_event "1-0" "a"; mem_event "2-0" "b"; mem_event "2-1" "c"; mem_event "5-0" "d"] =
    map (Redis.to_event (lit "k")) (take k mem_log).
Proof.
  destruct mem_stream_run as (w' & Hrun).
  destruct (redis_stream_exact (lit "k") mem_log 3 _ _ _ _ _ Hrun) as (k & Hk). exists k. exact Hk.
Defined.
