(* ===== verification/Csv.v ===== *)
(** * The CSV adapter: [wingfoil/src/adapters/csv/]

    The reader is an iterator over the rows of a file under a [TryIteratorStream], the
    writer a sink. The CSV library and serde are the class [CsvLib] on a world [W];
    a row that does not parse is the library's reason. *)
From S2P Require Import Prelude NanoTime TimeQueue GraphState NodeCalls Iterators Cache NodeWorld.

Class CsvLib (T W : Type) := {
  open_rows : string -> bool -> W -> (string + list (string + T)) * W;
  create_writer : string -> W -> option string * W;
  introspect : list string;
  write_field : string -> W -> option string * W;
  write_record : list string -> W -> option string * W;
  serialize : Z -> T -> W -> option string * W }.

Section csv.
Context {T W : Type} `{!CsvLib T W}.

(** ** [read.rs] *)

Definition csv_row (path : string) (get_time_func : T -> Z) (record : string + T) : Res (ValueAt T) :=
  match record with
  | inr rec => Ok (mkValueAt rec (get_time_func rec))
  | inl e => Err (Context ("csv_read: failed to deserialize row from " +:+ path) (Msg e))
  end.

Definition csv_iterator (path : string) (get_time_func : T -> Z) (has_headers : bool)
  : M W (nat -> option (Res (ValueAt T))) :=
  let! rows := io_or (fun e => Context ("csv_read: failed to open " +:+ path) (Msg e)) (open_rows path has_headers) in
  mreturn (fun n => csv_row path get_time_func <$> rows !! n).

Definition csv_read (path : string) (get_time_func : T -> Z) (has_headers : bool)
  : M W (TryIteratorStream.TryIteratorStream T) :=
  let! it := csv_iterator path get_time_func has_headers in
  mreturn (TryIteratorStream.new it).

(** ** [write.rs] *)

Record CsvWriterNode := mkWriter { upstream : addr; headers_written : bool }.
Definition CsvWriterNode_new (upstream : addr) : CsvWriterNode := mkWriter upstream false.
Definition CsvWriterNode_upstreams (self : CsvWriterNode) : UpStreams := mkUpStreams [upstream self] [].

Definition write_header : M W unit :=
  match introspect with
  | [] => mreturn tt
  | fields =>
    do! io_or_ (fun e => Msg ("Failed to write CSV time header: " +:+ e)) (write_field "time") in
    io_or_ (fun e => Msg ("Failed to write CSV header record: " +:+ e)) (write_record fields)
  end.

(** [up] is the upstream's burst. *)
Definition csv_cycle (up : list T) : NodeM (CsvWriterNode * W) bool :=
  let! self := self_of in
  do! (if headers_written self then mreturn tt
       else do! in_world write_header in set_self (mkWriter (upstream self) true)) in
  let! g := graph in
  do! mfor up (fun rec =>
    in_world (io_or_ (fun e => Msg ("Failed to serialize CSV record: " +:+ e)) (serialize (time g) rec))) in
  mreturn false.

Definition csv_write (up : addr) (path : string) : M W CsvWriterNode :=
  let! r := io (create_writer path) in
  match r with
  | None => mreturn (CsvWriterNode_new up)
  | Some e => mpanic ("csv_write: failed to open " +:+ path +:+ " for writing: " +:+ e)
  end.
End csv.

(** ** What is written *)

Inductive CsvOut (T : Type) := Field (f : string) | Record_ (fs : list string) | Row (time : Z) (x : T).
Arguments Field {T} f.
Arguments Record_ {T} fs.
Arguments Row {T} time x.

(** What the writer has accepted, in order. *)
Class CsvLog (T W : Type) `{!CsvLib T W} := {
  written : W -> list (CsvOut T);
  field_log f w w' : write_field f w = (None, w') -> written w' = written w ++ [Field f];
  record_log fs w w' : write_record fs w = (None, w') -> written w' = written w ++ [Record_ fs];
  serialize_log t x w w' : serialize t x w = (None, w') -> written w' = written w ++ [Row t x] }.

Section written.
Context {T W : Type} `{!CsvLib T W, !CsvLog T W}.
Implicit Types (w : W) (g : GraphState).

Definition header : list (CsvOut T) :=
  match introspect with [] => [] | fields => [Field "time"; Record_ fields] end.

Lemma io_or_none {E} (f : E -> Error) (c : W -> option E * W) w u w' :
  io_or_ f c w = (Ok u, w') -> c w = (None, w').
Proof. unfold io_or_, mbind, io. destruct (c w) as [[e|] w1]; [done|]. by intros [= _ ->]. Qed.

Lemma write_header_log w u w' : write_header w = (Ok u, w') -> written w' = written w ++ header.
Proof.
  unfold write_header, header. destruct introspect as [|f fs]; [intros [= _ ->]; by rewrite app_nil_r|].
  intros E. inv_bind E. apply io_or_none, field_log in E0. apply io_or_none, record_log in E.
  by rewrite E, E0, <-app_assoc.
Qed.

Lemma rows_log {S} (f : string -> Error) t (l : list T) (n : S) w g u n' w' g' :
  mfor l (fun rec => in_world (io_or_ f (serialize t rec))) ((n, w), g) = (Ok u, ((n', w'), g')) ->
  n' = n /\ g' = g /\ written w' = written w ++ map (Row t) l.
Proof.
  revert w. induction l as [|x l IH]; intros w E; cbn [mfor] in E; [injection E as _ <- <- <-; cbn [map]; rewrite (app_nil_r (written w)); by split_and!|].
  inv_bind E. unfold in_world in E0. simpl in E0. destruct (io_or_ f _ w) as [r w1] eqn:Es.
  injection E0 as -> <-. apply io_or_none, serialize_log in Es.
  apply IH in E as (-> & -> & ->). by rewrite Es, <-app_assoc.
Qed.

(** The file: the header before the first burst, even an empty one, then a row for
    every value, in order, with the time of its cycle; the sink never ticks. *)
Lemma csv_cycle_writes n w g up b n' w' g' :
  csv_cycle up ((n, w), g) = (Ok b, ((n', w'), g')) ->
  b = false /\ g' = g /\ n' = mkWriter (upstream n) true /\
  written w' = written w ++ (if headers_written n then [] else header) ++ map (Row (time g)) up.
Proof.
  destruct n as [up_addr hw]. unfold csv_cycle, self_of. cbn [mbind fst]. unfold mbind at 1. cbn [fst headers_written].
  intros E. inv_bind E. destruct s as [[n1 w1] g1].
  assert (H1 : n1 = mkWriter up_addr true /\ g1 = g /\ written w1 = written w ++ (if hw then [] else header)).
  { destruct hw; [injection E0 as _ <- <- <-; by rewrite app_nil_r|].
    inv_bind E0. unfold in_world in E1. simpl in E1. destruct (write_header w) as [r w2] eqn:Eh.
    injection E1 as -> <-. apply write_header_log in Eh. unfold set_self in E0. simpl in E0. by injection E0 as _ <- <- <-. }
  destruct H1 as (-> & -> & Hw1). unfold graph, mbind at 1 in E. cbn [fst snd] in E.
  inv_bind E. destruct s as [[n2 w2] g2]. apply rows_log in E1 as (-> & -> & Hw2).
  injection E as <- <- <- <-. split_and!; [done..|]. by rewrite Hw2, Hw1, <-app_assoc.
Qed.
End written.

(** ** A row that does not parse

    The stream looks one row ahead for the time of its next callback: the run fails
    in the cycle of the row before, whose burst is never seen. *)
Definition demo_rows : list (string + Z) := [inr 1%Z; inr 2%Z; inl "bad field"; inr 4%Z].
Definition demo_stream : TryIteratorStream.TryIteratorStream Z :=
  TryIteratorStream.new (fun n => csv_row "f.csv" id <$> demo_rows !! n).

Example row_before_bad_row_lost :
  let r1 := TryIteratorStream.cycle 9 tt (demo_stream, (source_call 1).1) in
  let r2 := TryIteratorStream.cycle 9 tt (r1.2.1, (source_call 2).1) in
  r1.1 = Ok true /\ TryIteratorStream.value r1.2.1 = [1%Z] /\
  r2.1 = Err (Context "csv_read: failed to deserialize row from f.csv" (Msg "bad field")) /\
  TryIteratorStream.value r2.2.1 = [2%Z].
Proof. vm_compute. by split_and!. Qed.
