(* ===== verification/Web.v ===== *)
(** * The web adapter: [wingfoil/src/adapters/web/], [wingfoil-wire-types/], [wingfoil-wasm/]

    The wire types and their codec, the topics of the server, the task of a
    connection with its forwarders, the two graph nodes, and the codec of the
    browser. Encodings are the class [WireFormat], channels, sockets and tasks the
    class [WebLib] on a world [W]. The tables of the server are shared by all tasks,
    each access under a lock: they are part of the world ([Tables]), and any call that
    waits may find them changed by another task. *)
From S2P Require Import Prelude NanoTime GraphState GraphNodes AsyncNodes Cache Kdb NodeWorld Utf8.

(** ** The wire: [wingfoil-wire-types/src/lib.rs] *)

Definition WIRE_PROTOCOL_VERSION : Z := 2.
Definition CONTROL_TOPIC : bytes := lit "$ctrl".

Record Envelope := mkEnvelope { topic : bytes; time_ns : Z; payload : bytes }.

Inductive CodecKind := Bincode | Json.
Definition CodecKind_default : CodecKind := Bincode.

Inductive ControlMessage :=
| Hello (codec : CodecKind) (version : Z)
| Subscribe (topics : list bytes)
| Unsubscribe (topics : list bytes)
| Complete (topic : bytes).

(** What the two serialization libraries make of a type. *)
Class WireFormat (T : Type) := {
  bincode_serialize : T -> string + bytes;
  bincode_deserialize : bytes -> string + T;
  json_to_vec : T -> string + bytes;
  json_from_slice : bytes -> string + T }.

(** An error of the codec: [{e}] shows [what], [{e:#}] both. *)
Record WireError := mkWireError { what : string; cause : string }.
Definition anyhow (e : WireError) : Error := Context (what e) (Msg (cause e)).

(** [call().context(what)], and the [?] of a chain of such calls. *)
Definition with_context {A} (what : string) (r : string + A) : WireError + A :=
  match r with inr a => inr a | inl e => inl (mkWireError what e) end.
Definition and_then {E A B} (r : E + A) (k : A -> E + B) : E + B :=
  match r with inr a => k a | inl e => inl e end.

Definition encode {T} `{WireFormat T} (self : CodecKind) (value : T) : WireError + bytes :=
  match self with
  | Bincode => with_context "wire codec: bincode encode" (bincode_serialize value)
  | Json => with_context "wire codec: json encode" (json_to_vec value)
  end.
Definition decode {T} `{WireFormat T} (self : CodecKind) (b : bytes) : WireError + T :=
  match self with
  | Bincode => with_context "wire codec: bincode decode" (bincode_deserialize b)
  | Json => with_context "wire codec: json decode" (json_from_slice b)
  end.

(** ** The environment *)

(** [tokio]'s [try_send] and the [recv] of a broadcast, a frame of the socket. *)
Inductive TrySendResult := SendOk | SendFull | SendClosed.
Inductive RecvResult := Frame (b : bytes) | Lagged (n : Z) | RecvClosed.
Inductive WsMessage := Binary (b : bytes) | Text (b : bytes) | Close | Ping | Pong.

(** [B], [Rx] the ends of a broadcast channel, [X], [Rm] of a bounded queue, [H] a
    spawned forwarder, [Wr] the writer task. The calls on a socket are those of
    the connection at hand. *)
Class WebLib (B Rx X Rm H Wr W : Type) := {
  broadcast_channel : Z -> W -> B * W;
  broadcast_send : B -> bytes -> W -> W;
  broadcast_subscribe : B -> W -> Rx * W;
  broadcast_recv : Rx -> W -> RecvResult * W;
  mpsc_channel : Z -> W -> (X * Rm) * W;
  mpsc_try_send : X -> bytes -> W -> TrySendResult * W;
  mpsc_send : X -> bytes -> W -> bool * W;
  mpsc_recv : Rm -> W -> option bytes * W;
  ws_next : W -> option (string + WsMessage) * W;
  ws_send : bytes -> W -> bool * W;
  ws_close : W -> W;
  spawn_forwarder : bytes -> Rx -> X -> W -> H * W;
  abort : H -> W -> W;
  spawn_writer : Rm -> W -> Wr * W;
  abort_writer : Wr -> W -> W;
  drop_and_join : X -> Wr -> W -> W }.

(** ** The server: [server.rs] *)

Definition PUBLISH_BROADCAST_CAPACITY : Z := 1024.
Definition CONNECTION_OUTBOUND_CAPACITY : Z := 1024.
Definition SUBSCRIBE_MPSC_CAPACITY : Z := 1024.

Record WebServerInner (B X : Type) := mkInner {
  codec : CodecKind; pub_topics : gmap bytes B; sub_topics : gmap bytes (list X) }.
Arguments mkInner {B X} _ _ _.
Arguments codec {B X} _.
Arguments pub_topics {B X} _.
Arguments sub_topics {B X} _.
Definition WebServerInner_new {B X} (codec : CodecKind) : WebServerInner B X := mkInner codec ∅ ∅.

(** The tables, in the world. *)
Class Tables (B X W : Type) := {
  tables : W -> WebServerInner B X;
  set_tables : WebServerInner B X -> W -> W }.

Section server.
Context {B Rx X Rm H Wr W : Type} `{!WebLib B Rx X Rm H Wr W, !Tables B X W}.
Context `{!WireFormat Envelope, !WireFormat ControlMessage}.

Definition lock : M W (WebServerInner B X) := fun w => (Ok (tables w), w).
Definition put_pub (p : gmap bytes B) : M W unit :=
  mmodify (fun w => set_tables (mkInner (codec (tables w)) p (sub_topics (tables w))) w).
Definition put_sub (s : gmap bytes (list X)) : M W unit :=
  mmodify (fun w => set_tables (mkInner (codec (tables w)) (pub_topics (tables w)) s) w).

Definition get_or_create_pub_topic (topic : bytes) : M W B :=
  let! self := lock in
  match pub_topics self !! topic with
  | Some sender => mreturn sender
  | None =>
    let! sender := io (broadcast_channel PUBLISH_BROADCAST_CAPACITY) in
    do! put_pub (<[topic := sender]> (pub_topics self)) in
    mreturn sender
  end.

Definition register_sub_sender (topic : bytes) (tx : X) : M W unit :=
  let! self := lock in
  put_sub (<[topic := default [] (sub_topics self !! topic) ++ [tx]]> (sub_topics self)).

(** [senders.retain(...)]: the listeners that are still there. *)
Fixpoint retain_open (payload : bytes) (senders : list X) : M W (list X) :=
  match senders with
  | [] => mreturn []
  | tx :: senders =>
    let! r := io (mpsc_try_send tx payload) in
    let! kept := retain_open payload senders in
    mreturn (match r with SendOk | SendFull => tx :: kept | SendClosed => kept end)
  end.

Definition dispatch_client_payload (topic payload : bytes) : M W unit :=
  let! self := lock in
  match sub_topics self !! topic with
  | None => mreturn tt
  | Some senders =>
    let! kept := retain_open payload senders in
    put_sub (<[topic := kept]> (sub_topics self))
  end.

Definition control_envelope (payload : bytes) : Envelope := mkEnvelope CONTROL_TOPIC 0 payload.
Definition encode_control_frame (codec : CodecKind) (ctrl : ControlMessage) : WireError + bytes :=
  and_then (encode codec ctrl) (fun payload => encode codec (control_envelope payload)).

(** *** A connection *)

Abbreviation Forwarders := (gmap bytes H).

Fixpoint subscribe_all (out : X) (topics : list bytes) (forwarders : Forwarders) : M W Forwarders :=
  match topics with
  | [] => mreturn forwarders
  | topic :: topics =>
    match forwarders !! topic with
    | Some _ => subscribe_all out topics forwarders
    | None =>
      let! sender := get_or_create_pub_topic topic in
      let! rx := io (broadcast_subscribe sender) in
      let! handle := io (spawn_forwarder topic rx out) in
      subscribe_all out topics (<[topic := handle]> forwarders)
    end
  end.

Fixpoint unsubscribe_all (topics : list bytes) (forwarders : Forwarders) : M W Forwarders :=
  match topics with
  | [] => mreturn forwarders
  | topic :: topics =>
    match forwarders !! topic with
    | Some h => do! mmodify (abort h) in unsubscribe_all topics (delete topic forwarders)
    | None => unsubscribe_all topics forwarders
    end
  end.

(** What is done with a frame; one that does not decode is ignored. *)
Definition on_frame (codec : CodecKind) (out : X) (b : bytes) (forwarders : Forwarders) : M W Forwarders :=
  match decode (T := Envelope) codec b with
  | inl _ => mreturn forwarders
  | inr env =>
    if bool_decide (topic env = CONTROL_TOPIC) then
      match decode (T := ControlMessage) codec (payload env) with
      | inl _ => mreturn forwarders
      | inr (Subscribe topics) => subscribe_all out topics forwarders
      | inr (Unsubscribe topics) => unsubscribe_all topics forwarders
      | inr (Hello _ _ | Complete _) => mreturn forwarders
      end
    else do! dispatch_client_payload (topic env) (payload env) in mreturn forwarders
  end.

(** The reader loop: the forwarders when it ends. *)
Fixpoint reader_loop (fuel : nat) (codec : CodecKind) (out : X) (forwarders : Forwarders) : M W Forwarders :=
  match fuel with
  | O => mstuck
  | S fuel =>
    let! msg := io ws_next in
    match msg with
    | None | Some (inl _) | Some (inr Close) => mreturn forwarders
    | Some (inr (Ping | Pong)) => reader_loop fuel codec out forwarders
    | Some (inr (Binary b | Text b)) =>
      let! forwarders := on_frame codec out b forwarders in
      reader_loop fuel codec out forwarders
    end
  end.

Definition abort_all (forwarders : Forwarders) : M W unit :=
  mfor (map_to_list forwarders) (fun f => mmodify (abort f.2)).

Definition handle_socket (fuel : nat) : M W unit :=
  let! self := lock in
  let! queue := io (mpsc_channel CONNECTION_OUTBOUND_CAPACITY) in
  let '(outbound_tx, outbound_rx) := queue in
  let! writer := io (spawn_writer outbound_rx) in
  match encode_control_frame (codec self) (Hello (codec self) WIRE_PROTOCOL_VERSION) with
  | inr hello_bytes =>
    let! sent := io (mpsc_send outbound_tx hello_bytes) in
    if sent : bool then
      let! forwarders := reader_loop fuel (codec self) outbound_tx ∅ in
      do! abort_all forwarders in
      mmodify (drop_and_join outbound_tx writer)
    else mreturn tt
  | inl _ => mmodify (abort_writer writer)
  end.

(** *** The tasks of a connection *)

(** The spawned writer: send until the queue is closed or a send fails. *)
Fixpoint writer_task (fuel : nat) (outbound_rx : Rm) : M W unit :=
  match fuel with
  | O => mstuck
  | S fuel =>
    let! b := io (mpsc_recv outbound_rx) in
    match b with
    | Some b =>
      let! ok := io (ws_send b) in
      if ok : bool then writer_task fuel outbound_rx else mmodify ws_close
    | None => mmodify ws_close
    end
  end.

Fixpoint forward_broadcast (fuel : nat) (rx : Rx) (out : X) : M W unit :=
  match fuel with
  | O => mstuck
  | S fuel =>
    let! r := io (broadcast_recv rx) in
    match r with
    | Frame b =>
      let! sent := io (mpsc_try_send out b) in
      match sent with
      | SendOk | SendFull => forward_broadcast fuel rx out
      | SendClosed => mreturn tt
      end
    | Lagged _ => forward_broadcast fuel rx out
    | RecvClosed => mreturn tt
    end
  end.

(** ** The nodes: [read.rs], [write.rs] *)

(** What [web_sub] does when it is called: the queue of its stream. *)
Definition web_sub (historical_noop : bool) (topic : bytes) : M W (option Rm) :=
  if historical_noop then mreturn None
  else
    let! queue := io (mpsc_channel SUBSCRIBE_MPSC_CAPACITY) in
    do! register_sub_sender topic queue.1 in
    mreturn (Some queue.2).

(** Its stream, for [n] frames; [now] is a reading of the clock. *)
Fixpoint sub_loop {T} `{!WireFormat T, !Clock W} (n : nat) (codec : CodecKind) (topic : bytes) (rx : Rm)
  : M W (list (Item T)) :=
  match n with
  | O => mreturn []
  | S n =>
    let! b := io (mpsc_recv rx) in
    match b with
    | None => mreturn []
    | Some b =>
      match decode (T := T) codec b with
      | inr v => yielding (stamp_all [v]) (sub_loop n codec topic rx)
      | inl e =>
        let! more := sub_loop n codec topic rx in
        mreturn (inl (Msg ("web_sub '" +:+ text topic +:+ "': " +:+ what e)) :: more)
      end
    end
  end.

Definition web_sub_stream {T} `{!WireFormat T, !Clock W} (n : nat) (codec : CodecKind) (topic : bytes)
    (rx_opt : option Rm) (ctx : RunParams) : M W (list (Item T)) :=
  match rp_mode ctx, rx_opt with
  | HistoricalFrom _, _ | _, None => mreturn []
  | RealTime, Some rx => sub_loop n codec topic rx
  end.

Definition web_pub (topic : bytes) : M W B := get_or_create_pub_topic topic.

Definition frame {T} `{!WireFormat T} (codec : CodecKind) (topic : bytes) (item : Z * T) : WireError + bytes :=
  and_then (encode codec item.2) (fun payload => encode codec (mkEnvelope topic item.1 payload)).

Definition encode_complete_frame (codec : CodecKind) (topic : bytes) : WireError + bytes :=
  encode_control_frame codec (Complete topic).

(** [?] in the closure. *)
Definition or_fail {A} (r : WireError + A) : M W A := match r with inr a => mreturn a | inl e => mfail (anyhow e) end.

(** The consumer's closure; [sender] is the topic's. *)
Definition web_pub_consumer {T} `{!WireFormat T} (codec : CodecKind) (historical_noop : bool) (topic : bytes)
    (sender : B) (source : list (Z * T)) : M W unit :=
  if historical_noop then mreturn tt
  else
    do! mfor source (fun item =>
          let! b := or_fail (frame codec topic item) in
          mmodify (broadcast_send sender b)) in
    let! b := or_fail (encode_complete_frame codec topic) in
    mmodify (broadcast_send sender b).
End server.

(** ** Starting and stopping the server *)

(** The rest of the environment of [start]: [Li] a bound listener, [Sh] the sender
    that asks for shutdown, [Th] the server's thread, [F] an open file, [Ce], [Ke],
    [Co] certificates, a key, and the TLS configuration made of them. *)
Class WebHost (Li Sh Th F Ce Ke Co B X W : Type) := {
  tcp_bind : bytes -> W -> (string + Li) * W;
  local_port : Li -> W -> (string + Z) * W;
  file_open : bytes -> W -> (string + F) * W;
  pem_certs : F -> W -> (string + list Ce) * W;
  pem_private_key : F -> W -> (string + option Ke) * W;
  protocol_versions : option string;
  single_cert : list Ce -> Ke -> string + Co;
  oneshot : W -> Sh * W;
  spawn_server : Li -> option bytes -> option Co -> WebServerInner B X -> W -> (string + Th) * W;
  send_shutdown : Sh -> W -> W;
  join_server : Th -> W -> W }.

Record TlsPaths := mkTlsPaths { cert_path : bytes; key_path : bytes }.
Record WebServerBuilder := mkBuilder {
  addr : bytes; builder_codec : CodecKind; static_dir : option bytes; tls_paths : option TlsPaths }.

Module WebServerBuilder.
Definition codec (c : CodecKind) (b : WebServerBuilder) : WebServerBuilder :=
  mkBuilder (addr b) c (static_dir b) (tls_paths b).
Definition serve_static (dir : bytes) (b : WebServerBuilder) : WebServerBuilder :=
  mkBuilder (addr b) (builder_codec b) (Some dir) (tls_paths b).
Definition tls (cert_path key_path : bytes) (b : WebServerBuilder) : WebServerBuilder :=
  mkBuilder (addr b) (builder_codec b) (static_dir b) (Some (mkTlsPaths cert_path key_path)).
End WebServerBuilder.

Section host.
Context {Li Sh Th F Ce Ke Co B X W : Type} `{!WebHost Li Sh Th F Ce Ke Co B X W}.

(** [call().with_context(|| what)?]. *)
Definition io_ctx {A} (what : string) (f : W -> (string + A) * W) : M W A := io_or (fun e => Context what (Msg e)) f.
Definition or_ctx {A} (what : string) (r : string + A) : M W A :=
  match r with inr a => mreturn a | inl e => mfail (Context what (Msg e)) end.

Definition load_tls_config (paths : TlsPaths) : M W Co :=
  let! cert_reader := io_ctx ("web-tls: open cert " +:+ text (cert_path paths)) (file_open (cert_path paths)) in
  let! certs := io_ctx ("web-tls: parse cert " +:+ text (cert_path paths)) (pem_certs cert_reader) in
  if bool_decide (certs = []) then mfail (Msg ("web-tls: no certificates found in " +:+ text (cert_path paths)))
  else
    let! key_reader := io_ctx ("web-tls: open key " +:+ text (key_path paths)) (file_open (key_path paths)) in
    let! key := io_ctx ("web-tls: parse key " +:+ text (key_path paths)) (pem_private_key key_reader) in
    match key with
    | None => mfail (Msg ("web-tls: no private key found in " +:+ text (key_path paths)))
    | Some key =>
      do! or_ctx "web-tls: rustls protocol versions"
            (match protocol_versions with None => inr tt | Some e => inl e end) in
      or_ctx "web-tls: build rustls ServerConfig" (single_cert certs key)
    end.

Record WebServer := mkServer {
  port : Z; shutdown_tx : option Sh; thread : option Th; historical_noop : bool; server_tls : bool }.

Definition bind (addr : bytes) : WebServerBuilder := mkBuilder addr Bincode None None.

(** The server and its tables. *)
Definition start (self : WebServerBuilder) : M W (WebServer * WebServerInner B X) :=
  let! listener := io_ctx ("web: bind to " +:+ text (addr self)) (tcp_bind (addr self)) in
  let! port := io_ctx "web: local_addr" (local_port listener) in
  let! tls_config := match tls_paths self with
                     | Some paths => let! c := load_tls_config paths in mreturn (Some c)
                     | None => mreturn None
                     end in
  let is_tls := match tls_config with Some _ => true | None => false end in
  let inner := WebServerInner_new (builder_codec self) in
  let! shutdown_tx := io oneshot in
  let! handle := io_ctx "web: spawn server thread" (spawn_server listener (static_dir self) tls_config inner) in
  mreturn (mkServer port (Some shutdown_tx) (Some handle) false is_tls, inner).

Definition start_historical (self : WebServerBuilder) : M W (WebServer * WebServerInner B X) :=
  mreturn (mkServer 0 None None true false, WebServerInner_new (builder_codec self)).

Definition stop (self : WebServer) : M W WebServer :=
  do! match shutdown_tx self with Some tx => mmodify (send_shutdown tx) | None => mreturn tt end in
  do! match thread self with Some handle => mmodify (join_server handle) | None => mreturn tt end in
  mreturn (mkServer (port self) None None (historical_noop self) (server_tls self)).
End host.

(** ** The browser's codec: [wingfoil-wasm/src/lib.rs] *)

(** [Js] a JavaScript value, [Jv] a [serde_json::Value]; [e] in the texts is the
    library's own. *)
Class JsLib (Js Jv : Type) := {
  json_stringify : Js -> string + bytes;
  json_parse : bytes -> string + Js;
  from_value : Js -> string + Jv;
  to_value : Jv -> string + Js;
  control_to_value : ControlMessage -> string + Js;
  envelope_to_value : Envelope -> string + Js;
  utf8_error : bytes -> string }.

Section wasm.
Context {Js Jv : Type} `{!JsLib Js Jv, !WireFormat Jv, !WireFormat Envelope, !WireFormat ControlMessage}.
Abbreviation JsResult A := (string + A)%type.

(** [{e:#}]. *)
Definition to_js_error (e : WireError) : string := what e +:+ ": " +:+ cause e.
Definition map_err {E E' A} (f : E -> E') (r : E + A) : E' + A := match r with inr a => inr a | inl e => inl (f e) end.
Definition prefixed (p e : string) : string := p +:+ ": " +:+ e.

Definition wire_version : Z := WIRE_PROTOCOL_VERSION.
Definition control_topic : bytes := CONTROL_TOPIC.

Definition parse_codec (s : bytes) : JsResult CodecKind :=
  if bool_decide (s = lit "bincode") then inr Bincode
  else if bool_decide (s = lit "json") then inr Json
  else inl ("unknown codec '" +:+ text s +:+ "' (expected 'bincode' or 'json')").

Definition decode_envelope (codec b : bytes) : JsResult Js :=
  and_then (parse_codec codec) (fun c =>
  and_then (map_err to_js_error (decode c b)) (fun env =>
  map_err (prefixed "envelope to JS") (envelope_to_value env))).

Definition encode_envelope (codec topic : bytes) (time_ns : Z) (payload : bytes) : JsResult bytes :=
  and_then (parse_codec codec) (fun c => map_err to_js_error (encode c (mkEnvelope topic time_ns payload))).

Definition js_control_frame (codec : bytes) (ctrl : ControlMessage) : JsResult bytes :=
  and_then (parse_codec codec) (fun c =>
  and_then (map_err to_js_error (encode c ctrl)) (fun payload =>
  map_err to_js_error (encode c (mkEnvelope CONTROL_TOPIC 0 payload)))).
Definition encode_subscribe (codec : bytes) (topics : list bytes) : JsResult bytes :=
  js_control_frame codec (Subscribe topics).
Definition encode_unsubscribe (codec : bytes) (topics : list bytes) : JsResult bytes :=
  js_control_frame codec (Unsubscribe topics).

Definition encode_payload (codec topic : bytes) (value : Js) : JsResult bytes :=
  and_then (parse_codec codec) (fun c =>
  and_then (match c with
            | Json => map_err (prefixed "encode_payload: JSON.stringify") (json_stringify value)
            | Bincode =>
              and_then (map_err (prefixed "encode_payload: from JS") (from_value value)) (fun json =>
              map_err to_js_error (encode c json))
            end) (fun payload =>
  map_err to_js_error (encode c (mkEnvelope topic 0 payload)))).

Definition decode_payload (codec b : bytes) : JsResult Js :=
  and_then (parse_codec codec) (fun c =>
  match c with
  | Json =>
    if utf8_valid b then map_err (prefixed "decode_payload: JSON.parse") (json_parse b)
    else inl (prefixed "decode_payload: utf8" (utf8_error b))
  | Bincode =>
    and_then (map_err to_js_error (decode (T := Jv) c b)) (fun json =>
    map_err (prefixed "decode_payload: to JS") (to_value json))
  end).

Definition decode_control (codec b : bytes) : JsResult Js :=
  and_then (parse_codec codec) (fun c =>
  and_then (map_err to_js_error (decode c b)) (fun ctrl =>
  map_err (prefixed "decode_control") (control_to_value ctrl))).
End wasm.
