(* ===== verification/WebProps.v ===== *)
(** * What the web adapter guarantees

    A connection ends without leaving a forwarder behind, whatever its client
    sends; a client sees a subsequence of what was published, and all of it when
    nothing is dropped; what the browser encodes is what the server acts on. *)
From S2P Require Import Prelude NanoTime GraphState GraphNodes AsyncNodes Cache Kdb NodeWorld Utf8 Web.
From Stdlib Require Import Strings.Ascii.

(** ** The forwarders of a connection *)

Module WebTasks.
Section tasks.
Context {B Rx X Rm H Wr W : Type} `{!WebLib B Rx X Rm H Wr W, !Tables B X W}.

(** [live out w h]: the task [h] forwards into the queue [out] and has neither
    ended nor been aborted. [backlog w]: a bound on the messages the client still
    sends. Tasks may end at any time; only [spawn] makes one. *)
Class TaskLaws (live : X -> W -> H -> Prop) (for_topic : H -> bytes) (backlog : W -> nat) := {
  queue_fresh n w q w' h : mpsc_channel n w = (q, w') -> ~ live q.1 w' h;
  queue_backlog n w q w' : mpsc_channel n w = (q, w') -> backlog w' <= backlog w;
  spawn_live t rx out w h w' : spawn_forwarder t rx out w = (h, w') ->
    for_topic h = t /\ backlog w' <= backlog w /\ forall h', live out w' h' -> h' = h \/ live out w h';
  abort_live out h w h' : live out (abort h w) h' -> h' <> h /\ live out w h';
  abort_backlog h w : backlog (abort h w) <= backlog w;
  next_backlog w x w' : ws_next w = (Some x, w') -> backlog w' < backlog w }.

(** What every other call leaves: no new forwarder, no new message. *)
Definition Quiet (live : X -> W -> H -> Prop) (backlog : W -> nat) (w w' : W) : Prop :=
  (forall out h, live out w' h -> live out w h) /\ backlog w' <= backlog w.
#[export] Instance Quiet_preorder live backlog : PreOrder (Quiet live backlog).
Proof.
  split; [done|]. intros a b c [H1 H2] [H3 H4]. split; [by eauto|lia].
Qed.

Class QuietLaws (live : X -> W -> H -> Prop) (backlog : W -> nat) := {
  channel_quiet n : respects (Quiet live backlog) (io (broadcast_channel n));
  subscribe_quiet b : respects (Quiet live backlog) (io (broadcast_subscribe b));
  try_send_quiet x b : respects (Quiet live backlog) (io (mpsc_try_send x b));
  send_quiet x b : respects (Quiet live backlog) (io (mpsc_send x b));
  next_quiet : respects (Quiet live backlog) (io ws_next);
  writer_quiet rm : respects (Quiet live backlog) (io (spawn_writer rm));
  abort_writer_quiet h : respects (Quiet live backlog) (mmodify (abort_writer h));
  join_quiet x h : respects (Quiet live backlog) (mmodify (drop_and_join x h));
  tables_quiet t : respects (Quiet live backlog) (mmodify (set_tables t)) }.
End tasks.
End WebTasks.
Import WebTasks.

(** A computation that always returns. *)
Definition returns {W A} (m : M W A) : Prop := forall w, exists a w', m w = (Ok a, w').

Lemma returns_io {W A} (f : W -> A * W) : returns (io f).
Proof. intros w. unfold io. destruct (f w). eauto. Qed.
Lemma returns_bind {W A B} (m : M W A) (k : A -> M W B) :
  returns m -> (forall a, returns (k a)) -> returns (mbind m k).
Proof. intros Hm Hk w. unfold mbind. destruct (Hm w) as (a & w1 & ->). apply Hk. Qed.
Lemma returns_return {W A} (a : A) : returns (W := W) (mreturn a).
Proof. intros w. unfold mreturn. eauto. Qed.
Lemma returns_modify {W} (f : W -> W) : returns (mmodify f).
Proof. intros w. unfold mmodify. eauto. Qed.
#[export] Hint Resolve returns_io returns_bind returns_return returns_modify : wingfoil.

Section connection.
Context {B Rx X Rm H Wr W : Type} `{!WebLib B Rx X Rm H Wr W, !Tables B X W}.
Context `{!WireFormat Envelope, !WireFormat ControlMessage}.
Context (live : X -> W -> H -> Prop) (for_topic : H -> bytes) (backlog : W -> nat).
Context `{!TaskLaws live for_topic backlog, !QuietLaws live backlog}.
Abbreviation Q := (Quiet live backlog).

Lemma lock_quiet : respects Q lock.
Proof. by intros w r w' [= <- <-]. Qed.
Lemma lock_returns : returns lock.
Proof. intros w. unfold lock. eauto. Qed.
Lemma put_pub_returns p : returns (put_pub p).
Proof. apply returns_modify. Qed.
Lemma put_sub_returns p : returns (put_sub p).
Proof. apply returns_modify. Qed.
#[local] Hint Resolve lock_returns put_pub_returns put_sub_returns : wingfoil.

Lemma put_pub_quiet p : respects Q (put_pub p).
Proof. intros w r w' [= <- <-]. by eapply (tables_quiet _ w). Qed.
Lemma put_sub_quiet p : respects Q (put_sub p).
Proof. intros w r w' [= <- <-]. by eapply (tables_quiet _ w). Qed.

Lemma get_or_create_quiet t : respects Q (get_or_create_pub_topic t) /\ returns (get_or_create_pub_topic t).
Proof.
  unfold get_or_create_pub_topic. split.
  - apply respects_bind; [apply _|apply lock_quiet|]. intros self. destruct (pub_topics self !! t).
    + apply respects_return, _.
    + apply respects_bind; [apply _|apply channel_quiet|]. intros s.
      apply respects_bind; [apply _|apply put_pub_quiet|]. intros _. apply respects_return, _.
  - apply returns_bind; [auto with wingfoil|]. intros self. destruct (pub_topics self !! t); auto 6 with wingfoil.
Qed.

Lemma dispatch_quiet t p : respects Q (dispatch_client_payload t p) /\ returns (dispatch_client_payload t p).
Proof.
  assert (Hr : forall l, respects Q (retain_open p l) /\ returns (retain_open p l)).
  { induction l as [|x l [IH1 IH2]]; cbn [retain_open]; [split; [apply respects_return, _|auto with wingfoil]|].
    split.
    - apply respects_bind; [apply _|apply try_send_quiet|]. intros r.
      apply respects_bind; [apply _|done|]. intros kept. apply respects_return, _.
    - apply returns_bind; [auto with wingfoil|]. intros r. apply returns_bind; auto with wingfoil. }
  unfold dispatch_client_payload. split.
  - apply respects_bind; [apply _|apply lock_quiet|]. intros self. destruct (sub_topics self !! t) as [l|].
    + apply respects_bind; [apply _|apply Hr|]. intros k. apply put_sub_quiet.
    + apply respects_return, _.
  - apply returns_bind; [auto with wingfoil|]. intros self. destruct (sub_topics self !! t) as [l|]; [|auto with wingfoil].
    apply returns_bind; [apply Hr|auto with wingfoil].
Qed.

(** The invariant of the reader loop: what is alive is in its table, under the
    topic it forwards; so no topic is forwarded twice. *)
Definition Tracked (out : X) (forwarders : gmap bytes H) (w : W) : Prop :=
  forall h, live out w h -> forwarders !! for_topic h = Some h.

Lemma quiet_tracked out f w w' : Q w w' -> Tracked out f w -> Tracked out f w'.
Proof. intros [Hl _] Hf h Hh. by apply Hf, Hl. Qed.

(** From [w], [m] returns forwarders that are tracked. *)
Definition keeps (out : X) (m : M W (gmap bytes H)) (w : W) : Prop :=
  exists f' w', m w = (Ok f', w') /\ Tracked out f' w' /\ backlog w' <= backlog w.

Lemma subscribe_all_keeps out topics f w : Tracked out f w -> keeps out (subscribe_all out topics f) w.
Proof.
  revert f w. induction topics as [|t topics IH]; intros f w Hf; cbn [subscribe_all]; [by exists f, w|].
  destruct (f !! t) as [h|] eqn:Et; [by apply IH|].
  destruct (proj2 (get_or_create_quiet t) w) as (s & w1 & E1). unfold keeps, mbind at 1. rewrite E1.
  pose proof (proj1 (get_or_create_quiet t) _ _ _ E1) as HQ1.
  unfold mbind at 1, io at 1. destruct (broadcast_subscribe s w1) as [rx w2] eqn:E2.
  assert (HQ2 : Q w1 w2) by (eapply (subscribe_quiet s w1); unfold io; by rewrite E2).
  unfold mbind at 1, io at 1. destruct (spawn_forwarder t rx out w2) as [h w3] eqn:E3.
  apply spawn_live in E3 as (Ht & Hb & Hl).
  apply (quiet_tracked _ _ _ _ HQ1), (quiet_tracked _ _ _ _ HQ2) in Hf.
  destruct (IH (<[t := h]> f) w3) as (f' & w' & Er & Hf' & Hb').
  - intros h' [->|Hh']%Hl; [rewrite Ht; apply lookup_insert_eq|]. pose proof (Hf h' Hh') as Hfh.
    rewrite lookup_insert_ne; [done|]. intros E. rewrite <-E in Hfh. congruence.
  - exists f', w'. split_and!; [exact Er|done|]. destruct HQ1, HQ2. lia.
Qed.

Lemma unsubscribe_all_keeps out topics f w : Tracked out f w -> keeps out (unsubscribe_all topics f) w.
Proof.
  revert f w. induction topics as [|t topics IH]; intros f w Hf; cbn [unsubscribe_all]; [by exists f, w|].
  destruct (f !! t) as [h|] eqn:Et; [|by apply IH].
  unfold keeps, mbind, mmodify at 1. destruct (IH (delete t f) (abort h w)) as (f' & w' & Er & Hf' & Hb').
  - intros h' [Hne Hh']%abort_live. pose proof (Hf h' Hh') as Hfh. rewrite lookup_delete_ne; [done|].
    intros ->. congruence.
  - exists f', w'. split_and!; [exact Er|done|]. pose proof (abort_backlog h w). lia.
Qed.

Lemma on_frame_keeps codec out b f w : Tracked out f w -> keeps out (on_frame codec out b f) w.
Proof.
  intros Hf. assert (Hn : keeps out (mreturn f) w) by by exists f, w.
  unfold on_frame. destruct (decode codec b) as [e|env]; [done|]. case_bool_decide.
  - destruct (decode codec (payload env)) as [e|[]]; try done.
    + by apply subscribe_all_keeps.
    + by apply unsubscribe_all_keeps.
  - destruct (dispatch_quiet (topic env) (payload env)) as [HQ Hr]. destruct (Hr w) as (u & w1 & E).
    exists f, w1. unfold mbind. rewrite E. apply HQ in E. split_and!; [done|by eapply quiet_tracked|apply E].
Qed.

Lemma reader_loop_keeps fuel codec out f w :
  backlog w < fuel -> Tracked out f w -> keeps out (reader_loop fuel codec out f) w.
Proof.
  revert f w. induction fuel as [|fuel IH]; intros f w Hfuel Hf; [lia|].
  cbn [reader_loop]. unfold keeps, mbind at 1, io. destruct (ws_next w) as [msg w1] eqn:En.
  assert (HQ : Q w w1) by (eapply (next_quiet w); unfold io; by rewrite En).
  apply (quiet_tracked _ _ _ _ HQ) in Hf. destruct HQ as [_ Hb].
  assert (Hstop : exists f' w', (mreturn f : M W _) w1 = (Ok f', w') /\ Tracked out f' w' /\ backlog w' <= backlog w)
    by by exists f, w1.
  assert (Hgo : forall f2 w2, backlog w2 <= backlog w1 -> Tracked out f2 w2 -> msg <> None ->
    exists f' w', reader_loop fuel codec out f2 w2 = (Ok f', w') /\ Tracked out f' w' /\ backlog w' <= backlog w).
  { intros f2 w2 Hb2 Hf2 Hm. destruct msg as [x|]; [|done]. apply next_backlog in En.
    destruct (IH f2 w2) as (f' & w' & Er & Hf' & Hb'); [lia|done|]. exists f', w'. split_and!; [done..|lia]. }
  destruct msg as [[e|[b|b| | |]]|]; try done; try by apply Hgo.
  all: destruct (on_frame_keeps codec out b f w1 Hf) as (f2 & w2 & E & Hf2 & Hb2).
  all: unfold mbind; rewrite E; by apply Hgo.
Qed.

(** Aborting what is tracked leaves nothing alive. *)
Lemma abort_all_clears out f w : Tracked out f w ->
  exists w', abort_all f w = (Ok tt, w') /\ forall h, ~ live out w' h.
Proof.
  intros Hf. unfold abort_all.
  assert (Hgen : forall (l : list (bytes * H)) w, (forall h, live out w h -> exists t, (t, h) ∈ l) ->
    exists w', mfor l (fun f => mmodify (abort f.2)) w = (Ok tt, w') /\ forall h, ~ live out w' h).
  { clear Hf w. induction l as [|[t h] l IH]; intros w Hl; cbn [mfor].
    - exists w. split; [done|]. intros h Hh. destruct (Hl h Hh) as [t Ht]. set_solver.
    - unfold mbind, mmodify. apply IH. intros h' [Hne Hh']%abort_live.
      destruct (Hl h' Hh') as [t' Ht']. exists t'. set_solver. }
  apply Hgen. intros h Hh. exists (for_topic h). apply elem_of_map_to_list. by apply Hf.
Qed.

(** C31: Whatever a client sends -- text, garbage, the same topic twice, a
    subscription it never cancels -- the task of its connection returns, and leaves
    no forwarder alive on the connection's queue. *)
Theorem handle_socket_cleans_up (fuel : nat) (w w1 : W) (queue : X * Rm)
    (Hq : mpsc_channel CONNECTION_OUTBOUND_CAPACITY w = (queue, w1)) (Hfuel : backlog w < fuel) :
  exists w', handle_socket fuel w = (Ok tt, w') /\ forall h, ~ live queue.1 w' h.
Proof.
  destruct queue as [out rm].
  pose proof (queue_backlog _ _ _ _ Hq) as Hb. pose proof (fun h => queue_fresh _ _ _ _ h Hq) as Hnone. simpl in Hnone.
  assert (Hdone : forall w2, Q w1 w2 -> forall h, ~ live out w2 h)
    by (intros w2 [Hl _] h Hh; by apply (Hnone h), Hl).
  unfold handle_socket, mbind at 1, lock at 1. unfold mbind at 1, io at 1. rewrite Hq.
  unfold mbind at 1, io at 1. destruct (spawn_writer rm w1) as [wr w2] eqn:Ew.
  assert (HQ2 : Q w1 w2) by (eapply (writer_quiet rm w1); unfold io; by rewrite Ew).
  destruct (encode_control_frame _ _) as [e|hello].
  { exists (abort_writer wr w2). split; [done|]. apply Hdone. transitivity w2; [done|].
    by eapply (abort_writer_quiet wr w2). }
  unfold mbind at 1, io at 1. destruct (mpsc_send out hello w2) as [sent w3] eqn:Es.
  assert (HQ3 : Q w1 w3).
  { transitivity w2; [done|]. eapply (send_quiet out hello w2). unfold io. by rewrite Es. }
  destruct sent; [|by exists w3; split; [|apply Hdone]].
  destruct (reader_loop_keeps fuel (codec (tables w)) out ∅ w3) as (f & w4 & E4 & Hf & _).
  { destruct HQ3. lia. }
  { intros h Hh. by destruct (Hdone w3 HQ3 h). }
  destruct (abort_all_clears out f w4 Hf) as (w5 & E5 & Hnone5).
  exists (drop_and_join out wr w5). unfold mbind. rewrite E4, E5. split; [done|].
  intros h Hh. apply (Hnone5 h). assert (HQ6 : Q w5 (drop_and_join out wr w5)) by by eapply (join_quiet out wr w5).
  by apply HQ6.
Qed.
End connection.

(** ** What a client is sent *)

Section broadcast.
Context {B Rx X Rm H Wr W : Type} `{!WebLib B Rx X Rm H Wr W}.

(** [unread rx w]: the frames sent since [rx] subscribed that it has not been given,
    [accepted out w]: those its forwarder got into the client's queue. A receiver
    that lags skips frames, and other tasks send while a task waits. *)
Class BroadcastLaws (unread : Rx -> W -> list bytes) (accepted : X -> W -> list bytes) := {
  recv_unread rx w x w' : broadcast_recv rx w = (x, w') ->
    exists arrived, match x with
      | Frame b => unread rx w ++ arrived = b :: unread rx w'
      | Lagged _ => exists skipped, unread rx w ++ arrived = skipped ++ unread rx w'
      | RecvClosed => arrived = [] /\ unread rx w' = unread rx w
      end;
  recv_accepted rx out w x w' : broadcast_recv rx w = (x, w') -> accepted out w' = accepted out w;
  try_send_unread rx out b w x w' : mpsc_try_send out b w = (x, w') ->
    exists arrived, unread rx w' = unread rx w ++ arrived;
  try_send_accepted out b w x w' : mpsc_try_send out b w = (x, w') ->
    accepted out w' = accepted out w ++ (if x is SendOk then [b] else []) }.

Context (unread : Rx -> W -> list bytes) (accepted : X -> W -> list bytes) `{!BroadcastLaws unread accepted}.

(** A forwarder passes on some of the frames of its topic, in their order: what it
    does not pass on is dropped, never delayed past a later frame, never repeated. *)
Lemma forward_broadcast_subsequence fuel rx out w r w' : forward_broadcast fuel rx out w = (r, w') ->
  exists arrived seen l, unread rx w ++ arrived = seen ++ unread rx w' /\
    accepted out w' = accepted out w ++ l /\ l `sublist_of` seen.
Proof.
  revert w. induction fuel as [|fuel IH]; intros w E; cbn [forward_broadcast] in E.
  { injection E as <- <-. exists [], [], []. by rewrite !app_nil_r. }
  unfold mbind at 1, io at 1 in E. destruct (broadcast_recv rx w) as [x w1] eqn:Er.
  pose proof (recv_accepted _ out _ _ _ Er) as Ha. apply recv_unread in Er as (arr & Hx).
  assert (Hgo : forall skipped, unread rx w ++ arr = skipped ++ unread rx w1 ->
    forward_broadcast fuel rx out w1 = (r, w') ->
    exists arrived seen l, unread rx w ++ arrived = seen ++ unread rx w' /\
      accepted out w' = accepted out w ++ l /\ l `sublist_of` seen).
  { intros skipped Hs (arr2 & seen & l & Hu & Hac & Hl)%IH. exists (arr ++ arr2), (skipped ++ seen), l.
    split_and!; [by rewrite app_assoc, Hs, <-!app_assoc, Hu|by rewrite Hac, Ha|by apply sublist_inserts_l]. }
  destruct x as [b|n|]; [|by destruct Hx as [s Hs]; eapply Hgo|].
  2:{ injection E as <- <-. exists [], [], []. destruct Hx as [_ ->]. by rewrite !app_nil_r, Ha. }
  unfold mbind at 1, io at 1 in E. destruct (mpsc_try_send out b w1) as [s w2] eqn:Es.
  pose proof (try_send_accepted _ _ _ _ _ Es) as Ha2. apply (try_send_unread rx) in Es as (arr1 & Hu1).
  assert (Hend : (r, w') = (r, w2) \/ forward_broadcast fuel rx out w2 = (r, w')).
  { destruct s; [by right..|]. injection E as <- <-. by left. }
  assert (Hf : exists arr2 seen l, unread rx w2 ++ arr2 = seen ++ unread rx w' /\
    accepted out w' = accepted out w2 ++ l /\ l `sublist_of` seen).
  { destruct Hend as [[= ->]|(arr2 & seen & l & H')%IH]; [|by exists arr2, seen, l].
    exists [], [], []. by rewrite !app_nil_r. }
  destruct Hf as (arr2 & seen & l & Hu & Hac & Hl).
  exists (arr ++ arr1 ++ arr2), (b :: seen), ((if s is SendOk then [b] else []) ++ l). split_and!.
  - rewrite app_assoc, Hx. cbn [app]. by rewrite app_assoc, <-Hu1, Hu.
  - by rewrite Hac, Ha2, Ha, <-app_assoc.
  - destruct s; [by apply sublist_skip|by apply sublist_cons..].
Qed.
End broadcast.

Lemma omap_sublist {A C} (f : A -> option C) l1 l2 : l1 `sublist_of` l2 -> omap f l1 `sublist_of` omap f l2.
Proof.
  induction 1 as [|x l1 l2 _ IH|x l1 l2 _ IH]; cbn [omap list_omap]; [done|..]; destruct (f x); [| done| |done].
  - by apply sublist_skip.
  - by apply sublist_cons.
Qed.

(** What is encoded decodes to itself. *)
Class RoundTrip (T : Type) `{WireFormat T} :=
  decode_encode c (v : T) b : encode c v = inr b -> decode c b = inr v.

Section stream.
Context {B Rx X Rm H Wr W : Type} `{!WebLib B Rx X Rm H Wr W}.
Context {T : Type} `{!WireFormat T, !WireFormat Envelope, !WireFormat ControlMessage}.
Context `{!RoundTrip T, !RoundTrip Envelope, !RoundTrip ControlMessage}.

(** What a client of [topic] makes of a frame: the time and the value, or nothing. *)
Definition received (codec : CodecKind) (topic b : bytes) : option (Z * T) :=
  match decode codec b with
  | inr env =>
    if bool_decide (Web.topic env = topic) then
      match decode codec (payload env) with inr v => Some (time_ns env, v) | inl _ => None end
    else None
  | inl _ => None
  end.

(** Whether a frame says that the stream of [topic] is complete. *)
Definition says_complete (codec : CodecKind) (topic b : bytes) : bool :=
  match decode codec b with
  | inr env =>
    bool_decide (Web.topic env = CONTROL_TOPIC) &&
    match decode codec (payload env) with inr (Complete t) => bool_decide (t = topic) | _ => false end
  | inl _ => false
  end.

Lemma frame_received codec topic (item : Z * T) b : frame codec topic item = inr b -> received codec topic b = Some item.
Proof.
  unfold frame, and_then, received. destruct (encode codec item.2) as [e|p] eqn:Ep; [done|]. intros Eb.
  apply decode_encode in Ep, Eb. rewrite Eb. simpl. rewrite bool_decide_true, Ep by done. by destruct item.
Qed.

Lemma complete_received codec topic b : topic <> CONTROL_TOPIC -> encode_complete_frame codec topic = inr b ->
  received codec topic b = None /\ says_complete codec topic b = true.
Proof.
  intros Ht. unfold encode_complete_frame, encode_control_frame, and_then, received, says_complete.
  destruct (encode codec (Complete topic)) as [e|p] eqn:Ep; [done|]. intros Eb.
  apply decode_encode in Ep, Eb. rewrite Eb. simpl. rewrite Ep.
  split; [by rewrite bool_decide_false by congruence|by rewrite !bool_decide_true].
Qed.

(** What has been broadcast through a sender. *)
Class SentLaw (sent : B -> W -> list bytes) := broadcast_sent s b w : sent s (broadcast_send s b w) = sent s w ++ [b].
Context (sent : B -> W -> list bytes) `{!SentLaw sent}.

Lemma web_pub_frames codec topic sender (source : list (Z * T)) w u w' :
  web_pub_consumer codec false topic sender source w = (Ok u, w') ->
  exists frames last, sent sender w' = sent sender w ++ frames ++ [last] /\
    Forall2 (fun item b => frame codec topic item = inr b) source frames /\
    encode_complete_frame codec topic = inr last.
Proof.
  unfold web_pub_consumer. intros E. inv_bind E. inv_bind E.
  unfold or_fail in E1. destruct (encode_complete_frame codec topic) as [e|last]; [done|].
  injection E1 as <- <-. injection E as _ <-.
  assert (Hs : exists frames, sent sender s = sent sender w ++ frames /\
    Forall2 (fun item b => frame codec topic item = inr b) source frames).
  { revert w a E0. induction source as [|item source IH]; intros w a E0; cbn [mfor] in E0.
    { injection E0 as <- <-. exists []. by rewrite app_nil_r. }
    inv_bind E0. inv_bind E. unfold or_fail in E1. destruct (frame codec topic item) as [e|b] eqn:Eb; [done|].
    injection E1 as <- <-. injection E as <- <-. apply IH in E0 as (frames & Hf & Hall).
    exists (b :: frames). split; [|by constructor]. by rewrite Hf, broadcast_sent, <-app_assoc. }
  destruct Hs as (frames & Hf & Hall). exists frames, last. split_and!; [|done..].
  by rewrite broadcast_sent, Hf, <-app_assoc.
Qed.

(** C30: A client sees a subsequence of the published stream. If [web_pub] has
    published its source and a client has been passed any subsequence of the frames
    broadcast, then the values it decodes are a subsequence of the source, each with
    its own time; a client that was passed every frame has seen the whole source, and
    was told at the end, and not before, that the stream is complete. The topic is
    not the control topic, the codec reads back what it writes, and the run is not
    historical, where nothing is published. *)
Theorem web_client_sees (codec : CodecKind) (topic : bytes) (sender : B) (source : list (Z * T)) (w w' : W)
    (Ht : topic <> CONTROL_TOPIC)
    (Hpub : web_pub_consumer codec false topic sender source w = (Ok tt, w')) :
  exists frames, sent sender w' = sent sender w ++ frames /\
    (forall passed, passed `sublist_of` frames -> omap (received codec topic) passed `sublist_of` source) /\
    omap (received codec topic) frames = source /\
    exists before last, frames = before ++ [last] /\ says_complete codec topic last = true /\
      Forall (fun b => says_complete codec topic b = false) before.
Proof.
  apply web_pub_frames in Hpub as (frames & last & Hs & Hf & Hl).
  apply (complete_received _ _ _ Ht) in Hl as [Hlr Hlc].
  assert (Hall : omap (received codec topic) (frames ++ [last]) = source).
  { rewrite omap_app. cbn [omap list_omap]. rewrite Hlr, app_nil_r. clear Hs.
    induction Hf as [|item b source frames Hb Hf IH]; [done|]. cbn [omap list_omap].
    by rewrite (frame_received _ _ _ _ Hb), IH. }
  exists (frames ++ [last]). split_and!; [done| |done|].
  - intros passed Hp. rewrite <-Hall. by apply omap_sublist.
  - exists frames, last. split_and!; [done..|]. clear Hs Hall. induction Hf as [|item b source frames Hb Hf IH]; constructor; [|done].
    apply frame_received in Hb. unfold received in Hb. unfold says_complete.
    destruct (decode codec b) as [e|env]; [done|]. case_bool_decide as He; [|done].
    rewrite bool_decide_false; [done|congruence].
Qed.
End stream.

(** A historical run takes nothing from a browser, on any server. *)
Lemma web_sub_historical {B Rx X Rm H Wr W T} `{!WebLib B Rx X Rm H Wr W, !WireFormat T, !Clock W}
    n codec topic (rx : option Rm) ctx t (w : W) :
  rp_mode ctx = HistoricalFrom t -> web_sub_stream (T := T) n codec topic rx ctx w = (Ok [], w).
Proof. unfold web_sub_stream. by intros ->. Qed.

(** ** Browser and server *)

Section browser.
Context {B Rx X Rm H Wr W : Type} `{!WebLib B Rx X Rm H Wr W, !Tables B X W}.
Context {Js Jv : Type} `{!JsLib Js Jv, !WireFormat Jv, !WireFormat Envelope, !WireFormat ControlMessage}.
Context `{!RoundTrip Envelope, !RoundTrip ControlMessage}.

(** The text by which the browser names a codec. *)
Definition codec_name (c : CodecKind) : bytes := match c with Bincode => lit "bincode" | Json => lit "json" end.
Lemma parse_codec_name c : parse_codec (codec_name c) = inr c.
Proof. by destruct c. Qed.

(** The server does what the browser's subscription, cancellation and value say. *)
Lemma control_understood (c : CodecKind) (ctrl : ControlMessage) (b : bytes) (out : X) (f : gmap bytes H) : js_control_frame (codec_name c) ctrl = inr b ->
  on_frame (W := W) c out b f =
    match ctrl with
    | Subscribe topics => subscribe_all out topics f
    | Unsubscribe topics => unsubscribe_all topics f
    | Hello _ _ | Complete _ => mreturn f
    end.
Proof.
  unfold js_control_frame, and_then, map_err. rewrite parse_codec_name.
  destruct (encode c ctrl) as [e|p] eqn:Ep; [done|]. destruct (encode c (mkEnvelope _ _ _)) as [e|b'] eqn:Eb; [done|].
  intros [= <-]. apply decode_encode in Ep, Eb. unfold on_frame. rewrite Eb. simpl. by rewrite Ep.
Qed.

Lemma subscription_understood (c : CodecKind) (topics : list bytes) (b : bytes) (out : X) (f : gmap bytes H) : encode_subscribe (codec_name c) topics = inr b ->
  on_frame (W := W) c out b f = subscribe_all out topics f.
Proof. apply control_understood. Qed.
Lemma unsubscription_understood (c : CodecKind) (topics : list bytes) (b : bytes) (out : X) (f : gmap bytes H) : encode_unsubscribe (codec_name c) topics = inr b ->
  on_frame (W := W) c out b f = unsubscribe_all topics f.
Proof. apply control_understood. Qed.

Lemma payload_dispatched (c : CodecKind) (t : bytes) (v : Js) (b : bytes) (out : X) (f : gmap bytes H) : t <> CONTROL_TOPIC ->
  encode_payload (Js := Js) (codec_name c) t v = inr b ->
  exists p, on_frame (W := W) c out b f = (do! dispatch_client_payload t p in mreturn f) /\
    match c with
    | Json => json_stringify v = inr p
    | Bincode => exists j : Jv, from_value v = inr j /\ encode Bincode j = inr p
    end.
Proof.
  intros Ht. unfold encode_payload, and_then, map_err. rewrite parse_codec_name.
  assert (Hsend : forall p, match encode c (mkEnvelope t 0 p) with inr a => inr a | inl e => inl (to_js_error e) end = inr b ->
    on_frame (W := W) c out b f = (do! dispatch_client_payload t p in mreturn f)).
  { intros p. destruct (encode c (mkEnvelope t 0 p)) as [e|b'] eqn:Eb; [done|]. intros [= <-].
    apply decode_encode in Eb. unfold on_frame. rewrite Eb. simpl. by rewrite bool_decide_false. }
  destruct c.
  - destruct (from_value v) as [e|j] eqn:Ej; [done|]. destruct (encode Bincode j) as [e|p] eqn:Ep; [done|].
    intros E. exists p. split; [by apply Hsend|by exists j].
  - destruct (json_stringify v) as [e|p] eqn:Ep; [done|]. intros E. exists p. split; [by apply Hsend|done].
Qed.

(** bincode does not describe the types of what it holds, and refuses to decode a
    value whose type is to be found in the data, as a [serde_json::Value] is: the
    browser cannot read a payload of a server that uses the default codec. *)
Lemma default_codec_unreadable b :
  (forall d, exists e, bincode_deserialize (T := Jv) d = inl e) ->
  exists e, decode_payload (Js := Js) (codec_name CodecKind_default) b = inl e.
Proof.
  intros Hself. unfold decode_payload. rewrite parse_codec_name. unfold and_then, map_err, decode, with_context.
  cbn [CodecKind_default]. destruct (Hself b) as [e ->]. by eexists.
Qed.
End browser.

(** ** Starting and stopping *)

Section hosting.
Context {Li Sh Th F Ce Ke Co B X W : Type} `{!WebHost Li Sh Th F Ce Ke Co B X W}.

(** [threads]: the server threads that run. *)
Class HostLaws (threads : W -> list Th) := {
  bind_threads a w r w' : tcp_bind a w = (r, w') -> threads w' = threads w;
  port_threads l w r w' : local_port l w = (r, w') -> threads w' = threads w;
  open_threads p w r w' : file_open p w = (r, w') -> threads w' = threads w;
  certs_threads f w r w' : pem_certs f w = (r, w') -> threads w' = threads w;
  key_threads f w r w' : pem_private_key f w = (r, w') -> threads w' = threads w;
  oneshot_threads w r w' : oneshot w = (r, w') -> threads w' = threads w;
  spawn_threads l d c i w r w' : spawn_server l d c i w = (r, w') ->
    threads w' = match r with inr th => th :: threads w | inl _ => threads w end }.
Context (threads : W -> list Th) `{!HostLaws threads}.

(** No thread is started, and the outcome is a result or an error. *)
Definition calm {A} (m : M W A) : Prop := forall w r w', m w = (r, w') ->
  threads w' = threads w /\ match r with Ok _ | Err _ => True | Panic _ | OutOfFuel => False end.

Lemma calm_return {A} (a : A) : calm (mreturn a).
Proof. by intros w r w' [= <- <-]. Qed.
Lemma calm_fail {A} e : calm (mfail (A := A) e).
Proof. by intros w r w' [= <- <-]. Qed.
Lemma calm_bind {A C} (m : M W A) (k : A -> M W C) : calm m -> (forall a, calm (k a)) -> calm (mbind m k).
Proof.
  intros Hm Hk w r w'. unfold mbind. destruct (m w) as [[a|e|x|] w1] eqn:E; apply Hm in E as [E Hr]; try done.
  - intros E1. destruct (Hk _ _ _ _ E1) as [E2 Hr2]. by rewrite E2.
  - by intros [= <- <-].
Qed.
Lemma calm_ctx {A} what (f : W -> (string + A) * W) :
  (forall w r w', f w = (r, w') -> threads w' = threads w) -> calm (io_ctx what f).
Proof.
  intros Hf w r w'. unfold io_ctx, io_or, mbind, io. destruct (f w) as [[e|a] w1] eqn:E; apply Hf in E; by intros [= <- <-].
Qed.
Lemma calm_or {A} what (r : string + A) : calm (or_ctx what r).
Proof. destruct r; [apply calm_fail|apply calm_return]. Qed.
#[local] Hint Resolve calm_return calm_fail calm_or : wingfoil.

Lemma load_tls_config_calm paths : calm (load_tls_config paths).
Proof.
  unfold load_tls_config.
  apply calm_bind; [apply calm_ctx, open_threads|]. intros r.
  apply calm_bind; [apply calm_ctx, certs_threads|]. intros certs. case_bool_decide; [apply calm_fail|].
  apply calm_bind; [apply calm_ctx, open_threads|]. intros k.
  apply calm_bind; [apply calm_ctx, key_threads|]. intros [key|]; [|apply calm_fail].
  apply calm_bind; auto with wingfoil.
Qed.

(** What [start] does first, and what it makes of it. *)
Definition prepare (self : WebServerBuilder) : M W (Li * Z * option Co) :=
  let! listener := io_ctx ("web: bind to " +:+ text (addr self)) (tcp_bind (addr self)) in
  let! port := io_ctx "web: local_addr" (local_port listener) in
  let! tls_config := match tls_paths self with
                     | Some paths => let! c := load_tls_config paths in mreturn (Some c)
                     | None => mreturn None
                     end in
  mreturn (listener, port, tls_config).

Lemma prepare_calm self : calm (prepare self).
Proof.
  apply calm_bind; [apply calm_ctx, bind_threads|]. intros l.
  apply calm_bind; [apply calm_ctx, port_threads|]. intros p.
  apply calm_bind; [|intros; apply calm_return].
  destruct (tls_paths self); [|apply calm_return]. apply calm_bind; [apply load_tls_config_calm|auto with wingfoil].
Qed.

Lemma prepare_tls self w l p c w' : prepare self w = (Ok (l, p, c), w') -> is_Some c <-> is_Some (tls_paths self).
Proof.
  intros E. unfold prepare in E. do 3 inv_bind E. injection E as -> -> -> ->.
  destruct (tls_paths self); [inv_bind E2; injection E2 as <- _|injection E2 as <- _]; by rewrite ?is_Some_alt.
Qed.

Lemma start_prepare self w : start self w =
  (let! x := prepare self in
   let inner := WebServerInner_new (builder_codec self) in
   let! shutdown_tx := io oneshot in
   let! handle := io_ctx "web: spawn server thread" (spawn_server x.1.1 (static_dir self) x.2 inner) in
   mreturn (mkServer x.1.2 (Some shutdown_tx) (Some handle) false
              (match x.2 with Some _ => true | None => false end), inner)) w.
Proof.
  unfold start, prepare. rewrite mbind_assoc. apply mbind_ext. intros l s. rewrite mbind_assoc.
  apply mbind_ext. intros p s1. rewrite mbind_assoc. by apply mbind_ext.
Qed.

(** Whatever is wrong -- the address, the certificate, the key, the thread -- is
    reported by [start], before any server runs; a server that is returned runs in a
    thread of its own, with empty tables and the codec asked for. *)
Lemma start_all_or_nothing self w r w' : start self w = (r, w') ->
  match r with
  | Ok (server, inner) => exists th, thread server = Some th /\ threads w' = th :: threads w /\
      inner = WebServerInner_new (B := B) (X := X) (builder_codec self) /\
      historical_noop server = false /\ (server_tls server = true <-> is_Some (tls_paths self))
  | Err _ => threads w' = threads w
  | Panic _ | OutOfFuel => False
  end.
Proof.
  rewrite start_prepare. unfold mbind at 1. destruct (prepare self w) as [r1 w1] eqn:E1.
  destruct (prepare_calm _ _ _ _ E1) as [H1 Hr1]. destruct r1 as [[[l p] c]|e|x|]; try done; [|by intros [= <- <-]].
  apply prepare_tls in E1. unfold mbind, io_ctx, io_or, io. simpl.
  destruct (oneshot w1) as [sh w2] eqn:E2. apply oneshot_threads in E2.
  unfold mbind. destruct (spawn_server l _ c _ w2) as [[e|th] w3] eqn:E3; apply spawn_threads in E3; intros [= <- <-].
  - by rewrite E3, E2.
  - exists th. split_and!; [done|by rewrite E3, E2, H1|done..|]. rewrite <-E1. simpl. rewrite is_Some_alt. by destruct c.
Qed.

(** A server is stopped once: asked to shut down, then waited for. *)
Lemma stop_once (self : WebServer (Sh := Sh) (Th := Th)) w server w' : stop self w = (Ok server, w') ->
  thread server = None /\ shutdown_tx server = None /\ stop server w' = (Ok server, w').
Proof.
  unfold stop, mbind, mmodify, mreturn. destruct (shutdown_tx self), (thread self); by intros [= <- <-].
Qed.
End hosting.

(** ** A server in memory *)

(** Any countable type has an encoding: the digits of its code. *)
Fixpoint digits (p : positive) : bytes :=
  match p with xH => [] | xO p => "0"%char :: digits p | xI p => "1"%char :: digits p end.
Fixpoint undigits (b : bytes) : positive :=
  match b with [] => xH | c :: b => if Ascii.eqb c "0" then xO (undigits b) else xI (undigits b) end.
Lemma undigits_digits p : undigits (digits p) = p.
Proof. induction p as [p IH|p IH|]; simpl; congruence. Qed.

#[export] Instance digit_wire `{Countable T} : WireFormat T :=
  let ser (v : T) : string + bytes := inr (digits (countable.encode v)) in
  let de b : string + T := match countable.decode (undigits b) with Some v => inr v | None => inl "no value" end in
  {| bincode_serialize := ser; bincode_deserialize := de; json_to_vec := ser; json_from_slice := de |}.
#[export] Instance digit_roundtrip `{Countable T} : RoundTrip T.
Proof.
  intros c v b. destruct c; cbn; intros [= <-]; by rewrite undigits_digits, countable.decode_encode.
Qed.

#[export] Instance CodecKind_eq : EqDecision CodecKind.
Proof. solve_decision. Defined.
#[export] Instance Envelope_eq : EqDecision Envelope.
Proof. solve_decision. Defined.
#[export] Instance ControlMessage_eq : EqDecision ControlMessage.
Proof. solve_decision. Defined.
#[export] Instance Envelope_countable : Countable Envelope :=
  countable.inj_countable' (fun e => (topic e, time_ns e, payload e)) (fun '(t, z, p) => mkEnvelope t z p)
    ltac:(by intros []).
#[export] Instance ControlMessage_countable : Countable ControlMessage :=
  countable.inj_countable'
    (fun m => match m with
              | Hello c v => inl (bool_decide (c = Json), v)
              | Subscribe l => inr (inl l)
              | Unsubscribe l => inr (inr (inl l))
              | Complete t => inr (inr (inr t))
              end : (bool * Z) + (list bytes + (list bytes + bytes)))
    (fun m => match m with
              | inl (c, v) => Hello (if c : bool then Json else Bincode) v
              | inr (inl l) => Subscribe l
              | inr (inr (inl l)) => Unsubscribe l
              | inr (inr (inr t)) => Complete t
              end)
    ltac:(by intros [[]| | |]).

(** One connection: the messages its client sends, the forwarders alive, the next
    task, what has been broadcast, the tables. *)
Record Hub := mkHub {
  inbox : list WsMessage; alive : list (nat * bytes); next_task : nat; said : list bytes;
  hub_tables : WebServerInner unit unit }.

#[export] Instance hub_tables_of : Tables unit unit Hub := {
  tables := hub_tables;
  set_tables t w := mkHub (inbox w) (alive w) (next_task w) (said w) t }.
#[export] Instance hub_lib : WebLib unit unit unit unit (nat * bytes) unit Hub := {
  broadcast_channel _ w := (tt, w);
  broadcast_send _ b w := mkHub (inbox w) (alive w) (next_task w) (said w ++ [b]) (hub_tables w);
  broadcast_subscribe _ w := (tt, w);
  broadcast_recv _ w := (RecvClosed, w);
  mpsc_channel _ w := ((tt, tt), mkHub (inbox w) [] (next_task w) (said w) (hub_tables w));
  mpsc_try_send _ _ w := (SendOk, w);
  mpsc_send _ _ w := (true, w);
  mpsc_recv _ w := (None, w);
  ws_next w :=
    match inbox w with
    | [] => (None, w)
    | m :: l => (Some (inr m), mkHub l (alive w) (next_task w) (said w) (hub_tables w))
    end;
  ws_send _ w := (true, w);
  ws_close w := w;
  spawn_forwarder t _ _ w :=
    ((next_task w, t), mkHub (inbox w) ((next_task w, t) :: alive w) (S (next_task w)) (said w) (hub_tables w));
  abort h w := mkHub (inbox w) (filter (.≠ h) (alive w)) (next_task w) (said w) (hub_tables w);
  spawn_writer _ w := (tt, w);
  abort_writer _ w := w;
  drop_and_join _ _ w := w }.

Definition hub_live (_ : unit) (w : Hub) (h : nat * bytes) : Prop := h ∈ alive w.
Definition hub_backlog (w : Hub) : nat := length (inbox w).

#[export] Instance hub_tasks : TaskLaws hub_live snd hub_backlog.
Proof.
  split; unfold hub_live, hub_backlog.
  - intros n w q w' h [= <- <-]. cbn. set_solver.
  - by intros n w q w' [= <- <-].
  - intros t rx out w h w' [= <- <-]. cbn. split_and!; [done..|]. intros h'. rewrite elem_of_cons. tauto.
  - intros out h w h'. cbn. by rewrite list_elem_of_filter.
  - done.
  - intros w x w'. cbn. destruct (inbox w); [done|]. intros [= <- <-]. cbn. lia.
Qed.
#[export] Instance hub_quiet : QuietLaws hub_live hub_backlog.
Proof.
  split; intros; intros w r w'; unfold io, mmodify, Quiet, hub_live, hub_backlog; cbn; try (intros [= <- <-]; done).
  destruct (inbox w) eqn:E; intros [= <- <-]; cbn; rewrite ?E; [done|cbn; auto with lia].
Qed.
#[export] Instance hub_sent : SentLaw (fun (_ : unit) => said).
Proof. done. Qed.

(** A client that subscribes twice to one topic and once to another, sends garbage,
    and leaves without a word. *)
Definition subscription (topics : list bytes) : WsMessage :=
  Binary (match encode_control_frame Json (Subscribe topics) with inr b => b | inl _ => [] end).
Definition client : list WsMessage :=
  [subscription [lit "px"; lit "vol"]; Text (lit "garbage"); Ping; subscription [lit "px"]].
Definition hub : Hub := mkHub client [] 0 [] (WebServerInner_new Json).


(** When the client leaves there are two forwarders. *)
Lemma hub_before_cleanup :
  exists f w', reader_loop 5 Json tt ∅ hub = (Ok f, w') /\ alive w' = [(1, lit "vol"); (0, lit "px")].
Proof. do 2 eexists. split; vm_compute; reflexivity. Qed.

Lemma handle_socket_cleans_up_witness :
  exists w', handle_socket 5 hub = (Ok tt, w') /\ forall h, ~ hub_live tt w' h.
Proof.
  apply (handle_socket_cleans_up hub_live snd hub_backlog 5 hub hub (tt, tt)); [reflexivity|].
  unfold hub_backlog, hub, client. simpl. lia.
Defined.

Abbreviation prices := [(5%Z, 101%Z); (5%Z, 102%Z); (9%Z, 99%Z)].
Lemma prices_published : exists w', web_pub_consumer Json false (lit "px") tt prices hub = (Ok tt, w').
Proof. eexists. vm_compute. reflexivity. Qed.

Lemma web_client_sees_witness :
  exists frames, length frames = 4 /\ omap (received (T := Z) Json (lit "px")) frames = prices /\
    omap (received (T := Z) Json (lit "px")) (drop 2 frames) = [(9%Z, 99%Z)].
Proof.
  destruct prices_published as [w' Hrun].
  destruct (web_client_sees (fun _ => said) Json (lit "px") tt prices hub w') as (frames & Hs & _ & Hall & _);
    [vm_compute; discriminate|exact Hrun|].
  exists frames. split_and!; [|exact Hall|].
  - vm_compute in Hrun. injection Hrun as <-. vm_compute in Hs. by subst frames.
  - vm_compute in Hrun. injection Hrun as <-. vm_compute in Hs. subst frames. vm_compute. reflexivity.
Defined.
