(* ===== verification/Augurs.v ===== *)
(** * Time-series analysis: [wingfoil/src/adapters/augurs/]

    Six nodes that keep a sliding window of their input and hand it to a model of
    the augurs library. The models are classes: what is verified is the window,
    when a node ticks, and the transposition of samples into series. The numbers
    are any [F] with the operations of [Num]. [windowed_run]: a node's output is a
    function of the last values it was offered. [transpose_correct]: no value of a
    series is made up. *)
From stdpp Require Import sorting pretty.
From S2P Require Import Prelude NanoTime TimeQueue GraphState NodeCalls Float SumProps.

(** ** The environment *)

(** [Forecast], and the fitted models. *)
Record Forecast (F : Type) := mkForecast { f_point : list F; f_intervals : option (list F * list F) }.
Arguments mkForecast {F} _ _.
Arguments f_point {F} _.
Arguments f_intervals {F} _.
Class ForecastLib (F Ets Mstl : Type) := {
  ets_fit : list F -> string + Ets;
  ets_predict : Ets -> nat -> option F -> string + Forecast F;
  mstl_fit : list nat -> list F -> string + Mstl;
  mstl_predict : Mstl -> nat -> option F -> string + Forecast F }.

(** The two detectors, with what they make of the series first. The output: the
    outlying series, and the scores of each. *)
Class OutlierLib (F Mad Db Pm Pd : Type) := {
  mad_with_sensitivity : F -> string + Mad;
  dbscan_with_sensitivity : F -> string + Db;
  mad_preprocess : Mad -> list (list F) -> string + Pm;
  mad_detect : Mad -> Pm -> string + (list nat * list (list F));
  dbscan_preprocess : Db -> list (list F) -> string + Pd;
  dbscan_detect : Db -> Pd -> string + (list nat * list (list F)) }.

Class ChangepointLib (F : Type) := detect_changepoints : F -> list F -> list nat.
Class SeasonsLib (F D : Type) := {
  periodogram : option Z -> option Z -> D;
  detect_seasons : D -> list F -> list Z }.
Class DtwLib (F Mx : Type) := {
  euclidean_matrix : list (list F) -> Mx;
  manhattan_matrix : list (list F) -> Mx;
  into_inner : Mx -> list (list F) }.
Class ClusterLib (F Mx : Type) := dbscan_fit : F -> nat -> Mx -> list Z.

(** [call.context(what)?], and [map_err] to a text that ends in the library's. *)
Definition or_context {S A} (what : string) (r : string + A) : NodeM S A :=
  match r with inr a => mreturn a | inl e => mfail (Context what (Msg e)) end.
Definition with_text {A} (what : string) (r : string + A) : Res A :=
  match r with inr a => Ok a | inl e => Err (Msg (what +:+ ": " +:+ e)) end.

(** ** What the nodes share: [mod.rs] *)

(** [while buffer.len() > window { buffer.pop_front(); }]. *)
Fixpoint pop_to {T} (buffer : list T) (window : nat) : list T :=
  match buffer with
  | [] => []
  | x :: rest => if (window <? length buffer)%nat then pop_to rest window else buffer
  end.
Definition push_windowed {T} (buffer : list T) (value : T) (window : nat) : list T :=
  pop_to (buffer ++ [value]) window.

Section numbers.
Context {F : Type} `{Num F}.

(** The column of a series after one more sample. *)
Definition push_sample (sample : list F) (j : nat) (col : list (option F)) : list (option F) :=
  let value := match sample !! j with
               | Some v => Some v
               | None => match last col with Some v => v | None => None end
               end in
  col ++ [value].

(** The gap before a series appears is filled with its first value. *)
Definition back_fill (col : list (option F)) : list F :=
  let first := default zero (head (omap (fun v => v) col)) in
  map (default first) col.

Definition n_series (buffer : list (list F)) : nat := foldr Nat.max 0%nat (map length buffer).
Definition columns (buffer : list (list F)) (series : list (list (option F))) : list (list (option F)) :=
  foldl (fun series sample => imap (push_sample sample) series) series buffer.
Definition transpose_window (buffer : list (list F)) : list (list F) :=
  map back_fill (columns buffer (repeat [] (n_series buffer))).
End numbers.

Record AugursForecast (F : Type) := mkAugursForecast { point : list F; lower : list F; upper : list F }.
Arguments mkAugursForecast {F} _ _ _.
Arguments point {F} _.
Definition AugursForecast_default {F} : AugursForecast F := mkAugursForecast [] [] [].
Definition AugursForecast_next {F} (self : AugursForecast F) : option F := head (point self).

Record AugursOutliers (F : Type) := mkOutliers { outlying : list nat; scores : list F }.
Arguments mkOutliers {F} _ _.
Arguments outlying {F} _.
Definition is_outlier {F} (self : AugursOutliers F) (index : nat) : bool := bool_decide (index ∈ outlying self).

Record AugursChangepoints := mkChangepoints { indices : list nat }.
Definition AugursChangepoints_any (self : AugursChangepoints) : bool := negb (bool_decide (indices self = [])).
Record AugursSeasons := mkSeasons { periods : list Z }.
Definition dominant (self : AugursSeasons) : option Z := head (periods self).
Record AugursDistanceMatrix (F : Type) := mkMatrix { rows : list (list F) }.
Arguments mkMatrix {F} _.
Arguments rows {F} _.
Definition AugursDistanceMatrix_get {F} (self : AugursDistanceMatrix F) (i j : nat) : option F :=
  match rows self !! i with Some row => row !! j | None => None end.

(** [Vec::dedup]. *)
Fixpoint dedup (l : list Z) : list Z :=
  match l with
  | [] => []
  | x :: rest =>
    match rest with
    | y :: _ => if Z.eqb x y then dedup rest else x :: dedup rest
    | [] => [x]
    end
  end.
Record AugursClusters := mkClusters { labels : list Z }.
Definition cluster_count (self : AugursClusters) : nat :=
  let seen := filter (fun l => (0 <= l)%Z) (labels self) in
  length (dedup (merge_sort Z.le seen)).

(** ** Forecasts: [forecast.rs] *)

(** [{periods:?}]. *)
Definition debug_list (l : list nat) : string :=
  "[" +:+ match l with
          | [] => EmptyString
          | x :: l => pretty x +:+ foldr (fun y s => ", " +:+ pretty y +:+ s) EmptyString l
          end +:+ "]".

Module AugursForecastModel.
Inductive AugursForecastModel := Ets | Mstl (periods : list nat).
End AugursForecastModel.
Abbreviation AugursForecastModel := AugursForecastModel.AugursForecastModel.

Module AugursForecastConfig.
Section config.
Context {F : Type}.
Record AugursForecastConfig := mk {
  window : nat; min_points : nat; horizon : nat; level : option F; model : AugursForecastModel }.
Definition new (window horizon : nat) : AugursForecastConfig := mk window 12 horizon None AugursForecastModel.Ets.
Definition with_level (level : F) (c : AugursForecastConfig) : AugursForecastConfig :=
  mk (window c) (min_points c) (horizon c) (Some level) (model c).
Definition mstl (periods : list nat) (c : AugursForecastConfig) : AugursForecastConfig :=
  mk (window c) (min_points c) (horizon c) (level c) (AugursForecastModel.Mstl periods).
Definition with_model (model : AugursForecastModel) (c : AugursForecastConfig) : AugursForecastConfig :=
  mk (window c) (min_points c) (horizon c) (level c) model.
Definition with_min_points (min_points : nat) (c : AugursForecastConfig) : AugursForecastConfig :=
  mk (window c) min_points (horizon c) (level c) (model c).

Definition from (p : nat * nat) : AugursForecastConfig := new p.1 p.2.

Definition effective_min_points (self : AugursForecastConfig) : nat :=
  let floor := match model self with
               | AugursForecastModel.Ets => 12
               | AugursForecastModel.Mstl [] => Nat.max (2 * 1 + 1) 12
               | AugursForecastModel.Mstl periods => Nat.max (2 * foldr Nat.max 0 periods + 1) 12
               end in
  Nat.max (min_points self) floor.
End config.
Arguments AugursForecastConfig : clear implicits.
End AugursForecastConfig.

Module AugursForecastNode.
Section node.
Context {F Ets Mstl : Type} `{!ForecastLib F Ets Mstl}.
Record AugursForecastNode := mk {
  upstream : addr; config : AugursForecastConfig.AugursForecastConfig F;
  window : nat; min_points : nat; buffer : list F; value : AugursForecast F }.
Definition new (upstream : addr) (config : AugursForecastConfig.AugursForecastConfig F) : AugursForecastNode :=
  let min_points := AugursForecastConfig.effective_min_points config in
  let window := Nat.max (AugursForecastConfig.window config) min_points in
  mk upstream config window min_points [] AugursForecast_default.

Definition upstreams (self : AugursForecastNode) : UpStreams := mkUpStreams [upstream self] [].
Definition cycle (up : F) : NodeM AugursForecastNode bool :=
  let! self := get_self in
  let data := push_windowed (buffer self) up (window self) in
  do! put_self (mk (upstream self) (config self) (window self) (min_points self) data (value self)) in
  if length data <? min_points self then mreturn false
  else
    let horizon := AugursForecastConfig.horizon (config self) in
    let level := AugursForecastConfig.level (config self) in
    let! forecast :=
      match AugursForecastConfig.model (config self) with
      | AugursForecastModel.Ets =>
        let! fitted := or_context "augurs_forecast: ETS fit failed" (ets_fit data) in
        or_context "augurs_forecast: ETS predict failed" (ets_predict fitted horizon level)
      | AugursForecastModel.Mstl periods =>
        if bool_decide (periods = []) || existsb (fun p => p <? 2) periods then
          mfail (Msg ("augurs_forecast: MSTL periods must be non-empty and each >= 2, got " +:+ debug_list periods))
        else
          let! fitted := or_context "augurs_forecast: MSTL fit failed" (mstl_fit periods data) in
          or_context "augurs_forecast: MSTL predict failed" (mstl_predict fitted horizon level)
      end in
    let '(lower, upper) := match f_intervals forecast with Some i => i | None => ([], []) end in
    let value := mkAugursForecast (f_point forecast) lower upper in
    do! put_self (mk (upstream self) (config self) (window self) (min_points self) data value) in
    mreturn true.
End node.
Arguments AugursForecastNode : clear implicits.
End AugursForecastNode.

(** ** Outliers: [outlier.rs] *)

Inductive AugursOutlierDetector := DetectMad | DetectDbscan.

Module AugursOutlierConfig.
Section config.
Context {F : Type}.
Record AugursOutlierConfig := mk { window : nat; sensitivity : F; detector : AugursOutlierDetector }.
Definition new (window : nat) (sensitivity : F) : AugursOutlierConfig := mk window sensitivity DetectMad.
Definition mad (window : nat) (sensitivity : F) : AugursOutlierConfig := new window sensitivity.
Definition dbscan (window : nat) (sensitivity : F) : AugursOutlierConfig := mk window sensitivity DetectDbscan.
Definition from (p : nat * F) : AugursOutlierConfig := new p.1 p.2.
End config.
Arguments AugursOutlierConfig : clear implicits.
End AugursOutlierConfig.

Section detector.
Context {F Mad Db Pm Pd : Type} `{!OutlierLib F Mad Db Pm Pd}.
Inductive Detector := DMad (d : Mad) | DDbscan (d : Db).
Definition detector_run (self : Detector) (series : list (list F)) : Res (list nat * list (list F)) :=
  match self with
  | DMad d =>
    match with_text "augurs_outlier: MAD preprocess failed" (mad_preprocess d series) with
    | Ok pre => with_text "augurs_outlier: MAD detect failed" (mad_detect d pre)
    | Err e => Err e
    | Panic w => Panic w
    | OutOfFuel => OutOfFuel
    end
  | DDbscan d =>
    match with_text "augurs_outlier: DBSCAN preprocess failed" (dbscan_preprocess d series) with
    | Ok pre => with_text "augurs_outlier: DBSCAN detect failed" (dbscan_detect d pre)
    | Err e => Err e
    | Panic w => Panic w
    | OutOfFuel => OutOfFuel
    end
  end.

(** The detector the operator makes; a sensitivity it refuses is a panic (whose
    text shows the sensitivity too). *)
Definition make_detector (config : AugursOutlierConfig.AugursOutlierConfig F) : Res Detector :=
  let invalid e : Res Detector := Panic ("augurs_outlier: invalid sensitivity: " +:+ e) in
  match AugursOutlierConfig.detector config with
  | DetectMad =>
    match mad_with_sensitivity (AugursOutlierConfig.sensitivity config) with inr d => Ok (DMad d) | inl e => invalid e end
  | DetectDbscan =>
    match dbscan_with_sensitivity (AugursOutlierConfig.sensitivity config) with
    | inr d => Ok (DDbscan d)
    | inl e => invalid e
    end
  end.
End detector.
Arguments Detector : clear implicits.

Module AugursOutlierNode.
Section node.
Context {F Mad Db Pm Pd : Type} `{!OutlierLib F Mad Db Pm Pd, !Num F}.
Record AugursOutlierNode := mk {
  upstream : addr; detector : Detector Mad Db; window : nat; buffer : list (list F); value : AugursOutliers F }.
Definition new (upstream : addr) (detector : Detector Mad Db) (window : nat) : AugursOutlierNode :=
  mk upstream detector (Nat.max window 2) [] (mkOutliers [] []).

Definition upstreams (self : AugursOutlierNode) : UpStreams := mkUpStreams [upstream self] [].
Definition cycle (up : list F) : NodeM AugursOutlierNode bool :=
  let! self := get_self in
  let data := push_windowed (buffer self) up (window self) in
  do! put_self (mk (upstream self) (detector self) (window self) data (value self)) in
  if length data <? 2 then mreturn false
  else
    let series := transpose_window data in
    if bool_decide (series = []) then mreturn false
    else
      let! output := mlift (detector_run (detector self) series) in
      let value := mkOutliers output.1 (map (fun s => default zero (last s)) output.2) in
      do! put_self (mk (upstream self) (detector self) (window self) data value) in
      mreturn true.
End node.
Arguments AugursOutlierNode : clear implicits.
End AugursOutlierNode.

(** ** Changepoints: [changepoint.rs] *)

Module AugursChangepointNode.
Section node.
Context {F : Type} `{!ChangepointLib F, !Num F}.
Record AugursChangepointConfig := mkConfig { config_window : nat; min_points : nat; hazard_lambda : F }.
Definition config_new (window : nat) : AugursChangepointConfig := mkConfig window 8 (of_Z 250).
Definition with_hazard (hazard_lambda : F) (c : AugursChangepointConfig) : AugursChangepointConfig :=
  mkConfig (config_window c) (min_points c) hazard_lambda.
Definition with_min_points (min_points : nat) (c : AugursChangepointConfig) : AugursChangepointConfig :=
  mkConfig (config_window c) min_points (hazard_lambda c).

Record AugursChangepointNode := mk {
  upstream : addr; config : AugursChangepointConfig; window : nat; buffer : list F; value : AugursChangepoints }.
Definition new (upstream : addr) (config : AugursChangepointConfig) : AugursChangepointNode :=
  mk upstream config (Nat.max (config_window config) (min_points config)) [] (mkChangepoints []).

Definition upstreams (self : AugursChangepointNode) : UpStreams := mkUpStreams [upstream self] [].
Definition cycle (up : F) : NodeM AugursChangepointNode bool :=
  let! self := get_self in
  let data := push_windowed (buffer self) up (window self) in
  do! put_self (mk (upstream self) (config self) (window self) data (value self)) in
  if length data <? min_points (config self) then mreturn false
  else
    let indices := filter (fun i => i <> 0) (detect_changepoints (hazard_lambda (config self)) data) in
    do! put_self (mk (upstream self) (config self) (window self) data (mkChangepoints indices)) in
    mreturn true.
End node.
Arguments AugursChangepointConfig : clear implicits.
Arguments AugursChangepointNode : clear implicits.
End AugursChangepointNode.

(** ** Seasons: [seasons.rs] *)

Module AugursSeasonsNode.
Section node.
Context {F D : Type} `{!SeasonsLib F D}.
Record AugursSeasonsConfig := mkConfig {
  config_window : nat; config_min_points : nat; min_period : option Z; max_period : option Z }.
Definition config_new (window : nat) : AugursSeasonsConfig := mkConfig window (Nat.max (window / 2) 16) None None.
Definition with_period_range (min_period max_period : Z) (c : AugursSeasonsConfig) : AugursSeasonsConfig :=
  mkConfig (config_window c) (config_min_points c) (Some min_period) (Some max_period).
Definition with_min_points (min_points : nat) (c : AugursSeasonsConfig) : AugursSeasonsConfig :=
  mkConfig (config_window c) min_points (min_period c) (max_period c).

Record AugursSeasonsNode := mk {
  upstream : addr; detector : D; window : nat; min_points : nat; buffer : list F; value : AugursSeasons }.
Definition new (upstream : addr) (config : AugursSeasonsConfig) : AugursSeasonsNode :=
  let detector := periodogram (min_period config) (max_period config) in
  let window := Nat.max (config_window config) (config_min_points config) in
  mk upstream detector window (config_min_points config) [] (mkSeasons []).

Definition upstreams (self : AugursSeasonsNode) : UpStreams := mkUpStreams [upstream self] [].
Definition cycle (up : F) : NodeM AugursSeasonsNode bool :=
  let! self := get_self in
  let data := push_windowed (buffer self) up (window self) in
  do! put_self (mk (upstream self) (detector self) (window self) (min_points self) data (value self)) in
  if length data <? min_points self then mreturn false
  else
    let value := mkSeasons (detect_seasons (detector self) data) in
    do! put_self (mk (upstream self) (detector self) (window self) (min_points self) data value) in
    mreturn true.
End node.
Arguments AugursSeasonsNode : clear implicits.
End AugursSeasonsNode.

(** ** Distances and clusters: [dtw.rs], [cluster.rs] *)

Inductive AugursDtwMetric := Euclidean | Manhattan.

Section metric.
Context {F Mx : Type} `{!DtwLib F Mx}.
Definition distance_matrix (metric : AugursDtwMetric) (series : list (list F)) : Mx :=
  match metric with
  | Euclidean => euclidean_matrix series
  | Manhattan => manhattan_matrix series
  end.
End metric.

Module AugursDtwNode.
Section node.
Context {F Mx : Type} `{!DtwLib F Mx, !Num F}.
Record AugursDtwConfig := mkConfig { config_window : nat; config_metric : AugursDtwMetric }.
Definition config_new (window : nat) : AugursDtwConfig := mkConfig window Euclidean.
Definition with_metric (metric : AugursDtwMetric) (c : AugursDtwConfig) : AugursDtwConfig :=
  mkConfig (config_window c) metric.

Record AugursDtwNode := mk {
  upstream : addr; metric : AugursDtwMetric; window : nat; buffer : list (list F); value : AugursDistanceMatrix F }.
Definition new (upstream : addr) (config : AugursDtwConfig) : AugursDtwNode :=
  mk upstream (config_metric config) (Nat.max (config_window config) 2) [] (mkMatrix []).

Definition upstreams (self : AugursDtwNode) : UpStreams := mkUpStreams [upstream self] [].
Definition cycle (up : list F) : NodeM AugursDtwNode bool :=
  let! self := get_self in
  let data := push_windowed (buffer self) up (window self) in
  do! put_self (mk (upstream self) (metric self) (window self) data (value self)) in
  if length data <? 2 then mreturn false
  else
    let series := transpose_window data in
    if length series <? 2 then mreturn false
    else
      let value := mkMatrix (into_inner (distance_matrix (metric self) series)) in
      do! put_self (mk (upstream self) (metric self) (window self) data value) in
      mreturn true.
End node.
Arguments AugursDtwNode : clear implicits.
End AugursDtwNode.

Module AugursClusterNode.
Section node.
Context {F Mx : Type} `{!DtwLib F Mx, !ClusterLib F Mx, !Num F}.
Record AugursClusterConfig := mkConfig {
  window : nat; epsilon : F; min_cluster_size : nat; metric : AugursDtwMetric }.
Definition config_new (window : nat) (epsilon : F) (min_cluster_size : nat) : AugursClusterConfig :=
  mkConfig window epsilon min_cluster_size Euclidean.
Definition with_metric (metric : AugursDtwMetric) (c : AugursClusterConfig) : AugursClusterConfig :=
  mkConfig (window c) (epsilon c) (min_cluster_size c) metric.

Record AugursClusterNode := mk {
  upstream : addr; config : AugursClusterConfig; buffer : list (list F); value : AugursClusters }.
Definition new (upstream : addr) (config : AugursClusterConfig) : AugursClusterNode :=
  mk upstream config [] (mkClusters []).

Definition upstreams (self : AugursClusterNode) : UpStreams := mkUpStreams [upstream self] [].
Definition cycle (up : list F) : NodeM AugursClusterNode bool :=
  let! self := get_self in
  let data := push_windowed (buffer self) up (window (config self)) in
  do! put_self (mk (upstream self) (config self) data (value self)) in
  if length data <? 2 then mreturn false
  else
    let series := transpose_window data in
    if length series <? 2 then mreturn false
    else
      let matrix := distance_matrix (metric (config self)) series in
      let clusters := dbscan_fit (epsilon (config self)) (min_cluster_size (config self)) matrix in
      do! put_self (mk (upstream self) (config self) data (mkClusters clusters)) in
      mreturn true.
End node.
Arguments AugursClusterConfig : clear implicits.
Arguments AugursClusterNode : clear implicits.
End AugursClusterNode.

(** ** The window *)

Lemma pop_to_lastn {T} (l : list T) w : pop_to l w = lastn w l.
Proof.
  unfold lastn. induction l as [|x l IH]; [by rewrite drop_nil|]. cbn [pop_to].
  destruct (Nat.ltb_spec w (length (x :: l))) as [Hw|Hw]; cbn [length] in *.
  - rewrite IH. by replace (S (length l) - w) with (S (length l - w)) by lia.
  - by replace (S (length l) - w) with 0 by lia.
Qed.

Lemma push_windowed_lastn {T} (h : list T) x w : push_windowed (lastn w h) x w = lastn w (h ++ [x]).
Proof.
  unfold push_windowed. rewrite pop_to_lastn. unfold lastn. rewrite !length_app, length_drop. cbn [length].
  destruct (decide (length h <= w)) as [Hw|Hw].
  - replace (length h - w) with 0 by lia. rewrite drop_0. f_equal. lia.
  - rewrite !drop_app. rewrite !length_drop, drop_drop. f_equal; [f_equal; lia|f_equal; lia].
Qed.

(** A node whose cycle pushes into its window and analyses what is there: nothing to
    emit, a value, or an error. *)
Section windowed.
Context {S I O : Type} (cycle : I -> NodeM S bool) (peek : S -> O) (buf : S -> list I).
Context (W : nat) (analysis : list I -> Res (option O)) (fixed : S -> Prop).

(** What the analyses of the last [W] values give, call after call, up to the first
    that fails; [h] was offered before. *)
Fixpoint analyses (h : list I) (cs : list (GraphState * I)) : Res (list (Z * O)) :=
  match cs with
  | [] => Ok []
  | c :: cs =>
    match analysis (lastn W (h ++ [c.2])) with
    | Ok o =>
      match analyses (h ++ [c.2]) cs with
      | Ok more => Ok (match o with Some v => [(time c.1, v)] | None => [] end ++ more)
      | r => r
      end
    | Err e => Err e
    | Panic w => Panic w
    | OutOfFuel => OutOfFuel
    end
  end.

Definition ticks (r : Res (option O)) : Res bool :=
  match r with
  | Ok o => Ok (match o with Some _ => true | None => false end)
  | Err e => Err e
  | Panic w => Panic w
  | OutOfFuel => OutOfFuel
  end.

Context (Hcycle : forall x s g, fixed s ->
  let run := cycle x (s, g) in let s' := run.2.1 in
  fixed s' /\ buf s' = push_windowed (buf s) x W /\ run.1 = ticks (analysis (buf s')) /\
  forall v, analysis (buf s') = Ok (Some v) -> peek s' = v).

Lemma windowed_run h cs s : fixed s -> buf s = lastn W h -> (drive cycle peek cs s).1 = analyses h cs.
Proof.
  revert h s. induction cs as [|c cs IH]; intros h s Hf Hb; [done|]. cbn [drive analyses].
  destruct (Hcycle c.2 s c.1 Hf) as (Hf' & Hb' & Hc & Hp). unfold mbind at 1, emit.
  destruct (cycle c.2 (s, c.1)) as [r [s' g']]. cbn [fst snd] in *.
  rewrite Hb, push_windowed_lastn in Hb'. rewrite Hb' in Hc, Hp. subst r.
  destruct (analysis (lastn W (h ++ [c.2]))) as [o|e|w|]; cbn [ticks]; [|done..].
  specialize (IH _ _ Hf' Hb'). unfold mbind.
  destruct o as [v|]; [rewrite (Hp v eq_refl)|]; destruct (drive cycle peek cs s') as [[out|e|w|] s''];
    cbn [fst] in IH; by rewrite <-IH.
Qed.
End windowed.

(** ** What each node emits *)

Section nodes.
Context {F : Type} `{!Num F}.

(** From enough points on, a forecast is made on every value, of the last points
    only; a window below the floor of the model is raised to it. *)
Section forecast.
Context {Ets Mstl : Type} `{!ForecastLib F Ets Mstl}.
Implicit Types config : AugursForecastConfig.AugursForecastConfig F.

Definition fit_predict config (data : list F) : Res (Forecast F) :=
  let horizon := AugursForecastConfig.horizon config in
  let level := AugursForecastConfig.level config in
  let run {E} (what : string) (fit : string + E) (predict : E -> string + Forecast F) :=
    match fit with
    | inl e => Err (Context ("augurs_forecast: " +:+ what +:+ " fit failed") (Msg e))
    | inr m => match predict m with
               | inl e => Err (Context ("augurs_forecast: " +:+ what +:+ " predict failed") (Msg e))
               | inr f => Ok f
               end
    end in
  match AugursForecastConfig.model config with
  | AugursForecastModel.Ets => run "ETS" (ets_fit data) (fun m => ets_predict m horizon level)
  | AugursForecastModel.Mstl [] =>
    Err (Msg "augurs_forecast: MSTL periods must be non-empty and each >= 2, got []")
  | AugursForecastModel.Mstl periods =>
    if existsb (fun p => p <? 2) periods then
      Err (Msg ("augurs_forecast: MSTL periods must be non-empty and each >= 2, got " +:+ debug_list periods))
    else run "MSTL" (mstl_fit periods data) (fun m => mstl_predict m horizon level)
  end.

Definition forecast_of config (data : list F) : Res (option (AugursForecast F)) :=
  if length data <? AugursForecastConfig.effective_min_points config then Ok None
  else match fit_predict config data with
       | Ok f => let '(lower, upper) := default ([], []) (f_intervals f) in
                 Ok (Some (mkAugursForecast (f_point f) lower upper))
       | Err e => Err e
       | Panic w => Panic w
       | OutOfFuel => OutOfFuel
       end.

Definition forecast_window config : nat :=
  Nat.max (AugursForecastConfig.window config) (AugursForecastConfig.effective_min_points config).

(** The forecasting node, on any sequence of values and for any model library:
    nothing is emitted until the warm-up of its model is over, then one forecast per
    value, at its time, made from exactly the last values that fit the window (the
    configured one, raised to the warm-up); the first fit, prediction or period set
    that fails ends the run with that error. *)
Theorem augurs_forecast_run (up : addr) config cs :
  (drive AugursForecastNode.cycle AugursForecastNode.value cs (AugursForecastNode.new up config)).1 =
  analyses (forecast_window config) (forecast_of config) [] cs.
Proof.
  apply (windowed_run _ _ AugursForecastNode.buffer _ _ (fun s =>
    AugursForecastNode.config s = config /\
    AugursForecastNode.window s = forecast_window config /\
    AugursForecastNode.min_points s = AugursForecastConfig.effective_min_points config)); [|done|done].
  intros x s g (Hc & Hw & Hm). unfold AugursForecastNode.cycle, mbind, get_self, put_self, or_context.
  unfold forecast_of, fit_predict. cbn -[Nat.ltb existsb]. rewrite Hc, Hw, Hm.
  set (data := push_windowed _ x _). destruct (length data <? _) eqn:El; [by cbn -[Nat.ltb existsb]; rewrite El|].
  destruct (AugursForecastConfig.model config) as [|[|p periods]].
  - destruct (ets_fit data) as [e|m] eqn:Ef; [by cbn -[Nat.ltb existsb]; rewrite El, Ef|].
    cbn -[Nat.ltb existsb]. destruct (ets_predict m _ _) as [e|f] eqn:Ep; [by cbn -[Nat.ltb existsb]; rewrite El, Ef, Ep|].
    destruct (f_intervals f) as [[lo hi]|] eqn:Ei; cbn -[Nat.ltb existsb]; rewrite Ei; cbn -[Nat.ltb existsb]; rewrite El, Ef, Ep, Ei; split_and!; try done; by intros v [= <-].
  - by cbn -[Nat.ltb existsb]; rewrite El.
  - rewrite bool_decide_false, orb_false_l by done. destruct (existsb _ (p :: periods)) eqn:Ex.
    { cbn -[Nat.ltb existsb]. rewrite El. done. }
    destruct (mstl_fit _ data) as [e|m] eqn:Ef; [by cbn -[Nat.ltb existsb]; rewrite El, Ef|].
    cbn -[Nat.ltb existsb]. destruct (mstl_predict m _ _) as [e|f] eqn:Ep; [by cbn -[Nat.ltb existsb]; rewrite El, Ef, Ep|].
    destruct (f_intervals f) as [[lo hi]|] eqn:Ei; cbn -[Nat.ltb existsb]; rewrite Ei; cbn -[Nat.ltb existsb]; rewrite El, Ef, Ep, Ei;
      split_and!; try done; by intros v [= <-].
Qed.
End forecast.

(** The other nodes of one series. *)
Lemma augurs_changepoint_run `{!ChangepointLib F} up (config : AugursChangepointNode.AugursChangepointConfig F) cs :
  (drive AugursChangepointNode.cycle AugursChangepointNode.value cs (AugursChangepointNode.new up config)).1 =
  analyses (Nat.max (AugursChangepointNode.config_window config) (AugursChangepointNode.min_points config))
    (fun data => if length data <? AugursChangepointNode.min_points config then Ok None
       else Ok (Some (mkChangepoints (filter (fun i => i <> 0)
              (detect_changepoints (AugursChangepointNode.hazard_lambda config) data))))) [] cs.
Proof.
  apply (windowed_run _ _ AugursChangepointNode.buffer _ _ (fun s => AugursChangepointNode.config s = config /\
    AugursChangepointNode.window s =
      Nat.max (AugursChangepointNode.config_window config) (AugursChangepointNode.min_points config))); [|done|done].
  intros x s g (Hc & Hw). unfold AugursChangepointNode.cycle, mbind, get_self, put_self. cbn -[Nat.ltb filter].
  rewrite Hc, Hw. destruct (length _ <? _) eqn:El; cbn -[Nat.ltb filter]; rewrite El; split_and!; try done; by intros v [= <-].
Qed.

Lemma augurs_seasons_run {D} `{!SeasonsLib F D} up (config : AugursSeasonsNode.AugursSeasonsConfig) cs :
  (drive AugursSeasonsNode.cycle AugursSeasonsNode.value cs (AugursSeasonsNode.new up config)).1 =
  analyses (Nat.max (AugursSeasonsNode.config_window config) (AugursSeasonsNode.config_min_points config))
    (fun data => if length data <? AugursSeasonsNode.config_min_points config then Ok None
       else Ok (Some (mkSeasons (detect_seasons (periodogram (AugursSeasonsNode.min_period config)
                                                   (AugursSeasonsNode.max_period config)) data)))) [] cs.
Proof.
  apply (windowed_run _ _ AugursSeasonsNode.buffer _ _ (fun s =>
    AugursSeasonsNode.detector s =
      periodogram (AugursSeasonsNode.min_period config) (AugursSeasonsNode.max_period config) /\
    AugursSeasonsNode.window s =
      Nat.max (AugursSeasonsNode.config_window config) (AugursSeasonsNode.config_min_points config) /\
    AugursSeasonsNode.min_points s = AugursSeasonsNode.config_min_points config)); [|done|done].
  intros x s g (Hd & Hw & Hm). unfold AugursSeasonsNode.cycle, mbind, get_self, put_self. cbn -[Nat.ltb].
  rewrite Hd, Hw, Hm. destruct (length _ <? _) eqn:El; cbn -[Nat.ltb]; rewrite El; split_and!; try done; by intros v [= <-].
Qed.

(** The nodes of several series: two samples at least. *)
Definition of_series {O} (few : list (list F) -> bool) (analysis : list (list F) -> Res O) (data : list (list F))
  : Res (option O) :=
  if length data <? 2 then Ok None
  else
    let series := transpose_window data in
    if few series then Ok None
    else match analysis series with
         | Ok v => Ok (Some v)
         | Err e => Err e
         | Panic w => Panic w
         | OutOfFuel => OutOfFuel
         end.

Lemma augurs_outlier_run {Mad Db Pm Pd} `{!OutlierLib F Mad Db Pm Pd} up (d : Detector Mad Db) window cs :
  (drive AugursOutlierNode.cycle AugursOutlierNode.value cs (AugursOutlierNode.new up d window)).1 =
  analyses (Nat.max window 2) (of_series (fun series => bool_decide (series = [])) (fun series =>
    match detector_run d series with
    | Ok out => Ok (mkOutliers out.1 (map (fun s => default zero (last s)) out.2))
    | Err e => Err e
    | Panic w => Panic w
    | OutOfFuel => OutOfFuel
    end)) [] cs.
Proof.
  apply (windowed_run _ _ AugursOutlierNode.buffer _ _ (fun s => AugursOutlierNode.detector s = d /\
    AugursOutlierNode.window s = Nat.max window 2)); [|done|done].
  intros x s g (Hd & Hw). unfold AugursOutlierNode.cycle, of_series, mbind, get_self, put_self, mlift.
  cbn -[Nat.ltb transpose_window detector_run map]. rewrite Hd, Hw.
  destruct (length _ <? _) eqn:El; [by cbn -[Nat.ltb]; rewrite El|].
  destruct (bool_decide (transpose_window _ = [])) eqn:Es;
    [by cbn -[Nat.ltb transpose_window bool_decide]; rewrite El, Es|].
  destruct (detector_run d _) as [out|e|w|] eqn:Er; cbn -[Nat.ltb transpose_window detector_run map bool_decide];
    rewrite El, Es, Er; split_and!; try done; by intros v [= <-].
Qed.

Section distances.
Context {Mx : Type} `{!DtwLib F Mx}.

Lemma augurs_dtw_run up (config : AugursDtwNode.AugursDtwConfig) cs :
  (drive AugursDtwNode.cycle AugursDtwNode.value cs (AugursDtwNode.new up config)).1 =
  analyses (Nat.max (AugursDtwNode.config_window config) 2) (of_series (fun series => length series <? 2)
    (fun series => Ok (mkMatrix (into_inner (distance_matrix (AugursDtwNode.config_metric config) series))))) [] cs.
Proof.
  apply (windowed_run _ _ AugursDtwNode.buffer _ _ (fun s => AugursDtwNode.metric s = AugursDtwNode.config_metric config /\
    AugursDtwNode.window s = Nat.max (AugursDtwNode.config_window config) 2)); [|done|done].
  intros x s g (Hm & Hw). unfold AugursDtwNode.cycle, of_series, mbind, get_self, put_self.
  cbn -[Nat.ltb transpose_window]. rewrite Hm, Hw.
  destruct (length (push_windowed _ _ _) <? _) eqn:El; [by cbn -[Nat.ltb]; rewrite El|].
  destruct (length (transpose_window _) <? _) eqn:Es; cbn -[Nat.ltb transpose_window]; rewrite El, Es;
    split_and!; try done; by intros v [= <-].
Qed.

Lemma augurs_cluster_run `{!ClusterLib F Mx} up (config : AugursClusterNode.AugursClusterConfig F) cs :
  (drive AugursClusterNode.cycle AugursClusterNode.value cs (AugursClusterNode.new up config)).1 =
  analyses (AugursClusterNode.window config) (of_series (fun series => length series <? 2)
    (fun series => Ok (mkClusters (dbscan_fit (AugursClusterNode.epsilon config)
       (AugursClusterNode.min_cluster_size config)
       (distance_matrix (AugursClusterNode.metric config) series))))) [] cs.
Proof.
  apply (windowed_run _ _ AugursClusterNode.buffer _ _ (fun s => AugursClusterNode.config s = config)); [|done|done].
  intros x s g Hc. unfold AugursClusterNode.cycle, of_series, mbind, get_self, put_self.
  cbn -[Nat.ltb transpose_window]. rewrite Hc.
  destruct (length (push_windowed _ _ _) <? _) eqn:El; [by cbn -[Nat.ltb]; rewrite El|].
  destruct (length (transpose_window _) <? _) eqn:Es; cbn -[Nat.ltb transpose_window]; rewrite El, Es;
    split_and!; try done; by intros v [= <-].
Qed.

(** The clustering node does not raise a window below two, as the other nodes of
    several series do: it never sees two samples, and never emits. *)
Lemma cluster_small_window `{!ClusterLib F Mx} up (config : AugursClusterNode.AugursClusterConfig F) cs :
  AugursClusterNode.window config < 2 ->
  (drive AugursClusterNode.cycle AugursClusterNode.value cs (AugursClusterNode.new up config)).1 = Ok [].
Proof.
  intros Hw. rewrite augurs_cluster_run. generalize ([] : list (list F)) as h.
  induction cs as [|c cs IH]; intros h; [done|]. cbn [analyses]. unfold of_series at 1.
  rewrite (proj2 (Nat.ltb_lt _ _)) by (unfold lastn; rewrite length_drop; lia). by rewrite IH.
Qed.
End distances.

(** ** Transposition *)

(** The values the samples have of series [j]. *)
Definition values_at (j : nat) (samples : list (list F)) : list F := omap (.!! j) samples.

(** The last of the samples that has a value of series [j]. *)
Definition latest (j : nat) (samples : list (list F)) : option F := last (values_at j samples).

Lemma latest_snoc j b s : latest j (b ++ [s]) = match s !! j with Some v => Some v | None => latest j b end.
Proof. unfold latest, values_at. rewrite omap_app. cbn. destruct (s !! j); [by rewrite last_snoc|by rewrite app_nil_r]. Qed.

Definition column (j : nat) (b : list (list F)) : list (option F) :=
  map (fun i => latest j (take (S i) b)) (seq 0 (length b)).

Lemma column_snoc j b s : column j (b ++ [s]) = column j b ++ [latest j (b ++ [s])].
Proof.
  unfold column. rewrite length_app, seq_app, map_app. cbn [length seq map]. f_equal.
  - apply map_ext_in. intros i Hi%in_seq. rewrite take_app_le by lia. done.
  - rewrite take_ge by (rewrite length_app; cbn; lia). done.
Qed.

Lemma repeat_lookup {A} (x : A) n j : repeat x n !! j = if j <? n then Some x else None.
Proof. revert j. induction n as [|n IH]; intros [|j]; [done..|apply IH]. Qed.

Lemma columns_lookup n b j : columns b (repeat [] n) !! j = if j <? n then Some (column j b) else None.
Proof.
  unfold columns. induction b as [|s b IH] using rev_ind.
  - cbn [foldl]. apply repeat_lookup.
  - rewrite foldl_snoc, list_lookup_imap, IH. destruct (j <? n); [|done]. cbn. f_equal.
    rewrite column_snoc. unfold push_sample. do 2 f_equal. rewrite latest_snoc. destruct (s !! j); [done|].
    destruct b as [|s' b _] using rev_ind; [done|]. by rewrite column_snoc, last_snoc.
Qed.

(** What precedes the first value of a series is not there. *)
Lemma column_first j b : head (omap (fun v : option F => v) (column j b)) = head (values_at j b).
Proof.
  induction b as [|s b IH] using rev_ind; [done|]. unfold values_at in *. rewrite column_snoc, !omap_app, latest_snoc. cbn.
  destruct (omap (fun v : option F => v) (column j b)) as [|v l] eqn:Ec; cbn in IH |- *.
  - destruct (omap (.!! j) b) as [|? ?] eqn:Eb; [|done]. unfold latest, values_at. rewrite Eb. cbn.
    by destruct (s !! j).
  - by destruct (omap (.!! j) b) as [|? ?].
Qed.

Lemma n_series_some j b : j < n_series b -> exists v, head (values_at j b) = Some v.
Proof.
  unfold n_series, values_at. induction b as [|s b IH]; cbn; intros Hj; [lia|].
  destruct (s !! j) as [v|] eqn:Es; [by exists v|]. apply lookup_ge_None in Es. apply IH. lia.
Qed.

(** The samples of a window become one series per index that occurs, each as
    long as the window. Entry [i] of series [j] is the value of that series in the
    latest sample up to [i] that has one; before the series appears it is the value
    it appears with. No entry is made up: each is a value some sample has at [j]. *)
Theorem transpose_correct (b : list (list F)) :
  length (transpose_window b) = n_series b /\
  forall j, j < n_series b -> exists col first, transpose_window b !! j = Some col /\
    length col = length b /\ head (values_at j b) = Some first /\
    (forall i, i < length b -> col !! i = Some (default first (latest j (take (S i) b)))) /\
    forall v, v ∈ col -> exists s, s ∈ b /\ s !! j = Some v.
Proof.
  assert (Hl : length (transpose_window b) = n_series b).
  { unfold transpose_window, columns. rewrite length_map. generalize (n_series b) as n.
    induction b as [|s b IH] using rev_ind; intros n; [apply repeat_length|]. rewrite foldl_snoc, length_imap. apply IH. }
  split; [done|]. intros j Hj. destruct (n_series_some j b Hj) as [first Hf].
  exists (back_fill (column j b)), first. unfold back_fill. rewrite column_first, Hf. cbn [default].
  assert (Hsome : forall l v, head (values_at j l) = Some v \/ latest j l = Some v -> exists s, s ∈ l /\ s !! j = Some v).
  { intros l v Hv. assert (Hin : v ∈ values_at j l).
    { destruct Hv as [Hv|Hv]; [|by apply last_Some_elem_of]. destruct (values_at j l); [done|]. injection Hv as ->. set_solver. }
    by apply list_elem_of_omap in Hin. }
  assert (Hcol : forall i, i < length b ->
    map (default first) (column j b) !! i = Some (default first (latest j (take (S i) b)))).
  { intros i Hi. unfold column. rewrite map_map, list_lookup_fmap, lookup_seq_lt by done. done. }
  split_and!; [|unfold column; by rewrite !length_map, length_seq|done|done|].
  - unfold transpose_window. rewrite list_lookup_fmap, columns_lookup.
    rewrite (proj2 (Nat.ltb_lt _ _) Hj). cbn. unfold back_fill. by rewrite column_first, Hf.
  - intros v (i & Hv)%list_elem_of_lookup.
    assert (Hi : i < length b).
    { apply lookup_lt_Some in Hv. revert Hv. unfold column. by rewrite !length_map, length_seq. }
    rewrite Hcol in Hv by done. injection Hv as <-. destruct (latest j (take (S i) b)) as [v|] eqn:El; cbn.
    + destruct (Hsome _ _ (or_intror El)) as (s & Hs & Hv). exists s. split; [by eapply subseteq_take|done].
    + by apply Hsome; left.
Qed.
End nodes.

(** The third series appears in the second sample, the second is missing there. *)
Example transpose_example :
  let n := of_Z (F := f64) in
  transpose_window (map (map n) [[1; 2]; [3]; [4; 5; 6]]%Z) = map (map n) [[1; 3; 4]; [2; 2; 5]; [6; 6; 6]]%Z.
Proof. vm_compute. reflexivity. Qed.

(** ** Counting clusters *)

Lemma dedup_sorted l : Sorted Z.le l -> NoDup (dedup l) /\ forall x, x ∈ dedup l <-> x ∈ l.
Proof.
  induction l as [|x l IH]; [by split; [constructor|]|]. intros Hs.
  apply Sorted_StronglySorted in Hs; [|intros ???; lia]. inversion Hs as [|? ? Hl Hx]; subst.
  destruct (IH (StronglySorted_Sorted Hl)) as [Hn He]. cbn [dedup]. destruct l as [|y l].
  { split; [|done]. constructor; [set_solver|constructor]. }
  destruct (Z.eqb_spec x y) as [->|Hxy].
  - split; [done|]. intros z. rewrite He. set_solver.
  - split; [|intros z; rewrite !elem_of_cons, He; set_solver]. constructor; [|done].
    rewrite He. intros Hin. inversion Hl as [|? ? _ Hy]; subst. rewrite Forall_cons in Hx.
    apply elem_of_cons in Hin as [->|Hin]; [done|]. rewrite Forall_forall in Hy. specialize (Hy x Hin). lia.
Qed.

(** The number of labels that are not noise, each counted once. *)
Lemma cluster_count_spec (c : AugursClusters) :
  cluster_count c = size (list_to_set (filter (fun l => (0 <= l)%Z) (labels c)) : gset Z).
Proof.
  unfold cluster_count. set (seen := filter _ (labels c)).
  assert (Hs : Sorted Z.le (merge_sort Z.le seen)) by (apply Sorted_merge_sort; intros ??; lia).
  pose proof (merge_sort_Permutation Z.le seen) as Hp. destruct (dedup_sorted _ Hs) as [Hn He].
  rewrite <-(size_list_to_set (C := gset Z) (dedup _) Hn). f_equal. apply set_eq. intros x.
  by rewrite !elem_of_list_to_set, He, Hp.
Qed.
