(* ===== verification/Telemetry.v ===== *)
(** * Telemetry: [wingfoil/src/adapters/prometheus/], [wingfoil/src/adapters/otlp/]

    The Prometheus exporter: the registry of metrics, the node that sets one, the
    body of a scrape and the handling of a connection. The two OTLP sinks: gauges,
    and the spans of a traced value. Sockets, the text of values and the
    OpenTelemetry libraries are classes. [metrics_body_exact]: a scrape shows every
    metric that has ticked, sorted, and no other. [emit_spans_exact]: the spans of a
    value are its journey and the hops that were stamped. *)
From stdpp Require Import pretty.
From S2P Require Import Prelude NanoTime GraphState NodeCalls GraphNodes AsyncNodes Cache Kdb NodeWorld Float Latency.
From Stdlib Require Import Strings.Ascii Sorting.Sorted Sorting.Permutation.

(** ** The exporter: [prometheus/exporter.rs] *)

(** A slot is shared by a node and the scrape: it is where it is in the registry. *)
Record PrometheusExporter := mkExporter { addr : bytes; registry : list (bytes * option bytes) }.

(** [to_string()] of a value. *)
Class Display (T : Type) := to_string : T -> bytes.

Module PrometheusExporter.
Definition new (addr : bytes) : PrometheusExporter := mkExporter addr [].
End PrometheusExporter.

Module PrometheusMetricNode.
Section node.
Context {T : Type} `{!Display T}.
Record PrometheusMetricNode := mk { stream : GraphState.addr; slot : nat; historical : bool }.
Definition upstreams (self : PrometheusMetricNode) : UpStreams := mkUpStreams [stream self] [].

Definition setup : NodeM (PrometheusMetricNode * PrometheusExporter) unit :=
  let! g := graph in
  let! self := self_of in
  set_self (mk (stream self) (slot self)
              (match run_mode g with HistoricalFrom _ => true | RealTime => false end)).

Definition store (slot : nat) (value : bytes) (e : PrometheusExporter) : PrometheusExporter :=
  mkExporter (addr e) (alter (fun m => (m.1, Some value)) slot (registry e)).

Definition cycle (up : T) : NodeM (PrometheusMetricNode * PrometheusExporter) bool :=
  let! self := self_of in
  if historical self then mreturn true
  else
    do! world (fun e => (tt, store (slot self) (to_string up) e)) in
    mreturn true.
End node.
End PrometheusMetricNode.

Definition register (name : bytes) (stream : GraphState.addr) (self : PrometheusExporter)
  : PrometheusMetricNode.PrometheusMetricNode * PrometheusExporter :=
  (PrometheusMetricNode.mk stream (length (registry self)) false,
   mkExporter (addr self) (registry self ++ [(name, None)])).

(** [str::cmp]: by bytes. *)
Fixpoint str_le (a b : bytes) : bool :=
  match a, b with
  | [], _ => true
  | _ :: _, [] => false
  | x :: a, y :: b =>
    match N.compare (N_of_ascii x) (N_of_ascii y) with Lt => true | Eq => str_le a b | Gt => false end
  end.

(** [sort_by], which keeps the order of equal names. *)
Fixpoint insert_pair (p : bytes * bytes) (l : list (bytes * bytes)) : list (bytes * bytes) :=
  match l with
  | [] => [p]
  | q :: l => if str_le p.1 q.1 then p :: q :: l else q :: insert_pair p l
  end.
Definition sort_pairs : list (bytes * bytes) -> list (bytes * bytes) := foldr insert_pair [].

Definition metric_line (p : bytes * bytes) : bytes :=
  lit "# TYPE " ++ p.1 ++ lit " gauge" ++ ["010"%char] ++ p.1 ++ lit " " ++ p.2 ++ ["010"%char].

(** [Err]: the lock of the registry is poisoned. *)
Definition build_metrics_body (registry : string + list (bytes * option bytes)) : bytes :=
  match registry with
  | inl _ => []
  | inr snapshot =>
    let pairs := omap (fun m => match m.2 with Some v => Some (m.1, v) | None => None end) snapshot in
    concat (map metric_line (sort_pairs pairs))
  end.

(** *** A connection *)

(** A listener, and the connection at hand. [read_line] appends to its buffer; no
    bytes are the end. *)
Class HttpHost (Li W : Type) := {
  http_bind : bytes -> W -> (string + Li) * W;
  http_port : Li -> W -> (string + Z) * W;
  spawn_run_server : Li -> W -> W;
  incoming : Li -> W -> (string + unit) * W;
  set_read_timeout : W -> option string * W;
  read_line : W -> (string + bytes) * W;
  write_all : bytes -> W -> option string * W;
  lock_registry : W -> (string + list (bytes * option bytes)) * W }.

Definition CRLF : bytes := ["013"%char; "010"%char].
Definition NOT_FOUND : bytes := lit "HTTP/1.1 404 Not Found" ++ CRLF ++ lit "Content-Length: 0" ++ CRLF ++ CRLF.
Definition ok_response (body : bytes) : bytes :=
  lit "HTTP/1.1 200 OK" ++ CRLF ++ lit "Content-Type: text/plain; version=0.0.4; charset=utf-8" ++ CRLF ++
  lit "Content-Length: " ++ lit (pretty (length body)) ++ CRLF ++ CRLF ++ body.

Definition starts_with (prefix b : bytes) : bool := bool_decide (take (length prefix) b = prefix).

Section host.
Context {Li W : Type} `{!HttpHost Li W}.

Fixpoint drain_headers (fuel : nat) : M W unit :=
  match fuel with
  | O => mstuck
  | S fuel =>
    let! line := io read_line in
    match line with
    | inl _ | inr [] => mreturn tt
    | inr line =>
      if bool_decide (line = CRLF) || bool_decide (line = ["010"%char]) then mreturn tt
      else drain_headers fuel
    end
  end.

(** Warnings apart. *)
Definition handle_connection (fuel : nat) : M W unit :=
  let! _ := io set_read_timeout in
  let! line := io read_line in
  match line with
  | inl _ => mreturn tt
  | inr request_line =>
    do! drain_headers fuel in
    if negb (starts_with (lit "GET /metrics HTTP") request_line) then
      let! _ := io (write_all NOT_FOUND) in mreturn tt
    else
      let! registry := io lock_registry in
      let! _ := io (write_all (ok_response (build_metrics_body registry))) in
      mreturn tt
  end.

Fixpoint run_server (fuel : nat) (listener : Li) : M W unit :=
  match fuel with
  | O => mstuck
  | S fuel' =>
    let! conn := io (incoming listener) in
    match conn with
    | inr _ => do! handle_connection fuel in run_server fuel' listener
    | inl _ => mreturn tt
    end
  end.

Definition serve (self : PrometheusExporter) : M W Z :=
  let! listener := io_or Msg (http_bind (addr self)) in
  let! port := io_or Msg (http_port listener) in
  do! mmodify (spawn_run_server listener) in
  mreturn port.
End host.

(** ** Gauges: [otlp/push.rs] *)

Record OtlpConfig := mkOtlp { endpoint : bytes; service_name : bytes }.

(** [G] a gauge with its provider. *)
Class MeterLib (G F W : Type) := {
  build_metric_exporter : bytes -> W -> option string * W;
  build_gauge : bytes -> bytes -> W -> G * W;
  parse_f64 : bytes -> option F;
  record : G -> F -> W -> W;
  drop_provider : G -> W -> W }.

Definition push_consumer {T G F W} `{!Display T, !Num F, !MeterLib G F W} (metric_name : bytes) (config : OtlpConfig)
    (ctx : RunParams) (source : list (Z * T)) : M W unit :=
  match rp_mode ctx with
  | HistoricalFrom _ => mreturn tt
  | RealTime =>
    do! io_or_ (fun e => Msg ("otlp_push: failed to build exporter: " +:+ e)) (build_metric_exporter (G := G) (F := F) (endpoint config)) in
    let! gauge := io (build_gauge (G := G) (F := F) (service_name config) metric_name) in
    do! mfor source (fun item => mmodify (record (F := F) gauge (default Float.zero (parse_f64 (G := G) (F := F) (W := W) (to_string item.2))))) in
    mmodify (drop_provider (G := G) (F := F) gauge)
  end.

(** ** Spans: [otlp/traces.rs] *)

Inductive SpanKind := Server | Internal.

(** [Sp] a span, [KV] an attribute. [None] is no parent. *)
Class TracerLib (Sp KV W : Type) := {
  build_span_exporter : bytes -> W -> option string * W;
  build_tracer : bytes -> W -> W;
  start_span : bytes -> SpanKind -> Z -> list KV -> option Sp -> W -> Sp * W;
  end_with_timestamp : Sp -> Z -> W -> W;
  drop_tracer : W -> W }.

(** [HasLatency]: the stamps of a value, one for each stage. *)
Class HasLatency (P : Type) := stamps : P -> list Z.

Section spans.
Context {P Sp KV W : Type} `{!Latency, !HasLatency P, !TracerLib Sp KV W}.

Definition hop_names : list bytes :=
  map (fun i => lit (nth (i - 1) stage_names EmptyString) ++ lit "__" ++ lit (nth i stage_names EmptyString)) (seq 1 (Latency.N - 1)).

(** [stamps[i]]. *)
Definition stamp_at (l : list Z) (i : nat) : M W Z :=
  match l !! i with Some t => mreturn t | None => mpanic "index out of bounds" end.
Definition orelse (a b : M W bool) : M W bool := let! x := a in if x : bool then mreturn true else b.

Definition skips (l : list Z) (n : nat) : M W bool :=
  if (n <? 2)%nat then mreturn true
  else orelse (let! a := stamp_at l 0 in mreturn (a =? 0)%Z)
      (orelse (let! z := stamp_at l (n - 1) in mreturn (z =? 0)%Z)
        (let! z := stamp_at l (n - 1) in let! a := stamp_at l 0 in mreturn (z <? a)%Z)).

Definition hop_span (l : list Z) (hop_names : list bytes) (cx : Sp) (i : nat) : M W unit :=
  let! a := stamp_at l (i - 1) in
  let! b := stamp_at l i in
  if (a =? 0)%Z || (b =? 0)%Z || (b <? a)%Z then mreturn tt
  else
    let! name := match hop_names !! (i - 1)%nat with Some s => mreturn s | None => mpanic "index out of bounds" end in
    let! child := io (start_span name Internal a [] (Some cx)) in
    mmodify (end_with_timestamp child b).

(** The buffer is left empty, or as it was. *)
Definition emit_spans (value : P) (attrs : P -> list KV -> list KV) (span_name : bytes) (n : nat)
    (hop_names : list bytes) (attr_buffer : list KV) : M W (list KV) :=
  let l := stamps value in
  let! skip := skips l n in
  if skip : bool then mreturn attr_buffer
  else
    let attr_buffer := attrs value [] in
    let! a := stamp_at l 0 in
    let! parent := io (start_span span_name Server a attr_buffer None) in
    do! mfor (seq 1 (n - 1)) (hop_span l hop_names parent) in
    let! z := stamp_at l (n - 1) in
    do! mmodify (end_with_timestamp parent z) in
    mreturn [].

Fixpoint spans_loop (attrs : P -> list KV -> list KV) (span_name : bytes) (source : list (Z * P))
    (attr_buffer : list KV) : M W unit :=
  match source with
  | [] => mreturn tt
  | item :: source =>
    let! attr_buffer := emit_spans item.2 attrs span_name Latency.N hop_names attr_buffer in
    spans_loop attrs span_name source attr_buffer
  end.

Definition spans_consumer (config : OtlpConfig) (span_name : bytes) (attrs : P -> list KV -> list KV)
    (ctx : RunParams) (source : list (Z * P)) : M W unit :=
  match rp_mode ctx with
  | HistoricalFrom _ => mreturn tt
  | RealTime =>
    do! io_or_ (fun e => Msg ("otlp_spans: failed to build exporter: " +:+ e)) (build_span_exporter (endpoint config)) in
    do! mmodify (build_tracer (service_name config)) in
    do! spans_loop attrs span_name source [] in
    mmodify drop_tracer
  end.
End spans.

(** ** The registry *)

Lemma str_le_total a b : str_le a b = true \/ str_le b a = true.
Proof.
  revert b. induction a as [|x a IH]; intros [|y b]; cbn; [by left..|by right|].
  rewrite (N.compare_antisym (N_of_ascii y)). destruct (N.compare (N_of_ascii y) (N_of_ascii x)); cbn; auto.
Qed.

Abbreviation by_name := (fun p q : bytes * bytes => str_le p.1 q.1 = true).
Lemma sort_pairs_sorted l : Sorted by_name (sort_pairs l) /\ sort_pairs l ≡ₚ l.
Proof.
  induction l as [|p l [IHs IHp]]; [by split; [constructor|]|]. cbn [sort_pairs foldr].
  fold (sort_pairs l) in *. assert (Hi : forall m, Sorted by_name m ->
    Sorted by_name (insert_pair p m) /\ insert_pair p m ≡ₚ p :: m).
  { clear. induction m as [|q m IH]; intros Hs; cbn [insert_pair].
    { split; [by repeat constructor|done]. }
    destruct (str_le p.1 q.1) eqn:E; [split; [constructor; [done|by constructor]|done]|].
    inversion Hs as [|? ? Hm Hq]; subst. destruct (IH Hm) as [Hs' Hp']. split.
    - constructor; [done|]. destruct (str_le_total p.1 q.1) as [?|Hqp]; [congruence|].
      destruct m as [|r m]; cbn [insert_pair]; [by constructor|].
      destruct (str_le p.1 r.1); constructor; [done|by inversion Hq].
    - rewrite Hp'. apply Permutation_swap. }
  destruct (Hi _ IHs) as [Hs Hp]. split; [done|]. by rewrite Hp, IHp.
Qed.

(** What has ticked, of a registry. *)
Definition ticked (registry : list (bytes * option bytes)) : list (bytes * bytes) :=
  omap (fun m => match m.2 with Some v => Some (m.1, v) | None => None end) registry.

(** The body of a scrape: a pair of lines for every metric that has a value, in the
    order of their names; none for a metric that has not ticked. *)
Lemma metrics_body_exact registry : exists pairs, build_metrics_body (inr registry) = concat (map metric_line pairs) /\
  Sorted by_name pairs /\ pairs ≡ₚ ticked registry.
Proof. exists (sort_pairs (ticked registry)). split; [done|]. apply sort_pairs_sorted. Qed.

Section metric.
Context {T : Type} `{!Display T}.
Import PrometheusMetricNode.

(** A tick in real time sets the metric of the node, and no other. *)
Lemma metric_cycle_sets (self : PrometheusMetricNode) e g (v : T) : historical self = false ->
  exists e', cycle v ((self, e), g) = (Ok true, ((self, e'), g)) /\
    (forall name old, registry e !! slot self = Some (name, old) ->
       registry e' !! slot self = Some (name, Some (to_string v))) /\
    forall i, i <> slot self -> registry e' !! i = registry e !! i.
Proof.
  intros Hh. unfold cycle, mbind, self_of. cbn. rewrite Hh. eexists. split_and!; [done|..]; cbn.
  - intros name old Hn. by rewrite list_lookup_alter_eq, Hn.
  - intros i Hi. by rewrite list_lookup_alter_ne.
Qed.

(** A historical run leaves every metric as it was: a scrape of a fresh exporter has
    no body. *)
Lemma metric_historical (self : PrometheusMetricNode) e g t (vs : list T) : run_mode g = HistoricalFrom t ->
  exists self', setup ((self, e), g) = (Ok tt, ((self', e), g)) /\
    mfor vs (fun v => do! cycle v in mreturn tt) ((self', e), g) = (Ok tt, ((self', e), g)).
Proof.
  intros Hr. eexists. split; [unfold setup, mbind, graph, self_of; cbn; by rewrite Hr|].
  induction vs as [|v vs IH]; [done|]. cbn [mfor]. erewrite mbind_ok; [exact IH|reflexivity].
Qed.

Lemma registered_unticked name stream e : ticked (registry (register name stream e).2) = ticked (registry e).
Proof. unfold ticked, register. cbn. rewrite omap_app. cbn. by rewrite app_nil_r. Qed.
End metric.

(** ** Connections *)

Section connection.
Context {Li W : Type} `{!HttpHost Li W}.

(** [written]: what has been written to the connection. [backlog]: a bound on the
    lines to come. *)
Class ConnectionLaws (written : W -> list bytes) (backlog : W -> nat) := {
  timeout_written w x w' : set_read_timeout w = (x, w') -> written w' = written w /\ backlog w' = backlog w;
  line_written w x w' : read_line w = (x, w') -> written w' = written w /\
    (forall c l, x = inr (c :: l) -> backlog w' < backlog w) /\ backlog w' <= backlog w;
  lock_written w x w' : lock_registry w = (x, w') -> written w' = written w;
  write_written b w x w' : write_all b w = (x, w') -> written w' = written w ++ [b] }.
Context (written : W -> list bytes) (backlog : W -> nat) `{!ConnectionLaws written backlog}.

Lemma drain_headers_run fuel w : backlog w < fuel ->
  exists w', drain_headers fuel w = (Ok tt, w') /\ written w' = written w.
Proof.
  revert w. induction fuel as [|fuel IH]; intros w Hf; [lia|]. cbn [drain_headers]. unfold mbind, io.
  destruct (read_line w) as [x w1] eqn:E. apply line_written in E as (Hw & Hb & _).
  destruct x as [e|[|c l]]; [by exists w1..|]. specialize (Hb c l eq_refl).
  destruct (bool_decide _ || _); [by exists w1|]. destruct (IH w1) as (w' & Hr & Hw'); [lia|].
  exists w'. split; [done|]. by rewrite Hw'.
Qed.

(** A connection that can be read is answered once, whatever it sends: with the
    metrics when its first line asks for them, with 404 otherwise; the headers are
    read first. *)
Lemma handle_connection_answers fuel w : backlog w < fuel ->
  exists w', handle_connection fuel w = (Ok tt, w') /\
    match (read_line (set_read_timeout w).2).1 with
    | inl _ => written w' = written w
    | inr line => exists response, written w' = written w ++ [response] /\
        if starts_with (lit "GET /metrics HTTP") line
        then exists registry, response = ok_response (build_metrics_body registry)
        else response = NOT_FOUND
    end.
Proof.
  intros Hf. unfold handle_connection, mbind, io. destruct (set_read_timeout w) as [x w1] eqn:E1.
  apply timeout_written in E1 as [Hw1 Hb1]. cbn [snd]. destruct (read_line w1) as [line w2] eqn:E2.
  apply line_written in E2 as (Hw2 & _ & Hb2). cbn [fst]. destruct line as [e|line].
  { exists w2. split; [done|]. congruence. }
  destruct (drain_headers_run fuel w2) as (w3 & E3 & Hw3); [lia|]. rewrite E3.
  destruct (starts_with _ line); cbn [negb].
  - destruct (lock_registry w3) as [reg w4] eqn:E4. apply lock_written in E4.
    destruct (write_all _ w4) as [r w5] eqn:E5. apply write_written in E5. exists w5. split; [done|].
    eexists. split; [rewrite E5, E4, Hw3, Hw2, Hw1; done|by exists reg].
  - destruct (write_all NOT_FOUND w3) as [r w5] eqn:E5. apply write_written in E5. exists w5. split; [done|].
    eexists. split; [rewrite E5, Hw3, Hw2, Hw1; done|done].
Qed.
End connection.

(** ** The spans of a value *)

Inductive SpanOp (Sp KV : Type) :=
| Started (s : Sp) (name : bytes) (kind : SpanKind) (at_ns : Z) (attrs : list KV) (parent : option Sp)
| Ended (s : Sp) (at_ns : Z).
Arguments Started {Sp KV} _ _ _ _ _ _.
Arguments Ended {Sp KV} _ _.

Section span_facts.
Context {P Sp KV W : Type} `{!Latency, !HasLatency P, !TracerLib Sp KV W}.

Class SpanLaws (ops : W -> list (SpanOp Sp KV)) := {
  start_ops name k t kv parent w s w' : start_span name k t kv parent w = (s, w') ->
    ops w' = ops w ++ [Started s name k t kv parent];
  end_ops s t w : ops (end_with_timestamp s t w) = ops w ++ [Ended s t] }.
Context (ops : W -> list (SpanOp Sp KV)) `{!SpanLaws ops}.

(** The hop into stage [i] is there: both its ends are stamped, in order. *)
Definition hop_there (l : list Z) (i : nat) : bool :=
  negb ((l !!! (i - 1)%nat =? 0)%Z || (l !!! i =? 0)%Z || (l !!! i <? l !!! (i - 1)%nat)%Z).
Definition hop_name (i : nat) : bytes :=
  lit (nth (i - 1) stage_names EmptyString) ++ lit "__" ++ lit (nth i stage_names EmptyString).
Definition hop_ops (l : list Z) (p : Sp) (i : nat) (c : Sp) : list (SpanOp Sp KV) :=
  [Started c (hop_name i) Internal (l !!! (i - 1)%nat) [] (Some p); Ended c (l !!! i)].

Lemma stamp_at_ok l i (w : W) : i < length l -> stamp_at l i w = (Ok (l !!! i), w).
Proof. intros Hi. unfold stamp_at. by rewrite (list_lookup_lookup_total_lt l i Hi). Qed.

Lemma hop_names_lookup i : 1 <= i -> i < Latency.N -> hop_names !! (i - 1)%nat = Some (hop_name i).
Proof.
  intros H1 Hi. unfold hop_names. rewrite list_lookup_fmap, lookup_seq_lt by lia. cbn [fmap option_fmap option_map].
  f_equal. unfold hop_name. by replace (1 + (i - 1)) with i by lia.
Qed.

Lemma hop_span_run l p i w : length l = Latency.N -> 1 <= i -> i < Latency.N ->
  exists w', hop_span l hop_names p i w = (Ok tt, w') /\
    if hop_there l i then exists c, ops w' = ops w ++ hop_ops l p i c else w' = w.
Proof.
  intros Hl H1 Hi. unfold hop_span, mbind. rewrite !stamp_at_ok by lia. unfold hop_there.
  destruct (_ || _ || _); cbn [negb]; [by exists w|]. rewrite hop_names_lookup by done. cbn.
  unfold io. destruct (start_span _ _ _ _ _ w) as [c w1] eqn:E. apply start_ops in E.
  exists (end_with_timestamp c (l !!! i) w1). split; [done|]. exists c. by rewrite end_ops, E, <-app_assoc.
Qed.

Lemma hops_run l p is_ w : length l = Latency.N -> Forall (fun i => 1 <= i /\ i < Latency.N) is_ ->
  exists w' cs, mfor is_ (hop_span l hop_names p) w = (Ok tt, w') /\
    length cs = length (filter (fun i => Is_true (hop_there l i)) is_) /\
    ops w' = ops w ++ concat (zip_with (hop_ops l p) (filter (fun i => Is_true (hop_there l i)) is_) cs).
Proof.
  intros Hl. revert w. induction is_ as [|i is_ IH]; intros w Hall.
  { exists w, []. cbn. by rewrite app_nil_r. }
  apply Forall_cons in Hall as [[H1 Hi] Hall]. destruct (hop_span_run l p i w Hl H1 Hi) as (w1 & E1 & Ho).
  destruct (IH w1 Hall) as (w2 & cs & E2 & Hcs & Ho2). cbn [mfor]. unfold mbind. rewrite E1, E2.
  destruct (hop_there l i) eqn:Eh.
  - destruct Ho as (c & Ho). exists w2, (c :: cs). rewrite filter_cons_True by (by rewrite Eh).
    cbn [length zip_with concat]. rewrite Hcs, Ho2, Ho, <-app_assoc. done.
  - subst w1. exists w2, cs. rewrite filter_cons_False by (rewrite Eh; by intros []). done.
Qed.

(** Whether a value's journey was stamped at both ends, in order. *)
Definition journey (l : list Z) (n : nat) : bool :=
  negb ((n <? 2)%nat || (l !!! 0%nat =? 0)%Z || (l !!! (n - 1)%nat =? 0)%Z || (l !!! (n - 1)%nat <? l !!! 0%nat)%Z).

Lemma skips_ok l (w : W) : length l = Latency.N -> skips l Latency.N w = (Ok (negb (journey l Latency.N)), w).
Proof.
  intros Hl. unfold skips, journey, orelse. rewrite negb_involutive. destruct (Nat.ltb_spec Latency.N 2); [done|].
  unfold mbind, mreturn. rewrite (stamp_at_ok l 0) by lia. destruct (l !!! 0%nat =? 0)%Z; [done|].
  rewrite (stamp_at_ok l (Latency.N - 1)) by lia. destruct (l !!! (Latency.N - 1)%nat =? 0)%Z; [done|].
  by rewrite (stamp_at_ok l (Latency.N - 1)), (stamp_at_ok l 0) by lia.
Qed.

(** The spans of a traced value: when its journey was stamped at both ends, in
    order, one span over the journey, with the attributes of the value; under it, in
    the order of the stages, one span for each hop whose two ends were stamped, in
    order; and the journey's span ends last. Otherwise nothing is emitted. No value
    makes it fail. *)
Theorem emit_spans_exact (value : P) (attrs : P -> list KV -> list KV) (span_name : bytes) (buffer : list KV) (w : W)
    (Hl : length (stamps value) = Latency.N) :
  let l := stamps value in
  exists buffer' w', emit_spans value attrs span_name Latency.N hop_names buffer w = (Ok buffer', w') /\
    if journey l Latency.N then
      exists p cs, let hops := filter (fun i => Is_true (hop_there l i)) (seq 1 (Latency.N - 1)) in
        length cs = length hops /\
        ops w' = ops w ++ [Started p span_name Server (l !!! 0%nat) (attrs value []) None] ++
                 concat (zip_with (hop_ops l p) hops cs) ++ [Ended p (l !!! (Latency.N - 1)%nat)]
    else w' = w.
Proof.
  intros l. unfold emit_spans. fold l in Hl |- *. unfold mbind at 1. rewrite skips_ok by done.
  destruct (journey l Latency.N) eqn:Ej; cbn [negb]; [|by exists buffer, w].
  assert (HN : 2 <= Latency.N).
  { unfold journey in Ej. destruct (Nat.ltb_spec Latency.N 2); [done|lia]. }
  unfold mbind at 1. rewrite stamp_at_ok by lia. unfold mbind at 1, io at 1.
  destruct (start_span _ _ _ _ _ w) as [p w1] eqn:E1. apply start_ops in E1.
  destruct (hops_run l p (seq 1 (Latency.N - 1)) w1 Hl) as (w2 & cs & E2 & Hcs & Ho).
  { apply Forall_forall. intros i Hi%elem_of_seq. lia. }
  exists [], (end_with_timestamp p (l !!! (Latency.N - 1)%nat) w2). split.
  - unfold mbind. rewrite E2, stamp_at_ok by lia. done.
  - exists p, cs. split; [done|]. by rewrite end_ops, Ho, E1, <-!app_assoc.
Qed.
End span_facts.

(** ** A tracer in memory *)

Record Tracer := mkTracer { next_span : nat; span_log : list (SpanOp nat bytes) }.
#[export] Instance mem_tracer : TracerLib nat bytes Tracer := {
  build_span_exporter _ w := (None, w);
  build_tracer _ w := w;
  start_span name kind t kv parent w :=
    (next_span w, mkTracer (S (next_span w)) (span_log w ++ [Started (next_span w) name kind t kv parent]));
  end_with_timestamp s t w := mkTracer (next_span w) (span_log w ++ [Ended s t]);
  drop_tracer w := w }.
#[export] Instance mem_span_laws : SpanLaws span_log.
Proof. split; [by intros name k t kv p w s w' [= <- <-]|done]. Qed.
#[export] Instance list_has_latency : HasLatency (list Z) := fun l => l.

Definition four_stages : Latency := {| N := 4; stage_names := ["in"; "parse"; "price"; "out"]%string |}.

(** The stage in the middle was not stamped: one hop is left of three. *)
Lemma emit_spans_exact_witness :
  exists buffer' w', emit_spans [100; 0; 130; 160]%Z (fun _ kv => kv ++ [lit "id"]) (lit "trip") 4
      (hop_names (H := four_stages)) [] (mkTracer 7 []) = (Ok buffer', w') /\
    span_log w' = [Started 7 (lit "trip") Server 100 [lit "id"] None;
                   Started 8 (lit "price__out") Internal 130 [] (Some 7); Ended 8 160; Ended 7 160].
Proof.
  destruct (emit_spans_exact (H := four_stages) span_log [100; 0; 130; 160]%Z (fun _ kv => kv ++ [lit "id"]) (lit "trip")
    [] (mkTracer 7 [])) as (buffer' & w' & Hrun & _); [reflexivity|].
  exists buffer', w'. split; [exact Hrun|]. vm_compute in Hrun. injection Hrun as _ <-. reflexivity.
Defined.
