(* ===== verification/Macros.v ===== *)
(** * The procedural macros: [wingfoil-derive/src/lib.rs]

    [#[node(...)]] and [latency_stages!] read a token stream and write code. The
    token trees are those of [proc_macro]; the parsers of the crate [syn] the
    macros call are the class [Syn], and what they accept [SynLaws]. The code a
    macro writes is kept as data with its meaning: the [upstreams] method over
    the fields of the node it is for, the generated [Latency] record and its
    markers. [node_args_exact] and [latency_stages_exact]: what the two parsers
    return on every attribute and declaration they are meant for, in any order of
    the keys, errors included; [node_args_total]: they come to an end on every
    input; [node_attributes_agree]: the attributes of the library's nodes expand
    to the upstreams the models give them. *)
From stdpp Require Import strings list.
From S2P Require Import Prelude NanoTime TimeQueue GraphState NodeCalls Transforms Timing Iterators Latency.
From Stdlib Require Import Strings.Ascii.

(** ** Token streams, and what [syn] reads of them *)

Inductive Delimiter := Bracket | Brace | Parenthesis.

Inductive TokenTree :=
| TIdent (s : string)
| TPunct (c : ascii)
| TLiteral (s : string)
| TGroup (d : Delimiter) (ts : list TokenTree).

(** A parser advances the stream it is given. *)
Notation Parser := (M (list TokenTree)).

(** An outer attribute: its path, where that is one identifier. *)
Record Attribute := mkAttribute { path_ident : option string; attr_args : list TokenTree }.

Class Syn := {
  Ty : Type;
  Visibility : Type;
  (** [input.parse::<Ident>()], [::<Token![c]>()], [::<Type>()], [::<Visibility>()]. *)
  parse_ident : Parser string;
  parse_punct : ascii -> Parser unit;
  parse_type : Parser Ty;
  parse_visibility : Parser Visibility;
  (** [input.peek(Token![c])]. *)
  peek_punct : ascii -> list TokenTree -> bool;
  (** [bracketed!] and [braced!]: the content of the group. *)
  parse_group : Delimiter -> Parser (list TokenTree);
  (** [Punctuated::<Ident, Token![,]>::parse_terminated], of a whole content. *)
  parse_idents : list TokenTree -> Res (list string);
  (** [Attribute::parse_outer], and [attr.parse_args::<LitStr>()]. *)
  parse_outer : Parser (list Attribute);
  parse_args_lit : Attribute -> Res string }.

(** ** The arguments of [#[node(...)]] *)

Section node_args.
Context `{Syn}.

Record NodeArgs := mkNodeArgs {
  active : list string; passive : list string; output : option (string * Ty) }.

(** The three locals of the parser. *)
Record Keys := mkKeys {
  k_active : option (list string); k_passive : option (list string); k_output : option (string * Ty) }.

Definition duplicate_key (key : string) : Error := Msg ("duplicate key `" +:+ key +:+ "`").
Definition unknown_key (key : string) : Error :=
  Msg ("unknown key `" +:+ key +:+ "`; expected `active`, `passive`, or `output`").

Definition parse_list : Parser (list string) :=
  let! content := parse_group Bracket in mlift (parse_idents content).

(** The [match] on the key. *)
Definition parse_value (key : string) (k : Keys) : Parser Keys :=
  if String.eqb key "active" then
    match k_active k with
    | Some _ => mfail (duplicate_key "active")
    | None => let! l := parse_list in mreturn (mkKeys (Some l) (k_passive k) (k_output k))
    end
  else if String.eqb key "passive" then
    match k_passive k with
    | Some _ => mfail (duplicate_key "passive")
    | None => let! l := parse_list in mreturn (mkKeys (k_active k) (Some l) (k_output k))
    end
  else if String.eqb key "output" then
    match k_output k with
    | Some _ => mfail (duplicate_key "output")
    | None =>
      let! field := parse_ident in
      do! parse_punct ":" in
      let! ty := parse_type in
      mreturn (mkKeys (k_active k) (k_passive k) (Some (field, ty)))
    end
  else mfail (unknown_key key).

(** The body of the loop: a key with its value, and the comma that may follow. *)
Definition parse_entry (k : Keys) : Parser Keys :=
  let! key := parse_ident in
  do! parse_punct "=" in
  let! k := parse_value key k in
  let! rest := mget in
  do! (if peek_punct "," rest then parse_punct "," else mreturn tt) in
  mreturn k.

(** [while !input.is_empty()]. *)
Fixpoint parse_entries (fuel : nat) (k : Keys) : Parser Keys :=
  let! rest := mget in
  match rest, fuel with
  | [], _ => mreturn k
  | _, O => mstuck
  | _, S fuel => let! k := parse_entry k in parse_entries fuel k
  end.

Definition NodeArgs_parse (input : list TokenTree) : Res NodeArgs :=
  fst ((let! k := parse_entries (length input) (mkKeys None None None) in
        mreturn (mkNodeArgs (default [] (k_active k)) (default [] (k_passive k)) (k_output k))) input).

(** ** The expansion of [#[node(...)]] *)

(** An item of the [impl] block: one that was written, by its name, or the
    [upstreams] the macro pushes. *)
Inductive ImplItem :=
| Written (name : string)
| InjectedUpstreams (active_fields passive_fields : list string).

(** The [impl StreamPeekRef<ty>] that is emitted. *)
Record PeekRefImpl := mkPeekRef { peek_field : string; peek_ty : Ty }.

Definition is_empty {A} (l : list A) : bool := match l with [] => true | _ => false end.

Definition inject_upstreams (args : NodeArgs) (items : list ImplItem) : list ImplItem :=
  if negb (is_empty (active args)) || negb (is_empty (passive args))
  then items ++ [InjectedUpstreams (active args) (passive args)] else items.

(** [node]: with an attribute that does not parse, the error is the expansion. *)
Definition node (attr : list TokenTree) (items : list ImplItem) : Res (list ImplItem * option PeekRefImpl) :=
  match NodeArgs_parse attr with
  | Ok args =>
    Ok (inject_upstreams args items,
        match output args with Some (field, ty) => Some (mkPeekRef field ty) | None => None end)
  | Err e => Err e
  | Panic w => Panic w
  | OutOfFuel => OutOfFuel
  end.
End node_args.
Arguments NodeArgs {H}.
Arguments PeekRefImpl {H}.

(** *** What the injected method does *)

(** The types of fields that implement [AsUpstreamNodes]. *)
Inductive Field :=
| RcNode (a : addr)
| RcStream (a : addr)
| VecOf (us : list Field).

Fixpoint as_upstream_nodes (u : Field) : list addr :=
  match u with
  | RcNode a => [a]
  | RcStream a => [a]
  | VecOf us => flat_map as_upstream_nodes us
  end.

(** [#(v.extend(as_upstream_nodes(&self.f));)*]. *)
Definition extend_fields (self : string -> Field) (v : list addr) (fields : list string) : list addr :=
  foldl (fun v f => v ++ as_upstream_nodes (self f)) v fields.

Definition injected_upstreams (self : string -> Field) (active_fields passive_fields : list string) : UpStreams :=
  mkUpStreams (extend_fields self [] active_fields) (extend_fields self [] passive_fields).

(** [upstreams()] of the block: the method pushed, the one written -- [written]
    is its result -- or the trait's default. *)
Fixpoint impl_upstreams (self : string -> Field) (written : UpStreams) (items : list ImplItem) : UpStreams :=
  match items with
  | [] => UpStreams_none
  | InjectedUpstreams a p :: _ => injected_upstreams self a p
  | Written name :: items =>
    if String.eqb name "upstreams" then written else impl_upstreams self written items
  end.

(** ** [latency_stages!] *)

Section latency_stages.
Context `{Syn}.

Record LatencyStagesInput := mkStagesInput {
  visibility : Visibility; stages_name : string; stages : list string; type_name_override : option string }.

(** [#[type_name(...)]] with three dots between double quotes. *)
Definition type_name_form : string :=
  "#[type_name(" +:+ String.String "034"%char ("..." +:+ String.String "034"%char ")]").

(** The loop over the attributes. *)
Fixpoint parse_attributes (attrs : list Attribute) (over : option string) : Res (option string) :=
  match attrs with
  | [] => Ok over
  | attr :: attrs =>
    if bool_decide (path_ident attr = Some "type_name"%string) then
      match over with
      | Some _ => Err (Msg "duplicate #[type_name(...)] attribute")
      | None =>
        match res_map_err (fun _ => Msg ("expected " +:+ type_name_form +:+ " with a single string literal"))
                (parse_args_lit attr) with
        | Ok lit => parse_attributes attrs (Some lit)
        | Err e => Err e
        | Panic w => Panic w
        | OutOfFuel => OutOfFuel
        end
      end
    else Err (Msg ("unrecognized attribute on latency_stages!; only " +:+ type_name_form +:+ " is supported"))
  end.

Definition LatencyStagesInput_parse : Parser LatencyStagesInput :=
  let! attrs := parse_outer in
  let! over := mlift (parse_attributes attrs None) in
  let! vis := parse_visibility in
  let! name := parse_ident in
  let! content := parse_group Brace in
  let! stages := mlift (parse_idents content) in
  if is_empty stages then mfail (Msg "latency_stages! requires at least one stage")
  else mreturn (mkStagesInput vis name stages over).

Definition is_ascii_uppercase (c : ascii) : bool :=
  let n := nat_of_ascii c in Nat.leb 65 n && Nat.leb n 90.
Definition to_ascii_lowercase (c : ascii) : ascii :=
  if is_ascii_uppercase c then ascii_of_nat (nat_of_ascii c + 32) else c.

(** The loop of [pascal_to_snake], from the [i]th character on. *)
Fixpoint snake_loop (i : nat) (s : string) (out : string) : string :=
  match s with
  | EmptyString => out
  | String.String ch s =>
    let out :=
      if is_ascii_uppercase ch then
        (if Nat.eqb i 0 then out else out +:+ "_") +:+ String.String (to_ascii_lowercase ch) EmptyString
      else out +:+ String.String ch EmptyString in
    snake_loop (S i) s out
  end.
Definition pascal_to_snake (s : string) : string := snake_loop 0 s EmptyString.

(** A marker: its type, and its constants as a [Stage]. *)
Record Marker := mkMarker { marker_name : string; NAME : string; MARKER_INDEX : nat }.

(** What is generated: the record with one [u64] a field, its [Latency], the
    module of the markers, and [type_name] where it is overridden. *)
Record LatencyExpansion := mkExpansion {
  struct_visibility : Visibility; struct_name : string; fields : list string;
  latency_impl : Latency; module_name : string; markers : list Marker; type_name : option string }.

Definition latency_stages (input : LatencyStagesInput) : LatencyExpansion :=
  let n := length (stages input) in
  let stage_strs := stages input in
  let stage_indices := seq 0 n in
  mkExpansion (visibility input) (stages_name input) (stages input)
    {| Latency.N := n; stage_names := stage_strs |}
    (pascal_to_snake (stages_name input))
    (map (fun '(marker, (str, idx)) => mkMarker marker str idx)
       (zip (stages input) (zip stage_strs stage_indices)))
    (type_name_override input).
End latency_stages.
Arguments LatencyStagesInput {H}.
Arguments LatencyExpansion {H}.

(** ** What [syn] accepts *)

(** [a, b, c], with or without a comma at the end. *)
Fixpoint separated (l : list string) : list TokenTree :=
  match l with
  | [] => []
  | [s] => [TIdent s]
  | s :: l => TIdent s :: TPunct "," :: separated l
  end.
Definition list_tokens (l : list string) (trailing : bool) : list TokenTree :=
  separated l ++ (if trailing && negb (is_empty l) then [TPunct ","] else []).

(** A parser answers, and what it accepts it takes off the stream. *)
Definition advances {A} (m : Parser A) : Prop := forall ts,
  match m ts with
  | (Ok _, ts') => length ts' < length ts
  | (Err _, _) => True
  | _ => False
  end.

(** [plain]: the identifiers [Ident] parses, which are not the reserved words;
    [type_tokens] and the like: how a type, a visibility and attributes are written. *)
Class SynLaws `{Syn} := {
  plain : string -> Prop;
  type_tokens : Ty -> list TokenTree;
  visibility_tokens : Visibility -> list TokenTree;
  attribute_tokens : list Attribute -> list TokenTree;
  plain_keys : Forall plain ["active"; "passive"; "output"]%string;
  ident_ok : forall s ts, plain s -> parse_ident (TIdent s :: ts) = (Ok s, ts);
  punct_ok : forall c ts, parse_punct c (TPunct c :: ts) = (Ok tt, ts);
  peek_ok : forall c ts, peek_punct c (TPunct c :: ts) = true;
  peek_end : forall c, peek_punct c [] = false;
  peek_ident : forall c s ts, peek_punct c (TIdent s :: ts) = false;
  group_ok : forall d content ts, parse_group d (TGroup d content :: ts) = (Ok content, ts);
  idents_ok : forall l b, Forall plain l -> parse_idents (list_tokens l b) = Ok l;
  type_ok : forall t ts, ts = [] \/ head ts = Some (TPunct ",") ->
    parse_type (type_tokens t ++ ts) = (Ok t, ts);
  outer_ok : forall attrs v s ts, plain s ->
    parse_outer (attribute_tokens attrs ++ visibility_tokens v ++ TIdent s :: ts) =
      (Ok attrs, visibility_tokens v ++ TIdent s :: ts);
  visibility_ok : forall v s ts, plain s ->
    parse_visibility (visibility_tokens v ++ TIdent s :: ts) = (Ok v, TIdent s :: ts);
  ident_advances : advances parse_ident;
  punct_advances : forall c, advances (parse_punct c);
  type_advances : advances parse_type;
  group_advances : forall d, advances (parse_group d);
  idents_answer : forall ts, match parse_idents ts with Ok _ | Err _ => True | _ => False end }.

(** ** The attribute's parser *)

(** A parser after which nothing that is left is lost. *)
Definition keeps {A} (m : Parser A) : Prop := forall ts,
  match m ts with
  | (Ok _, ts') => length ts' <= length ts
  | (Err _, _) => True
  | _ => False
  end.

Lemma advances_keeps {A} (m : Parser A) : advances m -> keeps m.
Proof. intros Hm ts. specialize (Hm ts). destruct (m ts) as [[a|e|w|] ts']; try done. lia. Qed.
Lemma keeps_bind {A B} (m : Parser A) (k : A -> Parser B) :
  keeps m -> (forall a, keeps (k a)) -> keeps (mbind m k).
Proof.
  intros Hm Hk ts. unfold mbind. specialize (Hm ts).
  destruct (m ts) as [[a|e|w|] ts1]; [|done..].
  specialize (Hk a ts1). destruct (k a ts1) as [[b|e|w|] ts2]; try done. lia.
Qed.
Lemma keeps_return {A} (a : A) : keeps (mreturn a).
Proof. intros ts. simpl. lia. Qed.
Lemma keeps_get : keeps mget.
Proof. intros ts. simpl. lia. Qed.
Lemma keeps_fail {A} e : keeps (A := A) (mfail e).
Proof. intros ts. exact I. Qed.
Lemma advances_first {A B} (m : Parser A) (k : A -> Parser B) :
  advances m -> (forall a, keeps (k a)) -> advances (mbind m k).
Proof.
  intros Hm Hk ts. unfold mbind. specialize (Hm ts).
  destruct (m ts) as [[a|e|w|] ts1]; [|done..].
  specialize (Hk a ts1). destruct (k a ts1) as [[b|e|w|] ts2]; try done. lia.
Qed.

Create HintDb syn discriminated.
#[export] Hint Resolve keeps_bind keeps_return keeps_get keeps_fail advances_keeps
  ident_advances punct_advances type_advances group_advances : syn.

Section parser.
Context `{SynLaws}.

Lemma parse_list_keeps : keeps parse_list.
Proof.
  apply keeps_bind; [auto with syn|]. intros content ts. unfold mlift.
  pose proof (idents_answer content) as Ha. by destruct (parse_idents content).
Qed.

Lemma parse_value_keeps key k : keeps (parse_value key k).
Proof.
  unfold parse_value. repeat case_match; auto with syn.
  all: apply keeps_bind; auto using parse_list_keeps with syn.
Qed.

Lemma parse_entry_advances k : advances (parse_entry k).
Proof.
  apply advances_first; [apply ident_advances|]. intros key.
  apply keeps_bind; [auto with syn|]. intros _.
  apply keeps_bind; [apply parse_value_keeps|]. intros k'.
  apply keeps_bind; [auto with syn|]. intros rest.
  apply keeps_bind; [|auto with syn]. destruct (peek_punct "," rest); auto with syn.
Qed.

Lemma parse_entries_answers fuel k ts :
  length ts <= fuel -> fst (parse_entries fuel k ts) <> OutOfFuel /\
    forall w, fst (parse_entries fuel k ts) <> Panic w.
Proof.
  revert k ts. induction fuel as [|fuel IH]; intros k [|t ts] Hlen; simpl in Hlen;
    [done|lia|done|].
  simpl. unfold mbind. simpl. pose proof (parse_entry_advances k (t :: ts)) as Ha.
  destruct (parse_entry k (t :: ts)) as [[k'|e|w|] ts'] eqn:Hk; try done.
  apply IH. simpl in Ha. lia.
Qed.

(** The parser of the attribute's arguments comes to an end on every token
    stream, well formed or not, with arguments or with an error. *)
Theorem node_args_total (input : list TokenTree) :
  exists r, NodeArgs_parse input = r /\ match r with Ok _ | Err _ => True | _ => False end.
Proof.
  eexists; split; [done|]. unfold NodeArgs_parse, mbind, mreturn.
  destruct (parse_entries_answers (length input) (mkKeys None None None) input) as [Hf Hp]; [done|].
  destruct (parse_entries (length input) (mkKeys None None None) input) as [[k|e|w|] ts]; try done.
  by apply (Hp w).
Qed.

(** *** What it reads *)

Inductive AttrEntry :=
| EActive (l : list string) (trailing : bool)
| EPassive (l : list string) (trailing : bool)
| EOutput (field : string) (t : Ty).

Definition key_of (e : AttrEntry) : string :=
  match e with EActive _ _ => "active" | EPassive _ _ => "passive" | EOutput _ _ => "output" end.

Definition value_tokens (e : AttrEntry) : list TokenTree :=
  match e with
  | EActive l b | EPassive l b => [TGroup Bracket (list_tokens l b)]
  | EOutput field t => TIdent field :: TPunct ":" :: type_tokens t
  end.

(** An entry, with whether a comma follows it. *)
Definition entry_tokens (w : AttrEntry * bool) : list TokenTree :=
  TIdent (key_of (fst w)) :: TPunct "=" :: value_tokens (fst w) ++ (if snd w then [TPunct ","] else []).
Definition attribute (w : list (AttrEntry * bool)) : list TokenTree := flat_map entry_tokens w.

Definition names_of (e : AttrEntry) : list string :=
  match e with EActive l _ | EPassive l _ => l | EOutput field _ => [field] end.
Definition is_output (e : AttrEntry) : bool := match e with EOutput _ _ => true | _ => false end.

(** Fields are plain identifiers, and a type is followed by a comma or the end. *)
Fixpoint well_written (w : list (AttrEntry * bool)) (rest : list TokenTree) : Prop :=
  match w with
  | [] => True
  | (e, comma) :: w =>
    Forall plain (names_of e) /\
    (is_output e = true -> comma = false -> attribute w ++ rest = []) /\
    well_written w rest
  end.

(** The first key that is there a second time. *)
Fixpoint first_duplicate (seen keys : list string) : option string :=
  match keys with
  | [] => None
  | key :: keys => if bool_decide (key ∈ seen) then Some key else first_duplicate (key :: seen) keys
  end.

Definition actives (e : AttrEntry) : list string := match e with EActive l _ => l | _ => [] end.
Definition passives (e : AttrEntry) : list string := match e with EPassive l _ => l | _ => [] end.
Definition outputs (e : AttrEntry) : list (string * Ty) := match e with EOutput f t => [(f, t)] | _ => [] end.

Definition args_of (es : list AttrEntry) : NodeArgs :=
  mkNodeArgs (flat_map actives es) (flat_map passives es) (head (flat_map outputs es)).

Definition keys_of (k : Keys) : list string :=
  (if k_active k then ["active"%string] else []) ++ (if k_passive k then ["passive"%string] else []) ++
  (if k_output k then ["output"%string] else []).

Definition set_entry (k : Keys) (e : AttrEntry) : Keys :=
  match e with
  | EActive l _ => mkKeys (Some l) (k_passive k) (k_output k)
  | EPassive l _ => mkKeys (k_active k) (Some l) (k_output k)
  | EOutput f t => mkKeys (k_active k) (k_passive k) (Some (f, t))
  end.

(** The next token after an entry's comma, or where it has none: a comma is not there. *)
Lemma peek_next w rest :
  (rest = [] \/ exists s ts, rest = TIdent s :: ts) -> peek_punct "," (attribute w ++ rest) = false.
Proof.
  intros Hr. destruct w as [|[e c] w]; simpl.
  - destruct Hr as [->|[s [ts ->]]]; [apply peek_end|apply peek_ident].
  - apply peek_ident.
Qed.

Definition has_key (k : Keys) (e : AttrEntry) : bool :=
  match e with
  | EActive _ _ => bool_decide (is_Some (k_active k))
  | EPassive _ _ => bool_decide (is_Some (k_passive k))
  | EOutput _ _ => bool_decide (is_Some (k_output k))
  end.

Lemma keys_of_has k e : key_of e ∈ keys_of k <-> has_key k e = true.
Proof.
  destruct k as [[a|] [p|] [o|]], e; unfold keys_of; simpl;
    rewrite ?elem_of_cons, ?elem_of_nil; intuition discriminate.
Qed.

Lemma parse_value_exact e k ts :
  Forall plain (names_of e) -> (is_output e = true -> ts = [] \/ head ts = Some (TPunct ",")) ->
  key_of e ∉ keys_of k ->
  parse_value (key_of e) k (value_tokens e ++ ts) = (Ok (set_entry k e), ts).
Proof.
  rewrite keys_of_has. destruct k as [a p o]. intros Hp Ht Hk.
  unfold parse_value, parse_list, mbind, mlift. destruct e as [l b|l b|f t]; simpl in *.
  - destruct a; [done|]. by rewrite group_ok, idents_ok.
  - destruct p; [done|]. by rewrite group_ok, idents_ok.
  - destruct o; [done|]. rewrite Forall_singleton in Hp.
    by rewrite ident_ok, punct_ok, type_ok by auto.
Qed.

Lemma parse_value_duplicate e k ts :
  key_of e ∈ keys_of k -> fst (parse_value (key_of e) k ts) = Err (duplicate_key (key_of e)).
Proof.
  rewrite keys_of_has. destruct k as [a p o]. unfold parse_value.
  destruct e; simpl; intros Hk; [destruct a|destruct p|destruct o]; done.
Qed.

Lemma key_plain e : plain (key_of e).
Proof. pose proof plain_keys as Hk. rewrite !Forall_cons in Hk. destruct e; simpl; tauto. Qed.

Lemma parse_entry_exact e comma k w rest :
  (rest = [] \/ exists s ts, rest = TIdent s :: ts) -> well_written ((e, comma) :: w) rest ->
  key_of e ∉ keys_of k ->
  parse_entry k (entry_tokens (e, comma) ++ attribute w ++ rest) = (Ok (set_entry k e), attribute w ++ rest).
Proof.
  intros Hr (Hp & Ho & _) Hk. unfold parse_entry, entry_tokens, mbind, mget, mreturn. cbn [fst snd app].
  rewrite ident_ok by apply key_plain. rewrite punct_ok, <- app_assoc.
  rewrite parse_value_exact; [|done| |done].
  - destruct comma; simpl; [by rewrite peek_ok, punct_ok|by rewrite peek_next].
  - intros Hout. destruct comma; [by right|left]. by apply Ho.
Qed.

Lemma parse_entry_duplicate w k ts :
  key_of (fst w) ∈ keys_of k ->
  fst (parse_entry k (entry_tokens w ++ ts)) = Err (duplicate_key (key_of (fst w))).
Proof.
  intros Hk. unfold parse_entry, entry_tokens, mbind. cbn [app].
  rewrite ident_ok by apply key_plain. rewrite punct_ok.
  pose proof (parse_value_duplicate (fst w) k ((value_tokens (fst w) ++ if snd w then [TPunct ","] else []) ++ ts) Hk) as He.
  by destruct (parse_value _ _ _) as [r ts']; simpl in He; subst.
Qed.

Lemma first_duplicate_seen s1 s2 keys :
  (forall x, x ∈ s1 <-> x ∈ s2) -> first_duplicate s1 keys = first_duplicate s2 keys.
Proof.
  revert s1 s2. induction keys as [|key keys IH]; intros s1 s2 Hs; [done|]. simpl.
  rewrite (bool_decide_ext _ _ (Hs key)). case_bool_decide; [done|]. apply IH. set_solver.
Qed.

Lemma keys_of_set k e : forall x, x ∈ key_of e :: keys_of k <-> x ∈ keys_of (set_entry k e).
Proof. destruct k as [[a|] [p|] [o|]], e; intros x; unfold keys_of; simpl; rewrite ?elem_of_cons, ?elem_of_nil; tauto. Qed.

(** The loop over the entries that were written, up to the first key repeated. *)
Lemma parse_entries_exact w rest fuel k :
  (rest = [] \/ exists s ts, rest = TIdent s :: ts) -> well_written w rest ->
  match first_duplicate (keys_of k) (map key_of (map fst w)) with
  | Some d => fst (parse_entries (length w + fuel) k (attribute w ++ rest)) = Err (duplicate_key d)
  | None => parse_entries (length w + fuel) k (attribute w ++ rest) =
              parse_entries fuel (foldl set_entry k (map fst w)) rest
  end.
Proof.
  intros Hr. revert k. induction w as [|[e comma] w IH]; intros k Hw; [done|].
  cbn [map first_duplicate]. cbn [fst].
  change (attribute ((e, comma) :: w)) with (entry_tokens (e, comma) ++ attribute w).
  rewrite <- app_assoc. case_bool_decide as Hk.
  - pose proof (parse_entry_duplicate (e, comma) k (attribute w ++ rest) Hk) as He.
    simpl in *. unfold mbind. simpl. by destruct (parse_entry _ _) as [r ts]; simpl in He; subst.
  - rewrite (first_duplicate_seen _ _ _ (keys_of_set k e)).
    pose proof (parse_entry_exact e comma k w rest Hr Hw Hk) as He.
    specialize (IH (set_entry k e) ltac:(apply Hw)).
    simpl in *. unfold mbind. simpl. by rewrite He.
Qed.

(** With no key repeated, what the entries have set. *)
Lemma foldl_set_entry es k :
  first_duplicate (keys_of k) (map key_of es) = None ->
  default [] (k_active (foldl set_entry k es)) = default [] (k_active k) ++ flat_map actives es /\
  default [] (k_passive (foldl set_entry k es)) = default [] (k_passive k) ++ flat_map passives es /\
  k_output (foldl set_entry k es) =
    match k_output k with Some o => Some o | None => head (flat_map outputs es) end.
Proof.
  revert k. induction es as [|e es IH]; intros k Hd; simpl.
  - rewrite !app_nil_r. by destruct (k_output k).
  - simpl in Hd. case_bool_decide as Hk; [done|].
    rewrite (first_duplicate_seen _ _ _ (keys_of_set k e)) in Hd.
    destruct (IH _ Hd) as (-> & -> & ->). rewrite keys_of_has in Hk.
    clear -Hk. revert Hk. destruct k as [[a|] [q|] [o|]], e; naive_solver.
Qed.

Lemma parse_entries_unknown key ts fuel k :
  plain key -> key ∉ ["active"; "passive"; "output"]%string ->
  fst (parse_entries (S fuel) k (TIdent key :: TPunct "=" :: ts)) = Err (unknown_key key).
Proof.
  intros Hp Hkey. simpl. unfold mbind at 1, mget. unfold mbind at 1, parse_entry, mbind.
  rewrite ident_ok, punct_ok by done. unfold parse_value. rewrite !elem_of_cons, elem_of_nil in Hkey.
  destruct (String.eqb_spec key "active"), (String.eqb_spec key "passive"),
    (String.eqb_spec key "output"); tauto.
Qed.

Lemma parse_all_entries w rest n :
  (rest = [] \/ exists s ts, rest = TIdent s :: ts) -> well_written w rest ->
  length (attribute w ++ rest) = length w + length rest + n ->
  match first_duplicate [] (map key_of (map fst w)) with
  | Some d => fst (parse_entries (length (attribute w ++ rest)) (mkKeys None None None) (attribute w ++ rest))
                = Err (duplicate_key d)
  | None => parse_entries (length (attribute w ++ rest)) (mkKeys None None None) (attribute w ++ rest)
              = parse_entries (length rest + n) (foldl set_entry (mkKeys None None None) (map fst w)) rest
  end.
Proof.
  intros Hr Hw Hlen. rewrite Hlen, <- Nat.add_assoc.
  exact (parse_entries_exact w rest (length rest + n) (mkKeys None None None) Hr Hw).
Qed.

Lemma attribute_length w rest : exists n, length (attribute w ++ rest) = length w + length rest + n.
Proof.
  exists (length (attribute w) - length w). rewrite length_app.
  assert (length w <= length (attribute w)); [|lia].
  induction w as [|[e c] w IH]; [done|].
  change (attribute ((e, c) :: w)) with (entry_tokens (e, c) ++ attribute w).
  rewrite length_app. simpl. lia.
Qed.

(** The arguments of [#[node(...)]], written in any order and with or without
    the commas that are optional, are read as written -- the fields of [active]
    and of [passive] in their order, the output with its type, and nothing for a
    key that is not there; the first key that is there twice is the error, and
    so is, after well-written entries, a key that is none of the three. *)
Theorem node_args_exact (w : list (AttrEntry * bool)) :
  (well_written w [] ->
   NodeArgs_parse (attribute w) =
     match first_duplicate [] (map key_of (map fst w)) with
     | Some d => Err (duplicate_key d)
     | None => Ok (args_of (map fst w))
     end) /\
  (forall key ts, well_written w (TIdent key :: TPunct "=" :: ts) -> plain key ->
   key ∉ ["active"; "passive"; "output"]%string ->
   NodeArgs_parse (attribute w ++ TIdent key :: TPunct "=" :: ts) =
     match first_duplicate [] (map key_of (map fst w)) with
     | Some d => Err (duplicate_key d)
     | None => Err (unknown_key key)
     end).
Proof.
  split.
  - intros Hw. destruct (attribute_length w []) as [n Hn].
    pose proof (parse_all_entries w [] n (or_introl eq_refl) Hw Hn) as He.
    rewrite app_nil_r in He. unfold NodeArgs_parse, mbind, mreturn.
    destruct (first_duplicate _ _) as [d|] eqn:Hd.
    + by destruct (parse_entries _ _ _) as [r ts]; simpl in He; subst.
    + rewrite He.
      destruct (foldl_set_entry (map fst w) (mkKeys None None None) Hd) as (Ha & Hp & Ho).
      destruct n; simpl; unfold args_of; by rewrite Ha, Hp, Ho.
  - intros key ts Hw Hplain Hkey. destruct (attribute_length w (TIdent key :: TPunct "=" :: ts)) as [n Hn].
    pose proof (parse_all_entries w (TIdent key :: TPunct "=" :: ts) n ltac:(eauto) Hw Hn) as He.
    unfold NodeArgs_parse, mbind, mreturn. destruct (first_duplicate _ _) as [d|].
    + by destruct (parse_entries _ _ _) as [r ts']; simpl in He; subst.
    + rewrite He. clear He. pose proof (parse_entries_unknown key ts (length ts + S n)
        (foldl set_entry (mkKeys None None None) (map fst w)) Hplain Hkey) as Hu.
      replace (length (TIdent key :: TPunct "=" :: ts) + n) with (S (length ts + S n)) by (simpl; lia).
      by destruct (parse_entries _ _ _) as [r ts']; simpl in Hu; subst.
Qed.

(** *** The methods that are injected *)

Lemma extend_fields_flat_map self v l :
  extend_fields self v l = v ++ flat_map (fun f => as_upstream_nodes (self f)) l.
Proof.
  revert v. induction l as [|f l IH]; intros v; simpl; [by rewrite app_nil_r|].
  unfold extend_fields in *. simpl. by rewrite IH, app_assoc.
Qed.

Lemma impl_upstreams_app self written items items' :
  Written "upstreams" ∉ items -> Forall (fun i => exists name, i = Written name) items ->
  impl_upstreams self written (items ++ items') = impl_upstreams self written items'.
Proof.
  intros Hn Hf. induction Hf as [|i items [name ->] _ IH]; [done|]. simpl.
  apply not_elem_of_cons in Hn as [Hi Hn].
  destruct (String.eqb_spec name "upstreams") as [->|]; [done|auto].
Qed.

(** C24: On an [impl] block that does not write [upstreams] itself, the block the
    macro leaves has as upstreams the nodes of the fields named, active and
    passive each in the order of the attribute, and none of a source; what was
    written stays, in front. *)
Theorem node_expansion (w : list (AttrEntry * bool)) (items : list ImplItem) (self : string -> Field)
    (written : UpStreams) :
  well_written w [] -> first_duplicate [] (map key_of (map fst w)) = None ->
  Written "upstreams" ∉ items -> Forall (fun i => exists name, i = Written name) items ->
  let fields_of names := flat_map (fun f => as_upstream_nodes (self f)) names in
  exists items', node (attribute w) items =
    Ok (items ++ items',
        option_map (fun o => mkPeekRef (fst o) (snd o)) (head (flat_map outputs (map fst w)))) /\
    impl_upstreams self written (items ++ items') =
      mkUpStreams (fields_of (flat_map actives (map fst w))) (fields_of (flat_map passives (map fst w))).
Proof.
  intros Hw Hd Hn Hf fields_of. unfold node.
  rewrite (proj1 (node_args_exact w) Hw), Hd. unfold inject_upstreams. simpl.
  set (a := flat_map actives _). set (p := flat_map passives _).
  exists (if negb (is_empty a) || negb (is_empty p) then [InjectedUpstreams a p] else []).
  split.
  - f_equal. f_equal; [|by destruct (head _) as [[f t]|]].
    destruct (_ || _); [done|by rewrite app_nil_r].
  - rewrite impl_upstreams_app by done.
    destruct a as [|a0 a], p as [|p0 p]; simpl; unfold injected_upstreams; by rewrite ?extend_fields_flat_map.
Qed.

(** A block with the attribute [w] has the upstreams [ups]. *)
Definition expands_to (w : list (AttrEntry * bool)) (self : string -> Field) (ups : UpStreams) : Prop :=
  exists items peek, node (attribute w) [Written "cycle"] = Ok (items, peek) /\
    impl_upstreams self UpStreams_none items = ups.

End parser.

(** *** The attributes of the library's nodes *)

Section library_attributes.
Context `{SynLaws} {T IN OUT : Type}.
Context (ty : Ty).

(** The value of each field. *)
Definition lookup_field (fields : list (string * Field)) (name : string) : Field :=
  match list_find (fun f => fst f = name) fields with Some (_, (_, u)) => u | None => VecOf [] end.

Definition field_names : list string :=
  ["upstream"; "upstreams"; "trigger"; "source"; "condition"; "value"].

(** The attributes as they stand in the source. *)
Definition active_upstream : list (AttrEntry * bool) := [(EActive ["upstream"%string] false, false)].
Definition map_stream_attr : list (AttrEntry * bool) :=
  [(EActive ["upstream"%string] false, true); (EOutput "value" ty, false)].
Definition filter_stream_attr : list (AttrEntry * bool) :=
  [(EActive ["source"; "condition"]%string false, true); (EOutput "value" ty, false)].
Definition sample_stream_attr : list (AttrEntry * bool) :=
  [(EPassive ["upstream"%string] false, true); (EActive ["trigger"%string] false, true);
   (EOutput "value" ty, false)].
Definition delay_with_reset_attr : list (AttrEntry * bool) :=
  [(EActive ["upstream"; "trigger"]%string false, true); (EOutput "value" ty, false)].
Definition merge_stream_attr : list (AttrEntry * bool) :=
  [(EActive ["upstreams"%string] false, true); (EOutput "value" ty, false)].
Definition filter_node_attr : list (AttrEntry * bool) :=
  [(EActive ["upstream"%string] false, true); (EPassive ["condition"%string] false, false)].
Definition iterator_stream_attr : list (AttrEntry * bool) := [(EOutput "value" ty, false)].

Lemma flat_map_streams (l : list addr) : flat_map as_upstream_nodes (map RcStream l) = l.
Proof. induction l as [|a l IH]; [done|]. simpl. by rewrite IH. Qed.

Lemma expands_to_intro w self ups :
  well_written w [] -> first_duplicate [] (map key_of (map fst w)) = None ->
  extend_fields self [] (flat_map actives (map fst w)) = us_active ups ->
  extend_fields self [] (flat_map passives (map fst w)) = us_passive ups ->
  expands_to w self ups.
Proof.
  intros Hw Hd Ha Hp. unfold expands_to, node.
  rewrite (proj1 (node_args_exact w) Hw), Hd. eexists _, _. split; [done|]. simpl.
  unfold inject_upstreams. destruct ups as [a p]. simpl in *. subst.
  destruct (flat_map actives (map fst w)), (flat_map passives (map fst w)); done.
Qed.

(** The attributes of the library's nodes, as the source writes them, expand
    to the upstreams that the models of the nodes have. *)
Theorem node_attributes_agree :
  Forall plain field_names ->
  (forall s : MapStream.MapStream IN OUT,
     expands_to map_stream_attr (lookup_field [("upstream"%string, RcStream (MapStream.upstream s))])
       (MapStream.upstreams s)) /\
  (forall s : FilterStream.FilterStream T,
     expands_to filter_stream_attr
       (lookup_field [("source"%string, RcStream (FilterStream.source s));
                      ("condition"%string, RcStream (FilterStream.condition s))])
       (FilterStream.upstreams s)) /\
  (forall s : SampleStream.SampleStream T,
     expands_to sample_stream_attr
       (lookup_field [("upstream"%string, RcStream (SampleStream.upstream s));
                      ("trigger"%string, RcNode (SampleStream.trigger s))])
       (SampleStream.upstreams s)) /\
  (forall s : DelayWithResetStream.DelayWithResetStream T,
     expands_to delay_with_reset_attr
       (lookup_field [("upstream"%string, RcStream (DelayWithResetStream.upstream s));
                      ("trigger"%string, RcNode (DelayWithResetStream.trigger s))])
       (DelayWithResetStream.upstreams s)) /\
  (forall s : MergeStream.MergeStream T,
     expands_to merge_stream_attr
       (lookup_field [("upstreams"%string, VecOf (map RcStream (MergeStream.upstreams_of s)))])
       (MergeStream.upstreams s)) /\
  (forall s : FilterNode.FilterNode,
     expands_to filter_node_attr
       (lookup_field [("upstream"%string, RcNode (FilterNode.upstream s));
                      ("condition"%string, RcStream (FilterNode.condition s))])
       (FilterNode.upstreams s)) /\
  expands_to iterator_stream_attr (lookup_field []) UpStreams_none.
Proof.
  unfold field_names. rewrite !Forall_cons. intros (? & ? & ? & ? & ? & ? & _).
  repeat split; intros; apply expands_to_intro; simpl; rewrite ?Forall_cons, ?Forall_nil; try done; try tauto.
  cbn. by rewrite flat_map_streams.
Qed.
End library_attributes.

(** ** The names of the modules *)

Definition underscore : ascii := "_"%char.

(** What [snake_loop] appends from the [i]th character on. *)
Fixpoint snake_from (i : nat) (s : string) : string :=
  match s with
  | EmptyString => EmptyString
  | String.String ch s =>
    (if is_ascii_uppercase ch then
       if Nat.eqb i 0 then String.String (to_ascii_lowercase ch) (snake_from (S i) s)
       else String.String underscore (String.String (to_ascii_lowercase ch) (snake_from (S i) s))
     else String.String ch (snake_from (S i) s))
  end.

Lemma string_app_assoc (s t u : string) : s +:+ (t +:+ u) = (s +:+ t) +:+ u.
Proof. induction s as [|c s IH]; [done|]. change (String.String c (s +:+ (t +:+ u)) = String.String c ((s +:+ t) +:+ u)). by rewrite IH. Qed.
Lemma string_app_empty (s : string) : s +:+ EmptyString = s.
Proof. induction s as [|c s IH]; [done|]. change (String.String c (s +:+ EmptyString) = String.String c s). by rewrite IH. Qed.

Lemma snake_loop_from s i out : snake_loop i s out = out +:+ snake_from i s.
Proof.
  revert i out. induction s as [|ch s IH]; intros i out; simpl; [by rewrite string_app_empty|].
  rewrite IH. destruct (is_ascii_uppercase ch), (Nat.eqb i 0); by rewrite <- ?string_app_assoc.
Qed.

Lemma pascal_to_snake_from s : pascal_to_snake s = snake_from 0 s.
Proof. exact (snake_loop_from s 0 EmptyString). Qed.

Definition all_chars (P : ascii -> bool) (s : string) : Prop := Forall (fun c => P c = true) (String.list_ascii_of_string s).

(** Reading a snake-case name back: a letter after an underscore, and the first, is a capital. *)
Definition to_ascii_uppercase (c : ascii) : ascii :=
  let n := nat_of_ascii c in if Nat.leb 97 n && Nat.leb n 122 then ascii_of_nat (n - 32) else c.
Fixpoint camel (up : bool) (s : string) : string :=
  match s with
  | EmptyString => EmptyString
  | String.String c s =>
    if Ascii.eqb c underscore then camel true s
    else String.String (if up then to_ascii_uppercase c else c) (camel false s)
  end.
Definition snake_to_pascal (s : string) : string := camel true s.

(** A Pascal-case name: a capital, and no underscore. *)
Definition is_pascal (s : string) : Prop :=
  match s with
  | EmptyString => False
  | String.String c s => is_ascii_uppercase c = true /\ all_chars (fun c => negb (Ascii.eqb c underscore)) s
  end.

Lemma uppercase_facts c : is_ascii_uppercase c = true ->
  Ascii.eqb (to_ascii_lowercase c) underscore = false /\ to_ascii_uppercase (to_ascii_lowercase c) = c /\
  is_ascii_uppercase (to_ascii_lowercase c) = false.
Proof. destruct c as [[] [] [] [] [] [] [] []]; vm_compute; intros He; done || discriminate. Qed.

Lemma camel_snake s i :
  all_chars (fun c => negb (Ascii.eqb c underscore)) s -> camel false (snake_from (S i) s) = s.
Proof.
  revert i. induction s as [|c s IH]; intros i Hs; [done|].
  apply Forall_cons in Hs as [Hc Hs]. apply negb_true_iff in Hc. simpl.
  destruct (is_ascii_uppercase c) eqn:Hu; simpl.
  - destruct (uppercase_facts c Hu) as (-> & -> & _). by rewrite IH.
  - rewrite Hc. by rewrite IH.
Qed.

(** A record's Pascal-case name can be read back from the name of its module
    of markers: two records never share one. *)
Theorem pascal_snake_roundtrip (name : string) :
  is_pascal name -> snake_to_pascal (pascal_to_snake name) = name.
Proof.
  destruct name as [|c s]; [done|]. intros [Hc Hs]. unfold snake_to_pascal.
  rewrite pascal_to_snake_from. simpl. rewrite Hc. simpl.
  destruct (uppercase_facts c Hc) as (-> & -> & _). by rewrite camel_snake.
Qed.

Lemma snake_no_capital s i : all_chars (fun c => negb (is_ascii_uppercase c)) (snake_from i s).
Proof.
  revert i. induction s as [|c s IH]; intros i; simpl; [constructor|].
  destruct (is_ascii_uppercase c) eqn:Hu; [|by constructor; [rewrite Hu|apply IH]].
  destruct (uppercase_facts c Hu) as (_ & _ & Hl).
  destruct (Nat.eqb i 0); repeat first [apply Forall_cons; split | apply IH]; by rewrite ?Hl.
Qed.

(** The name of a module is in snake case already. *)
Theorem pascal_to_snake_idempotent (name : string) :
  pascal_to_snake (pascal_to_snake name) = pascal_to_snake name.
Proof.
  rewrite !pascal_to_snake_from. pose proof (snake_no_capital name 0) as Hn.
  revert Hn. generalize (snake_from 0 name). generalize 0. intros i s. revert i.
  induction s as [|c s IH]; intros i Hn; [done|]. apply Forall_cons in Hn as [Hc Hn].
  apply negb_true_iff in Hc. simpl. rewrite Hc. by rewrite IH.
Qed.

(** ** The declarations of [latency_stages!] *)

Section declaration.
Context `{SynLaws}.

Definition declaration (attrs : list Attribute) (v : Visibility) (name : string) (l : list string)
    (trailing : bool) (rest : list TokenTree) : list TokenTree :=
  attribute_tokens attrs ++ visibility_tokens v ++ TIdent name :: TGroup Brace (list_tokens l trailing) :: rest.

Definition is_type_name (a : Attribute) : Prop := path_ident a = Some "type_name"%string.

(** No attribute, or one [#[type_name(lit)]]. *)
Definition attributes_say (attrs : list Attribute) (over : option string) : Prop :=
  match over with
  | None => attrs = []
  | Some lit => exists a, attrs = [a] /\ is_type_name a /\ parse_args_lit a = Ok lit
  end.

Lemma parse_declaration attrs v name l trailing rest :
  plain name -> Forall plain l ->
  LatencyStagesInput_parse (declaration attrs v name l trailing rest) =
    match parse_attributes attrs None with
    | Ok over => if is_empty l then (Err (Msg "latency_stages! requires at least one stage"), rest)
                 else (Ok (mkStagesInput v name l over), rest)
    | Err e => (Err e, visibility_tokens v ++ TIdent name :: TGroup Brace (list_tokens l trailing) :: rest)
    | Panic w => (Panic w, visibility_tokens v ++ TIdent name :: TGroup Brace (list_tokens l trailing) :: rest)
    | OutOfFuel => (OutOfFuel, visibility_tokens v ++ TIdent name :: TGroup Brace (list_tokens l trailing) :: rest)
    end.
Proof.
  intros Hn Hl. unfold LatencyStagesInput_parse, declaration, mbind, mlift.
  rewrite outer_ok by done. destruct (parse_attributes attrs None); [|done..].
  rewrite visibility_ok, ident_ok, group_ok, idents_ok by done. by destruct l.
Qed.

Lemma parse_attributes_said attrs over : attributes_say attrs over -> parse_attributes attrs None = Ok over.
Proof.
  destruct over as [lit|]; simpl; [|by intros ->]. intros (a & -> & Ha & Hlit). simpl.
  rewrite bool_decide_true by done. by rewrite Hlit.
Qed.

(** A declaration with at least one stage is read as it is written, with the
    type name of its attribute; one with no stage, a second [type_name] and any
    other attribute are errors, each its own. *)
Theorem latency_stages_exact (attrs : list Attribute) (v : Visibility) (name : string) (l : list string)
    (trailing : bool) (rest : list TokenTree) :
  plain name -> Forall plain l ->
  let r := LatencyStagesInput_parse (declaration attrs v name l trailing rest) in
  (forall over, attributes_say attrs over -> l <> [] -> r = (Ok (mkStagesInput v name l over), rest)) /\
  (forall over, attributes_say attrs over -> l = [] ->
     fst r = Err (Msg "latency_stages! requires at least one stage")) /\
  (forall a lit b attrs', attrs = a :: b :: attrs' -> is_type_name a -> parse_args_lit a = Ok lit ->
     is_type_name b -> fst r = Err (Msg "duplicate #[type_name(...)] attribute")) /\
  (forall a attrs', attrs = a :: attrs' -> ~ is_type_name a ->
     fst r = Err (Msg ("unrecognized attribute on latency_stages!; only " +:+ type_name_form +:+ " is supported"))).
Proof.
  intros Hn Hl r. subst r. rewrite parse_declaration by done. repeat split.
  - intros over Ha Hne. rewrite (parse_attributes_said _ _ Ha). by destruct l.
  - intros over Ha ->. by rewrite (parse_attributes_said _ _ Ha).
  - intros a lit b attrs' -> Ha Hlit Hb. simpl. rewrite bool_decide_true, Hlit by done. simpl.
    by rewrite bool_decide_true.
  - intros a attrs' -> Ha. simpl. by rewrite bool_decide_false.
Qed.

(** *** What the markers stamp *)

Lemma marker_lookup (input : LatencyStagesInput) i m :
  markers (latency_stages input) !! i = Some m <->
  exists name, stages input !! i = Some name /\ m = mkMarker name name i.
Proof.
  simpl. rewrite list_lookup_fmap, fmap_Some. split.
  - intros ([mk [s j]] & Hz & ->). apply lookup_zip_Some in Hz as [Hm Hz].
    apply lookup_zip_Some in Hz as [Hs Hj]. simplify_eq. apply lookup_seq in Hj as [-> _]. by exists mk.
  - intros (name & Hs & ->). exists (name, (name, i)). split; [|done].
    apply lookup_zip_Some. split; [done|]. apply lookup_zip_Some. split; [done|].
    apply lookup_seq. split; [done|]. by apply lookup_lt_Some in Hs.
Qed.

(** The record a declaration generates has one marker for each of its fields;
    a stamp through a marker never fails, sets the field the marker is named after
    and leaves every other field, and its constants name that field in the record's
    list of stages. *)
Theorem markers_stamp_their_field (input : LatencyStagesInput) :
  NoDup (stages input) ->
  let e := latency_stages input in
  let N := Latency.N (Latency := latency_impl e) in
  N = length (fields e) /\ length (markers e) = N /\
  (forall m, m ∈ markers e ->
    stage_names (Latency := latency_impl e) !! MARKER_INDEX m = Some (NAME m) /\ NAME m = marker_name m /\
    forall l t, length l = N ->
    exists l', Stage_stamp (H := latency_impl e) (mkStage (MARKER_INDEX m)) l t = Ok l' /\ length l' = N /\
      forall j field, fields e !! j = Some field ->
        l' !! j = if bool_decide (field = marker_name m) then Some t else l !! j).
Proof.
  intros Hnd e N. split; [done|]. split.
  { unfold e, N. simpl. rewrite length_fmap, !length_zip_with, length_seq. lia. }
  intros m [i Hm]%list_elem_of_lookup. apply marker_lookup in Hm as (name & Hs & ->). simpl.
  split; [done|]. split; [done|]. intros l t Hl. pose proof (lookup_lt_Some _ _ _ Hs) as Hi.
  unfold Stage_stamp, stamp_mut. simpl. rewrite (proj2 (Nat.ltb_lt _ _) Hi).
  eexists. split; [done|]. split; [by rewrite length_insert|]. intros j field Hj.
  case_bool_decide as Hf.
  - subst field. rewrite (NoDup_lookup _ _ _ _ Hnd Hj Hs). apply list_lookup_insert_eq. unfold N in Hl. simpl in Hl. lia.
  - apply list_lookup_insert_ne. intros ->. apply Hf. congruence.
Qed.
End declaration.

(** ** A reader of a few tokens, at which the theorems apply

    A type is one identifier, a visibility [pub] or nothing, and [pub] is reserved. *)
Module Small.

Definition reserved (s : string) : bool := String.eqb s "pub".

Definition next_ident : Parser string := fun ts =>
  match ts with
  | TIdent s :: ts' => if reserved s then (Err (Msg "expected identifier"), ts) else (Ok s, ts')
  | _ => (Err (Msg "expected identifier"), ts)
  end.
Definition next_punct (c : ascii) : Parser unit := fun ts =>
  match ts with
  | TPunct c' :: ts' => if Ascii.eqb c c' then (Ok tt, ts') else (Err (Msg "expected a sign"), ts)
  | _ => (Err (Msg "expected a sign"), ts)
  end.
Definition next_type : Parser string := fun ts =>
  match ts with TIdent s :: ts' => (Ok s, ts') | _ => (Err (Msg "expected a type"), ts) end.
Definition next_visibility : Parser bool := fun ts =>
  match ts with
  | TIdent s :: ts' => if reserved s then (Ok true, ts') else (Ok false, ts)
  | _ => (Ok false, ts)
  end.
Definition delimiter_eqb (d d' : Delimiter) : bool :=
  match d, d' with Bracket, Bracket | Brace, Brace | Parenthesis, Parenthesis => true | _, _ => false end.
Definition next_group (d : Delimiter) : Parser (list TokenTree) := fun ts =>
  match ts with
  | TGroup d' content :: ts' => if delimiter_eqb d d' then (Ok content, ts') else (Err (Msg "expected a group"), ts)
  | _ => (Err (Msg "expected a group"), ts)
  end.
Fixpoint all_idents (ts : list TokenTree) : Res (list string) :=
  match ts with
  | [] => Ok []
  | TIdent s :: ts =>
    if reserved s then Err (Msg "expected identifier") else
    match ts with
    | [] => Ok [s]
    | TPunct c :: ts =>
      if Ascii.eqb c "," then match all_idents ts with Ok l => Ok (s :: l) | r => r end
      else Err (Msg "expected a comma")
    | _ => Err (Msg "expected a comma")
    end
  | _ => Err (Msg "expected identifier")
  end.
Fixpoint outer (ts : list TokenTree) : list Attribute * list TokenTree :=
  match ts with
  | TPunct c :: TGroup Bracket content :: ts' =>
    match content with
    | [TIdent p; TGroup Parenthesis args] =>
      let '(attrs, rest) := outer ts' in (mkAttribute (Some p) args :: attrs, rest)
    | [TGroup Parenthesis args] =>
      let '(attrs, rest) := outer ts' in (mkAttribute None args :: attrs, rest)
    | _ => ([], ts)
    end
  | _ => ([], ts)
  end.
Definition write_attribute (a : Attribute) : list TokenTree :=
  [TPunct "#"; TGroup Bracket ((match path_ident a with Some p => [TIdent p] | None => [] end) ++
                                [TGroup Parenthesis (attr_args a)])].
Definition literal (a : Attribute) : Res string :=
  match attr_args a with [TLiteral s] => Ok s | _ => Err (Msg "expected a literal") end.

#[export] Instance syn : Syn := {|
  Ty := string; Visibility := bool; parse_ident := next_ident; parse_punct := next_punct;
  parse_type := next_type; parse_visibility := next_visibility;
  peek_punct := fun c ts => match ts with TPunct c' :: _ => Ascii.eqb c c' | _ => false end;
  parse_group := next_group; parse_idents := all_idents;
  parse_outer := fun ts => let '(attrs, rest) := outer ts in (Ok attrs, rest);
  parse_args_lit := literal |}.

Lemma all_idents_list l b :
  Forall (fun s => reserved s = false) l -> all_idents (list_tokens l b) = Ok l.
Proof.
  unfold list_tokens. induction 1 as [|s l Hs Hl IH]; [by destruct b|].
  destruct l as [|s' l].
  - destruct b; simpl; by rewrite Hs.
  - cbn [separated app]. cbn [separated app is_empty] in IH |- *. cbn [all_idents].
    rewrite Hs, Ascii.eqb_refl. rewrite IH. done.
Qed.

Lemma all_idents_answer ts : match all_idents ts with Ok _ | Err _ => True | _ => False end.
Proof.
  remember (length ts) as n eqn:Hn. revert ts Hn.
  induction n as [n IH] using lt_wf_ind. intros ts ->.
  destruct ts as [|[s|c|s|d c] ts]; simpl; try done. destruct (reserved s); [done|].
  destruct ts as [|[s'|c|s'|d c] ts]; simpl; try done. destruct (Ascii.eqb c ","); [|done].
  specialize (IH (length ts) ltac:(simpl; lia) ts eq_refl). by destruct (all_idents ts).
Qed.

Lemma outer_written attrs v s ts :
  outer (flat_map write_attribute attrs ++ (if v : bool then [TIdent "pub"] else []) ++ TIdent s :: ts) =
    (attrs, (if v then [TIdent "pub"] else []) ++ TIdent s :: ts).
Proof.
  induction attrs as [|[[p|] args] attrs IH]; simpl; [by destruct v|by rewrite IH|by rewrite IH].
Qed.

#[export] Instance laws : SynLaws.
Proof.
  refine {| plain := fun s => reserved s = false; type_tokens := fun t : Ty => [TIdent t : TokenTree];
            visibility_tokens := fun v : Visibility => if (v : bool) then [TIdent "pub"] else [];
            attribute_tokens := flat_map write_attribute |}; simpl.
  - by repeat constructor.
  - intros s ts Hs. by rewrite Hs.
  - intros c ts. by rewrite Ascii.eqb_refl.
  - intros c _. apply Ascii.eqb_refl.
  - done.
  - done.
  - by intros [] content ts.
  - intros l b Hl. by apply all_idents_list.
  - done.
  - intros attrs v s ts _. by rewrite outer_written.
  - intros v s ts Hs. destruct v; simpl; [done|by rewrite Hs].
  - intros [|[s|c|s|d c] ts]; simpl; try done. destruct (reserved s); simpl; [done|lia].
  - intros c [|[s|c'|s|d c'] ts]; simpl; try done. destruct (Ascii.eqb c c'); simpl; [lia|done].
  - intros [|[s|c|s|d c] ts]; simpl; try done. lia.
  - intros d [|[s|c|s|d' c] ts]; simpl; try done. destruct (delimiter_eqb d d'); simpl; [lia|done].
  - apply all_idents_answer.
Defined.
End Small.
Import Small.

Lemma node_expansion_witness :
  exists items', node (attribute (sample_stream_attr (H := Small.syn) "T"%string)) [Written "cycle"] =
    Ok ([Written "cycle"] ++ items', Some (mkPeekRef (H := Small.syn) "value" "T"%string)) /\
    impl_upstreams (lookup_field [("upstream"%string, RcStream 1%positive); ("trigger"%string, VecOf [RcNode 2%positive; RcNode 3%positive])])
      UpStreams_none ([Written "cycle"] ++ items') = mkUpStreams [2; 3]%positive [1]%positive.
Proof.
  apply (node_expansion (sample_stream_attr (H := Small.syn) "T"%string) [Written "cycle"]
    (lookup_field [("upstream"%string, RcStream 1%positive); ("trigger"%string, VecOf [RcNode 2%positive; RcNode 3%positive])])
    UpStreams_none); [|vm_compute; reflexivity|vm_compute|].
  - simpl. by repeat constructor.
  - intros Hi. inversion Hi as [|? ? ? Hi']; subst. inversion Hi'.
  - constructor; [by exists "cycle"%string|constructor].
Defined.

Lemma node_attributes_agree_witness :
  expands_to (iterator_stream_attr (H := Small.syn) "T"%string) (lookup_field []) UpStreams_none.
Proof. eapply (node_attributes_agree (T := nat) (IN := nat) (OUT := nat)). by repeat constructor. Defined.

Lemma latency_stages_exact_witness :
  LatencyStagesInput_parse (declaration (H := Small.syn) [mkAttribute (Some "type_name"%string) [TLiteral "T"]] true
    "TradeLatency" ["ingest"; "publish"]%string true []) =
    (Ok (mkStagesInput (H := Small.syn) true "TradeLatency" ["ingest"; "publish"]%string (Some "T"%string)), []).
Proof.
  apply (latency_stages_exact (H := Small.syn) [mkAttribute (Some "type_name"%string) [TLiteral "T"]] true "TradeLatency"
    ["ingest"; "publish"]%string true []); [by vm_compute|by repeat constructor| |done].
  eexists. split; [done|]. by vm_compute.
Defined.

Lemma markers_stamp_their_field_witness :
  exists l', Stage_stamp (H := latency_impl (latency_stages (mkStagesInput (H := Small.syn) true "TradeLatency"
               ["ingest"; "publish"]%string None))) (mkStage 1) [5; 0]%Z 7%Z = Ok l' /\ length l' = 2%nat.
Proof.
  destruct (markers_stamp_their_field (mkStagesInput (H := Small.syn) true "TradeLatency"
    ["ingest"; "publish"]%string None)) as (_ & _ & Hm).
  - vm_compute. repeat constructor; intros Hi; repeat (inversion Hi as [|? ? ? Hi']; subst; clear Hi; rename Hi' into Hi).
  - destruct (Hm (mkMarker "publish" "publish" 1)) as (_ & _ & Hs); [right; left|].
    destruct (Hs [5; 0]%Z 7%Z eq_refl) as (l' & He & Hl & _). by exists l'.
Defined.

Lemma pascal_snake_roundtrip_witness : snake_to_pascal (pascal_to_snake "TradeLatency") = "TradeLatency"%string.
Proof. apply (pascal_snake_roundtrip "TradeLatency"). split; [done|]. by repeat constructor. Defined.
