(* ===== verification/Python.v ===== *)
(** * The Python bindings: [wingfoil-python/src/]

    Errors on their way to Python and back, the arguments of [run], the element
    type of every Python stream, the operators of [Stream] as compositions of the
    builders of [Builders], the proxy of a stream written in Python, and the CSV
    writer (types.rs, py_element.rs, py_stream.rs, lib.rs, proxy_stream.rs,
    py_csv.rs). The interpreter is the class [PyHost]: objects [O], exceptions [X].
    [user_exception_survives]: what a callback raises is what [run] raises, through
    every context the engine adds; [cause_is_lost]: an error that is not Python's
    shows its outermost context only. [csv_rows_read_back]: the rows of the CSV
    writer read back. The program's own tests of the operators are evaluated on the
    engine at the end. *)
From stdpp Require Import pretty.
From S2P Require Import Prelude NanoTime TimeQueue GraphState NodeCalls Transforms Timing Iterators Graph Objects Builders Float.
From Stdlib Require Import Strings.Ascii Floats.SpecFloat.
Local Open Scope Z_scope.

(** ** Errors ([types.rs]) *)

Inductive PyBindingError := TypeError (msg : string) | ValueError (msg : string).

(** A Python exception: one raised by Python code, or one of the binding's. *)
Inductive PyErr (X : Type) := Raised (x : X) | NewTypeError (msg : string) | NewValueError (msg : string) | NewException (msg : string).
Arguments Raised {X} x.
Arguments NewTypeError {X} msg.
Arguments NewValueError {X} msg.
Arguments NewException {X} msg.

(** A value inside an [anyhow::Error], and [downcast_ref]: what its text stands for. *)
Inductive Leaf (X : Type) := LeafPy (x : X) | LeafBinding (b : PyBindingError).
Arguments LeafPy {X} x.
Arguments LeafBinding {X} b.

Class Downcast (X : Type) := {
  anyhow_text : Leaf X -> string;
  text_leaf : string -> option (Leaf X) }.
Class DowncastLaws (X : Type) `{!Downcast X} := {
  text_leaf_text : forall l, text_leaf (anyhow_text l) = Some l }.

Section errors.
Context {X : Type} `{!Downcast X}.
(** [Display] of the engine's contexts. *)
Context (node_text : string -> nat -> string) (shutdown_text : list Error -> string).

Definition anyhow (l : Leaf X) : Error := Msg (anyhow_text l).
Definition py_callback_error (x : X) : Error := anyhow (LeafPy x).
Definition py_type_error (msg : string) : Error := anyhow (LeafBinding (TypeError msg)).
Definition py_value_error (msg : string) : Error := anyhow (LeafBinding (ValueError msg)).

(** [downcast_ref] looks through every context. *)
Fixpoint downcast_ref (e : Error) : option (Leaf X) :=
  match e with
  | Msg s => text_leaf s
  | Context _ e | NodeContext _ _ e | ShutdownContext e _ => downcast_ref e
  end.

(** [e.to_string()]: the outermost message. *)
Definition error_to_string (e : Error) : string :=
  match e with
  | Msg s => s
  | Context what _ => what
  | NodeContext phase index _ => node_text phase index
  | ShutdownContext _ extra => shutdown_text extra
  end.

Definition to_pyerr (e : Error) : PyErr X :=
  match downcast_ref e with
  | Some (LeafPy x) => Raised x
  | Some (LeafBinding (TypeError msg)) => NewTypeError msg
  | Some (LeafBinding (ValueError msg)) => NewValueError msg
  | None => NewException (error_to_string e)
  end.

(** [to_pyresult]. A panic stays a panic. *)
Definition to_pyresult {A} (r : Res A) : Res (PyErr X + A) :=
  match r with
  | Ok a => Ok (inr a)
  | Err e => Ok (inl (to_pyerr e))
  | Panic w => Panic w
  | OutOfFuel => OutOfFuel
  end.
End errors.

(** ** The interpreter *)

Class PyHost (O X : Type) := {
  py_none : O;
  extract_f64 : O -> option f64;
  extract_duration : O -> option Duration;
  (** A [datetime] as the nanoseconds since the epoch, negative before it. *)
  extract_system_time : O -> option Z;
  call_neg : O -> X + O;
  call_add : O -> O -> X + O;
  call_sub : O -> O -> X + O;
  (** [a == b], and its truth value. *)
  rich_compare_eq : O -> O -> X + O;
  is_truthy : O -> X + bool;
  extract_bool : O -> X + bool;
  py_hash : O -> X + Z }.

(** ** The arguments of [run] ([types.rs]) *)

(** The integer part of a number, [trunc], [fract] and [as u64]. *)
Definition f64_integer (x : f64) : Z :=
  match x with
  | S754_finite s m e =>
    let n := if 0 <=? e then Z.pos m * 2 ^ e else Z.pos m / 2 ^ (- e) in
    if s then - n else n
  | _ => 0
  end.
Definition f64_trunc (x : f64) : f64 :=
  match x with
  | S754_finite s m e => if 0 <=? e then x else binary_normalize 53 1024 (f64_integer x) 0 s
  | _ => x
  end.
Definition f64_fract (x : f64) : f64 := fsub x (f64_trunc x).
Definition f64_as_u64 (x : f64) : Z :=
  match x with
  | S754_infinity false => u64_max
  | S754_infinity true | S754_nan | S754_zero _ => 0
  | S754_finite _ _ _ => Z.max 0 (Z.min u64_max (f64_integer x))
  end.
(** A NaN is taken as Python's [nan], whose sign is positive. *)
Definition is_sign_negative (x : f64) : bool :=
  match x with S754_zero s | S754_infinity s | S754_finite s _ _ => s | S754_nan => false end.
Definition f64_1e9 : f64 := of_Z 1000000000.

Definition f64_secs_to_nanos (ts : f64) : Res Z :=
  if is_sign_negative ts then Err (Msg "Negative timestamps not supported")
  else
    let secs := f64_as_u64 (f64_trunc ts) in
    let frac_nanos := f64_as_u64 (fmul (f64_fract ts) f64_1e9) in
    if u64_max <? secs * 1000000000 then Err (Msg "Overflow when converting seconds to nanoseconds")
    else
      let nanos := secs * 1000000000 in
      if u64_max <? nanos + frac_nanos then Err (Msg "Overflow when adding fractional nanoseconds")
      else Ok (nanos + frac_nanos).

Section run_args.
Context {O X : Type} `{!PyHost O X, !Downcast X}.

Definition to_duration (obj : O) : Res Duration :=
  match extract_f64 obj with
  | Some f =>
    if flt f Float.zero then Err (Msg "duration can not be negative")
    else Ok (from_nanos (f64_as_u64 (fmul f f64_1e9)))
  | None =>
    match extract_duration obj with
    | Some td => Ok td
    | None => Err (Msg "failed to convert duration")
    end
  end.

(** [duration_since(UNIX_EPOCH)] fails before the epoch. *)
Definition to_nano_time (obj : O) : Res Z :=
  match extract_system_time obj with
  | Some dt =>
    if dt <? 0 then Err (Msg "second time provided was later than self") else Ok (NanoTime.from_u128 dt)
  | None =>
    match extract_f64 obj with
    | Some ts => match f64_secs_to_nanos ts with Ok n => Ok (NanoTime.from_u64 n) | r => r end
    | None => Err (Msg "failed to convert to NanoTime")
    end
  end.

Definition parse_run_args (realtime : bool) (start duration : option O) (cycles : option Z)
  : Res (RunMode * RunFor) :=
  if bool_decide (is_Some duration) && bool_decide (is_Some cycles) then
    Err (py_value_error "Cannot specify both duration and cycles")
  else if realtime && bool_decide (is_Some start) then
    Err (py_value_error "Cannot specify start in realtime mode")
  else
    let run_mode :=
      if realtime then Ok RealTime
      else match start with
           | Some start => match to_nano_time start with
                           | Ok t => Ok (HistoricalFrom t)
                           | Err e => Err e | Panic w => Panic w | OutOfFuel => OutOfFuel
                           end
           | None => Ok (HistoricalFrom 0)
           end in
    match run_mode with
    | Ok run_mode =>
      match cycles with
      | Some cycles => Ok (run_mode, Cycles cycles)
      | None =>
        match duration with
        | Some duration => match to_duration duration with
                           | Ok d => Ok (run_mode, ForDuration d)
                           | Err e => Err e | Panic w => Panic w | OutOfFuel => OutOfFuel
                           end
        | None => Ok (run_mode, Forever)
        end
      end
    | Err e => Err e | Panic w => Panic w | OutOfFuel => OutOfFuel
    end.
End run_args.

(** ** The elements of a stream ([py_element.rs]) *)

Section element.
Context {O X : Type} `{!PyHost O X}.

(** [PyElement(Option<Py<PyAny>>)]. *)
Definition PyElement : Type := option O.
Definition PyElement_none : PyElement := None.
Definition PyElement_new (val : O) : PyElement := Some val.
Definition PyElement_default : PyElement := Some py_none.
Definition as_ref (self : PyElement) : Res O :=
  match self with
  | Some o => Ok o
  | None => Panic "invariant: as_ref called on an empty (None) PyElement"
  end.

(** [expect] on the outcome of a method. *)
Definition expect {A} (what : string) (r : X + A) : Res A :=
  match r with inr a => Ok a | inl _ => Panic what end.

Definition res_bind {A B} (r : Res A) (k : A -> Res B) : Res B :=
  match r with Ok a => k a | Err e => Err e | Panic w => Panic w | OutOfFuel => OutOfFuel end.

Definition element_not (self : PyElement) : Res PyElement :=
  res_bind (as_ref self) (fun o =>
  res_bind (expect "invariant: PyElement value must support __neg__ for `not`/`!`" (call_neg o)) (fun res =>
  Ok (PyElement_new res))).
Definition element_add (self rhs : PyElement) : Res PyElement :=
  res_bind (as_ref self) (fun o => res_bind (as_ref rhs) (fun r =>
  res_bind (expect "invariant: PyElement value must support __add__ for `+`/`sum`" (call_add o r)) (fun res =>
  Ok (PyElement_new res)))).
Definition element_sub (self rhs : PyElement) : Res PyElement :=
  res_bind (as_ref self) (fun o => res_bind (as_ref rhs) (fun r =>
  res_bind (expect "invariant: PyElement value must support __sub__ for `-`/`difference`" (call_sub o r)) (fun res =>
  Ok (PyElement_new res)))).

(** [==]: an exception, of the comparison or of the truth value, is [false]. *)
Definition element_eq (self other : PyElement) : bool :=
  match self, other with
  | Some a, Some b =>
    match rich_compare_eq (X := X) a b with
    | inr obj => match is_truthy (X := X) obj with inr b => b | inl _ => false end
    | inl _ => false
    end
  | None, None => true
  | _, _ => false
  end.

Definition element_hash (self : PyElement) : Res Z :=
  match self with
  | Some obj => match py_hash obj with inr h => Ok h | inl _ => Panic "invariant: PyElement value must be hashable" end
  | None => Panic "invariant: cannot hash an empty (None) PyElement"
  end.
End element.

(** ** The functions and the operators of [Stream] ([lib.rs], [py_stream.rs])

    A Python value is a [Val], [None] its unit; a callback takes values to a value or
    an exception. [py_float]: the float an [f64] conversion makes of a time. *)

(** [Duration::from_secs_f64], to the nearest nanosecond, ties to even. *)
Definition div_round_even (n d : Z) : Z :=
  let q := n / d in let r := n mod d in
  match Z.compare (2 * r) d with
  | Lt => q
  | Gt => q + 1
  | Eq => if Z.even q then q else q + 1
  end.
Definition from_secs_f64 (secs : f64) : Res Duration :=
  let nanos (m : positive) (e : Z) :=
    if 0 <=? e then Z.pos m * 2 ^ e * 1000000000 else div_round_even (Z.pos m * 1000000000) (2 ^ (- e)) in
  match secs with
  | S754_zero _ => Ok (from_nanos 0)
  | S754_finite false m e =>
    if u64_max <? nanos m e / 1000000000 then Panic "cannot convert float seconds to Duration: value is either too big or NaN"
    else Ok (from_nanos (nanos m e))
  | S754_finite true _ _ => Panic "cannot convert float seconds to Duration: value is negative"
  | _ => Panic "cannot convert float seconds to Duration: value is either too big or NaN"
  end.

(** What Python holds: a [Node], a [Stream], or anything else. *)
Inductive PyHandle := HNode (a : addr) | HStream (a : addr) | HOther.

Section operators.
Context {X : Type} `{!PyHost Val X, !Downcast X}.
Context (py_float : Z -> Val).
Implicit Types self : addr.

#[local] Instance py_element : Element Val := VUnit.

(** [func.call1(..).map_err(py_callback_error)?]. *)
Definition called_back {A} (r : X + A) : Res A :=
  match r with inr a => Ok a | inl x => Err (py_callback_error x) end.

Definition py_ticker (seconds : f64) : Build addr := let! d := mlift (from_secs_f64 seconds) in ticker d.
Definition py_constant (val : Val) : Build addr := constant val.
Definition py_bimap (a b : PyHandle) (func : Val -> Val -> X + Val) : Build addr :=
  match a, b with
  | HStream a, HStream b => try_bimap (Active a) (Active b) (fun x y => called_back (func x y))
  | HStream _, _ => mfail (py_type_error "bimap: second argument must be a Stream")
  | _, _ => mfail (py_type_error "bimap: first argument must be a Stream")
  end.

Definition py_node_count self : Build addr := let! c := count self in map_ c (fun x => x).

Definition py_collect self : Build addr :=
  let! c := collect self in
  map_ c (fun items => VList (map (fun item => match item with VPair v _ => v | _ => VUnit end) (val_list items))).

Definition time_tuple (time : Z) (val : Val) : Val := VPair (py_float time) val.

Definition dataframe self : Build addr :=
  let! time_stream := ticked_at_elapsed self in
  let! zipped := bimap (Active self) (Active time_stream) (fun val time => time_tuple (val_int time) val) in
  py_collect zipped.

Definition py_buffer self (capacity : nat) : Build addr :=
  let! b := buffer self capacity in map_ b (fun items => VList (val_list items)).

Definition py_finally self (func : Val -> Outside -> (X + unit) * Outside) : Build addr :=
  finally self (fun v _ o => let '(r, o) := func v o in (called_back r, o)).
Definition py_for_each self (func : Val -> Val -> Outside -> (X + unit) * Outside) : Build addr :=
  try_for_each self (fun v t o => let '(r, o) := func v (py_float t) o in (called_back r, o)).

(** The value passes through; an exception of [func] fails the cycle. *)
Definition py_inspect self (func : Val -> X + Val) : Build addr :=
  try_map self (fun x => res_bind (called_back (func x)) (fun _ => Ok x)).

Definition py_difference self : Build addr := difference self.
Definition py_delay self (delay_secs : f64) : Build addr :=
  let! d := mlift (from_secs_f64 delay_secs) in delay self d.
Definition py_distinct self : Build addr := distinct self.

Definition keep_value (keep_func : Val -> X + Val) (x : Val) : Res Val :=
  res_bind (called_back (keep_func x)) (fun res =>
  match extract_bool res with
  | inr b => Ok (VBool b)
  | inl e => Err (Context "filter predicate must return a bool" (py_callback_error e))
  end).
Definition py_filter self (keep_func : Val -> X + Val) : Build addr :=
  let! keep := @try_map (VBool false) self (keep_value keep_func) in
  filter self keep.

Definition py_limit self (lim : Z) : Build addr := limit self lim.
Definition py_logged self (enabled : bool) : Build addr := logged self enabled.
Definition py_map self (func : Val -> X + Val) : Build addr := try_map self (fun x => called_back (func x)).
Definition py_not self (neg : Val -> Val) : Build addr := not self neg.

Definition py_sample self (trigger : PyHandle) : Build addr :=
  match trigger with
  | HNode node => sample self node
  | HStream stream => sample self stream
  | HOther => mfail (py_type_error "sample: expected a Node or Stream trigger")
  end.

Definition py_with_time self : Build addr :=
  let! w := with_time self in
  map_ w (fun tv => match tv with VPair t v => time_tuple (val_int t) v | _ => VUnit end).

(** ** [Graph] ([lib.rs]) *)

Fixpoint graph_roots (nodes : list PyHandle) : PyErr X + list addr :=
  match nodes with
  | [] => inr []
  | HStream a :: nodes | HNode a :: nodes =>
    match graph_roots nodes with inr roots => inr (a :: roots) | inl e => inl e end
  | HOther :: _ => inl (NewTypeError "Graph components must be Stream or Node")
  end.

Context (node_text : string -> nat -> string) (shutdown_text : list Error -> string).

(** [Graph::new] and [Graph::run]. *)
Definition run_roots (fuel : nat) (roots : list addr) (run_mode : RunMode) (run_for : RunFor) (w : Heap)
  : Res unit * Heap :=
  let '(r, s) := @Graph.new Heap (heap_ops fuel) fuel roots run_mode run_for w env_quiet in
  let '(r, s) := match r with Ok _ => @Graph.run Heap (heap_ops fuel) fuel s | _ => (r, s) end in
  (r, world s).

(** [run] of a graph, and of a stream or a node, which is its one root. *)
Definition py_run (fuel : nat) (roots : list addr) (realtime : bool) (start duration : option Val)
    (cycles : option Z) (w : Heap) : Res (PyErr X + unit) * Heap :=
  match parse_run_args realtime start duration cycles with
  | Ok (run_mode, run_for) =>
    let '(r, w) := run_roots fuel roots run_mode run_for w in (to_pyresult node_text shutdown_text r, w)
  | Err e => (to_pyresult node_text shutdown_text (Err e), w)
  | Panic why => (Panic why, w)
  | OutOfFuel => (OutOfFuel, w)
  end.
End operators.

(** ** A stream written in Python ([proxy_stream.rs])

    [P]: the Python object that is wrapped. *)

(** An item of the list [upstreams()] returns. *)
Inductive PyUpstream (P : Type) := UpStream (a : addr) | UpProxy (p : P) | UpOther.
Arguments UpStream {P} a.
Arguments UpProxy {P} p.
Arguments UpOther {P}.

Class PyProxyHost (P X : Type) := {
  (** The list, or nothing where the method raises or its result is no list. *)
  call_upstreams : P -> option (option (list (PyUpstream P)));
  (** [cycle()]: an exception, or its result as a [bool] where it is one. *)
  call_cycle : P -> (X + (X + bool)) * P;
  call_peek : P -> X + Val;
  exception_text : X -> string }.

Module PyProxyStream.
Section proxy.
Context {P X : Type} `{!PyProxyHost P X}.

(** The wrappers made so far: each [into_node] allocates one. *)
Record Wrappers := mkWrappers { wrapped : list (addr * P); next : addr }.

Definition into_node (p : P) : M Wrappers addr := fun s =>
  (Ok (next s), mkWrappers (wrapped s ++ [(next s, p)]) (Pos.succ (next s))).

Fixpoint upstream_nodes (res : list (PyUpstream P)) : M Wrappers (list addr) :=
  match res with
  | [] => mreturn []
  | u :: res =>
    let! a := match u with
              | UpStream a => mreturn a
              | UpProxy p => into_node p
              | UpOther => mpanic "upstreams() returned an unexpected type: expected Stream or Node"
              end in
    let! ups := upstream_nodes res in
    mreturn (a :: ups)
  end.

Definition upstreams (self : P) : M Wrappers UpStreams :=
  match call_upstreams self with
  | None => mpanic "invariant: Python proxy must implement upstreams()"
  | Some None => mpanic "invariant: upstreams() must return a list of Stream/Node"
  | Some (Some res) => let! ups := upstream_nodes res in mreturn (mkUpStreams ups [])
  end.

Definition cycle : NodeM P bool :=
  let! self := get_self in
  let '(r, self) := call_cycle self in
  do! put_self self in
  match r with
  | inl e => mfail (Msg ("Failed to call cycle method: " +:+ exception_text e))
  | inr (inl e) => mfail (Msg ("Failed to extract boolean result: " +:+ exception_text e))
  | inr (inr b) => mreturn b
  end.

(** [peek_ref], which demux alone reads, and [clone_from_cell_ref], which is what
    [peek_value] reads. *)
Definition peek_ref (self : P) : option Val := None.
Definition clone_from_cell_ref (self : P) : Res (option Val) :=
  match call_peek self with
  | inr v => Ok (Some v)
  | inl _ => Panic "invariant: Python proxy must implement peek()"
  end.
End proxy.
End PyProxyStream.

(** ** The CSV writer ([py_csv.rs])

    A file is its characters. [None] for a key that is not a string; a value is its
    [str]. *)
Module CsvWriteState.

Abbreviation bytes := (list ascii).
Definition COMMA : ascii := ",".
Definition QUOTE : ascii := "034".
Definition NEWLINE : ascii := "010".

Definition contains (c : ascii) (v : bytes) : bool := bool_decide (c ∈ v).
Definition double_quotes (v : bytes) : bytes := flat_map (fun c => if Ascii.eqb c QUOTE then [QUOTE; QUOTE] else [c]) v.

Definition escape (v : bytes) : bytes :=
  if contains COMMA v || contains QUOTE v || contains NEWLINE v
  then QUOTE :: double_quotes v ++ [QUOTE] else v.

(** The fold over the enumerated values. *)
Fixpoint line_from (i : nat) (acc : bytes) (values : list bytes) : bytes :=
  match values with
  | [] => acc
  | v :: values =>
    line_from (S i) ((if Nat.ltb 0 i then acc ++ [COMMA] else acc) ++ escape v) values
  end.

Record CsvWriteState := mk { file : bytes; headers : option (list bytes) }.
Definition new : CsvWriteState := mk [] None.

Definition write_row (values : list bytes) (self : CsvWriteState) : CsvWriteState :=
  mk (file self ++ line_from 0 [] values ++ [NEWLINE]) (headers self).

Definition PyDict : Type := list (option bytes * bytes).
Definition get_item (dict : PyDict) (key : bytes) : bytes :=
  match list_find (fun kv => kv.1 = Some key) dict with Some (_, (_, v)) => v | None => [] end.

(** The closure of [py_csv_write_inner]; [None] for an element that is no dict. *)
Definition write_elem (elem : option PyDict) (time : Z) (self : CsvWriteState) : CsvWriteState :=
  match elem with
  | None => self
  | Some dict =>
    let '(h, self) :=
      match headers self with
      | None =>
        let keys := map (fun kv => default [] kv.1) dict in
        let self := write_row (String.list_ascii_of_string "time" :: keys) self in
        (keys, mk (file self) (Some keys))
      | Some h => (h, self)
      end in
    write_row (String.list_ascii_of_string (pretty time) :: map (get_item dict) h) self
  end.

Definition write_elems (elems : list (option PyDict * Z)) (self : CsvWriteState) : CsvWriteState :=
  foldl (fun s e => write_elem e.1 e.2 s) self elems.
End CsvWriteState.

(** ** What Python sees of an error *)

Section error_facts.
Context {X : Type} `{!Downcast X, !DowncastLaws X}.
Context (node_text : string -> nat -> string) (shutdown_text : list Error -> string).

(** [e'] is [e] under contexts. *)
Inductive in_context (e : Error) : Error -> Prop :=
| in_self : in_context e e
| in_text what e' : in_context e e' -> in_context e (Context what e')
| in_node phase index e' : in_context e e' -> in_context e (NodeContext phase index e')
| in_shutdown extra e' : in_context e e' -> in_context e (ShutdownContext e' extra).

Lemma downcast_in_context e e' : in_context e e' -> downcast_ref (X := X) e' = downcast_ref e.
Proof. by induction 1. Qed.

(** An exception a callback raises is the exception [run] raises, whatever
    contexts the operator and the engine have put around it, and the binding's
    own errors keep their class and text. *)
Theorem user_exception_survives {A} (l : Leaf X) (e : Error) :
  in_context (anyhow l) e ->
  to_pyresult (A := A) node_text shutdown_text (Err e) =
    Ok (inl match l with
            | LeafPy x => Raised x
            | LeafBinding (TypeError msg) => NewTypeError msg
            | LeafBinding (ValueError msg) => NewValueError msg
            end).
Proof.
  intros He. unfold to_pyresult, to_pyerr. rewrite (downcast_in_context _ _ He). simpl.
  rewrite text_leaf_text. by destruct l as [x|[]].
Qed.

(** An error of the library itself reaches Python as the text of the context
    the engine put around it last: two errors of one node in one phase are not told
    apart, their causes are not part of the exception. *)
Theorem cause_is_lost (e e' : Error) phase index :
  downcast_ref (X := X) e = None -> downcast_ref (X := X) e' = None ->
  to_pyerr (X := X) node_text shutdown_text (NodeContext phase index e) =
    to_pyerr node_text shutdown_text (NodeContext phase index e').
Proof. intros He He'. unfold to_pyerr. simpl. by rewrite He, He'. Qed.

(** So it is with what a [cycle] written in Python raises: its exception is made a
    text before the engine adds its context, and the text does not come through. *)
Theorem proxy_exception_lost {P} `{!PyProxyHost P X} (p : P) (x : X) (p' : P) g index :
  call_cycle p = (inl x, p') ->
  text_leaf ("Failed to call cycle method: " +:+ exception_text x) = None ->
  exists e, PyProxyStream.cycle (p, g) = (Err e, (p', g)) /\
    to_pyerr node_text shutdown_text (NodeContext "cycle" index e) = NewException (X := X) (node_text "cycle"%string index).
Proof.
  intros Hc Ht. eexists. split.
  - unfold PyProxyStream.cycle, mbind, get_self. simpl. rewrite Hc. simpl. reflexivity.
  - unfold to_pyerr. cbn [downcast_ref]. by rewrite Ht.
Qed.
End error_facts.

(** ** The nodes of a proxy *)

Section proxy_facts.
Context {P X : Type} `{!PyProxyHost P X}.

Lemma wrapped_kept (res : list (PyUpstream P)) s ups s' :
  PyProxyStream.upstream_nodes res s = (Ok ups, s') ->
  forall e, e ∈ PyProxyStream.wrapped s -> e ∈ PyProxyStream.wrapped s'.
Proof.
  revert s ups s'. induction res as [|u res IH]; intros s ups s' Hr e He; [by injection Hr as <- <-|].
  simpl in Hr. unfold mbind, mreturn in Hr. destruct u as [b|q|]; [| |done].
  - destruct (PyProxyStream.upstream_nodes res s) as [[] s2] eqn:H2; simplify_eq/=. by eapply IH.
  - unfold PyProxyStream.into_node in Hr at 1.
    destruct (PyProxyStream.upstream_nodes res _) as [[] s2] eqn:H2; simplify_eq/=.
    eapply IH; [exact H2|]. simpl. apply elem_of_app. by left.
Qed.

(** Every proxy among the upstreams is wrapped in a node of its own, one more
    with each call, while a [Stream] stands for the node it always was: a proxy that
    two streams name is two nodes of the graph. *)
Theorem proxy_upstreams_fresh (res : list (PyUpstream P)) (s : PyProxyStream.Wrappers) :
  Forall (fun u => u <> UpOther) res ->
  Forall (fun e => (e.1 < PyProxyStream.next s)%positive) (PyProxyStream.wrapped s) ->
  exists ups s', PyProxyStream.upstream_nodes res s = (Ok ups, s') /\
    (PyProxyStream.next s <= PyProxyStream.next s')%positive /\
    Forall (fun e => (e.1 < PyProxyStream.next s')%positive) (PyProxyStream.wrapped s') /\
    Forall2 (fun u a => match u with
                        | UpStream b => a = b
                        | UpProxy p => (a, p) ∈ PyProxyStream.wrapped s' /\ a ∉ (PyProxyStream.wrapped s).*1
                        | UpOther => False
                        end) res ups.
Proof.
  revert s. induction res as [|u res IH]; intros s Hu Hs.
  { exists [], s. split; [done|]. split; [lia|]. by split; [|constructor]. }
  apply Forall_cons in Hu as [Hu Hres]. simpl. unfold mbind, mreturn. destruct u as [b|p|]; [| |done].
  - destruct (IH s Hres Hs) as (ups & s' & -> & Hle & Hs' & Hf). exists (b :: ups), s'.
    split; [done|]. split; [done|]. split; [done|]. by constructor.
  - set (s1 := PyProxyStream.mkWrappers (PyProxyStream.wrapped s ++ [(PyProxyStream.next s, p)]) (Pos.succ (PyProxyStream.next s))).
    destruct (IH s1 Hres) as (ups & s' & Hr & Hle & Hs' & Hf).
    { apply Forall_app. split; [|by constructor; [simpl; lia|]].
      eapply Forall_impl; [exact Hs|]. simpl. lia. }
    unfold PyProxyStream.into_node at 1. fold s1. rewrite Hr. exists (PyProxyStream.next s :: ups), s'.
    split; [done|]. split; [simpl in Hle; lia|]. split; [done|].
    pose proof (wrapped_kept _ _ _ _ Hr) as Hkeep.
    constructor.
    + split; [apply Hkeep, elem_of_app; right; by left|].
      intros [[a q] [Heq Ha]]%list_elem_of_fmap. rewrite Forall_forall in Hs. specialize (Hs _ Ha). simpl in *. lia.
    + eapply Forall2_impl; [exact Hf|]. intros [b|q|] a; simpl; [done| |done].
      intros [Ha Hn]. split; [done|]. intros Hin. apply Hn. rewrite fmap_app. apply elem_of_app. by left.
Qed.
End proxy_facts.

(** ** The rows of the CSV writer *)

Module CsvRead.
Import CsvWriteState.

(** A reader of the quoting of RFC 4180, one character at a time. *)
Inductive Mode := Start | Plain | Quoted | QuoteEnd.
Record Reader := mkReader { mode : Mode; field : bytes; row : list bytes; rows : list (list bytes) }.

Definition end_field (r : Reader) : Reader := mkReader Start [] (row r ++ [field r]) (rows r).
Definition end_row (r : Reader) : Reader := mkReader Start [] [] (rows r ++ [row r ++ [field r]]).
Definition push (m : Mode) (c : ascii) (r : Reader) : Reader := mkReader m (field r ++ [c]) (row r) (rows r).
Definition to_mode (m : Mode) (r : Reader) : Reader := mkReader m (field r) (row r) (rows r).

Definition step (r : Reader) (c : ascii) : Reader :=
  match mode r with
  | Quoted => if Ascii.eqb c QUOTE then to_mode QuoteEnd r else push Quoted c r
  | m =>
    if Ascii.eqb c COMMA then end_field r
    else if Ascii.eqb c NEWLINE then end_row r
    else if Ascii.eqb c QUOTE then
      match m with Start => to_mode Quoted r | _ => push (match m with QuoteEnd => Quoted | m => m end) c r end
    else push Plain c r
  end.

Definition read (s : bytes) : list (list bytes) := rows (foldl step (mkReader Start [] [] []) s).
End CsvRead.

Section csv_facts.
Import CsvWriteState CsvRead.

Definition is_mark (c : ascii) : Prop := c = COMMA \/ c = QUOTE \/ c = NEWLINE.

Lemma contains_false c v : contains c v = false <-> c ∉ v.
Proof. unfold contains. apply bool_decide_eq_false. Qed.

Lemma step_plain m c r :
  mode r = m -> (m = Start \/ m = Plain) -> ~ is_mark c -> step r c = push Plain c r.
Proof.
  intros Hm Hs Hc. unfold step, is_mark in *. rewrite Hm.
  destruct (Ascii.eqb_spec c COMMA), (Ascii.eqb_spec c NEWLINE), (Ascii.eqb_spec c QUOTE); try tauto.
  by destruct Hs as [-> | ->].
Qed.

(** Fields in which no character is special are read as they stand. *)
Lemma read_plain v r :
  (mode r = Start \/ mode r = Plain) -> Forall (fun c => ~ is_mark c) v ->
  exists m, (m = Start \/ m = Plain) /\ foldl step r v = mkReader m (field r ++ v) (row r) (rows r).
Proof.
  revert r. induction v as [|c v IH]; intros r Hm Hv.
  { exists (mode r). split; [done|]. simpl. rewrite app_nil_r. by destruct r. }
  apply Forall_cons in Hv as [Hc Hv]. simpl. rewrite (step_plain (mode r)) by done.
  destruct (IH (push Plain c r)) as (m & Hm' & ->); [by right|done|].
  exists m. split; [done|]. unfold push. simpl. by rewrite <- app_assoc.
Qed.

Lemma step_quoted r c :
  mode r = Quoted -> step r c = if Ascii.eqb c QUOTE then to_mode QuoteEnd r else push Quoted c r.
Proof. unfold step. by intros ->. Qed.

(** Between quotes the doubled text is the text. *)
Lemma read_quoted v r :
  mode r = Quoted -> foldl step r (double_quotes v) = mkReader Quoted (field r ++ v) (row r) (rows r).
Proof.
  revert r. induction v as [|c v IH]; intros r Hm.
  { simpl. rewrite app_nil_r, <- Hm. by destruct r. }
  simpl. rewrite foldl_app. destruct (Ascii.eqb_spec c QUOTE) as [->|Hc]; cbn [foldl].
  - rewrite (step_quoted r), Ascii.eqb_refl by done.
    change (step (to_mode QuoteEnd r) QUOTE) with (push Quoted QUOTE (to_mode QuoteEnd r)).
    rewrite IH by done. unfold push. simpl. by rewrite <- app_assoc.
  - rewrite (step_quoted r) by done. apply Ascii.eqb_neq in Hc. rewrite Hc.
    rewrite IH by done. unfold push. simpl. by rewrite <- app_assoc.
Qed.

(** After a field that was written, the reader holds the field. *)
Lemma read_field v row0 rows0 :
  exists m, m <> Quoted /\ foldl step (mkReader Start [] row0 rows0) (escape v) = mkReader m v row0 rows0.
Proof.
  unfold escape. destruct (contains COMMA v) eqn:Hc; [|destruct (contains QUOTE v) eqn:Hq;
    [|destruct (contains NEWLINE v) eqn:Hn]]; simpl orb; cbv iota.
  4: { rewrite contains_false in Hc, Hq, Hn.
       destruct (read_plain v (mkReader Start [] row0 rows0)) as (m & Hm & ->); [by left| |].
       - apply Forall_forall. intros c Hin [-> | [-> | ->]]; contradiction.
       - exists m. split; [by destruct Hm as [-> | ->]|done]. }
  all: exists QuoteEnd; split; [done|]; simpl; rewrite foldl_app, read_quoted by done; simpl; done.
Qed.

Lemma step_comma m v row0 rows0 : m <> Quoted ->
  step (mkReader m v row0 rows0) COMMA = mkReader Start [] (row0 ++ [v]) rows0.
Proof. by destruct m. Qed.
Lemma step_newline m v row0 rows0 : m <> Quoted ->
  step (mkReader m v row0 rows0) NEWLINE = mkReader Start [] [] (rows0 ++ [row0 ++ [v]]).
Proof. by destruct m. Qed.

Lemma line_from_acc i acc values : line_from i acc values = acc ++ line_from i [] values.
Proof.
  revert i acc. induction values as [|v values IH]; intros i acc; simpl; [by rewrite app_nil_r|].
  rewrite IH, (IH _ (_ ++ escape v)). destruct (Nat.ltb 0 i); by rewrite <- !app_assoc.
Qed.

Lemma read_line v values row0 rows0 :
  foldl step (mkReader Start [] row0 rows0) (escape v ++ line_from 1 [] values ++ [NEWLINE]) =
    mkReader Start [] [] (rows0 ++ [row0 ++ v :: values]).
Proof.
  revert v row0. induction values as [|v' values IH]; intros v row0; rewrite foldl_app;
    destruct (read_field v row0 rows0) as (m & Hm & ->).
  - simpl. by rewrite step_newline.
  - cbn [line_from]. change (Nat.ltb 0 1) with true. cbv iota. rewrite line_from_acc.
    rewrite <- !app_assoc. simpl. rewrite step_comma by done.
    assert (Hi : forall i acc, line_from (S i) acc values = line_from 1 acc values).
    { clear. induction values as [|w values IH]; intros i acc; [done|]. simpl. by rewrite !IH. }
    rewrite Hi, IH. by rewrite <- app_assoc.
Qed.

Lemma read_row values s rows0 :
  values <> [] ->
  foldl step (mkReader Start [] [] rows0) (line_from 0 [] values ++ [NEWLINE] ++ s) =
    foldl step (mkReader Start [] [] (rows0 ++ [values])) s.
Proof.
  intros Hv. destruct values as [|v values]; [done|]. cbn [line_from]. change (Nat.ltb 0 0) with false.
  cbv iota. rewrite app_nil_l, line_from_acc.
  replace ((escape v ++ line_from 1 [] values) ++ [NEWLINE] ++ s)
    with ((escape v ++ line_from 1 [] values ++ [NEWLINE]) ++ s) by (by rewrite <- !app_assoc).
  by rewrite foldl_app, read_line.
Qed.

(** The rows a writer with these headers adds for the elements that are dicts. *)
Definition data_rows (h : list bytes) (elems : list (PyDict * Z)) : list (list bytes) :=
  map (fun e => String.list_ascii_of_string (pretty e.2) :: map (get_item e.1) h) elems.
Definition text_of (rs : list (list bytes)) : bytes := flat_map (fun r => line_from 0 [] r ++ [NEWLINE]) rs.

Lemma read_text rs rows0 : Forall (fun r => r <> []) rs ->
  foldl step (mkReader Start [] [] rows0) (text_of rs) = mkReader Start [] [] (rows0 ++ rs).
Proof.
  revert rows0. induction rs as [|r rs IH]; intros rows0 Hr; simpl; [by rewrite app_nil_r|].
  apply Forall_cons in Hr as [Hr Hrs]. rewrite <- app_assoc, read_row by done. rewrite IH by done.
  by rewrite <- app_assoc.
Qed.

Lemma write_elems_file h elems self :
  headers self = Some h ->
  file (write_elems (map (fun e => (Some e.1, e.2)) elems) self) = file self ++ text_of (data_rows h elems).
Proof.
  revert self. induction elems as [|[d t] elems IH]; intros self Hh; [simpl; by rewrite app_nil_r|].
  assert (He : write_elem (Some d) t self =
    write_row (String.list_ascii_of_string (pretty t) :: map (get_item d) h) self)
    by (unfold write_elem; by rewrite Hh).
  change (write_elems (map _ ((d, t) :: elems)) self)
    with (write_elems (map (fun e => (Some e.1, e.2)) elems) (write_elem (Some d) t self)).
  rewrite He, IH by done. unfold write_row, data_rows, text_of. cbn [file map flat_map fst snd].
  by rewrite <- !app_assoc.
Qed.

(** What the CSV writer has written, of any values -- commas, quotes and line
    breaks among them -- reads back as a header and one row for every dict: the time
    of its cycle, and the text of each key of the first dict, empty where the dict
    lacks it. *)
Theorem csv_rows_read_back (d : PyDict) (t : Z) (elems : list (PyDict * Z)) :
  let h := map (fun kv => default [] kv.1) d in
  read (file (write_elems (map (fun e => (Some e.1, e.2)) ((d, t) :: elems)) new)) =
    (String.list_ascii_of_string "time" :: h) :: data_rows h ((d, t) :: elems).
Proof.
  intros h. set (head_row := String.list_ascii_of_string "time" :: h).
  assert (He : write_elem (Some d) t new =
    write_row (String.list_ascii_of_string (pretty t) :: map (get_item d) h)
      (mk (file (write_row head_row new)) (Some h))) by reflexivity.
  change (write_elems (map _ ((d, t) :: elems)) new)
    with (write_elems (map (fun e => (Some e.1, e.2)) elems) (write_elem (Some d) t new)).
  rewrite He, (write_elems_file h) by done. unfold read, write_row. cbn [file new].
  replace (_ ++ text_of (data_rows h elems)) with (text_of (head_row :: data_rows h ((d, t) :: elems))).
  - rewrite read_text; [done|]. constructor; [done|]. apply Forall_forall.
    by intros r [e [-> _]]%list_elem_of_fmap.
  - unfold data_rows, text_of. cbn [map flat_map fst snd]. by rewrite <- !app_assoc.
Qed.
End csv_facts.

(** ** The arguments of a run *)

Lemma f64_as_u64_range x : is_u64 (f64_as_u64 x).
Proof. assert (0 <= u64_max) by done. unfold is_u64, f64_as_u64. destruct x as [| [] | |]; lia. Qed.

(** A start given in seconds becomes a time of 64 bits that is not before its
    whole seconds, or an error: the conversion neither wraps around nor saturates. *)
Theorem start_seconds_bounds (ts : f64) (n : Z) :
  f64_secs_to_nanos ts = Ok n ->
  is_u64 n /\ f64_as_u64 (f64_trunc ts) * 1000000000 <= n /\
  n = f64_as_u64 (f64_trunc ts) * 1000000000 + f64_as_u64 (fmul (f64_fract ts) f64_1e9).
Proof.
  unfold f64_secs_to_nanos. pose proof (f64_as_u64_range (f64_trunc ts)) as Hs.
  pose proof (f64_as_u64_range (fmul (f64_fract ts) f64_1e9)) as Hf. unfold is_u64 in *.
  destruct (is_sign_negative ts); [done|].
  destruct (u64_max <? f64_as_u64 (f64_trunc ts) * 1000000000) eqn:H1; [done|].
  destruct (u64_max <? _ + _) eqn:H2; [done|]. intros Hn. assert (Hx := f_equal (fun r => match r with Ok a => a | _ => 0 end) Hn).
  cbv beta iota in Hx. rewrite <- Hx. lia.
Qed.

(** A float that is not a number is a start at the epoch. *)
Example nan_starts_at_the_epoch : f64_secs_to_nanos nan = Ok 0.
Proof. reflexivity. Qed.
Example second_and_a_half : f64_secs_to_nanos (fdiv (of_Z 3) (of_Z 2)) = Ok 1500000000.
Proof. vm_compute. reflexivity. Qed.
(** The end of the range: 2{^64} nanoseconds are 18446744073.7 seconds. *)
Example start_overflow : f64_secs_to_nanos (of_Z 18446744074) = Err (Msg "Overflow when converting seconds to nanoseconds").
Proof. vm_compute. reflexivity. Qed.

(** ** Whole programs *)

Section programs.
Context {X : Type} `{!PyHost Val X, !Downcast X, !DowncastLaws X}.
Context (node_text : string -> nat -> string) (shutdown_text : list Error -> string).

Lemma map_error_runs (v : Val) (e : Error) :
  exists root w w', (let! c := constant v in @try_map VUnit c (fun _ => Err e)) empty_heap = (Ok root, w) /\
    run_roots 50 [root] (HistoricalFrom 0) (Cycles 1) w = (Err (NodeContext "cycle" 1 e), w').
Proof. do 3 eexists. split; [reflexivity|]. vm_compute. reflexivity. Qed.

(** The exception of a callback given to [map] is what [run] raises: through the
    operator, the cycle, the clean-up of the graph and the binding. *)
Theorem map_exception_reaches_python (v : Val) (x : X) :
  let build := let! c := py_constant v in py_map c (fun _ => inl x) in
  exists root w w', build empty_heap = (Ok root, w) /\
    py_run node_text shutdown_text 50 [root] false None None (Some 1) w = (Ok (inl (Raised x)), w').
Proof.
  intros build. destruct (map_error_runs v (py_callback_error x)) as (root & w & w' & Hb & Hr).
  exists root, w, w'. split; [exact Hb|]. unfold py_run. cbn [parse_run_args]. unfold parse_run_args. simpl andb.
  cbv iota. rewrite Hr. unfold to_pyresult, to_pyerr. simpl. by rewrite text_leaf_text.
Qed.
End programs.

(** ** An interpreter of a few values, and the program's own tests on it

    Exceptions are texts; integers are the numbers. *)
Module SmallPython.

#[export] Instance host : PyHost Val string := {|
  py_none := VUnit;
  extract_f64 v := match v with VInt z => Some (of_Z z) | _ => None end;
  extract_duration v := match v with VPair (VInt s) (VInt n) => Some (mkDuration s n) | _ => None end;
  extract_system_time v := None;
  call_neg v := match v with VInt z => inr (VInt (- z)) | _ => inl "TypeError"%string end;
  call_add a b := match a, b with VInt x, VInt y => inr (VInt (x + y)) | _, _ => inl "TypeError"%string end;
  call_sub a b := match a, b with VInt x, VInt y => inr (VInt (x - y)) | _, _ => inl "TypeError"%string end;
  rich_compare_eq a b := inr (VBool (val_eqb a b));
  is_truthy v := inr match v with VBool b => b | VInt z => negb (z =? 0) | _ => false end;
  extract_bool v := match v with VBool b => inr b | _ => inl "TypeError"%string end;
  py_hash v := inr 0 |}.

#[export] Instance downcast : Downcast string := {|
  anyhow_text l := match l with
                   | LeafPy x => String.String "P" x
                   | LeafBinding (TypeError m) => String.String "T" m
                   | LeafBinding (ValueError m) => String.String "V" m
                   end;
  text_leaf s := match s with
                 | String.String c s =>
                   if Ascii.eqb c "P" then Some (LeafPy s)
                   else if Ascii.eqb c "T" then Some (LeafBinding (TypeError s))
                   else if Ascii.eqb c "V" then Some (LeafBinding (ValueError s)) else None
                 | EmptyString => None
                 end |}.
#[export] Instance downcast_laws : DowncastLaws string.
Proof. split. by intros [x|[m|m]]. Qed.

Definition node_text (phase : string) (index : nat) : string := "Error in node " +:+ pretty index.
Definition shutdown_text (extra : list Error) : string := "errors during shutdown".

(** Build, run historically from the epoch, and peek. *)
Definition peek_after (build : Build addr) (cycles : Z) : option Val :=
  match build empty_heap with
  | (Ok root, w) =>
    match py_run node_text shutdown_text 60 [root] false None None (Some cycles) w with
    | (Ok (inr _), w) => Some (peek w root)
    | _ => None
    end
  | _ => None
  end.

Definition int_map (f : Z -> Z) (v : Val) : string + Val :=
  match v with VInt z => inr (VInt (f z)) | _ => inl "TypeError"%string end.
Definition int_test (f : Z -> bool) (v : Val) : string + Val :=
  match v with VInt z => inr (VBool (f z)) | _ => inl "TypeError"%string end.
Definition ints (l : list Z) : Val := VList (map VInt l).
Definition tenth : f64 := fdiv (of_Z 1) (of_Z 10).
Definition counter : Build addr := let! t := py_ticker tenth in py_node_count t.

(** [test_map_and_collect]. *)
Example test_map_and_collect :
  peek_after (let! c := py_constant (VInt 1) in let! m := py_map c (int_map (Z.add 1)) in
              let! t := py_ticker tenth in let! s := py_sample m (HNode t) in py_collect s) 3 = Some (ints [2; 2; 2]).
Proof. vm_compute. reflexivity. Qed.
(** [test_filter]. *)
Example test_filter :
  peek_after (let! c := counter in let! f := py_filter c (int_test Z.even) in py_collect f) 7 = Some (ints [2; 4; 6]).
Proof. vm_compute. reflexivity. Qed.
(** [test_distinct]. *)
Example test_distinct :
  peek_after (let! c := counter in let! m := py_map c (int_map (fun x => x / 2)) in
              let! d := py_distinct m in py_collect d) 5 = Some (ints [0; 1; 2]).
Proof. vm_compute. reflexivity. Qed.
(** [test_limit], [test_bimap_add]. *)
Example test_limit :
  peek_after (let! c := counter in let! l := py_limit c 3 in py_collect l) 10 = Some (ints [1; 2; 3]).
Proof. vm_compute. reflexivity. Qed.
Example test_bimap_add :
  peek_after (let! a := counter in let! b := counter in let! b := py_map b (int_map (Z.mul 10)) in
    let! r := py_bimap (HStream a) (HStream b)
      (fun x y => match x, y with VInt x, VInt y => inr (VInt (x + y)) | _, _ => inl "TypeError"%string end) in
    py_collect r) 3 = Some (ints [11; 22; 33]).
Proof. vm_compute. reflexivity. Qed.
(** [test_buffer_tumbling_window]. *)
Example test_buffer :
  peek_after (let! c := counter in let! b := py_buffer c 3 in py_collect b) 7 =
    Some (VList [ints [1; 2; 3]; ints [4; 5; 6]; ints [7]]).
Proof. vm_compute. reflexivity. Qed.

(** [with_time] and [dataframe] give the time in nanoseconds, not in seconds. *)
Example times_are_nanoseconds :
  peek_after (let! c := counter in let! w := py_with_time VInt c in py_collect w) 3 =
    Some (VList [VPair (VInt 0) (VInt 1); VPair (VInt 100000000) (VInt 2); VPair (VInt 200000000) (VInt 3)]).
Proof. vm_compute. reflexivity. Qed.
Example dataframe_in_nanoseconds :
  peek_after (let! c := counter in dataframe VInt c) 2 =
    Some (VList [VPair (VInt 0) (VInt 1); VPair (VInt 100000000) (VInt 2)]).
Proof. vm_compute. reflexivity. Qed.

(** [test_run_conflicting_duration_and_cycles_raises], [test_filter_non_bool_return_raises]. *)
Example conflicting_arguments :
  fst (py_run node_text shutdown_text 60 [] false None (Some (VInt 1)) (Some 5) empty_heap) =
    Ok (inl (NewValueError "Cannot specify both duration and cycles")).
Proof. reflexivity. Qed.
End SmallPython.
Import SmallPython.

Lemma user_exception_survives_witness :
  to_pyresult (A := unit) node_text shutdown_text
    (Err (ShutdownContext (NodeContext "cycle" 3 (Context "filter predicate must return a bool" (py_callback_error "Boom"%string))) [])) =
    Ok (inl (Raised "Boom"%string)).
Proof.
  apply (user_exception_survives node_text shutdown_text (LeafPy "Boom"%string)).
  apply in_shutdown, in_node, in_text, in_self.
Defined.

Lemma cause_is_lost_witness :
  to_pyerr (X := string) node_text shutdown_text (NodeContext "cycle" 3 (Msg "connection refused")) =
    to_pyerr node_text shutdown_text (NodeContext "cycle" 3 (Msg "disk full")).
Proof. apply cause_is_lost; reflexivity. Defined.

Lemma start_seconds_bounds_witness : is_u64 1500000000.
Proof. apply (start_seconds_bounds (fdiv (of_Z 3) (of_Z 2))). vm_compute. reflexivity. Defined.
