(* ===== verification/PyLatency.v ===== *)
(** * Latency records in Python: [wingfoil-python/src/py_latency.rs]

    A record of named stages whose layout is known at run time only, the node that
    stamps it and the sink that reports on it. Records are Python objects: a value
    of a stream holds a reference to one, so the stamping node changes the record
    every holder of the value sees. The interpreter's heap of records is the second
    component of a node's state; an object that is a [TracedBytes] has the location
    of its record ([TracedHost]). [setitem_getitem], [bytes_roundtrip];
    [stamp_through_name]: what a stamp does where all records have one layout, and
    [stamp_stale_index] where they have not; [stamps_accumulate]: a chain of stamping
    nodes on one object, at whatever indices they have kept; [py_report_is_latency_report]: the sink's statistics and
    text are those of the native report. *)
From stdpp Require Import pretty.
From S2P Require Import Prelude NanoTime TimeQueue GraphState NodeCalls Latency.
Local Open Scope Z_scope.

(** ** [PyLatency] *)

Inductive LatencyErr := KeyError (msg : string) | ValueError (msg : string).

Record PyLatency := mkPyLatency { stages : list string; index_map : gmap string nat; stamps : list Z }.

(** [stages.iter().enumerate().map(|(i, s)| (s.clone(), i)).collect()]. *)
Fixpoint collect_from (i : nat) (stages : list string) (m : gmap string nat) : gmap string nat :=
  match stages with
  | [] => m
  | s :: stages => collect_from (S i) stages (<[s := i]> m)
  end.
Definition index_of (stages : list string) : gmap string nat := collect_from 0 stages ∅.

Definition PyLatency_create (stages : list string) : PyLatency :=
  mkPyLatency stages (index_of stages) (replicate (length stages) 0).

Definition PyLatency_new (stages : list string) : LatencyErr + PyLatency :=
  match stages with
  | [] => inl (ValueError "stages list must not be empty")
  | _ =>
    if Nat.eqb (size (index_of stages)) (length stages) then inr (PyLatency_create stages)
    else inl (ValueError "duplicate stage name")
  end.

Definition unknown_stage (stage : string) : LatencyErr := KeyError ("unknown stage '" +:+ stage +:+ "'").

Definition getitem (stage : string) (self : PyLatency) : Res (LatencyErr + Z) :=
  match index_map self !! stage with
  | None => Ok (inl (unknown_stage stage))
  | Some idx => match stamps self !! idx with Some t => Ok (inr t) | None => Panic "index out of bounds" end
  end.

Definition set_stamp (idx : nat) (value : Z) (self : PyLatency) : PyLatency :=
  mkPyLatency (stages self) (index_map self) (<[idx := value]> (stamps self)).

(** [self.stamps[idx] = time_ns]. *)
Definition stamp_by_index (idx : nat) (time_ns : Z) (self : PyLatency) : Res PyLatency :=
  if Nat.ltb idx (length (stamps self)) then Ok (set_stamp idx time_ns self) else Panic "index out of bounds".

Definition setitem (stage : string) (value : Z) (self : PyLatency) : Res (LatencyErr + PyLatency) :=
  match index_map self !! stage with
  | None => Ok (inl (unknown_stage stage))
  | Some idx => match stamp_by_index idx value self with
                | Ok l => Ok (inr l) | Err e => Err e | Panic w => Panic w | OutOfFuel => OutOfFuel
                end
  end.

Definition stage_index (name : string) (self : PyLatency) : option nat := index_map self !! name.
Definition stage_count (self : PyLatency) : nat := length (stages self).

(** *** Bytes *)

(** [u64::to_le_bytes], [u64::from_le_bytes]. *)
Fixpoint le_bytes (n : nat) (v : Z) : list Z :=
  match n with O => [] | S n => v mod 256 :: le_bytes n (v / 256) end.
Fixpoint from_le_bytes (l : list Z) : Z := match l with [] => 0 | b :: l => b + 256 * from_le_bytes l end.

Definition to_bytes (self : PyLatency) : list Z := flat_map (le_bytes 8) (stamps self).

(** [data[offset..offset + 8]] of the [i]th stage. *)
Definition slice8 (data : list Z) (i : nat) : list Z := take 8 (drop (i * 8) data).

Definition from_bytes (data : list Z) (stages : list string) : LatencyErr + PyLatency :=
  let n := length stages in
  let expected := (n * 8)%nat in
  if Nat.ltb (length data) expected then
    inl (ValueError ("expected at least " +:+ pretty expected +:+ " bytes for " +:+ pretty n +:+ " stages, got " +:+
                     pretty (length data)))
  else inr (mkPyLatency stages (index_of stages) (map (fun i => from_le_bytes (slice8 data i)) (seq 0 n))).

(** A stage the data does not reach is not stamped. *)
Definition create_from_bytes (data : list Z) (stages : list string) : PyLatency :=
  mkPyLatency stages (index_of stages)
    (map (fun i => if Nat.leb (i * 8 + 8) (length data) then from_le_bytes (slice8 data i) else 0)
         (seq 0 (length stages))).

Definition repr (self : PyLatency) : string :=
  "Latency(" +:+ String.concat ", "
    (map (fun p : string * Z => p.1 +:+ "=" +:+ pretty p.2) (zip (stages self) (stamps self))) +:+ ")".

(** ** The nodes *)

(** The location of a record in the interpreter's heap. *)
Abbreviation loc := positive (only parsing).
Abbreviation Heap := (gmap positive PyLatency) (only parsing).

(** The object of an element: the record of a [TracedBytes], and the name of its
    type; [debug]: how a list of names is printed. *)
Class TracedHost (O : Type) := {
  traced_latency : O -> option loc;
  type_qualname : O -> string;
  debug : list string -> string }.

Module PyStampNode.
Section node.
Context {O : Type} `{!TracedHost O}.
Record PyStampNode := mk {
  upstream : addr; value : option O; stage_name : string; stage_idx : option nat; precise : bool }.
(** [None] for the value is Python's. *)
Definition new (up : addr) (stage_name : string) (precise : bool) : PyStampNode := mk up None stage_name None precise.
Definition upstreams (self : PyStampNode) : UpStreams := mkUpStreams [upstream self] [].

Definition set_idx (i : nat) (self : PyStampNode) : PyStampNode :=
  mk (upstream self) (value self) (stage_name self) (Some i) (precise self).
Definition set_value (e : O) (self : PyStampNode) : PyStampNode :=
  mk (upstream self) (Some e) (stage_name self) (stage_idx self) (precise self).

(** The index, looked up for the first record and kept. *)
Definition resolve (lat : PyLatency) : NodeM (PyStampNode * Heap) nat :=
  let! s := get_self in
  let '(self, heap) := s in
  match stage_idx self with
  | Some i => mreturn i
  | None =>
    match stage_index (stage_name self) lat with
    | None => mfail (Msg ("stamp: unknown stage '" +:+ stage_name self +:+ "' (known: " +:+ debug (stages lat) +:+ ")"))
    | Some i => do! put_self (set_idx i self, heap) in mreturn i
    end
  end.

(** [now]: the reading of the clock a precise stamp takes. *)
Definition cycle (now : Z) (elem : O) : NodeM (PyStampNode * Heap) bool :=
  let! s := get_self in
  let! g := graph in
  let wall_ns := if precise s.1 then now else wall_time g in
  match traced_latency elem with
  | None =>
    mfail (Msg ("stamp('" +:+ stage_name s.1 +:+ "'): expected TracedBytes, got " +:+ type_qualname elem))
  | Some l =>
    match s.2 !! l with
    | None => mpanic "no such object"
    | Some lat =>
      let! idx := resolve lat in
      let! lat := mlift (stamp_by_index idx wall_ns lat) in
      let! s := get_self in
      do! put_self (set_value elem s.1, <[l := lat]> s.2) in
      mreturn true
    end
  end.
End node.
Arguments PyStampNode : clear implicits.
End PyStampNode.

Module PyLatencyReportNode.
Section node.
Context {O : Type} `{!TracedHost O}.
Record PyLatencyReportNode := mk {
  upstream : addr; stage_names : list string; stats : list StageStats; print_on_teardown : bool }.
Definition new (up : addr) (stage_names : list string) (print : bool) : PyLatencyReportNode :=
  mk up stage_names (replicate (length stage_names) StageStats_default) print.
Definition upstreams (self : PyLatencyReportNode) : UpStreams := mkUpStreams [upstream self] [].

(** The body of the loop over the stages. *)
Definition record_stage (stamps : list Z) (i : nat) : M (list StageStats) unit :=
  match stamps !! (i - 1)%nat, stamps !! i with
  | Some prev, Some cur =>
    if (prev =? 0) || (cur =? 0) || (cur <? prev) then mreturn tt
    else fun stats =>
      match stats !! i with
      | None => (Panic "index out of bounds", stats)
      | Some s => let '(r, s') := StageStats.record (wrap_u64 (cur - prev)) s in (r, <[i := s']> stats)
      end
  | _, _ => mpanic "index out of bounds"
  end.
(** [for i in 1..stamps.len().min(self.stats.len())]. *)
Definition record_all (stamps : list Z) : M (list StageStats) unit := fun stats =>
  mfor (seq 1 (Nat.min (length stamps) (length stats) - 1)) (record_stage stamps) stats.

Definition cycle (elem : O) : NodeM (PyLatencyReportNode * Heap) bool :=
  let! s := get_self in
  let '(self, heap) := s in
  match traced_latency elem with
  | None => mfail (Msg "latency_report: expected TracedBytes")
  | Some l =>
    match heap !! l with
    | None => mpanic "no such object"
    | Some lat =>
      let '(r, stats') := record_all (stamps lat) (stats self) in
      do! put_self (mk (upstream self) (stage_names self) stats' (print_on_teardown self), heap) in
      do! mlift r in
      mreturn true
    end
  end.

(** The rows: [println!] each. *)
Fixpoint print_rows (p50 p99 : Z -> Z) (names : list string) (stats : list StageStats) (is_ : list nat)
    (out : string) : Res string :=
  match is_ with
  | [] => Ok out
  | i :: is_ =>
    match stats !! i, names !! (i - 1)%nat, names !! i with
    | Some s, Some from, Some to =>
      let label := from +:+ " -> " +:+ to in
      let row :=
        if count s =? 0 then report_row label "(no samples)" []
        else report_row label (pretty (count s)) [pretty (min_ns s); pretty (StageStats.mean_ns s);
               pretty (StageStats.quantile_ns p50 s); pretty (StageStats.quantile_ns p99 s); pretty (max_ns s)] in
      print_rows p50 p99 names stats is_ (out +:+ row)
    | _, _, _ => Panic "index out of bounds"
    end
  end.

(** What is printed is appended to the second component. *)
Definition stop (p50 p99 : Z -> Z) : NodeM (PyLatencyReportNode * string) unit :=
  let! s := get_self in
  let '(self, printed) := s in
  if negb (print_on_teardown self) then mreturn tt
  else
    let! text := mlift (print_rows p50 p99 (stage_names self) (stats self) (seq 1 (length (stage_names self) - 1))
      ("latency report (delta from previous stage, nanoseconds):" +:+ newline +:+
       report_row "stage" "count" ["min"; "mean"; "p50"; "p99"; "max"]%string)) in
    put_self (self, printed +:+ text).
End node.
End PyLatencyReportNode.

(** [stamp_if], [stamp_precise_if] and [latency_report_if] ([py_stream.rs]): the node
    of their own, or the upstream itself. *)
Definition py_stamp_if {O} (up : addr) (stage : string) (precise enabled : bool)
  : PyStampNode.PyStampNode O + addr :=
  if enabled then inl (PyStampNode.new up stage precise) else inr up.
Definition py_latency_report_if (up : addr) (stages : list string) (enabled print : bool)
  : PyLatencyReportNode.PyLatencyReportNode + addr :=
  if enabled then inl (PyLatencyReportNode.new up stages print) else inr up.

(** ** The index of a layout *)

Lemma collect_from_notin i l m s : s ∉ l -> collect_from i l m !! s = m !! s.
Proof.
  revert i m. induction l as [|s' l IH]; intros i m Hs; [done|]. simpl.
  apply not_elem_of_cons in Hs as [Hne Hs]. rewrite IH by done. by rewrite lookup_insert_ne by done.
Qed.

Lemma collect_from_in i l m j s : NoDup l -> l !! j = Some s -> collect_from i l m !! s = Some (i + j)%nat.
Proof.
  revert i m j. induction l as [|s' l IH]; intros i m j Hnd Hj; [done|]. simpl.
  apply NoDup_cons in Hnd as [Hs' Hnd]. destruct j as [|j]; simpl in Hj.
  - injection Hj as ->. rewrite collect_from_notin by done. rewrite lookup_insert_eq. by rewrite Nat.add_0_r.
  - rewrite (IH _ _ j) by done. f_equal. lia.
Qed.

Lemma index_of_spec l s i : NoDup l -> index_of l !! s = Some i <-> l !! i = Some s.
Proof.
  intros Hnd. split; intros Hi.
  - destruct (decide (s ∈ l)) as [Hs|Hs].
    + apply list_elem_of_lookup in Hs as [j Hj]. unfold index_of in Hi.
      rewrite (collect_from_in 0 l ∅ j s Hnd Hj) in Hi. by injection Hi as <-.
    + unfold index_of in Hi. rewrite collect_from_notin in Hi by done. by rewrite lookup_empty in Hi.
  - unfold index_of. by rewrite (collect_from_in 0 l ∅ i s Hnd Hi).
Qed.

Lemma index_of_none l s : s ∉ l -> index_of l !! s = None.
Proof. intros Hs. unfold index_of. rewrite collect_from_notin by done. apply lookup_empty. Qed.

Lemma collect_from_dom i l m : dom (collect_from i l m) = dom m ∪ list_to_set l.
Proof.
  revert i m. induction l as [|s l IH]; intros i m; simpl; [set_solver|].
  rewrite IH, dom_insert_L. set_solver.
Qed.

Lemma list_to_set_size (l : list string) :
  (size (list_to_set l : gset string) <= length l)%nat /\
  (size (list_to_set l : gset string) = length l -> NoDup l).
Proof.
  induction l as [|s l [IHle IH]]; [by split; [|constructor]|]. simpl.
  destruct (decide (s ∈ l)) as [Hs|Hs].
  - assert ({[s]} ∪ list_to_set l = (list_to_set l : gset string)) as -> by set_solver. split; lia.
  - rewrite size_union by set_solver. rewrite size_singleton. split; [lia|].
    intros Hl. constructor; [done|]. apply IH. lia.
Qed.

Lemma index_of_size l : size (index_of l) = length l <-> NoDup l.
Proof.
  rewrite <- size_dom. unfold index_of. rewrite collect_from_dom, dom_empty_L, (left_id_L ∅ (∪)).
  split; [apply list_to_set_size|apply size_list_to_set].
Qed.

(** ** The records *)

(** A record keeps its layout: the stages named differ, and each has its stamp. *)
Record layout_ok (l : PyLatency) : Prop := {
  lo_distinct : NoDup (stages l);
  lo_index : index_map l = index_of (stages l);
  lo_stamps : length (stamps l) = length (stages l) }.

Lemma stage_lookup l s i :
  layout_ok l -> index_map l !! s = Some i <-> stages l !! i = Some s.
Proof. intros [Hnd -> _]. by apply index_of_spec. Qed.

Lemma stage_position l s : layout_ok l -> s ∈ stages l ->
  exists i, stages l !! i = Some s /\ index_map l !! s = Some i /\ (i < length (stamps l))%nat.
Proof.
  intros Hl [i Hi]%list_elem_of_lookup. exists i. split; [done|]. split; [by apply stage_lookup|].
  rewrite (lo_stamps l Hl). by eapply lookup_lt_Some.
Qed.

Lemma set_stamp_ok i v l : layout_ok l -> layout_ok (set_stamp i v l).
Proof. intros [Hnd Hi Hs]. split; simpl; [done|done|by rewrite length_insert]. Qed.

Lemma getitem_set_stamp l s i v : layout_ok l -> stages l !! i = Some s ->
  getitem s (set_stamp i v l) = Ok (inr v) /\
  forall s', s' <> s -> getitem s' (set_stamp i v l) = getitem s' l.
Proof.
  intros Hl Hi. pose proof (lookup_lt_Some _ _ _ Hi) as Hlt. rewrite <- (lo_stamps l Hl) in Hlt.
  split.
  - unfold getitem. simpl. rewrite (proj2 (stage_lookup l s i Hl) Hi). by rewrite list_lookup_insert_eq.
  - intros s' Hne. unfold getitem. simpl. destruct (index_map l !! s') as [j|] eqn:Hj; [|done].
    rewrite list_lookup_insert_ne; [done|]. intros <-. apply Hne.
    apply (stage_lookup l s' i Hl) in Hj. congruence.
Qed.

(** A record is made of every list of distinct names that is not empty, and of no
    other; none of its stages is stamped. *)
Theorem record_operations (names : list string) :
  ((exists l, PyLatency_new names = inr l) <-> names <> [] /\ NoDup names) /\
  forall l, PyLatency_new names = inr l -> layout_ok l /\ stages l = names /\ stamps l = replicate (length names) 0.
Proof.
  unfold PyLatency_new. split.
  - destruct names as [|s names]; [split; [intros [l Hl]; done|intros [Hn _]; done]|].
    destruct (Nat.eqb_spec (size (index_of (s :: names))) (length (s :: names))) as [He|He];
      rewrite index_of_size in He; split; [by intros _|by eauto|intros [l Hl]; done|naive_solver].
  - intros l Hl. destruct names as [|s names]; [done|].
    destruct (Nat.eqb_spec (size (index_of (s :: names))) (length (s :: names))) as [He|He]; [|done].
    injection Hl as <-. rewrite index_of_size in He. unfold PyLatency_create. split; [|done].
    split; simpl; [done|done|by rewrite length_replicate].
Qed.

(** An assignment to a stage is what a read of that stage gives, leaves the others,
    and keeps the layout; a stage the record does not have is a [KeyError] of both. *)
Theorem setitem_getitem (l : PyLatency) (s : string) (v : Z) :
  layout_ok l ->
  (s ∈ stages l -> exists l', setitem s v l = Ok (inr l') /\ layout_ok l' /\ stages l' = stages l /\
     getitem s l' = Ok (inr v) /\ forall s', s' <> s -> getitem s' l' = getitem s' l) /\
  (s ∉ stages l -> setitem s v l = Ok (inl (unknown_stage s)) /\ getitem s l = Ok (inl (unknown_stage s))).
Proof.
  intros Hl. split; intros Hs.
  - destruct (stage_position l s Hl Hs) as (i & Hi & Him & Hlt). exists (set_stamp i v l).
    split; [unfold setitem, stamp_by_index; rewrite Him; by rewrite (proj2 (Nat.ltb_lt _ _) Hlt)|].
    split; [by apply set_stamp_ok|]. split; [done|]. by apply getitem_set_stamp.
  - unfold setitem, getitem. rewrite (lo_index l Hl), index_of_none by done. done.
Qed.

(** *** Bytes *)

Lemma le_bytes_length n v : length (le_bytes n v) = n.
Proof. revert v. induction n as [|n IH]; intros v; simpl; [done|by rewrite IH]. Qed.
Lemma from_le_bytes_le n v : 0 <= v < 256 ^ Z.of_nat n -> from_le_bytes (le_bytes n v) = v.
Proof.
  revert v. induction n as [|n IH]; intros v Hv; [simpl in *; lia|].
  cbn [le_bytes from_le_bytes]. rewrite IH; [pose proof (Z.div_mod v 256 ltac:(done)); lia|].
  rewrite Nat2Z.inj_succ, Z.pow_succ_r in Hv by lia. split; [apply Z.div_pos; lia|]. apply Z.div_lt_upper_bound; lia.
Qed.

Lemma slice8_to_bytes vs extra i v :
  vs !! i = Some v -> slice8 (flat_map (le_bytes 8) vs ++ extra) i = le_bytes 8 v.
Proof.
  revert i. induction vs as [|w vs IH]; intros i Hi; [done|]. destruct i as [|i].
  - injection Hi as ->. done.
  - unfold slice8 in *. rewrite <- (IH i Hi). cbn [flat_map]. rewrite <- app_assoc.
    replace (S i * 8)%nat with (length (le_bytes 8 w) + i * 8)%nat by (rewrite le_bytes_length; lia).
    by rewrite <- drop_drop, drop_app_length.
Qed.

Lemma to_bytes_length vs : length (flat_map (le_bytes 8) vs) = (length vs * 8)%nat.
Proof. induction vs as [|v vs IH]; [done|]. cbn [flat_map]. rewrite length_app, le_bytes_length, IH. simpl. lia. Qed.

(** A record of [u64] stamps survives the wire: from its bytes, and whatever
    follows them in the message, both readers give the record back. *)
Theorem bytes_roundtrip (l : PyLatency) (extra : list Z) :
  layout_ok l -> Forall is_u64 (stamps l) ->
  from_bytes (to_bytes l ++ extra) (stages l) = inr l /\ create_from_bytes (to_bytes l ++ extra) (stages l) = l.
Proof.
  intros [Hnd Hi Hs] Hu. unfold from_bytes, create_from_bytes, to_bytes.
  rewrite length_app, to_bytes_length, Hs.
  assert (Hread : forall f, (forall i, (i < length (stages l))%nat ->
      f i = from_le_bytes (slice8 (flat_map (le_bytes 8) (stamps l) ++ extra) i)) ->
    map f (seq 0 (length (stages l))) = stamps l).
  { intros f Hf. rewrite <- Hs in Hf |- *. apply list_eq. intros i. rewrite list_lookup_fmap.
    destruct (stamps l !! i) as [v|] eqn:Hv.
    - pose proof (lookup_lt_Some _ _ _ Hv) as Hlt. rewrite lookup_seq_lt by done. simpl. f_equal.
      rewrite Hf by done. erewrite slice8_to_bytes by done. apply from_le_bytes_le.
      rewrite Forall_lookup in Hu. specialize (Hu i v Hv). unfold is_u64, u64_max in Hu. lia.
    - apply lookup_ge_None in Hv. by rewrite lookup_seq_ge by lia. }
  assert (Hle : (length (stages l) * 8 <= length (stages l) * 8 + length extra)%nat) by lia.
  destruct (Nat.ltb_spec (length (stages l) * 8 + length extra) (length (stages l) * 8)) as [Hlt|_]; [lia|].
  rewrite (Hread (fun i => from_le_bytes (slice8 (flat_map (le_bytes 8) (stamps l) ++ extra) i))) by done.
  rewrite (Hread (fun i => if Nat.leb (i * 8 + 8) _ then _ else 0)).
  - rewrite <- Hi. destruct l. done.
  - intros i Hlt. destruct (Nat.leb_spec (i * 8 + 8) (length (stages l) * 8 + length extra)); [done|lia].
Qed.

(** [from_bytes] accepts names that [new] refuses: the first of the two stamps has
    no name. *)
Example from_bytes_accepts_duplicates :
  match from_bytes (le_bytes 8 7 ++ le_bytes 8 9) ["a"; "a"]%string with
  | inr l => stamps l = [7; 9] /\ getitem "a" l = Ok (inr 9) | inl _ => False
  end /\
  PyLatency_new ["a"; "a"]%string = inl (ValueError "duplicate stage name").
Proof. by vm_compute. Qed.

(** ** The stamping node *)

Section stamping.
Context {O : Type} `{!TracedHost O}.
Import PyStampNode.
Implicit Types (self : PyStampNode O) (heap : Heap) (g : GraphState).

Definition stamp_time self (now : Z) g : Z := if precise self then now else wall_time g.

(** The index a node keeps is that of its stage in the layout. *)
Definition idx_ok (layout : list string) self : Prop :=
  match stage_idx self with Some i => layout !! i = Some (stage_name self) | None => True end.

Lemma cycle_at self heap g now elem l lat i :
  traced_latency elem = Some l -> heap !! l = Some lat -> (i < length (stamps lat))%nat ->
  stage_idx self = Some i \/ (stage_idx self = None /\ index_map lat !! stage_name self = Some i) ->
  exists self', cycle now elem ((self, heap), g) =
      (Ok true, ((self', <[l := set_stamp i (stamp_time self now g) lat]> heap), g)) /\
    stage_idx self' = Some i /\ stage_name self' = stage_name self /\ value self' = Some elem /\
    precise self' = precise self.
Proof.
  intros He Hl Hlt Hi. unfold cycle, resolve, stamp_time, stamp_by_index, stage_index, mbind, get_self, graph, mlift, mreturn, put_self.
  cbn [fst snd]. rewrite He. cbn [fst snd]. rewrite Hl. cbn [fst snd].
  destruct Hi as [Hi|[Hn Hi]].
  - rewrite Hi. cbn [fst snd]. rewrite (proj2 (Nat.ltb_lt _ _) Hlt). eexists. split; [reflexivity|]. by destruct self.
  - rewrite Hn. cbn [fst snd]. rewrite Hi. cbn [fst snd]. rewrite (proj2 (Nat.ltb_lt _ _) Hlt).
    eexists. split; [reflexivity|]. by destruct self.
Qed.

(** Where all records have the node's layout, a stamp through the node is an
    assignment to the stage of its name: of the record of this object, for everyone who
    holds it, and of no other; the object passes on, and the node is ready for the next. *)
Theorem stamp_through_name self heap g now elem l lat :
  traced_latency elem = Some l -> heap !! l = Some lat -> layout_ok lat ->
  idx_ok (stages lat) self -> stage_name self ∈ stages lat ->
  exists self' lat', cycle now elem ((self, heap), g) = (Ok true, ((self', <[l := lat']> heap), g)) /\
    value self' = Some elem /\ stage_name self' = stage_name self /\ idx_ok (stages lat) self' /\
    layout_ok lat' /\ stages lat' = stages lat /\
    getitem (stage_name self) lat' = Ok (inr (stamp_time self now g)) /\
    forall s, s <> stage_name self -> getitem s lat' = getitem s lat.
Proof.
  intros He Hl Hok Hidx Hs. destruct (stage_position lat _ Hok Hs) as (i & Hi & Him & Hlt).
  assert (Hcase : stage_idx self = Some i \/ (stage_idx self = None /\ index_map lat !! stage_name self = Some i)).
  { unfold idx_ok in Hidx. destruct (stage_idx self) as [j|]; [left|by right].
    f_equal. apply (stage_lookup lat _ _ Hok) in Hidx. congruence. }
  destruct (cycle_at self heap g now elem l lat i He Hl Hlt Hcase) as (self' & -> & Hi' & Hn & Hv & _).
  exists self', (set_stamp i (stamp_time self now g) lat). split; [done|]. split; [done|]. split; [done|].
  split; [unfold idx_ok; rewrite Hi', Hn; done|]. split; [by apply set_stamp_ok|]. split; [done|].
  by apply getitem_set_stamp.
Qed.

(** A record of another layout that comes later is stamped at the index the first
    one had: its stage of the node's name is left as it was, and another one is
    overwritten. *)
Theorem stamp_stale_index self heap g now elem l lat i s :
  traced_latency elem = Some l -> heap !! l = Some lat -> layout_ok lat ->
  stage_idx self = Some i -> stages lat !! i = Some s -> s <> stage_name self ->
  exists self' lat', cycle now elem ((self, heap), g) = (Ok true, ((self', <[l := lat']> heap), g)) /\
    getitem s lat' = Ok (inr (stamp_time self now g)) /\
    getitem (stage_name self) lat' = getitem (stage_name self) lat.
Proof.
  intros He Hl Hok Hidx Hs Hne. pose proof (lookup_lt_Some _ _ _ Hs) as Hlt. rewrite <- (lo_stamps lat Hok) in Hlt.
  destruct (cycle_at self heap g now elem l lat i He Hl Hlt (or_introl Hidx)) as (self' & -> & _).
  exists self', (set_stamp i (stamp_time self now g) lat). split; [done|].
  destruct (getitem_set_stamp lat s i (stamp_time self now g) Hok Hs) as [Hg Ho]. split; [done|].
  apply Ho. congruence.
Qed.

(** A value that is not a [TracedBytes], and a stage no record has, are errors; the
    heap stays. *)
Theorem stamp_errors self heap g now elem :
  (traced_latency elem = None ->
     cycle now elem ((self, heap), g) =
       (Err (Msg ("stamp('" +:+ stage_name self +:+ "'): expected TracedBytes, got " +:+ type_qualname elem)),
        ((self, heap), g))) /\
  (forall l lat, traced_latency elem = Some l -> heap !! l = Some lat -> layout_ok lat ->
     stage_idx self = None -> stage_name self ∉ stages lat ->
     cycle now elem ((self, heap), g) =
       (Err (Msg ("stamp: unknown stage '" +:+ stage_name self +:+ "' (known: " +:+ debug (stages lat) +:+ ")")),
        ((self, heap), g))).
Proof.
  split.
  - intros He. unfold cycle, mbind, get_self, graph. cbn [fst snd]. by rewrite He.
  - intros l lat He Hl Hok Hn Hs. unfold cycle, resolve, stage_index, mbind, get_self, graph. cbn [fst snd].
    rewrite He. cbn [fst snd]. rewrite Hl. cbn [fst snd]. rewrite Hn. cbn [fst snd].
    by rewrite (lo_index lat Hok), index_of_none.
Qed.

(** *** A chain of stamping nodes

    One object goes through them in order; each with the engine and its clock's
    reading. The result: the nodes afterwards, or how one of them failed; and the heap. *)
Fixpoint chain (elem : O) (nodes : list (PyStampNode O * Z * GraphState)) (heap : Heap)
  : Res (list (PyStampNode O)) * Heap :=
  match nodes with
  | [] => (Ok [], heap)
  | (self, now, g) :: nodes =>
    match cycle now elem ((self, heap), g) with
    | (Ok _, ((self', heap), _)) =>
      match chain elem nodes heap with
      | (Ok nodes', heap) => (Ok (self' :: nodes'), heap)
      | bad => bad
      end
    | (Err e, ((_, heap), _)) => (Err e, heap)
    | (Panic w, ((_, heap), _)) => (Panic w, heap)
    | (OutOfFuel, ((_, heap), _)) => (OutOfFuel, heap)
    end
  end.

Abbreviation Call := (PyStampNode O * Z * GraphState)%type.
Definition chain_name (n : Call) : string := stage_name n.1.1.
Definition chain_time (n : Call) : Z := stamp_time n.1.1 n.1.2 n.2.

(** The index a node stamps a record at: the one it has kept from an earlier
    record, or the one of its stage in this record's layout. *)
Definition resolved (lat : PyLatency) self : option nat :=
  match stage_idx self with Some i => Some i | None => stage_index (stage_name self) lat end.
Definition in_record (lat : PyLatency) (n : Call) : Prop :=
  exists i, resolved lat n.1.1 = Some i /\ (i < length (stamps lat))%nat.

(** The record with the times of these nodes, each at the node's index. *)
Definition stamped (lat : PyLatency) (nodes : list Call) : PyLatency :=
  foldl (fun lat n => match resolved lat n.1.1 with Some i => set_stamp i (chain_time n) lat | None => lat end)
    lat nodes.

Lemma cycle_resolved self heap g now elem l lat i :
  traced_latency elem = Some l -> heap !! l = Some lat -> resolved lat self = Some i ->
  (i < length (stamps lat))%nat ->
  exists self', cycle now elem ((self, heap), g) =
      (Ok true, ((self', <[l := set_stamp i (stamp_time self now g) lat]> heap), g)) /\
    stage_idx self' = Some i /\ stage_name self' = stage_name self.
Proof.
  intros He Hl Hi Hlt.
  destruct (cycle_at self heap g now elem l lat i He Hl Hlt) as (self' & Hc & Hi' & Hn & _); [|by exists self'].
  unfold resolved in Hi. by destruct (stage_idx self) as [j|]; [left|right].
Qed.

(** How a node fails on a record it has no place in. *)
Definition stamp_failure (lat : PyLatency) (n : Call) : Res (list (PyStampNode O)) :=
  match resolved lat n.1.1 with
  | None => Err (Msg ("stamp: unknown stage '" +:+ chain_name n +:+ "' (known: " +:+ debug (stages lat) +:+ ")"))
  | Some _ => Panic "index out of bounds"
  end.

Lemma chain_unresolved self heap g now elem l lat nodes :
  traced_latency elem = Some l -> heap !! l = Some lat -> ~ in_record lat (self, now, g) ->
  chain elem ((self, now, g) :: nodes) heap = (stamp_failure lat (self, now, g), heap).
Proof.
  intros He Hl Hno. unfold in_record, stamp_failure, resolved, chain_name in *. cbn [fst snd] in *.
  cbn [chain]. unfold cycle, resolve, stamp_by_index, mbind, get_self, graph, mlift, mreturn, put_self. cbn [fst snd].
  rewrite He. cbn [fst snd]. rewrite Hl. cbn [fst snd].
  destruct (stage_idx self) as [i|]; [|destruct (stage_index (stage_name self) lat) as [i|]]; cbn [fst snd]; [..|done];
    (destruct (Nat.ltb_spec i (length (stamps lat))); [by destruct Hno; exists i|done]).
Qed.

Lemma chain_app_stamped elem nodes rest heap l lat :
  traced_latency elem = Some l -> heap !! l = Some lat -> Forall (in_record lat) nodes ->
  exists nodes', chain elem (nodes ++ rest) heap =
      (match chain elem rest (<[l := stamped lat nodes]> heap) with
       | (Ok rest', heap') => (Ok (nodes' ++ rest'), heap')
       | bad => bad
       end) /\
    Forall2 (fun n self' => stage_idx self' = resolved lat n.1.1 /\ stage_name self' = chain_name n) nodes nodes'.
Proof.
  intros He. revert heap lat. induction nodes as [|[[self now] g] nodes IH]; intros heap lat Hl Hn.
  { exists []. split; [|constructor]. simpl. rewrite insert_id by done. by destruct (chain elem rest heap) as [[| | |]]. }
  apply Forall_cons in Hn as [(i & Hi & Hlt) Hn]. cbn [fst snd] in Hi.
  destruct (cycle_resolved self heap g now elem l lat i He Hl Hi Hlt) as (self' & Hc & Hi' & Hn').
  set (lat1 := set_stamp i (stamp_time self now g) lat) in *.
  destruct (IH (<[l := lat1]> heap) lat1) as (nodes' & Hch & Hall).
  { by rewrite lookup_insert_eq. }
  { eapply Forall_impl; [exact Hn|]. intros n (j & Hj & Hj'). exists j. split; [exact Hj|].
    unfold lat1. simpl. by rewrite length_insert. }
  exists (self' :: nodes'). split; [|constructor; [split; [by rewrite Hi'|done]|exact Hall]].
  cbn [app chain]. rewrite Hc, Hch, insert_insert_eq.
  assert (Hst : stamped lat ((self, now, g) :: nodes) = stamped lat1 nodes).
  { unfold stamped. cbn [foldl fst snd]. by rewrite Hi. }
  rewrite Hst. by destruct (chain elem rest (<[l:=stamped lat1 nodes]> heap)) as [[| | |]].
Qed.

Lemma stamped_places lat nodes self :
  resolved (stamped lat nodes) self = resolved lat self /\
  length (stamps (stamped lat nodes)) = length (stamps lat) /\ stages (stamped lat nodes) = stages lat.
Proof.
  unfold stamped. revert lat. induction nodes as [|x nodes IH]; intros lat; [done|]. cbn [foldl].
  destruct (resolved lat x.1.1) as [i|]; [|apply IH]. destruct (IH (set_stamp i (chain_time x) lat)) as (-> & -> & ->).
  simpl. by rewrite length_insert.
Qed.

Lemma stamped_layout lat nodes : layout_ok lat -> layout_ok (stamped lat nodes) /\ stages (stamped lat nodes) = stages lat.
Proof.
  unfold stamped. revert lat. induction nodes as [|n nodes IH]; intros lat Hok; [done|]. cbn [foldl].
  destruct (resolved lat n.1.1) as [i|]; [|by apply IH].
  destruct (IH (set_stamp i (chain_time n) lat) (set_stamp_ok i _ lat Hok)) as [? ->]. done.
Qed.

(** A node that has kept no index, or that of its own stage in this layout, stamps its own stage. *)
Lemma resolved_own lat self : layout_ok lat -> idx_ok (stages lat) self -> stage_name self ∈ stages lat ->
  exists i, resolved lat self = Some i /\ stages lat !! i = Some (stage_name self) /\ (i < length (stamps lat))%nat.
Proof.
  intros Hok Hidx Hs. destruct (stage_position lat _ Hok Hs) as (i & Hi & Him & Hlt).
  unfold resolved, idx_ok, stage_index in *. destruct (stage_idx self) as [j|]; [|by exists i].
  exists j. split; [done|]. split; [done|]. rewrite (lo_stamps lat Hok). by eapply lookup_lt_Some.
Qed.

Lemma stamped_own lat nodes : layout_ok lat -> NoDup (map chain_name nodes) ->
  Forall (fun n => idx_ok (stages lat) n.1.1 /\ chain_name n ∈ stages lat) nodes ->
  Forall (fun n => getitem (chain_name n) (stamped lat nodes) = Ok (inr (chain_time n))) nodes /\
  forall s, s ∉ map chain_name nodes -> getitem s (stamped lat nodes) = getitem s lat.
Proof.
  revert lat. induction nodes as [|n nodes IH]; intros lat Hok Hnd Hn; [done|].
  apply Forall_cons in Hn as [[Hidx Hs] Hn]. apply NoDup_cons in Hnd as [Hnew Hnd].
  destruct (resolved_own lat n.1.1 Hok Hidx Hs) as (i & Hi & Hpos & _).
  destruct (IH (set_stamp i (chain_time n) lat) (set_stamp_ok i _ lat Hok) Hnd Hn) as [Hall Hrest].
  destruct (getitem_set_stamp lat _ i (chain_time n) Hok Hpos) as [Hget Hother].
  assert (Hst : stamped lat (n :: nodes) = stamped (set_stamp i (chain_time n) lat) nodes).
  { unfold stamped. cbn [foldl]. by rewrite Hi. }
  rewrite Hst. split; [constructor; [by rewrite Hrest|exact Hall]|].
  intros s [Hne Hs']%not_elem_of_cons. rewrite Hrest by done. by apply Hother.
Qed.

(** C27: One object goes through a chain of stamping nodes. Each node stamps the
    object's one record at the index it has kept from the first record it ever saw
    or, having seen none, at the index of its stage in this record: if every node
    finds its place, all pass the object on and the record has all their times,
    each at its node's index, in every holder's view of it (the stream before the
    first of them too). So if the nodes name different stages of the record and
    none has kept an index of another layout -- new nodes, or nodes that have seen
    only records of this layout --, each of their stages reads its node's time and
    every other stage what it read before, and the nodes are again such nodes
    for the next record of this layout. The first node without a place ends the pass
    with the times of the nodes before it in the record: an error, where the node
    is new and the record lacks its stage, and a panic, where the kept index is
    beyond the record's end. *)
Theorem stamps_accumulate (elem : O) (nodes : list (PyStampNode O * Z * GraphState)) heap l lat :
  traced_latency elem = Some l -> heap !! l = Some lat ->
  (Forall (in_record lat) nodes ->
     exists nodes', chain elem nodes heap = (Ok nodes', <[l := stamped lat nodes]> heap) /\
       Forall2 (fun n self' => stage_idx self' = resolved lat n.1.1 /\ stage_name self' = chain_name n) nodes nodes') /\
  (layout_ok lat -> NoDup (map chain_name nodes) ->
   Forall (fun n => idx_ok (stages lat) n.1.1 /\ chain_name n ∈ stages lat) nodes ->
     exists nodes' lat', chain elem nodes heap = (Ok nodes', <[l := lat']> heap) /\
       layout_ok lat' /\ stages lat' = stages lat /\
       Forall (fun n => getitem (chain_name n) lat' = Ok (inr (chain_time n))) nodes /\
       (forall s, s ∉ map chain_name nodes -> getitem s lat' = getitem s lat) /\
       map stage_name nodes' = map chain_name nodes /\ Forall (idx_ok (stages lat)) nodes') /\
  (forall pre n post, nodes = pre ++ n :: post -> Forall (in_record lat) pre -> ~ in_record lat n ->
     chain elem nodes heap = (stamp_failure lat n, <[l := stamped lat pre]> heap)).
Proof.
  intros He Hl.
  assert (Hall : Forall (in_record lat) nodes -> exists nodes', chain elem nodes heap = (Ok nodes', <[l := stamped lat nodes]> heap) /\
    Forall2 (fun n self' => stage_idx self' = resolved lat n.1.1 /\ stage_name self' = chain_name n) nodes nodes').
  { intros Hn. destruct (chain_app_stamped elem nodes [] heap l lat He Hl Hn) as (nodes' & Hch & Hk).
    exists nodes'. split; [|exact Hk]. by rewrite app_nil_r in Hch; rewrite Hch; cbn [chain]; rewrite app_nil_r. }
  split; [exact Hall|]. split.
  - intros Hok Hnd Hn.
    assert (Hin : Forall (in_record lat) nodes).
    { eapply Forall_impl; [exact Hn|]. intros n [Hidx Hs].
      destruct (resolved_own lat n.1.1 Hok Hidx Hs) as (i & Hi & _ & Hlt). by exists i. }
    destruct (Hall Hin) as (nodes' & Hch & Hk). exists nodes', (stamped lat nodes).
    destruct (stamped_layout lat nodes Hok) as [Hok' Hst]. destruct (stamped_own lat nodes Hok Hnd Hn) as [Hg Ho].
    split_and!; [done..| |]; clear -Hk Hn Hok; induction Hk as [|n self' nodes nodes' [Hi Hname] Hk IH]; [done| |done|].
    + apply Forall_cons in Hn as [_ Hn]. simpl. by rewrite Hname, IH.
    + apply Forall_cons in Hn as [[Hidx Hs] Hn]. constructor; [|by apply IH].
      destruct (resolved_own lat n.1.1 Hok Hidx Hs) as (i & Hri & Hpos & _). unfold idx_ok. by rewrite Hi, Hri, Hname.
  - intros pre [[self now] g] post -> Hpre Hno.
    destruct (chain_app_stamped elem pre ((self, now, g) :: post) heap l lat He Hl Hpre) as (nodes' & -> & _).
    destruct (stamped_places lat pre self) as (Hr & Hlen & Hst).
    rewrite (chain_unresolved self (<[l := stamped lat pre]> heap) g now elem l (stamped lat pre) post He).
    + unfold stamp_failure. cbn [fst snd]. rewrite Hr, Hst. by destruct (resolved lat self).
    + by rewrite lookup_insert_eq.
    + unfold in_record in *. cbn [fst snd] in *. by rewrite Hr, Hlen.
Qed.
End stamping.

(** ** The report *)

Section report.
Context {O : Type} `{!TracedHost O}.
Import PyLatencyReportNode.

(** The native layout of these names. *)
Definition native (names : list string) : Latency := {| N := length names; Latency.stage_names := names |}.

Lemma print_rows_native p50 p99 names stats is_ out :
  print_rows p50 p99 names stats is_ out = stage_rows (H := native names) p50 p99 stats is_ out.
Proof.
  revert out. induction is_ as [|i is_ IH]; intros out; [done|]. simpl. unfold stage_row. simpl.
  destruct (stats !! i) as [s|]; [|done]. destruct (names !! (i - 1)%nat); [|done].
  destruct (names !! i); [|done]. destruct (count s =? 0); apply IH.
Qed.

(** On records of the report's own length, the sink keeps and prints what the native
    report of a layout of these names does: the statistics after a record, failures
    included, and the text. A record that is shorter or longer is not an error: the
    stages both have are what is recorded. *)
Theorem py_report_is_latency_report (names : list string) (ts : list Z) (stats : list StageStats)
    (p50 p99 : Z -> Z) (self : PyLatencyReportNode) (printed : string) g :
  (length stats = length names -> length ts = length names ->
     record_all ts stats = LatencyStats.observe (H := native names) ts stats) /\
  (length stats = length names ->
     record_all ts stats =
       LatencyStats.observe (H := native (take (Nat.min (length ts) (length names)) names)) ts stats) /\
  (stage_names self = names -> print_on_teardown self = true ->
     forall text, format_report (H := native names) p50 p99 (PyLatencyReportNode.stats self) = Ok text ->
     PyLatencyReportNode.stop p50 p99 ((self, printed), g) = (Ok tt, ((self, printed +:+ text), g))).
Proof.
  split; [|split].
  - intros Hs Ht. unfold record_all, LatencyStats.observe. simpl. by rewrite Ht, Hs, Nat.min_id.
  - intros Hs. unfold record_all, LatencyStats.observe. simpl. rewrite length_take, Hs.
    by rewrite <- Nat.min_assoc, Nat.min_id.
  - intros Hn Hp text Ht. unfold PyLatencyReportNode.stop, mbind, get_self, mlift, put_self. cbn [fst snd].
    rewrite Hp. cbn [negb]. rewrite Hn, print_rows_native. unfold format_report in Ht. simpl in Ht.
    rewrite Ht. reflexivity.
Qed.
End report.

(** ** Two objects and a plain value, at which the theorems apply *)

Module SmallTraced.
(** An object is the location of its record, or a number. *)
#[export] Instance host : TracedHost (positive + Z) := {|
  traced_latency o := match o with inl l => Some l | inr _ => None end;
  type_qualname o := match o with inl _ => "TracedBytes" | inr _ => "int" end;
  debug l := "[" +:+ String.concat ", " l +:+ "]" |}.
Definition lat : PyLatency := PyLatency_create ["start"; "mid"; "end"]%string.
Definition heap : gmap positive PyLatency := {[ 1%positive := lat ]}.
Definition g : GraphState := GraphState.new (HistoricalFrom 0) Forever 0.
Definition stamper (name : string) : PyStampNode.PyStampNode (positive + Z) := PyStampNode.new 1%positive name true.
End SmallTraced.
Import SmallTraced.

Lemma small_layout_ok : layout_ok lat.
Proof. split; [by apply (bool_decide_unpack _); vm_compute|done|done]. Qed.

Lemma stamp_through_name_witness :
  exists self' lat', PyStampNode.cycle 7 (inl 1%positive) ((stamper "mid", heap), g) =
    (Ok true, ((self', <[1%positive := lat']> heap), g)) /\ getitem "mid" lat' = Ok (inr 7) /\
    getitem "start" lat' = Ok (inr 0).
Proof.
  destruct (stamp_through_name (stamper "mid") heap g 7 (inl 1%positive) 1%positive lat) as (self' & lat' & Hc & _ & _ & _ & _ & _ & Hg & Ho);
    [done|done|apply small_layout_ok|done|right; left|].
  exists self', lat'. split; [done|]. split; [done|]. rewrite Ho; [|discriminate]. vm_compute. reflexivity.
Defined.

(** New nodes; then a record that lacks a stage. *)
Lemma stamps_accumulate_witness :
  (exists nodes' lat', chain (inl 1%positive) [(stamper "end", 9, g); (stamper "start", 11, g)] heap =
     (Ok nodes', <[1%positive := lat']> heap) /\
     getitem "end" lat' = Ok (inr 9) /\ getitem "mid" lat' = Ok (inr 0)) /\
  chain (inl 1%positive) [(stamper "end", 9, g); (stamper "stop", 11, g); (stamper "start", 12, g)] heap =
    (Err (Msg "stamp: unknown stage 'stop' (known: [start, mid, end])"),
     <[1%positive := set_stamp 2 9 lat]> heap).
Proof.
  split.
  - destruct (stamps_accumulate (inl 1%positive) [(stamper "end", 9, g); (stamper "start", 11, g)] heap 1%positive lat)
      as (_ & (nodes' & lat' & Hc & _ & _ & Hall & Hrest & _) & _);
      [done|done|apply small_layout_ok|by apply (bool_decide_unpack _); vm_compute| |].
    + repeat constructor; simpl; repeat constructor.
    + exists nodes', lat'. split; [done|]. apply Forall_cons in Hall as [Hend _]. split; [exact Hend|].
      rewrite Hrest; [vm_compute; reflexivity|]. by apply (bool_decide_unpack _); vm_compute.
  - destruct (stamps_accumulate (inl 1%positive)
      [(stamper "end", 9, g); (stamper "stop", 11, g); (stamper "start", 12, g)] heap 1%positive lat)
      as (_ & _ & Hbad); [done|done|].
    rewrite (Hbad [(stamper "end", 9, g)] (stamper "stop", 11, g) [(stamper "start", 12, g)]); [reflexivity|done| |].
    + constructor; [|constructor]. exists 2%nat. split; [reflexivity|simpl; lia].
    + intros (i & Hi & _). by vm_compute in Hi.
Defined.

Lemma stamp_stale_index_witness :
  exists self' lat', PyStampNode.cycle 7 (inl 1%positive) ((PyStampNode.set_idx 0 (stamper "mid"), heap), g) =
    (Ok true, ((self', <[1%positive := lat']> heap), g)) /\ getitem "start" lat' = Ok (inr 7) /\
    getitem "mid" lat' = getitem "mid" lat.
Proof.
  apply (stamp_stale_index (PyStampNode.set_idx 0 (stamper "mid")) heap g 7 (inl 1%positive) 1%positive lat 0 "start");
    [done|done|apply small_layout_ok|done|done|discriminate].
Defined.

Lemma bytes_roundtrip_witness :
  from_bytes (to_bytes (set_stamp 1 1700000000000000000 lat) ++ [1; 2]) ["start"; "mid"; "end"]%string =
    inr (set_stamp 1 1700000000000000000 lat).
Proof.
  apply (bytes_roundtrip (set_stamp 1 1700000000000000000 lat) [1; 2]); [apply set_stamp_ok, small_layout_ok|].
  repeat constructor; vm_compute; discriminate.
Defined.

Lemma py_report_is_latency_report_witness :
  PyLatencyReportNode.record_all [3; 5; 0] (replicate 3 StageStats_default) =
    LatencyStats.observe (H := native ["start"; "mid"; "end"]%string) [3; 5; 0] (replicate 3 StageStats_default).
Proof.
  apply (py_report_is_latency_report ["start"; "mid"; "end"]%string [3; 5; 0] (replicate 3 StageStats_default)
    id id (PyLatencyReportNode.new 1%positive [] true) EmptyString g); reflexivity.
Defined.
