(* ===== verification/PyAdapters.v ===== *)
(** * The Python side of the adapters: [wingfoil-python/src/py_*.rs]

    What the bindings of the adapters add is the conversion of values: Python
    objects ([PyObj]) to the messages, rows and arguments of the adapter, and back.
    How pyo3 reads a base type of Rust from an object is the class [Extract], the
    numbers and maps of [serde_json] the class [SerdeJson]; the clients of the
    adapters are those of their own files. An object is what the conversions look at:
    subclasses of the types below are [POther].
    [json_roundtrip]: what a subscriber of a web topic gets, and [one_bad_value_nulls]
    where a value has no JSON; [wire_roundtrip]: a message with its latency stages;
    [iceoryx2_bursts]; [redis_event_again] and its kin: an event that is read can be
    written again, but for the key of a Fluvio record ([fluvio_key_lost]);
    [write_row_typed]: a row for PostgreSQL has the declared types;
    [column_value_typed]: so has one that is read; [kdb_symbol_injection]: the symbols
    of a row for kdb+ are not quoted; [kdb_write_sends]: what the writer sends. *)
From stdpp Require Import pretty.
From S2P Require Import Prelude NanoTime TimeQueue GraphState NodeCalls Cache Float Python PyLatency Brokers Etcd Augurs.
From S2P Require Kdb Postgres Web Zmq.
From Stdlib Require Import Strings.Ascii Floats.SpecFloat.
Local Open Scope Z_scope.

(** ** Python objects *)

(** A [TracedBytes] is its payload and the record its latency refers to. *)
Inductive PyObj :=
| PNone
| PBool (b : bool)
| PInt (z : Z)
| PFloat (f : f64)
| PStr (s : bytes)
| PBytes (b : bytes)
| PList (l : list PyObj)
| PDict (items : list (PyObj * PyObj))
| PTraced (payload : PyObj) (latency : PyLatency)
| POther (type_name : bytes).

Definition type_name (o : PyObj) : bytes :=
  match o with
  | PNone => lit "NoneType" | PBool _ => lit "bool" | PInt _ => lit "int" | PFloat _ => lit "float"
  | PStr _ => lit "str" | PBytes _ => lit "bytes" | PList _ => lit "list" | PDict _ => lit "dict"
  | PTraced _ _ => lit "TracedBytes" | POther n => n
  end.

(** [obj.extract::<T>()]: the value, or the exception. *)
Class Extract (X : Type) := {
  extract_string : PyObj -> X + bytes;
  extract_vec_u8 : PyObj -> X + bytes;
  extract_bool : PyObj -> X + bool;
  extract_i32 : PyObj -> X + Z;
  extract_i64 : PyObj -> X + Z;
  extract_u64 : PyObj -> X + Z;
  extract_f64 : PyObj -> X + f64;
  (* an [f32], as the number it is *)
  extract_f32 : PyObj -> X + f64;
  extract_vec_f64 : PyObj -> X + list f64;
  exc_text : X -> string }.

(** What pyo3 documents of the conversions. A list of numbers is a sequence of bytes,
    so the empty list is the empty sequence of them. *)
Class ExtractLaws (X : Type) `{!Extract X} := {
  string_law : forall s, extract_string (PStr s) = inr s;
  string_of_bytes : forall b, exists e, extract_string (PBytes b) = inl e;
  string_of_none : exists e, extract_string PNone = inl e;
  bytes_law : forall b, extract_vec_u8 (PBytes b) = inr b;
  bytes_of_none : exists e, extract_vec_u8 PNone = inl e;
  bytes_of_empty : extract_vec_u8 (PList []) = inr [];
  bytes_of_list : forall b l, exists e, extract_vec_u8 (PList (PBytes b :: l)) = inl e;
  bool_law : forall b, extract_bool (PBool b) = inr b;
  i64_law : forall z, is_i64 z -> extract_i64 (PInt z) = inr z;
  i64_range : forall z, ~ is_i64 z -> exists e, extract_i64 (PInt z) = inl e;
  u64_law : forall z, is_u64 z -> extract_u64 (PInt z) = inr z;
  f64_law : forall f, extract_f64 (PFloat f) = inr f }.

(** [dict.get_item(key)], of a string, and [dict.set_item]: the first item with the
    key, or a new one at the end. *)
Fixpoint get_item (items : list (PyObj * PyObj)) (key : bytes) : option PyObj :=
  match items with
  | [] => None
  | (PStr k, v) :: items => if bool_decide (k = key) then Some v else get_item items key
  | _ :: items => get_item items key
  end.
Fixpoint set_item (key : bytes) (v : PyObj) (items : list (PyObj * PyObj)) : list (PyObj * PyObj) :=
  match items with
  | [] => [(PStr key, v)]
  | (PStr k, w) :: items =>
    if bool_decide (k = key) then (PStr k, v) :: items else (PStr k, w) :: set_item key v items
  | kv :: items => kv :: set_item key v items
  end.
(** A dict built in order. *)
Definition dict_of (kvs : list (bytes * PyObj)) : PyObj :=
  PDict (foldl (fun d kv => set_item kv.1 kv.2 d) [] kvs).

Definition sum_map {E A B} (f : A -> B) (r : E + A) : E + B := match r with inr a => inr (f a) | inl e => inl e end.
Definition res_map {A B} (f : A -> B) (r : Res A) : Res B :=
  match r with Ok a => Ok (f a) | Err e => Err e | Panic w => Panic w | OutOfFuel => OutOfFuel end.
Definition ok_or_none {E A} (r : E + A) : option A := match r with inr a => Some a | inl _ => None end.

(** ** JSON ([py_web.rs]) *)

(** [serde_json]: a number and the conversions of it; a map as its entries in the order
    it iterates. *)
Class SerdeJson := {
  Number : Type;
  from_i64 : Z -> Number;
  from_u64 : Z -> Number;
  from_f64 : f64 -> option Number;
  as_i64 : Number -> option Z;
  as_u64 : Number -> option Z;
  as_f64 : Number -> option f64;
  map_insert : forall {V : Type}, bytes -> V -> list (bytes * V) -> list (bytes * V) }.

Definition is_finite (f : f64) : bool := match f with S754_infinity _ | S754_nan => false | _ => true end.

Class SerdeJsonLaws `{SerdeJson} := {
  as_i64_law : forall z, is_i64 z -> as_i64 (from_i64 z) = Some z;
  as_i64_of_u64 : forall z, is_u64 z -> is_i64 z -> as_i64 (from_u64 z) = Some z;
  as_u64_law : forall z, is_u64 z -> ~ is_i64 z -> as_i64 (from_u64 z) = None /\ as_u64 (from_u64 z) = Some z;
  from_f64_law : forall f, is_finite f = true -> exists n, from_f64 f = Some n /\
    as_i64 n = None /\ as_u64 n = None /\ as_f64 n = Some f;
  from_f64_infinite : forall f, is_finite f = false -> from_f64 f = None;
  map_insert_law : forall {V : Type} k (v : V) m, k ∉ m.*1 -> map_insert k v m ≡ₚ (k, v) :: m }.

Section web.
Context {X : Type} `{!Extract X, SerdeJson}.

Inductive Json :=
| JNull | JBool (b : bool) | JNumber (n : Number) | JString (s : bytes)
| JArray (l : list Json) | JObject (m : list (bytes * Json)).

Definition web_error (msg : string) : PyErr X := NewTypeError ("web_pub: " +:+ msg).
Definition non_finite : PyErr X := NewValueError "web_pub: non-finite float".

Definition float_number (v : f64) : PyErr X + Json :=
  match from_f64 v with Some n => inr (JNumber n) | None => inl non_finite end.

(** The [PyInt] branch; [None] where none of the three conversions succeeds. *)
Definition int_number (obj : PyObj) : option (PyErr X + Json) :=
  match extract_i64 obj with
  | inr v => Some (inr (JNumber (from_i64 v)))
  | inl _ =>
    match extract_u64 obj with
    | inr v => Some (inr (JNumber (from_u64 v)))
    | inl _ => match extract_f64 obj with inr v => Some (float_number v) | inl _ => None end
    end
  end.

(** What [?] passes on of an extraction. *)
Definition raise_exc {A} (r : X + A) : PyErr X + A :=
  match r with inr a => inr a | inl e => inl (Raised e) end.

Definition unsupported (obj : PyObj) : PyErr X :=
  web_error ("unsupported value type: " +:+ text (type_name obj)).

Fixpoint py_to_serde (obj : PyObj) : PyErr X + Json :=
  match obj with
  | PNone => inr JNull
  | PBool _ => match raise_exc (extract_bool obj) with inr b => inr (JBool b) | inl e => inl e end
  | PInt _ => match int_number obj with Some r => r | None => inl (unsupported obj) end
  | PFloat _ => match raise_exc (extract_f64 obj) with inr v => float_number v | inl e => inl e end
  | PStr _ => match raise_exc (extract_string obj) with inr s => inr (JString s) | inl e => inl e end
  | PBytes data => inr (JArray (map (fun b => JNumber (from_u64 (Z.of_nat (nat_of_ascii b)))) data))
  | PList items =>
    (fix go (l : list PyObj) (out : list Json) : PyErr X + Json :=
       match l with
       | [] => inr (JArray out)
       | item :: l => match py_to_serde item with inr j => go l (out ++ [j]) | inl e => inl e end
       end) items []
  | PDict items =>
    (fix go (d : list (PyObj * PyObj)) (m : list (bytes * Json)) : PyErr X + Json :=
       match d with
       | [] => inr (JObject m)
       | (k, v) :: d =>
         match extract_string k with
         | inl _ => inl (web_error "dict keys must be strings for JSON-compatible publish")
         | inr key => match py_to_serde v with inr j => go d (map_insert key j m) | inl e => inl e end
         end
       end) items []
  | PTraced _ _ | POther _ => inl (unsupported obj)
  end.

Fixpoint serde_to_py (value : Json) : PyObj :=
  match value with
  | JNull => PNone
  | JBool b => PBool b
  | JNumber n =>
    match as_i64 n with
    | Some i => PInt i
    | None => match as_u64 n with
              | Some u => PInt u
              | None => match as_f64 n with Some f => PFloat f | None => PNone end
              end
    end
  | JString s => PStr s
  | JArray arr => PList (map serde_to_py arr)
  | JObject obj => dict_of (map (fun kv => (kv.1, serde_to_py kv.2)) obj)
  end.

(** What [web_pub] publishes for an element: null where the conversion fails. *)
Definition published (elem : PyObj) : Json := match py_to_serde elem with inr j => j | inl _ => JNull end.
(** The element of a burst that arrives. *)
Definition web_element (burst : list Json) : PyObj := PList (map serde_to_py burst).
End web.

(** *** The server *)

(** What [PyWebServer::new] builds before it starts the server. *)
Definition PyWebServer_builder {X} (addr : bytes) (codec static_dir : option bytes) : PyErr X + Web.WebServerBuilder :=
  let builder := Web.bind addr in
  let coded :=
    match codec with
    | None => inr builder
    | Some c =>
      if bool_decide (c = lit "bincode") then inr (Web.WebServerBuilder.codec Web.Bincode builder)
      else if bool_decide (c = lit "json") then inr (Web.WebServerBuilder.codec Web.Json builder)
      else inl (NewValueError ("unknown codec '" +:+ text c +:+ "' (expected 'bincode' or 'json')"))
    end in
  match coded with
  | inl e => inl e
  | inr builder =>
    inr (match static_dir with Some dir => Web.WebServerBuilder.serve_static dir builder | None => builder end)
  end.
Definition py_codec_name (c : Web.CodecKind) : bytes :=
  match c with Web.Bincode => lit "bincode" | Web.Json => lit "json" end.

(** ** Messages with latency stages ([py_iceoryx2.rs]) *)

Definition byte_of_Z (b : Z) : ascii := ascii_of_nat (Z.to_nat b).
Definition Z_of_byte (c : ascii) : Z := Z.of_nat (nat_of_ascii c).

Section iceoryx2.
Context {X : Type} `{!Extract X, !Downcast X}.

(** One message of a burst, where the stream has stages: the record and the payload. *)
Definition split_message (stage_names : list string) (message : bytes) : PyObj :=
  let header_len := (length stage_names * 8)%nat in
  if Nat.ltb (length message) header_len then PTraced (PBytes message) (PyLatency_create stage_names)
  else PTraced (PBytes (drop header_len message))
         (create_from_bytes (map Z_of_byte (take header_len message)) stage_names).

Definition iceoryx2_sub_element (stages : option (list string)) (burst : list bytes) : PyObj :=
  match stages with
  | None => PList (map PBytes burst)
  | Some stage_names => PList (map (split_message stage_names) burst)
  end.

Definition header_bytes (lat : PyLatency) : bytes := map byte_of_Z (to_bytes lat).

Fixpoint bytes_items (l : list PyObj) : Error + list bytes :=
  match l with
  | [] => inr []
  | item :: l =>
    match extract_vec_u8 item with
    | inl _ => inl (py_type_error "iceoryx2_pub: list items must be bytes")
    | inr b => match bytes_items l with inr r => inr (b :: r) | inl e => inl e end
    end
  end.

Definition iceoryx2_pub_burst (stages : option (list string)) (obj : PyObj) : Error + list bytes :=
  match stages with
  | None =>
    match extract_vec_u8 obj with
    | inr b => inr [b]
    | inl _ =>
      match obj with
      | PList l => bytes_items l
      | _ => inl (py_type_error "iceoryx2_pub: stream value must be bytes or list[bytes]")
      end
    end
  | Some _ =>
    match obj with
    | PTraced payload lat =>
      match extract_vec_u8 payload with
      | inr payload_bytes => inr [header_bytes lat ++ payload_bytes]
      | inl _ => inl (py_type_error "iceoryx2_pub(stages): TracedBytes.payload must be bytes")
      end
    | _ => inl (py_type_error "iceoryx2_pub(stages): expected TracedBytes value")
    end
  end.
End iceoryx2.

(** ** Redis, Kafka, etcd, Fluvio ([py_redis.rs], [py_kafka.rs], [py_etcd.rs], [py_fluvio.rs]) *)

(** The burst of an element: of a dict, or of the dicts of a list. *)
Definition dicts_to_burst {A} (convert : list (PyObj * PyObj) -> A) (obj : PyObj) : list A :=
  match obj with
  | PDict dict => [convert dict]
  | PList items => omap (fun item => match item with PDict d => Some (convert d) | _ => None end) items
  | _ => []
  end.

Section brokers.
Context {X : Type} `{!Extract X}.
Implicit Types dict : list (PyObj * PyObj).

Definition item_as {A} (extract : PyObj -> X + A) dict (key : string) : option A :=
  get_item dict (lit key) ≫= (fun v => ok_or_none (extract v)).

Definition opt_bytes (k : option bytes) : PyObj := match k with Some k => PBytes k | None => PNone end.

Definition redis_event_dict (event : Redis.RedisEvent) : PyObj :=
  dict_of [(lit "channel", PStr (Redis.ev_channel event)); (lit "payload", PBytes (Redis.ev_payload event))].
Definition redis_entry (default_channel : bytes) dict : Redis.RedisEntry :=
  Redis.mkEntry (default default_channel (item_as extract_string dict "channel"))
    (default [] (item_as extract_vec_u8 dict "payload")).

Definition redis_stream_event_dict (event : Redis.RedisStreamEvent) : PyObj :=
  dict_of [(lit "key", PStr (Redis.se_key event)); (lit "id", PStr (Redis.se_id event));
           (lit "fields", dict_of (map (fun f => (f.1, PBytes f.2)) (Redis.se_fields event)))].
Definition redis_fields (items : list (PyObj * PyObj)) : list (bytes * bytes) :=
  omap (fun kv => match extract_string kv.1, extract_vec_u8 kv.2 with
                  | inr name, inr value => Some (name, value) | _, _ => None end) items.
Definition redis_record (default_key : bytes) dict : Redis.RedisStreamRecord :=
  Redis.mkRecord (default default_key (item_as extract_string dict "key"))
    (match get_item dict (lit "fields") with Some (PDict items) => redis_fields items | _ => [] end).

Definition kafka_event_dict (event : Kafka.KafkaEvent) : PyObj :=
  dict_of [(lit "topic", PStr (Kafka.ev_topic event)); (lit "partition", PInt (Kafka.ev_partition event));
           (lit "offset", PInt (Kafka.ev_offset event)); (lit "key", opt_bytes (Kafka.ev_key event));
           (lit "value", PBytes (Kafka.ev_value event))].
Definition kafka_record (default_topic : bytes) dict : Kafka.KafkaRecord :=
  Kafka.mkRecord (default default_topic (item_as extract_string dict "topic"))
    (item_as extract_vec_u8 dict "key") (default [] (item_as extract_vec_u8 dict "value")).

Definition etcd_event_dict (event : EtcdEvent) : PyObj :=
  dict_of [(lit "kind", PStr (lit match kind event with Put => "put" | Delete => "delete" end));
           (lit "key", PStr (Etcd.key (entry event))); (lit "value", PBytes (Etcd.value (entry event)));
           (lit "revision", PInt (revision event))].
Definition etcd_entry dict : EtcdEntry :=
  mkEntry (default [] (item_as extract_string dict "key")) (default [] (item_as extract_vec_u8 dict "value")).

Definition fluvio_event_dict (event : Fluvio.FluvioEvent) : PyObj :=
  dict_of [(lit "key", opt_bytes (Fluvio.ev_key event)); (lit "value", PBytes (Fluvio.ev_value event));
           (lit "offset", PInt (Fluvio.ev_offset event))].
Definition fluvio_record dict : Fluvio.FluvioRecord :=
  Fluvio.mkRecord (item_as extract_string dict "key") (default [] (item_as extract_vec_u8 dict "value")).

(** The element of a burst, and the burst of an element. *)
Definition redis_sub_element (burst : list Redis.RedisEvent) : PyObj := PList (map redis_event_dict burst).
Definition redis_pub_burst (default_channel : bytes) : PyObj -> list Redis.RedisEntry :=
  dicts_to_burst (redis_entry default_channel).
Definition redis_stream_element (burst : list Redis.RedisStreamEvent) : PyObj := PList (map redis_stream_event_dict burst).
Definition redis_stream_burst (default_key : bytes) : PyObj -> list Redis.RedisStreamRecord :=
  dicts_to_burst (redis_record default_key).
Definition kafka_sub_element (burst : list Kafka.KafkaEvent) : PyObj := PList (map kafka_event_dict burst).
Definition kafka_pub_burst (default_topic : bytes) : PyObj -> list Kafka.KafkaRecord :=
  dicts_to_burst (kafka_record default_topic).
Definition etcd_sub_element (burst : list EtcdEvent) : PyObj := PList (map etcd_event_dict burst).
Definition etcd_pub_burst : PyObj -> list EtcdEntry := dicts_to_burst etcd_entry.
Definition fluvio_sub_element (burst : list Fluvio.FluvioEvent) : PyObj := PList (map fluvio_event_dict burst).
Definition fluvio_pub_burst : PyObj -> list Fluvio.FluvioRecord := dicts_to_burst fluvio_record.
End brokers.

(** ** ZeroMQ ([py_zmq.rs]) *)

(** A value that is not bytes is published as an empty message. *)
Definition zmq_message {X} `{!Extract X} (elem : PyObj) : bytes :=
  match extract_vec_u8 elem with inr b => b | inl _ => [] end.
Definition zmq_data_element (burst : list bytes) : PyObj := PList (map PBytes burst).
Definition zmq_status_element (s : Zmq.ZmqStatus) : PyObj :=
  PStr (match s with Zmq.Connected => lit "connected" | Zmq.Disconnected => lit "disconnected" end).

(** ** PostgreSQL ([py_postgres.rs]) *)

Inductive PgParam :=
| PgBool (v : option bool) | PgInt4 (v : option Z) | PgInt8 (v : option Z) | PgFloat4 (v : option f64)
| PgFloat8 (v : option f64) | PgText (v : option bytes) | PgBytes (v : option bytes).

Section postgres.
Context {X : Type} `{!Extract X}.
(** [Display] of [obj.get_type()]. *)
Context (show_type : PyObj -> bytes).
Implicit Types dict : list (PyObj * PyObj).

(** The macro [extract!]: nothing for [None]. *)
Definition pg_extract {A} (extract : PyObj -> X + A) (name ty : bytes) (value : PyObj) : Error + option A :=
  match value with
  | PNone => inr None
  | _ =>
    match extract value with
    | inr a => inr (Some a)
    | inl e => inl (Msg ("postgres_write: column '" +:+ text name +:+ "' (" +:+
                         text ty +:+ "): " +:+ exc_text e))
    end
  end.

Definition one_of (ty : bytes) (names : list string) : bool := existsb (fun n => bool_decide (ty = lit n)) names.

Definition pg_param (name ty : bytes) (value : PyObj) : Error + PgParam :=
  if one_of ty ["bool"]%string then sum_map PgBool (pg_extract extract_bool name ty value)
  else if one_of ty ["int"; "int4"; "integer"]%string then sum_map PgInt4 (pg_extract extract_i32 name ty value)
  else if one_of ty ["long"; "int8"; "bigint"]%string then sum_map PgInt8 (pg_extract extract_i64 name ty value)
  else if one_of ty ["float4"; "real"]%string then sum_map PgFloat4 (pg_extract extract_f32 name ty value)
  else if one_of ty ["float"; "float8"; "double"]%string then sum_map PgFloat8 (pg_extract extract_f64 name ty value)
  else if one_of ty ["text"; "str"]%string then sum_map PgText (pg_extract extract_string name ty value)
  else if one_of ty ["bytes"; "bytea"]%string then sum_map PgBytes (pg_extract extract_vec_u8 name ty value)
  else inl (Msg ("postgres_write: unsupported column type '" +:+ text ty +:+ "' for column '" +:+
                 text name +:+ "'; supported: bool, int/int4/integer, long/int8/bigint, " +:+
                 "float4/real, float/float8/double, text/str, bytes/bytea")).

Fixpoint dict_to_write_row dict (columns : list (bytes * bytes)) : Error + list PgParam :=
  match columns with
  | [] => inr []
  | (name, ty) :: columns =>
    match get_item dict name with
    | None => inl (Msg ("postgres_write: missing column '" +:+ text name +:+
                        "' in dict (pass an explicit None to write SQL NULL)"))
    | Some value =>
      match pg_param name ty value with
      | inl e => inl e
      | inr v => sum_map (cons v) (dict_to_write_row dict columns)
      end
    end
  end.

Fixpoint write_rows (columns : list (bytes * bytes)) (items : list PyObj) : Error + list (list PgParam) :=
  match items with
  | [] => inr []
  | PDict dict :: items =>
    match dict_to_write_row dict columns with
    | inl e => inl e
    | inr row => sum_map (cons row) (write_rows columns items)
    end
  | item :: _ => inl (Msg ("postgres_write: list items must be dicts, got " +:+ text (show_type item)))
  end.

(** The closure of [py_postgres_write_inner]: the burst of an element. *)
Definition postgres_write_burst (columns : list (bytes * bytes)) (obj : PyObj) : Error + list (list PgParam) :=
  match obj with
  | PDict dict => sum_map (fun row => [row]) (dict_to_write_row dict columns)
  | PList items => write_rows columns items
  | _ => inl (Msg ("postgres_write: stream value must be a dict or list of dicts, got " +:+
                   text (show_type obj)))
  end.
End postgres.

(** The query of a slice: the program's query as a sub-query, less the semicolons at its end. *)
Fixpoint trim_start (off : ascii -> bool) (s : bytes) : bytes :=
  match s with [] => [] | c :: s' => if off c then trim_start off s' else s end.
Definition trim_end (off : ascii -> bool) (s : bytes) : bytes := rev (trim_start off (rev s)).
Definition wrapped_query (query : bytes) : bytes :=
  trim_end Postgres.is_whitespace (trim_end (Ascii.eqb ";") (trim_end Postgres.is_whitespace (trim_start Postgres.is_whitespace query))).

Definition read_query (format : Postgres.NaiveDateTime -> bytes) (query time_col : bytes) (t0 t1 : Z) : bytes :=
  let tc := Postgres.quote_ident time_col in
  lit "SELECT sub.* FROM (" ++ wrapped_query query ++ lit ") AS sub WHERE sub." ++ tc ++ lit " >= '" ++
  Postgres.postgres_timestamp format t0 ++ lit "' AND sub." ++ tc ++ lit " < '" ++
  Postgres.postgres_timestamp format t1 ++ lit "' ORDER BY sub." ++ tc.
Definition py_tail_query (format : Postgres.NaiveDateTime -> bytes) (query time_col : bytes) (cursor : Z) : bytes :=
  let tc := Postgres.quote_ident time_col in
  lit "SELECT sub.* FROM (" ++ wrapped_query query ++ lit ") AS sub WHERE sub." ++ tc ++ lit " > '" ++
  Postgres.postgres_timestamp format cursor ++ lit "' ORDER BY sub." ++ tc.

(** *** Rows that are read *)

Inductive PyPgValue :=
| PgNull | PgVBool (b : bool) | PgVInt (i : Z) | PgVFloat (f : f64) | PgVText (s : bytes) | PgVBytes (b : bytes)
| PgVTimestamp (s : bytes).
Definition PyPgRow := list (bytes * PyPgValue).

(** The types the code names, and any other by its text. *)
Inductive PgType :=
| BOOL | INT2 | INT4 | INT8 | FLOAT4 | FLOAT8 | TEXT | VARCHAR | BPCHAR | NAME | TIMESTAMP | TIMESTAMPTZ | BYTEA
| OtherType (name : bytes).

(** [row.columns()], and [try_get] at an index: the value, or the error of the library. *)
Class PgCells (R : Type) := {
  pg_columns : R -> list (bytes * PgType);
  try_bool : R -> nat -> Error + option bool;
  try_i16 : R -> nat -> Error + option Z;
  try_i32 : R -> nat -> Error + option Z;
  try_i64 : R -> nat -> Error + option Z;
  try_f32 : R -> nat -> Error + option f64;
  try_f64 : R -> nat -> Error + option f64;
  try_string : R -> nat -> Error + option bytes;
  try_naive : R -> nat -> Error + option Postgres.NaiveDateTime;
  try_utc : R -> nat -> Error + option Postgres.NaiveDateTime;
  try_bytes : R -> nat -> Error + option bytes }.

Section pg_read.
Context {R : Type} `{!PgCells R, !Postgres.PgRow R}.
Context (format : Postgres.NaiveDateTime -> bytes).

(** [row.try_get(idx)?.map_or(PyPgValue::Null, f)]. *)
Definition cell {A} (f : A -> PyPgValue) (r : Error + option A) : Res PyPgValue :=
  match r with inl e => Err e | inr None => Ok PgNull | inr (Some a) => Ok (f a) end.
(** The same, where [f] converts to a [NanoTime] and back. *)
Definition time_cell (r : Error + option Postgres.NaiveDateTime) : Res PyPgValue :=
  match r with
  | inl e => Err e
  | inr None => Ok PgNull
  | inr (Some t) => res_map (fun t => PgVTimestamp (Postgres.postgres_timestamp format t)) (Postgres.from_naive t)
  end.

Definition unsupported_column (name ty : bytes) : Error :=
  Msg ("postgres_read: unsupported column type `" +:+ text ty +:+ "` for column `" +:+ text name +:+
       "`; supported: bool, int2/int4/int8, float4/float8, text/varchar, timestamp/timestamptz, bytea").

Definition column_value (row : R) (idx : nat) : Res PyPgValue :=
  match pg_columns row !! idx with
  | None => Panic "index out of bounds"
  | Some (name, ty) =>
    match ty with
    | BOOL => cell PgVBool (try_bool row idx)
    | INT2 => cell PgVInt (try_i16 row idx)
    | INT4 => cell PgVInt (try_i32 row idx)
    | INT8 => cell PgVInt (try_i64 row idx)
    | FLOAT4 => cell PgVFloat (try_f32 row idx)
    | FLOAT8 => cell PgVFloat (try_f64 row idx)
    | TEXT | VARCHAR | BPCHAR | NAME => cell PgVText (try_string row idx)
    | TIMESTAMP => time_cell (try_naive row idx)
    | TIMESTAMPTZ => time_cell (try_utc row idx)
    | BYTEA => cell PgVBytes (try_bytes row idx)
    | OtherType ty => Err (unsupported_column name ty)
    end
  end.

(** The columns from [i] on. *)
Fixpoint py_row_columns (row : R) (i : nat) (cols : list (bytes * PgType)) : Res PyPgRow :=
  match cols with
  | [] => Ok []
  | (name, _) :: cols =>
    match column_value row i with
    | Ok v => res_map (cons (name, v)) (py_row_columns row (S i) cols)
    | Err e => Err e | Panic w => Panic w | OutOfFuel => OutOfFuel
    end
  end.
Definition PyPgRow_from_row (row : R) : Res (Z * PyPgRow) :=
  match Postgres.get_nanotime row (Postgres.Idx 0) with
  | Ok time => res_map (fun columns => (time, columns)) (py_row_columns row 0 (pg_columns row))
  | Err e => Err e | Panic w => Panic w | OutOfFuel => OutOfFuel
  end.
End pg_read.

Definition pg_to_py (v : PyPgValue) : PyObj :=
  match v with
  | PgNull => PNone | PgVBool b => PBool b | PgVInt i => PInt i | PgVFloat f => PFloat f
  | PgVText s => PStr s | PgVBytes b => PBytes b | PgVTimestamp s => PStr s
  end.
Definition row_to_py_dict (row : PyPgRow) : PyObj := dict_of (map (fun c => (c.1, pg_to_py c.2)) row).
(** The element of a burst of rows: of a reader, by [collapse], and of a tail. *)
Definition rows_element (burst : list PyPgRow) : option PyObj := row_to_py_dict <$> last burst.
Definition bursts_element (burst : list PyPgRow) : PyObj := PList (map row_to_py_dict burst).

(** ** kdb+ ([py_kdb.rs]) *)

(** *** Rows that are read *)

Inductive PyKdbValue :=
| KLong (v : Z) | KFloat (v : f64) | KSymbol (v : bytes) | KBool (v : bool) | KInt (v : Z) | KReal (v : f64).
Definition PyKdbValue_default : PyKdbValue := KLong 0.
Definition PyKdbRow := list (bytes * PyKdbValue).

(** The types of the atoms that are read, beside those of [Kdb]. *)
Module qtype.
Definition SHORT_ATOM : Z := -5.
Definition TIMESTAMP_ATOM : Z := -12.
Definition MONTH_ATOM : Z := -13.
Definition DATE_ATOM : Z := -14.
Definition DATETIME_ATOM : Z := -15.
Definition TIMESPAN_ATOM : Z := -16.
Definition MINUTE_ATOM : Z := -17.
Definition SECOND_ATOM : Z := -18.
Definition TIME_ATOM : Z := -19.
End qtype.

Section kdb_read.
(** [get_short], and [Debug]. *)
Context {K : Type} `{!Kdb.KValue K, !Kdb.KdbWrite.KAtom K f64 f64} (get_short : K -> Kdb.KdbError + Z) (debug : K -> bytes).

Definition atom_in (t : Z) (types : list Z) : bool := existsb (Z.eqb t) types.

Definition kdb_value (k : K) : Kdb.KdbError + PyKdbValue :=
  let t := Kdb.get_type k in
  if t =? Kdb.qtype.LONG_ATOM then sum_map KLong (Kdb.get_long k)
  else if t =? Kdb.qtype.FLOAT_ATOM then sum_map KFloat (Kdb.KdbWrite.get_float k)
  else if t =? Kdb.qtype.SYMBOL_ATOM then sum_map KSymbol (Kdb.get_symbol k)
  else if t =? Kdb.qtype.BOOL_ATOM then sum_map KBool (Kdb.KdbWrite.get_bool k)
  else if t =? Kdb.qtype.INT_ATOM then sum_map KInt (Kdb.KdbWrite.get_int k)
  else if t =? Kdb.qtype.REAL_ATOM then sum_map KReal (Kdb.KdbWrite.get_real k)
  else if t =? qtype.SHORT_ATOM then sum_map KInt (get_short k)
  else if atom_in t [qtype.TIMESTAMP_ATOM; qtype.TIMESPAN_ATOM] then sum_map KLong (Kdb.get_long k)
  else if atom_in t [qtype.DATE_ATOM; qtype.MONTH_ATOM; qtype.TIME_ATOM; qtype.MINUTE_ATOM; qtype.SECOND_ATOM] then
    sum_map KInt (Kdb.KdbWrite.get_int k)
  else if t =? qtype.DATETIME_ATOM then sum_map KFloat (Kdb.KdbWrite.get_float k)
  else inr (KSymbol (debug k)).

(** The loop over the columns from [i] on. *)
Fixpoint kdb_columns (row : Kdb.Row K) (i : nat) (columns : list bytes) : Kdb.KdbError + PyKdbRow :=
  match columns with
  | [] => inr []
  | col_name :: columns =>
    match Kdb.Row_get row i with
    | inl e => inl e
    | inr k =>
      match kdb_value k with
      | inl e => inl e
      | inr value => sum_map (cons (col_name, value)) (kdb_columns row (S i) columns)
      end
    end
  end.

(** [columns.len() - 1] of no columns is not a capacity. *)
Definition PyKdbRow_from_kdb_row (row : Kdb.Row K) (columns : list bytes) : Res (Kdb.KdbError + (Z * PyKdbRow)) :=
  match Kdb.Row_get_timestamp row 0 with
  | inl e => Ok (inl e)
  | inr time =>
    match columns with
    | [] => Panic "capacity overflow"
    | _ :: columns => Ok (sum_map (fun result => (time, result)) (kdb_columns row 1 columns))
    end
  end.
End kdb_read.

Definition kdb_to_py (v : PyKdbValue) : PyObj :=
  match v with
  | KLong v | KInt v => PInt v
  | KFloat v | KReal v => PFloat v
  | KSymbol v => PStr v
  | KBool v => PBool v
  end.
Definition kdb_row_dict (row : PyKdbRow) : PyObj := dict_of (map (fun c => (c.1, kdb_to_py c.2)) row).
Definition kdb_rows_element (burst : list PyKdbRow) : option PyObj := kdb_row_dict <$> last burst.

Section kdb.
Context {X : Type} `{!Extract X, !Downcast X}.
(** [Display] of an [f64], and the text of a time. *)
Context (show_f64 : f64 -> bytes) (format_time : Z -> bytes).
(** [Display] of a cast that fails. *)
Context (cast_error : PyObj -> string).

Definition kdb_q_query (query time_col : bytes) (t0 t1 : Z) : bytes :=
  lit "`" ++ time_col ++ lit " xcols select from (" ++ query ++ lit ") where " ++ time_col ++
  lit " >= (`timestamp$)" ++ lit (pretty (NanoTime.to_kdb_timestamp t0)) ++ lit "j, " ++ time_col ++
  lit " < (`timestamp$)" ++ lit (pretty (NanoTime.to_kdb_timestamp t1)) ++ lit "j".

Definition extracted {A} (r : X + A) : Error + A := match r with inr a => inr a | inl e => inl (py_callback_error e) end.

Definition kdb_fragment (col_name col_type : bytes) (value : PyObj) : Error + bytes :=
  if one_of col_type ["symbol"]%string then sum_map (fun s => lit "enlist`" ++ s) (extracted (extract_string value))
  else if one_of col_type ["float"]%string then
    sum_map (fun f => lit "enlist " ++ show_f64 f ++ lit "f") (extracted (extract_f64 value))
  else if one_of col_type ["long"]%string then
    sum_map (fun l => lit "enlist " ++ lit (pretty l) ++ lit "j") (extracted (extract_i64 value))
  else if one_of col_type ["int"]%string then
    sum_map (fun i => lit "enlist " ++ lit (pretty i) ++ lit "i") (extracted (extract_i32 value))
  else if one_of col_type ["bool"]%string then
    sum_map (fun b : bool => lit "enlist " ++ lit (if b then "1" else "0") ++ lit "b") (extracted (extract_bool value))
  else inl (Msg ("unsupported column type '" +:+ text col_type +:+ "' for column '" +:+
                 text col_name +:+ "'")).

Fixpoint kdb_fragments (dict : list (PyObj * PyObj)) (columns : list (bytes * bytes)) : Error + list bytes :=
  match columns with
  | [] => inr []
  | (col_name, col_type) :: columns =>
    match get_item dict col_name with
    | None => inl (Msg ("missing column '" +:+ text col_name +:+ "' in dict"))
    | Some value =>
      match kdb_fragment col_name col_type value with
      | inl e => inl e
      | inr frag => sum_map (cons frag) (kdb_fragments dict columns)
      end
    end
  end.

Definition kdb_insert (table_name : bytes) (columns : list (bytes * bytes)) (time : Z) (obj : PyObj) : Error + bytes :=
  match obj with
  | PDict dict =>
    sum_map (fun frags =>
      lit "insert[`" ++ table_name ++ lit "; (" ++ join (lit "; ") ((lit "enlist " ++ format_time time) :: frags) ++ lit ")]")
      (kdb_fragments dict columns)
  | _ => inl (Msg ("expected dict, got: " +:+ cast_error obj))
  end.

Context {S K : Type} `{Kdb.KValue K, !Kdb.KdbWrite.KAtom K f64 f64, !Kdb.Client S K}.

(** The [while let] over the elements. *)
Fixpoint py_kdb_write_loop (table_name : bytes) (columns : list (bytes * bytes)) (source : list (Z * PyObj)) (socket : S)
  : Res unit * S :=
  match source with
  | [] => (Ok tt, socket)
  | (time, elem) :: source =>
    match kdb_insert table_name columns time elem with
    | inl e => (Err e, socket)
    | inr q =>
      match Kdb.send_sync_message q socket with
      | (inl e, socket) => (Err (Kdb.kdb_error e), socket)
      | (inr response, socket) =>
        if Kdb.get_type response =? Kdb.qtype.ERROR then
          (Err (Msg ("KDB insert error: " +:+ text (default (lit "unknown") (ok_or_none (Kdb.KdbWrite.get_error_string response))))), socket)
        else py_kdb_write_loop table_name columns source socket
      end
    end
  end.

Definition py_kdb_write_consumer (connection : Kdb.KdbConnection) (table_name : bytes) (columns : list (bytes * bytes))
    (source : list (Z * PyObj)) : Res unit * option S :=
  match Kdb.connect_to connection with
  | inl e => (Err (Kdb.kdb_error e), None)
  | inr socket => let '(r, socket) := py_kdb_write_loop table_name columns source socket in (r, Some socket)
  end.
End kdb.

(** ** augurs ([py_augurs.rs]) *)

Section augurs.
Context {F : Type} `{Num F}.
Context {X : Type} `{!Extract X, !Downcast X}.

Definition lowercase (s : bytes) : bytes := map to_ascii_lowercase s.

Definition metric_from_str (metric : bytes) : PyErr X + AugursDtwMetric :=
  let m := lowercase metric in
  if one_of m ["manhattan"; "l1"]%string then inr Manhattan
  else if one_of m ["euclidean"; "l2"]%string then inr Euclidean
  else inl (NewValueError ("unknown metric '" +:+ text m +:+ "' (expected 'euclidean' or 'manhattan')")).

(** [0.0 < x && x < 1.0]. *)
Definition inside_unit (x : F) : bool := flt Float.zero x && flt x Float.one.

(** The configuration of [augurs_forecast]; [show] is the text of a float. *)
Definition forecast_config (show : F -> string) (window horizon : nat)
    (level : option F) (min_points : nat) (periods : option (list nat))
  : PyErr X + AugursForecastConfig.AugursForecastConfig F :=
  let config := AugursForecastConfig.with_min_points min_points (AugursForecastConfig.new window horizon) in
  let leveled :=
    match level with
    | Some level =>
      if negb (inside_unit level) then
        inl (NewValueError ("augurs_forecast: level must be strictly between 0 and 1, got " +:+ show level))
      else inr (AugursForecastConfig.with_level level config)
    | None => inr config
    end in
  match leveled with
  | inl e => inl e
  | inr config =>
    match periods with
    | Some ((_ :: _) as periods) =>
      if existsb (fun p => Nat.ltb p 2) periods then
        inl (NewValueError ("augurs_forecast: MSTL periods must each be >= 2, got " +:+ debug_list periods))
      else inr (AugursForecastConfig.mstl periods config)
    | _ => inr config
    end
  end.

Definition outlier_config (show : F -> string) (window : nat) (sensitivity : F) (detector : bytes)
  : PyErr X + AugursOutlierConfig.AugursOutlierConfig F :=
  if negb (inside_unit sensitivity) then
    inl (NewValueError ("augurs_outlier: sensitivity must be strictly between 0 and 1, got " +:+ show sensitivity))
  else
    let d := lowercase detector in
    if one_of d ["dbscan"]%string then inr (AugursOutlierConfig.dbscan window sensitivity)
    else if one_of d ["mad"]%string then inr (AugursOutlierConfig.mad window sensitivity)
    else inl (NewValueError ("unknown detector '" +:+ text d +:+ "' (expected 'mad' or 'dbscan')")).

(** The value of [as_floats] and of [as_series]: one the model cannot read fails the cycle. *)
Definition expected {A} (op what : string) (r : X + A) : Res A :=
  match r with
  | inr a => Ok a
  | inl e => Err (Context (op +:+ ": expected a " +:+ what +:+ " input value") (py_callback_error e))
  end.
Definition as_float (op : string) (elem : PyObj) : Res f64 := expected op "float" (extract_f64 elem).
Definition as_series (op : string) (elem : PyObj) : Res (list f64) := expected op "list[float]" (extract_vec_f64 elem).

Definition changepoint_config (window min_points : nat) (hazard : F) : AugursChangepointNode.AugursChangepointConfig F :=
  AugursChangepointNode.with_hazard hazard
    (AugursChangepointNode.with_min_points min_points (AugursChangepointNode.config_new window)).
Definition seasons_config (window : nat) (min_points : option nat) (min_period max_period : option Z)
  : AugursSeasonsNode.AugursSeasonsConfig :=
  let config := AugursSeasonsNode.config_new window in
  let config := match min_points with Some m => AugursSeasonsNode.with_min_points m config | None => config end in
  AugursSeasonsNode.mkConfig (AugursSeasonsNode.config_window config) (AugursSeasonsNode.config_min_points config)
    min_period max_period.
Definition dtw_config (window : nat) (metric : bytes) : PyErr X + AugursDtwNode.AugursDtwConfig :=
  match metric_from_str metric with
  | inl e => inl e
  | inr m => inr (AugursDtwNode.with_metric m (AugursDtwNode.config_new window))
  end.
Definition cluster_config (window : nat) (epsilon : F) (min_cluster_size : nat) (metric : bytes)
  : PyErr X + AugursClusterNode.AugursClusterConfig F :=
  match metric_from_str metric with
  | inl e => inl e
  | inr m => inr (AugursClusterNode.with_metric m (AugursClusterNode.config_new window epsilon min_cluster_size))
  end.

(** The dicts of the results. *)
Context (py_float : F -> PyObj).
Definition py_floats (l : list F) : PyObj := PList (map py_float l).
Definition py_ints (l : list Z) : PyObj := PList (map PInt l).
Definition py_indices (l : list nat) : PyObj := py_ints (map Z.of_nat l).
Definition forecast_dict (forecast : AugursForecast F) : PyObj :=
  dict_of [(lit "point", py_floats (point forecast)); (lit "lower", py_floats (lower _ forecast));
           (lit "upper", py_floats (upper _ forecast))].
Definition outlier_dict (outliers : AugursOutliers F) : PyObj :=
  dict_of [(lit "outlying", py_indices (outlying outliers)); (lit "scores", py_floats (scores _ outliers))].
Definition changepoint_dict (changes : AugursChangepoints) : PyObj := dict_of [(lit "indices", py_indices (indices changes))].
Definition seasons_dict (seasons : AugursSeasons) : PyObj := dict_of [(lit "periods", py_ints (periods seasons))].
Definition dtw_dict (matrix : AugursDistanceMatrix F) : PyObj := dict_of [(lit "rows", PList (map py_floats (rows matrix)))].
Definition cluster_dict (clusters : AugursClusters) : PyObj := dict_of [(lit "labels", py_ints (labels clusters))].
End augurs.

(** ** Specifications *)

Section json_spec.
Context {X : Type} `{!Extract X}.

(** The objects that have a JSON value. A float must be a finite number, an int fit an
    [i64] or a [u64]; the keys of a dict are distinct strings. *)
Inductive jsonable : PyObj -> Prop :=
| js_none : jsonable PNone
| js_bool b : jsonable (PBool b)
| js_int z : is_i64 z \/ is_u64 z -> jsonable (PInt z)
| js_float f : is_finite f = true -> jsonable (PFloat f)
| js_str s : jsonable (PStr s)
| js_bytes b : jsonable (PBytes b)
| js_list l : Forall jsonable l -> jsonable (PList l)
| js_dict (kvs : list (bytes * PyObj)) :
    NoDup kvs.*1 -> Forall (fun kv => jsonable kv.2) kvs -> jsonable (PDict (map (fun kv => (PStr kv.1, kv.2)) kvs)).

(** What a subscriber gets of an object: bytes arrive as a list of ints, the items of a
    dict in an order of the map's. *)
Inductive arrives : PyObj -> PyObj -> Prop :=
| ar_none : arrives PNone PNone
| ar_bool b : arrives (PBool b) (PBool b)
| ar_int z : arrives (PInt z) (PInt z)
| ar_float f : arrives (PFloat f) (PFloat f)
| ar_str s : arrives (PStr s) (PStr s)
| ar_bytes b : arrives (PBytes b) (PList (map (fun c => PInt (Z_of_byte c)) b))
| ar_list l l' : Forall2 arrives l l' -> arrives (PList l) (PList l')
| ar_dict items sent items' :
    Forall2 (fun kv kv' : PyObj * PyObj => kv'.1 = kv.1 /\ arrives kv.2 kv'.2) items sent -> items' ≡ₚ sent ->
    arrives (PDict items) (PDict items').
End json_spec.

Section row_spec.
Context {X : Type} `{!Extract X}.

(** The value of a nullable column: an explicit [None] is NULL, and nothing else is. *)
Inductive nullable {A} (extract : PyObj -> X + A) : PyObj -> option A -> Prop :=
| nl_null : nullable extract PNone None
| nl_value v a : v <> PNone -> extract v = inr a -> nullable extract v (Some a).

(** The parameters a declared type allows of a value. *)
Inductive typed_param (v : PyObj) (ty : bytes) : PgParam -> Prop :=
| tp_bool o : ty ∈ map lit ["bool"]%string -> nullable extract_bool v o -> typed_param v ty (PgBool o)
| tp_int4 o : ty ∈ map lit ["int"; "int4"; "integer"]%string -> nullable extract_i32 v o -> typed_param v ty (PgInt4 o)
| tp_int8 o : ty ∈ map lit ["long"; "int8"; "bigint"]%string -> nullable extract_i64 v o -> typed_param v ty (PgInt8 o)
| tp_float4 o : ty ∈ map lit ["float4"; "real"]%string -> nullable extract_f32 v o -> typed_param v ty (PgFloat4 o)
| tp_float8 o : ty ∈ map lit ["float"; "float8"; "double"]%string -> nullable extract_f64 v o -> typed_param v ty (PgFloat8 o)
| tp_text o : ty ∈ map lit ["text"; "str"]%string -> nullable extract_string v o -> typed_param v ty (PgText o)
| tp_bytes o : ty ∈ map lit ["bytes"; "bytea"]%string -> nullable extract_vec_u8 v o -> typed_param v ty (PgBytes o).

Inductive column_ok (dict : list (PyObj * PyObj)) : bytes * bytes -> PgParam -> Prop :=
| column_ok_intro name ty v p : get_item dict name = Some v -> typed_param v ty p -> column_ok dict (name, ty) p.
End row_spec.

(** The values a column of a type can have. *)
Inductive pg_value_of : PgType -> PyPgValue -> Prop :=
| pv_null ty : (forall n, ty <> OtherType n) -> pg_value_of ty PgNull
| pv_bool b : pg_value_of BOOL (PgVBool b)
| pv_int ty i : ty = INT2 \/ ty = INT4 \/ ty = INT8 -> pg_value_of ty (PgVInt i)
| pv_float ty f : ty = FLOAT4 \/ ty = FLOAT8 -> pg_value_of ty (PgVFloat f)
| pv_text ty s : ty = TEXT \/ ty = VARCHAR \/ ty = BPCHAR \/ ty = NAME -> pg_value_of ty (PgVText s)
| pv_time ty s : ty = TIMESTAMP \/ ty = TIMESTAMPTZ -> pg_value_of ty (PgVTimestamp s)
| pv_bytes b : pg_value_of BYTEA (PgVBytes b).

(** A server that takes the texts, one after the other. *)
Inductive delivered {S K : Type} `{Kdb.KValue K, !Kdb.Client S K} : list bytes -> S -> S -> Prop :=
| delivered_none s : delivered [] s s
| delivered_more q qs s r s1 s2 :
    Kdb.send_sync_message q s = (inr r, s1) -> Kdb.get_type r <> Kdb.qtype.ERROR ->
    delivered qs s1 s2 -> delivered (q :: qs) s s2.

(** ** JSON *)

Section json_facts.
Context {X : Type} `{!Extract X, !ExtractLaws X, !SerdeJson, !SerdeJsonLaws}.

Definition list_to_serde : list PyObj -> list Json -> PyErr X + Json :=
  fix go (l : list PyObj) (out : list Json) : PyErr X + Json :=
    match l with
    | [] => inr (JArray out)
    | item :: l => match py_to_serde item with inr j => go l (out ++ [j]) | inl e => inl e end
    end.
Definition dict_to_serde : list (PyObj * PyObj) -> list (bytes * Json) -> PyErr X + Json :=
  fix go (d : list (PyObj * PyObj)) (m : list (bytes * Json)) : PyErr X + Json :=
    match d with
    | [] => inr (JObject m)
    | (k, v) :: d =>
      match extract_string k with
      | inl _ => inl (web_error "dict keys must be strings for JSON-compatible publish")
      | inr key => match py_to_serde v with inr j => go d (map_insert key j m) | inl e => inl e end
      end
    end.

Lemma py_to_serde_list l : py_to_serde (PList l) = list_to_serde l [].
Proof. done. Qed.
Lemma py_to_serde_dict d : py_to_serde (PDict d) = dict_to_serde d [].
Proof. done. Qed.

(** An object goes through JSON. *)
Definition goes_through (o : PyObj) : Prop :=
  exists j, py_to_serde (X:=X) o = inr j /\ arrives o (serde_to_py j).

Lemma list_goes_through l out : Forall goes_through l ->
  exists js, list_to_serde l out = inr (JArray (out ++ js)) /\ Forall2 (fun o j => arrives o (serde_to_py j)) l js.
Proof.
  intros Hl. revert out. induction Hl as [|o l (j & Hj & Ha) _ IH]; intros out.
  - exists []. by rewrite app_nil_r.
  - destruct (IH (out ++ [j])) as (js & Hjs & Hf). exists (j :: js). simpl. rewrite Hj, Hjs, <- app_assoc. by auto.
Qed.

Lemma dict_goes_through (kvs : list (bytes * PyObj)) m :
  NoDup (kvs.*1 ++ m.*1) -> Forall (fun kv => goes_through kv.2) kvs ->
  exists m' js, dict_to_serde (map (fun kv => (PStr kv.1, kv.2)) kvs) m = inr (JObject m') /\ m' ≡ₚ m ++ js /\
    Forall2 (fun (kv : bytes * PyObj) (kj : bytes * Json) => kj.1 = kv.1 /\ arrives kv.2 (serde_to_py kj.2)) kvs js.
Proof.
  intros Hnd Hl. revert m Hnd. induction Hl as [|[k v] kvs (j & Hj & Ha) _ IH]; intros m Hnd; simpl in *.
  - exists m, []. by rewrite app_nil_r.
  - apply NoDup_cons in Hnd as [Hk Hnd]. rewrite string_law, Hj.
    assert (Hm : map_insert k j m ≡ₚ (k, j) :: m) by (apply map_insert_law; set_solver).
    destruct (IH (map_insert k j m)) as (m' & js & Hd & Hp & Hf).
    { rewrite Hm. simpl. rewrite <- Permutation_middle. by apply NoDup_cons. }
    exists m', ((k, j) :: js). split; [done|]. split; [|by constructor].
    rewrite Hp, Hm. simpl. by rewrite <- Permutation_middle.
Qed.

Lemma set_item_new k v d : Forall (fun kv => kv.1 <> PStr k) d -> set_item k v d = d ++ [(PStr k, v)].
Proof.
  induction 1 as [|[[] w] d Hk _ IH]; simpl in *; rewrite ?IH; try done.
  case_bool_decide; congruence.
Qed.

Lemma dict_of_distinct (kvs : list (bytes * PyObj)) : NoDup kvs.*1 ->
  dict_of kvs = PDict (map (fun kv => (PStr kv.1, kv.2)) kvs).
Proof.
  intros Hnd. unfold dict_of. f_equal.
  assert (Hgen : forall kvs pre, NoDup ((pre ++ kvs).*1) ->
    foldl (fun d kv => set_item kv.1 kv.2 d) (map (fun kv : bytes * PyObj => (PStr kv.1, kv.2)) pre) kvs =
    map (fun kv => (PStr kv.1, kv.2)) (pre ++ kvs)).
  { clear. induction kvs as [|[k v] kvs IH]; intros pre Hnd; simpl; [by rewrite app_nil_r|].
    rewrite set_item_new.
    - rewrite (cons_middle (k, v) pre kvs) in Hnd |- *. rewrite app_assoc in Hnd |- *.
      rewrite <- (IH _ Hnd), map_app. done.
    - rewrite fmap_app, NoDup_app in Hnd. destruct Hnd as (_ & Hd & _). apply Forall_map, Forall_forall.
      intros [k' v'] Hin [= ->]. apply (Hd k); [by apply (list_elem_of_fmap_2 fst _ (k, v'))|simpl; set_solver]. }
  by apply (Hgen kvs []).
Qed.

Lemma Forall_under {A} (P Q : A -> Prop) (f : forall x, P x -> Q x) l : Forall P l -> Forall Q l.
Proof.
  revert l. fix go 2. intros l [|x l' Hx Hl]; [constructor|]. constructor; [exact (f x Hx)|exact (go l' Hl)].
Defined.

Lemma int_goes_through z : is_i64 z \/ is_u64 z -> goes_through (PInt z).
Proof.
  intros Hz. unfold goes_through. simpl. unfold int_number. destruct (decide (is_i64 z)) as [Hi|Hi].
  - rewrite i64_law by done. eexists. split; [done|]. simpl. rewrite as_i64_law by done. constructor.
  - destruct Hz as [Hz|Hz]; [done|]. destruct (i64_range z Hi) as [e ->]. rewrite u64_law by done.
    eexists. split; [done|]. simpl. destruct (as_u64_law z Hz Hi) as [-> ->]. constructor.
Qed.

Lemma float_goes_through f : is_finite f = true -> goes_through (PFloat f).
Proof.
  intros Hf. unfold goes_through. simpl. rewrite f64_law. simpl. unfold float_number.
  destruct (from_f64_law f Hf) as (n & -> & Hi & Hu & Hn). eexists. split; [done|].
  simpl. rewrite Hi, Hu, Hn. constructor.
Qed.

Lemma bytes_go_through b : goes_through (PBytes b).
Proof.
  eexists. split; [done|]. simpl. rewrite map_map.
  rewrite (map_ext _ (fun c => PInt (Z_of_byte c))); [constructor|].
  intros c. simpl. pose proof (nat_ascii_bounded c).
  by rewrite as_i64_of_u64 by (unfold is_u64, is_i64, u64_max, i64_max; lia).
Qed.

Lemma list_goes l : Forall goes_through l -> goes_through (PList l).
Proof.
  intros Hl. destruct (list_goes_through l [] Hl) as (js & Hjs & Hf).
  exists (JArray js). rewrite py_to_serde_list, Hjs. split; [done|]. simpl. constructor. by apply Forall2_fmap_r.
Qed.

Lemma dict_goes (kvs : list (bytes * PyObj)) : NoDup kvs.*1 -> Forall (fun kv => goes_through kv.2) kvs ->
  goes_through (PDict (map (fun kv => (PStr kv.1, kv.2)) kvs)).
Proof.
  intros Hnd Hl. destruct (dict_goes_through kvs []) as (m' & js & Hd & Hp & Hf); [by rewrite app_nil_r|done|].
  exists (JObject m'). rewrite py_to_serde_dict, Hd. split; [done|]. simpl.
  assert (Hk : js.*1 = kvs.*1) by (clear -Hf; induction Hf as [|kv kj kvs js [Hk _] _ IH]; csimpl; [done|by rewrite Hk, IH]).
  rewrite dict_of_distinct.
  - econstructor.
    2: { rewrite Hp. simpl. reflexivity. }
    rewrite map_map. apply Forall2_fmap. eapply Forall2_impl; [exact Hf|]. intros kv kj [-> Ha]. done.
  - rewrite map_map. simpl. change (NoDup (m'.*1)). rewrite Hp. simpl. by rewrite Hk.
Qed.

(** An object with a JSON value is published as it, and a subscriber gets an equal
    object: bytes as the list of their numbers, dicts in the order of the map. *)
Theorem json_roundtrip : forall o, jsonable o -> py_to_serde (X:=X) o = inr (published (X:=X) o) /\
  arrives o (serde_to_py (published (X:=X) o)).
Proof.
  assert (Hgo : forall o, jsonable o -> goes_through o).
  { fix IH 2. intros o [| b | z Hz | f Hf | s | b | l Hl | kvs Hnd Hl].
    - exists JNull. split; [done|constructor].
    - exists (JBool b). simpl. rewrite bool_law. split; [done|constructor].
    - by apply int_goes_through.
    - by apply float_goes_through.
    - exists (JString s). simpl. rewrite string_law. split; [done|constructor].
    - apply bytes_go_through.
    - apply list_goes. exact (Forall_under _ _ IH l Hl).
    - apply dict_goes; [done|]. exact (Forall_under _ _ (fun kv => IH kv.2) kvs Hl). }
  intros o Ho. destruct (Hgo o Ho) as (j & Hj & Ha). unfold published. by rewrite Hj.
Qed.

(** One value without JSON, in a list or below it, and all that is published is null. *)
Theorem one_bad_value_nulls l o e : o ∈ l -> py_to_serde (X:=X) o = inl e -> published (X:=X) (PList l) = JNull.
Proof.
  intros Hin He. unfold published. rewrite py_to_serde_list. generalize (@nil Json) as out.
  induction l as [|o' l IH]; [set_solver|]. intros out. simpl. apply elem_of_cons in Hin as [<-|Hin].
  - by rewrite He.
  - destruct (py_to_serde o') as [e'|j]; [done|]. by apply IH.
Qed.

(** A float that is not a number or not finite has no JSON. *)
Theorem non_finite_is_null f : is_finite f = false -> py_to_serde (X:=X) (PFloat f) = inl non_finite.
Proof. intros Hf. simpl. rewrite f64_law. simpl. unfold float_number. by rewrite (from_f64_infinite f Hf). Qed.
End json_facts.

(** ** Messages with latency stages *)

Lemma byte_roundtrip b : 0 <= b < 256 -> Z_of_byte (byte_of_Z b) = b.
Proof. intros Hb. unfold Z_of_byte, byte_of_Z. rewrite nat_ascii_embedding; lia. Qed.

Lemma le_bytes_range n v : Forall (fun b => 0 <= b < 256) (le_bytes n v).
Proof. revert v. induction n as [|n IH]; intros v; simpl; constructor; [apply Z.mod_pos_bound; lia|done]. Qed.

Lemma to_bytes_range l : Forall (fun b => 0 <= b < 256) (to_bytes l).
Proof.
  unfold to_bytes. induction (stamps l) as [|v vs IH]; cbn [flat_map]; [constructor|].
  apply Forall_app. split; [apply le_bytes_range|done].
Qed.

Lemma header_bytes_back l : map Z_of_byte (header_bytes l) = to_bytes l.
Proof.
  unfold header_bytes. rewrite map_map. pose proof (to_bytes_range l) as Hr.
  induction Hr as [|b bs Hb _ IH]; simpl; [done|]. by rewrite byte_roundtrip, IH.
Qed.

Section iceoryx2_facts.
Context {X : Type} `{!Extract X, !ExtractLaws X, !Downcast X}.

(** A [TracedBytes] that is published with stages is one message, and a subscriber with
    the stages of its record gets the payload and the stamps. *)
Theorem wire_roundtrip (names : list string) (payload : bytes) (lat : PyLatency) :
  layout_ok lat -> Forall is_u64 (stamps lat) ->
  exists message, iceoryx2_pub_burst (Some names) (PTraced (PBytes payload) lat) = inr [message] /\
    iceoryx2_sub_element (Some (stages lat)) [message] = PList [PTraced (PBytes payload) lat].
Proof.
  intros Hok Hu. exists (header_bytes lat ++ payload). simpl. rewrite bytes_law. split; [done|].
  unfold split_message.
  assert (Hlen : length (header_bytes lat) = (length (stages lat) * 8)%nat).
  { rewrite <- (length_map Z_of_byte), header_bytes_back. unfold to_bytes. rewrite to_bytes_length.
    by rewrite (lo_stamps _ Hok). }
  rewrite length_app, Hlen. destruct (Nat.ltb_spec (length (stages lat) * 8 + length payload) (length (stages lat) * 8)); [lia|].
  rewrite drop_app_length', take_app_length' by done. rewrite header_bytes_back.
  destruct (bytes_roundtrip lat [] Hok Hu) as [_ Hc]. rewrite app_nil_r in Hc. by rewrite Hc.
Qed.

(** Without stages a list of bytes is a burst of messages, but an empty list is one empty
    message: it is a sequence of bytes too. *)
Theorem iceoryx2_bursts : 
  (forall b, iceoryx2_pub_burst None (PBytes b) = inr [b]) /\
  (forall l, l <> [] -> iceoryx2_pub_burst None (PList (map PBytes l)) = inr l) /\
  iceoryx2_pub_burst None (PList []) = inr [[]].
Proof.
  split; [intros b; simpl; by rewrite bytes_law|]. split; [|simpl; by rewrite bytes_of_empty].
  intros [|b l] Hl; [done|]. unfold iceoryx2_pub_burst. cbn [map].
  destruct (bytes_of_list b (map PBytes l)) as [e ->].
  assert (Hall : forall l, bytes_items (map PBytes l) = inr l).
  { clear -ExtractLaws0. induction l as [|c l IH]; simpl; [done|]. by rewrite bytes_law, IH. }
  exact (Hall (b :: l)).
Qed.
End iceoryx2_facts.

(** ** Events that are written again *)

Section broker_facts.
Context {X : Type} `{!Extract X, !ExtractLaws X}.

Lemma dicts_again {E A} (to_dict : E -> PyObj) (convert : list (PyObj * PyObj) -> A) (f : E -> A) (burst : list E) :
  (forall e, dicts_to_burst convert (to_dict e) = [f e]) -> (forall e, exists d, to_dict e = PDict d) ->
  dicts_to_burst convert (PList (map to_dict burst)) = map f burst.
Proof.
  intros Hf Hd. simpl. induction burst as [|e burst IH]; simpl; [done|].
  specialize (Hf e). destruct (Hd e) as [d Heq]. rewrite Heq in Hf |- *. simpl in Hf. injection Hf as ->.
  f_equal. exact IH.
Qed.

(** What a subscriber yields, the publisher of the same system takes: the same messages
    in their order, whatever the default channel. *)
Theorem redis_event_again default_channel (burst : list Redis.RedisEvent) :
  redis_pub_burst (X:=X) default_channel (redis_sub_element burst) =
    map (fun e => Redis.mkEntry (Redis.ev_channel e) (Redis.ev_payload e)) burst.
Proof.
  apply dicts_again; [|by eexists]. intros e. simpl. unfold redis_entry, item_as. simpl. by rewrite string_law, bytes_law.
Qed.

(** Kafka, with the keys. *)
Theorem kafka_event_again default_topic (burst : list Kafka.KafkaEvent) :
  kafka_pub_burst (X:=X) default_topic (kafka_sub_element burst) =
    map (fun e => Kafka.mkRecord (Kafka.ev_topic e) (Kafka.ev_key e) (Kafka.ev_value e)) burst.
Proof.
  apply dicts_again; [|by eexists]. intros e.
  simpl. unfold kafka_record, item_as. simpl. rewrite string_law, bytes_law. simpl.
  destruct (Kafka.ev_key e); simpl; [by rewrite bytes_law|]. by destruct bytes_of_none as [err ->].
Qed.

(** Etcd. The kind is not looked at: a deleted key is put again. *)
Theorem etcd_event_again (burst : list EtcdEvent) :
  etcd_pub_burst (X:=X) (etcd_sub_element burst) = map entry burst.
Proof.
  apply dicts_again; [|by eexists]. intros e. simpl. unfold etcd_entry, item_as. simpl.
  rewrite string_law, bytes_law. by destruct (entry e).
Qed.

Lemma redis_fields_back (fs : list (bytes * bytes)) :
  redis_fields (X:=X) (map (fun kv => (PStr kv.1, kv.2)) (map (fun f => (f.1, PBytes f.2)) fs)) = fs.
Proof.
  induction fs as [|[n v] fs IH]; [done|]. unfold redis_fields in *. cbn. rewrite string_law, bytes_law.
  f_equal. exact IH.
Qed.

(** The same for an entry of a stream, whose fields have distinct names. *)
Theorem redis_stream_event_again default_key (e : Redis.RedisStreamEvent) :
  NoDup (Redis.se_fields e).*1 ->
  dicts_to_burst (redis_record (X:=X) default_key) (redis_stream_event_dict e) =
    [Redis.mkRecord (Redis.se_key e) (Redis.se_fields e)].
Proof.
  intros Hnd. unfold redis_stream_event_dict.
  rewrite (dict_of_distinct (map _ (Redis.se_fields e))) by (rewrite <- list_fmap_compose; exact Hnd).
  simpl. unfold redis_record, item_as. simpl. rewrite string_law. simpl. by rewrite redis_fields_back.
Qed.

(** A Fluvio record is written again without its key: the subscriber yields the key as
    bytes, and the publisher reads a string. *)
Theorem fluvio_key_lost (burst : list Fluvio.FluvioEvent) :
  fluvio_pub_burst (X:=X) (fluvio_sub_element burst) = map (fun e => Fluvio.mkRecord None (Fluvio.ev_value e)) burst.
Proof.
  apply dicts_again; [|by eexists]. intros e.
  simpl. unfold fluvio_record, item_as. simpl. rewrite bytes_law. destruct (Fluvio.ev_key e) as [k|]; simpl.
  - by destruct (string_of_bytes k) as [err ->].
  - by destruct string_of_none as [err ->].
Qed.

(** An item of a list that is not a dict is dropped, without an error. *)
Theorem other_items_dropped {A} (convert : list (PyObj * PyObj) -> A) (l l' : list PyObj) (o : PyObj) :
  (forall d, o <> PDict d) ->
  dicts_to_burst convert (PList (l ++ o :: l')) = dicts_to_burst convert (PList (l ++ l')).
Proof. intros Ho. simpl. rewrite !omap_app. by destruct o; simpl; try destruct (Ho _ eq_refl). Qed.
End broker_facts.

(** ** Rows for PostgreSQL *)

Ltac eval_one_of :=
  repeat match goal with
  | |- context [one_of ?t ?l] => let b := eval vm_compute in (one_of t l) in change (one_of t l) with b; cbv match
  end.

Lemma one_of_spec ty names : one_of ty names = true <-> ty ∈ map lit names.
Proof.
  unfold one_of. rewrite existsb_exists, list_elem_of_fmap. split.
  - intros (n & Hn & Ht). apply bool_decide_eq_true in Ht. exists n. by rewrite list_elem_of_In.
  - intros (n & -> & Hn). exists n. rewrite <- list_elem_of_In. split; [done|]. by apply bool_decide_eq_true.
Qed.

Section row_facts.
Context {X : Type} `{!Extract X}.

Lemma pg_extract_spec {A} (extract : PyObj -> X + A) name ty v o :
  pg_extract extract name ty v = inr o <-> nullable extract v o.
Proof.
  split.
  - unfold pg_extract. destruct v; intros Hx;
      first [injection Hx as <-; constructor
            |destruct (extract _) eqn:He in Hx; [done|]; injection Hx as <-; by constructor].
  - intros [|v' a Hv Ha]; [done|]. unfold pg_extract. rewrite Ha. by destruct v'.
Qed.

Lemma sum_map_inr {E A B} (f : A -> B) (r : E + A) b : sum_map f r = inr b <-> exists a, r = inr a /\ b = f a.
Proof.
  destruct r as [e|a]; simpl; split; try done.
  - by intros (? & ? & _).
  - intros [= <-]. eauto.
  - intros (? & [= <-] & ->). done.
Qed.

Lemma pg_param_spec name ty v p : pg_param name ty v = inr p <-> typed_param v ty p.
Proof.
  split.
  - unfold pg_param.
    repeat (case_match eqn:Hty;
      [apply one_of_spec in Hty; rewrite sum_map_inr; intros (o & Ho & ->);
       apply pg_extract_spec in Ho; by constructor|clear Hty]).
    done.
  - intros Ht; destruct Ht as [o Hty Ho|o Hty Ho|o Hty Ho|o Hty Ho|o Hty Ho|o Hty Ho|o Hty Ho];
      apply (pg_extract_spec _ name ty) in Ho; cbn [map] in Hty;
      repeat (apply elem_of_cons in Hty as [->|Hty]); try (by apply elem_of_nil in Hty);
      unfold pg_param; eval_one_of; cbn [sum_map]; by rewrite Ho.
Qed.

(** C29: A row is made of a dict exactly where every declared column has a value of its
    type, and then has those values in the order of the columns, each a parameter of the
    column's type. NULL is written for an explicit [None] only. *)
Theorem write_row_typed (dict : list (PyObj * PyObj)) (columns : list (bytes * bytes)) (row : list PgParam) :
  dict_to_write_row dict columns = inr row <-> Forall2 (column_ok dict) columns row.
Proof.
  revert row. induction columns as [|[name ty] columns IH]; intros row; simpl.
  - split; [by intros [= <-]|]. by intros ->%Forall2_nil_inv_l.
  - destruct (get_item dict name) as [v|] eqn:Hv.
    2: { split; [done|]. intros (p & ps & Hc & _ & ->)%Forall2_cons_inv_l. inversion Hc; congruence. }
    destruct (pg_param name ty v) as [e|p] eqn:Hp.
    + split; [done|]. intros (p & ps & Hc & _ & ->)%Forall2_cons_inv_l. inversion Hc; subst.
      assert (v0 = v) as -> by congruence. by erewrite (proj2 (pg_param_spec _ _ _ _)) in Hp.
    + rewrite sum_map_inr. split.
      * intros (ps & Hps & ->). constructor; [|by apply IH]. econstructor; [done|]. by apply pg_param_spec in Hp.
      * intros (p' & ps & Hc & Hps & ->)%Forall2_cons_inv_l. inversion Hc as [? ? v' ? Hv' Ht]; subst.
        assert (v' = v) as -> by congruence. apply (pg_param_spec name) in Ht. rewrite Hp in Ht. injection Ht as <-.
        exists ps. split; [by apply IH|done].
Qed.
End row_facts.

(** ** Rows of PostgreSQL *)

Section pg_row_facts.
Context {R : Type} `{!PgCells R, !Postgres.PgRow R} (format : Postgres.NaiveDateTime -> bytes).

Lemma cell_ok {A} (f : A -> PyPgValue) r v : cell f r = Ok v -> v = PgNull \/ exists a, v = f a.
Proof. destruct r as [e|[a|]]; simpl; [done| |]; intros [= <-]; eauto. Qed.
Lemma time_cell_ok r v : time_cell format r = Ok v -> v = PgNull \/ exists s, v = PgVTimestamp s.
Proof.
  destruct r as [e|[t|]]; simpl; [done| |by intros [= <-]; left].
  destruct (Postgres.from_naive t); simpl; try done. intros [= <-]. eauto.
Qed.

(** A value that is read has a type the column's allows; a column of another type is an error. *)
Lemma column_value_typed row i v name ty : pg_columns row !! i = Some (name, ty) ->
  column_value format row i = Ok v -> pg_value_of ty v.
Proof.
  unfold column_value. intros ->.
  destruct ty; try done; intros [->|[a ->]]%cell_ok || intros [->|[a ->]]%time_cell_ok;
    constructor; try done; auto 6.
Qed.

Lemma row_columns_ok row cols : forall i r, (forall j, cols !! j = pg_columns row !! (i + j)%nat) ->
  py_row_columns format row i cols = Ok r -> r.*1 = cols.*1 /\ Forall2 (fun c v => pg_value_of c.2 v.2) cols r.
Proof.
  induction cols as [|[name ty] cols IH]; intros i r Hc; simpl.
  - by intros [= <-].
  - destruct (column_value format row i) as [v| | |] eqn:Hv; try done.
    destruct (py_row_columns format row (S i) cols) as [r'| | |] eqn:Hr; simpl; try done. intros [= <-].
    destruct (IH (S i) r') as [Hn Hf]; [|done|].
    { intros j. pose proof (Hc (S j)) as Hj. simpl in Hj. rewrite Hj. f_equal. lia. }
    split; [csimpl; by rewrite Hn|]. constructor; [|done]. eapply column_value_typed; [|done].
    pose proof (Hc 0%nat) as H0. rewrite Nat.add_0_r in H0. by rewrite <- H0.
Qed.

(** A row that is read has the columns of the query, each a value of its type. *)
Theorem read_row_typed (row : R) (t : Z) (r : PyPgRow) : PyPgRow_from_row format row = Ok (t, r) ->
  r.*1 = (pg_columns row).*1 /\ Forall2 (fun c v => pg_value_of c.2 v.2) (pg_columns row) r.
Proof.
  unfold PyPgRow_from_row. destruct (Postgres.get_nanotime row _); try done.
  destruct (py_row_columns format row 0 (pg_columns row)) as [r'| | |] eqn:Hr; simpl; try done. intros [= <- <-].
  by apply (row_columns_ok row (pg_columns row) 0).
Qed.
End pg_row_facts.

(** ** Queries for PostgreSQL *)

Lemma trim_start_off off s : Forall (fun c => off c = true) s -> forall s', trim_start off (s ++ s') = trim_start off s'.
Proof. induction 1 as [|c s Hc _ IH]; intros s'; simpl; [done|]. by rewrite Hc. Qed.
Lemma trim_start_keep off c s : off c = false -> trim_start off (c :: s) = c :: s.
Proof. intros Hc. simpl. by rewrite Hc. Qed.
Lemma trim_end_off off s s' : Forall (fun c => off c = true) s' -> trim_end off (s ++ s') = trim_end off s.
Proof.
  intros Hs. unfold trim_end. rewrite rev_app_distr, trim_start_off; [done|].
  rewrite Forall_forall in Hs |- *. intros c Hc. apply Hs. by apply list_elem_of_In, in_rev, list_elem_of_In.
Qed.
Lemma trim_end_keep off s c : off c = false -> trim_end off (s ++ [c]) = s ++ [c].
Proof. intros Hc. unfold trim_end. rewrite rev_app_distr. simpl. rewrite Hc. simpl. by rewrite rev_involutive. Qed.

(** Semicolons at the end of the program's query, with white space around them, do not
    change what is sent. *)
Theorem semicolons_dropped (a b : ascii) (q semis before after : bytes) :
  Postgres.is_whitespace a = false -> Postgres.is_whitespace b = false -> b <> ";"%char ->
  Forall (fun c => Postgres.is_whitespace c = true) before -> Forall (fun c => Postgres.is_whitespace c = true) after ->
  Forall (fun c => c = ";"%char) semis ->
  wrapped_query (before ++ (a :: q) ++ [b] ++ semis ++ after) = (a :: q) ++ [b].
Proof.
  intros Ha Hb Hsemi Hbef Haft Hs. unfold wrapped_query.
  rewrite trim_start_off by done. cbn [app]. rewrite trim_start_keep by done.
  change (a :: q ++ b :: semis ++ after) with ((a :: q) ++ [b] ++ semis ++ after).
  rewrite !app_assoc, (trim_end_off _ _ after) by done.
  assert (Hstep : trim_end (Ascii.eqb ";") (trim_end Postgres.is_whitespace (((a :: q) ++ [b]) ++ semis)) = (a :: q) ++ [b]).
  { destruct semis as [|s semis _] using rev_ind.
    - rewrite app_nil_r, !trim_end_keep; [done|by apply Ascii.eqb_neq|done].
    - apply Forall_app in Hs as [Hs [-> _]%Forall_cons]. rewrite (app_assoc _ semis), trim_end_keep by done.
      rewrite <- app_assoc, trim_end_off, trim_end_keep; [done|by apply Ascii.eqb_neq|].
      apply Forall_app. split; [|by constructor]. eapply Forall_impl; [exact Hs|]. by intros ? ->. }
  rewrite Hstep. by rewrite trim_end_keep.
Qed.

(** ** Rows for kdb+ *)

Section kdb_facts.
Context {X : Type} `{!Extract X, !ExtractLaws X, !Downcast X}.
Context (show_f64 : f64 -> bytes) (format_time : Z -> bytes) (cast_error : PyObj -> string).

(** A symbol is put into the text as it is: one that ends like a value is the text of
    two columns. *)
Theorem kdb_symbol_injection (table c d s : bytes) (t n : Z) (rest : list (PyObj * PyObj)) : c <> d -> is_i64 n ->
  kdb_insert (X:=X) show_f64 format_time cast_error table [(c, lit "symbol")] t
    (PDict ((PStr c, PStr (s ++ lit "; enlist " ++ lit (pretty n) ++ lit "j")) :: rest)) =
  kdb_insert (X:=X) show_f64 format_time cast_error table [(c, lit "symbol"); (d, lit "long")] t
    (PDict [(PStr c, PStr s); (PStr d, PInt n)]).
Proof.
  intros Hcd Hn. unfold kdb_insert, kdb_fragments, kdb_fragment. cbn [get_item].
  rewrite !bool_decide_eq_true_2, (bool_decide_eq_false_2 (c = d)) by done. eval_one_of.
  rewrite !string_law, (bool_decide_eq_true_2 (d = d)), i64_law by done. cbn [extracted sum_map join]. by rewrite <- !app_assoc.
Qed.

Context {S K : Type} `{Kdb.KValue K, !Kdb.KdbWrite.KAtom K f64 f64, !Kdb.Client S K}.

(** The writer returns without an error exactly where every element is a row and the
    server takes the text of each; the texts are sent one by one in the order of the elements. *)
Theorem kdb_write_sends table columns (source : list (Z * PyObj)) (s s' : S) :
  py_kdb_write_loop (X:=X) show_f64 format_time cast_error table columns source s = (Ok tt, s') <->
  exists qs, Forall2 (fun te q => kdb_insert (X:=X) show_f64 format_time cast_error table columns te.1 te.2 = inr q) source qs /\
    delivered qs s s'.
Proof.
  revert s. induction source as [|[t o] source IH]; intros s; cbn [py_kdb_write_loop].
  - split.
    + intros [= <-]. exists []. split; constructor.
    + intros (qs & ->%Forall2_nil_inv_l & Hd). by inversion Hd.
  - destruct (kdb_insert _ _ _ table columns t o) as [e|q] eqn:Hq.
    { split; [done|]. intros (qs & (q & qs' & Hq' & _ & ->)%Forall2_cons_inv_l & _). simpl in Hq'. congruence. }
    destruct (Kdb.send_sync_message q s) as [[e|r] s1] eqn:Hs.
    { split; [done|]. intros (qs & (q' & qs' & Hq' & _ & ->)%Forall2_cons_inv_l & Hd). simpl in Hq'.
      inversion Hd; subst. congruence. }
    destruct (Z.eqb_spec (Kdb.get_type r) Kdb.qtype.ERROR) as [Hr|Hr].
    { split; [done|]. intros (qs & (q' & qs' & Hq' & _ & ->)%Forall2_cons_inv_l & Hd). simpl in Hq'.
      inversion Hd; subst. congruence. }
    rewrite IH. split.
    + intros (qs & Hf & Hd). exists (q :: qs). split; [by constructor|]. by econstructor.
    + intros (qs & (q' & qs' & Hq' & Hf & ->)%Forall2_cons_inv_l & Hd). simpl in Hq'.
      inversion Hd; subst. assert (q' = q) as -> by congruence. exists qs'. split; [done|]. congruence.
Qed.
End kdb_facts.

(** ** Configurations of augurs *)

Section augurs_facts.
Context {F : Type} `{Num F} {X : Type} (show : F -> string).

(** A forecast is configured exactly where the level is strictly between 0 and 1 and no
    period is below 2; an empty list of periods is none. *)
Theorem forecast_config_valid window horizon level min_points periods :
  (exists c, forecast_config (X:=X) show window horizon level min_points periods = inr c) <->
  (forall l, level = Some l -> inside_unit l = true) /\ (forall ps, periods = Some ps -> Forall (le 2) ps).
Proof.
  assert (Hps : forall ps, existsb (fun p => Nat.ltb p 2) ps = false <-> Forall (le 2) ps).
  { induction ps as [|p ps IH]; simpl; [split; [constructor|done]|].
    rewrite orb_false_iff, Nat.ltb_ge, IH, Forall_cons. done. }
  unfold forecast_config. split.
  - intros [c Hc]. destruct level as [l|].
    + destruct (inside_unit l) eqn:Hl; simpl in Hc; [|done]. split; [by intros ? [= <-]|].
      intros [|p ps] [= ->]; [constructor|]. apply Hps. by destruct (existsb _ _).
    + split; [done|]. simpl in Hc. intros [|p ps] [= ->]; [constructor|]. apply Hps. by destruct (existsb _ _).
  - intros [Hl Hp]. destruct level as [l|]; [rewrite (Hl l eq_refl)|]; simpl;
      (destruct periods as [[|p ps]|]; [by eexists| |by eexists]);
      rewrite (proj2 (Hps (p :: ps))) by (by apply Hp); by eexists.
Qed.
End augurs_facts.

Lemma nan_level_refused : inside_unit (F:=f64) Float.nan = false.
Proof. done. Qed.

(** ** An instance: the conversions that the laws determine *)

Module Small.
Definition Z_in (lo hi z : Z) : bool := (lo <=? z) && (z <=? hi).
Definition int_in (lo hi : Z) (o : PyObj) : string + Z :=
  match o with
  | PInt z => if Z_in lo hi z then inr z else inl "OverflowError"%string
  | _ => inl "TypeError"%string
  end.
Fixpoint byte_items (l : list PyObj) : string + bytes :=
  match l with
  | [] => inr []
  | o :: l => match int_in 0 255 o with inl e => inl e | inr z => sum_map (cons (byte_of_Z z)) (byte_items l) end
  end.
Definition floats (o : PyObj) : string + f64 :=
  match o with PFloat f => inr f | PInt z => inr (Float.of_Z z) | _ => inl "TypeError"%string end.

#[export] Instance extract_small : Extract string := {
  extract_string o := match o with PStr s => inr s | _ => inl "TypeError"%string end;
  extract_vec_u8 o := match o with PBytes b => inr b | PList l => byte_items l | _ => inl "TypeError"%string end;
  extract_bool o := match o with PBool b => inr b | _ => inl "TypeError"%string end;
  extract_i32 := int_in (- 2 ^ 31) (2 ^ 31 - 1);
  extract_i64 := int_in (- 2 ^ 63) i64_max;
  extract_u64 := int_in 0 u64_max;
  extract_f64 := floats;
  extract_f32 := floats;
  extract_vec_f64 o := match o with PList l => Kdb.KdbWrite.collect floats l | _ => inl "TypeError"%string end;
  exc_text e := e }.

#[export] Instance extract_small_laws : ExtractLaws string.
Proof.
  split; try done; try (by eexists); intros z Hz; simpl; unfold Z_in, is_i64, is_u64 in *.
  - rewrite (proj2 (Z.leb_le _ _)), (proj2 (Z.leb_le _ _)); [done|lia..].
  - destruct (Z.leb_spec (- 2 ^ 63) z), (Z.leb_spec z i64_max); simpl; eauto. lia.
  - rewrite (proj2 (Z.leb_le _ _)), (proj2 (Z.leb_le _ _)); [done|lia..].
Qed.

#[export] Instance serde_small : SerdeJson := {
  Number := Z + f64;
  from_i64 := inl;
  from_u64 := inl;
  from_f64 f := if is_finite f then Some (inr f) else None;
  as_i64 n := match n with inl z => if Z_in (- 2 ^ 63) i64_max z then Some z else None | inr _ => None end;
  as_u64 n := match n with inl z => if Z_in 0 u64_max z then Some z else None | inr _ => None end;
  as_f64 n := match n with inl z => Some (Float.of_Z z) | inr f => Some f end;
  map_insert V k v m := (k, v) :: filter (fun kv => kv.1 <> k) m }.

Lemma Z_in_spec lo hi z : Z_in lo hi z = true <-> lo <= z <= hi.
Proof. unfold Z_in. rewrite andb_true_iff, !Z.leb_le. done. Qed.

Lemma filter_absent {V} (k : bytes) (m : list (bytes * V)) : k ∉ m.*1 -> filter (fun kv => kv.1 <> k) m = m.
Proof.
  induction m as [|[k' v'] m IH]; intros Hk; [done|]. rewrite filter_cons, decide_True.
  - f_equal. apply IH. set_solver.
  - simpl. set_solver.
Qed.

#[export] Instance serde_small_laws : SerdeJsonLaws.
Proof.
  split; simpl.
  - intros z Hz. by rewrite (proj2 (Z_in_spec _ _ _) Hz).
  - intros z _ Hz. by rewrite (proj2 (Z_in_spec _ _ _) Hz).
  - intros z Hu Hi. rewrite (proj2 (Z_in_spec _ _ _) Hu). split; [|done].
    destruct (Z_in _ _ z) eqn:Hz; [|done]. by apply Z_in_spec in Hz.
  - intros f ->. by eexists.
  - by intros f ->.
  - intros V k v m Hk. by rewrite filter_absent.
Qed.

#[export] Instance downcast_small : Downcast string := {
  anyhow_text l := match l with LeafPy x => x | LeafBinding (Python.TypeError m) | LeafBinding (Python.ValueError m) => m end;
  text_leaf s := Some (LeafPy s) }.
End Small.
Import Small.

(** {"a": [1, -2.5, None], "b": b"xy"}. *)
Definition sample_float : f64 := Eval vm_compute in (fdiv (of_Z (-5)) (of_Z 2)).
Definition sample_object : PyObj :=
  PDict [(PStr (lit "a"), PList [PInt 1; PFloat sample_float; PNone]); (PStr (lit "b"), PBytes (lit "xy"))].

Lemma sample_jsonable : jsonable sample_object.
Proof.
  apply (js_dict [(lit "a", PList [PInt 1; PFloat sample_float; PNone]); (lit "b", PBytes (lit "xy"))]).
  - by apply (bool_decide_unpack _).
  - repeat constructor; unfold is_i64, i64_max; lia.
Qed.

Lemma json_roundtrip_witness :
  serde_to_py (published (X:=string) sample_object) =
    PDict [(PStr (lit "b"), PList [PInt 120; PInt 121]); (PStr (lit "a"), PList [PInt 1; PFloat sample_float; PNone])] /\
  arrives sample_object (serde_to_py (published (X:=string) sample_object)).
Proof.
  split; [by vm_compute|]. apply (json_roundtrip (X:=string)). exact sample_jsonable.
Defined.

Lemma wire_roundtrip_witness :
  iceoryx2_pub_burst (X:=string) (Some ["recv"; "send"]%string)
    (PTraced (PBytes (lit "p")) (mkPyLatency ["recv"; "send"]%string (index_of ["recv"; "send"]%string) [1; 258])) =
    inr [lit "" ++ map byte_of_Z [1;0;0;0;0;0;0;0; 2;1;0;0;0;0;0;0] ++ lit "p"] /\
  exists message, iceoryx2_pub_burst (X:=string) (Some ["recv"; "send"]%string)
    (PTraced (PBytes (lit "p")) (mkPyLatency ["recv"; "send"]%string (index_of ["recv"; "send"]%string) [1; 258])) = inr [message] /\
    iceoryx2_sub_element (Some ["recv"; "send"]%string) [message] =
      PList [PTraced (PBytes (lit "p")) (mkPyLatency ["recv"; "send"]%string (index_of ["recv"; "send"]%string) [1; 258])].
Proof.
  split; [by vm_compute|]. apply (wire_roundtrip (X:=string) ["recv"; "send"]%string).
  - split; [by apply (bool_decide_unpack _)|done|done].
  - repeat constructor; unfold is_u64, u64_max; lia.
Defined.

(** A row of three columns, one of them NULL; a string is not an [int8]. *)
Definition sample_columns : list (bytes * bytes) :=
  [(lit "sym", lit "text"); (lit "qty", lit "bigint"); (lit "px", lit "double")].

Lemma write_row_typed_witness :
  Forall2 (column_ok (X:=string) [(PStr (lit "px"), PNone); (PStr (lit "qty"), PInt 7); (PStr (lit "sym"), PStr (lit "A"))])
    sample_columns [PgText (Some (lit "A")); PgInt8 (Some 7); PgFloat8 None].
Proof. apply write_row_typed. by vm_compute. Defined.
Example row_of_wrong_type :
  dict_to_write_row (X:=string)
    [(PStr (lit "px"), PNone); (PStr (lit "qty"), PStr (lit "7")); (PStr (lit "sym"), PStr (lit "A"))] sample_columns =
    inl (Msg "postgres_write: column 'qty' (bigint): TypeError").
Proof. by vm_compute. Qed.

(** One symbol that is two columns. *)
Lemma kdb_symbol_injection_witness :
  kdb_insert (X:=string) (fun _ => []) (fun _ => lit "T") (fun _ => EmptyString) (lit "t") [(lit "s", lit "symbol")] 0
    (PDict [(PStr (lit "s"), PStr (lit "a; enlist 7j"))]) = inr (lit "insert[`t; (enlist T; enlist`a; enlist 7j)]") /\
  kdb_insert (X:=string) (fun _ => []) (fun _ => lit "T") (fun _ => EmptyString) (lit "t") [(lit "s", lit "symbol")] 0
    (PDict [(PStr (lit "s"), PStr (lit "a" ++ lit "; enlist " ++ lit (pretty 7) ++ lit "j"))]) =
  kdb_insert (X:=string) (fun _ => []) (fun _ => lit "T") (fun _ => EmptyString) (lit "t")
    [(lit "s", lit "symbol"); (lit "n", lit "long")] 0
    (PDict [(PStr (lit "s"), PStr (lit "a")); (PStr (lit "n"), PInt 7)]).
Proof.
  split; [by vm_compute|]. apply (kdb_symbol_injection (X:=string)); [done|]. unfold is_i64, i64_max. lia.
Defined.

Lemma semicolons_dropped_witness :
  wrapped_query (lit " select 1;; ") = lit "select 1" /\
  wrapped_query (lit " " ++ ("s"%char :: lit "elect ") ++ ["1"%char] ++ lit ";;" ++ lit " ") = ("s"%char :: lit "elect ") ++ ["1"%char].
Proof. split; [by vm_compute|]. apply semicolons_dropped; try done; repeat constructor. Defined.
